(* ===== verification/_CoqProject ===== *)
-Q . S2P
Prelude.v
Timers.v
Codec.v
IcacheBuffer.v
StreamProtocol.v
Websocket.v
Scheduler.v
TcpConnection.v
WebsocketApi.v
ObjectLoop.v
Signals.v
ThreadPool.v
Queue.v
Uuid.v
GattDb.v
GattAttr.v
Att.v
AttSafety.v
GattServer.v
GattServerOk.v
GattServerData.v
GattHelpers.v
GattHelpersOk.v
GattIter.v
GattDiscovery.v
Iutils.v
DeviceProtocol.v
HexFile.v
UpdateFile.v
DeviceUpdater.v
DeviceUpdaterOk.v
Dns.v
Digest.v
Sha1.v
Sha256.v
Md5.v
Base64.v
Http.v
Handshake.v
TcpServer.v
