(* ===== verification/Prelude.v ===== *)
(** * A verification library for signal-event-loop

    The repository is a C++ event library (an event loop with objects, signals,
    timers, pollers and network protocols, under src/core, src/imp and src/log)
    with the programs built on it, and a C Bluetooth GATT server under
    src/examples/gatt.  This library models the parts below in Gallina and
    proves what they guarantee.

    ** Files and the code they model

    - [Prelude]: integers of a fixed width ([wrap]), byte strings, [memcpy_at]
      and [memread] (which fail where the C code leaves its buffer), network
      byte order, masks, the lemmas and automation shared by all files.
    - [Timers]: class Timer and the timer table of class Object
      (src/core/object.h, object.cpp): table, identifiers, the ordered schedule
      timerEventsMap, and handleTimerEvent with the slots of the timeouts as
      sequences of timer operations run inside the batch.
    - [Codec]: ProtocalBase (src/imp/network/base/protocal-base.h, .cpp) as a class
      [Codec] with its laws: what a protocol promises to the frame cache.
    - [IcacheBuffer]: the frame caches (base/icache_buffer.cpp,
      icache_buffer_stream.cpp, icache_buffer_udp.cpp): reading from a
      descriptor, cutting the bytes into frames, compaction and growth of the
      buffer, the send side; proved against the interface [Codec].
    - [StreamProtocol], [Websocket]: two implementations of the interface
      (protocal_stream.cpp, websocket/protocal_websocket.cpp).
    - [Scheduler]: IoChannel and the epoll and select pollers
      (src/core/io-channel.cpp, epoll-task-scheduler.cpp,
      select-task-scheduler.cpp), with the kernel's interest set as state.
    - [TcpConnection]: src/imp/network/tcp-connection-manager.cpp, a client of
      the frame cache and of the pollers.
    - [WebsocketApi]: src/imp/network/websocket/websocket_api_base.cpp, a websocket
      connection: a client of [TcpConnection] and of the framing of [Websocket].
    - [ObjectLoop]: the trigger queues and the tree of objects, a turn of the
      loop, the time the loop sleeps (src/core/object.cpp,
      task-scheduler.cpp).  What events and timer slots do (post, start and stop
      timers, create and destroy objects) is done while the turn runs; what a timer does to itself is
      in [Timers].  [ObjectLoop.Race] interleaves two threads.
    - [Signals]: Signal, Connection and the table of connections of Object
      (src/core/object.h, object.cpp): objects, signals and connections in heaps,
      slots that connect, disconnect, call and destroy from inside an emission.
    - [ThreadPool]: src/core/thread-pool.h, thread-pool.cpp: workers, schedulers,
      cancelling and joining threads as one state machine whose labels are the
      choices of the scheduler, the clock and the condition variable.
    - [Queue]: the linked queue of the GATT server (shared/queue.c) on an
      explicit memory of cells.
    - [Uuid]: lib/uuid.c, the three forms of a UUID, text and order.
    - [GattDb]: shared/gatt-db.c, services, attributes, enumeration,
      notification; it uses the queues through the list model that [Queue]
      proves them to refine, and [Uuid].
    - [GattAttr]: reading and writing an attribute of the database, pending
      results, timeouts, registrations.
    - [Att], [AttSafety]: shared/att.c, the ATT transport: channels, the queues
      of operations, timeouts, writing and reading of PDUs, disconnection
      ([Att]), and the invariant with what follows from it ([AttSafety]).  A received
      PDU is read through a pointer into the buffer of its channel, which
      bt_att_set_mtu replaces.
    - [GattServer], [GattServerOk], [GattServerData]: shared/gatt-server.c, the
      handlers of the ATT requests over the database of [GattDb] and [GattAttr],
      long writes, notifications ([GattServer]); responses whose opcode the transport does
      not know are refused as in [Att]; the invariant and the answers
      ([GattServerOk]); access rights, what is read and written, and the uses that
      leave a buffer or a freed server ([GattServerData]).
    - [GattHelpers], [GattHelpersOk]: shared/gatt-helpers.c, the procedures of the
      client: a request, its operations in the transport, its references, results
      and iterators, as a state that answers and calls of the user change; a
      cancellation says whether the transport finds the operation.
    - [GattIter]: the iterators over results; [GattDiscovery]: the client of
      [GattHelpers] and the server of [GattServer] over a database together.
    - [Iutils]: src/imp/common/iutils.cpp, the CRC of packets, suffixes of file names.
    - [DeviceProtocol]: src/imp/device-update/Protocol.cpp, the frames between the
      updater and a device.
    - [HexFile], [UpdateFile]: src/imp/device-update/update-type-def.cpp and
      update-file.cpp, HEX records, the update file and its slices.
    - [DeviceUpdater], [DeviceUpdaterOk]: src/imp/device-update/device_updater.cpp, the
      updater as a state that calls, bytes from the device and timeouts change
      ([DeviceUpdater]); a whole update, the size of frames, noise ([DeviceUpdaterOk]).
    - [Dns]: src/imp/dns-solver.cpp, the query and the reply of a name server.
    - [Digest]: what the hash functions share: words of 32 bits, a message taken in
      blocks through a buffer, padding.  [Sha1]: ws_sha1_* and ws_hmac_sha1 of
      src/imp/network/websocket/websocket_connection_helper.cpp; [Sha256]: sha256 of
      src/imp/common/iutils.cpp; [Md5]: src/third_party/md5/md5.cpp.
    - [Base64]: src/third_party/base64/base64.cpp.
    - [Http]: src/imp/network/websocket/protocal-http.cpp, HTTP messages on a stream.
    - [Handshake]: the rest of websocket_connection_helper.cpp, the websocket handshake as a
      connection over [Http], the caches, the pollers and the hash functions.
    - [TcpServer]: src/imp/network/itcp-server.cpp, listening, accepting and connecting
      with tokens and timeouts, a client of the pollers.

    ** Conventions

    A C or C++ function is a Gallina function with the same name.  Its state is
    passed explicitly; [option] is used for undefined behaviour (a null or
    freed pointer, an access outside a buffer), so a theorem that a result is
    [Some] says that the code has none.  A C result of false, 0 or NULL is an
    ordinary value.  Unsigned arithmetic wraps at its width.  Callbacks are
    either parameters or recorded as events with their arguments.  Recursion
    that is not structural has fuel; each file proves that the fuel its
    callers pass is enough: the number of cells of the memory for [Queue], the
    number of bytes for the parsing loops of [IcacheBuffer], the number of
    objects for the tree of [ObjectLoop] (parents are created before their
    children, so a path is shorter than the identifier it starts from).

    Code outside the repository is a parameter: the operating system's read
    and write results are arguments of the operations, the clock is an
    argument, the order in which a poller reports descriptors is an argument.

    ** Groups of theorems

    - [Timers]: the table and the schedule agree in every reachable state; a
      batch runs exactly the due timers; stopping unschedules; a timer that is
      restarted by its own slot outside the discipline stated there leaves a
      stale entry ([discipline_is_needed]).
    - [IcacheBuffer], [StreamProtocol], [Websocket], [TcpConnection]: encoding
      and decoding are inverse; the cache delivers the frames of the byte
      stream for every segmentation; what is sent arrives on the wire in
      order; the bounds where lengths wrap or buffers overflow.
    - [WebsocketApi]: a server end answers every text and ping once and in order,
      through all those layers, whatever the events are.
    - [Scheduler], [ObjectLoop]: both pollers watch the same descriptors; a
      channel removed by a handler is not called afterwards; an object with a
      pending trigger is reached by the next turn and a turn uses no destroyed object as long as
      callbacks keep to the rule of object.h ([destroyed_sibling_dangles] shows what breaks it), the loop does not sleep on
      pending work, and the two ways in which it can be late.
    - [Signals]: disconnecting stops and removes exactly one connection; no
      freed object is used by operator() whatever the slots do; every connection
      is served once and in order; [emit] lacks the test that makes this safe.
    - [ThreadPool]: join() always completes and leaves no due task; an accepted task is in
      exactly one place and is run at most once, unless two threads push it at the same time ([push_race]); a task cancelled in the queue is not run; a due task can wait
      although a worker is idle.
    - [GattAttr]: every read and write passed on is answered once and no timer
      outlives its entry; what a write stores and a read returns.
    - [AttSafety]: every request is answered, timed out or cancelled exactly
      once; an encoded PDU is opcode, payload and signature; requests lost with their channel; a
      handler that sets the MTU frees the PDU the next handler is shown ([set_mtu_frees_pdu]).
    - [GattServerOk]: a request is answered exactly once, whenever the
      application completes its reads and writes, except that the transport refuses the response to a successful Read Multiple
      Variable Length request; the timeouts settle what is left;
      an attribute without write permission is never written.
    - [GattServerData]: access is granted exactly as the permissions say; a long
      write is one write, a long read is the whole value; batches of notifications;
      two overflows and the pointers a released server leaves behind.
    - [GattHelpersOk]: a request lives as its references say and calls back once, for every server
      that does not crash the client and every user who does not cancel at the wrong time; discovering services ends, discovering
      characteristics need not; the answers that make the client crash and the cancellations that lose a reference.
    - [GattIter], [GattDiscovery]: iterators return every element once; a discovery
      over the server finds exactly the services of its database.
    - [DeviceProtocol], [Iutils]: frames read back, what check code and CRC detect.
    - [HexFile], [UpdateFile]: a HEX file is read as the memory it describes up to the
      first gap; loading stays in its buffers; the search for the version of a
      file; the slices cut the program exactly.
    - [DeviceUpdaterOk]: a device that answers gets the whole program, in order; every
      frame fits a HID report; noise is never left.
    - [Dns]: the query is that of RFC 1035 and a well-formed reply is understood; which
      failures are reported.
    - [Sha1], [Sha256], [Md5]: the digests are those of FIPS 180-4 and RFC 1321, however
      the message is cut; [Base64]: encoding and the round trip.
    - [Http]: what is packed is decoded and parsed back, whatever parts of it arrive first.
    - [Handshake]: client and server complete a handshake and hand their descriptors over;
      what they refuse.
    - [TcpServer]: every token is settled once, every descriptor is closed once or handed
      over, whatever the calls, timeouts and events are.
    - [Queue], [Uuid], [GattDb]: refinement of lists, safety of iteration under
      removal by callbacks, printing and parsing, the order, handles that name
      exactly one attribute, exact enumeration, declarations that read back.

    ** Not modelled

    The hand-over of calls between the threads of two objects (futures), the
    cache of gatt-client.c and the UDP echo server are not modelled.  Of the GATT server, services that are added or removed while
    it runs, and the callbacks of a confirmed indication, are left out.  Logging,
    command line tools, terminal output, hardware access (CAN, HID, serial lines,
    Bluetooth sockets) and the vendored code (Lua, sol, JSON)
    are not modelled: they are input and output, or libraries that the
    code only calls. *)
From stdpp Require Export base numbers list gmap sets relations sorting.
From Stdlib Require Export Lia ZArith.
#[global] Open Scope Z_scope.

(** ** Machine-width integers *)

(** The value a C++ unsigned integer of [w] bits keeps of [x]. *)
Definition wrap (w x : Z) : Z := x mod 2 ^ w.

Abbreviation u8 := (wrap 8).
Abbreviation u16 := (wrap 16).
Abbreviation u32 := (wrap 32).
Abbreviation u64 := (wrap 64).

(** ** Byte strings *)

(** A byte string: every element is an unsigned 8-bit value. *)
Definition is_byte (b : Z) : Prop := 0 <= b < 256.
Definition bytes_ok (l : list Z) : Prop := Forall is_byte l.

(** [zlen l] is the length of [l] as the integer the code computes with. *)
Definition zlen {A} (l : list A) : Z := Z.of_nat (length l).

(** [slice off len l] is the [len] elements of [l] that start at [off]. *)
Definition slice {A} (off len : Z) (l : list A) : list A :=
  take (Z.to_nat len) (drop (Z.to_nat off) l).

(** [memcpy_at dst off src] overwrites [dst] from [off] with [src]; [None] is
    the out-of-bounds write the C++ program would perform. *)
Definition memcpy_at {A} (dst : list A) (off : Z) (src : list A) : option (list A) :=
  if bool_decide (0 <= off /\ off + zlen src <= zlen dst)
  then Some (take (Z.to_nat off) dst ++ src ++ drop (Z.to_nat (off + zlen src)) dst)
  else None.

(** [memread src off len] reads [len] elements at [off]; [None] is an
    out-of-bounds read. *)
Definition memread {A} (src : list A) (off len : Z) : option (list A) :=
  if bool_decide (0 <= off /\ 0 <= len /\ off + len <= zlen src)
  then Some (slice off len src) else None.

(** Network byte order: the [n] bytes of [x], most significant first, and the
    value such bytes denote ([htobeN] followed by a copy, and [beNtoh]). *)
Fixpoint be_bytes (n : nat) (x : Z) : list Z :=
  match n with
  | O => []
  | S n' => (x / 2 ^ (8 * Z.of_nat n')) mod 256 :: be_bytes n' x
  end.

Fixpoint be_value_from (acc : Z) (l : list Z) : Z :=
  match l with
  | [] => acc
  | b :: l' => be_value_from (acc * 256 + b) l'
  end.

Definition be_value (l : list Z) : Z := be_value_from 0 l.

(** Exclusive-or of a byte string with a repeated mask. *)
Definition xor_mask (mask data : list Z) : list Z :=
  imap (fun i b => Z.lxor b (nth (i mod length mask)%nat mask 0)) data.

(** Sum of a byte string, as accumulated by the checksum loops. *)
Definition zsum (l : list Z) : Z := foldr Z.add 0 l.

(** ** Lemmas *)

Create HintDb aimy.
Create Rewrite HintDb aimy.

Lemma wrap_range w x : 0 <= w -> 0 <= wrap w x < 2 ^ w.
Proof. intros. apply Z.mod_pos_bound. lia. Qed.

Lemma wrap_small w x : 0 <= x < 2 ^ w -> wrap w x = x.
Proof. apply Z.mod_small. Qed.


Lemma zlen_nonneg {A} (l : list A) : 0 <= zlen l.
Proof. unfold zlen; lia. Qed.

Lemma zlen_app {A} (l1 l2 : list A) : zlen (l1 ++ l2) = zlen l1 + zlen l2.
Proof. unfold zlen; rewrite length_app; lia. Qed.

Lemma zlen_nil {A} : zlen (@nil A) = 0.
Proof. reflexivity. Qed.

Lemma zlen_cons {A} (x : A) l : zlen (x :: l) = 1 + zlen l.
Proof. unfold zlen; simpl length; lia. Qed.

Lemma zlen_replicate {A} n (x : A) : zlen (replicate n x) = Z.of_nat n.
Proof. unfold zlen; by rewrite length_replicate. Qed.

Lemma zlen_drop {A} n (l : list A) : zlen (drop n l) = Z.max 0 (zlen l - Z.of_nat n).
Proof. unfold zlen. rewrite length_drop. lia. Qed.

Lemma zlen_0_nil {A} (l : list A) : zlen l = 0 -> l = [].
Proof. destruct l; [done|]. rewrite zlen_cons. pose proof (zlen_nonneg l). lia. Qed.

#[export] Hint Resolve zlen_nonneg : aimy.
#[export] Hint Rewrite @zlen_app @zlen_nil @zlen_cons @zlen_replicate : aimy.

(** Arithmetic on lengths: normalise [zlen], then [lia]. *)
Ltac zlen_lia :=
  autorewrite with aimy in *;
  repeat match goal with
  | l : list ?A |- _ =>
      lazymatch goal with
      | _ : 0 <= zlen l |- _ => fail
      | _ => pose proof (zlen_nonneg l)
      end
  end; unfold zlen in *; lia.

(** *** Slices *)

Lemma zlen_slice {A} off len (l : list A) :
  0 <= off -> 0 <= len -> off + len <= zlen l -> zlen (slice off len l) = len.
Proof. unfold slice, zlen. intros. rewrite length_take, length_drop. lia. Qed.

Lemma slice_0 {A} off (l : list A) : slice off 0 l = [].
Proof. done. Qed.

Lemma slice_all {A} (l : list A) : slice 0 (zlen l) l = l.
Proof. unfold slice, zlen. rewrite drop_0. apply take_ge. lia. Qed.

Lemma slice_app_l {A} off len (l1 l2 : list A) :
  0 <= off -> 0 <= len -> off + len <= zlen l1 -> slice off len (l1 ++ l2) = slice off len l1.
Proof.
  unfold slice, zlen. intros. rewrite drop_app_le by lia.
  apply take_app_le. rewrite length_drop. lia.
Qed.

Lemma slice_app_r {A} off len (l1 l2 : list A) :
  zlen l1 <= off -> slice off len (l1 ++ l2) = slice (off - zlen l1) len l2.
Proof.
  unfold slice, zlen. intros. rewrite drop_app_ge by lia. do 2 f_equal. lia.
Qed.

Lemma slice_split {A} off n m (l : list A) :
  0 <= off -> 0 <= n -> 0 <= m ->
  slice off (n + m) l = slice off n l ++ slice (off + n) m l.
Proof.
  unfold slice. intros. rewrite !Z2Nat.inj_add by lia.
  rewrite <- drop_drop. rewrite <- (take_drop (Z.to_nat n) (take _ (drop (Z.to_nat off) l))).
  rewrite take_take, Nat.min_l by lia. f_equal.
  rewrite skipn_firstn_comm. f_equal. lia.
Qed.

Lemma slice_slice {A} o1 n1 o2 n2 (l : list A) :
  0 <= o1 -> 0 <= o2 -> 0 <= n2 -> o2 + n2 <= n1 ->
  slice o2 n2 (slice o1 n1 l) = slice (o1 + o2) n2 l.
Proof.
  unfold slice. intros. rewrite skipn_firstn_comm, take_take, drop_drop.
  rewrite Nat.min_l by lia. do 2 f_equal. lia.
Qed.

Lemma slice_drop {A} off (l : list A) :
  0 <= off -> off <= zlen l -> slice off (zlen l - off) l = drop (Z.to_nat off) l.
Proof. unfold slice, zlen. intros. apply take_ge. rewrite length_drop. lia. Qed.

(** *** Copies *)

Lemma memcpy_at_Some {A} (dst : list A) off src :
  0 <= off -> off + zlen src <= zlen dst ->
  memcpy_at dst off src
  = Some (take (Z.to_nat off) dst ++ src ++ drop (Z.to_nat (off + zlen src)) dst).
Proof. intros. unfold memcpy_at. rewrite bool_decide_true; [done|lia]. Qed.

Lemma memcpy_at_None {A} (dst : list A) off src :
  zlen dst < off + zlen src -> memcpy_at dst off src = None.
Proof. intros. unfold memcpy_at. rewrite bool_decide_false; [done|lia]. Qed.

Lemma memcpy_at_len {A} (dst : list A) off src dst' :
  memcpy_at dst off src = Some dst' -> zlen dst' = zlen dst.
Proof.
  unfold memcpy_at. case_bool_decide; [|done]. intros [= <-].
  autorewrite with aimy. unfold zlen in *. rewrite length_take, length_drop. lia.
Qed.

(** The copied region holds the source, the rest of the buffer is unchanged. *)
Lemma memcpy_at_slice {A} (dst : list A) off src dst' :
  memcpy_at dst off src = Some dst' -> slice off (zlen src) dst' = src.
Proof.
  unfold memcpy_at. case_bool_decide as H; [|done]. intros [= <-].
  assert (Ht : zlen (take (Z.to_nat off) dst) = off)
    by (unfold zlen in *; rewrite length_take; lia).
  rewrite slice_app_r by lia. rewrite Ht, Z.sub_diag.
  rewrite slice_app_l by (pose proof (zlen_nonneg src); lia). apply slice_all.
Qed.

Lemma memcpy_at_before {A} (dst : list A) off src dst' o n :
  memcpy_at dst off src = Some dst' -> 0 <= o -> 0 <= n -> o + n <= off ->
  slice o n dst' = slice o n dst.
Proof.
  unfold memcpy_at. case_bool_decide as H; [|done]. intros [= <-] ???.
  rewrite slice_app_l; [|lia|lia|unfold zlen in *; rewrite length_take; lia].
  rewrite <- (take_drop (Z.to_nat off) dst) at 2.
  rewrite slice_app_l; [done|lia|lia|unfold zlen in *; rewrite length_take; lia].
Qed.

Lemma memread_Some {A} (src : list A) off len :
  0 <= off -> 0 <= len -> off + len <= zlen src -> memread src off len = Some (slice off len src).
Proof. intros. unfold memread. rewrite bool_decide_true; [done|lia]. Qed.

(** Overwriting and reading the middle of three pieces. *)
Lemma memcpy_at_mid {A} (a b c b' : list A) :
  zlen b' = zlen b -> memcpy_at (a ++ b ++ c) (zlen a) b' = Some (a ++ b' ++ c).
Proof.
  intros Hb. pose proof (zlen_nonneg a). pose proof (zlen_nonneg c).
  rewrite memcpy_at_Some by (rewrite ?zlen_app; lia). f_equal.
  unfold zlen in *. rewrite Nat2Z.id, take_app_length. f_equal. f_equal.
  rewrite app_assoc. rewrite drop_app_length'; [done|]. rewrite length_app. lia.
Qed.

Lemma memread_mid {A} (a b c : list A) : memread (a ++ b ++ c) (zlen a) (zlen b) = Some b.
Proof.
  pose proof (zlen_nonneg a). pose proof (zlen_nonneg b). pose proof (zlen_nonneg c).
  rewrite memread_Some by (rewrite ?zlen_app; lia). f_equal.
  rewrite slice_app_r, Z.sub_diag by lia. rewrite slice_app_l, slice_all by lia. done.
Qed.

(** *** Network byte order *)

Lemma length_be_bytes n x : length (be_bytes n x) = n.
Proof. revert x; induction n; intros; simpl; auto. Qed.

Lemma zlen_be_bytes n x : zlen (be_bytes n x) = Z.of_nat n.
Proof. unfold zlen. by rewrite length_be_bytes. Qed.

Lemma be_bytes_ok n x : bytes_ok (be_bytes n x).
Proof.
  induction n; simpl; constructor; auto. apply Z.mod_pos_bound. lia.
Qed.

Lemma be_value_from_app acc l1 l2 :
  be_value_from acc (l1 ++ l2) = be_value_from (be_value_from acc l1) l2.
Proof. revert acc; induction l1; simpl; auto. Qed.

Lemma be_value_from_shift acc l :
  be_value_from acc l = acc * 2 ^ (8 * zlen l) + be_value_from 0 l.
Proof.
  revert acc; induction l as [|b l IH]; intros acc; simpl.
  - rewrite (@zlen_nil Z); simpl; lia.
  - rewrite IH, (IH (0 * 256 + b)), zlen_cons.
    replace (8 * (1 + zlen l)) with (8 + 8 * zlen l) by lia.
    rewrite Z.pow_add_r by (pose proof (zlen_nonneg l); lia).
    change (2 ^ 8) with 256. lia.
Qed.

Lemma be_value_range l : bytes_ok l -> 0 <= be_value l < 2 ^ (8 * zlen l).
Proof.
  unfold be_value. induction 1 as [|b l Hb Hl IH]; simpl.
  - rewrite (@zlen_nil Z); simpl; lia.
  - rewrite be_value_from_shift, zlen_cons.
    replace (8 * (1 + zlen l)) with (8 + 8 * zlen l) by lia.
    rewrite Z.pow_add_r by (pose proof (zlen_nonneg l); lia).
    change (2 ^ 8) with 256. unfold is_byte in Hb. nia.
Qed.

Lemma be_value_bytes n x : be_value (be_bytes n x) = x mod 2 ^ (8 * Z.of_nat n).
Proof.
  unfold be_value. induction n as [|n IH].
  - simpl. by rewrite Z.mod_1_r.
  - cbn [be_bytes be_value_from]. rewrite be_value_from_shift, IH, zlen_be_bytes.
    replace (8 * Z.of_nat (S n)) with (8 * Z.of_nat n + 8) by lia.
    rewrite Z.pow_add_r by lia. rewrite Z.rem_mul_r by lia.
    change (2 ^ 8) with 256. lia.
Qed.

Lemma be_bytes_add n k y v :
  (n <= k)%nat -> be_bytes n (y * 2 ^ (8 * Z.of_nat k) + v) = be_bytes n v.
Proof.
  induction n as [|n IHn]; intros Hk; [done|]. cbn [be_bytes].
  rewrite IHn by lia. f_equal.
  replace (8 * Z.of_nat k) with (8 * Z.of_nat n + 8 * (Z.of_nat k - Z.of_nat n - 1) + 8) by lia.
  rewrite 2!Z.pow_add_r by lia. change (2 ^ 8) with 256.
  replace (y * (2 ^ (8 * Z.of_nat n) * 2 ^ (8 * (Z.of_nat k - Z.of_nat n - 1)) * 256) + v)
    with (v + (y * 2 ^ (8 * (Z.of_nat k - Z.of_nat n - 1)) * 256) * 2 ^ (8 * Z.of_nat n)) by lia.
  rewrite Z.div_add by lia. by rewrite Z.mod_add by lia.
Qed.

Lemma be_bytes_value l : bytes_ok l -> be_bytes (length l) (be_value l) = l.
Proof.
  unfold be_value. induction 1 as [|b l Hb Hl IH]; [done|]. cbn [length be_bytes be_value_from].
  rewrite be_value_from_shift. pose proof (be_value_range l Hl) as Hr.
  unfold be_value, zlen in *. f_equal.
  - rewrite Z.add_comm, Z.div_add by lia. rewrite Z.div_small by lia.
    apply Z.mod_small. unfold is_byte in Hb. lia.
  - rewrite be_bytes_add by lia. done.
Qed.

(** *** Masks *)

Lemma length_xor_mask mask data : length (xor_mask mask data) = length data.
Proof. unfold xor_mask. by rewrite length_imap. Qed.

Lemma zlen_xor_mask mask data : zlen (xor_mask mask data) = zlen data.
Proof. unfold zlen. by rewrite length_xor_mask. Qed.

(** Masking twice with the same mask is the identity. *)
Lemma xor_mask_involutive mask data : xor_mask mask (xor_mask mask data) = data.
Proof.
  unfold xor_mask. apply list_eq. intros i. rewrite !list_lookup_imap.
  destruct (data !! i) as [b|]; simpl; [|done].
  by rewrite Z.lxor_assoc, Z.lxor_nilpotent, Z.lxor_0_r.
Qed.

Lemma lxor_byte a b : is_byte a -> is_byte b -> is_byte (Z.lxor a b).
Proof.
  intros Ha Hb. unfold is_byte in *.
  assert (0 <= Z.lxor a b) by (rewrite Z.lxor_nonneg; lia).
  split; [done|]. destruct (decide (Z.lxor a b = 0)) as [->|]; [lia|].
  change 256 with (2 ^ 8). apply Z.log2_lt_pow2; [lia|].
  eapply Z.le_lt_trans; [apply Z.log2_lxor; lia|].
  apply Z.max_lub_lt; (destruct (decide (a = 0)); destruct (decide (b = 0)); subst; simpl;
    try lia; apply Z.log2_lt_pow2; lia).
Qed.

Lemma xor_mask_ok mask data : bytes_ok mask -> bytes_ok data -> bytes_ok (xor_mask mask data).
Proof.
  intros Hm Hd. apply Forall_lookup. intros i x. unfold xor_mask.
  rewrite list_lookup_imap. destruct (data !! i) as [b|] eqn:Hb; simpl; [|done].
  intros [= <-]. apply lxor_byte; [by eapply Forall_lookup_1|].
  destruct (nth_in_or_default (i mod length mask) mask 0) as [H|H].
  - eapply Forall_forall; [apply Hm|]. by apply list_elem_of_In.
  - rewrite H. unfold is_byte. lia.
Qed.

Lemma zsum_app l1 l2 : zsum (l1 ++ l2) = zsum l1 + zsum l2.
Proof. induction l1; simpl; [done|]. fold (zsum (l1 ++ l2)) (zsum l1). lia. Qed.

(** *** Filters *)

Lemma filter_Forall {A} (P : A -> Prop) `{forall x, Decision (P x)} l :
  Forall P l -> filter P l = l.
Proof. induction 1; [done|]. rewrite filter_cons_True by done. by f_equal. Qed.

Lemma filter_Forall_not {A} (P : A -> Prop) `{forall x, Decision (P x)} l :
  Forall (fun x => ~ P x) l -> filter P l = [].
Proof. induction 1; [done|]. by rewrite filter_cons_False. Qed.

(** ** Reachability *)

(** An invariant that holds initially and is preserved by every step holds in
    every reachable state. *)
Lemma rtc_invariant {A} (R : relation A) (I : A -> Prop) (x y : A) :
  (forall a b, I a -> R a b -> I b) -> I x -> rtc R x y -> I y.
Proof. intros Hstep Hx Hr. induction Hr; eauto. Qed.

(** Folding a preserved operation over a list preserves the invariant. *)
Lemma foldl_invariant {A B} (f : A -> B -> A) (I : A -> Prop) (Q : B -> Prop) l x :
  (forall a b, I a -> Q b -> I (f a b)) -> Forall Q l -> I x -> I (foldl f x l).
Proof. intros Hstep Hl. revert x. induction Hl; simpl; eauto. Qed.

(** Case analysis on every boolean decision and match of the goal. *)
Ltac case_all :=
  repeat (case_bool_decide || case_decide || case_match); simplify_eq/=; try done.
