(* ===== verification/Timers.v ===== *)
(** Timers of an [Object]: the class [Timer] and the timer half of [Object]
    ([src/core/object.h], [src/core/object.cpp]).

    A [shared_ptr<Timer>] is an address of the heap [tw_heap]; the client, the
    id table [timerMap] and the schedule [timerEventsMap] share the object, so
    an operation through one of them is seen by the others.  The clock is an
    input: every operation that calls [Timer::getTimeNow] takes the reading.
    Slots connected to [timeout] are the list of timer operations they perform
    when the signal is emitted. *)
From S2P Require Import Prelude.

Definition ptr := nat.

(** ** Data *)

Record Timer := mkTimer {
  isSingle : bool;
  isWorking : bool;
  interval : Z;
  nextTimeout : Z;
  timerId : Z
}.

Definition INVALID_TIMER_ID : Z := 0.

Definition isValidTimerId (id : Z) : bool := negb (id =? INVALID_TIMER_ID).

(** The schedule: a [std::map] keyed by (deadline, id), in key order. *)
Definition ev_key : Type := Z * Z.

Definition schedule : Type := list (ev_key * ptr).

Definition key_ltb (a b : ev_key) : bool :=
  (a.1 <? b.1) || ((a.1 =? b.1) && (a.2 <? b.2)).

Record TimerWorld := mkTimerWorld {
  tw_heap : gmap ptr Timer;
  lastTimerId : Z;
  availableIdSet : gset Z;
  timerMap : gmap Z ptr;
  timerEventsMap : schedule;
  tw_fired : list ptr  (* the calls of [handleTimeoutEvent], oldest first *)
}.

Definition tw_init : TimerWorld := mkTimerWorld ∅ INVALID_TIMER_ID ∅ ∅ [] [].

(** ** Containers *)

(** [std::map::emplace]: a key already present is left as it is. *)
Fixpoint emplace (k : ev_key) (p : ptr) (m : schedule) : schedule :=
  match m with
  | [] => [(k, p)]
  | (k', p') :: m' =>
      if bool_decide (k = k') then m
      else if key_ltb k k' then (k, p) :: m
      else (k', p') :: emplace k p m'
  end.

(** [std::map::erase] by key. *)
Definition erase (k : ev_key) (m : schedule) : schedule :=
  filter (fun e => e.1 <> k) m.

(** The least element of a [std::set<TimerId>]. *)
Definition set_begin (s : gset Z) : option Z :=
  match elements s with
  | [] => None
  | x :: l => Some (foldr Z.min x l)
  end.

(** ** Fields *)

Definition set_timer (p : ptr) (t : Timer) (w : TimerWorld) : TimerWorld :=
  mkTimerWorld (<[p := t]> (tw_heap w)) (lastTimerId w) (availableIdSet w) (timerMap w)
    (timerEventsMap w) (tw_fired w).

Definition set_events (m : schedule) (w : TimerWorld) : TimerWorld :=
  mkTimerWorld (tw_heap w) (lastTimerId w) (availableIdSet w) (timerMap w) m (tw_fired w).

Definition set_table (m : gmap Z ptr) (w : TimerWorld) : TimerWorld :=
  mkTimerWorld (tw_heap w) (lastTimerId w) (availableIdSet w) m (timerEventsMap w) (tw_fired w).

Definition set_ids (last : Z) (s : gset Z) (w : TimerWorld) : TimerWorld :=
  mkTimerWorld (tw_heap w) last s (timerMap w) (timerEventsMap w) (tw_fired w).

Definition log_fired (p : ptr) (w : TimerWorld) : TimerWorld :=
  mkTimerWorld (tw_heap w) (lastTimerId w) (availableIdSet w) (timerMap w)
    (timerEventsMap w) (tw_fired w ++ [p]).

Definition with_working (b : bool) (t : Timer) : Timer :=
  mkTimer (isSingle t) b (interval t) (nextTimeout t) (timerId t).

Definition with_id (id : Z) (t : Timer) : Timer :=
  mkTimer (isSingle t) (isWorking t) (interval t) (nextTimeout t) id.

(** [Timer::setNextTimeout].  The clock and the interval are [int64_t] milliseconds; the sum is taken in Z, which is what the
    code computes as long as it stays below 2^63 (an interval of less than 2^62 ms and a clock of less than 2^62 ms). *)
Definition setNextTimeout (now : Z) (t : Timer) : Timer :=
  mkTimer (isSingle t) (isWorking t) (interval t) (now + interval t) (timerId t).

(** [Timer::working] *)
Definition working (t : Timer) : bool := isValidTimerId (timerId t) && isWorking t.

(** [Timer::setInterval] on the object: refused while working, raised to 1. *)
Definition timer_setInterval (i : Z) (t : Timer) : Timer * bool :=
  if working t then (t, false)
  else (mkTimer (isSingle t) (isWorking t) (if i <=? 0 then 1 else i) (nextTimeout t) (timerId t),
        true).

(** [Timer::setSingle] on the object. *)
Definition timer_setSingle (b : bool) (t : Timer) : Timer * bool :=
  if working t then (t, false)
  else (mkTimer b (isWorking t) (interval t) (nextTimeout t) (timerId t), true).

(** [Timer::Timer] *)
Definition new_Timer (i : Z) : Timer :=
  (timer_setInterval i (mkTimer false false 1 0 INVALID_TIMER_ID)).1.

(** ** Operations of [Object] *)

(** [Object::getNextTimerId]: the least released id, else a fresh one; an
    exhausted counter gives the invalid id. *)
Definition getNextTimerId (w : TimerWorld) : Z * TimerWorld :=
  match set_begin (availableIdSet w) with
  | Some id => (id, set_ids (lastTimerId w) (availableIdSet w ∖ {[id]}) w)
  | None =>
      let next_timer_id := u32 (lastTimerId w + 1) in
      if lastTimerId w <=? next_timer_id
      then (next_timer_id, set_ids next_timer_id (availableIdSet w) w)
      else (INVALID_TIMER_ID, w)
  end.

(** [Object::addTimer]: without a valid id the new timer is dropped. *)
Definition addTimer (i : Z) (w : TimerWorld) : option ptr * TimerWorld :=
  let '(id, w1) := getNextTimerId w in
  if isValidTimerId id then
    let p := fresh (dom (tw_heap w1)) in
    let w2 := set_timer p (with_id id (new_Timer i)) w1 in
    match timerMap w2 !! id with
    | Some _ => (Some p, w2)
    | None => (Some p, set_table (<[id := p]> (timerMap w2)) w2)
    end
  else (None, w1).

(** [Object::startTimer] *)
Definition startTimer (now : Z) (id : Z) (w : TimerWorld) : bool * TimerWorld :=
  match timerMap w !! id with
  | None => (false, w)
  | Some p =>
      match tw_heap w !! p with
      | None => (false, w)
      | Some t =>
          if working t then (true, w)
          else
            let t' := setNextTimeout now (with_working true t) in
            let w1 := set_timer p t' w in
            (true, set_events (emplace (nextTimeout t', id) p (timerEventsMap w1)) w1)
      end
  end.

(** [Object::stopTimer] *)
Definition stopTimer (id : Z) (w : TimerWorld) : TimerWorld :=
  match timerMap w !! id with
  | None => w
  | Some p =>
      match tw_heap w !! p with
      | None => w
      | Some t =>
          let w1 := set_timer p (with_working false t) w in
          set_events (erase (nextTimeout t, id) (timerEventsMap w1)) w1
      end
  end.

(** [Object::releaseTimer] *)
Definition releaseTimer (id : Z) (w : TimerWorld) : TimerWorld :=
  match timerMap w !! id with
  | None => w
  | Some p =>
      match tw_heap w !! p with
      | None => w
      | Some t =>
          let w1 := set_events (erase (nextTimeout t, id) (timerEventsMap w)) w in
          let w2 := set_timer p (with_id INVALID_TIMER_ID t) w1 in
          let w3 := set_table (delete id (timerMap w2)) w2 in
          set_ids (lastTimerId w3) (availableIdSet w3 ∪ {[id]}) w3
      end
  end.

(** ** Operations of [Timer] *)

(** What a client, or a slot of [timeout], does with timers. *)
Inductive timer_op :=
  | OpAdd (i : Z)
  | OpStart (now : Z) (p : ptr)
  | OpStop (p : ptr)
  | OpRelease (p : ptr)
  | OpSetInterval (p : ptr) (i : Z)
  | OpSetSingle (p : ptr) (b : bool).

(** [Timer::start], [stop], [release], [setInterval], [setSingle] through the
    shared pointer; an invalid id returns at once. *)
Definition run_op (w : TimerWorld) (o : timer_op) : TimerWorld :=
  match o with
  | OpAdd i => (addTimer i w).2
  | OpStart now p =>
      match tw_heap w !! p with
      | Some t => if isValidTimerId (timerId t) then (startTimer now (timerId t) w).2 else w
      | None => w
      end
  | OpStop p =>
      match tw_heap w !! p with
      | Some t => if isValidTimerId (timerId t) then stopTimer (timerId t) w else w
      | None => w
      end
  | OpRelease p =>
      match tw_heap w !! p with
      | Some t => if isValidTimerId (timerId t) then releaseTimer (timerId t) w else w
      | None => w
      end
  | OpSetInterval p i =>
      match tw_heap w !! p with
      | Some t => set_timer p (timer_setInterval i t).1 w
      | None => w
      end
  | OpSetSingle p b =>
      match tw_heap w !! p with
      | Some t => set_timer p (timer_setSingle b t).1 w
      | None => w
      end
  end.

Definition run_ops (w : TimerWorld) (os : list timer_op) : TimerWorld := foldl run_op w os.

(** ** [Object::handleTimerEvent] *)

(** The longest prefix of the schedule whose deadlines have passed, and the rest. *)
Fixpoint take_due (now : Z) (m : schedule) : list ptr * schedule :=
  match m with
  | [] => ([], [])
  | ((k, id), p) :: m' =>
      if k <=? now then let '(q, r) := take_due now m' in (p :: q, r) else ([], m)
  end.

Section Handle.
Variable slots : ptr -> list timer_op.

(** [Timer::handleTimeoutEvent]: the slots of [timeout] run. *)
Definition handleTimeoutEvent (p : ptr) (w : TimerWorld) : TimerWorld :=
  run_ops (log_fired p w) (slots p).

Definition keep_cycling (t : Timer) : bool := negb (isSingle t) && working t.

(** The loop over [timeoutQueue]; returns [cycleQueue]. *)
Fixpoint run_timeouts (q : list ptr) (w : TimerWorld) (cycleQueue : list ptr)
  : TimerWorld * list ptr :=
  match q with
  | [] => (w, cycleQueue)
  | p :: q' =>
      let w1 := handleTimeoutEvent p w in
      match tw_heap w1 !! p with
      | None => run_timeouts q' w1 cycleQueue
      | Some t =>
          if keep_cycling t
          then run_timeouts q' w1 (cycleQueue ++ [p])
          else run_timeouts q' (set_timer p (with_working false t) w1) cycleQueue
      end
  end.

(** Re-arm one timer of [cycleQueue]. *)
Definition rearm (now : Z) (w : TimerWorld) (p : ptr) : TimerWorld :=
  match tw_heap w !! p with
  | None => w
  | Some t =>
      let t' := setNextTimeout now t in
      let w1 := set_timer p t' w in
      set_events (emplace (nextTimeout t', timerId t') p (timerEventsMap w1)) w1
  end.

(** [now1] is the reading at entry, [now2] the one before re-arming. *)
Definition handleTimerEvent (now1 now2 : Z) (w : TimerWorld) : TimerWorld :=
  let '(timeoutQueue, rest) := take_due now1 (timerEventsMap w) in
  let '(w1, cycleQueue) := run_timeouts timeoutQueue (set_events rest w) [] in
  foldl (rearm now2) w1 cycleQueue.

End Handle.

(** The timer part of [Object::releaseAllRef]. *)
Definition invalidate (m : gmap Z ptr) (h : gmap ptr Timer) : gmap ptr Timer :=
  map_imap (fun p t =>
    if bool_decide (map_Exists (fun _ q => q = p) m)
    then Some (with_id INVALID_TIMER_ID t) else Some t) h.

Definition releaseTimers (w : TimerWorld) : TimerWorld :=
  mkTimerWorld (invalidate (timerMap w) (tw_heap w)) (lastTimerId w) (availableIdSet w)
    ∅ [] (tw_fired w).

(** Time until the earliest timer of the object is due: the timer term of
    [Object::getNextTimeOut] ([None]: no timer). *)
Definition timer_wait (now : Z) (w : TimerWorld) : option Z :=
  match timerEventsMap w with
  | [] => None
  | ((k, _), _) :: _ => Some (k - now)
  end.

(** ** Steps *)

(** What can happen to the timers of one object: a client operation, or a turn
    of its event loop with the readings of the clock and the slots connected. *)
Inductive timer_step : TimerWorld -> TimerWorld -> Prop :=
  | step_op w o : timer_step w (run_op w o)
  | step_handle w slots now1 now2 : timer_step w (handleTimerEvent slots now1 now2 w).

(** A slot is disciplined when it stops or releases only the timer that fired
    and starts only other timers. *)
Definition op_disciplined (p : ptr) (o : timer_op) : Prop :=
  match o with
  | OpStop q | OpRelease q => q = p
  | OpStart _ q => q <> p
  | _ => True
  end.

Definition slots_disciplined (slots : ptr -> list timer_op) : Prop :=
  forall p, Forall (op_disciplined p) (slots p).

Inductive disciplined_step : TimerWorld -> TimerWorld -> Prop :=
  | dstep_op w o : disciplined_step w (run_op w o)
  | dstep_handle w slots now1 now2 :
      slots_disciplined slots -> disciplined_step w (handleTimerEvent slots now1 now2 w).

(** ** Invariants *)

Definition key_lt (a b : ev_key) : Prop := key_ltb a b = true.

(** Ids are either in use or released, and cover exactly [1 .. lastTimerId]. *)
Definition ids_wf (w : TimerWorld) : Prop :=
  0 <= lastTimerId w < 2 ^ 32 /\
  (forall id, (id ∈ availableIdSet w \/ is_Some (timerMap w !! id)) <-> 1 <= id <= lastTimerId w) /\
  (forall id, id ∈ availableIdSet w -> timerMap w !! id = None).

(** The id table and the ids stored in the timers agree. *)
Definition table_wf (w : TimerWorld) : Prop :=
  (forall id p, timerMap w !! id = Some p ->
     exists t, tw_heap w !! p = Some t /\ timerId t = id) /\
  (forall p t, tw_heap w !! p = Some t -> timerId t <> INVALID_TIMER_ID ->
     timerMap w !! timerId t = Some p).

(** The schedule is sorted, without duplicate key, and holds live objects. *)
Definition sched_wf (w : TimerWorld) : Prop :=
  StronglySorted key_lt (timerEventsMap w).*1 /\
  (forall e, e ∈ timerEventsMap w -> is_Some (tw_heap w !! e.2)).

Definition timers_wf (w : TimerWorld) : Prop := ids_wf w /\ table_wf w /\ sched_wf w.

(** Entry [((k, id), p)] belongs in the schedule. *)
Definition due_at (w : TimerWorld) (p : ptr) (k id : Z) : Prop :=
  exists t, tw_heap w !! p = Some t /\ timerId t = id /\ id <> INVALID_TIMER_ID /\
            isWorking t = true /\ nextTimeout t = k.

(** Outside the set [X] of timers in flight, the schedule holds exactly the
    working timers, each once, at its own deadline. *)
Definition sched_exact (X : gset ptr) (w : TimerWorld) : Prop :=
  forall k id p, ((k, id), p) ∈ timerEventsMap w <-> p ∉ X /\ due_at w p k id.

(** The state while a batch is processed: the timers of [X] are out of the
    schedule and those of [W], a part of them, are still working. *)
Definition inflight (X W : gset ptr) (w : TimerWorld) : Prop :=
  timers_wf w /\ sched_exact X w /\ W ⊆ X /\
  (forall p, p ∈ W -> exists t, tw_heap w !! p = Some t /\ working t = true).

(** What an operation may do to the timers in flight. *)
Definition op_ok (X W : gset ptr) (o : timer_op) : Prop :=
  match o with
  | OpStop q | OpRelease q => q ∉ W
  | OpStart _ q => q ∈ X -> q ∈ W
  | _ => True
  end.

(** What one quiet turn, in which no slot touches a timer, does to a timer. *)
Definition after_turn (now1 now2 : Z) (t : Timer) : Timer :=
  if working t && (nextTimeout t <=? now1)
  then if isSingle t then with_working false t else setNextTimeout now2 t
  else t.

(** ** Containers *)

Lemma key_lt_irrefl a : ~ key_lt a a.
Proof. unfold key_lt, key_ltb. rewrite Z.ltb_irrefl, Z.eqb_refl. simpl. lia. Qed.

Lemma key_lt_trans a b c : key_lt a b -> key_lt b c -> key_lt a c.
Proof. unfold key_lt, key_ltb. destruct a, b, c; simpl. lia. Qed.

Lemma key_lt_total a b : a <> b -> ~ key_lt a b -> key_lt b a.
Proof.
  unfold key_lt, key_ltb. destruct a as [a1 a2], b as [b1 b2]; simpl. intros Hne H.
  assert (a1 <> b1 \/ a2 <> b2) by (destruct (decide (a1 = b1)); [right|left]; congruence).
  lia.
Qed.

Lemma elem_of_emplace_sub x k p m : x ∈ emplace k p m -> x = (k, p) \/ x ∈ m.
Proof.
  induction m as [|[k' p'] m IH]; simpl; [set_solver|].
  case_bool_decide; [set_solver|]. case_match; set_solver.
Qed.

Lemma elem_of_emplace x k p m :
  k ∉ m.*1 -> x ∈ emplace k p m <-> x = (k, p) \/ x ∈ m.
Proof.
  induction m as [|[k' p'] m IH]; simpl; intros Hk; [set_solver|].
  case_bool_decide as Hd; [set_solver|]. case_match; [set_solver|].
  rewrite !elem_of_cons, IH by set_solver. naive_solver.
Qed.

Lemma emplace_sorted k p m :
  StronglySorted key_lt m.*1 -> StronglySorted key_lt (emplace k p m).*1.
Proof.
  induction m as [|[k' p'] m IH]; simpl; intros Hs; [by repeat constructor|].
  case_bool_decide as Hd; [done|]. inversion_clear Hs as [|? ? Hs' Hall].
  case_match eqn:Hl; simpl.
  - constructor; [by constructor|]. constructor; [done|].
    eapply Forall_impl; [done|]. intros. by eapply key_lt_trans.
  - constructor; [by apply IH|]. apply Forall_forall. intros y Hy.
    apply list_elem_of_fmap in Hy as [e [-> He]].
    apply elem_of_emplace_sub in He as [->|He]; simpl.
    + apply key_lt_total; [done|]. unfold key_lt. congruence.
    + eapply Forall_forall in Hall; [done|]. by apply list_elem_of_fmap_2.
Qed.

Lemma elem_of_erase x k m : x ∈ erase k m <-> x.1 <> k /\ x ∈ m.
Proof. unfold erase. by rewrite list_elem_of_filter. Qed.

Lemma filter_sorted (P : ev_key * ptr -> Prop) `{forall x, Decision (P x)} m :
  StronglySorted key_lt m.*1 -> StronglySorted key_lt (filter P m).*1.
Proof.
  induction m as [|e m IH]; [done|]. rewrite filter_cons. simpl. intros Hs.
  inversion_clear Hs as [|? ? Hs' Hall]. case_decide; [|by apply IH].
  simpl. constructor; [by apply IH|]. apply Forall_forall. intros y Hy.
  apply list_elem_of_fmap in Hy as [e' [-> He]]. apply list_elem_of_filter in He as [_ He].
  eapply Forall_forall in Hall; [done|]. by apply list_elem_of_fmap_2.
Qed.

(** On a sorted schedule [take_due] separates the due timers from the others. *)
Lemma take_due_spec now m q r :
  StronglySorted key_lt m.*1 -> take_due now m = (q, r) ->
  q = (filter (fun e => e.1.1 <= now) m).*2 /\ r = filter (fun e => ~ e.1.1 <= now) m /\
  (exists pre, m = pre ++ r /\ q = pre.*2).
Proof.
  revert q r. induction m as [|[[k id] p] m IH]; simpl; intros q r Hs Ht.
  { injection Ht as <- <-. repeat split; [done..|]. by exists []. }
  inversion_clear Hs as [|? ? Hs' Hall]. rewrite !filter_cons. simpl.
  case_match eqn:Hk; destruct (take_due now m) as [q' r'] eqn:Hd; injection Ht as <- <-.
  - destruct (IH _ _ Hs' eq_refl) as (-> & -> & pre & Hm & Hq).
    rewrite decide_True, decide_False by lia. split; [done|]. split; [done|].
    exists (((k, id), p) :: pre). simpl. split; by f_equal.
  - rewrite decide_False, decide_True by lia.
    assert (Hnone : Forall (fun e : ev_key * ptr => ~ e.1.1 <= now) m).
    { apply Forall_forall. intros e He. eapply Forall_forall in Hall;
        [|by apply list_elem_of_fmap_2]. unfold key_lt, key_ltb in Hall. simpl in Hall. lia. }
    rewrite filter_Forall_not by done. rewrite filter_Forall by done.
    split; [done|]. split; [done|]. by exists [].
Qed.
Lemma set_begin_Some s id : set_begin s = Some id -> id ∈ s /\ forall j, j ∈ s -> id <= j.
Proof.
  unfold set_begin. destruct (elements s) as [|x l] eqn:He; [done|]. intros [= <-].
  assert (Hin : forall j, j ∈ s <-> j ∈ x :: l)
    by (intros j; rewrite <- elem_of_elements, He; done).
  assert (Hmin : foldr Z.min x l ∈ x :: l /\ forall j, j ∈ x :: l -> foldr Z.min x l <= j).
  { clear. induction l as [|y l [IH1 IH2]]; simpl; [set_solver by lia|].
    split.
    - destruct (Z.min_spec y (foldr Z.min x l)) as [[_ ->]|[_ ->]]; set_solver.
    - intros j. rewrite !elem_of_cons. intros [->|[->|Hj]].
      + transitivity (foldr Z.min x l); [lia|]. apply IH2. set_solver.
      + lia.
      + transitivity (foldr Z.min x l); [lia|]. apply IH2. set_solver. }
  rewrite Hin. split; [apply Hmin|]. intros j Hj. apply Hmin. by apply Hin.
Qed.

Lemma set_begin_None s : set_begin s = None -> s = ∅.
Proof.
  unfold set_begin. destruct (elements s) eqn:He; [|done]. intros _.
  by apply elements_empty_iff, leibniz_equiv in He.
Qed.

(** ** Preservation of well-formedness *)

Lemma timers_wf_init : timers_wf tw_init.
Proof.
  split; [|split; split].
  - split; [done|]. split; [|simpl; set_solver].
    intros id. split; [intros [H|[? H]]; [set_solver|done]|simpl; unfold INVALID_TIMER_ID; lia].
  - intros. done.
  - intros. done.
  - constructor.
  - intros e He. by apply not_elem_of_nil in He.
Qed.

Lemma set_timer_wf p t t' w :
  tw_heap w !! p = Some t -> timerId t' = timerId t -> timers_wf w -> timers_wf (set_timer p t' w).
Proof.
  intros Hp Hid (Hids & (Ht1 & Ht2) & Hs & Hl). split; [done|]. split; split; simpl; [| |done|].
  - intros id q Hq. destruct (Ht1 _ _ Hq) as (tq & ? & ?).
    destruct (decide (p = q)) as [->|].
    + exists t'. rewrite lookup_insert_eq. split; [done|]. congruence.
    + exists tq. by rewrite lookup_insert_ne.
  - intros q tq. rewrite lookup_insert_Some. intros [[<- <-]|[Hne Hq]]; [|by apply Ht2].
    rewrite Hid. by apply Ht2.
  - intros e He. rewrite lookup_insert_is_Some'. eauto.
Qed.

Lemma set_events_wf m w :
  StronglySorted key_lt m.*1 -> (forall e, e ∈ m -> is_Some (tw_heap w !! e.2)) ->
  timers_wf w -> timers_wf (set_events m w).
Proof. intros ?? (?&?&?). by repeat split_and?. Qed.

Lemma erase_wf k w : timers_wf w -> timers_wf (set_events (erase k (timerEventsMap w)) w).
Proof.
  intros Hw. pose proof Hw as (_ & _ & Hs & Hl). apply set_events_wf; [|  |done].
  - by apply filter_sorted.
  - intros e He. apply elem_of_erase in He as [_ He]. eauto.
Qed.

Lemma emplace_wf k p w :
  is_Some (tw_heap w !! p) -> timers_wf w ->
  timers_wf (set_events (emplace k p (timerEventsMap w)) w).
Proof.
  intros Hp Hw. pose proof Hw as (_ & _ & Hs & Hl). apply set_events_wf; [|  |done].
  - by apply emplace_sorted.
  - intros e He. apply elem_of_emplace_sub in He as [->|He]; eauto.
Qed.

Lemma getNextTimerId_spec w id w' :
  ids_wf w -> getNextTimerId w = (id, w') ->
  tw_heap w' = tw_heap w /\ timerMap w' = timerMap w /\ timerEventsMap w' = timerEventsMap w /\
  tw_fired w' = tw_fired w /\
  ((id = INVALID_TIMER_ID /\ w' = w) \/
   (timerMap w !! id = None /\ 1 <= id < 2 ^ 32 /\ 0 <= lastTimerId w' < 2 ^ 32 /\
    (forall j, j <> id ->
       (j ∈ availableIdSet w' \/ is_Some (timerMap w !! j)) <-> 1 <= j <= lastTimerId w') /\
    1 <= id <= lastTimerId w' /\ id ∉ availableIdSet w' /\
    availableIdSet w' ⊆ availableIdSet w)).
Proof.
  intros (Hl & Hc & Hd). unfold getNextTimerId.
  destruct (set_begin (availableIdSet w)) as [i|] eqn:Hb.
  - intros [= <- <-]. apply set_begin_Some in Hb as [Hi _]. simpl.
    do 4 (split; [done|]). right.
    assert (1 <= i <= lastTimerId w) by (apply Hc; by left).
    split; [by apply Hd|]. split; [lia|]. split; [done|].
    split; [|split; [lia|]; split; set_solver].
    intros j Hj. rewrite <- Hc. set_solver.
  - apply set_begin_None in Hb. unfold wrap.
    destruct (decide (lastTimerId w + 1 < 2 ^ 32)) as [Hlt|Hge].
    + rewrite Z.mod_small by lia. case_match; [|lia]. intros [= <- <-]. simpl.
      do 4 (split; [done|]). right.
      assert (timerMap w !! (lastTimerId w + 1) = None).
      { destruct (timerMap w !! (lastTimerId w + 1)) eqn:E; [|done].
        assert (1 <= lastTimerId w + 1 <= lastTimerId w) by (apply Hc; rewrite E; eauto). lia. }
      split; [done|]. split; [lia|]. split; [lia|].
      split; [|split; [lia|]; split; [rewrite Hb; set_solver|done]].
      intros j Hj. rewrite Hc. lia.
    + replace (lastTimerId w + 1) with (2 ^ 32) by lia. rewrite Z.mod_same by lia.
      case_match; [lia|]. intros [= <- <-]. repeat split; [done..|]. by left.
Qed.

Lemma addTimer_wf i w : timers_wf w -> timers_wf (addTimer i w).2.
Proof.
  intros (Hids & (Ht1 & Ht2) & Hs & Hl). unfold addTimer.
  destruct (getNextTimerId w) as [id w1] eqn:Hg.
  pose proof (getNextTimerId_spec _ _ _ Hids Hg) as (Hh & Hm & He & _ & Hcase).
  unfold isValidTimerId. case_match eqn:Hv; simpl.
  2: { destruct Hcase as [[-> ->]|(?&?&_)]; [by repeat split_and?|]. unfold INVALID_TIMER_ID in *. lia. }
  destruct Hcase as [[-> ->]|(Hnone & Hid & Hlast & Hcov & Hin & Hnin & Hsub)];
    [unfold INVALID_TIMER_ID in *; lia|].
  rewrite Hm, Hnone. simpl. rewrite Hh in *.
  pose proof (is_fresh (dom (tw_heap w))) as Hf. set (p := fresh _) in *.
  apply not_elem_of_dom in Hf. split; [|split; split]; simpl.
  - split; [done|]. split; simpl.
    + intros j. destruct (decide (j = id)) as [->|Hj].
      * rewrite lookup_insert_eq. split; [lia|]. intros. right. eauto.
      * rewrite lookup_insert_ne by done. by rewrite <- Hcov.
    + intros j Hj. rewrite lookup_insert_ne by set_solver. apply Hids. set_solver.
  - intros id' q. rewrite lookup_insert_Some. intros [[<- <-]|[Hne Hq]].
    + eexists. split; [by rewrite lookup_insert_eq|]. done.
    + destruct (Ht1 _ _ Hq) as (t & Ht & ?). exists t. split; [|done].
      rewrite lookup_insert_ne, Hh; [done|]. intros <-. congruence.
  - intros q t. rewrite Hh, lookup_insert_Some. intros [[<- <-]|[Hne Hq]]; simpl.
    + intros. by rewrite lookup_insert_eq.
    + intros Hid'. specialize (Ht2 _ _ Hq Hid'). rewrite lookup_insert_ne; [done|].
      intros Heq. congruence.
  - by rewrite He.
  - rewrite He. intros e' He'. rewrite Hh, lookup_insert_is_Some'. eauto.
Qed.

Lemma startTimer_wf now id w : timers_wf w -> timers_wf (startTimer now id w).2.
Proof.
  intros Hw. unfold startTimer. case_match eqn:Hp; [|done]. case_match eqn:Ht; [|done].
  case_match; [done|]. simpl.
  match goal with |- timers_wf (set_events (emplace ?k ?p _) ?w1) =>
    apply (emplace_wf k p w1) end.
  - simpl. rewrite lookup_insert_eq. eauto.
  - by eapply set_timer_wf.
Qed.

Lemma stopTimer_wf id w : timers_wf w -> timers_wf (stopTimer id w).
Proof.
  intros Hw. unfold stopTimer. case_match eqn:Hp; [|done]. case_match eqn:Ht; [|done].
  apply (erase_wf (nextTimeout t, id) (set_timer p (with_working false t) w)).
  by eapply set_timer_wf.
Qed.

Lemma releaseTimer_wf id w :
  timers_wf w -> timers_wf (releaseTimer id w).
Proof.
  intros Hw. unfold releaseTimer. case_match eqn:Hp; [|done]. case_match eqn:Ht; [|done].
  pose proof (erase_wf (nextTimeout t, id) w Hw) as ((Hl & Hc & Hd) & (Ht1 & Ht2) & Hs & Hlive).
  simpl in *. destruct (Ht1 _ _ Hp) as (t0 & Ht0 & Hid). assert (t0 = t) as -> by congruence.
  assert (1 <= id <= lastTimerId w) as Hrange by (apply Hc; right; rewrite Hp; eauto).
  split; [|split; split]; simpl.
  - split; [done|]. split; simpl.
    + intros j. destruct (decide (j = id)) as [->|Hj].
      * split; [lia|]. intros. left. set_solver.
      * rewrite lookup_delete_ne by done. rewrite <- Hc. set_solver.
    + intros j [Hj|Hj]%elem_of_union.
      * destruct (decide (j = id)) as [->|]; [by rewrite lookup_delete_eq|].
        rewrite lookup_delete_ne by done. by apply Hd.
      * apply elem_of_singleton in Hj as ->. by rewrite lookup_delete_eq.
  - intros j q. rewrite lookup_delete_Some. intros [Hj Hq].
    destruct (Ht1 _ _ Hq) as (tq & Htq & ?). exists tq. split; [|done].
    rewrite lookup_insert_ne; [done|]. intros <-. congruence.
  - intros q tq. rewrite lookup_insert_Some. intros [[<- <-]|[Hne Hq]]; simpl; [done|].
    intros Hv. rewrite lookup_delete_ne; [by apply Ht2|]. intros ->.
    specialize (Ht2 _ _ Hq Hv). congruence.
  - done.
  - intros e He. rewrite lookup_insert_is_Some'. right. by apply Hlive.
Qed.

Lemma run_op_wf w o : timers_wf w -> timers_wf (run_op w o).
Proof.
  intros Hw. destruct o; simpl.
  1: by apply addTimer_wf.
  all: case_match eqn:Ht; [|done].
  1-3: case_match; [|done].
  - by apply startTimer_wf.
  - by apply stopTimer_wf.
  - by apply releaseTimer_wf.
  - eapply set_timer_wf; [done| |done]. unfold timer_setInterval. by case_match.
  - eapply set_timer_wf; [done| |done]. unfold timer_setSingle. by case_match.
Qed.

Lemma run_ops_wf os w : timers_wf w -> timers_wf (run_ops w os).
Proof.
  intros Hw. unfold run_ops. apply foldl_invariant with (Q := fun _ => True);
    [|by apply Forall_true|done]. intros. by apply run_op_wf.
Qed.

Lemma log_fired_wf p w : timers_wf (log_fired p w) <-> timers_wf w.
Proof. done. Qed.

Lemma run_timeouts_wf slots q w c :
  timers_wf w -> timers_wf (run_timeouts slots q w c).1.
Proof.
  revert w c. induction q as [|p q IH]; intros w c Hw; simpl; [done|].
  assert (Hw1 : timers_wf (handleTimeoutEvent slots p w)) by (by apply run_ops_wf).
  case_match eqn:Ht; [|by apply IH]. case_match; apply IH; [done|].
  by eapply set_timer_wf.
Qed.

Lemma rearm_wf now w p : timers_wf w -> timers_wf (rearm now w p).
Proof.
  intros Hw. unfold rearm. case_match eqn:Ht; [|done].
  match goal with |- timers_wf (set_events (emplace ?k ?p _) ?w1) =>
    apply (emplace_wf k p w1) end.
  - simpl. rewrite lookup_insert_eq. eauto.
  - by eapply set_timer_wf.
Qed.

Lemma handleTimerEvent_wf slots now1 now2 w :
  timers_wf w -> timers_wf (handleTimerEvent slots now1 now2 w).
Proof.
  intros Hw. unfold handleTimerEvent.
  destruct (take_due now1 (timerEventsMap w)) as [q r] eqn:Hd.
  pose proof Hw as (_ & _ & Hs & Hl).
  destruct (take_due_spec _ _ _ _ Hs Hd) as (_ & -> & _).
  assert (timers_wf (set_events (filter (fun e => ~ e.1.1 <= now1) (timerEventsMap w)) w)) as Hw0.
  { apply set_events_wf; [by apply filter_sorted| |done].
    intros e He. apply list_elem_of_filter in He as [_ He]. eauto. }
  pose proof (run_timeouts_wf slots q _ [] Hw0) as Hw1.
  destruct (run_timeouts _ _ _ _) as [w1 c]. simpl in Hw1.
  apply foldl_invariant with (Q := fun _ => True); [|by apply Forall_true|done].
  intros. by apply rearm_wf.
Qed.

(** ** The schedule is exact *)

Lemma working_true t : working t = true <-> timerId t <> INVALID_TIMER_ID /\ isWorking t = true.
Proof.
  unfold working, isValidTimerId. rewrite andb_true_iff, negb_true_iff, Z.eqb_neq. done.
Qed.

Lemma isValidTimerId_true id : isValidTimerId id = true <-> id <> INVALID_TIMER_ID.
Proof. unfold isValidTimerId. by rewrite negb_true_iff, Z.eqb_neq. Qed.

(** Entries that carry the id of a live timer are entries of that timer. *)
Lemma entry_owner X w k p q t :
  timers_wf w -> sched_exact X w -> ((k, timerId t), p) ∈ timerEventsMap w ->
  tw_heap w !! q = Some t -> timerId t <> INVALID_TIMER_ID ->
  p = q /\ q ∉ X /\ isWorking t = true /\ k = nextTimeout t.
Proof.
  intros (_ & (_ & Ht) & _) Hex Hin Hq Hv.
  apply Hex in Hin as (Hx & tp & Hp & Hid & _ & Hw & Hk).
  assert (p = q) as ->.
  { pose proof (Ht _ _ Hq Hv). pose proof (Ht _ _ Hp). rewrite Hid in *. naive_solver. }
  naive_solver.
Qed.

Lemma due_at_set_ne w p q t k id :
  p <> q -> due_at (set_timer p t w) q k id <-> due_at w q k id.
Proof. intros Hne. unfold due_at. simpl. by rewrite lookup_insert_ne. Qed.

Lemma due_at_eq w p t k id :
  tw_heap w !! p = Some t ->
  due_at w p k id <->
  timerId t = id /\ id <> INVALID_TIMER_ID /\ isWorking t = true /\ nextTimeout t = k.
Proof.
  intros Hp. unfold due_at. rewrite Hp. split; [|by eauto].
  intros (t0 & [= <-] & ?). done.
Qed.

Lemma due_at_set_eq w p t k id :
  due_at (set_timer p t w) p k id <->
  timerId t = id /\ id <> INVALID_TIMER_ID /\ isWorking t = true /\ nextTimeout t = k.
Proof. apply due_at_eq. simpl. apply lookup_insert_eq. Qed.

Lemma inflight_set_timer X W w p t t' :
  inflight X W w -> tw_heap w !! p = Some t -> timerId t' = timerId t ->
  isWorking t' = isWorking t -> nextTimeout t' = nextTimeout t -> inflight X W (set_timer p t' w).
Proof.
  intros (Hw & Hex & Hsub & HW) Hp Hid Hwk Hnt. split; [by eapply set_timer_wf|].
  split; [|split; [done|]].
  - intros k id q. rewrite (Hex k id q). destruct (decide (p = q)) as [->|Hne].
    + by rewrite due_at_set_eq, (due_at_eq _ _ _ _ _ Hp), Hid, Hwk, Hnt.
    + by rewrite due_at_set_ne.
  - intros q Hq. simpl. destruct (HW q Hq) as (tq & Htq & Hwq).
    destruct (decide (p = q)) as [->|Hne].
    + exists t'. rewrite lookup_insert_eq. split; [done|].
      apply working_true. apply working_true in Hwq. rewrite Hid, Hwk. naive_solver.
    + exists tq. by rewrite lookup_insert_ne.
Qed.

(** A timer without a deadline may be counted in flight or not. *)
Lemma sched_exact_idle X w p :
  (forall k id, ~ due_at w p k id) -> sched_exact X w <-> sched_exact ({[p]} ∪ X) w.
Proof.
  intros Hno. unfold sched_exact. split; intros Hex k id q; rewrite (Hex k id q);
    (split; intros [Hq Hd]; split; [|done| |done]).
  all: destruct (decide (q = p)) as [->|]; [by destruct (Hno k id)|set_solver].
Qed.

Lemma not_due_idle w p t :
  tw_heap w !! p = Some t -> working t = false -> forall k id, ~ due_at w p k id.
Proof.
  intros Hp Hw k id. rewrite (due_at_eq _ _ _ _ _ Hp). intros (<- & ? & ? & _).
  assert (working t = true) by by apply working_true. congruence.
Qed.

(** Scheduling a timer that is counted in flight. *)
Lemma inflight_arm X W w p t t' :
  inflight ({[p]} ∪ X) W w -> W ⊆ X -> tw_heap w !! p = Some t -> p ∉ X ->
  timerId t' = timerId t -> timerId t <> INVALID_TIMER_ID -> isWorking t' = true ->
  inflight X W (set_events (emplace (nextTimeout t', timerId t) p (timerEventsMap w))
                  (set_timer p t' w)).
Proof.
  intros (Hw & Hex & _ & HW) Hsub Hp HpX Hid Hv Hwk.
  split; [|split; [|split; [done|]]].
  - apply (emplace_wf _ p (set_timer p t' w)); [simpl; rewrite lookup_insert_eq; eauto|].
    by eapply set_timer_wf.
  - intros k id q. cbn [set_events timerEventsMap]. rewrite elem_of_emplace.
    2: { intros [[[k' id'] q'] [Heq Hin]]%list_elem_of_fmap. simplify_eq/=.
         destruct (entry_owner _ w _ q' p t Hw Hex Hin Hp Hv) as (_ & ? & _). set_solver. }
    transitivity (q ∉ X /\ due_at (set_timer p t' w) q k id); [|done].
    rewrite (Hex k id q). destruct (decide (p = q)) as [->|Hne].
    + rewrite due_at_set_eq. split.
      * intros [[= -> ->]|[? _]]; [by rewrite Hid|set_solver].
      * intros (_ & <- & _ & _ & <-). left. by rewrite Hid.
    + rewrite due_at_set_ne by done. split.
      * intros [?|[? ?]]; [congruence|]. split; [set_solver|done].
      * intros [? ?]. right. split; [set_solver|done].
  - intros q Hq. simpl. destruct (HW q Hq) as (tq & Htq & Hwq).
    rewrite lookup_insert_ne by set_solver. eauto.
Qed.

(** Taking a timer out of the schedule and making it idle. *)
Lemma inflight_disarm X W w p t t' :
  inflight X W w -> tw_heap w !! p = Some t -> p ∉ W -> timerId t <> INVALID_TIMER_ID ->
  (timerId t' = INVALID_TIMER_ID \/ isWorking t' = false) ->
  sched_exact X (set_events (erase (nextTimeout t, timerId t) (timerEventsMap w))
                  (set_timer p t' w)) /\
  (forall q, q ∈ W -> exists tq, <[p := t']> (tw_heap w) !! q = Some tq /\ working tq = true).
Proof.
  intros (Hw & Hex & Hsub & HW) Hp HpW Hv Hidle. split.
  - intros k id q. cbn [set_events timerEventsMap]. rewrite elem_of_erase. simpl.
    transitivity (q ∉ X /\ due_at (set_timer p t' w) q k id); [|done].
    destruct (decide (p = q)) as [->|Hne].
    + rewrite due_at_set_eq. split; [|intuition congruence].
      intros [Hk Hin]. exfalso. apply Hk.
      pose proof (proj1 (Hex _ _ _) Hin) as (_ & t0 & Ht0 & Hid & _). f_equal; [|congruence].
      assert (t0 = t) as -> by congruence. rewrite <- Hid in Hin.
      by destruct (entry_owner X w k q q t Hw Hex Hin Hp Hv) as (_ & _ & _ & ->).
    + rewrite due_at_set_ne by done. rewrite (Hex k id q). split; [tauto|].
      intros [HqX Hd]. split; [|done]. intros [= -> ->].
      assert (Hin : ((nextTimeout t, timerId t), q) ∈ timerEventsMap w) by by apply Hex.
      destruct (entry_owner X w _ q p t Hw Hex Hin Hp Hv) as [-> _]. done.
  - intros q Hq. destruct (HW q Hq) as (tq & Htq & Hwq). exists tq.
    rewrite lookup_insert_ne; [done|]. intros ->. done.
Qed.

Lemma inflight_start X W now w p t :
  inflight X W w -> tw_heap w !! p = Some t -> timerId t <> INVALID_TIMER_ID ->
  (p ∈ X -> p ∈ W) -> inflight X W (startTimer now (timerId t) w).2.
Proof.
  intros Hinf Hp Hv HX. unfold startTimer. pose proof Hinf as ((_ & (_ & Ht) & _) & _ & _ & HW).
  rewrite (Ht _ _ Hp Hv), Hp. destruct (working t) eqn:Hwk; [done|]. simpl.
  apply (inflight_arm X W w p t (setNextTimeout now (with_working true t))); try done.
  - destruct Hinf as (? & ? & ? & ?). split; [done|]. split; [|split; [set_solver|done]].
    apply sched_exact_idle; [by eapply not_due_idle|done].
  - by destruct Hinf as (? & ? & ? & ?).
  - intros HpX. destruct (HW p (HX HpX)) as (t0 & ? & ?). congruence.
Qed.

Lemma inflight_stop X W w p t :
  inflight X W w -> tw_heap w !! p = Some t -> timerId t <> INVALID_TIMER_ID -> p ∉ W ->
  inflight X W (stopTimer (timerId t) w).
Proof.
  intros Hinf Hp Hv HpW. pose proof Hinf as (Hw & _ & Hsub & _).
  pose proof (stopTimer_wf (timerId t) w Hw) as Hwf. revert Hwf. unfold stopTimer.
  pose proof Hw as (_ & (_ & Ht) & _). rewrite (Ht _ _ Hp Hv), Hp. intros Hwf.
  destruct (inflight_disarm X W w p t (with_working false t) Hinf Hp HpW Hv) as [H1 H2];
    [by right|]. done.
Qed.

Lemma inflight_release X W w p t :
  inflight X W w -> tw_heap w !! p = Some t -> timerId t <> INVALID_TIMER_ID -> p ∉ W ->
  inflight X W (releaseTimer (timerId t) w).
Proof.
  intros Hinf Hp Hv HpW. pose proof Hinf as (Hw & _ & Hsub & _).
  pose proof (releaseTimer_wf (timerId t) w Hw) as Hwf. revert Hwf. unfold releaseTimer.
  pose proof Hw as (_ & (_ & Ht) & _). rewrite (Ht _ _ Hp Hv), Hp. intros Hwf.
  destruct (inflight_disarm X W w p t (with_id INVALID_TIMER_ID t) Hinf Hp HpW Hv) as [H1 H2];
    [by left|]. done.
Qed.

Lemma inflight_add X W w i : inflight X W w -> inflight X W (addTimer i w).2.
Proof.
  intros (Hw & Hex & Hsub & HW). split; [by apply addTimer_wf|]. unfold addTimer.
  destruct (getNextTimerId w) as [id w1] eqn:Hg. pose proof Hw as (Hids & _).
  pose proof (getNextTimerId_spec _ _ _ Hids Hg) as (Hh & Hm & He & _ & Hcase).
  assert (Hex1 : sched_exact X w1) by (intros k j q; unfold due_at; rewrite He, Hh; apply Hex).
  assert (HW1 : forall p, p ∈ W -> exists t, tw_heap w1 !! p = Some t /\ working t = true)
    by (intros; rewrite Hh; eauto).
  case_match; simpl; [|done].
  pose proof (is_fresh (dom (tw_heap w1))) as Hf. set (p := fresh _) in *. clearbody p.
  apply not_elem_of_dom in Hf.
  assert (sched_exact X (set_timer p (with_id id (new_Timer i)) w1) /\
          (forall q, q ∈ W -> exists t,
             tw_heap (set_timer p (with_id id (new_Timer i)) w1) !! q = Some t /\ working t = true))
    as [H1 H2].
  { split.
    - intros k j q. simpl. rewrite (Hex1 k j q). destruct (decide (p = q)) as [->|Hne].
      + rewrite due_at_set_eq. unfold due_at. rewrite Hf. split.
        * intros (_ & t & ? & _). done.
        * simpl. unfold new_Timer, timer_setInterval. simpl. intuition congruence.
      + by rewrite due_at_set_ne.
    - intros q Hq. destruct (HW1 q Hq) as (t & Ht & ?). exists t. simpl.
      rewrite lookup_insert_ne; [done|]. intros <-. congruence. }
  by case_match.
Qed.

Lemma run_op_inflight X W w o : op_ok X W o -> inflight X W w -> inflight X W (run_op w o).
Proof.
  intros Hok Hinf. destruct o as [i|now p|p|p|p i|p b]; simpl in *.
  1: by apply inflight_add.
  all: destruct (tw_heap w !! p) as [t|] eqn:Hp; [|done].
  1-3: destruct (isValidTimerId (timerId t)) eqn:Hv; [|done];
       apply isValidTimerId_true in Hv.
  - by apply (inflight_start X W now w p).
  - by apply (inflight_stop X W w p).
  - by apply (inflight_release X W w p).
  - eapply inflight_set_timer; [done|done|..]; unfold timer_setInterval; by case_match.
  - eapply inflight_set_timer; [done|done|..]; unfold timer_setSingle; by case_match.
Qed.

Lemma run_ops_inflight X W w os :
  Forall (op_ok X W) os -> inflight X W w -> inflight X W (run_ops w os).
Proof.
  intros Hos. unfold run_ops. apply foldl_invariant with (Q := op_ok X W); [|done].
  intros. by apply run_op_inflight.
Qed.

(** ** A turn of the event loop *)

Lemma disciplined_op_ok X p o :
  p ∉ X -> op_disciplined p o -> op_ok ({[p]} ∪ X) X o.
Proof. destruct o; simpl; intros Hp Ho; try done; subst; set_solver. Qed.

Lemma inflight_weaken X W W' w : W' ⊆ W -> inflight X W w -> inflight X W' w.
Proof. intros Hs (?&?&?&HW). split; [done|]. split; [done|]. split; [set_solver|]. eauto. Qed.

(** A timer whose callback ran and that is not re-armed leaves the batch. *)
Lemma inflight_finish X w p :
  p ∉ X -> inflight ({[p]} ∪ X) X w ->
  match tw_heap w !! p with
  | None => inflight X X w
  | Some t => inflight X X (set_timer p (with_working false t) w)
  end.
Proof.
  intros HpX (Hw & Hex & _ & HW). destruct (tw_heap w !! p) as [t|] eqn:Hp.
  - split; [by eapply set_timer_wf|]. split; [|split; [done|]].
    + apply (sched_exact_idle _ _ p).
      { intros k id. rewrite due_at_set_eq. simpl. intros (_ & _ & ? & _). done. }
      intros k id q. simpl. rewrite (Hex k id q). destruct (decide (p = q)) as [->|Hne];
        [set_solver|by rewrite due_at_set_ne].
    + intros q Hq. simpl. rewrite lookup_insert_ne by set_solver. eauto.
  - split; [done|]. split; [|done]. apply (sched_exact_idle _ _ p); [|done].
    intros k id (t & ? & _). congruence.
Qed.

Definition batch (l : list ptr) : gset ptr := list_to_set l.

Lemma run_timeouts_inflight slots q w c :
  slots_disciplined slots -> NoDup (q ++ c) -> inflight (batch (q ++ c)) (batch (q ++ c)) w ->
  NoDup (run_timeouts slots q w c).2 /\
  inflight (batch (run_timeouts slots q w c).2) (batch (run_timeouts slots q w c).2)
    (run_timeouts slots q w c).1.
Proof.
  intros Hs. revert w c. induction q as [|p q IH]; intros w c Hnd Hinf; [done|].
  cbn [run_timeouts]. simpl in Hnd. apply NoDup_cons in Hnd as [Hp Hnd].
  set (X := batch (q ++ c)). assert (HpX : p ∉ X) by (unfold X, batch; set_solver).
  assert (H0 : inflight ({[p]} ∪ X) X (handleTimeoutEvent slots p w)).
  { apply run_ops_inflight; [|by eapply inflight_weaken; [|apply Hinf]; set_solver].
    eapply Forall_impl; [apply Hs|]. intros. by apply disciplined_op_ok. }
  set (w1 := handleTimeoutEvent slots p w) in *.
  pose proof (inflight_finish _ _ _ HpX H0) as Hfin.
  destruct (tw_heap w1 !! p) as [t|] eqn:Ht; [|by apply IH].
  destruct (keep_cycling t) eqn:Hk; [|by apply IH].
  unfold keep_cycling in Hk. apply andb_true_iff in Hk as [_ Hk].
  assert (HX : batch (q ++ c ++ [p]) = {[p]} ∪ X) by (unfold X, batch; set_solver).
  apply IH.
  - rewrite app_assoc. apply NoDup_app. split; [done|]. split; [set_solver|apply NoDup_singleton].
  - rewrite HX. destruct H0 as (?&?&_&HW). split; [done|]. split; [done|]. split; [done|].
    intros q' [->%elem_of_singleton|?]%elem_of_union; eauto.
Qed.

Lemma rearm_inflight now c w :
  NoDup c -> inflight (batch c) (batch c) w ->
  inflight ∅ ∅ (foldl (rearm now) w c).
Proof.
  revert w. induction c as [|p c IH]; intros w Hnd Hinf; [done|].
  apply NoDup_cons in Hnd as [Hp Hnd]. simpl. apply IH; [done|].
  destruct Hinf as (Hw & Hex & Hsub & HW).
  destruct (HW p) as (t & Ht & Hwk); [unfold batch; set_solver|].
  unfold rearm. rewrite Ht. apply working_true in Hwk as [Hv Hwk].
  apply (inflight_arm (batch c) (batch c) w p t (setNextTimeout now t)); try done.
  - split; [done|]. split; [done|]. split; [set_solver|].
    intros. apply HW. unfold batch in *. set_solver.
  - unfold batch. set_solver.
Qed.

(** Taking the due timers out of the schedule puts them in flight. *)
Lemma take_due_inflight now w q r :
  inflight ∅ ∅ w -> take_due now (timerEventsMap w) = (q, r) ->
  NoDup q /\ inflight (batch q) (batch q) (set_events r w).
Proof.
  intros (Hw & Hex & _ & _) Hd. pose proof Hw as (_ & (_ & Htb) & Hs & Hl).
  destruct (take_due_spec _ _ _ _ Hs Hd) as (Hq & Hr & pre & Hpre & Hqp).
  assert (Hone : forall k1 i1 k2 i2 p, ((k1, i1), p) ∈ timerEventsMap w ->
            ((k2, i2), p) ∈ timerEventsMap w -> (k1, i1) = (k2, i2)).
  { intros k1 i1 k2 i2 p [_ (t1 & ? & ? & _ & _ & ?)]%Hex [_ (t2 & ? & ? & _ & _ & ?)]%Hex.
    congruence. }
  assert (Hin : forall p, p ∈ q <-> exists k id, ((k, id), p) ∈ timerEventsMap w /\ k <= now).
  { intros p. rewrite Hq, list_elem_of_fmap. split.
    - intros ([[k id] p'] & -> & [? ?]%list_elem_of_filter). eauto.
    - intros (k & id & ? & ?). exists ((k, id), p). by rewrite list_elem_of_filter. }
  split.
  - rewrite Hqp. rewrite Hpre in Hs, Hone. clear -Hs Hone.
    induction pre as [|[[k id] p] pre IH]; [constructor|]. simpl in *.
    inversion_clear Hs as [|? ? Hs' Hall]. constructor.
    + intros ([[k' id'] p'] & Heq & Hin)%list_elem_of_fmap. simpl in Heq. subst p'.
      eapply Forall_forall in Hall.
      2: { rewrite fmap_app, elem_of_app. left. by apply list_elem_of_fmap_2. }
      simpl in Hall. rewrite (Hone k id k' id' p) in Hall; [|set_solver|set_solver].
      by apply key_lt_irrefl in Hall.
    + apply IH; [done|]. intros k1 i1 k2 i2 p0 ? ?. apply (Hone k1 i1 k2 i2 p0); set_solver.
  - split; [|split; [|split; [done|]]].
    + apply set_events_wf; [rewrite Hr; by apply filter_sorted| |done].
      intros e He. rewrite Hr in He. apply list_elem_of_filter in He as [_ He]. eauto.
    + intros k id p. simpl. rewrite Hr, list_elem_of_filter. simpl.
      unfold batch. rewrite elem_of_list_to_set, Hin.
      transitivity (~ k <= now /\ due_at w p k id); [rewrite (Hex k id p); set_solver|].
      split.
      * intros [Hk Hdue]. split; [|done]. intros (k' & id' & Hin' & Hk').
        apply Hk. apply Hex in Hin' as [_ (t' & ? & ? & _ & _ & <-)].
        destruct Hdue as (t & ? & ? & _ & _ & <-). congruence.
      * intros [Hno Hdue]. split; [|done]. intros Hk. apply Hno.
        exists k, id. split; [|done]. apply Hex. split; [set_solver|done].
    + intros p Hp. unfold batch in Hp. rewrite elem_of_list_to_set, Hin in Hp.
      destruct Hp as (k & id & [_ (t & ? & Hid & ? & ? & _)]%Hex & _). exists t.
      split; [done|]. apply working_true. by rewrite Hid.
Qed.

Lemma handleTimerEvent_inflight slots now1 now2 w :
  slots_disciplined slots -> inflight ∅ ∅ w -> inflight ∅ ∅ (handleTimerEvent slots now1 now2 w).
Proof.
  intros Hs Hinf. unfold handleTimerEvent.
  destruct (take_due now1 (timerEventsMap w)) as [q r] eqn:Hd.
  destruct (take_due_inflight _ _ _ _ Hinf Hd) as [Hnd Hq].
  destruct (run_timeouts_inflight slots q (set_events r w) [] Hs) as [Hc Hw];
    [by rewrite app_nil_r..|].
  destruct (run_timeouts _ _ _ _) as [w1 c]. by apply rearm_inflight.
Qed.

(** ** The calls of a turn *)

Lemma run_op_fired w o : tw_fired (run_op w o) = tw_fired w.
Proof.
  destruct o; simpl.
  1: { unfold addTimer. destruct (getNextTimerId w) as [id w1] eqn:Hg. revert Hg.
       unfold getNextTimerId. repeat case_match; intros; simplify_eq/=; repeat case_match; done. }
  all: repeat case_match; try done;
    unfold startTimer, stopTimer, releaseTimer; repeat case_match; done.
Qed.

Lemma run_ops_fired w os : tw_fired (run_ops w os) = tw_fired w.
Proof.
  unfold run_ops. revert w. induction os; intros; simpl; [done|]. by rewrite IHos, run_op_fired.
Qed.

Lemma run_timeouts_fired slots q w c :
  tw_fired (run_timeouts slots q w c).1 = tw_fired w ++ q.
Proof.
  revert w c. induction q as [|p q IH]; intros; simpl; [by rewrite app_nil_r|].
  assert (H : tw_fired (handleTimeoutEvent slots p w) = tw_fired w ++ [p])
    by (unfold handleTimeoutEvent; by rewrite run_ops_fired).
  repeat case_match; rewrite IH; simpl; rewrite H, <- app_assoc; done.
Qed.

Lemma rearms_fired now c w : tw_fired (foldl (rearm now) w c) = tw_fired w.
Proof.
  revert w. induction c; intros; simpl; [done|]. rewrite IHc. unfold rearm. by case_match.
Qed.

(** ** A quiet turn *)

Lemma run_timeouts_quiet q w c :
  NoDup q ->
  (forall p, p ∈ (run_timeouts (fun _ => []) q w c).2 <->
     p ∈ c \/ p ∈ q /\ exists t, tw_heap w !! p = Some t /\ keep_cycling t = true) /\
  (forall p, tw_heap (run_timeouts (fun _ => []) q w c).1 !! p =
     (fun t => if bool_decide (p ∈ q) && negb (keep_cycling t) then with_working false t else t)
       <$> tw_heap w !! p).
Proof.
  revert w c. induction q as [|p q IH]; intros w c Hnd.
  { simpl. split; [set_solver|]. intros p. by destruct (tw_heap w !! p). }
  apply NoDup_cons in Hnd as [Hp Hnd]. cbn [run_timeouts].
  unfold handleTimeoutEvent. cbn [run_ops foldl]. set (w1 := log_fired p w).
  change (tw_heap w1) with (tw_heap w). destruct (tw_heap w !! p) as [t|] eqn:Ht.
  2: { destruct (IH w1 c Hnd) as [H1 H2]. split.
    - intros p'. rewrite H1. simpl. destruct (decide (p' = p)) as [->|]; [|set_solver].
      rewrite Ht. split; [|intros [?|[_ (?&?&_)]]; [tauto|done]]. set_solver.
    - intros p'. rewrite H2. simpl. destruct (decide (p' = p)) as [->|]; [by rewrite Ht|].
      by rewrite (bool_decide_ext (p' ∈ q) (p' ∈ p :: q)) by set_solver. }
  destruct (keep_cycling t) eqn:Hk.
  - destruct (IH w1 (c ++ [p]) Hnd) as [H1 H2]. split.
    + intros p'. rewrite H1. simpl. destruct (decide (p' = p)) as [->|]; [|set_solver].
      split; [|set_solver]. intros _. right. split; [set_solver|eauto].
    + intros p'. rewrite H2. simpl. destruct (decide (p' = p)) as [->|].
      * rewrite Ht. simpl. by rewrite Hk, !andb_false_r.
      * by rewrite (bool_decide_ext (p' ∈ q) (p' ∈ p :: q)) by set_solver.
  - destruct (IH (set_timer p (with_working false t) w1) c Hnd) as [H1 H2]. split.
    + intros p'. rewrite H1. simpl. destruct (decide (p' = p)) as [->|Hne].
      * rewrite lookup_insert_eq, Ht. split; [set_solver|].
        intros [?|[_ (t' & [= <-] & ?)]]; [tauto|congruence].
      * rewrite lookup_insert_ne by done. set_solver.
    + intros p'. rewrite H2. simpl. destruct (decide (p' = p)) as [->|Hne].
      * rewrite lookup_insert_eq, Ht. simpl. rewrite (bool_decide_false (p ∈ q)) by done.
        rewrite bool_decide_true by set_solver. by rewrite Hk.
      * rewrite lookup_insert_ne by done.
        by rewrite (bool_decide_ext (p' ∈ q) (p' ∈ p :: q)) by set_solver.
Qed.

Lemma rearms_quiet now c w p :
  NoDup c ->
  tw_heap (foldl (rearm now) w c) !! p =
    (fun t => if bool_decide (p ∈ c) then setNextTimeout now t else t) <$> tw_heap w !! p.
Proof.
  revert w. induction c as [|p' c IH]; intros w Hnd; simpl.
  { by destruct (tw_heap w !! p). }
  apply NoDup_cons in Hnd as [Hp' Hnd]. rewrite IH by done. unfold rearm.
  destruct (decide (p = p')) as [->|Hne].
  - rewrite bool_decide_false by done. rewrite bool_decide_true by set_solver.
    destruct (tw_heap w !! p') as [t|] eqn:E; simpl; [by rewrite lookup_insert_eq|by rewrite E].
  - rewrite (bool_decide_ext (p ∈ c) (p ∈ p' :: c)) by set_solver.
    destruct (tw_heap w !! p') as [t|]; simpl; [by rewrite lookup_insert_ne|done].
Qed.

Lemma disciplined_quiet : slots_disciplined (fun _ => []).
Proof. intros p. constructor. Qed.

Lemma reachable_inflight w : rtc disciplined_step tw_init w -> inflight ∅ ∅ w.
Proof.
  apply rtc_invariant.
  - intros a b Ha Hs. revert Ha. destruct Hs; intros Ha; [|by apply handleTimerEvent_inflight].
    apply run_op_inflight; [|done]. destruct o; simpl; set_solver.
  - split; [apply timers_wf_init|]. split; [|set_solver].
    intros k id p. simpl. split; [by intros ?%not_elem_of_nil|].
    by intros [_ (t & ? & _)].
Qed.

(** ** Properties *)

(** C1. In every reachable state of the timers of an object, whatever the
    slots of [timeout] do, the ids in use and the released ids partition
    [1 .. lastTimerId], the id table and the timers agree on every id (so ids
    are unique), and the schedule is strictly ordered by (deadline, id) and
    refers to live timers only. *)
Theorem timers_wf_reachable w : rtc timer_step tw_init w -> timers_wf w.
Proof.
  apply rtc_invariant; [|apply timers_wf_init].
  intros a b Ha Hs. revert Ha.
  destruct Hs; intros Ha; [by apply run_op_wf|by apply handleTimerEvent_wf].
Qed.

Lemma timers_wf_reachable_witness :
  let w := run_op (run_op tw_init (OpAdd 10)) (OpStart 5 0%nat) in
  timerEventsMap w = [((15, 1), 0%nat)] /\ timers_wf w.
Proof.
  split; [vm_compute; reflexivity|]. apply timers_wf_reachable.
  eapply rtc_l; [apply step_op|]. eapply rtc_l; [apply step_op|]. apply rtc_refl.
Defined.

(** C2. When the slots keep to the discipline (a callback stops or releases
    only its own timer and does not start it), the schedule holds, in every
    reachable state, exactly one entry per working timer, at its deadline, and
    nothing else. *)
Theorem schedule_exact_reachable w :
  rtc disciplined_step tw_init w -> sched_exact ∅ w.
Proof. intros Hr. apply (reachable_inflight w Hr). Qed.

Lemma schedule_exact_reachable_witness :
  let slots := fun p => if bool_decide (p = 0%nat) then [OpStop 0%nat; OpAdd 7] else [] in
  let w := handleTimerEvent slots 20 21
             (run_op (run_op tw_init (OpAdd 10)) (OpStart 5 0%nat)) in
  timerEventsMap w = [] /\ tw_fired w = [0%nat] /\ sched_exact ∅ w.
Proof.
  split; [vm_compute; reflexivity|]. split; [vm_compute; reflexivity|].
  apply schedule_exact_reachable.
  eapply rtc_l; [apply dstep_op|]. eapply rtc_l; [apply dstep_op|].
  eapply rtc_l; [apply dstep_handle|apply rtc_refl].
  intros p. case_bool_decide; [|constructor]. subst. repeat constructor.
Defined.

(** A turn of the loop emits [timeout] of exactly the timers due when it
    started, once per entry, in the order of (deadline, id), whatever their
    slots do meanwhile. *)
Theorem handleTimerEvent_fires slots now1 now2 w :
  timers_wf w ->
  tw_fired (handleTimerEvent slots now1 now2 w)
  = tw_fired w ++ (filter (fun e => e.1.1 <= now1) (timerEventsMap w)).*2.
Proof.
  intros (_ & _ & Hs & _). unfold handleTimerEvent.
  destruct (take_due now1 (timerEventsMap w)) as [q r] eqn:Hd.
  destruct (take_due_spec _ _ _ _ Hs Hd) as (Hq & _ & _).
  pose proof (run_timeouts_fired slots q (set_events r w) []) as Hf.
  destruct (run_timeouts _ _ _ _) as [w1 c]. rewrite rearms_fired. simpl in Hf. rewrite Hf.
  f_equal. exact Hq.
Qed.

Lemma handleTimerEvent_fires_witness :
  let w := run_ops tw_init [OpAdd 10; OpAdd 3; OpStart 0 0%nat; OpStart 0 1%nat] in
  timers_wf w /\ tw_fired (handleTimerEvent (fun _ => [OpRelease 0%nat]) 12 12 w) = [1%nat; 0%nat].
Proof.
  assert (timers_wf (run_ops tw_init [OpAdd 10; OpAdd 3; OpStart 0 0%nat; OpStart 0 1%nat]))
    as Hw by apply run_ops_wf, timers_wf_init.
  split; [exact Hw|].
  etransitivity; [exact (handleTimerEvent_fires (fun _ => [OpRelease 0%nat]) 12 12 _ Hw)|].
  vm_compute. reflexivity.
Defined.

(** A quiet turn (no slot touches a timer) stops every due single-shot
    timer, re-arms every due periodic timer [interval] after the second clock
    reading, and leaves every other timer as it was. *)
Theorem quiet_turn_effect now1 now2 w p :
  rtc disciplined_step tw_init w ->
  tw_heap (handleTimerEvent (fun _ => []) now1 now2 w) !! p
  = after_turn now1 now2 <$> tw_heap w !! p.
Proof.
  intros Hr. apply reachable_inflight in Hr. unfold handleTimerEvent.
  destruct (take_due now1 (timerEventsMap w)) as [q r] eqn:Hd.
  destruct (take_due_inflight _ _ _ _ Hr Hd) as [Hnd Hq].
  destruct (run_timeouts_quiet q (set_events r w) [] Hnd) as [Hc Hh].
  destruct (run_timeouts_inflight _ q (set_events r w) [] disciplined_quiet) as [Hcn _];
    [by rewrite app_nil_r..|].
  destruct (run_timeouts _ _ _ _) as [w1 c]. simpl in *. rewrite rearms_quiet, Hh by done.
  destruct (tw_heap w !! p) as [t|] eqn:Ht; simpl; [|done]. f_equal.
  assert (Hqt : p ∈ q <-> working t && (nextTimeout t <=? now1) = true).
  { rewrite andb_true_iff. destruct Hr as (Hw & Hex & _).
    destruct (take_due_spec _ _ _ _ (proj1 (proj2 (proj2 Hw))) Hd) as (-> & _ & _).
    rewrite list_elem_of_fmap, working_true. split.
    - intros ([[k id] p'] & -> & [Hk [_ Hin]%Hex]%list_elem_of_filter). simpl in *.
      apply (due_at_eq _ _ _ _ _ Ht) in Hin as (-> & ? & ? & ->). split; [done|lia].
    - intros [[Hv Hwk] Hk]. exists ((nextTimeout t, timerId t), p). split; [done|].
      apply list_elem_of_filter. split; [simpl; lia|]. apply Hex. split; [set_solver|].
      by apply (due_at_eq _ _ _ _ _ Ht). }
  unfold after_turn. destruct (working t && (nextTimeout t <=? now1)) eqn:Hdue.
  - rewrite (bool_decide_true (p ∈ q)) by by apply Hqt. simpl.
    apply andb_true_iff in Hdue as [Hwk _]. unfold keep_cycling. rewrite Hwk, andb_true_r.
    destruct (isSingle t) eqn:Hsg; simpl.
    + rewrite bool_decide_false; [done|]. rewrite Hc, Ht.
      intros [?%not_elem_of_nil|[_ (t' & [= <-] & Hk)]]; [done|].
      unfold keep_cycling in Hk. by rewrite Hsg in Hk.
    + rewrite bool_decide_true; [done|]. rewrite Hc, Ht. right. split; [by apply Hqt|].
      exists t. split; [done|]. unfold keep_cycling. by rewrite Hsg, Hwk.
  - assert (p ∉ q) as Hn by (rewrite Hqt; done).
    rewrite (bool_decide_false (p ∈ q)) by done. simpl.
    rewrite bool_decide_false; [done|]. rewrite Hc. set_solver.
Qed.

Lemma quiet_turn_effect_witness :
  let w := run_op (run_op tw_init (OpAdd 10)) (OpStart 5 0%nat) in
  tw_heap (handleTimerEvent (fun _ => []) 15 16 w) !! 0%nat
  = Some (mkTimer false true 10 26 1).
Proof.
  intros w. etransitivity; [exact (quiet_turn_effect 15 16 w 0%nat ltac:(
    eapply rtc_l; [apply dstep_op|]; eapply rtc_l; [apply dstep_op|apply rtc_refl]))|].
  vm_compute. reflexivity.
Defined.

(** After [Timer::stop] returns, outside a batch and under the discipline,
    no entry of that timer is left: it cannot fire before it is started. *)
Theorem stop_unschedules w p k id :
  rtc disciplined_step tw_init w ->
  ((k, id), p) ∉ timerEventsMap (run_op w (OpStop p)).
Proof.
  intros Hr Hin.
  assert (Hr' : inflight ∅ ∅ (run_op w (OpStop p))).
  { apply reachable_inflight. eapply rtc_r; [done|]. constructor. }
  apply Hr' in Hin as [_ (t & Ht & Hid & Hv & Hwk & _)].
  apply reachable_inflight in Hr as ((_ & (_ & Htb) & _) & Hex & _).
  cbn [run_op] in Ht. destruct (tw_heap w !! p) as [t0|] eqn:Ht0; [|congruence].
  destruct (isValidTimerId (timerId t0)) eqn:Hv0.
  - apply isValidTimerId_true in Hv0. unfold stopTimer in Ht.
    rewrite (Htb _ _ Ht0 Hv0), Ht0 in Ht. simpl in Ht. rewrite lookup_insert_eq in Ht.
    injection Ht as <-. done.
  - assert (t = t0) as -> by congruence.
    rewrite Hid in Hv0. apply isValidTimerId_true in Hv. congruence.
Qed.

Lemma stop_unschedules_witness :
  ((15, 1), 0%nat) ∉
  timerEventsMap (run_op (run_op (run_op tw_init (OpAdd 10)) (OpStart 5 0%nat)) (OpStop 0%nat)).
Proof.
  apply stop_unschedules.
  eapply rtc_l; [apply dstep_op|]. eapply rtc_l; [apply dstep_op|apply rtc_refl].
Defined.

(** What the discipline excludes, on concrete runs.  Two periodic timers
    are due together and the slot of the second stops (or releases) the first:
    the first is idle (or has no id) and fires again all the same.  A periodic
    timer that restarts itself in its slot is scheduled twice, and one entry
    survives [stop].  A single-shot timer started from its own slot answers true
    and is not scheduled. *)
Theorem discipline_is_needed :
  let two := run_ops tw_init [OpAdd 10; OpAdd 10; OpStart 0 0%nat; OpStart 0 1%nat] in
  let one := run_ops tw_init [OpAdd 10; OpStart 0 0%nat] in
  let single := run_ops tw_init [OpAdd 10; OpSetSingle 0%nat true; OpStart 0 0%nat] in
  let slots o p := if bool_decide (p = 1%nat) then [o] else [] in
  let stopped := handleTimerEvent (slots (OpStop 0%nat)) 10 10 two in
  let released := handleTimerEvent (slots (OpRelease 0%nat)) 10 10 two in
  let doubled := handleTimerEvent (fun _ => [OpStop 0%nat; OpStart 11 0%nat]) 10 12 one in
  ((isWorking <$> tw_heap stopped !! 0%nat) = Some false /\
   tw_fired (handleTimerEvent (fun _ => []) 20 20 stopped) = [0; 1; 0; 1]%nat) /\
  ((timerId <$> tw_heap released !! 0%nat) = Some INVALID_TIMER_ID /\
   tw_fired (handleTimerEvent (fun _ => []) 20 20 released) = [0; 1; 0; 1]%nat) /\
  (timerEventsMap doubled = [((21, 1), 0%nat); ((22, 1), 0%nat)] /\
   timerEventsMap (run_op doubled (OpStop 0%nat)) = [((21, 1), 0%nat)]) /\
  ((startTimer 10 1 (log_fired 0%nat (set_events [] single))).1 = true /\
   timerEventsMap (handleTimerEvent (fun _ => [OpStart 10 0%nat]) 10 10 single) = []).
Proof. vm_compute. repeat split. Qed.

(** [releaseAllRef] leaves no schedule and no valid id behind. *)
Lemma releaseTimers_invalid w p t :
  table_wf w -> tw_heap (releaseTimers w) !! p = Some t ->
  timerId t = INVALID_TIMER_ID /\ timerEventsMap (releaseTimers w) = [].
Proof.
  intros [_ Htb]. simpl. unfold invalidate. rewrite map_lookup_imap.
  destruct (tw_heap w !! p) as [t0|] eqn:Ht0; simpl; [|done].
  case_bool_decide as Hex; intros [= <-]; [done|]. split; [|done].
  destruct (decide (timerId t0 = INVALID_TIMER_ID)) as [|Hv]; [done|].
  exfalso. apply Hex. exists (timerId t0), p. split; [by apply Htb|done].
Qed.
