(* ===== verification/Codec.v ===== *)
(** The protocol interface [ProtocalBase] ([src/imp/network/base/protocal-base.h],
    [protocal-base.cpp]) as the class [Codec] with its laws [CodecLaws], the
    base implementation and [ProtocalNormal] ([src/imp/network/protocal-normal.cpp]).

    A codec is a value of a type [P]: the configuration constants and whatever
    state [decodeFrame] keeps between calls (the HTTP codec caches its header,
    the stream codec reads the clock).  The cache of [IcacheBuffer] is written
    and verified against the class only. *)
From S2P Require Import Prelude.

(** The constants every protocol is constructed with. *)
Record ProtocalBase := mkProtocalBase {
  max_cache_size : Z;
  is_streaming : bool;
  max_frame_size : Z;
  slice_size : Z
}.

(** [ProtocalBase::ProtocalBase]: a zero slice size means 4096. *)
Definition new_ProtocalBase (mcs : Z) (streaming : bool) (mfs ss : Z) : ProtocalBase :=
  mkProtocalBase mcs streaming mfs (if ss =? 0 then 4096 else ss).

(** [ProtocalNormal::ProtocalNormal] with its default arguments. *)
Definition new_ProtocalNormal (mcs mfs ss : Z) : ProtocalBase := new_ProtocalBase mcs false mfs ss.
Definition ProtocalNormal_default : ProtocalBase := new_ProtocalNormal (32 * 1024) 4096 4096.

(** The virtual interface: the constants, and [decodeFrame], whose result is
    (frame start, frame length): length 0 is an incomplete frame, a length up
    to [max_frame_size] a frame, and a longer one invalid data of
    [length - max_frame_size] bytes. *)
Class Codec (P : Type) := {
  codec_config : P -> ProtocalBase;
  decodeFrame : list Z -> P -> (Z * Z) * P
}.

Definition getMaxCacheSize `{Codec P} (p : P) : Z := max_cache_size (codec_config p).
Definition isStreaming `{Codec P} (p : P) : bool := is_streaming (codec_config p).
Definition getMaxFrameSize `{Codec P} (p : P) : Z := max_frame_size (codec_config p).
Definition getSliceSize `{Codec P} (p : P) : Z := slice_size (codec_config p).

(** The contract of [decodeFrame], for data no longer than the cache. *)
Class CodecLaws (P : Type) `{Codec P} (codec_ok : P -> Prop) := {
  decode_keeps_config : forall data p, codec_config (decodeFrame data p).2 = codec_config p;
  decode_keeps_ok : forall data p, codec_ok p -> codec_ok (decodeFrame data p).2;
  decode_start : forall data p, (decodeFrame data p).1.1 = 0;
  decode_len : forall data p, codec_ok p -> zlen data <= getMaxCacheSize p ->
    0 <= (decodeFrame data p).1.2;
  decode_frame_fits : forall data p, codec_ok p -> zlen data <= getMaxCacheSize p ->
    (decodeFrame data p).1.2 <= getMaxFrameSize p -> (decodeFrame data p).1.2 <= zlen data;
  decode_invalid_fits : forall data p, codec_ok p -> zlen data <= getMaxCacheSize p ->
    getMaxFrameSize p < (decodeFrame data p).1.2 ->
    (decodeFrame data p).1.2 - getMaxFrameSize p <= zlen data
}.

(** A byte string is a wire frame of the codecs of a family ([ok]) with one
    configuration when each of them finds every strict prefix of it incomplete
    and recognises it as a whole whatever follows. *)
Definition wire_frame `{Codec P} (ok : P -> Prop) (cfg : ProtocalBase) (f : list Z) : Prop :=
  0 < zlen f <= max_frame_size cfg /\
  (forall k p, ok p -> codec_config p = cfg -> 0 <= k < zlen f ->
     (decodeFrame (take (Z.to_nat k) f) p).1 = (0, 0)) /\
  (forall more p, ok p -> codec_config p = cfg -> zlen (f ++ more) <= max_cache_size cfg ->
     (decodeFrame (f ++ more) p).1 = (0, zlen f)).

(** ** The base implementation *)

(** The copies of an [encodeFrame], one after the other. *)
Fixpoint copy_all (buf : list Z) (offset : Z) (items : list (list Z)) : option (list Z * Z) :=
  match items with
  | [] => Some (buf, offset)
  | i :: items' =>
      buf' ← memcpy_at buf offset i;
      copy_all buf' (u32 (offset + zlen i)) items'
  end.

(** [ProtocalBase::encodeFrame]; an empty result is the null buffer, [None] the
    copy outside the buffer when the 32-bit total wraps. *)
Definition base_encodeFrame (p : ProtocalBase) (input_list : list (list Z)) : option (list Z) :=
  let total_len := foldl (fun acc i => u32 (acc + zlen i)) 0 input_list in
  if max_frame_size p <? total_len then Some []
  else
    '(buf, _) ← copy_all (replicate (Z.to_nat total_len) 0) 0 input_list;
    Some buf.

(** [ProtocalBase::decodeFrame]: all the data is one frame. *)
Definition base_decodeFrame (data : list Z) : Z * Z := (0, zlen data).

#[export] Instance base_codec : Codec ProtocalBase := {
  codec_config := fun p => p;
  decodeFrame := fun data p => (base_decodeFrame data, p)
}.

Definition base_ok (p : ProtocalBase) : Prop := 0 <= max_frame_size p.

#[export] Instance base_codec_laws : CodecLaws ProtocalBase base_ok.
Proof.
  split; simpl; try done; unfold getMaxFrameSize, base_ok; simpl; intros;
    pose proof (zlen_nonneg data); lia.
Qed.

(** Copies into a fresh buffer of the right size lay the items out in order. *)
Lemma copy_all_spec items pre z :
  zlen pre + zlen (concat items) <= z -> z < 2 ^ 32 ->
  copy_all (pre ++ replicate (Z.to_nat (z - zlen pre)) 0) (zlen pre) items
  = Some (pre ++ concat items ++ replicate (Z.to_nat (z - zlen pre - zlen (concat items))) 0,
          zlen pre + zlen (concat items)).
Proof.
  revert pre. induction items as [|i items IH]; intros pre Hle Hw; simpl.
  - rewrite (@zlen_nil Z). rewrite Z.sub_0_r, Z.add_0_r. done.
  - simpl in Hle. rewrite zlen_app in Hle |- *.
    pose proof (zlen_nonneg i). pose proof (zlen_nonneg pre). pose proof (zlen_nonneg (concat items)).
    rewrite memcpy_at_Some; [|lia|rewrite zlen_app, zlen_replicate; lia].
    cbn [mbind option_bind]. rewrite wrap_small by lia.
    assert (Hbuf : take (Z.to_nat (zlen pre)) (pre ++ replicate (Z.to_nat (z - zlen pre)) 0) ++
      i ++ drop (Z.to_nat (zlen pre + zlen i)) (pre ++ replicate (Z.to_nat (z - zlen pre)) 0)
      = (pre ++ i) ++ replicate (Z.to_nat (z - zlen (pre ++ i))) 0).
    { unfold zlen in *. rewrite Nat2Z.id, take_app_length, drop_app_ge by lia.
      rewrite drop_replicate, <- app_assoc. do 3 f_equal. rewrite length_app. lia. }
    rewrite Hbuf. rewrite <- zlen_app. rewrite IH by (rewrite ?zlen_app; lia).
    rewrite <- !app_assoc, zlen_app.
    replace (z - (zlen pre + zlen i) - zlen (concat items))
      with (z - zlen pre - (zlen i + zlen (concat items))) by lia.
    by rewrite Z.add_assoc.
Qed.
