(* ===== verification/IcacheBuffer.v ===== *)
(** The frame cache: [IcacheBufferBase] and [IcacheBufferStream]
    ([src/imp/network/base/icache_buffer.h], [icache_buffer.cpp],
    [src/imp/network/icache_buffer_stream.cpp]).

    One contiguous buffer holds the frames already recognised, the bytes not
    yet decoded and free space; offsets are [uint32_t].  [None] is a memory
    error: a copy that leaves the buffer it reads or writes.  The kernel is the
    list of results of its [send] calls; when the list ends the socket would
    block. *)
From S2P Require Import Prelude Codec.

Record cache := mkCache {
  c_max : Z;                 (* max_cache_size *)
  cache_buf : list Z;        (* [] is the null pointer *)
  cache_size : Z;
  write_offset : Z;
  decode_offset : Z;
  frame_cache_map : list (Z * Z)
}.

(** Results of [::send]: the bytes the kernel has room for (it takes no more
    than it is given), would-block or interrupted, or a hard error. *)
Inductive send_result :=
  | SendOk (room : N)
  | SendAgain
  | SendError.

(** Results of [::recv]: data (none when the peer closed), would-block or
    interrupted, or a hard error. *)
Inductive recv_result :=
  | RecvOk (bytes : list Z)
  | RecvAgain
  | RecvError.

Section Cache.
Context {P : Type} `{Codec P}.

(** [IcacheBufferBase::IcacheBufferBase] *)
Definition new_cache (p : P) (mcs : Z) : cache :=
  mkCache (if mcs <? getMaxCacheSize p then getMaxCacheSize p else mcs) [] 0 0 0 [].

Definition set_frames (fs : list (Z * Z)) (c : cache) : cache :=
  mkCache (c_max c) (cache_buf c) (cache_size c) (write_offset c) (decode_offset c) fs.

(** The offset of the oldest byte still needed. *)
Definition read_offset (c : cache) : Z :=
  match frame_cache_map c with
  | [] => decode_offset c
  | (o, _) :: _ => o
  end.

(** [IcacheBufferBase::resize] *)
Definition resize (new_size : Z) (c : cache) : option cache :=
  let ro := read_offset c in
  let data_size := u32 (write_offset c - ro) in
  data ← memread (cache_buf c) ro data_size;
  buf ← memcpy_at (replicate (Z.to_nat (u32 (new_size + 1))) 0) 0 data;
  Some (mkCache (c_max c) buf new_size (u32 (write_offset c - ro)) (u32 (decode_offset c - ro))
          (map (fun f => (u32 (f.1 - ro), f.2)) (frame_cache_map c))).

(** [IcacheBufferBase::appendCache] *)
Definition appendCache (p : P) (data : list Z) (c : cache) : option (bool * cache) :=
  let len := u32 (zlen data) in
  if len =? 0 then Some (false, c) else
  let copy c1 :=
    buf ← memcpy_at (cache_buf c1) (write_offset c1) data;
    Some (true, mkCache (c_max c1) buf (cache_size c1) (u32 (write_offset c1 + len))
                  (decode_offset c1) (frame_cache_map c1)) in
  if cache_size c <? u32 (len + write_offset c) then
    let data_size := u32 (write_offset c - read_offset c) in
    if c_max c <? u32 (data_size + len) then Some (false, c) else
    let available_size := u32 (cache_size c - u32 (write_offset c - read_offset c)) in
    let new_size :=
      if u32 (10 * len) <? available_size
      then u32 (data_size + getMaxFrameSize p)
      else u32 (cache_size c + getMaxFrameSize p) in
    c1 ← resize (if c_max c <? new_size then c_max c else new_size) c;
    copy c1
  else copy c.

(** [IcacheBufferBase::parseCache]; the data handed to the codec is the part of
    the buffer from [decode_offset] to [write_offset]. *)
Definition parseCache (p : P) (c : cache) : option ((Z * Z) * cache * P) :=
  data ← memread (cache_buf c) (decode_offset c) (u32 (write_offset c - decode_offset c));
  let '((s, n), p') := decodeFrame data p in
  let c' :=
    if getMaxFrameSize p <? n
    then mkCache (c_max c) (cache_buf c) (cache_size c) (write_offset c)
           (u32 (decode_offset c + (n - getMaxFrameSize p))) (frame_cache_map c)
    else c in
  Some ((u32 (s + decode_offset c'), n), c', p').

(** [IcacheBufferBase::updateFrameCache] *)
Definition updateFrameCache (frame_offset frame_len : Z) (c : cache) : cache :=
  mkCache (c_max c) (cache_buf c) (cache_size c) (write_offset c) (u32 (frame_offset + frame_len))
    (frame_cache_map c ++ [(frame_offset, frame_len)]).

(** The loop of [IcacheBufferBase::readFromBuf]. *)
Fixpoint base_parse_loop (fuel : nat) (p : P) (c : cache) : option (cache * P) :=
  match fuel with
  | O => None
  | S fuel' =>
      '((s, n), c1, p1) ← parseCache p c;
      if (n =? 0) || (getMaxFrameSize p <? n) then Some (c1, p1)
      else base_parse_loop fuel' p1 (updateFrameCache s n c1)
  end.

(** The loop of [IcacheBufferStream::readFromBuf]; [false] is the [-1] return. *)
Fixpoint stream_parse_loop (fuel : nat) (p : P) (c : cache) : option (bool * cache * P) :=
  match fuel with
  | O => None
  | S fuel' =>
      '((s, n), c1, p1) ← parseCache p c;
      if n =? 0 then Some (true, c1, p1)
      else if getMaxFrameSize p <? n then Some (false, c1, p1)
      else stream_parse_loop fuel' p1 (updateFrameCache s n c1)
  end.

(** Every frame takes at least one byte of the cache. *)
Definition parse_fuel (c : cache) : nat := S (Z.to_nat (write_offset c)).

(** [IcacheBufferBase::readFromBuf] *)
Definition base_readFromBuf (p : P) (data : list Z) (c : cache) : option (Z * cache * P) :=
  '(b, c1) ← appendCache p data c;
  if (b : bool) then
    '(c2, p2) ← base_parse_loop (parse_fuel c1) p c1;
    Some (zlen data, c2, p2)
  else Some (-1, c1, p).

(** [IcacheBufferStream::readFromBuf] *)
Definition stream_readFromBuf (p : P) (data : list Z) (c : cache) : option (Z * cache * P) :=
  '(b, c1) ← appendCache p data c;
  if (b : bool) then
    '(ok, c2, p2) ← stream_parse_loop (parse_fuel c1) p c1;
    Some (if (ok : bool) then zlen data else -1, c2, p2)
  else Some (-1, c1, p).

(** [IcacheBufferBase::popFrame]; an empty result is no frame. *)
Definition popFrame (c : cache) : option (list Z * cache) :=
  match frame_cache_map c with
  | [] => Some ([], c)
  | (o, n) :: fs =>
      data ← memread (cache_buf c) o n;
      Some (data, set_frames fs c)
  end.

(** [IcacheBufferBase::appendFrame] *)
Definition appendFrame (p : P) (data : list Z) (c : cache) : option (Z * cache) :=
  '(b, c1) ← appendCache p data c;
  if (b : bool)
  then Some (zlen data, updateFrameCache (u32 (write_offset c1 - zlen data)) (zlen data) c1)
  else Some (-1, c1).

(** The loop of [IcacheBufferStream::sendCacheByFd] on the front frame
    [(o, n)]: the bytes sent so far, the frame as it is left, whether the
    connection is to be closed, and the results the kernel still has. *)
Fixpoint stream_send_loop (net : list send_result) (buf : list Z) (o n : Z) (sent : list Z)
  : option (list Z * (Z * Z) * bool * list send_result) :=
  if n <=? 0 then Some (sent, (o, n), false, net) else
  match net with
  | [] => Some (sent, (o, n), false, [])
  | SendAgain :: net' => Some (sent, (o, n), false, net')
  | SendError :: net' => Some (sent, (o, n), true, net')
  | SendOk room :: net' =>
      let k := Z.min (Z.of_N room) n in
      if k =? 0 then Some (sent, (o, n), true, net')
      else
        data ← memread buf o k;
        stream_send_loop net' buf (u32 (o + k)) (u32 (n - k)) (sent ++ data)
  end.

(** [IcacheBufferStream::sendCacheByFd]: the return value, the bytes the
    kernel took and the cache; the list node of the frame is updated in place. *)
Definition stream_sendCacheByFd (net : list send_result) (c : cache)
  : option (Z * list Z * cache * list send_result) :=
  match frame_cache_map c with
  | [] => Some (-1, [], c, net)
  | (o, n) :: fs =>
      '(sent, (o', n'), closed, net') ← stream_send_loop net (cache_buf c) o n [];
      if (closed : bool) then Some (0, sent, set_frames ((o', n') :: fs) c, net')
      else
        Some (if zlen sent =? 0 then -1 else zlen sent, sent,
              set_frames (if n' =? 0 then fs else (o', n') :: fs) c, net')
  end.

(** The loop of [IcacheBufferBase::sendCacheByFd], which sends slices. *)
Fixpoint base_send_loop (p : P) (net : list send_result) (buf : list Z) (o n : Z) (sent : list Z)
  : option (list Z * Z * bool * list send_result) :=
  if n <=? 0 then Some (sent, n, false, net) else
  match net with
  | [] => Some (sent, n, false, [])
  | SendAgain :: net' => Some (sent, n, false, net')
  | SendError :: net' => Some (sent, n, true, net')
  | SendOk room :: net' =>
      let send_size := if getSliceSize p <? n then getSliceSize p else n in
      let k := Z.min (Z.of_N room) send_size in
      data ← memread buf o k;
      if negb (n =? k) && negb (isStreaming p) then Some (sent ++ data, n, true, net')
      else base_send_loop p net' buf (u32 (o + k)) (u32 (n - k)) (sent ++ data)
  end.

(** [IcacheBufferBase::sendCacheByFd]: [frame] is a copy of the front of the
    list, so progress short of the whole frame is forgotten. *)
Definition base_sendCacheByFd (p : P) (net : list send_result) (c : cache)
  : option (Z * list Z * cache * list send_result) :=
  match frame_cache_map c with
  | [] => Some (-1, [], c, net)
  | (o, n) :: fs =>
      '(sent, n', closed, net') ← base_send_loop p net (cache_buf c) o n [];
      if (closed : bool) then Some (0, sent, c, net')
      else
        Some (if zlen sent =? 0 then -1 else zlen sent, sent,
              if n' =? 0 then set_frames fs c else c, net')
  end.

(** [IcacheBufferStream::readFromFd]; the kernel fills at most [getSliceSize]
    bytes. *)
Definition stream_readFromFd (p : P) (r : recv_result) (c : cache) : option (Z * cache * P) :=
  match r with
  | RecvError => Some (0, c, p)
  | RecvAgain => Some (-1, c, p)
  | RecvOk bytes =>
      let data := take (Z.to_nat (getSliceSize p)) bytes in
      if zlen data =? 0 then Some (0, c, p)
      else
        '(result, c', p') ← stream_readFromBuf p data c;
        Some (if result <? 0 then 0 else zlen data, c', p')
  end.

(** [IcacheBufferBase::readFromFd] *)
Definition base_readFromFd (p : P) (r : recv_result) (c : cache) : option (Z * cache * P) :=
  match r with
  | RecvError => Some (0, c, p)
  | RecvAgain => Some (-1, c, p)
  | RecvOk bytes =>
      let data := take (Z.to_nat (getSliceSize p)) bytes in
      if zlen data =? 0 then Some (0, c, p)
      else
        '(result, c', p') ← base_readFromBuf p data c;
        Some (if result <? 0 then 0 else zlen data, c', p')
  end.

(** [IcacheBufferUdp::readFromFd] on a datagram and its source address: the
    address and the data are appended one after the other. *)
Definition udp_readFromFd (p : P) (r : recv_result) (addr : list Z) (c : cache)
  : option (Z * cache * P) :=
  match r with
  | RecvError => Some (0, c, p)
  | RecvAgain => Some (-1, c, p)
  | RecvOk bytes =>
      let data := take (Z.to_nat (getSliceSize p)) bytes in
      if zlen data =? 0 then Some (0, c, p)
      else
        '(b, c1) ← appendCache p addr c;
        if (b : bool) then
          '(result, c2, p2) ← base_readFromBuf p data c1;
          Some (if result <? 0 then 0 else zlen data, c2, p2)
        else Some (0, c1, p)
  end.

(** [IcacheBufferUdp::sendCacheByFd]: the front frame is a destination address
    of [addr_len] bytes and the datagram; the kernel takes all of it or none. *)
Definition udp_sendCacheByFd (addr_len : Z) (s : send_result) (c : cache)
  : option (Z * option (list Z * list Z) * cache) :=
  match frame_cache_map c with
  | [] => Some (-1, None, c)
  | (o, n) :: fs =>
      addr ← memread (cache_buf c) o addr_len;
      data ← memread (cache_buf c) (u32 (o + addr_len)) (u32 (n - addr_len));
      match s with
      | SendError => Some (0, None, c)
      | SendAgain => Some (-1, None, c)
      | SendOk _ =>
          Some (zlen data, Some (addr, data), if 0 <? zlen data then set_frames fs c else c)
      end
  end.

(** [IcacheBufferBase::frame_count] *)
Definition frame_count (c : cache) : Z := zlen (frame_cache_map c).

End Cache.

(** ** Abstract view *)

(** The frames and the undecoded bytes a cache stands for. *)
Definition frame_bytes (buf : list Z) (f : Z * Z) : list Z := slice f.1 f.2 buf.

Definition frames_of (c : cache) : list (list Z) :=
  map (frame_bytes (cache_buf c)) (frame_cache_map c).

Definition pending_of (c : cache) : list Z :=
  slice (decode_offset c) (write_offset c - decode_offset c) (cache_buf c).

(** Frames lie one after the other between two offsets. *)
Fixpoint frames_between (lo : Z) (fs : list (Z * Z)) (hi : Z) : Prop :=
  match fs with
  | [] => lo <= hi
  | (o, n) :: fs' => lo <= o /\ 0 < n /\ frames_between (o + n) fs' hi
  end.

Definition cache_wf (c : cache) : Prop :=
  0 <= read_offset c /\
  frames_between (read_offset c) (frame_cache_map c) (decode_offset c) /\
  decode_offset c <= write_offset c <= cache_size c /\ cache_size c <= c_max c /\
  (cache_size c = 0 /\ cache_buf c = [] \/ zlen (cache_buf c) = cache_size c + 1).

(** What decoding a byte string yields: the frames, the bytes left over, and
    whether no invalid data was met. *)
Fixpoint parse_bytes {P} `{Codec P} (fuel : nat) (data : list Z) (p : P)
  : list (list Z) * list Z * bool * P :=
  match fuel with
  | O => ([], data, true, p)
  | S fuel' =>
      let '((_, n), p1) := decodeFrame data p in
      if n =? 0 then ([], data, true, p1)
      else if getMaxFrameSize p <? n
      then ([], drop (Z.to_nat (n - getMaxFrameSize p)) data, false, p1)
      else
        let '(fs, rest, ok, p2) := parse_bytes fuel' (drop (Z.to_nat n) data) p1 in
        (take (Z.to_nat n) data :: fs, rest, ok, p2)
  end.

Definition parse_all {P} `{Codec P} (data : list Z) (p : P)
  : list (list Z) * list Z * bool * P := parse_bytes (S (length data)) data p.

(** The cache fits the codec, and 32-bit offsets cannot wrap. *)
Definition sizes_ok {P} `{Codec P} (p : P) (c : cache) : Prop :=
  c_max c <= getMaxCacheSize p /\ 0 <= getMaxFrameSize p /\
  c_max c + getMaxFrameSize p < 2 ^ 32 - 1.

(** The bytes between the oldest byte needed and the write position. *)
Definition unread (c : cache) : Z := write_offset c - read_offset c.

(** ** Offsets *)

Lemma frames_between_le lo fs hi : frames_between lo fs hi -> lo <= hi.
Proof.
  revert lo. induction fs as [|[o n] fs IH]; simpl; intros lo; [done|].
  intros (? & ? & Hf%IH). lia.
Qed.

Lemma frames_between_In lo fs hi f :
  frames_between lo fs hi -> f ∈ fs -> lo <= f.1 /\ 0 < f.2 /\ f.1 + f.2 <= hi.
Proof.
  revert lo. induction fs as [|[o n] fs IH]; simpl; intros lo; [by intros _ ?%not_elem_of_nil|].
  intros (Ho & Hn & Hf) [->|Hin]%elem_of_cons; simpl.
  - apply frames_between_le in Hf. lia.
  - destruct (IH _ Hf Hin) as (?&?&?). lia.
Qed.

Lemma frames_between_snoc lo fs mid o n :
  frames_between lo fs mid -> mid <= o -> 0 < n -> frames_between lo (fs ++ [(o, n)]) (o + n).
Proof.
  revert lo. induction fs as [|[o' n'] fs IH]; simpl; intros lo; [lia|].
  intros (?&?&Hf) ??. eauto.
Qed.

Lemma frames_between_weaken lo fs hi hi' :
  frames_between lo fs hi -> hi <= hi' -> frames_between lo fs hi'.
Proof.
  revert lo. induction fs as [|[o n] fs IH]; simpl; intros lo; [lia|].
  intros (?&?&Hf) ?. eauto.
Qed.

Lemma frames_between_shift k lo fs hi :
  frames_between lo fs hi ->
  frames_between (lo - k) (map (fun f => (f.1 - k, f.2)) fs) (hi - k).
Proof.
  revert lo. induction fs as [|[o n] fs IH]; simpl; intros lo; [lia|].
  intros (?&?&Hf). split; [lia|]. split; [done|].
  replace (o - k + n) with (o + n - k) by lia. by apply IH.
Qed.

Lemma map_ext_elem {A B} (f g : A -> B) l : (forall x, x ∈ l -> f x = g x) -> map f l = map g l.
Proof. intros Hfg. apply map_ext_in. intros a Ha. apply Hfg. by apply list_elem_of_In. Qed.

Lemma cache_wf_bounds c :
  cache_wf c ->
  0 <= read_offset c <= decode_offset c /\ decode_offset c <= write_offset c <= cache_size c /\
  cache_size c <= c_max c /\ write_offset c <= zlen (cache_buf c) /\
  (forall f, f ∈ frame_cache_map c ->
     read_offset c <= f.1 /\ 0 < f.2 /\ f.1 + f.2 <= decode_offset c).
Proof.
  intros (Hr & Hf & Hd & Hm & Hb). pose proof (frames_between_le _ _ _ Hf).
  repeat split; try lia.
  - destruct Hb as [[? Hb]|Hb]; rewrite Hb; [rewrite zlen_nil|]; lia.
  - by eapply frames_between_In in Hf as (?&?&?).
  - by eapply frames_between_In in Hf as (?&?&?).
  - by eapply frames_between_In in Hf as (?&?&?).
Qed.

Lemma new_cache_wf {P} `{Codec P} (p : P) mcs : 0 <= mcs -> cache_wf (new_cache p mcs).
Proof.
  intros. repeat split; unfold read_offset; simpl; try lia; [case_match; lia|by left].
Qed.

(** ** Growing and filling the buffer *)

Section Spec.
Context {P : Type} `{Codec P}.

Lemma resize_spec new_size c :
  cache_wf c -> unread c <= new_size <= c_max c -> c_max c < 2 ^ 32 - 1 ->
  exists c', resize new_size c = Some c' /\ cache_wf c' /\
    frames_of c' = frames_of c /\ pending_of c' = pending_of c /\
    cache_size c' = new_size /\ write_offset c' = unread c /\ read_offset c' = 0 /\
    zlen (cache_buf c') = new_size + 1 /\ c_max c' = c_max c.
Proof.
  intros Hwf Hn Hmax. pose proof (cache_wf_bounds c Hwf) as (Hr & Hd & Hm & Hb & Hfs).
  unfold unread in *. unfold resize.
  rewrite !wrap_small by lia. rewrite memread_Some by lia. simpl.
  set (data := slice (read_offset c) (write_offset c - read_offset c) (cache_buf c)).
  assert (Hdl : zlen data = write_offset c - read_offset c) by (apply zlen_slice; lia).
  rewrite memcpy_at_Some by (rewrite ?zlen_replicate; lia). simpl.
  eexists. split; [done|].
  assert (Hmap : map (fun f => (u32 (f.1 - read_offset c), f.2)) (frame_cache_map c)
                 = map (fun f => (f.1 - read_offset c, f.2)) (frame_cache_map c)).
  { apply map_ext_elem. intros f Hf. specialize (Hfs f Hf). by rewrite wrap_small by lia. }
  rewrite Hmap. set (buf := data ++ _).
  assert (Hbuf : zlen buf = new_size + 1).
  { unfold buf. rewrite zlen_app. unfold zlen at 2.
    rewrite length_drop, length_replicate. lia. }
  assert (Hsl : forall o n, read_offset c <= o -> 0 <= n -> o + n <= write_offset c ->
            slice (o - read_offset c) n buf = slice o n (cache_buf c)).
  { intros o n ???. unfold buf. rewrite slice_app_l by lia.
    unfold data. rewrite slice_slice by lia. f_equal. lia. }
  assert (Hro : read_offset (mkCache (c_max c) buf new_size (write_offset c - read_offset c)
             (decode_offset c - read_offset c)
             (map (fun f => (f.1 - read_offset c, f.2)) (frame_cache_map c))) = 0).
  { unfold read_offset at 1. simpl. unfold read_offset. destruct (frame_cache_map c) as [|[o n] l];
      simpl; lia. }
  split; [|split; [|split; [|split; [|split; [|split; [|split]]]]]]; simpl; try done.
  - split; [lia|]. rewrite Hro. simpl.
    split; [|split; [lia|split; [lia|by right]]].
    replace 0 with (read_offset c - read_offset c) by lia.
    apply frames_between_shift. by destruct Hwf as (_ & ? & _).
  - unfold frames_of. simpl. rewrite map_map. apply map_ext_elem.
    intros f Hf. specialize (Hfs f Hf). unfold frame_bytes. simpl. apply Hsl; lia.
  - unfold pending_of. simpl.
    replace (write_offset c - read_offset c - (decode_offset c - read_offset c))
      with (write_offset c - decode_offset c) by lia.
    apply Hsl; lia.
Qed.

(** The copy that ends [appendCache]. *)
Lemma copy_spec data c :
  cache_wf c -> write_offset c + zlen data <= cache_size c -> 0 < zlen data ->
  c_max c < 2 ^ 32 - 1 ->
  exists buf, memcpy_at (cache_buf c) (write_offset c) data = Some buf /\
    let c' := mkCache (c_max c) buf (cache_size c) (u32 (write_offset c + zlen data))
                (decode_offset c) (frame_cache_map c) in
    cache_wf c' /\ frames_of c' = frames_of c /\ pending_of c' = pending_of c ++ data /\
    write_offset c' = write_offset c + zlen data /\ read_offset c' = read_offset c.
Proof.
  intros Hwf Hfit Hpos Hmax. pose proof (cache_wf_bounds c Hwf) as (Hr & Hd & Hm & Hb & Hfs).
  pose proof Hwf as (_ & Hfb & _ & _ & Hbuf).
  assert (Hbl : zlen (cache_buf c) = cache_size c + 1) by (destruct Hbuf as [[? ?]|?]; lia).
  destruct (memcpy_at (cache_buf c) (write_offset c) data) as [buf|] eqn:Hcp.
  2: { rewrite memcpy_at_Some in Hcp by lia. done. }
  exists buf. split; [done|]. pose proof (memcpy_at_len _ _ _ _ Hcp) as Hlen.
  pose proof (memcpy_at_slice _ _ _ _ Hcp) as Hsl.
  rewrite wrap_small by lia. simpl. split; [|split; [|split; [|done]]].
  - split; [exact (proj1 Hwf)|]. split; [exact Hfb|]. simpl.
    split; [lia|]. split; [lia|]. right. lia.
  - apply map_ext_elem. intros f Hf. specialize (Hfs f Hf). unfold frame_bytes. simpl.
    eapply memcpy_at_before; [done|lia..].
  - unfold pending_of. simpl.
    replace (write_offset c + zlen data - decode_offset c)
      with ((write_offset c - decode_offset c) + zlen data) by lia.
    rewrite slice_split by lia. f_equal.
    + eapply memcpy_at_before; [done|lia..].
    + by replace (decode_offset c + (write_offset c - decode_offset c))
        with (write_offset c) by lia.
Qed.

(** [appendCache] on data no longer than a frame: no memory error; the data is
    taken exactly when it fits beside the unread bytes, and then it is appended
    to the undecoded bytes with every frame intact. *)
Lemma appendCache_spec (p : P) data c :
  cache_wf c -> sizes_ok p c -> 0 < zlen data <= getMaxFrameSize p ->
  exists c', appendCache p data c = Some (bool_decide (unread c + zlen data <= c_max c), c') /\
    cache_wf c' /\ sizes_ok p c' /\ frames_of c' = frames_of c /\
    pending_of c' = pending_of c ++ (if bool_decide (unread c + zlen data <= c_max c)
                                     then data else []) /\
    (unread c + zlen data <= c_max c ->
     write_offset c' - zlen data - decode_offset c' = write_offset c - decode_offset c /\
     0 <= write_offset c' - zlen data /\ unread c' = unread c + zlen data).
Proof.
  intros Hwf Hsz Hlen. pose proof (cache_wf_bounds c Hwf) as (Hr & Hd & Hm & Hb & Hfs).
  pose proof Hsz as (Hs1 & Hs2 & Hs3). unfold appendCache.
  rewrite (wrap_small 32 (zlen data)) by lia. rewrite (proj2 (Z.eqb_neq _ _)) by lia.
  rewrite (wrap_small 32 (zlen data + write_offset c)) by lia.
  rewrite (wrap_small 32 (write_offset c - read_offset c)) by lia.
  fold (unread c). assert (Hu : 0 <= unread c <= write_offset c) by (unfold unread; lia).
  rewrite (wrap_small 32 (unread c + zlen data)) by lia.
  destruct (cache_size c <? zlen data + write_offset c) eqn:Hfit.
  - destruct (c_max c <? unread c + zlen data) eqn:Hover.
    + exists c. rewrite bool_decide_false by lia. rewrite app_nil_r.
      repeat split; try apply Hwf; try done; lia.
    + rewrite bool_decide_true by lia.
      set (ns := if (_ <? _) then u32 _ else u32 _).
      assert (Hns : unread c + zlen data <= ns).
      { unfold ns. rewrite (wrap_small 32 (unread c + getMaxFrameSize p)) by lia.
        rewrite (wrap_small 32 (cache_size c + getMaxFrameSize p)) by lia. case_match; lia. }
      set (ns' := if c_max c <? ns then c_max c else ns).
      assert (Hns' : unread c + zlen data <= ns' <= c_max c) by (unfold ns'; case_match; lia).
      destruct (resize_spec ns' c Hwf) as
        (c1 & -> & Hwf1 & Hf1 & Hp1 & Hcs1 & Hw1 & Hr1 & Hb1 & Hm1); [lia|lia|]. simpl.
      destruct (copy_spec data c1 Hwf1) as (buf & -> & Hwf2 & Hf2 & Hp2 & Hw2 & Hr2);
        [lia|lia|lia|]. simpl in *. eexists. split; [done|].
      split; [done|]. split; [unfold sizes_ok; simpl; lia|].
      split; [congruence|]. split; [congruence|].
      intros _. rewrite Hw2.
      assert (Hpl : zlen (pending_of c1) = zlen (pending_of c)) by congruence.
      pose proof (cache_wf_bounds c1 Hwf1) as (? & ? & ? & ? & _).
      unfold pending_of in Hpl. rewrite !zlen_slice in Hpl by lia.
      unfold unread, read_offset in *. simpl in *. lia.
  - rewrite bool_decide_true by lia.
    destruct (copy_spec data c Hwf) as (buf & -> & Hwf2 & Hf2 & Hp2 & Hw2 & Hr2);
      [lia|lia|lia|]. simpl in *. eexists. split; [done|].
    split; [done|]. split; [done|]. split; [done|]. split; [done|]. intros _.
    unfold unread, read_offset in *. simpl in *. lia.
Qed.

(** Recognising a frame that lies in the undecoded bytes. *)
Lemma updateFrameCache_spec o n c :
  cache_wf c -> o = decode_offset c -> 0 < n <= write_offset c - decode_offset c ->
  c_max c < 2 ^ 32 - 1 ->
  let c' := updateFrameCache o n c in
  cache_wf c' /\ frames_of c' = frames_of c ++ [take (Z.to_nat n) (pending_of c)] /\
  pending_of c' = drop (Z.to_nat n) (pending_of c) /\ write_offset c' = write_offset c /\
  decode_offset c' = o + n /\ c_max c' = c_max c /\ cache_buf c' = cache_buf c.
Proof.
  intros Hwf -> Hn Hmax. pose proof (cache_wf_bounds c Hwf) as (Hr & Hd & Hm & Hb & Hfs).
  pose proof Hwf as (_ & Hfb & _ & _ & Hbuf).
  unfold updateFrameCache. rewrite wrap_small by lia. simpl.
  assert (Hro : forall l, read_offset (mkCache (c_max c) (cache_buf c) (cache_size c)
      (write_offset c) l (frame_cache_map c ++ [(decode_offset c, n)])) = read_offset c).
  { intros l. unfold read_offset. simpl. by destruct (frame_cache_map c) as [|[? ?] ?]. }
  assert (Hpl : zlen (pending_of c) = write_offset c - decode_offset c)
    by (unfold pending_of; rewrite zlen_slice; lia).
  split; [|split; [|split; [|done]]].
  - split; [rewrite Hro; lia|]. rewrite Hro. simpl. split.
    + by apply frames_between_snoc with (mid := decode_offset c); [|lia|lia].
    + split; [lia|]. split; [lia|done].
  - unfold frames_of. simpl. rewrite map_app. f_equal. simpl. f_equal.
    unfold frame_bytes, pending_of, slice. simpl. rewrite take_take.
    by rewrite Nat.min_l by lia.
  - unfold pending_of, slice. simpl. rewrite skipn_firstn_comm, drop_drop.
    f_equal; [|f_equal]; lia.
Qed.

(** The bound on the cache never changes. *)
Lemma appendCache_max (p : P) data c b c' : appendCache p data c = Some (b, c') -> c_max c' = c_max c.
Proof.
  unfold appendCache, resize. intros Ha.
  repeat (case_match; simplify_eq/=; try done);
    repeat match goal with
    | E : mbind _ ?m = Some _ |- _ => destruct m eqn:?; simplify_eq/=
    end; done.
Qed.

Lemma stream_parse_loop_max fuel (p : P) c b c' p' :
  stream_parse_loop fuel p c = Some (b, c', p') -> c_max c' = c_max c.
Proof.
  revert p c. induction fuel as [|fuel IH]; intros p c; [done|]. simpl. unfold parseCache.
  destruct (memread _ _ _) as [data|]; simpl; [|done].
  destruct (decodeFrame data p) as [[s n] p1].
  intros Hl. repeat (case_match; simplify_eq/=; try done); by apply IH in Hl.
Qed.

Lemma stream_readFromBuf_max (p : P) data c r c' p' :
  stream_readFromBuf p data c = Some (r, c', p') -> c_max c' = c_max c.
Proof.
  unfold stream_readFromBuf. intros Hr.
  destruct (appendCache p data c) as [[b c1]|] eqn:Ha; cbn [mbind option_bind] in Hr; [|done].
  apply appendCache_max in Ha. destruct b; simplify_eq; [|done].
  revert Hr. generalize (parse_fuel c1). intros fuel Hr.
  destruct (stream_parse_loop fuel p c1) as [[[ok c2] p2]|] eqn:Hl; simplify_eq/=.
  apply stream_parse_loop_max in Hl. congruence.
Qed.

(** ** Decoding *)

Context (codec_ok : P -> Prop) `{!CodecLaws P codec_ok}.

Lemma sizes_ok_decode p data c :
  sizes_ok p c -> sizes_ok (decodeFrame data p).2 c.
Proof.
  unfold sizes_ok, getMaxCacheSize, getMaxFrameSize. by rewrite decode_keeps_config.
Qed.

Lemma pending_len c : cache_wf c -> zlen (pending_of c) = write_offset c - decode_offset c.
Proof.
  intros Hwf. pose proof (cache_wf_bounds c Hwf) as (?&?&?&?&_).
  unfold pending_of. apply zlen_slice; lia.
Qed.

(** [decode_offset] moves past invalid data. *)
Lemma skip_spec k c :
  cache_wf c -> 0 <= k <= zlen (pending_of c) -> c_max c < 2 ^ 32 - 1 ->
  let c' := mkCache (c_max c) (cache_buf c) (cache_size c) (write_offset c)
              (u32 (decode_offset c + k)) (frame_cache_map c) in
  cache_wf c' /\ frames_of c' = frames_of c /\
  pending_of c' = drop (Z.to_nat k) (pending_of c).
Proof.
  intros Hwf Hk Hmax. rewrite pending_len in Hk by done.
  pose proof (cache_wf_bounds c Hwf) as (Hr & Hd & Hm & Hb & Hfs).
  pose proof Hwf as (_ & Hfb & _ & _ & Hbuf). rewrite wrap_small by lia. simpl.
  split; [|split; [done|]].
  - assert (Hro : forall d, frames_between (read_offset c) (frame_cache_map c) d ->
        decode_offset c <= d ->
        0 <= read_offset (mkCache (c_max c) (cache_buf c) (cache_size c) (write_offset c) d
                            (frame_cache_map c)) /\
        frames_between (read_offset (mkCache (c_max c) (cache_buf c) (cache_size c)
          (write_offset c) d (frame_cache_map c))) (frame_cache_map c) d).
    { intros d Hf Hle. unfold read_offset in *. simpl.
      destruct (frame_cache_map c) as [|[? ?] ?]; simpl in *; [lia|]. intuition lia. }
    destruct (Hro (decode_offset c + k)) as [H1 H2];
      [eapply frames_between_weaken; [done|lia]|lia|].
    split; [done|]. split; [done|]. simpl. split; [lia|]. split; [lia|done].
  - unfold pending_of, slice. simpl. rewrite skipn_firstn_comm, drop_drop.
    f_equal; [|f_equal]; lia.
Qed.

(** One step of decoding, in terms of the undecoded bytes. *)
Lemma parseCache_spec p c :
  cache_wf c -> sizes_ok p c -> codec_ok p ->
  let n := (decodeFrame (pending_of c) p).1.2 in
  let p' := (decodeFrame (pending_of c) p).2 in
  if getMaxFrameSize p <? n
  then exists o c', parseCache p c = Some ((o, n), c', p') /\ cache_wf c' /\
         frames_of c' = frames_of c /\ c_max c' = c_max c /\
         pending_of c' = drop (Z.to_nat (n - getMaxFrameSize p)) (pending_of c)
  else parseCache p c = Some ((decode_offset c, n), c, p') /\
       0 <= n <= zlen (pending_of c).
Proof.
  intros Hwf (Hs1 & Hs2 & Hs3) Hok n p'.
  pose proof (cache_wf_bounds c Hwf) as (Hr & Hd & Hm & Hb & Hfs).
  pose proof (pending_len c Hwf) as Hpl.
  unfold parseCache. rewrite (wrap_small 32 (write_offset c - decode_offset c)) by lia.
  rewrite memread_Some by lia. fold (pending_of c). simpl.
  assert (Hcap : zlen (pending_of c) <= getMaxCacheSize p) by lia.
  pose proof (decode_start (pending_of c) p) as Hst.
  pose proof (decode_len (codec_ok := codec_ok) (pending_of c) p Hok Hcap) as Hn0.
  pose proof (decode_frame_fits (codec_ok := codec_ok) (pending_of c) p Hok Hcap) as Hn1.
  pose proof (decode_invalid_fits (codec_ok := codec_ok) (pending_of c) p Hok Hcap) as Hn2.
  subst n p'. destruct (decodeFrame (pending_of c) p) as [[s n] p1]. simpl in *. subst s.
  destruct (getMaxFrameSize p <? n) eqn:Hinv.
  - apply Z.ltb_lt in Hinv. specialize (Hn2 Hinv).
    destruct (skip_spec (n - getMaxFrameSize p) c) as (H1 & H2 & H3); [done|lia|lia|].
    eexists _, _. split; [reflexivity|]. done.
  - apply Z.ltb_ge in Hinv. specialize (Hn1 Hinv).
    rewrite wrap_small by lia. split; [do 4 f_equal; lia|lia].
Qed.

Lemma parse_bytes_nil_fuel fuel fuel' data p :
  codec_ok p -> zlen data <= getMaxCacheSize p ->
  (length data < fuel)%nat -> (length data < fuel')%nat ->
  parse_bytes fuel data p = parse_bytes fuel' data p.
Proof.
  revert fuel' data p. induction fuel as [|fuel IH]; intros fuel' data p Hok Hmax H1 H2; [lia|].
  destruct fuel' as [|fuel']; [lia|]. cbn [parse_bytes].
  pose proof (decode_keeps_ok data p Hok) as Hok'.
  pose proof (decode_keeps_config data p) as Hcfg.
  pose proof (decode_len (codec_ok := codec_ok) data p Hok Hmax) as Hn0.
  pose proof (decode_frame_fits (codec_ok := codec_ok) data p Hok Hmax) as Hn1.
  destruct (decodeFrame data p) as [[s n] p1]. simpl in *.
  destruct (n =? 0) eqn:Hz; [done|]. destruct (getMaxFrameSize p <? n) eqn:Hi; [done|].
  rewrite (IH fuel'); [done|done| | |]; unfold getMaxCacheSize, zlen in *;
    rewrite length_drop; try rewrite Hcfg; lia.
Qed.

Lemma parse_all_unfold data p :
  codec_ok p -> zlen data <= getMaxCacheSize p ->
  parse_all data p =
    (let '((_, n), p1) := decodeFrame data p in
     if n =? 0 then ([], data, true, p1)
     else if getMaxFrameSize p <? n
     then ([], drop (Z.to_nat (n - getMaxFrameSize p)) data, false, p1)
     else
       let '(fs, rest, ok, p2) := parse_all (drop (Z.to_nat n) data) p1 in
       (take (Z.to_nat n) data :: fs, rest, ok, p2)).
Proof.
  intros Hok Hmax. unfold parse_all at 1. cbn [parse_bytes].
  pose proof (decode_keeps_ok data p Hok) as Hok'.
  pose proof (decode_keeps_config data p) as Hcfg.
  pose proof (decode_len (codec_ok := codec_ok) data p Hok Hmax) as Hn0.
  pose proof (decode_frame_fits (codec_ok := codec_ok) data p Hok Hmax) as Hn1.
  destruct (decodeFrame data p) as [[s n] p1]. simpl in *.
  destruct (n =? 0) eqn:Hz; [done|]. destruct (getMaxFrameSize p <? n) eqn:Hi; [done|].
  unfold parse_all. rewrite (parse_bytes_nil_fuel _ (S (length (drop (Z.to_nat n) data))));
    [done|done| | |]; unfold getMaxCacheSize, zlen in *; rewrite length_drop;
    try rewrite Hcfg; lia.
Qed.

(** The loop recognises exactly the frames [parse_all] finds. *)
Lemma stream_parse_loop_spec fuel p c :
  cache_wf c -> sizes_ok p c -> codec_ok p -> (length (pending_of c) < fuel)%nat ->
  exists ok c' p', stream_parse_loop fuel p c = Some (ok, c', p') /\
    cache_wf c' /\ sizes_ok p' c' /\ codec_ok p' /\
    exists fs, parse_all (pending_of c) p = (fs, pending_of c', ok, p') /\
      frames_of c' = frames_of c ++ fs.
Proof.
  revert p c. induction fuel as [|fuel IH]; intros p c Hwf Hsz Hok Hfuel; [lia|].
  pose proof (pending_len c Hwf) as Hpl. pose proof Hsz as (Hs1 & Hs2 & Hs3).
  pose proof (cache_wf_bounds c Hwf) as (Hr & Hd & Hm & Hb & Hfs).
  pose proof (parseCache_spec p c Hwf Hsz Hok) as Hpc. simpl in Hpc.
  pose proof (sizes_ok_decode p (pending_of c) c Hsz) as Hsz'.
  pose proof (decode_keeps_ok (pending_of c) p Hok) as Hok'.
  rewrite parse_all_unfold by (done || lia). cbn [stream_parse_loop].
  destruct (decodeFrame (pending_of c) p) as [[s n] p1] eqn:Hdec. simpl in Hpc, Hsz', Hok'.
  destruct (getMaxFrameSize p <? n) eqn:Hinv.
  - destruct Hpc as (o & c' & -> & Hwf' & Hfr & Hcm & Hpd). simpl. rewrite Hinv.
    destruct (n =? 0) eqn:Hn; [lia|]. exists false, c', p1. split; [done|]. split; [done|].
    split; [unfold sizes_ok in *; by rewrite Hcm|]. split; [done|].
    exists []. by rewrite app_nil_r, Hpd, Hfr.
  - destruct Hpc as (-> & Hn). simpl. rewrite Hinv. destruct (n =? 0) eqn:Hz.
    + exists true, c, p1. do 4 (split; [done|]). exists []. by rewrite app_nil_r.
    + destruct (updateFrameCache_spec (decode_offset c) n c) as (U1&U2&U3&U4&U5&U6&U7);
        [done|done|lia|lia|].
      destruct (IH p1 (updateFrameCache (decode_offset c) n c))
        as (ok & c' & p' & Hrun & W & S' & O' & fs & Hall & Hfr).
      * done.
      * unfold sizes_ok in *. by rewrite U6.
      * done.
      * rewrite U3, length_drop. unfold zlen in *. lia.
      * exists ok, c', p'. split; [done|]. split; [done|]. split; [done|]. split; [done|].
        exists (take (Z.to_nat n) (pending_of c) :: fs). rewrite U3 in Hall. rewrite Hall.
        split; [done|]. by rewrite Hfr, U2, <- app_assoc.
Qed.

Lemma base_stream_parse_loop fuel p c :
  base_parse_loop fuel p c = '(_, c', p') ← stream_parse_loop fuel p c; Some (c', p').
Proof.
  revert p c. induction fuel as [|fuel IH]; intros p c; [done|]. simpl.
  destruct (parseCache p c) as [[[[s n] c1] p1]|]; simpl; [|done].
  destruct (n =? 0); simpl; [done|]. destruct (getMaxFrameSize p <? n); [done|apply IH].
Qed.

(** Reading [data]: refused with the cache's contents kept when it does not
    fit, otherwise decoded together with the bytes left from earlier reads. *)
Lemma stream_readFromBuf_spec p data c :
  cache_wf c -> sizes_ok p c -> codec_ok p -> 0 < zlen data <= getMaxFrameSize p ->
  exists r c' p', stream_readFromBuf p data c = Some (r, c', p') /\
    cache_wf c' /\ sizes_ok p' c' /\ codec_ok p' /\
    if bool_decide (unread c + zlen data <= c_max c)
    then exists fs ok, parse_all (pending_of c ++ data) p = (fs, pending_of c', ok, p') /\
         frames_of c' = frames_of c ++ fs /\ r = (if ok then zlen data else -1)
    else r = -1 /\ p' = p /\ frames_of c' = frames_of c /\ pending_of c' = pending_of c.
Proof.
  intros Hwf Hsz Hok Hlen.
  destruct (appendCache_spec p data c Hwf Hsz Hlen) as (c1 & Hap & Hwf1 & Hsz1 & Hf1 & Hp1 & _).
  unfold stream_readFromBuf. rewrite Hap. cbn [mbind option_bind].
  case_bool_decide as Hfit.
  - destruct (stream_parse_loop_spec (parse_fuel c1) p c1 Hwf1 Hsz1 Hok)
      as (ok & c' & p' & -> & W & S' & O' & fs & Hall & Hfr).
    { pose proof (pending_len c1 Hwf1). pose proof (cache_wf_bounds c1 Hwf1) as (?&?&_).
      unfold parse_fuel, zlen in *. lia. }
    simpl. eexists _, c', p'. split; [done|]. do 3 (split; [done|]).
    exists fs, ok. rewrite <- Hp1, <- Hf1. done.
  - eexists _, c1, p. split; [done|]. do 3 (split; [done|]).
    rewrite app_nil_r in Hp1. done.
Qed.

(** ** Taking frames out *)

(** Frames at the front dropped or shortened: the rest of the cache is as it
    was. *)
Lemma set_frames_wf fs c :
  cache_wf c -> frames_between (read_offset c) fs (decode_offset c) ->
  cache_wf (set_frames fs c) /\ pending_of (set_frames fs c) = pending_of c.
Proof.
  intros (Hr & _ & Hd & Hm & Hb) Hfs. split; [|done].
  pose proof (frames_between_le _ _ _ Hfs) as Hle.
  split; [|split; [|done]]; unfold read_offset in *; simpl;
    destruct fs as [|[o n] fs]; simpl in *; intuition lia.
Qed.

Lemma popFrame_spec c :
  cache_wf c ->
  match frames_of c with
  | [] => popFrame c = Some ([], c)
  | f :: fs => exists c', popFrame c = Some (f, c') /\ f <> [] /\ cache_wf c' /\
      frames_of c' = fs /\ pending_of c' = pending_of c /\ c_max c' = c_max c
  end.
Proof.
  intros Hwf. pose proof (cache_wf_bounds c Hwf) as (Hr & Hd & Hm & Hb & Hin).
  pose proof Hwf as (_ & Hfb & _). unfold popFrame, frames_of, read_offset in *.
  destruct (frame_cache_map c) as [|[o n] fs] eqn:Hc; simpl; [done|].
  destruct (Hin (o, n)) as (H1 & H2 & H3); [left|]. simpl in *.
  rewrite memread_Some by lia. simpl. eexists. split; [done|].
  assert (Hl : zlen (slice o n (cache_buf c)) = n) by (apply zlen_slice; lia).
  split; [intros He; unfold frame_bytes in He; simpl in He; rewrite He, zlen_nil in Hl; lia|].
  destruct (set_frames_wf fs c Hwf) as [W Hp].
  - unfold read_offset. rewrite Hc. destruct fs as [|[o' n'] fs]; simpl in *; intuition lia.
  - done.
Qed.

(** ** Queueing frames for sending *)

Lemma appendFrame_spec (p : P) data c :
  cache_wf c -> sizes_ok p c -> pending_of c = [] -> 0 < zlen data <= getMaxFrameSize p ->
  exists c', appendFrame p data c
    = Some (if bool_decide (unread c + zlen data <= c_max c) then zlen data else -1, c') /\
    cache_wf c' /\ sizes_ok p c' /\ pending_of c' = [] /\
    frames_of c' = frames_of c ++
      (if bool_decide (unread c + zlen data <= c_max c) then [data] else []).
Proof.
  intros Hwf Hsz Hpend Hlen.
  destruct (appendCache_spec p data c Hwf Hsz Hlen) as (c1 & Hap & W1 & S1 & F1 & P1 & O1).
  unfold appendFrame. rewrite Hap. cbn [mbind option_bind]. rewrite Hpend in P1.
  case_bool_decide as Hfit.
  - destruct (O1 Hfit) as [Ho1 Ho2]. simpl in P1.
    pose proof (pending_len c1 W1) as Hl1. pose proof (pending_len c Hwf) as Hl.
    rewrite Hpend in Hl. rewrite zlen_nil in Hl. rewrite P1 in Hl1.
    pose proof (cache_wf_bounds c1 W1) as (?&?&?&?&_). destruct S1 as (S1 & S2 & S3).
    rewrite wrap_small by lia.
    destruct (updateFrameCache_spec (write_offset c1 - zlen data) (zlen data) c1)
      as (U1 & U2 & U3 & U4 & U5 & U6 & U7); [done|lia|lia|lia|].
    eexists. split; [reflexivity|]. split; [done|].
    split; [unfold sizes_ok; by rewrite U6|].
    rewrite U3, U2, P1, F1. unfold zlen. rewrite Nat2Z.id.
    by rewrite drop_all, take_ge by lia.
  - exists c1. rewrite app_nil_r. by split; [done|].
Qed.

(** ** Sending *)

Lemma stream_send_loop_spec net buf o n sent :
  0 <= o -> 0 <= n -> o + n <= zlen buf -> o + n < 2 ^ 32 ->
  exists sent' o' n' closed net',
    stream_send_loop net buf o n sent = Some (sent ++ sent', (o', n'), closed, net') /\
    o <= o' /\ 0 <= n' /\ o' + n' = o + n /\
    slice o n buf = sent' ++ slice o' n' buf /\
    (closed = true -> 0 < n') /\ (length net' <= length net)%nat /\
    (n' < n -> (length net' < length net)%nat /\ 0 < zlen sent').
Proof.
  revert o n sent. induction net as [|s net IH]; intros o n sent Ho Hn Hb Hw; simpl.
  - exists [], o, n, false, []. rewrite app_nil_r. destruct (n <=? 0); intuition (done || lia).
  - destruct (n <=? 0) eqn:Hn0.
    { exists [], o, n, false, (s :: net). rewrite app_nil_r. intuition (done || lia). }
    destruct s as [room| |].
    2, 3: eexists [], o, n, _, net; rewrite app_nil_r; split; [reflexivity|]; intuition (done || lia).
    set (k := Z.min (Z.of_N room) n). destruct (k =? 0) eqn:Hk.
    { exists [], o, n, true, net. rewrite app_nil_r. intuition lia. }
    rewrite memread_Some by lia. simpl. rewrite !wrap_small by lia.
    destruct (IH (o + k) (n - k) (sent ++ slice o k buf))
      as (sent' & o' & n' & cl & net' & -> & ? & ? & ? & Hs & ? & Hsuf & Hc); [lia..|].
    exists (slice o k buf ++ sent'), o', n', cl, net'. rewrite app_assoc.
    split; [done|]. split; [lia|]. split; [lia|]. split; [lia|].
    split; [|split; [done|split; [lia|intros _]]].
    + replace n with (k + (n - k)) at 1 by lia. rewrite slice_split by lia.
      by rewrite Hs, <- app_assoc.
    + rewrite zlen_app, zlen_slice by lia. pose proof (zlen_nonneg sent'). lia.
Qed.

(** Sending takes a prefix of what is queued, at most up to the end of the
    front frame, and leaves the rest queued in order. *)
Lemma stream_sendCacheByFd_spec net c :
  cache_wf c -> c_max c < 2 ^ 32 - 1 ->
  exists r sent c' net', stream_sendCacheByFd net c = Some (r, sent, c', net') /\
    cache_wf c' /\ pending_of c' = pending_of c /\ c_max c' = c_max c /\
    concat (frames_of c) = sent ++ concat (frames_of c') /\
    (length net' <= length net)%nat /\
    (0 < r -> (length net' < length net)%nat) /\
    (r = 0 /\ frames_of c' <> [] \/ r = zlen sent /\ sent <> [] \/
     r = -1 /\ sent = [] /\ frames_of c' = frames_of c).
Proof.
  intros Hwf Hmax. pose proof (cache_wf_bounds c Hwf) as (Hr & Hd & Hm & Hb & Hin).
  pose proof Hwf as (_ & Hfb & _). unfold stream_sendCacheByFd, frames_of, read_offset in *.
  destruct (frame_cache_map c) as [|[o n] fs] eqn:Hc.
  { exists (-1), [], c, net. rewrite Hc. simpl. intuition (done || lia). }
  destruct (Hin (o, n)) as (H1 & H2 & H3); [left|]. simpl in H1, H2, H3.
  destruct (stream_send_loop_spec net (cache_buf c) o n [])
    as (sent & o' & n' & cl & net' & -> & Ho & Hn & Hon & Hsl & Hcl & Hlen & Hz);
    [lia..|]. cbn [mbind option_bind app].
  assert (Hrest : frames_between (o' + n') fs (decode_offset c))
    by (simpl in Hfb; rewrite Hon; intuition).
  assert (Hw1 : 0 < n' -> cache_wf (set_frames ((o', n') :: fs) c)).
  { intros. apply set_frames_wf; [done|]. unfold read_offset. rewrite Hc. simpl. intuition lia. }
  assert (Hw0 : n' = 0 -> cache_wf (set_frames fs c)).
  { intros. apply set_frames_wf; [done|]. unfold read_offset. rewrite Hc.
    destruct fs as [|[o2 n2] fs]; simpl in *; intuition lia. }
  assert (Hcat : forall l, slice o n (cache_buf c) ++ l = sent ++ slice o' n' (cache_buf c) ++ l)
    by (intros; by rewrite Hsl, app_assoc).
  assert (Hsn : sent = [] -> o' = o /\ n' = n).
  { intros ->. destruct (decide (n' < n)) as [Hlt|]; [|lia].
    destruct (Hz Hlt) as [_ Hp]. unfold zlen in Hp; simpl in Hp. lia. }
  assert (Hlt : sent <> [] -> (length net' < length net)%nat).
  { intros Hne. destruct (decide (n' < n)) as [Hlt|]; [by apply Hz|]. destruct Hne.
    assert (n' = n) by lia. subst. assert (o' = o) by lia. subst.
    apply (f_equal (@length Z)) in Hsl. rewrite length_app in Hsl.
    destruct sent; [done|simpl in Hsl; lia]. }
  assert (Hres : (if zlen sent =? 0 then -1 else zlen sent) = zlen sent /\ sent <> [] \/
    (if zlen sent =? 0 then -1 else zlen sent) = -1 /\ sent = []).
  { destruct (zlen sent =? 0) eqn:Hs0.
    - right. split; [done|]. apply zlen_0_nil. lia.
    - left. split; [done|]. by intros ->. }
  destruct cl.
  - eexists 0, sent, _, net'. split; [done|]. simpl. unfold frame_bytes at 1 3. simpl.
    rewrite Hcat. intuition (done || lia).
  - eexists _, sent, _, net'. split; [reflexivity|].
    destruct (n' =? 0) eqn:Hn'.
    + assert (n' = 0) by lia. subst n'. split; [auto|]. simpl. unfold frame_bytes at 1. simpl.
      rewrite Hcat, slice_0. simpl. do 4 (split; [done|]).
      destruct Hres as [[-> ?]|[-> ?]]; [intuition|]. destruct (Hsn ltac:(done)). lia.
    + split; [apply Hw1; lia|]. simpl. unfold frame_bytes at 1 3 4 5. simpl.
      rewrite Hcat. do 4 (split; [done|]).
      destruct Hres as [[-> ?]|[-> Hs]]; [intuition|]. destruct (Hsn Hs) as [-> ->].
      split; [lia|]. right; right. done.
Qed.

(** ** Wire frames *)

Lemma wire_parse p fs tail :
  codec_ok p -> Forall (wire_frame codec_ok (codec_config p)) fs ->
  zlen (concat fs ++ tail) <= getMaxCacheSize p ->
  (forall p', codec_ok p' -> codec_config p' = codec_config p ->
     (decodeFrame tail p').1 = (0, 0)) ->
  exists p', parse_all (concat fs ++ tail) p = (fs, tail, true, p') /\
    codec_ok p' /\ codec_config p' = codec_config p.
Proof.
  intros Hok Hfs. revert p Hok Hfs. induction fs as [|f fs IH]; intros p Hok Hfs Hmax Ht; simpl in *.
  - rewrite parse_all_unfold by done. specialize (Ht p Hok eq_refl).
    pose proof (decode_keeps_ok tail p Hok). pose proof (decode_keeps_config tail p).
    destruct (decodeFrame tail p) as [[s n] p1]. simplify_eq/=. eauto.
  - apply Forall_cons in Hfs as [(Hl & _ & Hf) Hfs].
    rewrite <- app_assoc in *. rewrite parse_all_unfold by done.
    pose proof (decode_keeps_ok (f ++ concat fs ++ tail) p Hok) as Hok1.
    pose proof (decode_keeps_config (f ++ concat fs ++ tail) p) as Hc1.
    specialize (Hf (concat fs ++ tail) p Hok eq_refl Hmax).
    destruct (decodeFrame (f ++ concat fs ++ tail) p) as [[s n] p1]. simpl in *. injection Hf as -> ->.
    unfold getMaxFrameSize. rewrite (proj2 (Z.eqb_neq _ _)) by lia.
    rewrite (proj2 (Z.ltb_ge _ _)) by lia.
    unfold zlen at 1 2. rewrite Nat2Z.id, drop_app_length, take_app_length.
    destruct (IH p1) as (p' & -> & ? & ?); [done|by rewrite Hc1| | |].
    + unfold getMaxCacheSize in *. rewrite Hc1. rewrite zlen_app in Hmax.
      pose proof (zlen_nonneg f). lia.
    + intros p2. rewrite Hc1. apply Ht.
    + exists p'. rewrite <- Hc1. done.
Qed.

(** A prefix of a sequence of frames is some of the frames and a strict prefix
    of the next one. *)
Lemma prefix_split (fs : list (list Z)) (x y : list Z) :
  Forall (fun f => 0 < zlen f) fs -> x ++ y = concat fs ->
  exists fs1 fs2 tail, fs = fs1 ++ fs2 /\ x = concat fs1 ++ tail /\ tail ++ y = concat fs2 /\
    (tail = [] \/ exists f fs2', fs2 = f :: fs2' /\
       0 <= zlen tail < zlen f /\ tail = take (Z.to_nat (zlen tail)) f).
Proof.
  intros Hfs. revert x. induction Hfs as [|f fs Hf Hfs IH]; intros x Hx; simpl in Hx.
  - apply app_eq_nil in Hx as [-> ->]. exists [], [], []. auto.
  - destruct (decide (zlen x < zlen f)) as [Hlt|Hge].
    + exists [], (f :: fs), x. simpl. repeat split; auto. right. exists f, fs.
      split; [done|]. split; [pose proof (zlen_nonneg x); lia|].
      apply (f_equal (take (length x))) in Hx. rewrite take_app_length in Hx.
      unfold zlen in *. rewrite Nat2Z.id. rewrite take_app_le in Hx by lia. done.
    + assert (exists x', x = f ++ x') as [x' ->].
      { exists (drop (length f) x). apply (f_equal (take (length f))) in Hx.
        rewrite take_app_length in Hx. unfold zlen in *. rewrite take_app_le in Hx by lia.
        rewrite <- Hx at 1. symmetry. apply take_drop. }
      rewrite <- app_assoc in Hx. apply app_inv_head in Hx.
      destruct (IH x' Hx) as (fs1 & fs2 & tail & -> & -> & Hy & Ht).
      exists (f :: fs1), fs2, tail. simpl. by rewrite app_assoc.
Qed.
End Spec.

(** ** Properties *)

Section Properties.
Context {P : Type} `{Codec P} (codec_ok : P -> Prop) `{!CodecLaws P codec_ok}.

(** C5. Reading refines parsing.  On a well-formed cache and data of 1 to
    [getMaxFrameSize] bytes, [readFromBuf] makes no memory error, keeps the cache
    well formed and its bound, and terminates.  If the data fits beside the unread
    bytes, then, wherever they lie in the buffer and whether or not it was moved
    or grown: the frames appended to the queue are those the specification
    [parse_all] finds in the undecoded bytes followed by the data, earlier frames
    are intact, and what stays undecoded is the rest.  If not, it returns -1 and
    frames and undecoded bytes are unchanged.  The stream version differs only in
    returning -1 on invalid data. *)
Theorem readFromBuf_refines_parse (p : P) data c :
  cache_wf c -> sizes_ok p c -> codec_ok p -> 0 < zlen data <= getMaxFrameSize p ->
  exists rs rb c' p',
    stream_readFromBuf p data c = Some (rs, c', p') /\
    base_readFromBuf p data c = Some (rb, c', p') /\
    cache_wf c' /\ sizes_ok p' c' /\ codec_ok p' /\ c_max c' = c_max c /\
    if bool_decide (unread c + zlen data <= c_max c)
    then exists fs ok, parse_all (pending_of c ++ data) p = (fs, pending_of c', ok, p') /\
         frames_of c' = frames_of c ++ fs /\ rs = (if ok then zlen data else -1) /\
         rb = zlen data
    else rs = -1 /\ rb = -1 /\ p' = p /\ frames_of c' = frames_of c /\
         pending_of c' = pending_of c.
Proof.
  intros Hwf Hsz Hok Hlen.
  destruct (stream_readFromBuf_spec codec_ok p data c Hwf Hsz Hok Hlen)
    as (r & c' & p' & Hrun & W & S' & O' & Hres).
  pose proof (stream_readFromBuf_max _ _ _ _ _ _ Hrun) as Hm.
  destruct (appendCache_spec p data c Hwf Hsz Hlen) as (c1 & Hap & _).
  unfold stream_readFromBuf in Hrun. unfold base_readFromBuf at 1. unfold stream_readFromBuf.
  rewrite Hap in *. cbn [mbind option_bind] in *.
  case_bool_decide as Hfit.
  - rewrite base_stream_parse_loop.
    destruct (stream_parse_loop (parse_fuel c1) p c1) as [[[ok c2] p2]|] eqn:Hloop;
      cbn [mbind option_bind] in *; [|done].
    injection Hrun as <- <- <-. exists (if ok then zlen data else -1), (zlen data), c2, p2.
    do 6 (split; [done|]). destruct Hres as (fs & ok' & H1 & H2 & H3).
    exists fs, ok'. split; [done|]. split; [done|]. split; [|done]. destruct ok, ok'; done || lia.
  - injection Hrun as <- <- <-. exists (-1), (-1), c1, p. do 6 (split; [done|]).
    by destruct Hres as (_ & _ & ? & ?).
Qed.

(** Data longer than a frame overruns the heap.  A new cache grows by one
    maximum frame, so the first append of data at least two bytes longer than
    that, although within the cache bound it checks, writes past the end of the
    buffer it has just allocated. *)
Theorem append_longer_than_frame_overflows (p : P) data mcs :
  0 <= mcs -> 0 <= getMaxFrameSize p -> getMaxFrameSize p + 1 < zlen data ->
  zlen data <= c_max (new_cache p mcs) -> c_max (new_cache p mcs) < 2 ^ 28 ->
  appendCache p data (new_cache p mcs) = None.
Proof.
  intros Hm Hf Hlen Hfit Hmax. unfold appendCache.
  cbn [write_offset cache_size decode_offset frame_cache_map new_cache read_offset c_max] in *.
  set (cm := if mcs <? getMaxCacheSize p then getMaxCacheSize p else mcs) in *.
  rewrite (wrap_small 32 (zlen data)) by lia. rewrite (proj2 (Z.eqb_neq _ _)) by lia.
  rewrite Z.add_0_r. rewrite (wrap_small 32 (zlen data)) by lia.
  rewrite (proj2 (Z.ltb_lt 0 _)) by lia. unfold read_offset.
  cbn [write_offset cache_size decode_offset frame_cache_map].
  change (u32 (0 - 0)) with 0. rewrite Z.add_0_l. rewrite (wrap_small 32 (zlen data)) by lia.
  rewrite (proj2 (Z.ltb_ge cm _)) by lia. change (u32 (0 - 0)) with 0.
  rewrite (wrap_small 32 (10 * zlen data)) by lia. rewrite (proj2 (Z.ltb_ge _ 0)) by lia.
  rewrite Z.add_0_l, (wrap_small 32 (getMaxFrameSize p)) by lia.
  rewrite (proj2 (Z.ltb_ge cm _)) by lia.
  destruct (resize_spec (getMaxFrameSize p) (new_cache p mcs) (new_cache_wf p mcs Hm))
    as (c' & -> & _ & _ & _ & _ & Hw & _ & Hbl & _).
  { unfold unread, read_offset. cbn [write_offset decode_offset frame_cache_map new_cache c_max].
    fold cm. lia. }
  { cbn [c_max new_cache]. fold cm. lia. }
  cbn [mbind option_bind]. rewrite memcpy_at_None; [done|]. rewrite Hbl, Hw.
  unfold unread, read_offset. simpl. lia.
Qed.

(** A partial send is forgotten by the base class.  When the kernel takes
    only [k] bytes of the front frame of a streaming connection, then would
    block, [IcacheBufferBase::sendCacheByFd] reports [k] bytes sent but leaves
    the queue as it was, so the next call sends those bytes again. *)
Theorem base_send_forgets_progress (p : P) c o n fs k :
  cache_wf c -> c_max c < 2 ^ 32 - 1 -> frame_cache_map c = (o, n) :: fs ->
  isStreaming p = true -> 0 < k < n -> k <= getSliceSize p ->
  base_sendCacheByFd p [SendOk (Z.to_N k); SendAgain] c
  = Some (k, slice o k (cache_buf c), c, []).
Proof.
  intros Hwf Hmax Hfs Hst Hk Hsl.
  pose proof (cache_wf_bounds c Hwf) as (Hr & Hd & Hm & Hb & Hin).
  destruct (Hin (o, n)) as (H1 & H2 & H3); [rewrite Hfs; left|]. simpl in H1, H2, H3.
  unfold base_sendCacheByFd. rewrite Hfs. cbn [base_send_loop].
  rewrite (proj2 (Z.leb_gt n 0)) by lia. rewrite Hst, andb_false_r.
  assert (Hmin : Z.min (Z.of_N (Z.to_N k)) (if getSliceSize p <? n then getSliceSize p else n) = k)
    by (rewrite Z2N.id by lia; destruct (Z.ltb_spec (getSliceSize p) n); lia).
  rewrite Hmin, memread_Some by lia. cbn [mbind option_bind app].
  rewrite !wrap_small by lia. rewrite (proj2 (Z.leb_gt (n - k) 0)) by lia.
  cbn [mbind option_bind]. rewrite zlen_slice by lia.
  rewrite (proj2 (Z.eqb_neq k 0)), (proj2 (Z.eqb_neq (n - k) 0)) by lia. done.
Qed.
End Properties.

(** ** Datagrams *)

Lemma base_parse_all (p : ProtocalBase) data :
  0 < zlen data <= max_frame_size p -> zlen data <= max_cache_size p ->
  parse_all data p = ([data], [], true, p).
Proof.
  intros Hd Hc. rewrite (parse_all_unfold base_ok);
    [|unfold base_ok; lia|unfold getMaxCacheSize; simpl; lia].
  simpl. unfold getMaxFrameSize. simpl.
  rewrite (proj2 (Z.eqb_neq _ _)), (proj2 (Z.ltb_ge _ _)) by lia.
  unfold zlen. rewrite Nat2Z.id, drop_all, take_ge by lia. done.
Qed.

(** Datagrams keep their boundaries and their source while they fit: a
    datagram is queued as one frame, its address followed by its data, behind
    the frames already queued.  When the address still fits the cache but the
    data does not, the read fails and the address stays behind as undecoded
    bytes, in front of the next datagram. *)
Theorem udp_datagrams (p : ProtocalBase) addr data c :
  cache_wf c -> sizes_ok p c -> pending_of c = [] ->
  0 < zlen addr -> 0 < zlen data <= slice_size p -> zlen addr + zlen data <= max_frame_size p ->
  unread c + zlen addr <= c_max c ->
  exists r c', udp_readFromFd p (RecvOk data) addr c = Some (r, c', p) /\
    cache_wf c' /\
    if bool_decide (unread c + zlen addr + zlen data <= c_max c)
    then r = zlen data /\ frames_of c' = frames_of c ++ [addr ++ data] /\ pending_of c' = []
    else r = 0 /\ frames_of c' = frames_of c /\ pending_of c' = addr.
Proof.
  intros Hwf Hsz Hpend Ha Hd Had Hfit. pose proof (cache_wf_bounds c Hwf) as (? & ? & _).
  pose proof Hsz as (Hs1 & Hs2 & Hs3).
  unfold getMaxFrameSize, getMaxCacheSize in *. simpl in Hs1, Hs2, Hs3.
  unfold udp_readFromFd, getSliceSize. simpl codec_config.
  rewrite take_ge by (unfold zlen in *; lia).
  rewrite (proj2 (Z.eqb_neq _ _)) by lia.
  destruct (appendCache_spec p addr c Hwf Hsz) as (c1 & Hap & W1 & S1 & F1 & P1 & O1);
    [unfold getMaxFrameSize; simpl; lia|].
  rewrite bool_decide_true in Hap by lia. rewrite Hap. rewrite bool_decide_true in P1 by lia.
  rewrite Hpend in P1. simpl in P1. cbn [mbind option_bind].
  destruct (O1 Hfit) as (_ & _ & U1). pose proof (appendCache_max _ _ _ _ _ Hap) as M1.
  unfold base_readFromBuf.
  destruct (appendCache_spec p data c1 W1 S1) as (c2 & -> & W2 & S2 & F2 & P2 & _);
    [unfold getMaxFrameSize; simpl; lia|].
  rewrite U1, M1 in *. case_bool_decide as Hfit2; cbn [mbind option_bind].
  - rewrite base_stream_parse_loop. rewrite P1 in P2.
    assert (Hpl : (length (pending_of c2) < parse_fuel c2)%nat).
    { pose proof (pending_len c2 W2). pose proof (cache_wf_bounds c2 W2) as (?&?&_).
      unfold parse_fuel, zlen in *. lia. }
    destruct (stream_parse_loop_spec base_ok (parse_fuel c2) p c2 W2 S2)
      as (ok & c' & p' & -> & W' & _ & _ & fs & Hall & Hfr); [unfold base_ok; lia|done|].
    cbn [mbind option_bind]. rewrite P2, base_parse_all in Hall;
      [|rewrite zlen_app; unfold unread in *; lia..]. injection Hall as <- Hp <- <-.
    exists (zlen data), c'. rewrite (proj2 (Z.ltb_ge _ _)) by lia.
    split; [done|]. split; [done|]. rewrite Hfr, F2, F1. done.
  - exists 0, c2. split; [done|]. split; [done|]. split; [done|].
    rewrite app_nil_r in P2. rewrite F2, P2. done.
Qed.

(** ** Witnesses *)

Definition demo_protocal : ProtocalBase := new_ProtocalBase 40 true 16 8.

(** A write cache holding one frame of five bytes. *)
Definition demo_cache : cache := mkCache 40 ([1; 2; 3; 4; 5] ++ replicate 12 0) 16 5 5 [(0, 5)].

Lemma demo_cache_wf : cache_wf demo_cache.
Proof. repeat split; try (vm_compute; congruence). by right. Qed.

Lemma readFromBuf_refines_parse_witness :
  exists rs rb c' p',
    stream_readFromBuf demo_protocal [7; 8; 9] (new_cache demo_protocal 40) = Some (rs, c', p') /\
    base_readFromBuf demo_protocal [7; 8; 9] (new_cache demo_protocal 40) = Some (rb, c', p') /\
    cache_wf c'.
Proof.
  destruct (readFromBuf_refines_parse base_ok demo_protocal [7; 8; 9] (new_cache demo_protocal 40))
    as (rs & rb & c' & p' & H1 & H2 & H3 & _).
  - apply new_cache_wf. lia.
  - repeat split; vm_compute; congruence.
  - vm_compute. congruence.
  - split; vm_compute; congruence.
  - exists rs, rb, c', p'. split; [exact H1|]. split; [exact H2|exact H3].
Defined.

Lemma append_longer_than_frame_overflows_witness :
  appendCache demo_protocal (replicate 20 1) (new_cache demo_protocal 40) = None.
Proof.
  apply (append_longer_than_frame_overflows demo_protocal (replicate 20 1) 40);
    vm_compute; congruence.
Defined.

Lemma base_send_forgets_progress_witness :
  base_sendCacheByFd demo_protocal [SendOk (Z.to_N 2); SendAgain] demo_cache
  = Some (2, [1; 2], demo_cache, []).
Proof.
  apply (base_send_forgets_progress demo_protocal demo_cache 0 5 [] 2);
    [exact demo_cache_wf|vm_compute; congruence..|reflexivity|split; vm_compute; congruence|vm_compute; congruence].
Defined.

Lemma udp_datagrams_witness :
  exists r c', udp_readFromFd demo_protocal (RecvOk [5; 6]) [1; 2; 3; 4]
      (new_cache demo_protocal 40) = Some (r, c', demo_protocal) /\
    r = 2 /\ frames_of c' = [[1; 2; 3; 4; 5; 6]].
Proof.
  destruct (udp_datagrams demo_protocal [1; 2; 3; 4] [5; 6] (new_cache demo_protocal 40))
    as (r & c' & H1 & _ & H2 & H3 & _).
  - apply new_cache_wf. lia.
  - repeat split; vm_compute; congruence.
  - reflexivity.
  - reflexivity.
  - split; vm_compute; congruence.
  - vm_compute. congruence.
  - vm_compute. congruence.
  - exists r, c'. split; [exact H1|]. split; [exact H2|exact H3].
Defined.
