(* ===== verification/StreamProtocol.v ===== *)
(** The stream protocol ([src/imp/network/protocal_stream.h],
    [protocal_stream.cpp]): frames of a 16-byte header followed by an
    application header and a payload, both masked with the timestamp.

    The clock is an oracle: [clock n] is the [n]-th reading of
    [Timer::getTimeNow].  [None] is a memory error. *)
From S2P Require Import Prelude Codec.

Definition PROTOCAL_STREAM_VERSION : Z := 1.
Definition PROTOCAL_STREAM_MAX_TIME_DIFF : Z := 1000 * 5 * 60.

Record StreamFrameHeader := mkStreamHeader {
  version : Z;
  reserved : Z;
  check_code : Z;
  header_length : Z;
  payload_length : Z;
  timestamp : Z
}.

Record StreamFrame := mkStreamFrame {
  header : StreamFrameHeader;
  payload_header : list Z;
  payload : list Z
}.

Record ProtocalStream := mkProtocalStream {
  st_config : ProtocalBase;
  clock : nat -> Z;
  tick : nat
}.

(** [ProtocalStream::ProtocalStream] *)
Definition new_ProtocalStream (mcs mfs ss : Z) (clk : nat -> Z) : ProtocalStream :=
  mkProtocalStream (new_ProtocalBase mcs true mfs (if ss =? 0 then 1200 else ss)) clk 0.

(** [Timer::getTimeNow]: one reading of the clock. *)
Definition getTimeNow (p : ProtocalStream) : Z * ProtocalStream :=
  (clock p (tick p), mkProtocalStream (st_config p) (clock p) (S (tick p))).

Definition minProtocalSize : Z := 16.

(** [ProtocalStream::caculateCheckcode]: an 8-bit accumulator. *)
Definition caculateCheckcode (hdr pld : list Z) : Z :=
  let add8 sum b := u8 (sum + b) in
  u8 (256 - foldl add8 (foldl add8 0 hdr) pld).

(** [ProtocalStream::encryptPayload] *)
Definition encryptPayload (mask data : list Z) : list Z :=
  if zlen mask =? 0 then data else xor_mask mask data.

(** [ProtocalStream::encodeFrame]; an empty result is the null buffer. *)
Definition encodeFrame (cfg : ProtocalBase) (input_list : list (list Z)) : option (list Z) :=
  let total_len := foldl (fun acc i => u32 (acc + zlen i)) 0 input_list in
  match input_list with
  | ver :: code :: hlen :: plen :: ts :: hdr :: pld :: _ =>
      if max_frame_size cfg <? total_len then Some []
      else
        '(buf, offset) ← copy_all (replicate (Z.to_nat total_len) 0) 0
                           [ver; code; hlen; plen; ts; hdr; pld];
        let timestamp_offset := zlen ver + zlen code + zlen hlen + zlen plen in
        let data_offset := timestamp_offset + zlen ts in
        let data_len := u32 (zlen hdr + zlen pld) in
        mask ← memread buf timestamp_offset (zlen ts);
        data ← memread buf data_offset data_len;
        memcpy_at buf data_offset (encryptPayload mask data)
  | _ => Some []
  end.

(** [ProtocalStream::packetFrame] *)
Definition packetFrame (hdr pld : list Z) (p : ProtocalStream)
  : option (list Z) * ProtocalStream :=
  let code := caculateCheckcode hdr pld in
  let '(now, p') := getTimeNow p in
  (encodeFrame (st_config p)
     [[PROTOCAL_STREAM_VERSION]; [code]; be_bytes 2 (zlen hdr); be_bytes 4 (zlen pld);
      be_bytes 8 now; hdr; pld], p').

(** [ProtocalStream::decodeFrameHeader] *)
Definition decodeFrameHeader (data : list Z) : StreamFrameHeader :=
  mkStreamHeader (Z.land (nth 0 data 0) 15) (Z.shiftr (nth 0 data 0) 4) (nth 1 data 0)
    (be_value (slice 2 2 data)) (be_value (slice 4 4 data)) (be_value (slice 8 8 data)).

(** [ProtocalStream::decodeFrame] *)
Definition stream_decodeFrame (data : list Z) (p : ProtocalStream) : (Z * Z) * ProtocalStream :=
  let len := zlen data in
  if len <? minProtocalSize then ((0, 0), p)
  else
    let h := decodeFrameHeader data in
    let need_size := u32 (u32 (minProtocalSize + header_length h) + payload_length h) in
    let '(time_now, p') := getTimeNow p in
    if negb (version h =? PROTOCAL_STREAM_VERSION) || negb (reserved h =? 0) ||
       (max_frame_size (st_config p) <? need_size) ||
       ((timestamp h <? time_now) && (PROTOCAL_STREAM_MAX_TIME_DIFF <? time_now - timestamp h))
    then ((0, u32 (max_frame_size (st_config p) + len)), p')
    else if len <? need_size then ((0, 0), p')
    else ((0, need_size), p').

(** [ProtocalStream::bufferToFrame]: [Some None] is the result [false]. *)
Definition bufferToFrame (buf : list Z) : option (option StreamFrame) :=
  if zlen buf <? minProtocalSize then Some None
  else
    let h := decodeFrameHeader buf in
    let size := u32 (u32 (minProtocalSize + header_length h) + payload_length h) in
    if negb (size =? zlen buf) then Some None
    else
      let decode_mask := be_bytes 8 (timestamp h) in
      data ← memread buf minProtocalSize (u32 (payload_length h + header_length h));
      buf' ← memcpy_at buf minProtocalSize (encryptPayload decode_mask data);
      hdr ← memread buf' minProtocalSize (header_length h);
      pld ← memread buf' (minProtocalSize + header_length h) (payload_length h);
      if caculateCheckcode hdr pld =? check_code h
      then Some (Some (mkStreamFrame h hdr pld))
      else Some None.

#[export] Instance stream_codec : Codec ProtocalStream := {
  codec_config := st_config;
  decodeFrame := stream_decodeFrame
}.

(** Every reading of the clock lies in an interval, and sizes do not wrap. *)
Definition stream_ok (lo hi : Z) (p : ProtocalStream) : Prop :=
  (forall n, lo <= clock p n <= hi) /\
  0 <= max_frame_size (st_config p) /\
  max_frame_size (st_config p) + max_cache_size (st_config p) < 2 ^ 32.

(** ** Lemmas *)

(** The two outcomes of decoding at least a header. *)
Lemma stream_decode_cases data p :
  (stream_decodeFrame data p).1 = (0, 0) \/
  minProtocalSize <= zlen data /\
  ((stream_decodeFrame data p).1 = (0, u32 (max_frame_size (st_config p) + zlen data)) \/
   exists n, (stream_decodeFrame data p).1 = (0, n) /\ 0 <= n <= zlen data /\
     n <= max_frame_size (st_config p)).
Proof.
  unfold stream_decodeFrame. destruct (zlen data <? minProtocalSize) eqn:Hlen; [by left|].
  apply Z.ltb_ge in Hlen. simpl.
  set (need := u32 _).
  assert (0 <= need) by (apply wrap_range; lia).
  match goal with |- context [if ?b then _ else _] => destruct b eqn:Hb end; simpl; [auto|].
  apply orb_false_elim in Hb as [Hb _]. apply orb_false_elim in Hb as [_ Hb].
  destruct (zlen data <? need) eqn:Hn; simpl; [by left|].
  right. split; [done|]. right. exists need. split; [done|]. lia.
Qed.

#[export] Instance stream_codec_laws lo hi : CodecLaws ProtocalStream (stream_ok lo hi).
Proof.
  assert (Hst : forall data p, exists k, (stream_decodeFrame data p).2
                = mkProtocalStream (st_config p) (clock p) k).
  { intros data p. unfold stream_decodeFrame.
    destruct (zlen data <? minProtocalSize); [exists (tick p); by destruct p|]. simpl.
    repeat case_match; simpl; eauto. }
  split; simpl.
  - intros data p. by destruct (Hst data p) as [k ->].
  - intros data p (H1 & H2 & H3). destruct (Hst data p) as [k ->]. done.
  - intros data p. destruct (stream_decode_cases data p) as [->|(_ & [->|(n & -> & _)])]; done.
  - intros data p (H1 & H2 & H3) Hd. unfold getMaxCacheSize in Hd. simpl in Hd.
    destruct (stream_decode_cases data p) as [->|(_ & [->|(n & -> & ? & _)])]; simpl; [lia| |lia].
    apply wrap_range. lia.
  - intros data p (H1 & H2 & H3) Hd. unfold getMaxCacheSize in Hd. unfold getMaxFrameSize. simpl in *.
    pose proof (zlen_nonneg data). unfold minProtocalSize.
    destruct (stream_decode_cases data p) as [->|(Hl & [->|(n & -> & ? & _)])]; simpl; [lia| |lia].
    unfold minProtocalSize in Hl. rewrite wrap_small by lia. lia.
  - intros data p (H1 & H2 & H3) Hd. unfold getMaxCacheSize in Hd. unfold getMaxFrameSize. simpl in *.
    pose proof (zlen_nonneg data).
    destruct (stream_decode_cases data p) as [->|(Hl & [->|(n & -> & ? & ?)])]; simpl; [lia| |lia].
    unfold minProtocalSize in Hl. rewrite wrap_small by lia. lia.
Qed.

(** The 16 bytes in front of the data of a packet. *)
Definition packet_head (hdr pld : list Z) (now : Z) : list Z :=
  [PROTOCAL_STREAM_VERSION; caculateCheckcode hdr pld] ++ be_bytes 2 (zlen hdr) ++
  be_bytes 4 (zlen pld) ++ be_bytes 8 now.

Lemma packet_head_len hdr pld now : zlen (packet_head hdr pld now) = 16.
Proof. reflexivity. Qed.

Lemma packet_head_header hdr pld now data :
  zlen hdr < 2 ^ 16 -> zlen pld < 2 ^ 32 -> 0 <= now < 2 ^ 64 ->
  decodeFrameHeader (packet_head hdr pld now ++ data)
  = mkStreamHeader 1 0 (caculateCheckcode hdr pld) (zlen hdr) (zlen pld) now.
Proof.
  intros Hh Hp Hn. pose proof (zlen_nonneg hdr). pose proof (zlen_nonneg pld).
  unfold decodeFrameHeader.
  change (slice 2 2 (packet_head hdr pld now ++ data)) with (be_bytes 2 (zlen hdr)).
  change (slice 4 4 (packet_head hdr pld now ++ data)) with (be_bytes 4 (zlen pld)).
  change (slice 8 8 (packet_head hdr pld now ++ data)) with (be_bytes 8 now).
  rewrite !be_value_bytes. simpl Z.of_nat. rewrite !Z.mod_small by (simpl; lia). done.
Qed.

(** What [packetFrame] produces. *)
Lemma encode_packet cfg hdr pld now :
  zlen hdr < 2 ^ 16 -> 0 <= now < 2 ^ 64 ->
  16 + zlen hdr + zlen pld <= max_frame_size cfg < 2 ^ 32 ->
  encodeFrame cfg [[PROTOCAL_STREAM_VERSION]; [caculateCheckcode hdr pld]; be_bytes 2 (zlen hdr);
                   be_bytes 4 (zlen pld); be_bytes 8 now; hdr; pld]
  = Some (packet_head hdr pld now ++ xor_mask (be_bytes 8 now) (hdr ++ pld)).
Proof.
  intros Hh Hn Hm. pose proof (zlen_nonneg hdr). pose proof (zlen_nonneg pld).
  unfold encodeFrame. cbn [foldl].
  change (zlen [PROTOCAL_STREAM_VERSION]) with 1. change (zlen [caculateCheckcode hdr pld]) with 1.
  rewrite !zlen_be_bytes. change (Z.of_nat 2) with 2. change (Z.of_nat 4) with 4.
  change (Z.of_nat 8) with 8.
  change (u32 (u32 (u32 (u32 (u32 (0 + 1) + 1) + 2) + 4) + 8)) with 16.
  rewrite (wrap_small 32 (16 + zlen hdr)) by lia.
  rewrite (wrap_small 32 (16 + zlen hdr + zlen pld)) by lia.
  rewrite (proj2 (Z.ltb_ge _ _)) by lia.
  set (items := [[_]; _; _; _; _; _; _]).
  assert (Hcat : concat items = packet_head hdr pld now ++ hdr ++ pld)
    by (unfold items, packet_head; simpl; by rewrite app_nil_r).
  set (tot := 16 + zlen hdr + zlen pld).
  assert (Hlen : zlen (concat items) = tot)
    by (rewrite Hcat, !zlen_app, packet_head_len; unfold tot; lia).
  pose proof (copy_all_spec items [] tot) as Hc. rewrite (@zlen_nil Z), Hlen in Hc. cbn [app] in Hc.
  rewrite !Z.sub_0_r in Hc. rewrite Hc by (unfold tot; lia).
  rewrite Hcat, Z.sub_diag. simpl replicate. rewrite app_nil_r. cbn [mbind option_bind].
  change (1 + 1 + 2 + 4) with 8. change (8 + 8) with 16.
  rewrite Hcat in Hlen. clear Hc Hcat.
  rewrite (memread_Some _ 8 8) by (rewrite ?Hlen; unfold tot; lia). cbn [mbind option_bind].
  rewrite (slice_app_l 8 8) by (rewrite ?packet_head_len; lia).
  change (slice 8 8 (packet_head hdr pld now)) with (be_bytes 8 now).
  rewrite wrap_small by lia.
  rewrite (memread_Some _ 16 (zlen hdr + zlen pld)) by (rewrite ?Hlen; unfold tot; lia).
  cbn [mbind option_bind]. rewrite slice_app_r by (rewrite packet_head_len; lia). rewrite packet_head_len.
  change (16 - 16) with 0. rewrite <- zlen_app, slice_all.
  unfold encryptPayload. rewrite zlen_be_bytes. change (Z.of_nat 8 =? 0) with false. cbv iota.
  rewrite memcpy_at_Some;
    [|lia|rewrite zlen_xor_mask, Hlen, zlen_app; unfold tot; lia].
  rewrite zlen_xor_mask. f_equal.
  change (Z.to_nat 16) with (length (packet_head hdr pld now)).
  rewrite take_app_length. f_equal. rewrite drop_ge; [by rewrite app_nil_r|].
  unfold zlen. rewrite !length_app. change (length (packet_head hdr pld now)) with 16%nat. lia.
Qed.

(** The two outcomes of decoding the front of a packet. *)
Lemma decode_packet p hdr pld now k more lo hi :
  stream_ok lo hi p -> hi <= now + PROTOCAL_STREAM_MAX_TIME_DIFF ->
  zlen hdr < 2 ^ 16 -> 0 <= now < 2 ^ 64 ->
  16 + zlen hdr + zlen pld <= max_frame_size (st_config p) ->
  max_frame_size (st_config p) < 2 ^ 32 -> 16 <= k ->
  let f := packet_head hdr pld now ++ xor_mask (be_bytes 8 now) (hdr ++ pld) in
  let data := take (Z.to_nat k) f ++ more in
  (stream_decodeFrame data p).1
  = (0, if zlen data <? 16 + zlen hdr + zlen pld then 0 else 16 + zlen hdr + zlen pld).
Proof.
  intros (Hclk & _ & _) Hhi Hh Hn Hm Hm2 Hk f data.
  pose proof (zlen_nonneg hdr). pose proof (zlen_nonneg pld).
  assert (Hdata : exists rest, data = packet_head hdr pld now ++ rest).
  { exists (take (Z.to_nat k - 16) (xor_mask (be_bytes 8 now) (hdr ++ pld)) ++ more).
    unfold data, f. rewrite take_app_ge.
    - by rewrite <- app_assoc.
    - change (length (packet_head hdr pld now)) with 16%nat. lia. }
  destruct Hdata as [rest ->].
  unfold stream_decodeFrame. rewrite packet_head_header by lia.
  assert (Hl : zlen (packet_head hdr pld now ++ rest) <? minProtocalSize = false).
  { rewrite zlen_app, packet_head_len. pose proof (zlen_nonneg rest). unfold minProtocalSize. lia. }
  rewrite Hl. cbn [version reserved header_length payload_length timestamp getTimeNow].
  unfold minProtocalSize. rewrite (wrap_small 32 (16 + zlen hdr)) by lia.
  rewrite (wrap_small 32 (16 + zlen hdr + zlen pld)) by lia.
  change (1 =? PROTOCAL_STREAM_VERSION) with true. change (0 =? 0) with true. simpl negb.
  rewrite (proj2 (Z.ltb_ge (max_frame_size (st_config p)) _)) by lia. simpl orb.
  specialize (Hclk (tick p)).
  replace ((now <? clock p (tick p)) && (PROTOCAL_STREAM_MAX_TIME_DIFF <? clock p (tick p) - now))
    with false by (destruct (now <? _); simpl; lia).
  by destruct (zlen (_ ++ rest) <? 16 + zlen hdr + zlen pld).
Qed.

(** Packets are wire frames. *)
Lemma packet_wire_frame cfg hdr pld now lo hi :
  hi <= now + PROTOCAL_STREAM_MAX_TIME_DIFF -> zlen hdr < 2 ^ 16 -> 0 <= now < 2 ^ 64 ->
  16 + zlen hdr + zlen pld <= max_frame_size cfg < 2 ^ 32 ->
  wire_frame (stream_ok lo hi) cfg
    (packet_head hdr pld now ++ xor_mask (be_bytes 8 now) (hdr ++ pld)).
Proof.
  intros Hhi Hh Hn Hm. pose proof (zlen_nonneg hdr). pose proof (zlen_nonneg pld).
  set (f := packet_head hdr pld now ++ _).
  assert (Hlf : zlen f = 16 + zlen hdr + zlen pld)
    by (unfold f; rewrite zlen_app, packet_head_len, zlen_xor_mask, zlen_app; lia).
  split; [lia|]. split.
  - intros k p Hok <- Hk. cbn [decodeFrame stream_codec].
    assert (Hlk : zlen (take (Z.to_nat k) f) = k)
      by (unfold zlen in *; rewrite length_take; lia).
    destruct (decide (k < 16)) as [Hlt|Hge].
    + unfold stream_decodeFrame. rewrite Hlk. unfold minProtocalSize.
      by rewrite (proj2 (Z.ltb_lt _ _)) by lia.
    + pose proof (decode_packet p hdr pld now k [] lo hi Hok Hhi Hh Hn) as HD.
      cbv zeta in HD. fold f in HD. rewrite app_nil_r, Hlk in HD.
      rewrite HD by (cbn [codec_config stream_codec] in *; lia). by rewrite (proj2 (Z.ltb_lt _ _)) by lia.
  - intros more p Hok <- Hl. cbn [decodeFrame stream_codec].
    assert (Ht : f ++ more = take (Z.to_nat (zlen f)) f ++ more)
      by (unfold zlen; by rewrite Nat2Z.id, take_ge).
    pose proof (decode_packet p hdr pld now (zlen f) more lo hi Hok Hhi Hh Hn) as HD.
    cbv zeta in HD. fold f in HD. rewrite <- Ht, zlen_app in HD.
    rewrite HD by (cbn [codec_config stream_codec] in *; lia). rewrite Hlf. pose proof (zlen_nonneg more).
    by rewrite (proj2 (Z.ltb_ge _ _)) by lia.
Qed.

(** [bufferToFrame] on a packet. *)
Lemma bufferToFrame_packet hdr pld now :
  zlen hdr < 2 ^ 16 -> 0 <= now < 2 ^ 64 -> 16 + zlen hdr + zlen pld < 2 ^ 32 ->
  bufferToFrame (packet_head hdr pld now ++ xor_mask (be_bytes 8 now) (hdr ++ pld))
  = Some (Some (mkStreamFrame
      (mkStreamHeader 1 0 (caculateCheckcode hdr pld) (zlen hdr) (zlen pld) now) hdr pld)).
Proof.
  intros Hh Hn Hm. pose proof (zlen_nonneg hdr). pose proof (zlen_nonneg pld).
  set (body := xor_mask (be_bytes 8 now) (hdr ++ pld)).
  assert (Hb : zlen body = zlen hdr + zlen pld)
    by (unfold body; by rewrite zlen_xor_mask, zlen_app).
  unfold bufferToFrame. rewrite packet_head_header by lia.
  cbn [header_length payload_length timestamp check_code].
  rewrite zlen_app, packet_head_len, Hb. unfold minProtocalSize.
  rewrite (proj2 (Z.ltb_ge _ _)) by lia.
  rewrite (wrap_small 32 (16 + zlen hdr)) by lia.
  rewrite (wrap_small 32 (16 + zlen hdr + zlen pld)) by lia.
  rewrite (wrap_small 32 (zlen pld + zlen hdr)) by lia.
  rewrite (proj2 (Z.eqb_eq _ _)) by lia. cbn [negb].
  assert (Hlen : forall b, zlen b = zlen hdr + zlen pld ->
    zlen (packet_head hdr pld now ++ b) = 16 + zlen hdr + zlen pld)
    by (intros b Hb'; rewrite zlen_app, packet_head_len; lia).
  rewrite memread_Some by (rewrite ?Hlen by done; lia). cbn [mbind option_bind].
  rewrite slice_app_r by (rewrite packet_head_len; lia). rewrite packet_head_len, Z.sub_diag.
  replace (zlen pld + zlen hdr) with (zlen body) by lia. rewrite slice_all.
  unfold encryptPayload. rewrite zlen_be_bytes. change (Z.of_nat 8 =? 0) with false. cbv iota.
  unfold body at 2. rewrite xor_mask_involutive.
  rewrite memcpy_at_Some by (rewrite ?Hlen, ?zlen_app by done; lia). cbn [mbind option_bind].
  change (Z.to_nat 16) with (length (packet_head hdr pld now)). rewrite take_app_length.
  rewrite drop_ge, app_nil_r.
  2: { rewrite zlen_app. unfold zlen in *. rewrite length_app.
       change (length (packet_head hdr pld now)) with 16%nat. lia. }
  pose proof (Hlen (hdr ++ pld) (zlen_app _ _)) as Hl2.
  rewrite (memread_Some _ 16 (zlen hdr)) by (rewrite ?Hl2; lia).
  cbn [mbind option_bind].
  rewrite (memread_Some _ (16 + zlen hdr) (zlen pld)) by (rewrite ?Hl2; lia).
  cbn [mbind option_bind].
  rewrite (slice_app_r 16), (slice_app_r (16 + zlen hdr)) by (rewrite packet_head_len; lia).
  rewrite packet_head_len.
  replace (16 - 16) with 0 by lia. replace (16 + zlen hdr - 16) with (zlen hdr) by lia.
  rewrite slice_app_l, slice_all by lia. rewrite slice_app_r by lia.
  rewrite Z.sub_diag, slice_all. by rewrite Z.eqb_refl.
Qed.

(** ** Properties *)

(** Round trip.  For every application header and payload that fit a frame,
    [packetFrame] copies within its buffer and produces a wire frame: any
    receiver whose clock stays within five minutes of the timestamp finds every
    strict prefix incomplete and recognises the whole of it whatever bytes
    follow; and [bufferToFrame] unmasks it, accepts the check code and returns
    the header and the payload that were sent, with their lengths and the
    timestamp. *)
Theorem stream_round_trip (p : ProtocalStream) hdr pld lo hi :
  zlen hdr < 2 ^ 16 -> 0 <= clock p (tick p) < 2 ^ 64 ->
  16 + zlen hdr + zlen pld <= max_frame_size (st_config p) < 2 ^ 32 ->
  hi <= clock p (tick p) + PROTOCAL_STREAM_MAX_TIME_DIFF ->
  exists f, (packetFrame hdr pld p).1 = Some f /\
    wire_frame (stream_ok lo hi) (st_config p) f /\
    zlen f = 16 + zlen hdr + zlen pld /\
    bufferToFrame f = Some (Some (mkStreamFrame
      (mkStreamHeader PROTOCAL_STREAM_VERSION 0 (caculateCheckcode hdr pld) (zlen hdr) (zlen pld)
         (clock p (tick p))) hdr pld)).
Proof.
  intros Hh Hn Hm Hhi. eexists. split; [|split; [|split]].
  - unfold packetFrame. cbn [getTimeNow fst]. by apply encode_packet.
  - by apply packet_wire_frame.
  - rewrite zlen_app, packet_head_len, zlen_xor_mask, zlen_app. lia.
  - apply bufferToFrame_packet; lia.
Qed.

Lemma stream_round_trip_witness :
  let p := new_ProtocalStream 100 50 0 (fun n => 1000 + Z.of_nat n) in
  exists f, (packetFrame [1; 2] [255; 7; 9] p).1 = Some f /\
    bufferToFrame f = Some (Some (mkStreamFrame
      (mkStreamHeader 1 0 238 2 3 1000) [1; 2] [255; 7; 9])).
Proof.
  destruct (stream_round_trip (new_ProtocalStream 100 50 0 (fun n => 1000 + Z.of_nat n))
              [1; 2] [255; 7; 9] 0 2000) as (f & H1 & _ & _ & H2);
    [reflexivity|split; vm_compute; congruence|split; vm_compute; congruence
    |vm_compute; congruence|].
  exists f. split; [exact H1|exact H2].
Defined.

(** A 16-byte frame that announces [hl] header bytes and [2^32 - hl] payload
    bytes. *)
Definition wrapping_frame (code hl now : Z) : list Z :=
  [PROTOCAL_STREAM_VERSION; code] ++ be_bytes 2 hl ++ be_bytes 4 (2 ^ 32 - hl) ++ be_bytes 8 now.

(** The announced size is computed in 32 bits without an overflow check.
    A peer that sends just a header announcing [hl] and [2^32 - hl] bytes, of
    any check code, has it recognised as a complete 16-byte frame by every
    codec whatever its maximum frame size, and [bufferToFrame] then reads
    outside the buffer. *)
Theorem stream_length_wraps (p : ProtocalStream) code hl now :
  0 < hl < 2 ^ 16 -> 0 <= now < 2 ^ 64 -> 16 <= max_frame_size (st_config p) ->
  clock p (tick p) <= now + PROTOCAL_STREAM_MAX_TIME_DIFF ->
  (stream_decodeFrame (wrapping_frame code hl now) p).1 = (0, 16) /\
  bufferToFrame (wrapping_frame code hl now) = None.
Proof.
  intros Hhl Hn Hm Hclk.
  assert (Hh : decodeFrameHeader (wrapping_frame code hl now)
               = mkStreamHeader 1 0 code hl (2 ^ 32 - hl) now).
  { unfold decodeFrameHeader.
    change (slice 2 2 (wrapping_frame code hl now)) with (be_bytes 2 hl).
    change (slice 4 4 (wrapping_frame code hl now)) with (be_bytes 4 (2 ^ 32 - hl)).
    change (slice 8 8 (wrapping_frame code hl now)) with (be_bytes 8 now).
    rewrite !be_value_bytes. simpl Z.of_nat. rewrite !Z.mod_small by (simpl; lia). done. }
  assert (Hlen : zlen (wrapping_frame code hl now) = 16) by reflexivity.
  assert (Hsz : u32 (u32 (16 + hl) + (2 ^ 32 - hl)) = 16).
  { rewrite (wrap_small 32 (16 + hl)) by lia.
    replace (16 + hl + (2 ^ 32 - hl)) with (16 + 1 * 2 ^ 32) by lia.
    unfold wrap. by rewrite Z.mod_add by lia. }
  split.
  - unfold stream_decodeFrame. rewrite Hh, Hlen.
    cbn [version reserved header_length payload_length timestamp getTimeNow].
    unfold minProtocalSize. rewrite Hsz. change (16 <? 16) with false. cbv iota.
    change (1 =? PROTOCAL_STREAM_VERSION) with true. change (0 =? 0) with true. cbn [negb orb].
    rewrite (proj2 (Z.ltb_ge (max_frame_size (st_config p)) _)) by lia. cbn [orb].
    replace ((now <? clock p (tick p)) && (PROTOCAL_STREAM_MAX_TIME_DIFF <? clock p (tick p) - now))
      with false by (destruct (now <? _); simpl; lia).
    done.
  - unfold bufferToFrame. rewrite Hh, Hlen. unfold minProtocalSize.
    cbn [header_length payload_length timestamp check_code]. rewrite Hsz.
    change (16 <? 16) with false. change (16 =? 16) with true. cbn [negb].
    replace (u32 (2 ^ 32 - hl + hl)) with 0 by (by replace (2 ^ 32 - hl + hl) with (2 ^ 32) by lia).
    rewrite memread_Some by lia. cbn [mbind option_bind].
    change (encryptPayload (be_bytes 8 now) (slice 16 0 (wrapping_frame code hl now))) with (@nil Z).
    destruct (memcpy_at (wrapping_frame code hl now) 16 []) as [buf'|] eqn:Hcp; [|done].
    apply memcpy_at_len in Hcp. cbn [mbind option_bind].
    replace (memread buf' 16 hl) with (@None (list Z)); [done|].
    unfold memread. rewrite bool_decide_false; [done|]. lia.
Qed.

Lemma stream_length_wraps_witness :
  let p := new_ProtocalStream 100 50 0 (fun _ => 1000) in
  (stream_decodeFrame (wrapping_frame 0 100 1000) p).1 = (0, 16) /\
  bufferToFrame (wrapping_frame 0 100 1000) = None.
Proof.
  apply (stream_length_wraps (new_ProtocalStream 100 50 0 (fun _ => 1000)) 0 100 1000);
    vm_compute; intuition congruence.
Defined.
