(* ===== verification/Websocket.v ===== *)
(** The WebSocket framing ([src/imp/network/websocket/protocal_websocket.h],
    [protocal_websocket.cpp]) and the unmasking of received frames
    ([WebsocketApiBase::on_recv], [websocket_api_base.cpp]).

    Decoding reads a buffer [mem] of which the first [data_len] bytes are data;
    bytes past the end of [mem] read as 0.  The random mask is an argument.
    [None] is a memory error. *)
From S2P Require Import Prelude Codec.

Inductive WS_FrameType :=
  | WS_CONTINUATION_FRAME | WS_TEXT_FRAME | WS_BINARY_FRAME
  | WS_RESERVER_NO_CONTROL_3_FRAME | WS_RESERVER_NO_CONTROL_4_FRAME
  | WS_RESERVER_NO_CONTROL_5_FRAME | WS_RESERVER_NO_CONTROL_6_FRAME
  | WS_RESERVER_NO_CONTROL_7_FRAME
  | WS_CONNECTION_CLOSE_FRAME | WS_PING_FRAME | WS_PONG_FRAME
  | WS_RESERVER_CONTROL_B_FRAME | WS_RESERVER_CONTROL_C_FRAME | WS_RESERVER_CONTROL_D_FRAME
  | WS_RESERVER_CONTROL_E_FRAME | WS_RESERVER_CONTROL_F_FRAME.

Definition frame_type_value (t : WS_FrameType) : Z :=
  match t with
  | WS_CONTINUATION_FRAME => 0 | WS_TEXT_FRAME => 1 | WS_BINARY_FRAME => 2
  | WS_RESERVER_NO_CONTROL_3_FRAME => 3 | WS_RESERVER_NO_CONTROL_4_FRAME => 4
  | WS_RESERVER_NO_CONTROL_5_FRAME => 5 | WS_RESERVER_NO_CONTROL_6_FRAME => 6
  | WS_RESERVER_NO_CONTROL_7_FRAME => 7
  | WS_CONNECTION_CLOSE_FRAME => 8 | WS_PING_FRAME => 9 | WS_PONG_FRAME => 10
  | WS_RESERVER_CONTROL_B_FRAME => 11 | WS_RESERVER_CONTROL_C_FRAME => 12
  | WS_RESERVER_CONTROL_D_FRAME => 13 | WS_RESERVER_CONTROL_E_FRAME => 14
  | WS_RESERVER_CONTROL_F_FRAME => 15
  end.

Record WSFrameHeader := mkWSHeader {
  FIN : bool;
  opcode : Z;
  MASK : bool;
  payload_len : Z;
  Masking_key : list Z;
  actual_header_len : Z;
  actual_payload_len : Z
}.

(** [ProtocalWebsocket::ProtocalWebsocket] *)
Record ProtocalWebsocket := mkProtocalWebsocket { ws_config : ProtocalBase }.
Definition new_ProtocalWebsocket (mcs mfs ss : Z) : ProtocalWebsocket :=
  mkProtocalWebsocket (new_ProtocalBase mcs true mfs (if ss =? 0 then 1200 else ss)).

Definition ws_minProtocalSize : Z := 2.

(** One byte of a wider value: [(v >> s) & 0xff]. *)
Definition byte_of (v s : Z) : Z := Z.land (Z.shiftr v s) 255.

(** The 7-bit length and the extended length field of a payload length; the
    two-byte form goes through a [uint16_t]. *)
Definition length_fields (len : Z) : Z * list Z :=
  if len <? 126 then (len, [])
  else if len <=? 65536 then
    let l16 := u16 len in (126, [byte_of l16 8; byte_of l16 0])
  else
    (127, [byte_of len 56; byte_of len 48; byte_of len 40; byte_of len 32;
           byte_of len 24; byte_of len 16; byte_of len 8; byte_of len 0]).

(** [ProtocalWebsocket::packetFrame] *)
Definition ws_packetFrame (payload : list Z) (use_mask : bool) (key : list Z)
    (frame_type : WS_FrameType) (is_fin : bool) : option (list Z) :=
  let len := zlen payload in
  let '(plen, ext) := length_fields len in
  let mask_key := if use_mask then take 4 key else [] in
  let final_buf_size := u32 (2 + zlen ext + (if use_mask then 4 else 0) + len) in
  let b0 := Z.lor (Z.land (frame_type_value frame_type) 15) (if is_fin then 128 else 0) in
  let b1 := Z.lor (if use_mask then 128 else 0) plen in
  let head := [b0; b1] ++ ext ++ mask_key in
  buf ← memcpy_at (replicate (Z.to_nat (u32 (final_buf_size + 1))) 0) 0 head;
  let operation_pos := zlen head in
  buf1 ← (if 0 <? len then memcpy_at buf operation_pos payload else Some buf);
  buf2 ← (if use_mask then
            data ← memread buf1 operation_pos len;
            memcpy_at buf1 operation_pos (xor_mask mask_key data)
          else Some buf1);
  Some (take (Z.to_nat final_buf_size) buf2).

(** The [i]-th [uint8_t] of a buffer. *)
Definition raw_at (mem : list Z) (i : nat) : Z := u8 (nth i mem 0).

(** [ProtocalWebsocket::decodeFrameHeader]; a header length of -1 is an
    incomplete header. *)
Definition ws_decodeFrameHeader (mem : list Z) (data_len : Z) : WSFrameHeader :=
  let raw := raw_at mem in
  let fin := Z.land (raw 0%nat) 128 =? 128 in
  let op := Z.land (raw 0%nat) 15 in
  let mask := Z.land (raw 1%nat) 128 =? 128 in
  let plen := Z.land (raw 1%nat) 127 in
  let incomplete := mkWSHeader fin op mask plen [] (-1) (-1) in
  let extended : option (nat * Z) :=
    if plen <? 126 then Some (2%nat, plen)
    else if plen =? 126 then
      if data_len <? 2 + 2 then None
      else Some (4%nat, Z.lor (Z.shiftl (raw 2%nat) 8) (raw 3%nat))
    else
      if data_len <? 2 + 4 then None
      else Some (10%nat, Z.lor (Z.lor (Z.lor (Z.shiftl (raw 6%nat) 24) (Z.shiftl (raw 7%nat) 16))
                                  (Z.shiftl (raw 8%nat) 8)) (raw 9%nat)) in
  match extended with
  | None => incomplete
  | Some (decode_pos, len) =>
      if mask then
        if data_len <? Z.of_nat decode_pos + 4 then incomplete
        else mkWSHeader fin op mask plen
               [raw decode_pos; raw (decode_pos + 1)%nat; raw (decode_pos + 2)%nat;
                raw (decode_pos + 3)%nat] (Z.of_nat decode_pos + 4) len
      else mkWSHeader fin op mask plen [] (Z.of_nat decode_pos) len
  end.

(** [ProtocalWebsocket::decodeFrame] on the first [len] bytes of [mem]. *)
Definition ws_decodeFrame (mem : list Z) (len : Z) : Z * Z :=
  if len <? ws_minProtocalSize then (0, 0)
  else
    let h := ws_decodeFrameHeader mem len in
    if actual_header_len h <? 0 then (0, 0)
    else
      let need_size := actual_header_len h + actual_payload_len h in
      if len <? need_size then (0, 0) else (0, u32 need_size).

(** [ProtocalWebsocket::bufferToFrame], and the unmasking [on_recv] does. *)
Definition ws_bufferToFrame (buf : list Z) : option (WSFrameHeader * list Z) :=
  if zlen buf <? ws_minProtocalSize then None
  else
    let h := ws_decodeFrameHeader buf (zlen buf) in
    if actual_header_len h <? 0 then None
    else if zlen buf <? actual_header_len h + actual_payload_len h then None
    else Some (h, drop (Z.to_nat (actual_header_len h)) buf).

Definition ws_recv_frame (buf : list Z) : option (WSFrameHeader * list Z) :=
  '(h, p) ← ws_bufferToFrame buf;
  let data := take (Z.to_nat (actual_payload_len h)) p in
  Some (h, if MASK h then xor_mask (Masking_key h) data else data).

#[export] Instance ws_codec : Codec ProtocalWebsocket := {
  codec_config := ws_config;
  decodeFrame := fun data p => (ws_decodeFrame data (zlen data), p)
}.

Definition ws_ok (p : ProtocalWebsocket) : Prop :=
  0 <= max_frame_size (ws_config p) /\ max_cache_size (ws_config p) < 2 ^ 32.

(** ** Lemmas *)

Lemma byte_of_spec v s : 0 <= s -> byte_of v s = (v / 2 ^ s) mod 256.
Proof.
  intros. unfold byte_of. change 255 with (Z.ones 8). rewrite Z.land_ones by lia.
  by rewrite Z.shiftr_div_pow2.
Qed.

(** [(a << n) | b] of a low part [b] of [n] bits is [a * 2^n + b]. *)
Lemma lor_shiftl a b n : 0 <= n -> 0 <= b < 2 ^ n -> Z.lor (Z.shiftl a n) b = a * 2 ^ n + b.
Proof.
  intros Hn Hb.
  assert (Hl : Z.land (Z.shiftl a n) b = 0).
  { apply Z.bits_inj'. intros i Hi. rewrite Z.land_spec, Z.bits_0, Z.shiftl_spec by done.
    destruct (decide (i < n)); [by rewrite Z.testbit_neg_r by lia|].
    destruct (decide (b = 0)) as [->|Hb0]; [by rewrite Z.bits_0, andb_false_r|].
    rewrite (Z.bits_above_log2 b i); [apply andb_false_r|lia|].
    apply Z.lt_le_trans with n; [apply Z.log2_lt_pow2; lia|lia]. }
  rewrite <- Z.lxor_lor, <- Z.add_nocarry_lxor by done. by rewrite Z.shiftl_mul_pow2.
Qed.

Lemma raw_app (i : nat) (d more : list Z) :
  Z.of_nat i < zlen d -> raw_at (d ++ more) i = raw_at d i.
Proof. intros Hi. unfold raw_at. f_equal. apply app_nth1. unfold zlen in Hi. lia. Qed.

(** Splits a comparison of a length with a constant. *)
Ltac len_case :=
  match goal with
  | |- context [?a <? ?b] => destruct (Z.ltb_spec a b); cbn [actual_header_len] in *; try lia
  | _ : context [?a <? ?b] |- _ => destruct (Z.ltb_spec a b); cbn [actual_header_len] in *; try lia
  end.

(** What lies past a complete header does not matter to it. *)
Lemma header_stable d more len2 :
  2 <= zlen d -> zlen d <= len2 ->
  0 <= actual_header_len (ws_decodeFrameHeader d (zlen d)) <= zlen d ->
  ws_decodeFrameHeader (d ++ more) len2 = ws_decodeFrameHeader d (zlen d).
Proof.
  intros Hd Hle. unfold ws_decodeFrameHeader.
  rewrite !(raw_app 0), !(raw_app 1) by (simpl; lia).
  set (plen := Z.land (raw_at d 1) 127).
  destruct (Z.land (raw_at d 1) 128 =? 128), (plen <? 126), (plen =? 126);
    cbn [actual_header_len]; intros Hh; repeat len_case;
    rewrite ?raw_app by (simpl in *; lia); reflexivity.
Qed.

Lemma header_len_range mem len :
  actual_header_len (ws_decodeFrameHeader mem len) = -1 \/
  2 <= actual_header_len (ws_decodeFrameHeader mem len) <= 14.
Proof.
  unfold ws_decodeFrameHeader. repeat case_match; cbn [actual_header_len] in *; simplify_eq; lia.
Qed.

Lemma raw_byte i d : is_byte (raw_at d i).
Proof. unfold raw_at, is_byte. apply (wrap_range 8). lia. Qed.

Lemma lor2 a b : is_byte b -> Z.lor (Z.shiftl a 8) b = a * 256 + b.
Proof. intros Hb. apply (lor_shiftl a b 8); [lia|exact Hb]. Qed.

Lemma lor4 a b c d :
  is_byte a -> is_byte b -> is_byte c -> is_byte d ->
  Z.lor (Z.lor (Z.lor (Z.shiftl a 24) (Z.shiftl b 16)) (Z.shiftl c 8)) d
  = ((a * 256 + b) * 256 + c) * 256 + d.
Proof.
  unfold is_byte. intros Ha Hb Hc Hd.
  rewrite (lor_shiftl a (Z.shiftl b 16) 24) by (rewrite ?Z.shiftl_mul_pow2 by lia; lia).
  replace (a * 2 ^ 24 + Z.shiftl b 16) with (Z.shiftl (a * 256 + b) 16)
    by (rewrite !Z.shiftl_mul_pow2 by lia; lia).
  rewrite (lor_shiftl _ (Z.shiftl c 8) 16) by (rewrite ?Z.shiftl_mul_pow2 by lia; lia).
  replace ((a * 256 + b) * 2 ^ 16 + Z.shiftl c 8) with (Z.shiftl ((a * 256 + b) * 256 + c) 8)
    by (rewrite !Z.shiftl_mul_pow2 by lia; lia).
  by rewrite (lor_shiftl _ d 8) by lia.
Qed.

Lemma payload_len_range mem len :
  -1 <= actual_payload_len (ws_decodeFrameHeader mem len) < 2 ^ 32 /\
  (0 <= actual_header_len (ws_decodeFrameHeader mem len) ->
   0 <= actual_payload_len (ws_decodeFrameHeader mem len)).
Proof.
  pose proof (fun i => raw_byte i mem) as Hb.
  assert (Hm : 0 <= Z.land (raw_at mem 1) 127 < 128).
  { change 127 with (Z.ones 7). rewrite Z.land_ones by lia. apply Z.mod_pos_bound. lia. }
  assert (H2 : forall i j, 0 <= Z.lor (Z.shiftl (raw_at mem i) 8) (raw_at mem j) < 2 ^ 32).
  { intros i j. rewrite lor2 by done. pose proof (Hb i). pose proof (Hb j).
    unfold is_byte in *. lia. }
  assert (H4 : forall i j k l, 0 <= Z.lor (Z.lor (Z.lor (Z.shiftl (raw_at mem i) 24)
    (Z.shiftl (raw_at mem j) 16)) (Z.shiftl (raw_at mem k) 8)) (raw_at mem l) < 2 ^ 32).
  { intros i j k l. rewrite lor4 by done. pose proof (Hb i). pose proof (Hb j).
    pose proof (Hb k). pose proof (Hb l). unfold is_byte in *. lia. }
  specialize (H2 2%nat 3%nat). specialize (H4 6%nat 7%nat 8%nat 9%nat).
  unfold ws_decodeFrameHeader.
  repeat case_match; cbn [actual_payload_len actual_header_len] in *; simplify_eq; lia.
Qed.

(** A recognised frame lies within the data. *)
Lemma ws_decode_range mem len :
  0 <= len < 2 ^ 32 ->
  exists n, ws_decodeFrame mem len = (0, n) /\ 0 <= n <= len /\
    (n <> 0 -> n = actual_header_len (ws_decodeFrameHeader mem len)
                   + actual_payload_len (ws_decodeFrameHeader mem len) /\
               0 <= actual_header_len (ws_decodeFrameHeader mem len) /\ 2 <= len).
Proof.
  intros Hlen. unfold ws_decodeFrame, ws_minProtocalSize.
  pose proof (payload_len_range mem len) as [_ Hp].
  pose proof (header_len_range mem len) as Hh.
  destruct (Z.ltb_spec len 2); [exists 0; split; [done|lia]|].
  destruct (Z.ltb_spec (actual_header_len (ws_decodeFrameHeader mem len)) 0) as [?|Hah];
    [exists 0; split; [done|lia]|]. specialize (Hp Hah).
  destruct (Z.ltb_spec len (actual_header_len (ws_decodeFrameHeader mem len)
    + actual_payload_len (ws_decodeFrameHeader mem len))); [exists 0; split; [done|lia]|].
  rewrite wrap_small by lia. eexists. split; [done|]. lia.
Qed.

(** A frame once recognised is recognised whatever follows. *)
Lemma ws_decode_stable d more n :
  zlen (d ++ more) < 2 ^ 32 -> ws_decodeFrame d (zlen d) = (0, n) -> n <> 0 ->
  ws_decodeFrame (d ++ more) (zlen (d ++ more)) = (0, n).
Proof.
  intros Hl Hd Hn. pose proof (zlen_nonneg d). pose proof (zlen_nonneg more).
  rewrite zlen_app in *.
  destruct (ws_decode_range d (zlen d)) as (n' & Hd' & Hr & Hnz); [lia|].
  rewrite Hd in Hd'. injection Hd' as <-. destruct (Hnz Hn) as (Heq & Hah & H2).
  pose proof (payload_len_range d (zlen d)) as [_ Hp].
  unfold ws_decodeFrame. rewrite header_stable by lia. unfold ws_minProtocalSize.
  rewrite (proj2 (Z.ltb_ge _ _)) by lia. rewrite (proj2 (Z.ltb_ge _ 0)) by lia.
  rewrite (proj2 (Z.ltb_ge _ _)) by lia. rewrite wrap_small by lia. by rewrite Heq.
Qed.

#[export] Instance ws_codec_laws : CodecLaws ProtocalWebsocket ws_ok.
Proof.
  assert (Hr : forall data p, ws_ok p -> zlen data <= getMaxCacheSize p ->
    exists n, ws_decodeFrame data (zlen data) = (0, n) /\ 0 <= n <= zlen data).
  { intros data p [_ Hok] Hd. unfold getMaxCacheSize in Hd. simpl in Hd.
    pose proof (zlen_nonneg data).
    destruct (ws_decode_range data (zlen data)) as (n & ? & ? & _); [lia|]. eauto. }
  split; simpl; try done.
  - intros data p. unfold ws_decodeFrame. by repeat case_match.
  - intros data p Hok Hd. destruct (Hr data p Hok Hd) as (n & -> & ?). simpl. lia.
  - intros data p Hok Hd. destruct (Hr data p Hok Hd) as (n & -> & ?). simpl. lia.
  - intros data p Hok Hd. destruct (Hr data p Hok Hd) as (n & -> & ?). simpl.
    destruct Hok as [? _]. unfold getMaxFrameSize. simpl. lia.
Qed.

(** *** What [packetFrame] produces *)

Definition ws_head (use_mask : bool) (key : list Z) (t : WS_FrameType) (fin : bool) (len : Z)
  : list Z :=
  [Z.lor (Z.land (frame_type_value t) 15) (if fin then 128 else 0);
   Z.lor (if use_mask then 128 else 0) (length_fields len).1] ++ (length_fields len).2 ++
  (if use_mask then key else []).

Definition ws_body (use_mask : bool) (key payload : list Z) : list Z :=
  if use_mask then xor_mask key payload else payload.

Lemma replicate_split {A} (x : A) n1 n2 : replicate (n1 + n2) x = replicate n1 x ++ replicate n2 x.
Proof. apply replicate_add. Qed.

Lemma packetFrame_spec payload (use_mask : bool) key t fin :
  zlen key = 4 -> zlen payload + 14 < 2 ^ 32 - 1 ->
  ws_packetFrame payload use_mask key t fin
  = Some (ws_head use_mask key t fin (zlen payload) ++ ws_body use_mask key payload).
Proof.
  intros Hk Hl. pose proof (zlen_nonneg payload) as Hp. unfold ws_packetFrame.
  rewrite (take_ge key 4) by (unfold zlen in Hk; lia).
  set (head := ws_head use_mask key t fin (zlen payload)).
  destruct (length_fields (zlen payload)) as [plen ext] eqn:Hf.
  assert (Hext : zlen ext <= 8).
  { unfold length_fields in Hf. repeat case_match; simplify_eq; vm_compute; congruence. }
  assert (Hhead : zlen head = 2 + zlen ext + (if use_mask then 4 else 0)).
  { unfold head, ws_head. rewrite Hf, !zlen_app. simpl. destruct use_mask; [rewrite Hk|];
      unfold zlen; simpl; lia. }
  pose proof (zlen_nonneg ext).
  rewrite (wrap_small 32) by (destruct use_mask; lia).
  rewrite (wrap_small 32) by (destruct use_mask; lia).
  rewrite <- Hhead.
  change ([Z.lor (Z.land (frame_type_value t) 15) (if fin then 128 else 0);
     Z.lor (if use_mask then 128 else 0) plen] ++ ext ++ (if use_mask then key else []))
    with ([Z.lor (Z.land (frame_type_value t) 15) (if fin then 128 else 0);
     Z.lor (if use_mask then 128 else 0) (plen, ext).1] ++ (plen, ext).2
      ++ (if use_mask then key else [])).
  rewrite <- Hf. fold (ws_head use_mask key t fin (zlen payload)). fold head. clearbody head. clear Hf Hext.
  assert (Hrep : replicate (Z.to_nat (zlen head + zlen payload + 1)) 0
    = [] ++ replicate (length head) 0 ++ replicate (length payload) 0 ++ [0]).
  { change [0] with (replicate 1 0). rewrite <- !replicate_add, app_nil_l. f_equal.
    unfold zlen. lia. }
  rewrite Hrep. change (memcpy_at ([] ++ ?b) 0 head) with (memcpy_at ([] ++ b) (zlen (@nil Z)) head).
  rewrite memcpy_at_mid by (unfold zlen; by rewrite length_replicate).
  cbn [mbind option_bind]. rewrite app_nil_l.
  assert (Hcopy : (if 0 <? zlen payload
     then memcpy_at (head ++ replicate (length payload) 0 ++ [0]) (zlen head) payload
     else Some (head ++ replicate (length payload) 0 ++ [0])) = Some (head ++ payload ++ [0])).
  { destruct (Z.ltb_spec 0 (zlen payload)).
    - apply memcpy_at_mid. unfold zlen. by rewrite length_replicate.
    - assert (payload = []) as -> by (apply zlen_0_nil; lia). done. }
  rewrite Hcopy. cbn [mbind option_bind].
  assert (Hmask : (if use_mask
     then data ← memread (head ++ payload ++ [0]) (zlen head) (zlen payload);
          memcpy_at (head ++ payload ++ [0]) (zlen head)
            (xor_mask (if use_mask then key else []) data)
     else Some (head ++ payload ++ [0])) = Some (head ++ ws_body use_mask key payload ++ [0])).
  { destruct use_mask; [|done]. rewrite memread_mid. cbn [mbind option_bind].
    by rewrite memcpy_at_mid by apply zlen_xor_mask. }
  rewrite Hmask. cbn [mbind option_bind]. f_equal. rewrite app_assoc.
  apply take_app_length'. rewrite length_app.
  assert (length (ws_body use_mask key payload) = length payload)
    by (destruct use_mask; [apply length_xor_mask|done]).
  unfold zlen. lia.
Qed.

Lemma len_byte (m : bool) plen :
  0 <= plen < 128 ->
  let b := u8 (Z.lor (if m then 128 else 0) plen) in
  (Z.land b 128 =? 128) = m /\ Z.land b 127 = plen.
Proof.
  intros Hp.
  assert (Hall : forallb (fun i => let b := u8 (Z.lor (if m then 128 else 0) i) in
    eqb (Z.land b 128 =? 128) m && (Z.land b 127 =? i)) (seqZ 0 128) = true)
    by (destruct m; vm_compute; reflexivity).
  rewrite forallb_forall in Hall. specialize (Hall plen).
  rewrite <- list_elem_of_In, elem_of_seqZ in Hall. specialize (Hall ltac:(lia)).
  apply andb_true_iff in Hall as [H1%eqb_prop H2%Z.eqb_eq]. done.
Qed.

Lemma type_byte t (fin : bool) :
  let b := u8 (Z.lor (Z.land (frame_type_value t) 15) (if fin then 128 else 0)) in
  (Z.land b 128 =? 128) = fin /\ Z.land b 15 = frame_type_value t.
Proof. by destruct t, fin. Qed.

Lemma u8_byte_of v s : u8 (byte_of v s) = byte_of v s.
Proof.
  apply wrap_small. unfold byte_of. change 255 with (Z.ones 8). rewrite Z.land_ones by lia.
  apply Z.mod_pos_bound. lia.
Qed.

Lemma byte_of_byte v s : is_byte (byte_of v s).
Proof. rewrite <- u8_byte_of. unfold is_byte. apply (wrap_range 8). lia. Qed.

(** The length field of the first byte pair, and the extended length. *)
Lemma length_fields_spec len :
  0 <= len < 2 ^ 32 -> len <> 65536 ->
  (length_fields len = (len, []) /\ len < 126) \/
  (length_fields len = (126, [byte_of len 8; byte_of len 0]) /\
   Z.lor (Z.shiftl (byte_of len 8) 8) (byte_of len 0) = len) \/
  (exists e0 e1 e2 e3, length_fields len
     = (127, [e0; e1; e2; e3; byte_of len 24; byte_of len 16; byte_of len 8; byte_of len 0]) /\
   Z.lor (Z.lor (Z.lor (Z.shiftl (byte_of len 24) 24) (Z.shiftl (byte_of len 16) 16))
     (Z.shiftl (byte_of len 8) 8)) (byte_of len 0) = len).
Proof.
  intros Hl Hne. unfold length_fields. destruct (Z.ltb_spec len 126); [left; done|right].
  destruct (Z.leb_spec len 65536).
  - left. rewrite (wrap_small 16) by lia. split; [done|].
    rewrite lor2 by apply byte_of_byte. rewrite !byte_of_spec by lia.
    change (2 ^ 8) with 256. change (2 ^ 0) with 1. rewrite Z.div_1_r.
    rewrite (Z.mod_small (len / 256)) by (split; [apply Z.div_pos|apply Z.div_lt_upper_bound]; lia).
    pose proof (Z.div_mod len 256). lia.
  - right. eexists _, _, _, _. split; [reflexivity|].
    rewrite lor4 by apply byte_of_byte. rewrite !byte_of_spec by lia.
    change (2 ^ 24) with (256 * 256 * 256). change (2 ^ 16) with (256 * 256).
    change (2 ^ 8) with 256. change (2 ^ 0) with 1. rewrite Z.div_1_r.
    rewrite <- !Z.div_div by lia.
    pose proof (Z.div_mod len 256). pose proof (Z.div_mod (len / 256) 256).
    pose proof (Z.div_mod (len / 256 / 256) 256).
    rewrite (Z.mod_small (len / 256 / 256 / 256)); [lia|].
    rewrite !Z.div_div by lia. split; [apply Z.div_pos|apply Z.div_lt_upper_bound]; lia.
Qed.

Lemma zlen_ws_head (m : bool) key t fin len :
  zlen key = 4 ->
  zlen (ws_head m key t fin len) = 2 + zlen (length_fields len).2 + (if m then 4 else 0).
Proof.
  intros Hk. unfold ws_head. rewrite !zlen_app. destruct m; [rewrite Hk|]; unfold zlen; simpl; lia.
Qed.

(** Decoding a header that [packetFrame] wrote. *)
Lemma decode_ws_head (m : bool) key t fin len rest L :
  zlen key = 4 -> bytes_ok key -> 0 <= len < 2 ^ 32 -> len <> 65536 ->
  zlen (ws_head m key t fin len) <= L ->
  ws_decodeFrameHeader (ws_head m key t fin len ++ rest) L
  = mkWSHeader fin (frame_type_value t) m (length_fields len).1 (if m then key else [])
      (zlen (ws_head m key t fin len)) len.
Proof.
  intros Hk Hkb Hl Hne. rewrite zlen_ws_head by done. intros HL.
  destruct key as [|k0 [|k1 [|k2 [|k3 [|? ?]]]]]; try (unfold zlen in Hk; simpl in Hk; lia).
  assert (Hkey : u8 k0 = k0 /\ u8 k1 = k1 /\ u8 k2 = k2 /\ u8 k3 = k3).
  { repeat (apply Forall_cons in Hkb as [? Hkb]). unfold is_byte in *.
    rewrite !wrap_small by lia. done. }
  destruct Hkey as (K0 & K1 & K2 & K3).
  assert (Hb1 : 0 <= (length_fields len).1 < 128)
    by (unfold length_fields; repeat case_match; simpl; lia).
  destruct (len_byte m _ Hb1) as [B1 B2]. destruct (type_byte t fin) as [T1 T2].
  unfold ws_decodeFrameHeader, raw_at. unfold ws_head in *.
  destruct (length_fields_spec len Hl Hne)
    as [[Hf Hs]|[[Hf Hs]|(e0 & e1 & e2 & e3 & Hf & Hs)]]; rewrite Hf in *; cbn [fst snd] in *;
    cbn [app nth]; rewrite B1, B2, T1, T2; destruct m; cbn [app nth Nat.add].
  - rewrite (proj2 (Z.ltb_lt _ _)) by lia. cbn [app nth Nat.add].
    rewrite (proj2 (Z.ltb_ge _ _)) by (unfold zlen in *; simpl in *; lia).
    rewrite K0, K1, K2, K3. done.
  - rewrite (proj2 (Z.ltb_lt _ _)) by lia. done.
  - change (126 <? 126) with false. change (126 =? 126) with true. cbv iota.
    rewrite (proj2 (Z.ltb_ge _ _)) by (unfold zlen in *; simpl in *; lia).
    cbn [app nth Nat.add].
    rewrite (proj2 (Z.ltb_ge _ _)) by (unfold zlen in *; simpl in *; lia).
    rewrite !u8_byte_of, Hs, K0, K1, K2, K3. done.
  - change (126 <? 126) with false. change (126 =? 126) with true. cbv iota.
    rewrite (proj2 (Z.ltb_ge _ _)) by (unfold zlen in *; simpl in *; lia).
    rewrite !u8_byte_of, Hs. done.
  - change (127 <? 126) with false. change (127 =? 126) with false. cbv iota.
    rewrite (proj2 (Z.ltb_ge _ _)) by (unfold zlen in *; simpl in *; lia).
    cbn [app nth Nat.add].
    rewrite (proj2 (Z.ltb_ge _ _)) by (unfold zlen in *; simpl in *; lia).
    rewrite !u8_byte_of, Hs, K0, K1, K2, K3. done.
  - change (127 <? 126) with false. change (127 =? 126) with false. cbv iota.
    rewrite (proj2 (Z.ltb_ge _ _)) by (unfold zlen in *; simpl in *; lia).
    rewrite !u8_byte_of, Hs. done.
Qed.

(** ** Properties *)

(** What [packetFrame] writes, on the wire and for its receiver. *)
Lemma ws_exchange cfg payload (use_mask : bool) key t fin :
  zlen key = 4 -> bytes_ok key -> zlen payload <> 65536 ->
  zlen payload + 14 <= max_frame_size cfg -> max_frame_size cfg < 2 ^ 32 - 1 ->
  let f := ws_head use_mask key t fin (zlen payload) ++ ws_body use_mask key payload in
    ws_packetFrame payload use_mask key t fin = Some f /\
    wire_frame ws_ok cfg f /\
    ws_recv_frame f = Some (mkWSHeader fin (frame_type_value t) use_mask
      (length_fields (zlen payload)).1 (if use_mask then key else [])
      (zlen f - zlen payload) (zlen payload), payload).
Proof.
  intros Hk Hkb Hne Hm Hm2. pose proof (zlen_nonneg payload) as Hp.
  cbv zeta. split; [by apply packetFrame_spec; [|lia]|].
  set (head := ws_head use_mask key t fin (zlen payload)).
  set (body := ws_body use_mask key payload).
  assert (Hbl : zlen body = zlen payload)
    by (unfold body, ws_body; destruct use_mask; [apply zlen_xor_mask|done]).
  assert (Hhl : 2 <= zlen head <= 14).
  { unfold head. rewrite zlen_ws_head by done. unfold length_fields.
    repeat case_match; unfold zlen; simpl; lia. }
  assert (Hdec : forall more L, zlen head <= L ->
    ws_decodeFrameHeader (head ++ more) L = mkWSHeader fin (frame_type_value t) use_mask
      (length_fields (zlen payload)).1 (if use_mask then key else []) (zlen head) (zlen payload))
    by (intros more L HL; apply decode_ws_head; [done|done|lia|done|done]).
  assert (Hwhole : forall more, zlen (head ++ body ++ more) < 2 ^ 32 ->
    ws_decodeFrame (head ++ body ++ more) (zlen (head ++ body ++ more))
    = (0, zlen (head ++ body))).
  { intros more Hlt. pose proof (zlen_nonneg more). rewrite !zlen_app in *.
    unfold ws_decodeFrame. rewrite Hdec by lia. cbn [actual_header_len actual_payload_len].
    unfold ws_minProtocalSize. rewrite !(proj2 (Z.ltb_ge _ _)) by lia.
    rewrite wrap_small by lia. by rewrite Hbl. }
  split; [split; [rewrite zlen_app; lia|split]|].
  - intros k p [_ Hcap] Hcfg Hk'. cbn [decodeFrame ws_codec fst].
    set (f := head ++ body) in *. set (d := take (Z.to_nat k) f).
    assert (Hld : zlen d = k) by (unfold d, zlen in *; rewrite length_take; lia).
    assert (Hlf : zlen f = zlen head + zlen payload) by (unfold f; rewrite zlen_app; lia).
    destruct (ws_decode_range d (zlen d)) as (n & Hn & Hnk & _); [lia|].
    destruct (decide (n = 0)) as [->|Hn0]; [exact Hn|]. exfalso.
    pose proof (ws_decode_stable d (drop (Z.to_nat k) f) n) as Hst.
    assert (Hdf : d ++ drop (Z.to_nat k) f = f) by apply take_drop. rewrite Hdf in Hst.
    specialize (Hwhole []). rewrite app_nil_r in Hwhole. fold f in Hwhole.
    rewrite Hst in Hwhole by (done || lia). injection Hwhole as Hw; [lia|lia].
  - intros more p [_ Hcap] Hcfg Hl. cbn [decodeFrame ws_codec fst].
    rewrite <- app_assoc in *. apply Hwhole. simpl in *. rewrite <- Hcfg in Hl. lia.
  - unfold ws_recv_frame, ws_bufferToFrame. rewrite Hdec by (rewrite zlen_app; lia).
    cbn [actual_header_len actual_payload_len MASK Masking_key]. rewrite zlen_app, Hbl.
    unfold ws_minProtocalSize. rewrite !(proj2 (Z.ltb_ge _ _)) by lia.
    cbn [mbind option_bind actual_header_len actual_payload_len MASK Masking_key].
    replace (Z.to_nat (zlen head)) with (length head) by (unfold zlen; lia).
    rewrite drop_app_length, take_ge by (unfold zlen in *; lia).
    replace (zlen head + zlen payload - zlen payload) with (zlen head) by lia.
    do 2 f_equal. unfold body, ws_body. destruct use_mask; [apply xor_mask_involutive|done].
Qed.

(** Round trip.  For every payload whose length is not 65536 and which, with
    its header, fits a frame, every frame type and [FIN] bit, masked or not:
    [packetFrame] copies within its buffer and produces a wire frame (every
    strict prefix is incomplete, the whole is recognised whatever follows), and
    a receiver gets back the type, the bits, the key and the unmasked payload. *)
Theorem ws_round_trip cfg payload (use_mask : bool) key t fin :
  zlen key = 4 -> bytes_ok key -> zlen payload <> 65536 ->
  zlen payload + 14 <= max_frame_size cfg -> max_frame_size cfg < 2 ^ 32 - 1 ->
  exists f, ws_packetFrame payload use_mask key t fin = Some f /\
    wire_frame ws_ok cfg f /\
    ws_recv_frame f = Some (mkWSHeader fin (frame_type_value t) use_mask
      (length_fields (zlen payload)).1 (if use_mask then key else [])
      (zlen f - zlen payload) (zlen payload), payload).
Proof. intros. eexists. by apply (ws_exchange cfg). Qed.

Lemma ws_round_trip_witness :
  exists f, ws_packetFrame [104; 105] true [1; 2; 3; 4] WS_TEXT_FRAME true = Some f /\
    ws_recv_frame f = Some (mkWSHeader true 1 true 2 [1; 2; 3; 4] 6 2, [104; 105]).
Proof.
  destruct (ws_round_trip (new_ProtocalBase 1000 true 100 50) [104; 105] true [1; 2; 3; 4]
              WS_TEXT_FRAME true) as (f & H1 & _ & H2).
  - reflexivity.
  - repeat constructor; vm_compute; congruence.
  - vm_compute. congruence.
  - vm_compute. congruence.
  - reflexivity.
  - exists f. vm_compute in H1. injection H1 as <-. split; [reflexivity|exact H2].
Defined.

(** A payload of exactly 65536 bytes is announced as empty: the length goes
    through a [uint16_t].  Whatever the payload, the receiver recognises a frame
    that ends with the header, and takes the payload bytes for further frames. *)
Theorem ws_65536_bytes_announced_empty payload (use_mask : bool) key t fin :
  zlen key = 4 -> bytes_ok key -> zlen payload = 65536 ->
  exists head body, ws_packetFrame payload use_mask key t fin = Some (head ++ body) /\
    zlen body = 65536 /\
    ws_decodeFrame (head ++ body) (zlen (head ++ body)) = (0, zlen head).
Proof.
  intros Hk Hkb Hlen.
  exists (ws_head use_mask key t fin (zlen payload)), (ws_body use_mask key payload).
  split; [apply packetFrame_spec; [done|lia]|].
  assert (Hbl : zlen (ws_body use_mask key payload) = 65536)
    by (unfold ws_body; destruct use_mask; [by rewrite zlen_xor_mask|done]).
  split; [done|]. rewrite Hlen.
  destruct key as [|k0 [|k1 [|k2 [|k3 [|? ?]]]]]; try (unfold zlen in Hk; simpl in Hk; lia).
  destruct (type_byte t fin) as [T1 T2]. rewrite zlen_app, Hbl, zlen_ws_head by done.
  change (zlen (length_fields 65536).2) with 2.
  unfold ws_decodeFrame, ws_decodeFrameHeader, raw_at, ws_head, ws_minProtocalSize.
  destruct use_mask; cbn [app nth]; change (length_fields 65536) with (126, [0; 0]);
    cbn [app nth fst snd]; destruct (len_byte true 126 ltac:(lia)) as [B1 B2];
    destruct (len_byte false 126 ltac:(lia)) as [B3 B4]; cbn [fst snd] in *.
  - rewrite B1, B2. reflexivity.
  - rewrite B3, B4. reflexivity.
Qed.

Lemma ws_65536_bytes_announced_empty_witness :
  exists head body,
    ws_packetFrame (replicate (Z.to_nat 65536) 7) false [0; 0; 0; 0] WS_BINARY_FRAME true
      = Some (head ++ body) /\ zlen body = 65536 /\
    ws_decodeFrame (head ++ body) (zlen (head ++ body)) = (0, zlen head).
Proof.
  apply (ws_65536_bytes_announced_empty (replicate (Z.to_nat 65536) 7) false [0; 0; 0; 0]
           WS_BINARY_FRAME true).
  - reflexivity.
  - repeat constructor; vm_compute; congruence.
  - rewrite zlen_replicate. lia.
Defined.

(** The verdict on a buffer depends on its first [len] bytes only, whatever
    follows them in memory, although for a header with a 64-bit length the
    decoder reads up to four bytes past [len] (it checks for four of the eight
    length bytes); and a recognised frame lies within the [len] bytes. *)
Theorem ws_decode_bounded d more1 more2 :
  zlen d < 2 ^ 32 ->
  ws_decodeFrame (d ++ more1) (zlen d) = ws_decodeFrame (d ++ more2) (zlen d) /\
  0 <= (ws_decodeFrame (d ++ more1) (zlen d)).2 <= zlen d.
Proof.
  intros Hl. pose proof (zlen_nonneg d). split.
  2: { destruct (ws_decode_range (d ++ more1) (zlen d)) as (n & -> & Hn & _); [lia|done]. }
  unfold ws_decodeFrame, ws_minProtocalSize. destruct (Z.ltb_spec (zlen d) 2); [done|].
  pose proof (payload_len_range (d ++ more1) (zlen d)) as [_ P1].
  pose proof (payload_len_range (d ++ more2) (zlen d)) as [_ P2].
  unfold ws_decodeFrameHeader in *.
  rewrite !(raw_app 0), !(raw_app 1) in * by (simpl; lia).
  set (plen := Z.land (raw_at d 1) 127) in *.
  destruct (Z.ltb_spec (zlen d) 10);
  destruct (Z.land (raw_at d 1) 128 =? 128), (plen <? 126), (plen =? 126);
    repeat len_case; cbn [actual_header_len actual_payload_len Z.of_nat] in *;
    repeat len_case; try done;
    try specialize (P1 ltac:(lia)); try specialize (P2 ltac:(lia)); try lia;
    rewrite ?raw_app in * by (simpl in *; lia); reflexivity || lia.
Qed.

Lemma ws_decode_bounded_witness :
  ws_decodeFrame ([130; 127; 0; 0; 0; 0] ++ [0; 0; 0; 1]) 6
  = ws_decodeFrame ([130; 127; 0; 0; 0; 0] ++ [9; 9; 9; 9]) 6.
Proof. apply (ws_decode_bounded [130; 127; 0; 0; 0; 0] [0; 0; 0; 1] [9; 9; 9; 9]). reflexivity. Defined.
