(* ===== verification/Scheduler.v ===== *)
(** I/O channels and the two pollers ([src/core/io-channel.cpp],
    [epoll-task-scheduler.cpp], [select-task-scheduler.cpp], and
    [TaskScheduler::checkAndGetChannelByFd] of [task-scheduler.cpp]).

    A poller keeps [channelsMap], from descriptors to weak references of
    channels, next to what the kernel was told: the epoll interest list, or
    the three [fd_set]s.  A weak reference is the identity of the channel and
    locks when the object is among the live ones.  [Poller] is the interface
    the connections use: a poller stands for the map [interest] from
    descriptors to (channel, events). *)
From S2P Require Import Prelude.

(** ** Channels *)

Definition EVENT_NONE : Z := 0.
Definition EVENT_IN : Z := 1.
Definition EVENT_PRI : Z := 2.
Definition EVENT_OUT : Z := 4.
Definition EVENT_ERR : Z := 8.
Definition EVENT_HUP : Z := 16.
Definition INVALID_SOCKET : Z := -1.

Record IoChannel := mkChannel {
  ch_id : positive;
  ch_fd : Z;
  events : Z
}.

Definition set_events (e : Z) (c : IoChannel) : IoChannel := mkChannel (ch_id c) (ch_fd c) e.
Definition enableReading (c : IoChannel) : IoChannel := set_events (Z.lor (events c) EVENT_IN) c.
Definition enablWriting (c : IoChannel) : IoChannel := set_events (Z.lor (events c) EVENT_OUT) c.
Definition disableReading (c : IoChannel) : IoChannel :=
  set_events (Z.land (events c) (Z.lnot EVENT_IN)) c.
Definition disableWriting (c : IoChannel) : IoChannel :=
  set_events (Z.land (events c) (Z.lnot EVENT_OUT)) c.
Definition isReading (c : IoChannel) : bool := negb (Z.land (events c) EVENT_IN =? EVENT_NONE).
Definition isWriting (c : IoChannel) : bool := negb (Z.land (events c) EVENT_OUT =? EVENT_NONE).
Definition isNoneEvent (c : IoChannel) : bool := events c =? EVENT_NONE.
Definition rleaseFd (c : IoChannel) : IoChannel := mkChannel (ch_id c) INVALID_SOCKET (events c).
Definition new_IoChannel (id : positive) (fd : Z) : IoChannel := mkChannel id fd EVENT_NONE.

(** The signals a channel emits. *)
Inductive io_signal := bytesReady | closeEvent | errorEvent | writeReady.

(** [IoChannel::handleIoEvent]: the signals emitted, in order; a hang-up or an
    error ends the handling. *)
Definition handleIoEvent (e : Z) : list io_signal :=
  (if negb (Z.land e EVENT_IN =? 0) || negb (Z.land e EVENT_PRI =? 0) then [bytesReady] else []) ++
  (if negb (Z.land e EVENT_HUP =? 0) then [closeEvent]
   else if negb (Z.land e EVENT_ERR =? 0) then [errorEvent]
   else if negb (Z.land e EVENT_OUT =? 0) then [writeReady] else []).

(** A channel only ever asks for input and output. *)
Definition channel_ok (c : IoChannel) : Prop :=
  events c = Z.lor (if isReading c then EVENT_IN else 0) (if isWriting c then EVENT_OUT else 0).

(** ** The interface *)

Class Poller (T : Type) := {
  updateChannel : IoChannel -> T -> option T;
  removeChannel : Z -> T -> T;
  checkAndGetChannelByFd : Z -> T -> option positive * T;
  interest : T -> gmap Z (positive * Z);
  live : T -> gset positive;
  poller_ok : T -> Prop;
  fd_ok : Z -> Prop
}.

(** No other channel is registered under the descriptor. *)
Definition no_other `{Poller T} (c : IoChannel) (s : T) : Prop :=
  forall id e, interest s !! ch_fd c = Some (id, e) -> id = ch_id c.

Class PollerLaws (T : Type) `{Poller T} := {
  fd_ok_valid : forall fd, fd_ok fd -> fd <> INVALID_SOCKET;
  update_spec : forall c s, poller_ok s -> channel_ok c -> fd_ok (ch_fd c) -> no_other c s ->
    exists s', updateChannel c s = Some s' /\ poller_ok s' /\ live s' = live s /\
      interest s' = if isNoneEvent c then delete (ch_fd c) (interest s)
                    else <[ch_fd c := (ch_id c, events c)]> (interest s);
  remove_spec : forall fd s, poller_ok s ->
    poller_ok (removeChannel fd s) /\ live (removeChannel fd s) = live s /\
    interest (removeChannel fd s) = delete fd (interest s);
  check_spec : forall fd s, poller_ok s ->
    poller_ok (checkAndGetChannelByFd fd s).2 /\ live (checkAndGetChannelByFd fd s).2 = live s /\
    (checkAndGetChannelByFd fd s).1 =
      (match interest s !! fd with
       | Some (id, _) => if decide (id ∈ live s) then Some id else None
       | None => None
       end) /\
    interest (checkAndGetChannelByFd fd s).2 =
      (match interest s !! fd with
       | Some (id, _) => if decide (id ∈ live s) then interest s else delete fd (interest s)
       | None => interest s
       end)
}.

(** *** The event bits of a channel *)

Lemma channel_ok_cases c :
  channel_ok c <-> events c = 0 \/ events c = 1 \/ events c = 4 \/ events c = 5.
Proof.
  unfold channel_ok. split.
  - intros ->. destruct (isReading c), (isWriting c); vm_compute; auto.
  - unfold isReading, isWriting. intros [->|[->|[->| ->]]]; reflexivity.
Qed.

Ltac channel_bits c :=
  intros Hc%channel_ok_cases; destruct c as [id fd e]; simpl in Hc;
  unfold isReading, isWriting, isNoneEvent, enableReading, enablWriting, disableWriting, disableReading;
  simpl; rewrite ?channel_ok_cases; simpl;
  destruct Hc as [->|[->|[->| ->]]]; vm_compute; auto 10.

Lemma enablWriting_bits c :
  channel_ok c ->
  channel_ok (enablWriting c) /\ isWriting (enablWriting c) = true /\
  isReading (enablWriting c) = isReading c /\ isNoneEvent (enablWriting c) = false.
Proof. channel_bits c. Qed.

Lemma disableWriting_bits c :
  channel_ok c ->
  channel_ok (disableWriting c) /\ isWriting (disableWriting c) = false /\
  isReading (disableWriting c) = isReading c /\
  isNoneEvent (disableWriting c) = negb (isReading c).
Proof. channel_bits c. Qed.

Lemma enableReading_bits c :
  channel_ok c ->
  channel_ok (enableReading c) /\ isReading (enableReading c) = true /\
  isWriting (enableReading c) = isWriting c /\ isNoneEvent (enableReading c) = false.
Proof. channel_bits c. Qed.

(** ** Operations of a channel on its scheduler *)

Section ChannelOps.
Context {T : Type} `{Poller T}.

(** [IoChannel::sync] and [IoChannel::stop], on the scheduler's own thread. *)
Definition sync (c : IoChannel) (s : T) : option T :=
  if ch_fd c =? INVALID_SOCKET then Some s else updateChannel c s.

Definition stop (c : IoChannel) (s : T) : T :=
  if ch_fd c =? INVALID_SOCKET then s else removeChannel (ch_fd c) s.

(** The slots run for the signals of a channel: any code of the application. *)
Variable run : positive -> list io_signal -> T -> T.

(** The dispatch loop on (descriptor, events) pairs; a channel that was removed
    or destroyed by an earlier handler of the batch is skipped.  The log records
    each call with the state it was made in. *)
Fixpoint dispatch (ready : list (Z * Z)) (s : T) : list (Z * positive * Z * T) * T :=
  match ready with
  | [] => ([], s)
  | (fd, e) :: ready' =>
      let '(o, s1) := checkAndGetChannelByFd fd s in
      match o with
      | None => dispatch ready' s1
      | Some id =>
          let '(log, s2) := dispatch ready' (run id (handleIoEvent e) s1) in
          ((fd, id, e, s1) :: log, s2)
      end
  end.

End ChannelOps.

(** ** epoll *)

Inductive epoll_op := EPOLL_CTL_ADD | EPOLL_CTL_MOD | EPOLL_CTL_DEL.

Record EpollTaskScheduler := mkEpoll {
  e_channelsMap : gmap Z positive;
  e_kernel : gmap Z Z;          (* the interest list of epollFd *)
  e_live : gset positive;
  e_wakeups : N                 (* bytes written to wakeupPipe *)
}.

(** [EpolltTaskScheduler::update]: adding a registered descriptor and changing
    or deleting an unregistered one fail (EEXIST, ENOENT), and the failure is only logged.  The failures that depend on
    the kernel and not on the interest list (no memory, the limit on watches, a descriptor that cannot be
    polled) are assumed away. *)
Definition epoll_update (op : epoll_op) (fd e : Z) (s : EpollTaskScheduler)
  : EpollTaskScheduler :=
  let k := e_kernel s in
  let k' := match op, k !! fd with
            | EPOLL_CTL_ADD, None => <[fd := e]> k
            | EPOLL_CTL_MOD, Some _ => <[fd := e]> k
            | EPOLL_CTL_DEL, Some _ => delete fd k
            | _, _ => k
            end in
  mkEpoll (e_channelsMap s) k' (e_live s) (e_wakeups s).

Definition epoll_set_map (m : gmap Z positive) (s : EpollTaskScheduler) : EpollTaskScheduler :=
  mkEpoll m (e_kernel s) (e_live s) (e_wakeups s).

Definition epoll_wakeup (s : EpollTaskScheduler) : EpollTaskScheduler :=
  mkEpoll (e_channelsMap s) (e_kernel s) (e_live s) (e_wakeups s + 1).

(** [EpolltTaskScheduler::updateChannel] *)
Definition epoll_updateChannel (c : IoChannel) (s : EpollTaskScheduler) : EpollTaskScheduler :=
  let fd := ch_fd c in
  if fd =? INVALID_SOCKET then s else
  epoll_wakeup
    match e_channelsMap s !! fd with
    | None =>
        if negb (isNoneEvent c)
        then epoll_update EPOLL_CTL_ADD fd (events c)
               (epoll_set_map (<[fd := ch_id c]> (e_channelsMap s)) s)
        else s
    | Some _ =>
        if isNoneEvent c
        then epoll_set_map (delete fd (e_channelsMap s))
               (epoll_update EPOLL_CTL_DEL fd (events c) s)
        else epoll_update EPOLL_CTL_MOD fd (events c) s
    end.

(** [EpolltTaskScheduler::removeChannel] *)
Definition epoll_removeChannel (fd : Z) (s : EpollTaskScheduler) : EpollTaskScheduler :=
  epoll_wakeup
    match e_channelsMap s !! fd with
    | Some _ => epoll_set_map (delete fd (e_channelsMap s)) (epoll_update EPOLL_CTL_DEL fd 0 s)
    | None => s
    end.

(** [TaskScheduler::checkAndGetChannelByFd], with [EpolltTaskScheduler::clearFd] *)
Definition epoll_clearFd (fd : Z) (s : EpollTaskScheduler) : EpollTaskScheduler :=
  epoll_update EPOLL_CTL_DEL fd 0 s.

Definition epoll_checkAndGetChannelByFd (fd : Z) (s : EpollTaskScheduler)
  : option positive * EpollTaskScheduler :=
  match e_channelsMap s !! fd with
  | None => (None, s)
  | Some id =>
      if decide (id ∈ e_live s) then (Some id, s)
      else (None, epoll_clearFd fd (epoll_set_map (delete fd (e_channelsMap s)) s))
  end.

(** The map and the interest list describe the same descriptors. *)
Definition epoll_ok (s : EpollTaskScheduler) : Prop :=
  dom (e_channelsMap s) = dom (e_kernel s).

Definition pair_up (a : option positive) (b : option Z) : option (positive * Z) :=
  match a, b with Some x, Some y => Some (x, y) | _, _ => None end.

Definition epoll_interest (s : EpollTaskScheduler) : gmap Z (positive * Z) :=
  merge pair_up (e_channelsMap s) (e_kernel s).

#[export] Instance epoll_poller : Poller EpollTaskScheduler := {
  updateChannel := fun c s => Some (epoll_updateChannel c s);
  removeChannel := epoll_removeChannel;
  checkAndGetChannelByFd := epoll_checkAndGetChannelByFd;
  interest := epoll_interest;
  live := e_live;
  poller_ok := epoll_ok;
  fd_ok := fun fd => 0 <= fd
}.

(** ** select *)

Definition FD_SETSIZE : Z := 1024.

Record SelectTaskScheduler := mkSelect {
  s_channelsMap : gmap Z positive;
  read_sets : gset Z;
  write_sets : gset Z;
  exception_sets : gset Z;
  allfdSet : gset Z;
  s_live : gset positive;
  s_wakeups : N
}.

Definition select_wakeup (s : SelectTaskScheduler) : SelectTaskScheduler :=
  mkSelect (s_channelsMap s) (read_sets s) (write_sets s) (exception_sets s) (allfdSet s)
    (s_live s) (s_wakeups s + 1).

(** [SelectTaskScheduler::clearFd] *)
Definition select_clearFd (fd : Z) (s : SelectTaskScheduler) : SelectTaskScheduler :=
  mkSelect (s_channelsMap s) (read_sets s ∖ {[fd]}) (write_sets s ∖ {[fd]})
    (exception_sets s ∖ {[fd]}) (allfdSet s) (s_live s) (s_wakeups s).

(** The entry of [fd] and its bits dropped, as [updateChannel] and
    [removeChannel] both do. *)
Definition select_drop (fd : Z) (s : SelectTaskScheduler) : SelectTaskScheduler :=
  match s_channelsMap s !! fd with
  | None => s
  | Some _ =>
      let s1 := select_clearFd fd s in
      mkSelect (delete fd (s_channelsMap s1)) (read_sets s1) (write_sets s1) (exception_sets s1)
        (allfdSet s1 ∖ {[fd]}) (s_live s1) (s_wakeups s1)
  end.

(** [SelectTaskScheduler::updateChannel]; [None] is the write outside an
    [fd_set] that [FD_SET] makes for a descriptor of 1024 or more. *)
Definition select_updateChannel (c : IoChannel) (s : SelectTaskScheduler)
  : option SelectTaskScheduler :=
  let fd := ch_fd c in
  if fd =? INVALID_SOCKET then Some s else
  let s1 := select_drop fd s in
  if isNoneEvent c then Some (select_wakeup s1) else
  if bool_decide (0 <= fd < FD_SETSIZE)
  then Some (select_wakeup
    (mkSelect (<[fd := ch_id c]> (s_channelsMap s1))
       (if isReading c then {[fd]} ∪ read_sets s1 else read_sets s1)
       (if isWriting c then {[fd]} ∪ write_sets s1 else write_sets s1)
       ({[fd]} ∪ exception_sets s1) ({[fd]} ∪ allfdSet s1) (s_live s1) (s_wakeups s1)))
  else None.

(** [SelectTaskScheduler::removeChannel] *)
Definition select_removeChannel (fd : Z) (s : SelectTaskScheduler) : SelectTaskScheduler :=
  select_wakeup (select_drop fd s).

(** [TaskScheduler::checkAndGetChannelByFd], with [SelectTaskScheduler::clearFd]:
    the descriptor stays in [allfdSet]. *)
Definition select_checkAndGetChannelByFd (fd : Z) (s : SelectTaskScheduler)
  : option positive * SelectTaskScheduler :=
  match s_channelsMap s !! fd with
  | None => (None, s)
  | Some id =>
      if decide (id ∈ s_live s) then (Some id, s)
      else (None, select_clearFd fd
              (mkSelect (delete fd (s_channelsMap s)) (read_sets s) (write_sets s)
                 (exception_sets s) (allfdSet s) (s_live s) (s_wakeups s)))
  end.

(** The events of a descriptor according to the two sets. *)
Definition select_events (s : SelectTaskScheduler) (fd : Z) : Z :=
  Z.lor (if decide (fd ∈ read_sets s) then EVENT_IN else 0)
        (if decide (fd ∈ write_sets s) then EVENT_OUT else 0).

Definition select_interest (s : SelectTaskScheduler) : gmap Z (positive * Z) :=
  map_imap (fun fd id => Some (id, select_events s fd)) (s_channelsMap s).

(** The sets only hold descriptors of the map, which [allfdSet] covers. *)
Definition select_ok (s : SelectTaskScheduler) : Prop :=
  exception_sets s = dom (s_channelsMap s) /\
  read_sets s ⊆ dom (s_channelsMap s) /\ write_sets s ⊆ dom (s_channelsMap s) /\
  dom (s_channelsMap s) ⊆ allfdSet s /\
  (forall fd, fd ∈ allfdSet s -> 0 <= fd < FD_SETSIZE).

#[export] Instance select_poller : Poller SelectTaskScheduler := {
  updateChannel := select_updateChannel;
  removeChannel := select_removeChannel;
  checkAndGetChannelByFd := select_checkAndGetChannelByFd;
  interest := select_interest;
  live := s_live;
  poller_ok := select_ok;
  fd_ok := fun fd => 0 <= fd < FD_SETSIZE
}.

(** [SelectTaskScheduler::handleNetworkEvent]: [r], [w], [x] are the sets
    [select] left; the loop starts at descriptor 1. *)
Definition max_fd (s : SelectTaskScheduler) : Z :=
  if bool_decide (allfdSet s = ∅) then 1 else foldr Z.max 0 (elements (allfdSet s)).

Definition select_ready (r w x : gset Z) (s : SelectTaskScheduler) : list (Z * Z) :=
  map (fun fd =>
         (fd, Z.lor (Z.lor (if decide (fd ∈ r) then EVENT_IN else 0)
                           (if decide (fd ∈ w) then EVENT_OUT else 0))
                    (if decide (fd ∈ x) then EVENT_HUP else 0)))
      (seqZ 1 (max_fd s)).

Definition select_handleNetworkEvent (run : positive -> list io_signal -> SelectTaskScheduler ->
    SelectTaskScheduler) (r w x : gset Z) (s : SelectTaskScheduler)
  : list (Z * positive * Z * SelectTaskScheduler) * SelectTaskScheduler :=
  dispatch run (select_ready r w x s) s.

(** [EpolltTaskScheduler::handleNetworkEvent] on what [epoll_wait] returned. *)
Definition epoll_handleNetworkEvent (run : positive -> list io_signal -> EpollTaskScheduler ->
    EpollTaskScheduler) (ready : list (Z * Z)) (s : EpollTaskScheduler)
  : list (Z * positive * Z * EpollTaskScheduler) * EpollTaskScheduler :=
  dispatch run ready s.

(** ** Lemmas *)

Lemma interest_lookup_epoll s fd :
  epoll_interest s !! fd = pair_up (e_channelsMap s !! fd) (e_kernel s !! fd).
Proof. unfold epoll_interest. rewrite lookup_merge. by destruct (_ !! fd), (_ !! fd). Qed.

Lemma epoll_ok_lookup s fd :
  epoll_ok s -> is_Some (e_channelsMap s !! fd) <-> is_Some (e_kernel s !! fd).
Proof. intros Hok. rewrite <- !elem_of_dom. by rewrite Hok. Qed.

(** Either both tables have the descriptor or neither. *)
Lemma epoll_ok_cases s fd :
  epoll_ok s ->
  (exists id e, e_channelsMap s !! fd = Some id /\ e_kernel s !! fd = Some e /\
     epoll_interest s !! fd = Some (id, e)) \/
  (e_channelsMap s !! fd = None /\ e_kernel s !! fd = None /\ epoll_interest s !! fd = None).
Proof.
  intros Hok. pose proof (epoll_ok_lookup s fd Hok) as Hl. rewrite interest_lookup_epoll.
  destruct (e_channelsMap s !! fd) as [id|] eqn:H1, (e_kernel s !! fd) as [e|] eqn:H2; simpl.
  - left. eauto 6.
  - exfalso. destruct (proj1 Hl); [eauto|done].
  - exfalso. destruct (proj2 Hl); [eauto|done].
  - by right.
Qed.

(** Registering, changing and deleting entries of both tables together. *)
Lemma epoll_tables_insert m k l w fd id e :
  dom m = dom k ->
  epoll_ok (mkEpoll (<[fd := id]> m) (<[fd := e]> k) l w) /\
  epoll_interest (mkEpoll (<[fd := id]> m) (<[fd := e]> k) l w)
  = <[fd := (id, e)]> (epoll_interest (mkEpoll m k l w)).
Proof.
  intros Hd. unfold epoll_ok, epoll_interest. simpl. split; [set_solver|].
  by erewrite <- insert_merge.
Qed.

Lemma epoll_tables_delete m k l w fd :
  dom m = dom k ->
  epoll_ok (mkEpoll (delete fd m) (delete fd k) l w) /\
  epoll_interest (mkEpoll (delete fd m) (delete fd k) l w)
  = delete fd (epoll_interest (mkEpoll m k l w)).
Proof.
  intros Hd. unfold epoll_ok, epoll_interest. simpl. split; [set_solver|].
  by rewrite delete_merge.
Qed.

Lemma epoll_interest_wakeup s : epoll_interest (epoll_wakeup s) = epoll_interest s.
Proof. done. Qed.

#[export] Instance epoll_poller_laws : PollerLaws EpollTaskScheduler.
Proof.
  split; simpl; [unfold INVALID_SOCKET; lia|..].
  - intros c s Hok Hc Hfd Hno. unfold no_other in Hno. simpl in Hno.
    eexists. split; [reflexivity|].
    destruct (epoll_ok_cases s (ch_fd c) Hok) as [(id & e & H1 & H2 & H3)|(H1 & H2 & H3)];
      unfold epoll_updateChannel, epoll_update, epoll_set_map, epoll_wakeup;
      rewrite (proj2 (Z.eqb_neq _ _)) by (unfold INVALID_SOCKET; lia);
      destruct s as [m k l w]; simpl in *; rewrite H1, ?H2; destruct (isNoneEvent c); simpl;
      rewrite ?H2.
    + destruct (epoll_tables_delete m k l (w + 1) (ch_fd c) Hok). done.
    + specialize (Hno id e H3) as ->.
      destruct (epoll_tables_insert m k l (w + 1) (ch_fd c) (ch_id c) (events c) Hok) as [A B].
      rewrite (insert_id m) in A, B by done. done.
    + split; [done|]. split; [done|]. by rewrite delete_id by done.
    + destruct (epoll_tables_insert m k l (w + 1) (ch_fd c) (ch_id c) (events c) Hok). done.
  - intros fd s Hok. unfold epoll_removeChannel, epoll_update, epoll_set_map, epoll_wakeup.
    destruct (epoll_ok_cases s fd Hok) as [(id & e & H1 & H2 & H3)|(H1 & H2 & H3)];
      destruct s as [m k l w]; simpl in *; rewrite H1, ?H2; simpl.
    + destruct (epoll_tables_delete m k l (w + 1) fd Hok). done.
    + split; [done|]. split; [done|]. by rewrite delete_id.
  - intros fd s Hok. unfold epoll_checkAndGetChannelByFd, epoll_clearFd, epoll_update, epoll_set_map.
    destruct (epoll_ok_cases s fd Hok) as [(id & e & H1 & H2 & H3)|(H1 & H2 & H3)];
      destruct s as [m k l w]; simpl in *; rewrite H1, H3; simpl; [|done].
    destruct (decide (id ∈ l)); simpl; [done|]. rewrite H2.
    destruct (epoll_tables_delete m k l w fd Hok). done.
Qed.

(** *** select *)

Lemma interest_lookup_select s fd :
  select_interest s !! fd = (fun id => (id, select_events s fd)) <$> s_channelsMap s !! fd.
Proof. unfold select_interest. rewrite map_lookup_imap. by destruct (_ !! fd). Qed.

Lemma select_drop_spec fd s :
  select_ok s ->
  let s' := select_drop fd s in
  select_ok s' /\ s_live s' = s_live s /\ s_channelsMap s' = delete fd (s_channelsMap s) /\
  select_interest s' = delete fd (select_interest s) /\
  fd ∉ read_sets s' /\ fd ∉ write_sets s'.
Proof.
  intros (H1 & H2 & H3 & H4 & H5). unfold select_drop.
  destruct (s_channelsMap s !! fd) as [id|] eqn:Hl; simpl.
  - split; [|split; [done|split; [done|split; [|set_solver]]]].
    + unfold select_ok. simpl. rewrite dom_delete_L. set_solver.
    + apply map_eq. intros i. rewrite interest_lookup_select. simpl.
      destruct (decide (i = fd)) as [->|Hne]; [by rewrite !lookup_delete_eq|].
      rewrite !lookup_delete_ne, interest_lookup_select by done.
      destruct (s_channelsMap s !! i); simpl; [|done]. do 2 f_equal.
      unfold select_events. simpl. f_equal; repeat case_decide; set_solver.
  - assert (Hnd : fd ∉ dom (s_channelsMap s)) by (by apply not_elem_of_dom).
    split; [done|]. split; [done|]. split; [by rewrite delete_id|].
    split; [|set_solver]. rewrite delete_id; [done|]. by rewrite interest_lookup_select, Hl.
Qed.

Lemma channel_events_of c s fd :
  channel_ok c ->
  (fd ∈ read_sets s <-> isReading c = true) -> (fd ∈ write_sets s <-> isWriting c = true) ->
  select_events s fd = events c.
Proof.
  intros Hc Hr Hw. rewrite Hc. unfold select_events.
  f_equal; case_decide; destruct (isReading c), (isWriting c); tauto || done || intuition congruence.
Qed.

#[export] Instance select_poller_laws : PollerLaws SelectTaskScheduler.
Proof.
  split; simpl; [unfold INVALID_SOCKET; lia|..].
  - intros c s Hok Hc Hfd _. unfold select_updateChannel.
    rewrite (proj2 (Z.eqb_neq _ _)) by (unfold INVALID_SOCKET; lia).
    destruct (select_drop_spec (ch_fd c) s Hok) as (D1 & D2 & D3 & D4 & D5 & D6).
    set (s1 := select_drop (ch_fd c) s) in *.
    destruct (isNoneEvent c); [eexists; split; [done|]; done|].
    rewrite bool_decide_true by done. eexists. split; [reflexivity|].
    destruct D1 as (H1 & H2 & H3 & H4 & H5). split; [|split; [done|]].
    + unfold select_ok. simpl. rewrite dom_insert_L.
      destruct (isReading c), (isWriting c); repeat split; try set_solver;
        (intros Hin; first [intros Hx | idtac]); set_solver.
    + apply map_eq. intros i. rewrite interest_lookup_select. simpl.
      destruct (decide (i = ch_fd c)) as [->|Hne].
      * rewrite !lookup_insert_eq. simpl. do 2 f_equal. apply channel_events_of; [done|..]; simpl;
          destruct (isReading c), (isWriting c); set_solver.
      * rewrite !lookup_insert_ne by done. rewrite <- (lookup_delete_ne (select_interest s) (ch_fd c) i),
          <- D4, interest_lookup_select by done.
        destruct (s_channelsMap s1 !! i); simpl; [|done]. do 2 f_equal.
        unfold select_events. simpl.
        f_equal; repeat case_decide; destruct (isReading c), (isWriting c); set_solver.
  - intros fd s Hok. destruct (select_drop_spec fd s Hok) as (D1 & D2 & D3 & D4 & _). done.
  - intros fd s Hok. pose proof Hok as (H1 & H2 & H3 & H4 & H5).
    unfold select_checkAndGetChannelByFd. rewrite interest_lookup_select.
    destruct (s_channelsMap s !! fd) as [id|] eqn:Hl; simpl; [|done].
    destruct (decide (id ∈ s_live s)); simpl; [done|]. split; [|split; [done|split; [done|]]].
    + unfold select_ok. simpl. rewrite dom_delete_L. set_solver.
    + apply map_eq. intros i. rewrite interest_lookup_select. simpl.
      destruct (decide (i = fd)) as [->|Hne]; [by rewrite !lookup_delete_eq|].
      rewrite !lookup_delete_ne, interest_lookup_select by done.
      destruct (s_channelsMap s !! i); simpl; [|done]. do 2 f_equal.
      unfold select_events. simpl. f_equal; repeat case_decide; set_solver.
Qed.

(** ** Runs of a poller against the map it stands for *)

Inductive poll_op :=
  | OpUpdate (c : IoChannel)
  | OpRemove (fd : Z)
  | OpCheck (fd : Z).

Definition do_op `{Poller T} (op : poll_op) (s : T) : option T :=
  match op with
  | OpUpdate c => updateChannel c s
  | OpRemove fd => Some (removeChannel fd s)
  | OpCheck fd => Some (checkAndGetChannelByFd fd s).2
  end.

Fixpoint run_ops `{Poller T} (ops : list poll_op) (s : T) : option T :=
  match ops with
  | [] => Some s
  | op :: ops' => s' ← do_op op s; run_ops ops' s'
  end.

Definition spec_op (lv : gset positive) (op : poll_op) (m : gmap Z (positive * Z))
  : gmap Z (positive * Z) :=
  match op with
  | OpUpdate c =>
      if isNoneEvent c then delete (ch_fd c) m else <[ch_fd c := (ch_id c, events c)]> m
  | OpRemove fd => delete fd m
  | OpCheck fd =>
      match m !! fd with
      | Some (id, _) => if decide (id ∈ lv) then m else delete fd m
      | None => m
      end
  end.

Definition op_ok (valid : Z -> Prop) (op : poll_op) (m : gmap Z (positive * Z)) : Prop :=
  match op with
  | OpUpdate c => channel_ok c /\ valid (ch_fd c) /\
      forall id e, m !! ch_fd c = Some (id, e) -> id = ch_id c
  | _ => True
  end.

Fixpoint ops_ok (valid : Z -> Prop) (lv : gset positive) (ops : list poll_op)
    (m : gmap Z (positive * Z)) : Prop :=
  match ops with
  | [] => True
  | op :: ops' => op_ok valid op m /\ ops_ok valid lv ops' (spec_op lv op m)
  end.

Section Laws.
Context {T : Type} `{PollerLaws T}.

Lemma do_op_spec op s :
  poller_ok s -> op_ok fd_ok op (interest s) ->
  exists s', do_op op s = Some s' /\ poller_ok s' /\ live s' = live s /\
    interest s' = spec_op (live s) op (interest s).
Proof.
  intros Hok Hop. destruct op as [c|fd|fd]; simpl in *.
  - destruct Hop as (Hc & Hfd & Hno). by apply update_spec.
  - destruct (remove_spec fd s Hok) as (A & B & C). eauto.
  - destruct (check_spec fd s Hok) as (A & B & _ & D). eauto.
Qed.

Lemma run_ops_spec ops s :
  poller_ok s -> ops_ok fd_ok (live s) ops (interest s) ->
  exists s', run_ops ops s = Some s' /\ poller_ok s' /\ live s' = live s /\
    interest s' = foldl (fun m op => spec_op (live s) op m) (interest s) ops.
Proof.
  revert s. induction ops as [|op ops IH]; intros s Hok Hops; simpl in *; [by eauto|].
  destruct Hops as [Hop Hops].
  destruct (do_op_spec op s Hok Hop) as (s1 & -> & Hok1 & Hl1 & Hi1). simpl.
  rewrite <- Hi1, <- Hl1 in Hops. destruct (IH s1 Hok1 Hops) as (s' & -> & ? & ? & ?).
  exists s'. by rewrite <- Hi1, <- Hl1.
Qed.

(** Dispatch safety, for either poller and whatever the handlers do to it
    as long as they keep it well-formed: every call of [handleIoEvent] in a
    batch reaches a channel object that is alive and registered under that
    descriptor at the moment of the call, although the batch was collected
    before; and the poller is well-formed afterwards. *)
Theorem dispatch_safe (run : positive -> list io_signal -> T -> T) ready s :
  (forall id sg s0, poller_ok s0 -> poller_ok (run id sg s0)) -> poller_ok s ->
  poller_ok (dispatch run ready s).2 /\
  Forall (fun '(fd, id, e, s0) =>
            (fd, e) ∈ ready /\ id ∈ live s0 /\ exists ev, interest s0 !! fd = Some (id, ev))
         (dispatch run ready s).1.
Proof.
  intros Hrun. revert s. induction ready as [|[fd e] ready IH]; intros s Hok; simpl; [done|].
  destruct (check_spec fd s Hok) as (Hok1 & Hl1 & Hget & Hi1).
  destruct (checkAndGetChannelByFd fd s) as [o s1]. simpl in *.
  assert (Hmono : forall l : list (Z * positive * Z * T),
    Forall (fun '(fd0, id, e0, s0) => (fd0, e0) ∈ ready /\ id ∈ live s0 /\
              exists ev, interest s0 !! fd0 = Some (id, ev)) l ->
    Forall (fun '(fd0, id, e0, s0) => (fd0, e0) ∈ (fd, e) :: ready /\ id ∈ live s0 /\
              exists ev, interest s0 !! fd0 = Some (id, ev)) l).
  { intros l Hl. eapply Forall_impl; [exact Hl|]. intros [[[??]?]?] (?&?&?).
    split; [by right|done]. }
  destruct o as [id|].
  - destruct (IH (run id (handleIoEvent e) s1)) as [A B]; [by apply Hrun|].
    destruct (dispatch run ready (run id (handleIoEvent e) s1)) as [log s2]. simpl in *.
    split; [done|]. constructor; [|by apply Hmono].
    split; [left|]. destruct (interest s !! fd) as [[id' ev]|] eqn:Hi; [|done].
    case_decide; simplify_eq. rewrite Hl1, Hi1. eauto.
  - destruct (IH s1 Hok1). auto.
Qed.

End Laws.

Definition epoll_empty (lv : gset positive) : EpollTaskScheduler := mkEpoll ∅ ∅ lv 0.
Definition select_empty (lv : gset positive) : SelectTaskScheduler :=
  mkSelect ∅ ∅ ∅ ∅ ∅ lv 0.

Lemma empty_ok lv : epoll_ok (epoll_empty lv) /\ select_ok (select_empty lv).
Proof. unfold epoll_ok, select_ok. simpl. set_solver. Qed.

Lemma dispatch_safe_witness :
  poller_ok (epoll_empty {[1%positive]}) /\
  poller_ok (dispatch (fun _ _ s => s) [(5, 1)] (epoll_empty {[1%positive]})).2.
Proof.
  split; [apply empty_ok|].
  apply (dispatch_safe (fun _ _ s => s) [(5, 1)] (epoll_empty {[1%positive]}));
    [done|apply empty_ok].
Defined.

(** C6. The two pollers implement the same map.  For every sequence of
    registrations, removals and lookups of descriptors that fit an [fd_set],
    in which a descriptor is not registered for a second channel while the
    first is registered, neither poller fails, and both stand for the map the
    specification computes; in particular they agree with each other. *)
Theorem pollers_agree lv ops :
  ops_ok (fun fd => 0 <= fd < FD_SETSIZE) lv ops ∅ ->
  exists se ss,
    run_ops ops (epoll_empty lv) = Some se /\ run_ops ops (select_empty lv) = Some ss /\
    epoll_interest se = foldl (fun m op => spec_op lv op m) ∅ ops /\
    select_interest ss = epoll_interest se.
Proof.
  intros Hops. destruct (empty_ok lv) as [He Hs].
  assert (Hie : epoll_interest (epoll_empty lv) = ∅) by done.
  assert (His : select_interest (select_empty lv) = ∅) by done.
  assert (Hweak : forall m, ops_ok (fun fd => 0 <= fd < FD_SETSIZE) lv ops m ->
                            ops_ok (fun fd => 0 <= fd) lv ops m).
  { clear. induction ops as [|op ops IH]; simpl; [done|]. intros m [Hop Hops].
    split; [|by apply IH]. destruct op; simpl in *; intuition. }
  destruct (run_ops_spec ops (epoll_empty lv)) as (se & -> & _ & _ & Hse);
    [done|simpl; rewrite Hie; by apply Hweak|].
  destruct (run_ops_spec ops (select_empty lv)) as (ss & -> & _ & _ & Hss);
    [done|simpl; by rewrite His|].
  exists se, ss. simpl in *. rewrite Hie in Hse. rewrite His in Hss. by rewrite Hss, Hse.
Qed.

Lemma pollers_agree_witness :
  let ops := [OpUpdate (mkChannel 1 7 5); OpRemove 7; OpUpdate (mkChannel 2 7 1)] in
  ops_ok (fun fd => 0 <= fd < FD_SETSIZE) ∅ ops ∅ /\
  exists se ss,
    run_ops ops (epoll_empty ∅) = Some se /\ run_ops ops (select_empty ∅) = Some ss /\
    epoll_interest se = foldl (fun m op => spec_op ∅ op m) ∅ ops /\
    select_interest ss = epoll_interest se.
Proof.
  assert (H : ops_ok (fun fd => 0 <= fd < FD_SETSIZE) ∅
    [OpUpdate (mkChannel 1 7 5); OpRemove 7; OpUpdate (mkChannel 2 7 1)] ∅).
  { repeat split; try (unfold FD_SETSIZE; simpl; lia); done. }
  split; [exact H|].
  exact (pollers_agree ∅ [OpUpdate (mkChannel 1 7 5); OpRemove 7; OpUpdate (mkChannel 2 7 1)] H).
Defined.

(** Without that discipline the epoll poller loses a registration: when a
    descriptor is registered for a new channel while an entry of a destroyed
    channel is still there, [updateChannel] changes the kernel's events but
    keeps the old weak reference, and the next event unregisters the
    descriptor instead of reaching the new channel. *)
Theorem epoll_stale_registration (c : IoChannel) (old : positive) (ev : Z) s :
  epoll_ok s -> e_channelsMap s !! ch_fd c = Some old -> old ∉ e_live s ->
  ch_id c ∈ e_live s -> isNoneEvent c = false -> 0 <= ch_fd c ->
  forall run,
  let s1 := epoll_updateChannel c s in
  e_kernel s1 !! ch_fd c = Some (events c) /\
  (epoll_handleNetworkEvent run [(ch_fd c, ev)] s1).1 = [] /\
  epoll_interest (epoll_handleNetworkEvent run [(ch_fd c, ev)] s1).2 !! ch_fd c = None.
Proof.
  intros Hok Hm Hold Hnew Hne Hfd run s1.
  destruct (epoll_ok_cases s (ch_fd c) Hok) as [(id & e & H1 & H2 & H3)|(H1 & _)]; [|congruence].
  rewrite Hm in H1. injection H1 as <-.
  assert (Hs1 : s1 = mkEpoll (e_channelsMap s) (<[ch_fd c := events c]> (e_kernel s)) (e_live s)
                       (e_wakeups s + 1)).
  { unfold s1, epoll_updateChannel. rewrite (proj2 (Z.eqb_neq _ _)) by (unfold INVALID_SOCKET; lia).
    rewrite Hm, Hne. unfold epoll_update, epoll_wakeup. by rewrite H2. }
  rewrite Hs1. simpl. split; [by rewrite lookup_insert_eq|].
  unfold epoll_handleNetworkEvent. simpl. unfold epoll_checkAndGetChannelByFd. simpl.
  rewrite Hm. rewrite decide_False by done. simpl. split; [done|].
  rewrite interest_lookup_epoll. unfold epoll_clearFd, epoll_update. simpl.
  by rewrite lookup_delete_eq.
Qed.

Lemma epoll_stale_registration_witness :
  let c := mkChannel 2 7 1 in
  let s := mkEpoll {[7 := 1%positive]} {[7 := 1]} {[2%positive]} 0 in
  epoll_ok s /\ (epoll_handleNetworkEvent (fun _ _ s => s) [(7, 1)] (epoll_updateChannel c s)).1 = [].
Proof.
  assert (H : epoll_ok (mkEpoll {[7 := 1%positive]} {[7 := 1]} {[2%positive]} 0))
    by (unfold epoll_ok; simpl; set_solver).
  split; [exact H|].
  apply (epoll_stale_registration (mkChannel 2 7 1) 1 1
           (mkEpoll {[7 := 1%positive]} {[7 := 1]} {[2%positive]} 0) H);
    [reflexivity|simpl; set_solver|simpl; set_solver|reflexivity|simpl; lia].
Defined.

(** A batch only leads to calls for the descriptors it lists. *)
Lemma dispatch_from_ready `{Poller T} run (Q : Z -> Prop) ready (s : T) :
  Forall (fun f : Z * Z => Q f.1) ready ->
  Forall (fun '(fd, id, e, s0) => Q fd) (dispatch run ready s).1.
Proof.
  intros Hr. revert s. induction Hr as [|[fd e] ready Hq Hr IH]; intros s; simpl; [done|].
  destruct (checkAndGetChannelByFd fd s) as [[id|] s1]; [|apply IH].
  pose proof (IH (run id (handleIoEvent e) s1)) as IH'.
  destruct (dispatch run ready (run id (handleIoEvent e) s1)). by constructor.
Qed.

(** The select poller never dispatches an event of descriptor 0, whatever is
    registered for it and whatever [select] reports: its loop starts at 1. *)
Theorem select_skips_fd0 run r w x s :
  Forall (fun '(fd, id, e, s0) => fd <> 0) (select_handleNetworkEvent run r w x s).1.
Proof.
  apply dispatch_from_ready. unfold select_ready. apply Forall_map, Forall_forall.
  intros fd Hin. simpl. apply elem_of_seqZ in Hin. lia.
Qed.
