(* ===== verification/TcpConnection.v ===== *)
(** TCP connections ([src/imp/network/tcp-connection-manager.cpp]): the handlers
    of [TcpConnection] and the table of [TcpConnectionManager].

    A connection is its channel, the two caches and the codec; the handlers
    thread the poller of its scheduler, used through the class [Poller] only,
    and the codec through the class [Codec].  The kernel is the list of results
    its [recv] or [send] calls return; when the list ends the call would block.
    Signals the handlers emit are returned in order. *)
From S2P Require Import Prelude Codec IcacheBuffer StreamProtocol Scheduler.

Inductive conn_signal :=
  | notifyFrame (frame : list Z)
  | disconnected.

Record TcpConnection {P : Type} := mkConn {
  channel : IoChannel;
  readCache : cache;
  writeCache : cache;
  protocal : P
}.
Arguments TcpConnection : clear implicits.

Section Connection.
Context {P T : Type} `{Codec P} `{Poller T}.
Implicit Types (t : TcpConnection P) (s : T).

Definition set_channel (c : IoChannel) t : TcpConnection P :=
  mkConn P c (readCache t) (writeCache t) (protocal t).
Definition set_read (c : cache) (p : P) t : TcpConnection P :=
  mkConn P (channel t) c (writeCache t) p.
Definition set_write (c : cache) t : TcpConnection P :=
  mkConn P (channel t) (readCache t) c (protocal t).

(** [TcpConnection::setProtocal] on the channel of a connection. *)
Definition setProtocal (p : P) (ch : IoChannel) s : option (TcpConnection P * T) :=
  let s1 := stop ch s in
  let ch1 := enableReading ch in
  s2 ← sync ch1 s1;
  Some (mkConn P ch1 (new_cache p (getMaxCacheSize p)) (new_cache p (getMaxCacheSize p)) p, s2).

(** [TcpConnection::sendFrame] *)
Definition sendFrame (frame : list Z) t s : option (bool * TcpConnection P * T) :=
  if zlen frame =? 0 then Some (true, t, s) else
  '(ret, wc) ← appendFrame (protocal t) frame (writeCache t);
  let t1 := set_write wc t in
  '(t2, s2) ← (if frame_count wc =? 1
               then
                 let ch := enablWriting (channel t1) in
                 s2 ← sync ch s;
                 Some (set_channel ch t1, s2)
               else Some (t1, s));
  Some ((0 <? ret) && (ret =? zlen frame), t2, s2).

(** [TcpConnection::on_close]; [on_error] does the same. *)
Definition on_close t s : list conn_signal * T := ([disconnected], stop (channel t) s).

(** The inner loop of [TcpConnection::on_recv]: pop until no frame is left. *)
Fixpoint pop_all (fuel : nat) (c : cache) : option (list (list Z) * cache) :=
  match fuel with
  | O => None
  | S fuel' =>
      '(f, c1) ← popFrame c;
      if 0 <? zlen f
      then
        '(fs, c2) ← pop_all fuel' c1;
        Some (f :: fs, c2)
      else Some ([], c1)
  end.

(** [TcpConnection::on_recv] *)
Fixpoint on_recv (net : list recv_result) t s
  : option (list conn_signal * TcpConnection P * T) :=
  match net with
  | [] => Some ([], t, s)
  | r :: net' =>
      '(ret, c1, p1) ← stream_readFromFd (protocal t) r (readCache t);
      let t1 := set_read c1 p1 t in
      if ret <? 0 then Some ([], t1, s)
      else if ret =? 0 then
        let '(sg, s1) := on_close t1 s in Some (sg, t1, s1)
      else
        '(fs, c2) ← pop_all (S (length (frame_cache_map c1))) c1;
        '(sg, t3, s3) ← on_recv net' (set_read c2 p1 t1) s;
        Some (map notifyFrame fs ++ sg, t3, s3)
  end.

(** The loop of [TcpConnection::on_write]: the bytes the kernel took and
    whether the connection is to be closed. *)
Fixpoint write_loop (fuel : nat) (net : list send_result) (c : cache)
  : option (list Z * cache * bool) :=
  if 0 <? frame_count c then
    match fuel with
    | O => None
    | S fuel' =>
        '(ret, sent, c1, net') ← stream_sendCacheByFd net c;
        if ret <? 0 then Some (sent, c1, false)
        else if ret =? 0 then Some (sent, c1, true)
        else
          '(sent', c2, closed) ← write_loop fuel' net' c1;
          Some (sent ++ sent', c2, closed)
    end
  else Some ([], c, false).

(** [TcpConnection::on_write] *)
Definition on_write (net : list send_result) t s
  : option (list Z * list conn_signal * TcpConnection P * T) :=
  '(sent, c, closed) ← write_loop (S (length net)) net (writeCache t);
  let t1 := set_write c t in
  if (closed : bool) then
    let '(sg, s1) := on_close t1 s in Some (sent, sg, t1, s1)
  else if frame_count c =? 0 then
    let ch := disableWriting (channel t1) in
    s1 ← sync ch s;
    Some (sent, [], set_channel ch t1, s1)
  else Some (sent, [], t1, s).

(** One [on_recv] per readable event. *)
Fixpoint recv_events (batches : list (list recv_result)) t s
  : option (list conn_signal * TcpConnection P * T) :=
  match batches with
  | [] => Some ([], t, s)
  | b :: bs =>
      '(sg1, t1, s1) ← on_recv b t s;
      '(sg2, t2, s2) ← recv_events bs t1 s1;
      Some (sg1 ++ sg2, t2, s2)
  end.

End Connection.

(** ** The table of connections *)

(** [TcpConnectionManager::addConnection] and [removeConnection]: the table
    from descriptors to connections, and the result. *)
Definition addConnection (fd : Z) (conn : positive) (m : gmap Z positive)
  : bool * gmap Z positive :=
  let ret := false in
  if fd <? 0 then (ret, m)
  else match m !! fd with
       | Some _ => (ret, m)
       | None => (ret, <[fd := conn]> m)
       end.

Definition removeConnection (fd : Z) (m : gmap Z positive) : gmap Z positive :=
  match m !! fd with
  | Some _ => delete fd m
  | None => m
  end.

(** ** Lemmas *)

Section Spec.
Context {P T : Type} `{Codec P} `{PollerLaws T}.
Context (codec_ok : P -> Prop) `{!CodecLaws P codec_ok}.
Implicit Types (t : TcpConnection P) (s : T).

(** The codec's sizes fit each other and 32-bit offsets. *)
Definition protocal_sizes (p : P) : Prop :=
  0 < getSliceSize p <= getMaxFrameSize p /\ 0 <= getMaxCacheSize p /\
  getMaxCacheSize p + getMaxFrameSize p < 2 ^ 32 - 1.

(** A frame that the cache holds together with one more read. *)
Definition deliverable (p : P) (f : list Z) : Prop :=
  wire_frame codec_ok (codec_config p) f /\
  zlen f + getSliceSize p <= getMaxCacheSize p.

Lemma pop_all_spec fuel c :
  cache_wf c -> (length (frames_of c) < fuel)%nat ->
  exists c', pop_all fuel c = Some (frames_of c, c') /\ cache_wf c' /\
    frames_of c' = [] /\ pending_of c' = pending_of c /\ c_max c' = c_max c.
Proof.
  revert c. induction fuel as [|fuel IH]; intros c Hwf Hfuel; [lia|]. cbn [pop_all].
  pose proof (popFrame_spec c Hwf) as Hpop.
  destruct (frames_of c) as [|f fs] eqn:Hf.
  - rewrite Hpop. simpl. eauto 10.
  - destruct Hpop as (c1 & -> & Hne & W1 & F1 & P1 & M1). cbn [mbind option_bind].
    assert (0 < zlen f) by (destruct f; [done|rewrite zlen_cons; pose proof (zlen_nonneg f); lia]).
    rewrite (proj2 (Z.ltb_lt _ _)) by done.
    destruct (IH c1 W1) as (c2 & -> & W2 & F2 & P2 & M2); [rewrite F1; simpl in *; lia|].
    cbn [mbind option_bind]. rewrite F1. exists c2. repeat split; try done; try congruence; apply W2.
Qed.

Lemma frames_nil_map c : frames_of c = [] <-> frame_cache_map c = [].
Proof. unfold frames_of. split; [apply fmap_nil_inv|by intros ->]. Qed.

Lemma frame_count_frames c : frame_count c = zlen (frames_of c).
Proof. unfold frame_count, frames_of, zlen. by rewrite length_map. Qed.

(** With every frame popped, the unread bytes are the undecoded ones. *)
Lemma unread_pending c : cache_wf c -> frames_of c = [] -> unread c = zlen (pending_of c).
Proof.
  intros Hwf Hf%frames_nil_map. rewrite pending_len by done. unfold unread, read_offset.
  by rewrite Hf.
Qed.

(** The bytes received and not yet delivered are a strict prefix of the next
    frame expected. *)
Definition awaiting (p : P) (fs : list (list Z)) (c : cache) (y : list Z) : Prop :=
  cache_wf c /\ sizes_ok p c /\ c_max c = getMaxCacheSize p /\ frames_of c = [] /\
  pending_of c ++ y = concat fs /\
  match fs with [] => pending_of c = [] | f :: _ => zlen (pending_of c) < zlen f end.

Lemma deliverable_frames p fs :
  Forall (deliverable p) fs ->
  Forall (wire_frame codec_ok (codec_config p)) fs /\ Forall (fun f => 0 < zlen f) fs.
Proof.
  intros Hfs. split; (eapply Forall_impl; [exact Hfs|]); [by intros f [? _]|].
  by intros f [[[? _] _] _].
Qed.

Lemma deliverable_config p p' fs :
  codec_config p' = codec_config p -> Forall (deliverable p) fs -> Forall (deliverable p') fs.
Proof.
  intros Hc. intros Hfs. eapply Forall_impl; [exact Hfs|]. intros f. unfold deliverable, getSliceSize, getMaxCacheSize.
  by rewrite Hc.
Qed.

(** One chunk of a stream of frames. *)
Lemma readFromFd_wire p d fs c y :
  codec_ok p -> protocal_sizes p -> Forall (deliverable p) fs ->
  awaiting p fs c (d ++ y) -> 0 < zlen d <= getSliceSize p ->
  exists c1 c2 p' fs1 fs2, stream_readFromFd p (RecvOk d) c = Some (zlen d, c1, p') /\
    pop_all (S (length (frame_cache_map c1))) c1 = Some (fs1, c2) /\
    codec_ok p' /\ codec_config p' = codec_config p /\
    fs = fs1 ++ fs2 /\ awaiting p' fs2 c2 y.
Proof.
  intros Hok (Hz1 & Hz2 & Hz3) Hfs (Hwf & Hsz & Hcm & Hfr & Hpend & Hnext) Hd.
  assert (Hlt : zlen (pending_of c) + getSliceSize p < getMaxCacheSize p).
  { destruct fs as [|f fs].
    - rewrite Hnext in Hpend. destruct d; [unfold zlen in Hd; simpl in Hd; lia|done].
    - apply Forall_inv in Hfs as [_ ?]. lia. }
  unfold stream_readFromFd. rewrite take_ge by (unfold zlen in *; lia).
  rewrite (proj2 (Z.eqb_neq (zlen d) 0)) by lia.
  destruct (stream_readFromBuf_spec codec_ok p d c Hwf Hsz Hok)
    as (r & c1 & p1 & Hread & W1 & S1 & O1 & Hres); [lia|].
  pose proof (stream_readFromBuf_max _ _ _ _ _ _ Hread) as M1. rewrite Hread. clear Hread.
  rewrite unread_pending in Hres by done. rewrite bool_decide_true in Hres by lia.
  destruct Hres as (fs' & ok & Hall & F1 & Hr).
  rewrite app_assoc in Hpend.
  destruct (prefix_split fs (pending_of c ++ d) y) as (fs1 & fs2 & tail & -> & Hx & Hy & Ht);
    [by eapply deliverable_frames|done|].
  apply deliverable_frames in Hfs as [Hfs _].
  apply Forall_app in Hfs as [Hfs1 Hfs2]. rewrite Hx in Hall.
  assert (Hmx : zlen (concat fs1 ++ tail) <= getMaxCacheSize p)
    by (rewrite <- Hx, zlen_app; lia).
  assert (Htail : forall p', codec_ok p' -> codec_config p' = codec_config p ->
            (decodeFrame tail p').1 = (0, 0)).
  { intros p' Hok' Hcfg. destruct Ht as [->|(f & fs2' & -> & Hl & Htk)].
    - destruct fs1 as [|g fs1].
      + simpl in Hx. apply app_eq_nil in Hx as [_ ->]. unfold zlen in Hd; simpl in Hd; lia.
      + apply Forall_inv in Hfs1 as (Hg1 & Hg2 & _).
        specialize (Hg2 0 p' Hok' Hcfg ltac:(lia)). done.
    - apply Forall_inv in Hfs2 as (Hf1 & Hf2 & _). rewrite Htk. by apply Hf2. }
  destruct (wire_parse codec_ok p fs1 tail Hok Hfs1 Hmx Htail) as (p2 & Hparse & Hok2 & Hc2).
  rewrite Hparse in Hall. simplify_eq.
  cbn [mbind option_bind]. rewrite (proj2 (Z.ltb_ge _ _)) by lia.
  rewrite Hfr in F1. simpl in F1.
  destruct (pop_all_spec (S (length (frame_cache_map c1))) c1 W1) as (c2 & Hpop & W2 & F2 & P2 & M2);
    [unfold frames_of; rewrite length_map; lia|].
  exists c1, c2, p1, fs', fs2. split; [done|]. rewrite Hpop, F1. do 4 (split; [done|]).
  unfold awaiting, getMaxCacheSize in *. split; [done|]. split; [|split; [congruence|split; [done|]]].
  - unfold sizes_ok in *. by rewrite M2.
  - rewrite P2. split; [done|]. destruct Ht as [->|(f & fs2' & -> & Hl & _)]; [|lia].
    destruct fs2 as [|f fs2']; [done|]. apply Forall_inv in Hfs2 as [? _]. unfold zlen in *; simpl. lia.
Qed.

Lemma protocal_sizes_config p p' :
  codec_config p' = codec_config p -> protocal_sizes p -> protocal_sizes p'.
Proof.
  unfold protocal_sizes, getSliceSize, getMaxFrameSize, getMaxCacheSize. by intros ->.
Qed.

Lemma on_recv_wire ds t s fs y :
  codec_ok (protocal t) -> protocal_sizes (protocal t) ->
  Forall (deliverable (protocal t)) fs ->
  Forall (fun d => 0 < zlen d <= getSliceSize (protocal t)) ds ->
  awaiting (protocal t) fs (readCache t) (concat ds ++ y) ->
  exists rc p' fs1 fs2, on_recv (map RecvOk ds ++ [RecvAgain]) t s
      = Some (map notifyFrame fs1, set_read rc p' t, s) /\
    codec_ok p' /\ codec_config p' = codec_config (protocal t) /\
    fs = fs1 ++ fs2 /\ awaiting p' fs2 rc y.
Proof.
  revert t fs. induction ds as [|d ds IH]; intros t fs Hok Hsz Hfs Hds Haw; simpl.
  - exists (readCache t), (protocal t), [], fs. done.
  - inversion Hds as [|? ? Hd Hds']; subst. simpl in Haw. rewrite <- app_assoc in Haw.
    destruct (readFromFd_wire (protocal t) d fs (readCache t) (concat ds ++ y))
      as (c1 & c2 & p1 & fs1 & fs2 & Hread & Hpop & Hok1 & Hc1 & -> & Haw2); [done..|].
    simpl in Hread. rewrite Hread. cbn [mbind option_bind].
    rewrite (proj2 (Z.ltb_ge _ _)) by lia. rewrite (proj2 (Z.eqb_neq (zlen d) 0)) by lia.
    simpl in Hpop. rewrite Hpop. cbn [mbind option_bind].
    apply Forall_app in Hfs as [_ Hfs2].
    destruct (IH (set_read c2 p1 (set_read c1 p1 t)) fs2)
      as (rc & p' & fs3 & fs4 & -> & Hok' & Hc' & -> & Haw3); simpl;
      [done|by eapply protocal_sizes_config|by eapply deliverable_config|unfold getSliceSize in *; by rewrite Hc1|done|].
    simpl in *. exists rc, p', (fs1 ++ fs3), fs4.
    rewrite map_app, app_assoc. split; [done|]. split; [done|]. split; [congruence|done].
Qed.

Lemma recv_events_wire batches t s fs y :
  codec_ok (protocal t) -> protocal_sizes (protocal t) ->
  Forall (deliverable (protocal t)) fs ->
  Forall (Forall (fun d => 0 < zlen d <= getSliceSize (protocal t))) batches ->
  awaiting (protocal t) fs (readCache t) (concat (concat batches) ++ y) ->
  exists rc p' fs1 fs2, recv_events (map (fun ds => map RecvOk ds ++ [RecvAgain]) batches) t s
      = Some (map notifyFrame fs1, set_read rc p' t, s) /\
    codec_ok p' /\ codec_config p' = codec_config (protocal t) /\
    fs = fs1 ++ fs2 /\ awaiting p' fs2 rc y.
Proof.
  revert t fs. induction batches as [|ds bs IH]; intros t fs Hok Hsz Hfs Hbs Haw;
    cbn [map recv_events].
  - exists (readCache t), (protocal t), [], fs. by destruct t.
  - inversion Hbs as [|? ? Hd Hbs']; subst. cbn [concat] in Haw.
    rewrite concat_app, <- app_assoc in Haw.
    destruct (on_recv_wire ds t s fs (concat (concat bs) ++ y))
      as (rc1 & p1 & fs1 & fs2 & -> & Hok1 & Hc1 & -> & Haw2); [done..|]. cbn [mbind option_bind].
    apply Forall_app in Hfs as [_ Hfs2].
    destruct (IH (set_read rc1 p1 t) fs2)
      as (rc & p' & fs3 & fs4 & -> & Hok' & Hc' & -> & Haw3); simpl;
      [done|by eapply protocal_sizes_config|by eapply deliverable_config|unfold getSliceSize in *; by rewrite Hc1|done|].
    simpl in *. exists rc, p', (fs1 ++ fs3), fs4.
    rewrite map_app, app_assoc. split; [done|]. split; [done|]. split; [congruence|done].
Qed.

(** ** The invariant of an open connection *)

(** The queue of frames to send is well formed and the poller watches for
    writability exactly while it is not empty. *)
Definition conn_ok t s : Prop :=
  poller_ok s /\ channel_ok (channel t) /\ fd_ok (ch_fd (channel t)) /\
  isReading (channel t) = true /\
  interest s !! ch_fd (channel t) = Some (ch_id (channel t), events (channel t)) /\
  cache_wf (writeCache t) /\ sizes_ok (protocal t) (writeCache t) /\
  pending_of (writeCache t) = [] /\
  (isWriting (channel t) = true <-> frames_of (writeCache t) <> []).

(** [sync] on a registered channel whose events changed. *)
Lemma sync_registered ch ch0 s :
  poller_ok s -> channel_ok ch -> fd_ok (ch_fd ch) -> isNoneEvent ch = false ->
  ch_fd ch = ch_fd ch0 -> ch_id ch = ch_id ch0 ->
  (forall id e, interest s !! ch_fd ch = Some (id, e) -> id = ch_id ch0) ->
  exists s', sync ch s = Some s' /\ poller_ok s' /\ live s' = live s /\
    interest s' = <[ch_fd ch := (ch_id ch, events ch)]> (interest s).
Proof.
  intros Hok Hc Hfd Hne Hf Hi Hno. unfold sync.
  rewrite (proj2 (Z.eqb_neq _ _)) by (by apply fd_ok_valid).
  destruct (update_spec ch s) as (s' & -> & A & B & C); [done..| |].
  - intros id e Hl. rewrite Hi. by eapply Hno.
  - rewrite Hne in C. eauto.
Qed.

Lemma write_loop_spec fuel net c :
  cache_wf c -> c_max c < 2 ^ 32 - 1 -> (length net < fuel)%nat ->
  exists sent c' closed, write_loop fuel net c = Some (sent, c', closed) /\
    cache_wf c' /\ pending_of c' = pending_of c /\ c_max c' = c_max c /\
    concat (frames_of c) = sent ++ concat (frames_of c').
Proof.
  revert net c. induction fuel as [|fuel IH]; intros net c Hwf Hmax Hfuel; [lia|].
  cbn [write_loop]. destruct (0 <? frame_count c).
  - destruct (stream_sendCacheByFd_spec net c Hwf Hmax)
      as (r & sent & c1 & net' & -> & W1 & P1 & M1 & F1 & _ & Hlt & _).
    cbn [mbind option_bind]. destruct (r <? 0) eqn:Hr0; [by eauto 10|].
    destruct (r =? 0) eqn:Hr1; [by eauto 10|].
    destruct (IH net' c1) as (sent' & c2 & cl & -> & W2 & P2 & M2 & F2);
      [done|lia|specialize (Hlt ltac:(lia)); lia|].
    cbn [mbind option_bind]. exists (sent ++ sent'), c2, cl. rewrite F1, F2, app_assoc.
    repeat split; try done; try congruence; apply W2.
  - eexists [], c, false. done.
Qed.

(** [sync] after the events of a registered channel changed. *)
Lemma conn_resync ch t s :
  conn_ok t s -> channel_ok ch -> isNoneEvent ch = false ->
  ch_fd ch = ch_fd (channel t) -> ch_id ch = ch_id (channel t) ->
  exists s', sync ch s = Some s' /\ poller_ok s' /\
    interest s' !! ch_fd ch = Some (ch_id ch, events ch).
Proof.
  intros (Hp & _ & Hfd & _ & Hi & _) Hc Hne Hf Hid.
  destruct (sync_registered ch (channel t) s) as (s' & ? & ? & _ & Hint); [done|done|by rewrite Hf|done..| |].
  - rewrite Hf, Hi. congruence.
  - exists s'. rewrite Hint. by rewrite lookup_insert_eq.
Qed.

Lemma frame_count_zero c : frame_count c = 0 <-> frames_of c = [].
Proof.
  rewrite frame_count_frames. split; [apply zlen_0_nil|by intros ->].
Qed.

Lemma on_write_spec net t s :
  conn_ok t s ->
  exists sent sg t' s', on_write net t s = Some (sent, sg, t', s') /\
    protocal t' = protocal t /\
    concat (frames_of (writeCache t)) = sent ++ concat (frames_of (writeCache t')) /\
    (sg = [] /\ conn_ok t' s' \/
     sg = [disconnected] /\ interest s' !! ch_fd (channel t') = None).
Proof.
  intros Hok. pose proof Hok as (Hp & Hc & Hfd & Hrd & Hi & Hwf & (Hs1 & Hs2 & Hs3) & Hpd & Hw).
  unfold on_write.
  destruct (write_loop_spec (S (length net)) net (writeCache t))
    as (sent & c & cl & -> & W & Pc & M & F); [done|lia|lia|]. cbn [mbind option_bind].
  assert (Hsz : sizes_ok (protocal t) c) by (unfold sizes_ok; rewrite M; lia).
  destruct cl.
  - eexists sent, [disconnected], _, _. split; [reflexivity|]. split; [done|]. split; [done|].
    right. split; [done|]. simpl. unfold stop.
    rewrite (proj2 (Z.eqb_neq _ _)) by (by apply fd_ok_valid).
    destruct (remove_spec (ch_fd (channel t)) s Hp) as (_ & _ & ->). apply lookup_delete_eq.
  - destruct (frame_count c =? 0) eqn:Hn.
    + apply Z.eqb_eq, frame_count_zero in Hn.
      destruct (disableWriting_bits (channel t) Hc) as (B1 & B2 & B3 & B4).
      rewrite Hrd in B4. simpl in B4. cbn [channel set_write].
      destruct (conn_resync (disableWriting (channel t)) t s) as (s' & -> & A1 & A2); [done..|].
      cbn [mbind option_bind]. eexists sent, [], _, s'. split; [reflexivity|].
      split; [done|]. split; [done|]. left. split; [done|].
      unfold conn_ok. simpl. rewrite B2, B3, Hn, Pc. intuition congruence.
    + apply Z.eqb_neq in Hn. rewrite frame_count_zero in Hn.
      eexists sent, [], _, s. split; [reflexivity|]. split; [done|]. split; [done|]. left.
      split; [done|]. unfold conn_ok. simpl. rewrite Pc.
      assert (frames_of (writeCache t) <> []).
      { intros Hz. rewrite Hz in F. simpl in F. symmetry in F. apply app_eq_nil in F as [_ F].
        destruct (frames_of c) as [|g gs] eqn:Hg; [done|]. simpl in F.
        apply app_eq_nil in F as [F _]. subst g.
        pose proof (popFrame_spec c W) as Hpop. rewrite Hg in Hpop.
        destruct Hpop as (? & _ & ? & _). done. }
      intuition.
Qed.

Lemma sendFrame_spec frame t s :
  conn_ok t s -> zlen frame <= getMaxFrameSize (protocal t) ->
  exists b t' s', sendFrame frame t s = Some (b, t', s') /\ conn_ok t' s' /\
    protocal t' = protocal t /\
    b = bool_decide (frame = [] \/ unread (writeCache t) + zlen frame <= c_max (writeCache t)) /\
    frames_of (writeCache t') = frames_of (writeCache t) ++
      (if b && (0 <? zlen frame) then [frame] else []).
Proof.
  intros Hok Hlen.
  pose proof Hok as (Hp & Hc & Hfd & Hrd & Hi & Hwf & Hsz & Hpd & Hw).
  unfold sendFrame. pose proof (zlen_nonneg frame) as Hpos.
  destruct (zlen frame =? 0) eqn:Hz.
  { apply Z.eqb_eq in Hz. exists true, t, s. split; [done|]. split; [done|]. split; [done|].
    rewrite bool_decide_true by (left; by apply zlen_0_nil). rewrite Hz. simpl.
    by rewrite app_nil_r. }
  apply Z.eqb_neq in Hz.
  destruct (appendFrame_spec (protocal t) frame (writeCache t)) as (wc & -> & W & S' & Pc & F);
    [done..|lia|]. cbn [mbind option_bind].
  assert (Hb : bool_decide (frame = [] \/ unread (writeCache t) + zlen frame <= c_max (writeCache t))
             = bool_decide (unread (writeCache t) + zlen frame <= c_max (writeCache t))).
  { apply bool_decide_ext. split; [|by right]. intros [->|?]; [done|done]. }
  rewrite Hb. clear Hb.
  set (fits := bool_decide (unread (writeCache t) + zlen frame <= c_max (writeCache t))) in *.
  assert (Hret : (0 <? if fits then zlen frame else -1) && ((if fits then zlen frame else -1) =? zlen frame)
                 = fits) by (destruct fits; lia).
  assert (Hfr : frames_of wc = frames_of (writeCache t) ++ (if fits && (0 <? zlen frame) then [frame] else []))
    by (rewrite F; replace (0 <? zlen frame) with true by lia; by destruct fits).
  destruct (frame_count wc =? 1) eqn:Hcnt.
  - destruct (enablWriting_bits (channel t) Hc) as (B1 & B2 & B3 & B4).
    cbn [channel set_write].
    destruct (conn_resync (enablWriting (channel t)) t s) as (s' & -> & A1 & A2); [done..|].
    cbn [mbind option_bind]. rewrite Hret. eexists fits, _, s'. split; [reflexivity|].
    split; [|done]. unfold conn_ok. simpl. rewrite B2, B3.
    assert (frames_of wc <> []).
    { apply Z.eqb_eq in Hcnt. rewrite <- frame_count_zero. lia. }
    intuition congruence.
  - cbn [mbind option_bind]. rewrite Hret. eexists fits, _, s. split; [reflexivity|].
    split; [|done]. unfold conn_ok. simpl.
    assert (frames_of wc <> [] <-> frames_of (writeCache t) <> []).
    { apply Z.eqb_neq in Hcnt. rewrite frame_count_frames, F in Hcnt. rewrite F.
      destruct (frames_of (writeCache t)), fits; simpl in *; try done. }
    intuition.
Qed.

(** A new connection. *)
Lemma setProtocal_spec (p : P) ch s :
  poller_ok s -> channel_ok ch -> isWriting ch = false -> fd_ok (ch_fd ch) ->
  protocal_sizes p ->
  exists t s', setProtocal p ch s = Some (t, s') /\ conn_ok t s' /\ protocal t = p /\
    frames_of (writeCache t) = [] /\ readCache t = new_cache p (getMaxCacheSize p).
Proof.
  intros Hp Hc Hnw Hfd (Hz1 & Hz2 & Hz3). unfold setProtocal, stop, sync.
  destruct (enableReading_bits ch Hc) as (B1 & B2 & B3 & B4).
  assert (Hne : (ch_fd ch =? INVALID_SOCKET) = false) by (apply Z.eqb_neq; by apply fd_ok_valid).
  assert (Hne' : (ch_fd (enableReading ch) =? INVALID_SOCKET) = false) by done.
  rewrite Hne, Hne'. destruct (remove_spec (ch_fd ch) s Hp) as (R1 & R2 & R3).
  destruct (update_spec (enableReading ch) (removeChannel (ch_fd ch) s))
    as (s' & -> & U1 & U2 & U3); [done|done|done| |].
  - intros id e. simpl. rewrite R3, lookup_delete_eq. done.
  - cbn [mbind option_bind]. eexists _, s'. split; [reflexivity|]. split; [|done].
    rewrite B4 in U3. unfold conn_ok. cbn [channel readCache writeCache protocal].
    rewrite B2, B3, Hnw, U3. simpl. rewrite lookup_insert_eq.
    assert (Hwf : cache_wf (new_cache p (getMaxCacheSize p))) by (apply new_cache_wf; lia).
    assert (sizes_ok p (new_cache p (getMaxCacheSize p))).
    { unfold sizes_ok, new_cache. simpl. case_match; lia. }
    do 8 (split; [done|]). split; [done|]. intros Hx. exfalso. by apply Hx.
Qed.

End Spec.

(** ** The space the queue takes *)

Section Queue.
Context {P : Type} `{Codec P}.

Lemma appendFrame_unread (p : P) data c r c' :
  cache_wf c -> sizes_ok p c -> pending_of c = [] -> 0 < zlen data <= getMaxFrameSize p -> unread c + zlen data <= c_max c ->
  appendFrame p data c = Some (r, c') -> unread c' = unread c + zlen data /\ c_max c' = c_max c.
Proof.
  intros Hwf Hsz Hpd Hlen Hfit. destruct (appendCache_spec p data c Hwf Hsz Hlen) as (c1 & Ha & Hwf1 & Hsz1 & _ & _ & Hw).
  pose proof (appendCache_max _ _ _ _ _ Ha) as Hm. unfold appendFrame. rewrite Ha, bool_decide_true by done. cbn [mbind option_bind].
  intros [= <- <-]. destruct (Hw Hfit) as (H1 & H2 & H3). split; [|done]. rewrite <- H3.
  pose proof (pending_len c Hwf) as Hl. rewrite Hpd, zlen_nil in Hl.
  pose proof (cache_wf_bounds c1 Hwf1) as (? & ? & ? & _). destruct Hsz1 as (? & ? & ?).
  unfold unread, read_offset, updateFrameCache. cbn [write_offset frame_cache_map decode_offset].
  destruct (frame_cache_map c1) as [|[o n] fs]; cbn [app]; [|done]. rewrite wrap_small by lia. lia.
Qed.

Lemma sendCache_unread net c r sent c' net' :
  cache_wf c -> c_max c < 2 ^ 32 - 1 -> stream_sendCacheByFd net c = Some (r, sent, c', net') ->
  unread c' <= unread c /\ c_max c' = c_max c /\ zlen (frames_of c') <= zlen (frames_of c).
Proof.
  rewrite <- !frame_count_frames. unfold frame_count.
  intros Hwf Hmax. pose proof (cache_wf_bounds c Hwf) as (Hr & Hd & Hm & Hb & Hin).
  pose proof Hwf as (_ & Hfb & _). unfold stream_sendCacheByFd, unread, read_offset in *.
  destruct (frame_cache_map c) as [|[o n] fs] eqn:Hc; [intros [= <- <- <- <-]; by rewrite Hc|].
  destruct (Hin (o, n)) as (H1 & H2 & H3); [left|]. cbn [fst snd] in *.
  destruct (stream_send_loop_spec net (cache_buf c) o n []) as (out & o' & n' & cl & net1 & -> & Ho & Hn & Hon & _); [lia..|].
  cbn [mbind option_bind]. cbn [frames_between] in Hfb. destruct Hfb as (_ & _ & Hfb).
  destruct cl; [intros [= <- <- <- <-]; cbn; rewrite !zlen_cons; lia|]. intros [= <- <- <- <-].
  cbn [write_offset frame_cache_map set_frames c_max decode_offset].
  rewrite zlen_cons. destruct (n' =? 0); [|rewrite zlen_cons; lia].
  destruct fs as [|[o2 n2] fs]; cbn [frames_between] in Hfb; (split; [|split; [done|]]); lia.
Qed.

(** The loop of sends; it closes only where the kernel refused. *)
Lemma write_loop_unread fuel net c sent c' closed :
  cache_wf c -> c_max c < 2 ^ 32 - 1 -> write_loop fuel net c = Some (sent, c', closed) ->
  unread c' <= unread c /\ c_max c' = c_max c /\ zlen (frames_of c') <= zlen (frames_of c).
Proof.
  revert net c sent. induction fuel as [|fuel IH]; intros net c sent Hwf Hmax; cbn [write_loop].
  - destruct (0 <? frame_count c); [done|]. intros [= <- <- <-]. lia.
  - destruct (0 <? frame_count c); [|intros [= <- <- <-]; lia].
    destruct (stream_sendCacheByFd_spec net c Hwf Hmax) as (r & out & c1 & net1 & Hs & Hwf1 & _ & Hm & _).
    pose proof (sendCache_unread _ _ _ _ _ _ Hwf Hmax Hs) as (Hu & _ & Hn). rewrite Hs. cbn [mbind option_bind].
    destruct (r <? 0); [intros [= <- <- <-]; lia|]. destruct (r =? 0); [intros [= <- <- <-]; lia|].
    destruct (write_loop fuel net1 c1) as [[[out2 c2] cl]|] eqn:Hl; cbn [mbind option_bind]; [|done].
    intros [= <- <- <-]. destruct (IH net1 c1 out2 Hwf1) as (? & ? & ?); [lia|done|]. lia.
Qed.

(** The connection is closed only where the kernel refused to send. *)
Definition refuses (r : send_result) : Prop := r = SendError \/ r = SendOk 0.

Lemma send_loop_refused net buf o n sent res f closed net' :
  stream_send_loop net buf o n sent = Some (res, f, closed, net') ->
  exists used, net = used ++ net' /\ (closed = true -> Exists refuses used).
Proof.
  revert o n sent. induction net as [|r net IH]; intros o n sent; cbn [stream_send_loop].
  - destruct (n <=? 0); intros [= <- <- <- <-]; by exists [].
  - destruct (Z.leb_spec n 0); [intros [= <- <- <- <-]; by exists []|]. destruct r as [room| |].
    + destruct (Z.eqb_spec (Z.min (Z.of_N room) n) 0) as [Hk|_].
      * intros [= <- <- <- <-]. exists [SendOk room]. split; [done|]. intros _. left. right. f_equal. lia.
      * destruct (memread buf o (Z.min (Z.of_N room) n)) as [d|]; cbn [mbind option_bind]; [|done].
        intros (used & -> & Hc)%IH. exists (SendOk room :: used). split; [done|]. intros ?. right. by apply Hc.
    + intros [= <- <- <- <-]. by exists [SendAgain].
    + intros [= <- <- <- <-]. exists [SendError]. split; [done|]. intros _. left. by left.
Qed.

Lemma sendCache_refused net c r sent c' net' : stream_sendCacheByFd net c = Some (r, sent, c', net') ->
  exists used, net = used ++ net' /\ (r = 0 -> Exists refuses used).
Proof.
  unfold stream_sendCacheByFd. destruct (frame_cache_map c) as [|[o n] fs]; [intros [= <- <- <- <-]; by exists []|].
  destruct (stream_send_loop net (cache_buf c) o n []) as [[[[out [o' n']] cl] net1]|] eqn:Hl; cbn [mbind option_bind]; [|done].
  destruct (send_loop_refused _ _ _ _ _ _ _ _ _ Hl) as (used & -> & Hc). destruct cl; intros [= <- <- <- <-]; exists used; (split; [done|]).
  - intros _. by apply Hc.
  - destruct (n' =? 0), (Z.eqb_spec (zlen out) 0); lia.
Qed.

Lemma write_loop_refused fuel net c sent c' : write_loop fuel net c = Some (sent, c', true) -> Exists refuses net.
Proof.
  revert net c sent. induction fuel as [|fuel IH]; intros net c sent; cbn [write_loop]; destruct (0 <? frame_count c); try done.
  destruct (stream_sendCacheByFd net c) as [[[[r out] c1] net1]|] eqn:Hs; cbn [mbind option_bind]; [|done].
  destruct (sendCache_refused _ _ _ _ _ _ Hs) as (used & -> & Hc). destruct (r <? 0); [done|].
  destruct (Z.eqb_spec r 0) as [Hr|_]; [intros _; apply Exists_app; left; by apply Hc|].
  destruct (write_loop fuel net1 c1) as [[[out2 c2] cl]|] eqn:Hl; cbn [mbind option_bind]; [|done].
  intros [= <- <- ->]. apply Exists_app. right. by eapply IH.
Qed.
(** A kernel that takes the only frame. *)
Lemma write_loop_all c f room : cache_wf c -> c_max c < 2 ^ 32 - 1 -> frames_of c = [f] -> zlen f <= Z.of_N room ->
  exists c', write_loop 2 [SendOk room] c = Some (f, c', false) /\ frames_of c' = [].
Proof.
  intros Hwf Hmax Hf Hroom. pose proof (cache_wf_bounds c Hwf) as (Hr & Hd & Hm & Hb & Hin).
  unfold frames_of in Hf. destruct (frame_cache_map c) as [|[o n] [|]] eqn:Hc; try done.
  injection Hf as Hf. destruct (Hin (o, n)) as (H1 & H2 & H3); [left|]. cbn [fst snd] in *.
  assert (zlen f = n) as Hl by (rewrite <- Hf; unfold frame_bytes; apply zlen_slice; cbn; lia).
  cbn [write_loop]. unfold frame_count at 1. rewrite Hc. change (0 <? zlen [(o, n)]) with true. cbv iota.
  unfold stream_sendCacheByFd. rewrite Hc. cbn [stream_send_loop]. rewrite (proj2 (Z.leb_gt n 0)) by lia. rewrite Z.min_r by lia.
  rewrite (proj2 (Z.eqb_neq n 0)) by lia. rewrite memread_Some by lia. cbn [mbind option_bind app].
  rewrite Z.sub_diag. change (u32 0) with 0. cbn [Z.leb Z.compare Z.eqb mbind option_bind]. unfold frame_bytes in Hf. cbn [fst snd] in Hf. rewrite Hf, Hl.
  rewrite (proj2 (Z.eqb_neq n 0)) by lia. rewrite (proj2 (Z.ltb_ge n 0)), (proj2 (Z.eqb_neq n 0)) by lia.
  change (frame_count (set_frames [] c)) with 0. cbv iota. cbn [mbind option_bind]. change (0 <? 0) with false. cbv iota. cbn [mbind option_bind].
  exists (set_frames [] c). by rewrite app_nil_r.
Qed.
End Queue.

(** A run of sends and writable events; it stops when the connection closes.
    The accepted frames and the bytes the kernel took are collected. *)
Inductive conn_op :=
  | CSend (frame : list Z)
  | CWrite (net : list send_result).

Fixpoint conn_run {P T} `{Codec P} `{Poller T} (ops : list conn_op) (t : TcpConnection P) (s : T)
  : option (list (list Z) * list Z * bool * TcpConnection P * T) :=
  match ops with
  | [] => Some ([], [], true, t, s)
  | CSend f :: ops' =>
      '(b, t1, s1) ← sendFrame f t s;
      '(acc, sent, ok, t2, s2) ← conn_run ops' t1 s1;
      Some ((if (b : bool) then [f] else []) ++ acc, sent, ok, t2, s2)
  | CWrite net :: ops' =>
      '(sent1, sg, t1, s1) ← on_write net t s;
      match sg with
      | [] =>
          '(acc, sent, ok, t2, s2) ← conn_run ops' t1 s1;
          Some (acc, sent1 ++ sent, ok, t2, s2)
      | _ => Some ([], sent1, false, t1, s1)
      end
  end.

(** ** Properties *)

Section Properties.
Context {P T : Type} `{Codec P} `{PollerLaws T}.

Lemma conn_run_spec ops (t : TcpConnection P) (s : T) :
  conn_ok t s ->
  Forall (fun op => match op with
                    | CSend f => zlen f <= getMaxFrameSize (protocal t)
                    | _ => True
                    end) ops ->
  exists acc sent open t' s', conn_run ops t s = Some (acc, sent, open, t', s') /\
    concat (frames_of (writeCache t)) ++ concat acc
      = sent ++ concat (frames_of (writeCache t')) /\
    if (open : bool) then conn_ok t' s' else interest s' !! ch_fd (channel t') = None.
Proof.
  revert t s. induction ops as [|op ops IH]; intros t s Hok Hops; cbn [conn_run].
  { exists [], [], true, t, s. by rewrite app_nil_r. }
  inversion Hops as [|? ? Hop Hops']; subst. destruct op as [f|net].
  - destruct (sendFrame_spec f t s Hok Hop) as (b & t1 & s1 & -> & Hok1 & Hp1 & _ & F1).
    cbn [mbind option_bind].
    destruct (IH t1 s1 Hok1) as (acc & sent & open & t' & s' & -> & Hcat & Hend);
      [by rewrite Hp1|]. cbn [mbind option_bind].
    eexists _, sent, open, t', s'. split; [reflexivity|]. split; [|done]. rewrite <- Hcat, F1.
    rewrite !concat_app, <- app_assoc. do 2 f_equal.
    destruct b; [|done]. destruct f as [|z f]; [done|]. rewrite zlen_cons.
    pose proof (zlen_nonneg f). by rewrite (proj2 (Z.ltb_lt _ _)) by lia.
  - destruct (on_write_spec net t s Hok)
      as (sent1 & sg & t1 & s1 & -> & Hp1 & F1 & [[-> Hok1]|[-> Hcl]]); cbn [mbind option_bind].
    + destruct (IH t1 s1 Hok1) as (acc & sent & open & t' & s' & -> & Hcat & Hend);
        [by rewrite Hp1|]. cbn [mbind option_bind].
      eexists _, _, open, t', s'. split; [reflexivity|]. split; [|done].
      by rewrite F1, <- !app_assoc, Hcat.
    + eexists [], sent1, false, t1, s1. split; [done|]. by rewrite app_nil_r.
Qed.

Context (codec_ok : P -> Prop) `{!CodecLaws P codec_ok}.

(** C3. Delivery does not depend on how TCP cuts the stream.  Let a peer send
    the frames [fs] one after the other, and let any part of that stream arrive
    so far, in any number of readable events and any number of reads per event
    of 1 to [getSliceSize] bytes each, where each frame and one more read fit the
    cache.  Then the connection has emitted
    [notifyFrame] for exactly the frames that have arrived completely, once
    each and in order, keeps the beginning of the next one, and neither
    disconnects nor touches the poller. *)
Theorem recv_any_segmentation (p : P) ch (s : T) fs batches y t s1 :
  codec_ok p -> protocal_sizes p -> Forall (deliverable codec_ok p) fs ->
  Forall (Forall (fun d => 0 < zlen d <= getSliceSize p)) batches ->
  concat (concat batches) ++ y = concat fs ->
  setProtocal p ch s = Some (t, s1) ->
  exists rc p' fs1 fs2,
    recv_events (map (fun ds => map RecvOk ds ++ [RecvAgain]) batches) t s1
      = Some (map notifyFrame fs1, set_read rc p' t, s1) /\
    fs = fs1 ++ fs2 /\ frames_of rc = [] /\ pending_of rc ++ y = concat fs2 /\
    match fs2 with [] => y = [] | f :: _ => zlen (pending_of rc) < zlen f end.
Proof.
  intros Hok Hsz Hfs Hbs Hcat Hset. pose proof Hsz as (Hz1 & Hz2 & Hz3).
  unfold setProtocal in Hset. destruct (sync (enableReading ch) (stop ch s)) as [s2|]; [|done].
  simplify_eq/=. set (t := mkConn P _ _ _ _).
  destruct (recv_events_wire codec_ok batches t s1 fs y) as (rc & p' & fs1 & fs2 & Hrun & _ & _ & -> & Haw);
    [done..| |].
  - split; [apply new_cache_wf; lia|]. split; [unfold sizes_ok, new_cache; simpl; case_match; lia|].
    split; [unfold new_cache; simpl; case_match; lia|]. split; [done|]. split; [done|].
    destruct fs as [|f fs]; [done|]. apply Forall_inv in Hfs as [[[? _] _] _]. done.
  - exists rc, p', fs1, fs2. destruct Haw as (_ & _ & _ & Hf & Hp & Hn).
    do 4 (split; [done|]). destruct fs2; [|exact Hn]. by apply app_eq_nil in Hp as [_ ?].
Qed.

(** C4. Sending.  After any sequence of [sendFrame] calls and writable events
    on a new connection, with any behaviour of the kernel (partial sends,
    would-block, errors), there was no memory error; the bytes the kernel took
    followed by the queued frames are the accepted frames in order, nothing
    lost and nothing sent twice; and while the connection is open the poller
    watches its descriptor for writability exactly while frames are queued.
    When it closed, the descriptor is not registered any more. *)
Theorem send_in_order (p : P) ch (s : T) ops :
  poller_ok s -> channel_ok ch -> isWriting ch = false -> fd_ok (ch_fd ch) ->
  protocal_sizes p ->
  Forall (fun op => match op with CSend f => zlen f <= getMaxFrameSize p | _ => True end) ops ->
  exists t s1 acc sent open t' s', setProtocal p ch s = Some (t, s1) /\
    conn_run ops t s1 = Some (acc, sent, open, t', s') /\
    concat acc = sent ++ concat (frames_of (writeCache t')) /\
    if open then conn_ok t' s' else interest s' !! ch_fd (channel t') = None.
Proof.
  intros Hp Hc Hnw Hfd Hsz Hops.
  destruct (setProtocal_spec p ch s) as (t & s1 & -> & Hok & Hpt & Hfr & _); [done..|].
  destruct (conn_run_spec ops t s1) as (acc & sent & open & t' & s' & Hrun & Hcat & Hend);
    [done|by rewrite Hpt|].
  rewrite Hfr in Hcat. simpl in Hcat. exists t, s1, acc, sent, open, t', s'. done.
Qed.

(** Closing is not final.  When the peer closes while the connection is
    registered, [on_recv] disconnects and unregisters the descriptor; but if the
    same epoll event also reports writability, [handleIoEvent] goes on to
    [on_write], and once the queue is drained its [sync] registers the closed
    connection's descriptor again, for reading. *)
Theorem close_then_write_reregisters (t : TcpConnection P) (s : T) net sent t2 s2 :
  conn_ok t s ->
  on_write net (set_read (readCache t) (protocal t) t) (stop (channel t) s)
    = Some (sent, [], t2, s2) ->
  frames_of (writeCache t2) = [] ->
  on_recv [RecvOk []] t s
    = Some ([disconnected], set_read (readCache t) (protocal t) t, stop (channel t) s) /\
  interest (stop (channel t) s) !! ch_fd (channel t) = None /\
  interest s2 !! ch_fd (channel t) = Some (ch_id (channel t), EVENT_IN).
Proof.
  intros (Hp & Hc & Hfd & Hrd & Hi & _) Hrun Hempty.
  assert (Hne : (ch_fd (channel t) =? INVALID_SOCKET) = false)
    by (apply Z.eqb_neq; by apply fd_ok_valid).
  assert (Hstop : stop (channel t) s = removeChannel (ch_fd (channel t)) s)
    by (unfold stop; by rewrite Hne).
  destruct (remove_spec (ch_fd (channel t)) s Hp) as (R1 & R2 & R3).
  split; [|split].
  - simpl. by rewrite take_nil.
  - rewrite Hstop, R3. apply lookup_delete_eq.
  - unfold on_write in Hrun. cbn [writeCache set_read] in Hrun.
    destruct (write_loop (S (length net)) net (writeCache t)) as [[[sent' c] closed]|] eqn:Hw;
      cbn [mbind option_bind] in Hrun; [|done].
    destruct closed; [done|].
    destruct (frame_count c =? 0) eqn:Hz.
    2: { simplify_eq. apply Z.eqb_neq in Hz. rewrite frame_count_zero in Hz. done. }
    destruct (disableWriting_bits (channel t) Hc) as (B1 & B2 & B3 & B4).
    rewrite Hrd in B3, B4.
    destruct (sync_registered (disableWriting (channel t)) (channel t) (stop (channel t) s))
      as (s' & Hsync & _ & _ & Hint);
      [by rewrite Hstop|done|done|done|done|done| |].
    + intros id e. simpl. rewrite Hstop, R3, lookup_delete_eq. done.
    + cbn [channel set_read set_write] in Hrun. rewrite Hsync in Hrun. simplify_eq/=.
      rewrite Hint. simpl. rewrite lookup_insert_eq. do 2 f_equal.
      transitivity (events (disableWriting (channel t))); [done|].
      rewrite B1. by rewrite B2, B3.
Qed.
End Properties.

(** ** A connection with the stream codec on the epoll poller *)

Definition demo_codec : ProtocalStream := new_ProtocalStream 200 100 50 (fun _ => 1000).
Definition demo_channel : IoChannel := new_IoChannel 1 5.
Definition demo_frame (k : Z) : list Z :=
  packet_head [k] [3; 4] 1000 ++ xor_mask (be_bytes 8 1000) ([k] ++ [3; 4]).

Lemma demo_codec_ok : stream_ok 1000 1000 demo_codec.
Proof. split; [intros; simpl; lia|]. vm_compute. intuition congruence. Qed.

Lemma demo_sizes : protocal_sizes demo_codec.
Proof. vm_compute. intuition congruence. Qed.

Lemma demo_frame_wire k : wire_frame (stream_ok 1000 1000) (codec_config demo_codec) (demo_frame k).
Proof. apply packet_wire_frame; vm_compute; intuition congruence. Qed.

(** Two frames in three reads of two events: one has been delivered when the
    second is still two bytes short. *)
Lemma recv_any_segmentation_witness :
  let rest := drop 17 (demo_frame 2) in
  let batches := [[take 7 (demo_frame 1)]; [drop 7 (demo_frame 1); take 17 (demo_frame 2)]] in
  exists rc p' fs1 fs2 t s1,
    setProtocal demo_codec demo_channel (epoll_empty {[1%positive]}) = Some (t, s1) /\
    recv_events (map (fun ds => map RecvOk ds ++ [RecvAgain]) batches) t s1
      = Some (map notifyFrame fs1, set_read rc p' t, s1) /\
    [demo_frame 1; demo_frame 2] = fs1 ++ fs2 /\ frames_of rc = [] /\
    pending_of rc ++ rest = concat fs2.
Proof.
  destruct (setProtocal demo_codec demo_channel (epoll_empty {[1%positive]})) as [[t s1]|] eqn:Hs;
    [|discriminate Hs].
  destruct (recv_any_segmentation (stream_ok 1000 1000) demo_codec demo_channel
      (epoll_empty {[1%positive]}) [demo_frame 1; demo_frame 2]
      [[take 7 (demo_frame 1)]; [drop 7 (demo_frame 1); take 17 (demo_frame 2)]]
      (drop 17 (demo_frame 2)) t s1)
    as (rc & p' & fs1 & fs2 & H1 & H2 & H3 & H4 & _).
  - exact demo_codec_ok.
  - exact demo_sizes.
  - repeat constructor; first [apply demo_frame_wire | vm_compute; congruence].
  - repeat constructor; vm_compute; congruence.
  - reflexivity.
  - exact Hs.
  - exists rc, p', fs1, fs2, t, s1. split; [reflexivity|]. split; [exact H1|].
    split; [exact H2|]. split; [exact H3|exact H4].
Defined.

Definition demo_ops : list conn_op :=
  [CSend (demo_frame 1); CSend (demo_frame 2); CWrite [SendOk 5; SendAgain];
   CWrite [SendOk 100; SendOk 2]; CSend (demo_frame 3)].

Lemma send_in_order_witness :
  exists t s1 acc sent open t' s',
    setProtocal demo_codec demo_channel (epoll_empty {[1%positive]}) = Some (t, s1) /\
    conn_run demo_ops t s1 = Some (acc, sent, open, t', s') /\
    concat acc = sent ++ concat (frames_of (writeCache t')) /\
    if open then conn_ok t' s' else interest s' !! ch_fd (channel t') = None.
Proof.
  apply (send_in_order demo_codec demo_channel (epoll_empty {[1%positive]}) demo_ops).
  - apply empty_ok.
  - reflexivity.
  - reflexivity.
  - vm_compute; congruence.
  - exact demo_sizes.
  - repeat constructor; vm_compute; congruence.
Defined.

(** The peer closes a connection that has nothing to send while the socket is
    writable. *)
Definition demo_conn : TcpConnection ProtocalStream :=
  mkConn _ (enableReading demo_channel) (new_cache demo_codec 200) (new_cache demo_codec 200)
    demo_codec.
Definition demo_poller : EpollTaskScheduler :=
  epoll_updateChannel (enableReading demo_channel)
    (epoll_removeChannel 5 (epoll_empty {[1%positive]})).

Lemma demo_conn_ok : conn_ok demo_conn demo_poller.
Proof.
  destruct (setProtocal_spec demo_codec demo_channel (epoll_empty {[1%positive]}))
    as (t & s & Hset & Hok & _ & _ & _);
    [apply empty_ok|reflexivity|reflexivity|vm_compute; congruence|exact demo_sizes|].
  change (Some (demo_conn, demo_poller) = Some (t, s)) in Hset. by injection Hset as <- <-.
Qed.

Lemma close_then_write_reregisters_witness :
  exists t2 s2,
    on_write [] (set_read (readCache demo_conn) demo_codec demo_conn)
      (stop (channel demo_conn) demo_poller) = Some ([], [], t2, s2) /\
    interest (stop (channel demo_conn) demo_poller) !! 5 = None /\
    interest s2 !! 5 = Some (1%positive, EVENT_IN).
Proof.
  destruct (on_write [] (set_read (readCache demo_conn) demo_codec demo_conn)
      (stop (channel demo_conn) demo_poller)) as [[[[sent sg] t2] s2]|] eqn:Hw;
    [|discriminate Hw].
  assert (Hx : sent = [] /\ sg = [] /\ frames_of (writeCache t2) = [])
    by (vm_compute in Hw; injection Hw as <- <- <- <-; auto).
  destruct Hx as (-> & -> & Hf).
  exists t2, s2. split; [reflexivity|].
  apply (close_then_write_reregisters demo_conn demo_poller [] [] t2 s2 demo_conn_ok Hw Hf).
Defined.
