(* ===== verification/WebsocketApi.v ===== *)
(** A websocket connection: src/imp/network/websocket/websocket_api_base.cpp.

    [WebsocketApiBase] is a [TcpConnection] over [ProtocalWebsocket] that answers the frames of its
    peer.  The masks of the frames of an active end come from the random numbers of the standard
    library: [random_key n] is the [n]-th of them. *)
From S2P Require Import Prelude Codec IcacheBuffer StreamProtocol Scheduler TcpConnection Websocket.

Record WebsocketApiBase := mkApi {
  conn : TcpConnection ProtocalWebsocket;
  isPassive : bool;
  drawn : nat
}.

Definition set_conn (t : TcpConnection ProtocalWebsocket) (a : WebsocketApiBase) : WebsocketApiBase :=
  mkApi t (isPassive a) (drawn a).

(** A readable event with the results of its reads, a writable event with those of its sends. *)
Inductive api_event :=
  | EvRead (net : list recv_result)
  | EvWrite (net : list send_result).

Section Api.
Context {T : Type} `{Poller T} (random_key : nat -> list Z).
Implicit Types (a : WebsocketApiBase) (s : T).

(** The constructor. *)
Definition new_WebsocketApiBase (is_passive : bool) (p : ProtocalWebsocket) (ch : IoChannel) s
  : option (WebsocketApiBase * T) :=
  '(t, s1) ← setProtocal p ch s;
  Some (mkApi t is_passive 0, s1).

(** [sendFrame]: that of the base class without its copy. *)
Definition api_sendFrame (frame : list Z) a s : option (bool * WebsocketApiBase * T) :=
  '(b, t, s1) ← sendFrame frame (conn a) s;
  Some (b, set_conn t a, s1).

(** [on_close]; [on_error] does the same. *)
Definition api_on_close a s : list conn_signal * T := on_close (conn a) s.

Definition sendWebsocketFrame (type : WS_FrameType) (payload : list Z) a s
  : option (bool * list conn_signal * WebsocketApiBase * T) :=
  let payload_len := zlen payload in
  buf ← memcpy_at (replicate (Z.to_nat (u32 (payload_len + 1))) 0) 0 payload;
  let frame_copy := take (Z.to_nat payload_len) buf in
  let use_mask := negb (isPassive a) in
  frame ← ws_packetFrame frame_copy use_mask (random_key (drawn a)) type true;
  let a1 := if use_mask then mkApi (conn a) (isPassive a) (S (drawn a)) else a in
  '(sent, a2, s1) ← api_sendFrame frame a1 s;
  if (sent : bool) then Some (true, [], a2, s1)
  else let '(sg, s2) := api_on_close a2 s1 in Some (false, sg, a2, s2).

(** The handlers of frames: the signals they emit. *)
Definition handleTextFrame (payload : list Z) a s : option (list conn_signal * WebsocketApiBase * T) :=
  '(_, sg, a1, s1) ← sendWebsocketFrame WS_TEXT_FRAME payload a s;
  Some (sg, a1, s1).

Definition handlePingFrame (payload : list Z) a s : option (list conn_signal * WebsocketApiBase * T) :=
  '(_, sg, a1, s1) ← sendWebsocketFrame WS_PONG_FRAME payload a s;
  Some (sg, a1, s1).

Definition handlePongFrame (payload : list Z) a s : option (list conn_signal * WebsocketApiBase * T) :=
  Some ([], a, s).

Definition handleCloseFrame (payload : list Z) a s : option (list conn_signal * WebsocketApiBase * T) :=
  let '(sg, s1) := api_on_close a s in Some (sg, a, s1).

Definition handleOtherFrame (payload : list Z) a s : option (list conn_signal * WebsocketApiBase * T) :=
  Some ([], a, s).

Definition handleWebsocketFrame (h : WSFrameHeader) (payload : list Z) a s
  : option (list conn_signal * WebsocketApiBase * T) :=
  if opcode h =? 1 then handleTextFrame payload a s
  else if opcode h =? 8 then handleCloseFrame payload a s
  else if opcode h =? 9 then handlePingFrame payload a s
  else if opcode h =? 10 then handlePongFrame payload a s
  else handleOtherFrame payload a s.

(** The inner loop of [on_recv]. *)
Fixpoint frames_loop (fuel : nat) a s : option (list conn_signal * WebsocketApiBase * T) :=
  match fuel with
  | O => None
  | S fuel' =>
      '(frame, c) ← popFrame (readCache (conn a));
      let a1 := set_conn (set_read c (protocal (conn a)) (conn a)) a in
      if 0 <? zlen frame then
        '(sg, a2, s2) ← (match ws_recv_frame frame with
                         | Some (h, payload) => handleWebsocketFrame h payload a1 s
                         | None => Some ([], a1, s)
                         end);
        '(sg', a3, s3) ← frames_loop fuel' a2 s2;
        Some (sg ++ sg', a3, s3)
      else Some ([], a1, s)
  end.

(** [on_recv] *)
Fixpoint api_on_recv (net : list recv_result) a s : option (list conn_signal * WebsocketApiBase * T) :=
  match net with
  | [] => Some ([], a, s)
  | r :: net' =>
      '(ret, c, p) ← stream_readFromFd (protocal (conn a)) r (readCache (conn a));
      let a1 := set_conn (set_read c p (conn a)) a in
      if ret <? 0 then Some ([], a1, s)
      else if ret =? 0 then let '(sg, s1) := api_on_close a1 s in Some (sg, a1, s1)
      else
        '(sg, a2, s2) ← frames_loop (S (length (frame_cache_map c))) a1 s;
        '(sg', a3, s3) ← api_on_recv net' a2 s2;
        Some (sg ++ sg', a3, s3)
  end.

(** [on_write]: that of the base class, word for word. *)
Definition api_on_write (net : list send_result) a s
  : option (list Z * list conn_signal * WebsocketApiBase * T) :=
  '(sent, sg, t, s1) ← on_write net (conn a) s;
  Some (sent, sg, set_conn t a, s1).

(** The events of a connection until it is disconnected: what was sent, and the signals. *)
Fixpoint api_run (evs : list api_event) a s : option (list Z * list conn_signal * WebsocketApiBase * T) :=
  match evs with
  | [] => Some ([], [], a, s)
  | ev :: evs' =>
      '(sent, sg, a1, s1) ← (match ev with
                             | EvRead net => '(sg, a1, s1) ← api_on_recv net a s; Some ([], sg, a1, s1)
                             | EvWrite net => api_on_write net a s
                             end);
      match sg with
      | [] => '(sent', sg', a2, s2) ← api_run evs' a1 s1; Some (sent ++ sent', sg', a2, s2)
      | _ => Some (sent, sg, a1, s1)
      end
  end.

End Api.

(** ** What a connection answers *)

Record message := mkMessage { m_type : WS_FrameType; m_payload : list Z; m_key : list Z; m_fin : bool }.

(** The frame of a client. *)
Definition client_packet (m : message) : option (list Z) :=
  ws_packetFrame (m_payload m) true (m_key m) (m_type m) (m_fin m).
Definition client_frame (m : message) : list Z :=
  ws_head true (m_key m) (m_type m) (m_fin m) (zlen (m_payload m)) ++ ws_body true (m_key m) (m_payload m).

(** The type of the answer: texts are echoed, pings get their pong. *)
Definition answer_type (t : WS_FrameType) : option WS_FrameType :=
  match t with
  | WS_TEXT_FRAME => Some WS_TEXT_FRAME
  | WS_PING_FRAME => Some WS_PONG_FRAME
  | _ => None
  end.

(** The frame of a server. *)
Definition server_frame (t : WS_FrameType) (payload : list Z) : list Z :=
  ws_head false [] t true (zlen payload) ++ payload.
Definition answer (m : message) : list (list Z) :=
  match answer_type (m_type m) with Some t => [server_frame t (m_payload m)] | None => [] end.
Definition answers (ms : list message) : list (list Z) := concat (map answer ms).

(** What the peer may send: frames that fit, none that closes the connection. *)
Definition message_ok (p : ProtocalWebsocket) (m : message) : Prop :=
  zlen (m_key m) = 4 /\ bytes_ok (m_key m) /\ zlen (m_payload m) <> 65536 /\ m_type m <> WS_CONNECTION_CLOSE_FRAME /\
  zlen (m_payload m) + 14 <= getMaxFrameSize p /\ zlen (m_payload m) + 14 + getSliceSize p <= getMaxCacheSize p.

(** An event of the network: chunks that arrive, or what the kernel takes. *)
Abbreviation arrival := (list (list Z) + list send_result)%type.
Definition event_of (e : arrival) : api_event :=
  match e with
  | inl ds => EvRead (map RecvOk ds ++ [RecvAgain])
  | inr net => EvWrite net
  end.
Definition received (evs : list arrival) : list Z :=
  concat (map (fun e => match e with inl ds => concat ds | inr _ => [] end) evs).
Definition arrival_ok (p : ProtocalWebsocket) (e : arrival) : Prop :=
  match e with inl ds => Forall (fun d => 0 < zlen d <= getSliceSize p) ds | inr _ => True end.

(** The kernel refuses to send. *)
Definition send_fails (e : arrival) : Prop := match e with inl _ => False | inr net => Exists refuses net end.

(** ** Examples *)

(** "hi", then a ping, from a client. *)
Definition hi : message := mkMessage WS_TEXT_FRAME [104; 105] [1; 2; 3; 4] true.
Definition ping : message := mkMessage WS_PING_FRAME [7] [9; 9; 9; 9] true.
Definition closing : message := mkMessage WS_CONNECTION_CLOSE_FRAME [] [0; 0; 0; 0] true.
Definition demo_ws : ProtocalWebsocket := new_ProtocalWebsocket 200 100 50.
Definition no_key (n : nat) : list Z := [0; 0; 0; 0].
Definition demo_run (msgs : list message) : option (list Z * list conn_signal * option (positive * Z)) :=
  '(a, s) ← new_WebsocketApiBase true demo_ws (new_IoChannel 1 5) (epoll_empty {[1%positive]});
  '(sent, sg, a', s') ← api_run no_key [EvRead [RecvOk (concat (map client_frame msgs)); RecvAgain]; EvWrite [SendOk 100; SendOk 100]] a s;
  Some (sent, sg, interest s' !! 5).

Example echo_and_pong : demo_run [hi; ping] = Some ([129; 2; 104; 105; 138; 1; 7], [], Some (1%positive, EVENT_IN)).
Proof. vm_compute. reflexivity. Qed.

(** What follows a closing frame is still answered, and the answer registers the
    descriptor of the closed connection again. *)
Example closed_and_registered : demo_run [closing; hi] = Some ([], [disconnected], Some (1%positive, Z.lor EVENT_IN EVENT_OUT)).
Proof. vm_compute. reflexivity. Qed.

(** ** One answer *)

Section Spec.
Context {T : Type} `{PollerLaws T} (random_key : nat -> list Z).
Implicit Types (a : WebsocketApiBase) (s : T) (t : TcpConnection ProtocalWebsocket).

(** A frame that has room in the queue. *)
Lemma sendFrame_fits frame t s :
  conn_ok t s -> 0 < zlen frame <= getMaxFrameSize (protocal t) -> unread (writeCache t) + zlen frame <= c_max (writeCache t) ->
  exists t' s', sendFrame frame t s = Some (true, t', s') /\ conn_ok t' s' /\ protocal t' = protocal t /\
    readCache t' = readCache t /\ ch_fd (channel t') = ch_fd (channel t) /\
    frames_of (writeCache t') = frames_of (writeCache t) ++ [frame] /\
    unread (writeCache t') = unread (writeCache t) + zlen frame /\ c_max (writeCache t') = c_max (writeCache t).
Proof.
  intros Hok Hlen Hfit. destruct (sendFrame_spec frame t s Hok) as (b & t' & s' & Hs & Hok' & Hp & -> & Hf); [lia|].
  rewrite bool_decide_true in Hs, Hf by (by right). rewrite (proj2 (Z.ltb_lt 0 (zlen frame))) in Hf by lia. cbn [andb] in Hf.
  exists t', s'. split; [done|]. split; [done|]. split; [done|].
  pose proof Hok as (_ & _ & _ & _ & _ & Hwf & Hsz & Hpd & _).
  unfold sendFrame in Hs. rewrite (proj2 (Z.eqb_neq (zlen frame) 0)) in Hs by lia.
  destruct (appendFrame (protocal t) frame (writeCache t)) as [[r wc]|] eqn:Ha; cbn [mbind option_bind] in Hs; [|done].
  destruct (appendFrame_unread _ _ _ _ _ Hwf Hsz Hpd Hlen Hfit Ha) as [Hu Hm].
  destruct (frame_count wc =? 1); cbn [mbind option_bind] in Hs.
  - destruct (sync _ s) as [s2|]; cbn [mbind option_bind] in Hs; [|done]. by injection Hs as _ <- <-.
  - by injection Hs as _ <- <-.
Qed.

(** What an operation adds to the queue. *)
Definition adds (out : list (list Z)) a s a' s' : Prop :=
  isPassive a' = isPassive a /\ conn_ok (conn a') s' /\ protocal (conn a') = protocal (conn a) /\
  ch_fd (channel (conn a')) = ch_fd (channel (conn a)) /\
  frames_of (writeCache (conn a')) = frames_of (writeCache (conn a)) ++ out /\
  unread (writeCache (conn a')) = unread (writeCache (conn a)) + zlen (concat out) /\
  c_max (writeCache (conn a')) = c_max (writeCache (conn a)).

Lemma adds_refl a s : conn_ok (conn a) s -> adds [] a s a s.
Proof.
  intros Hok. do 4 (split; [done|]). split; [by rewrite app_nil_r|]. split; [|done]. change (zlen (concat (@nil (list Z)))) with 0. lia.
Qed.

Lemma adds_trans out1 out2 a1 s1 a2 s2 a3 s3 : adds out1 a1 s1 a2 s2 -> adds out2 a2 s2 a3 s3 -> adds (out1 ++ out2) a1 s1 a3 s3.
Proof.
  intros (P1 & C1 & R1 & D1 & F1 & U1 & M1) (P2 & C2 & R2 & D2 & F2 & U2 & M2).
  split; [congruence|]. split; [done|]. split; [congruence|]. split; [congruence|]. split; [by rewrite F2, F1, app_assoc|].
  split; [|congruence]. rewrite concat_app, zlen_app. lia.
Qed.

(** There is room for so many bytes. *)
Definition room a n : Prop := unread (writeCache (conn a)) + n <= c_max (writeCache (conn a)).

Lemma server_frame_ok (p : ProtocalWebsocket) ty payload key :
  zlen payload <> 65536 -> zlen payload + 14 <= getMaxFrameSize p -> getMaxFrameSize p < 2 ^ 32 - 1 ->
  ws_packetFrame payload false key ty true = Some (server_frame ty payload) /\ wire_frame ws_ok (ws_config p) (server_frame ty payload) /\
  exists h, ws_recv_frame (server_frame ty payload) = Some (h, payload) /\ opcode h = frame_type_value ty /\ MASK h = false.
Proof.
  intros Hne Hm Hm2. destruct (ws_exchange (ws_config p) payload false [0; 0; 0; 0] ty true) as (H1 & H2 & H3); try done.
  { repeat constructor; done. }
  split_and!; [exact H1|exact H2|]. eexists. split; [exact H3|done].
Qed.

Lemma client_frame_ok (p : ProtocalWebsocket) m : message_ok p m -> getMaxFrameSize p < 2 ^ 32 - 1 ->
  client_packet m = Some (client_frame m) /\ deliverable ws_ok p (client_frame m) /\
  exists h, ws_recv_frame (client_frame m) = Some (h, m_payload m) /\ opcode h = frame_type_value (m_type m).
Proof.
  intros (Hk & Hkb & Hne & _ & Hm & Hc) Hm2.
  destruct (ws_exchange (ws_config p) (m_payload m) true (m_key m) (m_type m) (m_fin m)) as (H1 & H2 & H3); try done.
  split_and!; [exact H1|split; [exact H2|]|eexists; split; [exact H3|done]].
  unfold client_frame. rewrite zlen_app, zlen_ws_head by done. unfold ws_body. rewrite zlen_xor_mask.
  assert (zlen (length_fields (zlen (m_payload m))).2 <= 8); [|lia]. unfold length_fields.
  destruct (_ <? _); [vm_compute; discriminate|]. destruct (_ <=? _); vm_compute; discriminate.
Qed.

Lemma frame_copy (payload : list Z) : zlen payload + 1 < 2 ^ 32 ->
  memcpy_at (replicate (Z.to_nat (u32 (zlen payload + 1))) 0) 0 payload = Some (payload ++ [0]).
Proof.
  intros Hl. pose proof (zlen_nonneg payload). rewrite wrap_small by lia.
  replace (Z.to_nat (zlen payload + 1)) with (length payload + 1)%nat by (unfold zlen; lia).
  rewrite replicate_add. exact (memcpy_at_mid [] (replicate (length payload) 0) [0] payload ltac:(unfold zlen; by rewrite length_replicate)).
Qed.

Lemma zlen_server_frame ty payload : 0 < zlen (server_frame ty payload) <= zlen payload + 14.
Proof.
  unfold server_frame, ws_head. rewrite !zlen_app. change (zlen [_; _]) with 2. change (zlen (@nil Z)) with 0.
  pose proof (zlen_nonneg payload). pose proof (zlen_nonneg (length_fields (zlen payload)).2).
  assert (zlen (length_fields (zlen payload)).2 <= 8); [|lia]. unfold length_fields.
  destruct (_ <? _); [vm_compute; discriminate|]. destruct (_ <=? _); vm_compute; discriminate.
Qed.

Lemma answer_sent ty payload a s :
  isPassive a = true -> conn_ok (conn a) s -> zlen payload <> 65536 -> zlen payload + 14 <= getMaxFrameSize (protocal (conn a)) ->
  getMaxFrameSize (protocal (conn a)) < 2 ^ 32 - 1 -> room a (zlen (server_frame ty payload)) ->
  exists a' s', sendWebsocketFrame random_key ty payload a s = Some (true, [], a', s') /\
    adds [server_frame ty payload] a s a' s' /\ readCache (conn a') = readCache (conn a).
Proof.
  intros Hpass Hok Hne Hm Hm2 Hroom. unfold sendWebsocketFrame. rewrite frame_copy by lia. cbn [mbind option_bind].
  rewrite take_app_length' by (unfold zlen; lia). rewrite Hpass. cbn [negb].
  destruct (server_frame_ok (protocal (conn a)) ty payload (random_key (drawn a)) Hne Hm Hm2) as (-> & _ & _). cbn [mbind option_bind].
  unfold api_sendFrame. pose proof (zlen_server_frame ty payload).
  destruct (sendFrame_fits (server_frame ty payload) (conn a) s) as (t' & s' & -> & Hok' & Hp & Hr & Hd & Hf & Hu & Hc);
    [done|lia|exact Hroom|]. cbn [mbind option_bind].
  exists (set_conn t' a), s'. split; [done|]. split; [|done]. split; [done|]. do 4 (split; [done|]). split; [|done].
  cbn [concat]. by rewrite app_nil_r.
Qed.

(** One frame of the peer. *)
Lemma handle_answers m h a s :
  isPassive a = true -> conn_ok (conn a) s -> message_ok (protocal (conn a)) m -> getMaxFrameSize (protocal (conn a)) < 2 ^ 32 - 1 ->
  opcode h = frame_type_value (m_type m) -> room a (zlen (concat (answer m))) ->
  exists a' s', handleWebsocketFrame random_key h (m_payload m) a s = Some ([], a', s') /\
    adds (answer m) a s a' s' /\ readCache (conn a') = readCache (conn a).
Proof.
  intros Hpass Hok (_ & _ & Hne & Hclose & Hm & _) Hm2 Hop Hroom. unfold handleWebsocketFrame. rewrite Hop. unfold answer in *.
  destruct (m_type m); cbn [answer_type concat] in *; try done;
    try (exists a, s; split; [done|]; split; [by apply adds_refl|done]);
    rewrite app_nil_r in Hroom; cbn [frame_type_value Z.eqb Pos.eqb]; unfold handleTextFrame, handlePingFrame.
  - destruct (answer_sent WS_TEXT_FRAME (m_payload m) a s) as (a' & s' & -> & Had & Hr); try done. by exists a', s'.
  - destruct (answer_sent WS_PONG_FRAME (m_payload m) a s) as (a' & s' & -> & Had & Hr); try done. by exists a', s'.
Qed.

Lemma set_read_conn_ok c p t s : conn_ok t s -> protocal t = p -> conn_ok (set_read c p t) s.
Proof. intros Hok <-. exact Hok. Qed.

Lemma answers_cut ms1 ms2 : answers (ms1 ++ ms2) = answers ms1 ++ answers ms2.
Proof. unfold answers. by rewrite map_app, concat_app. Qed.

(** The frames that are complete. *)
Lemma frames_loop_answers fuel ms : forall a s c',
  isPassive a = true -> conn_ok (conn a) s -> Forall (message_ok (protocal (conn a))) ms -> getMaxFrameSize (protocal (conn a)) < 2 ^ 32 - 1 ->
  room a (zlen (concat (answers ms))) -> pop_all fuel (readCache (conn a)) = Some (map client_frame ms, c') ->
  exists a' s', frames_loop random_key fuel a s = Some ([], a', s') /\ adds (answers ms) a s a' s' /\ readCache (conn a') = c'.
Proof.
  revert ms. induction fuel as [|fuel IH]; intros ms a s c' Hpass Hok Hms Hm2 Hroom Hpop; [done|]. cbn [pop_all frames_loop] in *.
  destruct (popFrame (readCache (conn a))) as [[f c1]|]; cbn [mbind option_bind] in *; [|done].
  set (a1 := set_conn _ a). assert (adds [] a s a1 s) as Ha1 by exact (adds_refl a s Hok).
  destruct (0 <? zlen f).
  - destruct (pop_all fuel c1) as [[fs c2]|] eqn:Hrest; cbn [mbind option_bind] in Hpop; [|done]. injection Hpop as Hfs ->.
    destruct ms as [|m ms]; [done|]. cbn [map] in Hfs. injection Hfs as -> ->. apply Forall_cons in Hms as [Hm Hms].
    destruct (client_frame_ok (protocal (conn a)) m Hm Hm2) as (_ & _ & h & -> & Hop).
    change (answers (m :: ms)) with (answer m ++ answers ms) in *. rewrite concat_app, zlen_app in Hroom.
    destruct (handle_answers m h a1 s) as (a2 & s2 & -> & Ha2 & Hr2); try done.
    { unfold room in *. pose proof (zlen_nonneg (concat (answers ms))). cbn [a1 conn set_conn set_read writeCache]. lia. }
    cbn [mbind option_bind]. pose proof Ha2 as (Hp2 & Hok2 & Hpr2 & _ & _ & Hu2 & Hc2).
    destruct (IH ms a2 s2 c') as (a3 & s3 & -> & Ha3 & Hr3).
    + by rewrite Hp2.
    + done.
    + by rewrite Hpr2.
    + by rewrite Hpr2.
    + unfold room in *. rewrite Hu2, Hc2. cbn [a1 conn set_conn set_read writeCache]. lia.
    + by rewrite Hr2.
    + cbn [mbind option_bind]. exists a3, s3. split; [done|]. split; [|done].
      exact (adds_trans _ _ _ _ _ _ _ _ Ha2 Ha3).
  - injection Hpop as Hfs <-. destruct ms; [|done]. by exists a1, s.
Qed.

Lemma ws_config_eq (p p' : ProtocalWebsocket) : codec_config p' = codec_config p -> p' = p.
Proof. destruct p, p'. by cbn; intros ->. Qed.

Lemma client_frames_deliverable p ms : getMaxFrameSize p < 2 ^ 32 - 1 -> Forall (message_ok p) ms ->
  Forall (deliverable ws_ok p) (map client_frame ms).
Proof.
  intros Hm2 Hms. apply Forall_map. eapply Forall_impl; [exact Hms|]. intros m Hm. by destruct (client_frame_ok p m Hm Hm2) as (_ & ? & _).
Qed.

(** The reads of one event. *)
Lemma api_on_recv_answers ds : forall ms a s y,
  isPassive a = true -> conn_ok (conn a) s -> ws_ok (protocal (conn a)) -> protocal_sizes (protocal (conn a)) ->
  Forall (message_ok (protocal (conn a))) ms -> room a (zlen (concat (answers ms))) ->
  Forall (fun d => 0 < zlen d <= getSliceSize (protocal (conn a))) ds ->
  awaiting (protocal (conn a)) (map client_frame ms) (readCache (conn a)) (concat ds ++ y) ->
  exists a' s' ms1 ms2, api_on_recv random_key (map RecvOk ds ++ [RecvAgain]) a s = Some ([], a', s') /\ ms = ms1 ++ ms2 /\
    adds (answers ms1) a s a' s' /\ awaiting (protocal (conn a')) (map client_frame ms2) (readCache (conn a')) y.
Proof.
  induction ds as [|d ds IH]; intros ms a s y Hpass Hok Hws Hsz Hms Hroom Hds Haw; cbn [map app api_on_recv].
  - exists (set_conn (set_read (readCache (conn a)) (protocal (conn a)) (conn a)) a), s, [], ms.
    split; [done|]. split; [done|]. split; [exact (adds_refl a s Hok)|exact Haw].
  - apply Forall_cons in Hds as [Hd Hds]. cbn [concat] in Haw. rewrite <- app_assoc in Haw.
    assert (getMaxFrameSize (protocal (conn a)) < 2 ^ 32 - 1) as Hm2 by (destruct Hsz as (? & ? & ?); lia).
    destruct (readFromFd_wire ws_ok (protocal (conn a)) d (map client_frame ms) (readCache (conn a)) (concat ds ++ y))
      as (c1 & c2 & p1 & fs1 & fs2 & Hread & Hpop & _ & Hc1 & Hfs & Haw2); try done.
    { by apply client_frames_deliverable. }
    apply ws_config_eq in Hc1 as ->. rewrite Hread. cbn [mbind option_bind].
    rewrite (proj2 (Z.ltb_ge _ _)) by lia. rewrite (proj2 (Z.eqb_neq (zlen d) 0)) by lia.
    apply map_eq_app in Hfs as (ms1 & ms2 & -> & <- & <-). apply Forall_app in Hms as [Hms1 Hms2].
    rewrite answers_cut, concat_app, zlen_app in Hroom.
    set (a1 := set_conn _ a).
    destruct (frames_loop_answers (S (length (frame_cache_map c1))) ms1 a1 s c2) as (a2 & s2 & Hloop & Ha2 & Hr2); try done.
    { unfold room in *. pose proof (zlen_nonneg (concat (answers ms2))). cbn [a1 conn set_conn set_read writeCache]. lia. }
    rewrite Hloop. cbn [mbind option_bind]. pose proof Ha2 as (Hp2 & Hok2 & Hpr2 & _ & _ & Hu2 & Hcm2).
    cbn [a1 conn set_conn set_read protocal] in Hpr2.
    destruct (IH ms2 a2 s2 y) as (a3 & s3 & ms3 & ms4 & -> & -> & Ha3 & Haw3).
    + by rewrite Hp2.
    + done.
    + by rewrite Hpr2.
    + by rewrite Hpr2.
    + by rewrite Hpr2.
    + unfold room in *. rewrite Hu2, Hcm2. cbn [a1 conn set_conn set_read writeCache]. lia.
    + by rewrite Hpr2.
    + by rewrite Hpr2, Hr2.
    + cbn [mbind option_bind]. exists a3, s3, (ms1 ++ ms3), ms4. split; [done|]. split; [by rewrite app_assoc|]. split; [|done].
      rewrite answers_cut. exact (adds_trans _ _ _ _ _ _ _ _ Ha2 Ha3).
Qed.

(** A writable event. *)
Lemma api_on_write_spec net a s :
  conn_ok (conn a) s -> exists sent sg a' s', api_on_write net a s = Some (sent, sg, a', s') /\
    isPassive a' = isPassive a /\ protocal (conn a') = protocal (conn a) /\ readCache (conn a') = readCache (conn a) /\
    ch_fd (channel (conn a')) = ch_fd (channel (conn a)) /\
    concat (frames_of (writeCache (conn a))) = sent ++ concat (frames_of (writeCache (conn a'))) /\
    unread (writeCache (conn a')) <= unread (writeCache (conn a)) /\ c_max (writeCache (conn a')) = c_max (writeCache (conn a)) /\
    (sg = [] /\ conn_ok (conn a') s' \/
     sg = [disconnected] /\ Exists refuses net /\ interest s' !! ch_fd (channel (conn a)) = None).
Proof.
  intros Hok. destruct (on_write_spec net (conn a) s Hok) as (sent & sg & t' & s' & Hw & Hp & Hf & Hend).
  unfold api_on_write. rewrite Hw. cbn [mbind option_bind]. exists sent, sg, (set_conn t' a), s'. split; [done|]. split; [done|]. split; [done|].
  pose proof Hok as (_ & _ & _ & _ & _ & Hwf & (Hs1 & Hs2 & Hs3) & _). unfold on_write in Hw.
  destruct (write_loop (S (length net)) net (writeCache (conn a))) as [[[out c] cl]|] eqn:Hl; cbn [mbind option_bind] in Hw; [|done].
  destruct (write_loop_unread _ _ _ _ _ _ Hwf ltac:(lia) Hl) as (Hu & Hm & _).
  assert (readCache t' = readCache (conn a) /\ ch_fd (channel t') = ch_fd (channel (conn a)) /\ writeCache t' = c) as (Hr & Hd & Hwc).
  { destruct cl; [by injection Hw as _ _ <- _|]. destruct (frame_count c =? 0); [|by injection Hw as _ _ <- _].
    destruct (sync _ s); cbn [mbind option_bind] in Hw; [|done]. by injection Hw as _ _ <- _. }
  cbn [conn set_conn]. rewrite Hr, Hd, Hwc in *. do 3 (split; [done|]). split; [done|]. split; [done|].
  destruct Hend as [Hend|(-> & Hi)]; [by left|right]. split; [done|]. split; [|done]. destruct cl; [by eapply write_loop_refused|].
  destruct (frame_count c =? 0); [|done]. destruct (sync _ s); done.
Qed.

(** Where a run ends: the connection is open and the messages [ms1] are answered, or the kernel refused to
    send. *)
Definition run_ends (ms : list message) (y : list Z) (evs : list arrival) a s (sent : list Z) (sg : list conn_signal) a' s' : Prop :=
  exists ms1 ms2, ms = ms1 ++ ms2 /\
    concat (frames_of (writeCache (conn a))) ++ concat (answers ms1) = sent ++ concat (frames_of (writeCache (conn a'))) /\
    (sg = [] /\ conn_ok (conn a') s' /\ awaiting (protocal (conn a')) (map client_frame ms2) (readCache (conn a')) y \/
     sg = [disconnected] /\ Exists send_fails evs /\ interest s' !! ch_fd (channel (conn a)) = None).

Lemma api_run_answers evs : forall ms a s y,
  isPassive a = true -> conn_ok (conn a) s -> ws_ok (protocal (conn a)) -> protocal_sizes (protocal (conn a)) ->
  Forall (message_ok (protocal (conn a))) ms -> room a (zlen (concat (answers ms))) ->
  Forall (arrival_ok (protocal (conn a))) evs ->
  awaiting (protocal (conn a)) (map client_frame ms) (readCache (conn a)) (received evs ++ y) ->
  exists sent sg a' s', api_run random_key (map event_of evs) a s = Some (sent, sg, a', s') /\ run_ends ms y evs a s sent sg a' s'.
Proof.
  induction evs as [|ev evs IH]; intros ms a s y Hpass Hok Hws Hsz Hms Hroom Hevs Haw; cbn [map api_run].
  { exists [], [], a, s. split; [done|]. exists [], ms. split; [done|]. split; [cbn; by rewrite app_nil_r|]. by left. }
  apply Forall_cons in Hevs as [Hev Hevs]. destruct ev as [ds|net]; cbn [event_of arrival_ok] in *.
  - change (received (inl ds :: evs)) with (concat ds ++ received evs) in Haw. rewrite <- app_assoc in Haw.
    destruct (api_on_recv_answers ds ms a s (received evs ++ y)) as (a1 & s1 & ms1 & ms2 & -> & -> & Ha1 & Haw1); try done.
    cbn [mbind option_bind]. apply Forall_app in Hms as [_ Hms2]. rewrite answers_cut, concat_app, zlen_app in Hroom.
    destruct Ha1 as (Hp1 & Hok1 & Hpr1 & Hd1 & Hf1 & Hu1 & Hc1).
    destruct (IH ms2 a1 s1 y) as (sent & sg & a2 & s2 & -> & ms3 & ms4 & -> & Hsent & Hend); try done.
    { by rewrite Hp1. } { by rewrite Hpr1. } { by rewrite Hpr1. } { by rewrite Hpr1. }
    { unfold room in *. rewrite Hu1, Hc1. lia. }
    { by rewrite Hpr1. }
    cbn [mbind option_bind app]. exists sent, sg, a2, s2. split; [done|]. exists (ms1 ++ ms3), ms4. rewrite <- app_assoc. split; [done|].
    rewrite answers_cut, concat_app, app_assoc. split; [rewrite <- Hsent, Hf1; by rewrite concat_app|].
    rewrite <- Hd1. destruct Hend as [?|(? & ? & ?)]; [by left|right]. split_and!; try done. by right.
  - change (received (inr net :: evs)) with (received evs) in Haw.
    destruct (api_on_write_spec net a s Hok) as (sent1 & sg & a1 & s1 & -> & Hp1 & Hpr1 & Hr1 & Hd1 & Hf1 & Hu1 & Hc1 & Hend1).
    cbn [mbind option_bind]. destruct Hend1 as [[-> Hok1]|(-> & Href & Hi)].
    + destruct (IH ms a1 s1 y) as (sent & sg & a2 & s2 & -> & ms3 & ms4 & -> & Hsent & Hend); try done.
      { by rewrite Hp1. } { by rewrite Hpr1. } { by rewrite Hpr1. } { by rewrite Hpr1. }
      { unfold room in *. rewrite Hc1. lia. }
      { by rewrite Hpr1. } { by rewrite Hpr1, Hr1. }
      cbn [mbind option_bind]. exists (sent1 ++ sent), sg, a2, s2. split; [done|]. exists ms3, ms4. split; [done|].
      split; [rewrite Hf1, <- !app_assoc; by f_equal|].
      rewrite <- Hd1. destruct Hend as [?|(? & ? & ?)]; [by left|right]. split_and!; try done. by right.
    + exists sent1, [disconnected], a1, s1. split; [done|]. exists [], ms. split; [done|].
      split; [cbn; by rewrite app_nil_r|]. right. split; [done|]. split; [by left|done].
Qed.
End Spec.

(** C38. A server end of a websocket.  Let a client send any messages, masked and none of them closing the connection,
    and let any part of that stream arrive so far, in any number of readable events with any chunks, between writable events
    in which the kernel takes what it likes; let the answers fit the queue.  Then nothing fails; as long as the kernel does not
    refuse to send, the connection stays open and registered, and what was sent and what is queued are exactly
    the answers to the messages that have arrived completely, in order: the texts, and a pong for each ping; and the
    client reads each answer back as an unmasked frame of its type with the payload. *)
Theorem websocket_answers {T} `{PollerLaws T} random_key (p : ProtocalWebsocket) ch (s : T) msgs evs y :
  ws_ok p -> poller_ok s -> channel_ok ch -> isWriting ch = false -> fd_ok (ch_fd ch) -> protocal_sizes p ->
  Forall (message_ok p) msgs -> zlen (concat (answers msgs)) <= getMaxCacheSize p ->
  Forall (arrival_ok p) evs -> received evs ++ y = concat (map client_frame msgs) ->
  exists a s1 sent sg a' s' ms1 ms2,
    mapM client_packet msgs = Some (map client_frame msgs) /\
    new_WebsocketApiBase true p ch s = Some (a, s1) /\
    api_run random_key (map event_of evs) a s1 = Some (sent, sg, a', s') /\
    msgs = ms1 ++ ms2 /\ concat (answers ms1) = sent ++ concat (frames_of (writeCache (conn a'))) /\
    (sg = [] /\ conn_ok (conn a') s' /\ pending_of (readCache (conn a')) ++ y = concat (map client_frame ms2) /\
       match ms2 with [] => True | m :: _ => zlen (pending_of (readCache (conn a'))) < zlen (client_frame m) end \/
     sg = [disconnected] /\ Exists send_fails evs) /\
    Forall (fun m => match answer_type (m_type m) with
                     | Some t => wire_frame ws_ok (ws_config p) (server_frame t (m_payload m)) /\
                         exists h, ws_recv_frame (server_frame t (m_payload m)) = Some (h, m_payload m) /\ opcode h = frame_type_value t /\ MASK h = false
                     | None => True
                     end) msgs.
Proof.
  intros Hws Hp Hch Hnw Hfd Hsz Hms Hroom Hevs Hcat. pose proof Hsz as (Hz1 & Hz2 & Hz3).
  destruct (setProtocal_spec p ch s) as (t & s1 & Hset & Hok & Hpt & Hfr & Hrc); [done..|].
  assert (writeCache t = new_cache p (getMaxCacheSize p)) as Hwc.
  { unfold setProtocal in Hset. destruct (sync _ _); cbn [mbind option_bind] in Hset; [|done]. by injection Hset as <- _. }
  assert (Forall (deliverable ws_ok p) (map client_frame msgs)) as Hdel by (apply client_frames_deliverable; [lia|done]).
  set (a := mkApi t true 0).
  destruct (api_run_answers random_key evs msgs a s1 y) as (sent & sg & a' & s' & Hrun & ms1 & ms2 & Hcut & Hsent & Hend);
    cbn [a conn isPassive]; rewrite ?Hpt; try done.
  { unfold room. cbn [a conn]. rewrite Hwc. unfold unread, read_offset, new_cache. cbn. case_match; lia. }
  { rewrite Hrc, Hcat. split; [apply new_cache_wf; lia|]. split; [unfold sizes_ok, new_cache; cbn; case_match; lia|].
    split; [unfold new_cache; cbn; case_match; lia|]. split; [done|]. split; [done|].
    destruct msgs as [|m msgs']; [done|]. apply Forall_inv in Hdel as [[[? _] _] _]. done. }
  exists a, s1, sent, sg, a', s', ms1, ms2. split.
  { clear - Hms Hz3 Hz2 Hz1. induction Hms as [|m ms Hm _ IH]; [done|]. cbn [mapM map].
    destruct (client_frame_ok p m Hm ltac:(lia)) as (-> & _). cbn [mbind option_bind]. by rewrite IH. }
  split; [unfold new_WebsocketApiBase; by rewrite Hset|]. split; [done|]. split; [done|].
  split; [by cbn [a conn] in Hsent; rewrite Hfr in Hsent|]. split.
  - destruct Hend as [(-> & Hok' & _ & _ & _ & _ & Hpend & Hnext)|(-> & Href & _)]; [left|by right].
    do 2 (split; [done|]). split; [done|]. by destruct ms2.
  - eapply Forall_impl; [exact Hms|]. intros m (_ & _ & Hne & _ & Hm & _). destruct (answer_type (m_type m)) as [ty|]; [|done].
    by destruct (server_frame_ok p ty (m_payload m) [] Hne Hm ltac:(lia)) as (_ & ? & ?).
Qed.

(** The second message arrives in two pieces, the end of the third is still missing. *)
Definition demo_stream : list Z := concat (map client_frame [hi; ping; hi]).
Definition demo_events : list arrival :=
  [inl [slice 0 5 demo_stream]; inl [slice 5 5 demo_stream; slice 10 6 demo_stream]; inr [SendOk 3; SendAgain]].

Lemma websocket_answers_witness : exists a s1 sent sg a' s' ms1 ms2,
  new_WebsocketApiBase true demo_ws (new_IoChannel 1 5) (epoll_empty {[1%positive]}) = Some (a, s1) /\
  api_run no_key (map event_of demo_events) a s1 = Some (sent, sg, a', s') /\
  [hi; ping; hi] = ms1 ++ ms2 /\ concat (answers ms1) = sent ++ concat (frames_of (writeCache (conn a'))).
Proof.
  destruct (websocket_answers no_key demo_ws (new_IoChannel 1 5) (epoll_empty {[1%positive]}) [hi; ping; hi] demo_events (slice 16 7 demo_stream))
    as (a & s1 & sent & sg & a' & s' & ms1 & ms2 & _ & H1 & H2 & H3 & H4 & _).
  - split; vm_compute; congruence.
  - apply empty_ok.
  - reflexivity.
  - reflexivity.
  - vm_compute; congruence.
  - vm_compute; intuition congruence.
  - repeat constructor; try (vm_compute; congruence).
  - vm_compute; congruence.
  - repeat constructor; vm_compute; congruence.
  - reflexivity.
  - exists a, s1, sent, sg, a', s', ms1, ms2. split; [exact H1|]. split; [exact H2|]. split; [exact H3|exact H4].
Defined.
