(* ===== verification/ObjectLoop.v ===== *)
(** The event loop of [Object] ([src/core/object.h], [object.cpp]): trigger
    queues, the tree of objects and the sets of objects to execute, and the
    sleep [TaskScheduler::exec] ([task-scheduler.cpp]) computes from it.

    Objects live in a heap indexed by identity; children are created after
    their parents and have larger identities.  Trigger events and timers are
    numbers, and what running an event or the slot of a timer does is a
    parameter: a program that looks at the heap and posts events, starts
    timers, creates and destroys objects, all while the turn goes on.  The sets
    of objects to execute hold raw pointers: an object that is used after it was
    destroyed makes the turn [None], and [disciplined] is the rule that programs
    have to keep to (the third of the notes at the top of object.h: a callback
    must not release what it was called from).  All code runs on the thread the
    objects belong to, where [invoke] calls directly; the module [Race] models
    the one check that another thread races with. *)
From S2P Require Import Prelude.

Record Object := mkObject {
  parent : option positive;
  childObjectSet : gset positive;
  execSubObjectSet : gset positive;
  trigger_queue : list Z;
  isTriggering : bool;
  timer_events : list (Z * Z)    (* timerEventsMap: deadline and timer, in its order *)
}.

Abbreviation heap := (gmap positive Object).

Definition set_exec (s : gset positive) (o : Object) : Object :=
  mkObject (parent o) (childObjectSet o) s (trigger_queue o) (isTriggering o) (timer_events o).
Definition set_queue (q : list Z) (o : Object) : Object :=
  mkObject (parent o) (childObjectSet o) (execSubObjectSet o) q (isTriggering o) (timer_events o).
Definition set_triggering (b : bool) (o : Object) : Object :=
  mkObject (parent o) (childObjectSet o) (execSubObjectSet o) (trigger_queue o) b (timer_events o).
Definition set_timers (l : list (Z * Z)) (o : Object) : Object :=
  mkObject (parent o) (childObjectSet o) (execSubObjectSet o) (trigger_queue o) (isTriggering o) l.

(** Work an object has: queued events or children to execute. *)
Definition pending (o : Object) : Prop := trigger_queue o <> [] \/ execSubObjectSet o <> ∅.

Definition DEFAULT_TIMEOUT_MSEC : Z := 5000.
Definition INT64_MAX : Z := 2 ^ 63 - 1.

(** [Object::pushExec] *)
Fixpoint pushExec (fuel : nat) (p execObj : positive) (h : heap) : option heap :=
  match fuel with
  | O => None
  | S fuel' =>
      P ← h !! p;
      let P1 := set_exec ({[execObj]} ∪ execSubObjectSet P) P in
      match parent P with
      | Some q =>
          if isTriggering P then Some (<[p := P1]> h)
          else pushExec fuel' q p (<[p := set_triggering true P1]> h)
      | None => Some (<[p := P1]> h)
      end
  end.

(** *** Objects *)

(** [Object::Object] with [addChildRef]; the identity is fresh. *)
Definition new_Object (id : positive) (p : option positive) (h : heap) : option heap :=
  let fresh := mkObject p ∅ ∅ [] false [] in
  match p with
  | None => Some (<[id := fresh]> h)
  | Some q =>
      Q ← h !! q;
      Some (<[id := fresh]> (<[q := mkObject (parent Q) ({[id]} ∪ childObjectSet Q)
              (execSubObjectSet Q) (trigger_queue Q) (isTriggering Q) (timer_events Q)]> h))
  end.

(** [Object::removeChildRef] and [Object::releaseParent] *)
Definition removeChildRef (child : positive) (o : Object) : Object :=
  mkObject (parent o) (childObjectSet o ∖ {[child]}) (execSubObjectSet o ∖ {[child]})
    (trigger_queue o) (isTriggering o) (timer_events o).
Definition releaseParent (o : Object) : Object :=
  mkObject None (childObjectSet o) (execSubObjectSet o) (trigger_queue o) (isTriggering o)
    (timer_events o).

(** [Object::~Object] with [releaseAllRef]. *)
Definition destroy_Object (id : positive) (h : heap) : heap :=
  match h !! id with
  | None => h
  | Some o =>
      let h1 := match parent o with Some p => alter (removeChildRef id) p h | None => h end in
      delete id (map_imap (fun c C =>
        Some (if decide (c ∈ childObjectSet o) then releaseParent C else C)) h1)
  end.

(** *** Timers *)

(** The order of [timerEventsMap]: by deadline, then by timer. *)
Definition timer_before (x y : Z * Z) : bool := (x.1 <? y.1) || ((x.1 =? y.1) && (x.2 <? y.2)).

(** [timerEventsMap.emplace] *)
Fixpoint insert_timer (x : Z * Z) (l : list (Z * Z)) : list (Z * Z) :=
  match l with
  | [] => [x]
  | y :: l' => if timer_before x y then x :: l else if timer_before y x then y :: insert_timer x l' else l
  end.

(** The timers that are due, from the beginning of the map, and the rest. *)
Fixpoint split_due (now : Z) (l : list (Z * Z)) : list (Z * Z) * list (Z * Z) :=
  match l with
  | x :: l' => if x.1 <=? now then let '(due, rest) := split_due now l' in (x :: due, rest) else ([], l)
  | [] => ([], [])
  end.

(** [Object::startTimer] as the loop sees it: the deadline enters the schedule
    (the timer table itself is modelled in [Timers]). *)
Definition startTimer (o : positive) (deadline timer : Z) (h : heap) : heap :=
  alter (fun O => set_timers (insert_timer (deadline, timer) (timer_events O)) O) o h.

(** [Object::stopTimer] and [releaseTimer]: the entry leaves the schedule. *)
Definition stopTimer (o : positive) (deadline timer : Z) (h : heap) : heap :=
  alter (fun O => set_timers (filter (fun x => x <> (deadline, timer)) (timer_events O)) O) o h.

(** *** A turn *)

(** What an event or a slot does, one after the other. *)
Inductive action :=
| Post (o : positive) (event : Z)
| StartTimer (o : positive) (deadline timer : Z)
| StopTimer (o : positive) (deadline timer : Z)
| Create (id : positive) (p : option positive)
| Destroy (id : positive).

(** What was run. *)
Inductive ran := Event (e : Z) | Timeout (timer : Z).

Section Loop.
Variable capacity : nat.                              (* of TriggerEventQueueForObject *)
Variable run_event : Z -> heap -> list action.        (* what an event does *)
Variable timer_slot : Z -> heap -> list action.       (* what the slots of a timer do *)
Variable rearm : Z -> Z -> option Z.                  (* the next deadline of a timer that stays at work, see [Timers] *)

(** [Object::addTriggerEvent], with [TriggerEventQueueForObject::addTriggerEvent] *)
Definition addTriggerEvent (o : positive) (event : Z) (h : heap) : option (bool * heap) :=
  O ← h !! o;
  if (capacity <=? length (trigger_queue O))%nat then Some (false, h)
  else
    let O1 := set_queue (trigger_queue O ++ [event]) O in
    match parent O with
    | Some p =>
        if isTriggering O then Some (true, <[o := O1]> h)
        else
          h' ← pushExec (Pos.to_nat p) p o (<[o := set_triggering true O1]> h);
          Some (true, h')
    | None => Some (true, <[o := O1]> h)
    end.

(** A call through a pointer to an object that was destroyed is [None]. *)
Definition do_action (a : action) (h : heap) : option heap :=
  match a with
  | Post o e => r ← addTriggerEvent o e h; Some r.2
  | StartTimer o d t => _ ← h !! o; Some (startTimer o d t h)
  | StopTimer o d t => _ ← h !! o; Some (stopTimer o d t h)
  | Create id p => new_Object id p h
  | Destroy id => _ ← h !! id; Some (destroy_Object id h)
  end.

Fixpoint do_actions (l : list action) (h : heap) : option heap :=
  match l with
  | [] => Some h
  | a :: l' => h1 ← do_action a h; do_actions l' h1
  end.

(** The loops of [TriggerEventQueueForObject::handleEvent] and of
    [Object::handleTimerEvent] over what they took out. *)
Fixpoint run_each (prog : Z -> heap -> list action) (l : list Z) (h : heap) : option heap :=
  match l with
  | [] => Some h
  | x :: l' => h1 ← do_actions (prog x h) h; run_each prog l' h1
  end.

(** [Object::handleTriggerQueue] *)
Definition handleTriggerQueue (o : positive) (h : heap) : option (list ran * heap) :=
  O ← h !! o;
  h1 ← run_each run_event (trigger_queue O) (<[o := set_queue [] O]> h);
  Some (Event <$> trigger_queue O, h1).

(** The loop of [Object::handleChildEvent] over the swapped-out set. *)
Fixpoint run_children (handle : positive -> heap -> option (list ran * heap))
    (cs : list positive) (h : heap) : option (list ran * heap) :=
  match cs with
  | [] => Some ([], h)
  | c :: cs' =>
      '(log1, h1) ← handle c h;
      '(log2, h2) ← run_children handle cs' h1;
      Some (log1 ++ log2, h2)
  end.

(** [Object::handleTimerEvent] *)
Definition handleTimerEvent (now : Z) (o : positive) (h : heap) : option (list ran * heap) :=
  O ← h !! o;
  let '(due, rest) := split_due now (timer_events O) in
  h1 ← run_each timer_slot due.*2 (<[o := set_timers rest O]> h);
  O1 ← h1 !! o;
  let cycle := omap (fun t => (fun d => (d, t)) <$> rearm now t) due.*2 in
  Some (Timeout <$> due.*2,
        <[o := set_timers (foldl (fun l x => insert_timer x l) (timer_events O1) cycle) O1]> h1).

(** [Object::handleEvent]; [now o] is the time [o] finds when it looks at its timers. *)
Fixpoint handleEvent (fuel : nat) (now : positive -> Z) (o : positive) (h : heap) : option (list ran * heap) :=
  match fuel with
  | O => None
  | S fuel' =>
      '(log1, h1) ← handleTriggerQueue o h;
      O2 ← h1 !! o;
      '(log2, h2) ← run_children (handleEvent fuel' now) (elements (execSubObjectSet O2))
                      (<[o := set_exec ∅ O2]> h1);
      '(log3, h3) ← handleTimerEvent (now o) o h2;
      O4 ← h3 !! o;
      let idle :=
        bool_decide (trigger_queue O4 = [] /\ timer_events O4 = [] /\ execSubObjectSet O4 = ∅) in
      let log := log1 ++ log2 ++ log3 in
      match parent O4 with
      | Some p =>
          if idle then Some (log, <[o := set_triggering false O4]> h3)
          else
            h4 ← pushExec (Pos.to_nat p) p o h3;
            Some (log, h4)
      | None => Some (log, <[o := set_triggering false O4]> h3)
      end
  end.

End Loop.

(** The loop over [execSubObjectSet] in [getNextTimeOut]. *)
Fixpoint min_timeout (next : positive -> option Z) (cs : list positive) (acc : Z) : option Z :=
  match cs with
  | [] => Some acc
  | c :: cs' =>
      t ← next c;
      if t =? 0 then Some 0
      else min_timeout next cs' (if 0 <? t then (if acc <? t then acc else t) else acc)
  end.

(** [Object::getNextTimeOut] *)
Fixpoint getNextTimeOut (fuel : nat) (now : Z) (o : positive) (h : heap) : option Z :=
  match fuel with
  | O => None
  | S fuel' =>
      O ← h !! o;
      match trigger_queue O with
      | _ :: _ => Some 0
      | [] =>
          if bool_decide (timer_events O = [] /\ execSubObjectSet O = ∅) then Some (-1)
          else
            let min_time_out :=
              match timer_events O with [] => INT64_MAX | x :: _ => x.1 - now end in
            if min_time_out <=? 0 then Some 0
            else min_timeout (fun c => getNextTimeOut fuel' now c h)
                   (elements (execSubObjectSet O)) min_time_out
      end
  end.

(** The timeout [TaskScheduler::exec] passes to [handleNetworkEvent]. *)
Definition exec_timeout (timeout : Z) : Z :=
  if timeout <? 0 then DEFAULT_TIMEOUT_MSEC
  else if DEFAULT_TIMEOUT_MSEC <? timeout then DEFAULT_TIMEOUT_MSEC else timeout.

(** ** The invariant *)

(** [A] holds the objects being handled: taken out of their parent's set, to be
    looked at again before the turn ends. *)
Record loop_inv (A : gset positive) (h : heap) : Prop := {
  inv_tree : forall o O p, h !! o = Some O -> parent O = Some p ->
    (p < o)%positive /\ exists P, h !! p = Some P /\ o ∈ childObjectSet P;
  inv_exec : forall o O c, h !! o = Some O -> c ∈ execSubObjectSet O ->
    c ∉ A /\ exists C, h !! c = Some C /\ parent C = Some o /\ isTriggering C = true;
  inv_pending : forall o O p, h !! o = Some O -> parent O = Some p -> pending O ->
    isTriggering O = true;
  inv_scheduled : forall o O p P, h !! o = Some O -> parent O = Some p -> h !! p = Some P ->
    isTriggering O = true -> o ∈ execSubObjectSet P \/ o ∈ A;
  inv_active : forall o O p, h !! o = Some O -> o ∈ A -> parent O = Some p -> isTriggering O = true;
  inv_children : forall o O c, h !! o = Some O -> c ∈ childObjectSet O ->
    exists C, h !! c = Some C /\ parent C = Some o
}.

(** The links between parents and children only depend on those two fields. *)
Lemma children_update (h : heap) o O O' :
  (forall x X c, h !! x = Some X -> c ∈ childObjectSet X ->
     exists C, h !! c = Some C /\ parent C = Some x) ->
  h !! o = Some O -> parent O' = parent O -> childObjectSet O' = childObjectSet O ->
  forall x X c, <[o := O']> h !! x = Some X -> c ∈ childObjectSet X ->
     exists C, <[o := O']> h !! c = Some C /\ parent C = Some x.
Proof.
  intros I6 Ho Hp Hc x X c Hx Hin.
  assert (Hold : exists X0, h !! x = Some X0 /\ c ∈ childObjectSet X0).
  { destruct (decide (x = o)) as [->|]; [rewrite lookup_insert_eq in Hx; simplify_eq|
      rewrite lookup_insert_ne in Hx by done]; [|eauto]. rewrite Hc in Hin. eauto. }
  destruct Hold as (X0 & Hx0 & Hin0). destruct (I6 x X0 c Hx0 Hin0) as (C & HC & ?).
  destruct (decide (c = o)) as [->|].
  - rewrite lookup_insert_eq. eexists. split; [done|]. simplify_eq. congruence.
  - rewrite lookup_insert_ne by done. eauto.
Qed.

(** Scheduling keeps the objects, the shape of the tree and the timers. *)
Definition same_shape (h h' : heap) : Prop :=
  forall o, ((fun O => (parent O, timer_events O)) <$> h !! o) = ((fun O => (parent O, timer_events O)) <$> h' !! o).

Lemma same_shape_refl h : same_shape h h.
Proof. done. Qed.

Lemma same_shape_trans h1 h2 h3 : same_shape h1 h2 -> same_shape h2 h3 -> same_shape h1 h3.
Proof. intros H1 H2 o. by rewrite H1. Qed.

Lemma same_shape_insert h o O O' :
  h !! o = Some O -> parent O' = parent O -> timer_events O' = timer_events O -> same_shape h (<[o := O']> h).
Proof.
  intros Ho Hp Ht x. destruct (decide (x = o)) as [->|].
  - rewrite lookup_insert_eq, Ho. simpl. by rewrite Hp, Ht.
  - by rewrite lookup_insert_ne.
Qed.

Lemma same_shape_some h h' o : same_shape h h' -> is_Some (h !! o) <-> is_Some (h' !! o).
Proof. intros Hs. specialize (Hs o). destruct (h !! o), (h' !! o); simplify_eq/=; split; intros []; eauto; done. Qed.

#[export] Hint Resolve same_shape_refl : aimy.

(** Replacing one object without touching the links. *)
Lemma inv_update A h o O O' :
  loop_inv A h -> h !! o = Some O ->
  parent O' = parent O -> childObjectSet O' = childObjectSet O ->
  execSubObjectSet O' = execSubObjectSet O -> isTriggering O' = isTriggering O ->
  (parent O <> None -> pending O' -> isTriggering O = true) ->
  loop_inv A (<[o := O']> h).
Proof.
  intros [I1 I2 I3 I4 I5 I6] Ho Hp Hc He Ht Hpend.
  split; intros x X.
  - intros p Hx HX. destruct (decide (x = o)) as [->|].
    + rewrite lookup_insert_eq in Hx. simplify_eq. rewrite Hp in HX.
      destruct (I1 o O p Ho HX) as (? & P & HP & ?). split; [done|].
      rewrite lookup_insert_ne by (intros ->; lia). eauto.
    + rewrite lookup_insert_ne in Hx by done. destruct (I1 x X p Hx HX) as (? & P & HP & ?).
      split; [done|]. destruct (decide (p = o)) as [->|].
      * rewrite lookup_insert_eq. eexists. split; [done|]. simplify_eq. by rewrite Hc.
      * rewrite lookup_insert_ne by done. eauto.
  - intros c Hx Hin.
    assert (Hold : exists X0, h !! x = Some X0 /\ c ∈ execSubObjectSet X0).
    { destruct (decide (x = o)) as [->|]; [rewrite lookup_insert_eq in Hx; simplify_eq|
        rewrite lookup_insert_ne in Hx by done]; [|eauto]. rewrite He in Hin. eauto. }
    destruct Hold as (X0 & Hx0 & Hin0). destruct (I2 x X0 c Hx0 Hin0) as (? & C & HC & ? & ?).
    split; [done|]. destruct (decide (c = o)) as [->|].
    + rewrite lookup_insert_eq. eexists. split; [done|]. simplify_eq. by rewrite Hp, Ht.
    + rewrite lookup_insert_ne by done. eauto.
  - intros p Hx HX Hpd. destruct (decide (x = o)) as [->|].
    + rewrite lookup_insert_eq in Hx. simplify_eq. rewrite Ht. apply Hpend; [|done].
      rewrite <- Hp, HX. done.
    + rewrite lookup_insert_ne in Hx by done. eauto.
  - intros p P Hx HX HP HT.
    assert (HT' : exists X0 P0, h !! x = Some X0 /\ parent X0 = Some p /\ h !! p = Some P0 /\
      isTriggering X0 = true /\ execSubObjectSet P = execSubObjectSet P0).
    { destruct (decide (x = o)) as [->|], (decide (p = o)) as [->|];
        rewrite ?lookup_insert_eq, ?lookup_insert_ne in Hx by done;
        rewrite ?lookup_insert_eq, ?lookup_insert_ne in HP by done; simplify_eq;
        eexists _, _; (split; [done|]); rewrite <- ?Hp, <- ?Ht; (split; [done|]);
        (split; [done|]); done. }
    destruct HT' as (X0 & P0 & ? & ? & ? & ? & ->). eauto.
  - intros p Hx Hin HX. destruct (decide (x = o)) as [->|].
    + rewrite lookup_insert_eq in Hx. simplify_eq. rewrite Ht. rewrite Hp in HX. eauto.
    + rewrite lookup_insert_ne in Hx by done. eauto.
  - by eapply (children_update h o O O').
Qed.

(** Marking an idle object as triggering makes it one that must be pushed. *)
Lemma inv_trigger A h o O O' p :
  loop_inv A h -> h !! o = Some O -> parent O = Some p -> isTriggering O = false ->
  parent O' = parent O -> childObjectSet O' = childObjectSet O ->
  execSubObjectSet O' = execSubObjectSet O -> isTriggering O' = true ->
  loop_inv ({[o]} ∪ A) (<[o := O']> h) /\ o ∉ A.
Proof.
  intros [I1 I2 I3 I4 I5 I6] Ho Hpar Hf Hp Hc He Ht.
  assert (HoA : o ∉ A) by (intros Hin; specialize (I5 o O p Ho Hin Hpar); congruence).
  split; [|done]. split; intros x X.
  - intros q Hx HX. destruct (decide (x = o)) as [->|].
    + rewrite lookup_insert_eq in Hx. simplify_eq. rewrite Hp in HX.
      destruct (I1 o O q Ho HX) as (? & P & HP & ?). split; [done|].
      rewrite lookup_insert_ne by (intros ->; lia). eauto.
    + rewrite lookup_insert_ne in Hx by done. destruct (I1 x X q Hx HX) as (? & P & HP & ?).
      split; [done|]. destruct (decide (q = o)) as [->|].
      * rewrite lookup_insert_eq. eexists. split; [done|]. simplify_eq. by rewrite Hc.
      * rewrite lookup_insert_ne by done. eauto.
  - intros c Hx Hin.
    assert (Hold : exists X0, h !! x = Some X0 /\ c ∈ execSubObjectSet X0).
    { destruct (decide (x = o)) as [->|]; [rewrite lookup_insert_eq in Hx; simplify_eq|
        rewrite lookup_insert_ne in Hx by done]; [|eauto]. rewrite He in Hin. eauto. }
    destruct Hold as (X0 & Hx0 & Hin0). destruct (I2 x X0 c Hx0 Hin0) as (? & C & HC & ? & HCt).
    assert (c <> o) by (intros ->; congruence).
    split; [set_solver|]. rewrite lookup_insert_ne by done. eauto.
  - intros q Hx HX Hpd. destruct (decide (x = o)) as [->|].
    + rewrite lookup_insert_eq in Hx. by simplify_eq.
    + rewrite lookup_insert_ne in Hx by done. eauto.
  - intros q P Hx HX HP HT. destruct (decide (x = o)) as [->|]; [right; set_solver|].
    rewrite lookup_insert_ne in Hx by done.
    assert (Hex : exists P0, h !! q = Some P0 /\ execSubObjectSet P = execSubObjectSet P0).
    { destruct (decide (q = o)) as [->|]; [rewrite lookup_insert_eq in HP; simplify_eq; eauto|].
      rewrite lookup_insert_ne in HP by done. eauto. }
    destruct Hex as (P0 & HP0 & ->). destruct (I4 x X q P0 Hx HX HP0 HT); [by left|right; set_solver].
  - intros q Hx Hin HX. destruct (decide (x = o)) as [->|].
    + rewrite lookup_insert_eq in Hx. by simplify_eq.
    + rewrite lookup_insert_ne in Hx by done. assert (x ∈ A) by set_solver. eauto.
  - by eapply (children_update h o O O').
Qed.

(** Entering an object into its parent's set takes it out of the active ones. *)
Lemma inv_push A h o O p P :
  loop_inv ({[o]} ∪ A) h -> o ∉ A -> h !! o = Some O -> parent O = Some p -> h !! p = Some P ->
  (parent P <> None -> isTriggering P = true) ->
  loop_inv A (<[p := set_exec ({[o]} ∪ execSubObjectSet P) P]> h).
Proof.
  intros [I1 I2 I3 I4 I5 I6] HoA Ho Hpar HP Htrig.
  destruct (I1 o O p Ho Hpar) as (Hlt & _).
  assert (Hot : isTriggering O = true) by (apply (I5 o O p); set_solver).
  set (P' := set_exec _ P).
  assert (Hlook : forall x X, <[p := P']> h !! x = Some X ->
    exists X0, h !! x = Some X0 /\ parent X = parent X0 /\ isTriggering X = isTriggering X0 /\
      childObjectSet X = childObjectSet X0 /\ trigger_queue X = trigger_queue X0 /\
      (x <> p -> X = X0) /\ (x = p -> X = P' /\ X0 = P)).
  { intros x X Hx. destruct (decide (x = p)) as [->|].
    - rewrite lookup_insert_eq in Hx. simplify_eq. eexists. split; [done|]. done.
    - rewrite lookup_insert_ne in Hx by done. eexists. split; [done|]. done. }
  assert (Hfwd : forall x X0, h !! x = Some X0 ->
    exists X, <[p := P']> h !! x = Some X /\ parent X = parent X0 /\
      isTriggering X = isTriggering X0 /\ childObjectSet X = childObjectSet X0).
  { intros x X0 Hx. destruct (decide (x = p)) as [->|].
    - rewrite lookup_insert_eq. simplify_eq. eexists. split; [done|]. done.
    - rewrite lookup_insert_ne by done. eauto. }
  split; intros x X.
  - intros q Hx HX. destruct (Hlook x X Hx) as (X0 & Hx0 & Hp0 & _). rewrite Hp0 in HX.
    destruct (I1 x X0 q Hx0 HX) as (? & Q & HQ & ?). split; [done|].
    destruct (Hfwd q Q HQ) as (Q' & ? & _ & _ & Hc). exists Q'. by rewrite Hc.
  - intros c Hx Hin. destruct (Hlook x X Hx) as (X0 & Hx0 & _ & _ & _ & _ & Hne & Heq).
    destruct (decide (x = p)) as [->|Hxp].
    + destruct (Heq eq_refl) as [-> ->]. unfold P' in Hin. simpl in Hin.
      apply elem_of_union in Hin as [->%elem_of_singleton|Hin].
      * split; [done|]. destruct (Hfwd o O Ho) as (O' & ? & ? & ? & _).
        exists O'. split; [done|]. split; congruence.
      * destruct (I2 p P c HP Hin) as (? & C & HC & ? & ?). split; [set_solver|].
        destruct (Hfwd c C HC) as (C' & ? & ? & ? & _). exists C'. split; [done|]. split; congruence.
    + rewrite (Hne Hxp) in Hin. destruct (I2 x X0 c Hx0 Hin) as (? & C & HC & ? & ?).
      split; [set_solver|].
      destruct (Hfwd c C HC) as (C' & ? & ? & ? & _). exists C'. split; [done|]. split; congruence.
  - intros q Hx HX Hpd. destruct (Hlook x X Hx) as (X0 & Hx0 & Hp0 & Ht0 & _ & Hq0 & Hne & Heq).
    rewrite Ht0. destruct (decide (x = p)) as [->|Hxp].
    + destruct (Heq eq_refl) as [-> ->]. apply Htrig. simpl in HX. congruence.
    + rewrite (Hne Hxp) in *. eauto.
  - intros q Q Hx HX HQ Ht.
    destruct (Hlook x X Hx) as (X0 & Hx0 & Hp0 & Ht0 & _).
    destruct (Hlook q Q HQ) as (Q0 & HQ0 & _ & _ & _ & _ & Hne & Heq).
    rewrite Hp0 in HX. rewrite Ht0 in Ht.
    destruct (I4 x X0 q Q0 Hx0 HX HQ0 Ht) as [Hin|Hin].
    + left. destruct (decide (q = p)) as [->|Hqp]; [|by rewrite (Hne Hqp)].
      destruct (Heq eq_refl) as [-> ->]. unfold P'. simpl. set_solver.
    + apply elem_of_union in Hin as [->%elem_of_singleton|Hin]; [|by right]. left.
      assert (q = p) as -> by congruence. destruct (Heq eq_refl) as [-> _]. unfold P'. simpl. set_solver.
  - intros q Hx Hin HX. destruct (Hlook x X Hx) as (X0 & Hx0 & Hp0 & Ht0 & _).
    rewrite Ht0. rewrite Hp0 in HX. apply (I5 x X0 q); [done|set_solver|done].
  - by eapply (children_update h p P P').
Qed.

(** [pushExec] of an active object: it ends up in its parent's set, and so on
    up to the root. *)
Lemma pushExec_spec fuel A h o O p :
  loop_inv ({[o]} ∪ A) h -> o ∉ A -> h !! o = Some O -> parent O = Some p ->
  (Pos.to_nat p <= fuel)%nat ->
  exists h', pushExec fuel p o h = Some h' /\ loop_inv A h' /\ same_shape h h'.
Proof.
  revert A h o O p. induction fuel as [|fuel IH]; intros A h o O p Hinv HoA Ho Hpar Hfuel.
  { pose proof (Pos2Nat.is_pos p). lia. }
  destruct (inv_tree _ _ Hinv o O p Ho Hpar) as (Hlt & P & HP & _).
  cbn [pushExec]. rewrite HP. cbn [mbind option_bind].
  destruct (parent P) as [q|] eqn:HPq.
  - destruct (isTriggering P) eqn:HPt.
    + eexists. split; [done|]. split; [|by eapply same_shape_insert].
      eapply inv_push; [done..|]. by intros _.
    + destruct (inv_trigger ({[o]} ∪ A) h p P (set_triggering true P) q) as [H1 HpA]; [done..|].
      assert (Heq : <[p := set_triggering true (set_exec ({[o]} ∪ execSubObjectSet P) P)]> h
        = <[p := set_exec ({[o]} ∪ execSubObjectSet (set_triggering true P)) (set_triggering true P)]>
            (<[p := set_triggering true P]> h)) by (by rewrite insert_insert_eq).
      rewrite Heq.
      assert (Hinv2 : loop_inv ({[p]} ∪ A) (<[p := set_exec ({[o]} ∪ execSubObjectSet
          (set_triggering true P)) (set_triggering true P)]> (<[p := set_triggering true P]> h))).
      { eapply (inv_push ({[p]} ∪ A) _ o O p); [|set_solver| |done| |done].
        - replace ({[o]} ∪ ({[p]} ∪ A)) with ({[p]} ∪ ({[o]} ∪ A)) by set_solver. done.
        - rewrite lookup_insert_ne by (intros ->; lia). done.
        - apply lookup_insert_eq. }
      destruct (IH A _ p (set_exec ({[o]} ∪ execSubObjectSet P) (set_triggering true P)) q Hinv2)
        as (h' & -> & ? & Hs); [set_solver|apply lookup_insert_eq|done| |].
      * destruct (inv_tree _ _ Hinv p P q HP HPq) as (? & _). lia.
      * exists h'. split; [done|]. split; [done|]. eapply same_shape_trans; [|exact Hs].
        rewrite insert_insert_eq. by eapply same_shape_insert.
  - eexists. split; [done|]. split; [|by eapply same_shape_insert].
    eapply inv_push; [done..|]. by rewrite HPq.
Qed.

Lemma addTriggerEvent_spec capacity A h o e :
  loop_inv A h -> is_Some (h !! o) ->
  exists b h', addTriggerEvent capacity o e h = Some (b, h') /\ loop_inv A h' /\ same_shape h h'.
Proof.
  intros Hinv [O Ho]. unfold addTriggerEvent. rewrite Ho. cbn [mbind option_bind].
  destruct (capacity <=? length (trigger_queue O))%nat; [by eauto with aimy|].
  destruct (parent O) as [p|] eqn:Hp.
  - destruct (isTriggering O) eqn:Ht.
    + eexists true, _. split; [done|]. split; [|by eapply same_shape_insert].
      by eapply inv_update.
    + destruct (inv_trigger A h o O (set_triggering true (set_queue (trigger_queue O ++ [e]) O)) p)
        as [Hinv1 HoA]; [done..|].
      destruct (pushExec_spec (Pos.to_nat p) A _ o _ p Hinv1 HoA (lookup_insert_eq _ _ _) Hp)
        as (h' & -> & ? & Hs); [done|].
      eexists true, h'. split; [done|]. split; [done|].
      eapply same_shape_trans; [|exact Hs]. by eapply same_shape_insert.
  - eexists true, _. split; [done|]. split; [|by eapply same_shape_insert].
    eapply inv_update; [done|done|done|done|done|done|]. by rewrite Hp.
Qed.

(** ** One turn *)

(** Taking out the set of children to execute makes them active. *)
Lemma inv_swap A h o O :
  loop_inv ({[o]} ∪ A) h -> h !! o = Some O ->
  loop_inv (execSubObjectSet O ∪ ({[o]} ∪ A)) (<[o := set_exec ∅ O]> h) /\
  (forall c, c ∈ execSubObjectSet O -> c ∉ ({[o]} ∪ A) /\ (o < c)%positive /\ is_Some (h !! c)).
Proof.
  intros [I1 I2 I3 I4 I5 I6] Ho.
  assert (Hlook : forall x X, <[o := set_exec ∅ O]> h !! x = Some X ->
    exists X0, h !! x = Some X0 /\ parent X = parent X0 /\ isTriggering X = isTriggering X0 /\
      childObjectSet X = childObjectSet X0 /\ (x <> o -> X = X0) /\ (x = o -> X0 = O /\ X = set_exec ∅ O)).
  { intros x X Hx. destruct (decide (x = o)) as [->|].
    - rewrite lookup_insert_eq in Hx. simplify_eq. eexists. split; [done|]. done.
    - rewrite lookup_insert_ne in Hx by done. eexists. split; [done|]. done. }
  assert (Hfwd : forall x X0, h !! x = Some X0 ->
    exists X, <[o := set_exec ∅ O]> h !! x = Some X /\ parent X = parent X0 /\
      isTriggering X = isTriggering X0 /\ childObjectSet X = childObjectSet X0).
  { intros x X0 Hx. destruct (decide (x = o)) as [->|].
    - rewrite lookup_insert_eq. simplify_eq. eexists. split; [done|]. done.
    - rewrite lookup_insert_ne by done. eauto. }
  split.
  - split; intros x X.
    + intros q Hx HX. destruct (Hlook x X Hx) as (X0 & Hx0 & Hp0 & _). rewrite Hp0 in HX.
      destruct (I1 x X0 q Hx0 HX) as (? & Q & HQ & ?). split; [done|].
      destruct (Hfwd q Q HQ) as (Q' & ? & _ & _ & Hc). exists Q'. by rewrite Hc.
    + intros c Hx Hin. destruct (Hlook x X Hx) as (X0 & Hx0 & _ & _ & _ & Hne & Heq).
      destruct (decide (x = o)) as [->|Hxo]; [destruct (Heq eq_refl) as [_ ->]; set_solver|].
      rewrite (Hne Hxo) in Hin. destruct (I2 x X0 c Hx0 Hin) as (? & C & HC & HCp & ?).
      split.
      * intros [Hc|?]%elem_of_union; [|done].
        destruct (I2 o O c Ho Hc) as (_ & C2 & HC2 & HC2p & _). congruence.
      * destruct (Hfwd c C HC) as (C' & ? & ? & ? & _). exists C'. split; [done|]. split; congruence.
    + intros q Hx HX Hpd. destruct (Hlook x X Hx) as (X0 & Hx0 & Hp0 & Ht0 & _ & Hne & Heq).
      rewrite Ht0. rewrite Hp0 in HX. destruct (decide (x = o)) as [->|Hxo].
      * apply (I5 o X0 q); [done|set_solver|done].
      * rewrite (Hne Hxo) in *. eauto.
    + intros q Q Hx HX HQ Ht.
      destruct (Hlook x X Hx) as (X0 & Hx0 & Hp0 & Ht0 & _).
      destruct (Hlook q Q HQ) as (Q0 & HQ0 & _ & _ & _ & Hne & Heq).
      rewrite Hp0 in HX. rewrite Ht0 in Ht.
      destruct (I4 x X0 q Q0 Hx0 HX HQ0 Ht) as [Hin|Hin]; [|right; set_solver].
      destruct (decide (q = o)) as [->|Hqo]; [|left; by rewrite (Hne Hqo)].
      destruct (Heq eq_refl) as [-> _]. right. set_solver.
    + intros q Hx Hin HX. destruct (Hlook x X Hx) as (X0 & Hx0 & Hp0 & Ht0 & _).
      rewrite Ht0. rewrite Hp0 in HX. apply elem_of_union in Hin as [Hin|Hin]; [|by apply (I5 x X0 q)].
      destruct (I2 o O x Ho Hin) as (_ & C & HC & _ & ?). congruence.
    + by eapply (children_update h o O (set_exec ∅ O)).
  - intros c Hc. destruct (I2 o O c Ho Hc) as (? & C & HC & HCp & _). split; [done|].
    destruct (I1 c C o HC HCp) as (? & _). eauto.
Qed.

(** An active object that has nothing to do, or is a root, becomes idle. *)
Lemma inv_idle A h o O :
  loop_inv ({[o]} ∪ A) h -> o ∉ A -> h !! o = Some O -> (parent O = None \/ ~ pending O) ->
  loop_inv A (<[o := set_triggering false O]> h).
Proof.
  intros [I1 I2 I3 I4 I5 I6] HoA Ho Hor.
  assert (Hlook : forall x X, <[o := set_triggering false O]> h !! x = Some X ->
    exists X0, h !! x = Some X0 /\ parent X = parent X0 /\ childObjectSet X = childObjectSet X0 /\
      execSubObjectSet X = execSubObjectSet X0 /\ trigger_queue X = trigger_queue X0 /\
      (x <> o -> isTriggering X = isTriggering X0) /\ (x = o -> X0 = O /\ isTriggering X = false)).
  { intros x X Hx. destruct (decide (x = o)) as [->|].
    - rewrite lookup_insert_eq in Hx. simplify_eq. eexists. split; [done|]. done.
    - rewrite lookup_insert_ne in Hx by done. eexists. split; [done|]. done. }
  assert (Hfwd : forall x X0, h !! x = Some X0 -> x <> o ->
    <[o := set_triggering false O]> h !! x = Some X0)
    by (intros x X0 Hx Hne; by rewrite lookup_insert_ne).
  split; intros x X.
  - intros q Hx HX. destruct (Hlook x X Hx) as (X0 & Hx0 & Hp0 & _). rewrite Hp0 in HX. destruct (I1 x X0 q Hx0 HX) as (? & Q & HQ & ?). split; [done|].
    destruct (decide (q = o)) as [->|]; [rewrite lookup_insert_eq; simplify_eq; eauto|].
    exists Q. eauto.
  - intros c Hx Hin. destruct (Hlook x X Hx) as (X0 & Hx0 & _ & _ & He0 & _).
    rewrite He0 in Hin. destruct (I2 x X0 c Hx0 Hin) as (? & C & HC & ? & ?).
    split; [set_solver|]. exists C. split; [|done]. apply Hfwd; [done|]. set_solver.
  - intros q Hx HX Hpd.
    destruct (Hlook x X Hx) as (X0 & Hx0 & Hp0 & _ & He0 & Hq0 & Hne & Heq).
    assert (Hpd0 : pending X0) by (unfold pending in *; by rewrite <- Hq0, <- He0).
    rewrite Hp0 in HX. destruct (decide (x = o)) as [->|Hxo].
    + destruct (Heq eq_refl) as [-> _]. destruct Hor; [congruence|done].
    + rewrite (Hne Hxo). by apply (I3 x X0 q).
  - intros q Q Hx HX HQ Ht.
    destruct (Hlook x X Hx) as (X0 & Hx0 & Hp0 & _ & _ & _ & Hne & Heq). rewrite Hp0 in HX.
    destruct (decide (x = o)) as [->|Hxo]; [destruct (Heq eq_refl) as [_ Hf]; congruence|].
    rewrite (Hne Hxo) in Ht.
    assert (HQ0 : exists Q0, h !! q = Some Q0 /\ execSubObjectSet Q = execSubObjectSet Q0).
    { destruct (Hlook q Q HQ) as (Q0 & ? & _ & _ & ? & _). eauto. }
    destruct HQ0 as (Q0 & HQ0 & ->). destruct (I4 x X0 q Q0 Hx0 HX HQ0 Ht); [by left|right; set_solver].
  - intros q Hx Hin HX.
    destruct (Hlook x X Hx) as (X0 & Hx0 & Hp0 & _ & _ & _ & Hne & _). rewrite Hp0 in HX.
    destruct (decide (x = o)) as [->|Hxo]; [done|]. rewrite (Hne Hxo).
    apply (I5 x X0 q); [done|set_solver|done].
  - by eapply (children_update h o O (set_triggering false O)).
Qed.

(** ** The life of a tree of objects *)

Lemma empty_inv : loop_inv ∅ ∅.
Proof. split; intros o O ?; by rewrite lookup_empty. Qed.

(** Lookups after creating an object. *)
Lemma new_Object_lookup id p h h' x X : new_Object id p h = Some h' -> h' !! x = Some X ->
  (x = id /\ X = mkObject p ∅ ∅ [] false []) \/
  (x <> id /\ exists X0, h !! x = Some X0 /\ parent X = parent X0 /\
     isTriggering X = isTriggering X0 /\ execSubObjectSet X = execSubObjectSet X0 /\
     trigger_queue X = trigger_queue X0 /\
     (childObjectSet X = childObjectSet X0 \/
      Some x = p /\ childObjectSet X = {[id]} ∪ childObjectSet X0)).
Proof.
  intros Hnew. unfold new_Object in Hnew. destruct p as [q|].
  - destruct (h !! q) as [Q|] eqn:HQ; simplify_eq/=.
    destruct (decide (x = id)) as [->|]; [rewrite lookup_insert_eq; intros ?; simplify_eq; auto|].
    rewrite lookup_insert_ne by done. intros Hx. right. split; [done|].
    destruct (decide (x = q)) as [->|].
    + rewrite lookup_insert_eq in Hx. simplify_eq. exists Q. repeat split; auto.
    + rewrite lookup_insert_ne in Hx by done. exists X. repeat split; auto.
  - simplify_eq/=. destruct (decide (x = id)) as [->|];
      [rewrite lookup_insert_eq; intros ?; simplify_eq; auto|].
    rewrite lookup_insert_ne by done. intros Hx. right. split; [done|].
    exists X. repeat split; auto.
Qed.

Lemma new_Object_forward id p h h' x X0 : h !! id = None -> new_Object id p h = Some h' -> h !! x = Some X0 ->
  exists X, h' !! x = Some X /\ parent X = parent X0 /\ isTriggering X = isTriggering X0 /\
    execSubObjectSet X = execSubObjectSet X0 /\ childObjectSet X0 ⊆ childObjectSet X.
Proof.
  intros Hid Hnew Hx. assert (x <> id) by congruence. unfold new_Object in Hnew. destruct p as [q|].
  - destruct (h !! q) as [Q|] eqn:HQ; simplify_eq/=. rewrite lookup_insert_ne by done.
    destruct (decide (x = q)) as [->|].
    + rewrite lookup_insert_eq. simplify_eq. eexists. split; [done|]. simpl. set_solver.
    + rewrite lookup_insert_ne by done. eauto 10.
  - simplify_eq/=. rewrite lookup_insert_ne by done. eauto 10.
Qed.

Lemma new_Object_self id p h h' : h !! id = None -> new_Object id p h = Some h' ->
  h' !! id = Some (mkObject p ∅ ∅ [] false []) /\
  forall q, p = Some q -> exists Q, h' !! q = Some Q /\ id ∈ childObjectSet Q.
Proof.
  intros Hid Hnew. unfold new_Object in Hnew. destruct p as [q|].
  - destruct (h !! q) as [Q|] eqn:HQ; simplify_eq/=. split; [apply lookup_insert_eq|].
    intros q' [= <-]. rewrite lookup_insert_ne by (intros ->; congruence).
    rewrite lookup_insert_eq. eexists. split; [done|]. simpl. set_solver.
  - simplify_eq/=. split; [apply lookup_insert_eq|done].
Qed.

Lemma new_Object_inv A id p h h' :
  loop_inv A h -> id ∉ A -> h !! id = None -> match p with Some q => (q < id)%positive | None => True end ->
  new_Object id p h = Some h' -> loop_inv A h'.
Proof.
  intros [I1 I2 I3 I4 I5 I6] HidA Hid Hlt Hnew.
  pose proof (fun x X => new_Object_lookup id p h h' x X Hnew) as Hlook. pose proof (fun x X0 => new_Object_forward id p h h' x X0 Hid Hnew) as Hfwd.
  destruct (new_Object_self id p h h' Hid Hnew) as [Hnid Hnpar].
  split; intros x X.
  - intros q Hx HX. destruct (Hlook x X Hx) as [[-> ->]|(Hne & X0 & Hx0 & Hp0 & _)].
    + simpl in HX. subst p. split; [done|]. by apply Hnpar.
    + rewrite Hp0 in HX. destruct (I1 x X0 q Hx0 HX) as (? & Q & HQ & ?). split; [done|].
      destruct (Hfwd q Q HQ) as (Q' & ? & _ & _ & _ & Hsub). exists Q'. split; [done|]. set_solver.
  - intros c Hx Hin. destruct (Hlook x X Hx) as [[-> ->]|(Hne & X0 & Hx0 & _ & _ & He0 & _)];
      [set_solver|]. rewrite He0 in Hin. destruct (I2 x X0 c Hx0 Hin) as (? & C & HC & ? & ?).
    split; [done|]. destruct (Hfwd c C HC) as (C' & ? & ? & ? & _). exists C'.
    split; [done|]. split; congruence.
  - intros q Hx HX Hpd.
    destruct (Hlook x X Hx) as [[-> ->]|(Hne & X0 & Hx0 & Hp0 & Ht0 & He0 & Hq0 & _)].
    + destruct Hpd; done.
    + rewrite Ht0. apply (I3 x X0 q Hx0); [congruence|]. unfold pending in *. by rewrite <- Hq0, <- He0.
  - intros q Q Hx HX HQ Ht.
    destruct (Hlook x X Hx) as [[-> ->]|(Hne & X0 & Hx0 & Hp0 & Ht0 & _)]; [done|].
    rewrite Hp0 in HX. rewrite Ht0 in Ht.
    destruct (I1 x X0 q Hx0 HX) as (_ & Q0 & HQ0 & _).
    destruct (Hfwd q Q0 HQ0) as (Q' & HQ' & _ & _ & He & _).
    assert (Q' = Q) as -> by congruence. rewrite He. by eapply I4.
  - intros q Hx HA HX. destruct (Hlook x X Hx) as [[-> _]|(_ & X0 & Hx0 & Hp0 & Ht0 & _)]; [done|].
    rewrite Ht0. rewrite Hp0 in HX. by eapply I5.
  - intros c Hx Hin. destruct (Hlook x X Hx) as [[-> ->]|(Hne & X0 & Hx0 & _ & _ & _ & _ & Hc)];
      [set_solver|].
    destruct Hc as [Hc|[<- Hc]]; rewrite Hc in Hin.
    + destruct (I6 x X0 c Hx0 Hin) as (C & HC & ?). destruct (Hfwd c C HC) as (C' & ? & ? & _).
      exists C'. split; [done|]. congruence.
    + apply elem_of_union in Hin as [->%elem_of_singleton|Hin]; [eauto|].
      destruct (I6 x X0 c Hx0 Hin) as (C & HC & ?). destruct (Hfwd c C HC) as (C' & ? & ? & _).
      exists C'. split; [done|]. congruence.
Qed.

(** The heap without the reference of the parent, and what destroying leaves of an object. *)
Definition unlinked (id : positive) (D : Object) (h : heap) : heap :=
  match parent D with Some p => alter (removeChildRef id) p h | None => h end.

Lemma destroy_Object_unfold id D h : h !! id = Some D ->
  destroy_Object id h = delete id (map_imap (fun c C => Some (if decide (c ∈ childObjectSet D) then releaseParent C else C)) (unlinked id D h)).
Proof. unfold destroy_Object. by intros ->. Qed.

Lemma destroy_lookup id D h x X : h !! id = Some D -> destroy_Object id h !! x = Some X ->
  x <> id /\ exists X0, h !! x = Some X0 /\
    isTriggering X = isTriggering X0 /\ trigger_queue X = trigger_queue X0 /\
    (parent X = None \/ parent X = parent X0) /\ (x ∉ childObjectSet D -> parent X = parent X0) /\
    (x ∈ childObjectSet D -> parent X = None) /\
    execSubObjectSet X ⊆ execSubObjectSet X0 /\ childObjectSet X ⊆ childObjectSet X0 /\
    (parent D = Some x -> id ∉ execSubObjectSet X /\ id ∉ childObjectSet X).
Proof.
  intros HD. rewrite (destroy_Object_unfold _ _ _ HD). intros [Hne Hx]%lookup_delete_Some. split; [done|].
  rewrite map_lookup_imap in Hx. destruct (unlinked id D h !! x) as [X1|] eqn:Hx1; simplify_eq/=.
  assert (HX1 : exists X0, h !! x = Some X0 /\
    (X1 = X0 /\ parent D <> Some x \/ X1 = removeChildRef id X0)).
  { unfold unlinked in Hx1. destruct (parent D) as [p|]; [|eauto].
    destruct (decide (x = p)) as [->|].
    - rewrite lookup_alter_eq in Hx1. destruct (h !! p); simplify_eq/=. eauto.
    - rewrite lookup_alter_ne in Hx1 by done. exists X1. split; [done|]. left. split; congruence. }
  destruct HX1 as (X0 & Hx0 & [[-> ?]| ->]); exists X0;
    (split; [done|]); destruct (decide (x ∈ childObjectSet D)); simpl;
    repeat split; auto; try done; set_solver.
Qed.

Lemma destroy_forward id D h x X0 : h !! id = Some D -> h !! x = Some X0 -> x <> id ->
  exists X, destroy_Object id h !! x = Some X /\
    execSubObjectSet X0 ⊆ {[id]} ∪ execSubObjectSet X /\ childObjectSet X0 ⊆ {[id]} ∪ childObjectSet X.
Proof.
  intros HD Hx Hne. rewrite (destroy_Object_unfold _ _ _ HD). rewrite lookup_delete_ne by done. rewrite map_lookup_imap.
  assert (HX1 : exists X1, unlinked id D h !! x = Some X1 /\
    execSubObjectSet X0 ⊆ {[id]} ∪ execSubObjectSet X1 /\
    childObjectSet X0 ⊆ {[id]} ∪ childObjectSet X1).
  { unfold unlinked. destruct (parent D) as [p|]; [|exists X0; set_solver].
    destruct (decide (x = p)) as [->|].
    - rewrite lookup_alter_eq, Hx. eexists. split; [done|]. simpl.
      split; intros c Hc; destruct (decide (c = id)); set_solver.
    - rewrite lookup_alter_ne by done. exists X0. set_solver. }
  destruct HX1 as (X1 & -> & ? & ?). simpl. eexists. split; [done|].
  by destruct (decide (x ∈ childObjectSet D)).
Qed.

Lemma destroy_parent A id D h x X q X0 : loop_inv A h -> h !! id = Some D ->
  destroy_Object id h !! x = Some X -> h !! x = Some X0 -> parent X = Some q -> parent X0 = Some q /\ q <> id.
Proof.
  intros Hinv HD Hx Hx0 HX. destruct (destroy_lookup _ _ _ _ _ HD Hx) as (_ & X1 & Hx1 & _ & _ & _ & Hp & Hn & _). simplify_eq.
  destruct (decide (x ∈ childObjectSet D)) as [Hin|Hin]; [rewrite Hn in HX by done; done|].
  rewrite <- Hp by done. split; [done|]. intros ->. apply Hin.
  destruct (inv_tree _ _ Hinv x X0 id Hx0) as (_ & P & HP & ?); [by rewrite <- Hp|]. congruence.
Qed.

Lemma destroy_keeps A id D h x X0 q : loop_inv A h -> h !! id = Some D ->
  h !! x = Some X0 -> x <> id -> q <> id -> parent X0 = Some q ->
  exists X, destroy_Object id h !! x = Some X /\ parent X = Some q /\ isTriggering X = isTriggering X0.
Proof.
  intros Hinv HD Hx Hne Hq HX. destruct (destroy_forward _ _ _ _ _ HD Hx Hne) as (X & HX' & _).
  exists X. split; [done|]. destruct (destroy_lookup _ _ _ _ _ HD HX') as (_ & X1 & Hx1 & ? & _ & _ & Hp & _).
  simplify_eq. split; [|done]. rewrite Hp; [done|]. intros Hin.
  destruct (inv_children _ _ Hinv id D x HD Hin) as (C & HC & ?). congruence.
Qed.

Lemma destroy_Object_inv A id h : loop_inv A h -> id ∉ A -> loop_inv A (destroy_Object id h).
Proof.
  intros Hinv HidA. pose proof Hinv as [I1 I2 I3 I4 I5 I6].
  destruct (h !! id) as [D|] eqn:HD; [|unfold destroy_Object; by rewrite HD].
  pose proof (fun x X => destroy_lookup id D h x X HD) as Hlook. pose proof (fun x X0 => destroy_forward id D h x X0 HD) as Hfwd.
  pose proof (fun x X q X0 => destroy_parent A id D h x X q X0 Hinv HD) as Hpar. pose proof (fun x X0 q => destroy_keeps A id D h x X0 q Hinv HD) as Hkeep.
  set (h' := destroy_Object id h) in *.
  split; intros x X.
  - intros q Hx HX. destruct (Hlook x X Hx) as (Hxid & X0 & Hx0 & _).
    destruct (Hpar x X q X0 Hx Hx0 HX) as [HX0 Hqid].
    destruct (I1 x X0 q Hx0 HX0) as (? & Q & HQ & Hin). split; [done|].
    destruct (Hfwd q Q HQ Hqid) as (Q' & ? & _ & Hsub). exists Q'. split; [done|]. set_solver.
  - intros c Hx Hin. destruct (Hlook x X Hx) as (Hxid & X0 & Hx0 & _ & _ & _ & _ & _ & Hsub & _ & Hid).
    destruct (I2 x X0 c Hx0) as (? & C & HC & HCp & HCt); [set_solver|]. split; [done|].
    assert (c <> id). { intros ->. simplify_eq. destruct (Hid HCp) as [? _]. done. }
    destruct (Hkeep c C x HC) as (C' & ? & ? & ?); [done..|]. exists C'.
    split; [done|]. split; congruence.
  - intros q Hx HX Hpd.
    destruct (Hlook x X Hx) as (_ & X0 & Hx0 & Ht0 & Hq0 & _ & _ & _ & Hsub & _).
    destruct (Hpar x X q X0 Hx Hx0 HX) as [HX0 _]. rewrite Ht0. apply (I3 x X0 q Hx0 HX0).
    unfold pending in *. rewrite <- Hq0. destruct Hpd; [by left|right; set_solver].
  - intros q Q Hx HX HQ Ht. destruct (Hlook x X Hx) as (Hxid & X0 & Hx0 & Ht0 & _).
    destruct (Hpar x X q X0 Hx Hx0 HX) as [HX0 Hqid].
    destruct (Hlook q Q HQ) as (_ & Q0 & HQ0 & _).
    rewrite Ht0 in Ht. destruct (I4 x X0 q Q0 Hx0 HX0 HQ0 Ht) as [Hin|]; [left|by right].
    destruct (Hfwd q Q0 HQ0 Hqid) as (Q' & ? & Hsub & _). simplify_eq. set_solver.
  - intros q Hx HA HX. destruct (Hlook x X Hx) as (_ & X0 & Hx0 & Ht0 & _).
    destruct (Hpar x X q X0 Hx Hx0 HX) as [HX0 _]. rewrite Ht0. by eapply I5.
  - intros c Hx Hin.
    destruct (Hlook x X Hx) as (Hxid & X0 & Hx0 & _ & _ & _ & _ & _ & _ & Hsub & Hid).
    destruct (I6 x X0 c Hx0) as (C & HC & HCp); [set_solver|].
    assert (c <> id). { intros ->. simplify_eq. destruct (Hid HCp) as [_ ?]. done. }
    destruct (Hkeep c C x HC) as (C' & ? & ? & _); [done..|]. eauto.
Qed.

(** The schedule of an object plays no part in where it is. *)
Lemma timers_inv A o f h :
  loop_inv A h -> loop_inv A (alter (fun O => set_timers (f (timer_events O)) O) o h).
Proof.
  intros Hinv. destruct (h !! o) as [O|] eqn:Ho.
  - assert (Heq : alter (fun O => set_timers (f (timer_events O)) O) o h = <[o := set_timers (f (timer_events O)) O]> h).
    { apply map_eq. intros x. destruct (decide (x = o)) as [->|].
      - by rewrite lookup_alter_eq, lookup_insert_eq, Ho.
      - by rewrite lookup_alter_ne, lookup_insert_ne. }
    rewrite Heq. eapply inv_update; [done..|]. intros Hne Hp.
    destruct (parent O) as [p|] eqn:Hpar; [|done]. by apply (inv_pending _ _ Hinv o O p).
  - rewrite alter_id; [done|]. intros O. congruence.
Qed.

(** ** One turn, with programs that act on the tree *)

Definition timer_le (x y : Z * Z) : Prop := x.1 <= y.1.
Definition sorted_timers (O : Object) : Prop := StronglySorted timer_le (timer_events O).

(** What holds while a turn runs: [A] are the objects that are being handled or wait in a set that
    was taken out, and [N] bounds the identities. *)
Record turn_inv (N : positive) (A : gset positive) (h : heap) : Prop := {
  ti_loop : loop_inv A h;
  ti_live : forall x, x ∈ A -> is_Some (h !! x);
  ti_bound : forall x, is_Some (h !! x) -> (x < N)%positive;
  ti_sorted : map_Forall (fun _ O => sorted_timers O) h
}.

(** What a program may do.  It uses and creates objects that exist, under identities below [N], and destroys only children that
    are not being handled and do not wait in a set that was taken out: either they have
    nothing to do or they are still in the set of their parent. *)
Definition allowed (N : positive) (h : heap) (a : action) : Prop :=
  match a with
  | Post o _ | StartTimer o _ _ | StopTimer o _ _ => is_Some (h !! o)
  | Create id p =>
      h !! id = None /\ (id < N)%positive /\
      match p with Some q => (q < id)%positive /\ is_Some (h !! q) | None => True end
  | Destroy id =>
      exists O p P, h !! id = Some O /\ parent O = Some p /\ h !! p = Some P /\
        (isTriggering O = false \/ id ∈ execSubObjectSet P)
  end.

Fixpoint disciplined (capacity : nat) (N : positive) (l : list action) (h : heap) : Prop :=
  match l with
  | [] => True
  | a :: l' => allowed N h a /\ forall h', do_action capacity a h = Some h' -> disciplined capacity N l' h'
  end.

Lemma turn_inv_shape N A A' h h' :
  turn_inv N A h -> A' ⊆ A -> loop_inv A' h' -> same_shape h h' -> turn_inv N A' h'.
Proof.
  intros [_ H2 H3 H4] Hsub Hl Hs. constructor; [done| | |].
  - intros x Hx. apply (same_shape_some h h' x Hs). auto.
  - intros x Hx. apply H3. by apply (same_shape_some h h' x Hs).
  - intros x X Hx. specialize (Hs x). rewrite Hx in Hs. destruct (h !! x) as [X0|] eqn:Hx0; simplify_eq/=.
    pose proof (H4 x X0 Hx0) as Ho. unfold sorted_timers in *. by rewrite <- H0.
Qed.

Lemma insert_timer_in x y l : y ∈ insert_timer x l -> y = x \/ y ∈ l.
Proof.
  induction l as [|z l IH]; cbn; [by intros ->%list_elem_of_singleton; left|].
  destruct (timer_before x z); [by intros [->|?]%elem_of_cons; auto|].
  destruct (timer_before z x); [|by right]. rewrite !elem_of_cons. naive_solver.
Qed.

Lemma insert_timer_sorted x l : StronglySorted timer_le l -> StronglySorted timer_le (insert_timer x l).
Proof.
  induction 1 as [|y l Hs IH Hy]; cbn; [by repeat constructor|]. unfold timer_before.
  destruct ((x.1 <? y.1) || _) eqn:E1.
  - constructor; [by constructor|]. constructor; [unfold timer_le; lia|].
    eapply Forall_impl; [exact Hy|]. unfold timer_le. intros z ?. cbn in *. lia.
  - destruct ((y.1 <? x.1) || _) eqn:E2; [|by constructor].
    constructor; [done|]. apply Forall_forall. intros z [->|Hz]%insert_timer_in; [unfold timer_le; lia|].
    by eapply Forall_forall in Hy.
Qed.

Lemma filter_timers_sorted (P : Z * Z -> Prop) `{!forall x, Decision (P x)} l :
  StronglySorted timer_le l -> StronglySorted timer_le (filter P l).
Proof.
  induction 1 as [|y l Hs IH Hy]; [constructor|]. rewrite filter_cons. destruct (decide (P y)); [|done].
  constructor; [done|]. apply Forall_forall. intros z [_ Hz]%list_elem_of_filter. by eapply Forall_forall in Hy.
Qed.

Lemma split_due_sorted now l :
  StronglySorted timer_le l -> StronglySorted timer_le (split_due now l).2.
Proof.
  induction 1 as [|y l Hs IH Hy]; cbn; [constructor|]. destruct (y.1 <=? now); [|by constructor].
  by destruct (split_due now l).
Qed.

Lemma insert_timers_sorted xs l :
  StronglySorted timer_le l -> StronglySorted timer_le (foldl (fun l x => insert_timer x l) l xs).
Proof. revert l. induction xs as [|x xs IH]; cbn; intros l Hl; [done|]. by apply IH, insert_timer_sorted. Qed.

(** The timers of an object change. *)
Lemma turn_inv_timers N A o f h :
  turn_inv N A h -> (forall l, StronglySorted timer_le l -> StronglySorted timer_le (f l)) ->
  turn_inv N A (alter (fun O => set_timers (f (timer_events O)) O) o h).
Proof.
  intros [H1 H2 H3 H4] Hf. constructor; [by apply timers_inv| | |].
  - intros x Hx. apply lookup_alter_is_Some. auto.
  - intros x Hx%lookup_alter_is_Some. auto.
  - intros x X [[<- (O & Ho & ->)]|[_ Hx]]%lookup_alter_Some; [|by apply (H4 x)]. apply Hf, (H4 o O Ho).
Qed.

Lemma turn_inv_new N A id p h h' :
  turn_inv N A h -> h !! id = None -> (id < N)%positive ->
  match p with Some q => (q < id)%positive | None => True end -> new_Object id p h = Some h' -> turn_inv N A h'.
Proof.
  intros [H1 H2 H3 H4] Hid HN Hlt Hnew.
  assert (HidA : id ∉ A) by (intros [? ?]%H2; congruence).
  assert (Hlt' : match p with Some q => (q < id)%positive | None => True end) by done.
  constructor; [by eapply new_Object_inv| | |].
  - intros x [X Hx]%H2. destruct (new_Object_forward id p h h' x X Hid Hnew Hx) as (? & ? & _). eauto.
  - intros x [X Hx]. destruct (new_Object_lookup id p h h' x X Hnew Hx) as [[-> _]|(_ & X0 & Hx0 & _)]; eauto.
  - intros x X Hx. unfold sorted_timers. unfold new_Object in Hnew. destruct p as [q|].
    + destruct (h !! q) as [Q|] eqn:HQ; simplify_eq/=.
      apply lookup_insert_Some in Hx as [[_ <-]|[_ [[_ <-]|[_ Hx]]%lookup_insert_Some]];
        [constructor|exact (H4 q Q HQ)|exact (H4 x X Hx)].
    + simplify_eq/=. apply lookup_insert_Some in Hx as [[_ <-]|[_ Hx]]; [constructor|exact (H4 x X Hx)].
Qed.

Lemma destroy_timers id D h x X : h !! id = Some D -> destroy_Object id h !! x = Some X ->
  exists X0, h !! x = Some X0 /\ timer_events X = timer_events X0.
Proof.
  intros HD. rewrite (destroy_Object_unfold _ _ _ HD). intros [_ Hx]%lookup_delete_Some.
  rewrite map_lookup_imap in Hx. destruct (unlinked id D h !! x) as [X1|] eqn:Hx1; simplify_eq/=.
  assert (Ht : exists X0, h !! x = Some X0 /\ timer_events X1 = timer_events X0).
  { unfold unlinked in Hx1. destruct (parent D) as [p|]; [|eauto].
    apply lookup_alter_Some in Hx1 as [[<- (X0 & Hx0 & ->)]|[_ Hx1]]; eauto. }
  destruct Ht as (X0 & Hx0 & Ht). exists X0. split; [done|]. by destruct (decide (x ∈ childObjectSet D)).
Qed.

Lemma turn_inv_destroy N A id h : turn_inv N A h -> id ∉ A -> turn_inv N A (destroy_Object id h).
Proof.
  intros [H1 H2 H3 H4] HidA. destruct (h !! id) as [D|] eqn:HD; [|unfold destroy_Object; by rewrite HD].
  constructor; [by apply destroy_Object_inv| | |].
  - intros x Hx. destruct (H2 x Hx) as [X HX]. assert (Hne : x <> id) by congruence.
    destruct (destroy_forward id D h x X HD HX Hne) as (? & ? & _). eauto.
  - intros x [X Hx]. destruct (destroy_timers id D h x X HD Hx) as (X0 & ? & _). eauto.
  - intros x X Hx. destruct (destroy_timers id D h x X HD Hx) as (X0 & Hx0 & E). unfold sorted_timers. rewrite E. exact (H4 x X0 Hx0).
Qed.

(** An object that may be destroyed is nobody's who is being handled. *)
Lemma allowed_inactive N A h id : turn_inv N A h -> allowed N h (Destroy id) -> id ∉ A.
Proof.
  intros H (O & p & P & HO & Hp & HP & Hor) HA. pose proof (ti_loop _ _ _ H) as Hl. destruct Hor as [Hf|Hin].
  - pose proof (inv_active _ _ Hl id O p HO HA Hp). congruence.
  - by destruct (inv_exec _ _ Hl p P id HP Hin) as [? _].
Qed.

Section TurnSpec.
Variable capacity : nat.
Variable run_event timer_slot : Z -> heap -> list action.
Variable rearm : Z -> Z -> option Z.
Variable N : positive.

Lemma do_action_spec A a h :
  turn_inv N A h -> allowed N h a -> exists h', do_action capacity a h = Some h' /\ turn_inv N A h'.
Proof.
  intros H Ha. destruct a as [o e|o d t|o d t|id p|id]; cbn [do_action allowed] in *.
  - destruct (addTriggerEvent_spec capacity A h o e (ti_loop _ _ _ H) Ha) as (b & h' & -> & Hl & Hs).
    exists h'. split; [done|]. by eapply turn_inv_shape.
  - destruct Ha as [O Ho]. rewrite Ho. eexists. split; [done|]. apply turn_inv_timers; [done|]. intros l. apply insert_timer_sorted.
  - destruct Ha as [O Ho]. rewrite Ho. eexists. split; [done|]. apply turn_inv_timers; [done|]. intros l. apply filter_timers_sorted.
  - destruct Ha as (Hid & HN & Hp).
    assert (Hnew : exists h', new_Object id p h = Some h').
    { unfold new_Object. destruct p as [q|]; [|eauto]. destruct Hp as [_ [Q ->]]. eauto. }
    destruct Hnew as [h' Hnew]. exists h'. split; [done|].
    eapply turn_inv_new; [exact H|done|done| |exact Hnew]. destruct p; [apply Hp|done].
  - pose proof (allowed_inactive N A h id H Ha) as HA. destruct Ha as (O & p & P & HO & _). rewrite HO.
    eexists. split; [done|]. by apply turn_inv_destroy.
Qed.

Lemma do_actions_spec A l h :
  turn_inv N A h -> disciplined capacity N l h -> exists h', do_actions capacity l h = Some h' /\ turn_inv N A h'.
Proof.
  revert h. induction l as [|a l IH]; cbn; intros h H Hd; [eauto|]. destruct Hd as [Ha Hd].
  destruct (do_action_spec A a h H Ha) as (h1 & E & H1). rewrite E. cbn [mbind option_bind]. by apply IH, Hd.
Qed.

Lemma run_each_spec prog A l h :
  (forall x h, disciplined capacity N (prog x h) h) -> turn_inv N A h ->
  exists h', run_each capacity prog l h = Some h' /\ turn_inv N A h'.
Proof.
  intros Hp. revert h. induction l as [|x l IH]; cbn; intros h H; [eauto|].
  destruct (do_actions_spec A _ h H (Hp x h)) as (h1 & -> & H1). cbn [mbind option_bind]. by apply IH.
Qed.

(** The programs keep to the rule, whatever they find. *)
Context (events_ok : forall e h, disciplined capacity N (run_event e h) h)
        (slots_ok : forall t h, disciplined capacity N (timer_slot t h) h).

(** An object that is being handled changes. *)
Lemma turn_inv_update A h o O O' :
  turn_inv N ({[o]} ∪ A) h -> h !! o = Some O -> parent O' = parent O -> childObjectSet O' = childObjectSet O ->
  execSubObjectSet O' = execSubObjectSet O -> isTriggering O' = isTriggering O ->
  (sorted_timers O -> sorted_timers O') -> turn_inv N ({[o]} ∪ A) (<[o := O']> h).
Proof.
  intros [H1 H2 H3 H4] Ho Hp Hc He Ht Hs. constructor.
  - eapply inv_update; [done..|]. intros Hne _. destruct (parent O) as [p|] eqn:Hpar; [|done].
    apply (inv_active _ _ H1 o O p); [done|set_solver|done].
  - intros x Hx. apply lookup_insert_is_Some. destruct (decide (o = x)); auto.
  - intros x Hx%lookup_insert_is_Some. apply H3. destruct Hx as [->|[_ ?]]; eauto.
  - apply map_Forall_insert_2; [|done]. apply Hs, (H4 o O Ho).
Qed.

Lemma handleTriggerQueue_spec A h o O :
  turn_inv N ({[o]} ∪ A) h -> h !! o = Some O ->
  exists h', handleTriggerQueue capacity run_event o h = Some (Event <$> trigger_queue O, h') /\ turn_inv N ({[o]} ∪ A) h'.
Proof using events_ok slots_ok.
  intros H Ho. unfold handleTriggerQueue. rewrite Ho. cbn [mbind option_bind].
  destruct (run_each_spec run_event ({[o]} ∪ A) (trigger_queue O) (<[o := set_queue [] O]> h) events_ok) as (h' & -> & H');
    [by eapply turn_inv_update|]. cbn [mbind option_bind]. eauto.
Qed.

Lemma handleTimerEvent_spec A h o now :
  turn_inv N ({[o]} ∪ A) h ->
  exists log h', handleTimerEvent capacity timer_slot rearm now o h = Some (log, h') /\ turn_inv N ({[o]} ∪ A) h'.
Proof using events_ok slots_ok.
  intros H. destruct (ti_live _ _ _ H o) as [O Ho]; [set_solver|].
  unfold handleTimerEvent. rewrite Ho. cbn [mbind option_bind].
  pose proof (split_due_sorted now (timer_events O)) as Hs. destruct (split_due now (timer_events O)) as [due rest].
  destruct (run_each_spec timer_slot ({[o]} ∪ A) due.*2 (<[o := set_timers rest O]> h) slots_ok) as (h1 & -> & H1);
    [by eapply turn_inv_update|]. cbn [mbind option_bind].
  destruct (ti_live _ _ _ H1 o) as [O1 Ho1]; [set_solver|]. rewrite Ho1. cbn [mbind option_bind].
  eexists _, _. split; [reflexivity|]. eapply turn_inv_update; try done. apply insert_timers_sorted.
Qed.

Lemma run_children_spec handle A cs h :
  (forall c A' h', c ∈ cs -> turn_inv N ({[c]} ∪ A') h' -> c ∉ A' ->
     exists log h'', handle c h' = Some (log, h'') /\ turn_inv N A' h'') ->
  NoDup cs -> (forall c, c ∈ cs -> c ∉ A) -> turn_inv N (list_to_set cs ∪ A) h ->
  exists log h', run_children handle cs h = Some (log, h') /\ turn_inv N A h'.
Proof.
  intros Hh Hnd. revert h Hh. induction Hnd as [|c cs Hc Hnd IH]; intros h Hh Hcs H.
  - exists [], h. simpl in *. split; [done|]. by rewrite union_empty_l_L in H.
  - cbn [run_children].
    destruct (Hh c (list_to_set cs ∪ A) h) as (log & h1 & -> & H1); [left| | |].
    + simpl in H. by rewrite <- union_assoc_L in H.
    + apply not_elem_of_union. split; [by rewrite elem_of_list_to_set|]. apply Hcs. left.
    + cbn [mbind option_bind].
      destruct (IH h1) as (log2 & h' & -> & H'); [intros c' A' h' Hin; apply Hh; by right|intros c' Hin; apply Hcs; by right|done|].
      eexists _, h'. split; [reflexivity|done].
Qed.

(** The end of a turn: the object goes to sleep or back into its parent's set. *)
Lemma handle_end {L} A h3 o O4 (log : L) : turn_inv N ({[o]} ∪ A) h3 -> o ∉ A -> h3 !! o = Some O4 ->
  exists h', match parent O4 with
    | Some p => if bool_decide (trigger_queue O4 = [] /\ timer_events O4 = [] /\ execSubObjectSet O4 = ∅)
                then Some (log, <[o := set_triggering false O4]> h3)
                else h4 ← pushExec (Pos.to_nat p) p o h3; Some (log, h4)
    | None => Some (log, <[o := set_triggering false O4]> h3)
    end = Some (log, h') /\ turn_inv N A h'.
Proof.
  intros H HoA HO. pose proof (ti_loop _ _ _ H) as Hinv.
  assert (Hidle : parent O4 = None \/ ~ pending O4 -> turn_inv N A (<[o := set_triggering false O4]> h3)).
  { intros Hor. eapply turn_inv_shape; [exact H|set_solver|by apply inv_idle|by eapply same_shape_insert]. }
  destruct (parent O4) as [p|] eqn:Hpar.
  - case_bool_decide as Hi.
    + eexists. split; [reflexivity|]. apply Hidle. right. intros [Hq|Hq]; destruct Hi as (? & _ & ?); done.
    + destruct (pushExec_spec (Pos.to_nat p) A _ o O4 p Hinv HoA HO Hpar) as (h4 & -> & H4 & Hs); [done|].
      cbn [mbind option_bind]. exists h4. split; [done|]. eapply turn_inv_shape; [exact H|set_solver|done|done].
  - eexists. split; [reflexivity|]. apply Hidle. by left.
Qed.

(** [handleEvent] terminates, runs what the object had queued first, and gives the object up. *)
Lemma handleEvent_spec fuel now A h o O :
  turn_inv N ({[o]} ∪ A) h -> o ∉ A -> h !! o = Some O -> (Pos.to_nat N < Pos.to_nat o + fuel)%nat ->
  exists log h', handleEvent capacity run_event timer_slot rearm fuel now o h = Some ((Event <$> trigger_queue O) ++ log, h') /\
    turn_inv N A h'.
Proof using events_ok slots_ok.
  revert A h o O. induction fuel as [|fuel IH]; intros A h o O H HoA Ho Hfuel.
  { assert (o < N)%positive by (apply (ti_bound _ _ _ H); eauto). lia. }
  cbn [handleEvent]. destruct (handleTriggerQueue_spec A h o O H Ho) as (h1 & -> & H1). cbn [mbind option_bind].
  destruct (ti_live _ _ _ H1 o) as [O2 HO2]; [set_solver|]. rewrite HO2. cbn [mbind option_bind].
  destruct (inv_swap A h1 o O2 (ti_loop _ _ _ H1) HO2) as [Hl2 Hch].
  set (h2 := <[o := set_exec ∅ O2]> h1) in *.
  assert (H2 : turn_inv N (execSubObjectSet O2 ∪ ({[o]} ∪ A)) h2).
  { assert (Hs : same_shape h1 h2) by (by eapply same_shape_insert). destruct H1 as [_ G2 G3 G4]. constructor; [done| | |].
    - intros x Hx. apply (same_shape_some h1 h2 x Hs). apply elem_of_union in Hx as [Hx|Hx]; [by apply Hch|auto].
    - intros x Hx. apply G3. by apply (same_shape_some h1 h2 x Hs).
    - apply map_Forall_insert_2; [|done]. exact (G4 o O2 HO2). }
  destruct (run_children_spec (handleEvent capacity run_event timer_slot rearm fuel now) ({[o]} ∪ A)
    (elements (execSubObjectSet O2)) h2) as (log2 & h3 & -> & H3).
  - intros c A' h' Hin Hi Hn. apply elem_of_elements in Hin. destruct (Hch c Hin) as (_ & ? & _).
    destruct (ti_live _ _ _ Hi c) as [C HC]; [set_solver|].
    destruct (IH A' h' c C Hi Hn HC) as (log & h'' & E & Hi'); [lia|eauto].
  - apply NoDup_elements.
  - intros c Hin%elem_of_elements. by apply Hch.
  - by rewrite list_to_set_elements_L.
  - cbn [mbind option_bind].
    destruct (handleTimerEvent_spec A h3 o (now o) H3) as (log3 & h4 & -> & H4). cbn [mbind option_bind].
    destruct (ti_live _ _ _ H4 o) as [O4 HO4]; [set_solver|]. rewrite HO4. cbn [mbind option_bind].
    destruct (handle_end A h4 o O4 ((Event <$> trigger_queue O) ++ log2 ++ log3) H4 HoA HO4) as (h' & E & H').
    eexists _, h'. split; [exact E|done].
Qed.
End TurnSpec.

(** ** The sleep *)

(** [x] is reached from [o] through the sets of objects to execute. *)
Definition exec_child (h : heap) (p c : positive) : Prop :=
  exists P, h !! p = Some P /\ c ∈ execSubObjectSet P.
Definition on_chain (h : heap) : relation positive := rtc (exec_child h).

(** [x] is a descendant of [o]. *)
Definition descendant (h : heap) : relation positive :=
  rtc (fun p c => exists C, h !! c = Some C /\ parent C = Some p).

(** A timeout that sleeps past nothing below [o]. *)
Definition timely (h : heap) (now : Z) (o : positive) (t : Z) : Prop :=
  (forall x X, on_chain h o x -> h !! x = Some X -> trigger_queue X <> [] -> t = 0) /\
  (forall x X d, on_chain h o x -> h !! x = Some X -> d ∈ (timer_events X).*1 ->
     0 <= t <= Z.max 0 (d - now)).

(** [timerEventsMap.begin()] is the earliest. *)
Lemma head_earliest x l d : StronglySorted timer_le (x :: l) -> d ∈ (x :: l).*1 -> x.1 <= d.
Proof.
  intros [_ Hx]%StronglySorted_inv Hd. cbn in Hd. apply elem_of_cons in Hd as [->|Hd]; [lia|].
  apply list_elem_of_fmap in Hd as (y & -> & Hy). by eapply Forall_forall in Hx.
Qed.

Lemma min_timeout_spec next cs acc (res : positive -> Z) :
  (forall c, c ∈ cs -> next c = Some (res c)) -> 0 < acc ->
  exists t, min_timeout next cs acc = Some t /\ 0 <= t <= acc /\
    forall c, c ∈ cs -> 0 <= res c -> t <= res c.
Proof.
  revert acc. induction cs as [|c cs IH]; intros acc Hn Hacc; cbn [min_timeout].
  - exists acc. split; [done|]. split; [lia|]. by intros c ?%not_elem_of_nil.
  - rewrite (Hn c) by left. cbn [mbind option_bind]. destruct (Z.eqb_spec (res c) 0) as [H0|H0].
    + exists 0. split; [done|]. split; [lia|]. by intros.
    + set (acc' := if 0 <? res c then if acc <? res c then acc else res c else acc).
      assert (Hacc' : 0 < acc' <= acc /\ (0 <= res c -> acc' <= res c))
        by (unfold acc'; destruct (Z.ltb_spec 0 (res c)), (Z.ltb_spec acc (res c)); lia).
      destruct (IH acc') as (t & -> & Ht & Hall); [intros; apply Hn; by right|lia|].
      exists t. split; [done|]. split; [lia|].
      intros c' [->|Hin]%elem_of_cons; [lia|by apply Hall].
Qed.

Lemma getNextTimeOut_spec fuel now N h o :
  loop_inv ∅ h -> map_Forall (fun _ O => sorted_timers O) h -> is_Some (h !! o) ->
  (forall x, x ∈ dom h -> (x < N)%positive) -> (Pos.to_nat N < Pos.to_nat o + fuel)%nat ->
  exists t, getNextTimeOut fuel now o h = Some t /\ -1 <= t /\ timely h now o t.
Proof.
  intros Hinv Hsort. revert o. induction fuel as [|fuel IH]; intros o [O Ho] HN Hfuel.
  { assert (o < N)%positive by (apply HN, elem_of_dom; eauto). lia. }
  assert (Hsplit : forall x, on_chain h o x -> x = o \/
    exists c, c ∈ execSubObjectSet O /\ on_chain h c x).
  { intros x Hx. inversion Hx as [|? c ? (P & HP & Hc) Hrest]; subst; [by left|].
    right. exists c. assert (P = O) as -> by congruence. done. }
  assert (Hres : exists res, forall c, c ∈ execSubObjectSet O ->
    getNextTimeOut fuel now c h = Some (res c) /\ -1 <= res c /\ timely h now c (res c)).
  { exists (fun c => default 0 (getNextTimeOut fuel now c h)). intros c Hc.
    destruct (inv_exec _ _ Hinv o O c Ho Hc) as (_ & C & HC & HCp & _).
    destruct (inv_tree _ _ Hinv c C o HC HCp) as (Hlt & _).
    destruct (IH c) as (t & -> & ? & ?); [eauto|done|lia|]. done. }
  destruct Hres as [res Hres].
  cbn [getNextTimeOut]. rewrite Ho. cbn [mbind option_bind].
  destruct (trigger_queue O) as [|e q] eqn:Hq.
  2: { exists 0. split; [done|]. split; [lia|]. split; [done|]. intros. lia. }
  case_bool_decide as Hidle.
  { destruct Hidle as [Ht He]. exists (-1). split; [done|]. split; [lia|].
    split; [intros x X Hx HX Hne|intros x X d Hx HX Hin];
      destruct (Hsplit x Hx) as [->|(c & Hc & _)]; simplify_eq; try (rewrite He in Hc; set_solver).
    rewrite Ht in Hin. by apply not_elem_of_nil in Hin. }
  set (m := match timer_events O with [] => INT64_MAX | y :: _ => y.1 - now end).
  assert (Hm : forall d, d ∈ (timer_events O).*1 -> m <= d - now).
  { intros d Hd. unfold m. pose proof (Hsort o O Ho) as Hso. unfold sorted_timers in Hso.
    destruct (timer_events O) as [|d0 l]; [by apply not_elem_of_nil in Hd|].
    pose proof (head_earliest d0 l d Hso Hd). lia. }
  destruct (Z.leb_spec m 0).
  { exists 0. split; [done|]. split; [lia|]. split; [done|]. intros. lia. }
  destruct (min_timeout_spec (fun c => getNextTimeOut fuel now c h) (elements (execSubObjectSet O))
              m res) as (t & Ht & Hb & Hall); [|lia|].
  { intros c Hc%elem_of_elements. by apply Hres. }
  exists t. split; [done|]. split; [lia|]. split.
  - intros x X Hx HX Hne. destruct (Hsplit x Hx) as [->|(c & Hc & Hcx)]; [simplify_eq|].
    destruct (Hres c Hc) as (_ & _ & [H1 _]). specialize (H1 x X Hcx HX Hne).
    specialize (Hall c). rewrite elem_of_elements, H1 in Hall. specialize (Hall Hc). lia.
  - intros x X d Hx HX Hd. destruct (Hsplit x Hx) as [->|(c & Hc & Hcx)].
    + simplify_eq. specialize (Hm d Hd). lia.
    + destruct (Hres c Hc) as (_ & _ & [_ H2]). specialize (H2 x X d Hcx HX Hd).
      specialize (Hall c). rewrite elem_of_elements in Hall. specialize (Hall Hc). lia.
Qed.

(** A descendant with work is reached through the sets to execute. *)
Lemma pending_on_chain h o x X :
  loop_inv ∅ h -> descendant h o x -> h !! x = Some X -> pending X -> on_chain h o x.
Proof.
  intros Hinv Hd. revert x Hd X.
  refine (rtc_ind_r _ _ _ _); [intros; constructor|].
  intros p x Hd [C [HC HCp]] IH X HX Hpd. assert (C = X) as -> by congruence.
  destruct (inv_tree _ _ Hinv x X p HX HCp) as (_ & P & HP & _).
  pose proof (inv_pending _ _ Hinv x X p HX HCp Hpd) as Ht.
  destruct (inv_scheduled _ _ Hinv x X p P HX HCp HP Ht) as [Hin|?%not_elem_of_empty]; [|done].
  eapply rtc_r; [apply (IH P HP)|].
  - right. set_solver.
  - exists P. done.
Qed.

(** ** Properties *)

Section Life.
Variable capacity : nat.
Variable run_event timer_slot : Z -> heap -> list action.
Variable rearm : Z -> Z -> option Z.

Abbreviation turn := (handleEvent capacity run_event timer_slot rearm).

(** Events and slots keep to the rule and create objects under identities below [N], above all that are in use. *)
Definition behaved (N : positive) (h : heap) : Prop :=
  (forall e h, disciplined capacity N (run_event e h) h) /\
  (forall t h, disciplined capacity N (timer_slot t h) h) /\
  forall x, is_Some (h !! x) -> (x < N)%positive.

(** What happens to a forest of objects: objects are created, post events to
    each other, start and stop timers, roots take turns, objects are destroyed. *)
Inductive loop_step : heap -> heap -> Prop :=
  | step_new id p h h' :
      h !! id = None -> match p with Some q => (q < id)%positive | None => True end ->
      new_Object id p h = Some h' -> loop_step h h'
  | step_post o e b h h' : addTriggerEvent capacity o e h = Some (b, h') -> loop_step h h'
  | step_timer o d t h : loop_step h (startTimer o d t h)
  | step_stop o d t h : loop_step h (stopTimer o d t h)
  | step_turn fuel now N o O log h h' :
      h !! o = Some O -> parent O = None -> behaved N h ->
      turn fuel now o h = Some (log, h') -> loop_step h h'
  | step_destroy id h : loop_step h (destroy_Object id h).

(** A root may be handled at any time. *)
Lemma inv_root_active h o O :
  loop_inv ∅ h -> h !! o = Some O -> parent O = None -> loop_inv ({[o]} ∪ ∅) h.
Proof.
  intros [I1 I2 I3 I4 I5 I6] Ho Hp. split; try done.
  - intros x X c Hx Hin. destruct (I2 x X c Hx Hin) as (_ & C & HC & HCp & ?).
    split; [|eauto]. intros [->%elem_of_singleton|?%not_elem_of_empty]%elem_of_union; [|done].
    congruence.
  - intros x X p P Hx HX HP Ht. destruct (I4 x X p P Hx HX HP Ht); [by left|right; set_solver].
  - intros x X p Hx [->%elem_of_singleton|?%not_elem_of_empty]%elem_of_union; [congruence|done].
Qed.

(** Between two turns. *)
Definition idle_inv (h : heap) : Prop := loop_inv ∅ h /\ map_Forall (fun _ O => sorted_timers O) h.

Lemma idle_turn h N : idle_inv h -> (forall x, is_Some (h !! x) -> (x < N)%positive) -> turn_inv N ∅ h.
Proof. intros [H1 H2] HN. constructor; [done| |done|done]. by intros x ?%not_elem_of_empty. Qed.

Lemma turn_idle h N : turn_inv N ∅ h -> idle_inv h.
Proof. by intros []. Qed.

(** More than all identities in use. *)
Definition bound (h : heap) : positive := Pos.succ (foldr Pos.max 1%positive (elements (dom h))).

Lemma bound_ok (h : heap) x : is_Some (h !! x) -> (x < bound h)%positive.
Proof.
  intros Hx. apply elem_of_dom, elem_of_elements in Hx. unfold bound.
  induction (elements (dom h)) as [|y l IH]; [by apply not_elem_of_nil in Hx|].
  apply elem_of_cons in Hx as [->|Hx]; simpl; [lia|]. specialize (IH Hx). lia.
Qed.

Lemma turn_total h o O now N :
  idle_inv h -> h !! o = Some O -> parent O = None -> behaved N h ->
  exists log h', turn (S (Pos.to_nat N)) now o h = Some ((Event <$> trigger_queue O) ++ log, h') /\ idle_inv h'.
Proof.
  intros Hinv Ho Hp (He & Hs & HN). pose proof (idle_turn h N Hinv HN) as [H1 H2 H3 H4].
  destruct (handleEvent_spec capacity run_event timer_slot rearm N He Hs (S (Pos.to_nat N)) now ∅ h o O)
    as (log & h' & E & H'); [|set_solver|done|lia|].
  - constructor; [by eapply inv_root_active| |done|done].
    intros x [->%elem_of_singleton|?%not_elem_of_empty]%elem_of_union; [eauto|done].
  - exists log, h'. split; [exact E|]. by eapply turn_idle.
Qed.

Lemma handleEvent_more fuel fuel' now o h r :
  turn fuel now o h = Some r -> (fuel <= fuel')%nat -> turn fuel' now o h = Some r.
Proof.
  revert fuel' o h r. induction fuel as [|fuel IH]; intros fuel' o h r Hr Hle; [done|].
  destruct fuel' as [|fuel']; [lia|]. cbn [handleEvent] in *.
  destruct (handleTriggerQueue _ _ o h) as [[log1 h1]|]; cbn [mbind option_bind] in *; [|done].
  destruct (h1 !! o) as [O2|]; cbn [mbind option_bind] in *; [|done].
  assert (Hch : forall cs h2 r2, run_children (turn fuel now) cs h2 = Some r2 -> run_children (turn fuel' now) cs h2 = Some r2).
  { induction cs as [|c cs IHc]; intros h2 r2; cbn [run_children]; [done|].
    destruct (turn fuel now c h2) as [[l h3]|] eqn:He; cbn [mbind option_bind]; [|done].
    rewrite (IH fuel' c h2 _ He) by lia. cbn [mbind option_bind].
    destruct (run_children _ cs h3) as [[l2 h4]|] eqn:Hc; cbn [mbind option_bind]; [|done].
    by rewrite (IHc h3 _ Hc). }
  destruct (run_children _ (elements (execSubObjectSet O2)) _) as [[log2 h3]|] eqn:Hc;
    cbn [mbind option_bind] in Hr; [|done].
  by rewrite (Hch _ _ _ Hc).
Qed.

Lemma loop_step_inv h h' : idle_inv h -> loop_step h h' -> idle_inv h'.
Proof.
  intros Hinv Hs. pose proof (fun N => idle_turn h N Hinv) as Ht. destruct Hs as [id p h h' Hid Hlt Hn|o e b h h' Hp|o d t h|o d t h|
    fuel now N o O log h h' Ho Hpar Hb Hrun|id h].
  - apply (turn_idle _ (Pos.max (bound h) (Pos.succ id))). eapply turn_inv_new; [apply Ht|exact Hid|lia|exact Hlt|exact Hn].
    intros x Hx%bound_ok. lia.
  - destruct (h !! o) as [O|] eqn:Ho; [|unfold addTriggerEvent in Hp; by rewrite Ho in Hp].
    destruct (addTriggerEvent_spec capacity ∅ h o e (proj1 Hinv)) as (b' & h2 & Hp' & Hl & Hsh); [eauto|].
    assert (h2 = h') as -> by congruence. apply (turn_idle _ (bound h)).
    eapply turn_inv_shape; [apply Ht, bound_ok|done|exact Hl|exact Hsh].
  - apply (turn_idle _ (bound h)), turn_inv_timers; [apply Ht, bound_ok|]. intros l. apply insert_timer_sorted.
  - apply (turn_idle _ (bound h)), turn_inv_timers; [apply Ht, bound_ok|]. intros l. apply filter_timers_sorted.
  - destruct (turn_total h o O now N Hinv Ho Hpar Hb) as (log2 & h2 & Hrun2 & Hinv2).
    apply (handleEvent_more _ (fuel `max` S (Pos.to_nat N))) in Hrun; [|lia].
    apply (handleEvent_more _ (fuel `max` S (Pos.to_nat N))) in Hrun2; [|lia]. congruence.
  - apply (turn_idle _ (bound h)), turn_inv_destroy; [apply Ht, bound_ok|set_solver].
Qed.

Lemma reachable_inv h : rtc loop_step ∅ h -> idle_inv h.
Proof. apply rtc_invariant; [apply loop_step_inv|split; [apply empty_inv|apply map_Forall_empty]]. Qed.

(** An object with work is in the set of its parent, which then has work too. *)
Definition scheduled (h : heap) : Prop :=
  forall o O p, h !! o = Some O -> parent O = Some p -> pending O ->
    exists P, h !! p = Some P /\ o ∈ execSubObjectSet P /\ pending P.

Lemma idle_scheduled h : idle_inv h -> scheduled h.
Proof.
  intros [Hr _] o O p Ho Hp Hpd. destruct (inv_tree _ _ Hr o O p Ho Hp) as (_ & P & HP & _).
  exists P. split; [done|].
  pose proof (inv_pending _ _ Hr o O p Ho Hp Hpd) as Ht.
  destruct (inv_scheduled _ _ Hr o O p P Ho Hp HP Ht) as [Hin|?%not_elem_of_empty]; [|done].
  split; [done|]. right. set_solver.
Qed.

(** C7. No trigger is lost on one thread.  In every state a forest of objects
    can reach by creating and destroying objects, posting events, starting and stopping
    timers and taking turns, an object with queued events or with children to execute is in
    its parent's set of objects to execute, and its parent in turn, up to the
    root.  While a turn runs, its events and the slots of its timers may do all of these things too, as long as they
    use objects that exist and destroy none that is being handled or waits in a set that was taken out
    ([allowed]; [destroyed_sibling_dangles] is what happens otherwise), and create finitely many: then the turn runs to its end without using a destroyed object, it
    runs what the root had queued first, and afterwards again no work is forgotten. *)
Theorem no_lost_trigger h :
  rtc loop_step ∅ h ->
  scheduled h /\
  (forall r R now N, h !! r = Some R -> parent R = None -> behaved N h ->
     exists fuel log h', turn fuel now r h = Some ((Event <$> trigger_queue R) ++ log, h') /\ scheduled h').
Proof.
  intros Hr%reachable_inv. split; [by apply idle_scheduled|].
  intros r R now N HR Hpar Hb. destruct (turn_total h r R now N Hr HR Hpar Hb) as (log & h' & E & H').
  exists (S (Pos.to_nat N)), log, h'. split; [exact E|by apply idle_scheduled].
Qed.

(** C8. The loop does not sleep on pending work.  In every reachable state and
    at any time, [getNextTimeOut] of any object terminates with a timeout [t]:
    it is 0 if the object or any of its descendants has a queued event, and
    0 <= t <= the remaining time of every deadline of the object and of the
    descendants in the sets to execute; [exec] sleeps no longer than that. *)
Theorem never_sleeps_on_pending h r R now :
  rtc loop_step ∅ h -> h !! r = Some R ->
  exists fuel t, getNextTimeOut fuel now r h = Some t /\
    (forall x X, descendant h r x -> h !! x = Some X -> trigger_queue X <> [] ->
       t = 0 /\ exec_timeout t = 0) /\
    (forall x X d, on_chain h r x -> h !! x = Some X -> d ∈ (timer_events X).*1 ->
       0 <= exec_timeout t <= Z.max 0 (d - now)) /\
    0 <= exec_timeout t <= DEFAULT_TIMEOUT_MSEC.
Proof.
  intros [Hr Hsort]%reachable_inv HR. set (N := bound h).
  destruct (getNextTimeOut_spec (S (Pos.to_nat N)) now N h r Hr Hsort) as (t & Ht & Hlo & H1 & H2);
    [eauto|intros x Hx%elem_of_dom; by apply bound_ok|lia|].
  exists (S (Pos.to_nat N)), t. split; [done|]. unfold exec_timeout, DEFAULT_TIMEOUT_MSEC.
  split; [|split].
  - intros x X Hd HX Hq. assert (t = 0) as ->; [|done].
    apply (H1 x X); [|done|done]. by eapply pending_on_chain; [| | |left].
  - intros x X d Hc HX Hd. specialize (H2 x X d Hc HX Hd).
    destruct (Z.ltb_spec t 0), (Z.ltb_spec 5000 t); lia.
  - destruct (Z.ltb_spec t 0), (Z.ltb_spec 5000 t); lia.
Qed.

(** A timer started on an idle child is not seen.  When nothing is pending
    below a root and it has no timers, starting a timer on one of its idle
    descendants from the loop's own thread (where [invoke] runs in place)
    leaves [getNextTimeOut] at -1 whatever the deadline, at any later time, and
    a turn of the root does not look at the descendant. *)
Theorem idle_child_timer_unseen h r R x d t clock fuel now :
  h !! r = Some R -> parent R = None -> trigger_queue R = [] -> timer_events R = [] ->
  execSubObjectSet R = ∅ -> x <> r ->
  getNextTimeOut (S fuel) clock r (startTimer x d t h) = Some (-1) /\
  exists h', turn (S fuel) now r (startTimer x d t h)
    = Some ([], h') /\ h' !! x = startTimer x d t h !! x.
Proof.
  intros HR Hp Hq Ht He Hxr.
  assert (Hr : startTimer x d t h !! r = Some R) by (unfold startTimer; by rewrite lookup_alter_ne).
  split.
  - cbn [getNextTimeOut]. rewrite Hr. cbn [mbind option_bind]. rewrite Hq.
    by rewrite bool_decide_true.
  - cbn [handleEvent]. unfold handleTriggerQueue, handleTimerEvent. rewrite Hr. cbn [mbind option_bind]. rewrite Hq.
    cbn [run_each mbind option_bind]. rewrite lookup_insert_eq. cbn [mbind option_bind].
    cbn [execSubObjectSet set_queue]. rewrite He, elements_empty.
    cbn [run_children mbind option_bind]. rewrite lookup_insert_eq. cbn [mbind option_bind timer_events set_exec set_queue].
    rewrite Ht. cbn [split_due fmap list_fmap run_each mbind option_bind]. rewrite lookup_insert_eq. cbn [mbind option_bind].
    rewrite lookup_insert_eq. cbn [mbind option_bind].
    cbn [parent set_timers set_exec set_queue timer_events]. rewrite Hp.
    eexists. split; [reflexivity|]. by rewrite !lookup_insert_ne.
Qed.
End Life.

(** ** The check that another thread races with *)

Module Race.

(** One object [o], its owner's thread in [handleEvent] and another thread in
    [addTriggerEvent]: the number of queued events, [isTriggering], membership
    in the parent's set, and where the threads are. *)
Inductive owner_pc := O_idle | O_queue | O_check | O_clear.
Inductive poster_pc := P_idle | P_check | P_set | P_exec.

Record state := mkState {
  queued : nat;
  triggering : bool;
  in_exec : bool;
  owner : owner_pc;
  poster : poster_pc
}.

(** The steps of [handleEvent] on the owner's thread and of [addTriggerEvent] on
    the other, in the order of the source; each is one atomic access. *)
Inductive race_step : state -> state -> Prop :=
  | owner_take n t b :                  (* handleChildEvent swapped the set out *)
      race_step (mkState n t true O_idle b) (mkState n t false O_queue b)
  | owner_run n t e b :                 (* handleTriggerQueue *)
      race_step (mkState n t e O_queue b) (mkState 0 t e O_check b)
  | owner_busy n t e b :                (* !triggerEventQueue->empty() : pushExec *)
      race_step (mkState (S n) t e O_check b) (mkState (S n) t true O_idle b)
  | owner_empty t e b :
      race_step (mkState 0 t e O_check b) (mkState 0 t e O_clear b)
  | owner_clear n t e b :               (* isTriggering.exchange(false) *)
      race_step (mkState n t e O_clear b) (mkState n false e O_idle b)
  | poster_push n t e a :               (* triggerEventQueue->addTriggerEvent *)
      race_step (mkState n t e a P_idle) (mkState (S n) t e a P_check)
  | poster_skip n e a :                 (* isTriggering is already set *)
      race_step (mkState n true e a P_check) (mkState n true e a P_idle)
  | poster_need n e a :
      race_step (mkState n false e a P_check) (mkState n false e a P_set)
  | poster_mark n t e a :               (* isTriggering.exchange(true) *)
      race_step (mkState n t e a P_set) (mkState n true e a P_exec)
  | poster_exec n t e a :               (* parent->pushExec(this) *)
      race_step (mkState n t e a P_exec) (mkState n t true a P_idle).

Definition initial : state := mkState 0 false false O_idle P_idle.

(** An event posted from another thread can be lost to the schedule.  From
    the initial state both threads can return to idle with an event queued and
    the object in nobody's set: the owner found the queue empty, the poster saw
    [isTriggering] still set and left the scheduling to the owner, and the owner
    then cleared it.  The owner has no step left; the event waits for the next
    post. *)
Theorem lost_wakeup :
  exists s, rtc race_step initial s /\
    queued s = 1%nat /\ in_exec s = false /\ triggering s = false /\
    owner s = O_idle /\ poster s = P_idle /\
    (forall s', race_step s s' -> poster s' = P_check).
Proof.
  exists (mkState 1 false false O_idle P_idle).
  split; [|repeat (split; [done|]); intros s' Hs; by inversion Hs].
  unfold initial.
  eapply rtc_l; [apply (poster_push 0)|]. eapply rtc_l; [apply poster_need|].
  eapply rtc_l; [apply poster_mark|]. eapply rtc_l; [apply poster_exec|].
  eapply rtc_l; [apply owner_take|]. eapply rtc_l; [apply owner_run|].
  eapply rtc_l; [apply owner_empty|]. eapply rtc_l; [apply poster_push|].
  eapply rtc_l; [apply poster_skip|]. eapply rtc_l; [apply owner_clear|].
  constructor.
Qed.

End Race.

(** ** A scheduler with children *)

Definition may_destroy (id : positive) (h : heap) : bool :=
  match h !! id with
  | Some D => match parent D with
              | Some p => match h !! p with
                          | Some P => negb (isTriggering D) || bool_decide (id ∈ execSubObjectSet P)
                          | None => false
                          end
              | None => false
              end
  | None => false
  end.

Lemma may_destroy_allowed N id h : may_destroy id h = true -> allowed N h (Destroy id).
Proof.
  unfold may_destroy, allowed. destruct (h !! id) as [D|]; [|done]. destruct (parent D) as [p|] eqn:Hp; [|done].
  destruct (h !! p) as [P|] eqn:HP; [|done]. intros [Ht|Hin]%orb_true_iff; exists D, p, P.
  - apply negb_true_iff in Ht. auto.
  - apply bool_decide_eq_true in Hin. auto.
Qed.

Lemma disciplined_one capacity N a h : allowed N h a -> disciplined capacity N [a] h.
Proof. by split. Qed.

Definition exists_obj (o : positive) (h : heap) : bool := bool_decide (is_Some (h !! o)).

(** Event 7 posts event 8 to object 2, which creates object 10 below it; event 9 destroys object 3 when
    that can be done; the slot of any timer posts event 9 to the root. *)
Definition demo_events (e : Z) (h : heap) : list action :=
  if (e =? 7) && exists_obj 2 h then [Post 2 8]
  else if (e =? 8) && exists_obj 2 h && negb (exists_obj 10 h) then [Create 10 (Some 2%positive)]
  else if (e =? 9) && may_destroy 3 h then [Destroy 3]
  else [].
Definition demo_slot (t : Z) (h : heap) : list action := if exists_obj 1 h then [Post 1 9] else [].
Definition demo_rearm (now t : Z) : option Z := None.

Lemma demo_disciplined e h : disciplined 100 20 (demo_events e h) h.
Proof.
  unfold demo_events.
  destruct ((e =? 7) && _) eqn:E1; [apply andb_true_iff in E1 as [_ E1%bool_decide_eq_true]; by apply disciplined_one|].
  destruct (_ && negb _) eqn:E2.
  - apply andb_true_iff in E2 as [[_ E2%bool_decide_eq_true]%andb_true_iff E3%negb_true_iff%bool_decide_eq_false].
    apply disciplined_one. split; [by apply eq_None_not_Some|]. split; [lia|]. split; [lia|done].
  - destruct (_ && may_destroy 3 h) eqn:E3; [|done]. apply andb_true_iff in E3 as [_ E3].
    by apply disciplined_one, may_destroy_allowed.
Qed.

Lemma demo_slot_disciplined t h : disciplined 100 20 (demo_slot t h) h.
Proof. unfold demo_slot. destruct (exists_obj 1 h) eqn:E; [|done]. apply bool_decide_eq_true in E. by apply disciplined_one. Qed.

(** Root 1, child 2, grandchild 3, an event queued on the grandchild, a timer of the root. *)
Definition demo_h1 : heap := default ∅ (new_Object 1 None ∅).
Definition demo_h2 : heap := default ∅ (new_Object 2 (Some 1%positive) demo_h1).
Definition demo_h3 : heap := default ∅ (new_Object 3 (Some 2%positive) demo_h2).
Definition demo_h4 : heap := startTimer 1 50 4 (default ∅ (snd <$> addTriggerEvent 100 3 7 demo_h3)).

Abbreviation demo_step := (loop_step 100 demo_events demo_slot demo_rearm).
Abbreviation demo_turn := (handleEvent 100 demo_events demo_slot demo_rearm).

Lemma demo_reachable : rtc demo_step ∅ demo_h4.
Proof.
  eapply rtc_l; [apply (step_new _ _ _ _ 1 None ∅ demo_h1); [done..|reflexivity]|].
  eapply rtc_l; [apply (step_new _ _ _ _ 2 (Some 1%positive) demo_h1 demo_h2); [done..|reflexivity]|].
  eapply rtc_l; [apply (step_new _ _ _ _ 3 (Some 2%positive) demo_h2 demo_h3); [done..|reflexivity]|].
  eapply rtc_l; [apply (step_post _ _ _ _ 3 7 true demo_h3 (default ∅ (snd <$> addTriggerEvent 100 3 7 demo_h3))); reflexivity|].
  eapply rtc_l; [apply (step_timer _ _ _ _ 1 50 4)|]. constructor.
Qed.

Lemma demo_behaved : behaved 100 demo_events demo_slot 20 demo_h4.
Proof.
  split; [apply demo_disciplined|]. split; [apply demo_slot_disciplined|].
  intros x Hx. apply elem_of_dom, elem_of_elements in Hx. vm_compute in Hx.
  repeat (apply elem_of_cons in Hx as [->|Hx]; [lia|]). by apply not_elem_of_nil in Hx.
Qed.

Definition demo_root (h : heap) : Object := default (mkObject None ∅ ∅ [] false []) (h !! 1%positive).

Lemma no_lost_trigger_witness :
  (exists log h', demo_turn 20 (fun _ => 50) 1 demo_h4 = Some (log, h') /\
     log = [Event 7; Timeout 4] /\ trigger_queue (demo_root h') = [9]) /\
  scheduled demo_h4 /\ exists fuel log h', demo_turn fuel (fun _ => 50) 1 demo_h4 = Some (log, h') /\ scheduled h'.
Proof.
  split; [eexists _, _; split; [vm_compute; reflexivity|split; vm_compute; reflexivity]|].
  destruct (no_lost_trigger 100 demo_events demo_slot demo_rearm demo_h4 demo_reachable) as [H1 H2].
  split; [exact H1|].
  destruct (H2 1%positive (demo_root demo_h4) (fun _ => 50) 20%positive) as (fuel & log & h' & E & Hs);
    [vm_compute; reflexivity|vm_compute; reflexivity|exact demo_behaved|].
  eexists fuel, _, h'. exact (conj E Hs).
Defined.

(** The next turn runs what the slot posted, which destroys an idle object, and event 8, which creates one. *)
Example demo_next_turn :
  exists h' h'', demo_turn 20 (fun _ => 50) 1 demo_h4 ≫= (fun r => Some r.2) = Some h' /\
    demo_turn 20 (fun _ => 60) 1 h' = Some ([Event 9; Event 8], h'') /\ elements (dom h'') = [10; 2; 1]%positive.
Proof. eexists _, _. split; [vm_compute; reflexivity|]. split; vm_compute; reflexivity. Qed.

Lemma never_sleeps_on_pending_witness :
  exists fuel t, getNextTimeOut fuel 0 1 demo_h4 = Some t /\
    0 <= exec_timeout t <= DEFAULT_TIMEOUT_MSEC /\ getNextTimeOut 5 0 1 demo_h4 = Some 0.
Proof.
  destruct (never_sleeps_on_pending 100 demo_events demo_slot demo_rearm demo_h4 1 (demo_root demo_h4) 0)
    as (fuel & t & H1 & _ & _ & H2); [exact demo_reachable|reflexivity|].
  exists fuel, t. split; [exact H1|]. split; [exact H2|]. vm_compute. reflexivity.
Defined.

Lemma idle_child_timer_unseen_witness :
  getNextTimeOut 5 1000000 1 (startTimer 3 10 6 demo_h3) = Some (-1) /\
  exists h', demo_turn 5 (fun _ => 1000000) 1 (startTimer 3 10 6 demo_h3)
    = Some ([], h') /\ h' !! 3%positive = startTimer 3 10 6 demo_h3 !! 3%positive.
Proof.
  apply (idle_child_timer_unseen 100 demo_events demo_slot demo_rearm demo_h3 1 (demo_root demo_h3) 3 10 6 1000000 4
           (fun _ => 1000000)); try reflexivity. discriminate.
Defined.

(** *** An event that breaks the rule *)

(** Two children of a root; the event of each destroys the other. *)
Definition rude_events (e : Z) (h : heap) : list action := [Destroy (if e =? 2 then 3%positive else 2%positive)].
Definition rude_heap : heap :=
  default ∅ (h ← new_Object 1 None ∅; h ← new_Object 2 (Some 1%positive) h; h ← new_Object 3 (Some 1%positive) h;
             r ← addTriggerEvent 100 2 2 h; r ← addTriggerEvent 100 3 3 r.2; Some r.2).

(** [handleChildEvent] works through raw pointers it has taken out of the object: an event that destroys a
    sibling that still waits there makes it use the destroyed object. *)
Theorem destroyed_sibling_dangles :
  size rude_heap = 3%nat /\ handleEvent 100 rude_events demo_slot demo_rearm 4 (fun _ => 0) 1 rude_heap = None.
Proof. split; vm_compute; reflexivity. Qed.
