(* ===== verification/Signals.v ===== *)
(** Signals and slots ([src/core/object.h]: [Signal], [Connection], [Object]'s
    table of connections, [src/core/object.cpp]).

    Objects, signals and connections live in heaps indexed by identity.
    Connections are kept by shared pointers and stay in their heap; objects and
    signals are freed by their destructors, and using a freed one is [Bad].  All
    calls are made on the thread of the objects, where [invoke] runs the function
    at once; [addSyncEvent] queues it when the receiver is executing.  A slot is a
    number: calling it with an argument is logged and followed by the operations
    [slot] makes it perform, which may connect, disconnect, emit and destroy. *)
From S2P Require Import Prelude.

(** ** Data *)

(** [SignalConnectionStatus] *)
Definition SignalNormal : Z := 0.
Definition SignalDisconnected : Z := 1.
Definition SignalSlotDisConnected : Z := 2.
Definition SignalAllDisconneted : Z := 3.

Record Connection := mkConn {
  status : Z;
  receiver : option positive;
  sender : positive;
  func : Z
}.

Record Signal := mkSignal {
  signalObject : positive;
  connectionList : list positive
}.

(** An event in the queue of an object: the slot bound to its argument. *)
Record SObject := mkSObject {
  execing : bool;
  connectionMap : gset positive;
  trigger_queue : list (positive * Z * Z)
}.

(** A slot is called ([LCall]) or put into the queue of its receiver ([LQueue]). *)
Inductive sig_event :=
| LCall (c : positive) (f a : Z)
| LQueue (r c : positive) (f a : Z).

Record sig_state := mkState {
  conns : gmap positive Connection;
  sigs : gmap positive Signal;
  objs : gmap positive SObject;
  next_conn : positive;
  running : list positive;               (* objects whose queue is being run *)
  log : list sig_event
}.

Definition set_conns (x : gmap positive Connection) (s : sig_state) : sig_state :=
  mkState x (sigs s) (objs s) (next_conn s) (running s) (log s).
Definition set_sigs (x : gmap positive Signal) (s : sig_state) : sig_state :=
  mkState (conns s) x (objs s) (next_conn s) (running s) (log s).
Definition set_objs (x : gmap positive SObject) (s : sig_state) : sig_state :=
  mkState (conns s) (sigs s) x (next_conn s) (running s) (log s).
Definition set_next (x : positive) (s : sig_state) : sig_state :=
  mkState (conns s) (sigs s) (objs s) x (running s) (log s).
Definition set_running (x : list positive) (s : sig_state) : sig_state :=
  mkState (conns s) (sigs s) (objs s) (next_conn s) x (log s).
Definition add_log (e : sig_event) (s : sig_state) : sig_state :=
  mkState (conns s) (sigs s) (objs s) (next_conn s) (running s) (log s ++ [e]).

Definition set_conn (c : positive) (C : Connection) (s : sig_state) : sig_state :=
  set_conns (<[c := C]> (conns s)) s.
Definition set_sig (g : positive) (G : Signal) (s : sig_state) : sig_state :=
  set_sigs (<[g := G]> (sigs s)) s.
Definition set_obj (o : positive) (Ob : SObject) (s : sig_state) : sig_state :=
  set_objs (<[o := Ob]> (objs s)) s.
Definition set_status (x : Z) (C : Connection) : Connection :=
  mkConn x (receiver C) (sender C) (func C).
Definition set_map (m : gset positive) (Ob : SObject) : SObject :=
  mkSObject (execing Ob) m (trigger_queue Ob).
Definition set_queue (q : list (positive * Z * Z)) (Ob : SObject) : SObject :=
  mkSObject (execing Ob) (connectionMap Ob) q.

(** ** Disconnecting *)

(** [Connection::disconnect], [Signal::disconnect] and [Object::disconnect] call
    each other; [cd] is the call of the connection's. *)
Section Disconnecting.
Context (cd : positive -> Z -> sig_state -> option sig_state).

(** [Signal::disconnect] *)
Definition Signal_disconnect (g c : positive) (s : sig_state) : option sig_state :=
  G ← sigs s !! g;
  _ ← objs s !! signalObject G;
  if decide (c ∈ connectionList G) then
    s ← cd c SignalDisconnected s;
    G ← sigs s !! g;
    Some (set_sig g (mkSignal (signalObject G) (filter (fun x => x <> c) (connectionList G))) s)
  else Some s.

(** [Object::disconnect] *)
Definition Object_disconnect (o c : positive) (s : sig_state) : option sig_state :=
  Ob ← objs s !! o;
  if decide (c ∈ connectionMap Ob) then
    s ← cd c SignalSlotDisConnected s;
    Ob ← objs s !! o;
    Some (set_obj o (set_map (connectionMap Ob ∖ {[c]}) Ob) s)
  else Some s.

(** [status.exchange(status.load() | flag)] *)
Definition or_status (c : positive) (flag : Z) (s : sig_state) : option sig_state :=
  C ← conns s !! c; Some (set_conn c (set_status (Z.lor (status C) flag) C) s).

(** [Connection::disconnect] *)
Definition Connection_disconnect (c : positive) (flag : Z) (s : sig_state) : option sig_state :=
  s ← or_status c flag s;
  C ← conns s !! c;
  s ← (if Z.land (status C) SignalDisconnected =? 0 then
         s ← or_status c SignalDisconnected s;
         Signal_disconnect (sender C) c s
       else Some s);
  if Z.land (status C) SignalSlotDisConnected =? 0 then
    s ← or_status c SignalSlotDisConnected s;
    match receiver C with
    | Some r => Object_disconnect r c s
    | None => Some s
    end
  else Some s.

End Disconnecting.

Fixpoint conn_disconnect (fuel : nat) : positive -> Z -> sig_state -> option sig_state :=
  match fuel with
  | O => fun _ _ _ => None
  | S fuel' => Connection_disconnect (conn_disconnect fuel')
  end.

(** Every call sets a status bit that was not set, so this depth is enough for
    every chain of calls ([disconnect_exact]). *)
Definition DISCONNECT_DEPTH : nat := 3.

(** [Connection::disconnect()] and [Signal::disconnect] as the client calls them. *)
Definition disconnect (c : positive) (s : sig_state) : option sig_state :=
  conn_disconnect DISCONNECT_DEPTH c SignalNormal s.

Definition signal_disconnect (g c : positive) (s : sig_state) : option sig_state :=
  Signal_disconnect (conn_disconnect DISCONNECT_DEPTH) g c s.

(** The loop of [Signal::disconnectAll]: only connections with a receiver are
    disconnected. *)
Fixpoint disconnect_received (l : list positive) (s : sig_state) : option sig_state :=
  match l with
  | [] => Some s
  | c :: l' =>
      C ← conns s !! c;
      s ← match receiver C with
          | Some _ => conn_disconnect DISCONNECT_DEPTH c SignalDisconnected s
          | None => Some s
          end;
      disconnect_received l' s
  end.

Definition signal_disconnectAll (g : positive) (s : sig_state) : option sig_state :=
  G ← sigs s !! g;
  _ ← objs s !! signalObject G;
  s ← disconnect_received (connectionList G) s;
  G ← sigs s !! g;
  Some (set_sig g (mkSignal (signalObject G) []) s).

(** [Object::disconnectAll] *)
Fixpoint disconnect_slots (l : list positive) (s : sig_state) : option sig_state :=
  match l with
  | [] => Some s
  | c :: l' => s ← conn_disconnect DISCONNECT_DEPTH c SignalSlotDisConnected s; disconnect_slots l' s
  end.

Definition object_disconnectAll (o : positive) (s : sig_state) : option sig_state :=
  Ob ← objs s !! o;
  s ← disconnect_slots (elements (connectionMap Ob)) s;
  Ob ← objs s !! o;
  Some (set_obj o (set_map ∅ Ob) s).

(** ** Connecting *)

(** [Signal::connect] and, without a receiver, [Signal::connectFunc]. *)
Definition connect (g : positive) (r : option positive) (f : Z) (s : sig_state)
  : option (positive * sig_state) :=
  G ← sigs s !! g;
  _ ← objs s !! signalObject G;
  let c := next_conn s in
  let s := set_sig g (mkSignal (signalObject G) (connectionList G ++ [c]))
             (set_conn c (mkConn SignalNormal r g f) (set_next (Pos.succ c) s)) in
  match r with
  | Some o =>
      Ob ← objs s !! o;
      Some (c, set_obj o (set_map ({[c]} ∪ connectionMap Ob) Ob) s)
  | None => Some (c, s)
  end.

(** The destructors. *)
Definition destroy_Signal (g : positive) (s : sig_state) : option sig_state :=
  s ← signal_disconnectAll g s; Some (set_sigs (delete g (sigs s)) s).
Definition destroy_Object (o : positive) (s : sig_state) : option sig_state :=
  s ← object_disconnectAll o s; Some (set_objs (delete o (objs s)) s).

(** ** Emitting *)

Inductive sig_op :=
| OpConnect (g : positive) (r : option positive) (f : Z)
| OpDisconnect (c : positive)
| OpSigDisconnect (g c : positive)
| OpSigDisconnectAll (g : positive)
| OpEmit (g : positive) (a : Z)          (* [Signal::emit] *)
| OpCall (g : positive) (a : Z)          (* [Signal::operator()] *)
| OpRunEvents (o : positive)             (* [Object::handleTriggerQueue] *)
| OpNewSignal (g o : positive)
| OpDestroySignal (g : positive)
| OpDestroyObject (o : positive).

(** [Refused]: the client rule given by [guard] was broken. *)
Inductive result := Done (s : sig_state) | Bad | Refused | OutOfFuel.

Definition lift (r : option sig_state) : result := match r with Some s => Done s | None => Bad end.
Definition bindr (r : result) (f : sig_state -> result) : result :=
  match r with Done s => f s | x => x end.

Section Emit.
Context (capacity : nat)                               (* of TriggerEventQueueForObject *)
        (slot : Z -> Z -> list sig_op)                 (* what a slot does *)
        (guard : sig_state -> sig_op -> bool).         (* what clients may do *)

(** [bound()] *)
Definition call_slot (run : list sig_op -> sig_state -> result) (c : positive) (f a : Z) (s : sig_state)
  : result :=
  run (slot f a) (add_log (LCall c f a) s).

(** The body of the loop: queue the bound slot at its receiver, or call it. *)
Definition deliver (run : list sig_op -> sig_state -> result) (c : positive) (C : Connection) (a : Z)
    (s : sig_state) : result :=
  match receiver C with
  | Some r =>
      match objs s !! r with
      | None => Bad
      | Some R =>
          if execing R && (length (trigger_queue R) <? capacity)%nat
          then Done (add_log (LQueue r c (func C) a)
                       (set_obj r (set_queue (trigger_queue R ++ [(c, func C, a)]) R) s))
          else call_slot run c (func C) a s
      end
  | None => call_slot run c (func C) a s
  end.

(** The loop over the copied list; [operator()] skips connections that are not
    in their normal state, [emit] does not look. *)
Fixpoint emit_loop (run : list sig_op -> sig_state -> result) (check : bool) (l : list positive) (a : Z)
    (s : sig_state) : result :=
  match l with
  | [] => Done s
  | c :: l' =>
      match conns s !! c with
      | None => Bad
      | Some C =>
          if check && negb (status C =? SignalNormal) then emit_loop run check l' a s
          else bindr (deliver run c C a s) (emit_loop run check l' a)
      end
  end.

Definition emit_signal (run : list sig_op -> sig_state -> result) (check : bool) (g : positive) (a : Z)
    (s : sig_state) : result :=
  match sigs s !! g with
  | None => Bad
  | Some G =>
      match objs s !! signalObject G with
      | None => Bad
      | Some _ => emit_loop run check (connectionList G) a s
      end
  end.

(** [TriggerEventQueueForObject::handleEvent] on the swapped-out queue. *)
Fixpoint run_bound (run : list sig_op -> sig_state -> result) (l : list (positive * Z * Z)) (s : sig_state)
  : result :=
  match l with
  | [] => Done s
  | (c, f, a) :: l' => bindr (call_slot run c f a s) (run_bound run l')
  end.

Definition handleTriggerQueue (run : list sig_op -> sig_state -> result) (o : positive) (s : sig_state)
  : result :=
  match objs s !! o with
  | None => Bad
  | Some Ob =>
      bindr (run_bound run (trigger_queue Ob) (set_running (o :: running s) (set_obj o (set_queue [] Ob) s)))
            (fun s => match objs s !! o with               (* handleEvent goes on with the object *)
                      | None => Bad
                      | Some _ => Done (set_running (tail (running s)) s)
                      end)
  end.

Definition exec_op (run : list sig_op -> sig_state -> result) (k : sig_op) (s : sig_state) : result :=
  match k with
  | OpConnect g r f => lift (x ← connect g r f s; Some x.2)
  | OpDisconnect c => lift (disconnect c s)
  | OpSigDisconnect g c => lift (signal_disconnect g c s)
  | OpSigDisconnectAll g => lift (signal_disconnectAll g s)
  | OpEmit g a => emit_signal run false g a s
  | OpCall g a => emit_signal run true g a s
  | OpRunEvents o => handleTriggerQueue run o s
  | OpNewSignal g o => Done (set_sig g (mkSignal o []) s)
  | OpDestroySignal g => lift (destroy_Signal g s)
  | OpDestroyObject o => lift (destroy_Object o s)
  end.

(** [fuel] bounds the number of operations and the depth of slots in slots. *)
Fixpoint exec (fuel : nat) (l : list sig_op) (s : sig_state) : result :=
  match fuel with
  | O => OutOfFuel
  | S fuel' =>
      match l with
      | [] => Done s
      | k :: l' => if negb (guard s k) then Refused
                   else bindr (exec_op (exec fuel') k s) (exec fuel' l')
      end
  end.

End Emit.

(** The rule for clients: pointers refer to what is alive, [operator()] is used
    and not [emit], an object is destroyed when its signals are gone and its own
    queue is not being run, and a connection whose signal is gone is not
    disconnected while it is in its normal state (it can only be one without
    receiver). *)
Definition alive {A} (m : gmap positive A) (k : positive) : bool := bool_decide (is_Some (m !! k)).
Definition client_ok (s : sig_state) (k : sig_op) : bool :=
  match k with
  | OpConnect g r _ => alive (sigs s) g && match r with Some o => alive (objs s) o | None => true end
  | OpDisconnect c =>
      match conns s !! c with
      | Some C => negb (status C =? SignalNormal) || alive (sigs s) (sender C)
      | None => false
      end
  | OpSigDisconnect g _ | OpSigDisconnectAll g | OpDestroySignal g => alive (sigs s) g
  | OpEmit _ _ => false
  | OpCall g _ => alive (sigs s) g
  | OpRunEvents o => alive (objs s) o
  | OpNewSignal g o => negb (alive (sigs s) g) && alive (objs s) o
  | OpDestroyObject o =>
      alive (objs s) o && bool_decide (o ∉ running s) &&
      bool_decide (map_Forall (fun _ G => signalObject G <> o) (sigs s))
  end.

(** ** The invariant *)

(** [cg] and [co]: the signal, the object whose connections are being dropped;
    their tables may still list connections that are disconnected. *)
Record wfx (cg co : option positive) (s : sig_state) : Prop := mkWf {
  wf_owner : forall g G, sigs s !! g = Some G -> is_Some (objs s !! signalObject G);
  wf_nodup : forall g G, sigs s !! g = Some G -> NoDup (connectionList G);
  wf_list : forall g G c, sigs s !! g = Some G -> c ∈ connectionList G ->
      exists C, conns s !! c = Some C /\ sender C = g /\ (status C = 0 \/ status C = 3 /\ cg = Some g);
  wf_map : forall o Ob c, objs s !! o = Some Ob -> c ∈ connectionMap Ob ->
      exists C, conns s !! c = Some C /\ receiver C = Some o /\ (status C = 0 \/ status C = 3 /\ co = Some o);
  wf_status : forall c C, conns s !! c = Some C -> status C = 0 \/ status C = 3;
  wf_live : forall c C r, conns s !! c = Some C -> status C = 0 -> receiver C = Some r ->
      (exists Ob, objs s !! r = Some Ob /\ c ∈ connectionMap Ob) /\
      (exists G, sigs s !! sender C = Some G /\ c ∈ connectionList G);
  wf_fresh : forall c C, conns s !! c = Some C -> (c < next_conn s)%positive
}.

Abbreviation wf := (wfx None None).

(** Forgetting a connection on either side. *)
Definition without (c : positive) (G : Signal) : Signal :=
  mkSignal (signalObject G) (filter (fun x => x <> c) (connectionList G)).
Definition without_slot (c : positive) (Ob : SObject) : SObject :=
  set_map (connectionMap Ob ∖ {[c]}) Ob.
Definition drop_sig (g c : positive) (s : sig_state) : sig_state :=
  set_sigs (alter (without c) g (sigs s)) s.
Definition drop_slot (r : option positive) (c : positive) (s : sig_state) : sig_state :=
  match r with Some o => set_objs (alter (without_slot c) o (objs s)) s | None => s end.
Definition finish (c : positive) (s : sig_state) : sig_state :=
  set_conns (alter (set_status 3) c (conns s)) s.

#[global] Arguments conn_disconnect : simpl never.

(** ** What the three disconnecting functions do *)

Lemma alter_insert_val {A} (f : A -> A) (m : gmap positive A) i x :
  m !! i = Some x -> alter f i m = <[i := f x]> m.
Proof.
  intros E. apply map_eq. intros j. destruct (decide (i = j)) as [<-|n].
  - by rewrite lookup_alter_eq, lookup_insert_eq, E.
  - by rewrite lookup_alter_ne, lookup_insert_ne.
Qed.

Lemma set_status_twice x y C : set_status x (set_status y C) = set_status x C.
Proof. done. Qed.

Lemma set_status_id C : set_status (status C) C = C.
Proof. by destruct C. Qed.

Lemma or_status_eq c C flag s :
  conns s !! c = Some C -> or_status c flag s = Some (set_conn c (set_status (Z.lor (status C) flag) C) s).
Proof. intros E. unfold or_status. by rewrite E. Qed.

Lemma or_status_finish c C flag s :
  conns s !! c = Some C -> Z.lor (status C) flag = 3 -> or_status c flag s = Some (finish c s).
Proof.
  intros E El. unfold or_status, finish, set_conn, set_conns. rewrite E; cbn. rewrite El.
  by rewrite (alter_insert_val _ _ _ _ E).
Qed.

Lemma or_status_id c C flag s :
  conns s !! c = Some C -> Z.lor (status C) flag = status C -> or_status c flag s = Some s.
Proof.
  intros E El. unfold or_status, set_conn, set_conns. rewrite E; cbn. rewrite El, set_status_id.
  rewrite insert_id by done. by destruct s.
Qed.

Lemma finish_lookup c C s : conns s !! c = Some C -> conns (finish c s) !! c = Some (set_status 3 C).
Proof. intros E. cbn. by rewrite lookup_alter_eq, E. Qed.

Lemma finish_set c C x s :
  conns s !! c = Some C -> finish c (set_conn c (set_status x C) s) = finish c s.
Proof.
  intros E. unfold finish, set_conn, set_conns; cbn. f_equal.
  erewrite alter_insert_val by apply lookup_insert_eq.
  by rewrite insert_insert_eq, (alter_insert_val _ _ _ _ E).
Qed.

Lemma finish_done c C s : conns s !! c = Some C -> status C = 3 -> finish c s = s.
Proof.
  intros E E3. unfold finish, set_conns. rewrite (alter_insert_val _ _ _ _ E), <- E3, set_status_id.
  rewrite insert_id by done. by destruct s.
Qed.

Lemma conn_disconnect_S n : conn_disconnect (S n) = Connection_disconnect (conn_disconnect n).
Proof. done. Qed.

Lemma cd_done n c flag C s :
  conns s !! c = Some C -> status C = 3 -> flag = 0 \/ flag = 1 \/ flag = 2 ->
  conn_disconnect (S n) c flag s = Some s.
Proof.
  intros E E3 Hf. rewrite conn_disconnect_S. unfold Connection_disconnect.
  rewrite (or_status_id c C flag s E) by (rewrite E3; by destruct Hf as [->|[->| ->]]).
  cbn [mbind option_bind]. rewrite E; cbn [mbind option_bind]. by rewrite E3.
Qed.

(** The receiver is told, when the connection is finished already. *)
Lemma Object_disconnect_done n o c C s :
  conns s !! c = Some C -> status C = 3 -> is_Some (objs s !! o) ->
  Object_disconnect (conn_disconnect (S n)) o c s = Some (drop_slot (Some o) c s).
Proof.
  intros E E3 [Ob EO]. unfold Object_disconnect. rewrite EO. cbn [mbind option_bind].
  unfold drop_slot. rewrite (alter_insert_val _ _ _ _ EO).
  destruct (decide _) as [Hin|Hin].
  - rewrite (cd_done n c _ C) by (try done; cbv; auto). cbn [mbind option_bind].
    by rewrite EO.
  - rewrite insert_id; [by destruct s|]. rewrite EO. f_equal. unfold without_slot, set_map.
    destruct Ob as [e m q]; cbn in *. f_equal. apply leibniz_equiv. set_solver.
Qed.

Lemma filter_without_notin (c : positive) (l : list positive) : c ∉ l -> filter (fun x => x <> c) l = l.
Proof. intros Hn. apply filter_Forall, Forall_forall. intros x Hx ->. done. Qed.

Lemma Signal_disconnect_done n g c C s :
  conns s !! c = Some C -> status C = 3 -> (forall G, sigs s !! g = Some G -> is_Some (objs s !! signalObject G)) ->
  is_Some (sigs s !! g) ->
  Signal_disconnect (conn_disconnect (S n)) g c s = Some (drop_sig g c s).
Proof.
  intros E E3 Ho [G EG]. destruct (Ho G EG) as [Ow EO]. unfold Signal_disconnect.
  rewrite EG; cbn [mbind option_bind]. rewrite EO; cbn [mbind option_bind].
  unfold drop_sig. rewrite (alter_insert_val _ _ _ _ EG).
  destruct (decide _) as [Hin|Hin].
  - rewrite (cd_done n c _ C) by (try done; cbv; auto). cbn [mbind option_bind].
    by rewrite EG.
  - rewrite insert_id; [by destruct s|]. rewrite EG. f_equal. unfold without.
    rewrite filter_without_notin by done. by destruct G.
Qed.

Lemma drop_slot_idem r c s : drop_slot r c (drop_slot r c s) = drop_slot r c s.
Proof.
  destruct r as [o|]; [|done]. unfold drop_slot, set_objs; cbn. f_equal. apply map_eq. intros i.
  destruct (decide (o = i)) as [<-|n]; [|by rewrite !lookup_alter_ne].
  rewrite !lookup_alter_eq. destruct (objs s !! o) as [Ob|]; [|done]. cbn. f_equal.
  unfold without_slot, set_map; cbn. f_equal. apply leibniz_equiv. set_solver.
Qed.

Lemma drop_sig_notin g c s :
  (forall G, sigs s !! g = Some G -> c ∉ connectionList G) -> drop_sig g c s = s.
Proof.
  intros Hn. unfold drop_sig, set_sigs. replace (alter _ _ _) with (sigs s); [by destruct s|].
  apply map_eq. intros i. destruct (decide (g = i)) as [<-|n]; [|by rewrite lookup_alter_ne].
  rewrite lookup_alter_eq. destruct (sigs s !! g) as [G|] eqn:E; [|done]. cbn. f_equal.
  unfold without. rewrite filter_without_notin by auto. by destruct G.
Qed.

Lemma drop_sig_slot g r c s : drop_sig g c (drop_slot r c s) = drop_slot r c (drop_sig g c s).
Proof. by destruct r. Qed.

Lemma conns_drop_slot r c s : conns (drop_slot r c s) = conns s.
Proof. by destruct r. Qed.

Lemma objs_drop_slot r c s o : is_Some (objs s !! o) -> is_Some (objs (drop_slot r c s) !! o).
Proof. destruct r as [o'|]; [|done]. cbn. by rewrite lookup_alter_is_Some. Qed.

Lemma sigs_drop_slot r c s : sigs (drop_slot r c s) = sigs s.
Proof. by destruct r. Qed.

(** Called by the signal: only the receiver has to be told. *)
Lemma cd_by_signal n c C s :
  conns s !! c = Some C -> status C = 0 \/ status C = 1 ->
  (forall r, receiver C = Some r -> is_Some (objs s !! r)) ->
  conn_disconnect (S (S n)) c SignalDisconnected s = Some (drop_slot (receiver C) c (finish c s)).
Proof.
  intros E E0 Hr. rewrite conn_disconnect_S. unfold Connection_disconnect.
  rewrite (or_status_eq c C) by done; cbn [mbind option_bind].
  replace (Z.lor (status C) SignalDisconnected) with SignalDisconnected by (by destruct E0 as [-> | ->]).
  cbn [conns set_conn set_conns]. rewrite lookup_insert_eq. cbn [mbind option_bind status set_status].
  change (Z.land SignalDisconnected SignalDisconnected =? 0) with false.
  change (Z.land SignalDisconnected SignalSlotDisConnected =? 0) with true.
  cbn [mbind option_bind].
  rewrite (or_status_finish c (set_status 1 C)); [|by cbn; rewrite lookup_insert_eq|done].
  cbn [mbind option_bind receiver set_status]. rewrite (finish_set c C) by done.
  destruct (receiver C) as [r|] eqn:Er; [|done].
  apply (Object_disconnect_done _ _ _ (set_status 3 C)); [by apply finish_lookup|done|by apply Hr].
Qed.

(** Called by the receiver: only the signal has to be told. *)
Lemma cd_by_slot n c C s :
  conns s !! c = Some C -> status C = 0 ->
  (forall g G, sigs s !! g = Some G -> is_Some (objs s !! signalObject G)) ->
  is_Some (sigs s !! sender C) ->
  conn_disconnect (S (S n)) c SignalSlotDisConnected s = Some (drop_sig (sender C) c (finish c s)).
Proof.
  intros E E0 Ho Hg. rewrite conn_disconnect_S. unfold Connection_disconnect.
  rewrite (or_status_eq c C) by done; cbn [mbind option_bind]. rewrite E0.
  cbn [conns set_conn set_conns]. rewrite lookup_insert_eq. cbn [mbind option_bind status set_status].
  change (Z.land (Z.lor 0 SignalSlotDisConnected) SignalDisconnected =? 0) with true.
  change (Z.land (Z.lor 0 SignalSlotDisConnected) SignalSlotDisConnected =? 0) with false.
  cbn [mbind option_bind].
  rewrite (or_status_finish c (set_status 2 C)); [|by cbn; rewrite lookup_insert_eq|done].
  cbn [mbind option_bind sender set_status]. rewrite (finish_set c C) by done.
  rewrite (Signal_disconnect_done n _ _ (set_status 3 C)); [done|by apply finish_lookup|done|by apply Ho|done].
Qed.

(** [Signal::disconnect] of a connection in its list. *)
Lemma Signal_disconnect_eq n g c C G s :
  conns s !! c = Some C -> status C = 0 \/ status C = 1 ->
  sigs s !! g = Some G -> is_Some (objs s !! signalObject G) ->
  (forall r, receiver C = Some r -> is_Some (objs s !! r)) ->
  c ∈ connectionList G ->
  Signal_disconnect (conn_disconnect (S (S n))) g c s =
  Some (drop_slot (receiver C) c (drop_sig g c (finish c s))).
Proof.
  intros E E0 EG [Ow EO] Hr Hin. unfold Signal_disconnect. rewrite EG; cbn [mbind option_bind].
  rewrite EO; cbn [mbind option_bind]. rewrite decide_True by done.
  rewrite (cd_by_signal _ _ C) by done. cbn [mbind option_bind]. rewrite sigs_drop_slot.
  cbn [sigs finish set_conns]. rewrite EG. cbn [mbind option_bind].
  rewrite <- drop_sig_slot. unfold drop_sig at 1, set_sig. rewrite !sigs_drop_slot.
  change (sigs (finish c s)) with (sigs s). by rewrite (alter_insert_val _ _ _ _ EG).
Qed.

(** Called by the client: both have to be told, the signal first. *)
Lemma disconnect_eq c C G s :
  conns s !! c = Some C -> status C = 0 ->
  sigs s !! sender C = Some G -> is_Some (objs s !! signalObject G) ->
  (forall r, receiver C = Some r -> is_Some (objs s !! r) /\ c ∈ connectionList G) ->
  disconnect c s = Some (drop_slot (receiver C) c (drop_sig (sender C) c (finish c s))).
Proof.
  intros E E0 EG HO Hr. unfold disconnect, DISCONNECT_DEPTH. rewrite conn_disconnect_S.
  unfold Connection_disconnect.
  rewrite (or_status_eq c C) by done; cbn [mbind option_bind]. rewrite E0.
  cbn [conns set_conn set_conns]. rewrite lookup_insert_eq. cbn [mbind option_bind status set_status].
  change (Z.land (Z.lor 0 SignalNormal) SignalDisconnected =? 0) with true.
  change (Z.land (Z.lor 0 SignalNormal) SignalSlotDisConnected =? 0) with true.
  rewrite (or_status_eq c (set_status 0 C)) by (cbn; by rewrite lookup_insert_eq).
  cbn [mbind option_bind status set_status sender receiver].
  set (s1 := set_conn c _ _).
  assert (E1 : conns s1 !! c = Some (set_status 1 C)) by (cbn; by rewrite lookup_insert_eq).
  assert (F1 : finish c s1 = finish c s).
  { unfold s1. rewrite (finish_set c (set_status 0 C)) by (cbn; by rewrite lookup_insert_eq).
    by apply (finish_set c C). }
  destruct (decide (c ∈ connectionList G)) as [Hin|Hin].
  - rewrite (Signal_disconnect_eq _ _ _ (set_status 1 C) G); [|done|by right|done|done| |done];
      [|by intros r Er; apply Hr].
    rewrite F1. cbn [mbind option_bind receiver set_status].
    assert (Ef : conns (drop_slot (receiver C) c (drop_sig (sender C) c (finish c s))) !! c
                 = Some (set_status 3 C)).
    { rewrite conns_drop_slot. by apply finish_lookup. }
    rewrite (or_status_id c (set_status 3 C)) by done. cbn [mbind option_bind].
    destruct (receiver C) as [r|] eqn:Er; [|done].
    rewrite (Object_disconnect_done _ _ _ (set_status 3 C)); [|done|done|].
    + by rewrite drop_slot_idem.
    + apply objs_drop_slot. by apply Hr.
  - unfold Signal_disconnect. cbn [sigs objs s1 set_conn set_conns]. rewrite EG. cbn [mbind option_bind].
    destruct HO as [Ow EO]. rewrite EO. cbn [mbind option_bind]. rewrite decide_False by done.
    cbn [mbind option_bind].
    rewrite (or_status_finish c (set_status 1 C)); [|done|done].
    cbn [mbind option_bind]. rewrite F1.
    destruct (receiver C) as [r|] eqn:Er; [by destruct (Hr r eq_refl)|].
    rewrite drop_sig_notin; [done|]. cbn. intros G' EG'. by simplify_eq.
Qed.

(** ** Preservation of the invariant *)

(** [dropping ds dr c C s]: [c] is finished, and forgotten by its signal if
    [ds], by its receiver if [dr]. *)
Definition dropping (ds dr : bool) (c : positive) (C : Connection) (s : sig_state) : sig_state :=
  let s := finish c s in
  let s := if ds then drop_sig (sender C) c s else s in
  if dr then drop_slot (receiver C) c s else s.

Section Dropping.
Context (ds dr : bool) (c : positive) (C : Connection) (s : sig_state).

Lemma dropping_conns : conns (dropping ds dr c C s) = alter (set_status 3) c (conns s).
Proof. by destruct ds, dr, C as [? [r|] ? ?]. Qed.

Lemma dropping_next : next_conn (dropping ds dr c C s) = next_conn s.
Proof. by destruct ds, dr, C as [? [r|] ? ?]. Qed.

Lemma dropping_running : running (dropping ds dr c C s) = running s.
Proof. by destruct ds, dr, C as [? [r|] ? ?]. Qed.

Lemma dropping_sigs g :
  sigs (dropping ds dr c C s) !! g =
  (fun G => if bool_decide (ds = true /\ g = sender C) then without c G else G) <$> sigs s !! g.
Proof.
  assert (E : sigs (dropping ds dr c C s) = if ds then alter (without c) (sender C) (sigs s) else sigs s)
    by by destruct ds, dr, C as [? [r|] ? ?].
  rewrite E. destruct ds.
  - destruct (decide (sender C = g)) as [<-|n].
    + rewrite lookup_alter_eq. by rewrite bool_decide_eq_true_2.
    + rewrite lookup_alter_ne by done. rewrite bool_decide_eq_false_2 by (intros [_ ?]; by subst).
      by destruct (sigs s !! g).
  - rewrite bool_decide_eq_false_2 by (by intros [? _]). by destruct (sigs s !! g).
Qed.

Lemma dropping_objs o :
  objs (dropping ds dr c C s) !! o =
  (fun Ob => if bool_decide (dr = true /\ Some o = receiver C) then without_slot c Ob else Ob) <$> objs s !! o.
Proof.
  assert (E : objs (dropping ds dr c C s) =
              match receiver C with
              | Some r => if dr then alter (without_slot c) r (objs s) else objs s
              | None => objs s end)
    by by destruct ds, dr, C as [? [r|] ? ?].
  rewrite E. destruct (receiver C) as [r|]; [destruct dr|].
  - destruct (decide (r = o)) as [<-|n].
    + rewrite lookup_alter_eq. by rewrite bool_decide_eq_true_2.
    + rewrite lookup_alter_ne by done. rewrite bool_decide_eq_false_2 by (intros [_ ?]; congruence).
      by destruct (objs s !! o).
  - rewrite bool_decide_eq_false_2 by (by intros [? _]). by destruct (objs s !! o).
  - rewrite bool_decide_eq_false_2 by (by intros [? ?]). by destruct (objs s !! o).
Qed.

Lemma dropping_owner g G :
  sigs (dropping ds dr c C s) !! g = Some G ->
  exists G0, sigs s !! g = Some G0 /\ signalObject G = signalObject G0 /\
    (forall x, x ∈ connectionList G <-> x ∈ connectionList G0 /\ ~ (x = c /\ ds = true /\ g = sender C)) /\
    (NoDup (connectionList G0) -> NoDup (connectionList G)).
Proof.
  rewrite dropping_sigs. intros (G0 & -> & E0)%fmap_Some. exists G0. split; [done|].
  case_bool_decide as Hb; subst.
  - cbn. split_and!; [done| |intros; by apply NoDup_filter].
    intros x. rewrite list_elem_of_filter. destruct Hb; naive_solver.
  - split_and!; try done. intros x. naive_solver.
Qed.

Lemma dropping_object o Ob :
  objs (dropping ds dr c C s) !! o = Some Ob ->
  exists O0, objs s !! o = Some O0 /\
    (forall x, x ∈ connectionMap Ob <-> x ∈ connectionMap O0 /\ ~ (x = c /\ dr = true /\ Some o = receiver C)).
Proof.
  rewrite dropping_objs. intros (O0 & -> & E0)%fmap_Some. exists O0. split; [done|].
  case_bool_decide as Hb; subst; intros x; [cbn|]; set_solver.
Qed.

Lemma dropping_conn c' C' :
  conns (dropping ds dr c C s) !! c' = Some C' ->
  exists C0, conns s !! c' = Some C0 /\ sender C' = sender C0 /\ receiver C' = receiver C0 /\
    ((c' = c /\ status C' = 3) \/ (c' <> c /\ status C' = status C0)).
Proof.
  rewrite dropping_conns. destruct (decide (c = c')) as [<-|n].
  - rewrite lookup_alter_eq. intros (C0 & -> & ->)%fmap_Some. exists C0. cbn. auto 10.
  - rewrite lookup_alter_ne by done. intros E. exists C'. split_and!; auto.
Qed.

Lemma dropping_alive o : is_Some (objs (dropping ds dr c C s) !! o) <-> is_Some (objs s !! o).
Proof. rewrite dropping_objs. apply fmap_is_Some. Qed.

Lemma dropping_wf cg co :
  wfx cg co s -> conns s !! c = Some C ->
  (ds = false -> cg = Some (sender C)) ->
  (forall r, dr = false -> receiver C = Some r -> co = Some r) ->
  wfx cg co (dropping ds dr c C s).
Proof.
  intros W E Hs Hr. constructor.
  - intros g G (G0 & EG & -> & _)%dropping_owner. apply dropping_alive. by eapply wf_owner.
  - intros g G (G0 & EG & _ & _ & Hn)%dropping_owner. apply Hn. by eapply wf_nodup.
  - intros g G x (G0 & EG & _ & Hl & _)%dropping_owner [Hx Hne]%Hl.
    destruct (wf_list _ _ _ W _ _ _ EG Hx) as (X & EX & <- & HX).
    rewrite dropping_conns. destruct (decide (c = x)) as [<-|n].
    + rewrite lookup_alter_eq, EX. eexists. split_and!; [done|done|]. right. split; [done|].
      assert (X = C) as -> by congruence. apply Hs. destruct ds; naive_solver.
    + rewrite lookup_alter_ne by done. eauto.
  - intros o Ob x (O0 & EO & Hl)%dropping_object [Hx Hne]%Hl.
    destruct (wf_map _ _ _ W _ _ _ EO Hx) as (X & EX & HrX & HX).
    rewrite dropping_conns. destruct (decide (c = x)) as [<-|n].
    + rewrite lookup_alter_eq, EX. eexists. split_and!; [done|done|]. right. split; [done|].
      assert (X = C) as -> by congruence. apply Hr; [|done]. destruct dr; naive_solver.
    + rewrite lookup_alter_ne by done. eauto.
  - intros x X (X0 & EX & _ & _ & [[_ ->]|[_ ->]])%dropping_conn; [by right|by eapply wf_status].
  - intros x X r (X0 & EX & -> & -> & [[_ ->]|[n ->]])%dropping_conn E0 Er; [done|].
    destruct (wf_live _ _ _ W _ _ _ EX E0 Er) as [(Ob & EO & Hm) (G & EG & Hl)].
    rewrite dropping_objs, dropping_sigs, EO, EG. cbn. split; eexists; (split; [done|]).
    + case_bool_decide; [cbn; set_solver|done].
    + case_bool_decide; [|done]. cbn. by apply list_elem_of_filter.
  - intros x X (X0 & EX & _)%dropping_conn. rewrite dropping_next. by eapply wf_fresh.
Qed.
End Dropping.

(** What disconnecting leaves as it was. *)
Record kept (s s' : sig_state) : Prop := mkKept {
  kept_running : running s' = running s;
  kept_log : log s' = log s;
  kept_conns : forall c C, conns s !! c = Some C -> exists C', conns s' !! c = Some C' /\
      receiver C' = receiver C /\ sender C' = sender C /\ (status C = 3 -> status C' = 3);
  kept_objs : forall o, is_Some (objs s' !! o) <-> is_Some (objs s !! o);
  kept_sigs : forall g, is_Some (sigs s' !! g) <-> is_Some (sigs s !! g);
  kept_owner : forall g G', sigs s' !! g = Some G' ->
      exists G, sigs s !! g = Some G /\ signalObject G' = signalObject G
}.

#[global] Instance kept_preorder : PreOrder kept.
Proof.
  split.
  - intros s. constructor; eauto 10; done.
  - intros s1 s2 s3 [r1 l1 c1 o1 g1 w1] [r2 l2 c2 o2 g2 w2]. constructor.
    + congruence.
    + congruence.
    + intros c C (C1 & E1 & ? & ? & ?)%c1. destruct (c2 _ _ E1) as (C2 & E2 & ? & ? & ?).
      exists C2. split_and!; [done|congruence..|auto].
    + intros o. by rewrite o2.
    + intros g. by rewrite g2.
    + intros g G (G2 & E2 & ->)%w2. apply w1 in E2 as (G1 & E1 & ->). eauto.
Qed.

Lemma dropping_log ds dr c C s : log (dropping ds dr c C s) = log s.
Proof. by destruct ds, dr, C as [? [r|] ? ?]. Qed.

Lemma dropping_kept ds dr c C s : kept s (dropping ds dr c C s).
Proof.
  constructor.
  - apply dropping_running.
  - apply dropping_log.
  - intros x X EX. rewrite dropping_conns. destruct (decide (c = x)) as [<-|n].
    + rewrite lookup_alter_eq, EX. cbn. eauto.
    + rewrite lookup_alter_ne by done. eauto.
  - apply dropping_alive.
  - intros g. rewrite dropping_sigs. apply fmap_is_Some.
  - intros g G (G0 & E & Ho & _)%dropping_owner. eauto.
Qed.

Lemma wfx_weaken cg co s : wf s -> wfx cg co s.
Proof.
  intros []. constructor; eauto.
  - intros g G c EG Hc. destruct (wf_list0 _ _ _ EG Hc) as (C & ? & ? & [?|[_ ?]]); [eauto 10|done].
  - intros o Ob c EO Hc. destruct (wf_map0 _ _ _ EO Hc) as (C & ? & ? & [?|[_ ?]]); [eauto 10|done].
Qed.

Lemma wf_receiver_alive cg co s c C r :
  wfx cg co s -> conns s !! c = Some C -> status C = 0 -> receiver C = Some r -> is_Some (objs s !! r).
Proof. intros W E E0 Er. destruct (wf_live _ _ _ W _ _ _ E E0 Er) as [(? & ? & _) _]. eauto. Qed.

Lemma disconnect_wf c C s :
  wf s -> conns s !! c = Some C -> status C <> 0 \/ is_Some (sigs s !! sender C) ->
  exists s', disconnect c s = Some s' /\ wf s' /\ kept s s'.
Proof.
  intros W E Hd. destruct (wf_status _ _ _ W _ _ E) as [E0|E3].
  - destruct Hd as [?|[G EG]]; [done|]. exists (dropping true true c C s). split_and!.
    + apply (disconnect_eq c C G); [done|done|done|by eapply wf_owner|].
      intros r Er. destruct (wf_live _ _ _ W _ _ _ E E0 Er) as [(? & ? & _) (G' & EG' & ?)].
      simplify_eq. eauto.
    + by apply dropping_wf.
    + apply dropping_kept.
  - exists s. split_and!; [|done..]. apply (cd_done _ _ _ C); auto.
Qed.

Lemma signal_disconnect_wf g G c s :
  wf s -> sigs s !! g = Some G ->
  exists s', signal_disconnect g c s = Some s' /\ wf s' /\ kept s s'.
Proof.
  intros W EG. destruct (decide (c ∈ connectionList G)) as [Hc|Hc].
  - destruct (wf_list _ _ _ W _ _ _ EG Hc) as (C & E & <- & [E0|[_ ?]]); [|done].
    exists (dropping true true c C s). split_and!; [|by apply dropping_wf|apply dropping_kept].
    apply (Signal_disconnect_eq _ _ _ C G); [done|by left|done|by eapply wf_owner| |done].
    intros r Er. by eapply wf_receiver_alive.
  - exists s. split_and!; [|done..]. unfold signal_disconnect, Signal_disconnect. rewrite EG.
    destruct (wf_owner _ _ _ W _ _ EG) as [Ob EO]. cbn [mbind option_bind]. rewrite EO.
    cbn [mbind option_bind]. by rewrite decide_False.
Qed.

(** The loops of the two [disconnectAll]. *)
Lemma disconnect_received_wf g l s :
  wfx (Some g) None s -> (forall c, c ∈ l -> exists C, conns s !! c = Some C /\ sender C = g) ->
  exists s', disconnect_received l s = Some s' /\ wfx (Some g) None s' /\ kept s s' /\ sigs s' = sigs s /\
    forall c C, c ∈ l -> conns s' !! c = Some C -> receiver C = None \/ status C = 3.
Proof.
  revert s. induction l as [|c l IH]; intros s W Hl; cbn.
  { exists s. split_and!; try done. intros c C Hc%not_elem_of_nil. done. }
  destruct (Hl c) as (C & E & Es); [by left|]. rewrite E. cbn [mbind option_bind].
  assert (Hstep : exists s1,
            match receiver C with
            | Some _ => conn_disconnect DISCONNECT_DEPTH c SignalDisconnected s
            | None => Some s end = Some s1 /\ wfx (Some g) None s1 /\ kept s s1 /\ sigs s1 = sigs s /\
            (forall C, conns s1 !! c = Some C -> receiver C = None \/ status C = 3)).
  { destruct (receiver C) as [r|] eqn:Er.
    - destruct (wf_status _ _ _ W _ _ E) as [E0|E3].
      + exists (dropping false true c C s). split_and!.
        * apply cd_by_signal; [done|by left|]. intros r' Er'. by eapply wf_receiver_alive.
        * apply dropping_wf; congruence.
        * apply dropping_kept.
        * unfold dropping. by rewrite sigs_drop_slot.
        * intros X. rewrite dropping_conns, lookup_alter_eq, E. intros [= <-]. by right.
      + exists s. split_and!; try done; [apply (cd_done _ _ _ C); auto|]. intros X EX.
        right. congruence.
    - exists s. split_and!; try done. intros X EX. left. congruence. }
  destruct Hstep as (s1 & -> & W1 & K1 & Es1 & Hc1). cbn [mbind option_bind].
  destruct (IH s1) as (s' & -> & W' & K' & Es' & Hc'); [done| |].
  { intros x Hx. destruct (Hl x) as (X & EX & ?); [by right|].
    destruct (kept_conns _ _ K1 _ _ EX) as (X' & ? & ? & ? & ?). exists X'. split; congruence. }
  exists s'. split_and!; [done|done|by etrans|congruence|].
  intros x X [-> |Hx]%elem_of_cons EX; [|by eapply Hc'].
  destruct (kept_conns _ _ K1 _ _ E) as (C1 & E1 & ? & ? & ?).
  destruct (kept_conns _ _ K' _ _ E1) as (X' & ? & ? & ? & ?). simplify_eq.
  destruct (Hc1 _ E1) as [?|?]; [left; congruence|right; auto].
Qed.

Lemma disconnect_slots_wf o l s :
  wfx None (Some o) s -> (forall c, c ∈ l -> exists C, conns s !! c = Some C /\ receiver C = Some o) ->
  exists s', disconnect_slots l s = Some s' /\ wfx None (Some o) s' /\ kept s s' /\
    (forall x, connectionMap <$> objs s' !! x = connectionMap <$> objs s !! x) /\
    forall c C, c ∈ l -> conns s' !! c = Some C -> status C = 3.
Proof.
  revert s. induction l as [|c l IH]; intros s W Hl; cbn.
  { exists s. split_and!; try done. intros c C Hc%not_elem_of_nil. done. }
  destruct (Hl c) as (C & E & Er); [by left|].
  assert (Hstep : exists s1, conn_disconnect DISCONNECT_DEPTH c SignalSlotDisConnected s = Some s1 /\
            wfx None (Some o) s1 /\ kept s s1 /\ objs s1 = objs s /\
            (forall C, conns s1 !! c = Some C -> status C = 3)).
  { destruct (wf_status _ _ _ W _ _ E) as [E0|E3].
    - exists (dropping true false c C s). split_and!.
      + apply cd_by_slot; [done|done|by eapply wf_owner|].
        destruct (wf_live _ _ _ W _ _ _ E E0 Er) as [_ (G & ? & _)]. eauto.
      + apply dropping_wf; congruence.
      + apply dropping_kept.
      + done.
      + intros X. rewrite dropping_conns, lookup_alter_eq, E. by intros [= <-].
    - exists s. split_and!; try done; [apply (cd_done _ _ _ C); auto|]. intros X EX. congruence. }
  destruct Hstep as (s1 & -> & W1 & K1 & Es1 & Hc1). cbn [mbind option_bind].
  destruct (IH s1) as (s' & -> & W' & K' & Es' & Hc'); [done| |].
  { intros x Hx. destruct (Hl x) as (X & EX & ?); [by right|].
    destruct (kept_conns _ _ K1 _ _ EX) as (X' & ? & ? & ? & ?). exists X'. split; congruence. }
  exists s'. split_and!; [done|done|by etrans| |].
  { intros x. by rewrite Es', Es1. }
  intros x X [-> |Hx]%elem_of_cons EX; [|by eapply Hc'].
  destruct (kept_conns _ _ K1 _ _ E) as (C1 & E1 & ? & ? & ?).
  destruct (kept_conns _ _ K' _ _ E1) as (X' & ? & ? & ? & ?). simplify_eq.
  eauto.
Qed.

(** Emptying the table of the signal, of the object, after the loop. *)
Lemma clear_signal_wf g G s :
  wfx (Some g) None s -> sigs s !! g = Some G ->
  (forall c C, c ∈ connectionList G -> conns s !! c = Some C -> receiver C = None \/ status C = 3) ->
  wf (set_sig g (mkSignal (signalObject G) []) s).
Proof.
  intros W EG Hc. constructor; cbn.
  - intros h H [[<- <-]|[? EH]]%lookup_insert_Some; cbn; by eapply wf_owner.
  - intros h H [[<- <-]|[? EH]]%lookup_insert_Some; cbn; [constructor|by eapply wf_nodup].
  - intros h H x [[<- <-]|[? EH]]%lookup_insert_Some Hx; [by apply elem_of_nil in Hx|].
    destruct (wf_list _ _ _ W _ _ _ EH Hx) as (X & ? & ? & [?|[? [=]]]); [eauto|done].
  - intros o Ob x EO Hx. by eapply wf_map.
  - apply W.
  - intros x X r EX E0 Er. destruct (wf_live _ _ _ W _ _ _ EX E0 Er) as [Ho (H & EH & Hl)].
    split; [done|]. destruct (decide (g = sender X)) as [Eg|n].
    + assert (H = G) as -> by congruence. destruct (Hc _ _ Hl EX); congruence.
    + rewrite lookup_insert_ne by done. eauto.
  - apply W.
Qed.

Lemma clear_object_wf o Ob s :
  wfx None (Some o) s -> objs s !! o = Some Ob ->
  (forall c C, c ∈ connectionMap Ob -> conns s !! c = Some C -> status C = 3) ->
  wf (set_obj o (set_map ∅ Ob) s).
Proof.
  intros W EO Hc. constructor; cbn.
  - intros h H EH. destruct (wf_owner _ _ _ W _ _ EH) as [? ?].
    destruct (decide (o = signalObject H)) as [->|n]; [rewrite lookup_insert_eq|rewrite lookup_insert_ne]; eauto.
  - intros h H EH. by eapply wf_nodup.
  - intros h H x EH Hx. by eapply wf_list.
  - intros p Q x [[<- <-]|[? EQ]]%lookup_insert_Some Hx; [cbn in Hx; set_solver|].
    destruct (wf_map _ _ _ W _ _ _ EQ Hx) as (X & ? & ? & [?|[? [=]]]); [eauto|done].
  - apply W.
  - intros x X r EX E0 Er. destruct (wf_live _ _ _ W _ _ _ EX E0 Er) as [(R & ER & Hm) Hs].
    split; [|done]. destruct (decide (o = r)) as [Eo|n].
    + assert (R = Ob) as -> by congruence. rewrite (Hc _ _ Hm EX) in E0. done.
    + rewrite lookup_insert_ne by done. eauto.
  - apply W.
Qed.

Lemma set_sig_kept g G G' s :
  sigs s !! g = Some G -> signalObject G' = signalObject G -> kept s (set_sig g G' s).
Proof.
  intros EG Eo. constructor; cbn; eauto; try done.
  - intros h. destruct (decide (g = h)) as [<-|n]; [rewrite lookup_insert_eq, EG|rewrite lookup_insert_ne]; done.
  - intros h H [[<- <-]|[? EH]]%lookup_insert_Some; eauto.
Qed.

Lemma set_obj_kept o Ob Ob' s : objs s !! o = Some Ob -> kept s (set_obj o Ob' s).
Proof.
  intros EO. constructor; cbn; eauto; try done.
  intros h. destruct (decide (o = h)) as [<-|n]; [rewrite lookup_insert_eq, EO|rewrite lookup_insert_ne]; done.
Qed.

Lemma signal_disconnectAll_wf g G s :
  wf s -> sigs s !! g = Some G ->
  exists s', signal_disconnectAll g s = Some s' /\ wf s' /\ kept s s' /\
    connectionList <$> sigs s' !! g = Some [] /\
    (forall c C, conns s' !! c = Some C -> sender C = g -> receiver C <> None -> status C = 3).
Proof.
  intros W EG. unfold signal_disconnectAll. rewrite EG. cbn [mbind option_bind].
  destruct (wf_owner _ _ _ W _ _ EG) as [Ow EO]. rewrite EO. cbn [mbind option_bind].
  destruct (disconnect_received_wf g (connectionList G) s) as (s1 & -> & W1 & K1 & Es & Hc).
  { by apply wfx_weaken. }
  { intros c Hc. destruct (wf_list _ _ _ W _ _ _ EG Hc) as (C & ? & ? & _). eauto. }
  cbn [mbind option_bind]. rewrite Es, EG. cbn [mbind option_bind].
  assert (EG1 : sigs s1 !! g = Some G) by by rewrite Es.
  pose proof (clear_signal_wf g G s1 W1 EG1 Hc) as W'.
  eexists. split_and!; [done|done| | |].
  - etrans; [done|]. by apply (set_sig_kept g G).
  - cbn. by rewrite lookup_insert_eq.
  - intros c C E <- Hr. destruct (wf_status _ _ _ W' _ _ E) as [E0|]; [|done].
    destruct (receiver C) as [r|] eqn:Er; [|done].
    destruct (wf_live _ _ _ W' _ _ _ E E0 Er) as [_ (H & EH & Hl)]. cbn in EH.
    rewrite lookup_insert_eq in EH. simplify_eq. by apply elem_of_nil in Hl.
Qed.

Lemma object_disconnectAll_wf o Ob s :
  wf s -> objs s !! o = Some Ob ->
  exists s', object_disconnectAll o s = Some s' /\ wf s' /\ kept s s' /\
    connectionMap <$> objs s' !! o = Some ∅.
Proof.
  intros W EO. unfold object_disconnectAll. rewrite EO. cbn [mbind option_bind].
  destruct (disconnect_slots_wf o (elements (connectionMap Ob)) s) as (s1 & -> & W1 & K1 & Es & Hc).
  { by apply wfx_weaken. }
  { intros c Hc%elem_of_elements. destruct (wf_map _ _ _ W _ _ _ EO Hc) as (C & ? & ? & _). eauto. }
  cbn [mbind option_bind]. specialize (Es o). rewrite EO in Es. apply fmap_Some in Es as (Ob1 & E1 & Em).
  rewrite E1. cbn [mbind option_bind].
  assert (W' : wf (set_obj o (set_map ∅ Ob1) s1)).
  { apply (clear_object_wf o Ob1); [done|done|]. intros c C Hin. apply Hc. rewrite Em.
    by apply elem_of_elements. }
  eexists. split_and!; [done|done| |].
  - etrans; [done|]. by apply (set_obj_kept o Ob1).
  - cbn. by rewrite lookup_insert_eq.
Qed.

Lemma destroy_Signal_wf g G s :
  wf s -> sigs s !! g = Some G ->
  exists s', destroy_Signal g s = Some s' /\ wf s' /\ running s' = running s /\
    (forall c, is_Some (conns s !! c) -> is_Some (conns s' !! c)) /\
    (forall o, is_Some (objs s' !! o) <-> is_Some (objs s !! o)).
Proof.
  intros W EG. unfold destroy_Signal.
  destruct (signal_disconnectAll_wf g G s W EG) as (s1 & -> & W1 & K1 & El & Hst).
  cbn [mbind option_bind]. eexists. split; [done|]. split_and!.
  - destruct W1. constructor; cbn; eauto.
    + intros h H [_ EH]%lookup_delete_Some. eauto.
    + intros h H [_ EH]%lookup_delete_Some. eauto.
    + intros h H x [_ EH]%lookup_delete_Some. eauto.
    + intros x X r EX E0 Er. destruct (wf_live0 _ _ _ EX E0 Er) as [? (H & EH & ?)]. split; [done|].
      destruct (decide (g = sender X)) as [Eg|n]; [|rewrite lookup_delete_ne by done; eauto].
      rewrite (Hst x X EX) in E0; [done|done|]. by rewrite Er.
  - apply K1.
  - intros c [C E]. destruct (kept_conns _ _ K1 _ _ E) as (? & ? & _). eauto.
  - apply K1.
Qed.

Lemma destroy_Object_wf o Ob s :
  wf s -> objs s !! o = Some Ob -> (forall g G, sigs s !! g = Some G -> signalObject G <> o) ->
  exists s', destroy_Object o s = Some s' /\ wf s' /\ running s' = running s /\
    log s' = log s /\
    (forall c C, conns s !! c = Some C -> exists C', conns s' !! c = Some C' /\ receiver C' = receiver C) /\
    (forall p, is_Some (objs s' !! p) <-> p <> o /\ is_Some (objs s !! p)).
Proof.
  intros W EO Hno. unfold destroy_Object.
  destruct (object_disconnectAll_wf o Ob s W EO) as (s1 & -> & W1 & K1 & El).
  cbn [mbind option_bind]. eexists. split; [done|].
  assert (Hobj : forall p, is_Some (delete o (objs s1) !! p) <-> p <> o /\ is_Some (objs s !! p)).
  { intros p. rewrite lookup_delete_is_Some, (kept_objs _ _ K1). naive_solver. }
  split_and!; [| | | |done].
  - apply fmap_Some in El as (Ob1 & E1 & Em). pose proof W1 as []. constructor; cbn; eauto.
    + intros g G EG. apply Hobj. destruct (kept_owner _ _ K1 _ _ EG) as (G0 & EG0 & ->).
      split; [by eapply Hno|by eapply (wf_owner _ _ _ W)].
    + intros p Q x [_ EQ]%lookup_delete_Some. eauto.
    + intros x X r EX E0 Er. destruct (wf_live0 _ _ _ EX E0 Er) as [(R & ER & Hm) Hs]. split; [|done].
      destruct (decide (o = r)) as [Eo|n]; [exfalso; simplify_eq; set_solver|].
      rewrite lookup_delete_ne by done. eauto.
  - apply K1.
  - apply K1.
  - intros c C E. destruct (kept_conns _ _ K1 _ _ E) as (C' & ? & ? & _). eauto.
Qed.

Lemma wf_same cg co s s' :
  conns s' = conns s -> sigs s' = sigs s -> objs s' = objs s -> next_conn s' = next_conn s ->
  wfx cg co s -> wfx cg co s'.
Proof. intros E1 E2 E3 E4 []. constructor; rewrite ?E1, ?E2, ?E3, ?E4; done. Qed.

(** The queue and the state of execution of an object do not matter. *)
Lemma wf_set_obj o Ob Ob' s :
  wf s -> objs s !! o = Some Ob -> connectionMap Ob' = connectionMap Ob -> wf (set_obj o Ob' s).
Proof.
  intros W EO Em. constructor; cbn; try apply W.
  - intros h H EH. apply lookup_insert_is_Some. destruct (decide (o = signalObject H)); [by left|right].
    split; [done|]. by eapply wf_owner.
  - intros p Q x [[<- <-]|[? EQ]]%lookup_insert_Some Hx; [rewrite Em in Hx|]; by eapply wf_map.
  - intros x X r EX E0 Er. destruct (wf_live _ _ _ W _ _ _ EX E0 Er) as [(R & ER & Hm) Hs].
    split; [|done]. destruct (decide (o = r)) as [<-|n].
    + rewrite lookup_insert_eq. eexists. split; [done|]. rewrite Em. congruence.
    + rewrite lookup_insert_ne by done. eauto.
Qed.

(** The state after [connect]. *)
Section Connected.
Context (g : positive) (r : option positive) (f : Z) (s : sig_state).

Definition with_conn (G : Signal) : Signal := mkSignal (signalObject G) (connectionList G ++ [next_conn s]).
Definition with_slot (Ob : SObject) : SObject := set_map ({[next_conn s]} ∪ connectionMap Ob) Ob.
Definition connected : sig_state :=
  mkState (<[next_conn s := mkConn SignalNormal r g f]> (conns s))
    (alter with_conn g (sigs s))
    match r with Some o => alter with_slot o (objs s) | None => objs s end
    (Pos.succ (next_conn s)) (running s) (log s).

Lemma connect_eq G :
  sigs s !! g = Some G -> is_Some (objs s !! signalObject G) -> (forall o, r = Some o -> is_Some (objs s !! o)) ->
  connect g r f s = Some (next_conn s, connected).
Proof.
  intros EG [Ow EO] Hr. unfold connect, connected. rewrite EG. cbn [mbind option_bind]. rewrite EO.
  cbn [mbind option_bind]. rewrite (alter_insert_val _ _ _ _ EG).
  destruct r as [o|]; [|done]. destruct (Hr o eq_refl) as [Ob EOb].
  cbn [objs set_sig set_sigs set_conn set_conns set_next]. rewrite EOb. cbn [mbind option_bind].
  by rewrite (alter_insert_val _ _ _ _ EOb).
Qed.

Lemma connected_sigs h H' :
  sigs connected !! h = Some H' ->
  exists H, sigs s !! h = Some H /\ H' = if decide (h = g) then with_conn H else H.
Proof.
  cbn. destruct (decide (h = g)) as [->|n].
  - rewrite lookup_alter_eq. intros (H & -> & ->)%fmap_Some. eauto.
  - rewrite lookup_alter_ne by done. eauto.
Qed.

Lemma connected_objs o :
  objs connected !! o = (fun Ob => if decide (r = Some o) then with_slot Ob else Ob) <$> objs s !! o.
Proof.
  cbn. destruct r as [p|]; [destruct (decide (p = o)) as [->|n]|].
  - rewrite lookup_alter_eq. destruct (objs s !! o); cbn; [by rewrite decide_True|done].
  - rewrite lookup_alter_ne by done. destruct (objs s !! o); cbn; [rewrite decide_False; congruence|done].
  - by destruct (objs s !! o).
Qed.

Lemma connected_alive o : is_Some (objs connected !! o) <-> is_Some (objs s !! o).
Proof. rewrite connected_objs. apply fmap_is_Some. Qed.

Lemma wf_next_fresh cg co : wfx cg co s -> conns s !! next_conn s = None.
Proof.
  intros W. destruct (conns s !! next_conn s) as [C|] eqn:E; [|done].
  pose proof (wf_fresh _ _ _ W _ _ E). lia.
Qed.

Lemma connected_wf G :
  wf s -> sigs s !! g = Some G -> (forall o, r = Some o -> is_Some (objs s !! o)) -> wf connected.
Proof.
  intros W EG Hr. pose proof (wf_next_fresh _ _ W) as Hc. constructor.
  - intros h H' (H & EH & ->)%connected_sigs. apply connected_alive.
    pose proof (wf_owner _ _ _ W _ _ EH). by destruct (decide _).
  - intros h H' (H & EH & ->)%connected_sigs. pose proof (wf_nodup _ _ _ W _ _ EH) as Hn.
    destruct (decide _); [|done]. apply NoDup_app. split_and!; [done| |apply NoDup_singleton].
    intros x Hx ->%list_elem_of_singleton. destruct (wf_list _ _ _ W _ _ _ EH Hx) as (? & ? & _). congruence.
  - intros h H' x (H & EH & ->)%connected_sigs Hx.
    assert (h = g /\ x = next_conn s \/ x ∈ connectionList H) as [[-> ->]|Hx0].
    { destruct (decide _); [|by right]. apply elem_of_app in Hx as [?| ->%list_elem_of_singleton]; auto. }
    + cbn. rewrite lookup_insert_eq. eauto 10.
    + destruct (wf_list _ _ _ W _ _ _ EH Hx0) as (X & EX & ? & ?). cbn.
      rewrite lookup_insert_ne by congruence. eauto.
  - intros o Ob' x. rewrite connected_objs. intros (Ob & EOb & ->)%fmap_Some Hx.
    assert (r = Some o /\ x = next_conn s \/ x ∈ connectionMap Ob) as [[-> ->]|Hx0].
    { destruct (decide _); [cbn in Hx; set_solver|by right]. }
    + cbn. rewrite lookup_insert_eq. eauto 10.
    + destruct (wf_map _ _ _ W _ _ _ EOb Hx0) as (X & EX & ? & ?). cbn.
      rewrite lookup_insert_ne by congruence. eauto.
  - cbn. intros x X [[<- <-]|[? EX]]%lookup_insert_Some; [by left|by eapply wf_status].
  - intros x X o EX E0 Er. rewrite connected_objs. cbn in EX |- *.
    apply lookup_insert_Some in EX as [[<- <-]|[? EX]]; cbn in Er |- *.
    + destruct (Hr o Er) as [Ob ->]. cbn. rewrite decide_True by done. rewrite lookup_alter_eq, EG. cbn.
      split; eexists; (split; [done|]); [cbn; set_solver|]. apply elem_of_app. right. by left.
    + destruct (wf_live _ _ _ W _ _ _ EX E0 Er) as [(Ob & -> & Hm) (H' & EH & Hl)]. cbn. split.
      * eexists. split; [done|]. destruct (decide _); [cbn; set_solver|done].
      * destruct (decide (g = sender X)) as [Eg|n]; [|rewrite lookup_alter_ne by done; eauto].
        rewrite Eg, lookup_alter_eq, EH. cbn. eexists. split; [done|]. apply elem_of_app. by left.
  - cbn. intros x X [[<- <-]|[? EX]]%lookup_insert_Some; [lia|]. pose proof (wf_fresh _ _ _ W _ _ EX). lia.
Qed.
End Connected.

(** ** Running operations *)

(** Nothing that is being run has been destroyed. *)
Record safe (s : sig_state) : Prop := mkSafe {
  safe_wf : wf s;
  safe_running : Forall (fun o => is_Some (objs s !! o)) (running s)
}.

(** How an operation that started in [s] may end. *)
Definition ends (s : sig_state) (r : result) : Prop :=
  match r with
  | Done s' => safe s' /\ running s' = running s /\ forall c, is_Some (conns s !! c) -> is_Some (conns s' !! c)
  | Bad => False
  | Refused | OutOfFuel => True
  end.

Lemma ends_bindr s r f :
  ends s r -> (forall s', safe s' -> running s' = running s ->
    (forall c, is_Some (conns s !! c) -> is_Some (conns s' !! c)) -> ends s' (f s')) ->
  ends s (bindr r f).
Proof.
  destruct r as [s'| | |]; cbn; try done. intros (Hs & Hr & Hc) Hf.
  specialize (Hf s' Hs Hr Hc). destruct (f s') as [s2| | |]; cbn in *; try done.
  destruct Hf as (? & ? & ?). split_and!; [done|congruence|auto].
Qed.

(** The end of a primitive operation that keeps the objects that are running. *)
Lemma ends_lift s s' :
  safe s -> wf s' -> running s' = running s ->
  (forall c, is_Some (conns s !! c) -> is_Some (conns s' !! c)) ->
  (forall o, o ∈ running s -> is_Some (objs s !! o) -> is_Some (objs s' !! o)) ->
  ends s (Done s').
Proof.
  intros [W F] W' Er Hc Ho. split_and!; try done. constructor; [done|]. rewrite Er.
  apply Forall_forall. intros o Hin. apply Ho; [done|]. by eapply Forall_forall in F.
Qed.

Lemma ends_kept s s' : safe s -> wf s' -> kept s s' -> ends s (Done s').
Proof.
  intros S' W' K. apply ends_lift; try done; [apply K| |].
  - intros c [C E]. destruct (kept_conns _ _ K _ _ E) as (? & ? & _). eauto.
  - intros o _. by apply K.
Qed.

Section Safety.
Context (capacity : nat) (slot : Z -> Z -> list sig_op).
Context (run : list sig_op -> sig_state -> result) (run_safe : forall l s, safe s -> ends s (run l s)).

Lemma add_log_safe e s : safe s -> safe (add_log e s).
Proof. intros [W F]. constructor; [by apply (wf_same _ _ s)|done]. Qed.

Lemma call_slot_safe c f a s : safe s -> ends s (call_slot slot run c f a s).
Proof. intros S'. apply (run_safe (slot f a) (add_log (LCall c f a) s)). by apply add_log_safe. Qed.

Lemma deliver_safe c C a s :
  safe s -> conns s !! c = Some C -> status C = 0 -> ends s (deliver capacity slot run c C a s).
Proof.
  intros S' E E0. unfold deliver. destruct (receiver C) as [r|] eqn:Er; [|by apply call_slot_safe].
  destruct (wf_receiver_alive _ _ _ _ _ _ (safe_wf _ S') E E0 Er) as [R ER]. rewrite ER.
  destruct (_ && _); [|by apply call_slot_safe].
  apply ends_lift; try done.
  - eapply (wf_same _ _ (set_obj r _ s)); [..|eapply (wf_set_obj r R); [apply S'|done|]]; done.
  - intros o _ Ho. cbn. apply lookup_insert_is_Some. destruct (decide (r = o)); auto.
Qed.

Lemma emit_loop_safe l a s :
  safe s -> Forall (fun c => is_Some (conns s !! c)) l -> ends s (emit_loop capacity slot run true l a s).
Proof.
  revert s. induction l as [|c l IH]; intros s S' Hl; cbn [emit_loop]; [done|].
  apply Forall_cons in Hl as [[C E] Hl]. rewrite E. destruct (_ && _) eqn:Eb; [by apply IH|].
  apply ends_bindr.
  - apply deliver_safe; [done|done|]. destruct (Z.eqb_spec (status C) SignalNormal); done.
  - intros s' S1 _ Hc. apply IH; [done|]. eapply Forall_impl; [done|]. intros x Hx. by apply Hc.
Qed.

Lemma operator_safe g a s : safe s -> is_Some (sigs s !! g) -> ends s (emit_signal capacity slot run true g a s).
Proof.
  intros S' [G EG]. unfold emit_signal. rewrite EG.
  destruct (wf_owner _ _ _ (safe_wf _ S') _ _ EG) as [Ow EO]. rewrite EO.
  apply emit_loop_safe; [done|]. apply Forall_forall. intros c Hc.
  destruct (wf_list _ _ _ (safe_wf _ S') _ _ _ EG Hc) as (C & ? & _). eauto.
Qed.

Lemma run_bound_safe l s : safe s -> ends s (run_bound slot run l s).
Proof.
  revert s. induction l as [|[[c f] a] l IH]; intros s S'; cbn [run_bound]; [done|].
  apply ends_bindr; [by apply call_slot_safe|]. intros s' S1 _ _. by apply IH.
Qed.

Lemma handleTriggerQueue_safe o s :
  safe s -> is_Some (objs s !! o) -> ends s (handleTriggerQueue slot run o s).
Proof.
  intros S' [Ob EO]. unfold handleTriggerQueue. rewrite EO. set (s0 := set_running _ _).
  assert (S0 : safe s0).
  { constructor; [eapply (wf_same _ _ (set_obj o _ s)); [..|eapply (wf_set_obj o Ob); [apply S'|done|]]; done|].
    assert (Ha : forall p, is_Some (objs s !! p) -> is_Some (objs s0 !! p)).
    { intros p Hp. cbn. apply lookup_insert_is_Some. destruct (decide (o = p)); auto. }
    apply Forall_cons. split; [apply Ha; eauto|]. eapply Forall_impl; [apply S'|done]. }
  pose proof (run_bound_safe (trigger_queue Ob) s0 S0) as H.
  destruct (run_bound _ _ _ _) as [s1| | |]; cbn in H |- *; try done.
  destruct H as ([W1 F1] & Er & Hc). rewrite Er in F1 |- *. apply Forall_cons in F1 as [[Ob1 E1] F1].
  rewrite E1. split_and!; [|done|done]. constructor; [|done].
  by apply (wf_same _ _ s1).
Qed.

Lemma exec_op_safe k s : safe s -> client_ok s k = true -> ends s (exec_op capacity slot run k s).
Proof.
  intros S' Hk. pose proof (safe_wf _ S') as W.
  destruct k; cbn -[ends connect disconnect signal_disconnect signal_disconnectAll destroy_Signal destroy_Object] in *;
    unfold alive in Hk; rewrite ?andb_true_iff, ?bool_decide_eq_true in Hk.
  - destruct Hk as [[G EG] Hr]. assert (Hr' : forall o, r = Some o -> is_Some (objs s !! o)).
    { intros o ->. by apply bool_decide_eq_true in Hr. }
    rewrite (connect_eq g r f s G) by (done || by eapply wf_owner). cbn [mbind option_bind lift snd].
    apply ends_lift; [done|by eapply connected_wf|done| |].
    + cbn. intros c Hc. apply lookup_insert_is_Some. destruct (decide (next_conn s = c)); auto.
    + intros o _. by apply connected_alive.
  - destruct (conns s !! c) as [C|] eqn:E; [|done]. rewrite orb_true_iff, bool_decide_eq_true in Hk.
    destruct (disconnect_wf c C s W E) as (s' & -> & ? & ?); [|by apply ends_kept].
    destruct Hk as [Hk|]; [left|by right]. intros E0. by rewrite E0 in Hk.
  - destruct Hk as [G EG]. destruct (signal_disconnect_wf g G c s W EG) as (s' & -> & ? & ?).
    by apply ends_kept.
  - destruct Hk as [G EG]. destruct (signal_disconnectAll_wf g G s W EG) as (s' & -> & ? & ? & _).
    by apply ends_kept.
  - done.
  - by apply operator_safe.
  - by apply handleTriggerQueue_safe.
  - destruct Hk as [Hg%negb_true_iff%bool_decide_eq_false Ho].
    apply ends_lift; try done. constructor; cbn; try apply W.
    + intros h H [[<- <-]|[? EH]]%lookup_insert_Some; [done|by eapply wf_owner].
    + intros h H [[<- <-]|[? EH]]%lookup_insert_Some; [constructor|by eapply wf_nodup].
    + intros h H x [[<- <-]|[? EH]]%lookup_insert_Some Hx; [by apply elem_of_nil in Hx|by eapply wf_list].
    + intros x X r EX E0 Er. destruct (wf_live _ _ _ W _ _ _ EX E0 Er) as [? (H & EH & ?)]. split; [done|].
      rewrite lookup_insert_ne; [eauto|]. intros Eg. apply Hg. rewrite Eg. eauto.
  - destruct Hk as [G EG]. destruct (destroy_Signal_wf g G s W EG) as (s' & -> & ? & ? & ? & Ho).
    apply ends_lift; try done. intros o _. by apply Ho.
  - destruct Hk as [[[Ob EO] Hr] Hno].
    destruct (destroy_Object_wf o Ob s W EO) as (s' & -> & ? & ? & _ & Hc & Ho); [exact Hno|].
    apply ends_lift; try done; [intros c [C E]; destruct (Hc _ _ E) as (? & ? & _); eauto|]. intros p Hp ?. apply Ho. split; [by intros ->|done].
Qed.
End Safety.

Lemma exec_safe capacity slot fuel l s : safe s -> ends s (exec capacity slot client_ok fuel l s).
Proof.
  revert l s. induction fuel as [|fuel IH]; intros l s S'; cbn [exec]; [done|].
  destruct l as [|k l]; [done|]. destruct (client_ok s k) eqn:Ek; cbn [negb]; [|done].
  apply ends_bindr; [by apply exec_op_safe|]. intros. by apply IH.
Qed.

(** ** Disconnecting *)

Lemma disconnect_dropping c C s :
  wf s -> conns s !! c = Some C -> status C = 0 -> is_Some (sigs s !! sender C) ->
  disconnect c s = Some (dropping true true c C s).
Proof.
  intros W E E0 [G EG]. apply (disconnect_eq c C G); [done|done|done|by eapply wf_owner|].
  intros r Er. destruct (wf_live _ _ _ W _ _ _ E E0 Er) as [(? & ? & _) (G' & EG' & ?)].
  simplify_eq. eauto.
Qed.

Lemma finished_in_no_table s c C :
  wf s -> conns s !! c = Some C -> status C = 3 ->
  (forall g G, sigs s !! g = Some G -> c ∉ connectionList G) /\
  (forall o Ob, objs s !! o = Some Ob -> c ∉ connectionMap Ob).
Proof.
  intros W E E3. split.
  - intros g G EG Hc. destruct (wf_list _ _ _ W _ _ _ EG Hc) as (X & EX & _ & [?|[_ [=]]]). congruence.
  - intros o Ob EO Hc. destruct (wf_map _ _ _ W _ _ _ EO Hc) as (X & EX & _ & [?|[_ [=]]]). congruence.
Qed.

(** C18. [Connection::disconnect] on a connection whose signal is alive returns
    (the three functions that call each other stop at the depth of
    [DISCONNECT_DEPTH]), leaves the connection in its final state and in no
    table, and changes nothing else: every other connection is as it was, every
    list is the old one without the connection and in the old order, every map
    is the old one without it, the queues, the log and the invariant are kept. *)
Theorem disconnect_exact c C s :
  wf s -> conns s !! c = Some C -> is_Some (sigs s !! sender C) ->
  exists s', disconnect c s = Some s' /\ wf s' /\
    conns s' = <[c := set_status SignalAllDisconneted C]> (conns s) /\
    (forall g G', sigs s' !! g = Some G' -> c ∉ connectionList G') /\
    (forall o Ob', objs s' !! o = Some Ob' -> c ∉ connectionMap Ob') /\
    sigs s' = without c <$> sigs s /\ objs s' = without_slot c <$> objs s /\
    next_conn s' = next_conn s /\ running s' = running s /\ log s' = log s.
Proof.
  intros W E Hg.
  assert (Hno : forall s', wf s' -> conns s' !! c = Some (set_status 3 C) ->
            sigs s' = without c <$> sigs s' /\ objs s' = without_slot c <$> objs s').
  { intros s' W' E'. destruct (finished_in_no_table s' c _ W' E' eq_refl) as [Hl Hm]. split.
    - apply map_eq. intros g. rewrite lookup_fmap. destruct (sigs s' !! g) as [G|] eqn:EG; [|done].
      cbn. f_equal. unfold without. rewrite filter_without_notin by (by eapply Hl). by destruct G.
    - apply map_eq. intros o. rewrite lookup_fmap. destruct (objs s' !! o) as [Ob|] eqn:EO; [|done].
      cbn. f_equal. pose proof (Hm _ _ EO). destruct Ob as [e m q]. unfold without_slot, set_map. cbn in *.
      f_equal. apply leibniz_equiv. set_solver. }
  destruct (wf_status _ _ _ W _ _ E) as [E0|E3].
  - pose proof (dropping_wf true true c C s None None W E ltac:(done) ltac:(done)) as W'.
    assert (E' : conns (dropping true true c C s) !! c = Some (set_status 3 C))
      by by rewrite dropping_conns, lookup_alter_eq, E.
    destruct (finished_in_no_table _ c _ W' E' eq_refl) as [Hl Hm]. destruct (Hno _ W' E') as [Hs Ho].
    eexists. split; [by apply disconnect_dropping|]. split_and!; try done.
    + by rewrite dropping_conns, (alter_insert_val _ _ _ _ E).
    + rewrite Hs. apply map_eq. intros g. rewrite !lookup_fmap, dropping_sigs.
      destruct (sigs s !! g) as [G|]; [|done]. cbn. f_equal. case_bool_decide; [|done].
      unfold without; cbn. f_equal. rewrite list_filter_filter_l; done.
    + rewrite Ho. apply map_eq. intros o. rewrite !lookup_fmap, dropping_objs.
      destruct (objs s !! o) as [Ob|]; [|done]. cbn. f_equal. case_bool_decide; [|done].
      unfold without_slot, set_map; cbn. f_equal. apply leibniz_equiv. set_solver.
    + apply dropping_next.
    + apply dropping_running.
    + apply dropping_log.
  - assert (EC : set_status 3 C = C) by (rewrite <- E3; apply set_status_id).
    destruct (finished_in_no_table s c C W E E3) as [Hl Hm].
    destruct (Hno s W) as [Hs Ho]; [congruence|].
    exists s. split_and!; try done; [apply (cd_done _ _ _ C); auto|].
    unfold SignalAllDisconneted. by rewrite EC, insert_id.
Qed.

(** ** Calling the signal *)

(** C17. Slots may connect, disconnect, call signals, run queues and destroy
    signals and objects from inside [operator()], to any depth: as long as every
    operation keeps the rule of [client_ok], none uses a freed object, signal or
    connection ([Bad]), whatever the slots do, and the tables are consistent
    again afterwards. *)
Theorem operator_never_dangles capacity slot fuel l s :
  safe s ->
  exec capacity slot client_ok fuel l s <> Bad /\
  (forall s', exec capacity slot client_ok fuel l s = Done s' -> safe s' /\ running s' = running s).
Proof.
  intros S'. pose proof (exec_safe capacity slot fuel l s S') as H. split.
  - intros E. by rewrite E in H.
  - intros s' E. rewrite E in H. destruct H as (? & ? & _). done.
Qed.

Section Passive.
Context (capacity : nat) (slot : Z -> Z -> list sig_op) (guard : sig_state -> sig_op -> bool)
        (passive : forall f a, slot f a = []) (a : Z).

(** What delivering to connection [c] is, seen from the state [s] in which the
    emission starts. *)
Definition to_queue (s : sig_state) (c : positive) : option (positive * Connection) :=
  C ← conns s !! c; r ← receiver C; R ← objs s !! r; if execing R then Some (r, C) else None.
Definition delivered (s : sig_state) (c : positive) : list sig_event :=
  match to_queue s c, conns s !! c with
  | Some (r, C), _ => [LQueue r c (func C) a]
  | None, Some C => [LCall c (func C) a]
  | None, None => []
  end.
Definition queued (s : sig_state) (o : positive) (c : positive) : list (positive * Z * Z) :=
  match to_queue s c with
  | Some (r, C) => if decide (r = o) then [(c, func C, a)] else []
  | None => []
  end.

(** The state after delivering to the connections [l], from [s]. *)
Definition after (l : list positive) (s : sig_state) : sig_state :=
  mkState (conns s) (sigs s)
    (map_imap (fun o Ob => Some (set_queue (trigger_queue Ob ++ flat_map (queued s o) l) Ob)) (objs s))
    (next_conn s) (running s) (log s ++ flat_map (delivered s) l).

Lemma after_objs l s o :
  objs (after l s) !! o = (fun Ob => set_queue (trigger_queue Ob ++ flat_map (queued s o) l) Ob) <$> objs s !! o.
Proof. cbn. rewrite map_lookup_imap. by destruct (objs s !! o). Qed.

Lemma after_nil s : after [] s = s.
Proof.
  destruct s as [cs gs os n r lg]. unfold after; cbn. rewrite app_nil_r. f_equal.
  apply map_eq. intros o. rewrite map_lookup_imap. destruct (os !! o) as [[e m q]|]; [|done].
  cbn. by rewrite app_nil_r.
Qed.

Lemma to_queue_after l s c : to_queue (after l s) c = to_queue s c.
Proof.
  unfold to_queue. cbn [conns after]. destruct (conns s !! c) as [C|]; [|done]. cbn.
  destruct (receiver C) as [r|]; [|done]. cbn.
  pose proof (after_objs l s r) as E. cbn in E. rewrite E. by destruct (objs s !! r).
Qed.

Lemma after_step l c s :
  after [c] (after l s) = after (l ++ [c]) s.
Proof.
  unfold after at 1 3. cbn [conns sigs next_conn running after]. f_equal.
  - apply map_eq. intros o. rewrite !map_lookup_imap. pose proof (after_objs l s o) as E.
    rewrite E. destruct (objs s !! o) as [Ob|]; [|done]. cbn. unfold set_queue; cbn.
    rewrite flat_map_app. cbn. unfold queued at 2 4. by rewrite to_queue_after, <- app_assoc.
  - cbn. rewrite flat_map_app. cbn. rewrite <- app_assoc. unfold delivered at 2 4.
    by rewrite to_queue_after.
Qed.

(** The slots of the connections that have been delivered fit. *)
Definition room (n : nat) (s : sig_state) : Prop :=
  forall o Ob, objs s !! o = Some Ob -> execing Ob = true -> (length (trigger_queue Ob) + n <= capacity)%nat.

Lemma call_slot_passive fuel c f s :
  call_slot slot (exec capacity slot guard (S fuel)) c f a s = Done (add_log (LCall c f a) s).
Proof. unfold call_slot. by rewrite passive. Qed.

Lemma deliver_passive fuel c C s :
  conns s !! c = Some C -> (forall r, receiver C = Some r -> is_Some (objs s !! r)) -> room 1 s ->
  deliver capacity slot (exec capacity slot guard (S fuel)) c C a s = Done (after [c] s).
Proof.
  intros E Hr Hroom. unfold deliver, after. cbn [flat_map]. rewrite !app_nil_r.
  assert (Hnone : to_queue s c = None -> objs s =
    map_imap (fun o Ob => Some (set_queue (trigger_queue Ob ++ queued s o c ++ []) Ob)) (objs s)).
  { intros En. apply map_eq. intros o. rewrite map_lookup_imap. unfold queued. rewrite En.
    destruct (objs s !! o) as [[e m q]|]; [|done]. cbn. by rewrite app_nil_r. }
  destruct (receiver C) as [r|] eqn:Er.
  - destruct (Hr r eq_refl) as [R ER]. rewrite ER.
    assert (Et : to_queue s c = if execing R then Some (r, C) else None).
    { unfold to_queue. rewrite E; cbn. rewrite Er; cbn. by rewrite ER. }
    destruct (execing R) eqn:Ex; cbn [andb].
    + assert (Hlt : (length (trigger_queue R) <? capacity)%nat = true).
      { apply Nat.ltb_lt. pose proof (Hroom r R ER Ex). lia. }
      rewrite Hlt. unfold add_log, set_obj, set_objs, delivered; cbn. rewrite Et. do 2 f_equal.
      apply map_eq. intros o. rewrite map_lookup_imap. unfold queued. rewrite Et.
      destruct (decide (r = o)) as [<-|n].
      * rewrite lookup_insert_eq, ER. done.
      * rewrite lookup_insert_ne by done. destruct (objs s !! o) as [[e m q]|]; [|done].
        cbn. by rewrite app_nil_r.
    + rewrite call_slot_passive. unfold add_log, delivered. rewrite Et, E. do 2 f_equal. by apply Hnone.
  - assert (Et : to_queue s c = None) by (unfold to_queue; rewrite E; cbn; by rewrite Er).
    rewrite call_slot_passive. unfold add_log, delivered. rewrite Et, E. do 2 f_equal. by apply Hnone.
Qed.

Lemma length_queued s o l : (length (flat_map (queued s o) l) <= length l)%nat.
Proof.
  induction l as [|c l IH]; cbn; [lia|]. rewrite length_app. unfold queued at 1.
  destruct (to_queue s c) as [[r C]|]; cbn; [destruct (decide (r = o)); cbn|]; lia.
Qed.

Lemma room_after n m l s : room (length l + n) s -> (m <= n)%nat -> room m (after l s).
Proof.
  intros H Hm o Ob'. rewrite after_objs. intros (Ob & E & ->)%fmap_Some Hx. cbn in *.
  rewrite length_app. pose proof (length_queued s o l). pose proof (H o Ob E Hx). lia.
Qed.

Lemma emit_loop_passive fuel check l0 l s :
  (forall c, c ∈ l -> exists C, conns s !! c = Some C /\ status C = 0 /\
     forall r, receiver C = Some r -> is_Some (objs s !! r)) ->
  room (length l0 + length l) s ->
  emit_loop capacity slot (exec capacity slot guard (S fuel)) check l a (after l0 s) = Done (after (l0 ++ l) s).
Proof.
  revert l0. induction l as [|c l IH]; intros l0 Hl Hroom; cbn [emit_loop].
  { by rewrite app_nil_r. }
  destruct (Hl c) as (C & E & E0 & Hr); [by left|]. cbn [conns after]. rewrite E, E0.
  rewrite andb_false_r, (deliver_passive _ _ C).
  - cbn [bindr]. rewrite after_step, IH, <- app_assoc; [done| |].
    + intros x Hx. apply Hl. by right.
    + rewrite length_app. cbn in *. by replace (length l0 + 1 + length l)%nat with (length l0 + S (length l))%nat by lia.
  - done.
  - intros r Er. rewrite after_objs. apply fmap_is_Some. by apply Hr.
  - eapply room_after; [done|]. cbn. lia.
Qed.
End Passive.

(** When the slots touch no signal and the queues have room, [operator()]
    and [emit] do the same: every connection of the list is served exactly once,
    in the order of the list; the slot of a connection without receiver, or
    whose receiver is not executing, is called in place, the others are appended
    in that order to the queue of their receiver; nothing else changes.  Fuel
    for two nested calls is enough. *)
Theorem operator_exact capacity slot guard fuel g G a s :
  (forall f b, slot f b = []) ->
  wf s -> sigs s !! g = Some G -> room capacity (length (connectionList G)) s ->
  guard s (OpCall g a) = true -> guard s (OpEmit g a) = true ->
  let s' := after a (connectionList G) s in
  exec capacity slot guard (S (S fuel)) [OpCall g a] s = Done s' /\
  exec capacity slot guard (S (S fuel)) [OpEmit g a] s = Done s' /\
  conns s' = conns s /\ sigs s' = sigs s /\ log s' = log s ++ flat_map (delivered a s) (connectionList G) /\
  (forall o Ob, objs s !! o = Some Ob -> objs s' !! o =
     Some (set_queue (trigger_queue Ob ++ flat_map (queued a s o) (connectionList G)) Ob)).
Proof.
  intros Hp W EG Hroom Hg1 Hg2 s'. destruct (wf_owner _ _ _ W _ _ EG) as [Ow EO].
  assert (H : forall check, emit_signal capacity slot (exec capacity slot guard (S fuel)) check g a s = Done s').
  { intros check. unfold emit_signal. rewrite EG, EO.
    pose proof (emit_loop_passive capacity slot guard Hp a fuel check [] (connectionList G) s) as H.
    rewrite after_nil in H. apply H; [|done]. intros c Hc.
    destruct (wf_list _ _ _ W _ _ _ EG Hc) as (C & E & _ & [E0|[_ ?]]); [|done].
    exists C. split_and!; [done|done|]. intros r Er. by eapply wf_receiver_alive. }
  split_and!; try done.
  - remember (S fuel) as n eqn:En. cbn. rewrite Hg1. cbn. rewrite H. subst. done.
  - remember (S fuel) as n eqn:En. cbn. rewrite Hg2. cbn. rewrite H. subst. done.
  - intros o Ob Eo. unfold s'. by rewrite after_objs, Eo.
Qed.

Lemma exec_single capacity slot guard fuel k s :
  guard s k = true ->
  exec capacity slot guard (S (S fuel)) [k] s = exec_op capacity slot (exec capacity slot guard (S fuel)) k s.
Proof.
  intros Hg. change (exec capacity slot guard (S (S fuel)) [k] s) with
    (if negb (guard s k) then Refused
     else bindr (exec_op capacity slot (exec capacity slot guard (S fuel)) k s) Done).
  rewrite Hg. cbn [negb]. by destruct (exec_op _ _ _ _ _).
Qed.

Lemma deliver_direct capacity slot run c C a s :
  receiver C = None -> deliver capacity slot run c C a s = call_slot slot run c (func C) a s.
Proof. intros Er. unfold deliver. by rewrite Er. Qed.

(** [emit] does not look at the state of the connections of its copied list:
    if the first slot destroys the receiver of the second connection, [emit] uses
    the freed receiver, where [operator()] calls the first slot only. *)
Theorem emit_dangles capacity slot fuel g G c1 c2 C1 C2 r R a s :
  safe s -> sigs s !! g = Some G -> connectionList G = [c1; c2] ->
  conns s !! c1 = Some C1 -> receiver C1 = None -> conns s !! c2 = Some C2 -> receiver C2 = Some r ->
  slot (func C1) a = [OpDestroyObject r] ->
  objs s !! r = Some R -> r ∉ running s -> (forall h H, sigs s !! h = Some H -> signalObject H <> r) ->
  exec capacity slot (fun _ _ => true) (4 + fuel) [OpEmit g a] s = Bad /\
  exists s', exec capacity slot client_ok (4 + fuel) [OpCall g a] s = Done s' /\
    log s' = log s ++ [LCall c1 (func C1) a].
Proof.
  intros [W F] EG El E1 Er1 E2 Er2 Hslot ER Hrun Hno.
  set (s1 := add_log (LCall c1 (func C1) a) s).
  assert (W1 : wf s1) by by apply (wf_same _ _ s).
  destruct (destroy_Object_wf r R s1 W1 ER Hno) as (s2 & Ed & W2 & _ & Elog & Hc & Ho).
  destruct (Hc c2 C2 E2) as (C2' & E2' & Er2'). rewrite Er2 in Er2'.
  assert (Hdead : objs s2 !! r = None).
  { destruct (objs s2 !! r) eqn:E; [|done]. by destruct (proj1 (Ho r) ltac:(eauto)). }
  assert (Est : status C2' = 3).
  { destruct (wf_status _ _ _ W2 _ _ E2') as [E0|]; [|done].
    destruct (wf_receiver_alive _ _ _ _ _ _ W2 E2' E0 Er2') as [? ?]. congruence. }
  assert (E10 : status C1 = 0).
  { destruct (wf_list _ _ _ W _ _ c1 EG) as (C & E & _ & [?|[_ ?]]); [rewrite El; by left|congruence|done]. }
  destruct (wf_owner _ _ _ W _ _ EG) as [Ow EO].
  assert (Hguard : client_ok s1 (OpDestroyObject r) = true).
  { cbn. unfold alive. rewrite ER. rewrite !bool_decide_eq_true_2; [done|exact Hno|done|done]. }
  assert (Hcall : forall guard, guard s1 (OpDestroyObject r) = true ->
            call_slot slot (exec capacity slot guard (3 + fuel)) c1 (func C1) a s = Done s2).
  { intros guard Hg. unfold call_slot. fold s1. rewrite Hslot. cbn [Nat.add exec]. rewrite Hg.
    cbn [negb exec_op]. rewrite Ed. done. }
  split; [|exists s2; split; [|done]]; cbn [Nat.add] in Hcall |- *.
  - rewrite exec_single by done. cbn [exec_op]. unfold emit_signal. rewrite EG, EO, El.
    cbn [emit_loop]. rewrite E1, E10. cbn [andb]. rewrite deliver_direct, Hcall by done.
    cbn [bindr]. rewrite E2'. unfold deliver. by rewrite Er2', Hdead.
  - rewrite exec_single by (cbn; unfold alive; by rewrite EG). cbn [exec_op]. unfold emit_signal.
    rewrite EG, EO, El. cbn [emit_loop]. rewrite E1, E10. cbn [andb negb]. rewrite deliver_direct, Hcall by done. cbn [bindr]. by rewrite E2', Est.
Qed.

(** ** Concrete instances *)

(** Objects without connections, the signals and connections are made by operations. *)
Definition init (os : list (positive * bool)) : sig_state :=
  mkState ∅ ∅ (list_to_map ((fun p => (p.1, mkSObject p.2 ∅ [])) <$> os)) 1 [] [].

Lemma init_safe os : safe (init os).
Proof.
  constructor; [|constructor]. constructor; cbn; try (intros *; by rewrite lookup_empty).
  intros o Ob c EO Hc. exfalso. apply elem_of_list_to_map_2, list_elem_of_fmap in EO as ([p b] & [= -> ->] & _).
  cbn in Hc. set_solver.
Qed.

(** Object 1 owns signal 10; connection 1 has no receiver, connection 2 the idle
    receiver 2, connection 3 the executing receiver 3. *)
Definition no_slots : Z -> Z -> list sig_op := fun _ _ => [].
Definition demo_ops : list sig_op :=
  [OpNewSignal 10 1; OpConnect 10 None 5; OpConnect 10 (Some 2%positive) 6; OpConnect 10 (Some 3%positive) 7].
Definition demo_of (ops : list sig_op) : sig_state :=
  match exec 4 no_slots client_ok 20 ops (init [(1, false); (2, false); (3, true)]%positive) with
  | Done s => s | _ => init [] end.

Lemma demo_safe ops : safe (demo_of ops).
Proof.
  unfold demo_of. pose proof (exec_safe 4 no_slots 20 ops _ (init_safe [(1, false); (2, false); (3, true)]%positive)) as H.
  destruct (exec _ _ _ _ _ _); [apply H|apply init_safe..].
Qed.

Definition demo : sig_state := demo_of demo_ops.

Lemma disconnect_exact_witness :
  conns demo !! 2%positive = Some (mkConn 0 (Some 2%positive) 10 6) /\
  exists s', disconnect 2 demo = Some s' /\ connectionList <$> sigs s' !! 10%positive = Some [1; 3]%positive.
Proof.
  split; [by vm_compute|].
  destruct (disconnect_exact 2 (mkConn 0 (Some 2%positive) 10 6) demo) as (s' & E & _ & _ & _ & _ & Es & _).
  - apply safe_wf, demo_safe.
  - by vm_compute.
  - vm_compute. eauto.
  - exists s'. split; [done|]. rewrite Es, lookup_fmap. by vm_compute.
Defined.

(** Slot 5 destroys object 2, slot 6 is then skipped; slot 7 is queued and its
    run connects a new slot and calls the signal again. *)
Definition demo_slot (f a : Z) : list sig_op :=
  if f =? 5 then [OpDestroyObject 2]
  else if f =? 7 then [OpConnect 10 None 8; OpDisconnect 1; OpCall 10 (a + 1)]
  else [].

Lemma operator_never_dangles_witness :
  exec 4 demo_slot client_ok 20 [OpCall 10 0; OpRunEvents 3; OpDestroySignal 10; OpDestroyObject 1] demo <> Bad /\
  exists s', exec 4 demo_slot client_ok 20 [OpCall 10 0; OpRunEvents 3; OpDestroySignal 10; OpDestroyObject 1] demo
    = Done s' /\ safe s' /\
    log s' = [LCall 1 5 0; LQueue 3 3 7 0; LCall 3 7 0; LQueue 3 3 7 1; LCall 4 8 1].
Proof.
  pose proof (operator_never_dangles 4 demo_slot 20 [OpCall 10 0; OpRunEvents 3; OpDestroySignal 10; OpDestroyObject 1]
                demo (demo_safe _)) as [H1 H2].
  split; [exact H1|]. eexists. split; [vm_compute; reflexivity|]. split; [|by vm_compute].
  by eapply H2.
Defined.

Lemma operator_exact_witness :
  exists s', exec 4 no_slots client_ok 2 [OpCall 10 9] demo = Done s' /\
    log s' = [LCall 1 5 9; LCall 2 6 9; LQueue 3 3 7 9].
Proof.
  destruct (operator_exact 4 no_slots (fun _ _ => true) 0 10 (mkSignal 1 [1; 2; 3]%positive) 9 demo)
    as (E & _ & _ & _ & El & _).
  - done.
  - apply safe_wf, demo_safe.
  - by vm_compute.
  - assert (H : map_Forall (fun _ Ob => (length (trigger_queue Ob) + 3 <= 4)%nat) (objs demo)).
    { apply map_Forall_to_list. vm_compute (map_to_list _). repeat constructor; cbn; lia. }
    intros o Ob EO _. by apply (H o Ob).
  - done.
  - done.
  - eexists. split; [vm_compute; reflexivity|]. etrans; [|etrans; [exact El|by vm_compute]]. by vm_compute.
Defined.

Lemma emit_dangles_witness :
  exec 4 demo_slot (fun _ _ => true) 4 [OpEmit 10 3] (demo_of (take 3 demo_ops)) = Bad.
Proof.
  apply (emit_dangles 4 demo_slot 0 10 (mkSignal 1 [1; 2]%positive) 1 2
    (mkConn 0 None 10 5) (mkConn 0 (Some 2%positive) 10 6) 2 (mkSObject false {[2%positive]} []) 3
    (demo_of (take 3 demo_ops))); [apply demo_safe|by vm_compute..|by inversion 1|].
  apply map_Forall_lookup. apply map_Forall_to_list. vm_compute (map_to_list _).
  repeat constructor; done.
Defined.
