(* ===== verification/ThreadPool.v ===== *)
(** The thread pool ([src/core/thread-pool.h], [thread-pool.cpp]).

    Workers, the threads that schedule, push and cancel tasks and the threads
    that call [join] are state machines over the shared state; one step is one
    access to a shared variable or one critical section of [mTasksMutex], so the
    order of the steps is the interleaving of the threads.  A step is a function
    of its [label], which carries every choice that the code leaves open: whose
    turn it is, which of several tasks of the same time is on top, which waiting
    worker a notification wakes, spurious wake-ups and the clock. *)
From S2P Require Import Prelude.

(** ** Data *)

Inductive TaskState := TASK_INIT | TASK_WAIT_START | TASK_CANCELLED | TASK_RUNNING | TASK_FINISHED.

#[global] Instance TaskState_eq_dec : EqDecision TaskState.
Proof. solve_decision. Defined.

(** Where a worker is in [ThreadPoolFutureInterface::run]. *)
Inductive run_pc :=
| RLoad               (* before the test of the state *)
| RStart              (* the state was TASK_WAIT_START *)
| RBody               (* the state is TASK_RUNNING: runFunction *)
| RFinish.            (* before setStatus(TASK_FINISHED) *)

(** Where a worker is in [ThreadPool::run] and [dequeue]. *)
Inductive worker_pc :=
| WOutside                        (* before the lock *)
| WLocked                         (* holds the lock, at the top of the loop *)
| WTest (until : option Z)        (* holds the lock, nothing due, before the test of mJoining *)
| WDecided (until : option Z)     (* holds the lock, mJoining was false, before the wait *)
| WWaiting (until : option Z)     (* waits for mCondition, without the lock *)
| WWoken                          (* woken, before it has the lock again *)
| WTask (id : nat) (p : run_pc)   (* runs a task *)
| WExit.

(** [join]: before [mJoining] is set, before the notification, before
    [mWorkersMutex], waiting for the workers, returned. *)
Inductive join_pc := JSet | JNotify | JLock | JWait | JDone.

(** [cancelTask] after its test succeeded; [pushTask] after its test, after the
    state was set. *)
Inductive push_pc := PSet | PQueue.

#[global] Instance run_pc_eq_dec : EqDecision run_pc.
Proof. solve_decision. Defined.
#[global] Instance worker_pc_eq_dec : EqDecision worker_pc.
Proof. solve_decision. Defined.
#[global] Instance join_pc_eq_dec : EqDecision join_pc.
Proof. solve_decision. Defined.
#[global] Instance push_pc_eq_dec : EqDecision push_pc.
Proof. solve_decision. Defined.

Record pool := mkPool {
  now : Z;
  mTasks : list (Z * nat);
  mJoining : bool;
  holder : option nat;                     (* worker that holds mTasksMutex *)
  workers : list worker_pc;
  joiners : gmap nat join_pc;
  states : gmap nat TaskState;             (* runningState of every task *)
  cancellers : gmap nat nat;               (* threads that are about to cancel *)
  pushers : gmap nat (nat * push_pc);
  executed : list nat;                     (* tasks whose function was run *)
  ended : list nat;                        (* tasks whose run() has returned *)
  cancelled : list nat                     (* tasks for which cancelTask returned true *)
}.

Definition set_now (x : Z) (s : pool) : pool :=
  mkPool x (mTasks s) (mJoining s) (holder s) (workers s) (joiners s) (states s) (cancellers s) (pushers s) (executed s) (ended s) (cancelled s).
Definition set_mTasks (x : list (Z * nat)) (s : pool) : pool :=
  mkPool (now s) x (mJoining s) (holder s) (workers s) (joiners s) (states s) (cancellers s) (pushers s) (executed s) (ended s) (cancelled s).
Definition set_mJoining (x : bool) (s : pool) : pool :=
  mkPool (now s) (mTasks s) x (holder s) (workers s) (joiners s) (states s) (cancellers s) (pushers s) (executed s) (ended s) (cancelled s).
Definition set_holder (x : option nat) (s : pool) : pool :=
  mkPool (now s) (mTasks s) (mJoining s) x (workers s) (joiners s) (states s) (cancellers s) (pushers s) (executed s) (ended s) (cancelled s).
Definition set_workers (x : list worker_pc) (s : pool) : pool :=
  mkPool (now s) (mTasks s) (mJoining s) (holder s) x (joiners s) (states s) (cancellers s) (pushers s) (executed s) (ended s) (cancelled s).
Definition set_joiners (x : gmap nat join_pc) (s : pool) : pool :=
  mkPool (now s) (mTasks s) (mJoining s) (holder s) (workers s) x (states s) (cancellers s) (pushers s) (executed s) (ended s) (cancelled s).
Definition set_states (x : gmap nat TaskState) (s : pool) : pool :=
  mkPool (now s) (mTasks s) (mJoining s) (holder s) (workers s) (joiners s) x (cancellers s) (pushers s) (executed s) (ended s) (cancelled s).
Definition set_cancellers (x : gmap nat nat) (s : pool) : pool :=
  mkPool (now s) (mTasks s) (mJoining s) (holder s) (workers s) (joiners s) (states s) x (pushers s) (executed s) (ended s) (cancelled s).
Definition set_pushers (x : gmap nat (nat * push_pc)) (s : pool) : pool :=
  mkPool (now s) (mTasks s) (mJoining s) (holder s) (workers s) (joiners s) (states s) (cancellers s) x (executed s) (ended s) (cancelled s).
Definition set_executed (x : list nat) (s : pool) : pool :=
  mkPool (now s) (mTasks s) (mJoining s) (holder s) (workers s) (joiners s) (states s) (cancellers s) (pushers s) x (ended s) (cancelled s).
Definition set_ended (x : list nat) (s : pool) : pool :=
  mkPool (now s) (mTasks s) (mJoining s) (holder s) (workers s) (joiners s) (states s) (cancellers s) (pushers s) (executed s) x (cancelled s).
Definition set_cancelled (x : list nat) (s : pool) : pool :=
  mkPool (now s) (mTasks s) (mJoining s) (holder s) (workers s) (joiners s) (states s) (cancellers s) (pushers s) (executed s) (ended s) x.

(** ** Steps *)

Inductive label :=
| LWorker (i n : nat)                (* worker [i] goes on; [n]: the task on top of the queue *)
| LWake (i : nat)                    (* the wait of worker [i] ends: its time has come, or for no reason *)
| LTick (t : Z)                      (* the clock advances to [t] *)
| LSchedule (id : nat) (t : Z) (v : option nat)    (* schedule; [v]: the worker that is notified *)
| LBuild (id : nat)                  (* buildTask *)
| LPushLoad (k id : nat) | LPushSet (k : nat) | LPushQueue (k : nat) (v : option nat)   (* pushTask *)
| LCancelLoad (k id : nat) | LCancelSet (k : nat)  (* cancelTask *)
| LSpawn (n : nat)
| LJoin (j : nat) | LJoinStep (j : nat).

(** [setStatus]: the state afterwards is [st], whether or not it was before. *)
Definition setStatus (id : nat) (st : TaskState) (s : pool) : pool := set_states (<[id := st]> (states s)) s.

Definition goto (i : nat) (pc : worker_pc) (s : pool) : pool := set_workers (<[i := pc]> (workers s)) s.
Definition unlock (s : pool) : pool := set_holder None s.

Definition is_waiting (pc : worker_pc) : bool := match pc with WWaiting _ => true | _ => false end.
Definition wake (pc : worker_pc) : worker_pc := match pc with WWaiting _ => WWoken | _ => pc end.

(** [mCondition.notify_one()] wakes one waiting worker, if there is one. *)
Definition notify_one (v : option nat) (s : pool) : option pool :=
  match v with
  | Some i => match workers s !! i with
              | Some (WWaiting _) => Some (goto i WWoken s)
              | _ => None
              end
  | None => if existsb is_waiting (workers s) then None else Some s
  end.
Definition notify_all (s : pool) : pool := set_workers (wake <$> workers s) s.

(** [mTasks.top()]: a task with the least time. *)
Definition top (n : nat) (q : list (Z * nat)) : option (Z * nat) :=
  x ← q !! n; if forallb (fun y => x.1 <=? y.1) q then Some x else None.

(** The loop of [dequeue], with the lock, up to the test of [mJoining]. *)
Definition dequeue (i n : nat) (s : pool) : option pool :=
  match mTasks s with
  | [] => Some (goto i (WTest None) s)
  | _ => x ← top n (mTasks s);
         if x.1 <=? now s then Some (goto i (WTask x.2 RLoad) (unlock (set_mTasks (delete n (mTasks s)) s)))
         else Some (goto i (WTest (Some x.1)) s)
  end.

(** [ThreadPoolFutureInterface::run] *)
Definition run_task (i id : nat) (p : run_pc) (s : pool) : pool :=
  match p with
  | RLoad => goto i (WTask id (if decide (states s !! id = Some TASK_WAIT_START) then RStart else RFinish)) s
  | RStart => goto i (WTask id RBody) (setStatus id TASK_RUNNING s)
  | RBody => goto i (WTask id RFinish) (set_executed (executed s ++ [id]) s)
  | RFinish => goto i WOutside (set_ended (ended s ++ [id]) (setStatus id TASK_FINISHED s))
  end.

(** [ThreadPool::run] and [runOne] *)
Definition worker_step (i n : nat) (s : pool) : option pool :=
  match workers s !! i with
  | Some WOutside | Some WWoken =>
      match holder s with None => Some (goto i WLocked (set_holder (Some i) s)) | Some _ => None end
  | Some WLocked => dequeue i n s
  | Some (WTest u) => if mJoining s then Some (goto i WExit (unlock s)) else Some (goto i (WDecided u) s)
  | Some (WDecided u) => Some (goto i (WWaiting u) (unlock s))
  | Some (WTask id p) => Some (run_task i id p s)
  | Some (WWaiting _) | Some WExit | None => None
  end.

Definition workers_locked (s : pool) : bool := negb (bool_decide (map_Forall (fun _ p => p <> JWait) (joiners s))).

(** [join] *)
Definition join_step (j : nat) (s : pool) : option pool :=
  let at_pc pc s := set_joiners (<[j := pc]> (joiners s)) s in
  match joiners s !! j with
  | Some JSet => Some (at_pc JNotify (set_mJoining true s))
  | Some JNotify => match holder s with None => Some (at_pc JLock (notify_all s)) | Some _ => None end
  | Some JLock => if workers_locked s then None else Some (at_pc JWait s)
  | Some JWait => if decide (Forall (fun pc => pc = WExit) (workers s))
                  then Some (at_pc JDone (set_workers [] s)) else None
  | Some JDone | None => None
  end.

Definition step (l : label) (s : pool) : option pool :=
  match l with
  | LWorker i n => worker_step i n s
  | LWake i => match workers s !! i with
               | Some (WWaiting _) => Some (goto i WWoken s)
               | _ => None
               end
  | LTick t => if now s <=? t then Some (set_now t s) else None
  | LSchedule id t v =>
      match holder s, states s !! id with
      | None, None => notify_one v (set_mTasks (mTasks s ++ [(t, id)]) (setStatus id TASK_WAIT_START s))
      | _, _ => None
      end
  | LBuild id => match states s !! id with None => Some (setStatus id TASK_INIT s) | Some _ => None end
  | LPushLoad k id =>
      match pushers s !! k, states s !! id with
      | None, Some TASK_INIT => Some (set_pushers (<[k := (id, PSet)]> (pushers s)) s)
      | None, Some _ => Some s
      | _, _ => None
      end
  | LPushSet k =>
      match pushers s !! k with
      | Some (id, PSet) => Some (set_pushers (<[k := (id, PQueue)]> (pushers s)) (setStatus id TASK_WAIT_START s))
      | _ => None
      end
  | LPushQueue k v =>
      match pushers s !! k, holder s with
      | Some (id, PQueue), None =>
          notify_one v (set_mTasks (mTasks s ++ [(now s, id)]) (set_pushers (delete k (pushers s)) s))
      | _, _ => None
      end
  | LCancelLoad k id =>
      match cancellers s !! k, states s !! id with
      | None, Some TASK_WAIT_START => Some (set_cancellers (<[k := id]> (cancellers s)) s)
      | None, Some _ => Some s
      | _, _ => None
      end
  | LCancelSet k =>
      match cancellers s !! k with
      | Some id => Some (set_cancelled (cancelled s ++ [id])
                           (set_cancellers (delete k (cancellers s)) (setStatus id TASK_CANCELLED s)))
      | None => None
      end
  | LSpawn n =>
      if workers_locked s then None
      else Some (set_workers (workers s ++ replicate n WOutside) (set_mJoining false s))
  | LJoin j =>
      match joiners s !! j with
      | None | Some JDone => Some (set_joiners (<[j := if mJoining s then JDone else JSet]> (joiners s)) s)
      | Some _ => None
      end
  | LJoinStep j => join_step j s
  end.

Fixpoint run (ls : list label) (s : pool) : option pool :=
  match ls with [] => Some s | l :: ls' => s' ← step l s; run ls' s' end.

(** [schedule] with a priority: a time in the past, earlier for a lower number;
    times are counted in units of which an hour has [hour]. *)
Definition priority_time (hour t priority : Z) : Z :=
  let priority := if 10 <? priority then 10 else priority in
  t - 10 * hour + hour * priority.

(** A pool as it is constructed. *)
Definition new_pool (t : Z) : pool := mkPool t [] false None [] ∅ ∅ ∅ ∅ [] [] [].

(** Clients do not call [spawn] during a [join], nor [pushTask] on a task that
    another thread is pushing: [pushTask] tests the state and sets it in two steps, so that two
    threads can both find the task new (see [push_race]). *)
Definition allowed (s : pool) (l : label) : bool :=
  match l with
  | LSpawn _ => bool_decide (map_Forall (fun _ p => p = JDone) (joiners s))
  | LPushLoad _ id => bool_decide (map_Forall (fun _ x => x.1 <> id) (pushers s))
  | _ => true
  end.

Inductive reachable : pool -> Prop :=
| reachable_new t : reachable (new_pool t)
| reachable_step s l s' : reachable s -> allowed s l = true -> step l s = Some s' -> reachable s'.

(** ** Synchronisation *)

Definition locked (pc : worker_pc) : bool :=
  match pc with WLocked | WTest _ | WDecided _ => true | _ => false end.
Definition dozing (pc : worker_pc) : bool :=
  match pc with WDecided _ | WWaiting _ => true | _ => false end.

(** The worker that holds the lock is the one that is between taking and
    releasing it; once [join] has notified, [mJoining] is set and no worker waits
    or is about to. *)
Record sync (s : pool) : Prop := mkSync {
  sync_holder : forall i, holder s = Some i <-> exists pc, workers s !! i = Some pc /\ locked pc = true;
  sync_joining : forall j p, joiners s !! j = Some p -> p = JNotify \/ p = JLock \/ p = JWait -> mJoining s = true;
  sync_awake : forall j p, joiners s !! j = Some p -> p = JLock \/ p = JWait ->
      Forall (fun pc => dozing pc = false) (workers s)
}.

Lemma insert_iff {A} (l : list A) i x y j z :
  l !! i = Some x -> <[i := y]> l !! j = Some z <-> (j = i /\ z = y) \/ (j <> i /\ l !! j = Some z).
Proof.
  intros E. destruct (decide (j = i)) as [->|n].
  - rewrite list_lookup_insert_eq by (by apply lookup_lt_Some in E). naive_solver.
  - rewrite list_lookup_insert_ne by done. naive_solver.
Qed.

(** A worker that neither takes nor releases the lock. *)
Lemma sync_goto i pc pc' s :
  sync s -> workers s !! i = Some pc -> locked pc' = locked pc -> (dozing pc' = true -> mJoining s = false \/ dozing pc = true) ->
  sync (goto i pc' s).
Proof.
  intros [H1 H2 H3] E El Ed. constructor; cbn; [|done|].
  - intros j. rewrite H1. split; intros (x & Ex & Hx).
    + destruct (decide (j = i)) as [->|n].
      * exists pc'. rewrite (insert_iff _ _ _ _ _ _ E). split; [by left|]. congruence.
      * exists x. rewrite (insert_iff _ _ _ _ _ _ E). auto.
    + apply (insert_iff _ _ _ _ _ _ E) in Ex as [[-> ->]|[? Ex]]; [exists pc|exists x]; split; congruence.
  - intros j p Ej Hp. apply Forall_insert; [by eapply H3|].
    destruct (dozing pc') eqn:Ex; [|done]. destruct (Ed eq_refl) as [Ed'|Ed'].
    + rewrite (H2 _ _ Ej) in Ed' by naive_solver. done.
    + pose proof (H3 _ _ Ej Hp) as HF. eapply Forall_lookup_1 in HF; [|done]. congruence.
Qed.

(** A worker that takes the lock, that releases it. *)
Lemma sync_lock i pc pc' s :
  sync s -> workers s !! i = Some pc -> holder s = None -> locked pc' = true -> dozing pc' = false ->
  sync (goto i pc' (set_holder (Some i) s)).
Proof.
  intros [H1 H2 H3] E Eh El Ed. constructor; cbn; [|done|].
  - intros j. split.
    + intros [= <-]. exists pc'. rewrite (insert_iff _ _ _ _ _ _ E). auto.
    + intros (x & Ex & Hx). apply (insert_iff _ _ _ _ _ _ E) in Ex as [[-> ->]|[? Ex]]; [done|].
      assert (holder s = Some j) by (apply H1; eauto). congruence.
  - intros j p Ej Hp. apply Forall_insert; [by eapply H3|done].
Qed.

Lemma sync_unlock i pc pc' s :
  sync s -> workers s !! i = Some pc -> locked pc = true -> locked pc' = false ->
  (dozing pc' = true -> mJoining s = false \/ dozing pc = true) ->
  sync (goto i pc' (unlock s)).
Proof.
  intros [H1 H2 H3] E El El' Ed. assert (Eh : holder s = Some i) by (apply H1; eauto).
  constructor; cbn; [|done|].
  - intros j. split; [done|]. intros (x & Ex & Hx).
    apply (insert_iff _ _ _ _ _ _ E) in Ex as [[-> ->]|[n Ex]]; [congruence|].
    assert (holder s = Some j) by (apply H1; eauto). congruence.
  - intros j p Ej Hp. apply Forall_insert; [by eapply H3|].
    destruct (dozing pc') eqn:Ex; [|done]. destruct (Ed eq_refl) as [Ed'|Ed'].
    + rewrite (H2 _ _ Ej) in Ed' by naive_solver. done.
    + pose proof (H3 _ _ Ej Hp) as HF. eapply Forall_lookup_1 in HF; [|done]. congruence.
Qed.

Lemma sync_same s s' :
  holder s' = holder s -> workers s' = workers s -> joiners s' = joiners s -> mJoining s' = mJoining s ->
  sync s -> sync s'.
Proof. intros E1 E2 E3 E4 [H1 H2 H3]. constructor; rewrite ?E1, ?E2, ?E3, ?E4; done. Qed.

Lemma sync_notify_one v s s' : sync s -> notify_one v s = Some s' -> sync s'.
Proof.
  intros Hs. unfold notify_one. destruct v as [i|].
  - destruct (workers s !! i) as [[]|] eqn:E; try done. intros [= <-]. by eapply sync_goto.
  - destruct (existsb _ _); [done|]. by intros [= <-].
Qed.

Lemma locked_wake pc : locked (wake pc) = locked pc.
Proof. by destruct pc. Qed.

Lemma sync_dequeue i n s s' :
  sync s -> workers s !! i = Some WLocked -> dequeue i n s = Some s' -> sync s'.
Proof.
  intros Hs E. unfold dequeue. destruct (mTasks s) as [|y q] eqn:Eq.
  { intros [= <-]. by eapply sync_goto. }
  destruct (top n (y :: q)) as [x|]; [|done]. cbn [mbind option_bind]. destruct (x.1 <=? now s); intros [= <-].
  - eapply sync_unlock; [|done|done|done|done]. by apply (sync_same s).
  - by eapply sync_goto.
Qed.

Lemma sync_run_task i id p s : sync s -> workers s !! i = Some (WTask id p) -> sync (run_task i id p s).
Proof.
  intros Hs E. destruct p; cbn; (eapply sync_goto; [|done|done|done]); done || by apply (sync_same s).
Qed.

Lemma sync_worker i n s s' : sync s -> worker_step i n s = Some s' -> sync s'.
Proof.
  intros Hs. unfold worker_step. destruct (workers s !! i) as [[]|] eqn:E; try done.
  - destruct (holder s) eqn:Eh; [done|]. intros [= <-]. by eapply sync_lock.
  - by apply sync_dequeue.
  - destruct (mJoining s) eqn:Ej; intros [= <-]; [by eapply sync_unlock|].
    eapply sync_goto; [done|done|done|by left].
  - intros [= <-]. eapply sync_unlock; [done|done|done|done|]. by right.
  - destruct (holder s) eqn:Eh; [done|]. intros [= <-]. by eapply sync_lock.
  - intros [= <-]. by apply sync_run_task.
Qed.

Lemma sync_join_step j s s' : sync s -> join_step j s = Some s' -> sync s'.
Proof.
  intros Hs. pose proof Hs as [H1 H2 H3]. unfold join_step. destruct (joiners s !! j) as [[]|] eqn:E; try done.
  - intros [= <-]. constructor; cbn; [done|done|].
    intros k p [[<- <-]|[? Ek]]%lookup_insert_Some; [naive_solver|by eapply H3].
  - destruct (holder s) eqn:Eh; [done|]. intros [= <-]. constructor; cbn.
    + intros i. rewrite Eh. split; [done|]. intros (pc & Epc & Hl).
      rewrite list_lookup_fmap in Epc. apply fmap_Some in Epc as (pc0 & Epc0 & ->).
      rewrite locked_wake in Hl. by assert (None = Some i) by (apply H1; eauto).
    + intros k p [[<- <-]|[? Ek]]%lookup_insert_Some Hp; [eapply H2; eauto|by eapply H2].
    + intros _ _ _ _. apply Forall_fmap, Forall_lookup. intros i pc Epc. cbn.
      destruct pc; try done. by assert (None = Some i) by (apply H1; eauto).
  - destruct (workers_locked s); [done|]. intros [= <-]. constructor; cbn; [done|..].
    + intros k p [[<- <-]|[? Ek]]%lookup_insert_Some Hp; [eapply H2; eauto|by eapply H2].
    + intros k p [[<- <-]|[? Ek]]%lookup_insert_Some Hp; [eapply H3; eauto|by eapply H3].
  - destruct (decide _) as [Hall|]; [|done]. intros [= <-]. constructor; cbn.
    + intros i. rewrite H1. split; [|by intros (? & ? & _)]. intros (pc & Epc & Hl).
      eapply Forall_lookup_1 in Hall; [|done]. by subst.
    + intros k p [[<- <-]|[? Ek]]%lookup_insert_Some Hp; [naive_solver|by eapply H2].
    + intros. constructor.
Qed.

Lemma sync_step l s s' : sync s -> allowed s l = true -> step l s = Some s' -> sync s'.
Proof.
  intros Hs Hal. destruct l; cbn [step]; intros E.
  - by eapply sync_worker.
  - destruct (workers s !! i) as [[]|] eqn:Ei; try done. injection E as <-. by eapply sync_goto.
  - case_match; simplify_eq. by apply (sync_same s).
  - case_match; [done|]. case_match; [done|]. eapply sync_notify_one; [|done]. by apply (sync_same s).
  - case_match; simplify_eq. by apply (sync_same s).
  - repeat case_match; simplify_eq; try done; by apply (sync_same s).
  - repeat case_match; simplify_eq; by apply (sync_same s).
  - repeat case_match; simplify_eq. eapply sync_notify_one; [|done]. by apply (sync_same s).
  - repeat case_match; simplify_eq; try done; by apply (sync_same s).
  - repeat case_match; simplify_eq; by apply (sync_same s).
  - destruct (workers_locked s); simplify_eq. apply bool_decide_eq_true in Hal. destruct Hs as [H1 H2 H3].
    constructor; cbn.
    + intros i. rewrite H1. split; intros (pc & Epc & Hl); exists pc; (split; [|done]).
      * by apply lookup_app_l_Some.
      * apply lookup_app_Some in Epc as [?|[_ Epc]]; [done|]. by apply lookup_replicate in Epc as [-> _].
    + intros j p Ej Hp. pose proof (Hal _ _ Ej). naive_solver.
    + intros j p Ej Hp. pose proof (Hal _ _ Ej). naive_solver.
  - destruct Hs as [H1 H2 H3]. destruct (joiners s !! j) as [[]|] eqn:Ej; simplify_eq; constructor; cbn; try done;
      intros k p [[<- <-]|[? Ek]]%lookup_insert_Some Hp; eauto; destruct (mJoining s); naive_solver.
  - by eapply sync_join_step.
Qed.

Lemma sync_reachable s : reachable s -> sync s.
Proof.
  induction 1 as [t|s l s' _ IH Hal E]; [|by eapply sync_step].
  constructor; cbn.
  - intros i. split; [done|]. by intros (? & ? & _).
  - intros j p. by rewrite lookup_empty.
  - constructor.
Qed.

(** ** Tasks *)

Definition held_of (pc : worker_pc) : list nat := match pc with WTask id _ => [id] | _ => [] end.
Definition held (ws : list worker_pc) : list nat := flat_map held_of ws.
Definition pending (s : pool) : list nat := (mTasks s).*2.
Definition all_tasks (s : pool) : list nat := pending s ++ held (workers s) ++ ended s.

(** A task that has been accepted and not yet started. *)
Definition startable (o : option TaskState) : Prop := o = Some TASK_WAIT_START \/ o = Some TASK_CANCELLED.

(** Every accepted task is in one place; the one the text of the fields says
    about its state, its execution and its cancellation. *)
Record tasks_ok (s : pool) : Prop := mkTasksOk {
  tk_once : NoDup (all_tasks s);
  tk_known : forall id, id ∈ all_tasks s -> is_Some (states s !! id) /\ states s !! id <> Some TASK_INIT;
  tk_push : forall k id p, pushers s !! k = Some (id, p) -> id ∉ all_tasks s /\
      match p with PSet => states s !! id = Some TASK_INIT | PQueue => startable (states s !! id) end;
  tk_push_one : forall k k' id p p', pushers s !! k = Some (id, p) -> pushers s !! k' = Some (id, p') -> k = k';
  tk_canceller : forall k id, cancellers s !! k = Some id ->
      is_Some (states s !! id) /\ states s !! id <> Some TASK_INIT;
  tk_pending : forall id, id ∈ pending s -> startable (states s !! id);
  tk_held : forall i id p, workers s !! i = Some (WTask id p) ->
      match p with
      | RLoad | RStart => startable (states s !! id)
      | RBody => True
      | RFinish => id ∈ executed s \/ id ∈ cancelled s
      end;
  tk_cancelled : forall id, states s !! id = Some TASK_CANCELLED -> id ∈ cancelled s;
  tk_executed_once : NoDup (executed s);
  tk_executed : forall id, id ∈ executed s -> id ∈ ended s \/ exists i, workers s !! i = Some (WTask id RFinish);
  tk_ended : forall id, id ∈ ended s -> id ∈ executed s \/ id ∈ cancelled s
}.

Lemma elem_of_held ws id : id ∈ held ws <-> exists i p, ws !! i = Some (WTask id p).
Proof.
  unfold held. rewrite list_elem_of_In, in_flat_map. split.
  - intros (pc & Hin & Hid). apply list_elem_of_In, list_elem_of_lookup in Hin as [i Hi].
    destruct pc; cbn in Hid; try done. destruct Hid as [->|[]]. eauto.
  - intros (i & p & Hi). exists (WTask id p). split; [|by left].
    apply list_elem_of_In. by eapply list_elem_of_lookup_2.
Qed.

Lemma held_insert ws i pc pc' :
  ws !! i = Some pc -> held (<[i := pc']> ws) ++ held_of pc ≡ₚ held_of pc' ++ held ws.
Proof.
  unfold held. revert i. induction ws as [|x ws IH]; intros [|i] E; cbn in *; try done.
  - injection E as ->. solve_Permutation.
  - specialize (IH i E). rewrite <- app_assoc, IH. solve_Permutation.
Qed.

Lemma held_insert_same ws i pc pc' :
  ws !! i = Some pc -> held_of pc' = held_of pc -> held (<[i := pc']> ws) = held ws.
Proof.
  unfold held. revert i. induction ws as [|x ws IH]; intros [|i] E Eh; cbn in *; try done.
  - injection E as ->. by rewrite Eh.
  - f_equal. by apply IH.
Qed.

Lemma held_once ws i i' id p p' :
  NoDup (held ws) -> ws !! i = Some (WTask id p) -> ws !! i' = Some (WTask id p') -> i = i'.
Proof.
  revert i i'. induction ws as [|x ws IH]; intros i i'; [done|]. cbn. intros Hn.
  assert (Hx : forall q, x = WTask id q -> id ∉ held ws).
  { intros q ->. cbn in Hn. by apply NoDup_cons in Hn as [? _]. }
  apply NoDup_app in Hn as (_ & _ & Hn).
  destruct i as [|i], i' as [|i']; cbn; intros E E'; [done|..].
  - injection E as ->. destruct (Hx _ eq_refl). apply elem_of_held. eauto.
  - injection E' as ->. destruct (Hx _ eq_refl). apply elem_of_held. eauto.
  - f_equal. by apply IH.
Qed.

(** Two states that agree on everything the tasks depend on. *)
Lemma tasks_same s s' :
  mTasks s' = mTasks s -> held (workers s') = held (workers s) ->
  (forall i id p, workers s' !! i = Some (WTask id p) <-> workers s !! i = Some (WTask id p)) ->
  states s' = states s -> cancellers s' = cancellers s -> pushers s' = pushers s ->
  executed s' = executed s -> ended s' = ended s -> cancelled s' = cancelled s ->
  tasks_ok s -> tasks_ok s'.
Proof.
  intros E1 E2 E3 E4 E5 E6 E7 E8 E9 [].
  assert (Ea : all_tasks s' = all_tasks s) by (unfold all_tasks, pending; by rewrite E1, E2, E8).
  constructor; rewrite ?Ea, ?E4, ?E5, ?E6, ?E7, ?E8, ?E9; try done.
  - unfold pending. by rewrite E1.
  - intros i id p Ei%E3. by eapply tk_held0.
  - intros id [?|[i Ei]]%tk_executed0; [by left|right; exists i; by apply E3].
Qed.

Lemma tasks_goto i pc pc' s :
  tasks_ok s -> workers s !! i = Some pc -> held_of pc = [] -> held_of pc' = [] -> tasks_ok (goto i pc' s).
Proof.
  intros Ht E Ep Ep'. apply (tasks_same s); try done; cbn.
  - apply (held_insert_same _ _ _ _ E). congruence.
  - intros j id p. rewrite (insert_iff _ _ _ _ _ _ E). split.
    + intros [[-> <-]|[_ ?]]; [done|done].
    + intros Ej. right. split; [|done]. intros ->. assert (pc = WTask id p) as -> by congruence. done.
Qed.

Lemma tasks_notify_one v s s' : tasks_ok s -> notify_one v s = Some s' -> tasks_ok s'.
Proof.
  intros Hs. unfold notify_one. destruct v as [i|].
  - destruct (workers s !! i) as [[]|] eqn:E; try done. intros [= <-]. by eapply tasks_goto.
  - destruct (existsb _ _); [done|]. by intros [= <-].
Qed.

Definition pc_ok (id : nat) (p : run_pc) (s : pool) : Prop :=
  match p with
  | RLoad | RStart => startable (states s !! id)
  | RBody => True
  | RFinish => id ∈ executed s \/ id ∈ cancelled s
  end.

Lemma held_member s i id p : workers s !! i = Some (WTask id p) -> id ∈ all_tasks s.
Proof. intros E. apply elem_of_app. right. apply elem_of_app. left. apply elem_of_held. eauto. Qed.

Lemma once_split s :
  tasks_ok s -> NoDup (held (workers s)) /\
  (forall id, id ∈ held (workers s) -> id ∉ pending s /\ id ∉ ended s) /\
  (forall id, id ∈ pending s -> id ∉ ended s).
Proof.
  intros []. apply NoDup_app in tk_once0 as (_ & H1 & H2). apply NoDup_app in H2 as (Hn & H2 & _).
  split_and!; [done| |].
  - intros id Hh. split; [|by apply H2]. intros Hp. apply (H1 _ Hp). apply elem_of_app. by left.
  - intros id Hp He. apply (H1 _ Hp). apply elem_of_app. by right.
Qed.

(** A worker goes on in [run]. *)
Lemma tasks_goto_task i id p p' s :
  tasks_ok s -> workers s !! i = Some (WTask id p) -> p <> RFinish -> pc_ok id p' s ->
  tasks_ok (goto i (WTask id p') s).
Proof.
  intros Ht E Hp Hp'. pose proof Ht as [].
  assert (Eh : held (workers (goto i (WTask id p') s)) = held (workers s)) by (by eapply held_insert_same).
  assert (Ea : all_tasks (goto i (WTask id p') s) = all_tasks s) by (unfold all_tasks; by rewrite Eh).
  constructor; rewrite ?Ea; try done; cbn.
  - intros j x q [[-> [= -> ->]]|[_ Ej]]%(insert_iff _ _ _ _ _ _ E); [done|by eapply tk_held0].
  - intros x [?|[j Ej]]%tk_executed0; [by left|right]. exists j. apply (insert_iff _ _ _ _ _ _ E). right.
    split; [|done]. intros ->. congruence.
Qed.

(** The state of a task in the hands of a worker changes. *)
Lemma tasks_setStatus_held i id p st s :
  tasks_ok s -> workers s !! i = Some (WTask id p) -> p = RBody \/ p = RFinish ->
  st = TASK_RUNNING \/ st = TASK_FINISHED -> tasks_ok (setStatus id st s).
Proof.
  intros Ht E Hp Hst. pose proof Ht as []. destruct (once_split s Ht) as (Hn & Hh & _).
  assert (Hid : id ∈ all_tasks s) by by eapply held_member.
  assert (Hne : id ∉ pending s) by (apply Hh; apply elem_of_held; eauto).
  assert (Hknown : forall x, is_Some (states s !! x) /\ states s !! x <> Some TASK_INIT ->
            is_Some (<[id := st]> (states s) !! x) /\ <[id := st]> (states s) !! x <> Some TASK_INIT).
  { intros x. destruct (decide (id = x)) as [<-|n]; [rewrite lookup_insert_eq|by rewrite lookup_insert_ne].
    intros _. split; [eauto|]. by destruct Hst as [-> | ->]. }
  constructor; try done; cbn.
  - intros x Hx. by apply Hknown, tk_known0.
  - intros k x q Hk. destruct (tk_push0 _ _ _ Hk) as [Hnx Hq]. split; [done|].
    rewrite lookup_insert_ne by (by intros <-). done.
  - intros k x Hk. by eapply Hknown, tk_canceller0.
  - intros x Hx. rewrite lookup_insert_ne by (by intros <-). by apply tk_pending0.
  - intros j x q Ej. specialize (tk_held0 _ _ _ Ej). destruct (decide (id = x)) as [<-|n].
    + assert (i = j) as <- by by eapply held_once. assert (q = p) as -> by congruence.
      by destruct Hp as [-> | ->].
    + by destruct q; rewrite ?lookup_insert_ne.
  - intros x. destruct (decide (id = x)) as [<-|n]; [rewrite lookup_insert_eq|rewrite lookup_insert_ne by done; auto].
    by destruct Hst as [-> | ->].
Qed.

Lemma tasks_execute i id s :
  tasks_ok s -> workers s !! i = Some (WTask id RBody) ->
  tasks_ok (goto i (WTask id RFinish) (set_executed (executed s ++ [id]) s)).
Proof.
  intros Ht E. pose proof Ht as []. destruct (once_split s Ht) as (Hn & Hh & _).
  assert (Hid : id ∈ held (workers s)) by (apply elem_of_held; eauto).
  set (s' := goto _ _ _).
  assert (Eh : held (workers s') = held (workers s)) by (by eapply held_insert_same).
  assert (Ea : all_tasks s' = all_tasks s) by (unfold all_tasks; by rewrite Eh).
  assert (Hfresh : id ∉ executed s).
  { intros [He|[j Ej]]%tk_executed0; [by apply (Hh id Hid)|]. assert (i = j) as <- by by eapply held_once. congruence. }
  constructor; rewrite ?Ea; try done; cbn.
  - intros j x q [[-> [= -> ->]]|[_ Ej]]%(insert_iff _ _ _ _ _ _ E).
    + left. apply elem_of_app. right. by left.
    + specialize (tk_held0 _ _ _ Ej). destruct q; try done. destruct tk_held0; [left; apply elem_of_app|]; auto.
  - apply NoDup_app. split_and!; [done| |apply NoDup_singleton]. by intros x Hx ->%list_elem_of_singleton.
  - intros x [Hx| ->%list_elem_of_singleton]%elem_of_app.
    + destruct (tk_executed0 _ Hx) as [?|[j Ej]]; [by left|right]. exists j.
      apply (insert_iff _ _ _ _ _ _ E). right. split; [|done]. intros ->. congruence.
    + right. exists i. apply (insert_iff _ _ _ _ _ _ E). auto.
  - intros x [?|?]%tk_ended0; [left; apply elem_of_app|]; auto.
Qed.

Lemma tasks_end i id s :
  tasks_ok s -> workers s !! i = Some (WTask id RFinish) ->
  tasks_ok (goto i WOutside (set_ended (ended s ++ [id]) s)).
Proof.
  intros Ht E. pose proof Ht as []. set (s' := goto _ _ _).
  assert (Ea : all_tasks s' ≡ₚ all_tasks s).
  { unfold all_tasks, pending; cbn. pose proof (held_insert _ _ _ WOutside E) as Eh. cbn in Eh.
    rewrite <- Eh. solve_Permutation. }
  constructor; try done; [by rewrite Ea|intros x0; rewrite Ea; apply tk_known0|intros k x0 q; rewrite Ea; apply tk_push0|..]; cbn.
  - intros j x q [[_ [=]]|[_ Ej]]%(insert_iff _ _ _ _ _ _ E). by eapply tk_held0.
  - intros x Hx. destruct (tk_executed0 _ Hx) as [?|[j Ej]]; [left; apply elem_of_app; by left|].
    destruct (decide (j = i)) as [->|n].
    + left. apply elem_of_app. right. assert (x = id) as -> by congruence. by left.
    + right. exists j. apply (insert_iff _ _ _ _ _ _ E). auto.
  - intros x [?| ->%list_elem_of_singleton]%elem_of_app; [by apply tk_ended0|].
    by apply (tk_held0 _ _ _ E).
Qed.

Lemma tasks_run_task i id p s : tasks_ok s -> workers s !! i = Some (WTask id p) -> tasks_ok (run_task i id p s).
Proof.
  intros Ht E. destruct p; cbn.
  - apply (tasks_goto_task i id RLoad); try done. pose proof (tk_held _ Ht _ _ _ E) as Hs. cbn in Hs.
    destruct (decide _) as [|n]; [done|]. destruct Hs as [?|Hc]; [done|]. right. by apply (tk_cancelled _ Ht).
  - change (tasks_ok (setStatus id TASK_RUNNING (goto i (WTask id RBody) s))).
    eapply (tasks_setStatus_held i id RBody); [by apply (tasks_goto_task i id RStart)| |by left|by left].
    cbn. apply (insert_iff _ _ _ _ _ _ E). by left.
  - by apply tasks_execute.
  - apply (tasks_end i id (setStatus id TASK_FINISHED s)); [|done].
    eapply (tasks_setStatus_held i id RFinish); [done|done|by right|by right].
Qed.

Lemma tasks_pop i n x s :
  tasks_ok s -> workers s !! i = Some WLocked -> mTasks s !! n = Some x ->
  tasks_ok (goto i (WTask x.2 RLoad) (unlock (set_mTasks (delete n (mTasks s)) s))).
Proof.
  intros Ht E En. pose proof Ht as []. set (s' := goto _ _ _).
  pose proof (delete_Permutation _ _ _ En) as Eq.
  assert (Ea : all_tasks s' ≡ₚ all_tasks s).
  { unfold all_tasks, pending; cbn. pose proof (held_insert _ _ _ (WTask x.2 RLoad) E) as Eh. cbn in Eh.
    rewrite app_nil_r in Eh. rewrite Eh. rewrite Eq at 2. cbn. solve_Permutation. }
  constructor; try done; [by rewrite Ea|intros x0; rewrite Ea; apply tk_known0|intros k x0 q; rewrite Ea; apply tk_push0|..]; cbn.
  - intros id Hid. apply tk_pending0. unfold pending in *; cbn in Hid. rewrite Eq. by right.
  - intros j id q [[-> [= -> ->]]|[_ Ej]]%(insert_iff _ _ _ _ _ _ E); [|by eapply tk_held0].
    apply tk_pending0. unfold pending. rewrite Eq. by left.
  - intros id [?|[j Ej]]%tk_executed0; [by left|right]. exists j.
    apply (insert_iff _ _ _ _ _ _ E). right. split; [|done]. intros ->. congruence.
Qed.

Lemma startable_known o : startable o -> is_Some o /\ o <> Some TASK_INIT.
Proof. intros [-> | ->]; split; eauto; done. Qed.

Lemma tasks_enqueue t id s :
  tasks_ok s -> id ∉ all_tasks s -> startable (states s !! id) -> (forall k p, pushers s !! k <> Some (id, p)) ->
  tasks_ok (set_mTasks (mTasks s ++ [(t, id)]) s).
Proof.
  intros Ht Hid Hst Hp. pose proof Ht as []. set (s' := set_mTasks _ _).
  assert (Ea : all_tasks s' ≡ₚ id :: all_tasks s).
  { unfold all_tasks, pending; cbn. rewrite fmap_app. cbn. solve_Permutation. }
  constructor; try done.
  - rewrite Ea. by apply NoDup_cons.
  - intros x. rewrite Ea, elem_of_cons. intros [-> |Hx]; [by apply startable_known|by apply tk_known0].
  - intros k x q Hk. rewrite Ea, not_elem_of_cons. destruct (tk_push0 _ _ _ Hk) as [? ?].
    split_and!; try done. intros ->. by destruct (Hp k q).
  - intros x. unfold pending; cbn. rewrite fmap_app, elem_of_app. intros [Hx|Hx]; [by apply tk_pending0|].
    cbn in Hx. by apply list_elem_of_singleton in Hx as ->.
Qed.

(** A state is given to a task that has none, or was just built. *)
Lemma tasks_setStatus_fresh id st s :
  tasks_ok s -> states s !! id = None -> st <> TASK_CANCELLED -> tasks_ok (setStatus id st s).
Proof.
  intros Ht E Hst. pose proof Ht as [].
  assert (Hne : forall x, is_Some (states s !! x) -> id <> x) by (intros x [? ?] ->; congruence).
  constructor; try done; cbn.
  - intros x Hx. destruct (tk_known0 x Hx). rewrite lookup_insert_ne; auto.
  - intros k x q Hk. destruct (tk_push0 _ _ _ Hk) as [? Hq]. split; [done|].
    rewrite lookup_insert_ne; [done|]. apply Hne. destruct q; [rewrite Hq; eauto|by apply startable_known].
  - intros k x Hk. destruct (tk_canceller0 _ _ Hk). rewrite lookup_insert_ne; auto.
  - intros x Hx. pose proof (tk_pending0 _ Hx) as Hs. rewrite lookup_insert_ne; [done|].
    by apply Hne, startable_known.
  - intros i x q Hi. pose proof (held_member _ _ _ _ Hi) as Hx. destruct (tk_known0 _ Hx) as [? _].
    specialize (tk_held0 _ _ _ Hi). rewrite lookup_insert_ne; auto.
  - intros x. destruct (decide (id = x)) as [<-|n]; [rewrite lookup_insert_eq; congruence|].
    rewrite lookup_insert_ne; auto.
Qed.

Lemma tasks_push_load k id s :
  tasks_ok s -> pushers s !! k = None -> states s !! id = Some TASK_INIT ->
  map_Forall (fun _ x => x.1 <> id) (pushers s) -> tasks_ok (set_pushers (<[k := (id, PSet)]> (pushers s)) s).
Proof.
  intros Ht Ek E Hal. pose proof Ht as []. constructor; try done; cbn.
  - intros k' x q [[<- [= <- <-]]|[? Hk]]%lookup_insert_Some; [|by eapply tk_push0].
    split; [|done]. intros Hx. by destruct (tk_known0 _ Hx).
  - intros k1 k2 x q q' [[<- [= <- <-]]|[? H1]]%lookup_insert_Some [[<- [= <-]]|[? H2]]%lookup_insert_Some;
      [done| | |by eapply tk_push_one0].
    + by pose proof (Hal _ _ H2).
    + by pose proof (Hal _ _ H1).
Qed.

Lemma tasks_push_set k id s :
  tasks_ok s -> pushers s !! k = Some (id, PSet) ->
  tasks_ok (set_pushers (<[k := (id, PQueue)]> (pushers s)) (setStatus id TASK_WAIT_START s)).
Proof.
  intros Ht Ek. pose proof Ht as []. destruct (tk_push0 _ _ _ Ek) as [Hid E].
  assert (Hne : forall x, states s !! x <> Some TASK_INIT -> id <> x) by congruence.
  constructor; try done; cbn.
  - intros x Hx. destruct (tk_known0 x Hx). rewrite lookup_insert_ne; auto.
  - intros k' x q [[<- [= <- <-]]|[? Hk]]%lookup_insert_Some.
    + split; [done|]. rewrite lookup_insert_eq. by left.
    + destruct (tk_push0 _ _ _ Hk) as [? Hq]. split; [done|].
      rewrite lookup_insert_ne; [done|]. intros <-. by destruct (tk_push_one0 _ _ _ _ _ Ek Hk).
  - intros k1 k2 x q q' [[<- [= <- <-]]|[? H1]]%lookup_insert_Some [[<- [= <-]]|[? H2]]%lookup_insert_Some; eauto.
  - intros k' x Hk. destruct (tk_canceller0 _ _ Hk). rewrite lookup_insert_ne; auto.
  - intros x Hx. pose proof (tk_pending0 _ Hx) as Hs. rewrite lookup_insert_ne; [done|].
    by apply Hne, startable_known.
  - intros i x q Hi. pose proof (held_member _ _ _ _ Hi) as Hx. destruct (tk_known0 _ Hx) as [_ ?].
    specialize (tk_held0 _ _ _ Hi). rewrite lookup_insert_ne; auto.
  - intros x. destruct (decide (id = x)) as [<-|n]; [by rewrite lookup_insert_eq|rewrite lookup_insert_ne; auto].
Qed.

Lemma tasks_push_queue k id t s :
  tasks_ok s -> pushers s !! k = Some (id, PQueue) ->
  tasks_ok (set_mTasks (mTasks s ++ [(t, id)]) (set_pushers (delete k (pushers s)) s)).
Proof.
  intros Ht Ek. pose proof Ht as []. destruct (tk_push0 _ _ _ Ek) as [Hid E].
  apply (tasks_enqueue t id (set_pushers (delete k (pushers s)) s)); [|done|done|].
  - constructor; try done; cbn.
    + intros k' x q [_ Hk]%lookup_delete_Some. by eapply tk_push0.
    + intros k1 k2 x q q' [_ H1]%lookup_delete_Some [_ H2]%lookup_delete_Some. by eapply tk_push_one0.
  - cbn. intros k' q [n Hk]%lookup_delete_Some. by destruct (tk_push_one0 _ _ _ _ _ Ek Hk).
Qed.

Lemma tasks_cancel_set k id s :
  tasks_ok s -> cancellers s !! k = Some id ->
  tasks_ok (set_cancelled (cancelled s ++ [id]) (set_cancellers (delete k (cancellers s)) (setStatus id TASK_CANCELLED s))).
Proof.
  intros Ht Ek. pose proof Ht as []. destruct (tk_canceller0 _ _ Ek) as [Hs Hi].
  assert (Hstart : forall x, startable (states s !! x) -> startable (<[id := TASK_CANCELLED]> (states s) !! x)).
  { intros x. destruct (decide (id = x)) as [<-|n]; [rewrite lookup_insert_eq; by right|by rewrite lookup_insert_ne]. }
  assert (Hknown : forall x, is_Some (states s !! x) /\ states s !! x <> Some TASK_INIT ->
      is_Some (<[id := TASK_CANCELLED]> (states s) !! x) /\ <[id := TASK_CANCELLED]> (states s) !! x <> Some TASK_INIT).
  { intros x. destruct (decide (id = x)) as [<-|n]; [rewrite lookup_insert_eq; eauto|by rewrite lookup_insert_ne]. }
  constructor; try done; cbn.
  - intros x Hx. by apply Hknown, tk_known0.
  - intros k' x q Hk. destruct (tk_push0 _ _ _ Hk) as [? Hq]. split; [done|]. destruct q; [|by apply Hstart].
    rewrite lookup_insert_ne; [done|]. intros ->. done.
  - intros k' x [_ Hk]%lookup_delete_Some. by eapply Hknown, tk_canceller0.
  - intros x Hx. by apply Hstart, tk_pending0.
  - intros i x q Hx. specialize (tk_held0 _ _ _ Hx). destruct q; [by apply Hstart..|done|].
    destruct tk_held0; [by left|right; apply elem_of_app; by left].
  - intros x. rewrite elem_of_app. destruct (decide (id = x)) as [<-|n]; [right; by left|].
    rewrite lookup_insert_ne by done. auto.
  - intros x [?|?]%tk_ended0; [by left|right; apply elem_of_app; by left].
Qed.

Lemma tasks_dequeue i n s s' :
  tasks_ok s -> workers s !! i = Some WLocked -> dequeue i n s = Some s' -> tasks_ok s'.
Proof.
  intros Ht E. unfold dequeue. destruct (mTasks s) as [|y q] eqn:Eq.
  { intros [= <-]. by eapply tasks_goto. }
  unfold top. destruct ((y :: q) !! n) as [x|] eqn:En; [|done]. cbn [mbind option_bind].
  destruct (forallb _ _); [|done]. cbn [mbind option_bind]. destruct (x.1 <=? now s); intros [= <-].
  - rewrite <- Eq in *. by apply tasks_pop.
  - by eapply tasks_goto.
Qed.

Lemma tasks_worker i n s s' : tasks_ok s -> worker_step i n s = Some s' -> tasks_ok s'.
Proof.
  intros Hs. unfold worker_step. destruct (workers s !! i) as [[]|] eqn:E; try done.
  - destruct (holder s); [done|]. intros [= <-].
    eapply tasks_goto; [|done|done|done]. by apply (tasks_same s).
  - by apply tasks_dequeue.
  - destruct (mJoining s); intros [= <-]; (eapply tasks_goto; [|exact E|done|done]); done || by apply (tasks_same s).
  - intros [= <-]. eapply tasks_goto; [|done|done|done]. by apply (tasks_same s).
  - destruct (holder s); [done|]. intros [= <-].
    eapply tasks_goto; [|done|done|done]. by apply (tasks_same s).
  - intros [= <-]. by apply tasks_run_task.
Qed.

Lemma held_wake ws : held (wake <$> ws) = held ws.
Proof. unfold held. induction ws as [|[] ws IH]; cbn; congruence. Qed.

Lemma held_exit ws : Forall (fun pc => pc = WExit) ws -> held ws = [].
Proof. unfold held. induction 1 as [|x ws -> _ IH]; [done|]. by cbn. Qed.

Lemma flat_map_replicate_nil n : flat_map held_of (replicate n WOutside) = [].
Proof. by induction n. Qed.

Lemma tasks_join_step j s s' : tasks_ok s -> join_step j s = Some s' -> tasks_ok s'.
Proof.
  intros Hs. unfold join_step. destruct (joiners s !! j) as [[]|]; try done.
  - intros [= <-]. by apply (tasks_same s).
  - destruct (holder s); [done|]. intros [= <-]. apply (tasks_same s); try done; cbn; [apply held_wake|].
    intros i id p. rewrite list_lookup_fmap. destruct (workers s !! i) as [[]|]; cbn; naive_solver.
  - destruct (workers_locked s); [done|]. intros [= <-]. by apply (tasks_same s).
  - destruct (decide _) as [Hall|]; [|done]. intros [= <-]. apply (tasks_same s); try done; cbn.
    + by rewrite held_exit.
    + intros i id p. split; [done|]. intros E. by pose proof (Forall_lookup_1 _ _ _ _ Hall E).
Qed.

Lemma tasks_step l s s' : tasks_ok s -> allowed s l = true -> step l s = Some s' -> tasks_ok s'.
Proof.
  intros Hs Hal. destruct l; cbn [step]; intros E.
  - by eapply tasks_worker.
  - destruct (workers s !! i) as [[]|] eqn:Ei; try done. injection E as <-. by eapply tasks_goto.
  - case_match; simplify_eq. by apply (tasks_same s).
  - case_match; [done|]. destruct (states s !! id) eqn:Est; [done|].
    eapply tasks_notify_one; [|done].
    apply (tasks_enqueue t id (setStatus id TASK_WAIT_START s)).
    + by apply tasks_setStatus_fresh.
    + intros Hin. destruct (tk_known _ Hs _ Hin) as [[] _]. congruence.
    + cbn. rewrite lookup_insert_eq. by left.
    + intros k p Hk. destruct (tk_push _ Hs _ _ _ Hk) as [_ Hq].
      destruct p; [congruence|]. apply startable_known in Hq as [[] _]. congruence.
  - case_match; simplify_eq. by apply tasks_setStatus_fresh.
  - apply bool_decide_eq_true in Hal. repeat case_match; simplify_eq; try done. by apply tasks_push_load.
  - repeat case_match; simplify_eq. by apply tasks_push_set.
  - repeat case_match; simplify_eq. eapply tasks_notify_one; [|done]. by apply tasks_push_queue.
  - repeat case_match; simplify_eq; try done. destruct Hs. constructor; try done; cbn.
    intros k' x [[<- <-]|[_ Hk]]%lookup_insert_Some; [|by eapply tk_canceller0]. split; [eauto|congruence].
  - repeat case_match; simplify_eq. by apply tasks_cancel_set.
  - destruct (workers_locked s); simplify_eq. apply (tasks_same s); try done; cbn.
    + unfold held. rewrite flat_map_app. rewrite (flat_map_replicate_nil n). by rewrite app_nil_r.
    + intros i id p. rewrite lookup_app_Some. split; [|by left].
      intros [?|[_ Hi]]; [done|]. by apply lookup_replicate in Hi as [? _].
  - destruct (joiners s !! j) as [[]|]; simplify_eq; by apply (tasks_same s).
  - by eapply tasks_join_step.
Qed.

Lemma tasks_reachable s : reachable s -> tasks_ok s.
Proof.
  induction 1 as [t|s l s' _ IH Hal E]; [|by eapply tasks_step].
  constructor; cbn; try (intros *; rewrite lookup_empty); try done; try apply NoDup_nil_2.
  all: by intros Hid%elem_of_nil || intros id Hid%elem_of_nil.
Qed.

Lemma reachable_run ls s s' :
  reachable s -> run ls s = Some s' -> Forall (fun l => forall s, allowed s l = true) ls -> reachable s'.
Proof.
  revert s. induction ls as [|l ls IH]; cbn; intros s Hr E Hal; [by injection E as <-|].
  apply Forall_cons in Hal as [Hl Hal]. destruct (step l s) as [s1|] eqn:E1; [|done].
  apply (IH s1); [|done|done]. by eapply reachable_step.
Qed.

Lemma executed_not_queued s : tasks_ok s -> forall id, id ∈ executed s -> id ∉ (mTasks s).*2.
Proof.
  intros Ht. pose proof Ht as []. destruct (once_split s Ht) as (_ & Hh & Hp).
  intros id [He|[i Ei]]%tk_executed0 Hin.
  - by apply (Hp id).
  - destruct (Hh id); [|done]. apply elem_of_held. eauto.
Qed.

(** *** No task is lost *)

(** A task that [schedule] or [pushTask] took. *)
Definition accepted (s : pool) (id : nat) : Prop := is_Some (states s !! id) /\ states s !! id <> Some TASK_INIT.

(** The tasks whose state [pushTask] has set and that it is about to put into the queue. *)
Definition enqueuing (s : pool) : list nat :=
  omap (fun x : nat * (nat * push_pc) => match x.2 with (id, PQueue) => Some id | _ => None end)
       (map_to_list (pushers s)).

Definition somewhere (s : pool) (id : nat) : Prop := id ∈ all_tasks s \/ id ∈ enqueuing s.
Definition placed (s : pool) : Prop := forall id, accepted s id -> somewhere s id.

Lemma elem_of_enqueuing s id : id ∈ enqueuing s <-> exists k, pushers s !! k = Some (id, PQueue).
Proof.
  unfold enqueuing. rewrite list_elem_of_omap. split.
  - intros ([k [x []]] & Hk%elem_of_map_to_list & E); cbn in E; simplify_eq. eauto.
  - intros [k Hk]. exists (k, (id, PQueue)). by rewrite elem_of_map_to_list.
Qed.

Lemma NoDup_omap_inj {A B} (f : A -> option B) l :
  NoDup l -> (forall x y z, x ∈ l -> y ∈ l -> f x = Some z -> f y = Some z -> x = y) -> NoDup (omap f l).
Proof.
  induction 1 as [|x l Hx Hn IH]; intros Hf; cbn; [constructor|].
  assert (Hn' : NoDup (omap f l)) by (apply IH; intros ??? H1 H2; apply Hf; by right).
  destruct (f x) as [z|] eqn:E; [|done]. constructor; [|done].
  intros (y & Hy & Ey)%list_elem_of_omap. destruct Hx. by rewrite (Hf x y z); [|left|right|..].
Qed.

Lemma enqueuing_NoDup s : tasks_ok s -> NoDup (enqueuing s).
Proof.
  intros []. apply NoDup_omap_inj; [apply NoDup_map_to_list|].
  intros [k [x []]] [k' [x' []]] z Hk%elem_of_map_to_list Hk'%elem_of_map_to_list E E'; cbn in *; simplify_eq.
  by rewrite (tk_push_one0 _ _ _ _ _ Hk Hk').
Qed.

Lemma placed_by s s' :
  placed s -> (forall id, accepted s' id -> accepted s id \/ somewhere s' id) ->
  (forall id, somewhere s id -> somewhere s' id) -> placed s'.
Proof. intros Hp Ha Hs id [H|H]%Ha; [by apply Hs, Hp|done]. Qed.

Lemma placed_same s s' :
  states s' = states s -> pushers s' = pushers s -> (forall id, id ∈ all_tasks s -> id ∈ all_tasks s') ->
  placed s -> placed s'.
Proof.
  intros E1 E2 Ha Hp. apply (placed_by s); [done|intros id; unfold accepted; rewrite E1; by left|].
  intros id [H|H]; [left; by apply Ha|right; unfold enqueuing; by rewrite E2].
Qed.

Lemma all_tasks_goto i pc pc' s :
  workers s !! i = Some pc -> held_of pc = held_of pc' -> all_tasks (goto i pc' s) = all_tasks s.
Proof. intros E Eh. unfold all_tasks. cbn. by rewrite (held_insert_same _ _ _ _ E). Qed.

Lemma placed_goto i pc pc' s :
  placed s -> workers s !! i = Some pc -> held_of pc = held_of pc' -> placed (goto i pc' s).
Proof. intros Hp E Eh. apply (placed_same s); try done. intros id. by rewrite (all_tasks_goto _ _ _ _ E). Qed.

(** The state of a task that is somewhere changes. *)
Lemma placed_setStatus id st s : placed s -> somewhere s id -> placed (setStatus id st s).
Proof.
  intros Hp Hid. apply (placed_by s); [done| |done]. intros x. unfold accepted; cbn.
  destruct (decide (id = x)) as [<-|n]; [by right|]. rewrite lookup_insert_ne by done. by left.
Qed.

Lemma placed_notify v s s' : placed s -> notify_one v s = Some s' -> placed s'.
Proof.
  intros Hs. unfold notify_one. destruct v as [i|].
  - destruct (workers s !! i) as [[]|] eqn:E; try done. intros [= <-]. by eapply placed_goto.
  - destruct (existsb _ _); [done|]. by intros [= <-].
Qed.

Lemma placed_dequeue i n s s' : placed s -> workers s !! i = Some WLocked -> dequeue i n s = Some s' -> placed s'.
Proof.
  intros Hp E. unfold dequeue. destruct (mTasks s) as [|y q] eqn:Eq.
  { intros [= <-]. by eapply placed_goto. }
  unfold top. destruct ((y :: q) !! n) as [x|] eqn:En; [|done]. cbn [mbind option_bind].
  destruct (forallb _ _); [|done]. cbn [mbind option_bind]. destruct (x.1 <=? now s); intros [= <-]; [|by eapply placed_goto].
  rewrite <- Eq in *. apply (placed_same s); try done. intros id. unfold all_tasks, pending; cbn.
  pose proof (held_insert _ _ _ (WTask x.2 RLoad) E) as Eh. cbn in Eh. rewrite app_nil_r in Eh. rewrite Eh.
  rewrite (delete_Permutation _ _ _ En) at 1. rewrite !elem_of_app. cbn. rewrite !elem_of_cons. tauto.
Qed.

Lemma placed_run_task i id p s : placed s -> workers s !! i = Some (WTask id p) -> placed (run_task i id p s).
Proof.
  intros Hp E. pose proof (held_member _ _ _ _ E) as Hid. destruct p; cbn.
  - by eapply placed_goto.
  - eapply placed_goto; [|exact E|done]. apply placed_setStatus; [done|by left].
  - eapply placed_goto; [|exact E|done]. by apply (placed_same s).
  - apply (placed_same (setStatus id TASK_FINISHED s)); try done; [|apply placed_setStatus; [done|by left]].
    intros x. unfold all_tasks; cbn. pose proof (held_insert _ _ _ WOutside E) as Eh. cbn in Eh. rewrite <- Eh.
    rewrite !elem_of_app. tauto.
Qed.

Lemma placed_worker i n s s' : placed s -> worker_step i n s = Some s' -> placed s'.
Proof.
  intros Hp. unfold worker_step. destruct (workers s !! i) as [[]|] eqn:E; try done.
  - destruct (holder s); [done|]. intros [= <-]. eapply placed_goto; [|exact E|done]. by apply (placed_same s).
  - by apply placed_dequeue.
  - destruct (mJoining s); intros [= <-]; (eapply placed_goto; [|exact E|done]); by apply (placed_same s).
  - intros [= <-]. eapply placed_goto; [|exact E|done]. by apply (placed_same s).
  - destruct (holder s); [done|]. intros [= <-]. eapply placed_goto; [|exact E|done]. by apply (placed_same s).
  - intros [= <-]. by apply placed_run_task.
Qed.

Lemma placed_join j s s' : placed s -> join_step j s = Some s' -> placed s'.
Proof.
  intros Hp. unfold join_step. destruct (joiners s !! j) as [[]|]; try done.
  - intros [= <-]. by apply (placed_same s).
  - destruct (holder s); [done|]. intros [= <-]. apply (placed_same s); try done. intros id.
    unfold all_tasks; cbn. by rewrite held_wake.
  - destruct (workers_locked s); [done|]. intros [= <-]. by apply (placed_same s).
  - destruct (decide _) as [Hall|]; [|done]. intros [= <-]. apply (placed_same s); try done. intros id.
    unfold all_tasks; cbn. by rewrite held_exit.
Qed.

(** A task is put into the queue. *)
Lemma placed_enqueue t id s s' :
  placed s -> states s' = <[id := TASK_WAIT_START]> (states s) \/ states s' = states s ->
  mTasks s' = mTasks s ++ [(t, id)] -> workers s' = workers s -> ended s' = ended s ->
  (forall x, x ∈ enqueuing s -> x = id \/ x ∈ enqueuing s') -> placed s'.
Proof.
  intros Hp Est Eq Ew Ee Hen.
  assert (Ha : forall x, x ∈ all_tasks s' <-> x = id \/ x ∈ all_tasks s).
  { intros x. unfold all_tasks, pending. rewrite Eq, Ew, Ee, fmap_app, !elem_of_app. cbn.
    rewrite list_elem_of_singleton. tauto. }
  apply (placed_by s); [done| |].
  - intros x [H1 H2]. destruct (decide (x = id)) as [->|n]; [right; left; apply Ha; by left|left].
    destruct Est as [Est|Est]; rewrite Est in H1, H2; [|done]. by rewrite lookup_insert_ne in H1, H2.
  - intros x [H|H]; [left; apply Ha; by right|]. destruct (Hen x H) as [->|?]; [left; apply Ha; by left|by right].
Qed.

Lemma placed_step l s s' : tasks_ok s -> placed s -> step l s = Some s' -> placed s'.
Proof.
  intros Ht Hp. destruct l; cbn [step]; intros E.
  - by eapply placed_worker.
  - destruct (workers s !! i) as [[]|] eqn:Ei; try done. injection E as <-. by eapply placed_goto.
  - case_match; simplify_eq. by apply (placed_same s).
  - repeat case_match; try done. eapply placed_notify; [|done]. eapply (placed_enqueue t id s); try done; by auto.
  - case_match; simplify_eq. apply (placed_by s); [done| |done]. intros x [H1 H2]. cbn in *. left.
    destruct (decide (id = x)) as [<-|n]; [by rewrite lookup_insert_eq in H2|]. by rewrite lookup_insert_ne in H1, H2.
  - repeat case_match; simplify_eq; try done. apply (placed_by s); [done|by left|].
    intros x [Hx|[k' Hk]%elem_of_enqueuing]; [by left|right]. apply elem_of_enqueuing. exists k'. cbn.
    rewrite lookup_insert_ne; [done|]. intros ->. congruence.
  - destruct (pushers s !! k) as [[x []]|] eqn:Ek; simplify_eq. set (s' := set_pushers _ _).
    assert (Hx : somewhere s' x) by (right; apply elem_of_enqueuing; exists k; cbn; apply lookup_insert_eq).
    apply (placed_by s); [done| |].
    + intros y [H1 H2]. destruct (decide (x = y)) as [<-|n]; [by right|left]. cbn in *.
      by rewrite lookup_insert_ne in H1, H2.
    + intros y [Hy|[k' Hk]%elem_of_enqueuing]; [by left|right]. apply elem_of_enqueuing. exists k'. cbn.
      rewrite lookup_insert_ne; [done|]. intros ->. congruence.
  - destruct (pushers s !! k) as [[x []]|] eqn:Ek; simplify_eq. case_match; [done|].
    eapply placed_notify; [|done]. eapply (placed_enqueue (now s) x s); try done; [by right|].
    intros y [k' Hk]%elem_of_enqueuing. destruct (decide (k = k')) as [->|n]; [left; congruence|right].
    apply elem_of_enqueuing. exists k'. cbn. by rewrite lookup_delete_ne.
  - repeat case_match; simplify_eq; try done; by apply (placed_same s).
  - destruct (cancellers s !! k) as [x|] eqn:Ek; simplify_eq. apply (placed_same (setStatus x TASK_CANCELLED s)); try done.
    apply placed_setStatus; [done|]. apply Hp. exact (tk_canceller _ Ht _ _ Ek).
  - destruct (workers_locked s); simplify_eq. apply (placed_same s); try done. intros id.
    unfold all_tasks, held; cbn. rewrite flat_map_app, (flat_map_replicate_nil n), app_nil_r. done.
  - destruct (joiners s !! j) as [[]|]; simplify_eq; by apply (placed_same s).
  - by eapply placed_join.
Qed.

Lemma placed_reachable s : reachable s -> placed s.
Proof.
  induction 1 as [t|s l s' Hr IH Hal E]; [by intros id [[? H] _]|].
  eapply placed_step; [by apply tasks_reachable|done|done].
Qed.

(** C20. In every interleaving of the threads in which no two of them push one task at the same time
    ([allowed]), a task is accepted exactly when it is in one of these places, and then
    it is in one of them only and there only once: the queue, the hands of a worker, the list of
    those whose run() has returned, the hands of a thread in pushTask() that has set its state.  Its function has been run at
    most once, and a task that is done was run or had its cancelTask() return true. *)
Theorem tasks_run_once s :
  reachable s ->
  NoDup ((mTasks s).*2 ++ held (workers s) ++ ended s ++ enqueuing s) /\
  (forall id, accepted s id <-> id ∈ (mTasks s).*2 ++ held (workers s) ++ ended s ++ enqueuing s) /\
  NoDup (executed s) /\
  (forall id, id ∈ executed s -> id ∉ (mTasks s).*2) /\
  (forall id, id ∈ ended s -> id ∈ executed s \/ id ∈ cancelled s).
Proof.
  intros Hr. pose proof (placed_reachable s Hr) as Hpl. apply tasks_reachable in Hr. pose proof Hr as [].
  assert (Eall : forall id, id ∈ (mTasks s).*2 ++ held (workers s) ++ ended s ++ enqueuing s <-> somewhere s id).
  { intros id. unfold somewhere, all_tasks, pending. rewrite !elem_of_app. tauto. }
  split; [|split; [|split; [done|split; [by apply executed_not_queued|done]]]].
  - replace (_ ++ _) with (all_tasks s ++ enqueuing s) by (unfold all_tasks, pending; by rewrite <- !app_assoc).
    apply NoDup_app. split; [done|]. split; [|by apply enqueuing_NoDup].
    intros id Hid [k Hk]%elem_of_enqueuing. by destruct (tk_push0 _ _ _ Hk).
  - intros id. rewrite Eall. split; [apply Hpl|]. intros [Hid|[k Hk]%elem_of_enqueuing]; [by apply tk_known0|].
    apply startable_known. by destruct (tk_push0 _ _ _ Hk).
Qed.

(** ** Cancelling *)

(** A task that was cancelled in time: its function was not run, and the test
    of [run] will find the state TASK_CANCELLED. *)
Record spared (id : nat) (s : pool) : Prop := mkSpared {
  sp_known : is_Some (states s !! id) /\ states s !! id <> Some TASK_INIT;
  sp_push : forall k p, pushers s !! k <> Some (id, p);
  sp_executed : id ∉ executed s;
  sp_held : forall i p, workers s !! i = Some (WTask id p) ->
      p = RFinish \/ p = RLoad /\ states s !! id = Some TASK_CANCELLED;
  sp_pending : id ∈ (mTasks s).*2 -> states s !! id = Some TASK_CANCELLED
}.

Lemma spared_same id s s' :
  states s' !! id = states s !! id ->
  (forall k p, pushers s' !! k = Some (id, p) -> pushers s !! k = Some (id, p)) ->
  (id ∈ executed s' -> id ∈ executed s) ->
  (forall i p, workers s' !! i = Some (WTask id p) -> workers s !! i = Some (WTask id p)) ->
  (id ∈ (mTasks s').*2 -> id ∈ (mTasks s).*2) ->
  spared id s -> spared id s'.
Proof.
  intros E1 E2 E3 E4 E5 []. constructor; rewrite ?E1; auto.
  - intros k p Hk%E2. by destruct (sp_push0 k p).
  - intros i p Ei%E4. by eapply sp_held0.
Qed.

Lemma spared_goto id i pc pc' s :
  spared id s -> workers s !! i = Some pc -> (forall p, pc' = WTask id p -> pc = WTask id p) ->
  spared id (goto i pc' s).
Proof.
  intros Hs E Hp. apply (spared_same id s); try done; cbn.
  intros j p [[-> <-]|[_ Ej]]%(insert_iff _ _ _ _ _ _ E); [|done]. rewrite E. f_equal. by apply Hp.
Qed.

Lemma spared_notify id v s s' : spared id s -> notify_one v s = Some s' -> spared id s'.
Proof.
  intros Hs. unfold notify_one. destruct v as [i|].
  - destruct (workers s !! i) as [[]|] eqn:E; try done. intros [= <-]. by eapply spared_goto.
  - destruct (existsb _ _); [done|]. by intros [= <-].
Qed.

Lemma spared_dequeue id i n s s' :
  spared id s -> workers s !! i = Some WLocked -> dequeue i n s = Some s' -> spared id s'.
Proof.
  intros Hs E. unfold dequeue. destruct (mTasks s) as [|y q] eqn:Eq.
  { intros [= <-]. by eapply spared_goto. }
  unfold top. destruct ((y :: q) !! n) as [x|] eqn:En; [|done]. cbn [mbind option_bind].
  destruct (forallb _ _); [|done]. cbn [mbind option_bind]. destruct (x.1 <=? now s); intros [= <-].
  - rewrite <- Eq in *. pose proof (delete_Permutation _ _ _ En) as Ep. pose proof Hs as [].
    constructor; try done; cbn.
    + intros j p [[-> [= -> ->]]|[_ Ej]]%(insert_iff _ _ _ _ _ _ E); [|by apply (sp_held0 j)].
      right. split; [done|]. apply sp_pending0. rewrite Ep. by left.
    + intros Hin. apply sp_pending0. rewrite Ep. by right.
  - by eapply spared_goto.
Qed.

Lemma spared_run_task id i x p s :
  tasks_ok s -> spared id s -> workers s !! i = Some (WTask x p) -> spared id (run_task i x p s).
Proof.
  intros Ht Hs E. pose proof Hs as []. destruct (once_split s Ht) as (Hn & Hh & _).
  assert (Hx : x ∈ held (workers s)) by (apply elem_of_held; eauto).
  assert (Hgo : forall s1 pc', workers s1 = workers s -> spared id s1 ->
             (forall q, pc' = WTask id q -> q = RFinish) -> spared id (goto i pc' s1)).
  { intros s1 pc' E1 [] Hpc. constructor; try done; cbn.
    intros j q. rewrite E1, (insert_iff _ _ _ _ _ _ E). intros [[-> Hq]|[_ Ej]]; [left; by apply Hpc|].
    eapply sp_held1. by rewrite E1. }
  destruct p; cbn.
  - destruct (decide (x = id)) as [->|n].
    + destruct (sp_held0 _ _ E) as [[=]|[_ Ec]]. rewrite decide_False by congruence.
      apply Hgo; try done. by intros q [= ->].
    + apply Hgo; try done. by intros q [= ->].
  - destruct (decide (x = id)) as [->|n]; [by destruct (sp_held0 _ _ E) as [|[]]|].
    apply Hgo; try done; [|by intros q [= ->]]. apply (spared_same id s); try done. cbn. by rewrite lookup_insert_ne.
  - destruct (decide (x = id)) as [->|n]; [by destruct (sp_held0 _ _ E) as [|[]]|].
    apply Hgo; try done; [|by intros q [= ->]]. apply (spared_same id s); try done. cbn.
    by intros [?|?%list_elem_of_singleton]%elem_of_app.
  - destruct (decide (x = id)) as [->|n].
    + constructor; try done; cbn.
      * rewrite lookup_insert_eq. split; [eauto|done].
      * intros j q [[_ [=]]|[n Ej]]%(insert_iff _ _ _ _ _ _ E). by destruct n; symmetry; eapply held_once.
      * intros Hin. by destruct (Hh _ Hx).
    + apply Hgo; try done. apply (spared_same id s); try done. cbn. by rewrite lookup_insert_ne.
Qed.

Lemma spared_step id l s s' :
  tasks_ok s -> spared id s -> step l s = Some s' -> spared id s'.
Proof.
  intros Ht Hs. pose proof Hs as []. destruct sp_known0 as [[st Est] Hi].
  destruct l; cbn [step]; intros E.
  - unfold worker_step in E. destruct (workers s !! i) as [[]|] eqn:Ei; try done.
    + destruct (holder s); simplify_eq. eapply spared_goto; [|done|done]. by apply (spared_same id s).
    + by eapply spared_dequeue.
    + destruct (mJoining s); simplify_eq; (eapply spared_goto; [|exact Ei|done]); done || by apply (spared_same id s).
    + simplify_eq. eapply spared_goto; [|exact Ei|done]. by apply (spared_same id s).
    + destruct (holder s); simplify_eq. eapply spared_goto; [|done|done]. by apply (spared_same id s).
    + simplify_eq. by apply spared_run_task.
  - destruct (workers s !! i) as [[]|] eqn:Ei; try done. injection E as <-. by eapply spared_goto.
  - case_match; simplify_eq. by apply (spared_same id s).
  - case_match; [done|]. destruct (states s !! id0) eqn:E0; [done|]. assert (id0 <> id) by congruence.
    eapply spared_notify; [|done]. apply (spared_same id s); try done; cbn; [by rewrite lookup_insert_ne|].
    rewrite fmap_app, elem_of_app. by intros [?|?%list_elem_of_singleton].
  - destruct (states s !! id0) eqn:E0; simplify_eq. assert (id0 <> id) by congruence.
    apply (spared_same id s); try done; cbn. by rewrite lookup_insert_ne.
  - destruct (pushers s !! k); [done|]. destruct (states s !! id0) as [[]|] eqn:E0; simplify_eq; try done.
    assert (id0 <> id) by congruence. apply (spared_same id s); cbn; try done.
    intros k' p [[_ [= Ex _]]|[_ Hk]]%lookup_insert_Some; done.
  - destruct (pushers s !! k) as [[x []]|] eqn:Ek; simplify_eq.
    assert (x <> id) by (intros ->; by destruct (sp_push0 k PSet)).
    apply (spared_same id s); cbn; try done; [by rewrite lookup_insert_ne|].
    intros k' p [[_ [= Ex _]]|[_ Hk]]%lookup_insert_Some; done.
  - destruct (pushers s !! k) as [[x []]|] eqn:Ek; simplify_eq. case_match; [done|].
    assert (x <> id) by (intros ->; by destruct (sp_push0 k PQueue)).
    eapply spared_notify; [|done]. apply (spared_same id s); try done; cbn.
    + intros k' p [_ Hk]%lookup_delete_Some. done.
    + rewrite fmap_app, elem_of_app. by intros [?|?%list_elem_of_singleton].
  - destruct (cancellers s !! k); [done|]. destruct (states s !! id0) as [[]|]; simplify_eq; try done;
      by apply (spared_same id s).
  - destruct (cancellers s !! k) as [x|]; simplify_eq. destruct (decide (x = id)) as [->|n].
    + constructor; try done; cbn; rewrite lookup_insert_eq; try done.
      intros i p Ei. destruct (sp_held0 _ _ Ei) as [?|[? _]]; auto.
    + apply (spared_same id s); try done; cbn. by rewrite lookup_insert_ne.
  - destruct (workers_locked s); simplify_eq. apply (spared_same id s); try done; cbn.
    intros i p [?|[_ Hr]]%lookup_app_Some; [done|]. by apply lookup_replicate in Hr as [? _].
  - destruct (joiners s !! j) as [[]|]; simplify_eq; by apply (spared_same id s).
  - unfold join_step in E. destruct (joiners s !! j) as [[]|]; try done.
    + simplify_eq. by apply (spared_same id s).
    + destruct (holder s); simplify_eq. apply (spared_same id s); try done; cbn.
      intros i p. rewrite list_lookup_fmap. destruct (workers s !! i) as [[]|]; cbn; naive_solver.
    + destruct (workers_locked s); simplify_eq. by apply (spared_same id s).
    + destruct (decide _); simplify_eq. by apply (spared_same id s).
Qed.

(** One step of a pool whose clients keep to the rules. *)
Definition next (s s' : pool) : Prop := exists l, allowed s l = true /\ step l s = Some s'.

(** When cancelTask() sets the state while the task is still in the queue, the
    function of the task is never run afterwards, however the threads go on. *)
Theorem cancel_in_time k id s s1 s2 :
  reachable s -> cancellers s !! k = Some id -> id ∈ (mTasks s).*2 ->
  step (LCancelSet k) s = Some s1 -> rtc next s1 s2 ->
  id ∈ cancelled s1 /\ id ∉ executed s2.
Proof.
  intros Hr Ek Hin E Hs. pose proof (executed_not_queued _ (tasks_reachable _ Hr)) as Hne.
  pose proof (reachable_step _ (LCancelSet k) _ Hr eq_refl E) as Hr1.
  apply tasks_reachable in Hr. pose proof Hr as []. destruct (once_split s Hr) as (_ & Hh & _).
  cbn [step] in E. rewrite Ek in E. injection E as <-. split; [cbn; apply elem_of_app; right; by left|].
  assert (Hsp : spared id s2); [|apply Hsp].
  match type of Hs with rtc _ ?x _ => assert (H0 : reachable x /\ spared id x) end.
  { split; [done|]. constructor; cbn; rewrite ?lookup_insert_eq; try done.
    - intros k' p Hk. destruct (tk_push0 _ _ _ Hk) as [Hn _]. apply Hn. apply elem_of_app. by left.
    - intros He. by apply (Hne id).
    - intros i p Ei. destruct (Hh id); [|done]. apply elem_of_held. eauto. }
  apply (rtc_invariant next (fun x => reachable x /\ spared id x) _ _) in Hs as [_ ?]; [done| |done].
  intros x y [Hx1 Hx2] (l & Hal & El). split; [by eapply reachable_step|].
  eapply spared_step; [|done|done]. by apply tasks_reachable.
Qed.

(** Tasks scheduled with a priority are due at once, and those of a lower number
    that are scheduled less than an hour later still come first. *)
Lemma priority_time_order hour t t' p p' :
  0 < hour -> 0 <= p < p' -> p' <= 10 -> t' < t + hour ->
  priority_time hour t' p <= t' /\ priority_time hour t' p < priority_time hour t p'.
Proof.
  intros Hh Hp Hp' Ht. unfold priority_time.
  destruct (Z.ltb_spec 10 p), (Z.ltb_spec 10 p'); try lia. split; nia.
Qed.

(** ** Joining *)

(** What is left to do for a worker once [mJoining] is set, and for the pool. *)
Definition weight (pc : worker_pc) : nat :=
  match pc with
  | WExit => 0 | WTest _ => 1 | WLocked => 2 | WOutside | WWoken => 3
  | WTask _ RFinish => 4 | WTask _ RBody => 5 | WTask _ RStart => 6 | WTask _ RLoad => 7
  | WDecided _ | WWaiting _ => 0
  end.
Definition work (s : pool) : nat := sum_list_with weight (workers s) + 6 * length (mTasks s).

(** A worker that will look at the queue again. *)
Definition to_look (pc : worker_pc) : bool :=
  match pc with WOutside | WLocked | WWoken | WTask _ _ => true | _ => false end.

(** The phase of [join] in which the workers finish: nobody can sleep. *)
Record joining (s : pool) : Prop := mkJoining {
  jn_sync : sync s;
  jn_set : mJoining s = true;
  jn_awake : Forall (fun pc => dozing pc = false) (workers s)
}.

Lemma reachable_joining s j : reachable s -> joiners s !! j = Some JWait -> joining s.
Proof.
  intros Hs%sync_reachable Ej. constructor; [done| |].
  - eapply (sync_joining _ Hs); [done|]. auto.
  - eapply (sync_awake _ Hs); [done|]. auto.
Qed.

Lemma sum_insert ws i pc pc' :
  ws !! i = Some pc ->
  (sum_list_with weight (<[i := pc']> ws) + weight pc = sum_list_with weight ws + weight pc')%nat.
Proof.
  revert i. induction ws as [|x ws IH]; intros [|i] E; try done.
  - injection E as ->. cbn. lia.
  - change (ws !! i = Some pc) in E. specialize (IH i E).
    change (<[S i:=pc']> (x :: ws)) with (x :: <[i:=pc']> ws). cbn [sum_list_with]. lia.
Qed.

(** Every step of a worker leaves less work. *)
Lemma work_decreases i n s s' : joining s -> worker_step i n s = Some s' -> (work s' < work s)%nat.
Proof.
  intros [_ Hj Ha]. unfold worker_step. destruct (workers s !! i) as [pc|] eqn:E; [|done].
  assert (Hgo : forall pc' s1, workers s1 = <[i := pc']> (workers s) -> mTasks s1 = mTasks s ->
             (weight pc' < weight pc)%nat -> (work s1 < work s)%nat).
  { intros pc' s1 E1 E2 Hw. unfold work. rewrite E1, E2. pose proof (sum_insert _ _ _ pc' E). lia. }
  pose proof (Forall_lookup_1 _ _ _ _ Ha E) as Hd.
  destruct pc as [| |u|u|u| |id p|]; try done.
  - destruct (holder s); [done|]. intros [= <-]. eapply Hgo; cbn; [done|done|cbn; lia].
  - unfold dequeue. destruct (mTasks s) as [|y q] eqn:Eq.
    { intros [= <-]. eapply Hgo; cbn; [done|done|cbn; lia]. }
    unfold top. destruct ((y :: q) !! n) as [x|] eqn:En; [|done]. cbn [mbind option_bind].
    destruct (forallb _ _); [|done]. cbn [mbind option_bind]. destruct (x.1 <=? now s); intros [= <-].
    + unfold work; cbn [workers goto set_workers unlock set_holder set_mTasks mTasks].
      pose proof (sum_insert _ _ _ (WTask x.2 RLoad) E) as Hsum. cbn [weight] in Hsum. rewrite Eq.
      apply lookup_lt_Some in En as Hl. rewrite length_delete by (by eexists). lia.
    + eapply Hgo; cbn; [done|done|cbn; lia].
  - rewrite Hj. intros [= <-]. eapply Hgo; cbn; [done|done|cbn; lia].
  - destruct (holder s); [done|]. intros [= <-]. eapply Hgo; cbn; [done|done|cbn; lia].
  - intros [= <-]. destruct p; cbn [run_task]; (eapply Hgo; [done|done|]); try (cbn; lia).
    destruct (decide _); cbn; lia.
Qed.

(** Workers only finish: the phase goes on, and time stands still in it. *)
Lemma joining_worker i n s s' :
  joining s -> worker_step i n s = Some s' ->
  joining s' /\ joiners s' = joiners s /\ now s' = now s.
Proof.
  intros [Hs Hj Ha] E. pose proof (sync_worker _ _ _ _ Hs E) as Hs'.
  assert (Hf : mJoining s' = mJoining s /\ joiners s' = joiners s /\ now s' = now s /\
            exists pc', workers s' = <[i := pc']> (workers s) /\ dozing pc' = false).
  { unfold worker_step in E. destruct (workers s !! i) as [pc|] eqn:Ei; [|done].
    pose proof (Forall_lookup_1 _ _ _ _ Ha Ei) as Hd. destruct pc as [| |u|u|u| |id p|]; try done.
    - destruct (holder s); simplify_eq. split_and!; try done. by eexists.
    - unfold dequeue in E. destruct (mTasks s) as [|y q]; simplify_eq; [split_and!; try done; by eexists|].
      destruct (top n _) as [x|]; [|done]. cbn [mbind option_bind] in E.
      destruct (x.1 <=? now s); simplify_eq; split_and!; try done; by eexists.
    - rewrite Hj in E. simplify_eq. split_and!; try done. by eexists.
    - destruct (holder s); simplify_eq. split_and!; try done. by eexists.
    - simplify_eq. destruct p; cbn; split_and!; try done; eexists; (split; [done|]); done. }
  destruct Hf as (E1 & E2 & E3 & pc' & E4 & Hd). split_and!; try done. constructor; [done|congruence|].
  rewrite E4. by apply Forall_insert.
Qed.

(** The first of the tasks with the least time. *)
Lemma top_exists q : q <> [] -> exists n x, top n q = Some x.
Proof.
  intros Hq. assert (Hm : exists x, x ∈ q /\ Forall (fun y => x.1 <= y.1) q).
  { destruct q as [|x q]; [done|]. clear Hq. revert x. induction q as [|y q IH]; intros x.
    - exists x. split; [by left|]. constructor; [lia|constructor].
    - destruct (IH y) as (z & Hz & Hall). destruct (Z_le_gt_dec x.1 z.1) as [Hle|Hgt].
      + exists x. split; [by left|]. constructor; [lia|]. eapply Forall_impl; [done|]. cbn. intros; lia.
      + exists z. split; [by right|]. constructor; [lia|done]. }
  destruct Hm as (x & [n En]%list_elem_of_lookup & Hall). exists n, x. unfold top. rewrite En. cbn.
  assert (forallb (fun y => x.1 <=? y.1) q = true) as ->; [|done].
  apply forallb_forall. intros y Hy. apply Z.leb_le. rewrite Forall_forall in Hall. apply Hall.
  by apply list_elem_of_In.
Qed.

(** As long as a worker has not ended, a worker can take a step. *)
Lemma joining_progress s :
  joining s -> Forall (fun pc => pc = WExit) (workers s) \/ exists i n s', worker_step i n s = Some s'.
Proof.
  intros [Hs Hj Ha]. destruct (holder s) as [i|] eqn:Eh.
  - right. apply (sync_holder _ Hs) in Eh as (pc & E & Hl). exists i.
    destruct pc as [| |u|u|u| |id p|]; try done.
    + destruct (mTasks s) as [|y q] eqn:Eq.
      * exists 0%nat. unfold worker_step, dequeue. rewrite E, Eq. eauto.
      * destruct (top_exists (y :: q)) as (n & x & Ex); [done|]. exists n. unfold worker_step, dequeue.
        rewrite E, Eq, Ex. cbn [mbind option_bind]. destruct (_ <=? _); eauto.
    + exists 0%nat. unfold worker_step. rewrite E, Hj. eauto.
    + exists 0%nat. unfold worker_step. rewrite E. eauto.
  - destruct (decide (Forall (fun pc => pc = WExit) (workers s))) as [|Hn]; [by left|right].
    apply not_Forall_Exists in Hn; [|intros ?; apply _].
    apply Exists_exists in Hn as (pc & [i E]%list_elem_of_lookup & Hpc).
    pose proof (Forall_lookup_1 _ _ _ _ Ha E) as Hd. exists i, 0%nat. unfold worker_step. rewrite E, Eh.
    assert (Hnl : locked pc = false).
    { destruct (locked pc) eqn:El; [|done]. assert (holder s = Some i) by (apply (sync_holder _ Hs); eauto). congruence. }
    destruct pc as [| |u|u|u| |id p|]; cbn in Hd, Hnl; try done. all: first [by eexists | by destruct Hpc].
Qed.

(** Some worker will look at the queue again, or nothing in it is due. *)
Definition looked_after (s : pool) : Prop :=
  Exists (fun pc => to_look pc = true) (workers s) \/ Forall (fun x => now s < x.1) (mTasks s).

Lemma top_least n q x : top n q = Some x -> Forall (fun y => x.1 <= y.1) q.
Proof.
  unfold top. destruct (q !! n) as [z|]; [|done]. cbn. destruct (forallb _ _) eqn:Ef; [|done].
  intros [= ->]. apply Forall_forall. intros y Hy. apply Z.leb_le.
  eapply forallb_forall in Ef; [done|]. by apply list_elem_of_In.
Qed.

Lemma looked_after_worker i n s s' :
  joining s -> looked_after s -> worker_step i n s = Some s' -> looked_after s'.
Proof.
  intros [_ Hj Ha] Hl. unfold worker_step. destruct (workers s !! i) as [pc|] eqn:E; [|done].
  assert (Hto : forall pc' s1, workers s1 = <[i := pc']> (workers s) -> to_look pc' = true -> looked_after s1).
  { intros pc' s1 E1 Hp. left. rewrite E1. apply Exists_exists. exists pc'. split; [|done].
    eapply list_elem_of_lookup_2. apply (insert_iff _ _ _ _ _ _ E). by left. }
  pose proof (Forall_lookup_1 _ _ _ _ Ha E) as Hd.
  destruct pc as [| |u|u|u| |id p|]; try done.
  - destruct (holder s); [done|]. intros [= <-]. by eapply Hto.
  - unfold dequeue. destruct (mTasks s) as [|y q] eqn:Eq.
    { intros [= <-]. right. cbn. rewrite Eq. constructor. }
    destruct (top n (y :: q)) as [x|] eqn:Et; [|done]. cbn [mbind option_bind].
    destruct (Z.leb_spec x.1 (now s)); intros [= <-]; [by eapply Hto|].
    right. cbn. rewrite Eq. apply top_least in Et. eapply Forall_impl; [done|]. cbn. intros; lia.
  - rewrite Hj. intros [= <-]. destruct Hl as [Hl|Hl]; [left|by right].
    apply Exists_exists in Hl as (pc & [k Ek]%list_elem_of_lookup & Hpc). apply Exists_exists.
    exists pc. split; [|done]. eapply list_elem_of_lookup_2. cbn. apply (insert_iff _ _ _ _ _ _ E).
    right. split; [|done]. intros ->. assert (pc = WTest u) as -> by congruence. done.
  - destruct (holder s); [done|]. intros [= <-]. by eapply Hto.
  - intros [= <-]. destruct p; by eapply Hto.
Qed.

(** Workers taking turns: who goes on, and the task it finds on top. *)
Definition worker_run (turns : list (nat * nat)) (s : pool) : option pool :=
  run ((fun p => LWorker p.1 p.2) <$> turns) s.

Lemma worker_run_joining turns s s' :
  joining s -> worker_run turns s = Some s' ->
  joining s' /\ joiners s' = joiners s /\ now s' = now s /\ (length turns + work s' <= work s)%nat /\
  (looked_after s -> looked_after s').
Proof.
  revert s. induction turns as [|[i n] turns IH]; intros s Hj E; cbn in E.
  - injection E as <-. split_and!; try done.
  - destruct (worker_step i n s) as [s1|] eqn:E1; [|done]. cbn in E.
    destruct (joining_worker _ _ _ _ Hj E1) as (Hj1 & Ej & En). pose proof (work_decreases _ _ _ _ Hj E1).
    destruct (IH s1 Hj1 E) as (? & ? & ? & ? & Hl). split_and!; [done|congruence|congruence|cbn; lia|].
    intros Hs. apply Hl. exact (looked_after_worker _ _ _ _ Hj Hs E1).
Qed.

Lemma worker_run_to_end s :
  joining s -> exists turns s', worker_run turns s = Some s' /\ Forall (fun pc => pc = WExit) (workers s').
Proof.
  remember (work s) as m eqn:Em. revert s Em. induction m as [m IH] using lt_wf_ind. intros s -> Hj.
  destruct (joining_progress s Hj) as [Hall|(i & n & s1 & E1)]; [by exists [], s|].
  destruct (IH (work s1)) with (s := s1) as (turns & s' & E & Hall); [by eapply work_decreases|done| |].
  - by eapply joining_worker.
  - exists ((i, n) :: turns), s'. split; [|done]. cbn. by rewrite E1.
Qed.

(** C19. A thread that waits in join() is not left waiting: however the workers
    take turns, they take at most [work s] steps, as long as one of them has not
    ended some worker can go on (no wake-up was lost), and when none can, all
    have ended, join() returns, and no task that is due is left in the queue if
    a worker had still to look at it; a complete run exists. *)
Theorem join_completes s j :
  reachable s -> joiners s !! j = Some JWait ->
  (exists turns s', worker_run turns s = Some s' /\ forall i n, worker_step i n s' = None) /\
  forall turns s', worker_run turns s = Some s' ->
    (length turns <= work s)%nat /\
    ((forall i n, worker_step i n s' = None) ->
     Forall (fun pc => pc = WExit) (workers s') /\
     (exists s2, step (LJoinStep j) s' = Some s2 /\ workers s2 = [] /\ joiners s2 !! j = Some JDone) /\
     (Exists (fun pc => to_look pc = true) (workers s) -> Forall (fun x => now s < x.1) (mTasks s'))).
Proof.
  intros Hr Ej. pose proof (reachable_joining _ _ Hr Ej) as Hj. split.
  - destruct (worker_run_to_end s Hj) as (turns & s' & E & Hall). exists turns, s'. split; [done|].
    intros i n. unfold worker_step. destruct (workers s' !! i) as [pc|] eqn:Ei; [|done].
    by rewrite (Forall_lookup_1 _ _ _ _ Hall Ei).
  - intros turns s' E. destruct (worker_run_joining _ _ _ Hj E) as (Hj' & Ejs & En & Hw & Hl).
    split; [lia|]. intros Hstuck.
    destruct (joining_progress s' Hj') as [Hall|(i & n & s1 & E1)]; [|by rewrite Hstuck in E1].
    split_and!; [done| |].
    + cbn [step]. unfold join_step. rewrite Ejs, Ej, decide_True by done. eexists. split_and!; [done|done|].
      cbn. by rewrite lookup_insert_eq.
    + intros Hlook. rewrite <- En. destruct Hl as [Hex|]; [by left| |done].
      apply Exists_exists in Hex as (pc & [i Ei]%list_elem_of_lookup & Hpc).
      by rewrite (Forall_lookup_1 _ _ _ _ Hall Ei) in Hpc.
Qed.
(** ** Interleavings the code allows *)

(** Runs of labels, for concrete interleavings. *)
Definition race_cancel : list label :=
  [LSpawn 1; LSchedule 7 0 None; LWorker 0 0; LWorker 0 0; LWorker 0 0;
   LCancelLoad 1 7; LWorker 0 0; LWorker 0 0; LCancelSet 1; LWorker 0 0].
Definition sleepers : list label :=
  [LSpawn 2;
   LWorker 0 0; LWorker 0 0; LWorker 0 0; LWorker 0 0;     (* both wait, without a time *)
   LWorker 1 0; LWorker 1 0; LWorker 1 0; LWorker 1 0;
   LSchedule 1 10 (Some 0%nat); LWorker 0 0; LWorker 0 0; LWorker 0 0; LWorker 0 0;   (* 0 waits until 10 *)
   LSchedule 2 0 (Some 0%nat); LWorker 0 0; LWorker 0 1; LWorker 0 1; LWorker 0 0;     (* 0 takes task 2 *)
   LTick 50].

(** A wake-up can go to the wrong worker: two workers wait on an empty queue, a
    task for a later time wakes the first, which then waits until that time; a
    task for now wakes it again and it runs it.  When the first task is due, the
    second worker still waits without a time: no step of the threads of the pool
    starts the due task before the first worker is back. *)
Theorem due_task_waits_for_busy_worker :
  exists s, run sleepers (new_pool 0) = Some s /\ Forall (fun l => forall s, allowed s l = true) (tail sleepers) /\
    mTasks s = [(10, 1%nat)] /\ 10 < now s /\
    workers s = [WTask 2 RBody; WWaiting None] /\ (forall n, worker_step 1 n s = None) /\
    exists s', worker_run (replicate 7 (0, 0)%nat) s = Some s' /\ executed s' = [2; 1]%nat.
Proof.
  eexists. split; [by vm_compute|]. split; [repeat constructor|]. split_and!; try by vm_compute.
  eexists. split; by vm_compute.
Qed.

(** cancelTask() tests and sets the state in two steps: a worker that starts the
    task in between runs its function although cancelTask() returns true. *)
Theorem cancel_race :
  exists s, run race_cancel (new_pool 0) = Some s /\ 7%nat ∈ executed s /\ 7%nat ∈ cancelled s /\
    states s !! 7%nat = Some TASK_FINISHED.
Proof. eexists. split; [by vm_compute|]. split_and!; [by left|by left|by vm_compute]. Qed.

(** Two threads that push one task at the same time both find it new: it is in the queue twice, two
    workers take it, and when both test the state before one of them sets it, its function is run twice. *)
Definition race_push : list label :=
  [LSpawn 2; LBuild 7; LPushLoad 1 7; LPushLoad 2 7; LPushSet 1; LPushSet 2; LPushQueue 1 None; LPushQueue 2 None;
   LWorker 0 0; LWorker 0 0; LWorker 1 0; LWorker 1 0; LWorker 0 0; LWorker 1 0; LWorker 0 0; LWorker 1 0; LWorker 0 0; LWorker 1 0]%nat.

Theorem push_race : exists s, run race_push (new_pool 0) = Some s /\ executed s = [7; 7]%nat.
Proof. eexists. split; by vm_compute. Qed.

(** ** Witnesses *)

Definition pool_of (ls : list label) : pool := default (new_pool 0) (run ls (new_pool 0)).

Lemma pool_of_reachable ls :
  Forall (fun l => forall s, allowed s l = true) ls -> forall n, reachable (pool_of (LSpawn n :: ls)).
Proof.
  intros Hal n. unfold pool_of. destruct (run _ _) as [s|] eqn:E; [|apply reachable_new]. cbn [run] in E.
  eapply (reachable_run ls); [|exact E|done].
  eapply (reachable_step _ (LSpawn n)); [apply (reachable_new 0)|by vm_compute|by vm_compute].
Qed.

(** Two workers, one waiting; a due task, one for later; [join] has notified. *)
Definition joining_demo : list label :=
  [LWorker 0 0; LWorker 0 0; LWorker 0 0; LWorker 0 0; LSchedule 3 0 (Some 0%nat); LSchedule 4 99 None;
   LJoin 5; LJoinStep 5; LJoinStep 5; LJoinStep 5]%nat.

Lemma join_completes_witness :
  joiners (pool_of (LSpawn 2 :: joining_demo)) !! 5%nat = Some JWait /\
  exists turns s', worker_run turns (pool_of (LSpawn 2 :: joining_demo)) = Some s' /\
    forall i n, worker_step i n s' = None.
Proof.
  split; [by vm_compute|]. apply (join_completes _ 5%nat); [|by vm_compute].
  apply pool_of_reachable. repeat constructor.
Defined.

(** One task is run, one is in the queue, one was built and never pushed. *)
Definition places_demo : list label :=
  [LSchedule 7 0 None; LSchedule 8 99 None; LBuild 9; LWorker 0 0; LWorker 0 0]%nat.

Lemma tasks_run_once_witness :
  let s := pool_of (LSpawn 1 :: places_demo)%nat in
  (mTasks s).*2 = [8]%nat /\ held (workers s) = [7]%nat /\ (accepted s 9 <-> 9%nat ∈ [8; 7]%nat) /\
  NoDup (executed (pool_of race_cancel)).
Proof.
  intros s. split; [by vm_compute|]. split; [by vm_compute|]. split.
  - destruct (tasks_run_once s) as (_ & H & _); [apply pool_of_reachable; repeat constructor|]. exact (H 9%nat).
  - apply tasks_run_once. apply (pool_of_reachable (tail race_cancel)). repeat constructor.
Defined.

Lemma cancel_in_time_witness :
  let s := pool_of [LSpawn 1; LSchedule 7 0 None; LCancelLoad 1 7]%nat in
  exists s1, step (LCancelSet 1) s = Some s1 /\ 7%nat ∉ executed s1.
Proof.
  intros s. destruct (step (LCancelSet 1) s) as [s1|] eqn:E; [|by vm_compute in E]. exists s1. split; [done|].
  apply (cancel_in_time 1 7 s s1 s1); [|by vm_compute|by left|done|done].
  apply (pool_of_reachable [LSchedule 7 0 None; LCancelLoad 1 7]%nat). repeat constructor.
Defined.
