(* ===== verification/Queue.v ===== *)
(** The linked queue of the GATT server ([src/examples/gatt/src/shared/queue.c]):
    queues and their entries live in a memory indexed by address, [NULL] is
    [None], user data are numbers, and [None] as a result is an access to
    memory that was freed.  [mem_rep] ties a memory to the lists it stands for;
    no cell is leaked and none is shared. *)
From S2P Require Import Prelude.

Record queue_entry := mkEntry { e_data : Z; e_next : option positive }.

Record queue := mkQueue {
  ref_count : Z;
  head : option positive;
  tail : option positive;
  entries : Z
}.

Record qmem := mkMem {
  queues : gmap positive queue;
  cells : gmap positive queue_entry
}.

Definition mem_empty : qmem := mkMem ∅ ∅.

Definition set_queue (q : positive) (Q : queue) (m : qmem) : qmem :=
  mkMem (<[q := Q]> (queues m)) (cells m).
Definition set_cell (a : positive) (e : queue_entry) (m : qmem) : qmem :=
  mkMem (queues m) (<[a := e]> (cells m)).
Definition free_cell (a : positive) (m : qmem) : qmem := mkMem (queues m) (delete a (cells m)).
Definition free_queue (q : positive) (m : qmem) : qmem := mkMem (delete q (queues m)) (cells m).

(** Loops follow the cells; there are no more of them than cells in memory. *)
Definition loop_fuel (m : qmem) : nat := S (size (cells m)).

Definition queue_ref (q : positive) (m : qmem) : option qmem :=
  Q ← queues m !! q;
  Some (set_queue q (mkQueue (ref_count Q + 1) (head Q) (tail Q) (entries Q)) m).

Definition queue_unref (q : positive) (m : qmem) : option qmem :=
  Q ← queues m !! q;
  let n := ref_count Q - 1 in
  Some (if negb (n =? 0) then set_queue q (mkQueue n (head Q) (tail Q) (entries Q)) m
        else free_queue q m).

(** [queue_new]: the zeroed object and its first reference. *)
Definition queue_new (m : qmem) : option (positive * qmem) :=
  let q := fresh (dom (queues m)) in
  m1 ← queue_ref q (set_queue q (mkQueue 0 None None 0) m);
  Some (q, m1).

Definition queue_entry_new (data : Z) (m : qmem) : positive * qmem :=
  let a := fresh (dom (cells m)) in (a, set_cell a (mkEntry data None) m).

Definition queue_push_tail (q : option positive) (data : Z) (m : qmem) : option (bool * qmem) :=
  match q with
  | None => Some (false, m)
  | Some q =>
      Q ← queues m !! q;
      let '(entry, m1) := queue_entry_new data m in
      m2 ← match tail Q with
           | Some t => T ← cells m1 !! t; Some (set_cell t (mkEntry (e_data T) (Some entry)) m1)
           | None => Some m1
           end;
      Some (true, set_queue q (mkQueue (ref_count Q)
                     (match head Q with None => Some entry | Some h => Some h end)
                     (Some entry) (u32 (entries Q + 1))) m2)
  end.

Definition queue_push_head (q : option positive) (data : Z) (m : qmem) : option (bool * qmem) :=
  match q with
  | None => Some (false, m)
  | Some q =>
      Q ← queues m !! q;
      let '(entry, m1) := queue_entry_new data m in
      let m2 := set_cell entry (mkEntry data (head Q)) m1 in
      Some (true, set_queue q (mkQueue (ref_count Q) (Some entry)
                     (match tail Q with None => Some entry | Some t => Some t end)
                     (u32 (entries Q + 1))) m2)
  end.

(** The search loops: the first entry whose data satisfies [p]. *)
Fixpoint find_entry (fuel : nat) (p : Z -> bool) (entry : option positive) (m : qmem)
  : option (option positive) :=
  match entry with
  | None => Some None
  | Some a =>
      match fuel with
      | O => None
      | S fuel' =>
          E ← cells m !! a;
          if p (e_data E) then Some (Some a) else find_entry fuel' p (e_next E) m
      end
  end.

Definition queue_push_after (q : option positive) (entry data : Z) (m : qmem)
  : option (bool * qmem) :=
  match q with
  | None => Some (false, m)
  | Some q =>
      Q ← queues m !! q;
      qentry ← find_entry (loop_fuel m) (Z.eqb entry) (head Q) m;
      match qentry with
      | None => Some (false, m)
      | Some a =>
          let '(new_entry, m1) := queue_entry_new data m in
          E ← cells m1 !! a;
          let m2 := set_cell new_entry (mkEntry data (e_next E)) m1 in
          let m3 := set_cell a (mkEntry (e_data E) (Some new_entry)) m2 in
          Some (true, set_queue q (mkQueue (ref_count Q) (head Q)
                         (match e_next E with None => Some new_entry | Some _ => tail Q end)
                         (u32 (entries Q + 1))) m3)
      end
  end.

(** Data returned by the functions that return [void *]; [NULL] is [None]. *)
Definition queue_pop_head (q : option positive) (m : qmem) : option (option Z * qmem) :=
  match q with
  | None => Some (None, m)
  | Some q =>
      Q ← queues m !! q;
      match head Q with
      | None => Some (None, m)
      | Some a =>
          E ← cells m !! a;
          let Q1 := match e_next E with
                    | None => mkQueue (ref_count Q) None None (u32 (entries Q - 1))
                    | Some n => mkQueue (ref_count Q) (Some n) (tail Q) (u32 (entries Q - 1))
                    end in
          Some (Some (e_data E), set_queue q Q1 (free_cell a m))
      end
  end.

Definition queue_peek (which : queue -> option positive) (q : option positive) (m : qmem)
  : option (option Z) :=
  match q with
  | None => Some None
  | Some q =>
      Q ← queues m !! q;
      match which Q with
      | None => Some None
      | Some a => E ← cells m !! a; Some (Some (e_data E))
      end
  end.
Definition queue_peek_head := queue_peek head.
Definition queue_peek_tail := queue_peek tail.

Definition direct_match (a b : Z) : bool := a =? b.

(** [function], or [direct_match] for [NULL]. *)
Definition matcher (function : option (Z -> Z -> bool)) (match_data : Z) (d : Z) : bool :=
  match function with Some f => f d match_data | None => direct_match d match_data end.

Definition queue_find (q : option positive) (function : option (Z -> Z -> bool)) (match_data : Z)
    (m : qmem) : option (option Z) :=
  match q with
  | None => Some None
  | Some q =>
      Q ← queues m !! q;
      found ← find_entry (loop_fuel m) (matcher function match_data) (head Q) m;
      match found with
      | None => Some None
      | Some a => E ← cells m !! a; Some (Some (e_data E))
      end
  end.

(** The loops of [queue_remove] and [queue_remove_if], which carry [prev]. *)
Fixpoint unlink_loop (fuel : nat) (p : Z -> bool) (q : positive) (prev entry : option positive)
    (m : qmem) : option (option Z * qmem) :=
  match entry with
  | None => Some (None, m)
  | Some a =>
      match fuel with
      | O => None
      | S fuel' =>
          E ← cells m !! a;
          if p (e_data E) then
            Q ← queues m !! q;
            '(hd, m1) ← match prev with
                        | Some b => B ← cells m !! b;
                                    Some (head Q, set_cell b (mkEntry (e_data B) (e_next E)) m)
                        | None => Some (e_next E, m)
                        end;
            let tl := match e_next E with None => prev | Some _ => tail Q end in
            Some (Some (e_data E),
                  set_queue q (mkQueue (ref_count Q) hd tl (u32 (entries Q - 1))) (free_cell a m1))
          else unlink_loop fuel' p q (Some a) (e_next E) m
      end
  end.

Definition queue_remove (q : option positive) (data : Z) (m : qmem) : option (bool * qmem) :=
  match q with
  | None => Some (false, m)
  | Some q =>
      Q ← queues m !! q;
      '(r, m1) ← unlink_loop (loop_fuel m) (Z.eqb data) q None (head Q) m;
      Some (match r with Some _ => true | None => false end, m1)
  end.

Definition queue_remove_if (q : option positive) (function : option (Z -> Z -> bool))
    (user_data : Z) (m : qmem) : option (option Z * qmem) :=
  match q with
  | None => Some (None, m)
  | Some q =>
      Q ← queues m !! q;
      unlink_loop (loop_fuel m) (matcher function user_data) q None (head Q) m
  end.

(** The first loop of [queue_remove_all], which stops when nothing was removed;
    the result is [count] and the data given to [destroy]. *)
Fixpoint remove_all_loop (fuel : nat) (f : Z -> Z -> bool) (user_data : Z) (q : positive)
    (count : Z) (destroyed : list Z) (m : qmem) : option (Z * list Z * qmem) :=
  match fuel with
  | O => None
  | S fuel' =>
      Q ← queues m !! q;
      '(data, m1) ← queue_remove_if (Some q) (Some f) user_data m;
      Q1 ← queues m1 !! q;
      if entries Q =? entries Q1 then Some (count, destroyed, m1)
      else remove_all_loop fuel' f user_data q (u32 (count + 1))
             (destroyed ++ match data with Some d => [d] | None => [] end) m1
  end.

(** The second loop: every entry is freed. *)
Fixpoint free_all_loop (fuel : nat) (entry : option positive) (count : Z) (destroyed : list Z)
    (m : qmem) : option (Z * list Z * qmem) :=
  match entry with
  | None => Some (count, destroyed, m)
  | Some a =>
      match fuel with
      | O => None
      | S fuel' =>
          E ← cells m !! a;
          free_all_loop fuel' (e_next E) (u32 (count + 1)) (destroyed ++ [e_data E]) (free_cell a m)
      end
  end.

Definition queue_remove_all (q : option positive) (function : option (Z -> Z -> bool))
    (user_data : Z) (m : qmem) : option (Z * list Z * qmem) :=
  match q with
  | None => Some (0, [], m)
  | Some q =>
      Q ← queues m !! q;
      match function, head Q with
      | Some _, None => Some (0, [], m)
      | Some f, Some _ => remove_all_loop (loop_fuel m) f user_data q 0 [] m
      | None, entry =>
          free_all_loop (loop_fuel m) entry 0 []
            (set_queue q (mkQueue (ref_count Q) None None 0) m)
      end
  end.

Definition queue_destroy (q : option positive) (m : qmem) : option (list Z * qmem) :=
  match q with
  | None => Some ([], m)
  | Some q =>
      '(_, destroyed, m1) ← queue_remove_all (Some q) None 0 m;
      m2 ← queue_unref q m1;
      Some (destroyed, m2)
  end.

Definition queue_length (q : option positive) (m : qmem) : option Z :=
  match q with None => Some 0 | Some q => Q ← queues m !! q; Some (entries Q) end.

Definition queue_isempty (q : option positive) (m : qmem) : option bool :=
  match q with None => Some true | Some q => Q ← queues m !! q; Some (entries Q =? 0) end.

(** [queue_foreach]: [function] may do anything to the memory.  The log is the
    data it was called with. *)
Fixpoint foreach_loop (fuel : nat) (function : Z -> qmem -> option qmem) (q : positive)
    (entry : option positive) (log : list Z) (m : qmem) : option (list Z * qmem) :=
  match entry with
  | None => Some (log, m)
  | Some a =>
      match fuel with
      | O => None
      | S fuel' =>
          Q ← queues m !! q;
          if match head Q with Some _ => 1 <? ref_count Q | None => false end then
            E ← cells m !! a;
            m1 ← function (e_data E) m;
            foreach_loop fuel' function q (e_next E) (log ++ [e_data E]) m1
          else Some (log, m)
      end
  end.

Definition queue_foreach (fuel : nat) (q : option positive) (function : Z -> qmem -> option qmem)
    (m : qmem) : option (list Z * qmem) :=
  match q with
  | None => Some ([], m)
  | Some q =>
      Q ← queues m !! q;
      match head Q with
      | None => Some ([], m)
      | Some a =>
          m1 ← queue_ref q m;
          '(log, m2) ← foreach_loop fuel function q (Some a) [] m1;
          m3 ← queue_unref q m2;
          Some (log, m3)
      end
  end.

(** ** The lists a memory stands for *)

(** The entries from [h] on are [l], up to [t]. *)
Fixpoint lseg (c : gmap positive queue_entry) (h : option positive) (l : list (positive * Z))
    (t : option positive) : Prop :=
  match l with
  | [] => h = t
  | (a, d) :: l' => h = Some a /\ exists n, c !! a = Some (mkEntry d n) /\ lseg c n l' t
  end.

Record queue_rep (n : Z) (m : qmem) (q : positive) (l : list (positive * Z)) : Prop := {
  rep_queue : exists Q, queues m !! q = Some Q /\ ref_count Q = n /\
    lseg (cells m) (head Q) l None /\ tail Q = fst <$> last l /\ entries Q = u32 (zlen l);
  rep_nodup : NoDup l.*1
}.

Abbreviation store := (gmap positive (list (positive * Z))).

Record mem_rep (rc : positive -> Z) (m : qmem) (L : store) : Prop := {
  mem_dom : dom (queues m) = dom L;
  mem_queue : forall q l, L !! q = Some l -> queue_rep (rc q) m q l;
  mem_disjoint : forall q1 q2 l1 l2 a, L !! q1 = Some l1 -> L !! q2 = Some l2 ->
    a ∈ l1.*1 -> a ∈ l2.*1 -> q1 = q2;
  mem_owned : forall a, is_Some (cells m !! a) -> exists q l, L !! q = Some l /\ a ∈ l.*1
}.

Lemma lseg_app c h l1 l2 t :
  lseg c h (l1 ++ l2) t <-> exists n, lseg c h l1 n /\ lseg c n l2 t.
Proof.
  revert h. induction l1 as [|[a d] l1 IH]; intros h; simpl.
  - split; [eauto|by intros (? & -> & ?)].
  - setoid_rewrite IH. split.
    + intros (-> & n & Ha & n' & ? & ?). eauto 10.
    + intros (n' & (-> & n & Ha & ?) & ?). eauto 10.
Qed.

Lemma lseg_frame c c' h l t :
  (forall a, a ∈ l.*1 -> c' !! a = c !! a) -> lseg c h l t -> lseg c' h l t.
Proof.
  revert h. induction l as [|[a d] l IH]; intros h Hc; simpl; [done|].
  intros (-> & n & Ha & Hl). split; [done|]. exists n. rewrite Hc by (simpl; set_solver).
  split; [done|]. apply IH; [|done]. intros b Hb. apply Hc. simpl. set_solver.
Qed.

Lemma lseg_dom c h l t a : lseg c h l t -> a ∈ l.*1 -> is_Some (c !! a).
Proof.
  revert h. induction l as [|[b d] l IH]; intros h; simpl; [by intros _ ?%not_elem_of_nil|].
  intros (-> & n & Hb & Hl) [->|Hin]%elem_of_cons; [by eexists|eauto].
Qed.

(** A change confined to one queue and to addresses nobody else has. *)
Lemma mem_rep_update rc m m' L q l l' :
  mem_rep rc m L -> L !! q = Some l ->
  (forall q', q' <> q -> queues m' !! q' = queues m !! q') ->
  (forall a, a ∉ l.*1 -> a ∉ l'.*1 -> cells m' !! a = cells m !! a) ->
  (forall a, a ∈ l'.*1 -> a ∈ l.*1 \/ cells m !! a = None) ->
  (forall a, a ∈ l.*1 -> a ∉ l'.*1 -> cells m' !! a = None) ->
  queue_rep (rc q) m' q l' -> mem_rep rc m' (<[q := l']> L).
Proof.
  intros [Hd Hq Hdis Hown] HL Hqs Hcs Hnew Hfree Hrep.
  assert (Hother : forall q' l2 a, q' <> q -> L !! q' = Some l2 -> a ∈ l2.*1 ->
            a ∉ l.*1 /\ a ∉ l'.*1).
  { intros q' l2 a Hne H2 Ha. assert (Hnl : a ∉ l.*1) by (intros Hl; by destruct Hne; eauto).
    split; [done|]. intros Hl'. destruct (Hnew a Hl') as [?|Hnone]; [done|].
    destruct (rep_queue _ _ _ _ (Hq q' l2 H2)) as (Q & _ & _ & Hseg & _).
    destruct (lseg_dom _ _ _ _ _ Hseg Ha). congruence. }
  split.
  - apply set_eq. intros x. rewrite dom_insert, elem_of_union, elem_of_singleton, elem_of_dom.
    destruct (decide (x = q)) as [->|Hne].
    + destruct (rep_queue _ _ _ _ Hrep) as (Q & HQ & _). split; [by left|by eexists].
    + rewrite (Hqs x Hne), <- elem_of_dom, Hd. set_solver.
  - intros q' l2. destruct (decide (q' = q)) as [->|Hne].
    + rewrite lookup_insert_eq. intros [= <-]. done.
    + rewrite lookup_insert_ne by done. intros H2. destruct (Hq q' l2 H2) as [(Q & HQ & ? & Hseg & ?) ?].
      split; [|done]. exists Q. rewrite Hqs by done. split; [done|]. split; [done|].
      split; [|done]. eapply lseg_frame; [|done]. intros a Ha.
      destruct (Hother q' l2 a Hne H2 Ha). by apply Hcs.
  - intros q1 q2 l1 l2 a H1 H2 Ha1 Ha2.
    destruct (decide (q1 = q)) as [->|Hn1], (decide (q2 = q)) as [->|Hn2]; [done| | |].
    + rewrite lookup_insert_eq in H1. rewrite lookup_insert_ne in H2 by done. simplify_eq.
      by destruct (Hother q2 l2 a Hn2 H2 Ha2).
    + rewrite lookup_insert_eq in H2. rewrite lookup_insert_ne in H1 by done. simplify_eq.
      by destruct (Hother q1 l1 a Hn1 H1 Ha1).
    + rewrite lookup_insert_ne in H1, H2 by done. eauto.
  - intros a Ha. destruct (decide (a ∈ l'.*1)) as [Hin|Hout].
    + exists q, l'. by rewrite lookup_insert_eq.
    + destruct (decide (a ∈ l.*1)) as [Hl|Hl].
      * rewrite (Hfree a Hl Hout) in Ha. by destruct Ha.
      * rewrite Hcs in Ha by done. destruct (Hown a Ha) as (q' & l2 & H2 & Ha2).
        exists q', l2. rewrite lookup_insert_ne; [done|]. intros ->. congruence.
Qed.

(** ** The operations *)

Lemma rep_fuel n m q l : queue_rep n m q l -> (length l < loop_fuel m)%nat.
Proof.
  intros [(Q & _ & _ & Hseg & _) Hnd]. unfold loop_fuel.
  assert (Hsub : list_to_set (l.*1) ⊆@{gset positive} dom (cells m)).
  { intros a Ha%elem_of_list_to_set. apply elem_of_dom. by eapply lseg_dom. }
  apply subseteq_size in Hsub. rewrite size_list_to_set, length_fmap in Hsub by done.
  rewrite size_dom in Hsub. lia.
Qed.

(** A fresh cell belongs to nobody. *)
Lemma rep_fresh rc m L :
  mem_rep rc m L -> cells m !! fresh (dom (cells m)) = None /\
  forall q l, L !! q = Some l -> fresh (dom (cells m)) ∉ l.*1.
Proof.
  intros Hrep. assert (Hn : cells m !! fresh (dom (cells m)) = None)
    by (apply not_elem_of_dom, is_fresh).
  split; [done|]. intros q l HL Hin.
  destruct (rep_queue _ _ _ _ (mem_queue _ _ _ Hrep q l HL)) as (Q & _ & _ & Hseg & _).
  destruct (lseg_dom _ _ _ _ _ Hseg Hin). congruence.
Qed.

Lemma find_entry_spec fuel p h l m :
  lseg (cells m) h l None -> (length l <= fuel)%nat ->
  find_entry fuel p h m = Some (fst <$> List.find (fun x => p x.2) l).
Proof.
  revert h fuel. induction l as [|[a d] l IH]; intros h fuel; simpl.
  - intros -> _. by destruct fuel.
  - intros (-> & n & Ha & Hl) Hf. destruct fuel as [|fuel]; [lia|]. cbn [find_entry].
    rewrite Ha. cbn [mbind option_bind e_data e_next]. destruct (p d); [done|].
    apply IH; [done|lia].
Qed.

Lemma find_split (p : Z -> bool) (l : list (positive * Z)) :
  (List.find (fun x => p x.2) l = None /\ Forall (fun x => p x.2 = false) l) \/
  exists pre a d suf, l = pre ++ (a, d) :: suf /\ Forall (fun x => p x.2 = false) pre /\
    p d = true /\ List.find (fun x => p x.2) l = Some (a, d).
Proof.
  induction l as [|[a d] l IH]; [by left|]. simpl. destruct (p d) eqn:Hd.
  - right. exists [], a, d, l. done.
  - destruct IH as [[Hn Hall]|(pre & a' & d' & suf & -> & Hpre & Hd' & Hf)].
    + left. split; [done|]. by constructor.
    + right. exists ((a, d) :: pre), a', d', suf. repeat split; [by constructor|done|done].
Qed.

(** The head of a list segment. *)
Definition lhead (l : list (positive * Z)) (t : option positive) : option positive :=
  match l with [] => t | x :: _ => Some x.1 end.

Lemma lseg_lhead c h l t : lseg c h l t -> h = lhead l t.
Proof. destruct l as [|[a d] l]; simpl; [done|by intros []]. Qed.

Lemma last_app_cons {A} (l1 l2 : list A) x : last (l1 ++ x :: l2) = last (x :: l2).
Proof. rewrite last_app. destruct (last (x :: l2)) eqn:E; [done|]. by apply last_None in E. Qed.

(** Redirecting the last cell of a segment. *)
Lemma lseg_snoc_update c h pre b B x l t :
  lseg c h (pre ++ [(b, B)]) x -> b ∉ pre.*1 -> b ∉ l.*1 ->
  (forall n, lseg (<[b := mkEntry B n]> c) n l t ->
     lseg (<[b := mkEntry B n]> c) h (pre ++ [(b, B)] ++ l) t).
Proof.
  intros Hseg Hpre Hl n Hn. apply lseg_app in Hseg as (k & Hk & Hb). simpl in Hb.
  destruct Hb as (-> & n' & Hb & ->). apply lseg_app. exists (Some b). split.
  - eapply lseg_frame; [|exact Hk]. intros a Ha. rewrite lookup_insert_ne; [done|].
    intros ->. done.
  - simpl. split; [done|]. exists n. by rewrite lookup_insert_eq.
Qed.

Lemma nodup_snoc_inv (pre : list (positive * Z)) b B :
  NoDup (pre ++ [(b, B)]).*1 -> b ∉ pre.*1.
Proof. rewrite fmap_app. intros (_ & Hd & _)%NoDup_app Hin. apply (Hd b Hin). simpl. set_solver. Qed.

(** Membership in lists of addresses. *)
Ltac addr_solve :=
  repeat first
    [ progress intros
    | progress rewrite ?fmap_app, ?fmap_cons, ?elem_of_app, ?elem_of_cons in *
    | progress cbn [fst snd fmap list_fmap app] in *
    | progress subst ];
  try (set_solver || tauto || congruence).

Lemma push_tail_spec rc m L q l d :
  mem_rep rc m L -> L !! q = Some l ->
  exists a m', queue_push_tail (Some q) d m = Some (true, m') /\
    mem_rep rc m' (<[q := l ++ [(a, d)]]> L).
Proof.
  intros Hrep HL. destruct (rep_fresh _ _ _ Hrep) as [Hfn Hfr].
  destruct (mem_queue _ _ _ Hrep q l HL) as [(Q & HQ & Hrc & Hseg & Htl & Hent) Hnd].
  exists (fresh (dom (cells m))). unfold queue_push_tail, queue_entry_new. rewrite HQ.
  cbn [mbind option_bind]. set (a := fresh _) in *. clearbody a. specialize (Hfr q l HL).
  assert (Hnd' : NoDup (l ++ [(a, d)]).*1).
  { rewrite fmap_app. apply NoDup_app. split; [done|]. split; [|apply NoDup_singleton].
    intros x Hx ->%list_elem_of_singleton. done. }
  assert (Hent' : u32 (entries Q + 1) = u32 (zlen (l ++ [(a, d)]))).
  { rewrite Hent, zlen_app. unfold wrap, zlen at 2. simpl. by rewrite Zplus_mod_idemp_l. }
  destruct (last l) as [[t dt]|] eqn:Hlast.
  - apply last_Some in Hlast as [pre ->]. rewrite Htl. simpl.
    assert (Ht : cells m !! t = Some (mkEntry dt None)).
    { apply lseg_app in Hseg as (k & _ & Hk). simpl in Hk. by destruct Hk as (-> & n & Ht & ->). }
    assert (Hta : t <> a) by (intros ->; congruence).
    rewrite lookup_insert_ne by done. rewrite Ht. cbn [mbind option_bind].
    eexists. split; [done|].
    eapply mem_rep_update; [exact Hrep|exact HL|..].
    + intros q' Hne. simpl. by rewrite lookup_insert_ne.
    + intros x Hx Hx'. simpl. rewrite !lookup_insert_ne; [done|addr_solve..].
    + intros x. rewrite !fmap_app. simpl. intros Hx. rewrite elem_of_app, list_elem_of_singleton in Hx.
      destruct Hx as [Hx| ->]; [by left|by right].
    + addr_solve.
    + split; [|done]. eexists. simpl. rewrite lookup_insert_eq. split; [done|]. split; [done|].
      split; [|split; [by rewrite last_app_cons|done]].
      rewrite <- app_assoc.
      assert (Hh : head Q = lhead (pre ++ [(t, dt)]) None) by by apply lseg_lhead in Hseg.
      replace (match head Q with Some h => Some h | None => Some a end) with (head Q)
        by (rewrite Hh; by destruct pre).
      eapply lseg_snoc_update.
      * eapply lseg_frame; [|exact Hseg]. intros x Hx. rewrite lookup_insert_ne; [done|].
        intros <-. done.
      * by eapply nodup_snoc_inv.
      * simpl. set_solver.
      * simpl. split; [done|]. exists None. by rewrite lookup_insert_ne, lookup_insert_eq.
  - apply last_None in Hlast as ->. rewrite Htl. simpl in Hseg. rewrite Hseg. simpl.
    eexists. split; [done|].
    eapply mem_rep_update; [exact Hrep|exact HL|..].
    + intros q' Hne. simpl. by rewrite lookup_insert_ne.
    + intros x _ Hx'. simpl in *. rewrite lookup_insert_ne; [done|set_solver].
    + intros x. simpl. rewrite list_elem_of_singleton. intros ->. by right.
    + intros x Hx%not_elem_of_nil. done.
    + split; [|done]. eexists. simpl. rewrite lookup_insert_eq. split; [done|]. split; [done|].
      split; [|done]. simpl. split; [done|]. exists None. by rewrite lookup_insert_eq.
Qed.

Lemma u32_add_zlen e (l : list (positive * Z)) k :
  e = u32 (zlen l) -> u32 (e + k) = u32 (zlen l + k).
Proof. intros ->. unfold wrap. by rewrite Zplus_mod_idemp_l. Qed.

Lemma u32_sub_zlen e (l l' : list (positive * Z)) :
  e = u32 (zlen l) -> zlen l' = zlen l - 1 -> u32 (e - 1) = u32 (zlen l').
Proof. intros -> ->. unfold wrap. by rewrite Zminus_mod_idemp_l. Qed.

Lemma push_head_spec rc m L q l d :
  mem_rep rc m L -> L !! q = Some l ->
  exists a m', queue_push_head (Some q) d m = Some (true, m') /\
    mem_rep rc m' (<[q := (a, d) :: l]> L).
Proof.
  intros Hrep HL. destruct (rep_fresh _ _ _ Hrep) as [Hfn Hfr].
  destruct (mem_queue _ _ _ Hrep q l HL) as [(Q & HQ & Hrc & Hseg & Htl & Hent) Hnd].
  exists (fresh (dom (cells m))). unfold queue_push_head, queue_entry_new. rewrite HQ.
  cbn [mbind option_bind]. set (a := fresh _) in *. clearbody a. specialize (Hfr q l HL).
  eexists. split; [done|].
  eapply mem_rep_update; [exact Hrep|exact HL|..].
  - intros q' Hne. simpl. by rewrite lookup_insert_ne.
  - intros x Hx Hx'. simpl. rewrite !lookup_insert_ne; [done|addr_solve..].
  - addr_solve.
  - addr_solve.
  - split; [|simpl; by constructor]. eexists. simpl. rewrite lookup_insert_eq.
    split; [done|]. split; [done|]. split; [|split].
    + split; [done|]. eexists. rewrite lookup_insert_eq. split; [done|].
      eapply lseg_frame; [|exact Hseg]. intros x Hx. rewrite !lookup_insert_ne; [done|addr_solve..].
    + rewrite Htl. destruct l as [|y l]; [reflexivity|]. cbn [tail]. rewrite !last_cons.
      by destruct (last l).
    + rewrite (u32_add_zlen _ _ _ Hent), zlen_cons. by rewrite Z.add_comm.
Qed.

Lemma pop_head_spec rc m L q l :
  mem_rep rc m L -> L !! q = Some l ->
  exists m' l', queue_pop_head (Some q) m = Some (snd <$> List.hd_error l, m') /\
    l' = tl l /\ mem_rep rc m' (<[q := l']> L).
Proof.
  intros Hrep HL.
  destruct (mem_queue _ _ _ Hrep q l HL) as [(Q & HQ & Hrc & Hseg & Htl & Hent) Hnd].
  unfold queue_pop_head. rewrite HQ. cbn [mbind option_bind].
  destruct l as [|[a d] l]; simpl in Hseg.
  - rewrite Hseg. eexists _, _. split; [done|]. split; [done|]. simpl. by rewrite insert_id.
  - destruct Hseg as (Hh & n & Ha & Hl). rewrite Hh, Ha. cbn [mbind option_bind e_data e_next].
    eexists _, _. split; [done|]. split; [done|]. cbn [List.tl].
    cbn [fmap list_fmap fst] in Hnd. apply NoDup_cons in Hnd as [Hna Hnd].
    eapply mem_rep_update; [exact Hrep|exact HL|..].
    + intros q' Hne. simpl. by rewrite lookup_insert_ne.
    + intros x Hx Hx'. simpl. rewrite lookup_delete_ne; [done|addr_solve].
    + addr_solve.
    + intros x Hx Hx'. simpl. assert (x = a) as -> by addr_solve. by rewrite lookup_delete_eq.
    + split; [|done]. eexists. simpl. rewrite lookup_insert_eq. split; [done|].
      assert (Hn : n = lhead l None) by by apply lseg_lhead in Hl.
      split; [by destruct n|]. split; [|split].
      * eapply lseg_frame; [intros x Hx; rewrite lookup_delete_ne; [done|addr_solve]|].
        by destruct n.
      * destruct l as [|y l]; [by rewrite Hn|]. rewrite Hn. simpl. rewrite Htl. by rewrite last_cons_cons.
      * rewrite <- (u32_sub_zlen _ _ l Hent) by (rewrite zlen_cons; lia). by destruct n.
Qed.

(** Walking past entries that do not match. *)
Lemma unlink_walk fuel p q m pre prev h t :
  lseg (cells m) h pre t -> Forall (fun x => p x.2 = false) pre ->
  unlink_loop (length pre + fuel) p q prev h m =
  unlink_loop fuel p q (match last pre with Some x => Some x.1 | None => prev end) t m.
Proof.
  revert prev h. induction pre as [|[a d] pre IH]; intros prev h; simpl.
  - by intros ->.
  - intros (-> & n & Ha & Hl) [Hd Hpre]%Forall_cons. rewrite Ha. cbn [mbind option_bind e_data e_next].
    simpl in Hd. rewrite Hd. rewrite (IH _ _ Hl Hpre). f_equal. rewrite last_cons.
    by destruct (last pre).
Qed.

(** The memory after an entry was unlinked. *)
Lemma unlink_spec rc m L q l Q pre a d suf p prev :
  mem_rep rc m L -> L !! q = Some l -> queues m !! q = Some Q ->
  l = pre ++ (a, d) :: suf -> p d = true -> prev = (fst <$> last pre) ->
  forall fuel, exists m', unlink_loop (S fuel) p q prev (Some a) m = Some (Some d, m') /\
    mem_rep rc m' (<[q := pre ++ suf]> L).
Proof.
  intros Hrep HL HQ0 -> Hp -> fuel.
  destruct (mem_queue _ _ _ Hrep q _ HL) as [(Q1 & HQ & Hrc & Hseg & Htl & Hent) Hnd].
  assert (Q1 = Q) as -> by congruence. cbn [unlink_loop].
  pose proof Hseg as Hseg0. apply lseg_app in Hseg as (k & Hpre & -> & n & Ha & Hsuf).
  rewrite Ha. cbn [mbind option_bind e_data e_next]. rewrite Hp, HQ. cbn [mbind option_bind].
  assert (Hnd' : NoDup (pre ++ suf).*1 /\ a ∉ (pre ++ suf).*1).
  { rewrite fmap_app in Hnd |- *. apply NoDup_app in Hnd as (H1 & H2 & [H3 H4]%NoDup_cons).
    split; [apply NoDup_app; split; [done|]; split; [|done]; intros x Hx Hx'; apply (H2 x Hx); by right|].
    rewrite elem_of_app. intros [Hx|Hx]; [|done]. apply (H2 a Hx). by left. }
  destruct Hnd' as [Hnd' Hna].
  assert (Hlen : u32 (entries Q - 1) = u32 (zlen (pre ++ suf))).
  { apply (u32_sub_zlen _ _ _ Hent). rewrite !zlen_app, zlen_cons. lia. }
  assert (Hn : n = lhead suf None) by by apply lseg_lhead in Hsuf.
  assert (Htl' : match n with None => fst <$> last pre | Some _ => tail Q end
            = (fst <$> last (pre ++ suf))).
  { rewrite Hn. destruct suf as [|y suf]; simpl; [by rewrite app_nil_r|].
    rewrite Htl, !last_app_cons. by rewrite last_cons_cons. }
  destruct (last pre) as [[b B]|] eqn:Hlast; simpl in Htl' |- *.
  - apply last_Some in Hlast as [pre' ->].
    pose proof Hpre as Hpre0. apply lseg_app in Hpre as (k' & Hpre' & Hb). simpl in Hb.
    destruct Hb as (-> & n' & Hb & ->). rewrite Hb. cbn [mbind option_bind e_data].
    eexists. split; [done|].
    assert (Hba : b <> a) by (intros ->; apply Hna; addr_solve).
    eapply mem_rep_update; [exact Hrep|exact HL|..].
    + intros q' Hne. simpl. by rewrite lookup_insert_ne.
    + intros x Hx Hx'. simpl. rewrite lookup_delete_ne, lookup_insert_ne; [done|addr_solve..].
    + addr_solve.
    + intros x Hx Hx'. simpl. assert (x = a) as -> by addr_solve. by rewrite lookup_delete_eq.
    + split; [|done]. eexists. simpl. rewrite lookup_insert_eq. split; [done|]. split; [done|].
      split; [|split; [exact Htl'|done]].
      eapply lseg_frame; [intros x Hx; rewrite lookup_delete_ne; [done|intros <-; done]|].
      rewrite <- app_assoc. eapply lseg_snoc_update; [exact Hpre0| | |].
      * apply (nodup_snoc_inv _ b B). rewrite fmap_app in Hnd'. by apply NoDup_app in Hnd' as [? _].
      * rewrite fmap_app in Hnd'. apply NoDup_app in Hnd' as (_ & H2 & _). apply H2. addr_solve.
      * eapply lseg_frame; [|exact Hsuf]. intros x Hx. rewrite lookup_insert_ne; [done|].
        rewrite fmap_app in Hnd'. apply NoDup_app in Hnd' as (_ & H2 & _).
        intros ->. apply (H2 x); [addr_solve|done].
  - apply last_None in Hlast as ->. simpl in Hpre, Hna, Hnd'. eexists. split; [done|].
    eapply mem_rep_update; [exact Hrep|exact HL|..].
    + intros q' Hne. simpl. by rewrite lookup_insert_ne.
    + intros x Hx Hx'. simpl. rewrite lookup_delete_ne; [done|addr_solve..].
    + addr_solve.
    + intros x Hx Hx'. simpl. assert (x = a) as -> by addr_solve. by rewrite lookup_delete_eq.
    + split; [|done]. eexists. simpl. rewrite lookup_insert_eq. split; [done|]. split; [done|].
      split; [|split; [exact Htl'|done]].
      eapply lseg_frame; [|exact Hsuf]. intros x Hx. rewrite lookup_delete_ne; [done|addr_solve].
Qed.

Lemma unlink_loop_spec rc m L q l Q p :
  mem_rep rc m L -> L !! q = Some l -> queues m !! q = Some Q ->
  (Forall (fun x => p x.2 = false) l /\
   unlink_loop (loop_fuel m) p q None (head Q) m = Some (None, m)) \/
  exists pre a d suf m', l = pre ++ (a, d) :: suf /\ Forall (fun x => p x.2 = false) pre /\
    p d = true /\ unlink_loop (loop_fuel m) p q None (head Q) m = Some (Some d, m') /\
    mem_rep rc m' (<[q := pre ++ suf]> L).
Proof.
  intros Hrep HL HQ. pose proof (rep_fuel _ _ _ _ (mem_queue _ _ _ Hrep q l HL)) as Hf.
  destruct (mem_queue _ _ _ Hrep q l HL) as [(Q1 & HQ1 & _ & Hseg & _) _].
  assert (Q1 = Q) as -> by congruence.
  destruct (find_split p l) as [[_ Hall]|(pre & a & d & suf & -> & Hpre & Hd & _)].
  - left. split; [done|]. replace (loop_fuel m) with (length l + (loop_fuel m - length l))%nat by lia.
    rewrite (unlink_walk _ _ _ _ _ _ _ _ Hseg Hall). by destruct (loop_fuel m - length l)%nat.
  - right. pose proof Hseg as Hseg0. apply lseg_app in Hseg as (k & Hk & Hsuf).
    assert (k = Some a) as -> by by destruct Hsuf.
    rewrite length_app in Hf. cbn [length] in Hf.
    destruct (unlink_spec rc m L q _ Q pre a d suf p (fst <$> last pre) Hrep HL HQ
                eq_refl Hd eq_refl (loop_fuel m - S (length pre))) as (m' & Hu & Hrep').
    exists pre, a, d, suf, m'. split; [done|]. split; [done|]. split; [done|]. split; [|done].
    replace (loop_fuel m) with (length pre + S (loop_fuel m - S (length pre)))%nat by lia.
    rewrite (unlink_walk _ _ _ _ _ _ _ _ Hk Hpre). rewrite <- Hu. f_equal.
Qed.

Lemma push_after_spec rc m L q l e d :
  mem_rep rc m L -> L !! q = Some l ->
  (Forall (fun x => (e =? x.2) = false) l /\ queue_push_after (Some q) e d m = Some (false, m)) \/
  exists pre a b suf m', l = pre ++ (a, e) :: suf /\ Forall (fun x => (e =? x.2) = false) pre /\
    queue_push_after (Some q) e d m = Some (true, m') /\
    mem_rep rc m' (<[q := pre ++ (a, e) :: (b, d) :: suf]> L).
Proof.
  intros Hrep HL. destruct (rep_fresh _ _ _ Hrep) as [Hfn Hfr].
  pose proof (rep_fuel _ _ _ _ (mem_queue _ _ _ Hrep q l HL)) as Hf.
  destruct (mem_queue _ _ _ Hrep q l HL) as [(Q & HQ & Hrc & Hseg & Htl & Hent) Hnd].
  unfold queue_push_after, queue_entry_new. rewrite HQ. cbn [mbind option_bind].
  rewrite (find_entry_spec _ _ _ l) by (done || lia). cbn [mbind option_bind].
  destruct (find_split (Z.eqb e) l) as [[-> Hall]|(pre & a & d' & suf & -> & Hpre & Hd & ->)].
  - left. done.
  - apply Z.eqb_eq in Hd as <-. right. exists pre, a, (fresh (dom (cells m))), suf.
    cbn [fmap option_fmap option_map fst]. set (b := fresh _) in *. clearbody b.
    specialize (Hfr q _ HL). pose proof Hseg as Hseg0.
    apply lseg_app in Hseg as (k & Hk & -> & n & Ha & Hsuf).
    assert (Hab : a <> b) by (intros ->; congruence).
    simpl. rewrite lookup_insert_ne by done. rewrite Ha. cbn [mbind option_bind e_data e_next].
    eexists. split; [done|]. split; [done|]. split; [done|].
    assert (Hnd2 : NoDup (pre ++ (a, e) :: (b, d) :: suf).*1).
    { rewrite fmap_app in Hnd, Hfr |- *. cbn [fmap list_fmap fst] in *.
      apply NoDup_app in Hnd as (H1 & H2 & [H3 H4]%NoDup_cons).
      rewrite elem_of_app, elem_of_cons in Hfr.
      apply NoDup_app. split; [done|]. split.
      - intros x Hx [->|[->|Hx']%elem_of_cons]%elem_of_cons; [apply (H2 a Hx); by left|tauto|].
        apply (H2 x Hx). by right.
      - apply NoDup_cons. split; [rewrite elem_of_cons; intuition congruence|].
        apply NoDup_cons. tauto. }
    eapply mem_rep_update; [exact Hrep|exact HL|..].
    + intros q' Hne. simpl. by rewrite lookup_insert_ne.
    + intros x Hx Hx'. simpl. rewrite !lookup_insert_ne; [done|addr_solve..].
    + intros x. rewrite !fmap_app. cbn [fmap list_fmap fst]. rewrite !elem_of_app, !elem_of_cons.
      intros [?|[?|[->|?]]]; tauto.
    + intros x. rewrite !fmap_app. cbn [fmap list_fmap fst]. rewrite !elem_of_app, !elem_of_cons. tauto.
    + split; [|done]. eexists. simpl. rewrite lookup_insert_eq. split; [done|]. split; [done|].
      rewrite fmap_app in Hfr. cbn [fmap list_fmap fst] in Hfr. rewrite elem_of_app, elem_of_cons in Hfr.
      split; [|split].
      * apply lseg_app. exists (Some a). split.
        { eapply lseg_frame; [|exact Hk]. intros x Hx.
          rewrite !lookup_insert_ne; [done|intros <-; tauto|intros <-; tauto|].
          rewrite fmap_app in Hnd. apply NoDup_app in Hnd as (_ & H2 & _).
          intros <-. apply (H2 _ Hx). by left. }
        simpl. split; [done|]. eexists. rewrite lookup_insert_eq. split; [done|].
        split; [done|]. exists n. rewrite lookup_insert_ne, lookup_insert_eq by done. split; [done|].
        eapply lseg_frame; [|exact Hsuf]. intros x Hx.
        rewrite !lookup_insert_ne; [done|intros <-; tauto|intros <-; tauto|].
        rewrite fmap_app in Hnd. apply NoDup_app in Hnd as (_ & _ & [H3 _]%NoDup_cons).
        intros <-. done.
      * assert (Hn : n = lhead suf None) by by apply lseg_lhead in Hsuf.
        rewrite last_app_cons. rewrite Hn. destruct suf as [|y suf]; [done|]. simpl.
        rewrite Htl, last_app_cons. by rewrite !last_cons_cons.
      * cbn [entries]. rewrite (u32_add_zlen _ _ _ Hent). f_equal. rewrite !zlen_app, !zlen_cons. lia.
Qed.

Lemma peek_spec rc m L q l :
  mem_rep rc m L -> L !! q = Some l ->
  queue_peek_head (Some q) m = Some (snd <$> List.hd_error l) /\
  queue_peek_tail (Some q) m = Some (snd <$> last l).
Proof.
  intros Hrep HL. destruct (mem_queue _ _ _ Hrep q l HL) as [(Q & HQ & _ & Hseg & Htl & _) _].
  unfold queue_peek_head, queue_peek_tail, queue_peek. rewrite HQ. cbn [mbind option_bind]. split.
  - destruct l as [|[a d] l]; simpl in Hseg; [by rewrite Hseg|].
    destruct Hseg as (-> & n & -> & _). done.
  - rewrite Htl. destruct (last l) as [[b B]|] eqn:Hlast; [|done].
    apply last_Some in Hlast as [pre ->]. apply lseg_app in Hseg as (k & _ & Hb).
    simpl in Hb. destruct Hb as (_ & n & Hb & _). simpl. by rewrite Hb.
Qed.

Lemma find_spec rc m L q l f d :
  mem_rep rc m L -> L !! q = Some l ->
  queue_find (Some q) f d m = Some (List.find (matcher f d) l.*2).
Proof.
  intros Hrep HL. pose proof (rep_fuel _ _ _ _ (mem_queue _ _ _ Hrep q l HL)) as Hf.
  destruct (mem_queue _ _ _ Hrep q l HL) as [(Q & HQ & _ & Hseg & _) _].
  unfold queue_find. rewrite HQ. cbn [mbind option_bind].
  rewrite (find_entry_spec _ _ _ l) by (done || lia). cbn [mbind option_bind].
  assert (Hmap : List.find (matcher f d) l.*2
            = snd <$> List.find (fun x : positive * Z => matcher f d x.2) l).
  { clear. induction l as [|[a x] l IH]; [done|]. simpl. by destruct (matcher f d x). }
  rewrite Hmap.
  destruct (find_split (matcher f d) l) as [[-> _]|(pre & a & x & suf & -> & _ & _ & ->)]; [done|].
  apply lseg_app in Hseg as (k & _ & _ & n & Ha & _). simpl. by rewrite Ha.
Qed.

Lemma u32_pred x : u32 x <> u32 (x - 1).
Proof. unfold wrap. intros H. pose proof (Z.mod_pos_bound x (2 ^ 32)).
  pose proof (Z.mod_pos_bound (x - 1) (2 ^ 32)).
  pose proof (Z.div_mod x (2 ^ 32)). pose proof (Z.div_mod (x - 1) (2 ^ 32)). lia. Qed.

Lemma u32_plus a b : u32 (u32 a + b) = u32 (a + b).
Proof. unfold wrap. by rewrite Zplus_mod_idemp_l. Qed.

Lemma u32_idem a : u32 (u32 a) = u32 a.
Proof. unfold wrap. by rewrite Zmod_mod. Qed.

(** The elements a predicate keeps and drops. *)
Definition keep (p : Z -> bool) (l : list Z) : list Z := List.filter (fun d => negb (p d)) l.

Lemma filter_unmatched p (pre : list (positive * Z)) :
  Forall (fun x => p x.2 = false) pre -> List.filter p pre.*2 = [] /\ keep p pre.*2 = pre.*2.
Proof.
  induction 1 as [|[a d] l Hd _ [IH1 IH2]]; [done|]. unfold keep in *.
  cbn [fmap list_fmap snd List.filter] in *. rewrite Hd. cbn [negb]. by rewrite IH1, IH2.
Qed.

Lemma filter_at p (pre suf : list (positive * Z)) a d :
  Forall (fun x => p x.2 = false) pre -> p d = true ->
  List.filter p (pre ++ (a, d) :: suf).*2 = d :: List.filter p (pre ++ suf).*2 /\
  keep p (pre ++ (a, d) :: suf).*2 = keep p (pre ++ suf).*2.
Proof.
  intros [Hf Hk]%filter_unmatched Hd. unfold keep in *. rewrite !fmap_app, !List.filter_app, Hf, Hk.
  cbn [fmap list_fmap snd List.filter app]. rewrite Hd. done.
Qed.

Lemma filter_true l : List.filter (fun _ => true) l = l /\ keep (fun _ => true) l = [].
Proof.
  split; induction l as [|x l IH]; [done| |done|exact IH].
  cbn [List.filter]. by rewrite IH.
Qed.

Lemma remove_if_spec rc m L q l f d :
  mem_rep rc m L -> L !! q = Some l ->
  (Forall (fun x => matcher f d x.2 = false) l /\
     queue_remove_if (Some q) f d m = Some (None, m)) \/
  exists pre a x suf m', l = pre ++ (a, x) :: suf /\
    Forall (fun x => matcher f d x.2 = false) pre /\ matcher f d x = true /\
    queue_remove_if (Some q) f d m = Some (Some x, m') /\ mem_rep rc m' (<[q := pre ++ suf]> L).
Proof.
  intros Hrep HL. destruct (mem_queue _ _ _ Hrep q l HL) as [(Q & HQ & _) _].
  unfold queue_remove_if. rewrite HQ. cbn [mbind option_bind]. by apply (unlink_loop_spec rc m L q l Q).
Qed.

Lemma remove_all_loop_spec rc f d q fuel : forall m L l count ds,
  mem_rep rc m L -> L !! q = Some l -> (length l < fuel)%nat ->
  exists m' l', remove_all_loop fuel f d q count ds m =
      Some (if (zlen (List.filter (matcher (Some f) d) l.*2) =? 0) then count
            else u32 (count + zlen (List.filter (matcher (Some f) d) l.*2)),
            ds ++ List.filter (matcher (Some f) d) l.*2, m') /\
    mem_rep rc m' (<[q := l']> L) /\ l'.*2 = keep (matcher (Some f) d) l.*2.
Proof.
  induction fuel as [|fuel IH]; intros m L l count ds Hrep HL Hf; [lia|].
  cbn [remove_all_loop].
  destruct (mem_queue _ _ _ Hrep q l HL) as [(Q & HQ & _ & _ & _ & Hent) _].
  rewrite HQ. cbn [mbind option_bind].
  destruct (remove_if_spec rc m L q l (Some f) d Hrep HL)
    as [[Hall ->]|(pre & a & x & suf & m1 & -> & Hpre & Hx & -> & Hrep1)]; cbn [mbind option_bind].
  - rewrite HQ. cbn [mbind option_bind]. rewrite Z.eqb_refl.
    destruct (filter_unmatched _ _ Hall) as [-> ->]. exists m, l.
    rewrite app_nil_r, insert_id by done. done.
  - assert (HL1 : <[q:=pre ++ suf]> L !! q = Some (pre ++ suf)) by by rewrite lookup_insert_eq.
    destruct (mem_queue _ _ _ Hrep1 q _ HL1) as [(Q1 & HQ1 & _ & _ & _ & Hent1) _].
    rewrite HQ1. cbn [mbind option_bind].
    destruct (Z.eqb_spec (entries Q) (entries Q1)) as [He|_].
    { rewrite Hent, Hent1 in He. destruct (u32_pred (zlen (pre ++ (a, x) :: suf))). rewrite He. f_equal.
      rewrite !zlen_app, zlen_cons. lia. }
    destruct (IH m1 _ (pre ++ suf) (u32 (count + 1)) (ds ++ [x]) Hrep1 HL1) as (m' & l' & -> & Hr & Hl').
    { rewrite length_app in *. simpl in Hf. lia. }
    rewrite insert_insert_eq in Hr. destruct (filter_at (matcher (Some f) d) pre suf a x Hpre Hx) as [-> ->].
    exists m', l'. split; [|done]. f_equal. f_equal. f_equal; [|by rewrite <- app_assoc].
    f_equal. rewrite zlen_cons. set (n := zlen _).
    assert (0 <= n) by apply zlen_nonneg. rewrite (proj2 (Z.eqb_neq (1 + n) 0)) by lia.
    destruct (Z.eqb_spec n 0) as [->|]; [done|]. rewrite u32_plus. f_equal. lia.
Qed.

Lemma free_all_loop_spec l : forall fuel h count ds m,
  lseg (cells m) h l None -> NoDup l.*1 -> (length l < fuel)%nat ->
  exists m', free_all_loop fuel h count ds m =
      Some (if zlen l =? 0 then count else u32 (count + zlen l), ds ++ l.*2, m') /\
    queues m' = queues m /\
    (forall a, a ∈ l.*1 -> cells m' !! a = None) /\
    (forall a, a ∉ l.*1 -> cells m' !! a = cells m !! a).
Proof.
  induction l as [|[a d] l IH]; intros fuel h count ds m Hseg Hnd Hf; simpl in Hseg.
  - subst h. exists m. rewrite app_nil_r. destruct fuel; (split; [done|]; split; [done|]; split; [|done];
      intros a ?%not_elem_of_nil; done).
  - destruct fuel as [|fuel]; [simpl in Hf; lia|]. destruct Hseg as (-> & n & Ha & Hl).
    cbn [free_all_loop]. rewrite Ha. cbn [mbind option_bind e_data e_next].
    cbn [fmap list_fmap fst] in Hnd. apply NoDup_cons in Hnd as [Hna Hnd].
    destruct (IH fuel n (u32 (count + 1)) (ds ++ [d]) (free_cell a m)) as (m' & -> & Hq & Hin & Hout).
    + eapply lseg_frame; [|exact Hl]. intros x Hx. simpl. rewrite lookup_delete_ne; [done|].
      intros <-. done.
    + done.
    + simpl in Hf. lia.
    + exists m'. split; [|split; [done|split]].
      * f_equal. f_equal. f_equal; [|by rewrite <- app_assoc]. f_equal. rewrite zlen_cons.
        assert (0 <= zlen l) by apply zlen_nonneg. rewrite (proj2 (Z.eqb_neq (1 + zlen l) 0)) by lia.
        destruct (Z.eqb_spec (zlen l) 0) as [->|]; [done|]. rewrite u32_plus. f_equal. lia.
      * intros x [->|Hx]%elem_of_cons; [|by apply Hin]. simpl. rewrite Hout by done. simpl.
        apply lookup_delete_eq.
      * intros x Hx. cbn [fmap list_fmap fst] in Hx. rewrite elem_of_cons in Hx. rewrite Hout by tauto.
        simpl. apply lookup_delete_ne. intros ->. tauto.
Qed.

Lemma remove_all_spec rc m L q l function d :
  mem_rep rc m L -> L !! q = Some l ->
  let p x := match function with Some _ => matcher function d x | None => true end in
  exists m' l', queue_remove_all (Some q) function d m =
      Some (u32 (zlen (List.filter p l.*2)), List.filter p l.*2, m') /\
    mem_rep rc m' (<[q := l']> L) /\ l'.*2 = keep p l.*2.
Proof.
  intros Hrep HL p. pose proof (rep_fuel _ _ _ _ (mem_queue _ _ _ Hrep q l HL)) as Hf.
  destruct (mem_queue _ _ _ Hrep q l HL) as [(Q & HQ & Hrc & Hseg & Htl & Hent) Hnd].
  unfold queue_remove_all. rewrite HQ. cbn [mbind option_bind].
  destruct function as [f|].
  - destruct (head Q) as [h|] eqn:Hh.
    + destruct (remove_all_loop_spec rc f d q (loop_fuel m) m L l 0 [] Hrep HL Hf)
        as (m' & l' & -> & Hr & Hl'). exists m', l'. split; [|done].
      destruct (Z.eqb_spec (zlen (List.filter (matcher (Some f) d) l.*2)) 0) as [E|]; [|done].
      replace (zlen (List.filter p l.*2)) with 0 by (symmetry; exact E). done.
    + assert (l = []) as -> by (destruct l as [|[a x] l]; [done|by destruct Hseg]).
      exists m, []. split; [done|]. by rewrite insert_id.
  - set (m1 := set_queue _ _ _).
    destruct (free_all_loop_spec l (loop_fuel m) (head Q) 0 [] m1)
      as (m' & Hm' & Hq & Hin & Hout); [exact Hseg|done|done|].
    destruct (filter_true l.*2 : List.filter p l.*2 = l.*2 /\ keep p l.*2 = []) as [-> ->]. rewrite Hm'. exists m', []. split.
    { f_equal. f_equal. f_equal. unfold zlen. rewrite length_fmap.
      destruct (Z.eqb_spec (Z.of_nat (length l)) 0) as [->|]; done. }
    split; [|done].
    eapply mem_rep_update; [exact Hrep|exact HL|..].
    + intros q' Hne. rewrite Hq. simpl. by rewrite lookup_insert_ne.
    + intros a Ha _. by rewrite Hout.
    + intros a Ha%not_elem_of_nil. done.
    + intros a Ha _. by apply Hin.
    + split; [|constructor]. eexists. rewrite Hq. simpl. rewrite lookup_insert_eq. done.
Qed.

(** Dropping the last reference to an empty queue. *)
Lemma unref_last_spec rc m L q :
  mem_rep rc m L -> L !! q = Some [] -> rc q = 1 ->
  exists m', queue_unref q m = Some m' /\ mem_rep rc m' (delete q L).
Proof.
  intros Hrep HL Hrc1. pose proof Hrep as [Hd Hq Hdis Hown].
  destruct (Hq q [] HL) as [(Q & HQ & Hrc & _) _].
  unfold queue_unref. rewrite HQ. cbn [mbind option_bind]. rewrite Hrc, Hrc1. simpl.
  eexists. split; [done|]. split.
  - simpl. by rewrite !dom_delete_L, Hd.
  - intros q' l. destruct (decide (q' = q)) as [->|Hne]; [by rewrite lookup_delete_eq|].
    rewrite lookup_delete_ne by done. intros Hl. destruct (Hq q' l Hl) as [(Q' & ? & ?) ?].
    split; [|done]. exists Q'. simpl. by rewrite lookup_delete_ne.
  - intros q1 q2 l1 l2 a [_ H1]%lookup_delete_Some [_ H2]%lookup_delete_Some. eauto.
  - intros a Ha. destruct (Hown a Ha) as (q' & l & Hl & Hin). exists q', l.
    rewrite lookup_delete_ne; [done|]. intros <-. rewrite HL in Hl. simplify_eq.
    by apply not_elem_of_nil in Hin.
Qed.

Lemma destroy_spec rc m L q l :
  mem_rep rc m L -> L !! q = Some l -> rc q = 1 ->
  exists m', queue_destroy (Some q) m = Some (l.*2, m') /\ mem_rep rc m' (delete q L).
Proof.
  intros Hrep HL Hrc. unfold queue_destroy.
  destruct (remove_all_spec rc m L q l None 0 Hrep HL) as (m1 & l' & -> & Hrep1 & Hl').
  cbn [mbind option_bind]. destruct (filter_true l.*2) as [E1 E2]. rewrite E2 in Hl'. apply fmap_nil_inv in Hl' as ->.
  destruct (unref_last_spec rc m1 _ q Hrep1) as (m' & -> & Hrep'); [by rewrite lookup_insert_eq|done|].
  cbn [mbind option_bind]. exists m'. rewrite delete_insert_eq in Hrep'. split; [|done]. by rewrite E1.
Qed.

Lemma new_spec rc m L :
  mem_rep rc m L -> (forall q, rc q = 1) ->
  exists m', queue_new m = Some (fresh (dom L), m') /\ mem_rep rc m' (<[fresh (dom L) := []]> L).
Proof.
  intros [Hd Hq Hdis Hown] Hrc. unfold queue_new, queue_ref. rewrite Hd. set (q := fresh _).
  assert (Hn : L !! q = None) by (apply not_elem_of_dom, is_fresh).
  simpl. rewrite lookup_insert_eq. cbn [mbind option_bind]. eexists. split; [done|]. split.
  - simpl. rewrite !dom_insert_L, Hd. set_solver.
  - intros q' l. destruct (decide (q' = q)) as [->|Hne].
    + rewrite lookup_insert_eq. intros [= <-]. split; [|constructor]. eexists. simpl.
      rewrite lookup_insert_eq. split; [done|]. simpl. by rewrite Hrc.
    + rewrite lookup_insert_ne by done. intros Hl. destruct (Hq q' l Hl) as [(Q' & ? & ?) ?].
      split; [|done]. exists Q'. simpl. by rewrite !lookup_insert_ne.
  - intros q1 q2 l1 l2 a [[_ <-]|[_ H1]]%lookup_insert_Some [[_ <-]|[_ H2]]%lookup_insert_Some;
      [by intros ?%not_elem_of_nil|by intros ?%not_elem_of_nil|by intros _ ?%not_elem_of_nil|eauto].
  - intros a Ha. destruct (Hown a Ha) as (q' & l & Hl & Hin). exists q', l.
    rewrite lookup_insert_ne; [done|]. intros <-. congruence.
Qed.

(** ** The abstract queues *)

(** What a client calls, on a queue or on [NULL]. *)
Inductive qop :=
  | Op_new
  | Op_destroy (q : option positive)
  | Op_push_tail (q : option positive) (d : Z)
  | Op_push_head (q : option positive) (d : Z)
  | Op_push_after (q : option positive) (e d : Z)
  | Op_pop_head (q : option positive)
  | Op_peek_head (q : option positive)
  | Op_peek_tail (q : option positive)
  | Op_find (q : option positive) (f : option (Z -> Z -> bool)) (d : Z)
  | Op_remove (q : option positive) (d : Z)
  | Op_remove_if (q : option positive) (f : option (Z -> Z -> bool)) (d : Z)
  | Op_remove_all (q : option positive) (f : option (Z -> Z -> bool)) (d : Z)
  | Op_length (q : option positive)
  | Op_isempty (q : option positive).

Inductive qres :=
  | Res_queue (q : positive)
  | Res_bool (b : bool)
  | Res_ptr (d : option Z)
  | Res_gone (count : Z) (destroyed : list Z)
  | Res_num (n : Z).

Definition run_qop (o : qop) (m : qmem) : option (qres * qmem) :=
  match o with
  | Op_new => '(q, m1) ← queue_new m; Some (Res_queue q, m1)
  | Op_destroy q => '(ds, m1) ← queue_destroy q m; Some (Res_gone 0 ds, m1)
  | Op_push_tail q d => '(b, m1) ← queue_push_tail q d m; Some (Res_bool b, m1)
  | Op_push_head q d => '(b, m1) ← queue_push_head q d m; Some (Res_bool b, m1)
  | Op_push_after q e d => '(b, m1) ← queue_push_after q e d m; Some (Res_bool b, m1)
  | Op_pop_head q => '(r, m1) ← queue_pop_head q m; Some (Res_ptr r, m1)
  | Op_peek_head q => r ← queue_peek_head q m; Some (Res_ptr r, m)
  | Op_peek_tail q => r ← queue_peek_tail q m; Some (Res_ptr r, m)
  | Op_find q f d => r ← queue_find q f d m; Some (Res_ptr r, m)
  | Op_remove q d => '(b, m1) ← queue_remove q d m; Some (Res_bool b, m1)
  | Op_remove_if q f d => '(r, m1) ← queue_remove_if q f d m; Some (Res_ptr r, m1)
  | Op_remove_all q f d => '(n, ds, m1) ← queue_remove_all q f d m; Some (Res_gone n ds, m1)
  | Op_length q => n ← queue_length q m; Some (Res_num n, m)
  | Op_isempty q => b ← queue_isempty q m; Some (Res_bool b, m)
  end.

Fixpoint run_qops (os : list qop) (m : qmem) : option (list qres * qmem) :=
  match os with
  | [] => Some ([], m)
  | o :: os' => '(r, m1) ← run_qop o m; '(rs, m2) ← run_qops os' m1; Some (r :: rs, m2)
  end.

(** A list with its first match taken out, and a list with an element inserted
    after the first occurrence of another. *)
Fixpoint remove_first (p : Z -> bool) (l : list Z) : option (Z * list Z) :=
  match l with
  | [] => None
  | x :: l' => if p x then Some (x, l') else '(y, r) ← remove_first p l'; Some (y, x :: r)
  end.

Fixpoint insert_after (e d : Z) (l : list Z) : option (list Z) :=
  match l with
  | [] => None
  | x :: l' => if e =? x then Some (x :: d :: l') else r ← insert_after e d l'; Some (x :: r)
  end.

Abbreviation lists := (gmap positive (list Z)).

(** What the operation promises on lists; [None] is a queue that does not exist. *)
Definition on_queue (q : option positive) (null : qres) (S : lists)
    (k : positive -> list Z -> qres * lists) : option (qres * lists) :=
  match q with
  | None => Some (null, S)
  | Some q => l ← S !! q; Some (k q l)
  end.

Definition spec_qop (o : qop) (S : lists) : option (qres * lists) :=
  match o with
  | Op_new => let q := fresh (dom S) in Some (Res_queue q, <[q := []]> S)
  | Op_destroy q => on_queue q (Res_gone 0 []) S (fun q l => (Res_gone 0 l, delete q S))
  | Op_push_tail q d =>
      on_queue q (Res_bool false) S (fun q l => (Res_bool true, <[q := l ++ [d]]> S))
  | Op_push_head q d =>
      on_queue q (Res_bool false) S (fun q l => (Res_bool true, <[q := d :: l]> S))
  | Op_push_after q e d =>
      on_queue q (Res_bool false) S (fun q l =>
        match insert_after e d l with
        | Some l' => (Res_bool true, <[q := l']> S)
        | None => (Res_bool false, S)
        end)
  | Op_pop_head q =>
      on_queue q (Res_ptr None) S (fun q l => (Res_ptr (List.hd_error l), <[q := tl l]> S))
  | Op_peek_head q => on_queue q (Res_ptr None) S (fun q l => (Res_ptr (List.hd_error l), S))
  | Op_peek_tail q => on_queue q (Res_ptr None) S (fun q l => (Res_ptr (last l), S))
  | Op_find q f d =>
      on_queue q (Res_ptr None) S (fun q l => (Res_ptr (List.find (matcher f d) l), S))
  | Op_remove q d =>
      on_queue q (Res_bool false) S (fun q l =>
        match remove_first (Z.eqb d) l with
        | Some (_, l') => (Res_bool true, <[q := l']> S)
        | None => (Res_bool false, S)
        end)
  | Op_remove_if q f d =>
      on_queue q (Res_ptr None) S (fun q l =>
        match remove_first (matcher f d) l with
        | Some (x, l') => (Res_ptr (Some x), <[q := l']> S)
        | None => (Res_ptr None, S)
        end)
  | Op_remove_all q f d =>
      let p x := match f with Some _ => matcher f d x | None => true end in
      on_queue q (Res_gone 0 []) S (fun q l =>
        (Res_gone (u32 (zlen (List.filter p l))) (List.filter p l), <[q := keep p l]> S))
  | Op_length q => on_queue q (Res_num 0) S (fun q l => (Res_num (u32 (zlen l)), S))
  | Op_isempty q => on_queue q (Res_bool true) S (fun q l => (Res_bool (u32 (zlen l) =? 0), S))
  end.

Fixpoint spec_qops (os : list qop) (S : lists) : option (list qres * lists) :=
  match os with
  | [] => Some ([], S)
  | o :: os' => '(r, S1) ← spec_qop o S; '(rs, S2) ← spec_qops os' S1; Some (r :: rs, S2)
  end.

(** The lists of data a memory stands for. *)
Definition data_of (L : store) : lists := (fun l : list (positive * Z) => l.*2) <$> L.

(** ** Refinement *)

Definition one_ref (q : positive) : Z := 1.

Lemma data_of_insert q l L : data_of (<[q := l]> L) = <[q := l.*2]> (data_of L).
Proof. unfold data_of. by rewrite fmap_insert. Qed.

Lemma data_of_lookup q L ds :
  data_of L !! q = Some ds -> exists l, L !! q = Some l /\ ds = l.*2.
Proof. unfold data_of. rewrite lookup_fmap. intros (l & HL & ->)%fmap_Some. eauto. Qed.

Lemma remove_first_none p (l : list (positive * Z)) :
  Forall (fun x => p x.2 = false) l -> remove_first p l.*2 = None.
Proof. induction 1 as [|[a d] l Hd _ IH]; [done|]. cbn [fmap list_fmap snd remove_first] in *. by rewrite Hd, IH. Qed.

Lemma remove_first_at p (pre suf : list (positive * Z)) a d :
  Forall (fun x => p x.2 = false) pre -> p d = true ->
  remove_first p (pre ++ (a, d) :: suf).*2 = Some (d, (pre ++ suf).*2).
Proof.
  intros Hpre Hd. induction Hpre as [|[b e] l He _ IH].
  - cbn [fmap list_fmap snd app remove_first] in *. by rewrite Hd.
  - cbn [fmap list_fmap snd app remove_first] in *. by rewrite He, IH.
Qed.

Lemma insert_after_none e d (l : list (positive * Z)) :
  Forall (fun x => (e =? x.2) = false) l -> insert_after e d l.*2 = None.
Proof. induction 1 as [|[a x] l Hd _ IH]; [done|]. cbn [fmap list_fmap snd insert_after] in *. by rewrite Hd, IH. Qed.

Lemma insert_after_at e d (pre suf : list (positive * Z)) a b :
  Forall (fun x => (e =? x.2) = false) pre ->
  insert_after e d (pre ++ (a, e) :: suf).*2 = Some (pre ++ (a, e) :: (b, d) :: suf).*2.
Proof.
  induction 1 as [|[c x] l Hx _ IH].
  - cbn [fmap list_fmap snd app insert_after]. by rewrite Z.eqb_refl.
  - cbn [fmap list_fmap snd app insert_after] in *. by rewrite Hx, IH.
Qed.

Lemma length_spec rc m L q l :
  mem_rep rc m L -> L !! q = Some l ->
  queue_length (Some q) m = Some (u32 (zlen l.*2)) /\
  queue_isempty (Some q) m = Some (u32 (zlen l.*2) =? 0).
Proof.
  intros Hrep HL. destruct (mem_queue _ _ _ Hrep q l HL) as [(Q & HQ & _ & _ & _ & Hent) _].
  unfold queue_length, queue_isempty, zlen. rewrite HQ. cbn [mbind option_bind].
  rewrite length_fmap. by rewrite Hent.
Qed.

Lemma run_qop_spec o m L r S1 :
  mem_rep one_ref m L -> spec_qop o (data_of L) = Some (r, S1) ->
  exists m1 L1, run_qop o m = Some (r, m1) /\ mem_rep one_ref m1 L1 /\ S1 = data_of L1.
Proof.
  intros Hrep Hs.
  assert (Hnull : forall k : positive -> list Z -> qres * lists, forall q null,
    on_queue q null (data_of L) k = Some (r, S1) ->
    (q = None /\ r = null /\ S1 = data_of L) \/
    exists q' l, q = Some q' /\ L !! q' = Some l /\ k q' l.*2 = (r, S1)).
  { intros k [q|] null; simpl; [|intros [= <- <-]; by left].
    destruct (data_of L !! q) as [ds|] eqn:E; simpl; [|done]. intros [= Hk].
    apply data_of_lookup in E as (l & HL & ->). right. eauto. }
  destruct o; cbn [spec_qop run_qop] in *;
    try (apply Hnull in Hs as [(-> & -> & ->)|(q' & l & -> & HL & Hk)];
         [eexists m, L; by split|]); simplify_eq.
  - destruct (new_spec one_ref m L Hrep) as (m1 & -> & Hr); [done|].
    exists m1, (<[fresh (dom L) := []]> L).
    assert (Hdom : dom (data_of L) = dom L) by (unfold data_of; apply dom_fmap_L).
    rewrite Hdom, data_of_insert. done.
  - destruct (destroy_spec one_ref m L q' l Hrep HL) as (m1 & -> & Hr); [done|].
    exists m1, (delete q' L). split; [done|]. split; [done|]. unfold data_of. by rewrite fmap_delete.
  - destruct (push_tail_spec one_ref m L q' l d Hrep HL) as (a & m1 & -> & Hr).
    eexists m1, _. split; [done|]. split; [done|]. by rewrite data_of_insert, fmap_app.
  - destruct (push_head_spec one_ref m L q' l d Hrep HL) as (a & m1 & -> & Hr).
    eexists m1, _. split; [done|]. split; [done|]. by rewrite data_of_insert.
  - destruct (push_after_spec one_ref m L q' l e d Hrep HL)
      as [[Hall ->]|(pre & a & b & suf & m1 & -> & Hpre & -> & Hr)].
    + rewrite insert_after_none in Hk by done. simplify_eq. by eexists m, L.
    + rewrite (insert_after_at e d pre suf a b) in Hk by done. simplify_eq.
      eexists m1, _. split; [done|]. split; [done|]. by rewrite data_of_insert.
  - destruct (pop_head_spec one_ref m L q' l Hrep HL) as (m1 & l' & -> & -> & Hr).
    eexists m1, _. split; [|split; [done|]]; [by destruct l|].
    rewrite data_of_insert. by destruct l.
  - destruct (peek_spec one_ref m L q' l Hrep HL) as [-> _]. eexists m, L. by destruct l.
  - destruct (peek_spec one_ref m L q' l Hrep HL) as [_ ->]. eexists m, L.
    split; [|done]. by rewrite fmap_last.
  - rewrite (find_spec one_ref m L q' l) by done. by eexists m, L.
  - destruct (mem_queue _ _ _ Hrep q' l HL) as [(Q & HQ & _) _].
    unfold queue_remove. rewrite HQ. cbn [mbind option_bind].
    destruct (unlink_loop_spec one_ref m L q' l Q (Z.eqb d) Hrep HL HQ)
      as [[Hall ->]|(pre & a & x & suf & m1 & -> & Hpre & Hx & -> & Hr)].
    + rewrite remove_first_none in Hk by done. simplify_eq. by eexists m, L.
    + rewrite remove_first_at in Hk by done. simplify_eq.
      eexists m1, _. split; [done|]. split; [done|]. by rewrite data_of_insert.
  - destruct (remove_if_spec one_ref m L q' l f d Hrep HL)
      as [[Hall ->]|(pre & a & x & suf & m1 & -> & Hpre & Hx & -> & Hr)].
    + rewrite remove_first_none in Hk by done. simplify_eq. by eexists m, L.
    + rewrite remove_first_at in Hk by done. simplify_eq.
      eexists m1, _. split; [done|]. split; [done|]. by rewrite data_of_insert.
  - destruct (remove_all_spec one_ref m L q' l f d Hrep HL) as (m1 & l' & -> & Hr & Hl').
    eexists m1, _. split; [done|]. split; [done|]. by rewrite data_of_insert, Hl'.
  - destruct (length_spec one_ref m L q' l Hrep HL) as [-> _]. by eexists m, L.
  - destruct (length_spec one_ref m L q' l Hrep HL) as [_ ->]. by eexists m, L.
Qed.

Lemma mem_empty_rep : mem_rep one_ref mem_empty ∅.
Proof.
  split.
  - simpl. by rewrite !dom_empty_L.
  - intros q l. by rewrite lookup_empty.
  - intros q1 q2 l1 l2 a. by rewrite lookup_empty.
  - intros a [E Ha]. simpl in Ha. by rewrite lookup_empty in Ha.
Qed.

Lemma mem_rep_empty rc m : mem_rep rc m ∅ -> m = mem_empty.
Proof.
  intros [Hd _ _ Hown]. destruct m as [qs cs]. simpl in *. unfold mem_empty. f_equal.
  - apply dom_empty_inv_L. by rewrite Hd, dom_empty_L.
  - apply map_empty. intros a. destruct (cs !! a) as [E|] eqn:Ha; [|done].
    destruct (Hown a) as (q & l & Hl & _); [by rewrite Ha|]. by rewrite lookup_empty in Hl.
Qed.

Lemma run_qops_spec os : forall m L rs S1,
  mem_rep one_ref m L -> spec_qops os (data_of L) = Some (rs, S1) ->
  exists m1 L1, run_qops os m = Some (rs, m1) /\ mem_rep one_ref m1 L1 /\ S1 = data_of L1.
Proof.
  induction os as [|o os IH]; intros m L rs S1 Hrep Hs; cbn [spec_qops run_qops] in *.
  - simplify_eq. by eexists m, L.
  - destruct (spec_qop o (data_of L)) as [[r S2]|] eqn:Ho; cbn [mbind option_bind] in Hs; [|done].
    destruct (run_qop_spec o m L r S2 Hrep Ho) as (m2 & L2 & -> & Hrep2 & ->).
    cbn [mbind option_bind].
    destruct (spec_qops os (data_of L2)) as [[rs' S3]|] eqn:Hos; cbn [mbind option_bind] in Hs; [|done].
    destruct (IH m2 L2 rs' S3 Hrep2 Hos) as (m3 & L3 & -> & Hrep3 & ->).
    simplify_eq. by eexists m3, L3.
Qed.

(** C9. The linked queues implement lists.  For every sequence of operations on
    any number of queues (and on [NULL]) that names only queues created and not
    yet destroyed, the pointer operations touch no freed memory, answer what
    the operations on lists answer - [queue_length] and the count of
    [queue_remove_all] modulo 2^32 - and leave a memory that stands for the
    lists: [head], [tail], the links and the count agree, every cell belongs to
    one queue, and nothing is left when every queue was destroyed. *)
Theorem queue_refines_lists os rs S1 :
  spec_qops os ∅ = Some (rs, S1) ->
  exists m L, run_qops os mem_empty = Some (rs, m) /\ mem_rep one_ref m L /\ data_of L = S1 /\
    (S1 = ∅ -> m = mem_empty).
Proof.
  intros Hs. destruct (run_qops_spec os mem_empty ∅ rs S1 mem_empty_rep) as (m & L & Hr & Hrep & ->).
  { unfold data_of. by rewrite fmap_empty. }
  exists m, L. split; [done|]. split; [done|]. split; [done|]. intros He.
  apply fmap_empty_inv in He as ->. by eapply mem_rep_empty.
Qed.

(** ** Iteration *)

(** What a callback of [queue_foreach] does to the queue it is called on: nothing,
    remove the element it is called with, or destroy the queue. *)
Inductive foreach_act := Act_keep | Act_remove | Act_destroy.

Definition callback (act : Z -> foreach_act) (q : positive) (d : Z) (m : qmem) : option qmem :=
  match act d with
  | Act_keep => Some m
  | Act_remove => '(_, m') ← queue_remove (Some q) d m; Some m'
  | Act_destroy => '(_, m') ← queue_destroy (Some q) m; Some m'
  end.

(** The data visited: up to the one that destroys the queue. *)
Fixpoint visited (act : Z -> foreach_act) (l : list Z) : list Z :=
  match l with
  | [] => []
  | d :: l' => d :: match act d with Act_destroy => [] | _ => visited act l' end
  end.

Definition destroys (act : Z -> foreach_act) (l : list Z) : bool :=
  existsb (fun d => match act d with Act_destroy => true | _ => false end) l.

Definition kept (act : Z -> foreach_act) (l : list Z) : list Z :=
  keep (fun d => match act d with Act_remove => true | _ => false end) l.

Definition with_refs (q : positive) (n : Z) (rc : positive -> Z) (x : positive) : Z :=
  if decide (x = q) then n else rc x.

Lemma mem_rep_ext rc rc' m L : (forall q, rc q = rc' q) -> mem_rep rc m L -> mem_rep rc' m L.
Proof.
  intros He [? Hq ? ?]. split; [done| |done|done]. intros q l Hl. rewrite <- He. by apply Hq.
Qed.

(** Counting references changes nothing else. *)
Lemma set_refs_spec rc m L q l Q n :
  mem_rep rc m L -> L !! q = Some l -> queues m !! q = Some Q ->
  mem_rep (with_refs q n rc) (set_queue q (mkQueue n (head Q) (tail Q) (entries Q)) m) L.
Proof.
  intros Hrep HL HQ. pose proof Hrep as [Hd Hq Hdis Hown].
  destruct (Hq q l HL) as [(Q1 & HQ1 & Hrc & Hseg & Htl & Hent) Hnd].
  assert (Q1 = Q) as -> by congruence. split; [|..|done|done].
  - simpl. rewrite dom_insert_L, Hd. assert (q ∈ dom L) by (by eapply elem_of_dom_2). set_solver.
  - intros q' l'. unfold with_refs. case_decide as Hx.
    + subst q'. rewrite HL. intros [= <-]. split; [|done]. eexists. simpl.
      rewrite lookup_insert_eq. done.
    + intros Hl'. destruct (Hq q' l' Hl') as [(Q' & ? & ?) ?]. split; [|done]. exists Q'. simpl.
      by rewrite lookup_insert_ne.
Qed.

(** Removing the element at the cursor. *)
Lemma remove_at_cursor rc m L q pre a d suf :
  mem_rep rc m L -> L !! q = Some (pre ++ (a, d) :: suf) -> NoDup (pre ++ (a, d) :: suf).*2 ->
  exists m', queue_remove (Some q) d m = Some (true, m') /\ mem_rep rc m' (<[q := pre ++ suf]> L).
Proof.
  intros Hrep HL Hnd. destruct (mem_queue _ _ _ Hrep q _ HL) as [(Q & HQ & _) _].
  unfold queue_remove. rewrite HQ. cbn [mbind option_bind].
  assert (Hpre : Forall (fun x => (d =? x.2) = false) pre).
  { apply Forall_forall. intros [b e] Hin. simpl. apply Z.eqb_neq. intros ->.
    rewrite fmap_app in Hnd. apply NoDup_app in Hnd as (_ & H2 & _). apply (H2 e); [|by left].
    apply list_elem_of_fmap. by exists (b, e). }
  destruct (unlink_loop_spec rc m L q _ Q (Z.eqb d) Hrep HL HQ)
    as [[Hall _]|(pre' & a' & d' & suf' & m' & Heq & Hpre' & Hd' & -> & Hr)].
  - apply Forall_app in Hall as [_ [Hd _]%Forall_cons]. simpl in Hd. by rewrite Z.eqb_refl in Hd.
  - apply Z.eqb_eq in Hd' as <-. cbn [mbind option_bind]. exists m'. split; [done|].
    assert (pre' = pre /\ suf' = suf) as [-> ->]; [|done].
    clear -Heq Hpre Hpre'. revert pre' Heq Hpre'. induction Hpre as [|[b e] pre He _ IH]; intros pre' Heq Hpre'.
    + destruct pre' as [|[b' e'] pre']; simplify_eq/=; [done|].
      apply Forall_cons in Hpre' as [He' _]. simpl in He'. by rewrite Z.eqb_refl in He'.
    + destruct pre' as [|[b' e'] pre']; simplify_eq/=; [by rewrite Z.eqb_refl in He|].
      apply Forall_cons in Hpre' as [_ Hpre']. destruct (IH pre') as [-> ->]; done.
Qed.

(** Destroying a queue that is being iterated keeps the emptied object. *)
Lemma destroy_in_loop m L q l :
  mem_rep (with_refs q 2 one_ref) m L -> L !! q = Some l ->
  exists m', queue_destroy (Some q) m = Some (l.*2, m') /\
    mem_rep one_ref m' (<[q := []]> L).
Proof.
  intros Hrep HL. unfold queue_destroy.
  destruct (remove_all_spec _ m L q l None 0 Hrep HL) as (m1 & l' & -> & Hrep1 & Hl').
  cbn [mbind option_bind]. destruct (filter_true l.*2) as [E1 E2]. rewrite E2 in Hl'.
  apply fmap_nil_inv in Hl' as ->. rewrite E1.
  assert (HL1 : <[q:=[]]> L !! q = Some (@nil (positive * Z))) by by rewrite lookup_insert_eq.
  destruct (mem_queue _ _ _ Hrep1 q _ HL1) as [(Q & HQ & Hrc & _) _].
  unfold queue_unref. rewrite HQ. cbn [mbind option_bind].
  assert (Hn : ref_count Q = 2) by (rewrite Hrc; unfold with_refs; by rewrite decide_True).
  rewrite Hn. simpl. eexists. split; [done|].
  eapply mem_rep_ext; [|by eapply set_refs_spec].
  intros x. unfold with_refs, one_ref. by case_decide.
Qed.

(** The loop, at a cursor in the middle of the list. *)
Lemma foreach_loop_spec act q suf : forall fuel pre log m L,
  mem_rep (with_refs q 2 one_ref) m L -> L !! q = Some (pre ++ suf) ->
  NoDup (pre ++ suf).*2 -> (length suf < fuel)%nat ->
  exists m', foreach_loop fuel (callback act q) q (lhead suf None) log m =
      Some (log ++ visited act suf.*2, m') /\
    if destroys act suf.*2
    then mem_rep one_ref m' (<[q := []]> L)
    else exists l', l'.*2 = pre.*2 ++ kept act suf.*2 /\
           mem_rep (with_refs q 2 one_ref) m' (<[q := l']> L).
Proof.
  induction suf as [|[a d] suf IH]; intros fuel pre log m L Hrep HL Hnd Hf.
  - exists m. simpl. rewrite app_nil_r in *. split; [by destruct fuel|].
    exists pre. split; [by rewrite app_nil_r|]. by rewrite insert_id.
  - destruct fuel as [|fuel]; [simpl in Hf; lia|]. cbn [length] in Hf. cbn [lhead foreach_loop fst].
    destruct (mem_queue _ _ _ Hrep q _ HL) as [(Q & HQ & Hrc & Hseg & _) _].
    rewrite HQ. cbn [mbind option_bind].
    assert (Hh : exists h, head Q = Some h)
      by (rewrite (lseg_lhead _ _ _ _ Hseg); destruct pre; simpl; eauto).
    destruct Hh as [h ->]. rewrite Hrc. unfold with_refs at 1. rewrite decide_True by done.
    change (1 <? 2) with true. cbv iota.
    apply lseg_app in Hseg as (k & _ & -> & n & Ha & Hsuf). apply lseg_lhead in Hsuf as ->.
    rewrite Ha. cbn [mbind option_bind e_data e_next].
    assert (Hcb : callback act q d m = match act d with
      | Act_keep => Some m
      | Act_remove => '(_, m') ← queue_remove (Some q) d m; Some m'
      | Act_destroy => '(_, m') ← queue_destroy (Some q) m; Some m'
      end) by done.
    rewrite Hcb. clear Hcb.
    cbn [fmap list_fmap snd visited destroys existsb]. unfold kept, keep. cbn [List.filter].
    destruct (act d) eqn:Hact; cbn [negb orb].
    + (* kept *)
      cbn [mbind option_bind].
      destruct (IH fuel (pre ++ [(a, d)]) (log ++ [d]) m L) as (m' & -> & Hm');
        [done|by rewrite <- app_assoc|by rewrite <- app_assoc|lia|].
      exists m'. split; [by rewrite <- app_assoc|]. unfold destroys in Hm'.
      destruct (existsb _ _); [done|]. destruct Hm' as (l' & Hl' & Hr). exists l'. split; [|done].
      rewrite Hl', fmap_app, <- app_assoc. done.
    + (* removed *)
      destruct (remove_at_cursor _ m L q pre a d suf Hrep HL Hnd) as (m1 & -> & Hr1).
      cbn [mbind option_bind].
      destruct (IH fuel pre (log ++ [d]) m1 (<[q := pre ++ suf]> L)) as (m' & -> & Hm');
        [done|by rewrite lookup_insert_eq| |lia|].
      { rewrite fmap_app in Hnd |- *. apply NoDup_app in Hnd as (H1 & H2 & [_ H4]%NoDup_cons).
        apply NoDup_app. split; [done|]. split; [|done]. intros x Hx Hx'. apply (H2 x Hx). by right. }
      exists m'. split; [by rewrite <- app_assoc|]. unfold destroys in Hm'. rewrite insert_insert_eq in Hm'.
      destruct (existsb _ _); [done|]. destruct Hm' as (l' & Hl' & Hr). rewrite insert_insert_eq in Hr.
      exists l'. done.
    + (* destroyed *)
      destruct (destroy_in_loop m L q _ Hrep HL) as (m1 & -> & Hr1). cbn [mbind option_bind].
      exists m1. split; [|done].
      assert (HL1 : <[q:=[]]> L !! q = Some (@nil (positive * Z))) by by rewrite lookup_insert_eq.
      destruct (mem_queue _ _ _ Hr1 q _ HL1) as [(Q1 & HQ1 & _ & Hh1 & _) _]. simpl in Hh1.
      destruct (lhead suf None) as [b|] eqn:Hb; [|by destruct fuel].
      destruct fuel as [|fuel]; [destruct suf; [done|simpl in Hf; lia]|].
      cbn [foreach_loop]. rewrite HQ1. cbn [mbind option_bind]. by rewrite Hh1.
Qed.

(** C10. Iteration survives what its callbacks do to the queue.  When the data of
    a queue are distinct and every callback leaves the queue alone, removes the
    element it was called with or destroys the queue, [queue_foreach] touches
    no freed memory and terminates; it visits the elements in order, up to and
    including the first that destroys the queue.  Afterwards the queue is the
    list without the removed elements, or is gone with all its cells; the other
    queues are untouched. *)
Theorem foreach_callbacks_safe act m L q l fuel :
  mem_rep one_ref m L -> L !! q = Some l -> NoDup l.*2 -> (length l < fuel)%nat ->
  exists m', queue_foreach fuel (Some q) (callback act q) m = Some (visited act l.*2, m') /\
    exists L', mem_rep one_ref m' L' /\
      data_of L' = if destroys act l.*2 then delete q (data_of L)
                   else <[q := kept act l.*2]> (data_of L).
Proof.
  intros Hrep HL Hnd Hf. destruct (mem_queue _ _ _ Hrep q _ HL) as [(Q & HQ & Hrc & Hseg & Hq) _].
  unfold queue_foreach. rewrite HQ. cbn [mbind option_bind].
  destruct (head Q) as [h|] eqn:Hh.
  2: { assert (l = []) as -> by (destruct l as [|[a x] l]; [done|by destruct Hseg]).
       exists m. split; [done|]. exists L. split; [done|]. simpl. unfold kept, keep. simpl.
       rewrite insert_id; [done|]. unfold data_of. by rewrite lookup_fmap, HL. }
  unfold queue_ref. rewrite HQ. cbn [mbind option_bind]. rewrite Hrc. unfold one_ref at 1.
  change (1 + 1) with 2.
  pose proof (set_refs_spec one_ref m L q l Q 2 Hrep HL HQ) as Hrep1.
  rewrite (lseg_lhead _ _ _ _ Hseg).
  destruct (foreach_loop_spec act q l fuel [] [] _ L Hrep1 HL Hnd Hf) as (m1 & -> & Hm1).
  cbn [mbind option_bind app].
  destruct (destroys act l.*2) eqn:Hdes.
  - destruct (unref_last_spec one_ref m1 _ q Hm1) as (m2 & -> & Hr2);
      [by rewrite lookup_insert_eq|done|]. rewrite delete_insert_eq in Hr2.
    cbn [mbind option_bind]. exists m2. split; [done|]. exists (delete q L). split; [done|].
    unfold data_of. by rewrite fmap_delete.
  - destruct Hm1 as (l' & Hl' & Hr1).
    assert (HL1 : <[q:=l']> L !! q = Some l') by by rewrite lookup_insert_eq.
    destruct (mem_queue _ _ _ Hr1 q _ HL1) as [(Q1 & HQ1 & Hrc1 & _) _].
    unfold queue_unref. rewrite HQ1. cbn [mbind option_bind].
    assert (Hn : ref_count Q1 = 2) by (rewrite Hrc1; unfold with_refs; by rewrite decide_True).
    rewrite Hn. simpl. eexists. split; [done|]. exists (<[q := l']> L). split.
    + eapply mem_rep_ext; [|by eapply set_refs_spec].
      intros x. unfold with_refs, one_ref. by case_decide.
    + by rewrite data_of_insert, Hl'.
Qed.

(** ** Witnesses *)

Definition demo_ops : list qop :=
  let q := Some 1%positive in
  [Op_new; Op_push_tail q 5; Op_push_head q 4; Op_push_after q 4 9; Op_push_tail q 6;
   Op_remove_if q (Some Z.ltb) 6; Op_peek_tail q; Op_length q; Op_push_tail None 1;
   Op_remove_all q (Some Z.ltb) 7; Op_pop_head q; Op_isempty q; Op_destroy q].

Definition demo_results : list qres :=
  [Res_queue 1; Res_bool true; Res_bool true; Res_bool true; Res_bool true;
   Res_ptr (Some 4); Res_ptr (Some 6); Res_num 3; Res_bool false;
   Res_gone 2 [5; 6]; Res_ptr (Some 9); Res_bool true; Res_gone 0 []].

Lemma queue_refines_lists_witness :
  exists m L, run_qops demo_ops mem_empty = Some (demo_results, m) /\ mem_rep one_ref m L /\
    data_of L = ∅ /\ (∅ = (∅ : lists) -> m = mem_empty).
Proof. apply (queue_refines_lists demo_ops demo_results ∅). vm_compute. reflexivity. Defined.

(** A queue of three elements. *)
Definition demo_mem : qmem :=
  match run_qops [Op_new; Op_push_tail (Some 1%positive) 5; Op_push_tail (Some 1%positive) 6;
                  Op_push_tail (Some 1%positive) 7] mem_empty with
  | Some (_, m) => m
  | None => mem_empty
  end.
Definition demo_list : list (positive * Z) := [(1%positive, 5); (2%positive, 6); (3%positive, 7)].
Definition demo_act (d : Z) : foreach_act :=
  if d =? 5 then Act_remove else if d =? 6 then Act_destroy else Act_keep.

Lemma demo_rep : mem_rep one_ref demo_mem {[1%positive := demo_list]}.
Proof.
  split.
  - vm_compute. reflexivity.
  - intros q l [<- <-]%lookup_singleton_Some. split.
    + eexists. split; [vm_compute; reflexivity|]. split; [done|]. split; [|done].
      simpl. repeat (split; [done|]; eexists; split; [vm_compute; reflexivity|]). done.
    + apply (bool_decide_unpack _). vm_compute. done.
  - intros q1 q2 l1 l2 a [<- _]%lookup_singleton_Some [<- _]%lookup_singleton_Some. done.
  - intros a Ha. exists 1%positive, demo_list. split; [by rewrite lookup_singleton_eq|].
    assert (Hd : a ∈ dom (cells demo_mem)) by by apply elem_of_dom.
    assert (Hs : dom (cells demo_mem) = list_to_set demo_list.*1) by (vm_compute; reflexivity).
    rewrite Hs in Hd. by apply elem_of_list_to_set in Hd.
Qed.

Lemma foreach_callbacks_safe_witness :
  exists m', queue_foreach 4 (Some 1%positive) (callback demo_act 1) demo_mem = Some ([5; 6], m') /\
    exists L', mem_rep one_ref m' L' /\ data_of L' = delete 1%positive (data_of {[1%positive := demo_list]}).
Proof.
  apply (foreach_callbacks_safe demo_act demo_mem {[1%positive := demo_list]} 1 demo_list 4).
  - exact demo_rep.
  - reflexivity.
  - apply (bool_decide_unpack _). vm_compute. exact I.
  - simpl. lia.
Defined.
