(* ===== verification/Uuid.v ===== *)
(** Bluetooth UUIDs ([src/examples/gatt/lib/uuid.c], [uuid.h]): the three forms,
    comparison through the 128-bit form, the string form and its parser.

    The union of [bt_uuid_t] is an inductive type, a 128-bit UUID the list of
    its 16 bytes.  C strings are lists of characters without the final zero.
    [None] is a read of a local that was not set (comparing an unset UUID).
    [strtol] and the conversions of [sscanf] that the parser uses are modelled
    as the C standard describes them. *)
From Stdlib Require Import Ascii String.
From S2P Require Import Prelude.

Inductive bt_uuid :=
  | BT_UUID_UNSPEC
  | BT_UUID16 (v : Z)
  | BT_UUID32 (v : Z)
  | BT_UUID128 (v : list Z).

#[export] Instance bt_uuid_eq_dec : EqDecision bt_uuid.
Proof. solve_decision. Defined.

(** The [type] field is the size in bits; [bt_uuid_len] the one in bytes. *)
Definition uuid_type (u : bt_uuid) : Z :=
  match u with
  | BT_UUID_UNSPEC => 0 | BT_UUID16 _ => 16 | BT_UUID32 _ => 32 | BT_UUID128 _ => 128
  end.
Definition bt_uuid_len (u : bt_uuid) : Z := uuid_type u / 8.

Definition bluetooth_base_uuid : list Z :=
  [0; 0; 0; 0; 0; 0; 16; 0; 128; 0; 0; 128; 95; 155; 52; 251].
Definition BASE_UUID16_OFFSET : nat := 2.
Definition BASE_UUID32_OFFSET : nat := 0.
Definition EINVAL : Z := 22.

(** [memcpy] into a [uint128_t] at a constant offset. *)
Definition patch (off : nat) (src dst : list Z) : list Z :=
  take off dst ++ src ++ drop (off + length src) dst.

Definition bt_uuid16_to_uuid128 (v : Z) : bt_uuid :=
  BT_UUID128 (patch BASE_UUID16_OFFSET (be_bytes 2 v) bluetooth_base_uuid).
Definition bt_uuid32_to_uuid128 (v : Z) : bt_uuid :=
  BT_UUID128 (patch BASE_UUID32_OFFSET (be_bytes 4 v) bluetooth_base_uuid).

(** [bt_uuid_to_uuid128]: [dst] is left as it is for an unset UUID. *)
Definition bt_uuid_to_uuid128 (src dst : bt_uuid) : bt_uuid :=
  match src with
  | BT_UUID128 _ => src
  | BT_UUID32 v => bt_uuid32_to_uuid128 v
  | BT_UUID16 v => bt_uuid16_to_uuid128 v
  | BT_UUID_UNSPEC => dst
  end.

(** [memcmp]; only the sign of its result means anything. *)
Fixpoint memcmp (a b : list Z) : Z :=
  match a, b with
  | x :: a', y :: b' => if x =? y then memcmp a' b' else if x <? y then -1 else 1
  | _, _ => 0
  end.

(** [bt_uuid128_cmp] reads the 128-bit member; a local that was not set has none. *)
Definition bt_uuid128_cmp (u1 u2 : bt_uuid) : option Z :=
  match u1, u2 with
  | BT_UUID128 a, BT_UUID128 b => Some (memcmp a b)
  | _, _ => None
  end.

Definition bt_uuid16_create (value : Z) : bt_uuid := BT_UUID16 (u16 value).
Definition bt_uuid32_create (value : Z) : bt_uuid := BT_UUID32 (u32 value).
Definition bt_uuid128_create (value : list Z) : bt_uuid := BT_UUID128 value.

Definition bt_uuid_cmp (uuid1 uuid2 : bt_uuid) : option Z :=
  let u1 := bt_uuid_to_uuid128 uuid1 BT_UUID_UNSPEC in
  let u2 := bt_uuid_to_uuid128 uuid2 BT_UUID_UNSPEC in
  bt_uuid128_cmp u1 u2.

(** ** Printing *)

Definition cstring : Type := list ascii.
Definition chars (s : string) : cstring := list_ascii_of_string s.

Definition hexchar (d : Z) : ascii :=
  ascii_of_nat (Z.to_nat (if d <? 10 then 48 + d else 87 + d)).

(** ["%.<n>x"] of a value below [16 ^ n]. *)
Fixpoint hex_fixed (n : nat) (x : Z) : cstring :=
  match n with
  | O => []
  | S n' => hex_fixed n' (x / 16) ++ [hexchar (x mod 16)]
  end.

Definition dash : ascii := "-"%char.

(** [bt_uuid_to_string]: the return value and the string, cut to [n - 1]
    characters as [snprintf] does; the fields are read big-endian ([ntohl]). *)
Definition bt_uuid_to_string (uuid : option bt_uuid) (n : nat) : Z * cstring :=
  let unset := (- EINVAL, take (n - 1) (chars "NULL")) in
  match uuid with
  | None | Some BT_UUID_UNSPEC => unset
  | Some u =>
      match bt_uuid_to_uuid128 u BT_UUID_UNSPEC with
      | BT_UUID128 data =>
          (0, take (n - 1)
             (hex_fixed 8 (be_value (slice 0 4 data)) ++ [dash] ++
              hex_fixed 4 (be_value (slice 4 2 data)) ++ [dash] ++
              hex_fixed 4 (be_value (slice 6 2 data)) ++ [dash] ++
              hex_fixed 4 (be_value (slice 8 2 data)) ++ [dash] ++
              hex_fixed 8 (be_value (slice 10 4 data)) ++
              hex_fixed 4 (be_value (slice 14 2 data))))
      | _ => unset
      end
  end.

(** ** Scanning *)

Definition hexval (c : ascii) : option Z :=
  let n := Z.of_nat (nat_of_ascii c) in
  if (48 <=? n) && (n <=? 57) then Some (n - 48)
  else if (97 <=? n) && (n <=? 102) then Some (n - 87)
  else if (65 <=? n) && (n <=? 70) then Some (n - 55)
  else None.

Definition isspace (c : ascii) : bool :=
  let n := nat_of_ascii c in (n =? 32)%nat || ((9 <=? n)%nat && (n <=? 13)%nat).

Fixpoint skip_space (s : cstring) : cstring :=
  match s with c :: s' => if isspace c then skip_space s' else s | [] => [] end.

(** At most [w] hexadecimal digits: how many, their value, the rest. *)
Fixpoint take_hex (w : nat) (acc : Z) (s : cstring) : nat * Z * cstring :=
  match w, s with
  | S w', c :: s' =>
      match hexval c with
      | Some d => let '(k, v, r) := take_hex w' (16 * acc + d) s' in (S k, v, r)
      | None => (O, acc, s)
      end
  | _, _ => (O, acc, s)
  end.

Definition take_sign (w : nat) (s : cstring) : bool * nat * cstring :=
  match w, s with
  | S w', c :: s' =>
      if Ascii.eqb c dash then (true, w', s')
      else if Ascii.eqb c "+"%char then (false, w', s') else (false, w, s)
  | _, _ => (false, w, s)
  end.

Definition is_0x (s : cstring) : bool :=
  match s with
  | a :: b :: _ => Ascii.eqb a "0"%char && (Ascii.eqb b "x"%char || Ascii.eqb b "X"%char)
  | _ => false
  end.

(** ["%<w>x"] of [sscanf]: at most [w] characters after the blanks, a sign and
    a prefix included; without a digit the conversion fails. *)
Definition scan_hex (w : nat) (s : cstring) : option (Z * cstring) :=
  let '(neg, w1, s1) := take_sign w (skip_space s) in
  let '(w2, s2) := if is_0x s1 && (2 <=? w1)%nat then ((w1 - 2)%nat, drop 2 s1) else (w1, s1) in
  match take_hex w2 0 s2 with
  | (O, _, _) => None
  | (_, v, r) => Some (if neg then - v else v, r)
  end.

(** Characters of the format that stand for themselves. *)
Fixpoint scan_lit (f s : cstring) : option cstring :=
  match f, s with
  | [], _ => Some s
  | c :: f', d :: s' => if Ascii.eqb c d then scan_lit f' s' else None
  | _ :: _, [] => None
  end.

(** ["%1[ab]"] *)
Definition scan_one (a b : ascii) (s : cstring) : option cstring :=
  match s with
  | c :: s' => if Ascii.eqb c a || Ascii.eqb c b then Some s' else None
  | [] => None
  end.

(** [strtol] in base 16 with a 64-bit [long]: the value and the rest; without a
    digit the rest is the whole string. *)
Definition strtol16 (s : cstring) : Z * cstring :=
  let '(neg, _, s1) := take_sign 1 (skip_space s) in
  let s2 := if is_0x s1 && match drop 2 s1 with c :: _ => if hexval c is Some _ then true else false
                                              | [] => false end
            then drop 2 s1 else s1 in
  match take_hex (List.length s2) 0 s2 with
  | (O, _, _) => (0, s)
  | (_, v, r) => (if neg then Z.max (- v) (- 2 ^ 63) else Z.min v (2 ^ 63 - 1), r)
  end.

(** ** Parsing *)

Definition char_at (s : cstring) (i : nat) : ascii := nth i s zero.

Definition is_uuid128 (s : cstring) : bool :=
  (List.length s =? 36)%nat && Ascii.eqb (char_at s 8) dash && Ascii.eqb (char_at s 13) dash &&
  Ascii.eqb (char_at s 18) dash && Ascii.eqb (char_at s 23) dash.

Definition scan_base (s : cstring) : option cstring :=
  s1 ← scan_lit (chars "0000") s;
  '(_, s2) ← scan_hex 4 s1;
  s3 ← scan_lit (chars "-0000-1000-8000-00805") s2;
  s4 ← scan_one "f" "F" s3;
  s5 ← scan_lit (chars "9") s4;
  s6 ← scan_one "b" "B" s5;
  s7 ← scan_lit (chars "34") s6;
  s8 ← scan_one "f" "F" s7;
  scan_one "b" "B" s8.

Definition is_base_uuid128 (s : cstring) : bool :=
  if negb (is_uuid128 s) then false
  else match scan_base s with Some _ => true | None => false end.

Definition is_uuid32 (s : cstring) : bool := (List.length s =? 8)%nat || (List.length s =? 10)%nat.
Definition is_uuid16 (s : cstring) : bool := (List.length s =? 4)%nat || (List.length s =? 6)%nat.

Definition bt_string_to_uuid16 (s : cstring) : option bt_uuid :=
  let '(v, r) := strtol16 s in
  match r with
  | [] => Some (bt_uuid16_create v)
  | c :: _ => if Ascii.eqb c dash then Some (bt_uuid16_create v) else None
  end.

Definition bt_string_to_uuid32 (s : cstring) : option bt_uuid :=
  let '(v, r) := strtol16 s in
  match r with [] => Some (bt_uuid32_create v) | _ :: _ => None end.

Definition bt_string_to_uuid128 (s : cstring) : option bt_uuid :=
  '(data0, s1) ← scan_hex 8 s; s2 ← scan_lit [dash] s1;
  '(data1, s3) ← scan_hex 4 s2; s4 ← scan_lit [dash] s3;
  '(data2, s5) ← scan_hex 4 s4; s6 ← scan_lit [dash] s5;
  '(data3, s7) ← scan_hex 4 s6; s8 ← scan_lit [dash] s7;
  '(data4, s9) ← scan_hex 8 s8;
  '(data5, _) ← scan_hex 4 s9;
  Some (bt_uuid128_create (be_bytes 4 data0 ++ be_bytes 2 data1 ++ be_bytes 2 data2 ++
          be_bytes 2 data3 ++ be_bytes 4 data4 ++ be_bytes 2 data5)).

(** [bt_string_to_uuid]; [None] is [-EINVAL]. *)
Definition bt_string_to_uuid (s : cstring) : option bt_uuid :=
  if is_base_uuid128 s then bt_string_to_uuid16 (drop 4 s)
  else if is_uuid128 s then bt_string_to_uuid128 s
  else if is_uuid32 s then bt_string_to_uuid32 s
  else if is_uuid16 s then bt_string_to_uuid16 s
  else None.

Definition bt_uuid_strcmp (a b : cstring) : option Z :=
  match bt_string_to_uuid a, bt_string_to_uuid b with
  | Some u1, Some u2 => bt_uuid_cmp u1 u2
  | _, _ => Some (- EINVAL)
  end.

(** [bt_uuid_to_le]: a 32-bit UUID is written as a 128-bit one. *)
Definition bt_uuid_to_le (src : bt_uuid) : Z * list Z :=
  match src with
  | BT_UUID16 v => (0, rev (be_bytes 2 v))
  | BT_UUID32 v =>
      match bt_uuid32_to_uuid128 v with BT_UUID128 d => (0, rev d) | _ => (- EINVAL, []) end
  | BT_UUID128 d => (0, rev d)
  | BT_UUID_UNSPEC => (- EINVAL, [])
  end.

(** ** Digits *)

Definition nibble (d : Z) : Prop := 0 <= d < 16.

Ltac nibble_cases d :=
  let H := fresh in
  assert (H : d = 0 \/ d = 1 \/ d = 2 \/ d = 3 \/ d = 4 \/ d = 5 \/ d = 6 \/ d = 7 \/ d = 8 \/
          d = 9 \/ d = 10 \/ d = 11 \/ d = 12 \/ d = 13 \/ d = 14 \/ d = 15)
    by (unfold nibble in *; lia);
  repeat destruct H as [->|H]; [..|subst d].

Lemma hexval_hexchar d : nibble d -> hexval (hexchar d) = Some d.
Proof. intros Hd. nibble_cases d; reflexivity. Qed.

(** A digit is no blank, sign, prefix, dash or upper-case letter. *)
Lemma hexchar_plain d :
  nibble d -> isspace (hexchar d) = false /\
  forallb (fun c => negb (Ascii.eqb (hexchar d) c)) [dash; "+"; "x"; "X"; "F"; "B"]%char = true.
Proof. intros Hd. nibble_cases d; split; reflexivity. Qed.

Lemma hexchar_inj d e : nibble d -> nibble e -> hexchar d = hexchar e -> d = e.
Proof.
  intros Hd He H. assert (Some d = Some e) as [= ?]; [|done].
  by rewrite <- !hexval_hexchar, H.
Qed.

Fixpoint nibbles (n : nat) (x : Z) : list Z :=
  match n with O => [] | S n' => nibbles n' (x / 16) ++ [x mod 16] end.

Lemma nibbles_ok n x : Forall nibble (nibbles n x).
Proof.
  revert x. induction n as [|n IH]; intros x; simpl; [constructor|].
  apply Forall_app. split; [done|]. constructor; [|constructor].
  unfold nibble. apply Z.mod_pos_bound. lia.
Qed.

Lemma length_nibbles n x : length (nibbles n x) = n.
Proof. revert x. induction n as [|n IH]; intros x; simpl; [done|]. rewrite length_app, IH. simpl. lia. Qed.

Lemma hex_fixed_nibbles n x : hex_fixed n x = map hexchar (nibbles n x).
Proof. revert x. induction n as [|n IH]; intros x; simpl; [done|]. by rewrite map_app, IH. Qed.

Lemma length_hex_fixed n x : length (hex_fixed n x) = n.
Proof. rewrite hex_fixed_nibbles, List.length_map. apply length_nibbles. Qed.

Definition nibble_value (acc : Z) (ds : list Z) : Z := foldl (fun a d => 16 * a + d) acc ds.

Lemma nibble_value_nibbles n acc x : nibble_value acc (nibbles n x) = acc * 16 ^ Z.of_nat n + x mod 16 ^ Z.of_nat n.
Proof.
  revert acc x. induction n as [|n IH]; intros acc x.
  - simpl. rewrite Z.mod_1_r. lia.
  - cbn [nibbles]. unfold nibble_value in *. rewrite foldl_app. simpl foldl at 1. rewrite IH.
    rewrite Nat2Z.inj_succ, Z.pow_succ_r by lia.
    rewrite (Z.rem_mul_r x 16) by lia. lia.
Qed.

Lemma take_hex_digits w acc ds r :
  Forall nibble ds -> (length ds <= w)%nat ->
  (length ds = w \/ match r with [] => True | c :: _ => hexval c = None end) ->
  take_hex w acc (map hexchar ds ++ r) = (length ds, nibble_value acc ds, r).
Proof.
  intros Hds. revert w acc. induction Hds as [|d ds Hd _ IH]; intros w acc Hw Hr; simpl.
  - destruct w as [|w]; [by destruct r|]. destruct Hr as [?|Hr]; [done|].
    destruct r as [|c r]; [done|]. cbn [take_hex]. by rewrite Hr.
  - simpl in Hw. destruct w as [|w]; [lia|]. cbn [take_hex]. rewrite hexval_hexchar by done.
    rewrite IH; [done|lia|]. destruct Hr as [Hr|Hr]; [left; simpl in Hr; lia|by right].
Qed.

(** Two digits in front are no blank, no sign and no prefix. *)
Lemma digits_plain d e ds r :
  nibble d -> nibble e ->
  let s := map hexchar (d :: e :: ds) ++ r in
  skip_space s = s /\ (forall w, take_sign w s = (false, w, s)) /\ is_0x s = false.
Proof.
  intros [Hs1 Hp1]%hexchar_plain [_ Hp2]%hexchar_plain s. subst s. cbn [map app].
  cbn [forallb] in Hp1, Hp2. rewrite !andb_true_iff, !negb_true_iff in Hp1, Hp2.
  destruct Hp1 as (H1 & H2 & _), Hp2 as (_ & _ & H3 & H4 & _).
  split; [cbn [skip_space]; by rewrite Hs1|]. split.
  - intros [|w]; [done|]. cbn [take_sign]. by rewrite H1, H2.
  - cbn [is_0x]. rewrite H3, H4. by rewrite andb_false_r.
Qed.

Lemma scan_hex_fixed n x r :
  (2 <= n)%nat -> scan_hex n (hex_fixed n x ++ r) = Some (x mod 16 ^ Z.of_nat n, r).
Proof.
  intros Hn. rewrite hex_fixed_nibbles. unfold scan_hex.
  pose proof (nibbles_ok n x) as Hok. pose proof (length_nibbles n x) as Hlen.
  pose proof (nibble_value_nibbles n 0 x) as Hv.
  destruct (nibbles n x) as [|d [|e ds]] eqn:E; [simpl in Hlen; lia..|].
  assert (Hok' := Hok). apply Forall_cons in Hok' as [Hd [He _]%Forall_cons].
  destruct (digits_plain d e ds r Hd He) as (-> & -> & ->).
  cbn [andb]. rewrite (take_hex_digits n 0 (d :: e :: ds) r) by (done || lia || by left).
  rewrite Hv. simpl. by rewrite Z.add_0_l.
Qed.

Lemma strtol16_fixed x c r :
  0 <= x < 16 ^ 4 -> hexval c = None -> strtol16 (hex_fixed 4 x ++ c :: r) = (x, c :: r).
Proof.
  intros Hx Hc. rewrite hex_fixed_nibbles. unfold strtol16.
  pose proof (nibbles_ok 4 x) as Hok. pose proof (length_nibbles 4 x) as Hlen.
  pose proof (nibble_value_nibbles 4 0 x) as Hv.
  destruct (nibbles 4 x) as [|d [|e ds]] eqn:E; [done..|].
  assert (Hok' := Hok). apply Forall_cons in Hok' as [Hd [He _]%Forall_cons].
  destruct (digits_plain d e ds (c :: r) Hd He) as (-> & -> & ->).
  cbn [andb]. rewrite (take_hex_digits _ 0 (d :: e :: ds) (c :: r));
    [|done|rewrite length_app, List.length_map; lia|by right].
  rewrite Hv. cbn [length]. rewrite Z.add_0_l, Z.mod_small by done. f_equal. lia.
Qed.

Lemma hex_fixed_inj n x y :
  (2 <= n)%nat -> hex_fixed n x = hex_fixed n y -> x mod 16 ^ Z.of_nat n = y mod 16 ^ Z.of_nat n.
Proof.
  intros Hn H. pose proof (scan_hex_fixed n x [] Hn) as H1.
  rewrite H, (scan_hex_fixed n y [] Hn) in H1. by simplify_eq.
Qed.

(** The digits of a number split like the number. *)
Lemma hex_fixed_app n m x y :
  0 <= y < 16 ^ Z.of_nat m ->
  hex_fixed n x ++ hex_fixed m y = hex_fixed (n + m) (x * 16 ^ Z.of_nat m + y).
Proof.
  revert y. induction m as [|m IH]; intros y Hy.
  - simpl in *. rewrite app_nil_r, Nat.add_0_r. f_equal. lia.
  - rewrite Nat.add_succ_r. cbn [hex_fixed].
    rewrite Nat2Z.inj_succ, Z.pow_succ_r in * by lia. rewrite app_assoc, IH.
    + f_equal; [f_equal|do 2 f_equal].
      * replace (x * (16 * 16 ^ Z.of_nat m) + y) with (x * 16 ^ Z.of_nat m * 16 + y) by lia.
        by rewrite Z.div_add_l by lia.
      * replace (x * (16 * 16 ^ Z.of_nat m) + y) with (y + x * 16 ^ Z.of_nat m * 16) by lia.
        by rewrite Z.mod_add by lia.
    + split; [apply Z.div_pos; lia|]. apply Z.div_lt_upper_bound; lia.
Qed.

Lemma scan_lit_app f r : scan_lit f (f ++ r) = Some r.
Proof. induction f as [|c f IH]; [done|]. simpl. by rewrite Ascii.eqb_refl. Qed.

Lemma scan_lit_inv f s r : scan_lit f s = Some r -> s = f ++ r.
Proof.
  revert s. induction f as [|c f IH]; intros s; simpl; [by intros [= ->]|].
  destruct s as [|d s]; [done|]. destruct (Ascii.eqb_spec c d) as [<-|]; [|done].
  intros Hs. by rewrite (IH s Hs).
Qed.

Lemma scan_one_inv a b s r : scan_one a b s = Some r -> s = a :: r \/ s = b :: r.
Proof.
  destruct s as [|c s]; simpl; [done|].
  destruct (Ascii.eqb_spec c a) as [H1|], (Ascii.eqb_spec c b) as [H2|]; simpl; intros [= ->];
    subst; tauto.
Qed.

(** ** The printed form *)

Definition print128 (a b c d e f : Z) : cstring :=
  hex_fixed 8 a ++ dash :: hex_fixed 4 b ++ dash :: hex_fixed 4 c ++ dash :: hex_fixed 4 d ++
  dash :: hex_fixed 8 e ++ hex_fixed 4 f.

Lemma hex_fixed_no_upper n x :
  Forall (fun c => c <> "F"%char /\ c <> "B"%char) (hex_fixed n x).
Proof.
  rewrite hex_fixed_nibbles. pose proof (nibbles_ok n x) as H.
  induction H as [|d ds Hd _ IH]; [constructor|]. simpl. constructor; [|done].
  apply hexchar_plain in Hd as [_ Hp]. cbn [forallb] in Hp.
  rewrite !andb_true_iff, !negb_true_iff in Hp.
  destruct Hp as (_ & _ & _ & _ & HF & HB & _).
  by split; intros E; rewrite E in *.
Qed.

Lemma hex_fixed_mod n x y : x mod 16 ^ Z.of_nat n = y mod 16 ^ Z.of_nat n -> hex_fixed n x = hex_fixed n y.
Proof.
  revert x y. induction n as [|n IH]; intros x y; [done|].
  rewrite Nat2Z.inj_succ, Z.pow_succ_r by lia. rewrite !Z.rem_mul_r by lia. intros H.
  cbn [hex_fixed].
  pose proof (Z.mod_pos_bound x 16). pose proof (Z.mod_pos_bound y 16).
  assert (x mod 16 = y mod 16) by lia. f_equal; [apply IH; lia|]. do 2 f_equal. lia.
Qed.

Lemma is_uuid128_print a b c d e f : is_uuid128 (print128 a b c d e f) = true.
Proof. reflexivity. Qed.

Lemma cons_tail (c : ascii) l l' : c :: l = c :: l' -> l = l'.
Proof. congruence. Qed.

(** Only the Bluetooth base UUID is recognised as one. *)
Lemma scan_base_inv a b c d e f r :
  0 <= a < 2 ^ 32 -> 0 <= b < 2 ^ 16 -> 0 <= c < 2 ^ 16 -> 0 <= d < 2 ^ 16 ->
  0 <= e < 2 ^ 32 -> 0 <= f < 2 ^ 16 ->
  scan_base (print128 a b c d e f) = Some r ->
  a < 2 ^ 16 /\ b = 0 /\ c = 4096 /\ d = 32768 /\ e = 8413083 /\ f = 13563.
Proof.
  intros Ha Hb Hc Hd He Hf. unfold print128, scan_base.
  assert (Hsplit : hex_fixed 8 a = hex_fixed 4 (a / 65536) ++ hex_fixed 4 (a mod 65536)).
  { rewrite hex_fixed_app by (apply Z.mod_pos_bound; lia). f_equal.
    pose proof (Z.div_mod a 65536). change (16 ^ Z.of_nat 4) with 65536. lia. }
  rewrite Hsplit, <- app_assoc.
  destruct (scan_lit (chars "0000") _) as [s1|] eqn:E1; cbn [mbind option_bind]; [|done].
  apply scan_lit_inv in E1. apply app_inj_1 in E1 as [E1 <-]; [|by rewrite length_hex_fixed].
  change (chars "0000") with (hex_fixed 4 0) in E1. apply hex_fixed_inj in E1; [|lia].
  rewrite scan_hex_fixed by lia. cbn [mbind option_bind].
  destruct (scan_lit (chars "-0000-1000-8000-00805") _) as [s3|] eqn:E2; cbn [mbind option_bind]; [|done].
  apply scan_lit_inv in E2.
  change (chars "-0000-1000-8000-00805") with
    (dash :: hex_fixed 4 0 ++ dash :: hex_fixed 4 4096 ++ dash :: hex_fixed 4 32768 ++
     dash :: hex_fixed 5 2053) in E2.
  rewrite (hex_fixed_app 8 4) in E2 by done. cbn [app] in E2. rewrite <- !app_assoc in E2.
  apply cons_tail in E2. apply app_inj_1 in E2 as [Eb E2]; [|by rewrite !length_hex_fixed].
  cbn [app] in E2. rewrite <- !app_assoc in E2.
  apply cons_tail in E2. apply app_inj_1 in E2 as [Ec E2]; [|by rewrite !length_hex_fixed].
  cbn [app] in E2. rewrite <- !app_assoc in E2.
  apply cons_tail in E2. apply app_inj_1 in E2 as [Ed E2]; [|by rewrite !length_hex_fixed].
  cbn [app] in E2. apply cons_tail in E2.
  destruct (scan_one "f" "F" s3) as [s4|] eqn:E3; cbn [mbind option_bind]; [|done].
  destruct (scan_lit (chars "9") s4) as [s5|] eqn:E4; cbn [mbind option_bind]; [|done].
  destruct (scan_one "b" "B" s5) as [s6|] eqn:E5; cbn [mbind option_bind]; [|done].
  destruct (scan_lit (chars "34") s6) as [s7|] eqn:E6; cbn [mbind option_bind]; [|done].
  destruct (scan_one "f" "F" s7) as [s8|] eqn:E7; cbn [mbind option_bind]; [|done].
  intros E8. apply scan_lit_inv in E4, E6.
  pose proof (hex_fixed_no_upper 12 (e * 16 ^ Z.of_nat 4 + f)) as Hup.
  change (8 + 4)%nat with 12%nat in E2. rewrite E2 in Hup. apply Forall_app in Hup as [_ Hup].
  apply scan_one_inv in E3 as [->| ->]; [|apply Forall_cons in Hup as [[] _]; done].
  subst s4. apply Forall_cons in Hup as [_ Hup]. apply Forall_cons in Hup as [_ Hup].
  apply scan_one_inv in E5 as [->| ->]; [|apply Forall_cons in Hup as [[] _]; done].
  subst s6. apply Forall_cons in Hup as [_ Hup]. do 2 apply Forall_cons in Hup as [_ Hup].
  apply scan_one_inv in E7 as [->| ->]; [|apply Forall_cons in Hup as [[] _]; done].
  apply Forall_cons in Hup as [_ Hup].
  apply scan_one_inv in E8 as [->| ->]; [|apply Forall_cons in Hup as [[] _]; done].
  assert (r = []) as ->.
  { apply (f_equal length) in E2. rewrite length_app, !length_hex_fixed in E2.
    destruct r; [done|simpl in E2; lia]. }
  assert (E2' : hex_fixed 12 (e * 16 ^ Z.of_nat 4 + f) = hex_fixed 12 551359821051)
    by (rewrite E2; reflexivity).
  apply hex_fixed_inj in Eb, Ec, Ed, E2'; try lia.
  change (16 ^ Z.of_nat 4) with (2 ^ 16) in *. change (16 ^ Z.of_nat 12) with (2 ^ 48) in E2'.
  rewrite !Z.mod_small in Eb, Ec, Ed by lia.
  rewrite (Z.mod_small (e * _ + f)) in E2' by lia. change (551359821051 mod 2 ^ 48) with 551359821051 in E2'.
  change (0 mod 2 ^ 16) with 0 in *.
  assert (Hq : 0 <= a / 65536 < 2 ^ 16) by (split; [apply Z.div_pos|apply Z.div_lt_upper_bound]; lia).
  rewrite Z.mod_small in E1 by done.
  pose proof (Z.div_mod a 65536). pose proof (Z.mod_pos_bound a 65536). lia.
Qed.

Lemma scan_base_print v :
  0 <= v < 2 ^ 16 -> scan_base (print128 v 0 4096 32768 8413083 13563) = Some [].
Proof.
  intros Hv. unfold print128, scan_base.
  assert (Hsplit : hex_fixed 8 v = hex_fixed 4 0 ++ hex_fixed 4 v).
  { rewrite (hex_fixed_app 4 4 0 v); [done|]. by change (16 ^ Z.of_nat 4) with (2 ^ 16). }
  rewrite Hsplit, <- app_assoc. change (chars "0000") with (hex_fixed 4 0).
  rewrite scan_lit_app. cbn [mbind option_bind]. rewrite scan_hex_fixed by lia.
  cbn [mbind option_bind]. vm_compute. reflexivity.
Qed.

(** Values fit their fields. *)
Definition uuid_ok (u : bt_uuid) : Prop :=
  match u with
  | BT_UUID_UNSPEC => True
  | BT_UUID16 v => 0 <= v < 2 ^ 16
  | BT_UUID32 v => 0 <= v < 2 ^ 32
  | BT_UUID128 l => bytes_ok l /\ length l = 16%nat
  end.

Definition specified (u : bt_uuid) : Prop := u <> BT_UUID_UNSPEC.

Lemma patch_ok off src dst :
  bytes_ok src -> bytes_ok dst -> (off + length src <= length dst)%nat ->
  bytes_ok (patch off src dst) /\ length (patch off src dst) = length dst.
Proof.
  intros Hs Hd Hl. unfold patch. split.
  - apply Forall_app. split; [by apply Forall_take|]. apply Forall_app. split; [done|].
    by apply Forall_drop.
  - rewrite !length_app, length_take, length_drop. lia.
Qed.

Lemma base_ok : bytes_ok bluetooth_base_uuid.
Proof. repeat constructor; unfold is_byte; lia. Qed.

Lemma to_uuid128_ok u dst :
  uuid_ok u -> specified u ->
  exists l, bt_uuid_to_uuid128 u dst = BT_UUID128 l /\ bytes_ok l /\ length l = 16%nat.
Proof.
  unfold specified. destruct u as [|v|v|l]; [done| | |eauto]; intros _ _; eexists; (split; [done|]);
    apply patch_ok; try apply be_bytes_ok; try apply base_ok; rewrite length_be_bytes; simpl; lia.
Qed.

(** The six printed fields of 16 bytes determine them. *)
Lemma fields_of data :
  bytes_ok data -> length data = 16%nat ->
  let a := be_value (slice 0 4 data) in let b := be_value (slice 4 2 data) in
  let c := be_value (slice 6 2 data) in let d := be_value (slice 8 2 data) in
  let e := be_value (slice 10 4 data) in let f := be_value (slice 14 2 data) in
  data = be_bytes 4 a ++ be_bytes 2 b ++ be_bytes 2 c ++ be_bytes 2 d ++ be_bytes 4 e ++ be_bytes 2 f /\
  0 <= a < 2 ^ 32 /\ 0 <= b < 2 ^ 16 /\ 0 <= c < 2 ^ 16 /\ 0 <= d < 2 ^ 16 /\
  0 <= e < 2 ^ 32 /\ 0 <= f < 2 ^ 16.
Proof.
  intros Hok Hlen a b c d e f.
  assert (Hs : forall off n, bytes_ok (slice off n data)).
  { intros off n. unfold slice. apply Forall_take, Forall_drop. done. }
  assert (Hf : forall off n k, (Z.to_nat off + k <= 16)%nat -> Z.to_nat n = k ->
    be_bytes k (be_value (slice off n data)) = slice off n data /\
    0 <= be_value (slice off n data) < 2 ^ (8 * Z.of_nat k)).
  { intros off n k Hk Hn. assert (Hl : length (slice off n data) = k)
      by (unfold slice; rewrite length_take, length_drop; lia).
    rewrite <- Hl. split; [by apply be_bytes_value|]. by apply be_value_range. }
  destruct (Hf 0 4 4%nat) as [Ea Ra]; [simpl; lia|done|].
  destruct (Hf 4 2 2%nat) as [Eb Rb]; [simpl; lia|done|].
  destruct (Hf 6 2 2%nat) as [Ec Rc]; [simpl; lia|done|].
  destruct (Hf 8 2 2%nat) as [Ed Rd]; [simpl; lia|done|].
  destruct (Hf 10 4 4%nat) as [Ee Re]; [simpl; lia|done|].
  destruct (Hf 14 2 2%nat) as [Ef Rf]; [simpl; lia|done|].
  split; [|done]. unfold a, b, c, d, e, f. rewrite Ea, Eb, Ec, Ed, Ee, Ef.
  clear -Hlen. do 16 (destruct data as [|? data]; [done|]). by destruct data.
Qed.

Lemma to_string_print u n data :
  uuid_ok u -> specified u -> (37 <= n)%nat -> bt_uuid_to_uuid128 u BT_UUID_UNSPEC = BT_UUID128 data ->
  bt_uuid_to_string (Some u) n =
    (0, print128 (be_value (slice 0 4 data)) (be_value (slice 4 2 data)) (be_value (slice 6 2 data))
          (be_value (slice 8 2 data)) (be_value (slice 10 4 data)) (be_value (slice 14 2 data))).
Proof.
  intros Hok Hsp Hn Hd. unfold bt_uuid_to_string. rewrite Hd.
  destruct u; [done|..]; (rewrite take_ge; [done|]);
    rewrite !length_app, !length_hex_fixed; simpl; lia.
Qed.

Lemma string_to_uuid128_print a b c d e f :
  0 <= a < 2 ^ 32 -> 0 <= b < 2 ^ 16 -> 0 <= c < 2 ^ 16 -> 0 <= d < 2 ^ 16 ->
  0 <= e < 2 ^ 32 -> 0 <= f < 2 ^ 16 ->
  bt_string_to_uuid128 (print128 a b c d e f) =
    Some (BT_UUID128 (be_bytes 4 a ++ be_bytes 2 b ++ be_bytes 2 c ++ be_bytes 2 d ++
                      be_bytes 4 e ++ be_bytes 2 f)).
Proof.
  intros. unfold bt_string_to_uuid128, print128.
  assert (Hdash : forall r, scan_lit [dash] (dash :: r) = Some r) by done.
  rewrite <- (app_nil_r (hex_fixed 4 f)).
  do 4 (rewrite scan_hex_fixed by lia; cbn [mbind option_bind]; rewrite Hdash; cbn [mbind option_bind]).
  do 2 (rewrite scan_hex_fixed by lia; cbn [mbind option_bind]).
  change (16 ^ Z.of_nat 8) with (2 ^ 32). change (16 ^ Z.of_nat 4) with (2 ^ 16).
  by rewrite !Z.mod_small by done.
Qed.

Lemma memcmp_refl l : memcmp l l = 0.
Proof. induction l as [|x l IH]; simpl; [done|]. by rewrite Z.eqb_refl. Qed.

Definition uuid128_bytes (u : bt_uuid) : list Z := match u with BT_UUID128 l => l | _ => [] end.

(** The 16-bit value is read back from its bytes. *)
Lemma uuid128_value v w :
  bt_uuid16_to_uuid128 v = bt_uuid16_to_uuid128 w -> v mod 2 ^ 16 = w mod 2 ^ 16.
Proof.
  intros H. apply (f_equal (fun u => be_value (slice 2 2 (uuid128_bytes u)))) in H.
  change (be_value (be_bytes 2 v) = be_value (be_bytes 2 w)) in H.
  by rewrite !be_value_bytes in H.
Qed.

(** C11. UUIDs survive printing and parsing.  With a buffer of at least
    [MAX_LEN_UUID_STR] = 37 characters, the string [bt_uuid_to_string] writes for
    a 16-, 32- or 128-bit UUID is parsed by [bt_string_to_uuid] to a UUID with the
    same 128-bit form, equal to it by [bt_uuid_cmp]; a 16-bit UUID comes back as
    the same 16-bit UUID. *)
Theorem uuid_string_round_trip u n :
  uuid_ok u -> specified u -> (37 <= n)%nat ->
  exists u', bt_string_to_uuid (bt_uuid_to_string (Some u) n).2 = Some u' /\
    (bt_uuid_to_string (Some u) n).1 = 0 /\ uuid_ok u' /\
    bt_uuid_to_uuid128 u' BT_UUID_UNSPEC = bt_uuid_to_uuid128 u BT_UUID_UNSPEC /\
    bt_uuid_cmp u u' = Some 0 /\
    (forall v, u = BT_UUID16 v -> u' = u).
Proof.
  intros Hok Hsp Hn. destruct (to_uuid128_ok u BT_UUID_UNSPEC Hok Hsp) as (data & Hd & Hdok & Hlen).
  rewrite (to_string_print u n data) by done. cbn [fst snd].
  destruct (fields_of data Hdok Hlen) as (Heq & Ra & Rb & Rc & Rd & Re & Rf).
  set (a := be_value (slice 0 4 data)) in *. set (b := be_value (slice 4 2 data)) in *.
  set (c := be_value (slice 6 2 data)) in *. set (d := be_value (slice 8 2 data)) in *.
  set (e := be_value (slice 10 4 data)) in *. set (f := be_value (slice 14 2 data)) in *.
  assert (Hcmp : forall u', bt_uuid_to_uuid128 u' BT_UUID_UNSPEC = BT_UUID128 data ->
    bt_uuid_cmp u u' = Some 0).
  { intros u' Hu'. unfold bt_uuid_cmp. rewrite Hd, Hu'. simpl. by rewrite memcmp_refl. }
  unfold bt_string_to_uuid, is_base_uuid128. rewrite is_uuid128_print. cbn [negb].
  destruct (scan_base (print128 a b c d e f)) as [r|] eqn:Hbase.
  - apply scan_base_inv in Hbase as (Ha & -> & -> & -> & -> & ->); try done.
    assert (Hdrop : drop 4 (print128 a 0 4096 32768 8413083 13563)
      = hex_fixed 4 a ++ dash :: drop 9 (print128 a 0 4096 32768 8413083 13563)) by reflexivity.
    unfold bt_string_to_uuid16. rewrite Hdrop, strtol16_fixed; [|change (16 ^ 4) with (2 ^ 16); lia|done].
    rewrite Ascii.eqb_refl. unfold bt_uuid16_create, wrap. rewrite Z.mod_small by lia.
    exists (BT_UUID16 a). split; [done|]. split; [done|]. split; [simpl; lia|].
    assert (H128 : bt_uuid_to_uuid128 (BT_UUID16 a) BT_UUID_UNSPEC = BT_UUID128 data).
    { rewrite Heq. unfold bt_uuid_to_uuid128, bt_uuid16_to_uuid128. f_equal.
      cbn [be_bytes Nat.mul Nat.add]. cbn -[Z.div Z.modulo Z.pow].
      change (2 ^ (8 * Z.of_nat 3)) with 16777216. change (2 ^ (8 * Z.of_nat 2)) with 65536.
      rewrite (Z.div_small a 16777216), (Z.div_small a 65536) by lia. done. }
    rewrite H128, Hd. split; [done|]. split; [by apply Hcmp|].
    intros v ->. f_equal. simpl in Hok.
    assert (E : bt_uuid16_to_uuid128 v = bt_uuid16_to_uuid128 a) 
      by (transitivity (BT_UUID128 data); [exact Hd|symmetry; exact H128]).
    apply uuid128_value in E. rewrite !Z.mod_small in E by lia. done.
  - rewrite string_to_uuid128_print by done. rewrite <- Heq.
    exists (BT_UUID128 data). split; [done|]. split; [done|]. split; [done|]. split; [by rewrite Hd|].
    split; [by apply Hcmp|]. intros v ->. exfalso. simpl in Hd, Hok.
    assert (E : a = be_value (slice 0 4 (uuid128_bytes (bt_uuid16_to_uuid128 v)))) by (by rewrite Hd).
    assert (Ha : a = v).
    { rewrite E. change (be_value (be_bytes 2 v) = v).
      rewrite be_value_bytes. change (2 ^ (8 * Z.of_nat 2)) with (2 ^ 16). by apply Z.mod_small. }
    assert (Hdata : data = uuid128_bytes (bt_uuid16_to_uuid128 v)) by (by rewrite Hd).
    assert (Hbase' : scan_base (print128 v 0 4096 32768 8413083 13563) = None).
    { rewrite <- Hbase, Ha. unfold b, c, d, e, f. by rewrite Hdata. }
    by rewrite scan_base_print in Hbase'.
Qed.

(** ** Comparison *)

Lemma memcmp_eq a b : length a = length b -> memcmp a b = 0 <-> a = b.
Proof.
  revert b. induction a as [|x a IH]; intros [|y b]; simpl; try done.
  intros [= Hl]. destruct (Z.eqb_spec x y) as [->|Hne].
  - rewrite IH by done. split; [by intros ->|by intros [= ->]].
  - destruct (x <? y); split; congruence.
Qed.

Lemma memcmp_opp a b : length a = length b -> memcmp b a = - memcmp a b.
Proof.
  revert b. induction a as [|x a IH]; intros [|y b]; simpl; try done.
  intros [= Hl]. rewrite (Z.eqb_sym y x). destruct (Z.eqb_spec x y) as [->|Hne]; [by apply IH|].
  destruct (Z.ltb_spec x y), (Z.ltb_spec y x); lia.
Qed.

Lemma memcmp_trans a b c :
  length a = length b -> length b = length c ->
  memcmp a b <= 0 -> memcmp b c <= 0 -> memcmp a c <= 0.
Proof.
  revert b c. induction a as [|x a IH]; intros [|y b] [|z c]; simpl; try done.
  intros [= Hl] [= Hl'].
  destruct (Z.eqb_spec x y) as [->|Hxy].
  - destruct (Z.eqb_spec y z) as [->|Hyz]; [eauto|]. destruct (Z.ltb_spec y z); lia.
  - destruct (Z.eqb_spec y z) as [<-|Hyz].
    + destruct (Z.eqb_spec x y); [done|]. destruct (Z.ltb_spec x y); lia.
    + destruct (Z.ltb_spec x y), (Z.ltb_spec y z), (Z.eqb_spec x z), (Z.ltb_spec x z); lia.
Qed.

Lemma uuid_cmp_bytes u v :
  uuid_ok u -> specified u -> uuid_ok v -> specified v ->
  exists a b, bt_uuid_to_uuid128 u BT_UUID_UNSPEC = BT_UUID128 a /\
    bt_uuid_to_uuid128 v BT_UUID_UNSPEC = BT_UUID128 b /\ length a = 16%nat /\ length b = 16%nat /\
    bt_uuid_cmp u v = Some (memcmp a b).
Proof.
  intros Hu Su Hv Sv.
  destruct (to_uuid128_ok u BT_UUID_UNSPEC Hu Su) as (a & Ha & _ & La).
  destruct (to_uuid128_ok v BT_UUID_UNSPEC Hv Sv) as (b & Hb & _ & Lb).
  exists a, b. unfold bt_uuid_cmp. by rewrite Ha, Hb.
Qed.

(** Two UUIDs that are set and well formed. *)
Definition comparable (u : bt_uuid) : Prop := uuid_ok u /\ specified u.

(** [bt_uuid_cmp] orders UUIDs by their 128-bit forms whatever form they are
    given in: it is 0 exactly when the 128-bit forms are the same, exchanging
    the arguments changes the sign, "at most" is transitive, and two 16-bit
    UUIDs compare equal exactly when they are the same number. *)
Theorem uuid_cmp_order u v w :
  comparable u -> comparable v -> comparable w ->
  exists uv vw uw, bt_uuid_cmp u v = Some uv /\ bt_uuid_cmp v w = Some vw /\ bt_uuid_cmp u w = Some uw /\
    (uv = 0 <-> bt_uuid_to_uuid128 u BT_UUID_UNSPEC = bt_uuid_to_uuid128 v BT_UUID_UNSPEC) /\
    bt_uuid_cmp v u = Some (- uv) /\
    (uv <= 0 -> vw <= 0 -> uw <= 0) /\
    (forall x y, u = BT_UUID16 x -> v = BT_UUID16 y -> uv = 0 <-> x = y).
Proof.
  intros [Hu Su] [Hv Sv] [Hw Sw].
  destruct (uuid_cmp_bytes u v) as (a & b & Ha & Hb & La & Lb & Huv); try done.
  destruct (uuid_cmp_bytes w u) as (c & a' & Hc & Ha' & Lc & _ & _); try done.
  unfold bt_uuid_cmp. rewrite Ha, Hb, Hc. cbn [bt_uuid128_cmp].
  exists (memcmp a b), (memcmp b c), (memcmp a c).
  do 3 (split; [done|]). split; [|split; [|split]].
  - rewrite memcmp_eq by congruence. split; [by intros ->|by intros [= ->]].
  - f_equal. apply memcmp_opp. congruence.
  - apply memcmp_trans; congruence.
  - intros x y -> ->. rewrite memcmp_eq by congruence. simpl in Hu, Hv. split.
    + intros ->. assert (E : bt_uuid16_to_uuid128 x = bt_uuid16_to_uuid128 y)
        by (transitivity (BT_UUID128 b); [exact Ha|symmetry; exact Hb]).
      apply uuid128_value in E. rewrite !Z.mod_small in E by lia. done.
    + intros ->. congruence.
Qed.

(** What the parser refuses and what it lets through.  A string whose length
    is not 4, 6, 8, 10 or 36 is refused with [-EINVAL], and comparing it answers
    [-EINVAL]; but the four characters ["----"] are the 16-bit UUID 0, and six
    digits lose the first two. *)
Theorem uuid_parse_errors s t :
  (List.length s <> 4 /\ List.length s <> 6 /\ List.length s <> 8 /\ List.length s <> 10 /\
   List.length s <> 36)%nat ->
  bt_string_to_uuid s = None /\ bt_uuid_strcmp s t = Some (- EINVAL) /\
  bt_string_to_uuid (chars "----") = Some (BT_UUID16 0) /\
  bt_string_to_uuid (chars "123456") = Some (BT_UUID16 0x3456).
Proof.
  intros (H4 & H6 & H8 & H10 & H36).
  assert (Hn : bt_string_to_uuid s = None).
  { unfold bt_string_to_uuid, is_base_uuid128, is_uuid128, is_uuid32, is_uuid16.
    apply Nat.eqb_neq in H4, H6, H8, H10, H36. by rewrite H4, H6, H8, H10, H36. }
  split; [done|]. split; [unfold bt_uuid_strcmp; by rewrite Hn|]. split; reflexivity.
Qed.

(** ** Witnesses *)

Lemma uuid_string_round_trip_witness :
  uuid_ok (BT_UUID16 0x180D) /\
  exists u', bt_string_to_uuid (bt_uuid_to_string (Some (BT_UUID16 0x180D)) 37).2 = Some u' /\
    (bt_uuid_to_string (Some (BT_UUID16 0x180D)) 37).1 = 0 /\ uuid_ok u' /\
    bt_uuid_to_uuid128 u' BT_UUID_UNSPEC = bt_uuid_to_uuid128 (BT_UUID16 0x180D) BT_UUID_UNSPEC /\
    bt_uuid_cmp (BT_UUID16 0x180D) u' = Some 0 /\
    (forall v, BT_UUID16 0x180D = BT_UUID16 v -> u' = BT_UUID16 0x180D).
Proof.
  split; [simpl; lia|].
  apply (uuid_string_round_trip (BT_UUID16 0x180D) 37); [simpl; lia|discriminate|lia].
Defined.

Lemma uuid_cmp_order_witness :
  bt_uuid_cmp (BT_UUID16 0x2800) (BT_UUID32 0x2800) = Some 0 /\
  exists uv vw uw, bt_uuid_cmp (BT_UUID16 0x2800) (BT_UUID32 0x2800) = Some uv /\
    bt_uuid_cmp (BT_UUID32 0x2800) (BT_UUID16 0x2801) = Some vw /\
    bt_uuid_cmp (BT_UUID16 0x2800) (BT_UUID16 0x2801) = Some uw /\ (uv <= 0 -> vw <= 0 -> uw <= 0).
Proof.
  split; [vm_compute; reflexivity|].
  destruct (uuid_cmp_order (BT_UUID16 0x2800) (BT_UUID32 0x2800) (BT_UUID16 0x2801))
    as (uv & vw & uw & H1 & H2 & H3 & _ & _ & H4 & _);
    [split; [simpl; lia|discriminate]..|].
  exists uv, vw, uw. exact (conj H1 (conj H2 (conj H3 H4))).
Defined.

Lemma uuid_parse_errors_witness :
  bt_string_to_uuid (chars "2800h") = None /\
  bt_uuid_strcmp (chars "2800h") (chars "2800") = Some (- EINVAL) /\
  bt_string_to_uuid (chars "----") = Some (BT_UUID16 0) /\
  bt_string_to_uuid (chars "123456") = Some (BT_UUID16 0x3456).
Proof. apply (uuid_parse_errors (chars "2800h") (chars "2800")). simpl. lia. Defined.
