(* ===== verification/GattDb.v ===== *)
(** The GATT attribute database ([src/examples/gatt/src/shared/gatt-db.c]):
    services with their handle ranges, the attributes in them, lookups and
    enumerations, registration and the notifications.

    Services live in a heap indexed by identity; [services] is the queue of
    their identities (the queue itself is the component [Queue]).  An attribute
    is named by its service and its index in [attributes], which never changes.
    The database pointer is valid throughout; attribute pointers may be [NULL]
    ([None]).  Calls of client functions are events of a log: what they do next
    is another operation.  A result of [None] is a memory error. *)
From S2P Require Import Prelude Uuid.

Definition GATT_PRIM_SVC_UUID : Z := 0x2800.
Definition GATT_SND_SVC_UUID : Z := 0x2801.
Definition GATT_INCLUDE_UUID : Z := 0x2802.
Definition GATT_CHARAC_UUID : Z := 0x2803.
Definition GATT_CHARAC_EXT_PROPER_UUID : Z := 0x2900.
Definition GATT_CHARAC_USER_DESC_UUID : Z := 0x2901.
Definition GATT_CLIENT_CHARAC_CFG_UUID : Z := 0x2902.
Definition GATT_SERVER_CHARAC_CFG_UUID : Z := 0x2903.
Definition GATT_CHARAC_FMT_UUID : Z := 0x2904.
Definition GATT_CHARAC_AGREG_FMT_UUID : Z := 0x2905.

Definition primary_service_uuid : bt_uuid := BT_UUID16 GATT_PRIM_SVC_UUID.
Definition secondary_service_uuid : bt_uuid := BT_UUID16 GATT_SND_SVC_UUID.
Definition characteristic_uuid : bt_uuid := BT_UUID16 GATT_CHARAC_UUID.
Definition included_service_uuid : bt_uuid := BT_UUID16 GATT_INCLUDE_UUID.
Definition ext_desc_uuid : bt_uuid := BT_UUID16 GATT_CHARAC_EXT_PROPER_UUID.

Definition UINT16_MAX : Z := 65535.
Definition BT_ATT_PERM_READ : Z := 1.

(** ** Data *)

(** A read or write waiting for its result: the id, the client's callback and
    the timer. *)
Record pending := mkPending { p_id : Z; p_user : Z; p_timeout : Z }.

Record attribute_notify := mkAttrNotify { an_id : Z; an_removed : bool; an_user : Z }.

Record gatt_db_attribute := mkAttr {
  handle : Z;
  uuid : bt_uuid;
  permissions : Z;
  value_len : Z;
  value : list Z;                      (* the allocated buffer; [] is NULL *)
  read_func : option Z;                (* a client function with its data *)
  write_func : option Z;
  read_id : Z;
  pending_reads : list pending;
  write_id : Z;
  pending_writes : list pending;
  attr_next_notify_id : Z;
  attr_notify_list : list attribute_notify
}.

Record gatt_db_service := mkService {
  active : bool;
  claimed : bool;
  num_handles : Z;
  attributes : list (option gatt_db_attribute)
}.

Record notify := mkNotify {
  n_id : Z;
  service_added : option Z;
  service_removed : option Z;
  n_user : Z
}.

Record gatt_db := mkDb {
  svc_heap : gmap positive gatt_db_service;
  services : list positive;
  next_handle : Z;
  notify_list : list notify;
  next_notify_id : Z;
  authorize : option Z;
  hash_pending : bool
}.

Abbreviation aptr := (positive * nat)%type.

(** The calls made to the client. *)
Inductive gatt_event :=
  | Ev_service_added (cb : Z) (a : aptr)
  | Ev_service_removed (cb : Z) (a : aptr)
  | Ev_attribute_removed (a : aptr) (user : Z)
  | Ev_notify_destroyed (id : Z)
  | Ev_read (a : aptr) (user err : Z) (data : list Z)
  | Ev_written (a : aptr) (user err : Z)
  | Ev_read_func (a : aptr) (cb id offset opcode : Z)
  | Ev_write_func (a : aptr) (cb id offset : Z) (data : list Z) (opcode : Z).

Definition gatt_db_new : gatt_db := mkDb ∅ [] 1 [] 0 None false.

Definition set_service (s : positive) (sv : gatt_db_service) (db : gatt_db) : gatt_db :=
  mkDb (<[s := sv]> (svc_heap db)) (services db) (next_handle db) (notify_list db)
    (next_notify_id db) (authorize db) (hash_pending db).
Definition set_services (h : gmap positive gatt_db_service) (l : list positive) (db : gatt_db) : gatt_db :=
  mkDb h l (next_handle db) (notify_list db) (next_notify_id db) (authorize db) (hash_pending db).
Definition set_next_handle (h : Z) (db : gatt_db) : gatt_db :=
  mkDb (svc_heap db) (services db) h (notify_list db) (next_notify_id db) (authorize db) (hash_pending db).
Definition set_notify (l : list notify) (next : Z) (db : gatt_db) : gatt_db :=
  mkDb (svc_heap db) (services db) (next_handle db) l next (authorize db) (hash_pending db).
Definition set_hash_pending (b : bool) (db : gatt_db) : gatt_db :=
  mkDb (svc_heap db) (services db) (next_handle db) (notify_list db) (next_notify_id db)
    (authorize db) b.
Definition set_attributes (l : list (option gatt_db_attribute)) (sv : gatt_db_service) : gatt_db_service :=
  mkService (active sv) (claimed sv) (num_handles sv) l.

(** Following an attribute pointer. *)
Definition get_attr (a : aptr) (db : gatt_db) : option gatt_db_attribute :=
  sv ← svc_heap db !! a.1; o ← attributes sv !! a.2; o.

(** [service->attributes[0]] *)
Definition first_attr (sv : gatt_db_service) : option gatt_db_attribute :=
  o ← attributes sv !! 0%nat; o.

(** ** Attributes *)

(** [new_attribute]; memory does not run out. *)
Definition new_attribute (h : Z) (type : bt_uuid) (val : list Z) : gatt_db_attribute :=
  mkAttr h type 0 (zlen val) val None None 0 [] 0 [] 0 [].

Definition set_attribute_data (rf wf : option Z) (perms : Z) (A : gatt_db_attribute) : gatt_db_attribute :=
  mkAttr (handle A) (uuid A) perms (value_len A) (value A) rf wf (read_id A) (pending_reads A)
    (write_id A) (pending_writes A) (attr_next_notify_id A) (attr_notify_list A).

(** [uuid_to_le]: the bytes written (their number is the return value). *)
Definition uuid_to_le (u : bt_uuid) : option (list Z) :=
  match u with
  | BT_UUID16 v => Some (rev (be_bytes 2 v))
  | _ => match bt_uuid_to_uuid128 u BT_UUID_UNSPEC with
         | BT_UUID128 d => Some (rev d)
         | _ => None
         end
  end.

Definition get_le (l : list Z) : Z := be_value (rev l).
Definition put_le16 (v : Z) : list Z := rev (be_bytes 2 v).

Definition le_to_uuid (src : list Z) : option bt_uuid :=
  if zlen src =? 2 then Some (bt_uuid16_create (get_le src))
  else if zlen src =? 4 then Some (bt_uuid32_create (get_le src))
  else if negb (zlen src =? 16) then None
  else Some (bt_uuid128_create (rev src)).

(** The result of [bt_uuid_cmp] as the callers test it. *)
Definition uuid_eq (u v : bt_uuid) : option bool := c ← bt_uuid_cmp u v; Some (c =? 0).

(** [gatt_db_service_create]; [num_handles] is set by the caller, [None] inside
    is the [NULL] for an empty range. *)
Definition gatt_db_service_create (u : bt_uuid) (h : Z) (primary : bool) (num : Z)
  : option (option gatt_db_service) :=
  if num <? 1 then Some None else
  let type := if primary then primary_service_uuid else secondary_service_uuid in
  val ← uuid_to_le u;
  let A := set_attribute_data None None BT_ATT_PERM_READ (new_attribute h type val) in
  Some (Some (mkService false false 0 (Some A :: replicate (Z.to_nat (num - 1)) None))).

Definition gatt_db_service_get_handles (sv : gatt_db_service) : option (Z * Z) :=
  A ← first_attr sv; Some (handle A, u16 (handle A + num_handles sv - 1)).

(** The UUID in the declaration of the service; [None] inside is [false]. *)
Definition service_uuid (sv : gatt_db_service) : option (option bt_uuid) :=
  A ← first_attr sv;
  if value_len A =? 2 then v ← memread (value A) 0 2; Some (Some (bt_uuid16_create (get_le v)))
  else if value_len A =? 16 then v ← memread (value A) 0 16; Some (Some (bt_uuid128_create (rev v)))
  else Some None.

(** ** Notifications *)

(** [handle_attribute_notify] over the attributes of a service. *)
Definition notify_attribute_changed (s : positive) (sv : gatt_db_service) : list gatt_event :=
  concat (imap (fun i o => match o with
    | Some A => map (fun n => Ev_attribute_removed (s, i) (an_user n))
                  (filter (fun n => an_removed n = true) (attr_notify_list A))
    | None => []
    end) (take (Z.to_nat (num_handles sv)) (attributes sv))).

(** [handle_notify]: the function of the kind of event is called, whether it was
    given or not. *)
Definition handle_notify (s : positive) (added : bool) (n : notify) : option gatt_event :=
  if added then cb ← service_added n; Some (Ev_service_added cb (s, O))
  else cb ← service_removed n; Some (Ev_service_removed cb (s, O)).

(** [notify_service_changed]: the events, and the database with its hash due. *)
Definition notify_service_changed (s : positive) (sv : gatt_db_service) (added : bool) (db : gatt_db)
  : option (list gatt_event * gatt_db) :=
  let evs := if added then [] else notify_attribute_changed s sv in
  match notify_list db with
  | [] => Some (evs, db)
  | l => calls ← mapM (handle_notify s added) l;
         Some (evs ++ calls, set_hash_pending true db)
  end.

Definition ECANCELED : Z := 125.

(** [attribute_destroy]: what is pending is cancelled. *)
Definition attribute_destroy (a : aptr) (A : gatt_db_attribute) : list gatt_event :=
  map (fun p => Ev_read a (p_user p) (- ECANCELED) []) (pending_reads A) ++
  map (fun p => Ev_written a (p_user p) (- ECANCELED)) (pending_writes A) ++
  map (fun n => Ev_notify_destroyed (an_id n)) (attr_notify_list A).

(** [gatt_db_service_destroy] of a service that left the queue. *)
Definition gatt_db_service_destroy (s : positive) (db : gatt_db) : option (list gatt_event * gatt_db) :=
  sv ← svc_heap db !! s;
  '(evs, db1) ← (if active sv then notify_service_changed s sv false db else Some ([], db));
  let gone := concat (imap (fun i o => match o with Some A => attribute_destroy (s, i) A | None => [] end)
                       (take (Z.to_nat (num_handles sv)) (attributes sv))) in
  Some (evs ++ gone, set_services (delete s (svc_heap db1)) (services db1) db1).

Fixpoint destroy_all (ss : list positive) (db : gatt_db) : option (list gatt_event * gatt_db) :=
  match ss with
  | [] => Some ([], db)
  | s :: ss' =>
      '(e1, db1) ← gatt_db_service_destroy s db;
      '(e2, db2) ← destroy_all ss' db1;
      Some (e1 ++ e2, db2)
  end.

(** ** Services *)

Definition gatt_db_isempty (db : gatt_db) : bool := match services db with [] => true | _ => false end.

Definition unlink_service (s : positive) (db : gatt_db) : gatt_db :=
  set_services (svc_heap db) (filter (fun x => x <> s) (services db)) db.

Definition gatt_db_remove_service (attrib : option aptr) (db : gatt_db)
  : option (bool * list gatt_event * gatt_db) :=
  match attrib with
  | None => Some (false, [], db)
  | Some a =>
      '(evs, db1) ← gatt_db_service_destroy a.1 (unlink_service a.1 db);
      Some (true, evs, db1)
  end.

Definition match_range (start stop : Z) (sv : gatt_db_service) : option bool :=
  '(svc_start, svc_end) ← gatt_db_service_get_handles sv;
  Some ((svc_start <=? stop) && (start <=? svc_end)).

(** [queue_remove_all] with [match_range], one service after the other. *)
Fixpoint clear_matching (start stop : Z) (ss : list positive) (db : gatt_db)
  : option (list gatt_event * gatt_db) :=
  match ss with
  | [] => Some ([], db)
  | s :: ss' =>
      sv ← svc_heap db !! s;
      b ← match_range start stop sv;
      if b : bool then
        '(e1, db1) ← gatt_db_service_destroy s (unlink_service s db);
        '(e2, db2) ← clear_matching start stop ss' db1;
        Some (e1 ++ e2, db2)
      else clear_matching start stop ss' db
  end.

Definition gatt_db_clear_range (start_handle end_handle : Z) (db : gatt_db)
  : option (bool * list gatt_event * gatt_db) :=
  if end_handle <? start_handle then Some (false, [], db) else
  '(evs, db1) ← (if (start_handle =? 1) && (end_handle =? UINT16_MAX)
                 then destroy_all (services db) (set_services (svc_heap db) [] db)
                 else clear_matching start_handle end_handle (services db) db);
  Some (true, evs, if gatt_db_isempty db1 then set_next_handle 0 db1 else db1).

Definition gatt_db_clear (db : gatt_db) := gatt_db_clear_range 1 UINT16_MAX db.

(** [find_insert_loc]: a service in the way, and the last one before. *)
Fixpoint find_insert_loc (start stop : Z) (ss : list positive) (after : option positive) (db : gatt_db)
  : option (option positive * option positive) :=
  match ss with
  | [] => Some (None, after)
  | s :: ss' =>
      sv ← svc_heap db !! s;
      '(cur_start, cur_end) ← gatt_db_service_get_handles sv;
      if (cur_start <=? start) && (start <=? cur_end) then Some (Some s, after)
      else if (cur_start <=? stop) && (stop <=? cur_end) then Some (Some s, after)
      else if stop <? cur_start then Some (None, after)
      else find_insert_loc start stop ss' (Some s) db
  end.

(** Queue operations on identities: [queue_push_after] and [queue_push_head]. *)
Fixpoint push_after (e d : positive) (l : list positive) : list positive :=
  match l with
  | [] => []
  | x :: l' => if decide (x = e) then x :: d :: l' else x :: push_after e d l'
  end.

Definition gatt_db_insert_service (h : Z) (u : bt_uuid) (primary : bool) (num : Z) (db : gatt_db)
  : option (option aptr * gatt_db) :=
  let h := if h =? 0 then next_handle db else h in
  if (num <? 1) || (UINT16_MAX <? h + num - 1) then Some (None, db) else
  '(found, after) ← find_insert_loc h (u16 (h + num - 1)) (services db) None db;
  match found with
  | Some s =>
      sv ← svc_heap db !! s;
      A ← first_attr sv;
      let type := if primary then primary_service_uuid else secondary_service_uuid in
      v ← service_uuid sv;
      same_type ← uuid_eq (uuid A) type;
      if negb same_type then Some (None, db) else
      v ← v;
      same_uuid ← uuid_eq v u;
      if same_uuid && (num_handles sv =? num) && (handle A =? h) then Some (Some (s, O), db)
      else Some (None, db)
  | None =>
      created ← gatt_db_service_create u h primary num;
      match created with
      | None => Some (None, db)
      | Some sv =>
          let s := fresh (dom (svc_heap db)) in
          let l := match after with
                   | Some a => push_after a s (services db)
                   | None => s :: services db
                   end in
          let sv1 := mkService (active sv) (claimed sv) num (attributes sv) in
          let db1 := set_services (<[s := sv1]> (svc_heap db)) l db in
          Some (Some (s, O), set_next_handle (u16 (Z.max (h + num) (next_handle db))) db1)
      end
  end.

Definition gatt_db_add_service (u : bt_uuid) (primary : bool) (num : Z) (db : gatt_db) :=
  gatt_db_insert_service 0 u primary num db.

(** [gatt_db_destroy], when the last reference is dropped. *)
Definition gatt_db_destroy (db : gatt_db) : option (list gatt_event * gatt_db) :=
  let notified := map (fun n => Ev_notify_destroyed (n_id n)) (notify_list db) in
  let db1 := set_hash_pending false (set_notify [] (next_notify_id db) db) in
  '(evs, db2) ← destroy_all (services db1) (set_services (svc_heap db1) [] db1);
  Some (notified ++ evs, db2).

(** ** Registration *)

Definition gatt_db_register (added removed : option Z) (user : Z) (db : gatt_db) : Z * gatt_db :=
  match added, removed with
  | None, None => (0, db)
  | _, _ =>
      let id := if next_notify_id db <? 1 then 1 else next_notify_id db in
      (id, set_notify (notify_list db ++ [mkNotify id added removed user]) (u32 (id + 1)) db)
  end.

(** The first entry with the id is removed. *)
Fixpoint remove_notify (id : Z) (l : list notify) : option (list notify) :=
  match l with
  | [] => None
  | n :: l' => if n_id n =? id then Some l' else r ← remove_notify id l'; Some (n :: r)
  end.

Definition gatt_db_unregister (id : Z) (db : gatt_db) : bool * list gatt_event * gatt_db :=
  if id =? 0 then (false, [], db) else
  match remove_notify id (notify_list db) with
  | None => (false, [], db)
  | Some l => (true, [Ev_notify_destroyed id], set_notify l (next_notify_id db) db)
  end.

Definition gatt_db_set_authorize (cb : option Z) (db : gatt_db) : bool * gatt_db :=
  (true, mkDb (svc_heap db) (services db) (next_handle db) (notify_list db) (next_notify_id db) cb
           (hash_pending db)).

(** ** Attributes of a service *)

(** The loop of [get_attribute_index]: the first free index below [n]. *)
Fixpoint free_index (n : nat) (l : list (option gatt_db_attribute)) : nat :=
  match n, l with
  | Datatypes.S n', Some _ :: l' => Datatypes.S (free_index n' l')
  | _, _ => O
  end.

(** [get_attribute_index]: 0 when there is none. *)
Definition get_attribute_index (sv : gatt_db_service) (end_offset : Z) : nat :=
  let n := Z.to_nat (num_handles sv - end_offset) in
  let i := free_index n (attributes sv) in
  if (i =? n)%nat then O else i.

Definition get_handle_at_index (sv : gatt_db_service) (i : nat) : option Z :=
  o ← attributes sv !! i; A ← o; Some (handle A).

(** [service->attributes[i] = A]; [None] is a write outside the array. *)
Definition put_attribute (i : nat) (A : gatt_db_attribute) (sv : gatt_db_service)
  : option gatt_db_service :=
  _ ← attributes sv !! i; Some (set_attributes (<[i := Some A]> (attributes sv)) sv).

(** [service_insert_characteristic]: the index of the value attribute. *)
Definition service_insert_characteristic (h : Z) (u : bt_uuid) (perms properties : Z)
    (rf wf : option Z) (sv : gatt_db_service) : option (option nat * gatt_db_service) :=
  A0 ← first_attr sv;
  if negb (h =? 0) && (h <=? handle A0) then Some (None, sv) else
  if h =? UINT16_MAX then Some (None, sv) else
  let i := get_attribute_index sv 1 in
  if (i =? 0)%nat then Some (None, sv) else
  h ← (if h =? 0 then prev ← get_handle_at_index sv (i - 1); Some (u16 (prev + 2)) else Some h);
  ub ← uuid_to_le u;
  let val := [properties] ++ put_le16 h ++ ub in
  let decl := set_attribute_data None None BT_ATT_PERM_READ
                (new_attribute (u16 (h - 1)) characteristic_uuid val) in
  sv1 ← put_attribute i decl sv;
  let A := set_attribute_data rf wf perms (new_attribute h u []) in
  sv2 ← put_attribute (i + 1) A sv1;
  Some (Some (i + 1)%nat, sv2).

(** [service_insert_descriptor] *)
Definition service_insert_descriptor (h : Z) (u : bt_uuid) (perms : Z) (rf wf : option Z)
    (sv : gatt_db_service) : option (option nat * gatt_db_service) :=
  let i := get_attribute_index sv 0 in
  if (i =? 0)%nat then Some (None, sv) else
  A0 ← first_attr sv;
  if negb (h =? 0) && (h <=? handle A0) then Some (None, sv) else
  h ← (if h =? 0 then prev ← get_handle_at_index sv (i - 1); Some (u16 (prev + 1)) else Some h);
  sv1 ← put_attribute i (set_attribute_data rf wf perms (new_attribute h u [])) sv;
  Some (Some i, sv1).

(** [service_insert_included]: [inc] is the service the included attribute is in. *)
Definition service_insert_included (h : Z) (inc : gatt_db_service) (sv : gatt_db_service)
  : option (option nat * gatt_db_service) :=
  I0 ← first_attr inc;
  let included_handle := handle I0 in
  tail ← (if value_len I0 =? 2 then memread (value I0) 0 2 else Some []);
  let val := put_le16 included_handle ++ put_le16 (u16 (included_handle + num_handles inc - 1)) ++ tail in
  let i := get_attribute_index sv 0 in
  if (i =? 0)%nat then Some (None, sv) else
  A0 ← first_attr sv;
  if negb (h =? 0) && (h <=? handle A0) then Some (None, sv) else
  h ← (if h =? 0 then prev ← get_handle_at_index sv (i - 1); Some (u16 (prev + 1)) else Some h);
  sv1 ← put_attribute i (set_attribute_data None None BT_ATT_PERM_READ
                           (new_attribute h included_service_uuid val)) sv;
  Some (Some i, sv1).

Definition in_service (s : positive) (r : option nat) : option aptr := (fun i => (s, i)) <$> r.

(** An operation on the service of an attribute. *)
Definition on_service (s : positive) (f : gatt_db_service -> option (option nat * gatt_db_service))
    (db : gatt_db) : option (option aptr * gatt_db) :=
  sv ← svc_heap db !! s;
  '(r, sv1) ← f sv;
  Some (in_service s r, set_service s sv1 db).

(** ** Lookup *)

Definition find_service_for_handle (h : Z) (sv : gatt_db_service) : option bool :=
  '(start, stop) ← gatt_db_service_get_handles sv; Some ((start <=? h) && (h <=? stop)).

(** [queue_find] over the services. *)
Fixpoint find_service (p : gatt_db_service -> option bool) (ss : list positive) (db : gatt_db)
  : option (option positive) :=
  match ss with
  | [] => Some None
  | s :: ss' =>
      sv ← svc_heap db !! s;
      b ← p sv;
      if b : bool then Some (Some s) else find_service p ss' db
  end.

Definition first_of (r : option positive) : option aptr := (fun s => (s, O)) <$> r.

Definition gatt_db_get_service (h : Z) (db : gatt_db) : option (option aptr) :=
  if h =? 0 then Some None else
  r ← find_service (find_service_for_handle h) (services db) db;
  Some (first_of r).

(** The loop of [gatt_db_get_attribute]. *)
Fixpoint index_of_handle (h : Z) (n : nat) (l : list (option gatt_db_attribute)) : option nat :=
  match n, l with
  | Datatypes.S n', o :: l' =>
      match o with
      | Some A => if handle A =? h then Some O else Datatypes.S <$> index_of_handle h n' l'
      | None => Datatypes.S <$> index_of_handle h n' l'
      end
  | _, _ => None
  end.

Definition gatt_db_get_attribute (h : Z) (db : gatt_db) : option (option aptr) :=
  a ← gatt_db_get_service h db;
  match a with
  | None => Some None
  | Some (s, _) =>
      sv ← svc_heap db !! s;
      Some (in_service s (index_of_handle h (Z.to_nat (num_handles sv)) (attributes sv)))
  end.

(** [find_service_with_uuid]: an unreadable UUID leaves the local unset. *)
Definition find_service_with_uuid (u : bt_uuid) (sv : gatt_db_service) : option bool :=
  v ← service_uuid sv; v ← v; uuid_eq u v.

Definition gatt_db_get_service_with_uuid (u : bt_uuid) (db : gatt_db) : option (option aptr) :=
  r ← find_service (find_service_with_uuid u) (services db) db;
  Some (first_of r).

(** ** The public insertion functions *)

Definition gatt_db_insert_characteristic h u perms props rf wf (db : gatt_db)
  : option (option aptr * gatt_db) :=
  a ← gatt_db_get_service h db;
  match a with
  | None => Some (None, db)
  | Some a => on_service a.1 (service_insert_characteristic h u perms props rf wf) db
  end.
Definition gatt_db_service_insert_characteristic (attrib : option aptr) h u perms props rf wf
    (db : gatt_db) : option (option aptr * gatt_db) :=
  match attrib with
  | None => Some (None, db)
  | Some a => on_service a.1 (service_insert_characteristic h u perms props rf wf) db
  end.
Definition gatt_db_service_add_characteristic (attrib : option aptr) u perms props rf wf (db : gatt_db)
  : option (option aptr * gatt_db) :=
  match attrib with
  | None => Some (None, db)
  | Some a => on_service a.1 (service_insert_characteristic 0 u perms props rf wf) db
  end.

Definition gatt_db_insert_descriptor h u perms rf wf (db : gatt_db)
  : option (option aptr * gatt_db) :=
  a ← gatt_db_get_service h db;
  match a with
  | None => Some (None, db)
  | Some a => on_service a.1 (service_insert_descriptor h u perms rf wf) db
  end.
Definition gatt_db_service_insert_descriptor (attrib : option aptr) h u perms rf wf (db : gatt_db)
  : option (option aptr * gatt_db) :=
  match attrib with
  | None => Some (None, db)
  | Some a => on_service a.1 (service_insert_descriptor h u perms rf wf) db
  end.
Definition gatt_db_service_add_descriptor (attrib : option aptr) u perms rf wf (db : gatt_db)
  : option (option aptr * gatt_db) :=
  match attrib with
  | None => Some (None, db)
  | Some a => on_service a.1 (service_insert_descriptor 0 u perms rf wf) db
  end.

Definition insert_included (s : positive) (h : Z) (include : aptr) (db : gatt_db)
  : option (option aptr * gatt_db) :=
  inc ← svc_heap db !! include.1;
  on_service s (service_insert_included h inc) db.
Definition gatt_db_service_add_included (attrib include : option aptr) (db : gatt_db)
  : option (option aptr * gatt_db) :=
  match attrib, include with
  | Some a, Some i => insert_included a.1 0 i db
  | _, _ => Some (None, db)
  end.
Definition gatt_db_service_insert_included (attrib : option aptr) (h : Z) (include : option aptr)
    (db : gatt_db) : option (option aptr * gatt_db) :=
  match attrib, include with
  | Some a, Some i => if h =? 0 then Some (None, db) else insert_included a.1 h i db
  | _, _ => Some (None, db)
  end.
Definition gatt_db_insert_included (h : Z) (include : aptr) (db : gatt_db)
  : option (option aptr * gatt_db) :=
  a ← gatt_db_get_service h db;
  match a with
  | None => Some (None, db)
  | Some a => insert_included a.1 h include db
  end.

(** ** Flags *)

Definition gatt_db_service_set_active (attrib : option aptr) (b : bool) (db : gatt_db)
  : option (bool * list gatt_event * gatt_db) :=
  match attrib with
  | None => Some (false, [], db)
  | Some a =>
      sv ← svc_heap db !! a.1;
      if Bool.eqb (active sv) b then Some (true, [], db) else
      let sv1 := mkService b (claimed sv) (num_handles sv) (attributes sv) in
      '(evs, db1) ← notify_service_changed a.1 sv1 b (set_service a.1 sv1 db);
      Some (true, evs, db1)
  end.

Definition gatt_db_service_get_active (attrib : option aptr) (db : gatt_db) : option bool :=
  match attrib with
  | None => Some false
  | Some a => sv ← svc_heap db !! a.1; Some (active sv)
  end.

Definition gatt_db_service_set_claimed (attrib : option aptr) (b : bool) (db : gatt_db)
  : option (bool * gatt_db) :=
  match attrib with
  | None => Some (false, db)
  | Some a =>
      sv ← svc_heap db !! a.1;
      Some (true, set_service a.1 (mkService (active sv) b (num_handles sv) (attributes sv)) db)
  end.

Definition gatt_db_service_get_claimed (attrib : option aptr) (db : gatt_db) : option bool :=
  match attrib with
  | None => Some false
  | Some a => sv ← svc_heap db !! a.1; Some (claimed sv)
  end.

(** ** Enumeration *)

(** [foreach_service_in_range]: the declaration, if the UUID asked for is the
    service's or that of the declaration. *)
Definition foreach_service_in_range (u : option bt_uuid) (s : positive) (sv : gatt_db_service)
  : option (list aptr) :=
  match u with
  | None => Some [(s, O)]
  | Some u =>
      A ← first_attr sv;
      v ← service_uuid sv; v ← v;
      same ← uuid_eq v u;
      if same : bool then Some [(s, O)] else
      same ← uuid_eq (uuid A) u;
      Some (if same : bool then [(s, O)] else [])
  end.

(** The loop of [foreach_in_range] over the attributes from index [i] on. *)
Fixpoint attrs_in_range (u : option bt_uuid) (start stop : Z) (s : positive) (i : nat)
    (l : list (option gatt_db_attribute)) : option (list aptr) :=
  match l with
  | [] => Some []
  | None :: l' => attrs_in_range u start stop s (Datatypes.S i) l'
  | Some A :: l' =>
      if handle A <? start then attrs_in_range u start stop s (Datatypes.S i) l'
      else if stop <? handle A then Some []
      else
        hit ← match u with Some u => uuid_eq u (uuid A) | None => Some true end;
        rest ← attrs_in_range u start stop s (Datatypes.S i) l';
        Some (if hit : bool then (s, i) :: rest else rest)
  end.

Definition foreach_in_range (attr : bool) (u : option bt_uuid) (start stop : Z) (db : gatt_db)
    (s : positive) : option (list aptr) :=
  sv ← svc_heap db !! s;
  if negb (active sv) then Some [] else
  '(svc_start, svc_end) ← gatt_db_service_get_handles sv;
  if (stop <? svc_start) || (svc_end <? start) then Some []
  else if negb attr then
    if (svc_start <? start) || (stop <? svc_start) then Some []
    else foreach_service_in_range u s sv
  else attrs_in_range u start stop s 0 (take (Z.to_nat (num_handles sv)) (attributes sv)).

(** [queue_foreach] over the services; the attributes [func] is called with. *)
Fixpoint foreach_services (f : positive -> option (list aptr)) (ss : list positive)
  : option (list aptr) :=
  match ss with
  | [] => Some []
  | s :: ss' => l ← f s; l' ← foreach_services f ss'; Some (l ++ l')
  end.

Definition gatt_db_foreach_service_in_range (u : option bt_uuid) (start stop : Z) (db : gatt_db)
  : option (list aptr) :=
  if stop <? start then Some []
  else foreach_services (foreach_in_range false u start stop db) (services db).
Definition gatt_db_foreach_service (u : option bt_uuid) (db : gatt_db) :=
  gatt_db_foreach_service_in_range u 1 0xffff db.
Definition gatt_db_foreach_in_range (u : option bt_uuid) (start stop : Z) (db : gatt_db)
  : option (list aptr) :=
  if stop <? start then Some []
  else foreach_services (foreach_in_range true u start stop db) (services db).

Definition gatt_db_read_by_group_type (start stop : Z) (type : bt_uuid) (db : gatt_db) :=
  gatt_db_foreach_service_in_range (Some type) start stop db.
Definition gatt_db_read_by_type (start stop : Z) (type : bt_uuid) (db : gatt_db) :=
  gatt_db_foreach_in_range (Some type) start stop db.
Definition gatt_db_find_information (start stop : Z) (db : gatt_db) :=
  gatt_db_foreach_in_range None start stop db.

(** [find_by_type] on what the enumeration visits: the value, if one is asked
    for, has to be the attribute's. *)
Fixpoint find_by_type (val : option (list Z)) (l : list aptr) (db : gatt_db) : option (list aptr) :=
  match l with
  | [] => Some []
  | a :: l' =>
      A ← get_attr a db;
      same ← match val with
             | None => Some true
             | Some v =>
                 if negb (zlen v =? value_len A) then Some false
                 else d ← memread (value A) 0 (value_len A); Some (memcmp d v =? 0)
             end;
      rest ← find_by_type val l' db;
      Some (if same : bool then a :: rest else rest)
  end.

Definition gatt_db_find_by_type (start stop : Z) (type : bt_uuid) (db : gatt_db)
  : option (Z * list aptr) :=
  l ← gatt_db_foreach_in_range (Some type) start stop db;
  r ← find_by_type None l db;
  Some (u32 (zlen r), r).

(** [num_of_res] starts with whatever the stack held. *)
Definition gatt_db_find_by_type_value (stack : Z) (start stop : Z) (type : bt_uuid) (val : list Z)
    (db : gatt_db) : option (Z * list aptr) :=
  l ← gatt_db_foreach_in_range (Some type) start stop db;
  r ← find_by_type (Some val) l db;
  Some (u32 (stack + zlen r), r).

(** [gatt_db_service_foreach] *)
Fixpoint attrs_of_type (u : option bt_uuid) (s : positive) (i : nat)
    (l : list (option gatt_db_attribute)) : option (list aptr) :=
  match l with
  | [] => Some []
  | None :: l' => attrs_of_type u s (Datatypes.S i) l'
  | Some A :: l' =>
      hit ← match u with Some u => uuid_eq u (uuid A) | None => Some true end;
      rest ← attrs_of_type u s (Datatypes.S i) l';
      Some (if hit : bool then (s, i) :: rest else rest)
  end.

Definition gatt_db_service_foreach (attrib : option aptr) (u : option bt_uuid) (db : gatt_db)
  : option (list aptr) :=
  match attrib with
  | None => Some []
  | Some a => sv ← svc_heap db !! a.1;
              attrs_of_type u a.1 0 (take (Z.to_nat (num_handles sv)) (attributes sv))
  end.
Definition gatt_db_service_foreach_char (attrib : option aptr) (db : gatt_db) :=
  gatt_db_service_foreach attrib (Some characteristic_uuid) db.
Definition gatt_db_service_foreach_incl (attrib : option aptr) (db : gatt_db) :=
  gatt_db_service_foreach attrib (Some included_service_uuid) db.

(** The second loop of [gatt_db_service_foreach_desc]: up to the next
    characteristic or included service. *)
Fixpoint descs_from (s : positive) (i : nat) (l : list (option gatt_db_attribute))
  : option (list aptr) :=
  match l with
  | [] => Some []
  | None :: l' => descs_from s (Datatypes.S i) l'
  | Some A :: l' =>
      c ← uuid_eq characteristic_uuid (uuid A);
      stop ← (if c : bool then Some true else uuid_eq included_service_uuid (uuid A));
      if stop : bool then Some []
      else rest ← descs_from s (Datatypes.S i) l'; Some ((s, i) :: rest)
  end.

Definition gatt_db_service_foreach_desc (attrib : option aptr) (db : gatt_db) : option (list aptr) :=
  match attrib with
  | None => Some []
  | Some a =>
      A ← get_attr a db;
      c ← uuid_eq characteristic_uuid (uuid A);
      if negb c then Some [] else
      sv ← svc_heap db !! a.1;
      let l := take (Z.to_nat (num_handles sv)) (attributes sv) in
      descs_from a.1 (a.2 + 2) (drop (a.2 + 2) l)
  end.

(** ** Accessors *)

Definition gatt_db_attribute_get_type (attrib : option aptr) (db : gatt_db) : option (option bt_uuid) :=
  match attrib with None => Some None | Some a => A ← get_attr a db; Some (Some (uuid A)) end.
Definition gatt_db_attribute_get_handle (attrib : option aptr) (db : gatt_db) : option Z :=
  match attrib with None => Some 0 | Some a => A ← get_attr a db; Some (handle A) end.
Definition gatt_db_attribute_get_permissions (attrib : option aptr) (db : gatt_db) : option Z :=
  match attrib with None => Some 0 | Some a => A ← get_attr a db; Some (permissions A) end.

Definition gatt_db_attribute_get_service_uuid (attrib : option aptr) (db : gatt_db)
  : option (option bt_uuid) :=
  match attrib with None => Some None | Some a => sv ← svc_heap db !! a.1; service_uuid sv end.
Definition gatt_db_attribute_get_service_handles (attrib : option aptr) (db : gatt_db)
  : option (option (Z * Z)) :=
  match attrib with
  | None => Some None
  | Some a => sv ← svc_heap db !! a.1; r ← gatt_db_service_get_handles sv; Some (Some r)
  end.

(** [gatt_db_attribute_get_service_data]: handles, primary, UUID; [None] inside
    is [false]. *)
Definition gatt_db_attribute_get_service_data (attrib : option aptr) (db : gatt_db)
  : option (option (Z * Z * bool * bt_uuid)) :=
  match attrib with
  | None => Some None
  | Some a =>
      sv ← svc_heap db !! a.1;
      decl ← first_attr sv;
      '(start, stop) ← gatt_db_service_get_handles sv;
      secondary ← uuid_eq (uuid decl) secondary_service_uuid;
      v ← memread (value decl) 0 (value_len decl);
      Some (u ← le_to_uuid v; Some (start, stop, negb secondary, u))
  end.

(** [gatt_db_attribute_get_char_data] without the extended properties: handle,
    value handle, properties, UUID. *)
Definition gatt_db_attribute_get_char_data (attrib : option aptr) (db : gatt_db)
  : option (option (Z * Z * Z * bt_uuid)) :=
  match attrib with
  | None => Some None
  | Some a =>
      A ← get_attr a db;
      c ← uuid_eq characteristic_uuid (uuid A);
      if negb c then Some None else
      if match value A with [] => true | _ => false end ||
         (negb (value_len A =? 5) && negb (value_len A =? 19)) then Some None else
      props ← memread (value A) 0 1;
      vh ← memread (value A) 1 2;
      v ← memread (value A) 3 (value_len A - 3);
      Some (u ← le_to_uuid v; Some (handle A, get_le vh, be_value props, u))
  end.

(** [gatt_db_attribute_get_incl_data]: handle, first and last handle. *)
Definition gatt_db_attribute_get_incl_data (attrib : option aptr) (db : gatt_db)
  : option (option (Z * Z * Z)) :=
  match attrib with
  | None => Some None
  | Some a =>
      A ← get_attr a db;
      c ← uuid_eq included_service_uuid (uuid A);
      if negb c then Some None else
      if match value A with [] => true | _ => false end ||
         (value_len A <? 4) || (6 <? value_len A) then Some None else
      b ← memread (value A) 0 2;
      e ← memread (value A) 2 2;
      Some (Some (handle A, get_le b, get_le e))
  end.

(** ** The hash *)

(** [gen_hash_m]: what an attribute contributes; [None] inside is nothing. *)
Definition gen_hash_m (A : gatt_db_attribute) : option (option (list Z)) :=
  match uuid A with
  | BT_UUID16 u =>
      let head := put_le16 (handle A) ++ put_le16 u in
      if bool_decide (u ∈ [GATT_PRIM_SVC_UUID; GATT_SND_SVC_UUID; GATT_INCLUDE_UUID; GATT_CHARAC_UUID])
      then v ← memread (value A) 0 (value_len A); Some (Some (head ++ v))
      else if bool_decide (u ∈ [GATT_CHARAC_USER_DESC_UUID; GATT_CLIENT_CHARAC_CFG_UUID;
                GATT_SERVER_CHARAC_CFG_UUID; GATT_CHARAC_FMT_UUID; GATT_CHARAC_AGREG_FMT_UUID])
      then Some (Some head)
      else Some None
  | _ => Some None
  end.

(** The contributions stored one after the other in an array of [size] entries. *)
Fixpoint hash_store (size : nat) (l : list aptr) (db : gatt_db) (iov : list (list Z))
  : option (list (list Z)) :=
  match l with
  | [] => Some iov
  | a :: l' =>
      A ← get_attr a db;
      r ← gen_hash_m A;
      match r with
      | None => hash_store size l' db iov
      | Some d => if (length iov <? size)%nat then hash_store size l' db (iov ++ [d]) else None
      end
  end.

(** [db_hash_update]: the vector given to [bt_crypto_gatt_hash], and the database;
    [None] inside when the hash is not computed. *)
Definition db_hash_update (db : gatt_db) : option (option (list (list Z)) * gatt_db) :=
  let db1 := set_hash_pending false db in
  if next_handle db =? 0 then Some (None, db1) else
  decls ← gatt_db_foreach_service None db1;
  attrs ← mapM (fun a => gatt_db_service_foreach (Some a) None db1) decls;
  iov ← hash_store (Z.to_nat (next_handle db)) (concat attrs) db1 [];
  Some (Some iov, db1).

(** ** Well-formed databases *)

(** The attributes of a service that exist, in order. *)
Definition attrs_of (sv : gatt_db_service) : list gatt_db_attribute := omap id (attributes sv).

Definition svc_start (sv : gatt_db_service) : Z := default 0 (handle <$> first_attr sv).
Definition svc_end (sv : gatt_db_service) : Z := svc_start sv + num_handles sv - 1.
Definition svc_last (sv : gatt_db_service) : Z := default 0 (handle <$> last (attrs_of sv)).

(** The value of a service declaration is a 16- or 128-bit UUID. *)
Definition decl_ok (A : gatt_db_attribute) : Prop :=
  zlen (value A) = value_len A /\ (value_len A = 2 \/ value_len A = 16) /\ bytes_ok (value A).

Record service_wf (sv : gatt_db_service) : Prop := {
  wf_first : exists A rest, attributes sv = Some A :: rest /\ decl_ok A;
  wf_length : zlen (attributes sv) = num_handles sv;
  wf_prefix : exists k, attributes sv = map Some (attrs_of sv) ++ replicate k None;
  wf_sorted : StronglySorted Z.lt (map handle (attrs_of sv));
  wf_inside : Forall (fun A => handle A <= svc_end sv /\ comparable (uuid A)) (attrs_of sv);
  wf_range : 0 <= svc_start sv /\ svc_end sv <= UINT16_MAX
}.

(** [s] ends before [t] starts. *)
Definition before (h : gmap positive gatt_db_service) (s t : positive) : Prop :=
  forall sv tv, h !! s = Some sv -> h !! t = Some tv -> svc_end sv < svc_start tv.

Definition notify_ok (n : notify) : Prop := is_Some (service_added n) /\ is_Some (service_removed n).

Record db_wf (db : gatt_db) : Prop := {
  wf_nodup : NoDup (services db);
  wf_dom : forall s, s ∈ services db <-> is_Some (svc_heap db !! s);
  wf_services : forall s sv, svc_heap db !! s = Some sv -> service_wf sv;
  wf_order : StronglySorted (before (svc_heap db)) (services db);
  wf_next : 0 <= next_handle db <= UINT16_MAX;
  wf_notify : Forall notify_ok (notify_list db)
}.

Lemma wf_start sv : service_wf sv -> exists A, first_attr sv = Some A /\ handle A = svc_start sv /\ decl_ok A.
Proof.
  intros [(A & rest & Hl & Hd) _ _ _ _ _]. exists A. unfold svc_start, first_attr. by rewrite Hl.
Qed.

Lemma wf_attrs sv : service_wf sv -> exists A As, attrs_of sv = A :: As /\ first_attr sv = Some A.
Proof.
  intros [(A & rest & Hl & _) _ _ _ _ _]. unfold attrs_of, first_attr. rewrite Hl. simpl. eauto.
Qed.

Lemma wf_nonempty sv : service_wf sv -> svc_start sv <= svc_end sv.
Proof.
  intros Hwf. destruct (wf_attrs sv Hwf) as (A & As & HA & Hf). destruct Hwf as [_ _ _ _ Hin _].
  rewrite HA in Hin. apply Forall_cons in Hin as [[? _] _]. unfold svc_start at 1. by rewrite Hf.
Qed.

Lemma get_handles_wf sv :
  service_wf sv -> gatt_db_service_get_handles sv = Some (svc_start sv, svc_end sv).
Proof.
  intros Hwf. destruct (wf_start sv Hwf) as (A & Hf & Hh & _). pose proof (wf_nonempty sv Hwf).
  destruct (wf_range sv Hwf). unfold gatt_db_service_get_handles. rewrite Hf. cbn [mbind option_bind].
  rewrite Hh. unfold wrap. rewrite Z.mod_small by (unfold svc_end, UINT16_MAX in *; lia). done.
Qed.

Lemma service_uuid_wf sv :
  service_wf sv -> exists u, service_uuid sv = Some (Some u) /\ comparable u.
Proof.
  intros Hwf. destruct (wf_start sv Hwf) as (A & Hf & _ & Hlen & Hv & Hok). unfold service_uuid.
  rewrite Hf. cbn [mbind option_bind].
  assert (Hget : forall n, value_len A = n -> memread (value A) 0 n = Some (value A)).
  { intros n <-. rewrite <- Hlen, memread_Some by (pose proof (zlen_nonneg (value A)); lia).
    by rewrite slice_all. }
  destruct Hv as [Hv|Hv]; rewrite Hv; cbn [Z.eqb Pos.eqb]; rewrite Hget by done; cbn [mbind option_bind].
  - eexists. split; [done|]. split; [|discriminate]. simpl. unfold wrap. apply Z.mod_pos_bound. lia.
  - eexists. split; [done|]. split; [|discriminate]. simpl. split.
    + by apply List.Forall_rev.
    + rewrite List.length_rev. unfold zlen in *. lia.
Qed.

Lemma uuid_eq_some u v : comparable u -> comparable v -> exists b, uuid_eq u v = Some b.
Proof.
  intros [Hu Su] [Hv Sv]. destruct (uuid_cmp_bytes u v) as (a & b & _ & _ & _ & _ & Hc); try done.
  unfold uuid_eq. rewrite Hc. simpl. eauto.
Qed.

Lemma comparable16 v : 0 <= v < 2 ^ 16 -> comparable (BT_UUID16 v).
Proof. split; [done|discriminate]. Qed.

Lemma uuid_to_le_wf u :
  comparable u -> exists l, uuid_to_le u = Some l /\ bytes_ok l /\ (zlen l = 2 \/ zlen l = 16).
Proof.
  intros [Hu Su]. unfold uuid_to_le, zlen.
  assert (H128 : exists l, match bt_uuid_to_uuid128 u BT_UUID_UNSPEC with
      | BT_UUID128 d => Some (rev d) | _ => None end = Some l /\ bytes_ok l /\ length l = 16%nat).
  { destruct (to_uuid128_ok u BT_UUID_UNSPEC Hu Su) as (l & -> & Hok & Hlen).
    exists (rev l). split; [done|]. split; [by apply List.Forall_rev|]. by rewrite List.length_rev. }
  destruct H128 as (l & Hl & Hok & Hlen).
  destruct u as [|v|v|d]; [|exists (rev (be_bytes 2 v))|exists l..]; [by destruct Su| | |].
  - split; [done|]. split; [apply List.Forall_rev, be_bytes_ok|]. left. by rewrite List.length_rev, length_be_bytes.
  - split; [done|]. split; [done|]. right. lia.
  - split; [done|]. split; [done|]. right. lia.
Qed.

(** ** Inserting a service *)

(** No service lies strictly inside the range. *)
Definition no_swallow (start stop : Z) (db : gatt_db) : Prop :=
  forall s sv, svc_heap db !! s = Some sv -> ~ (start < svc_start sv /\ svc_end sv < stop).

Lemma find_insert_loc_spec db start stop ss after :
  (forall s, s ∈ ss -> exists sv, svc_heap db !! s = Some sv /\ service_wf sv) ->
  StronglySorted (before (svc_heap db)) ss -> start <= stop -> no_swallow start stop db ->
  (exists s sv a, find_insert_loc start stop ss after db = Some (Some s, a) /\ s ∈ ss /\
     svc_heap db !! s = Some sv /\ svc_start sv <= stop /\ start <= svc_end sv) \/
  (exists pre post, ss = pre ++ post /\
     find_insert_loc start stop ss after db =
       Some (None, match last pre with Some x => Some x | None => after end) /\
     (forall s sv, s ∈ pre -> svc_heap db !! s = Some sv -> svc_end sv < start) /\
     (forall s sv, s ∈ post -> svc_heap db !! s = Some sv -> stop < svc_start sv)).
Proof.
  intros Hex Hsort Hle Hns. revert after. induction ss as [|s ss IH]; intros after.
  - right. exists [], []. split; [done|]. split; [done|]. split; intros ? ? ?%not_elem_of_nil; done.
  - destruct (Hex s) as (sv & Hs & Hwf); [by left|]. cbn [find_insert_loc].
    rewrite Hs. cbn [mbind option_bind]. rewrite (get_handles_wf sv Hwf). cbn [mbind option_bind].
    pose proof (wf_nonempty sv Hwf) as Hne. specialize (Hns s sv Hs).
    apply StronglySorted_inv in Hsort as [Hsort Hall].
    destruct ((svc_start sv <=? start) && (start <=? svc_end sv)) eqn:E1.
    { left. exists s, sv, after. split; [done|]. split; [by left|]. split; [done|]. lia. }
    destruct ((svc_start sv <=? stop) && (stop <=? svc_end sv)) eqn:E2.
    { left. exists s, sv, after. split; [done|]. split; [by left|]. split; [done|]. lia. }
    destruct (Z.ltb_spec stop (svc_start sv)) as [Hlt|Hge].
    { right. exists [], (s :: ss). split; [done|]. split; [done|].
      split; [by intros ? ? ?%not_elem_of_nil|].
      intros t tv [->|Ht]%elem_of_cons Htv; [congruence|].
      rewrite Forall_forall in Hall. specialize (Hall t Ht sv tv Hs Htv). lia. }
    destruct (IH ltac:(intros t Ht; apply Hex; by right) Hsort (Some s))
      as [(t & tv & a & -> & Ht & ?)|(pre & post & -> & -> & Hpre & Hpost)].
    + left. exists t, tv, a. split; [done|]. split; [by right|done].
    + right. exists (s :: pre), post. split; [done|]. split.
      { rewrite last_cons. by destruct (last pre). }
      split; [|done]. intros t tv [->|Ht]%elem_of_cons Htv; [|eauto].
      assert (tv = sv) as -> by congruence. lia.
Qed.

Lemma service_push_after_spec e d pre post :
  e ∉ pre -> push_after e d (pre ++ e :: post) = pre ++ e :: d :: post.
Proof.
  induction pre as [|x pre IH]; intros Hin; cbn [app push_after].
  - by rewrite decide_True.
  - apply not_elem_of_cons in Hin as [Hx Hin]. rewrite decide_False by congruence. by rewrite IH.
Qed.

Lemma omap_replicate_None {A} k : omap id (replicate k (@None A)) = [].
Proof. induction k; simpl; auto. Qed.

Lemma create_wf u h primary num sv :
  comparable u -> 0 <= h -> h + num - 1 <= UINT16_MAX ->
  gatt_db_service_create u h primary num = Some (Some sv) ->
  service_wf (mkService (active sv) (claimed sv) num (attributes sv)) /\
  svc_start sv = h /\ active sv = false.
Proof.
  intros Hu Hh Hnum. unfold gatt_db_service_create.
  destruct (Z.ltb_spec num 1) as [|Hn]; [done|].
  destruct (uuid_to_le_wf u Hu) as (l & -> & Hok & Hlen). cbn [mbind option_bind].
  intros [= <-]. split; [|split; [|done]]; [|unfold svc_start; simpl; done].
  assert (Hattrs : attrs_of (mkService false false num
     (Some (set_attribute_data None None BT_ATT_PERM_READ
              (new_attribute h (if primary then primary_service_uuid else secondary_service_uuid) l))
       :: replicate (Z.to_nat (num - 1)) None))
     = [set_attribute_data None None BT_ATT_PERM_READ
              (new_attribute h (if primary then primary_service_uuid else secondary_service_uuid) l)]).
  { unfold attrs_of. simpl. by rewrite omap_replicate_None. }
  split; cbn [active claimed attributes num_handles]; rewrite ?Hattrs.
  - eexists _, _. split; [done|]. done.
  - rewrite zlen_cons, zlen_replicate. lia.
  - by exists (Z.to_nat (num - 1)).
  - repeat constructor.
  - constructor; [|constructor]. unfold svc_end, svc_start. simpl. split; [lia|].
    destruct primary; apply comparable16; unfold GATT_PRIM_SVC_UUID, GATT_SND_SVC_UUID; lia.
  - unfold svc_end, svc_start. simpl. lia.
Qed.

Lemma StronglySorted_app_iff {A} (R : relation A) l1 l2 :
  StronglySorted R (l1 ++ l2) <->
  StronglySorted R l1 /\ StronglySorted R l2 /\ forall x y, x ∈ l1 -> y ∈ l2 -> R x y.
Proof.
  induction l1 as [|x l1 IH]; simpl.
  - split; [intros H|by intros (_ & ? & _)]. split; [constructor|]. split; [done|].
    by intros ? ? ?%not_elem_of_nil.
  - split.
    + intros [(H1 & H2 & H3)%IH Hall]%StronglySorted_inv. apply Forall_app in Hall as [Ha Hb].
      split; [by constructor|]. split; [done|]. intros a b [->|Ha']%elem_of_cons Hin; [|eauto].
      rewrite Forall_forall in Hb. eauto.
    + intros ([H1 Ha]%StronglySorted_inv & H2 & H3). constructor.
      * apply IH. split; [done|]. split; [done|]. intros a b Ha' Hb. apply H3; [by right|done].
      * apply Forall_app. split; [done|]. apply Forall_forall. intros b Hb. apply H3; [by left|done].
Qed.

Lemma StronglySorted_impl_in {A} (R R' : relation A) l :
  (forall x y, x ∈ l -> y ∈ l -> R x y -> R' x y) -> StronglySorted R l -> StronglySorted R' l.
Proof.
  intros HR. induction 1 as [|x l Hs IH Hall]; constructor.
  - apply IH. intros a b Ha Hb. apply HR; by right.
  - apply Forall_forall. intros y Hy. apply HR; [by left|by right|].
    rewrite Forall_forall in Hall. eauto.
Qed.

(** A new service between those that end before it and those that start after. *)
Lemma insert_between db pre post s sv next :
  db_wf db -> services db = pre ++ post -> svc_heap db !! s = None -> service_wf sv ->
  (forall t tv, t ∈ pre -> svc_heap db !! t = Some tv -> svc_end tv < svc_start sv) ->
  (forall t tv, t ∈ post -> svc_heap db !! t = Some tv -> svc_end sv < svc_start tv) ->
  0 <= next <= UINT16_MAX ->
  db_wf (set_next_handle next (set_services (<[s := sv]> (svc_heap db)) (pre ++ s :: post) db)).
Proof.
  intros [Hnd Hdom Hsvs Hord _ Hnot] Hss Hs Hwf Hpre Hpost Hnext.
  assert (Hnew : s ∉ pre ++ post) by (intros Hin; rewrite <- Hss in Hin; apply Hdom in Hin; rewrite Hs in Hin; by destruct Hin).
  rewrite Hss in *.
  assert (Hold : forall t, t ∈ pre ++ post -> t <> s) by (intros t Ht ->; done).
  split; simpl.
  - apply NoDup_app in Hnd as (H1 & H2 & H3). rewrite elem_of_app in Hnew.
    apply NoDup_app. split; [done|]. split.
    + intros x Hx [->|Hx']%elem_of_cons; [tauto|by apply (H2 x)].
    + constructor; [tauto|done].
  - intros t. destruct (decide (t = s)) as [->|Hne].
    + rewrite lookup_insert_eq, elem_of_app, elem_of_cons. split; [by eexists|tauto].
    + rewrite lookup_insert_ne by done. rewrite <- Hdom, !elem_of_app, elem_of_cons. intuition congruence.
  - intros t tv. destruct (decide (t = s)) as [->|Hne].
    + rewrite lookup_insert_eq. by intros [= <-].
    + rewrite lookup_insert_ne by done. eauto.
  - assert (Hb : StronglySorted (before (<[s:=sv]> (svc_heap db))) (pre ++ post)).
    { eapply StronglySorted_impl_in; [|exact Hord]. intros x y Hx Hy HR xv yv Hxv Hyv.
      rewrite lookup_insert_ne in Hxv, Hyv by (intros <-; by eapply Hold). eauto. }
    apply StronglySorted_app_iff in Hb as (H1 & H2 & H3). apply StronglySorted_app_iff.
    split; [done|]. split.
    + constructor; [done|]. apply Forall_forall. intros t Ht xv tv Hxv Htv.
      rewrite lookup_insert_eq in Hxv. simplify_eq.
      rewrite lookup_insert_ne in Htv by (intros <-; apply (Hold s); [set_solver|done]). eauto.
    + intros x y Hx [->|Hy]%elem_of_cons; [|by apply H3]. intros xv yv Hxv Hyv.
      rewrite lookup_insert_eq in Hyv. simplify_eq.
      rewrite lookup_insert_ne in Hxv by (intros <-; apply (Hold s); [set_solver|done]). eauto.
  - done.
  - done.
Qed.

Lemma last_cons_snoc {A} (l : list A) x : last l = Some x -> exists l', l = l' ++ [x].
Proof. by intros ?%last_Some. Qed.

Lemma u16_range x : 0 <= u16 x <= UINT16_MAX.
Proof. unfold wrap, UINT16_MAX. pose proof (Z.mod_pos_bound x (2 ^ 16)). lia. Qed.

Lemma insert_service_wf h u primary num db :
  db_wf db -> comparable u -> 0 <= h <= UINT16_MAX ->
  (let h' := if h =? 0 then next_handle db else h in no_swallow h' (h' + num - 1) db) ->
  exists r db', gatt_db_insert_service h u primary num db = Some (r, db') /\ db_wf db'.
Proof.
  intros Hwf Hu Hh Hns. unfold gatt_db_insert_service.
  set (h' := if h =? 0 then next_handle db else h) in *.
  assert (Hh' : 0 <= h' <= UINT16_MAX) by (unfold h'; destruct (h =? 0); [apply Hwf|lia]).
  clearbody h'. simpl in Hns.
  destruct ((num <? 1) || (UINT16_MAX <? h' + num - 1)) eqn:Hrange; [eauto|].
  assert (Hend : u16 (h' + num - 1) = h' + num - 1)
    by (unfold wrap; apply Z.mod_small; unfold UINT16_MAX in *; lia).
  rewrite Hend.
  assert (Hex : forall s, s ∈ services db -> exists sv, svc_heap db !! s = Some sv /\ service_wf sv).
  { intros s Hs. destruct (proj1 (wf_dom db Hwf s) Hs) as [sv Hsv]. exists sv. split; [done|].
    by eapply wf_services. }
  destruct (find_insert_loc_spec db h' (h' + num - 1) (services db) None Hex (wf_order db Hwf))
    as [(s & sv & a & -> & Hin & Hs & _)|(pre & post & Hss & -> & Hpre & Hpost)]; [lia|done|..];
    cbn [mbind option_bind].
  - rewrite Hs. cbn [mbind option_bind]. pose proof (wf_services db Hwf s sv Hs) as Hsv.
    destruct (wf_start sv Hsv) as (A & Hf & Hha & _). rewrite Hf. cbn [mbind option_bind].
    destruct (service_uuid_wf sv Hsv) as (v & -> & Hv). cbn [mbind option_bind].
    destruct (wf_attrs sv Hsv) as (A' & As & HA & Hf'). assert (A' = A) as -> by congruence.
    pose proof (wf_inside sv Hsv) as Hin'. rewrite HA in Hin'. apply Forall_cons in Hin' as [[_ HcA] _].
    destruct (uuid_eq_some (uuid A) (if primary then primary_service_uuid else secondary_service_uuid))
      as (b & ->); [done|destruct primary; apply comparable16; unfold GATT_PRIM_SVC_UUID, GATT_SND_SVC_UUID; lia|].
    cbn [mbind option_bind]. destruct b; cbn [negb]; [|eauto].
    destruct (uuid_eq_some v u Hv Hu) as (b & ->). cbn [mbind option_bind].
    destruct (b && _ && _); eauto.
  - destruct (gatt_db_service_create u h' primary num) as [[sv|]|] eqn:Hc; cbn [mbind option_bind]; [|eauto|].
    2: { unfold gatt_db_service_create in Hc. destruct (num <? 1); [done|].
         destruct (uuid_to_le_wf u Hu) as (l & Hl & _). by rewrite Hl in Hc. }
    destruct (create_wf u h' primary num sv Hu) as (Hsv & Hst & _); [lia|lia|done|].
    set (sv1 := mkService _ _ _ _) in *.
    assert (Hst1 : svc_start sv1 = h') by (rewrite <- Hst; done).
    assert (Hend1 : svc_end sv1 = h' + num - 1) by (unfold svc_end; rewrite Hst1; done).
    set (s := fresh (dom (svc_heap db))).
    assert (Hs : svc_heap db !! s = None) by (apply not_elem_of_dom, is_fresh).
    eexists _, _. split; [reflexivity|].
    assert (Hl : match match last pre with Some x => Some x | None => None end with
                 | Some a => push_after a s (services db) | None => s :: services db end
                 = pre ++ s :: post).
    { rewrite Hss. destruct (last pre) as [x|] eqn:Hlast.
      - apply last_Some in Hlast as [pre' ->]. rewrite <- !app_assoc. cbn [app]. apply service_push_after_spec.
        pose proof (wf_nodup db Hwf) as Hnd. rewrite Hss, <- app_assoc in Hnd.
        apply NoDup_app in Hnd as (_ & H2 & _). intros Hx. apply (H2 x Hx). by left.
      - apply last_None in Hlast as ->. done. }
    rewrite Hl. apply insert_between; try done.
    + intros t tv Ht Htv. rewrite Hst1. eauto.
    + intros t tv Ht Htv. rewrite Hend1. eauto.
    + apply u16_range.
Qed.

(** ** Inserting attributes *)

Lemma free_index_spec n (As : list gatt_db_attribute) k :
  free_index n (map Some As ++ replicate k None) = (n `min` length As)%nat.
Proof.
  revert n. induction As as [|A As IH]; intros n; simpl.
  - destruct n; [done|]. by destruct k.
  - destruct n; [done|]. simpl. by rewrite IH.
Qed.

Lemma attrs_of_prefix sv As k :
  attributes sv = map Some As ++ replicate k None -> attrs_of sv = As.
Proof.
  intros H. unfold attrs_of. rewrite H, omap_app, omap_replicate_None, app_nil_r.
  clear. induction As as [|A As IH]; [done|]. simpl. f_equal. exact IH.
Qed.

Lemma attrs_count sv : service_wf sv -> (0 < length (attrs_of sv))%nat /\ zlen (attrs_of sv) <= num_handles sv.
Proof.
  intros Hwf. destruct (wf_attrs sv Hwf) as (A & As & HA & _). rewrite HA. simpl. split; [lia|].
  rewrite <- HA. destruct (wf_prefix sv Hwf) as [k Hk]. rewrite <- (wf_length sv Hwf), Hk at 1.
  rewrite zlen_app, zlen_replicate. unfold zlen at 2. rewrite List.length_map. unfold zlen. lia.
Qed.

Lemma attribute_index_wf sv off :
  service_wf sv -> 0 <= off ->
  get_attribute_index sv off =
    if zlen (attrs_of sv) <? num_handles sv - off then length (attrs_of sv) else O.
Proof.
  intros Hwf Hoff. pose proof (attrs_count sv Hwf) as [Hpos Hle].
  destruct (wf_prefix sv Hwf) as [k Hk]. unfold get_attribute_index. rewrite Hk, free_index_spec.
  unfold zlen in *. destruct (Z.ltb_spec (Z.of_nat (length (attrs_of sv))) (num_handles sv - off)).
  - rewrite Nat.min_r by lia. rewrite (proj2 (Nat.eqb_neq _ _)) by lia. done.
  - rewrite Nat.min_l by lia. by rewrite Nat.eqb_refl.
Qed.

Lemma last_handle_wf sv :
  service_wf sv -> get_handle_at_index sv (length (attrs_of sv) - 1) = Some (svc_last sv) /\
  svc_start sv <= svc_last sv <= svc_end sv.
Proof.
  intros Hwf. pose proof (attrs_count sv Hwf) as [Hpos _].
  destruct (wf_prefix sv Hwf) as [k Hk]. unfold get_handle_at_index, svc_last.
  destruct (last (attrs_of sv)) as [A|] eqn:Hlast;
    [|apply last_None in Hlast; rewrite Hlast in Hpos; simpl in Hpos; lia].
  pose proof Hlast as Hlast'. apply last_Some in Hlast as [As HAs].
  rewrite Hk, HAs, length_app. cbn [length]. rewrite Nat.add_sub, map_app, <- app_assoc.
  rewrite lookup_app_r by (rewrite List.length_map; lia). rewrite List.length_map, Nat.sub_diag. simpl.
  split; [done|].
  pose proof (wf_sorted sv Hwf) as Hs. pose proof (wf_inside sv Hwf) as Hin.
  rewrite HAs in Hs, Hin. apply Forall_app in Hin as [_ [[? _] _]%Forall_cons]. split; [|done].
  destruct (wf_attrs sv Hwf) as (A0 & As0 & HA0 & Hf). unfold svc_start. rewrite Hf. simpl.
  destruct As as [|A1 As].
  - simpl in HAs. assert (A0 = A) by congruence. subst. lia.
  - assert (A1 = A0) as -> by (rewrite HA0 in HAs; by simplify_eq/=).
    simpl in Hs. apply StronglySorted_inv in Hs as [_ Hall]. rewrite map_app in Hall.
    apply Forall_app in Hall as [_ [? _]%Forall_cons]. lia.
Qed.

(** A new attribute at the first free index, above the last handle. *)
Lemma append_attribute_wf sv A :
  service_wf sv -> zlen (attrs_of sv) < num_handles sv ->
  svc_last sv < handle A <= svc_end sv -> comparable (uuid A) ->
  exists sv', put_attribute (length (attrs_of sv)) A sv = Some sv' /\ service_wf sv' /\
    attrs_of sv' = attrs_of sv ++ [A] /\ svc_start sv' = svc_start sv /\
    num_handles sv' = num_handles sv /\ active sv' = active sv /\ svc_last sv' = handle A /\
    attributes sv' !! length (attrs_of sv) = Some (Some A) /\
    (forall j, (j < length (attrs_of sv))%nat -> attributes sv' !! j = attributes sv !! j).
Proof.
  intros Hwf Hroom Hh Hu. pose proof (attrs_count sv Hwf) as [Hpos _].
  destruct (wf_prefix sv Hwf) as [k Hk]. pose proof (wf_length sv Hwf) as Hlen.
  destruct k as [|k].
  { rewrite Hk in Hlen. simpl in Hlen. rewrite app_nil_r in Hlen. unfold zlen in *.
    rewrite List.length_map in Hlen. lia. }
  set (As := attrs_of sv) in *. unfold put_attribute.
  assert (Hl : attributes sv !! length As = Some None).
  { rewrite Hk, lookup_app_r by (rewrite List.length_map; lia). by rewrite List.length_map, Nat.sub_diag. }
  rewrite Hl. cbn [mbind option_bind]. eexists. split; [done|].
  assert (Hnew : <[length As := Some A]> (attributes sv) = map Some (As ++ [A]) ++ replicate k None).
  { rewrite Hk, insert_app_r_alt by (rewrite List.length_map; lia).
    rewrite List.length_map, Nat.sub_diag. simpl. by rewrite map_app, <- app_assoc. }
  set (sv' := set_attributes _ sv).
  assert (Hat : attributes sv' = map Some (As ++ [A]) ++ replicate k None) by done.
  pose proof (attrs_of_prefix sv' _ _ Hat) as HAs'.
  destruct (wf_attrs sv Hwf) as (A0 & As0 & HA0 & Hf0). fold As in HA0.
  assert (Hst : svc_start sv' = svc_start sv).
  { unfold svc_start, first_attr. rewrite Hat, HA0. unfold first_attr in Hf0.
    destruct (attributes sv !! 0%nat) as [o|]; simpl in Hf0 |- *; [by subst o|done]. }
  assert (Hend : svc_end sv' = svc_end sv) by (unfold svc_end; by rewrite Hst).
  split; [|split; [done|split; [done|split; [done|split; [done|split]]]]].
  - destruct Hwf as [(A1 & rest & Hr & Hd) _ _ Hs Hin Hrg]. split.
    + assert (A1 = A0) as ->.
      { unfold first_attr in Hf0. rewrite Hr in Hf0. by simplify_eq/=. }
      exists A0. rewrite Hat, HA0. simpl. eauto.
    + change (num_handles sv') with (num_handles sv). rewrite <- Hlen. unfold sv'. simpl. unfold zlen. by rewrite length_insert.
    + exists k. by rewrite HAs'.
    + rewrite HAs', map_app. apply StronglySorted_app_iff. fold As in Hs. split; [done|].
      split; [repeat constructor|]. intros x y Hx ->%list_elem_of_singleton.
      apply list_elem_of_fmap in Hx as (B & -> & HB).
      unfold svc_last in Hh. fold As in Hh.
      destruct (last As) as [L|] eqn:HL; [|apply last_None in HL; rewrite HL in HB; by apply not_elem_of_nil in HB].
      apply last_Some in HL as [As1 HL]. rewrite HL in HB, Hs. simpl in Hh.
      apply elem_of_app in HB as [HB| ->%list_elem_of_singleton]; [|lia].
      rewrite map_app in Hs. apply StronglySorted_app_iff in Hs as (_ & _ & Hs).
      assert (handle B < handle L); [|lia]. apply Hs; [|by left].
      apply list_elem_of_fmap. eauto.
    + rewrite HAs', Hend. apply Forall_app. split; [done|]. constructor; [|done]. split; [lia|done].
    + by rewrite Hst, Hend.
  - unfold svc_last. rewrite HAs', last_snoc. done.
  - split.
    + rewrite Hat, map_app, <- app_assoc, lookup_app_r by (rewrite List.length_map; lia).
      by rewrite List.length_map, Nat.sub_diag.
    + intros j Hj. unfold sv'. simpl. apply list_lookup_insert_ne. lia.
Qed.

(** Replacing a service by one with the same range. *)
Lemma set_service_wf db s sv sv' :
  db_wf db -> svc_heap db !! s = Some sv -> service_wf sv' ->
  svc_start sv' = svc_start sv -> num_handles sv' = num_handles sv -> db_wf (set_service s sv' db).
Proof.
  intros [Hnd Hdom Hsvs Hord Hnext Hnot] Hs Hwf Hst Hnum.
  assert (Hend : svc_end sv' = svc_end sv) by (unfold svc_end; by rewrite Hst, Hnum).
  split; simpl; try done.
  - intros t. rewrite Hdom. destruct (decide (t = s)) as [->|Hne].
    + rewrite lookup_insert_eq, Hs. split; by eexists.
    + by rewrite lookup_insert_ne.
  - intros t tv. destruct (decide (t = s)) as [->|Hne].
    + rewrite lookup_insert_eq. by intros [= <-].
    + rewrite lookup_insert_ne by done. eauto.
  - eapply StronglySorted_impl_in; [|exact Hord]. intros x y _ _ HR xv yv Hx Hy.
    destruct (decide (x = s)) as [->|Hxs], (decide (y = s)) as [->|Hys];
      rewrite ?lookup_insert_eq, ?lookup_insert_ne in Hx by done;
      rewrite ?lookup_insert_eq, ?lookup_insert_ne in Hy by done; simplify_eq.
    + pose proof (HR _ _ Hs Hs) as H. by rewrite Hend, Hst.
    + rewrite Hend. eauto.
    + rewrite Hst. eauto.
    + eauto.
Qed.

(** An explicit handle leaves room for [n] attributes and lies in the service;
    a handle chosen by the database stays in it. *)
Definition fits (sv : gatt_db_service) (n h : Z) : Prop :=
  if h =? 0 then svc_last sv + n <= svc_end sv else svc_last sv + n <= h <= svc_end sv.

Definition fits_handle (sv : gatt_db_service) (n h : Z) : Z := if h =? 0 then svc_last sv + n else h.

Lemma pick_handle sv n h i :
  service_wf sv -> fits sv n h -> i = length (attrs_of sv) -> 0 < n ->
  (if h =? 0 then prev ← get_handle_at_index sv (i - 1); Some (u16 (prev + n)) else Some h) =
    Some (fits_handle sv n h) /\
  svc_last sv + n <= fits_handle sv n h <= svc_end sv /\
  negb (h =? 0) && (h <=? svc_start sv) = false.
Proof.
  intros Hwf Hfit -> Hn. destruct (last_handle_wf sv Hwf) as [Hl Hr]. unfold fits, fits_handle in *.
  destruct (wf_range sv Hwf) as [H0 H1]. unfold UINT16_MAX in *.
  destruct (Z.eqb_spec h 0) as [->|Hne].
  - rewrite Hl. cbn [mbind option_bind]. unfold wrap. rewrite Z.mod_small by lia.
    split; [done|]. split; [lia|done].
  - split; [done|]. split; [lia|]. cbn [negb andb]. apply Z.leb_gt. lia.
Qed.

Lemma insert_descriptor_wf h u perms rf wf sv :
  service_wf sv -> comparable u -> fits sv 1 h ->
  exists r sv', service_insert_descriptor h u perms rf wf sv = Some (r, sv') /\ service_wf sv' /\
    svc_start sv' = svc_start sv /\ num_handles sv' = num_handles sv.
Proof.
  intros Hwf Hu Hfit. unfold service_insert_descriptor. rewrite attribute_index_wf by (done || lia).
  destruct (Z.ltb_spec (zlen (attrs_of sv)) (num_handles sv - 0)) as [Hroom|]; [|simpl; eauto 6].
  rewrite (proj2 (Nat.eqb_neq _ 0)) by (pose proof (attrs_count sv Hwf); lia).
  destruct (wf_start sv Hwf) as (A0 & -> & HA0 & _). cbn [mbind option_bind]. rewrite ?HA0.
  destruct (pick_handle sv 1 h _ Hwf Hfit eq_refl) as (Hpick & Hr & ->); [lia|].
  rewrite Hpick. cbn [mbind option_bind].
  destruct (append_attribute_wf sv (set_attribute_data rf wf perms (new_attribute (fits_handle sv 1 h) u [])))
    as (sv' & -> & Hwf' & _ & Hst & Hn & _); [done|lia|simpl; lia|done|].
  eexists _, sv'. split; [done|]. done.
Qed.

Lemma insert_included_wf h inc sv :
  service_wf sv -> service_wf inc -> fits sv 1 h ->
  exists r sv', service_insert_included h inc sv = Some (r, sv') /\ service_wf sv' /\
    svc_start sv' = svc_start sv /\ num_handles sv' = num_handles sv.
Proof.
  intros Hwf Hinc Hfit. unfold service_insert_included.
  destruct (wf_start inc Hinc) as (I0 & -> & _ & Hlen & Hv & Hok). cbn [mbind option_bind].
  assert (Ht : exists t, (if value_len I0 =? 2 then memread (value I0) 0 2 else Some []) = Some t).
  { destruct (Z.eqb_spec (value_len I0) 2) as [E|]; [|eauto].
    rewrite memread_Some by (rewrite ?Hlen, ?E; lia). eauto. }
  destruct Ht as [t ->]. cbn [mbind option_bind].
  rewrite attribute_index_wf by (done || lia).
  destruct (Z.ltb_spec (zlen (attrs_of sv)) (num_handles sv - 0)) as [Hroom|]; [|simpl; eauto 6].
  rewrite (proj2 (Nat.eqb_neq _ 0)) by (pose proof (attrs_count sv Hwf); lia).
  destruct (wf_start sv Hwf) as (A0 & -> & HA0 & _). cbn [mbind option_bind]. rewrite ?HA0.
  destruct (pick_handle sv 1 h _ Hwf Hfit eq_refl) as (Hpick & Hr & ->); [lia|].
  rewrite Hpick. cbn [mbind option_bind].
  match goal with |- context [put_attribute _ ?A sv] =>
    destruct (append_attribute_wf sv A) as (sv' & -> & Hwf' & _ & Hst & Hn & _);
      [done|lia|simpl; lia|apply comparable16; simpl; unfold GATT_INCLUDE_UUID; lia|] end.
  eexists _, sv'. split; [done|]. done.
Qed.

(** The declaration and the value of a characteristic are the next two
    attributes, and the declaration points to the value. *)
Lemma insert_characteristic_spec h u perms props rf wf sv :
  service_wf sv -> comparable u -> fits sv 2 h -> zlen (attrs_of sv) < num_handles sv - 1 ->
  h <> UINT16_MAX ->
  exists sv' ub, let n := length (attrs_of sv) in let vh := fits_handle sv 2 h in
    service_insert_characteristic h u perms props rf wf sv = Some (Some (n + 1)%nat, sv') /\
    uuid_to_le u = Some ub /\ service_wf sv' /\
    svc_start sv' = svc_start sv /\ num_handles sv' = num_handles sv /\
    attributes sv' !! n = Some (Some (set_attribute_data None None BT_ATT_PERM_READ
      (new_attribute (vh - 1) characteristic_uuid ([props] ++ put_le16 vh ++ ub)))) /\
    attributes sv' !! (n + 1)%nat = Some (Some (set_attribute_data rf wf perms (new_attribute vh u []))).
Proof.
  intros Hwf Hu Hfit Hroom Hmax. destruct (uuid_to_le_wf u Hu) as (ub & Hub & _).
  unfold service_insert_characteristic.
  destruct (wf_start sv Hwf) as (A0 & -> & HA0 & _). cbn [mbind option_bind]. rewrite ?HA0.
  destruct (pick_handle sv 2 h _ Hwf Hfit eq_refl) as (Hpick & Hr & ->); [lia|].
  rewrite (proj2 (Z.eqb_neq h UINT16_MAX)) by done.
  rewrite attribute_index_wf by (done || lia). rewrite (proj2 (Z.ltb_lt _ _)) by lia.
  rewrite (proj2 (Nat.eqb_neq _ 0)) by (pose proof (attrs_count sv Hwf); lia).
  rewrite Hpick, Hub. cbn [mbind option_bind]. set (vh := fits_handle sv 2 h) in *.
  destruct (last_handle_wf sv Hwf) as [_ Hlast]. destruct (wf_range sv Hwf) as [H0 H1].
  unfold UINT16_MAX in *.
  assert (Hvh : u16 (vh - 1) = vh - 1) by (unfold wrap; apply Z.mod_small; lia). rewrite Hvh.
  set (decl := set_attribute_data None None BT_ATT_PERM_READ _).
  destruct (append_attribute_wf sv decl)
    as (sv1 & -> & Hwf1 & HA1 & Hst1 & Hn1 & _ & Hl1 & Hd1 & Hj1);
    [done|lia|simpl; lia|apply comparable16; unfold GATT_CHARAC_UUID; lia|].
  cbn [mbind option_bind].
  assert (Hlen1 : length (attrs_of sv1) = (length (attrs_of sv) + 1)%nat) by (rewrite HA1, length_app; done).
  destruct (append_attribute_wf sv1 (set_attribute_data rf wf perms (new_attribute vh u [])))
    as (sv2 & Hp2 & Hwf2 & _ & Hst2 & Hn2 & _ & _ & Hd2 & Hj2).
  { done. }
  { rewrite Hn1. unfold zlen in *. lia. }
  { rewrite Hl1. simpl. unfold svc_end in *. rewrite Hst1, Hn1. lia. }
  { done. }
  rewrite Hlen1 in Hp2, Hd2, Hj2. rewrite Hp2. cbn [mbind option_bind].
  exists sv2, ub. split; [done|]. split; [done|]. split; [done|].
  split; [congruence|]. split; [congruence|]. split; [|done].
  rewrite Hj2 by lia. exact Hd1.
Qed.

Lemma insert_characteristic_wf h u perms props rf wf sv :
  service_wf sv -> comparable u -> fits sv 2 h ->
  exists r sv', service_insert_characteristic h u perms props rf wf sv = Some (r, sv') /\
    service_wf sv' /\ svc_start sv' = svc_start sv /\ num_handles sv' = num_handles sv.
Proof.
  intros Hwf Hu Hfit.
  destruct (decide (zlen (attrs_of sv) < num_handles sv - 1 /\ h <> UINT16_MAX)) as [[Hr Hm]|Hno].
  - destruct (insert_characteristic_spec h u perms props rf wf sv) as (sv' & ub & -> & _ & ? & ? & ? & _);
      try done. eauto 6.
  - unfold service_insert_characteristic.
    destruct (wf_start sv Hwf) as (A0 & -> & _ & _). cbn [mbind option_bind].
    destruct (negb (h =? 0) && (h <=? handle A0)); [eauto 6|].
    destruct (Z.eqb_spec h UINT16_MAX) as [|Hm]; [eauto 6|].
    rewrite attribute_index_wf by (done || lia). rewrite (proj2 (Z.ltb_ge _ _)) by lia. simpl. eauto 6.
Qed.

Lemma on_service_wf s f db sv :
  db_wf db -> svc_heap db !! s = Some sv ->
  (exists r sv', f sv = Some (r, sv') /\ service_wf sv' /\ svc_start sv' = svc_start sv /\
     num_handles sv' = num_handles sv) ->
  exists r db', on_service s f db = Some (r, db') /\ db_wf db'.
Proof.
  intros Hwf Hs (r & sv' & Hf & Hwf' & Hst & Hn). unfold on_service. rewrite Hs. cbn [mbind option_bind].
  rewrite Hf. cbn [mbind option_bind]. eexists _, _. split; [reflexivity|]. by eapply set_service_wf.
Qed.

(** ** Removing services *)

Lemma mapM_handle_notify s added l :
  Forall notify_ok l -> exists evs, mapM (handle_notify s added) l = Some evs.
Proof.
  intros H. apply mapM_is_Some_2. eapply Forall_impl; [exact H|]. intros n [[a Ha] [b Hb]].
  destruct n as [id x y user]. simpl in Ha, Hb. subst x y. unfold handle_notify.
  destruct added; simpl; eauto.
Qed.

Lemma notify_service_changed_wf s sv added db :
  Forall notify_ok (notify_list db) ->
  exists evs b, notify_service_changed s sv added db = Some (evs, set_hash_pending b db).
Proof.
  intros Hn. unfold notify_service_changed. destruct (notify_list db) as [|n l] eqn:E.
  - exists (if added then [] else notify_attribute_changed s sv), (hash_pending db). by destruct db.
  - destruct (mapM_handle_notify s added (n :: l) Hn) as [evs ->]. simpl. eauto.
Qed.

Lemma set_hash_pending_wf b db : db_wf db -> db_wf (set_hash_pending b db).
Proof. by intros []. Qed.

(** A service leaves the queue and the heap. *)
Lemma remove_service_wf db s l1 l2 :
  db_wf db -> services db = l1 ++ s :: l2 ->
  db_wf (set_services (delete s (svc_heap db)) (l1 ++ l2) db).
Proof.
  intros [Hnd Hdom Hsvs Hord Hnext Hnot] Hss. rewrite Hss in *.
  apply NoDup_app in Hnd as (H1 & H2 & [H3 H4]%NoDup_cons).
  split; simpl; try done.
  - apply NoDup_app. split; [done|]. split; [|done]. intros x Hx Hx'. apply (H2 x Hx). by right.
  - intros t. destruct (decide (t = s)) as [->|Hne].
    + rewrite lookup_delete_eq, elem_of_app. split; [|by intros []].
      intros [Ht|Ht]; [|done]. exfalso. apply (H2 s Ht). by left.
    + rewrite lookup_delete_ne by done. rewrite <- Hdom, !elem_of_app, elem_of_cons. intuition congruence.
  - intros t tv [_ Ht]%lookup_delete_Some. eauto.
  - apply StronglySorted_app_iff in Hord as (S1 & [S2 _]%StronglySorted_inv & S3).
    assert (Hs : StronglySorted (before (svc_heap db)) (l1 ++ l2)).
    { apply StronglySorted_app_iff. split; [done|]. split; [done|]. intros x y Hx Hy. apply S3; [done|by right]. }
    eapply StronglySorted_impl_in; [|exact Hs].
    intros x y _ _ HR xv yv [_ Hx]%lookup_delete_Some [_ Hy]%lookup_delete_Some. eauto.
Qed.

Lemma unlink_filter s l1 l2 :
  NoDup (l1 ++ s :: l2) -> filter (fun x : positive => x <> s) (l1 ++ s :: l2) = l1 ++ l2.
Proof.
  intros (H1 & H2 & [H3 H4]%NoDup_cons)%NoDup_app. rewrite filter_app, filter_cons_False by tauto.
  f_equal; apply filter_Forall; apply Forall_forall; intros x Hx ->; [|done].
  apply (H2 s Hx). by left.
Qed.

(** [gatt_db_service_destroy] after the service was taken off the queue. *)
Lemma destroy_unlinked_wf db s :
  db_wf db -> s ∈ services db ->
  exists evs db', gatt_db_service_destroy s (unlink_service s db) = Some (evs, db') /\ db_wf db' /\
    services db' = filter (fun x => x <> s) (services db) /\ svc_heap db' = delete s (svc_heap db).
Proof.
  intros Hwf Hin. destruct (proj1 (wf_dom db Hwf s) Hin) as [sv Hs].
  pose proof (wf_nodup db Hwf) as Hnd.
  apply list_elem_of_split in Hin as (l1 & l2 & Hss).
  unfold gatt_db_service_destroy. simpl. rewrite Hs. cbn [mbind option_bind].
  assert (Hdb : exists evs b, (if active sv then notify_service_changed s sv false (unlink_service s db)
      else Some ([], unlink_service s db)) = Some (evs, set_hash_pending b (unlink_service s db))).
  { destruct (active sv).
    - apply notify_service_changed_wf. apply Hwf.
    - exists [], (hash_pending db). by destruct db. }
  destruct Hdb as (evs & b & ->). cbn [mbind option_bind]. eexists _, _. split; [done|].
  simpl. split; [|done].
  pose proof (remove_service_wf _ s l1 l2 (set_hash_pending_wf b db Hwf) Hss) as H.
  rewrite Hss, unlink_filter by (by rewrite <- Hss). exact H.
Qed.

(** What [gatt_db_service_destroy] leaves. *)
Lemma destroy_effect db s :
  is_Some (svc_heap db !! s) -> Forall notify_ok (notify_list db) ->
  exists evs b, gatt_db_service_destroy s db =
    Some (evs, set_services (delete s (svc_heap db)) (services db) (set_hash_pending b db)).
Proof.
  intros [sv Hs] Hn. unfold gatt_db_service_destroy. rewrite Hs. cbn [mbind option_bind].
  destruct (active sv).
  - destruct (notify_service_changed_wf s sv false db Hn) as (evs & b & ->). cbn [mbind option_bind].
    eexists _, b. done.
  - cbn [mbind option_bind]. eexists _, (hash_pending db). by destruct db.
Qed.

Lemma destroy_all_effect ss db :
  (forall s, s ∈ ss -> is_Some (svc_heap db !! s)) -> NoDup ss -> Forall notify_ok (notify_list db) ->
  exists evs db', destroy_all ss db = Some (evs, db') /\ services db' = services db /\
    notify_list db' = notify_list db /\ next_handle db' = next_handle db /\
    (forall t, svc_heap db' !! t = if decide (t ∈ ss) then None else svc_heap db !! t).
Proof.
  revert db. induction ss as [|s ss IH]; intros db Hex Hnd Hn; cbn [destroy_all].
  - eexists _, db. split; [done|]. done.
  - apply NoDup_cons in Hnd as [Hs Hnd].
    destruct (destroy_effect db s) as (e1 & b & ->); [apply Hex; by left|done|]. cbn [mbind option_bind].
    set (db1 := set_services _ _ _).
    destruct (IH db1) as (e2 & db' & -> & Hss & Hnl & Hnh & Hh); [|done|done|].
    { intros t Ht. simpl. rewrite lookup_delete_ne; [apply Hex; by right|by intros <-]. }
    cbn [mbind option_bind]. eexists _, db'. split; [done|]. split; [done|]. split; [done|]. split; [done|].
    intros t. rewrite Hh. simpl. destruct (decide (t ∈ ss)) as [Ht|Ht], (decide (t ∈ s :: ss)) as [Ht'|Ht'];
      rewrite ?elem_of_cons in Ht'; try tauto.
    + assert (t = s) as -> by tauto. by rewrite lookup_delete_eq.
    + rewrite lookup_delete_ne; [done|]. intros ->. tauto.
Qed.

Lemma clear_matching_wf start stop : forall ss db,
  db_wf db -> (forall s, s ∈ ss -> s ∈ services db) -> NoDup ss ->
  exists evs db', clear_matching start stop ss db = Some (evs, db') /\ db_wf db' /\
    (forall s, s ∈ services db' <-> s ∈ services db /\
       (s ∈ ss -> forall sv, svc_heap db !! s = Some sv -> ~ (svc_start sv <= stop /\ start <= svc_end sv))) /\
    (forall s, s ∈ services db' -> svc_heap db' !! s = svc_heap db !! s).
Proof.
  induction ss as [|s ss IH]; intros db Hwf Hin Hnd; cbn [clear_matching].
  - eexists _, db. split; [done|]. split; [done|]. split; [|done]. intros s.
    split; [intros Hs; split; [done|by intros ?%not_elem_of_nil]|by intros []].
  - apply NoDup_cons in Hnd as [Hnot Hnd].
    assert (Hs : s ∈ services db) by (apply Hin; by left).
    destruct (proj1 (wf_dom db Hwf s) Hs) as [sv Hsv]. rewrite Hsv. cbn [mbind option_bind].
    unfold match_range. rewrite (get_handles_wf sv) by (by eapply wf_services). cbn [mbind option_bind].
    destruct ((svc_start sv <=? stop) && (start <=? svc_end sv)) eqn:Hm.
    + destruct (destroy_unlinked_wf db s Hwf Hs) as (e1 & db1 & -> & Hwf1 & Hss1 & Hh1).
      cbn [mbind option_bind].
      destruct (IH db1 Hwf1) as (e2 & db' & -> & Hwf' & Hmem & Hsame); [|done|].
      { intros t Ht. rewrite Hss1. apply list_elem_of_filter. split; [by intros ->|]. apply Hin. by right. }
      cbn [mbind option_bind]. eexists _, db'. split; [done|]. split; [done|].
      assert (Hone : forall t, t ∈ services db1 <-> t <> s /\ t ∈ services db)
        by (intros t; by rewrite Hss1, list_elem_of_filter).
      split.
      * intros t. rewrite Hmem, Hone. split.
        -- intros [[Hne Ht] Hno]. split; [done|]. intros [->|Htss]%elem_of_cons tv Htv; [done|].
           apply (Hno Htss). rewrite Hh1, lookup_delete_ne; [done|congruence].
        -- intros [Ht Hno]. split.
           ++ split; [|done]. intros ->. apply (Hno ltac:(by left) sv Hsv). lia.
           ++ intros Htss tv Htv. rewrite Hh1 in Htv. apply lookup_delete_Some in Htv as [_ Htv].
              apply Hno; [by right|done].
      * intros t Ht. rewrite (Hsame t Ht), Hh1. apply Hmem in Ht as [[Hne _]%Hone _].
        by rewrite lookup_delete_ne.
    + destruct (IH db Hwf) as (e2 & db' & -> & Hwf' & Hmem & Hsame); [|done|].
      { intros t Ht. apply Hin. by right. }
      eexists _, db'. split; [done|]. split; [done|]. split; [|done].
      intros t. rewrite Hmem. split; intros [Ht Hno]; (split; [done|]).
      * intros [->|Htss]%elem_of_cons tv Htv; [|by apply Hno].
        assert (tv = sv) as -> by congruence. lia.
      * intros Htss. apply Hno. by right.
Qed.

Lemma empty_wf db :
  svc_heap db = ∅ -> services db = [] -> 0 <= next_handle db <= UINT16_MAX ->
  Forall notify_ok (notify_list db) -> db_wf db.
Proof.
  intros Hh Hs Hn Hnot. split; rewrite ?Hh, ?Hs; [constructor| |by intros s sv; rewrite lookup_empty|constructor|done|done].
  intros s. rewrite lookup_empty. split; [by intros ?%not_elem_of_nil|by intros []].
Qed.

Lemma gatt_db_new_wf : db_wf gatt_db_new.
Proof. apply empty_wf; simpl; [done|done|unfold UINT16_MAX; lia|constructor]. Qed.

Lemma set_next_handle_wf n db : db_wf db -> 0 <= n <= UINT16_MAX -> db_wf (set_next_handle n db).
Proof. by intros [] ?. Qed.

Lemma clear_range_wf a b db :
  db_wf db -> exists r evs db', gatt_db_clear_range a b db = Some (r, evs, db') /\ db_wf db'.
Proof.
  intros Hwf. unfold gatt_db_clear_range. destruct (b <? a); [eauto 6|].
  assert (Hdone : forall evs db1, db_wf db1 -> exists r e db', Some (true, evs : list gatt_event,
      if gatt_db_isempty db1 then set_next_handle 0 db1 else db1) = Some (r, e, db') /\ db_wf db').
  { intros evs db1 Hdb1. eexists _, _, _. split; [done|].
    destruct (gatt_db_isempty db1); [|done]. apply set_next_handle_wf; [done|unfold UINT16_MAX; lia]. }
  destruct ((a =? 1) && (b =? UINT16_MAX)).
  - destruct (destroy_all_effect (services db) (set_services (svc_heap db) [] db))
      as (evs & db1 & -> & Hss & Hnl & Hnh & Hh).
    { intros s Hs. simpl. by apply (wf_dom db Hwf). }
    { apply Hwf. }
    { apply Hwf. }
    cbn [mbind option_bind]. apply Hdone. apply empty_wf.
    + apply map_empty. intros t. rewrite Hh. simpl. case_decide as Ht; [done|].
      destruct (svc_heap db !! t) eqn:E; [|done]. destruct Ht. apply (wf_dom db Hwf). by rewrite E.
    + done.
    + rewrite Hnh. apply Hwf.
    + rewrite Hnl. apply Hwf.
  - destruct (clear_matching_wf a b (services db) db Hwf) as (evs & db1 & -> & Hwf1 & _); [done|apply Hwf|].
    cbn [mbind option_bind]. by apply Hdone.
Qed.

(** ** Operations *)

(** What the owner of a database does to it. *)
Inductive db_op :=
  | Db_insert_service (h : Z) (u : bt_uuid) (primary : bool) (num : Z)
  | Db_remove_service (s : positive)
  | Db_clear_range (a b : Z)
  | Db_characteristic (s : positive) (h : Z) (u : bt_uuid) (perms props : Z) (rf wf : option Z)
  | Db_descriptor (s : positive) (h : Z) (u : bt_uuid) (perms : Z) (rf wf : option Z)
  | Db_included (s : positive) (h : Z) (inc : positive)
  | Db_set_active (s : positive) (b : bool)
  | Db_set_claimed (s : positive) (b : bool)
  | Db_register (added removed : option Z) (user : Z)
  | Db_unregister (id : Z).

Definition run_db_op (o : db_op) (db : gatt_db) : option gatt_db :=
  match o with
  | Db_insert_service h u primary num => snd <$> gatt_db_insert_service h u primary num db
  | Db_remove_service s => snd <$> gatt_db_remove_service (Some (s, O)) db
  | Db_clear_range a b => snd <$> gatt_db_clear_range a b db
  | Db_characteristic s h u perms props rf wf =>
      snd <$> gatt_db_service_insert_characteristic (Some (s, O)) h u perms props rf wf db
  | Db_descriptor s h u perms rf wf =>
      snd <$> gatt_db_service_insert_descriptor (Some (s, O)) h u perms rf wf db
  | Db_included s h inc => snd <$> insert_included s h (inc, O) db
  | Db_set_active s b => snd <$> gatt_db_service_set_active (Some (s, O)) b db
  | Db_set_claimed s b => snd <$> gatt_db_service_set_claimed (Some (s, O)) b db
  | Db_register added removed user => Some (gatt_db_register added removed user db).2
  | Db_unregister id => Some (gatt_db_unregister id db).2
  end.

(** What the owner has to respect: services and UUIDs exist, a new service does
    not enclose an old one, explicit handles are above the last and inside the
    service (and so are the ones the database chooses), and a registration
    gives both functions. *)
Definition db_op_ok (o : db_op) (db : gatt_db) : Prop :=
  match o with
  | Db_insert_service h u _ num =>
      comparable u /\ 0 <= h <= UINT16_MAX /\
      let h' := if h =? 0 then next_handle db else h in no_swallow h' (h' + num - 1) db
  | Db_remove_service s => s ∈ services db
  | Db_clear_range _ _ => True
  | Db_characteristic s h u _ _ _ _ =>
      comparable u /\ exists sv, svc_heap db !! s = Some sv /\ fits sv 2 h
  | Db_descriptor s h u _ _ _ =>
      comparable u /\ exists sv, svc_heap db !! s = Some sv /\ fits sv 1 h
  | Db_included s h inc =>
      is_Some (svc_heap db !! inc) /\ exists sv, svc_heap db !! s = Some sv /\ fits sv 1 h
  | Db_set_active s _ | Db_set_claimed s _ => s ∈ services db
  | Db_register added removed _ => is_Some added /\ is_Some removed
  | Db_unregister _ => True
  end.

Lemma remove_notify_Forall P id l l' : Forall P l -> remove_notify id l = Some l' -> Forall P l'.
Proof.
  revert l'. induction l as [|n l IH]; intros l'; cbn [remove_notify]; [done|].
  intros [Hn Hl]%Forall_cons. destruct (n_id n =? id); [by intros [= <-]|].
  destruct (remove_notify id l) as [r|]; cbn [mbind option_bind]; [|done].
  intros [= <-]. constructor; [done|]. by apply IH.
Qed.

Lemma set_notify_wf l next db : db_wf db -> Forall notify_ok l -> db_wf (set_notify l next db).
Proof. by intros [] ?. Qed.

Lemma run_db_op_wf o db : db_wf db -> db_op_ok o db -> exists db', run_db_op o db = Some db' /\ db_wf db'.
Proof.
  intros Hwf. destruct o as [h u primary num|s|a b|s h u perms props rf wf|s h u perms rf wf|s h inc|s b|s b|
    added removed user|id]; cbn [run_db_op db_op_ok].
  - intros (Hu & Hh & Hns). destruct (insert_service_wf h u primary num db) as (r & db' & -> & ?); try done.
    simpl. eauto.
  - intros Hs. unfold gatt_db_remove_service. cbn [fst].
    destruct (destroy_unlinked_wf db s Hwf Hs) as (evs & db' & -> & ? & _). simpl. eauto.
  - intros _. destruct (clear_range_wf a b db Hwf) as (r & evs & db' & -> & ?). simpl. eauto.
  - intros (Hu & sv & Hs & Hfit). unfold gatt_db_service_insert_characteristic. cbn [fst].
    destruct (on_service_wf s (service_insert_characteristic h u perms props rf wf) db sv Hwf Hs)
      as (r & db' & -> & ?); [|simpl; eauto].
    apply insert_characteristic_wf; [by eapply wf_services|done|done].
  - intros (Hu & sv & Hs & Hfit). unfold gatt_db_service_insert_descriptor. cbn [fst].
    destruct (on_service_wf s (service_insert_descriptor h u perms rf wf) db sv Hwf Hs)
      as (r & db' & -> & ?); [|simpl; eauto].
    apply insert_descriptor_wf; [by eapply wf_services|done|done].
  - intros ([iv Hi] & sv & Hs & Hfit). unfold insert_included. cbn [fst]. rewrite Hi. cbn [mbind option_bind].
    destruct (on_service_wf s (service_insert_included h iv) db sv Hwf Hs)
      as (r & db' & -> & ?); [|simpl; eauto].
    apply insert_included_wf; [by eapply wf_services|by eapply wf_services|done].
  - intros Hs. destruct (proj1 (wf_dom db Hwf s) Hs) as [sv Hsv].
    unfold gatt_db_service_set_active. cbn [fst]. rewrite Hsv. cbn [mbind option_bind].
    destruct (Bool.eqb (active sv) b); [simpl; eauto|].
    set (sv1 := mkService _ _ _ _). pose proof (wf_services db Hwf s sv Hsv) as Hw.
    assert (Hw1 : db_wf (set_service s sv1 db)).
    { eapply set_service_wf; [done|done| |done|done]. by destruct Hw. }
    destruct (notify_service_changed_wf s sv1 b (set_service s sv1 db)) as (evs & p & ->); [apply Hwf|].
    simpl. eexists. split; [done|]. by apply set_hash_pending_wf.
  - intros Hs. destruct (proj1 (wf_dom db Hwf s) Hs) as [sv Hsv].
    unfold gatt_db_service_set_claimed. cbn [fst]. rewrite Hsv. simpl. eexists. split; [done|].
    pose proof (wf_services db Hwf s sv Hsv) as Hw.
    eapply set_service_wf; [done|done| |done|done]. by destruct Hw.
  - intros [[x ->] [y ->]]. simpl. eexists. split; [done|]. apply set_notify_wf; [done|].
    apply Forall_app. split; [apply Hwf|]. constructor; [|constructor]. split; simpl; eauto.
  - intros _. unfold gatt_db_unregister. destruct (id =? 0); [eauto|].
    destruct (remove_notify id (notify_list db)) as [l|] eqn:E; [|eauto].
    eexists. split; [done|]. apply set_notify_wf; [done|]. eapply remove_notify_Forall; [|done]. apply Hwf.
Qed.

Definition db_step (db db' : gatt_db) : Prop :=
  exists o, db_op_ok o db /\ run_db_op o db = Some db'.

Lemma reachable_wf db : rtc db_step gatt_db_new db -> db_wf db.
Proof.
  apply (rtc_invariant db_step db_wf); [|apply gatt_db_new_wf].
  intros x y Hwf (o & Hok & Hrun). destruct (run_db_op_wf o x Hwf Hok) as (y' & Hr & ?). congruence.
Qed.

(** ** Lookups *)

Lemma StronglySorted_lookup {A} (R : relation A) l i j x y :
  StronglySorted R l -> (i < j)%nat -> l !! i = Some x -> l !! j = Some y -> R x y.
Proof.
  intros Hs. revert i j. induction Hs as [|z l Hs IH Hall]; intros i j Hij Hi Hj; [done|].
  destruct j as [|j]; [lia|]. destruct i as [|i]; simpl in Hi, Hj.
  - simplify_eq. rewrite Forall_forall in Hall. apply Hall. by eapply list_elem_of_lookup_2.
  - apply (IH i j); [lia|done|done].
Qed.

Lemma attr_lookup sv i A :
  service_wf sv -> attributes sv !! i = Some (Some A) <-> attrs_of sv !! i = Some A.
Proof.
  intros Hwf. destruct (wf_prefix sv Hwf) as [k Hk]. rewrite Hk at 1.
  destruct (decide (i < length (attrs_of sv))%nat) as [Hi|Hi].
  - rewrite lookup_app_l by (by rewrite List.length_map). rewrite list_lookup_fmap.
    destruct (attrs_of sv !! i); simpl; split; congruence.
  - rewrite lookup_app_r by (rewrite List.length_map; lia).
    rewrite (proj2 (lookup_ge_None (attrs_of sv) i)) by lia. split; [|done].
    intros [H _]%lookup_replicate. done.
Qed.

Lemma attrs_before_end sv i o :
  service_wf sv -> attributes sv !! i = Some o -> (i < Z.to_nat (num_handles sv))%nat.
Proof.
  intros Hwf Hi%lookup_lt_Some. rewrite <- (wf_length sv Hwf). unfold zlen. lia.
Qed.

Lemma attr_range sv i A :
  service_wf sv -> attrs_of sv !! i = Some A ->
  svc_start sv <= handle A <= svc_end sv /\ comparable (uuid A).
Proof.
  intros Hwf Hi. pose proof (wf_inside sv Hwf) as Hin. rewrite Forall_forall in Hin.
  destruct (Hin A) as [? Hu]; [by eapply list_elem_of_lookup_2|]. split; [|done]. split; [|done].
  destruct (wf_attrs sv Hwf) as (A0 & As & HA & Hf). unfold svc_start. rewrite Hf. simpl.
  destruct i as [|i]; [rewrite HA in Hi; simpl in Hi; simplify_eq; lia|].
  assert (handle A0 < handle A); [|lia].
  apply (StronglySorted_lookup Z.lt (map handle (attrs_of sv)) 0 (Datatypes.S i));
    [apply Hwf|lia|by rewrite HA|by rewrite list_lookup_fmap, Hi].
Qed.

Lemma handle_inj sv i j A B :
  service_wf sv -> attrs_of sv !! i = Some A -> attrs_of sv !! j = Some B ->
  handle A = handle B -> i = j.
Proof.
  intros Hwf Hi Hj He.
  assert (Hno : forall i j A B, (i < j)%nat -> attrs_of sv !! i = Some A -> attrs_of sv !! j = Some B ->
    handle A < handle B).
  { intros i' j' A' B' Hlt HA HB.
    apply (StronglySorted_lookup Z.lt (map handle (attrs_of sv)) i' j');
      [apply Hwf|done|by rewrite list_lookup_fmap, HA|by rewrite list_lookup_fmap, HB]. }
  destruct (Nat.lt_trichotomy i j) as [Hlt|[|Hlt]]; [|done|].
  - specialize (Hno i j A B Hlt Hi Hj). lia.
  - specialize (Hno j i B A Hlt Hj Hi). lia.
Qed.

(** Two services have disjoint ranges. *)
Lemma ranges_disjoint db s t sv tv h :
  db_wf db -> svc_heap db !! s = Some sv -> svc_heap db !! t = Some tv ->
  svc_start sv <= h <= svc_end sv -> svc_start tv <= h <= svc_end tv -> s = t.
Proof.
  intros Hwf Hs Ht Hhs Hht. assert (Hin : s ∈ services db) by (apply (wf_dom db Hwf); eauto).
  assert (Hin' : t ∈ services db) by (apply (wf_dom db Hwf); eauto).
  apply list_elem_of_lookup_1 in Hin as [i Hi]. apply list_elem_of_lookup_1 in Hin' as [j Hj].
  destruct (Nat.lt_trichotomy i j) as [Hlt|[->|Hlt]]; [|congruence|].
  - pose proof (StronglySorted_lookup _ _ _ _ _ _ (wf_order db Hwf) Hlt Hi Hj sv tv Hs Ht). lia.
  - pose proof (StronglySorted_lookup _ _ _ _ _ _ (wf_order db Hwf) Hlt Hj Hi tv sv Ht Hs). lia.
Qed.

Lemma get_attr_spec db s i A :
  db_wf db -> get_attr (s, i) db = Some A <->
  exists sv, svc_heap db !! s = Some sv /\ attrs_of sv !! i = Some A.
Proof.
  intros Hwf. unfold get_attr. simpl. destruct (svc_heap db !! s) as [sv|] eqn:Hs; simpl.
  - pose proof (wf_services db Hwf s sv Hs) as Hsv. split.
    + destruct (attributes sv !! i) as [o|] eqn:Hi; simpl; [|done]. intros ->.
      exists sv. split; [done|]. by apply (attr_lookup sv i A Hsv).
    + intros (sv' & [= <-] & Hi). apply (attr_lookup sv i A Hsv) in Hi. by rewrite Hi.
  - split; [done|]. by intros (? & ? & _).
Qed.

Lemma find_service_spec p ss db :
  (forall s, s ∈ ss -> exists sv b, svc_heap db !! s = Some sv /\ p sv = Some b) ->
  exists r, find_service p ss db = Some r /\
    match r with
    | Some s => s ∈ ss /\ exists sv, svc_heap db !! s = Some sv /\ p sv = Some true
    | None => forall s sv, s ∈ ss -> svc_heap db !! s = Some sv -> p sv = Some false
    end.
Proof.
  induction ss as [|s ss IH]; intros Hex; cbn [find_service].
  - exists None. split; [done|]. by intros s sv ?%not_elem_of_nil.
  - destruct (Hex s) as (sv & b & Hs & Hp); [by left|]. rewrite Hs. cbn [mbind option_bind].
    rewrite Hp. cbn [mbind option_bind]. destruct b.
    + exists (Some s). split; [done|]. split; [by left|eauto].
    + destruct IH as (r & -> & Hr); [intros t Ht; apply Hex; by right|]. exists r. split; [done|].
      destruct r as [t|].
      * destruct Hr as (Ht & Hr). split; [by right|done].
      * intros t tv [->|Ht]%elem_of_cons Htv; [congruence|eauto].
Qed.

Lemma get_service_spec db h :
  db_wf db -> h <> 0 ->
  exists r, gatt_db_get_service h db = Some r /\
    match r with
    | Some (s, i) => i = O /\ exists sv, svc_heap db !! s = Some sv /\ svc_start sv <= h <= svc_end sv
    | None => forall s sv, svc_heap db !! s = Some sv -> ~ (svc_start sv <= h <= svc_end sv)
    end.
Proof.
  intros Hwf Hh. unfold gatt_db_get_service. rewrite (proj2 (Z.eqb_neq h 0)) by done.
  assert (Hp : forall s sv, svc_heap db !! s = Some sv ->
    find_service_for_handle h sv = Some ((svc_start sv <=? h) && (h <=? svc_end sv))).
  { intros s sv Hs. unfold find_service_for_handle. rewrite (get_handles_wf sv); [done|].
    by eapply wf_services. }
  destruct (find_service_spec (find_service_for_handle h) (services db) db) as (r & -> & Hr).
  { intros s [sv Hs]%(wf_dom db Hwf). exists sv. rewrite (Hp s sv Hs). eauto. }
  cbn [mbind option_bind]. exists (first_of r). split; [done|]. destruct r as [s|]; simpl.
  - split; [done|]. destruct Hr as (_ & sv & Hs & Hpr). exists sv. split; [done|].
    rewrite (Hp s sv Hs) in Hpr. injection Hpr. lia.
  - intros s sv Hs. specialize (Hr s sv). rewrite (Hp s sv Hs) in Hr.
    specialize (Hr (proj2 (wf_dom db Hwf s) (ex_intro _ _ Hs)) Hs). injection Hr. lia.
Qed.

Lemma index_of_handle_spec h As k n :
  (length As <= n)%nat ->
  match index_of_handle h n (map Some As ++ replicate k None) with
  | Some i => exists A, As !! i = Some A /\ handle A = h
  | None => forall A, A ∈ As -> handle A <> h
  end.
Proof.
  revert n. induction As as [|A As IH]; intros n Hn; simpl.
  - assert (Hnone : index_of_handle h n (replicate k None) = None).
    { clear Hn. revert n. induction k as [|k IHk]; intros [|n]; simpl; try done. by rewrite IHk. }
    rewrite Hnone. by intros A ?%not_elem_of_nil.
  - simpl in Hn. destruct n as [|n]; [lia|]. simpl. destruct (Z.eqb_spec (handle A) h) as [He|Hne].
    + exists A. done.
    + specialize (IH n ltac:(lia)). destruct (index_of_handle h n _) as [i|]; simpl.
      * exact IH.
      * intros B [->|HB]%elem_of_cons; eauto.
Qed.

Lemma get_attribute_spec db h :
  db_wf db -> h <> 0 ->
  exists r, gatt_db_get_attribute h db = Some r /\
    match r with
    | Some a => exists A, get_attr a db = Some A /\ handle A = h
    | None => forall a A, get_attr a db = Some A -> handle A <> h
    end.
Proof.
  intros Hwf Hh. unfold gatt_db_get_attribute.
  destruct (get_service_spec db h Hwf Hh) as (r & -> & Hr). cbn [mbind option_bind].
  destruct r as [[s i]|].
  - destruct Hr as (-> & sv & Hs & Hin). rewrite Hs. cbn [mbind option_bind].
    pose proof (wf_services db Hwf s sv Hs) as Hsv. destruct (wf_prefix sv Hsv) as [k Hk].
    pose proof (index_of_handle_spec h (attrs_of sv) k (Z.to_nat (num_handles sv))) as Hi.
    rewrite <- Hk in Hi. eexists. split; [done|].
    destruct (index_of_handle h _ _) as [i|]; simpl.
    + destruct Hi as (A & HA & He); [pose proof (attrs_count sv Hsv); unfold zlen in *; lia|].
      exists A. split; [|done]. apply (get_attr_spec db s i A Hwf). eauto.
    + intros [t j] A (tv & Ht & HA)%(get_attr_spec db _ _ _ Hwf) He.
      destruct (attr_range tv j A (wf_services db Hwf t tv Ht) HA) as [Hrg _]. rewrite He in Hrg.
      assert (t = s) as -> by (by eapply (ranges_disjoint db t s tv sv h)).
      assert (tv = sv) as -> by congruence.
      eapply Hi; [pose proof (attrs_count sv Hsv); unfold zlen in *; lia| |exact He].
      by eapply list_elem_of_lookup_2.
  - exists None. split; [done|].
    intros [t j] A (tv & Ht & HA)%(get_attr_spec db _ _ _ Hwf) He.
    destruct (attr_range tv j A (wf_services db Hwf t tv Ht) HA) as [Hrg _]. rewrite He in Hrg.
    by destruct (Hr t tv Ht).
Qed.

Lemma attr_handle_inj db a b A B :
  db_wf db -> get_attr a db = Some A -> get_attr b db = Some B -> handle A = handle B -> a = b.
Proof.
  intros Hwf. destruct a as [s i], b as [t j].
  intros (sv & Hs & HA)%(get_attr_spec db _ _ _ Hwf) (tv & Ht & HB)%(get_attr_spec db _ _ _ Hwf) He.
  destruct (attr_range sv i A (wf_services db Hwf s sv Hs) HA) as [Hra _].
  destruct (attr_range tv j B (wf_services db Hwf t tv Ht) HB) as [Hrb _].
  assert (s = t) as -> by (eapply (ranges_disjoint db s t sv tv (handle A)); [done..|lia]).
  assert (sv = tv) as -> by congruence. f_equal.
  by eapply (handle_inj tv); [by eapply wf_services|..].
Qed.

(** C12. Handles name attributes.  In every database reached by inserting and
    removing services, attributes and registrations as [db_op_ok] asks for: no
    operation fails; no two attributes have the same handle; for every handle
    but 0 [gatt_db_get_attribute] finds the attribute that has it, or nothing
    when none has; and every attribute lies in the range of its service, whose
    range no other service meets. *)
Theorem handles_name_attributes db :
  rtc db_step gatt_db_new db ->
  (forall o, db_op_ok o db -> is_Some (run_db_op o db)) /\
  (forall a b A B, get_attr a db = Some A -> get_attr b db = Some B -> handle A = handle B -> a = b) /\
  (forall a A, get_attr a db = Some A -> handle A <> 0 -> gatt_db_get_attribute (handle A) db = Some (Some a)) /\
  (forall h, h <> 0 -> (forall a A, get_attr a db = Some A -> handle A <> h) ->
     gatt_db_get_attribute h db = Some None) /\
  (forall s i sv A, svc_heap db !! s = Some sv -> get_attr (s, i) db = Some A ->
     gatt_db_service_get_handles sv = Some (svc_start sv, svc_end sv) /\
     svc_start sv <= handle A <= svc_end sv /\ svc_end sv <= UINT16_MAX /\
     forall t tv, svc_heap db !! t = Some tv -> t <> s -> ~ (svc_start tv <= handle A <= svc_end tv)).
Proof.
  intros Hwf%reachable_wf. split; [|split; [|split; [|split]]].
  - intros o Hok. destruct (run_db_op_wf o db Hwf Hok) as (db' & -> & _). eauto.
  - intros a b A B. by apply attr_handle_inj.
  - intros a A HA Hh. destruct (get_attribute_spec db (handle A) Hwf Hh) as ([b|] & -> & Hr).
    + destruct Hr as (B & HB & He). do 2 f_equal. by eapply attr_handle_inj.
    + by destruct (Hr a A HA).
  - intros h Hh Hno. destruct (get_attribute_spec db h Hwf Hh) as ([b|] & -> & Hr); [|done].
    destruct Hr as (B & HB & He). by destruct (Hno b B HB).
  - intros s i sv A Hs (sv' & Hs' & HA)%(get_attr_spec db _ _ _ Hwf). assert (sv' = sv) as -> by congruence.
    pose proof (wf_services db Hwf s sv Hs) as Hsv. split; [by apply get_handles_wf|].
    destruct (attr_range sv i A Hsv HA) as [Hr _]. destruct (wf_range sv Hsv). split; [lia|]. split; [lia|].
    intros t tv Ht Hne Hrt. destruct Hne. by eapply (ranges_disjoint db t s tv sv (handle A)).
Qed.

(** ** Enumerations *)

(** The filter of an enumeration: no UUID asked for, or an equal one. *)
Definition wanted (u : option bt_uuid) (v : bt_uuid) : Prop :=
  match u with Some u => bt_uuid_cmp u v = Some 0 | None => True end.

Definition filter_ok (u : option bt_uuid) : Prop :=
  match u with Some u => comparable u | None => True end.

Definition handle_before (db : gatt_db) (a b : aptr) : Prop :=
  forall A B, get_attr a db = Some A -> get_attr b db = Some B -> handle A < handle B.

Lemma uuid_eq_spec u v :
  comparable u -> comparable v -> exists b, uuid_eq u v = Some b /\ (b = true <-> bt_uuid_cmp u v = Some 0).
Proof.
  intros [Hu Su] [Hv Sv]. destruct (uuid_cmp_bytes u v) as (a & b & _ & _ & _ & _ & Hc); try done.
  unfold uuid_eq. rewrite Hc. cbn [mbind option_bind]. eexists. split; [done|]. rewrite Z.eqb_eq.
  split; congruence.
Qed.

Lemma hit_spec u v :
  filter_ok u -> comparable v ->
  exists b, match u with Some u => uuid_eq u v | None => Some true end = Some b /\ (b = true <-> wanted u v).
Proof. destruct u as [u|]; simpl; intros Hu Hv; [by apply uuid_eq_spec|by exists true]. Qed.

Lemma attrs_in_range_none u start stop s i k :
  attrs_in_range u start stop s i (replicate k None) = Some [].
Proof. revert i. induction k as [|k IH]; intros i; simpl; [done|apply IH]. Qed.

Lemma attrs_in_range_spec u start stop s As k : forall i,
  filter_ok u -> Forall (fun A => comparable (uuid A)) As -> StronglySorted Z.lt (map handle As) ->
  exists l, attrs_in_range u start stop s i (map Some As ++ replicate k None) = Some l /\
    StronglySorted lt (map snd l) /\
    (forall a, a ∈ l <-> exists j A, a = (s, (i + j)%nat) /\ As !! j = Some A /\
       start <= handle A <= stop /\ wanted u (uuid A)).
Proof.
  induction As as [|A As IH]; intros i Hu Hc Hs; cbn [map app attrs_in_range].
  - rewrite attrs_in_range_none. exists []. split; [done|]. split; [constructor|].
    intros a. split; [by intros ?%not_elem_of_nil|]. by intros (j & B & _ & Hj & _).
  - apply Forall_cons in Hc as [HcA Hc]. apply StronglySorted_inv in Hs as [Hs Hall].
    destruct (IH (Datatypes.S i) Hu Hc Hs) as (rest & Hrest & Hsorted & Hmem).
    assert (Hshift : forall a, a ∈ rest <-> exists j B, a = (s, (i + Datatypes.S j)%nat) /\ As !! j = Some B /\
       start <= handle B <= stop /\ wanted u (uuid B)).
    { intros a. rewrite Hmem. split; intros (j & B & -> & ?); exists j, B; (split; [f_equal; lia|done]). }
    destruct (Z.ltb_spec (handle A) start) as [Hlt|Hge].
    { exists rest. split; [done|]. split; [done|]. intros a. rewrite Hshift. split.
      - intros (j & B & -> & ?). by exists (Datatypes.S j), B.
      - intros ([|j] & B & -> & Hj & HB & ?); simpl in Hj; [simplify_eq; lia|]. by exists j, B. }
    destruct (Z.ltb_spec stop (handle A)) as [Hgt|Hle].
    { exists []. split; [done|]. split; [constructor|]. intros a. split; [by intros ?%not_elem_of_nil|].
      intros (j & B & _ & Hj & HB & _). exfalso.
      assert (handle A <= handle B); [|lia].
      destruct j as [|j]; simpl in Hj; [simplify_eq; lia|]. rewrite Forall_forall in Hall.
      assert (handle A < handle B); [|lia]. apply Hall. apply list_elem_of_fmap. exists B.
      split; [done|]. by eapply list_elem_of_lookup_2. }
    destruct (hit_spec u (uuid A) Hu HcA) as (b & -> & Hb). cbn [mbind option_bind].
    rewrite Hrest. cbn [mbind option_bind]. eexists. split; [done|]. destruct b.
    + split.
      * cbn [map]. constructor; [done|]. apply Forall_forall. intros n Hn.
        apply list_elem_of_fmap in Hn as (a & -> & Ha). apply Hshift in Ha as (j & B & -> & _). simpl. lia.
      * intros a. rewrite elem_of_cons, Hshift. split.
        -- intros [->|(j & B & -> & ?)]; [|by exists (Datatypes.S j), B].
           exists O, A. split; [f_equal; lia|]. split; [done|]. split; [done|]. by apply Hb.
        -- intros ([|j] & B & -> & Hj & HB); simpl in Hj; [left; f_equal; lia|]. right. by exists j, B.
    + split; [done|]. intros a. rewrite Hshift. split.
      * intros (j & B & -> & ?). by exists (Datatypes.S j), B.
      * intros ([|j] & B & -> & Hj & HB & Hw); simpl in Hj; [|by exists j, B].
        simplify_eq. by apply Hb in Hw.
Qed.

Lemma StronglySorted_map {A B} (f : A -> B) (R : relation B) l :
  StronglySorted R (map f l) -> StronglySorted (fun x y => R (f x) (f y)) l.
Proof.
  induction l as [|x l IH]; cbn [map]; [constructor|]. intros [Hs Hall]%StronglySorted_inv.
  constructor; [by apply IH|]. apply Forall_forall. intros y Hy. rewrite Forall_forall in Hall.
  apply Hall. apply list_elem_of_fmap. eauto.
Qed.

(** One service. *)
Lemma foreach_in_range_spec db s sv u start stop :
  db_wf db -> filter_ok u -> svc_heap db !! s = Some sv ->
  exists l, foreach_in_range true u start stop db s = Some l /\
    StronglySorted (handle_before db) l /\
    (forall a, a ∈ l <-> a.1 = s /\ active sv = true /\ exists A, get_attr a db = Some A /\
       start <= handle A <= stop /\ wanted u (uuid A)).
Proof.
  intros Hwf Hu Hs. pose proof (wf_services db Hwf s sv Hs) as Hsv. unfold foreach_in_range.
  rewrite Hs. cbn [mbind option_bind].
  assert (Hnil : (forall A, A ∈ attrs_of sv -> active sv = true -> ~ (start <= handle A <= stop)) ->
    exists l, Some [] = Some l /\ StronglySorted (handle_before db) l /\
    (forall a, a ∈ l <-> a.1 = s /\ active sv = true /\ exists A, get_attr a db = Some A /\
       start <= handle A <= stop /\ wanted u (uuid A))).
  { intros Hno. exists []. split; [done|]. split; [constructor|]. intros [t i].
    split; [by intros ?%not_elem_of_nil|]. simpl. intros (-> & Hact & A & HA & Hr & _).
    apply (get_attr_spec db s i A Hwf) in HA as (sv' & Hs' & HA). assert (sv' = sv) as -> by congruence.
    exfalso. apply (Hno A); [by eapply list_elem_of_lookup_2|done|lia]. }
  destruct (active sv) eqn:Hact; cbn [negb]; [|by apply Hnil].
  rewrite (get_handles_wf sv Hsv). cbn [mbind option_bind].
  destruct ((stop <? svc_start sv) || (svc_end sv <? start)) eqn:Hout.
  { apply Hnil. intros A [i HA]%list_elem_of_lookup _ Hr.
    destruct (attr_range sv i A Hsv HA) as [? _]. lia. }
  assert (Htake : take (Z.to_nat (num_handles sv)) (attributes sv) = attributes sv).
  { apply take_ge. rewrite <- (wf_length sv Hsv). unfold zlen. lia. }
  rewrite Htake. destruct (wf_prefix sv Hsv) as [k Hk]. rewrite Hk.
  destruct (attrs_in_range_spec u start stop s (attrs_of sv) k 0) as (l & Hl & Hsorted & Hmem);
    [done| |apply Hsv|].
  { eapply Forall_impl; [apply (wf_inside sv Hsv)|]. by intros A []. }
  exists l. split; [done|]. split.
  - eapply StronglySorted_impl_in; [|by apply StronglySorted_map in Hsorted].
    intros a b (j & A & -> & HA & _)%Hmem (j' & B & -> & HB & _)%Hmem Hlt A' B' HA' HB'. simpl in Hlt.
    apply (get_attr_spec db s _ A' Hwf) in HA' as (sv1 & Hs1 & HA').
    apply (get_attr_spec db s _ B' Hwf) in HB' as (sv2 & Hs2 & HB').
    assert (sv1 = sv) as -> by congruence. assert (sv2 = sv) as -> by congruence.
    simpl in HA', HB'.
    apply (StronglySorted_lookup Z.lt (map handle (attrs_of sv)) j j');
      [apply Hsv|lia|by rewrite list_lookup_fmap, HA'|by rewrite list_lookup_fmap, HB'].
  - intros [t i]. rewrite Hmem. simpl. split.
    + intros (j & A & [= -> ->] & HA & ?). split; [done|]. split; [done|]. exists A. split; [|done].
      apply get_attr_spec; eauto.
    + intros (-> & _ & A & HA & ?). apply (get_attr_spec db s i A Hwf) in HA as (sv' & Hs' & HA).
      assert (sv' = sv) as -> by congruence. by exists i, A.
Qed.

(** Service declarations. *)
Lemma foreach_decl_spec db s sv u start stop :
  db_wf db -> filter_ok u -> svc_heap db !! s = Some sv ->
  exists l, foreach_in_range false u start stop db s = Some l /\
    (forall a, a ∈ l <-> a = (s, O) /\ active sv = true /\ start <= svc_start sv <= stop /\
       match u with
       | None => True
       | Some v => exists d A, service_uuid sv = Some (Some d) /\ first_attr sv = Some A /\
           (bt_uuid_cmp d v = Some 0 \/ bt_uuid_cmp (uuid A) v = Some 0)
       end) /\ (length l <= 1)%nat.
Proof.
  intros Hwf Hu Hs. pose proof (wf_services db Hwf s sv Hs) as Hsv. unfold foreach_in_range.
  rewrite Hs. cbn [mbind option_bind].
  assert (Hnil : forall P : Prop, ~ (active sv = true /\ start <= svc_start sv <= stop /\ P) ->
    exists l : list aptr, Some [] = Some l /\
    (forall a, a ∈ l <-> a = (s, O) /\ active sv = true /\ start <= svc_start sv <= stop /\ P) /\
    (length l <= 1)%nat).
  { intros P Hno. exists []. split; [done|]. split; [|simpl; lia].
    intros a. split; [by intros ?%not_elem_of_nil|]. by intros (_ & H). }
  assert (Hone : forall P : Prop, active sv = true -> start <= svc_start sv <= stop -> P ->
    exists l : list aptr, Some [(s, O)] = Some l /\
    (forall a, a ∈ l <-> a = (s, O) /\ active sv = true /\ start <= svc_start sv <= stop /\ P) /\
    (length l <= 1)%nat).
  { intros P Ha Hr HP. exists [(s, O)]. split; [done|]. split; [|done].
    intros a. rewrite list_elem_of_singleton. tauto. }
  destruct (active sv) eqn:Hact; cbn [negb]; [|apply Hnil; by intros []].
  rewrite (get_handles_wf sv Hsv). cbn [mbind option_bind]. pose proof (wf_nonempty sv Hsv).
  destruct ((stop <? svc_start sv) || (svc_end sv <? start)) eqn:Hout; [apply Hnil; lia|].
  destruct ((svc_start sv <? start) || (stop <? svc_start sv)) eqn:Hin; [apply Hnil; lia|].
  unfold foreach_service_in_range. destruct u as [v|]; [|apply Hone; [done|lia|done]].
  destruct (wf_attrs sv Hsv) as (A & As & HA & Hf). rewrite Hf. cbn [mbind option_bind].
  destruct (service_uuid_wf sv Hsv) as (d & Hd & Hcd). rewrite Hd. cbn [mbind option_bind].
  destruct (uuid_eq_spec d v Hcd Hu) as (b1 & -> & Hb1). cbn [mbind option_bind].
  destruct b1; [apply Hone; [done|lia|]; exists d, A; tauto|].
  pose proof (wf_inside sv Hsv) as Hins. rewrite HA in Hins. apply Forall_cons in Hins as [[_ HcA] _].
  destruct (uuid_eq_spec (uuid A) v HcA Hu) as (b2 & -> & Hb2). cbn [mbind option_bind].
  destruct b2; [apply Hone; [done|lia|]; exists d, A; tauto|].
  apply Hnil. intros (_ & _ & d' & A' & Hd' & Hf' & Hor). simplify_eq.
  destruct Hor as [H1|H1]; [by apply Hb1 in H1|by apply Hb2 in H1].
Qed.

Lemma foreach_services_spec (f : positive -> option (list aptr)) (Q : positive -> aptr -> Prop) ss :
  (forall s, s ∈ ss -> exists l, f s = Some l /\ forall a, a ∈ l <-> Q s a) ->
  exists l, foreach_services f ss = Some l /\ forall a, a ∈ l <-> exists s, s ∈ ss /\ Q s a.
Proof.
  induction ss as [|s ss IH]; intros Hf; cbn [foreach_services].
  - exists []. split; [done|]. intros a. split; [by intros ?%not_elem_of_nil|].
    by intros (s & ?%not_elem_of_nil & _).
  - destruct (Hf s) as (l & -> & Hl); [by left|]. destruct IH as (l' & -> & Hl'); [intros t Ht; apply Hf; by right|].
    cbn [mbind option_bind]. exists (l ++ l'). split; [done|]. intros a. rewrite elem_of_app, Hl, Hl'. split.
    + intros [?|(t & ? & ?)]; [exists s; split; [by left|done]|exists t; split; [by right|done]].
    + intros (t & [->|Ht]%elem_of_cons & ?); [by left|right; eauto].
Qed.

(** The attributes of the services of a list, in the order of their handles. *)
Lemma foreach_attrs_spec db u start stop ss :
  db_wf db -> filter_ok u -> (forall s, s ∈ ss -> s ∈ services db) ->
  StronglySorted (before (svc_heap db)) ss ->
  exists l, foreach_services (foreach_in_range true u start stop db) ss = Some l /\
    StronglySorted (handle_before db) l /\
    (forall a, a ∈ l <-> exists sv A, a.1 ∈ ss /\ svc_heap db !! a.1 = Some sv /\ active sv = true /\
       get_attr a db = Some A /\ start <= handle A <= stop /\ wanted u (uuid A)).
Proof.
  intros Hwf Hu. induction ss as [|s ss IH]; intros Hin Hord; cbn [foreach_services].
  - exists []. split; [done|]. split; [constructor|]. intros a.
    split; [by intros ?%not_elem_of_nil|by intros (? & ? & ?%not_elem_of_nil & _)].
  - apply StronglySorted_inv in Hord as [Hord Hall].
    destruct (proj1 (wf_dom db Hwf s)) as [sv Hs]; [apply Hin; by left|].
    destruct (foreach_in_range_spec db s sv u start stop Hwf Hu Hs) as (l & -> & Hsl & Hl).
    destruct IH as (l' & -> & Hsl' & Hl'); [intros t Ht; apply Hin; by right|done|].
    cbn [mbind option_bind]. exists (l ++ l'). split; [done|]. split.
    + apply StronglySorted_app_iff. split; [done|]. split; [done|].
      intros [t i] [t' j] (Ht & _)%Hl (tv & _ & Ht' & Htv & _)%Hl' A B HA HB. simpl in *. subst t.
      apply (get_attr_spec db s i A Hwf) in HA as (sv' & Hs' & HA). simplify_eq.
      apply (get_attr_spec db t' j B Hwf) in HB as (tv' & Htv' & HB). simplify_eq.
      rewrite Forall_forall in Hall. pose proof (Hall t' Ht' sv tv Hs Htv).
      destruct (attr_range sv i A (wf_services db Hwf s sv Hs) HA).
      destruct (attr_range tv j B (wf_services db Hwf t' tv Htv) HB). lia.
    + intros a. rewrite elem_of_app, Hl, Hl'. split.
      * intros [(<- & Hact & A & ?)|(tv & A & ? & ?)]; [exists sv, A; split; [by left|done]|].
        exists tv, A. split; [by right|done].
      * intros (tv & A & [Ha|Ha]%elem_of_cons & Htv & Hact & ?).
        -- left. assert (tv = sv) as -> by congruence. split; [done|]. split; [done|]. eauto.
        -- right. exists tv, A. done.
Qed.

(** Attributes in the order of their handles are different ones. *)
Lemma handle_before_NoDup db l :
  StronglySorted (handle_before db) l -> (forall a, a ∈ l -> is_Some (get_attr a db)) -> NoDup l.
Proof.
  induction 1 as [|a l Hs IH Ha]; intros Hl; constructor.
  - intros Hin. destruct (Hl a) as [A HA]; [by left|]. rewrite Forall_forall in Ha. specialize (Ha a Hin A A HA HA). lia.
  - apply IH. intros b Hb. apply Hl. by right.
Qed.

(** The declarations of services [ss], which are in the order of their handles. *)
Lemma foreach_decls_spec db u start stop ss :
  db_wf db -> filter_ok u -> (forall s, s ∈ ss -> s ∈ services db) ->
  StronglySorted (before (svc_heap db)) ss ->
  exists l, foreach_services (foreach_in_range false u start stop db) ss = Some l /\
    StronglySorted (handle_before db) l /\
    (forall a, a ∈ l <-> exists s sv, a = (s, O) /\ s ∈ ss /\ svc_heap db !! s = Some sv /\
       active sv = true /\ start <= svc_start sv <= stop /\
       match u with
       | None => True
       | Some v => exists d A, service_uuid sv = Some (Some d) /\ first_attr sv = Some A /\
           (bt_uuid_cmp d v = Some 0 \/ bt_uuid_cmp (uuid A) v = Some 0)
       end).
Proof.
  intros Hwf Hu. induction ss as [|s ss IH]; intros Hin Hord; cbn [foreach_services].
  - exists []. split; [done|]. split; [constructor|]. intros a.
    split; [by intros ?%not_elem_of_nil|by intros (? & ? & _ & ?%not_elem_of_nil & _)].
  - apply StronglySorted_inv in Hord as [Hord Hall].
    destruct (proj1 (wf_dom db Hwf s)) as [sv Hs]; [apply Hin; by left|].
    destruct (foreach_decl_spec db s sv u start stop Hwf Hu Hs) as (l & -> & Hl & Hlen).
    destruct IH as (l' & -> & Hsl' & Hl'); [intros t Ht; apply Hin; by right|done|].
    cbn [mbind option_bind]. exists (l ++ l'). split; [done|]. split.
    + apply StronglySorted_app_iff. split; [|split; [done|]].
      { destruct l as [|x [|y l]]; [constructor|by repeat constructor|cbn in Hlen; lia]. }
      intros a b (-> & _)%Hl (t & tv & -> & Ht & Htv & _)%Hl' A B HA HB.
      apply (get_attr_spec db s _ A Hwf) in HA as (sv' & Hs' & HA). simplify_eq.
      apply (get_attr_spec db t _ B Hwf) in HB as (tv' & Htv' & HB). simplify_eq.
      rewrite Forall_forall in Hall. pose proof (Hall t Ht sv tv Hs Htv).
      destruct (attr_range sv _ A (wf_services db Hwf s sv Hs) HA).
      destruct (attr_range tv _ B (wf_services db Hwf t tv Htv) HB). lia.
    + intros a. rewrite elem_of_app, Hl, Hl'. split.
      * intros [(-> & H)|(t & tv & -> & Ht & H)]; [exists s, sv; split; [done|]; split; [by left|done]|].
        exists t, tv. split; [done|]. split; [by right|done].
      * intros (t & tv & -> & [->|Ht]%elem_of_cons & Htv & H); [|right; by exists t, tv].
        left. simplify_eq. done.
Qed.

(** C13. Enumerations are exact.  In every reachable database
    [gatt_db_foreach_in_range] (and so [read_by_type], [find_information] and
    [find_by_type], which counts them) calls its function with the attributes of
    active services whose handle is in the range and whose UUID is the one asked
    for, each once and in the order of their handles; [read_by_group_type] calls
    it with the declarations of the active services that start in the range and
    have the UUID, or whose declaration has it, each once and in the order of their handles. *)
Theorem enumeration_exact db u v start stop :
  rtc db_step gatt_db_new db -> filter_ok u -> comparable v -> start <= stop ->
  (exists l, gatt_db_foreach_in_range u start stop db = Some l /\
    StronglySorted (handle_before db) l /\ NoDup l /\
    (forall a, a ∈ l <-> exists sv A, svc_heap db !! a.1 = Some sv /\ active sv = true /\
       get_attr a db = Some A /\ start <= handle A <= stop /\ wanted u (uuid A))) /\
  (exists l, gatt_db_foreach_in_range (Some v) start stop db = Some l /\
     gatt_db_find_by_type start stop v db = Some (u32 (zlen l), l)) /\
  (exists l, gatt_db_read_by_group_type start stop v db = Some l /\
    StronglySorted (handle_before db) l /\ NoDup l /\
    (forall a, a ∈ l <-> exists s sv d A, a = (s, O) /\ svc_heap db !! s = Some sv /\ active sv = true /\
       start <= svc_start sv <= stop /\ service_uuid sv = Some (Some d) /\ first_attr sv = Some A /\
       (bt_uuid_cmp d v = Some 0 \/ bt_uuid_cmp (uuid A) v = Some 0))).
Proof.
  intros Hwf%reachable_wf Hu Hv Hle.
  assert (Hex : forall u, filter_ok u -> exists l, gatt_db_foreach_in_range u start stop db = Some l /\
    StronglySorted (handle_before db) l /\ NoDup l /\
    (forall a, a ∈ l <-> exists sv A, svc_heap db !! a.1 = Some sv /\ active sv = true /\
       get_attr a db = Some A /\ start <= handle A <= stop /\ wanted u (uuid A))).
  { intros u' Hu'. unfold gatt_db_foreach_in_range. rewrite (proj2 (Z.ltb_ge _ _)) by done.
    destruct (foreach_attrs_spec db u' start stop (services db) Hwf Hu') as (l & -> & Hs & Hl);
      [done|apply Hwf|]. exists l. split; [done|]. split; [done|]. split.
    { apply (handle_before_NoDup db _ Hs). intros a (sv & A & _ & _ & _ & HA & _)%Hl. eauto. }
    intros a. rewrite Hl. split.
    - intros (sv & A & _ & ?). eauto.
    - intros (sv & A & Hs' & ?). exists sv, A. split; [apply (wf_dom db Hwf); eauto|done]. }
  split; [by apply Hex|]. split.
  - destruct (Hex (Some v) Hv) as (l & Hl & _ & _ & Hmem). exists l. split; [done|].
    unfold gatt_db_find_by_type. rewrite Hl. cbn [mbind option_bind].
    assert (Hf : find_by_type None l db = Some l).
    { assert (Hall : forall a, a ∈ l -> is_Some (get_attr a db))
        by (intros a (sv & A & _ & _ & HA & _)%Hmem; eauto). clear -Hall.
      induction l as [|a l IH]; cbn [find_by_type]; [done|].
      destruct (Hall a) as [A ->]; [by left|]. cbn [mbind option_bind].
      rewrite IH; [done|]. intros b Hb. apply Hall. by right. }
    by rewrite Hf.
  - unfold gatt_db_read_by_group_type, gatt_db_foreach_service_in_range.
    rewrite (proj2 (Z.ltb_ge _ _)) by done.
    destruct (foreach_decls_spec db (Some v) start stop (services db) Hwf Hv) as (l & -> & Hs & Hl);
      [done|apply Hwf|]. exists l. split; [done|]. split; [done|].
    assert (Hmem : forall a, a ∈ l <-> exists s sv d A, a = (s, O) /\ svc_heap db !! s = Some sv /\ active sv = true /\
       start <= svc_start sv <= stop /\ service_uuid sv = Some (Some d) /\ first_attr sv = Some A /\
       (bt_uuid_cmp d v = Some 0 \/ bt_uuid_cmp (uuid A) v = Some 0)).
    { intros a. rewrite Hl. split.
      - intros (s & sv & -> & _ & ? & ? & ? & d & A & ?). by exists s, sv, d, A.
      - intros (s & sv & d & A & -> & ? & ? & ? & ?). exists s, sv. split; [done|].
        split; [apply (wf_dom db Hwf); eauto|]. repeat (split; [done|]). by exists d, A. }
    split; [|done]. apply (handle_before_NoDup db _ Hs).
    intros a (s & sv & d & A & -> & Hh & _ & _ & _ & HA & _)%Hmem. exists A. unfold get_attr. cbn.
    by rewrite Hh.
Qed.

(** ** Declarations *)

Lemma get_le_put_le16 v : 0 <= v < 2 ^ 16 -> get_le (put_le16 v) = v.
Proof.
  intros Hv. unfold get_le, put_le16. rewrite rev_involutive, be_value_bytes.
  change (2 ^ (8 * Z.of_nat 2)) with (2 ^ 16). by apply Z.mod_small.
Qed.

Lemma zlen_put_le16 v : zlen (put_le16 v) = 2.
Proof. unfold zlen, put_le16. by rewrite List.length_rev, length_be_bytes. Qed.

(** What [uuid_to_le] writes is read back as an equal UUID. *)
Lemma le_uuid_round_trip u ub :
  comparable u -> uuid_to_le u = Some ub ->
  exists v, le_to_uuid ub = Some v /\ bt_uuid_cmp v u = Some 0.
Proof.
  intros [Hu Su] Hub.
  destruct (to_uuid128_ok u BT_UUID_UNSPEC Hu Su) as (d & Hd & Hok & Hlen).
  assert (Hother : Some (rev d) = Some ub -> exists v, le_to_uuid ub = Some v /\ bt_uuid_cmp v u = Some 0).
  { intros [= <-]. assert (Hz : zlen (rev d) = 16) by (unfold zlen; rewrite List.length_rev; lia).
    unfold le_to_uuid. rewrite Hz, rev_involutive. cbn [Z.eqb Pos.eqb negb]. eexists. split; [done|].
    unfold bt_uuid_cmp. rewrite Hd. simpl. by rewrite memcmp_refl. }
  unfold uuid_to_le in Hub.
  destruct u as [|x|x|l]; [by destruct Su| |by rewrite Hd in Hub; apply Hother..].
  replace ub with (put_le16 x) by (apply (inj Some); exact Hub). unfold le_to_uuid.
  rewrite zlen_put_le16, get_le_put_le16 by done. cbn [Z.eqb Pos.eqb]. eexists. split; [done|].
  unfold bt_uuid16_create, wrap. rewrite Z.mod_small by done. unfold bt_uuid_cmp. rewrite Hd. simpl.
  by rewrite memcmp_refl.
Qed.

Lemma memread_app_l {A} (l1 l2 : list A) : memread (l1 ++ l2) 0 (zlen l1) = Some l1.
Proof.
  rewrite memread_Some by (rewrite ?zlen_app; pose proof (zlen_nonneg l1); pose proof (zlen_nonneg l2); lia).
  f_equal. unfold slice. unfold zlen. rewrite Nat2Z.id. simpl. apply take_app_length.
Qed.

Lemma memread_app_r {A} (l1 l2 : list A) : memread (l1 ++ l2) (zlen l1) (zlen l2) = Some l2.
Proof.
  rewrite memread_Some by (rewrite ?zlen_app; pose proof (zlen_nonneg l1); pose proof (zlen_nonneg l2); lia).
  f_equal. unfold slice, zlen. rewrite !Nat2Z.id, drop_app_length. by apply take_ge.
Qed.

(** A characteristic declaration with value handle [vh], properties and UUID. *)
Lemma char_data_of db a vh props u ub perms :
  comparable u -> uuid_to_le u = Some ub -> 0 < vh < 2 ^ 16 -> 0 <= props < 256 ->
  get_attr a db = Some (set_attribute_data None None perms
    (new_attribute (vh - 1) characteristic_uuid ([props] ++ put_le16 vh ++ ub))) ->
  exists v, gatt_db_attribute_get_char_data (Some a) db = Some (Some (vh - 1, vh, props, v)) /\
    bt_uuid_cmp v u = Some 0.
Proof.
  intros Hu Hub Hvh Hp HA. destruct (le_uuid_round_trip u ub Hu Hub) as (v & Hv & Hcmp).
  exists v. split; [|done]. unfold gatt_db_attribute_get_char_data. rewrite HA. cbn [mbind option_bind].
  cbn [uuid value value_len handle set_attribute_data new_attribute].
  assert (Hchar : uuid_eq characteristic_uuid characteristic_uuid = Some true) by reflexivity.
  rewrite Hchar. cbn [mbind option_bind negb].
  destruct (uuid_to_le_wf u Hu) as (ub' & Hub' & _ & Hlen). assert (ub' = ub) as -> by congruence.
  assert (Hz : zlen ([props] ++ put_le16 vh ++ ub) = 3 + zlen ub).
  { rewrite !zlen_app, zlen_put_le16. change (zlen [props]) with 1. lia. }
  rewrite Hz. cbn [app].
  replace ((false || negb (3 + zlen ub =? 5) && negb (3 + zlen ub =? 19))) with false
    by (destruct Hlen as [-> | ->]; done).
  change (props :: put_le16 vh ++ ub) with ([props] ++ put_le16 vh ++ ub).
  replace (memread ([props] ++ put_le16 vh ++ ub) 0 1) with (Some [props])
    by (symmetry; apply (memread_app_l [props])).
  replace (memread ([props] ++ put_le16 vh ++ ub) 1 2) with (Some (put_le16 vh))
    by (symmetry; rewrite <- (zlen_put_le16 vh); apply (memread_mid [props])).
  replace (memread ([props] ++ put_le16 vh ++ ub) 3 (3 + zlen ub - 3)) with (Some ub).
  2: { symmetry. replace (3 + zlen ub - 3) with (zlen ub) by lia.
       assert (H3 : zlen ([props] ++ put_le16 vh) = 3) by (rewrite zlen_app, zlen_put_le16; done).
       rewrite <- H3, app_assoc. apply memread_app_r. }
  cbn [mbind option_bind]. rewrite Hv. cbn [mbind option_bind].
  rewrite get_le_put_le16 by lia. done.
Qed.

(** Declarations are read back.  In a reachable database with room for it, a
    characteristic inserted with some properties and UUID gets the handles asked
    for (or the next two), its declaration reads back as the handle, the value
    handle, the properties and an equal UUID, and the value handle is found at
    the attribute returned; and a service inserted into a database that has none
    in its way reads back as its range, its kind and an equal UUID. *)
Theorem declarations_read_back db s h u perms props rf wf sv su primary num start :
  rtc db_step gatt_db_new db ->
  svc_heap db !! s = Some sv -> fits sv 2 h -> zlen (attrs_of sv) < num_handles sv - 1 ->
  h <> UINT16_MAX -> 0 <= props < 256 -> comparable u ->
  comparable su -> 0 < start -> 1 <= num -> start + num - 1 <= UINT16_MAX ->
  (forall t tv, svc_heap db !! t = Some tv -> svc_end tv < start \/ start + num - 1 < svc_start tv) ->
  (exists db' i v, let vh := fits_handle sv 2 h in
     gatt_db_service_insert_characteristic (Some (s, O)) h u perms props rf wf db =
       Some (Some (s, (i + 1)%nat), db') /\
     gatt_db_attribute_get_char_data (Some (s, i)) db' = Some (Some (vh - 1, vh, props, v)) /\
     bt_uuid_cmp v u = Some 0 /\
     gatt_db_get_attribute vh db' = Some (Some (s, (i + 1)%nat))) /\
  (exists db' t v, gatt_db_insert_service start su primary num db = Some (Some (t, O), db') /\
     gatt_db_attribute_get_service_data (Some (t, O)) db' =
       Some (Some (start, start + num - 1, primary, v)) /\
     bt_uuid_cmp v su = Some 0).
Proof.
  intros Hwf%reachable_wf Hs Hfit Hroom Hmax Hp Hu Hsu Hst Hnum Hend Hfree. split.
  - pose proof (wf_services db Hwf s sv Hs) as Hsv.
    destruct (insert_characteristic_spec h u perms props rf wf sv Hsv Hu Hfit Hroom Hmax)
      as (sv' & ub & Hins & Hub & Hsv' & Hst' & Hn' & Hdecl & Hval).
    unfold gatt_db_service_insert_characteristic, on_service. cbn [fst]. rewrite Hs. cbn [mbind option_bind].
    rewrite Hins. cbn [mbind option_bind].
    set (db' := set_service s sv' db). set (i := length (attrs_of sv)) in *. set (vh := fits_handle sv 2 h) in *.
    assert (Hwf' : db_wf db') by (by eapply set_service_wf).
    destruct (last_handle_wf sv Hsv) as [_ Hl]. destruct (wf_range sv Hsv) as [Hr0 Hr1].
    assert (Hvh : 0 < vh < 2 ^ 16).
    { destruct (pick_handle sv 2 h _ Hsv Hfit eq_refl) as (_ & ? & _); [lia|]. unfold vh, UINT16_MAX in *. lia. }
    assert (Hga : forall j A, attributes sv' !! j = Some (Some A) -> get_attr (s, j) db' = Some A).
    { intros j A HA. unfold get_attr. simpl. rewrite lookup_insert_eq. cbn [mbind option_bind].
      by rewrite HA. }
    destruct (char_data_of db' (s, i) vh props u ub BT_ATT_PERM_READ) as (v & Hv & Hcmp); try done.
    { by apply Hga. }
    exists db', i, v. split; [done|]. split; [done|]. split; [done|].
    destruct (get_attribute_spec db' vh Hwf') as (r & -> & Hr); [lia|].
    pose proof (Hga _ _ Hval) as HA. destruct r as [b|].
    + destruct Hr as (B & HB & He). do 2 f_equal. by eapply (attr_handle_inj db').
    + by destruct (Hr _ _ HA).
  - unfold gatt_db_insert_service. rewrite (proj2 (Z.eqb_neq start 0)) by lia.
    rewrite (proj2 (Z.ltb_ge num 1)) by lia. rewrite (proj2 (Z.ltb_ge UINT16_MAX _)) by lia.
    cbn [orb]. unfold UINT16_MAX in *.
    assert (Hu16 : u16 (start + num - 1) = start + num - 1) by (unfold wrap; apply Z.mod_small; lia).
    rewrite Hu16.
    destruct (find_insert_loc_spec db start (start + num - 1) (services db) None)
      as [(t & tv & a & _ & _ & Ht & H1 & H2)|(pre & post & _ & -> & _)].
    { intros t [tv Ht]%(wf_dom db Hwf). exists tv. split; [done|]. by eapply wf_services. }
    { apply Hwf. }
    { lia. }
    { intros t tv Ht. pose proof (wf_nonempty tv (wf_services db Hwf t tv Ht)).
      destruct (Hfree t tv Ht); lia. }
    { destruct (Hfree t tv Ht); lia. }
    cbn [mbind option_bind]. unfold gatt_db_service_create. rewrite (proj2 (Z.ltb_ge num 1)) by lia.
    destruct (uuid_to_le_wf su Hsu) as (ub & Hub & _ & Hlen). rewrite Hub. cbn [mbind option_bind].
    destruct (le_uuid_round_trip su ub Hsu Hub) as (v & Hv & Hcmp).
    eexists _, _, v. split; [reflexivity|]. split; [|done].
    unfold gatt_db_attribute_get_service_data, set_next_handle, set_services.
    cbn [fst svc_heap]. rewrite lookup_insert_eq. cbn [mbind option_bind].
    unfold gatt_db_service_get_handles, first_attr. cbn [attributes lookup list_lookup mbind option_bind].
    cbn [set_attribute_data new_attribute handle uuid value value_len num_handles].
    rewrite Hu16. cbn [mbind option_bind].
    replace (memread ub 0 (zlen ub)) with (Some ub)
      by (symmetry; rewrite <- (app_nil_r ub) at 1; apply memread_app_l).
    destruct primary.
    + assert (He : uuid_eq primary_service_uuid secondary_service_uuid = Some false) by reflexivity.
      rewrite He. cbn [mbind option_bind negb]. by rewrite Hv.
    + assert (He : uuid_eq secondary_service_uuid secondary_service_uuid = Some true) by reflexivity.
      rewrite He. cbn [mbind option_bind negb]. by rewrite Hv.
Qed.

(** ** Gaps *)

Definition run_db_ops (os : list db_op) (db : gatt_db) : option gatt_db :=
  foldl (fun r o => db ← r; run_db_op o db) (Some db) os.

(** A service may be inserted around another one.  [find_insert_loc] looks
    for the ends of the new range inside an old one only: with a service at
    5..6, a service at 3..8 is accepted; handle 5 then belongs to both, and
    [gatt_db_get_service] answers the old or the new one by the order of the
    queue. *)
Theorem insert_misses_enclosed :
  exists db1 db2 s t sv tv,
    run_db_ops [Db_insert_service 5 (BT_UUID16 0x1800) true 2] gatt_db_new = Some db1 /\
    gatt_db_insert_service 3 (BT_UUID16 0x1801) true 6 db1 = Some (Some (t, O), db2) /\
    s <> t /\ svc_heap db2 !! s = Some sv /\ svc_heap db2 !! t = Some tv /\
    gatt_db_service_get_handles sv = Some (5, 6) /\ gatt_db_service_get_handles tv = Some (3, 8) /\
    gatt_db_get_service 5 db2 = Some (Some (s, O)).
Proof.
  eexists _, _, 1%positive, 2%positive, _, _.
  split; [vm_compute; reflexivity|]. split; [vm_compute; reflexivity|]. split; [done|].
  split; [vm_compute; reflexivity|]. split; [vm_compute; reflexivity|].
  split; [vm_compute; reflexivity|]. split; [vm_compute; reflexivity|]. vm_compute. reflexivity.
Qed.

(** The counter of handles runs into 0.  After a service that ends at 0xffff,
    or after everything was cleared, [next_handle] is 0: the next service added
    gets handle 0, which no lookup finds.  In the first case the hash is then
    computed into an array of one entry and is written past its end. *)
Theorem next_handle_wraps :
  (exists db1 db2 db3,
     run_db_ops [Db_insert_service 0xfffc (BT_UUID16 0x1800) true 4;
                 Db_characteristic 1 0 (BT_UUID16 0x2A00) 1 2 None None;
                 Db_set_active 1 true] gatt_db_new = Some db1 /\ next_handle db1 = 0 /\
     gatt_db_add_service (BT_UUID16 0x1801) true 1 db1 = Some (Some (2%positive, O), db2) /\
     gatt_db_attribute_get_handle (Some (2%positive, O)) db2 = Some 0 /\
     gatt_db_get_attribute 0 db2 = Some None /\
     next_handle db2 = 1 /\ db_hash_update db2 = None /\
     run_db_op (Db_remove_service 2) db2 = Some db3 /\ next_handle db3 = 1) /\
  (exists db1 db2,
     run_db_ops [Db_insert_service 0 (BT_UUID16 0x1800) true 4; Db_clear_range 1 UINT16_MAX] gatt_db_new
       = Some db1 /\
     gatt_db_add_service (BT_UUID16 0x1801) true 1 db1 = Some (Some (1%positive, O), db2) /\
     gatt_db_attribute_get_handle (Some (1%positive, O)) db2 = Some 0 /\
     gatt_db_get_attribute 0 db2 = Some None).
Proof.
  split.
  - eexists _, _, _. split; [vm_compute; reflexivity|]. split; [vm_compute; reflexivity|].
    split; [vm_compute; reflexivity|]. split; [vm_compute; reflexivity|].
    split; [vm_compute; reflexivity|]. split; [vm_compute; reflexivity|].
    split; [vm_compute; reflexivity|]. split; vm_compute; reflexivity.
  - eexists _, _. split; [vm_compute; reflexivity|]. split; [vm_compute; reflexivity|].
    split; vm_compute; reflexivity.
Qed.

(** A registration may lack the function that is called.
    [gatt_db_register] accepts one of its two functions, but a change of a
    service calls the one for its direction: with only [service_added] given,
    activating a service works and deactivating or removing it calls [NULL]; and
    the other way round. *)
Theorem missing_callback_called cb user :
  let setup added removed b :=
    run_db_ops ([Db_insert_service 0 (BT_UUID16 0x1800) true 4] ++
                (if b : bool then [Db_set_active 1 true] else []) ++
                [Db_register added removed user]) gatt_db_new in
  (exists db, setup (Some cb) None false = Some db /\
     is_Some (run_db_op (Db_set_active 1 true) db)) /\
  (exists db, setup (Some cb) None true = Some db /\
     run_db_op (Db_set_active 1 false) db = None /\ run_db_op (Db_remove_service 1) db = None) /\
  (exists db, setup None (Some cb) false = Some db /\ run_db_op (Db_set_active 1 true) db = None).
Proof.
  split; [|split]; (eexists; split; [reflexivity|]).
  - eexists. reflexivity.
  - split; reflexivity.
  - reflexivity.
Qed.

(** ** Witnesses *)

Definition demo_uuid : bt_uuid := BT_UUID16 0x2A00.

(** A primary service with one characteristic, active. *)
Definition demo_db1 : gatt_db :=
  default gatt_db_new (run_db_op (Db_insert_service 0 (BT_UUID16 0x1800) true 5) gatt_db_new).
Definition demo_db2 : gatt_db :=
  default gatt_db_new (run_db_op (Db_characteristic 1 0 demo_uuid 1 2 None None) demo_db1).
Definition demo_db3 : gatt_db :=
  default gatt_db_new (run_db_op (Db_set_active 1 true) demo_db2).

Definition demo_service (db : gatt_db) : gatt_db_service :=
  default (mkService false false 0 []) (svc_heap db !! 1%positive).

Lemma demo_db_reachable : rtc db_step gatt_db_new demo_db3.
Proof.
  eapply rtc_l.
  { exists (Db_insert_service 0 (BT_UUID16 0x1800) true 5). split; [|vm_compute; reflexivity].
    split; [apply comparable16; lia|]. split; [unfold UINT16_MAX; lia|].
    intros s sv. simpl. by rewrite lookup_empty. }
  eapply rtc_l.
  { exists (Db_characteristic 1 0 demo_uuid 1 2 None None). split; [|vm_compute; reflexivity].
    split; [apply comparable16; lia|]. eexists. split; [vm_compute; reflexivity|].
    vm_compute. discriminate. }
  eapply rtc_l; [|constructor].
  exists (Db_set_active 1 true). split; [|vm_compute; reflexivity].
  simpl. apply list_elem_of_singleton. vm_compute. reflexivity.
Qed.

Lemma handles_name_attributes_witness :
  get_attr (1%positive, 2%nat) demo_db3 <> None /\
  (forall a A, get_attr a demo_db3 = Some A -> handle A <> 0 ->
     gatt_db_get_attribute (handle A) demo_db3 = Some (Some a)).
Proof.
  split; [vm_compute; discriminate|].
  destruct (handles_name_attributes demo_db3 demo_db_reachable) as (_ & _ & H & _). exact H.
Defined.

Lemma enumeration_exact_witness :
  gatt_db_foreach_in_range None 2 0xffff demo_db3 = Some [(1%positive, 1%nat); (1%positive, 2%nat)] /\
  exists l, gatt_db_foreach_in_range None 2 0xffff demo_db3 = Some l /\
    StronglySorted (handle_before demo_db3) l /\ NoDup l.
Proof.
  split; [vm_compute; reflexivity|].
  destruct (enumeration_exact demo_db3 None demo_uuid 2 0xffff demo_db_reachable)
    as ((l & H1 & H2 & H3 & _) & _); [exact I|apply comparable16; lia|lia|].
  exists l. exact (conj H1 (conj H2 H3)).
Defined.

Lemma demo_db3_heap : svc_heap demo_db3 = {[1%positive := demo_service demo_db3]}.
Proof. vm_compute. reflexivity. Qed.

Lemma declarations_read_back_witness :
  (exists db' i v,
     gatt_db_service_insert_characteristic (Some (1%positive, O)) 0 (BT_UUID16 0x2A01) 1 2 None None demo_db3 =
       Some (Some (1%positive, (i + 1)%nat), db') /\
     gatt_db_attribute_get_char_data (Some (1%positive, i)) db' = Some (Some (4, 5, 2, v)) /\
     bt_uuid_cmp v (BT_UUID16 0x2A01) = Some 0 /\
     gatt_db_get_attribute 5 db' = Some (Some (1%positive, (i + 1)%nat))) /\
  (exists db' t v, gatt_db_insert_service 10 (BT_UUID16 0x1801) false 3 demo_db3 = Some (Some (t, O), db') /\
     gatt_db_attribute_get_service_data (Some (t, O)) db' = Some (Some (10, 12, false, v)) /\
     bt_uuid_cmp v (BT_UUID16 0x1801) = Some 0).
Proof.
  apply (declarations_read_back demo_db3 1 0 (BT_UUID16 0x2A01) 1 2 None None (demo_service demo_db3)
           (BT_UUID16 0x1801) false 3 10).
  - exact demo_db_reachable.
  - vm_compute. reflexivity.
  - vm_compute. discriminate.
  - vm_compute. reflexivity.
  - vm_compute. discriminate.
  - lia.
  - apply comparable16. lia.
  - apply comparable16. lia.
  - lia.
  - lia.
  - vm_compute. discriminate.
  - intros t tv Ht. rewrite demo_db3_heap in Ht. apply lookup_singleton_Some in Ht as [_ <-].
    left. vm_compute. reflexivity.
Defined.
