(* ===== verification/GattAttr.v ===== *)
(** Reading and writing an attribute of the GATT database ([shared/gatt-db.c],
    from [read_timeout] to [gatt_db_attribute_unregister]): values kept in the
    database, reads and writes passed on to the client with an id and a timer,
    their results, timeouts and cancellation, and registrations.

    The state is the attribute of [GattDb] with the timers of the main loop that
    are armed and the log of the calls made to clients.  A client function is
    always the last thing an operation calls, so what the client does inside it
    is the next operation of the sequence. *)
From S2P Require Import Prelude Uuid GattDb.

(** ** State *)

(** Every answer to a read or write that was passed on carries the timer of the
    pending entry as its [key]; answers given at once have none. *)
Inductive attr_event :=
| EReadFunc (key cb id offset opcode : Z)
| EWriteFunc (key cb id offset : Z) (data : list Z) (opcode : Z)
| ERead (key : option Z) (user err : Z) (data : list Z)
| EWritten (key : option Z) (user err : Z)
| ENotifyDestroyed (id : Z).

Record attr_state := mkState {
  attr : gatt_db_attribute;
  timers : gset Z;
  next_timer : Z;
  log : list attr_event
}.

Definition set_attr (A : gatt_db_attribute) (s : attr_state) : attr_state :=
  mkState A (timers s) (next_timer s) (log s).
Definition set_value (v : list Z) (len : Z) (A : gatt_db_attribute) : gatt_db_attribute :=
  mkAttr (handle A) (uuid A) (permissions A) len v (read_func A) (write_func A) (read_id A) (pending_reads A)
    (write_id A) (pending_writes A) (attr_next_notify_id A) (attr_notify_list A).
Definition set_reads (id : Z) (l : list pending) (A : gatt_db_attribute) : gatt_db_attribute :=
  mkAttr (handle A) (uuid A) (permissions A) (value_len A) (value A) (read_func A) (write_func A) id l
    (write_id A) (pending_writes A) (attr_next_notify_id A) (attr_notify_list A).
Definition set_writes (id : Z) (l : list pending) (A : gatt_db_attribute) : gatt_db_attribute :=
  mkAttr (handle A) (uuid A) (permissions A) (value_len A) (value A) (read_func A) (write_func A) (read_id A)
    (pending_reads A) id l (attr_next_notify_id A) (attr_notify_list A).
Definition set_notifies (next : Z) (l : list attribute_notify) (A : gatt_db_attribute) : gatt_db_attribute :=
  mkAttr (handle A) (uuid A) (permissions A) (value_len A) (value A) (read_func A) (write_func A) (read_id A)
    (pending_reads A) (write_id A) (pending_writes A) next l.

Definition emit (e : attr_event) (s : attr_state) : attr_state :=
  mkState (attr s) (timers s) (next_timer s) (log s ++ [e]).
(** [timeout_add] gives a timer that was not used before; [timeout_remove]. *)
Definition timeout_add (s : attr_state) : Z * attr_state :=
  (next_timer s, mkState (attr s) ({[next_timer s]} ∪ timers s) (next_timer s + 1) (log s)).
Definition timeout_remove (t : Z) (s : attr_state) : attr_state :=
  mkState (attr s) (timers s ∖ {[t]}) (next_timer s) (log s).

Definition ETIMEDOUT : Z := 110.
Definition BT_ATT_ERROR_INVALID_OFFSET : Z := 7.

(** [queue_remove_if] with [find_pending], [queue_remove] of the entry with a
    timer: the first match and the queue without it. *)
Fixpoint remove_first (f : pending -> bool) (l : list pending) : option (pending * list pending) :=
  match l with
  | [] => None
  | p :: l' => if f p then Some (p, l') else x ← remove_first f l'; Some (x.1, p :: x.2)
  end.
Definition find_pending (id : Z) (p : pending) : bool := p_id p =? id.
Definition has_timer (t : Z) (p : pending) : bool := p_timeout p =? t.

(** [pending_read_result] and [pending_write_result]. *)
Definition pending_read_result (p : pending) (err : Z) (data : list Z) (s : attr_state) : attr_state :=
  emit (ERead (Some (p_timeout p)) (p_user p) err data) (timeout_remove (p_timeout p) s).
Definition pending_write_result (p : pending) (err : Z) (s : attr_state) : attr_state :=
  emit (EWritten (Some (p_timeout p)) (p_user p) err) (timeout_remove (p_timeout p) s).

Section Attribute.
Context (authorize : option (Z -> Z))       (* db->authorize, on the opcode *)
        (junk : Z -> Z).                    (* what fresh memory holds *)

Definition attribute_authorize (opcode : Z) : Z :=
  match authorize with None => 0 | Some f => f opcode end.

(** ** Reading *)

Definition gatt_db_attribute_read (offset opcode user : Z) (s : attr_state) : option attr_state :=
  let A := attr s in
  match read_func A with
  | Some cb =>
      let err := attribute_authorize opcode in
      if negb (err =? 0) then Some (emit (ERead None user err []) s) else
      let id := u32 (read_id A + 1) in
      let '(t, s) := timeout_add s in
      let s := set_attr (set_reads id (pending_reads A ++ [mkPending id user t]) A) s in
      Some (emit (EReadFunc t cb id offset opcode) s)
  | None =>
      if value_len A <? offset then Some (emit (ERead None user BT_ATT_ERROR_INVALID_OFFSET []) s) else
      data ← (if offset =? value_len A then Some [] else memread (value A) offset (value_len A - offset));
      Some (emit (ERead None user 0 data) s)
  end.

Definition gatt_db_attribute_read_result (id err : Z) (data : list Z) (s : attr_state) : bool * attr_state :=
  if id =? 0 then (false, s) else
  match remove_first (find_pending id) (pending_reads (attr s)) with
  | None => (false, s)
  | Some (p, l) => (true, pending_read_result p err data (set_attr (set_reads (read_id (attr s)) l (attr s)) s))
  end.

(** [read_timeout] of a pending read whose timer is [t]. *)
Definition read_timeout (t : Z) (s : attr_state) : option attr_state :=
  '(p, l) ← remove_first (has_timer t) (pending_reads (attr s));
  Some (pending_read_result p (- ETIMEDOUT) [] (set_attr (set_reads (read_id (attr s)) l (attr s)) s)).

(** ** Writing *)

(** [realloc]: the new bytes are whatever the memory held. *)
Definition realloc (v : list Z) (n : Z) : list Z :=
  take (Z.to_nat n) v ++ map junk (seqZ (zlen v) (n - zlen v)).

(** The value with [data] written at [offset], and its length (a uint16_t). *)
Definition write_value (offset : Z) (data : list Z) (A : gatt_db_attribute) : option gatt_db_attribute :=
  let len := zlen data in
  if match value A with [] => true | _ => false end || (value_len A <=? offset) ||
     (value_len A - offset <? len)
  then
    let buf := realloc (value A) (len + offset) in
    buf ← (if value_len A =? 0 then memcpy_at buf 0 (replicate (Z.to_nat offset) 0) else Some buf);
    buf ← memcpy_at buf offset data;
    Some (set_value buf (u16 (len + offset)) A)
  else buf ← memcpy_at (value A) offset data; Some (set_value buf (value_len A) A).

Definition gatt_db_attribute_write (offset : Z) (data : list Z) (opcode user : Z) (s : attr_state)
  : option attr_state :=
  let A := attr s in
  match write_func A with
  | Some cb =>
      let err := attribute_authorize opcode in
      if negb (err =? 0) then Some (emit (EWritten None user err) s) else
      let id := u32 (write_id A + 1) in
      let '(t, s) := timeout_add s in
      let s := set_attr (set_writes id (pending_writes A ++ [mkPending id user t]) A) s in
      Some (emit (EWriteFunc t cb id offset data opcode) s)
  | None =>
      A' ← (if zlen data =? 0 then Some A else write_value offset data A);
      Some (emit (EWritten None user 0) (set_attr A' s))
  end.

Definition gatt_db_attribute_write_result (id err : Z) (s : attr_state) : bool * attr_state :=
  if id =? 0 then (false, s) else
  match remove_first (find_pending id) (pending_writes (attr s)) with
  | None => (false, s)
  | Some (p, l) => (true, pending_write_result p err (set_attr (set_writes (write_id (attr s)) l (attr s)) s))
  end.

Definition write_timeout (t : Z) (s : attr_state) : option attr_state :=
  '(p, l) ← remove_first (has_timer t) (pending_writes (attr s));
  Some (pending_write_result p (- ETIMEDOUT) (set_attr (set_writes (write_id (attr s)) l (attr s)) s)).

(** ** Reset, registrations, destruction *)

Definition gatt_db_attribute_reset (s : attr_state) : attr_state :=
  if match value (attr s) with [] => true | _ => false end || (value_len (attr s) =? 0) then s
  else set_attr (set_value [] 0 (attr s)) s.

Definition gatt_db_attribute_register (removed : bool) (user : Z) (s : attr_state) : Z * attr_state :=
  if negb removed then (0, s) else
  let A := attr s in
  let id := if attr_next_notify_id A <? 1 then 1 else attr_next_notify_id A in
  (id, set_attr (set_notifies (u32 (id + 1)) (attr_notify_list A ++ [mkAttrNotify id removed user]) A) s).

Fixpoint remove_registration (id : Z) (l : list attribute_notify) : option (list attribute_notify) :=
  match l with
  | [] => None
  | n :: l' => if an_id n =? id then Some l' else x ← remove_registration id l'; Some (n :: x)
  end.

Definition gatt_db_attribute_unregister (id : Z) (s : attr_state) : bool * attr_state :=
  if id =? 0 then (false, s) else
  match remove_registration id (attr_notify_list (attr s)) with
  | None => (false, s)
  | Some l => (true, emit (ENotifyDestroyed id) (set_attr (set_notifies (attr_next_notify_id (attr s)) l (attr s)) s))
  end.

(** [attribute_destroy]: every queue is emptied from its head, what is pending
    is cancelled. *)
Fixpoint cancel_reads (l : list pending) (s : attr_state) : attr_state :=
  match l with
  | [] => s
  | p :: l' => cancel_reads l' (pending_read_result p (- ECANCELED) []
                                  (set_attr (set_reads (read_id (attr s)) l' (attr s)) s))
  end.
Fixpoint cancel_writes (l : list pending) (s : attr_state) : attr_state :=
  match l with
  | [] => s
  | p :: l' => cancel_writes l' (pending_write_result p (- ECANCELED)
                                   (set_attr (set_writes (write_id (attr s)) l' (attr s)) s))
  end.
Fixpoint destroy_registrations (l : list attribute_notify) (s : attr_state) : attr_state :=
  match l with
  | [] => s
  | n :: l' => destroy_registrations l'
                 (emit (ENotifyDestroyed (an_id n)) (set_attr (set_notifies (attr_next_notify_id (attr s)) l' (attr s)) s))
  end.
Definition attribute_cancel (s : attr_state) : attr_state :=
  let s := cancel_reads (pending_reads (attr s)) s in
  let s := cancel_writes (pending_writes (attr s)) s in
  destroy_registrations (attr_notify_list (attr s)) s.

(** ** Sequences of operations *)

Inductive attr_op :=
| ORead (offset opcode user : Z)
| OReadResult (id err : Z) (data : list Z)
| OWrite (offset : Z) (data : list Z) (opcode user : Z)
| OWriteResult (id err : Z)
| OTimer (t : Z)                              (* the main loop fires an armed timer *)
| OReset
| ORegister (removed : bool) (user : Z)
| OUnregister (id : Z).

(** A timer runs the function it was armed with; for the others it does not
    exist. *)
Definition fire (t : Z) (s : attr_state) : option attr_state :=
  if decide (t ∈ timers s) then
    match read_timeout t s with Some s' => Some s' | None => write_timeout t s end
  else Some s.

Definition attr_step (o : attr_op) (s : attr_state) : option attr_state :=
  match o with
  | ORead offset opcode user => gatt_db_attribute_read offset opcode user s
  | OReadResult id err data => Some (gatt_db_attribute_read_result id err data s).2
  | OWrite offset data opcode user => gatt_db_attribute_write offset data opcode user s
  | OWriteResult id err => Some (gatt_db_attribute_write_result id err s).2
  | OTimer t => fire t s
  | OReset => Some (gatt_db_attribute_reset s)
  | ORegister removed user => Some (gatt_db_attribute_register removed user s).2
  | OUnregister id => Some (gatt_db_attribute_unregister id s).2
  end.

Fixpoint attr_run (os : list attr_op) (s : attr_state) : option attr_state :=
  match os with [] => Some s | o :: os' => s' ← attr_step o s; attr_run os' s' end.

End Attribute.

(** An attribute as [new_attribute] and [set_attribute_data] make it. *)
Definition attr_start (A : gatt_db_attribute) : attr_state := mkState A ∅ 1 [].

(** ** Every read and write that was passed on is answered once *)

Definition accepted (l : list attr_event) : list Z :=
  omap (fun e => match e with EReadFunc k _ _ _ _ | EWriteFunc k _ _ _ _ _ => Some k | _ => None end) l.
Definition answered (l : list attr_event) : list Z :=
  omap (fun e => match e with ERead k _ _ _ | EWritten k _ _ => k | _ => None end) l.
(** The timers of what is pending. *)
Definition keys (A : gatt_db_attribute) : list Z := p_timeout <$> pending_reads A ++ pending_writes A.

Definition value_ok (A : gatt_db_attribute) : Prop := 0 <= value_len A <= 65535 /\ value_len A <= zlen (value A).

Record attr_ok (s : attr_state) : Prop := mkOk {
  ok_once : accepted (log s) ≡ₚ answered (log s) ++ keys (attr s);
  ok_nodup : NoDup (accepted (log s));
  ok_timers : forall t, t ∈ timers s <-> t ∈ keys (attr s);
  ok_fresh : forall t, t ∈ accepted (log s) -> t < next_timer s;
  ok_value : value_ok (attr s)
}.

Lemma accepted_app l1 l2 : accepted (l1 ++ l2) = accepted l1 ++ accepted l2.
Proof. apply omap_app. Qed.
Lemma answered_app l1 l2 : answered (l1 ++ l2) = answered l1 ++ answered l2.
Proof. apply omap_app. Qed.

Lemma remove_first_spec f l p l' : remove_first f l = Some (p, l') -> l ≡ₚ p :: l' /\ f p = true.
Proof.
  revert p l'. induction l as [|q l IH]; intros p l'; cbn; [done|]. destruct (f q) eqn:Ef.
  - intros [= <- <-]. done.
  - destruct (remove_first f l) as [[x m]|]; [|done]. cbn. intros [= <- <-].
    destruct (IH x m eq_refl) as [-> ?]. split; [solve_Permutation|done].
Qed.

Lemma remove_first_None f l : remove_first f l = None -> Forall (fun p => f p = false) l.
Proof.
  induction l as [|q l IH]; cbn; [done|]. destruct (f q) eqn:Ef; [done|].
  destruct (remove_first f l); [done|]. intros _. constructor; auto.
Qed.

(** An attribute changes in nothing that is pending. *)
Lemma ok_same A e s :
  attr_ok s -> keys A = keys (attr s) -> value_ok A -> accepted e = [] -> answered e = [] ->
  attr_ok (mkState A (timers s) (next_timer s) (log s ++ e)).
Proof.
  intros [] Ek Ev E1 E2. constructor; cbn; rewrite ?accepted_app, ?answered_app, ?E1, ?E2, ?app_nil_r, ?Ek; done.
Qed.

Lemma ok_set A s : attr_ok s -> keys A = keys (attr s) -> value_ok A -> attr_ok (set_attr A s).
Proof. intros [] Ek Ev. constructor; cbn; rewrite ?Ek; done. Qed.

(** A new entry is pending. *)
Lemma ok_accept A e s :
  attr_ok s -> keys A ≡ₚ next_timer s :: keys (attr s) -> value_ok A ->
  accepted [e] = [next_timer s] -> answered [e] = [] ->
  attr_ok (mkState A ({[next_timer s]} ∪ timers s) (next_timer s + 1) (log s ++ [e])).
Proof.
  intros [] Ek Ev E1 E2. constructor; cbn; rewrite ?accepted_app, ?answered_app, ?E1, ?E2; try done.
  - rewrite app_nil_r, Ek, ok_once0. solve_Permutation.
  - apply NoDup_app. split_and!; [done| |apply NoDup_singleton].
    intros t Ht ->%list_elem_of_singleton. specialize (ok_fresh0 _ Ht). lia.
  - intros t. rewrite elem_of_union, elem_of_singleton, ok_timers0, Ek, elem_of_cons. done.
  - intros t [Ht| ->%list_elem_of_singleton]%elem_of_app; [specialize (ok_fresh0 _ Ht)|]; lia.
Qed.

(** An entry is answered and leaves. *)
Lemma ok_answer A k e s :
  attr_ok s -> keys (attr s) ≡ₚ k :: keys A -> value_ok A -> accepted [e] = [] -> answered [e] = [k] ->
  attr_ok (mkState A (timers s ∖ {[k]}) (next_timer s) (log s ++ [e])).
Proof.
  intros [] Ek Ev E1 E2.
  assert (Hn : k ∉ keys A).
  { rewrite ok_once0, Ek in ok_nodup0. apply NoDup_app in ok_nodup0 as (_ & _ & H). by apply NoDup_cons in H as [? _]. }
  constructor; cbn; rewrite ?accepted_app, ?answered_app, ?E1, ?E2, ?app_nil_r; try done.
  - rewrite ok_once0, Ek. solve_Permutation.
  - intros t. rewrite elem_of_difference, elem_of_singleton, ok_timers0, Ek, elem_of_cons. naive_solver.
Qed.

Lemma keys_reads A id p l :
  pending_reads A ≡ₚ p :: l -> keys A ≡ₚ p_timeout p :: keys (set_reads id l A).
Proof. intros E. unfold keys; cbn. by rewrite E. Qed.

Lemma keys_writes A id p l :
  pending_writes A ≡ₚ p :: l -> keys A ≡ₚ p_timeout p :: keys (set_writes id l A).
Proof. intros E. unfold keys; cbn. rewrite E, !fmap_app. cbn. solve_Permutation. Qed.

Lemma value_ok_same A A' : value A' = value A -> value_len A' = value_len A -> value_ok A -> value_ok A'.
Proof. unfold value_ok. by intros -> ->. Qed.

(** The answers to an entry that leaves the queue of reads, of writes. *)
Lemma read_result_ok p l err data s :
  attr_ok s -> pending_reads (attr s) ≡ₚ p :: l ->
  attr_ok (pending_read_result p err data (set_attr (set_reads (read_id (attr s)) l (attr s)) s)).
Proof.
  intros Hs E. apply (ok_answer _ _ _ s); try done; [by apply keys_reads|]. by eapply value_ok_same, Hs.
Qed.

Lemma write_result_ok p l err s :
  attr_ok s -> pending_writes (attr s) ≡ₚ p :: l ->
  attr_ok (pending_write_result p err (set_attr (set_writes (write_id (attr s)) l (attr s)) s)).
Proof.
  intros Hs E. apply (ok_answer _ _ _ s); try done; [by apply keys_writes|]. by eapply value_ok_same, Hs.
Qed.

Lemma memcpy_at_total (dst : list Z) off src :
  0 <= off -> off + zlen src <= zlen dst ->
  exists d, memcpy_at dst off src = Some d /\ zlen d = zlen dst.
Proof.
  intros H1 H2. eexists. split; [by apply memcpy_at_Some|]. by eapply memcpy_at_len, memcpy_at_Some.
Qed.

Section Proofs.
Context (authorize : option (Z -> Z)) (junk : Z -> Z).

(** ** Values *)

(** What clients see of the value. *)
Definition stored (A : gatt_db_attribute) : list Z := take (Z.to_nat (value_len A)) (value A).

Lemma zlen_stored A : value_ok A -> zlen (stored A) = value_len A.
Proof. intros [H1 H2]. unfold stored, zlen in *. rewrite length_take. lia. Qed.

Lemma zlen_realloc v n : 0 <= n -> zlen (realloc junk v n) = n.
Proof. intros Hn. unfold realloc, zlen. rewrite length_app, length_take, length_map, length_seqZ. lia. Qed.

Lemma realloc_grow v n : zlen v <= n -> realloc junk v n = v ++ map junk (seqZ (zlen v) (n - zlen v)).
Proof. intros Hn. unfold realloc. rewrite take_ge; [done|]. unfold zlen in Hn. lia. Qed.

(** Writing never leaves the buffer. *)
Lemma write_value_total offset data A :
  value_ok A -> 0 <= offset <= 65535 -> exists A', write_value junk offset data A = Some A' /\ value_ok A' /\
    keys A' = keys A.
Proof.
  intros [H1 H2] Ho. unfold write_value. pose proof (zlen_nonneg data).
  assert (Hnn : 0 <= zlen data + offset) by lia.
  destruct (_ || _) eqn:Eb.
  - set (buf := realloc junk (value A) (zlen data + offset)).
    assert (Hbuf : zlen buf = zlen data + offset) by by apply zlen_realloc.
    assert (Hb : exists b1, (if value_len A =? 0 then memcpy_at buf 0 (replicate (Z.to_nat offset) 0) else Some buf)
                            = Some b1 /\ zlen b1 = zlen buf).
    { destruct (value_len A =? 0); [|by exists buf].
      apply memcpy_at_total; [done|]. rewrite zlen_replicate. lia. }
    destruct Hb as (b1 & -> & Hb1). cbn [mbind option_bind].
    destruct (memcpy_at_total b1 offset data) as (b2 & -> & E2); [lia|lia|].
    cbn [mbind option_bind]. eexists. split_and!; [done| |done]. unfold value_ok; cbn. pose proof (wrap_range 16 (zlen data + offset) ltac:(lia)).
    assert (u16 (zlen data + offset) <= zlen data + offset) by (unfold wrap; apply Z.mod_le; lia). lia.
  - apply orb_false_iff in Eb as [[_ Eo]%orb_false_iff El].
    apply Z.leb_gt in Eo. apply Z.ltb_ge in El.
    destruct (memcpy_at_total (value A) offset data) as (b & -> & E); [lia|lia|].
    cbn [mbind option_bind]. eexists. split_and!; [done| |done]. unfold value_ok; cbn. lia.
Qed.

(** ** The invariant is kept *)

(** Offsets are uint16_t. *)
Definition op_ok (o : attr_op) : Prop :=
  match o with ORead offset _ _ | OWrite offset _ _ _ => 0 <= offset <= 65535 | _ => True end.

Lemma read_ok offset opcode user s :
  attr_ok s -> 0 <= offset <= 65535 ->
  exists s', gatt_db_attribute_read authorize offset opcode user s = Some s' /\ attr_ok s'.
Proof.
  intros Hs Ho. pose proof (ok_value _ Hs) as Hv. unfold gatt_db_attribute_read.
  assert (Hdirect : forall err data, attr_ok (emit (ERead None user err data) s)) by (intros; by apply ok_same).
  destruct (read_func (attr s)) as [cb|].
  - destruct (negb _); eexists; (split; [done|]); [apply Hdirect|].
    apply (ok_accept (set_reads _ _ _) _ s); try done.
    unfold keys; cbn. rewrite !fmap_app. cbn. solve_Permutation.
  - destruct (Z.ltb_spec (value_len (attr s)) offset); [eexists; split; [done|apply Hdirect]|].
    destruct Hv as [H1 H2]. destruct (Z.eqb_spec offset (value_len (attr s))).
    + eexists; split; [done|apply Hdirect].
    + rewrite memread_Some by lia. eexists; split; [done|apply Hdirect].
Qed.

Lemma write_ok offset data opcode user s :
  attr_ok s -> 0 <= offset <= 65535 ->
  exists s', gatt_db_attribute_write authorize junk offset data opcode user s = Some s' /\ attr_ok s'.
Proof.
  intros Hs Ho. pose proof (ok_value _ Hs) as Hv. unfold gatt_db_attribute_write.
  destruct (write_func (attr s)) as [cb|].
  - destruct (negb _); eexists; (split; [done|]); [by apply ok_same|].
    apply (ok_accept (set_writes _ _ _) _ s); try done.
    unfold keys; cbn. rewrite !fmap_app. cbn. solve_Permutation.
  - assert (exists A', (if zlen data =? 0 then Some (attr s) else write_value junk offset data (attr s)) = Some A' /\
              value_ok A' /\ keys A' = keys (attr s)) as (A' & -> & HA & Hk).
    { destruct (zlen data =? 0); [by exists (attr s)|by apply write_value_total]. }
    eexists. split; [done|]. by apply (ok_same A' _ s).
Qed.

Lemma fire_ok t s : attr_ok s -> exists s', fire t s = Some s' /\ attr_ok s'.
Proof.
  intros Hs. unfold fire. destruct (decide (t ∈ timers s)) as [Ht|]; [|by eexists].
  apply (ok_timers _ Hs) in Ht. unfold read_timeout, write_timeout.
  destruct (remove_first (has_timer t) (pending_reads (attr s))) as [[p l]|] eqn:Er.
  { apply remove_first_spec in Er as [Ep _]. eexists. split; [done|]. by apply read_result_ok. }
  destruct (remove_first (has_timer t) (pending_writes (attr s))) as [[p l]|] eqn:Ew.
  { apply remove_first_spec in Ew as [Ep _]. eexists. split; [done|]. by apply write_result_ok. }
  exfalso. apply remove_first_None in Er, Ew. unfold keys in Ht. rewrite fmap_app, elem_of_app in Ht.
  rewrite Forall_forall in Er, Ew.
  destruct Ht as [(p & -> & Hp)%list_elem_of_fmap|(p & -> & Hp)%list_elem_of_fmap];
    [specialize (Er _ Hp)|specialize (Ew _ Hp)]; unfold has_timer in *; by rewrite Z.eqb_refl in *.
Qed.

Lemma attr_step_ok o s :
  attr_ok s -> op_ok o -> exists s', attr_step authorize junk o s = Some s' /\ attr_ok s'.
Proof.
  intros Hs Ho. destruct o; cbn [attr_step].
  - by apply read_ok.
  - eexists; split; [done|]. unfold gatt_db_attribute_read_result. destruct (id =? 0); [done|].
    destruct (remove_first _ _) as [[p l]|] eqn:E; [|done]. apply remove_first_spec in E as [E _].
    by apply read_result_ok.
  - by apply write_ok.
  - eexists; split; [done|]. unfold gatt_db_attribute_write_result. destruct (id =? 0); [done|].
    destruct (remove_first _ _) as [[p l]|] eqn:E; [|done]. apply remove_first_spec in E as [E _].
    by apply write_result_ok.
  - by apply fire_ok.
  - eexists; split; [done|]. unfold gatt_db_attribute_reset. destruct (_ || _); [done|].
    by apply ok_set.
  - eexists; split; [done|]. unfold gatt_db_attribute_register. destruct (negb removed); [done|].
    apply ok_set; try done. apply Hs.
  - eexists; split; [done|]. unfold gatt_db_attribute_unregister. destruct (id =? 0); [done|].
    destruct (remove_registration _ _); [|done]. apply (ok_same _ _ s); try done; apply Hs.
Qed.

Lemma attr_run_ok os s :
  attr_ok s -> Forall op_ok os -> exists s', attr_run authorize junk os s = Some s' /\ attr_ok s'.
Proof.
  revert s. induction os as [|o os IH]; intros s Hs Ho; cbn; [by eexists|].
  apply Forall_cons in Ho as [H1 H2]. destruct (attr_step_ok o s Hs H1) as (s1 & -> & Hs1). by apply IH.
Qed.

End Proofs.

Lemma cancel_reads_ok l s :
  attr_ok s -> pending_reads (attr s) = l ->
  attr_ok (cancel_reads l s) /\ pending_reads (attr (cancel_reads l s)) = [] /\
  accepted (log (cancel_reads l s)) = accepted (log s).
Proof.
  revert s. induction l as [|p l IH]; intros s Hs E; cbn [cancel_reads]; [done|].
  destruct (IH _ (read_result_ok p l (- ECANCELED) [] s Hs ltac:(by rewrite E)) eq_refl) as (H1 & H2 & H3).
  split_and!; [done|done|]. rewrite H3. cbn. by rewrite accepted_app, app_nil_r.
Qed.

Lemma cancel_writes_ok l s :
  attr_ok s -> pending_writes (attr s) = l ->
  attr_ok (cancel_writes l s) /\ pending_writes (attr (cancel_writes l s)) = [] /\
  pending_reads (attr (cancel_writes l s)) = pending_reads (attr s) /\
  accepted (log (cancel_writes l s)) = accepted (log s).
Proof.
  revert s. induction l as [|p l IH]; intros s Hs E; cbn [cancel_writes]; [done|].
  destruct (IH _ (write_result_ok p l (- ECANCELED) s Hs ltac:(by rewrite E)) eq_refl) as (H1 & H2 & H3 & H4).
  split_and!; [done|done|done|]. rewrite H4. cbn. by rewrite accepted_app, app_nil_r.
Qed.

Lemma destroy_registrations_ok l s :
  attr_ok s -> attr_ok (destroy_registrations l s) /\
  keys (attr (destroy_registrations l s)) = keys (attr s) /\
  accepted (log (destroy_registrations l s)) = accepted (log s).
Proof.
  revert s. induction l as [|n l IH]; intros s Hs; cbn [destroy_registrations]; [done|].
  edestruct (IH (emit (ENotifyDestroyed (an_id n)) (set_attr (set_notifies (attr_next_notify_id (attr s)) l (attr s)) s)))
    as (H1 & H2 & H3).
  { apply (ok_same _ _ s); try done. apply Hs. }
  split_and!; [done|by rewrite H2|]. rewrite H3. cbn. by rewrite accepted_app, app_nil_r.
Qed.

Lemma attribute_cancel_ok s :
  attr_ok s -> attr_ok (attribute_cancel s) /\ keys (attr (attribute_cancel s)) = [] /\
  accepted (log (attribute_cancel s)) = accepted (log s).
Proof.
  intros Hs. unfold attribute_cancel.
  destruct (cancel_reads_ok _ s Hs eq_refl) as (H1 & R1 & A1). set (s1 := cancel_reads _ s) in *.
  destruct (cancel_writes_ok _ s1 H1 eq_refl) as (H2 & W2 & R2 & A2). set (s2 := cancel_writes _ s1) in *.
  destruct (destroy_registrations_ok (attr_notify_list (attr s2)) s2 H2) as (H3 & K3 & A3).
  split_and!; [done| |congruence]. rewrite K3. unfold keys. by rewrite W2, R2, R1.
Qed.

(** A new attribute. *)
Lemma attr_start_ok h u val rf wf perms :
  zlen val <= 65535 -> attr_ok (attr_start (set_attribute_data rf wf perms (new_attribute h u val))).
Proof.
  intros Hv. constructor; cbn; try done; [apply NoDup_nil_2|set_solver|by intros t Ht%elem_of_nil|].
  unfold value_ok; cbn. pose proof (zlen_nonneg val). lia.
Qed.

(** C14. From a new attribute, whatever sequence of reads, writes, results,
    timeouts, resets and registrations follows: no operation leaves the buffer of
    the value or follows an entry that is gone, a timer is armed exactly for
    what is pending, and every read or write that was passed on to the client is
    either pending or has had its callback called, exactly once; once the
    attribute is destroyed all have, and no timer is left. *)
Theorem attribute_answers_once authorize junk h u val rf wf perms os :
  zlen val <= 65535 -> Forall op_ok os ->
  exists s, attr_run authorize junk os (attr_start (set_attribute_data rf wf perms (new_attribute h u val))) = Some s /\
    NoDup (accepted (log s)) /\ accepted (log s) ≡ₚ answered (log s) ++ keys (attr s) /\
    (forall t, t ∈ timers s <-> t ∈ keys (attr s)) /\
    let s' := attribute_cancel s in
    NoDup (answered (log s')) /\ answered (log s') ≡ₚ accepted (log s) /\ timers s' = ∅.
Proof.
  intros Hv Ho.
  destruct (attr_run_ok authorize junk os _ (attr_start_ok h u val rf wf perms Hv) Ho) as (s & E & Hs).
  exists s. split; [done|]. destruct (attribute_cancel_ok s Hs) as (Hc & Hk & Ha).
  do 3 (split; [apply Hs|]). intros s'. unfold s'. split_and!.
  - pose proof (ok_nodup _ Hc) as Hn. rewrite (ok_once _ Hc), Hk, app_nil_r in Hn. done.
  - rewrite <- Ha, (ok_once _ Hc), Hk, app_nil_r. done.
  - apply leibniz_equiv. intros t. rewrite (ok_timers _ Hc), Hk. set_solver.
Qed.

(** ** Values *)

Section Values.
Context (junk : Z -> Z).

(** The bytes between the end of the value and the offset of a write. *)
Definition gap (offset : Z) (A : gatt_db_attribute) : list Z :=
  if value_len A =? 0 then replicate (Z.to_nat offset) 0
  else map junk (seqZ (zlen (value A)) (offset - zlen (value A))).

Lemma take_seqZ k z m : k <= m -> take (Z.to_nat k) (seqZ z m) = seqZ z k.
Proof.
  intros Hk. destruct (Z.le_gt_cases k 0) as [Hn|Hp].
  - rewrite (seqZ_nil z k) by done. replace (Z.to_nat k) with 0%nat by lia. done.
  - replace m with (k + (m - k)) by lia. rewrite seqZ_app by lia.
    rewrite take_app_length'; [done|]. rewrite length_seqZ. lia.
Qed.

(** What [realloc] and [memset] leave before the offset. *)
Lemma buffer_prefix offset n A :
  zlen (value A) = value_len A -> 0 <= offset <= n -> value_len A <= n ->
  exists b, (if value_len A =? 0 then memcpy_at (realloc junk (value A) n) 0 (replicate (Z.to_nat offset) 0)
             else Some (realloc junk (value A) n)) = Some b /\
    zlen b = n /\ take (Z.to_nat offset) b = take (Z.to_nat offset) (value A) ++ gap offset A.
Proof.
  intros Hz Ho Hn. unfold gap. pose proof (zlen_realloc junk (value A) n ltac:(lia)) as Hb.
  destruct (Z.eqb_spec (value_len A) 0) as [E0|E0].
  - assert (Ev : value A = []) by (apply zlen_0_nil; lia).
    destruct (memcpy_at_total (realloc junk (value A) n) 0 (replicate (Z.to_nat offset) 0)) as (b & E & Hl);
      [done|rewrite zlen_replicate; lia|].
    exists b. split_and!; [done|lia|]. rewrite memcpy_at_Some in E by (rewrite ?zlen_replicate; lia).
    injection E as <-. rewrite Ev. cbn. rewrite take_app_length'; [by rewrite take_nil|]. by rewrite length_replicate.
  - eexists. split_and!; [done|done|]. rewrite realloc_grow by lia.
    rewrite take_app. f_equal. rewrite <- fmap_take. fold (@fmap list _ Z Z). f_equal. rewrite <- (take_seqZ (offset - zlen (value A)) _ (n - zlen (value A))) by lia.
    f_equal. unfold zlen. lia.
Qed.

(** A write into the database that ends within 65535 bytes: the bytes before the
    offset stay, [data] follows, the bytes behind it stay. *)
Lemma write_value_stored offset data A :
  value_ok A -> zlen (value A) = value_len A -> 0 <= offset -> data <> [] -> offset + zlen data <= 65535 ->
  exists A', write_value junk offset data A = Some A' /\ zlen (value A') = value_len A' /\
    value_len A' = Z.max (value_len A) (offset + zlen data) /\
    value A' = take (Z.to_nat offset) (value A) ++ gap offset A ++ data ++
               drop (Z.to_nat (offset + zlen data)) (value A).
Proof.
  intros [H1 H2] Hz Ho Hd Hn. pose proof (zlen_nonneg data).
  assert (Hl : zlen data <> 0) by (intros E0%zlen_0_nil; done).
  unfold write_value. destruct (_ || _) eqn:Eb.
  - assert (Hgrow : value_len A < zlen data + offset).
    { apply orb_true_iff in Eb as [[Eb|Eb%Z.leb_le]%orb_true_iff|Eb%Z.ltb_lt]; [|lia|lia].
      destruct (value A); [rewrite zlen_nil in Hz; lia|done]. }
    destruct (buffer_prefix offset (zlen data + offset) A Hz) as (b & -> & Hb & Ht); [lia|lia|].
    cbn [mbind option_bind]. rewrite memcpy_at_Some by lia. cbn [mbind option_bind].
    eexists. split; [done|]. cbn [value value_len set_value].
    rewrite wrap_small by (cbn; lia). rewrite Ht, (drop_ge b), (drop_ge (value A)) by (unfold zlen in *; lia).
    split_and!; [|lia|by rewrite <- app_assoc].
    rewrite <- Ht, app_nil_r, zlen_app. unfold zlen in *. rewrite length_take. lia.
  - apply orb_false_iff in Eb as [[_ Eo%Z.leb_gt]%orb_false_iff El%Z.ltb_ge].
    rewrite memcpy_at_Some by lia. cbn [mbind option_bind]. eexists. split; [done|]. cbn [value value_len set_value].
    unfold gap. rewrite (proj2 (Z.eqb_neq _ 0)) by lia. rewrite (seqZ_nil _ (offset - _)) by lia.
    split_and!; [|lia|done]. rewrite !zlen_app. unfold zlen in *. rewrite length_take, length_drop. lia.
Qed.

Lemma write_value_funcs offset data A A' : write_value junk offset data A = Some A' -> read_func A' = read_func A.
Proof.
  unfold write_value. destruct (_ || _).
  - destruct (value_len A =? 0); [destruct (memcpy_at _ 0 _); [|done]|]; cbn [mbind option_bind];
      (destruct (memcpy_at _ offset _); [|done]); by intros [= <-].
  - destruct (memcpy_at _ _ _); [|done]. by intros [= <-].
Qed.

(** For an attribute kept in the database: after a write of [data] at [offset]
    that ends within 65535 bytes, the value is the old bytes up to the offset,
    [data], and the old bytes behind it; it grew exactly as far as needed; the
    bytes between an old end and the offset are zero when there was no value and
    whatever the memory held otherwise.  A read at any offset then gives the rest
    of that value, and an error behind its end. *)
Theorem write_then_read authorize offset data op op' user user' k s :
  read_func (attr s) = None -> write_func (attr s) = None ->
  value_ok (attr s) -> zlen (value (attr s)) = value_len (attr s) ->
  0 <= offset -> data <> [] -> offset + zlen data <= 65535 -> 0 <= k <= 65535 ->
  exists s1 s2, gatt_db_attribute_write authorize junk offset data op user s = Some s1 /\
    gatt_db_attribute_read authorize k op' user' s1 = Some s2 /\
    value_len (attr s1) = Z.max (value_len (attr s)) (offset + zlen data) /\
    let v := take (Z.to_nat offset) (value (attr s)) ++ gap offset (attr s) ++ data ++
             drop (Z.to_nat (offset + zlen data)) (value (attr s)) in
    value (attr s1) = v /\
    log s2 = log s ++ [EWritten None user 0;
                       if zlen v <? k then ERead None user' BT_ATT_ERROR_INVALID_OFFSET []
                       else ERead None user' 0 (drop (Z.to_nat k) v)].
Proof.
  intros Hr Hw Hv Hz Ho Hd Hn Hk.
  destruct (write_value_stored offset data (attr s) Hv Hz Ho Hd Hn) as (A' & E & Hz' & Hlen & Hval).
  assert (Er : read_func A' = None) by by rewrite (write_value_funcs _ _ _ _ E).
  assert (Hl : zlen data =? 0 = false) by (apply Z.eqb_neq; intros E0%zlen_0_nil; done).
  unfold gatt_db_attribute_write. rewrite Hw, Hl, E. cbn [mbind option_bind].
  exists (emit (EWritten None user 0) (set_attr A' s)). rewrite <- Hval. cbn zeta.
  unfold gatt_db_attribute_read. cbn [attr emit set_attr log]. rewrite Er, Hz'.
  destruct (Z.ltb_spec (value_len A') k) as [Hlt|Hge].
  - eexists. split_and!; [done|done|exact Hlen|done|]. cbn [log emit set_attr]. by rewrite <- app_assoc.
  - assert (Ed : (if k =? value_len A' then Some [] else memread (value A') k (value_len A' - k))
                 = Some (drop (Z.to_nat k) (value A'))).
    { destruct (Z.eqb_spec k (value_len A')) as [->|n].
      - rewrite drop_ge; [done|]. unfold zlen in *. lia.
      - rewrite memread_Some by lia. f_equal. rewrite <- Hz'. apply slice_drop; lia. }
    rewrite Ed. cbn [mbind option_bind]. eexists. split_and!; [done|done|exact Hlen|done|].
    cbn [log emit set_attr]. by rewrite <- app_assoc.
Qed.

(** A write that ends at the 65536th byte leaves an empty value. *)
Lemma write_to_65536_empties authorize offset data op op' user user' s :
  read_func (attr s) = None -> write_func (attr s) = None -> value_ok (attr s) ->
  0 <= offset <= 65535 -> offset + zlen data = 65536 ->
  exists s1 s2, gatt_db_attribute_write authorize junk offset data op user s = Some s1 /\
    value_len (attr s1) = 0 /\
    gatt_db_attribute_read authorize 0 op' user' s1 = Some s2 /\
    log s2 = log s ++ [EWritten None user 0; ERead None user' 0 []].
Proof.
  intros Hr Hw Hv Ho Hn. destruct (write_value_total junk offset data (attr s) Hv Ho) as (A' & E & _ & _).
  pose proof (write_value_funcs _ _ _ _ E) as Er. rewrite Hr in Er.
  assert (El : value_len A' = 0).
  { unfold write_value in E. destruct Hv as [H1 H2].
    rewrite (proj2 (Z.ltb_lt (value_len (attr s) - offset) (zlen data))), orb_true_r in E by lia.
    destruct (value_len (attr s) =? 0); [destruct (memcpy_at _ 0 _); [|done]|]; cbn [mbind option_bind] in E;
      (destruct (memcpy_at _ offset _); [|done]); injection E as <-; cbn [value_len set_value];
      by replace (zlen data + offset) with 65536 by lia. }
  unfold gatt_db_attribute_write. rewrite Hw, (proj2 (Z.eqb_neq (zlen data) 0)) by lia.
  rewrite E. cbn [mbind option_bind].
  exists (emit (EWritten None user 0) (set_attr A' s)). unfold gatt_db_attribute_read.
  cbn [attr emit set_attr log]. rewrite Er, El. eexists. split_and!; [reflexivity|reflexivity|reflexivity|].
  cbn [log emit set_attr]. by rewrite <- app_assoc.
Qed.
End Values.

(** ** Witnesses *)

Definition demo_attr : gatt_db_attribute :=
  set_attribute_data (Some 1) (Some 2) 3 (new_attribute 5 (BT_UUID16 0x2A00) [1; 2]).
Definition demo_ops : list attr_op :=
  [ORead 0 10 100; OWrite 0 [7] 18 101; ORead 1 10 102; OReadResult 2 0 [9]; OTimer 1; OTimer 1; OReadResult 1 0 []].

Lemma attribute_answers_once_witness :
  zlen [1; 2] <= 65535 /\ Forall op_ok demo_ops /\
  exists s, attr_run None (fun _ => 0) demo_ops (attr_start demo_attr) = Some s /\ NoDup (accepted (log s)) /\
    answered (log s) = [3; 1] /\ keys (attr s) = [2].
Proof.
  assert (H : Forall op_ok demo_ops) by (repeat constructor; cbn; lia). split_and!; [done|done|].
  destruct (attribute_answers_once None (fun _ => 0) 5 (BT_UUID16 0x2A00) [1; 2] (Some 1) (Some 2) 3 demo_ops)
    as (s & E & Hn & _); [done|done|].
  exists s. split_and!; [exact E|done|..]; vm_compute in E; injection E as <-; done.
Defined.

Lemma write_then_read_witness :
  let A := set_attribute_data None None 3 (new_attribute 5 (BT_UUID16 0x2A00) [1; 2; 3]) in
  exists s1 s2, gatt_db_attribute_write None (fun i => 200 + i) 5 [8; 9] 18 100 (attr_start A) = Some s1 /\
    gatt_db_attribute_read None 2 10 101 s1 = Some s2 /\
    log s2 = [EWritten None 100 0; ERead None 101 0 [3; 203; 204; 8; 9]].
Proof.
  intros A. destruct (write_then_read (fun i => 200 + i) None 5 [8; 9] 18 10 100 101 2 (attr_start A))
    as (s1 & s2 & E1 & E2 & _ & _ & E3); try (cbn; lia); try done.
  exists s1, s2. split_and!; [exact E1|exact E2|]. rewrite E3. by vm_compute.
Defined.
