(* ===== verification/Att.v ===== *)
(** The ATT transport ([src/examples/gatt/src/shared/att.c]): channels, the queues
    of operations to send, the matching of responses and confirmations with the
    requests and indications that wait for them, timeouts, cancellation,
    disconnection and the handlers of incoming operations.

    Operations, channels and registrations live in heaps indexed by identity (the
    C pointers); queues are lists of identities ([Queue] proves the linked queues
    to refine lists).  Freeing removes the entry from its heap, so a use of a
    freed object is [None].  Client functions are named by integers; a call of
    one is recorded in [log] and followed by the calls [react] makes it issue, at
    the place where the C code calls it.  Destroy functions are recorded only.
    The result of system calls and of the signature functions are parameters. *)
From S2P Require Import Prelude.

(** ** Constants *)

Definition BT_ATT_SECURITY_AUTO : Z := 0.
Definition BT_ATT_SECURITY_LOW : Z := 1.
Definition BT_ATT_SECURITY_MEDIUM : Z := 2.
Definition BT_ATT_SECURITY_HIGH : Z := 3.
Definition BT_ATT_SECURITY_FIPS : Z := 4.
Definition BT_ATT_DEFAULT_LE_MTU : Z := 23.
Definition BT_ATT_BREDR : Z := 0x00.
Definition BT_ATT_LE : Z := 0x01.
Definition BT_ATT_EATT : Z := 0x02.
Definition BT_ATT_LOCAL : Z := 0xff.
Definition BT_ATT_OP_ERROR_RSP : Z := 0x01.
Definition BT_ATT_OP_MTU_REQ : Z := 0x02.
Definition BT_ATT_OP_MTU_RSP : Z := 0x03.
Definition BT_ATT_OP_FIND_INFO_REQ : Z := 0x04.
Definition BT_ATT_OP_FIND_INFO_RSP : Z := 0x05.
Definition BT_ATT_OP_FIND_BY_TYPE_REQ : Z := 0x06.
Definition BT_ATT_OP_FIND_BY_TYPE_RSP : Z := 0x07.
Definition BT_ATT_OP_READ_BY_TYPE_REQ : Z := 0x08.
Definition BT_ATT_OP_READ_BY_TYPE_RSP : Z := 0x09.
Definition BT_ATT_OP_READ_REQ : Z := 0x0a.
Definition BT_ATT_OP_READ_RSP : Z := 0x0b.
Definition BT_ATT_OP_READ_BLOB_REQ : Z := 0x0c.
Definition BT_ATT_OP_READ_BLOB_RSP : Z := 0x0d.
Definition BT_ATT_OP_READ_MULT_REQ : Z := 0x0e.
Definition BT_ATT_OP_READ_MULT_RSP : Z := 0x0f.
Definition BT_ATT_OP_READ_BY_GRP_TYPE_REQ : Z := 0x10.
Definition BT_ATT_OP_READ_BY_GRP_TYPE_RSP : Z := 0x11.
Definition BT_ATT_OP_WRITE_REQ : Z := 0x12.
Definition BT_ATT_OP_WRITE_RSP : Z := 0x13.
Definition BT_ATT_OP_WRITE_CMD : Z := 0x52.
Definition BT_ATT_OP_SIGNED_WRITE_CMD : Z := 0xD2.
Definition BT_ATT_OP_PREP_WRITE_REQ : Z := 0x16.
Definition BT_ATT_OP_PREP_WRITE_RSP : Z := 0x17.
Definition BT_ATT_OP_EXEC_WRITE_REQ : Z := 0x18.
Definition BT_ATT_OP_EXEC_WRITE_RSP : Z := 0x19.
Definition BT_ATT_OP_HANDLE_NFY : Z := 0x1B.
Definition BT_ATT_OP_HANDLE_IND : Z := 0x1D.
Definition BT_ATT_OP_HANDLE_CONF : Z := 0x1E.
Definition BT_ATT_OP_READ_MULT_VL_REQ : Z := 0x20.
Definition BT_ATT_OP_READ_MULT_VL_RSP : Z := 0x21.
Definition BT_ATT_OP_HANDLE_NFY_MULT : Z := 0x23.
Definition BT_ATT_ALL_REQUESTS : Z := 0x00.
Definition BT_ATT_ERROR_INVALID_HANDLE : Z := 0x01.
Definition BT_ATT_ERROR_AUTHENTICATION : Z := 0x05.
Definition BT_ATT_ERROR_REQUEST_NOT_SUPPORTED : Z := 0x06.
Definition BT_ATT_ERROR_UNLIKELY : Z := 0x0E.
Definition BT_ATT_ERROR_INSUFFICIENT_ENCRYPTION : Z := 0x0F.
Definition BT_ATT_ERROR_INSUFFICIENT_RESOURCES : Z := 0x11.
Definition BT_ERROR_ALREADY_IN_PROGRESS : Z := 0xfe.
Definition BT_ERROR_OUT_OF_RANGE : Z := 0xff.
Definition ATT_MIN_PDU_LEN : Z := 1.
Definition ATT_OP_CMD_MASK : Z := 0x40.
Definition ATT_OP_SIGNED_MASK : Z := 0x80.
Definition BT_ATT_SIGNATURE_LEN : Z := 12.
Definition UINT8_MAX : Z := 255.
Definition ENOENT : Z := 2.
Definition EIO : Z := 5.
Definition ENOMEM : Z := 12.
Definition EINVAL : Z := 22.
Definition EOVERFLOW : Z := 75.
Definition ENOTCONN : Z := 107.
Definition EALREADY : Z := 114.

(** ** Opcodes *)

Inductive att_op_type :=
| ATT_OP_TYPE_REQ
| ATT_OP_TYPE_RSP
| ATT_OP_TYPE_CMD
| ATT_OP_TYPE_IND
| ATT_OP_TYPE_NFY
| ATT_OP_TYPE_CONF
| ATT_OP_TYPE_UNKNOWN.

#[export] Instance att_op_type_eq_dec : EqDecision att_op_type.
Proof. solve_decision. Defined.

Definition att_opcode_type_table : list (Z * att_op_type) := [
  (BT_ATT_OP_ERROR_RSP, ATT_OP_TYPE_RSP);
  (BT_ATT_OP_MTU_REQ, ATT_OP_TYPE_REQ);
  (BT_ATT_OP_MTU_RSP, ATT_OP_TYPE_RSP);
  (BT_ATT_OP_FIND_INFO_REQ, ATT_OP_TYPE_REQ);
  (BT_ATT_OP_FIND_INFO_RSP, ATT_OP_TYPE_RSP);
  (BT_ATT_OP_FIND_BY_TYPE_REQ, ATT_OP_TYPE_REQ);
  (BT_ATT_OP_FIND_BY_TYPE_RSP, ATT_OP_TYPE_RSP);
  (BT_ATT_OP_READ_BY_TYPE_REQ, ATT_OP_TYPE_REQ);
  (BT_ATT_OP_READ_BY_TYPE_RSP, ATT_OP_TYPE_RSP);
  (BT_ATT_OP_READ_REQ, ATT_OP_TYPE_REQ);
  (BT_ATT_OP_READ_RSP, ATT_OP_TYPE_RSP);
  (BT_ATT_OP_READ_BLOB_REQ, ATT_OP_TYPE_REQ);
  (BT_ATT_OP_READ_BLOB_RSP, ATT_OP_TYPE_RSP);
  (BT_ATT_OP_READ_MULT_REQ, ATT_OP_TYPE_REQ);
  (BT_ATT_OP_READ_MULT_RSP, ATT_OP_TYPE_RSP);
  (BT_ATT_OP_READ_BY_GRP_TYPE_REQ, ATT_OP_TYPE_REQ);
  (BT_ATT_OP_READ_BY_GRP_TYPE_RSP, ATT_OP_TYPE_RSP);
  (BT_ATT_OP_WRITE_REQ, ATT_OP_TYPE_REQ);
  (BT_ATT_OP_WRITE_RSP, ATT_OP_TYPE_RSP);
  (BT_ATT_OP_WRITE_CMD, ATT_OP_TYPE_CMD);
  (BT_ATT_OP_SIGNED_WRITE_CMD, ATT_OP_TYPE_CMD);
  (BT_ATT_OP_PREP_WRITE_REQ, ATT_OP_TYPE_REQ);
  (BT_ATT_OP_PREP_WRITE_RSP, ATT_OP_TYPE_RSP);
  (BT_ATT_OP_EXEC_WRITE_REQ, ATT_OP_TYPE_REQ);
  (BT_ATT_OP_EXEC_WRITE_RSP, ATT_OP_TYPE_RSP);
  (BT_ATT_OP_HANDLE_NFY, ATT_OP_TYPE_NFY);
  (BT_ATT_OP_HANDLE_NFY_MULT, ATT_OP_TYPE_NFY);
  (BT_ATT_OP_HANDLE_IND, ATT_OP_TYPE_IND);
  (BT_ATT_OP_HANDLE_CONF, ATT_OP_TYPE_CONF) ].

Definition get_op_type (opcode : Z) : att_op_type :=
  match list_find (fun e => e.1 = opcode) att_opcode_type_table with
  | Some (_, (_, t)) => t
  | None => if negb (Z.land opcode ATT_OP_CMD_MASK =? 0) then ATT_OP_TYPE_CMD
            else ATT_OP_TYPE_UNKNOWN
  end.

Definition att_req_rsp_mapping_table : list (Z * Z) := [
  (BT_ATT_OP_MTU_REQ, BT_ATT_OP_MTU_RSP);
  (BT_ATT_OP_FIND_INFO_REQ, BT_ATT_OP_FIND_INFO_RSP);
  (BT_ATT_OP_FIND_BY_TYPE_REQ, BT_ATT_OP_FIND_BY_TYPE_RSP);
  (BT_ATT_OP_READ_BY_TYPE_REQ, BT_ATT_OP_READ_BY_TYPE_RSP);
  (BT_ATT_OP_READ_REQ, BT_ATT_OP_READ_RSP);
  (BT_ATT_OP_READ_BLOB_REQ, BT_ATT_OP_READ_BLOB_RSP);
  (BT_ATT_OP_READ_MULT_REQ, BT_ATT_OP_READ_MULT_RSP);
  (BT_ATT_OP_READ_BY_GRP_TYPE_REQ, BT_ATT_OP_READ_BY_GRP_TYPE_RSP);
  (BT_ATT_OP_WRITE_REQ, BT_ATT_OP_WRITE_RSP);
  (BT_ATT_OP_PREP_WRITE_REQ, BT_ATT_OP_PREP_WRITE_RSP);
  (BT_ATT_OP_EXEC_WRITE_REQ, BT_ATT_OP_EXEC_WRITE_RSP) ].

Definition get_req_opcode (rsp_opcode : Z) : Z :=
  match list_find (fun e => e.2 = rsp_opcode) att_req_rsp_mapping_table with
  | Some (_, (req, _)) => req
  | None => 0
  end.

(** ** Data *)

Record att_send_op := mkOp {
  op_id : Z;
  op_timeout_id : option positive;
  op_type : att_op_type;
  op_opcode : Z;
  op_pdu : list Z;
  op_len : Z;
  op_callback : option Z;
  op_destroy : option Z;
  op_user_data : Z
}.

Definition set_op_id (x : Z) (op : att_send_op) : att_send_op :=
  mkOp x (op_timeout_id op) (op_type op) (op_opcode op) (op_pdu op) (op_len op) (op_callback op) (op_destroy op) (op_user_data op).
Definition set_op_timeout_id (x : option positive) (op : att_send_op) : att_send_op :=
  mkOp (op_id op) x (op_type op) (op_opcode op) (op_pdu op) (op_len op) (op_callback op) (op_destroy op) (op_user_data op).
Definition set_op_type (x : att_op_type) (op : att_send_op) : att_send_op :=
  mkOp (op_id op) (op_timeout_id op) x (op_opcode op) (op_pdu op) (op_len op) (op_callback op) (op_destroy op) (op_user_data op).
Definition set_op_opcode (x : Z) (op : att_send_op) : att_send_op :=
  mkOp (op_id op) (op_timeout_id op) (op_type op) x (op_pdu op) (op_len op) (op_callback op) (op_destroy op) (op_user_data op).
Definition set_op_pdu (x : list Z) (op : att_send_op) : att_send_op :=
  mkOp (op_id op) (op_timeout_id op) (op_type op) (op_opcode op) x (op_len op) (op_callback op) (op_destroy op) (op_user_data op).
Definition set_op_len (x : Z) (op : att_send_op) : att_send_op :=
  mkOp (op_id op) (op_timeout_id op) (op_type op) (op_opcode op) (op_pdu op) x (op_callback op) (op_destroy op) (op_user_data op).
Definition set_op_callback (x : option Z) (op : att_send_op) : att_send_op :=
  mkOp (op_id op) (op_timeout_id op) (op_type op) (op_opcode op) (op_pdu op) (op_len op) x (op_destroy op) (op_user_data op).
Definition set_op_destroy (x : option Z) (op : att_send_op) : att_send_op :=
  mkOp (op_id op) (op_timeout_id op) (op_type op) (op_opcode op) (op_pdu op) (op_len op) (op_callback op) x (op_user_data op).
Definition set_op_user_data (x : Z) (op : att_send_op) : att_send_op :=
  mkOp (op_id op) (op_timeout_id op) (op_type op) (op_opcode op) (op_pdu op) (op_len op) (op_callback op) (op_destroy op) x.

Record bt_att_chan := mkChan {
  c_fd : Z;
  c_type : Z;
  c_sec_level : Z;
  c_queue : list positive;
  pending_req : option positive;
  pending_ind : option positive;
  writer_active : bool;
  in_req : bool;
  c_mtu : Z;
  c_reading : bool;
  c_shut : bool;
  c_close : bool;
  c_buf : Z                              (* which buffer: how many there were before *)
}.

Definition set_c_fd (x : Z) (c : bt_att_chan) : bt_att_chan :=
  mkChan x (c_type c) (c_sec_level c) (c_queue c) (pending_req c) (pending_ind c) (writer_active c) (in_req c) (c_mtu c) (c_reading c) (c_shut c) (c_close c) (c_buf c).
Definition set_c_type (x : Z) (c : bt_att_chan) : bt_att_chan :=
  mkChan (c_fd c) x (c_sec_level c) (c_queue c) (pending_req c) (pending_ind c) (writer_active c) (in_req c) (c_mtu c) (c_reading c) (c_shut c) (c_close c) (c_buf c).
Definition set_c_sec_level (x : Z) (c : bt_att_chan) : bt_att_chan :=
  mkChan (c_fd c) (c_type c) x (c_queue c) (pending_req c) (pending_ind c) (writer_active c) (in_req c) (c_mtu c) (c_reading c) (c_shut c) (c_close c) (c_buf c).
Definition set_c_queue (x : list positive) (c : bt_att_chan) : bt_att_chan :=
  mkChan (c_fd c) (c_type c) (c_sec_level c) x (pending_req c) (pending_ind c) (writer_active c) (in_req c) (c_mtu c) (c_reading c) (c_shut c) (c_close c) (c_buf c).
Definition set_pending_req (x : option positive) (c : bt_att_chan) : bt_att_chan :=
  mkChan (c_fd c) (c_type c) (c_sec_level c) (c_queue c) x (pending_ind c) (writer_active c) (in_req c) (c_mtu c) (c_reading c) (c_shut c) (c_close c) (c_buf c).
Definition set_pending_ind (x : option positive) (c : bt_att_chan) : bt_att_chan :=
  mkChan (c_fd c) (c_type c) (c_sec_level c) (c_queue c) (pending_req c) x (writer_active c) (in_req c) (c_mtu c) (c_reading c) (c_shut c) (c_close c) (c_buf c).
Definition set_writer_active (x : bool) (c : bt_att_chan) : bt_att_chan :=
  mkChan (c_fd c) (c_type c) (c_sec_level c) (c_queue c) (pending_req c) (pending_ind c) x (in_req c) (c_mtu c) (c_reading c) (c_shut c) (c_close c) (c_buf c).
Definition set_in_req (x : bool) (c : bt_att_chan) : bt_att_chan :=
  mkChan (c_fd c) (c_type c) (c_sec_level c) (c_queue c) (pending_req c) (pending_ind c) (writer_active c) x (c_mtu c) (c_reading c) (c_shut c) (c_close c) (c_buf c).
Definition set_c_mtu (x : Z) (c : bt_att_chan) : bt_att_chan :=
  mkChan (c_fd c) (c_type c) (c_sec_level c) (c_queue c) (pending_req c) (pending_ind c) (writer_active c) (in_req c) x (c_reading c) (c_shut c) (c_close c) (c_buf c).
Definition set_c_reading (x : bool) (c : bt_att_chan) : bt_att_chan :=
  mkChan (c_fd c) (c_type c) (c_sec_level c) (c_queue c) (pending_req c) (pending_ind c) (writer_active c) (in_req c) (c_mtu c) x (c_shut c) (c_close c) (c_buf c).
Definition set_c_shut (x : bool) (c : bt_att_chan) : bt_att_chan :=
  mkChan (c_fd c) (c_type c) (c_sec_level c) (c_queue c) (pending_req c) (pending_ind c) (writer_active c) (in_req c) (c_mtu c) (c_reading c) x (c_close c) (c_buf c).
Definition set_c_close (x : bool) (c : bt_att_chan) : bt_att_chan :=
  mkChan (c_fd c) (c_type c) (c_sec_level c) (c_queue c) (pending_req c) (pending_ind c) (writer_active c) (in_req c) (c_mtu c) (c_reading c) (c_shut c) x (c_buf c).
Definition set_c_buf (x : Z) (c : bt_att_chan) : bt_att_chan :=
  mkChan (c_fd c) (c_type c) (c_sec_level c) (c_queue c) (pending_req c) (pending_ind c) (writer_active c) (in_req c) (c_mtu c) (c_reading c) (c_shut c) (c_close c) x.

Record att_notify := mkAttNotify {
  n_id : Z;
  n_opcode : Z;
  n_callback : Z;
  n_destroy : option Z;
  n_user_data : Z
}.

Record att_disconn := mkDisconn {
  d_id : Z;
  d_removed : bool;
  d_callback : option Z;
  d_destroy : option Z;
  d_user_data : Z
}.

Record sign_info := mkSign { s_key : list Z; s_counter : Z; s_user_data : Z }.

(** What the transport does to the outside: PDUs written, client functions
    called, functions of the kernel with a visible effect.  [LCreated],
    [LCancelled] record when an operation was accepted and cancelled. *)
Inductive att_event :=
| LCreated (o : positive) (t : att_op_type)
| LSent (ch o : positive) (pdu : list Z) (ret : Z)
| LResponse (o : positive) (callback user : Z) (rsp_opcode : Z) (pdu : list Z)
| LDestroy (o : positive) (destroy user : Z)
| LCancelled (o : positive)
| LTimeout (callback : Z) (id opcode : Z) (user : Z)
| LNotify (n : positive) (callback user : Z) (ch : positive) (opcode : Z) (pdu : list Z)
| LNotifyDestroy (n : positive)
| LDisconn (d : positive) (callback user : Z) (err : Z)
| LDisconnDestroy (d : positive)
| LUserDestroy (destroy user : Z)
| LShutdown (ch : positive).

Record bt_att := mkAtt {
  ref_count : Z;
  close_on_unref : bool;
  chans : list positive;
  chan_heap : gmap positive bt_att_chan;
  enc_size : Z;
  mtu : Z;
  notify_list : list positive;
  notify_heap : gmap positive att_notify;
  disconn_list : list positive;
  disconn_heap : gmap positive att_disconn;
  next_send_id : Z;
  next_reg_id : Z;
  req_queue : list positive;
  ind_queue : list positive;
  write_queue : list positive;
  in_disc : bool;
  timeout_callback : option Z;
  timeout_destroy : option Z;
  timeout_data : Z;
  debug_destroy : option Z;
  debug_data : Z;
  crypto : bool;
  local_sign : option sign_info;
  remote_sign : option sign_info;
  op_heap : gmap positive att_send_op;
  next_ptr : positive;
  timers : gmap positive (positive * Z);
  freed : bool;
  log : list att_event
}.

Definition set_ref_count (x : Z) (s : bt_att) : bt_att :=
  mkAtt x (close_on_unref s) (chans s) (chan_heap s) (enc_size s) (mtu s) (notify_list s) (notify_heap s) (disconn_list s) (disconn_heap s) (next_send_id s) (next_reg_id s) (req_queue s) (ind_queue s) (write_queue s) (in_disc s) (timeout_callback s) (timeout_destroy s) (timeout_data s) (debug_destroy s) (debug_data s) (crypto s) (local_sign s) (remote_sign s) (op_heap s) (next_ptr s) (timers s) (freed s) (log s).
Definition set_close_on_unref (x : bool) (s : bt_att) : bt_att :=
  mkAtt (ref_count s) x (chans s) (chan_heap s) (enc_size s) (mtu s) (notify_list s) (notify_heap s) (disconn_list s) (disconn_heap s) (next_send_id s) (next_reg_id s) (req_queue s) (ind_queue s) (write_queue s) (in_disc s) (timeout_callback s) (timeout_destroy s) (timeout_data s) (debug_destroy s) (debug_data s) (crypto s) (local_sign s) (remote_sign s) (op_heap s) (next_ptr s) (timers s) (freed s) (log s).
Definition set_chans (x : list positive) (s : bt_att) : bt_att :=
  mkAtt (ref_count s) (close_on_unref s) x (chan_heap s) (enc_size s) (mtu s) (notify_list s) (notify_heap s) (disconn_list s) (disconn_heap s) (next_send_id s) (next_reg_id s) (req_queue s) (ind_queue s) (write_queue s) (in_disc s) (timeout_callback s) (timeout_destroy s) (timeout_data s) (debug_destroy s) (debug_data s) (crypto s) (local_sign s) (remote_sign s) (op_heap s) (next_ptr s) (timers s) (freed s) (log s).
Definition set_chan_heap (x : gmap positive bt_att_chan) (s : bt_att) : bt_att :=
  mkAtt (ref_count s) (close_on_unref s) (chans s) x (enc_size s) (mtu s) (notify_list s) (notify_heap s) (disconn_list s) (disconn_heap s) (next_send_id s) (next_reg_id s) (req_queue s) (ind_queue s) (write_queue s) (in_disc s) (timeout_callback s) (timeout_destroy s) (timeout_data s) (debug_destroy s) (debug_data s) (crypto s) (local_sign s) (remote_sign s) (op_heap s) (next_ptr s) (timers s) (freed s) (log s).
Definition set_enc_size (x : Z) (s : bt_att) : bt_att :=
  mkAtt (ref_count s) (close_on_unref s) (chans s) (chan_heap s) x (mtu s) (notify_list s) (notify_heap s) (disconn_list s) (disconn_heap s) (next_send_id s) (next_reg_id s) (req_queue s) (ind_queue s) (write_queue s) (in_disc s) (timeout_callback s) (timeout_destroy s) (timeout_data s) (debug_destroy s) (debug_data s) (crypto s) (local_sign s) (remote_sign s) (op_heap s) (next_ptr s) (timers s) (freed s) (log s).
Definition set_mtu (x : Z) (s : bt_att) : bt_att :=
  mkAtt (ref_count s) (close_on_unref s) (chans s) (chan_heap s) (enc_size s) x (notify_list s) (notify_heap s) (disconn_list s) (disconn_heap s) (next_send_id s) (next_reg_id s) (req_queue s) (ind_queue s) (write_queue s) (in_disc s) (timeout_callback s) (timeout_destroy s) (timeout_data s) (debug_destroy s) (debug_data s) (crypto s) (local_sign s) (remote_sign s) (op_heap s) (next_ptr s) (timers s) (freed s) (log s).
Definition set_notify_list (x : list positive) (s : bt_att) : bt_att :=
  mkAtt (ref_count s) (close_on_unref s) (chans s) (chan_heap s) (enc_size s) (mtu s) x (notify_heap s) (disconn_list s) (disconn_heap s) (next_send_id s) (next_reg_id s) (req_queue s) (ind_queue s) (write_queue s) (in_disc s) (timeout_callback s) (timeout_destroy s) (timeout_data s) (debug_destroy s) (debug_data s) (crypto s) (local_sign s) (remote_sign s) (op_heap s) (next_ptr s) (timers s) (freed s) (log s).
Definition set_notify_heap (x : gmap positive att_notify) (s : bt_att) : bt_att :=
  mkAtt (ref_count s) (close_on_unref s) (chans s) (chan_heap s) (enc_size s) (mtu s) (notify_list s) x (disconn_list s) (disconn_heap s) (next_send_id s) (next_reg_id s) (req_queue s) (ind_queue s) (write_queue s) (in_disc s) (timeout_callback s) (timeout_destroy s) (timeout_data s) (debug_destroy s) (debug_data s) (crypto s) (local_sign s) (remote_sign s) (op_heap s) (next_ptr s) (timers s) (freed s) (log s).
Definition set_disconn_list (x : list positive) (s : bt_att) : bt_att :=
  mkAtt (ref_count s) (close_on_unref s) (chans s) (chan_heap s) (enc_size s) (mtu s) (notify_list s) (notify_heap s) x (disconn_heap s) (next_send_id s) (next_reg_id s) (req_queue s) (ind_queue s) (write_queue s) (in_disc s) (timeout_callback s) (timeout_destroy s) (timeout_data s) (debug_destroy s) (debug_data s) (crypto s) (local_sign s) (remote_sign s) (op_heap s) (next_ptr s) (timers s) (freed s) (log s).
Definition set_disconn_heap (x : gmap positive att_disconn) (s : bt_att) : bt_att :=
  mkAtt (ref_count s) (close_on_unref s) (chans s) (chan_heap s) (enc_size s) (mtu s) (notify_list s) (notify_heap s) (disconn_list s) x (next_send_id s) (next_reg_id s) (req_queue s) (ind_queue s) (write_queue s) (in_disc s) (timeout_callback s) (timeout_destroy s) (timeout_data s) (debug_destroy s) (debug_data s) (crypto s) (local_sign s) (remote_sign s) (op_heap s) (next_ptr s) (timers s) (freed s) (log s).
Definition set_next_send_id (x : Z) (s : bt_att) : bt_att :=
  mkAtt (ref_count s) (close_on_unref s) (chans s) (chan_heap s) (enc_size s) (mtu s) (notify_list s) (notify_heap s) (disconn_list s) (disconn_heap s) x (next_reg_id s) (req_queue s) (ind_queue s) (write_queue s) (in_disc s) (timeout_callback s) (timeout_destroy s) (timeout_data s) (debug_destroy s) (debug_data s) (crypto s) (local_sign s) (remote_sign s) (op_heap s) (next_ptr s) (timers s) (freed s) (log s).
Definition set_next_reg_id (x : Z) (s : bt_att) : bt_att :=
  mkAtt (ref_count s) (close_on_unref s) (chans s) (chan_heap s) (enc_size s) (mtu s) (notify_list s) (notify_heap s) (disconn_list s) (disconn_heap s) (next_send_id s) x (req_queue s) (ind_queue s) (write_queue s) (in_disc s) (timeout_callback s) (timeout_destroy s) (timeout_data s) (debug_destroy s) (debug_data s) (crypto s) (local_sign s) (remote_sign s) (op_heap s) (next_ptr s) (timers s) (freed s) (log s).
Definition set_req_queue (x : list positive) (s : bt_att) : bt_att :=
  mkAtt (ref_count s) (close_on_unref s) (chans s) (chan_heap s) (enc_size s) (mtu s) (notify_list s) (notify_heap s) (disconn_list s) (disconn_heap s) (next_send_id s) (next_reg_id s) x (ind_queue s) (write_queue s) (in_disc s) (timeout_callback s) (timeout_destroy s) (timeout_data s) (debug_destroy s) (debug_data s) (crypto s) (local_sign s) (remote_sign s) (op_heap s) (next_ptr s) (timers s) (freed s) (log s).
Definition set_ind_queue (x : list positive) (s : bt_att) : bt_att :=
  mkAtt (ref_count s) (close_on_unref s) (chans s) (chan_heap s) (enc_size s) (mtu s) (notify_list s) (notify_heap s) (disconn_list s) (disconn_heap s) (next_send_id s) (next_reg_id s) (req_queue s) x (write_queue s) (in_disc s) (timeout_callback s) (timeout_destroy s) (timeout_data s) (debug_destroy s) (debug_data s) (crypto s) (local_sign s) (remote_sign s) (op_heap s) (next_ptr s) (timers s) (freed s) (log s).
Definition set_write_queue (x : list positive) (s : bt_att) : bt_att :=
  mkAtt (ref_count s) (close_on_unref s) (chans s) (chan_heap s) (enc_size s) (mtu s) (notify_list s) (notify_heap s) (disconn_list s) (disconn_heap s) (next_send_id s) (next_reg_id s) (req_queue s) (ind_queue s) x (in_disc s) (timeout_callback s) (timeout_destroy s) (timeout_data s) (debug_destroy s) (debug_data s) (crypto s) (local_sign s) (remote_sign s) (op_heap s) (next_ptr s) (timers s) (freed s) (log s).
Definition set_in_disc (x : bool) (s : bt_att) : bt_att :=
  mkAtt (ref_count s) (close_on_unref s) (chans s) (chan_heap s) (enc_size s) (mtu s) (notify_list s) (notify_heap s) (disconn_list s) (disconn_heap s) (next_send_id s) (next_reg_id s) (req_queue s) (ind_queue s) (write_queue s) x (timeout_callback s) (timeout_destroy s) (timeout_data s) (debug_destroy s) (debug_data s) (crypto s) (local_sign s) (remote_sign s) (op_heap s) (next_ptr s) (timers s) (freed s) (log s).
Definition set_timeout_callback (x : option Z) (s : bt_att) : bt_att :=
  mkAtt (ref_count s) (close_on_unref s) (chans s) (chan_heap s) (enc_size s) (mtu s) (notify_list s) (notify_heap s) (disconn_list s) (disconn_heap s) (next_send_id s) (next_reg_id s) (req_queue s) (ind_queue s) (write_queue s) (in_disc s) x (timeout_destroy s) (timeout_data s) (debug_destroy s) (debug_data s) (crypto s) (local_sign s) (remote_sign s) (op_heap s) (next_ptr s) (timers s) (freed s) (log s).
Definition set_timeout_destroy (x : option Z) (s : bt_att) : bt_att :=
  mkAtt (ref_count s) (close_on_unref s) (chans s) (chan_heap s) (enc_size s) (mtu s) (notify_list s) (notify_heap s) (disconn_list s) (disconn_heap s) (next_send_id s) (next_reg_id s) (req_queue s) (ind_queue s) (write_queue s) (in_disc s) (timeout_callback s) x (timeout_data s) (debug_destroy s) (debug_data s) (crypto s) (local_sign s) (remote_sign s) (op_heap s) (next_ptr s) (timers s) (freed s) (log s).
Definition set_timeout_data (x : Z) (s : bt_att) : bt_att :=
  mkAtt (ref_count s) (close_on_unref s) (chans s) (chan_heap s) (enc_size s) (mtu s) (notify_list s) (notify_heap s) (disconn_list s) (disconn_heap s) (next_send_id s) (next_reg_id s) (req_queue s) (ind_queue s) (write_queue s) (in_disc s) (timeout_callback s) (timeout_destroy s) x (debug_destroy s) (debug_data s) (crypto s) (local_sign s) (remote_sign s) (op_heap s) (next_ptr s) (timers s) (freed s) (log s).
Definition set_debug_destroy (x : option Z) (s : bt_att) : bt_att :=
  mkAtt (ref_count s) (close_on_unref s) (chans s) (chan_heap s) (enc_size s) (mtu s) (notify_list s) (notify_heap s) (disconn_list s) (disconn_heap s) (next_send_id s) (next_reg_id s) (req_queue s) (ind_queue s) (write_queue s) (in_disc s) (timeout_callback s) (timeout_destroy s) (timeout_data s) x (debug_data s) (crypto s) (local_sign s) (remote_sign s) (op_heap s) (next_ptr s) (timers s) (freed s) (log s).
Definition set_debug_data (x : Z) (s : bt_att) : bt_att :=
  mkAtt (ref_count s) (close_on_unref s) (chans s) (chan_heap s) (enc_size s) (mtu s) (notify_list s) (notify_heap s) (disconn_list s) (disconn_heap s) (next_send_id s) (next_reg_id s) (req_queue s) (ind_queue s) (write_queue s) (in_disc s) (timeout_callback s) (timeout_destroy s) (timeout_data s) (debug_destroy s) x (crypto s) (local_sign s) (remote_sign s) (op_heap s) (next_ptr s) (timers s) (freed s) (log s).
Definition set_crypto (x : bool) (s : bt_att) : bt_att :=
  mkAtt (ref_count s) (close_on_unref s) (chans s) (chan_heap s) (enc_size s) (mtu s) (notify_list s) (notify_heap s) (disconn_list s) (disconn_heap s) (next_send_id s) (next_reg_id s) (req_queue s) (ind_queue s) (write_queue s) (in_disc s) (timeout_callback s) (timeout_destroy s) (timeout_data s) (debug_destroy s) (debug_data s) x (local_sign s) (remote_sign s) (op_heap s) (next_ptr s) (timers s) (freed s) (log s).
Definition set_local_sign (x : option sign_info) (s : bt_att) : bt_att :=
  mkAtt (ref_count s) (close_on_unref s) (chans s) (chan_heap s) (enc_size s) (mtu s) (notify_list s) (notify_heap s) (disconn_list s) (disconn_heap s) (next_send_id s) (next_reg_id s) (req_queue s) (ind_queue s) (write_queue s) (in_disc s) (timeout_callback s) (timeout_destroy s) (timeout_data s) (debug_destroy s) (debug_data s) (crypto s) x (remote_sign s) (op_heap s) (next_ptr s) (timers s) (freed s) (log s).
Definition set_remote_sign (x : option sign_info) (s : bt_att) : bt_att :=
  mkAtt (ref_count s) (close_on_unref s) (chans s) (chan_heap s) (enc_size s) (mtu s) (notify_list s) (notify_heap s) (disconn_list s) (disconn_heap s) (next_send_id s) (next_reg_id s) (req_queue s) (ind_queue s) (write_queue s) (in_disc s) (timeout_callback s) (timeout_destroy s) (timeout_data s) (debug_destroy s) (debug_data s) (crypto s) (local_sign s) x (op_heap s) (next_ptr s) (timers s) (freed s) (log s).
Definition set_op_heap (x : gmap positive att_send_op) (s : bt_att) : bt_att :=
  mkAtt (ref_count s) (close_on_unref s) (chans s) (chan_heap s) (enc_size s) (mtu s) (notify_list s) (notify_heap s) (disconn_list s) (disconn_heap s) (next_send_id s) (next_reg_id s) (req_queue s) (ind_queue s) (write_queue s) (in_disc s) (timeout_callback s) (timeout_destroy s) (timeout_data s) (debug_destroy s) (debug_data s) (crypto s) (local_sign s) (remote_sign s) x (next_ptr s) (timers s) (freed s) (log s).
Definition set_next_ptr (x : positive) (s : bt_att) : bt_att :=
  mkAtt (ref_count s) (close_on_unref s) (chans s) (chan_heap s) (enc_size s) (mtu s) (notify_list s) (notify_heap s) (disconn_list s) (disconn_heap s) (next_send_id s) (next_reg_id s) (req_queue s) (ind_queue s) (write_queue s) (in_disc s) (timeout_callback s) (timeout_destroy s) (timeout_data s) (debug_destroy s) (debug_data s) (crypto s) (local_sign s) (remote_sign s) (op_heap s) x (timers s) (freed s) (log s).
Definition set_timers (x : gmap positive (positive * Z)) (s : bt_att) : bt_att :=
  mkAtt (ref_count s) (close_on_unref s) (chans s) (chan_heap s) (enc_size s) (mtu s) (notify_list s) (notify_heap s) (disconn_list s) (disconn_heap s) (next_send_id s) (next_reg_id s) (req_queue s) (ind_queue s) (write_queue s) (in_disc s) (timeout_callback s) (timeout_destroy s) (timeout_data s) (debug_destroy s) (debug_data s) (crypto s) (local_sign s) (remote_sign s) (op_heap s) (next_ptr s) x (freed s) (log s).
Definition set_freed (x : bool) (s : bt_att) : bt_att :=
  mkAtt (ref_count s) (close_on_unref s) (chans s) (chan_heap s) (enc_size s) (mtu s) (notify_list s) (notify_heap s) (disconn_list s) (disconn_heap s) (next_send_id s) (next_reg_id s) (req_queue s) (ind_queue s) (write_queue s) (in_disc s) (timeout_callback s) (timeout_destroy s) (timeout_data s) (debug_destroy s) (debug_data s) (crypto s) (local_sign s) (remote_sign s) (op_heap s) (next_ptr s) (timers s) x (log s).
Definition set_log (x : list att_event) (s : bt_att) : bt_att :=
  mkAtt (ref_count s) (close_on_unref s) (chans s) (chan_heap s) (enc_size s) (mtu s) (notify_list s) (notify_heap s) (disconn_list s) (disconn_heap s) (next_send_id s) (next_reg_id s) (req_queue s) (ind_queue s) (write_queue s) (in_disc s) (timeout_callback s) (timeout_destroy s) (timeout_data s) (debug_destroy s) (debug_data s) (crypto s) (local_sign s) (remote_sign s) (op_heap s) (next_ptr s) (timers s) (freed s) x.

Definition isSome {A} (x : option A) : bool := if x is Some _ then true else false.
Definition isNil {A} (l : list A) : bool := if l is [] then true else false.

(** [*p] for an object in a heap, and assignments through such a pointer. *)
Definition set_op (o : positive) (op : att_send_op) (s : bt_att) : bt_att :=
  set_op_heap (<[o := op]> (op_heap s)) s.
Definition set_chan (ch : positive) (c : bt_att_chan) (s : bt_att) : bt_att :=
  set_chan_heap (<[ch := c]> (chan_heap s)) s.
Definition upd_chan (ch : positive) (f : bt_att_chan -> bt_att_chan) (s : bt_att) : option bt_att :=
  c ← chan_heap s !! ch; Some (set_chan ch (f c) s).
Definition add_log (e : att_event) (s : bt_att) : bt_att := set_log (log s ++ [e]) s.

(** [queue_remove]: the first entry for [o]. *)
Fixpoint remove_one (o : positive) (l : list positive) : list positive :=
  match l with
  | [] => []
  | x :: l' => if decide (x = o) then l' else x :: remove_one o l'
  end.

(** A loop over the entries of a queue. *)
Fixpoint for_each (f : positive -> bt_att -> option bt_att) (l : list positive) (s : bt_att)
  : option bt_att :=
  match l with
  | [] => Some s
  | x :: l' => s ← f x s; for_each f l' s
  end.

(** ** Calls that invoke no client function except destroy functions *)

(** The calls a client can make from its functions. *)
Inductive att_call :=
| CSend (opcode : Z) (pdu : option (list Z)) (length : Z) (callback : option Z) (user : Z)
    (destroy : option Z)
| CChanSend (ch : positive) (opcode : Z) (pdu : option (list Z)) (length : Z)
    (callback : option Z) (user : Z) (destroy : option Z)
| CCancel (id : Z)
| CChanCancel (ch : positive) (id : Z)
| CCancelAll
| CSendError (ch : positive) (opcode handle error : Z)
| CRegister (opcode callback user : Z) (destroy : option Z)
| CUnregister (id : Z)
| CRegisterDisconnect (callback : option Z) (user : Z) (destroy : option Z)
| CUnregisterDisconnect (id : Z)
| CSetMtu (mtu : Z)
| CSetTimeoutCb (callback : option Z) (user : Z) (destroy : option Z)
| CSetDebug (user : Z) (destroy : option Z)
| CSetCloseOnUnref (do_close : bool)
| CSetEncKeySize (size : Z)
| CSetLocalKey (key : list Z) (func user : Z)
| CSetRemoteKey (key : list Z) (func user : Z).

Section Att.

(** The byte [malloc] leaves in a new buffer; the signature functions of
    crypto.c (they ask the kernel); the counters of the clients
    ([counter func user_data value]); the calls a client function makes. *)
Context (junk : Z)
        (sign_att : list Z -> list Z -> Z -> option (list Z))
        (verify_att_sign : list Z -> list Z -> bool)
        (counter : Z -> Z -> Z -> option Z)
        (react : att_event -> bt_att -> list att_call).

Definition timeout_remove (tid : option positive) (s : bt_att) : bt_att :=
  match tid with Some t => set_timers (delete t (timers s)) s | None => s end.

Definition destroy_att_send_op (o : positive) (s : bt_att) : option bt_att :=
  op ← op_heap s !! o;
  let s := timeout_remove (op_timeout_id op) s in
  let s := match op_destroy op with
           | Some d => add_log (LDestroy o d (op_user_data op)) s | None => s end in
  Some (set_op_heap (delete o (op_heap s)) s).

Definition cancel_att_send_op (o : positive) (s : bt_att) : option bt_att :=
  op ← op_heap s !! o;
  let s := match op_destroy op with
           | Some d => add_log (LDestroy o d (op_user_data op)) s | None => s end in
  Some (set_op o (set_op_destroy None (set_op_callback None (set_op_user_data 0 op)))
          (add_log (LCancelled o) s)).

Definition encode_pdu (opcode : Z) (pdu : option (list Z)) (length : Z) (s : bt_att)
  : option (option (list Z * Z)) :=
  let signed := isSome (local_sign s) && negb (Z.land opcode ATT_OP_SIGNED_MASK =? 0) in
  let pdu_len := 1 in
  let pdu_len := if signed then u16 (pdu_len + BT_ATT_SIGNATURE_LEN) else pdu_len in
  let pdu_len := if negb (length =? 0) && isSome pdu then u16 (pdu_len + length) else pdu_len in
  if mtu s <? pdu_len then Some None else
  buf ← memcpy_at (replicate (Z.to_nat pdu_len) junk) 0 [opcode];
  buf ← (if 1 <? pdu_len then data ← memread (default [] pdu) 0 length; memcpy_at buf 1 data
         else Some buf);
  match local_sign s with
  | Some sign =>
      if negb (signed && crypto s) then Some (Some (buf, pdu_len)) else
      match counter (s_counter sign) (s_user_data sign) 0 with
      | None => Some None
      | Some sign_cnt =>
          msg ← memread buf 0 (1 + length);
          match sign_att (s_key sign) msg sign_cnt with
          | Some sig => buf ← memcpy_at buf (1 + length) sig; Some (Some (buf, pdu_len))
          | None => Some None
          end
      end
  | None => Some (Some (buf, pdu_len))
  end.

Definition create_att_send_op (opcode : Z) (pdu : option (list Z)) (length : Z)
    (callback : option Z) (user_data : Z) (destroy : option Z) (s : bt_att)
  : option (option (positive * bt_att)) :=
  if negb (length =? 0) && negb (isSome pdu) then Some None else
  let type := get_op_type opcode in
  let asks := bool_decide (type = ATT_OP_TYPE_REQ) || bool_decide (type = ATT_OP_TYPE_IND) in
  if bool_decide (type = ATT_OP_TYPE_UNKNOWN) then Some None
  else if isSome callback && negb asks then Some None
  else if negb (isSome callback) && asks then Some None
  else
    r ← encode_pdu opcode pdu length s;
    match r with
    | None => Some None
    | Some (buf, len) =>
        let o := next_ptr s in
        let op := mkOp 0 None type opcode buf len callback destroy user_data in
        Some (Some (o, add_log (LCreated o type) (set_op o op (set_next_ptr (Pos.succ o) s))))
    end.

(** The head of a queue, when a channel of MTU [m] can send it. *)
Definition head_fits (m : Z) (l : list positive) (s : bt_att) : option (option (positive * list positive)) :=
  match l with
  | [] => Some None
  | o :: l' => op ← op_heap s !! o; Some (if op_len op <=? m then Some (o, l') else None)
  end.

Definition pick_next_send_op (ch : positive) (s : bt_att) : option (option positive * bt_att) :=
  c ← chan_heap s !! ch;
  match c_queue c with
  | o :: q => Some (Some o, set_chan ch (set_c_queue q c) s)
  | [] =>
      w ← head_fits (c_mtu c) (write_queue s) s;
      match w with
      | Some (o, q) => Some (Some o, set_write_queue q s)
      | None =>
          r ← (if isSome (pending_req c) then Some None else head_fits (c_mtu c) (req_queue s) s);
          match r with
          | Some (o, q) => Some (Some o, set_req_queue q s)
          | None =>
              i ← (if isSome (pending_ind c) then Some None else head_fits (c_mtu c) (ind_queue s) s);
              match i with
              | Some (o, q) => Some (Some o, set_ind_queue q s)
              | None => Some (None, s)
              end
          end
      end
  end.

Definition wakeup_chan_writer (ch : positive) (s : bt_att) : option bt_att :=
  c ← chan_heap s !! ch;
  if writer_active c then Some s
  else if isNil (c_queue c) && isNil (write_queue s)
          && ((isSome (pending_req c) || isNil (req_queue s))
              && (isSome (pending_ind c) || isNil (ind_queue s))) then Some s
  else Some (set_chan ch (set_writer_active true c) s).

Definition wakeup_writer (s : bt_att) : option bt_att := for_each wakeup_chan_writer (chans s) s.

Definition io_shutdown (ch : positive) (s : bt_att) : option bt_att :=
  upd_chan ch (set_c_shut true) (add_log (LShutdown ch) s).

Definition bt_att_send (opcode : Z) (pdu : option (list Z)) (length : Z) (callback : option Z)
    (user_data : Z) (destroy : option Z) (s : bt_att) : option (Z * bt_att) :=
  if isNil (chans s) then Some (0, s) else
  r ← create_att_send_op opcode pdu length callback user_data destroy s;
  match r with
  | None => Some (0, s)
  | Some (o, s) =>
      let next := if next_send_id s <? 1 then 1 else next_send_id s in
      op ← op_heap s !! o;
      let s := set_op o (set_op_id next op) (set_next_send_id (u32 (next + 1)) s) in
      let s := match op_type op with
               | ATT_OP_TYPE_REQ => set_req_queue (req_queue s ++ [o]) s
               | ATT_OP_TYPE_IND => set_ind_queue (ind_queue s ++ [o]) s
               | _ => set_write_queue (write_queue s ++ [o]) s
               end in
      s ← wakeup_writer s;
      Some (next, s)
  end.

Definition bt_att_chan_send (ch : positive) (opcode : Z) (pdu : option (list Z)) (len : Z)
    (callback : option Z) (user_data : Z) (destroy : option Z) (s : bt_att) : option (Z * bt_att) :=
  c ← chan_heap s !! ch;
  r ← create_att_send_op opcode pdu len callback user_data destroy s;
  match r with
  | None => Some (u32 (- EINVAL), s)
  | Some (o, s) =>
      op ← op_heap s !! o;
      s ← upd_chan ch (fun c => set_c_queue (c_queue c ++ [o]) c) s;
      s ← wakeup_chan_writer ch s;
      Some (op_id op, s)
  end.

(** [queue_find] and [queue_remove_if] with [match_op_id]. *)
Fixpoint find_op (id : Z) (l : list positive) (s : bt_att) : option (option positive) :=
  match l with
  | [] => Some None
  | o :: l' => op ← op_heap s !! o; if op_id op =? id then Some (Some o) else find_op id l' s
  end.

Definition pending_is (p : option positive) (id : Z) (s : bt_att) : option bool :=
  match p with
  | Some o => op ← op_heap s !! o; Some (op_id op =? id)
  | None => Some false
  end.

Definition cancel_pending (p : option positive) (s : bt_att) : option bt_att :=
  match p with Some o => cancel_att_send_op o s | None => Some s end.

(** Destroying an operation because its owner cancelled it. *)
Definition destroy_cancelled (o : positive) (s : bt_att) : option bt_att :=
  destroy_att_send_op o (add_log (LCancelled o) s).

Definition bt_att_chan_cancel (ch : positive) (id : Z) (s : bt_att) : option (bool * bt_att) :=
  c ← chan_heap s !! ch;
  hit ← pending_is (pending_req c) id s;
  if hit : bool then s ← cancel_pending (pending_req c) s; Some (true, s) else
  hit ← pending_is (pending_ind c) id s;
  if hit : bool then s ← cancel_pending (pending_ind c) s; Some (true, s) else
  r ← find_op id (c_queue c) s;
  match r with
  | None => Some (false, s)
  | Some o =>
      s ← upd_chan ch (fun c => set_c_queue (remove_one o (c_queue c)) c) s;
      s ← destroy_cancelled o s;
      s ← wakeup_chan_writer ch s;
      Some (true, s)
  end.

Definition bt_att_disc_cancel (id : Z) (s : bt_att) : option (bool * bt_att) :=
  r ← find_op id (req_queue s) s;
  r ← (if isSome r then Some r else find_op id (ind_queue s) s);
  r ← (if isSome r then Some r else find_op id (write_queue s) s);
  match r with
  | None => Some (false, s)
  | Some o => s ← cancel_att_send_op o s; Some (true, s)
  end.

Fixpoint chans_cancel (id : Z) (l : list positive) (s : bt_att) : option (bool * bt_att) :=
  match l with
  | [] => Some (false, s)
  | ch :: l' =>
      '(hit, s) ← bt_att_chan_cancel ch id s;
      if hit : bool then Some (true, s) else chans_cancel id l' s
  end.

Definition bt_att_cancel (id : Z) (s : bt_att) : option (bool * bt_att) :=
  if id =? 0 then Some (false, s) else
  '(hit, s) ← chans_cancel id (chans s) s;
  if hit : bool then Some (true, s)
  else if in_disc s then bt_att_disc_cancel id s
  else
    let done o s := s ← destroy_cancelled o s; s ← wakeup_writer s; Some (true, s) in
    r ← find_op id (req_queue s) s;
    match r with
    | Some o => done o (set_req_queue (remove_one o (req_queue s)) s)
    | None =>
        i ← find_op id (ind_queue s) s;
        match i with
        | Some o => done o (set_ind_queue (remove_one o (ind_queue s)) s)
        | None =>
            w ← find_op id (write_queue s) s;
            match w with
            | Some o => done o (set_write_queue (remove_one o (write_queue s)) s)
            | None => Some (false, s)
            end
        end
    end.

(** [queue_remove_all] empties the queue and then destroys the entries. *)
Definition bt_att_cancel_all (s : bt_att) : option bt_att :=
  s ← for_each destroy_cancelled (req_queue s) (set_req_queue [] s);
  s ← for_each destroy_cancelled (ind_queue s) (set_ind_queue [] s);
  s ← for_each destroy_cancelled (write_queue s) (set_write_queue [] s);
  for_each (fun ch s =>
      c ← chan_heap s !! ch;
      s ← cancel_pending (pending_req c) s;
      cancel_pending (pending_ind c) s) (chans s) s.

Definition att_ecode_from_error (err : Z) : Z :=
  if (0 <? err) && (err <? UINT8_MAX) then err
  else if err =? - ENOENT then BT_ATT_ERROR_INVALID_HANDLE
  else if err =? - ENOMEM then BT_ATT_ERROR_INSUFFICIENT_RESOURCES
  else if err =? - EALREADY then BT_ERROR_ALREADY_IN_PROGRESS
  else if err =? - EOVERFLOW then BT_ERROR_OUT_OF_RANGE
  else BT_ATT_ERROR_UNLIKELY.

(** [struct bt_att_pdu_error_rsp], packed. *)
Definition error_rsp_pdu (opcode handle ecode : Z) : list Z :=
  [opcode; u8 handle; u8 (handle / 256); ecode].

Definition bt_att_chan_send_error_rsp (ch : positive) (opcode handle error : Z) (s : bt_att)
  : option (Z * bt_att) :=
  if opcode =? 0 then Some (- EINVAL, s) else
  bt_att_chan_send ch BT_ATT_OP_ERROR_RSP
    (Some (error_rsp_pdu opcode handle (att_ecode_from_error error))) 4 None 0 None s.

Definition destroy_att_notify (n : positive) (s : bt_att) : option bt_att :=
  nt ← notify_heap s !! n;
  let s := if isSome (n_destroy nt) then add_log (LNotifyDestroy n) s else s in
  Some (set_notify_heap (delete n (notify_heap s)) s).

Definition destroy_att_disconn (d : positive) (s : bt_att) : option bt_att :=
  di ← disconn_heap s !! d;
  let s := if isSome (d_destroy di) then add_log (LDisconnDestroy d) s else s in
  Some (set_disconn_heap (delete d (disconn_heap s)) s).

Definition new_reg_id (s : bt_att) : Z * bt_att :=
  let next := if next_reg_id s <? 1 then 1 else next_reg_id s in
  (next, set_next_reg_id (u32 (next + 1)) s).

Definition bt_att_register (opcode callback user_data : Z) (destroy : option Z) (s : bt_att)
  : Z * bt_att :=
  if isNil (chans s) then (0, s) else
  let n := next_ptr s in
  let '(id, s) := new_reg_id s in
  (id, set_notify_list (notify_list s ++ [n])
         (set_notify_heap (<[n := mkAttNotify id opcode callback destroy user_data]> (notify_heap s))
            (set_next_ptr (Pos.succ n) s))).

Fixpoint find_notify (id : Z) (l : list positive) (s : bt_att) : option (option positive) :=
  match l with
  | [] => Some None
  | n :: l' => nt ← notify_heap s !! n; if n_id nt =? id then Some (Some n) else find_notify id l' s
  end.

Definition bt_att_unregister (id : Z) (s : bt_att) : option (bool * bt_att) :=
  if id =? 0 then Some (false, s) else
  r ← find_notify id (notify_list s) s;
  match r with
  | None => Some (false, s)
  | Some n => s ← destroy_att_notify n (set_notify_list (remove_one n (notify_list s)) s);
              Some (true, s)
  end.

Definition bt_att_unregister_all (s : bt_att) : option bt_att :=
  s ← for_each destroy_att_notify (notify_list s) (set_notify_list [] s);
  for_each destroy_att_disconn (disconn_list s) (set_disconn_list [] s).

Definition bt_att_register_disconnect (callback : option Z) (user_data : Z) (destroy : option Z)
    (s : bt_att) : Z * bt_att :=
  if isNil (chans s) then (0, s) else
  let d := next_ptr s in
  let '(id, s) := new_reg_id s in
  (id, set_disconn_list (disconn_list s ++ [d])
         (set_disconn_heap (<[d := mkDisconn id false callback destroy user_data]> (disconn_heap s))
            (set_next_ptr (Pos.succ d) s))).

Fixpoint find_disconn (id : Z) (l : list positive) (s : bt_att) : option (option positive) :=
  match l with
  | [] => Some None
  | d :: l' => di ← disconn_heap s !! d; if d_id di =? id then Some (Some d) else find_disconn id l' s
  end.

Definition bt_att_unregister_disconnect (id : Z) (s : bt_att) : option (bool * bt_att) :=
  if id =? 0 then Some (false, s) else
  r ← find_disconn id (disconn_list s) s;
  match r with
  | None => Some (false, s)
  | Some d =>
      if isNil (chans s) then
        di ← disconn_heap s !! d;
        Some (true, set_disconn_heap (<[d := mkDisconn (d_id di) true (d_callback di) (d_destroy di)
                                               (d_user_data di)]> (disconn_heap s)) s)
      else
        s ← destroy_att_disconn d (set_disconn_list (remove_one d (disconn_list s)) s);
        Some (true, s)
  end.

(** The original channel is the last; without one the error code is [true].  The buffer of the channel is freed and another
    takes its place. *)
Definition bt_att_set_mtu (m : Z) (s : bt_att) : option (bool * bt_att) :=
  if m <? BT_ATT_DEFAULT_LE_MTU then Some (false, s) else
  match last (chans s) with
  | None => Some (true, s)
  | Some ch =>
      s ← upd_chan ch (fun c => set_c_buf (c_buf c + 1) (set_c_mtu m c)) s;
      Some (true, if mtu s <? m then set_mtu m s else s)
  end.

Definition bt_att_get_mtu (s : bt_att) : Z := mtu s.

Definition bt_att_get_link_type (s : bt_att) : option Z :=
  match last (chans s) with
  | None => Some (u8 (- ENOTCONN))
  | Some ch => c ← chan_heap s !! ch; Some (c_type c)
  end.

Definition user_destroy (d : option Z) (user : Z) (s : bt_att) : bt_att :=
  match d with Some d => add_log (LUserDestroy d user) s | None => s end.

Definition bt_att_set_timeout_cb (callback : option Z) (user : Z) (destroy : option Z) (s : bt_att)
  : bt_att :=
  let s := user_destroy (timeout_destroy s) (timeout_data s) s in
  set_timeout_data user (set_timeout_destroy destroy (set_timeout_callback callback s)).

Definition bt_att_set_debug (user : Z) (destroy : option Z) (s : bt_att) : bt_att :=
  let s := user_destroy (debug_destroy s) (debug_data s) s in
  set_debug_data user (set_debug_destroy destroy s).

Definition bt_att_set_close_on_unref (do_close : bool) (s : bt_att) : option bt_att :=
  for_each (fun ch => upd_chan ch (set_c_close do_close)) (chans s) (set_close_on_unref do_close s).

Definition bt_att_set_enc_key_size (size : Z) (s : bt_att) : bt_att := set_enc_size size s.

Definition sign_set_key (key : list Z) (func user : Z) : option sign_info :=
  Some (mkSign (take 16 key) func user).

Definition bt_att_set_local_key (key : list Z) (func user : Z) (s : bt_att) : bt_att :=
  set_local_sign (sign_set_key key func user) s.
Definition bt_att_set_remote_key (key : list Z) (func user : Z) (s : bt_att) : bt_att :=
  set_remote_sign (sign_set_key key func user) s.
Definition bt_att_has_crypto (s : bt_att) : bool := crypto s.

Definition bt_att_get_channels (s : bt_att) : Z := zlen (chans s).
Definition bt_att_get_fd (s : bt_att) : option Z :=
  match last (chans s) with
  | None => Some (- ENOTCONN)
  | Some ch => c ← chan_heap s !! ch; Some (c_fd c)
  end.

Definition do_call (k : att_call) (s : bt_att) : option bt_att :=
  if freed s then None else
  match k with
  | CSend opcode pdu length cb ud d => r ← bt_att_send opcode pdu length cb ud d s; Some r.2
  | CChanSend ch opcode pdu length cb ud d =>
      r ← bt_att_chan_send ch opcode pdu length cb ud d s; Some r.2
  | CCancel id => r ← bt_att_cancel id s; Some r.2
  | CChanCancel ch id => r ← bt_att_chan_cancel ch id s; Some r.2
  | CCancelAll => bt_att_cancel_all s
  | CSendError ch opcode h err => r ← bt_att_chan_send_error_rsp ch opcode h err s; Some r.2
  | CRegister opcode cb ud d => Some (bt_att_register opcode cb ud d s).2
  | CUnregister id => r ← bt_att_unregister id s; Some r.2
  | CRegisterDisconnect cb ud d => Some (bt_att_register_disconnect cb ud d s).2
  | CUnregisterDisconnect id => r ← bt_att_unregister_disconnect id s; Some r.2
  | CSetMtu m => r ← bt_att_set_mtu m s; Some r.2
  | CSetTimeoutCb cb ud d => Some (bt_att_set_timeout_cb cb ud d s)
  | CSetDebug ud d => Some (bt_att_set_debug ud d s)
  | CSetCloseOnUnref b => bt_att_set_close_on_unref b s
  | CSetEncKeySize n => Some (bt_att_set_enc_key_size n s)
  | CSetLocalKey key f ud => Some (bt_att_set_local_key key f ud s)
  | CSetRemoteKey key f ud => Some (bt_att_set_remote_key key f ud s)
  end.

Fixpoint do_calls (l : list att_call) (s : bt_att) : option bt_att :=
  match l with
  | [] => Some s
  | k :: l' => s ← do_call k s; do_calls l' s
  end.

(** ** Handlers of the transport *)

(** A client function is called. *)
Definition call_client (e : att_event) (s : bt_att) : option bt_att :=
  do_calls (react e s) (add_log e s).

Definition call_response (o : positive) (rsp_opcode : Z) (pdu : list Z) (s : bt_att) : option bt_att :=
  op ← op_heap s !! o;
  match op_callback op with
  | Some cb => call_client (LResponse o cb (op_user_data op) rsp_opcode pdu) s
  | None => Some s
  end.

Definition disc_att_send_op (o : positive) (s : bt_att) : option bt_att :=
  s ← call_response o BT_ATT_OP_ERROR_RSP [] s;
  destroy_att_send_op o s.

(** The operation that timed out, already taken off its channel. *)
Definition expire_op (ch o : positive) (s : bt_att) : option bt_att :=
  op ← op_heap s !! o;
  s ← (match timeout_callback s with
       | Some cb => call_client (LTimeout cb (op_id op) (op_opcode op) (timeout_data s)) s
       | None => Some s
       end);
  op ← op_heap s !! o;
  s ← disc_att_send_op o (set_op o (set_op_timeout_id None op) s);
  io_shutdown ch s.

Definition timeout_cb (ch : positive) (id : Z) (s : bt_att) : option bt_att :=
  c ← chan_heap s !! ch;
  req ← pending_is (pending_req c) id s;
  if req : bool then
    o ← pending_req c; expire_op ch o (set_chan ch (set_pending_req None c) s)
  else
    ind ← pending_is (pending_ind c) id s;
    if ind : bool then
      o ← pending_ind c; expire_op ch o (set_chan ch (set_pending_ind None c) s)
    else Some s.

(** [ret] is the result of [io_send], [tid] the identifier [timeout_add] gets. *)
Definition can_write_data (ch : positive) (ret : Z) (tid : option positive) (s : bt_att)
  : option (bool * bt_att) :=
  '(r, s) ← pick_next_send_op ch s;
  match r with
  | None => Some (false, s)
  | Some o =>
      op ← op_heap s !! o;
      let s := add_log (LSent ch o (op_pdu op) ret) s in
      if ret =? 0 then s ← disc_att_send_op o s; Some (true, s) else
      let wait s := Some (true,
        set_op o (set_op_timeout_id tid op)
          (match tid with
           | Some t => set_timers (<[t := (ch, op_id op)]> (timers s)) s
           | None => s
           end)) in
      match op_type op with
      | ATT_OP_TYPE_REQ => s ← upd_chan ch (set_pending_req (Some o)) s; wait s
      | ATT_OP_TYPE_IND => s ← upd_chan ch (set_pending_ind (Some o)) s; wait s
      | ATT_OP_TYPE_RSP =>
          s ← upd_chan ch (set_in_req false) s; s ← destroy_att_send_op o s; Some (true, s)
      | _ => s ← destroy_att_send_op o s; Some (true, s)
      end
  end.

Definition destroy_pending (p : option positive) (s : bt_att) : option bt_att :=
  match p with Some o => destroy_att_send_op o s | None => Some s end.

Definition bt_att_chan_free (ch : positive) (s : bt_att) : option bt_att :=
  c ← chan_heap s !! ch;
  s ← destroy_pending (pending_req c) s;
  s ← destroy_pending (pending_ind c) s;
  s ← for_each destroy_att_send_op (c_queue c) s;
  Some (set_chan_heap (delete ch (chan_heap s)) s).

Definition disconn_handler (err : Z) (d : positive) (s : bt_att) : option bt_att :=
  di ← disconn_heap s !! d;
  if d_removed di then Some s else
  match d_callback di with
  | Some cb => call_client (LDisconn d cb (d_user_data di) err) s
  | None => Some s
  end.

Definition bt_att_ref (s : bt_att) : bt_att := set_ref_count (ref_count s + 1) s.

Definition bt_att_free (s : bt_att) : option bt_att :=
  let s := user_destroy (timeout_destroy s) (timeout_data s) s in
  let s := user_destroy (debug_destroy s) (debug_data s) s in
  s ← for_each bt_att_chan_free (chans s) (set_chans [] s);
  Some (set_freed true s).

Definition bt_att_unref (s : bt_att) : option bt_att :=
  let s := set_ref_count (ref_count s - 1) s in
  if negb (ref_count s =? 0) then Some s else
  s ← bt_att_unregister_all s;
  s ← bt_att_cancel_all s;
  bt_att_free s.

Definition disc_pending (p : option positive) (s : bt_att) : option bt_att :=
  match p with Some o => disc_att_send_op o s | None => Some s end.

(** No channel is left: everything queued is answered, the clients are told. *)
Definition disconnect_last (err : Z) (s : bt_att) : option bt_att :=
  let s := set_in_disc true (bt_att_ref s) in
  s ← for_each disc_att_send_op (req_queue s) (set_req_queue [] s);
  s ← for_each disc_att_send_op (ind_queue s) (set_ind_queue [] s);
  s ← for_each disc_att_send_op (write_queue s) (set_write_queue [] s);
  let s := set_in_disc false s in
  s ← for_each (disconn_handler err) (disconn_list s) s;
  s ← bt_att_unregister_all s;
  bt_att_unref s.

Definition disconnect_cb (ch : positive) (err : Z) (s : bt_att) : option bt_att :=
  let s := set_chans (remove_one ch (chans s)) s in
  c ← chan_heap s !! ch;
  s ← disc_pending (pending_req c) s;
  s ← upd_chan ch (set_pending_req None) s;
  c ← chan_heap s !! ch;
  s ← disc_pending (pending_ind c) s;
  s ← upd_chan ch (set_pending_ind None) s;
  s ← bt_att_chan_free ch s;
  if negb (isNil (chans s)) then Some s else disconnect_last err s.

(** *** Security *)

(** What [getsockopt] and [setsockopt] of [BT_SECURITY] answer. *)
Record sock_security := mkSec { sec_get : option Z; sec_set : bool }.

Definition bt_att_chan_get_security (k : sock_security) (c : bt_att_chan) : Z :=
  if c_type c =? BT_ATT_LOCAL then c_sec_level c else default (- EIO) (sec_get k).

Definition bt_att_chan_set_security (k : sock_security) (level : Z) (c : bt_att_chan)
  : bool * bt_att_chan :=
  if c_type c =? BT_ATT_LOCAL then (true, set_c_sec_level level c) else (sec_set k, c).

Definition change_security (k : sock_security) (ecode : Z) (c : bt_att_chan) : bool * bt_att_chan :=
  if negb (c_sec_level c =? BT_ATT_SECURITY_AUTO) then (false, c) else
  let security := bt_att_chan_get_security k c in
  if (ecode =? BT_ATT_ERROR_INSUFFICIENT_ENCRYPTION) && (security <? BT_ATT_SECURITY_MEDIUM)
  then bt_att_chan_set_security k BT_ATT_SECURITY_MEDIUM c
  else if ecode =? BT_ATT_ERROR_AUTHENTICATION then
    if security <? BT_ATT_SECURITY_MEDIUM then bt_att_chan_set_security k BT_ATT_SECURITY_MEDIUM c
    else if security <? BT_ATT_SECURITY_HIGH then bt_att_chan_set_security k BT_ATT_SECURITY_HIGH c
    else if security <? BT_ATT_SECURITY_FIPS then bt_att_chan_set_security k BT_ATT_SECURITY_FIPS c
    else (false, c)
  else (false, c).

Definition bt_att_get_security (k : sock_security) (s : bt_att) : option (Z * option Z) :=
  match last (chans s) with
  | None => Some (- ENOTCONN, None)
  | Some ch =>
      c ← chan_heap s !! ch;
      let ret := bt_att_chan_get_security k c in
      Some (if ret <? 0 then (ret, None) else (ret, Some (enc_size s)))
  end.

(** [return -ENOTCONN] is [true]. *)
Definition bt_att_set_security (k : sock_security) (level : Z) (s : bt_att) : option (bool * bt_att) :=
  if (level <? BT_ATT_SECURITY_AUTO) || (BT_ATT_SECURITY_HIGH <? level) then Some (false, s) else
  match last (chans s) with
  | None => Some (true, s)
  | Some ch =>
      c ← chan_heap s !! ch;
      let '(r, c) := bt_att_chan_set_security k level c in
      Some (r, set_chan ch c s)
  end.

(** *** Received PDUs *)

(** The result is whether the request is retried, and [*opcode]. *)
Definition handle_error_rsp (k : sock_security) (ch : positive) (pdu : list Z) (s : bt_att)
  : option (bool * Z * bt_att) :=
  match pdu with
  | [opcode; _; _; ecode] =>
      c ← chan_heap s !! ch;
      let '(changed, c) := change_security k ecode c in
      let s := set_chan ch c s in
      if negb changed then Some (false, opcode, s) else
      o ← pending_req c;
      op ← op_heap s !! o;
      let s := timeout_remove (op_timeout_id op) s in
      let s := set_op o (set_op_timeout_id None op) s in
      let s := set_chan ch (set_pending_req None c) s in
      Some (true, opcode, set_req_queue (o :: req_queue s) s)
  | _ => Some (false, 0, s)
  end.

Definition finish_req (ch o : positive) (rsp_opcode : Z) (pdu : list Z) (s : bt_att) : option bt_att :=
  s ← call_response o rsp_opcode pdu s;
  s ← destroy_att_send_op o s;
  s ← upd_chan ch (set_pending_req None) s;
  wakeup_chan_writer ch s.

Definition handle_rsp (k : sock_security) (ch : positive) (opcode : Z) (pdu : list Z) (s : bt_att)
  : option bt_att :=
  c ← chan_heap s !! ch;
  match pending_req c with
  | None => io_shutdown ch s
  | Some o =>
      '(retry, req_opcode, s) ← (if opcode =? BT_ATT_OP_ERROR_RSP then handle_error_rsp k ch pdu s
                                 else Some (false, get_req_opcode opcode, s));
      if retry : bool then wakeup_chan_writer ch s else
      op ← op_heap s !! o;
      if (negb (opcode =? BT_ATT_OP_ERROR_RSP) && (req_opcode =? 0))
         || negb (req_opcode =? op_opcode op)
      then finish_req ch o BT_ATT_OP_ERROR_RSP [] s
      else finish_req ch o opcode pdu s
  end.

Definition handle_conf (ch : positive) (pdu : list Z) (s : bt_att) : option bt_att :=
  c ← chan_heap s !! ch;
  match pending_ind c with
  | Some o =>
      if negb (isNil pdu) then io_shutdown ch s else
      s ← call_response o BT_ATT_OP_HANDLE_CONF [] s;
      s ← destroy_att_send_op o s;
      s ← upd_chan ch (set_pending_ind None) s;
      wakeup_chan_writer ch s
  | None => io_shutdown ch s
  end.

Definition opcode_match (opcode test_opcode : Z) : bool :=
  let t := get_op_type test_opcode in
  if (opcode =? BT_ATT_ALL_REQUESTS)
     && (bool_decide (t = ATT_OP_TYPE_REQ) || bool_decide (t = ATT_OP_TYPE_CMD)) then true
  else opcode =? test_opcode.

Definition respond_not_supported (opcode : Z) (s : bt_att) : option bt_att :=
  r ← bt_att_send BT_ATT_OP_ERROR_RSP
        (Some (error_rsp_pdu opcode 0 BT_ATT_ERROR_REQUEST_NOT_SUPPORTED)) 4 None 0 None s;
  Some r.2.

Definition get_le32 (l : list Z) : Z := be_value (rev l).

Definition handle_signed (pdu : list Z) (s : bt_att) : bool :=
  if zlen pdu <? 3 + BT_ATT_SIGNATURE_LEN then false else
  match remote_sign s with
  | None => false
  | Some sign =>
      let sign_cnt := get_le32 (slice (zlen pdu - BT_ATT_SIGNATURE_LEN) 4 pdu) in
      isSome (counter (s_counter sign) (s_user_data sign) sign_cnt)
      && verify_att_sign (s_key sign) pdu
  end.

(** The entry after [n]; an entry that left the list has been freed. *)
Fixpoint next_entry (n : positive) (l : list positive) : option (option positive) :=
  match l with
  | [] => None
  | x :: l' => if decide (x = n) then Some (head l') else next_entry n l'
  end.

(** Reading through a pointer into the buffer [buf] of the channel, where [pdu] stands. *)
Definition read_pdu (ch : positive) (buf : Z) (pdu : list Z) (s : bt_att) : option (list Z) :=
  c ← chan_heap s !! ch; if c_buf c =? buf then Some pdu else None.

(** The loop over the handlers; [None] inside is the early [return].  With
    [fuel] at least the number of handlers the loop ends, unless a handler
    registers another. *)
Fixpoint notify_loop (fuel : nat) (ch : positive) (opcode buf : Z) (pdu : list Z)
    (entry : option positive) (found : bool) (s : bt_att) : option (option bool * bt_att) :=
  match entry, fuel with
  | None, _ => Some (Some found, s)
  | Some _, O => None
  | Some n, Datatypes.S fuel' =>
      next ← next_entry n (notify_list s);
      nt ← notify_heap s !! n;
      if negb (opcode_match (u8 (n_opcode nt)) opcode)
      then notify_loop fuel' ch opcode buf pdu next found s
      else
        let signed := negb (Z.land opcode ATT_OP_SIGNED_MASK =? 0) && crypto s in
        valid ← (if signed then d ← read_pdu ch buf pdu s; Some (handle_signed d s) else Some true);
        if negb valid then Some (None, s) else
        let pdu := if signed then take (length pdu - Z.to_nat BT_ATT_SIGNATURE_LEN) pdu else pdu in
        type ← bt_att_get_link_type s;
        if (type =? BT_ATT_BREDR) && (opcode =? BT_ATT_OP_MTU_REQ) then Some (Some found, s) else
        d ← read_pdu ch buf (tail pdu) s;
        s ← call_client (LNotify n (n_callback nt) (n_user_data nt) ch opcode d) s;
        if isNil (notify_list s) then Some (Some true, s)
        else notify_loop fuel' ch opcode buf pdu next true s
  end.

Definition handle_notify (ch : positive) (opcode buf : Z) (pdu : list Z) (s : bt_att) : option bt_att :=
  let s := bt_att_ref s in
  '(r, s) ← notify_loop (length (notify_list s)) ch opcode buf pdu (head (notify_list s)) false s;
  match r with
  | None => Some s
  | Some found =>
      s ← (if negb found && negb (bool_decide (get_op_type opcode = ATT_OP_TYPE_CMD))
           then respond_not_supported opcode s else Some s);
      bt_att_unref s
  end.

(** [r] is what [read] returns: an error, or a datagram cut to the buffer. *)
Definition can_read_data (k : sock_security) (ch : positive) (r : option (list Z)) (s : bt_att)
  : option (bool * bt_att) :=
  c ← chan_heap s !! ch;
  match r with
  | None => Some (false, s)
  | Some d =>
      match take (Z.to_nat (c_mtu c)) d with
      | [] => Some (true, s)
      | opcode :: pdu =>
          let s := bt_att_ref s in
          let leave s := s ← bt_att_unref s; Some (true, s) in
          match get_op_type opcode with
          | ATT_OP_TYPE_RSP => s ← handle_rsp k ch opcode pdu s; leave s
          | ATT_OP_TYPE_CONF => s ← handle_conf ch pdu s; leave s
          | ATT_OP_TYPE_REQ =>
              if in_req c then
                s ← io_shutdown ch s; s ← bt_att_unref s; Some (false, s)
              else
                s ← upd_chan ch (set_in_req true) s;
                s ← handle_notify ch opcode (c_buf c) (opcode :: pdu) s; leave s
          | _ => s ← handle_notify ch opcode (c_buf c) (opcode :: pdu) s; leave s
          end
      end
  end.

(** ** Creation *)

(** What the kernel says about a descriptor. *)
Record sock_info := mkSock {
  so_domain : option Z;
  so_protocol : option Z;
  l2cap_omtu : option Z;
  bt_sndmtu : option Z;
  bdaddr_type : Z + Z                  (* the error, or the type of the address *)
}.

Definition AF_BLUETOOTH : Z := 31.
Definition BTPROTO_L2CAP : Z := 0.
Definition BDADDR_BREDR : Z := 0.

Definition is_io_l2cap_based (k : sock_info) : bool :=
  match so_domain k with
  | None => false
  | Some domain =>
      if negb (domain =? AF_BLUETOOTH) then false else
      match so_protocol k with
      | None => false
      | Some proto => proto =? BTPROTO_L2CAP
      end
  end.

Definition io_get_mtu (k : sock_info) : Z :=
  match l2cap_omtu k with
  | Some m => u16 m
  | None => match bt_sndmtu k with Some m => u16 m | None => 0 end
  end.

Definition io_get_type (k : sock_info) : Z :=
  if negb (is_io_l2cap_based k) then BT_ATT_LOCAL
  else match bdaddr_type k with
       | inl errno => u8 (- errno)
       | inr t => if t =? BDADDR_BREDR then BT_ATT_BREDR else BT_ATT_LE
       end.

(** [epoll_ok]: the descriptor could be added to the main loop; changing its
    events afterwards succeeds. *)
Definition bt_att_chan_new (k : sock_info) (epoll_ok : bool) (fd type : Z) : option bt_att_chan :=
  if fd <? 0 then None
  else if negb epoll_ok then None
  else
    let m := if (type =? BT_ATT_LOCAL) || (type =? BT_ATT_LE) then BT_ATT_DEFAULT_LE_MTU
             else io_get_mtu k in
    if m <? BT_ATT_DEFAULT_LE_MTU then None
    else Some (mkChan fd type (if type =? BT_ATT_LOCAL then BT_ATT_SECURITY_LOW else BT_ATT_SECURITY_AUTO)
                 [] None None false false m true false false 0).

Definition bt_att_attach_chan (c : bt_att_chan) (s : bt_att) : option bt_att :=
  let ch := next_ptr s in
  let s := set_chans (ch :: chans s) (set_chan ch (set_c_close (close_on_unref s) c)
             (set_next_ptr (Pos.succ ch) s)) in
  wakeup_chan_writer ch (if mtu s <? c_mtu c then set_mtu (c_mtu c) s else s).

Definition bt_att_new (k : sock_info) (epoll_ok crypto_ok : bool) (fd : Z) (ext_signed : bool)
  : option (option bt_att) :=
  match bt_att_chan_new k epoll_ok fd (io_get_type k) with
  | None => Some None
  | Some c =>
      let s := mkAtt 0 false [] ∅ 0 (c_mtu c) [] ∅ [] ∅ 0 0 [] [] [] false None None 0 None 0
                 (negb ext_signed && crypto_ok) None None ∅ 1%positive ∅ false [] in
      s ← bt_att_attach_chan c s;
      Some (Some (bt_att_ref s))
  end.

Definition bt_att_attach_fd (k : sock_info) (epoll_ok : bool) (fd : Z) (s : bt_att) : option (Z * bt_att) :=
  match bt_att_chan_new k epoll_ok fd BT_ATT_EATT with
  | None => Some (- EINVAL, s)
  | Some c => s ← bt_att_attach_chan c s; Some (0, s)
  end.

(** ** The main loop's events *)

Inductive att_input :=
| EvCall (k : att_call)
| EvAttach (k : sock_info) (epoll_ok : bool) (fd : Z)
| EvReadable (k : sock_security) (ch : positive) (r : option (list Z))
| EvWritable (ch : positive) (ret : Z) (tid : option positive)
| EvTimeout (tid : positive)
| EvDisconnect (ch : positive) (err : Z)
| EvUnref.

(** [io_callback] and the timer callback: a handler that returns false is
    removed, an event without handler does nothing. *)
Definition do_input (e : att_input) (s : bt_att) : option bt_att :=
  if freed s then None else
  match e with
  | EvCall k => do_call k s
  | EvAttach k ok fd => r ← bt_att_attach_fd k ok fd s; Some r.2
  | EvReadable k ch r =>
      match chan_heap s !! ch with
      | Some c =>
          if negb (c_reading c) then Some s else
          '(keep, s) ← can_read_data k ch r s;
          if keep : bool then Some s else upd_chan ch (set_c_reading false) s
      | None => Some s
      end
  | EvWritable ch ret tid =>
      match chan_heap s !! ch with
      | Some c =>
          if negb (writer_active c) then Some s else
          '(keep, s) ← can_write_data ch ret tid s;
          if keep : bool then Some s else upd_chan ch (set_writer_active false) s
      | None => Some s
      end
  | EvTimeout tid =>
      match timers s !! tid with
      | Some (ch, id) =>
          s ← timeout_cb ch id s;
          Some (set_timers (delete tid (timers s)) s)
      | None => Some s
      end
  | EvDisconnect ch err =>
      match chan_heap s !! ch with
      | Some _ => disconnect_cb ch err s
      | None => Some s
      end
  | EvUnref => bt_att_unref s
  end.

Fixpoint do_inputs (l : list att_input) (s : bt_att) : option bt_att :=
  match l with
  | [] => Some s
  | e :: l' => s ← do_input e s; do_inputs l' s
  end.

End Att.
