(* ===== verification/AttSafety.v ===== *)
(** The ATT transport of [Att]: the invariant of its heap, queues, timers and
    log, its preservation by every call and every event of the main loop, and
    the properties that follow from it: no event touches freed memory, an
    accepted operation is in one place until it is answered or cancelled, and a
    client function is called at most once for it. *)
From S2P Require Import Prelude Att.

(** ** The history of an operation *)

(** What the log says about one operation: its type when it was accepted, how
    often its response and destroy functions were called, whether it was
    cancelled, and whether something was called after the destroy function. *)
Record op_stat := mkStat {
  born : option att_op_type;
  resp : nat;
  dest : nat;
  canc : bool;
  late : bool
}.

Definition stat0 : op_stat := mkStat None 0 0 false false.

Definition stat_step (o : positive) (e : att_event) (st : op_stat) : op_stat :=
  match e with
  | LCreated o' t => if decide (o' = o) then mkStat (Some t) (resp st) (dest st) (canc st) (late st) else st
  | LResponse o' _ _ _ _ =>
      if decide (o' = o)
      then mkStat (born st) (Datatypes.S (resp st)) (dest st) (canc st) (late st || (0 <? dest st)%nat) else st
  | LDestroy o' _ _ =>
      if decide (o' = o)
      then mkStat (born st) (resp st) (Datatypes.S (dest st)) (canc st) (late st || (0 <? dest st)%nat) else st
  | LCancelled o' =>
      if decide (o' = o) then mkStat (born st) (resp st) (dest st) true (late st) else st
  | _ => st
  end.

Definition stat (l : list att_event) (o : positive) : op_stat :=
  foldl (fun st e => stat_step o e st) stat0 l.

Definition is_req (t : att_op_type) : bool := bool_decide (t = ATT_OP_TYPE_REQ).
Definition is_ind (t : att_op_type) : bool := bool_decide (t = ATT_OP_TYPE_IND).
Definition asks (t : att_op_type) : bool := is_req t || is_ind t.

Lemma stat_app l e o : stat (l ++ [e]) o = stat_step o e (stat l o).
Proof. unfold stat. by rewrite foldl_app. Qed.

(** The operation an event is about. *)
Definition about (e : att_event) : option positive :=
  match e with
  | LCreated o _ | LResponse o _ _ _ _ | LDestroy o _ _ | LCancelled o => Some o
  | _ => None
  end.

Lemma stat_other l e o : about e <> Some o -> stat (l ++ [e]) o = stat l o.
Proof. rewrite stat_app. destruct e; simpl; intros; try done; destruct (decide _); congruence. Qed.

(** ** The invariant *)

Definition chan_ops (c : bt_att_chan) : list positive :=
  c_queue c ++ option_list (pending_req c) ++ option_list (pending_ind c).

(** Every place an operation can be in. *)
Definition all_ops (s : bt_att) : list positive :=
  req_queue s ++ ind_queue s ++ write_queue s
  ++ (map_to_list (chan_heap s) ≫= fun p => chan_ops p.2).

Definition op_ok (cur : option positive) (o : positive) (x : option att_send_op) (st : op_stat) : Prop :=
  late st = false /\ (resp st <= 1)%nat /\ (dest st <= 1)%nat /\
  match x with
  | Some op =>
      born st = Some (op_type op) /\ (resp st = 0%nat \/ cur = Some o) /\
      (if canc st then op_callback op = None /\ op_destroy op = None
       else dest st = 0%nat /\ (asks (op_type op) = true -> is_Some (op_callback op)))
  | None =>
      forall t, born st = Some t -> asks t = true -> canc st = true \/ resp st = 1%nat
  end.

Definition chan_types (l : list att_event) (c : bt_att_chan) : Prop :=
  (forall o, pending_req c = Some o -> born (stat l o) = Some ATT_OP_TYPE_REQ) /\
  (forall o, pending_ind c = Some o -> born (stat l o) = Some ATT_OP_TYPE_IND) /\
  (forall o, o ∈ c_queue c -> exists t, born (stat l o) = Some t /\ asks t = false).

(** Fewer objects were allocated than there are identifiers. *)
Definition small (s : bt_att) : Prop := Z.pos (next_ptr s) < 2 ^ 32.

Record inv (fl : list positive) (cur ft : option positive) (s : bt_att) : Prop := {
  inv_perm : (map_to_list (op_heap s)).*1 ≡ₚ fl ++ all_ops s;
  inv_ops : forall o, op_ok cur o (op_heap s !! o) (stat (log s) o);
  inv_fresh : forall o, (next_ptr s <= o)%positive ->
    op_heap s !! o = None /\ stat (log s) o = stat0 /\ chan_heap s !! o = None /\
    notify_heap s !! o = None /\ disconn_heap s !! o = None;
  inv_req : forall o, o ∈ req_queue s -> born (stat (log s) o) = Some ATT_OP_TYPE_REQ;
  inv_ind : forall o, o ∈ ind_queue s -> born (stat (log s) o) = Some ATT_OP_TYPE_IND;
  inv_write : forall o, o ∈ write_queue s -> exists t, born (stat (log s) o) = Some t /\ asks t = false;
  inv_chan : forall ch c, chan_heap s !! ch = Some c -> chan_types (log s) c;
  inv_chans : NoDup (chans s) /\ forall ch, ch ∈ chans s -> is_Some (chan_heap s !! ch);
  inv_timers : forall t ch id, timers s !! t = Some (ch, id) -> ft <> Some t ->
    exists c o op, chan_heap s !! ch = Some c /\ (pending_req c = Some o \/ pending_ind c = Some o) /\
      op_heap s !! o = Some op /\ op_timeout_id op = Some t /\ op_id op = id;
  inv_notify : NoDup (notify_list s) /\ forall n, n ∈ notify_list s -> is_Some (notify_heap s !! n);
  inv_disconn : NoDup (disconn_list s) /\ forall d, d ∈ disconn_list s -> is_Some (disconn_heap s !! d);
  inv_ids : small s ->
    0 <= next_send_id s <= Z.pos (next_ptr s) /\
    forall o op, op_heap s !! o = Some op -> asks (op_type op) = true ->
      1 <= op_id op < next_send_id s /\
      forall o' op', op_heap s !! o' = Some op' -> asks (op_type op') = true ->
        op_id op' = op_id op -> o' = o;
  inv_ref : 1 <= ref_count s;
  inv_freed : freed s = false;
}.

#[global] Arguments stat : simpl never.
#[global] Arguments op_ok : simpl never.
#[global] Arguments all_ops : simpl never.
#[global] Arguments chan_ops : simpl never.
#[global] Arguments chan_types : simpl never.

Lemma inv_live fl cur ft s o : inv fl cur ft s -> o ∈ fl ++ all_ops s <-> is_Some (op_heap s !! o).
Proof.
  intros H. rewrite <- (inv_perm _ _ _ _ H). split.
  - intros Ho. apply list_elem_of_fmap in Ho as [[o' op] [-> Hin]]. apply elem_of_map_to_list in Hin. by exists op.
  - intros [op Hop]. apply list_elem_of_fmap. exists (o, op). by rewrite elem_of_map_to_list.
Qed.

Lemma inv_nodup fl cur ft s : inv fl cur ft s -> NoDup (fl ++ all_ops s).
Proof. intros H. rewrite <- (inv_perm _ _ _ _ H). apply NoDup_fst_map_to_list. Qed.

(** The operations of a channel, and the rest. *)
Lemma all_ops_chan s ch c :
  chan_heap s !! ch = Some c ->
  exists rest, all_ops s ≡ₚ chan_ops c ++ rest /\
    (forall c', all_ops (set_chan ch c' s) ≡ₚ chan_ops c' ++ rest) /\
    all_ops (set_chan_heap (delete ch (chan_heap s)) s) ≡ₚ rest.
Proof.
  intros Hc.
  exists (req_queue s ++ ind_queue s ++ write_queue s
          ++ (map_to_list (delete ch (chan_heap s)) ≫= fun p => chan_ops p.2)).
  assert (Hd : forall c', map_to_list (<[ch := c']> (chan_heap s)) ≡ₚ (ch, c') :: map_to_list (delete ch (chan_heap s))).
  { intros c'. rewrite <- insert_delete_eq. apply map_to_list_insert. apply lookup_delete_eq. }
  unfold all_ops, set_chan; cbn. split; [|split; [intros c'|done]].
  - rewrite <- (insert_id (chan_heap s) ch c) at 1 by done. rewrite Hd. cbn. solve_Permutation.
  - rewrite Hd. cbn. solve_Permutation.
Qed.

Lemma all_ops_pending s ch c o :
  chan_heap s !! ch = Some c -> pending_req c = Some o \/ pending_ind c = Some o -> o ∈ all_ops s.
Proof.
  intros Hc Ho. destruct (all_ops_chan s ch c Hc) as (rest & -> & _). unfold chan_ops.
  destruct Ho as [-> | ->]; simpl; set_solver.
Qed.

(** *** Histories *)

Lemma stat_others l evs o o' :
  Forall (fun e => about e = Some o) evs -> o' <> o -> stat (l ++ evs) o' = stat l o'.
Proof.
  intros He Hne. revert l. induction He as [|e evs He _ IH]; intros l; [by rewrite app_nil_r|].
  replace (l ++ e :: evs) with ((l ++ [e]) ++ evs) by (by rewrite <- app_assoc).
  rewrite IH. apply stat_other. congruence.
Qed.

Lemma stat_app2 l e1 e2 o : stat (l ++ [e1; e2]) o = stat_step o e2 (stat_step o e1 (stat l o)).
Proof. unfold stat. by rewrite foldl_app. Qed.

Lemma op_ok_cur cur o x st : op_ok None o x st -> op_ok cur o x st.
Proof. unfold op_ok. destruct x; [|done]. intros (?&?&?&?&[?|?]&?); [|done]. repeat (split; [done|]). by split; [left|]. Qed.

Lemma op_ok_cur_ne o o' x st : o' <> o -> op_ok (Some o) o' x st -> op_ok None o' x st.
Proof.
  unfold op_ok. destruct x; [|done]. intros Hne (?&?&?&?&[?|?]&?); [|congruence].
  repeat (split; [done|]). by split; [left|].
Qed.

Lemma chan_types_ext l l' c :
  (forall o t, born (stat l o) = Some t -> born (stat l' o) = Some t) -> chan_types l c -> chan_types l' c.
Proof.
  intros E (H1 & H2 & H3). split; [|split]; intros o Ho; [eauto..|].
  destruct (H3 o Ho) as (t & ? & ?). eauto.
Qed.

(** *** Steps that change one operation *)

(** [s'] differs from [s] in the heap of operations, the log and the timers only. *)
Record same_rest (s s' : bt_att) : Prop := {
  sr_ref : ref_count s' = ref_count s;
  sr_chans : chans s' = chans s;
  sr_chan : chan_heap s' = chan_heap s;
  sr_nl : notify_list s' = notify_list s;
  sr_nh : notify_heap s' = notify_heap s;
  sr_dl : disconn_list s' = disconn_list s;
  sr_dh : disconn_heap s' = disconn_heap s;
  sr_next : next_ptr s' = next_ptr s;
  sr_req : req_queue s' = req_queue s;
  sr_ind : ind_queue s' = ind_queue s;
  sr_write : write_queue s' = write_queue s;
  sr_disc : in_disc s' = in_disc s;
  sr_freed : freed s' = freed s;
  sr_id : next_send_id s' = next_send_id s;
}.

Lemma same_rest_all s s' : same_rest s s' -> all_ops s' = all_ops s.
Proof. intros []. unfold all_ops. congruence. Qed.

Lemma keys_delete {A} (m : gmap positive A) i x :
  m !! i = Some x -> (map_to_list m).*1 ≡ₚ i :: (map_to_list (delete i m)).*1.
Proof.
  intros Hx. rewrite <- (insert_id m i x Hx) at 1. rewrite <- (insert_delete_eq m i x).
  by rewrite map_to_list_insert by apply lookup_delete_eq.
Qed.

Lemma keys_insert {A} (m : gmap positive A) i x y :
  m !! i = Some x -> (map_to_list (<[i := y]> m)).*1 ≡ₚ (map_to_list m).*1.
Proof.
  intros Hx. rewrite (keys_delete m i x Hx). rewrite (keys_delete (<[i := y]> m) i y) by apply lookup_insert_eq.
  by rewrite delete_insert_eq.
Qed.

Section OneOp.
Context (fl : list positive) (cur cur' ft : option positive) (s s' : bt_att)
        (o : positive) (op : att_send_op) (evs : list att_event).
Context (Hop : op_heap s !! o = Some op)
        (Hrest : same_rest s s')
        (Hlog : log s' = log s ++ evs)
        (Habout : Forall (fun e => about e = Some o) evs)
        (Hborn : born (stat (log s ++ evs) o) = born (stat (log s) o))
        (Hcur : forall o' x st, o' <> o -> op_ok cur o' x st -> op_ok cur' o' x st).

Lemma one_op_born o' : born (stat (log s') o') = born (stat (log s) o').
Proof.
  rewrite Hlog. destruct (decide (o' = o)) as [->|Hne]; [done|]. by rewrite (stat_others _ _ o).
Qed.

Lemma one_op_stat o' : o' <> o -> stat (log s') o' = stat (log s) o'.
Proof. intros. rewrite Hlog. by apply (stat_others _ _ o). Qed.

(** The operation is assigned to. *)
Lemma inv_op_step op' :
  inv fl cur ft s ->
  op_heap s' = <[o := op']> (op_heap s) -> timers s' = timers s ->
  op_type op' = op_type op ->
  op_id op' = op_id op ->
  op_timeout_id op' = op_timeout_id op \/ o ∈ fl ->
  op_ok cur' o (Some op') (stat (log s') o) ->
  inv fl cur' ft s'.
Proof.
  intros I Hh Ht Hty Hidop Htm Hok. pose proof (inv_nodup _ _ _ _ I) as Hnd.
  assert (o < next_ptr s)%positive as Hlt.
  { apply Pos.lt_nle. intros Hle. destruct (inv_fresh _ _ _ _ I o Hle). congruence. }
  assert (Hbe := one_op_born). assert (Hse := one_op_stat).
  assert (He : forall o t, born (stat (log s) o) = Some t -> born (stat (log s') o) = Some t)
    by (intros; by rewrite Hbe).
  assert (Hall := same_rest_all _ _ Hrest).
  destruct I, Hrest. constructor; rewrite ?sr_next0, ?sr_chan0, ?sr_nh0, ?sr_nl0, ?sr_dl0, ?sr_dh0,
    ?sr_req0, ?sr_ind0, ?sr_write0, ?sr_chans0, ?sr_ref0, ?sr_freed0; try done.
  - rewrite Hall, Hh, <- inv_perm0.
    by rewrite (keys_insert _ _ _ _ Hop).
  - intros o'. rewrite Hh. destruct (decide (o' = o)) as [->|Hne].
    + by rewrite lookup_insert_eq.
    + rewrite lookup_insert_ne by done. rewrite Hse by done. by apply Hcur.
  - intros o' Hle. rewrite Hh, lookup_insert_ne by lia. rewrite Hse by lia. by apply inv_fresh0.
  - eauto.
  - eauto.
  - intros o' Ho'. destruct (inv_write0 o' Ho') as (t & ? & ?). eauto.
  - intros ch c Hc. eapply chan_types_ext; [exact He|eauto].
  - intros t ch id. rewrite Ht. intros Hx Hft.
    destruct (inv_timers0 t ch id Hx Hft) as (c & o' & op1 & Hc & Hp & Ho' & Hto & Hid).
    destruct (decide (o' = o)) as [->|Hne].
    + destruct Htm as [?|Hin].
      * exists c, o, op'. rewrite Hh, lookup_insert_eq. simplify_eq. repeat split; try done; congruence.
      * exfalso. apply NoDup_app in Hnd as (_ & Hd & _). apply (Hd o Hin).
        by eapply all_ops_pending.
    + exists c, o', op1. rewrite Hh, lookup_insert_ne by done. done.
  - unfold small. rewrite sr_next0, sr_id0. intros Hsm. destruct (inv_ids0 Hsm) as [? Hids].
    split; [done|].
    assert (Hold : forall x y, op_heap s' !! x = Some y ->
      exists y0, op_heap s !! x = Some y0 /\ op_type y = op_type y0 /\ op_id y = op_id y0).
    { intros x y. rewrite Hh. destruct (decide (x = o)) as [->|Hne].
      - rewrite lookup_insert_eq. intros [= <-]. eauto.
      - rewrite lookup_insert_ne by done. eauto. }
    intros x y Hx Ha. destruct (Hold x y Hx) as (y0 & Hx0 & -> & ->) in Ha |- *.
    destruct (Hids x y0 Hx0 Ha) as [? Hinj]. split; [done|]. intros x' y' Hx' Ha'.
    destruct (Hold x' y' Hx') as (y0' & Hx0' & Hty' & ->). rewrite Hty' in Ha'. eauto.
Qed.

(** The operation is freed, with its timer. *)
Lemma inv_op_gone ft' :
  inv (o :: fl) cur ft s ->
  op_heap s' = delete o (op_heap s) ->
  timers s' = timers (timeout_remove (op_timeout_id op) s) ->
  op_ok cur' o None (stat (log s') o) ->
  ft' = ft \/ (ft = op_timeout_id op /\ ft' = None) ->
  inv fl cur' ft' s'.
Proof.
  intros I Hh Ht Hok Hft'. pose proof (inv_nodup _ _ _ _ I) as Hnd.
  assert (Hbe := one_op_born). assert (Hse := one_op_stat).
  assert (He : forall o t, born (stat (log s) o) = Some t -> born (stat (log s') o) = Some t)
    by (intros; by rewrite Hbe).
  assert (Hall := same_rest_all _ _ Hrest).
  destruct I, Hrest. constructor; rewrite ?sr_next0, ?sr_chan0, ?sr_nh0, ?sr_nl0, ?sr_dl0, ?sr_dh0,
    ?sr_req0, ?sr_ind0, ?sr_write0, ?sr_chans0, ?sr_ref0, ?sr_freed0; try done.
  - rewrite Hall, Hh. apply (Permutation_cons_inv (a := o)).
    rewrite <- (keys_delete _ _ _ Hop). done.
  - intros o'. rewrite Hh. destruct (decide (o' = o)) as [->|Hne].
    + by rewrite lookup_delete_eq.
    + rewrite lookup_delete_ne by done. rewrite Hse by done. by apply Hcur.
  - intros o' Hle. assert (o' <> o).
    { intros ->. destruct (inv_fresh0 o Hle). congruence. }
    rewrite Hh, lookup_delete_ne by done. rewrite Hse by done. by apply inv_fresh0.
  - eauto.
  - eauto.
  - intros o' Ho'. destruct (inv_write0 o' Ho') as (t & ? & ?). eauto.
  - intros ch c Hc. eapply chan_types_ext; [exact He|eauto].
  - intros t ch id. rewrite Ht. intros Hx Hft.
    assert (timers s !! t = Some (ch, id) /\ op_timeout_id op <> Some t) as [Hx' Hne'].
    { destruct (op_timeout_id op) as [t'|]; simpl in Hx; [|done].
      apply lookup_delete_Some in Hx as [? ?]. split; [done|congruence]. }
    destruct (inv_timers0 t ch id Hx') as (c & o' & op1 & Hc & Hp & Ho' & Hto & Hid).
    { destruct Hft' as [->|[-> ->]]; congruence. }
    exists c, o', op1. rewrite Hh, lookup_delete_ne; [done|].
    intros <-. simplify_eq.
  - unfold small. rewrite sr_next0, sr_id0. intros Hsm. destruct (inv_ids0 Hsm) as [? Hids].
    split; [done|]. intros x y Hx Ha. rewrite Hh in Hx. apply lookup_delete_Some in Hx as [? Hx].
    destruct (Hids x y Hx Ha) as [? Hinj]. split; [done|]. intros x' y' Hx'.
    rewrite Hh in Hx'. apply lookup_delete_Some in Hx' as [? Hx']. eauto.
Qed.
End OneOp.

(** *** Moving operations between places *)

Lemma inv_add_log fl cur ft s e : about e = None -> inv fl cur ft s -> inv fl cur ft (add_log e s).
Proof.
  intros He I. assert (Hs : forall o, stat (log s ++ [e]) o = stat (log s) o)
    by (intros; apply stat_other; congruence).
  destruct I. constructor; cbn; intros; rewrite ?Hs; eauto.
  eapply chan_types_ext; [|eauto]. intros. by rewrite Hs.
Qed.

Lemma inv_fl_perm fl fl' cur ft s : fl ≡ₚ fl' -> inv fl cur ft s -> inv fl' cur ft s.
Proof. intros Hp []. constructor; eauto. by rewrite <- Hp. Qed.

Lemma inv_set_chan fl fl' cur ft ft' s ch c c' :
  inv fl cur ft s -> chan_heap s !! ch = Some c ->
  fl' ++ chan_ops c' ≡ₚ fl ++ chan_ops c ->
  chan_types (log s) c' ->
  (forall o op t, pending_req c = Some o \/ pending_ind c = Some o -> op_heap s !! o = Some op ->
     op_timeout_id op = Some t -> ft' <> Some t -> pending_req c' = Some o \/ pending_ind c' = Some o) ->
  ft = None \/ ft' = ft ->
  inv fl' cur ft' (set_chan ch c' s).
Proof.
  intros I Hc Hp Hty Hpend Hft. destruct (all_ops_chan s ch c Hc) as (rest & Hall & Hall' & _).
  destruct I. constructor; cbn; eauto.
  - rewrite inv_perm0, Hall, Hall'. rewrite !app_assoc. by rewrite Hp.
  - intros o Hle. destruct (inv_fresh0 o Hle) as (? & ? & ? & ? & ?).
    repeat (split; [done|]). split; [|done]. rewrite lookup_insert_ne; [done|]. intros ->. congruence.
  - intros ch' c0. destruct (decide (ch' = ch)) as [->|Hne].
    + rewrite lookup_insert_eq. by intros [= <-].
    + rewrite lookup_insert_ne by done. apply inv_chan0.
  - destruct inv_chans0 as [? Hin]. split; [done|]. intros ch' Hch'.
    destruct (decide (ch' = ch)) as [->|Hne]; [by rewrite lookup_insert_eq|].
    rewrite lookup_insert_ne by done. by apply Hin.
  - intros t ch' id Ht Hne.
    destruct (inv_timers0 t ch' id Ht) as (c0 & o & op & Hc0 & Hpo & Hop & Hto & Hid).
    { destruct Hft as [->| <-]; congruence. }
    destruct (decide (ch' = ch)) as [->|Hnc].
    + simplify_eq. exists c', o, op. rewrite lookup_insert_eq. repeat split; eauto.
    + exists c0, o, op. by rewrite lookup_insert_ne by done.
Qed.

(** An assignment to a field of a channel that holds no operation. *)
Lemma inv_upd_chan fl cur ft s ch c c' :
  inv fl cur ft s -> chan_heap s !! ch = Some c ->
  c_queue c' = c_queue c -> pending_req c' = pending_req c -> pending_ind c' = pending_ind c ->
  inv fl cur ft (set_chan ch c' s).
Proof.
  intros I Hc Hq Hr Hi. eapply inv_set_chan; [done..| | | |by right].
  - unfold chan_ops. by rewrite Hq, Hr, Hi.
  - unfold chan_types. rewrite Hq, Hr, Hi. by eapply inv_chan.
  - intros o op t. rewrite Hr, Hi. eauto.
Qed.

Lemma inv_set_req fl fl' cur ft s q :
  inv fl cur ft s -> fl' ++ q ≡ₚ fl ++ req_queue s ->
  (forall o, o ∈ q -> born (stat (log s) o) = Some ATT_OP_TYPE_REQ) ->
  inv fl' cur ft (set_req_queue q s).
Proof.
  intros I Hp Hq. destruct I. constructor; cbn; eauto. rewrite inv_perm0. unfold all_ops; cbn.
  rewrite !app_assoc. by rewrite Hp.
Qed.

Lemma inv_set_ind fl fl' cur ft s q :
  inv fl cur ft s -> fl' ++ q ≡ₚ fl ++ ind_queue s ->
  (forall o, o ∈ q -> born (stat (log s) o) = Some ATT_OP_TYPE_IND) ->
  inv fl' cur ft (set_ind_queue q s).
Proof.
  intros I Hp Hq. destruct I. constructor; cbn; eauto. rewrite inv_perm0. unfold all_ops; cbn.
  transitivity (req_queue s ++ (fl ++ ind_queue s) ++ write_queue s
    ++ (map_to_list (chan_heap s) ≫= fun p => chan_ops p.2)); [solve_Permutation|].
  rewrite <- Hp. solve_Permutation.
Qed.

Lemma inv_set_write fl fl' cur ft s q :
  inv fl cur ft s -> fl' ++ q ≡ₚ fl ++ write_queue s ->
  (forall o, o ∈ q -> exists t, born (stat (log s) o) = Some t /\ asks t = false) ->
  inv fl' cur ft (set_write_queue q s).
Proof.
  intros I Hp Hq. destruct I. constructor; cbn; eauto. rewrite inv_perm0. unfold all_ops; cbn.
  transitivity (req_queue s ++ ind_queue s ++ (fl ++ write_queue s)
    ++ (map_to_list (chan_heap s) ≫= fun p => chan_ops p.2)); [solve_Permutation|].
  rewrite <- Hp. solve_Permutation.
Qed.

(** Assignments to fields the invariant does not mention. *)
Ltac inv_triv :=
  match goal with I : inv _ _ _ _ |- _ => destruct I; constructor; cbn; eauto end.

(** ** What calls leave alone *)

Definition chan_like (x y : option bt_att_chan) : Prop :=
  match x, y with
  | Some c, Some c' => pending_req c' = pending_req c /\ pending_ind c' = pending_ind c
  | None, None => True
  | _, _ => False
  end.

(** [rg]: the call may change the registered handlers. *)
Record frame_reg (rg : bool) (s s' : bt_att) : Prop := {
  fr_reg : rg = false -> notify_list s' = notify_list s /\ notify_heap s' = notify_heap s;
  fr_chans : chans s' = chans s;
  fr_disc : in_disc s' = in_disc s;
  fr_chan : forall ch, chan_like (chan_heap s !! ch) (chan_heap s' !! ch);
  fr_born : forall o t, born (stat (log s) o) = Some t -> born (stat (log s') o) = Some t;
  fr_next : (next_ptr s <= next_ptr s')%positive;
  fr_req : chans s = [] -> forall o, o ∈ req_queue s' -> o ∈ req_queue s;
  fr_ind : chans s = [] -> forall o, o ∈ ind_queue s' -> o ∈ ind_queue s;
  fr_write : chans s = [] -> forall o, o ∈ write_queue s' -> o ∈ write_queue s;
  fr_dis : chans s = [] -> forall d, is_Some (disconn_heap s !! d) -> is_Some (disconn_heap s' !! d);
  fr_ref : ref_count s' = ref_count s;
  fr_log : log s `prefix_of` log s';
}.

#[local] Hint Resolve prefix_app_r : core.
#[local] Hint Extern 1 (prefix _ _) => reflexivity : core.

Notation frame := (frame_reg false).

Lemma chan_like_refl x : chan_like x x.
Proof. by destruct x. Qed.
#[local] Hint Resolve chan_like_refl : core.

#[local] Instance frame_refl rg : Reflexive (frame_reg rg).
Proof. intros s. constructor; eauto. done. Qed.

#[local] Instance frame_trans rg : Transitive (frame_reg rg).
Proof.
  intros s1 s2 s3 [] []. constructor; try congruence; eauto.
  - intros Hr. destruct (fr_reg0 Hr), (fr_reg1 Hr). split; congruence.
  - intros ch. specialize (fr_chan0 ch). specialize (fr_chan1 ch). unfold chan_like in *.
    destruct (chan_heap s1 !! ch), (chan_heap s2 !! ch), (chan_heap s3 !! ch); try done.
    destruct fr_chan0, fr_chan1. split; congruence.
  - lia.
  - intros Hs o Ho. apply fr_req0; [done|]. apply fr_req1; [congruence|done].
  - intros Hs o Ho. apply fr_ind0; [done|]. apply fr_ind1; [congruence|done].
  - intros Hs o Ho. apply fr_write0; [done|]. apply fr_write1; [congruence|done].
  - intros Hs d Hd. apply fr_dis1; [congruence|eauto].
  - by etrans.
Qed.

Lemma frame_weaken rg s s' : frame s s' -> frame_reg rg s s'.
Proof. intros []. constructor; eauto. Qed.

Lemma frame_add_log e s : about e = None -> frame s (add_log e s).
Proof. intros He. constructor; cbn; eauto; [|done]. intros. rewrite stat_other; congruence. Qed.

Lemma frame_set_chan s ch c c' :
  chan_heap s !! ch = Some c -> pending_req c' = pending_req c -> pending_ind c' = pending_ind c ->
  frame s (set_chan ch c' s).
Proof.
  intros Hc Hr Hi. constructor; cbn; eauto; [|done].
  intros ch'. destruct (decide (ch' = ch)) as [->|Hne]; [by rewrite Hc, lookup_insert_eq|].
  by rewrite lookup_insert_ne.
Qed.

(** A call that succeeds and keeps the invariant and the frame. *)
Definition safe (fl : list positive) (cur ft : option positive) (s : bt_att) (r : option bt_att) : Prop :=
  exists s', r = Some s' /\ inv fl cur ft s' /\ frame s s'.

Lemma safe_bind fl cur ft s r f :
  safe fl cur ft s r ->
  (forall s', inv fl cur ft s' -> frame s s' -> safe fl cur ft s' (f s')) ->
  safe fl cur ft s (r ≫= f).
Proof.
  intros (s' & -> & I & F) Hf. destruct (Hf s' I F) as (s'' & Hs & I' & F').
  exists s''. split; [done|]. split; [done|]. by etrans.
Qed.

Lemma safe_ret fl cur ft s : inv fl cur ft s -> safe fl cur ft s (Some s).
Proof. intros. exists s. done. Qed.

(** ** Waking the writers *)

Lemma wakeup_chan_safe fl cur ft s ch :
  inv fl cur ft s -> is_Some (chan_heap s !! ch) -> safe fl cur ft s (wakeup_chan_writer ch s).
Proof.
  intros I [c Hc]. unfold wakeup_chan_writer. rewrite Hc. cbn [mbind option_bind].
  destruct (writer_active c); [by apply safe_ret|].
  destruct (isNil (c_queue c) && _ && _); [by apply safe_ret|].
  eexists. split; [done|]. split; [by eapply inv_upd_chan|]. by eapply frame_set_chan.
Qed.

Lemma for_each_safe fl cur ft f l s :
  inv fl cur ft s ->
  (forall x s', x ∈ l -> frame s s' -> inv fl cur ft s' -> safe fl cur ft s' (f x s')) ->
  safe fl cur ft s (for_each f l s).
Proof.
  intros I Hf. assert (Hgen : forall s0, frame s s0 -> inv fl cur ft s0 -> safe fl cur ft s0 (for_each f l s0)); [|by apply Hgen].
  induction l as [|x l IH]; intros s0 F0 I0; cbn [for_each]; [by apply safe_ret|].
  apply safe_bind; [apply Hf; [by left|done..]|]. intros s1 I1 F1. apply IH; [|by etrans|done].
  intros y s' Hy. apply Hf. by right.
Qed.

Lemma frame_chan_some rg s s' ch : frame_reg rg s s' -> is_Some (chan_heap s !! ch) -> is_Some (chan_heap s' !! ch).
Proof.
  intros F [c Hc]. pose proof (fr_chan _ _ _ F ch) as H. rewrite Hc in H.
  destruct (chan_heap s' !! ch); [eauto|done].
Qed.

Lemma wakeup_writer_safe fl cur ft s : inv fl cur ft s -> safe fl cur ft s (wakeup_writer s).
Proof.
  intros I. apply for_each_safe; [done|]. intros ch s' Hch F I'. apply wakeup_chan_safe; [done|].
  eapply frame_chan_some; [done|]. by apply (inv_chans _ _ _ _ I).
Qed.

(** ** Destroying and cancelling *)

Lemma timeout_remove_rest tid s : same_rest s (timeout_remove tid s).
Proof. destruct tid; by constructor. Qed.

Lemma same_rest_log s s' l : same_rest s s' -> same_rest s (set_log l s').
Proof. intros []. by constructor. Qed.

Lemma same_rest_ops s s' h : same_rest s s' -> same_rest s (set_op_heap h s').
Proof. intros []. by constructor. Qed.
#[local] Hint Resolve timeout_remove_rest same_rest_log same_rest_ops : core.

Definition destroy_event (o : positive) (op : att_send_op) : list att_event :=
  match op_destroy op with Some d => [LDestroy o d (op_user_data op)] | None => [] end.

Lemma destroy_unfold o s op :
  op_heap s !! o = Some op ->
  exists s', destroy_att_send_op o s = Some s' /\ same_rest s s' /\
    log s' = log s ++ destroy_event o op /\ op_heap s' = delete o (op_heap s) /\
    timers s' = timers (timeout_remove (op_timeout_id op) s).
Proof.
  intros Hop. unfold destroy_att_send_op, destroy_event. rewrite Hop. cbn [mbind option_bind].
  eexists. split; [done|].
  destruct (op_destroy op), (op_timeout_id op); cbn; rewrite ?app_nil_r; by split; [constructor|].
Qed.

Lemma same_rest_frame s s' o evs :
  same_rest s s' -> log s' = log s ++ evs -> Forall (fun e => about e = Some o) evs ->
  (forall t, born (stat (log s) o) = Some t -> born (stat (log s ++ evs) o) = Some t) ->
  frame s s'.
Proof.
  intros [] Hlog Ha Hb. constructor; try congruence.
  - done.
  - intros ch. rewrite sr_chan0. done.
  - intros o' t. rewrite Hlog. destruct (decide (o' = o)) as [->|Hne]; [apply Hb|].
    by rewrite (stat_others _ _ o).
  - rewrite sr_next0. done.
  - rewrite Hlog. apply prefix_app_r. done.
Qed.

Lemma about_destroy o op : Forall (fun e => about e = Some o) (destroy_event o op).
Proof. unfold destroy_event. destruct (op_destroy op); by repeat constructor. Qed.

Lemma stat_destroy cur l o op :
  op_ok cur o (Some op) (stat l o) ->
  exists n, stat (l ++ destroy_event o op) o
    = mkStat (born (stat l o)) (resp (stat l o)) n (canc (stat l o)) false /\ (n <= 1)%nat.
Proof.
  intros (Hl & Hr & Hd & Hb & Hc & Hx). unfold destroy_event.
  destruct (stat l o) as [b r d ca la] eqn:E; simpl in *. subst la.
  destruct (op_destroy op) eqn:Ed.
  - rewrite stat_app, E. simpl. rewrite decide_True by done.
    destruct ca; [destruct Hx; congruence|]. destruct Hx as [-> _]. exists 1%nat. done.
  - rewrite app_nil_r, E. by exists d.
Qed.

Lemma destroy_safe fl cur cur' ft ft' s o op :
  inv (o :: fl) cur ft s -> op_heap s !! o = Some op ->
  (asks (op_type op) = true -> canc (stat (log s) o) = true \/ resp (stat (log s) o) = 1%nat) ->
  cur' = cur \/ (cur = Some o /\ cur' = None) ->
  ft' = ft \/ (ft = op_timeout_id op /\ ft' = None) ->
  exists s', destroy_att_send_op o s = Some s' /\ inv fl cur' ft' s' /\ frame s s'.
Proof.
  intros I Hop Hdone Hcur Hft. destruct (destroy_unfold o s op Hop) as (s' & -> & Hr & Hl & Hh & Ht).
  pose proof (inv_ops _ _ _ _ I o) as Hok. rewrite Hop in Hok.
  destruct (stat_destroy cur (log s) o op Hok) as (n & Hst & Hn).
  pose proof (about_destroy o op) as Ha.
  exists s'. split; [done|]. split.
  - eapply (inv_op_gone fl cur cur' ft s s' o op _ Hop Hr Hl Ha); try done.
    + by rewrite Hst.
    + intros o' x st Hne Ho. destruct Hcur as [->|[-> ->]]; [done|by eapply op_ok_cur_ne].
    + rewrite Hl, Hst. destruct Hok as (H1 & H2 & H3 & H4 & _). repeat split; try done.
      intros t Ht'. simpl in *. rewrite H4 in Ht'. injection Ht' as <-. done.
  - eapply same_rest_frame; [done..|]. intros t. by rewrite Hst.
Qed.

Lemma inv_log_canc fl cur ft s o op :
  inv (o :: fl) cur ft s -> op_heap s !! o = Some op ->
  exists s', destroy_cancelled o s = Some s' /\ inv fl cur ft s' /\ frame s s'.
Proof.
  intros I Hop. unfold destroy_cancelled.
  destruct (destroy_unfold o (add_log (LCancelled o) s) op Hop) as (s' & -> & Hr & Hl & Hh & Ht).
  pose proof (inv_ops _ _ _ _ I o) as Hok. rewrite Hop in Hok.
  assert (Hr' : same_rest s s') by (destruct Hr; by constructor).
  assert (Hl' : log s' = log s ++ LCancelled o :: destroy_event o op)
    by (rewrite Hl; cbn; by rewrite <- app_assoc).
  assert (Ha : Forall (fun e => about e = Some o) (LCancelled o :: destroy_event o op))
    by (constructor; [done|apply about_destroy]).
  assert (Hst : exists n, stat (log s') o
    = mkStat (born (stat (log s) o)) (resp (stat (log s) o)) n true false /\ (n <= 1)%nat).
  { destruct Hok as (H1 & H2 & H3 & H4 & H5 & H6).
    assert (E : stat (log s ++ [LCancelled o]) o
      = mkStat (born (stat (log s) o)) (resp (stat (log s) o)) (dest (stat (log s) o)) true
          (late (stat (log s) o))) by (rewrite stat_app; simpl; by rewrite decide_True).
    rewrite Hl. cbn. unfold destroy_event. destruct (op_destroy op) as [d|] eqn:Ed.
    - rewrite stat_app, E. simpl. rewrite decide_True by done.
      destruct (canc (stat (log s) o)); [destruct H6; congruence|]. destruct H6 as [-> _].
      rewrite H1. exists 1%nat. done.
    - rewrite app_nil_r, E, H1. eauto. }
  destruct Hst as (n & Hst & Hn). exists s'. split; [done|]. split.
  - eapply (inv_op_gone fl cur cur ft s s' o op _ Hop Hr' Hl' Ha); try done; eauto.
    + by rewrite <- Hl', Hst.
    + rewrite Ht. by destruct (op_timeout_id op).
    + rewrite Hst. destruct Hok as (H1 & H2 & H3 & H4 & _). repeat split; try done. by left.
  - eapply same_rest_frame; [done..|]. intros t. by rewrite <- Hl', Hst.
Qed.

Lemma cancel_safe fl cur ft s o op :
  inv fl cur ft s -> op_heap s !! o = Some op -> safe fl cur ft s (cancel_att_send_op o s).
Proof.
  intros I Hop. pose proof (inv_ops _ _ _ _ I o) as Hok. rewrite Hop in Hok.
  destruct (stat_destroy cur (log s) o op Hok) as (n & Hst & Hn).
  set (op' := set_op_destroy None (set_op_callback None (set_op_user_data 0 op))).
  set (s' := set_log (log s ++ destroy_event o op ++ [LCancelled o]) (set_op o op' s)).
  assert (Hs : cancel_att_send_op o s = Some s').
  { unfold cancel_att_send_op, s', destroy_event. rewrite Hop. cbn [mbind option_bind]. f_equal.
    destruct (op_destroy op); unfold set_op, add_log; cbn; by rewrite <- ?app_assoc. }
  assert (Hst' : stat (log s') o
    = mkStat (born (stat (log s) o)) (resp (stat (log s) o)) n true false).
  { unfold s'. cbn. rewrite app_assoc, stat_app, Hst. simpl. by rewrite decide_True. }
  assert (Ha : Forall (fun e => about e = Some o) (destroy_event o op ++ [LCancelled o]))
    by (apply Forall_app; split; [apply about_destroy|by repeat constructor]).
  exists s'. split; [done|]. split.
  - eapply (inv_op_step fl cur cur ft s s' o op _ Hop ltac:(by constructor) eq_refl Ha) with (op' := op');
      try done.
    + unfold s' in Hst'. cbn in Hst'. by rewrite Hst'.
    + by left.
    + rewrite Hst'. destruct Hok as (H1 & H2 & H3 & H4 & H5 & _). repeat split; try done.
  - eapply (same_rest_frame s s' o); [by constructor|done|done|]. intros t. unfold s' in Hst'. cbn in Hst'.
    by rewrite Hst'.
Qed.

Lemma live_op fl cur ft s o : inv fl cur ft s -> o ∈ fl ++ all_ops s -> exists op, op_heap s !! o = Some op.
Proof. intros I. exact (proj1 (inv_live _ _ _ _ o I)). Qed.

Lemma in_req_all s o : o ∈ req_queue s -> o ∈ all_ops s.
Proof. unfold all_ops. set_solver. Qed.
Lemma in_ind_all s o : o ∈ ind_queue s -> o ∈ all_ops s.
Proof. unfold all_ops. set_solver. Qed.
Lemma in_write_all s o : o ∈ write_queue s -> o ∈ all_ops s.
Proof. unfold all_ops. set_solver. Qed.
Lemma in_chan_all s ch c o : chan_heap s !! ch = Some c -> o ∈ chan_ops c -> o ∈ all_ops s.
Proof. intros Hc Ho. destruct (all_ops_chan s ch c Hc) as (rest & -> & _). set_solver. Qed.

(** Destroying all operations of an emptied queue. *)
Lemma destroy_cancelled_all l fl cur ft s :
  inv (l ++ fl) cur ft s ->
  exists s', for_each destroy_cancelled l s = Some s' /\ inv fl cur ft s' /\ frame s s'.
Proof.
  revert s. induction l as [|o l IH]; intros s I; [by exists s|]. cbn [for_each].
  destruct (live_op _ _ _ _ o I) as [op Hop]; [by left|].
  destruct (inv_log_canc _ _ _ _ _ _ I Hop) as (s1 & -> & I1 & F1). cbn [mbind option_bind].
  destruct (IH s1 I1) as (s2 & -> & I2 & F2). exists s2. split; [done|]. split; [done|]. by etrans.
Qed.

(** ** Finding operations *)

Lemma find_op_spec fl cur ft s id l :
  inv fl cur ft s -> (forall o, o ∈ l -> o ∈ all_ops s) ->
  exists r, find_op id l s = Some r /\ forall o, r = Some o -> o ∈ l.
Proof.
  intros I. induction l as [|o l IH]; intros Hl; cbn [find_op]; [by exists None|].
  destruct (live_op _ _ _ _ o I) as [op Hop].
  { apply elem_of_app. right. apply Hl. by left. }
  rewrite Hop. cbn [mbind option_bind]. destruct (op_id op =? id).
  - eexists. split; [done|]. intros ? [= <-]. by left.
  - destruct IH as (r & -> & Hr); [intros; apply Hl; by right|]. exists r. split; [done|].
    intros o' Ho'. right. eauto.
Qed.

Lemma remove_one_perm o l : o ∈ l -> l ≡ₚ o :: remove_one o l.
Proof.
  induction l as [|x l IH]; [by intros ?%elem_of_nil|]. simpl. intros Ho.
  destruct (decide (x = o)) as [->|Hne]; [done|].
  apply elem_of_cons in Ho as [->|Ho]; [done|]. rewrite (IH Ho) at 1. apply perm_swap.
Qed.

Lemma remove_one_in o x l : x ∈ remove_one o l -> x ∈ l.
Proof.
  induction l as [|y l IH]; simpl; [done|]. destruct (decide (y = o)); [by right|].
  intros [->|?]%elem_of_cons; [by left|right; eauto].
Qed.

Lemma pending_is_spec fl cur ft s p id :
  inv fl cur ft s -> (forall o, p = Some o -> o ∈ all_ops s) ->
  exists b, pending_is p id s = Some b /\
    (b = true -> exists o op, p = Some o /\ op_heap s !! o = Some op /\ op_id op = id).
Proof.
  intros I Hp. destruct p as [o|]; cbn [pending_is]; [|by exists false].
  destruct (live_op _ _ _ _ o I) as [op Hop]; [apply elem_of_app; right; eauto|].
  rewrite Hop. cbn [mbind option_bind]. eexists. split; [done|].
  intros ?%Z.eqb_eq. eauto.
Qed.

Lemma cancel_pending_safe fl cur ft s p :
  inv fl cur ft s -> (forall o, p = Some o -> o ∈ all_ops s) -> safe fl cur ft s (cancel_pending p s).
Proof.
  intros I Hp. destruct p as [o|]; cbn [cancel_pending]; [|by apply safe_ret].
  destruct (live_op _ _ _ _ o I) as [op Hop]; [apply elem_of_app; right; eauto|]. by eapply cancel_safe.
Qed.

Lemma pending_req_all s ch c o : chan_heap s !! ch = Some c -> pending_req c = Some o -> o ∈ all_ops s.
Proof. intros. eapply all_ops_pending; eauto. Qed.
Lemma pending_ind_all s ch c o : chan_heap s !! ch = Some c -> pending_ind c = Some o -> o ∈ all_ops s.
Proof. intros. eapply all_ops_pending; eauto. Qed.
Lemma c_queue_all s ch c o : chan_heap s !! ch = Some c -> o ∈ c_queue c -> o ∈ all_ops s.
Proof. intros Hc Ho. eapply in_chan_all; [done|]. unfold chan_ops. set_solver. Qed.

(** ** Cancelling *)

(** A call with a result. *)
Definition safe_r {A} (fl : list positive) (cur ft : option positive) (s : bt_att)
    (r : option (A * bt_att)) : Prop :=
  exists a s', r = Some (a, s') /\ inv fl cur ft s' /\ frame s s'.

Lemma safe_r_ret {A} fl cur ft s (a : A) : inv fl cur ft s -> safe_r fl cur ft s (Some (a, s)).
Proof. intros. exists a, s. done. Qed.

Lemma safe_ret_r {A} fl cur ft s s' (a : A) f :
  inv fl cur ft s' -> frame s s' -> safe fl cur ft s' f ->
  safe_r fl cur ft s (f ≫= fun s => Some (a, s)).
Proof. intros I F (s2 & -> & I2 & F2). exists a, s2. split; [done|]. split; [done|]. by etrans. Qed.

Lemma safe_drop {A} fl cur ft s (r : option (A * bt_att)) :
  safe_r fl cur ft s r -> safe fl cur ft s (r ≫= fun x => Some x.2).
Proof. intros (a & s' & -> & I & F). by exists s'. Qed.

(** Taking an operation out of a place, destroying it and going on. *)
Lemma destroy_then {A} fl cur ft s s1 o (a : A) f :
  inv (o :: fl) cur ft s1 -> frame s s1 ->
  (forall s', inv fl cur ft s' -> frame s s' -> safe fl cur ft s' (f s')) ->
  safe_r fl cur ft s (s ← destroy_cancelled o s1; s ← f s; Some (a, s)).
Proof.
  intros I F Hf. destruct (live_op _ _ _ _ o I) as [op Hop]; [by left|].
  destruct (inv_log_canc _ _ _ _ _ _ I Hop) as (s2 & -> & I2 & F2). cbn [mbind option_bind].
  assert (frame s s2) by (by etrans).
  destruct (Hf s2 I2 ltac:(done)) as (s3 & -> & I3 & F3). exists a, s3. split; [done|]. split; [done|]. by etrans.
Qed.

Lemma frame_req s q : (forall o, o ∈ q -> o ∈ req_queue s) -> frame s (set_req_queue q s).
Proof. intros Hq. constructor; cbn; eauto. done. Qed.
Lemma frame_ind s q : (forall o, o ∈ q -> o ∈ ind_queue s) -> frame s (set_ind_queue q s).
Proof. intros Hq. constructor; cbn; eauto. done. Qed.
Lemma frame_write s q : (forall o, o ∈ q -> o ∈ write_queue s) -> frame s (set_write_queue q s).
Proof. intros Hq. constructor; cbn; eauto. done. Qed.

Lemma take_perm o fl l : o ∈ l -> (o :: fl) ++ remove_one o l ≡ₚ fl ++ l.
Proof.
  intros Ho. pose proof (remove_one_perm o l Ho) as E. transitivity (fl ++ o :: remove_one o l).
  - solve_Permutation.
  - by rewrite <- E.
Qed.

Lemma take_req fl cur ft s o :
  inv fl cur ft s -> o ∈ req_queue s -> inv (o :: fl) cur ft (set_req_queue (remove_one o (req_queue s)) s).
Proof.
  intros I Ho. eapply inv_set_req; [done| |].
  - by apply take_perm.
  - intros o' ?%remove_one_in. by apply (inv_req _ _ _ _ I).
Qed.
Lemma take_ind fl cur ft s o :
  inv fl cur ft s -> o ∈ ind_queue s -> inv (o :: fl) cur ft (set_ind_queue (remove_one o (ind_queue s)) s).
Proof.
  intros I Ho. eapply inv_set_ind; [done| |].
  - by apply take_perm.
  - intros o' ?%remove_one_in. by apply (inv_ind _ _ _ _ I).
Qed.
Lemma take_write fl cur ft s o :
  inv fl cur ft s -> o ∈ write_queue s -> inv (o :: fl) cur ft (set_write_queue (remove_one o (write_queue s)) s).
Proof.
  intros I Ho. eapply inv_set_write; [done| |].
  - by apply take_perm.
  - intros o' ?%remove_one_in. by apply (inv_write _ _ _ _ I).
Qed.

Lemma take_c_queue fl cur ft s ch c o q :
  inv fl cur ft s -> chan_heap s !! ch = Some c -> o :: q ≡ₚ c_queue c ->
  inv (o :: fl) cur ft (set_chan ch (set_c_queue q c) s).
Proof.
  intros I Hc Hq. pose proof (inv_chan _ _ _ _ I ch c Hc) as (T1 & T2 & T3).
  eapply inv_set_chan; [done..| | | |by right]; cbn.
  - unfold chan_ops; cbn. rewrite <- Hq. solve_Permutation.
  - repeat split; cbn; eauto. intros o' Ho'. apply T3. rewrite <- Hq. by right.
  - eauto.
Qed.

Lemma chan_cancel_safe fl cur ft s ch id :
  inv fl cur ft s -> is_Some (chan_heap s !! ch) -> safe_r fl cur ft s (bt_att_chan_cancel ch id s).
Proof.
  intros I [c Hc]. unfold bt_att_chan_cancel. rewrite Hc. cbn [mbind option_bind].
  assert (Hr : forall o, pending_req c = Some o -> o ∈ all_ops s) by (intros; by eapply pending_req_all).
  assert (Hi : forall o, pending_ind c = Some o -> o ∈ all_ops s) by (intros; by eapply pending_ind_all).
  destruct (pending_is_spec _ _ _ _ _ id I Hr) as (b & -> & _). cbn [mbind option_bind].
  destruct b; [eapply safe_ret_r; [done..|]; by apply cancel_pending_safe|].
  destruct (pending_is_spec _ _ _ _ _ id I Hi) as (b & -> & _). cbn [mbind option_bind].
  destruct b; [eapply safe_ret_r; [done..|]; by apply cancel_pending_safe|].
  destruct (find_op_spec _ _ _ _ id (c_queue c) I) as (r & -> & Hin); [intros; by eapply c_queue_all|].
  cbn [mbind option_bind]. destruct r as [o|]; [|by apply safe_r_ret].
  unfold upd_chan. rewrite Hc. cbn [mbind option_bind].
  eapply destroy_then.
  - eapply take_c_queue; [done..|]. symmetry. apply remove_one_perm. by apply Hin.
  - by eapply frame_set_chan.
  - intros s' I' F'. apply wakeup_chan_safe; [done|]. eapply frame_chan_some; [done|by eexists].
Qed.

Lemma chans_cancel_safe fl cur ft s id l :
  inv fl cur ft s -> (forall ch, ch ∈ l -> is_Some (chan_heap s !! ch)) ->
  exists b s', chans_cancel id l s = Some (b, s') /\ inv fl cur ft s' /\ frame s s'.
Proof.
  revert s. induction l as [|ch l IH]; intros s I Hl; cbn [chans_cancel]; [by exists false, s|].
  destruct (chan_cancel_safe _ _ _ _ ch id I) as (b & s1 & -> & I1 & F1); [apply Hl; by left|].
  cbn [mbind option_bind]. destruct b; [by exists true, s1|].
  destruct (IH s1 I1) as (b & s2 & -> & I2 & F2).
  { intros ch' Hch'. eapply frame_chan_some; [done|]. apply Hl. by right. }
  exists b, s2. split; [done|]. split; [done|]. by etrans.
Qed.

Lemma cancel_some_safe fl cur ft s o :
  inv fl cur ft s -> o ∈ all_ops s ->
  safe_r fl cur ft s (s ← cancel_att_send_op o s; Some (true, s)).
Proof.
  intros I Ho. destruct (live_op _ _ _ _ o I) as [op Hop]; [apply elem_of_app; by right|].
  eapply safe_ret_r; [done..|]. by eapply cancel_safe.
Qed.

Lemma disc_cancel_safe fl cur ft s id :
  inv fl cur ft s -> safe_r fl cur ft s (bt_att_disc_cancel id s).
Proof.
  intros I. unfold bt_att_disc_cancel.
  destruct (find_op_spec _ _ _ _ id (req_queue s) I (in_req_all s)) as (r & -> & Hr).
  destruct (find_op_spec _ _ _ _ id (ind_queue s) I (in_ind_all s)) as (i & Ei & Hi).
  destruct (find_op_spec _ _ _ _ id (write_queue s) I (in_write_all s)) as (w & Ew & Hw).
  cbn [mbind option_bind].
  destruct r as [o|]; cbn [isSome mbind option_bind]; [apply cancel_some_safe; [done|]; by apply in_req_all, Hr|].
  rewrite Ei. cbn [mbind option_bind].
  destruct i as [o|]; cbn [isSome mbind option_bind]; [apply cancel_some_safe; [done|]; by apply in_ind_all, Hi|].
  rewrite Ew. cbn [mbind option_bind].
  destruct w as [o|]; [apply cancel_some_safe; [done|]; by apply in_write_all, Hw|]. by apply safe_r_ret.
Qed.

Lemma bt_att_cancel_safe fl cur ft s id :
  inv fl cur ft s -> safe_r fl cur ft s (bt_att_cancel id s).
Proof.
  intros I0. unfold bt_att_cancel. destruct (id =? 0); [by apply safe_r_ret|].
  destruct (chans_cancel_safe _ _ _ _ id (chans s) I0) as (b & s1 & -> & I & F0);
    [by apply (inv_chans _ _ _ _ I0)|].
  cbn [mbind option_bind]. destruct b; [by exists true, s1|].
  assert (Htr : forall r : option (bool * bt_att), safe_r fl cur ft s1 r -> safe_r fl cur ft s r).
  { intros r (a & s2 & -> & I2 & F2). exists a, s2. split; [done|]. split; [done|]. by etrans. }
  apply Htr. clear Htr. destruct (in_disc s1); [by apply disc_cancel_safe|].
  destruct (find_op_spec _ _ _ _ id (req_queue s1) I (in_req_all s1)) as (r & -> & Hr).
  destruct (find_op_spec _ _ _ _ id (ind_queue s1) I (in_ind_all s1)) as (i & Ei & Hi).
  destruct (find_op_spec _ _ _ _ id (write_queue s1) I (in_write_all s1)) as (w & Ew & Hw).
  cbn [mbind option_bind]. destruct r as [o|]; [|rewrite Ei; cbn [mbind option_bind]; destruct i as [o|];
    [|rewrite Ew; cbn [mbind option_bind]; destruct w as [o|]]].
  - eapply destroy_then; [by apply take_req, Hr|apply frame_req; intros ? ?%remove_one_in; done|].
    intros s' I' F'. by apply wakeup_writer_safe.
  - eapply destroy_then; [by apply take_ind, Hi|apply frame_ind; intros ? ?%remove_one_in; done|].
    intros s' I' F'. by apply wakeup_writer_safe.
  - eapply destroy_then; [by apply take_write, Hw|apply frame_write; intros ? ?%remove_one_in; done|].
    intros s' I' F'. by apply wakeup_writer_safe.
  - by apply safe_r_ret.
Qed.

(** Emptying a queue and destroying what was in it. *)
Lemma drain_cancelled fl cur ft s s1 q :
  inv (q ++ fl) cur ft s1 -> frame s s1 ->
  exists s', for_each destroy_cancelled q s1 = Some s' /\ inv fl cur ft s' /\ frame s s'.
Proof.
  intros I F. destruct (destroy_cancelled_all q fl cur ft s1 I) as (s' & -> & I' & F').
  exists s'. split; [done|]. split; [done|]. by etrans.
Qed.

Lemma empty_req fl cur ft s : inv fl cur ft s -> inv (req_queue s ++ fl) cur ft (set_req_queue [] s).
Proof. intros I. eapply inv_set_req; [done| |by intros o ?%elem_of_nil]. solve_Permutation. Qed.
Lemma empty_ind fl cur ft s : inv fl cur ft s -> inv (ind_queue s ++ fl) cur ft (set_ind_queue [] s).
Proof. intros I. eapply inv_set_ind; [done| |by intros o ?%elem_of_nil]. solve_Permutation. Qed.
Lemma empty_write fl cur ft s : inv fl cur ft s -> inv (write_queue s ++ fl) cur ft (set_write_queue [] s).
Proof. intros I. eapply inv_set_write; [done| |by intros o ?%elem_of_nil]. solve_Permutation. Qed.

Lemma nil_frame_req s : frame s (set_req_queue [] s).
Proof. apply frame_req. by intros o ?%elem_of_nil. Qed.
Lemma nil_frame_ind s : frame s (set_ind_queue [] s).
Proof. apply frame_ind. by intros o ?%elem_of_nil. Qed.
Lemma nil_frame_write s : frame s (set_write_queue [] s).
Proof. apply frame_write. by intros o ?%elem_of_nil. Qed.

Lemma cancel_all_safe fl cur ft s : inv fl cur ft s -> safe fl cur ft s (bt_att_cancel_all s).
Proof.
  intros I. unfold bt_att_cancel_all.
  destruct (drain_cancelled _ _ _ _ _ _ (empty_req _ _ _ _ I) (nil_frame_req s)) as (s1 & -> & I1 & F1).
  cbn [mbind option_bind].
  destruct (drain_cancelled _ _ _ _ _ _ (empty_ind _ _ _ _ I1) (nil_frame_ind s1)) as (s2 & -> & I2 & F2).
  cbn [mbind option_bind].
  destruct (drain_cancelled _ _ _ _ _ _ (empty_write _ _ _ _ I2) (nil_frame_write s2)) as (s3 & -> & I3 & F3).
  cbn [mbind option_bind].
  assert (F : frame s s3) by (etrans; [|done]; by etrans).
  destruct (for_each_safe fl cur ft (fun ch s => c ← chan_heap s !! ch;
      s ← cancel_pending (pending_req c) s; cancel_pending (pending_ind c) s) (chans s3) s3 I3)
    as (s4 & -> & I4 & F4).
  - intros ch s' Hch F' I'.
    destruct (frame_chan_some _ _ _ ch F') as [c Hc]; [by apply (inv_chans _ _ _ _ I3)|].
    rewrite Hc. cbn [mbind option_bind]. apply safe_bind.
    + apply cancel_pending_safe; [done|]. intros. by eapply pending_req_all.
    + intros s'' I'' F''. apply cancel_pending_safe; [done|]. intros o Ho.
      pose proof (fr_chan _ _ _ F'' ch) as HF. rewrite Hc in HF.
      destruct (chan_heap s'' !! ch) as [c''|] eqn:Hc''; [|done]. destruct HF as [_ HF].
      eapply pending_ind_all; [done|congruence].
  - exists s4. split; [done|]. split; [done|]. by etrans.
Qed.

(** ** Sending *)

Lemma stat_created cur l o op :
  stat l o = stat0 -> (asks (op_type op) = true -> is_Some (op_callback op)) ->
  op_ok cur o (Some op) (stat (l ++ [LCreated o (op_type op)]) o).
Proof.
  intros Hs Hc. rewrite stat_app, Hs. simpl. rewrite decide_True by done.
  unfold op_ok; simpl. repeat split; try lia; try done.
Qed.

Lemma inv_alloc fl cur ft s op nid :
  inv fl cur ft s ->
  (asks (op_type op) = true -> is_Some (op_callback op)) ->
  (asks (op_type op) = true -> op_id op = Z.max 1 (next_send_id s) /\ nid = u32 (op_id op + 1)) ->
  nid = next_send_id s \/ nid = u32 (Z.max 1 (next_send_id s) + 1) ->
  inv (next_ptr s :: fl) cur ft
    (set_next_send_id nid (add_log (LCreated (next_ptr s) (op_type op))
       (set_op (next_ptr s) op (set_next_ptr (Pos.succ (next_ptr s)) s)))).
Proof.
  intros I Hcb Hid Hnid. set (o := next_ptr s).
  destruct (inv_fresh _ _ _ _ I o) as (Hn & Hst & _); [done|].
  assert (Hborn : forall o' t, born (stat (log s) o') = Some t ->
    born (stat (log s ++ [LCreated o (op_type op)]) o') = Some t).
  { intros o' t Hb. rewrite stat_other; [done|]. intros [= ->]. rewrite Hst in Hb. done. }
  assert (Hlt : forall o' op', op_heap s !! o' = Some op' -> o' <> o) by (intros ? ? ? ->; congruence).
  destruct I. constructor; cbn; eauto.
  - rewrite map_to_list_insert by done. cbn. constructor. exact inv_perm0.
  - intros o'. destruct (decide (o' = o)) as [->|Hne].
    + rewrite lookup_insert_eq. by apply stat_created.
    + rewrite lookup_insert_ne by done. rewrite stat_other; [done|]. simpl. congruence.
  - intros o' Hle. assert (o' <> o) by lia. rewrite lookup_insert_ne by done.
    rewrite stat_other by (simpl; congruence). apply inv_fresh0. lia.
  - intros o' Ho'. destruct (inv_write0 o' Ho') as (t & ? & ?). eauto.
  - intros ch c Hc. eapply chan_types_ext; [exact Hborn|eauto].
  - intros t ch id Ht Hne. destruct (inv_timers0 t ch id Ht Hne) as (c & o' & op' & ? & ? & Ho' & ? & ?).
    exists c, o', op'. rewrite lookup_insert_ne; [done|]. intros <-. by eapply Hlt.
  - unfold small; cbn. intros Hsm. destruct (inv_ids0 ltac:(unfold small in *; lia)) as [Hr Hids].
    assert (Hu : u32 (Z.max 1 (next_send_id s) + 1) = Z.max 1 (next_send_id s) + 1)
      by (apply wrap_small; fold o in Hr; lia).
    assert (Hle : next_send_id s <= nid) by lia.
    split; [fold o in Hr; lia|].
    intros x y. destruct (decide (x = o)) as [->|Hne].
    + rewrite lookup_insert_eq. intros [= <-] Ha. destruct (Hid Ha) as [Hop ->]. rewrite Hop, Hu.
      split; [lia|]. intros x' y'. destruct (decide (x' = o)) as [->|Hne']; [done|].
      rewrite lookup_insert_ne by done. intros Hx' Ha'.
      destruct (Hids x' y' Hx' Ha') as [? _]. lia.
    + rewrite lookup_insert_ne by done. intros Hx Ha. destruct (Hids x y Hx Ha) as [? Hinj].
      split; [lia|]. intros x' y'. destruct (decide (x' = o)) as [->|Hne'].
      * rewrite lookup_insert_eq. intros [= <-] Ha'. destruct (Hid Ha') as [Hop _]. lia.
      * rewrite lookup_insert_ne by done. eauto.
Qed.

Lemma frame_alloc fl cur ft s op nid t :
  inv fl cur ft s ->
  frame s (set_next_send_id nid (add_log (LCreated (next_ptr s) t)
       (set_op (next_ptr s) op (set_next_ptr (Pos.succ (next_ptr s)) s)))).
Proof.
  intros I. destruct (inv_fresh _ _ _ _ I (next_ptr s)) as (_ & Hst & _); [done|].
  constructor; cbn; eauto; [|lia].
  intros o' t' Hb. rewrite stat_other; [done|]. intros [= <-]. rewrite Hst in Hb. done.
Qed.

(** ** Registrations *)

Lemma inv_bump fl cur ft s : inv fl cur ft s -> inv fl cur ft (set_next_ptr (Pos.succ (next_ptr s)) s).
Proof.
  intros []. constructor; cbn; eauto.
  - intros o Hle. apply inv_fresh0. lia.
  - unfold small; cbn. intros Hsm. destruct (inv_ids0 ltac:(unfold small; lia)) as [? ?]. split; [lia|done].
Qed.

Lemma frame_bump rg s : frame_reg rg s (set_next_ptr (Pos.succ (next_ptr s)) s).
Proof. constructor; cbn; eauto. lia. Qed.

Lemma inv_new_reg fl cur ft s id s' : inv fl cur ft s -> new_reg_id s = (id, s') -> inv fl cur ft s'.
Proof. intros I [= <- <-]. inv_triv. Qed.

Lemma frame_same_shape rg s s' :
  notify_list s' = notify_list s -> notify_heap s' = notify_heap s -> chans s' = chans s ->
  in_disc s' = in_disc s -> chan_heap s' = chan_heap s -> log s' = log s -> next_ptr s' = next_ptr s ->
  ref_count s' = ref_count s -> (forall d, is_Some (disconn_heap s !! d) -> is_Some (disconn_heap s' !! d)) ->
  req_queue s' = req_queue s -> ind_queue s' = ind_queue s -> write_queue s' = write_queue s ->
  frame_reg rg s s'.
Proof.
  intros H1 H2 H3 H4 H5 H6 H7 H8 Hd H9 H10 H11.
  constructor; rewrite ?H1, ?H2, ?H3, ?H4, ?H5, ?H6, ?H7, ?H8, ?H9, ?H10, ?H11; eauto; lia.
Qed.

Lemma register_safe fl cur ft s opcode cb ud d :
  inv fl cur ft s ->
  let s' := (bt_att_register opcode cb ud d s).2 in inv fl cur ft s' /\ frame_reg true s s'.
Proof.
  intros I. unfold bt_att_register. destruct (isNil (chans s)); [done|]. cbn zeta.
  pose proof (inv_bump _ _ _ _ I) as Ib. destruct (inv_fresh _ _ _ _ I (next_ptr s)) as (_ & _ & _ & Hn & _); [done|].
  assert (Hnl : next_ptr s ∉ notify_list s).
  { intros Hin. destruct (proj2 (inv_notify _ _ _ _ I) _ Hin). congruence. }
  cbn. split.
  - destruct Ib. constructor; cbn; eauto.
    + intros o Hle. destruct (inv_fresh0 o Hle) as (?&?&?&?&?). cbn in *. repeat (split; [done|]).
      rewrite lookup_insert_ne by lia. done.
    + destruct inv_notify0 as [Hnd Hin]. cbn in *. split.
      * apply NoDup_app. split; [done|]. split; [|by apply NoDup_singleton].
        intros x Hx ->%list_elem_of_singleton. done.
      * intros n [Hin'| ->%list_elem_of_singleton]%elem_of_app; [|rewrite lookup_insert_eq; eauto].
        destruct (decide (n = next_ptr s)) as [->|]; [rewrite lookup_insert_eq; eauto|].
        rewrite lookup_insert_ne by done. by apply Hin.
  - constructor; cbn; eauto; [done|lia].
Qed.

Lemma find_notify_spec fl cur ft s id l :
  inv fl cur ft s -> (forall n, n ∈ l -> n ∈ notify_list s) ->
  exists r, find_notify id l s = Some r /\ forall n, r = Some n -> n ∈ l.
Proof.
  intros I. induction l as [|n l IH]; intros Hl; cbn [find_notify]; [by exists None|].
  destruct (proj2 (inv_notify _ _ _ _ I) n) as [nt Hnt]; [apply Hl; by left|].
  rewrite Hnt. cbn [mbind option_bind]. destruct (n_id nt =? id).
  - eexists. split; [done|]. intros ? [= <-]. by left.
  - destruct IH as (r & -> & Hr); [intros; apply Hl; by right|]. exists r. split; [done|].
    intros o' Ho'. right. eauto.
Qed.

Lemma remove_one_notin o x l : NoDup l -> x ∈ remove_one o l -> x <> o.
Proof.
  intros Hnd. induction Hnd as [|y l Hy Hnd IH]; simpl; [by intros ?%elem_of_nil|].
  destruct (decide (y = o)) as [->|Hne]; [by intros ? ->|].
  intros [->|?]%elem_of_cons; [done|eauto].
Qed.

Lemma remove_one_NoDup o l : NoDup l -> NoDup (remove_one o l).
Proof.
  intros Hnd. induction Hnd as [|y l Hy Hnd IH]; simpl; [constructor|].
  destruct (decide (y = o)); [done|]. constructor; [|done]. by intros ?%remove_one_in.
Qed.

Lemma destroy_notify_safe fl cur ft s n l :
  inv fl cur ft s -> is_Some (notify_heap s !! n) -> NoDup l ->
  (forall x, x ∈ l -> x <> n /\ x ∈ notify_list s) ->
  exists s', destroy_att_notify n (set_notify_list l s) = Some s' /\ inv fl cur ft s' /\
    frame_reg true s s' /\ notify_list s' = l /\ (forall x, x <> n -> notify_heap s' !! x = notify_heap s !! x).
Proof.
  intros I [nt Hnt] Hnd Hl. unfold destroy_att_notify. cbn. rewrite Hnt. cbn.
  eexists. split; [done|].
  assert (I1 : inv fl cur ft (set_notify_heap (delete n (notify_heap s)) (set_notify_list l s))).
  { destruct I. constructor; cbn; eauto.
    - intros o Hle. destruct (inv_fresh0 o Hle) as (?&?&?&?&?). repeat (split; [done|]).
      split; [|done]. by rewrite lookup_delete_None; right.
    - split; [done|]. intros x Hx. destruct (Hl x Hx) as [Hne Hin].
      rewrite lookup_delete_ne by done. by apply inv_notify0. }
  assert (F1 : frame_reg true s (set_notify_heap (delete n (notify_heap s)) (set_notify_list l s)))
    by (constructor; cbn; eauto; done).
  destruct (isSome (n_destroy nt)); cbn.
  - split; [by apply (inv_add_log _ _ _ _ (LNotifyDestroy n)) in I1|]. split; [|split; [done|]].
    + etrans; [exact F1|]. apply frame_weaken. by apply (frame_add_log (LNotifyDestroy n)).
    + intros x Hx. by rewrite lookup_delete_ne.
  - split; [done|]. split; [done|]. split; [done|]. intros x Hx. by rewrite lookup_delete_ne.
Qed.

Lemma unregister_safe fl cur ft s id :
  inv fl cur ft s ->
  exists b s', bt_att_unregister id s = Some (b, s') /\ inv fl cur ft s' /\ frame_reg true s s'.
Proof.
  intros I. unfold bt_att_unregister. destruct (id =? 0); [by exists false, s|].
  destruct (find_notify_spec _ _ _ _ id (notify_list s) I) as (r & -> & Hr); [done|].
  cbn [mbind option_bind]. destruct r as [n|]; [|by exists false, s].
  destruct (inv_notify _ _ _ _ I) as [Hnd Hin].
  destruct (destroy_notify_safe _ _ _ s n (remove_one n (notify_list s)) I) as (s' & -> & I' & F' & _).
  - by apply Hin, Hr.
  - by apply remove_one_NoDup.
  - intros x Hx. split; [by eapply remove_one_notin|by eapply remove_one_in].
  - by exists true, s'.
Qed.

Lemma register_disconnect_safe fl cur ft s cb ud d :
  inv fl cur ft s ->
  let s' := (bt_att_register_disconnect cb ud d s).2 in inv fl cur ft s' /\ frame s s'.
Proof.
  intros I. unfold bt_att_register_disconnect. destruct (isNil (chans s)); [done|]. cbn zeta.
  pose proof (inv_bump _ _ _ _ I) as Ib. destruct (inv_fresh _ _ _ _ I (next_ptr s)) as (_ & _ & _ & _ & Hn); [done|].
  assert (Hnl : next_ptr s ∉ disconn_list s).
  { intros Hin. destruct (proj2 (inv_disconn _ _ _ _ I) _ Hin). congruence. }
  cbn. split.
  - destruct Ib. constructor; cbn; eauto.
    + intros o Hle. destruct (inv_fresh0 o Hle) as (?&?&?&?&?). cbn in *. repeat (split; [done|]).
      rewrite lookup_insert_ne by lia. done.
    + destruct inv_disconn0 as [Hnd Hin]. cbn in *. split.
      * apply NoDup_app. split; [done|]. split; [|by apply NoDup_singleton].
        intros x Hx ->%list_elem_of_singleton. done.
      * intros n [Hin'| ->%list_elem_of_singleton]%elem_of_app; [|rewrite lookup_insert_eq; eauto].
        destruct (decide (n = next_ptr s)) as [->|]; [rewrite lookup_insert_eq; eauto|].
        rewrite lookup_insert_ne by done. by apply Hin.
  - constructor; cbn; eauto; [lia|]. intros _ x Hx. destruct (decide (x = next_ptr s)) as [->|];
      [rewrite lookup_insert_eq; eauto|rewrite lookup_insert_ne by done; exact Hx].
Qed.

Lemma find_disconn_spec fl cur ft s id l :
  inv fl cur ft s -> (forall d, d ∈ l -> d ∈ disconn_list s) ->
  exists r, find_disconn id l s = Some r /\ forall d, r = Some d -> d ∈ l.
Proof.
  intros I. induction l as [|n l IH]; intros Hl; cbn [find_disconn]; [by exists None|].
  destruct (proj2 (inv_disconn _ _ _ _ I) n) as [nt Hnt]; [apply Hl; by left|].
  rewrite Hnt. cbn [mbind option_bind]. destruct (d_id nt =? id).
  - eexists. split; [done|]. intros ? [= <-]. by left.
  - destruct IH as (r & -> & Hr); [intros; apply Hl; by right|]. exists r. split; [done|].
    intros o' Ho'. right. eauto.
Qed.

Lemma destroy_disconn_safe fl cur ft s d l :
  inv fl cur ft s -> is_Some (disconn_heap s !! d) -> NoDup l ->
  (forall x, x ∈ l -> x <> d /\ x ∈ disconn_list s) ->
  exists s', destroy_att_disconn d (set_disconn_list l s) = Some s' /\ inv fl cur ft s' /\
    (chans s <> [] -> frame s s') /\ chans s' = chans s /\ chan_heap s' = chan_heap s /\
    ref_count s' = ref_count s /\ disconn_list s' = l /\ (forall x, x <> d -> disconn_heap s' !! x = disconn_heap s !! x).
Proof.
  intros I [nt Hnt] Hnd Hl. unfold destroy_att_disconn. cbn. rewrite Hnt. cbn.
  eexists. split; [done|].
  assert (I1 : inv fl cur ft (set_disconn_heap (delete d (disconn_heap s)) (set_disconn_list l s))).
  { destruct I. constructor; cbn; eauto.
    - intros o Hle. destruct (inv_fresh0 o Hle) as (?&?&?&?&?). repeat (split; [done|]).
      by rewrite lookup_delete_None; right.
    - split; [done|]. intros x Hx. destruct (Hl x Hx) as [Hne Hin].
      rewrite lookup_delete_ne by done. by apply inv_disconn0. }
  assert (F1 : chans s <> [] -> frame s (set_disconn_heap (delete d (disconn_heap s)) (set_disconn_list l s)))
    by (intros ?; constructor; cbn; eauto; done).
  assert (Hl' : forall x, x <> d -> delete d (disconn_heap s) !! x = disconn_heap s !! x)
    by (intros x Hx; by rewrite lookup_delete_ne).
  destruct (isSome (d_destroy nt)); cbn; [|done].
  split; [by apply (inv_add_log _ _ _ _ (LDisconnDestroy d)) in I1|]. split; [|done].
  intros Hne. etrans; [by apply F1|]. by apply (frame_add_log (LDisconnDestroy d)).
Qed.

Lemma unregister_disconnect_safe fl cur ft s id :
  inv fl cur ft s -> safe_r fl cur ft s (bt_att_unregister_disconnect id s).
Proof.
  intros I. unfold bt_att_unregister_disconnect. destruct (id =? 0); [by exists false, s|].
  destruct (find_disconn_spec _ _ _ _ id (disconn_list s) I) as (r & -> & Hr); [done|].
  cbn [mbind option_bind]. destruct r as [d|]; [|by exists false, s].
  destruct (inv_disconn _ _ _ _ I) as [Hnd Hin]. destruct (Hin d) as [di Hdi]; [by apply Hr|].
  destruct (isNil (chans s)) eqn:En.
  - rewrite Hdi. cbn [mbind option_bind]. eexists true, _. split; [done|]. split.
    + destruct I. constructor; cbn; eauto.
      * intros o Hle. destruct (inv_fresh0 o Hle) as (?&?&?&?&?). repeat (split; [done|]).
        rewrite lookup_insert_ne; [done|]. intros ->. congruence.
      * split; [done|]. intros x Hx. destruct (decide (x = d)) as [->|];
          [rewrite lookup_insert_eq; eauto|rewrite lookup_insert_ne by done; eauto].
    + apply frame_same_shape; try done. cbn. intros x Hx. destruct (decide (x = d)) as [->|];
        [rewrite lookup_insert_eq; eauto|rewrite lookup_insert_ne by done; exact Hx].
  - destruct (destroy_disconn_safe _ _ _ s d (remove_one d (disconn_list s)) I) as (s' & -> & I' & F' & _).
    + by eexists.
    + by apply remove_one_NoDup.
    + intros x Hx. split; [by eapply remove_one_notin|by eapply remove_one_in].
    + exists true, s'. split; [done|]. split; [done|]. apply F'. intros E. by rewrite E in En.
Qed.

(** *** Settings *)

Lemma set_mtu_safe fl cur ft s m : inv fl cur ft s -> safe_r fl cur ft s (bt_att_set_mtu m s).
Proof.
  intros I. unfold bt_att_set_mtu. destruct (m <? _); [by exists false, s|].
  destruct (last (chans s)) as [ch|] eqn:Hl; [|by exists true, s].
  destruct (inv_chans _ _ _ _ I) as [_ Hin]. apply last_Some in Hl as [l' Hl'].
  destruct (Hin ch) as [c Hc]; [rewrite Hl'; set_solver|]. unfold upd_chan. rewrite Hc. cbn [mbind option_bind].
  assert (I1 : inv fl cur ft (set_chan ch (set_c_buf (c_buf c + 1) (set_c_mtu m c)) s)) by (by eapply inv_upd_chan).
  assert (F1 : frame s (set_chan ch (set_c_buf (c_buf c + 1) (set_c_mtu m c)) s)) by (by eapply frame_set_chan).
  eexists true, _. split; [done|]. destruct (_ <? m); [|done]. split; [inv_triv|].
  etrans; [exact F1|]. by apply frame_same_shape.
Qed.

Lemma user_destroy_safe fl cur ft s d ud :
  inv fl cur ft s -> inv fl cur ft (user_destroy d ud s) /\ frame s (user_destroy d ud s).
Proof.
  intros I. destruct d as [d|]; [|done]. split; [by apply inv_add_log|by apply frame_add_log].
Qed.

Lemma close_on_unref_safe fl cur ft s b :
  inv fl cur ft s -> safe fl cur ft s (bt_att_set_close_on_unref b s).
Proof.
  intros I. unfold bt_att_set_close_on_unref.
  assert (I1 : inv fl cur ft (set_close_on_unref b s)) by inv_triv.
  assert (F1 : frame s (set_close_on_unref b s)) by by apply frame_same_shape.
  destruct (for_each_safe fl cur ft (fun ch => upd_chan ch (set_c_close b)) (chans s) _ I1) as (s' & -> & I' & F').
  - intros ch s' Hch F' I'. destruct (frame_chan_some _ _ _ ch F') as [c Hc]; [by apply (inv_chans _ _ _ _ I1)|].
    unfold upd_chan. rewrite Hc. cbn [mbind option_bind]. eexists. split; [done|].
    split; [by eapply inv_upd_chan|by eapply frame_set_chan].
  - exists s'. split; [done|]. split; [done|]. by etrans.
Qed.

(** ** Histories only grow *)

Lemma stat_step_mono o e st :
  (resp st <= resp (stat_step o e st))%nat /\ (canc st = true -> canc (stat_step o e st) = true).
Proof. destruct e; simpl; try done; destruct (decide _); simpl; auto with lia. Qed.

Lemma stat_mono l l' o :
  l `prefix_of` l' ->
  (resp (stat l o) <= resp (stat l' o))%nat /\ (canc (stat l o) = true -> canc (stat l' o) = true).
Proof.
  intros [evs ->]. revert l. induction evs as [|e evs IH]; intros l; [by rewrite app_nil_r|].
  replace (l ++ e :: evs) with ((l ++ [e]) ++ evs) by (by rewrite <- app_assoc).
  destruct (IH (l ++ [e])) as [H1 H2]. rewrite stat_app in H1, H2.
  destruct (stat_step_mono o e (stat l o)) as [H3 H4]. split; [lia|auto].
Qed.

(** What handlers leave alone: the channels stay, references are not dropped. *)
Record hframe (s s' : bt_att) : Prop := {
  hf_chans : chans s' = chans s;
  hf_chan : forall ch, is_Some (chan_heap s !! ch) <-> is_Some (chan_heap s' !! ch);
  hf_ref : ref_count s <= ref_count s';
}.

#[local] Instance hframe_refl : Reflexive hframe.
Proof. intros s. constructor; auto; lia. Qed.
#[local] Instance hframe_trans : Transitive hframe.
Proof. intros s1 s2 s3 [] []. constructor; [congruence|by intros ch; rewrite hf_chan0|lia]. Qed.

Lemma hframe_same s s' :
  chans s' = chans s -> chan_heap s' = chan_heap s -> ref_count s' = ref_count s -> hframe s s'.
Proof. intros H1 H2 H3. constructor; [done|by intros ch; rewrite H2|lia]. Qed.

Lemma frame_hframe rg s s' : frame_reg rg s s' -> hframe s s'.
Proof.
  intros F. constructor; [apply F| |by rewrite (fr_ref _ _ _ F)].
  intros ch. pose proof (fr_chan _ _ _ F ch) as H. unfold chan_like in H.
  destruct (chan_heap s !! ch), (chan_heap s' !! ch); try done; split; eauto; by intros [? ?].
Qed.

(** ** Steps of the handlers *)

Lemma inv_ft_weaken fl cur ft s : inv fl cur None s -> inv fl cur ft s.
Proof. intros []. constructor; eauto. Qed.

Lemma for_each_inv (R : bt_att -> bt_att -> Prop) `{!Reflexive R, !Transitive R} fl cur ft f l s :
  inv fl cur ft s ->
  (forall x s', x ∈ l -> R s s' -> inv fl cur ft s' ->
     exists s'', f x s' = Some s'' /\ inv fl cur ft s'' /\ R s' s'') ->
  exists s', for_each f l s = Some s' /\ inv fl cur ft s' /\ R s s'.
Proof.
  intros I Hf. assert (Hgen : forall s0, R s s0 -> inv fl cur ft s0 ->
    exists s', for_each f l s0 = Some s' /\ inv fl cur ft s' /\ R s s'); [|by apply Hgen].
  induction l as [|x l IH]; intros s0 F0 I0; cbn [for_each]; [by exists s0|].
  destruct (Hf x s0) as (s1 & -> & I1 & F1); [by left|done..|]. cbn [mbind option_bind].
  apply IH; [|by etrans|done]. intros y s' Hy. apply Hf. by right.
Qed.

(** One of the two pending operations of a channel. *)
Definition pend (isr : bool) (c : bt_att_chan) : option positive :=
  if isr then pending_req c else pending_ind c.
Definition set_pend (isr : bool) (x : option positive) (c : bt_att_chan) : bt_att_chan :=
  if isr then set_pending_req x c else set_pending_ind x c.
Definition pend_type (isr : bool) : att_op_type := if isr then ATT_OP_TYPE_REQ else ATT_OP_TYPE_IND.

Lemma pend_born isr l c o : chan_types l c -> pend isr c = Some o -> born (stat l o) = Some (pend_type isr).
Proof. intros (H1 & H2 & _). destruct isr; eauto. Qed.

Lemma pend_all isr s ch c o : chan_heap s !! ch = Some c -> pend isr c = Some o -> o ∈ all_ops s.
Proof. destruct isr; [apply pending_req_all|apply pending_ind_all]. Qed.

Lemma pend_set_other isr x c : pend (negb isr) (set_pend isr x c) = pend (negb isr) c.
Proof. by destruct isr. Qed.
Lemma pend_set_same isr x c : pend isr (set_pend isr x c) = x.
Proof. by destruct isr. Qed.

Lemma either_pend c o : pending_req c = Some o \/ pending_ind c = Some o <-> exists isr, pend isr c = Some o.
Proof. split; [intros [?|?]; [by exists true|by exists false]|intros [[] ?]; [by left|by right]]. Qed.

(** The pending operation is taken off the channel. *)
Lemma inv_unpend isr fl cur s ch c o op :
  inv fl cur None s -> chan_heap s !! ch = Some c -> pend isr c = Some o -> op_heap s !! o = Some op ->
  inv (o :: fl) cur (op_timeout_id op) (set_chan ch (set_pend isr None c) s).
Proof.
  intros I Hc Hp Hop. pose proof (inv_chan _ _ _ _ I ch c Hc) as (T1 & T2 & T3).
  eapply inv_set_chan; [done..| | | |by left].
  - unfold chan_ops. destruct isr; cbn in *; rewrite Hp; cbn; solve_Permutation.
  - destruct isr; repeat split; cbn; eauto; done.
  - intros o' op' t Ho' Hop' Ht Hne. apply either_pend in Ho' as [isr' Ho'].
    apply either_pend. exists isr'. destruct (decide (isr' = isr)) as [->|Hd].
    + simplify_eq.
    + replace isr' with (negb isr) in * by (by destruct isr, isr'). by rewrite pend_set_other.
Qed.

(** The operation in flight becomes pending. *)
Lemma inv_pend isr fl cur ft s ch c o :
  inv (o :: fl) cur ft s -> chan_heap s !! ch = Some c -> pend isr c = None ->
  born (stat (log s) o) = Some (pend_type isr) ->
  inv fl cur ft (set_chan ch (set_pend isr (Some o) c) s).
Proof.
  intros I Hc Hp Hb. pose proof (inv_chan _ _ _ _ I ch c Hc) as (T1 & T2 & T3).
  eapply inv_set_chan; [done..| | | |by right].
  - unfold chan_ops. destruct isr; cbn in *; rewrite Hp; cbn; solve_Permutation.
  - destruct isr; repeat split; cbn; eauto; intros ? [= <-]; done.
  - intros o' op' t Ho' _ _ _. destruct isr; cbn in *; destruct Ho' as [Ho'|Ho']; rewrite ?Hp in Ho'; eauto; done.
Qed.

Lemma destroy_set_chans o h s :
  destroy_att_send_op o (set_chan_heap h s) = set_chan_heap h <$> destroy_att_send_op o s.
Proof.
  unfold destroy_att_send_op. cbn. destruct (op_heap s !! o) as [op|]; [|done]. cbn.
  by destruct (op_timeout_id op), (op_destroy op).
Qed.

Lemma destroy_chan_heap o s s' : destroy_att_send_op o s = Some s' -> chan_heap s' = chan_heap s.
Proof.
  unfold destroy_att_send_op. destruct (op_heap s !! o) as [op|]; [|done]. cbn. intros [= <-].
  by destruct (op_timeout_id op), (op_destroy op).
Qed.

(** Destroying the pending operation, and then clearing the field. *)
Lemma destroy_unpend isr fl s ch c o op :
  inv fl (Some o) None s -> chan_heap s !! ch = Some c -> pend isr c = Some o -> op_heap s !! o = Some op ->
  (asks (op_type op) = true -> canc (stat (log s) o) = true \/ resp (stat (log s) o) = 1%nat) ->
  exists s', (s1 ← destroy_att_send_op o s; upd_chan ch (set_pend isr None) s1) = Some s' /\
    inv fl None None s' /\ frame s (set_chan_heap (chan_heap s) s') /\
    chan_heap s' = <[ch := set_pend isr None c]> (chan_heap s).
Proof.
  intros I Hc Hp Hop Hd. pose proof (inv_unpend isr _ _ _ _ _ _ _ I Hc Hp Hop) as I1.
  destruct (destroy_safe fl (Some o) None (op_timeout_id op) None _ o op I1) as (s' & Hs & I2 & F2);
    [done|done|by right|by right|].
  unfold set_chan in Hs. rewrite destroy_set_chans in Hs. apply fmap_Some in Hs as (s1 & Hs1 & ->).
  rewrite Hs1. cbn [mbind option_bind]. unfold upd_chan. rewrite (destroy_chan_heap _ _ _ Hs1), Hc.
  cbn [mbind option_bind]. unfold set_chan. rewrite (destroy_chan_heap _ _ _ Hs1).
  eexists. split; [done|]. split; [done|]. split; [|done].
  destruct F2; constructor; cbn in *; eauto.
Qed.

Lemma destroy_plain_all l fl s :
  inv (l ++ fl) None None s ->
  (forall o, o ∈ l -> exists t, born (stat (log s) o) = Some t /\ asks t = false) ->
  exists s', for_each destroy_att_send_op l s = Some s' /\ inv fl None None s' /\ frame s s'.
Proof.
  revert s. induction l as [|o l IH]; intros s I Hl; [by exists s|]. cbn [for_each].
  destruct (live_op _ _ _ _ o I) as [op Hop]; [by left|].
  destruct (Hl o) as (t & Hb & Ht); [by left|].
  destruct (destroy_safe (l ++ fl) None None None None s o op I Hop) as (s1 & -> & I1 & F1); [|by left..|].
  { pose proof (inv_ops _ _ _ _ I o) as H. rewrite Hop in H. destruct H as (_ & _ & _ & Hb' & _). congruence. }
  cbn [mbind option_bind]. destruct (IH s1 I1) as (s2 & -> & I2 & F2).
  { intros o' Ho'. destruct (Hl o') as (t' & ? & ?); [by right|]. exists t'. split; [|done]. by apply (fr_born _ _ _ F1). }
  exists s2. split; [done|]. split; [done|]. by etrans.
Qed.

Lemma for_each_set_chans l h s :
  for_each destroy_att_send_op l (set_chan_heap h s) = set_chan_heap h <$> for_each destroy_att_send_op l s.
Proof.
  revert s. induction l as [|o l IH]; intros s; cbn [for_each]; [done|].
  rewrite destroy_set_chans. destruct (destroy_att_send_op o s); [|done]. cbn. apply IH.
Qed.

Lemma for_each_chan_heap l s s' : for_each destroy_att_send_op l s = Some s' -> chan_heap s' = chan_heap s.
Proof.
  revert s. induction l as [|o l IH]; intros s; cbn [for_each]; [by intros [= <-]|].
  destruct (destroy_att_send_op o s) as [s1|] eqn:E; [|done]. cbn. intros H.
  rewrite (IH _ H). by eapply destroy_chan_heap.
Qed.

(** A channel without pending operations, no longer listed, is freed. *)
Lemma chan_free_safe s ch c :
  inv [] None None s -> chan_heap s !! ch = Some c -> pending_req c = None -> pending_ind c = None ->
  ch ∉ chans s ->
  exists s', bt_att_chan_free ch s = Some s' /\ inv [] None None s' /\
    frame s (set_chan_heap (chan_heap s) s') /\ chan_heap s' = delete ch (chan_heap s).
Proof.
  intros I Hc Hr Hi Hnc. unfold bt_att_chan_free. rewrite Hc. cbn [mbind option_bind].
  rewrite Hr, Hi. cbn [destroy_pending mbind option_bind].
  destruct (all_ops_chan s ch c Hc) as (rest & Hall & _ & Hdel).
  pose proof (inv_chan _ _ _ _ I ch c Hc) as (_ & _ & T3).
  assert (I1 : inv (c_queue c ++ []) None None (set_chan_heap (delete ch (chan_heap s)) s)).
  { rewrite app_nil_r. destruct I. constructor; cbn; eauto.
    - rewrite inv_perm0. cbn. rewrite Hall, Hdel. unfold chan_ops. rewrite Hr, Hi. cbn. by rewrite app_nil_r.
    - intros o Hle. destruct (inv_fresh0 o Hle) as (?&?&?&?&?). repeat (split; [done|]).
      split; [|done]. by rewrite lookup_delete_None; right.
    - intros ch' c' [_ Hc']%lookup_delete_Some. eauto.
    - destruct inv_chans0 as [? Hin]. split; [done|]. intros ch' Hch'.
      rewrite lookup_delete_ne by (intros ->; done). eauto.
    - intros t ch' id Ht Hne. destruct (inv_timers0 t ch' id Ht Hne) as (c' & o & op & Hc' & Hp & ?).
      exists c', o, op. rewrite lookup_delete_ne; [done|]. intros <-. simplify_eq.
      rewrite Hr, Hi in Hp. by destruct Hp. }
  destruct (destroy_plain_all (c_queue c) [] _ I1) as (s' & Hs' & I' & F').
  { intros o Ho. by apply T3. }
  rewrite for_each_set_chans in Hs'. apply fmap_Some in Hs' as (s1 & Hs1 & ->).
  rewrite Hs1. cbn [mbind option_bind]. rewrite (for_each_chan_heap _ _ _ Hs1).
  eexists. split; [done|]. split; [done|]. split; [|done]. destruct F'; constructor; cbn in *; eauto.
Qed.

(** ** Unregistering everything *)

(** Only registrations differ. *)
Record regs_only (s s' : bt_att) : Prop := {
  ro_chans : chans s' = chans s;
  ro_chan : chan_heap s' = chan_heap s;
  ro_ref : ref_count s' = ref_count s;
  ro_req : req_queue s' = req_queue s;
  ro_ind : ind_queue s' = ind_queue s;
  ro_write : write_queue s' = write_queue s;
}.

#[local] Instance regs_only_refl : Reflexive regs_only.
Proof. by constructor. Qed.
#[local] Instance regs_only_trans : Transitive regs_only.
Proof. intros s1 s2 s3 [] []. constructor; congruence. Qed.

Lemma destroy_notifies fl cur ft l s :
  inv fl cur ft s -> notify_list s = [] -> NoDup l -> (forall n, n ∈ l -> is_Some (notify_heap s !! n)) ->
  exists s', for_each destroy_att_notify l s = Some s' /\ inv fl cur ft s' /\ regs_only s s' /\
    disconn_list s' = disconn_list s /\ disconn_heap s' = disconn_heap s.
Proof.
  intros I Hn Hnd. revert s I Hn. induction Hnd as [|n l Hn' Hnd IH]; intros s I Hn Hl; [by exists s|].
  cbn [for_each]. destruct (Hl n) as [nt Hnt]; [by left|].
  set (s1 := if isSome (n_destroy nt) then add_log (LNotifyDestroy n) s else s).
  assert (I1 : inv fl cur ft s1) by (unfold s1; destruct (isSome _); [by apply inv_add_log|done]).
  assert (E : notify_heap s1 = notify_heap s /\ notify_list s1 = [] /\ regs_only s s1 /\
    disconn_list s1 = disconn_list s /\ disconn_heap s1 = disconn_heap s)
    by (unfold s1; destruct (isSome _); by repeat split).
  set (s2 := set_notify_heap (delete n (notify_heap s1)) s1).
  assert (destroy_att_notify n s = Some s2) as -> by (unfold destroy_att_notify; by rewrite Hnt).
  cbn [mbind option_bind]. clearbody s1. destruct E as (E1 & E2 & E3 & E4 & E5).
  assert (I2 : inv fl cur ft s2).
  { destruct I1. constructor; cbn; eauto.
    - intros o Hle. destruct (inv_fresh0 o Hle) as (?&?&?&?&?). repeat (split; [done|]).
      split; [|done]. by rewrite lookup_delete_None; right.
    - rewrite E2. split; [constructor|]. by intros x ?%elem_of_nil. }
  destruct (IH s2 I2 E2) as (s3 & -> & I3 & R3 & D3 & D3').
  - intros x Hx. unfold s2; cbn. rewrite lookup_delete_ne by (intros ->; done). rewrite E1. apply Hl. by right.
  - exists s3. split; [done|]. split; [done|]. split; [|by rewrite D3, D3', <- E4, <- E5].
    etrans; [exact E3|]. etrans; [|exact R3]. by constructor.
Qed.

Lemma destroy_disconns fl cur ft l s :
  inv fl cur ft s -> disconn_list s = [] -> NoDup l -> (forall n, n ∈ l -> is_Some (disconn_heap s !! n)) ->
  exists s', for_each destroy_att_disconn l s = Some s' /\ inv fl cur ft s' /\ regs_only s s'.
Proof.
  intros I Hn Hnd. revert s I Hn. induction Hnd as [|n l Hn' Hnd IH]; intros s I Hn Hl; [by exists s|].
  cbn [for_each]. destruct (Hl n) as [nt Hnt]; [by left|].
  set (s1 := if isSome (d_destroy nt) then add_log (LDisconnDestroy n) s else s).
  assert (I1 : inv fl cur ft s1) by (unfold s1; destruct (isSome _); [by apply inv_add_log|done]).
  assert (E : disconn_heap s1 = disconn_heap s /\ disconn_list s1 = [] /\ regs_only s s1)
    by (unfold s1; destruct (isSome _); by repeat split).
  set (s2 := set_disconn_heap (delete n (disconn_heap s1)) s1).
  assert (destroy_att_disconn n s = Some s2) as -> by (unfold destroy_att_disconn; by rewrite Hnt).
  cbn [mbind option_bind]. clearbody s1. destruct E as (E1 & E2 & E3).
  assert (I2 : inv fl cur ft s2).
  { destruct I1. constructor; cbn; eauto.
    - intros o Hle. destruct (inv_fresh0 o Hle) as (?&?&?&?&?). repeat (split; [done|]).
      by rewrite lookup_delete_None; right.
    - rewrite E2. split; [constructor|]. by intros x ?%elem_of_nil. }
  destruct (IH s2 I2 E2) as (s3 & -> & I3 & R3).
  - intros x Hx. unfold s2; cbn. rewrite lookup_delete_ne by (intros ->; done). rewrite E1. apply Hl. by right.
  - exists s3. split; [done|]. split; [done|].
    etrans; [exact E3|]. etrans; [|exact R3]. by constructor.
Qed.

Lemma unregister_all_safe fl cur ft s :
  inv fl cur ft s -> exists s', bt_att_unregister_all s = Some s' /\ inv fl cur ft s' /\ regs_only s s'.
Proof.
  intros I. unfold bt_att_unregister_all. destruct (inv_notify _ _ _ _ I) as [Hnd Hin].
  destruct (destroy_notifies fl cur ft (notify_list s) (set_notify_list [] s)) as (s1 & -> & I1 & R1 & D1 & D1');
    [|done..|].
  { destruct I. constructor; cbn; eauto. split; [constructor|]. by intros x ?%elem_of_nil. }
  cbn [mbind option_bind]. destruct (inv_disconn _ _ _ _ I1) as [Hnd1 Hin1].
  destruct (destroy_disconns fl cur ft (disconn_list s1) (set_disconn_list [] s1)) as (s2 & -> & I2 & R2);
    [|done..|].
  { destruct I1. constructor; cbn; eauto. split; [constructor|]. by intros x ?%elem_of_nil. }
  exists s2. split; [done|]. split; [done|]. destruct R1, R2. constructor; cbn in *; congruence.
Qed.

Section Safety.
Context (junk : Z)
        (sign_att : list Z -> list Z -> Z -> option (list Z))
        (verify_att_sign : list Z -> list Z -> bool)
        (counter : Z -> Z -> Z -> option Z)
        (react : att_event -> bt_att -> list att_call).

(** [bt_crypto_sign_att] writes a signature of [BT_ATT_SIGNATURE_LEN] bytes. *)
Context (sign_len : forall k m c sig, sign_att k m c = Some sig -> zlen sig = BT_ATT_SIGNATURE_LEN).

(** ** Encoding *)

(** The payload a client hands over can be read, and is short enough for the
    16-bit length of a PDU with a signature. *)
Definition pdu_ok (pdu : option (list Z)) (length : Z) : Prop :=
  0 <= length <= 65522 /\ forall p, pdu = Some p -> length <= zlen p.

(** The buffer holds the opcode, the payload and, for a signed opcode, the
    signature, or what [malloc] left there when there is no crypto object. *)
(** What follows the payload: nothing, the signature of opcode and payload, or, without the cryptographic
    functions, what [malloc] left there; [None] when there is no signature to be had. *)
Definition is_signed (opcode : Z) (s : bt_att) : bool := isSome (local_sign s) && negb (Z.land opcode ATT_OP_SIGNED_MASK =? 0).
Definition sign_room (opcode : Z) (s : bt_att) : Z := if is_signed opcode s then BT_ATT_SIGNATURE_LEN else 0.
Definition signature (opcode : Z) (data : list Z) (s : bt_att) : option (list Z) :=
  match local_sign s with
  | Some sign =>
      if negb (is_signed opcode s) then Some []
      else if negb (crypto s) then Some (replicate (Z.to_nat BT_ATT_SIGNATURE_LEN) junk)
      else cnt ← counter (s_counter sign) (s_user_data sign) 0; sign_att (s_key sign) (opcode :: data) cnt
  | None => Some []
  end.

Lemma sign_room_range opcode s : sign_room opcode s = 0 \/ sign_room opcode s = 12.
Proof. unfold sign_room. destruct (is_signed opcode s); [by right|by left]. Qed.

Lemma signature_len opcode data s tail : signature opcode data s = Some tail -> zlen tail = sign_room opcode s.
Proof using sign_len.
  unfold signature, sign_room, is_signed. destruct (local_sign s) as [sign|]; cbn [isSome andb]; [|by intros [= <-]].
  destruct (negb (Z.land _ _ =? 0)); cbn [negb]; [|by intros [= <-]].
  destruct (crypto s); cbn [negb]; [|by intros [= <-]].
  destruct (counter _ _ 0); cbn [mbind option_bind]; [|done]. apply sign_len.
Qed.

(** The 16-bit length that is computed. *)
Lemma pdu_length opcode pdu len s : pdu_ok pdu len -> (pdu = None -> len = 0) ->
  (let pdu_len := 1 in
   let pdu_len := if is_signed opcode s then u16 (pdu_len + BT_ATT_SIGNATURE_LEN) else pdu_len in
   if negb (len =? 0) && isSome pdu then u16 (pdu_len + len) else pdu_len) = 1 + len + sign_room opcode s.
Proof.
  intros [Hlen _] Hnone. pose proof (sign_room_range opcode s) as HL.
  assert (E : (if is_signed opcode s then u16 (1 + BT_ATT_SIGNATURE_LEN) else 1) = 1 + sign_room opcode s)
    by (unfold sign_room; by destruct (is_signed opcode s)).
  cbv zeta. rewrite E. destruct pdu as [p|]; simpl.
  - destruct (len =? 0) eqn:E0; simpl; [apply Z.eqb_eq in E0; lia|]. rewrite wrap_small by lia. lia.
  - rewrite andb_false_r. rewrite (Hnone eq_refl). lia.
Qed.

(** The opcode and the payload go to the front of the buffer. *)
Lemma pdu_copied opcode data n : 0 <= n ->
  (buf ← memcpy_at (replicate (Z.to_nat (1 + zlen data + n)) junk) 0 [opcode];
   if 1 <? 1 + zlen data + n then memcpy_at buf 1 data else Some buf) = Some (opcode :: data ++ replicate (Z.to_nat n) junk).
Proof.
  intros Hn. replace (Z.to_nat (1 + zlen data + n)) with (1 + (length data + Z.to_nat n))%nat by (unfold zlen; lia).
  rewrite !replicate_add.
  assert (M1 : memcpy_at (replicate 1 junk ++ replicate (length data) junk ++ replicate (Z.to_nat n) junk)
                0 [opcode] = Some ([opcode] ++ replicate (length data) junk ++ replicate (Z.to_nat n) junk))
    by (by apply (memcpy_at_mid [] (replicate 1 junk))).
  rewrite M1. cbn [mbind option_bind].
  assert (memcpy_at ([opcode] ++ replicate (length data) junk ++ replicate (Z.to_nat n) junk) 1 data
          = Some ([opcode] ++ data ++ replicate (Z.to_nat n) junk)) as ->
    by (apply (memcpy_at_mid [opcode]); by rewrite zlen_replicate).
  destruct (1 <? 1 + zlen data + n) eqn:E; [done|]. apply Z.ltb_ge in E.
  assert (data = []) as -> by (apply zlen_0_nil; pose proof (zlen_nonneg data); lia). done.
Qed.

Lemma signature_copied opcode data sig : zlen sig = 12 ->
  memcpy_at (opcode :: data ++ replicate 12 junk) (1 + zlen data) sig = Some (opcode :: data ++ sig).
Proof.
  intros Hs. pose proof (memcpy_at_mid ([opcode] ++ data) (replicate 12 junk) [] sig) as H.
  rewrite !app_nil_r, <- !app_assoc in H. cbn [app] in H. replace (1 + zlen data) with (zlen (opcode :: data)) by (rewrite zlen_cons; lia).
  apply H. by rewrite zlen_replicate, Hs.
Qed.

(** What [encode_pdu] makes, in full. *)
Lemma encode_pdu_eq opcode pdu len s : pdu_ok pdu len -> (pdu = None -> len = 0) ->
  let data := slice 0 len (default [] pdu) in
  let n := 1 + len + sign_room opcode s in
  encode_pdu junk sign_att counter opcode pdu len s
  = Some (if mtu s <? n then None else tail ← signature opcode data s; Some (opcode :: data ++ tail, n)).
Proof using sign_len.
  intros Hok Hnone data n. pose proof (pdu_length opcode pdu len s Hok Hnone) as Hn. destruct Hok as [Hlen Hp].
  destruct (sign_room_range opcode s) as [HL|HL]; fold n in Hn; unfold encode_pdu; fold (is_signed opcode s); cbv zeta in Hn |- *; rewrite Hn;
    (destruct (mtu s <? n) eqn:Hm; [done|]).
  all: assert (Hdl : zlen data = len /\ memread (default [] pdu) 0 len = Some data) by
    (assert (len <= zlen (default [] pdu)) by (destruct pdu as [p|]; simpl; [by apply Hp|by rewrite (Hnone eq_refl)]);
     split; [apply zlen_slice; lia|by rewrite memread_Some by lia]);
    destruct Hdl as [Hdl Hdr]; rewrite Hdr; cbn [mbind option_bind];
    pose proof (pdu_copied opcode data (sign_room opcode s) ltac:(lia)) as Hc; rewrite Hdl in Hc; fold n in Hc;
    destruct (memcpy_at (replicate (Z.to_nat n) junk) 0 [opcode]) as [buf|]; cbn [mbind option_bind] in Hc |- *; [|done]; rewrite Hc;
    cbn [mbind option_bind]; unfold signature; destruct (local_sign s) as [sign|] eqn:Hsg.
  - assert (is_signed opcode s = false) as -> by (unfold sign_room in HL; by destruct (is_signed opcode s)). by rewrite HL.
  - by rewrite HL.
  - assert (is_signed opcode s = true) as -> by (unfold sign_room in HL; by destruct (is_signed opcode s)). rewrite HL. cbn [negb andb].
    destruct (crypto s); cbn [negb]; [|done]. destruct (counter _ _ 0) as [cnt|]; cbn [mbind option_bind]; [|done].
    replace (1 + len) with (zlen (opcode :: data)) at 1 by (rewrite zlen_cons; lia).
    rewrite (memread_mid [] (opcode :: data) (replicate (Z.to_nat 12) junk) : memread (opcode :: data ++ _) 0 _ = _). cbn [mbind option_bind].
    destruct (sign_att _ _ cnt) as [sig|] eqn:Es; [|done]. rewrite <- Hdl, signature_copied by by eapply sign_len. done.
  - unfold sign_room, is_signed in HL. by rewrite Hsg in HL.
Qed.

Lemma encode_pdu_spec opcode pdu len s :
  pdu_ok pdu len -> (pdu = None -> len = 0) ->
  exists r, encode_pdu junk sign_att counter opcode pdu len s = Some r /\
    forall buf n, r = Some (buf, n) -> zlen buf = n /\ 1 <= n <= mtu s.
Proof using sign_len.
  intros Hok Hnone. eexists. split; [by apply encode_pdu_eq|]. destruct Hok as [Hlen Hp]. intros buf n.
  destruct (mtu s <? _) eqn:Hm; [done|]. apply Z.ltb_ge in Hm. destruct (sign_room_range opcode s);
    (destruct (signature _ _ _) as [tail|] eqn:Et; cbn [mbind option_bind]; [|done]; intros [= <- <-]; apply signature_len in Et;
     rewrite zlen_cons, zlen_app, Et, zlen_slice; [lia|lia|lia|];
     destruct pdu as [p|]; simpl; [by apply Hp|by rewrite (Hnone eq_refl)]).
Qed.

Definition op_new (opcode : Z) (cb : option Z) (s : bt_att) (op : att_send_op) : Prop :=
  op_type op = get_op_type opcode /\ op_opcode op = opcode /\ op_callback op = cb /\
  op_id op = 0 /\ op_timeout_id op = None /\ 1 <= op_len op <= mtu s /\
  (asks (op_type op) = true <-> is_Some cb).

Lemma create_spec opcode pdu len cb ud d s :
  pdu_ok pdu len ->
  exists r, create_att_send_op junk sign_att counter opcode pdu len cb ud d s = Some r /\
    forall o s', r = Some (o, s') -> o = next_ptr s /\ exists op, op_new opcode cb s op /\
      s' = add_log (LCreated o (op_type op)) (set_op o op (set_next_ptr (Pos.succ o) s)).
Proof using sign_len.
  intros Hp. unfold create_att_send_op.
  destruct (negb (len =? 0) && negb (isSome pdu)) eqn:E1; [by exists None|].
  destruct (bool_decide (get_op_type opcode = ATT_OP_TYPE_UNKNOWN)); [by exists None|].
  destruct (isSome cb && _) eqn:E2; [by exists None|].
  destruct (negb (isSome cb) && _) eqn:E3; [by exists None|].
  destruct (encode_pdu_spec opcode pdu len s Hp) as (r & -> & Hr).
  { intros ->. rewrite andb_true_r in E1. by apply negb_false_iff, Z.eqb_eq in E1. }
  cbn [mbind option_bind]. destruct r as [[buf n]|]; [|by exists None].
  destruct (Hr buf n eq_refl) as (_ & Hn).
  eexists. split; [done|]. intros o s' [= <- <-]. split; [done|].
  exists (mkOp 0 None (get_op_type opcode) opcode buf n cb d ud). split; [|done].
  unfold op_new; cbn. do 6 (split; [done|]).
  unfold asks, is_req, is_ind. destruct cb; simpl in *; rewrite ?andb_true_r in *.
  - split; [by eexists|]. intros _. by apply negb_false_iff in E2.
  - split; [|by intros [? ?]]. intros Ha. rewrite Ha in E3. done.
Qed.

Lemma create_inv fl cur ft opcode pdu len cb ud d s :
  inv fl cur ft s -> pdu_ok pdu len ->
  exists r, create_att_send_op junk sign_att counter opcode pdu len cb ud d s = Some r /\
    forall o s', r = Some (o, s') -> exists op, op_new opcode cb s op /\ op_heap s' !! o = Some op /\
      o = next_ptr s /\ next_send_id s' = next_send_id s /\
      (forall next, next = Z.max 1 (next_send_id s) ->
        let s2 := set_op o (set_op_id next op) (set_next_send_id (u32 (next + 1)) s') in
        inv (o :: fl) cur ft s2 /\ frame s s2 /\ born (stat (log s2) o) = Some (op_type op)) /\
      (asks (op_type op) = false ->
        inv (o :: fl) cur ft s' /\ frame s s' /\ born (stat (log s') o) = Some (op_type op)).
Proof using sign_len.
  intros I Hp. destruct (create_spec opcode pdu len cb ud d s Hp) as (r & -> & Hr).
  exists r. split; [done|]. intros o s' ->. destruct (Hr o s' eq_refl) as (-> & op & Hop & ->).
  destruct Hop as (Hty & Hopc & Hcb & Hid & Htm & Hlen & Hask).
  destruct (inv_fresh _ _ _ _ I (next_ptr s)) as (_ & Hst & _); [done|].
  assert (Hb : born (stat (log s ++ [LCreated (next_ptr s) (op_type op)]) (next_ptr s)) = Some (op_type op))
    by (rewrite stat_app, Hst; simpl; by rewrite decide_True).
  exists op. split; [done|]. split; [cbn; apply lookup_insert_eq|]. do 2 (split; [done|]). split.
  - intros next Hnext s2.
    assert (E : s2 = set_next_send_id (u32 (next + 1)) (add_log (LCreated (next_ptr s) (op_type (set_op_id next op)))
       (set_op (next_ptr s) (set_op_id next op) (set_next_ptr (Pos.succ (next_ptr s)) s)))).
    { unfold s2, set_op, add_log. cbn. by rewrite insert_insert_eq. }
    rewrite E. split; [|split]; [|by eapply frame_alloc|done].
    apply inv_alloc; cbn; [done| | |by right; rewrite Hnext].
    + rewrite Hcb. by apply Hask.
    + done.
  - intros Ha.
    assert (E : forall x, x = set_next_send_id (next_send_id x) x) by (by intros []).
    rewrite (E (add_log _ _)). cbn. split; [|split]; [|by eapply frame_alloc|done].
    apply inv_alloc; [done|by rewrite Ha|by rewrite Ha|by left].
Qed.

Lemma send_safe fl cur ft opcode pdu len cb ud d s :
  inv fl cur ft s -> pdu_ok pdu len ->
  safe_r fl cur ft s (bt_att_send junk sign_att counter opcode pdu len cb ud d s).
Proof using sign_len.
  intros I Hp. unfold bt_att_send. destruct (isNil (chans s)) eqn:En; [by apply safe_r_ret|].
  destruct (create_inv fl cur ft opcode pdu len cb ud d s I Hp) as (r & -> & Hr).
  cbn [mbind option_bind]. destruct r as [[o s']|]; [|by apply safe_r_ret].
  destruct (Hr o s' eq_refl) as (op & Hop & Hh & Ho & Hnx & Hsend & _). rewrite Hh. cbn [mbind option_bind].
  set (next := if next_send_id s' <? 1 then 1 else next_send_id s').
  assert (Hnext : next = Z.max 1 (next_send_id s)).
  { unfold next. rewrite Hnx. destruct (next_send_id s <? 1) eqn:El; lia. }
  destruct (Hsend next Hnext) as (I2 & F2 & B2). clear Hsend.
  set (s2 := set_op o _ _) in *. cbv zeta.
  assert (Hne : chans s <> []) by (by destruct (chans s)).
  assert (Hmono : forall s3, inv fl cur ft s3 -> frame s s3 ->
    safe_r fl cur ft s (s ← wakeup_writer s3; Some (next, s))).
  { intros s3 I3 F3. destruct (wakeup_writer_safe _ _ _ _ I3) as (s4 & -> & I4 & F4).
    exists next, s4. split; [done|]. split; [done|]. by etrans. }
  destruct (op_type op) eqn:Ety; apply Hmono.
  all: try (eapply inv_set_write; [exact I2|solve_Permutation|]; intros o' [Ho'| ->%list_elem_of_singleton]%elem_of_app;
      [by apply (inv_write _ _ _ _ I2)|eexists; split; [exact B2|done]]).
  all: try (destruct F2; constructor; cbn; eauto; congruence).
  - eapply inv_set_req; [exact I2|solve_Permutation|]. intros o' [Ho'| ->%list_elem_of_singleton]%elem_of_app;
      [by apply (inv_req _ _ _ _ I2)|exact B2].
  - eapply inv_set_ind; [exact I2|solve_Permutation|]. intros o' [Ho'| ->%list_elem_of_singleton]%elem_of_app;
      [by apply (inv_ind _ _ _ _ I2)|exact B2].
Qed.

Lemma chan_send_safe fl cur ft ch opcode pdu len cb ud d s :
  inv fl cur ft s -> pdu_ok pdu len -> is_Some (chan_heap s !! ch) -> asks (get_op_type opcode) = false ->
  safe_r fl cur ft s (bt_att_chan_send junk sign_att counter ch opcode pdu len cb ud d s).
Proof using sign_len.
  intros I Hp [c Hc] Hna. unfold bt_att_chan_send. rewrite Hc. cbn [mbind option_bind].
  destruct (create_inv fl cur ft opcode pdu len cb ud d s I Hp) as (r & -> & Hr).
  cbn [mbind option_bind]. destruct r as [[o s']|]; [|by apply safe_r_ret].
  destruct (Hr o s' eq_refl) as (op & (Hty & _) & Hh & Ho & Hnx & _ & Hch). rewrite Hh. cbn [mbind option_bind].
  rewrite <- Hty in Hna. destruct (Hch Hna) as (I' & F' & B').
  destruct (frame_chan_some _ _ _ ch F') as [c' Hc']; [by exists c|].
  unfold upd_chan. rewrite Hc'. cbn [mbind option_bind].
  assert (I2 : inv fl cur ft (set_chan ch (set_c_queue (c_queue c' ++ [o]) c') s')).
  { pose proof (inv_chan _ _ _ _ I' ch c' Hc') as (T1 & T2 & T3).
    eapply inv_set_chan; [done..| | | |by right]; cbn.
    - unfold chan_ops; cbn. solve_Permutation.
    - repeat split; cbn; eauto. intros o' [Ho'| ->%list_elem_of_singleton]%elem_of_app; [by apply T3|].
      eauto.
    - eauto. }
  assert (F2 : frame s (set_chan ch (set_c_queue (c_queue c' ++ [o]) c') s'))
    by (etrans; [exact F'|]; by eapply frame_set_chan).
  destruct (wakeup_chan_safe _ _ _ _ ch I2) as (s4 & -> & I4 & F4).
  { cbn. rewrite lookup_insert_eq. by eexists. }
  exists (op_id op), s4. split; [done|]. split; [done|]. by etrans.
Qed.

(** *** Receive buffers *)

(** Every channel keeps its buffer. *)
Definition same_buf (s s' : bt_att) : Prop :=
  forall ch, c_buf <$> chan_heap s' !! ch = c_buf <$> chan_heap s !! ch.

#[local] Instance same_buf_refl : Reflexive same_buf.
Proof. by intros s ch. Qed.
#[local] Instance same_buf_trans : Transitive same_buf.
Proof. intros s1 s2 s3 H1 H2 ch. by rewrite H2, H1. Qed.

Lemma same_buf_heap s s' : chan_heap s' = chan_heap s -> same_buf s s'.
Proof. intros E ch. by rewrite E. Qed.

Lemma upd_chan_buf ch f s s' : (forall c, c_buf (f c) = c_buf c) -> upd_chan ch f s = Some s' -> same_buf s s'.
Proof.
  intros Hf H. unfold upd_chan in H. apply bind_Some in H as (c & Hc & [= <-]). intros ch'. cbn.
  destruct (decide (ch' = ch)) as [->|]; [by rewrite lookup_insert_eq, Hc; cbn; rewrite Hf|by rewrite lookup_insert_ne].
Qed.

Lemma for_each_buf f l s s' :
  (forall x s1 s2, f x s1 = Some s2 -> same_buf s1 s2) -> for_each f l s = Some s' -> same_buf s s'.
Proof.
  intros Hf. revert s. induction l as [|x l IH]; cbn; intros s H; [by simplify_eq|].
  apply bind_Some in H as (s1 & H1 & H). etrans; [by eapply Hf|by apply IH].
Qed.

Ltac buf_step :=
  match goal with
  | H : _ ≫= _ = Some _ |- _ => apply bind_Some in H as (? & ? & ?)
  | H : Some _ = Some _ |- _ => apply (inj Some) in H; subst
  | H : (_, _) = (_, _) |- _ => apply pair_eq in H as [? ?]; subst
  | H : (match ?x with _ => _ end) = Some _ |- _ => destruct x eqn:?
  | H : None = Some _ |- _ => discriminate H
  end.

Lemma destroy_buf o s s' : destroy_att_send_op o s = Some s' -> same_buf s s'.
Proof.
  intros H. unfold destroy_att_send_op in H. repeat buf_step. apply same_buf_heap.
  unfold timeout_remove; repeat case_match; done.
Qed.

Lemma destroy_cancelled_buf o s s' : destroy_cancelled o s = Some s' -> same_buf s s'.
Proof. intros H. by apply destroy_buf in H. Qed.

Lemma cancel_op_buf o s s' : cancel_att_send_op o s = Some s' -> same_buf s s'.
Proof. intros H. unfold cancel_att_send_op in H. repeat buf_step. apply same_buf_heap. by case_match. Qed.

Lemma cancel_pending_buf p s s' : cancel_pending p s = Some s' -> same_buf s s'.
Proof. destruct p; cbn; [apply cancel_op_buf|by intros [= ->]]. Qed.

Lemma wakeup_chan_buf ch s s' : wakeup_chan_writer ch s = Some s' -> same_buf s s'.
Proof.
  intros H. unfold wakeup_chan_writer in H. apply bind_Some in H as (c & Hc & H).
  repeat buf_step; try done. apply (upd_chan_buf ch (set_writer_active true)); [done|].
  unfold upd_chan. by rewrite Hc.
Qed.

Lemma wakeup_buf s s' : wakeup_writer s = Some s' -> same_buf s s'.
Proof. apply for_each_buf. intros ch. apply wakeup_chan_buf. Qed.

Lemma create_buf opcode pdu len cb ud d s o s' :
  create_att_send_op junk sign_att counter opcode pdu len cb ud d s = Some (Some (o, s')) -> same_buf s s'.
Proof.
  intros H. unfold create_att_send_op in H. apply same_buf_heap. repeat buf_step; simplify_eq; done.
Qed.

Lemma send_buf opcode pdu len cb ud d s r :
  bt_att_send junk sign_att counter opcode pdu len cb ud d s = Some r -> same_buf s r.2.
Proof.
  intros H. unfold bt_att_send in H. destruct (isNil _); [by simplify_eq|].
  apply bind_Some in H as ([[o s1]|] & E & H); [|by simplify_eq]. apply create_buf in E. etrans; [exact E|].
  apply bind_Some in H as (op & Hop & H). apply bind_Some in H as (s2 & Hw & [= <-]). apply wakeup_buf in Hw.
  etrans; [|exact Hw]. apply same_buf_heap. by case_match.
Qed.

Lemma chan_send_buf ch opcode pdu len cb ud d s r :
  bt_att_chan_send junk sign_att counter ch opcode pdu len cb ud d s = Some r -> same_buf s r.2.
Proof.
  intros H. unfold bt_att_chan_send in H. apply bind_Some in H as (c & Hc & H).
  apply bind_Some in H as ([[o s1]|] & E & H); [|by simplify_eq]. apply create_buf in E.
  apply bind_Some in H as (op & Hop & H). apply bind_Some in H as (s2 & Hu & H).
  apply bind_Some in H as (s3 & Hw & [= <-]). apply upd_chan_buf in Hu; [|done]. apply wakeup_chan_buf in Hw. cbn.
  by do 2 (etrans; [eassumption|]).
Qed.

Lemma chan_cancel_buf ch id s r : bt_att_chan_cancel ch id s = Some r -> same_buf s r.2.
Proof.
  intros H. unfold bt_att_chan_cancel in H. repeat buf_step; cbn; try done;
    try (by eapply cancel_pending_buf).
  etrans; [eapply upd_chan_buf; [|eassumption]; done|]. etrans; [by eapply destroy_cancelled_buf|by eapply wakeup_chan_buf].
Qed.

Lemma chans_cancel_buf id l s r : chans_cancel id l s = Some r -> same_buf s r.2.
Proof.
  revert s. induction l as [|ch l IH]; cbn; intros s H; [by simplify_eq|].
  apply bind_Some in H as ([hit s1] & E & H). apply chan_cancel_buf in E.
  destruct hit; [by simplify_eq|]. etrans; [exact E|by apply IH].
Qed.

Lemma cancel_buf id s r : bt_att_cancel id s = Some r -> same_buf s r.2.
Proof.
  assert (Hd : forall o s2 r, destroy_cancelled o s2 ≫= (fun s3 => wakeup_writer s3 ≫= fun s4 => Some (true, s4)) = Some r ->
    chan_heap s2 = chan_heap s2 -> same_buf s2 r.2).
  { intros o s2 r2 H _. apply bind_Some in H as (s3 & H3 & H). apply bind_Some in H as (s4 & H4 & [= <-]).
    apply destroy_cancelled_buf in H3. apply wakeup_buf in H4. by etrans. }
  intros H. unfold bt_att_cancel in H. destruct (id =? 0); [by simplify_eq|].
  apply bind_Some in H as ([hit s1] & E & H). apply chans_cancel_buf in E. cbn in E.
  destruct hit; [by simplify_eq|]. etrans; [exact E|]. destruct (in_disc s1).
  - unfold bt_att_disc_cancel in H. repeat buf_step; try done; by eapply cancel_op_buf.
  - repeat (apply bind_Some in H as ([?|] & ? & H); [by apply Hd in H|]). by simplify_eq.
Qed.

Lemma cancel_all_buf s s' : bt_att_cancel_all s = Some s' -> same_buf s s'.
Proof.
  intros H. unfold bt_att_cancel_all in H. apply bind_Some in H as (s1 & H1 & H).
  apply bind_Some in H as (s2 & H2 & H). apply bind_Some in H as (s3 & H3 & H).
  apply for_each_buf in H1, H2, H3; try apply destroy_cancelled_buf.
  apply for_each_buf in H; [by do 3 (etrans; [eassumption|])|].
  intros ch a b Hp. apply bind_Some in Hp as (c & _ & Hp). apply bind_Some in Hp as (s4 & H4 & H5).
  etrans; by eapply cancel_pending_buf.
Qed.

Definition is_set_mtu (k : att_call) : bool := match k with CSetMtu _ => true | _ => false end.

Lemma destroy_notify_buf n s s' : destroy_att_notify n s = Some s' -> same_buf s s'.
Proof. intros H. unfold destroy_att_notify in H. repeat buf_step. apply same_buf_heap. by case_match. Qed.

Lemma destroy_disconn_buf d s s' : destroy_att_disconn d s = Some s' -> same_buf s s'.
Proof. intros H. unfold destroy_att_disconn in H. repeat buf_step. apply same_buf_heap. by case_match. Qed.

(** Only [bt_att_set_mtu] replaces a buffer. *)
Lemma do_call_buf k s s' :
  is_set_mtu k = false -> do_call junk sign_att counter k s = Some s' -> same_buf s s'.
Proof.
  intros Hk H. unfold do_call in H. destruct (freed s); [done|].
  destruct k; try discriminate Hk; try (apply bind_Some in H as (r & H & [= <-])); try (by simplify_eq).
  - by eapply send_buf.
  - by eapply chan_send_buf.
  - by eapply cancel_buf.
  - by eapply chan_cancel_buf.
  - by eapply cancel_all_buf.
  - unfold bt_att_chan_send_error_rsp in H. destruct (opcode =? 0); [by simplify_eq|by eapply chan_send_buf].
  - simplify_eq. apply same_buf_heap. unfold bt_att_register. by case_match.
  - unfold bt_att_unregister in H. repeat buf_step; try done. by etrans; [|by eapply destroy_notify_buf].
  - simplify_eq. apply same_buf_heap. unfold bt_att_register_disconnect. by case_match.
  - unfold bt_att_unregister_disconnect in H. repeat buf_step; try done.
    by etrans; [|by eapply destroy_disconn_buf].
  - simplify_eq. apply same_buf_heap. unfold bt_att_set_timeout_cb, user_destroy. by case_match.
  - simplify_eq. apply same_buf_heap. unfold bt_att_set_debug, user_destroy. by case_match.
  - unfold bt_att_set_close_on_unref in H. apply for_each_buf in H; [exact H|].
    intros ch a b Hu. by apply upd_chan_buf in Hu.
Qed.

Lemma do_calls_buf l s s' :
  Forall (fun k => is_set_mtu k = false) l -> do_calls junk sign_att counter l s = Some s' -> same_buf s s'.
Proof.
  intros Hl. revert s. induction Hl as [|k l Hk Hl IH]; cbn; intros s H; [by simplify_eq|].
  apply bind_Some in H as (s1 & H1 & H). etrans; [by eapply do_call_buf|by apply IH].
Qed.

Definition is_reg (k : att_call) : bool :=
  match k with CRegister _ _ _ _ | CUnregister _ => true | _ => false end.

(** The calls a client may make: on channels that exist, without requests or
    indications of a single channel, with payloads it can show. *)
Definition call_ok (s : bt_att) (k : att_call) : Prop :=
  match k with
  | CSend _ pdu len _ _ _ => pdu_ok pdu len
  | CChanSend ch opcode pdu len _ _ _ =>
      is_Some (chan_heap s !! ch) /\ pdu_ok pdu len /\ asks (get_op_type opcode) = false
  | CChanCancel ch _ | CSendError ch _ _ _ => is_Some (chan_heap s !! ch)
  | _ => True
  end.

Lemma call_ok_frame rg s s' k : frame_reg rg s s' -> call_ok s k -> call_ok s' k.
Proof.
  intros F. destruct k; cbn; try done.
  - intros (? & ? & ?). split; [by eapply frame_chan_some|done].
  - by eapply frame_chan_some.
  - by eapply frame_chan_some.
Qed.

Lemma do_call_safe fl cur ft s k :
  inv fl cur ft s -> call_ok s k ->
  exists s', do_call junk sign_att counter k s = Some s' /\ inv fl cur ft s' /\ frame_reg (is_reg k) s s'.
Proof using sign_len.
  intros I Hk. unfold do_call. rewrite (inv_freed _ _ _ _ I).
  assert (Hsafe : forall r rg, safe fl cur ft s r ->
    exists s', r = Some s' /\ inv fl cur ft s' /\ frame_reg rg s s').
  { intros r rg (s' & -> & I' & F'). exists s'. split; [done|]. split; [done|]. by apply frame_weaken. }
  destruct k; cbn [is_reg call_ok] in *.
  - by apply Hsafe, safe_drop, send_safe.
  - destruct Hk as (? & ? & ?). by apply Hsafe, safe_drop, chan_send_safe.
  - by apply Hsafe, safe_drop, bt_att_cancel_safe.
  - by apply Hsafe, safe_drop, chan_cancel_safe.
  - by apply Hsafe, cancel_all_safe.
  - apply Hsafe, safe_drop. unfold bt_att_chan_send_error_rsp. destruct (opcode =? 0); [by apply safe_r_ret|].
    apply chan_send_safe; try done. split; [lia|]. by intros ? [= <-].
  - destruct (register_safe fl cur ft s opcode callback user destroy I). by eexists.
  - destruct (unregister_safe fl cur ft s id I) as (b & s' & -> & ? & ?). by exists s'.
  - destruct (register_disconnect_safe fl cur ft s callback user destroy I). by eexists.
  - by apply Hsafe, safe_drop, unregister_disconnect_safe.
  - by apply Hsafe, safe_drop, set_mtu_safe.
  - eexists. split; [done|]. destruct (user_destroy_safe fl cur ft s (timeout_destroy s) (timeout_data s) I) as [I1 F1].
    split; [unfold bt_att_set_timeout_cb; inv_triv|]. etrans; [exact F1|]. by apply frame_same_shape.
  - eexists. split; [done|]. destruct (user_destroy_safe fl cur ft s (debug_destroy s) (debug_data s) I) as [I1 F1].
    split; [unfold bt_att_set_debug; inv_triv|]. etrans; [exact F1|]. by apply frame_same_shape.
  - by apply Hsafe, close_on_unref_safe.
  - eexists. split; [done|]. split; [inv_triv|by apply frame_same_shape].
  - eexists. split; [done|]. split; [inv_triv|by apply frame_same_shape].
  - eexists. split; [done|]. split; [inv_triv|by apply frame_same_shape].
Qed.

Lemma do_calls_safe rg fl cur ft l s :
  inv fl cur ft s -> Forall (fun k => call_ok s k /\ (is_reg k = true -> rg = true)) l ->
  exists s', do_calls junk sign_att counter l s = Some s' /\ inv fl cur ft s' /\ frame_reg rg s s'.
Proof using sign_len.
  intros I Hl. revert s I Hl. induction l as [|k l IH]; intros s I Hl; cbn [do_calls]; [by exists s|].
  apply Forall_cons in Hl as [[Hk Hr] Hl].
  destruct (do_call_safe fl cur ft s k I Hk) as (s1 & -> & I1 & F1). cbn [mbind option_bind].
  assert (F1' : frame_reg rg s s1).
  { destruct (is_reg k); [by rewrite Hr|by apply frame_weaken]. }
  destruct (IH s1 I1) as (s2 & -> & I2 & F2).
  - eapply Forall_impl; [exact Hl|]. intros k' [? ?]. split; [by eapply call_ok_frame|done].
  - exists s2. split; [done|]. split; [done|]. by etrans.
Qed.

(** ** Client functions *)

Definition is_notify (e : att_event) : bool :=
  match e with LNotify _ _ _ _ _ _ => true | _ => false end.

(** None of the handlers [l] takes an operation of this opcode. *)
Definition takes_none (opcode : Z) (l : list positive) (s : bt_att) : Prop :=
  forall n nt, n ∈ l -> notify_heap s !! n = Some nt -> opcode_match (u8 (n_opcode nt)) opcode = false.

(** No handler after the one called takes the operation too. *)
Definition last_handler (e : att_event) (s : bt_att) : Prop :=
  match e with
  | LNotify n _ _ _ opcode _ =>
      forall pre post, notify_list s = pre ++ n :: post -> takes_none opcode post s
  | _ => True
  end.

(** The calls of client functions are calls a client may make; the functions
    that receive incoming operations do not register or unregister any, and set
    the MTU, which frees the buffer the operation was received in, only when no
    other handler is to be shown it. *)
Context (react_ok : forall e s k, k ∈ react e s ->
           call_ok s k /\ (is_reg k = true -> is_notify e = false) /\
           (is_set_mtu k = true -> last_handler e s)).

Lemma call_client_safe fl cur ft e s :
  about e = None -> inv fl cur ft s ->
  exists s', call_client junk sign_att counter react e s = Some s' /\ inv fl cur ft s' /\
    frame_reg (negb (is_notify e)) s s'.
Proof using sign_len react_ok.
  intros He I. unfold call_client.
  pose proof (inv_add_log _ _ _ _ e He I) as I1. pose proof (frame_add_log e s He) as F1.
  destruct (do_calls_safe (negb (is_notify e)) fl cur ft (react e s) (add_log e s) I1) as (s' & -> & I' & F').
  - apply Forall_forall. intros k Hk. destruct (react_ok e s k Hk) as (Hok & Hr & _).
    split; [by eapply call_ok_frame|]. intros Hk'. by rewrite (Hr Hk').
  - exists s'. split; [done|]. split; [done|]. etrans; [by apply frame_weaken|done].
Qed.

(** The response function of a live operation; afterwards it was called once, or
    the operation had been cancelled. *)
Lemma call_response_safe fl ft o op rsp_opcode pdu s :
  inv fl None ft s -> op_heap s !! o = Some op ->
  exists s', call_response junk sign_att counter react o rsp_opcode pdu s = Some s' /\
    inv fl (Some o) ft s' /\ frame_reg true s s' /\
    (asks (op_type op) = true -> canc (stat (log s') o) = true \/ resp (stat (log s') o) = 1%nat).
Proof using sign_len react_ok.
  intros I Hop. unfold call_response. rewrite Hop. cbn [mbind option_bind].
  pose proof (inv_ops _ _ _ _ I o) as Hok. rewrite Hop in Hok.
  destruct (op_callback op) as [cb|] eqn:Hcb.
  - set (e := LResponse o cb (op_user_data op) rsp_opcode pdu). unfold call_client.
    assert (Hst : stat (log s ++ [e]) o
      = mkStat (born (stat (log s) o)) 1 (dest (stat (log s) o)) false false).
    { rewrite stat_app. simpl. rewrite decide_True by done.
      destruct Hok as (H1 & H2 & H3 & H4 & [H5|H5] & H6); [|done].
      destruct (canc (stat (log s) o)); [destruct H6; congruence|]. destruct H6 as [H6 _].
      rewrite H1, H5, H6. done. }
    assert (Ha : Forall (fun e => about e = Some o) [e]) by (by repeat constructor).
    assert (I1 : inv fl (Some o) ft (add_log e s)).
    { eapply (inv_op_step fl None (Some o) ft s (add_log e s) o op [e] Hop ltac:(by constructor) eq_refl Ha)
        with (op' := op); try done.
      - by rewrite Hst.
      - intros ? ? ? ? ?. by apply op_ok_cur.
      - cbn. by rewrite insert_id.
      - by left.
      - cbn. rewrite Hst. destruct Hok as (H1 & H2 & H3 & H4 & [H5|H5] & H6); [|done].
        destruct (canc (stat (log s) o)); [destruct H6; congruence|]. destruct H6 as [H6 H7].
        unfold op_ok; cbn. repeat split; try done; try lia. by right. }
    assert (F1 : frame s (add_log e s)).
    { eapply (same_rest_frame s (add_log e s) o [e]); [by constructor|done|done|].
      intros t. by rewrite Hst. }
    destruct (do_calls_safe true fl (Some o) ft (react e s) (add_log e s) I1) as (s' & -> & I' & F').
    { apply Forall_forall. intros k Hk. destruct (react_ok e s k Hk) as [Hk' _].
      split; [by eapply call_ok_frame|done]. }
    exists s'. split; [done|]. split; [done|]. split; [etrans; [by apply frame_weaken|done]|].
    intros _. right. destruct (stat_mono _ _ o (fr_log _ _ _ F')) as [Hge _]. cbn in Hge. rewrite Hst in Hge.
    pose proof (inv_ops _ _ _ _ I' o) as (_ & Hle & _). cbn in Hge. lia.
  - exists s. split; [done|]. split; [|split; [done|]].
    + destruct I. constructor; eauto. intros o'. by apply op_ok_cur.
    + intros Hask. left. destruct Hok as (_ & _ & _ & _ & _ & Hc).
      destruct (canc (stat (log s) o)); [done|]. destruct Hc as [_ Hc]. destruct (Hc Hask). congruence.
Qed.

(** An operation that is in nobody's hands but the handler's: it is answered
    with an error and destroyed. *)
Lemma disc_op_safe fl ft o s :
  inv (o :: fl) None ft s ->
  exists s', disc_att_send_op junk sign_att counter react o s = Some s' /\
    inv fl None ft s' /\ frame_reg true s s'.
Proof using sign_len react_ok.
  intros I. unfold disc_att_send_op. destruct (live_op _ _ _ _ o I) as [op Hop]; [by left|].
  destruct (call_response_safe _ ft o op BT_ATT_OP_ERROR_RSP [] s I Hop) as (s1 & -> & I1 & F1 & Hd).
  cbn [mbind option_bind]. destruct (live_op _ _ _ _ o I1) as [op1 Hop1]; [by left|].
  assert (Hty : op_type op1 = op_type op).
  { pose proof (inv_ops _ _ _ _ I o) as H. rewrite Hop in H. destruct H as (_ & _ & _ & Hb & _).
    apply (fr_born _ _ _ F1) in Hb. pose proof (inv_ops _ _ _ _ I1 o) as H. rewrite Hop1 in H.
    destruct H as (_ & _ & _ & Hb' & _). congruence. }
  destruct (destroy_safe fl (Some o) None ft ft s1 o op1 I1 Hop1) as (s2 & -> & I2 & F2).
  - by rewrite Hty.
  - by right.
  - by left.
  - exists s2. split; [done|]. split; [done|]. etrans; [done|by apply frame_weaken].
Qed.

(** A pending operation is answered, destroyed and taken off its channel. *)
Lemma answer_pending isr fl ch c o rsp_opcode pdu s :
  inv fl None None s -> chan_heap s !! ch = Some c -> pend isr c = Some o ->
  exists s1 s2 s3 c', call_response junk sign_att counter react o rsp_opcode pdu s = Some s1 /\
    destroy_att_send_op o s1 = Some s2 /\ upd_chan ch (set_pend isr None) s2 = Some s3 /\
    inv fl None None s3 /\ hframe s s3 /\ chan_heap s3 !! ch = Some c' /\ pend isr c' = None /\
    pend (negb isr) c' = pend (negb isr) c.
Proof using sign_len react_ok.
  intros I Hc Hp. pose proof (pend_all _ _ _ _ _ Hc Hp) as Hall.
  destruct (live_op _ _ _ _ o I) as [op Hop]; [apply elem_of_app; by right|].
  destruct (call_response_safe fl None o op rsp_opcode pdu s I Hop) as (s1 & E1 & I1 & F1 & Hd).
  pose proof (fr_chan _ _ _ F1 ch) as Hl. rewrite Hc in Hl.
  destruct (chan_heap s1 !! ch) as [c1|] eqn:Hc1; [|done]. destruct Hl as [Hl1 Hl2].
  assert (Hlike : forall b, pend b c1 = pend b c) by (by intros []).
  assert (Hp1 : pend isr c1 = Some o) by (by rewrite Hlike).
  destruct (live_op _ _ _ _ o I1) as [op1 Hop1].
  { apply elem_of_app. right. by eapply pend_all. }
  assert (Hty : op_type op1 = op_type op).
  { pose proof (inv_ops _ _ _ _ I o) as H. rewrite Hop in H. destruct H as (_ & _ & _ & Hb & _).
    apply (fr_born _ _ _ F1) in Hb. pose proof (inv_ops _ _ _ _ I1 o) as H. rewrite Hop1 in H.
    destruct H as (_ & _ & _ & Hb' & _). congruence. }
  destruct (destroy_unpend isr fl s1 ch c1 o op1 I1 Hc1 Hp1 Hop1) as (s3 & E3 & I3 & F3 & Hh3); [by rewrite Hty|].
  destruct (destroy_att_send_op o s1) as [s2|] eqn:E2; [|done]. cbn [mbind option_bind] in E3.
  exists s1, s2, s3, (set_pend isr None c1). repeat (split; [done|]). split.
  { etrans; [by eapply frame_hframe|]. apply frame_hframe in F3 as [H1 H2 H3]. cbn in *.
    constructor; [done| |done]. intros ch'. rewrite Hh3. destruct (decide (ch' = ch)) as [->|Hne].
    - rewrite lookup_insert_eq, Hc1. split; eauto.
    - by rewrite lookup_insert_ne. }
  split; [by rewrite Hh3, lookup_insert_eq|]. split; [apply pend_set_same|]. by rewrite pend_set_other.
Qed.

Lemma wakeup_h fl cur ft s ch :
  inv fl cur ft s -> is_Some (chan_heap s !! ch) ->
  exists s', wakeup_chan_writer ch s = Some s' /\ inv fl cur ft s' /\ hframe s s'.
Proof.
  intros I Hc. destruct (wakeup_chan_safe _ _ _ _ ch I Hc) as (s' & -> & I' & F').
  exists s'. split; [done|]. split; [done|by eapply frame_hframe].
Qed.

Lemma upd_chan_h fl cur ft s ch f :
  inv fl cur ft s -> is_Some (chan_heap s !! ch) ->
  (forall c, c_queue (f c) = c_queue c /\ pending_req (f c) = pending_req c /\ pending_ind (f c) = pending_ind c) ->
  exists s', upd_chan ch f s = Some s' /\ inv fl cur ft s' /\ hframe s s'.
Proof.
  intros I [c Hc] Hf. unfold upd_chan. rewrite Hc. cbn [mbind option_bind].
  destruct (Hf c) as (H1 & H2 & H3). eexists. split; [done|]. split; [by eapply inv_upd_chan|].
  eapply frame_hframe. by eapply frame_set_chan.
Qed.

Lemma shutdown_h fl cur ft s ch :
  inv fl cur ft s -> is_Some (chan_heap s !! ch) ->
  exists s', io_shutdown ch s = Some s' /\ inv fl cur ft s' /\ hframe s s'.
Proof.
  intros I Hc. unfold io_shutdown.
  destruct (upd_chan_h fl cur ft (add_log (LShutdown ch) s) ch (set_c_shut true)) as (s' & -> & I' & F');
    [by apply inv_add_log|done|done|].
  exists s'. split; [done|]. split; [done|]. etrans; [|done].
  eapply frame_hframe, frame_add_log. done.
Qed.

Lemma finish_req_safe ch c o rsp_opcode pdu s :
  inv [] None None s -> chan_heap s !! ch = Some c -> pending_req c = Some o ->
  exists s', finish_req junk sign_att counter react ch o rsp_opcode pdu s = Some s' /\
    inv [] None None s' /\ hframe s s'.
Proof using sign_len react_ok.
  intros I Hc Hp. destruct (answer_pending true [] ch c o rsp_opcode pdu s I Hc Hp)
    as (s1 & s2 & s3 & c' & E1 & E2 & E3 & I3 & F3 & Hc' & _).
  unfold finish_req. rewrite E1. cbn [mbind option_bind]. rewrite E2. cbn [mbind option_bind].
  change (set_pend true None) with (set_pending_req None) in E3. rewrite E3. cbn [mbind option_bind].
  destruct (wakeup_h _ _ _ s3 ch I3) as (s4 & -> & I4 & F4); [by eexists|].
  exists s4. split; [done|]. split; [done|by etrans].
Qed.

Lemma timeout_remove_state tid o op ch c q s :
  set_req_queue q (set_chan ch c (set_op o op (timeout_remove tid s)))
  = set_timers (timers (timeout_remove tid s)) (set_req_queue q (set_chan ch c (set_op o op s))).
Proof. by destruct tid. Qed.

(** Retrying the pending request: it goes back to the head of the queue. *)
Lemma retry_safe ch c o op s :
  inv [] None None s -> chan_heap s !! ch = Some c -> pending_req c = Some o -> op_heap s !! o = Some op ->
  forall s', s' = set_req_queue (o :: req_queue s) (set_chan ch (set_pending_req None c)
     (set_op o (set_op_timeout_id None op) (timeout_remove (op_timeout_id op) s))) ->
  inv [] None None s' /\ frame s (set_chan_heap (chan_heap s) (set_req_queue (req_queue s) s')).
Proof.
  intros I Hc Hp Hop s' ->.
  pose proof (inv_chan _ _ _ _ I ch c Hc) as (T1 & _).
  pose proof (inv_unpend true [] None s ch c o op I Hc Hp Hop) as I1. cbn [set_pend] in I1.
  set (tm := op_timeout_id op) in *.
  assert (I2 : inv [o] None tm (set_op o (set_op_timeout_id None op) (set_chan ch (set_pending_req None c) s))).
  { eapply (inv_op_step [o] None None tm (set_chan ch (set_pending_req None c) s)
      (set_op o (set_op_timeout_id None op) (set_chan ch (set_pending_req None c) s)) o op [] Hop
      ltac:(by constructor) ltac:(by cbn; rewrite app_nil_r) ltac:(constructor))
      with (op' := set_op_timeout_id None op); try done.
    - by rewrite app_nil_r.
    - right. by left.
    - pose proof (inv_ops _ _ _ _ I o) as H. by rewrite Hop in H. }
  assert (I3 : inv [] None tm (set_req_queue (o :: req_queue s)
     (set_op o (set_op_timeout_id None op) (set_chan ch (set_pending_req None c) s)))).
  { eapply inv_set_req; [exact I2|done|]. intros o' [->|Ho']%elem_of_cons; [by apply T1|].
    by apply (inv_req _ _ _ _ I). }
  rewrite timeout_remove_state. split.
  - destruct I3. constructor; cbn in *; eauto.
    intros t ch' id Ht _.
    assert (timers s !! t = Some (ch', id) /\ tm <> Some t) as [Ht' Hne].
    { destruct tm as [t'|]; cbn in Ht; [|done]. apply lookup_delete_Some in Ht as [? ?]. split; congruence. }
    eauto.
  - by destruct tm; constructor; cbn; eauto.
Qed.

Lemma handle_rsp_safe k ch opcode pdu s :
  inv [] None None s -> is_Some (chan_heap s !! ch) ->
  exists s', handle_rsp junk sign_att counter react k ch opcode pdu s = Some s' /\
    inv [] None None s' /\ hframe s s'.
Proof using sign_len react_ok.
  intros I [c Hc]. unfold handle_rsp. rewrite Hc. cbn [mbind option_bind].
  destruct (pending_req c) as [o|] eqn:Hp; [|apply shutdown_h; [done|by eexists]].
  destruct (live_op _ _ _ _ o I) as [op Hop]; [by eapply pending_req_all|].
  assert (Hfin : forall c' s1 b rq, inv [] None None s1 -> hframe s s1 -> chan_heap s1 !! ch = Some c' ->
    pending_req c' = Some o ->
    exists s', (op ← op_heap s1 !! o;
      if (b && (rq =? 0)) || negb (rq =? op_opcode op)
      then finish_req junk sign_att counter react ch o BT_ATT_OP_ERROR_RSP [] s1
      else finish_req junk sign_att counter react ch o opcode pdu s1) = Some s' /\
      inv [] None None s' /\ hframe s s').
  { intros c' s1 b rq I1 F1 Hc1 Hp1.
    destruct (live_op _ _ _ _ o I1) as [op1 ->]; [by eapply pending_req_all|]. cbn [mbind option_bind].
    destruct (_ || _); (edestruct (finish_req_safe ch c' o) as (s2 & -> & I2 & F2); [done..|];
      exists s2; split; [done|]; split; [done|by etrans]). }
  destruct (opcode =? BT_ATT_OP_ERROR_RSP) eqn:Eo; cbn [mbind option_bind]; [|by eapply Hfin].
  assert (Hbad : handle_error_rsp k ch pdu s = Some (false, 0, s) ->
    exists s', ('(retry, req_opcode, s0) ← handle_error_rsp k ch pdu s;
      if retry : bool then wakeup_chan_writer ch s0 else
      op0 ← op_heap s0 !! o;
      if (negb true && (req_opcode =? 0)) || negb (req_opcode =? op_opcode op0)
      then finish_req junk sign_att counter react ch o BT_ATT_OP_ERROR_RSP [] s0
      else finish_req junk sign_att counter react ch o opcode pdu s0) = Some s' /\
      inv [] None None s' /\ hframe s s').
  { intros ->. cbn [mbind option_bind]. by eapply Hfin. }
  unfold handle_error_rsp in *.
  destruct pdu as [|b0 [|b1 [|b2 [|b3 [|b4 pdu]]]]]; try by apply Hbad. clear Hbad.
  rewrite Hc. cbn [mbind option_bind].
  destruct (change_security k b3 c) as [ch_ok c1] eqn:Hcs.
  assert (Hc1 : c_queue c1 = c_queue c /\ pending_req c1 = pending_req c /\ pending_ind c1 = pending_ind c).
  { unfold change_security, bt_att_chan_set_security in Hcs. case_all; by simplify_eq. }
  destruct Hc1 as (Hq1 & Hr1 & Hi1).
  assert (I1 : inv [] None None (set_chan ch c1 s)) by (by eapply inv_upd_chan).
  assert (F1 : frame s (set_chan ch c1 s)) by (by eapply frame_set_chan).
  assert (Hl1 : chan_heap (set_chan ch c1 s) !! ch = Some c1) by (cbn; apply lookup_insert_eq).
  destruct ch_ok; cbn [negb].
  - rewrite Hr1, Hp. cbn [mbind option_bind]. cbn [op_heap set_chan set_chan_heap].
    change (op_heap (set_chan ch c1 s)) with (op_heap s). rewrite Hop. cbn [mbind option_bind].
    destruct (retry_safe ch c1 o op (set_chan ch c1 s) I1 Hl1 ltac:(congruence) Hop _ eq_refl) as [I2 F2].
    assert (Hq : req_queue (set_chan ch (set_pending_req None c1) (set_op o (set_op_timeout_id None op)
        (timeout_remove (op_timeout_id op) (set_chan ch c1 s)))) = req_queue (set_chan ch c1 s))
      by (by destruct (op_timeout_id op)).
    rewrite Hq. set (s2 := set_req_queue _ _) in *.
    destruct (wakeup_h [] None None s2 ch I2) as (s3 & -> & I3 & F3).
    { unfold s2. cbn. rewrite lookup_insert_eq. by eexists. }
    exists s3. split; [done|]. split; [done|]. etrans; [by eapply frame_hframe|]. etrans; [|done].
    apply frame_hframe in F2 as [G1 G2 G3]. constructor; [done| |done].
    intros ch'. unfold s2. cbn. destruct (decide (ch' = ch)) as [->|Hne].
    + rewrite !lookup_insert_eq. split; eauto.
    + destruct (op_timeout_id op); cbn; by rewrite !lookup_insert_ne by done.
  - eapply (Hfin c1); [done|by eapply frame_hframe|done|congruence].
Qed.

Lemma handle_conf_safe ch pdu s :
  inv [] None None s -> is_Some (chan_heap s !! ch) ->
  exists s', handle_conf junk sign_att counter react ch pdu s = Some s' /\
    inv [] None None s' /\ hframe s s'.
Proof using sign_len react_ok.
  intros I [c Hc]. unfold handle_conf. rewrite Hc. cbn [mbind option_bind].
  destruct (pending_ind c) as [o|] eqn:Hp; [|apply shutdown_h; [done|by eexists]].
  destruct (negb (isNil pdu)); [apply shutdown_h; [done|by eexists]|].
  destruct (answer_pending false [] ch c o BT_ATT_OP_HANDLE_CONF [] s I Hc Hp)
    as (s1 & s2 & s3 & c' & E1 & E2 & E3 & I3 & F3 & Hc' & _).
  rewrite E1. cbn [mbind option_bind]. rewrite E2. cbn [mbind option_bind].
  change (set_pend false None) with (set_pending_ind None) in E3. rewrite E3. cbn [mbind option_bind].
  destruct (wakeup_h _ _ _ s3 ch I3) as (s4 & -> & I4 & F4); [by eexists|].
  exists s4. split; [done|]. split; [done|by etrans].
Qed.

(** ** Incoming operations *)

Lemma next_entry_spec n pre post :
  NoDup (pre ++ n :: post) -> next_entry n (pre ++ n :: post) = Some (head post).
Proof.
  induction pre as [|x pre IH]; cbn; intros Hnd; [by rewrite decide_True|].
  apply NoDup_cons in Hnd as [Hx Hnd]. rewrite decide_False; [by apply IH|]. intros ->. set_solver.
Qed.

Lemma link_type_safe fl cur ft s : inv fl cur ft s -> exists t, bt_att_get_link_type s = Some t.
Proof.
  intros I. unfold bt_att_get_link_type. destruct (last (chans s)) as [ch|] eqn:E; [|by eexists].
  apply last_Some in E as [l Hl]. destruct (proj2 (inv_chans _ _ _ _ I) ch) as [c ->];
    [rewrite Hl; set_solver|]. by eexists.
Qed.

(** A handler leaves the buffer alone, or nobody else is shown what it holds. *)
Lemma call_handler_buf n cb ud ch opcode d s s' pre post :
  notify_list s = pre ++ n :: post ->
  call_client junk sign_att counter react (LNotify n cb ud ch opcode d) s = Some s' ->
  same_buf s s' \/ takes_none opcode post s.
Proof using react_ok.
  intros Hl H. unfold call_client in H. set (e := LNotify n cb ud ch opcode d) in *.
  destruct (existsb is_set_mtu (react e s)) eqn:Ex.
  - right. apply existsb_exists in Ex as (k & Hk & Hm). apply list_elem_of_In in Hk.
    destruct (react_ok e s k Hk) as (_ & _ & Hlast). exact (Hlast Hm pre post Hl).
  - left. eapply (do_calls_buf _ (add_log e s)); [|exact H]. apply Forall_forall. intros k Hk.
    destruct (is_set_mtu k) eqn:Em; [|done]. exfalso.
    assert (Ht : existsb is_set_mtu (react e s) = true); [|congruence].
    apply existsb_exists. exists k. by rewrite <- list_elem_of_In.
Qed.

Definition buf_kept (ch : positive) (buf : Z) (s : bt_att) : Prop :=
  c_buf <$> chan_heap s !! ch = Some buf.

Lemma read_kept ch buf pdu s : buf_kept ch buf s -> read_pdu ch buf pdu s = Some pdu.
Proof.
  unfold buf_kept, read_pdu. destruct (chan_heap s !! ch) as [c|]; [|done]. cbn. intros [= ->].
  by rewrite Z.eqb_refl.
Qed.

Lemma notify_loop_safe fuel ch opcode buf post : forall pre pdu found s,
  inv [] None None s -> notify_list s = pre ++ post -> (length post <= fuel)%nat ->
  buf_kept ch buf s \/ takes_none opcode post s ->
  exists r s', notify_loop junk sign_att verify_att_sign counter react fuel ch opcode buf pdu (head post) found s
      = Some (r, s') /\ inv [] None None s' /\ frame s s'.
Proof using sign_len react_ok.
  revert post. induction fuel as [|fuel IH]; intros post pre pdu found s I Hl Hf Hb.
  - destruct post; [|cbn in Hf; lia]. by eexists _, s.
  - destruct post as [|n post]; [by eexists _, s|]. cbn [notify_loop head].
    destruct (inv_notify _ _ _ _ I) as [Hnd Hin].
    rewrite Hl, next_entry_spec by (by rewrite <- Hl). cbn [mbind option_bind].
    destruct (Hin n) as [nt Hnt]; [rewrite Hl; set_solver|]. rewrite Hnt. cbn [mbind option_bind].
    assert (Hcont : forall pdu found s1, inv [] None None s1 -> frame s s1 ->
      buf_kept ch buf s1 \/ takes_none opcode post s1 ->
      exists r s', notify_loop junk sign_att verify_att_sign counter react fuel ch opcode buf pdu (head post) found s1
        = Some (r, s') /\ inv [] None None s' /\ frame s s').
    { intros pdu1 f1 s1 I1 F1 B1. destruct (fr_reg _ _ _ F1 eq_refl) as [Hl1 _].
      destruct (IH post (pre ++ [n]) pdu1 f1 s1 I1) as (r & s2 & -> & I2 & F2).
      - rewrite Hl1, Hl, <- app_assoc. done.
      - cbn in Hf. lia.
      - exact B1.
      - exists r, s2. split; [done|]. split; [done|by etrans]. }
    destruct (negb (opcode_match _ _)) eqn:Em.
    { apply Hcont; [done..|]. destruct Hb as [Hb|Hb]; [by left|right]. intros n' nt' Hn'. apply Hb. by right. }
    destruct Hb as [Hb|Hb]; [|by rewrite (Hb n nt ltac:(by left) Hnt) in Em].
    set (sg := negb (Z.land opcode ATT_OP_SIGNED_MASK =? 0) && crypto s). rewrite (read_kept _ _ pdu _ Hb).
    assert (Hv : exists v, (if sg then Some pdu ≫= fun d => Some (handle_signed verify_att_sign counter d s)
                            else Some true) = Some v) by (destruct sg; by eexists).
    destruct Hv as [v ->]. cbn [mbind option_bind]. destruct (negb v); [by eexists _, s|].
    destruct (link_type_safe _ _ _ _ I) as [t ->]. cbn [mbind option_bind].
    destruct ((t =? BT_ATT_BREDR) && (opcode =? BT_ATT_OP_MTU_REQ)); [by eexists _, s|].
    rewrite read_kept by done. cbn [mbind option_bind].
    match goal with |- context[call_client _ _ _ _ ?e s] =>
      destruct (call_client_safe [] None None e s eq_refl I) as (s1 & E1 & I1 & F1) end.
    rewrite E1. cbn [mbind option_bind]. cbn [is_notify negb] in F1.
    destruct (isNil (notify_list s1)); [by eexists _, s1|]. apply Hcont; [done..|].
    destruct (call_handler_buf _ _ _ _ _ _ _ _ _ _ Hl E1) as [Hs|Hs].
    + left. unfold buf_kept. by rewrite (Hs ch).
    + right. destruct (fr_reg _ _ _ F1 eq_refl) as [_ Hh]. intros n' nt' Hn'. rewrite Hh. by apply Hs.
Qed.

Lemma ref_up fl cur ft s : inv fl cur ft s -> inv fl cur ft (bt_att_ref s).
Proof. intros []. constructor; cbn; eauto. lia. Qed.

(** Dropping a reference that is not the last. *)
Lemma unref_safe fl cur ft s :
  inv fl cur ft s -> 2 <= ref_count s ->
  exists s', bt_att_unref s = Some s' /\ inv fl cur ft s' /\ chans s' = chans s /\
    chan_heap s' = chan_heap s /\ ref_count s' = ref_count s - 1.
Proof.
  intros I Hr. unfold bt_att_unref. cbn.
  destruct (ref_count s - 1 =? 0) eqn:E; [lia|]. cbn. eexists. split; [done|].
  split; [|done]. destruct I. constructor; cbn; eauto. lia.
Qed.

Lemma handle_notify_safe ch opcode buf pdu s :
  inv [] None None s -> buf_kept ch buf s ->
  exists s', handle_notify junk sign_att verify_att_sign counter react ch opcode buf pdu s = Some s' /\
    inv [] None None s' /\ hframe s s'.
Proof using sign_len react_ok.
  intros I Hb. unfold handle_notify.
  pose proof (ref_up _ _ _ _ I) as I1. set (s1 := bt_att_ref s) in *.
  assert (F1 : hframe s s1) by (constructor; cbn; [done|done|lia]).
  destruct (notify_loop_safe (length (notify_list s1)) ch opcode buf (notify_list s1) [] pdu false s1 I1)
    as (r & s2 & -> & I2 & F2); [done|lia|by left|].
  cbn [mbind option_bind]. apply frame_hframe in F2 as F2h.
  pose proof (fr_ref _ _ _ F2) as R2. cbn in R2.
  destruct r as [found|]; [|exists s2; split; [done|]; split; [done|]; by etrans].
  assert (Hresp : exists s3, (if negb found && negb (bool_decide (get_op_type opcode = ATT_OP_TYPE_CMD))
      then respond_not_supported junk sign_att counter opcode s2 else Some s2) = Some s3 /\
      inv [] None None s3 /\ frame s2 s3).
  { destruct (negb found && _); [|by exists s2]. unfold respond_not_supported.
    apply safe_drop, send_safe; [done|]. split; [lia|]. by intros ? [= <-]. }
  destruct Hresp as (s3 & -> & I3 & F3). cbn [mbind option_bind].
  pose proof (fr_ref _ _ _ F3) as R3. pose proof (inv_ref _ _ _ _ I) as R0.
  destruct (unref_safe _ _ _ s3 I3) as (s4 & -> & I4 & E1 & E2 & E3); [lia|].
  exists s4. split; [done|]. split; [done|]. apply frame_hframe in F3.
  assert (F : hframe s s3) by (etrans; [exact F1|]; by etrans).
  destruct F. constructor; [congruence|by rewrite E2|rewrite E3; lia].
Qed.

Lemma can_read_safe k ch r s :
  inv [] None None s -> is_Some (chan_heap s !! ch) ->
  exists b s', can_read_data junk sign_att verify_att_sign counter react k ch r s = Some (b, s') /\
    inv [] None None s' /\ hframe s s'.
Proof using sign_len react_ok.
  intros I [c Hc]. unfold can_read_data. rewrite Hc. cbn [mbind option_bind].
  destruct r as [d|]; [|by eexists _, s].
  destruct (take (Z.to_nat (c_mtu c)) d) as [|opcode pdu]; [by eexists _, s|].
  pose proof (ref_up _ _ _ _ I) as I1. set (s1 := bt_att_ref s) in *.
  assert (Hc1 : is_Some (chan_heap s1 !! ch)) by (by eexists).
  pose proof (inv_ref _ _ _ _ I) as R0. assert (R1 : ref_count s1 = ref_count s + 1) by done.
  assert (Hleave : forall (b : bool) (x : option bt_att), (exists s2, x = Some s2 /\ inv [] None None s2 /\ hframe s1 s2) ->
    exists b' s', (x ≫= fun s2 => bt_att_unref s2 ≫= fun s3 => Some (b, s3)) = Some (b', s') /\
      inv [] None None s' /\ hframe s s').
  { intros b x (s2 & -> & I2 & F2). cbn [mbind option_bind]. destruct F2 as [G1 G2 G3].
    destruct (unref_safe _ _ _ s2 I2) as (s3 & -> & I3 & E1 & E2 & E3); [lia|]. cbn [mbind option_bind].
    eexists _, s3. split; [done|]. split; [done|].
    constructor; [rewrite E1, G1; done|intros ch'; rewrite E2; apply (G2 ch')|lia]. }
  assert (Hb : buf_kept ch (c_buf c) s1) by (unfold buf_kept; cbn; by rewrite Hc).
  destruct (get_op_type opcode); try (by apply Hleave, handle_notify_safe).
  - destruct (in_req c).
    + apply Hleave. by apply shutdown_h.
    + destruct (upd_chan_h [] None None s1 ch (set_in_req true) I1 Hc1) as (s2 & E2 & I2 & F2); [done|].
      pose proof (upd_chan_buf ch (set_in_req true) s1 s2 ltac:(done) E2 ch) as Hb2.
      rewrite E2. cbn [mbind option_bind]. apply Hleave.
      destruct (handle_notify_safe ch opcode (c_buf c) (opcode :: pdu) s2 I2) as (s3 & -> & I3 & F3);
        [by unfold buf_kept; rewrite Hb2|].
      exists s3. split; [done|]. split; [done|by etrans].
  - by apply Hleave, handle_rsp_safe.
  - by apply Hleave, handle_conf_safe.
Qed.

(** ** Timeouts *)

Lemma op_type_born fl cur ft s o op t :
  inv fl cur ft s -> op_heap s !! o = Some op -> born (stat (log s) o) = Some t -> op_type op = t.
Proof.
  intros I Hop Hb. pose proof (inv_ops _ _ _ _ I o) as H. rewrite Hop in H.
  destruct H as (_ & _ & _ & Hb' & _). congruence.
Qed.

(** The timer of a pending operation finds this operation. *)
Lemma timer_hit s tid ch id :
  inv [] None None s -> small s -> timers s !! tid = Some (ch, id) ->
  exists isr c o op, chan_heap s !! ch = Some c /\ pend isr c = Some o /\ op_heap s !! o = Some op /\
    op_timeout_id op = Some tid /\ pending_is (pending_req c) id s = Some isr /\
    (isr = false -> pending_is (pending_ind c) id s = Some true).
Proof.
  intros I Hsm Ht. destruct (inv_timers _ _ _ _ I tid ch id Ht) as (c & o & op & Hc & Hp & Hop & Hto & Hid);
    [done|].
  destruct (inv_ids _ _ _ _ I Hsm) as [_ Hids]. pose proof (inv_chan _ _ _ _ I ch c Hc) as (T1 & T2 & _).
  apply either_pend in Hp as [isr Hp]. exists isr, c, o, op. repeat (split; [done|]).
  assert (Hself : pending_is (pend isr c) id s = Some true).
  { rewrite Hp. cbn. rewrite Hop. cbn. by rewrite (proj2 (Z.eqb_eq _ _) Hid). }
  destruct isr; [by split|]. split; [|done]. cbn in Hp.
  assert (Hty : op_type op = ATT_OP_TYPE_IND) by (eapply op_type_born; eauto).
  destruct (pending_req c) as [o2|] eqn:Hr; [|done].
  destruct (live_op _ _ _ _ o2 I) as [op2 Hop2]; [by eapply pending_req_all|].
  assert (Hty2 : op_type op2 = ATT_OP_TYPE_REQ) by (eapply op_type_born; eauto).
  cbn. rewrite Hop2. cbn. f_equal. apply Z.eqb_neq. intros Heq.
  destruct (Hids o op Hop) as [_ Hinj]; [by rewrite Hty|].
  assert (o2 = o) as -> by (apply (Hinj o2 op2); [done|by rewrite Hty2|congruence]). congruence.
Qed.

Lemma expire_safe s ch o tid op :
  inv [o] None (Some tid) s -> is_Some (chan_heap s !! ch) -> op_heap s !! o = Some op ->
  exists s', expire_op junk sign_att counter react ch o s = Some s' /\
    inv [] None (Some tid) s' /\ hframe s s'.
Proof using sign_len react_ok.
  intros I Hc Hop. unfold expire_op. rewrite Hop. cbn [mbind option_bind].
  assert (Hcb : exists s1, (match timeout_callback s with
       | Some cb => call_client junk sign_att counter react
                      (LTimeout cb (op_id op) (op_opcode op) (timeout_data s)) s
       | None => Some s
       end) = Some s1 /\ inv [o] None (Some tid) s1 /\ frame_reg true s s1).
  { destruct (timeout_callback s); [by apply (call_client_safe [o] None (Some tid))|by exists s]. }
  destruct Hcb as (s1 & -> & I1 & F1). cbn [mbind option_bind].
  destruct (live_op _ _ _ _ o I1) as [op1 Hop1]; [by left|]. rewrite Hop1. cbn [mbind option_bind].
  assert (I2 : inv [o] None (Some tid) (set_op o (set_op_timeout_id None op1) s1)).
  { eapply (inv_op_step [o] None None (Some tid) s1 (set_op o (set_op_timeout_id None op1) s1) o op1 []
      Hop1 ltac:(by constructor) ltac:(by cbn; rewrite app_nil_r) ltac:(constructor))
      with (op' := set_op_timeout_id None op1); try done.
    - by rewrite app_nil_r.
    - right. by left.
    - pose proof (inv_ops _ _ _ _ I1 o) as H. by rewrite Hop1 in H. }
  destruct (disc_op_safe [] (Some tid) o _ I2) as (s2 & -> & I3 & F3). cbn [mbind option_bind].
  apply frame_hframe in F1. apply frame_hframe in F3. destruct F3 as [G1 G2 G3]. cbn in *.
  destruct (shutdown_h [] None (Some tid) s2 ch I3) as (s3 & -> & I4 & F4).
  { apply G2. by apply (hf_chan _ _ F1). }
  exists s3. split; [done|]. split; [done|]. etrans; [exact F1|]. etrans; [|exact F4].
  by constructor.
Qed.

Lemma set_chan_hframe s ch c c' : chan_heap s !! ch = Some c -> hframe s (set_chan ch c' s).
Proof.
  intros Hc. constructor; cbn; [done| |lia]. intros ch'. destruct (decide (ch' = ch)) as [->|Hne].
  - rewrite lookup_insert_eq, Hc. split; eauto.
  - by rewrite lookup_insert_ne.
Qed.

Lemma timeout_safe s tid ch id :
  inv [] None None s -> small s -> timers s !! tid = Some (ch, id) ->
  exists s', timeout_cb junk sign_att counter react ch id s = Some s' /\
    inv [] None (Some tid) s' /\ hframe s s'.
Proof using sign_len react_ok.
  intros I Hsm Ht. destruct (timer_hit _ _ _ _ I Hsm Ht) as (isr & c & o & op & Hc & Hp & Hop & Hto & Hr & Hi).
  unfold timeout_cb. rewrite Hc. cbn [mbind option_bind]. rewrite Hr. cbn [mbind option_bind].
  pose proof (inv_unpend isr [] None s ch c o op I Hc Hp Hop) as I1. rewrite Hto in I1.
  destruct (expire_safe (set_chan ch (set_pend isr None c) s) ch o tid op I1) as (s' & E & I' & F').
  { cbn. rewrite lookup_insert_eq. by eexists. }
  { done. }
  exists s'. split; [|split; [done|etrans; [by eapply set_chan_hframe|done]]].
  destruct isr; cbn [pend set_pend] in *; [|rewrite (Hi eq_refl); cbn [mbind option_bind]];
    rewrite Hp; cbn [mbind option_bind]; exact E.
Qed.

Lemma inv_timer_fired s tid :
  inv [] None (Some tid) s -> inv [] None None (set_timers (delete tid (timers s)) s).
Proof.
  intros []. constructor; cbn; eauto. intros t ch id [? Ht]%lookup_delete_Some _.
  apply (inv_timers0 t ch id Ht). congruence.
Qed.

(** ** Sending from the queues *)

Lemma head_fits_spec fl cur ft m l s :
  inv fl cur ft s -> (forall o, o ∈ l -> o ∈ all_ops s) ->
  exists r, head_fits m l s = Some r /\ forall o q, r = Some (o, q) -> l = o :: q.
Proof.
  intros I Hl. destruct l as [|o l]; cbn; [by exists None|].
  destruct (live_op _ _ _ _ o I) as [op ->]; [apply elem_of_app; right; apply Hl; by left|]. cbn.
  eexists. split; [done|]. intros o' q'. destruct (_ <=? _); [by intros [= <- <-]|done].
Qed.

Lemma pick_safe s ch :
  inv [] None None s -> is_Some (chan_heap s !! ch) ->
  exists r s', pick_next_send_op ch s = Some (r, s') /\ frame s s' /\
    match r with
    | None => s' = s
    | Some o => inv [o] None None s' /\ exists c t, chan_heap s' !! ch = Some c /\
        born (stat (log s') o) = Some t /\ (t = ATT_OP_TYPE_REQ -> pending_req c = None) /\
        (t = ATT_OP_TYPE_IND -> pending_ind c = None)
    end.
Proof.
  intros I [c Hc]. unfold pick_next_send_op. rewrite Hc. cbn [mbind option_bind].
  pose proof (inv_chan _ _ _ _ I ch c Hc) as (T1 & T2 & T3).
  destruct (c_queue c) as [|o q] eqn:Hq.
  2:{ eexists _, _. split; [done|]. split; [by eapply frame_set_chan|]. split.
      - eapply take_c_queue; [done|done|]. by rewrite Hq.
      - destruct (T3 o) as (t & Hb & Ht); [by left|]. exists (set_c_queue q c), t. cbn.
        rewrite lookup_insert_eq. split; [done|]. split; [done|]. split; intros ->; done. }
  destruct (head_fits_spec _ _ _ (c_mtu c) (write_queue s) s I (in_write_all s)) as (w & -> & Hw).
  cbn [mbind option_bind]. destruct w as [[o q]|].
  { specialize (Hw o q eq_refl). eexists _, _. split; [done|]. split.
    - apply frame_write. intros. rewrite Hw. by right.
    - split.
      + eapply inv_set_write; [done|by rewrite Hw|]. intros. apply (inv_write _ _ _ _ I). rewrite Hw. by right.
      + destruct (inv_write _ _ _ _ I o) as (t & Hb & Ht); [rewrite Hw; by left|]. exists c, t. cbn.
        split; [done|]. split; [done|]. split; intros ->; done. }
  assert (Hr : exists r, (if isSome (pending_req c) then Some None else head_fits (c_mtu c) (req_queue s) s) = Some r
    /\ forall o q, r = Some (o, q) -> req_queue s = o :: q /\ pending_req c = None).
  { destruct (pending_req c); cbn; [by exists None|].
    destruct (head_fits_spec _ _ _ (c_mtu c) (req_queue s) s I (in_req_all s)) as (r & -> & Hr).
    exists r. split; [done|]. intros o q E. split; [by apply Hr|done]. }
  destruct Hr as (r & -> & Hr). cbn [mbind option_bind]. destruct r as [[o q]|].
  { destruct (Hr o q eq_refl) as [Hrq Hp]. eexists _, _. split; [done|]. split.
    - apply frame_req. intros. rewrite Hrq. by right.
    - split.
      + eapply inv_set_req; [done|by rewrite Hrq|]. intros. apply (inv_req _ _ _ _ I). rewrite Hrq. by right.
      + exists c, ATT_OP_TYPE_REQ. cbn. split; [done|]. split; [|done].
        apply (inv_req _ _ _ _ I). rewrite Hrq. by left. }
  assert (Hi : exists r, (if isSome (pending_ind c) then Some None else head_fits (c_mtu c) (ind_queue s) s) = Some r
    /\ forall o q, r = Some (o, q) -> ind_queue s = o :: q /\ pending_ind c = None).
  { destruct (pending_ind c); cbn; [by exists None|].
    destruct (head_fits_spec _ _ _ (c_mtu c) (ind_queue s) s I (in_ind_all s)) as (i & -> & Hi).
    exists i. split; [done|]. intros o q E. split; [by apply Hi|done]. }
  destruct Hi as (i & -> & Hi). cbn [mbind option_bind]. destruct i as [[o q]|].
  { destruct (Hi o q eq_refl) as [Hiq Hp]. eexists _, _. split; [done|]. split.
    - apply frame_ind. intros. rewrite Hiq. by right.
    - split.
      + eapply inv_set_ind; [done|by rewrite Hiq|]. intros. apply (inv_ind _ _ _ _ I). rewrite Hiq. by right.
      + exists c, ATT_OP_TYPE_IND. cbn. split; [done|]. split; [|done].
        apply (inv_ind _ _ _ _ I). rewrite Hiq. by left. }
  by eexists _, _.
Qed.

(** An operation that waits for its answer. *)
Lemma wait_safe isr s ch c o op tid :
  inv [o] None None s -> chan_heap s !! ch = Some c -> pend isr c = None ->
  born (stat (log s) o) = Some (pend_type isr) -> op_heap s !! o = Some op ->
  (forall t, tid = Some t -> timers s !! t = None) ->
  inv [] None None (set_op o (set_op_timeout_id tid op)
     (match tid with
      | Some t => set_timers (<[t := (ch, op_id op)]> (timers s)) (set_chan ch (set_pend isr (Some o) c) s)
      | None => set_chan ch (set_pend isr (Some o) c) s
      end)).
Proof.
  intros I Hc Hp Hb Hop Ht. set (op' := set_op_timeout_id tid op).
  assert (I1 : inv [o] None None (set_op o op' s)).
  { eapply (inv_op_step [o] None None None s (set_op o op' s) o op [] Hop ltac:(by constructor)
      ltac:(by cbn; rewrite app_nil_r) ltac:(constructor)) with (op' := op'); try done.
    - by rewrite app_nil_r.
    - right. by left.
    - pose proof (inv_ops _ _ _ _ I o) as H. by rewrite Hop in H. }
  assert (I2 : inv [] None None (set_chan ch (set_pend isr (Some o) c) (set_op o op' s)))
    by (by eapply inv_pend).
  destruct tid as [t|]; [|exact I2]. destruct I2. constructor; cbn in *; eauto.
  intros t' ch' id Ht' _. destruct (decide (t' = t)) as [->|Hne].
  - rewrite lookup_insert_eq in Ht'. injection Ht' as <- <-.
    exists (set_pend isr (Some o) c), o, op'. rewrite !lookup_insert_eq.
    split; [done|]. split; [|done]. apply either_pend. exists isr. apply pend_set_same.
  - rewrite lookup_insert_ne in Ht' by done. eauto.
Qed.

Lemma can_write_safe s ch ret tid :
  inv [] None None s -> is_Some (chan_heap s !! ch) -> (forall t, tid = Some t -> timers s !! t = None) ->
  exists b s', can_write_data junk sign_att counter react ch ret tid s = Some (b, s') /\
    inv [] None None s' /\ hframe s s'.
Proof using sign_len react_ok.
  intros I Hc Ht. unfold can_write_data.
  destruct (pick_safe s ch I Hc) as (r & s1 & Hpick & F1 & Hr). rewrite Hpick. cbn [mbind option_bind].
  destruct r as [o|]; [|subst s1; by eexists _, s].
  destruct Hr as (I1 & c1 & t & Hc1 & Hb & Hreq & Hind).
  destruct (live_op _ _ _ _ o I1) as [op Hop]; [by left|]. rewrite Hop. cbn [mbind option_bind].
  set (e := LSent ch o (op_pdu op) ret). set (s2 := add_log e s1).
  assert (I2 : inv [o] None None s2) by (by apply inv_add_log).
  assert (F2 : hframe s s2) by (etrans; [by eapply frame_hframe|eapply frame_hframe; by apply frame_add_log]).
  assert (Htm : timers s1 = timers s).
  { unfold pick_next_send_op in Hpick. destruct Hc as [c Hc]. rewrite Hc in Hpick. cbn [mbind option_bind] in Hpick.
    repeat case_match; simplify_eq; try done.
    all: repeat match goal with H : (_ ≫= _) = Some _ |- _ => apply bind_Some in H as (? & ? & H) end;
      repeat case_match; simplify_eq; try done.
    all: repeat match goal with H : (_ ≫= _) = Some _ |- _ => apply bind_Some in H as (? & ? & H) end;
      repeat case_match; simplify_eq; try done.
    all: repeat match goal with H : (_ ≫= _) = Some _ |- _ => apply bind_Some in H as (? & ? & H) end;
      repeat case_match; simplify_eq; try done. }
  assert (Hb2 : born (stat (log s2) o) = Some t) by (unfold s2; cbn; by rewrite stat_other).
  pose proof (op_type_born _ _ _ _ _ _ _ I1 Hop Hb) as Hty.
  assert (Hdone : forall x, (exists s', x = Some s' /\ inv [] None None s' /\ frame_reg true s2 s') ->
    exists b s', (x ≫= fun s => Some (true, s)) = Some (b, s') /\ inv [] None None s' /\ hframe s s').
  { intros x (s3 & -> & I3 & F3). eexists _, s3. split; [done|]. split; [done|].
    etrans; [done|]. by eapply frame_hframe. }
  destruct (ret =? 0); [by apply Hdone, disc_op_safe|].
  assert (Hnoask : asks t = false -> exists s', destroy_att_send_op o s2 = Some s' /\
     inv [] None None s' /\ frame_reg true s2 s').
  { intros Ha. destruct (destroy_safe [] None None None None s2 o op I2) as (s3 & -> & I3 & F3);
      [done|by rewrite Hty, Ha|by left|by left|]. exists s3. split; [done|]. split; [done|by apply frame_weaken]. }
  assert (Hwait : forall isr, t = pend_type isr -> exists b s',
    (upd_chan ch (set_pend isr (Some o)) s2 ≫= fun s => Some (true,
        set_op o (set_op_timeout_id tid op)
          (match tid with
           | Some t => set_timers (<[t := (ch, op_id op)]> (timers s)) s
           | None => s
           end))) = Some (b, s') /\ inv [] None None s' /\ hframe s s').
  { intros isr Et. unfold upd_chan. change (chan_heap s2) with (chan_heap s1). rewrite Hc1. cbn [mbind option_bind].
    eexists _, _. split; [done|]. split.
    - apply (wait_safe isr s2 ch c1 o op tid); try done.
      + destruct isr; [by apply Hreq|by apply Hind].
      + by rewrite <- Et.
      + intros t'. change (timers s2) with (timers s1). rewrite Htm. apply Ht.
    - etrans; [exact F2|]. etrans; [by eapply (set_chan_hframe s2 ch c1)|].
      destruct tid; by apply hframe_same. }
  rewrite Hty. destruct t.
  - by apply (Hwait true).
  - assert (Hrsp : exists s3, upd_chan ch (set_in_req false) s2 = Some s3 /\ inv [o] None None s3 /\ hframe s2 s3 /\
      op_heap s3 = op_heap s2 /\ log s3 = log s2).
    { destruct (upd_chan_h [o] None None s2 ch (set_in_req false) I2) as (s3 & E3 & I3 & F3); [by exists c1|done|].
      exists s3. rewrite E3. split; [done|]. split; [done|]. split; [done|].
      unfold upd_chan in E3. apply bind_Some in E3 as (? & ? & [= <-]). done. }
    destruct Hrsp as (s3 & -> & I3 & F3 & Hh & Hl). cbn [mbind option_bind].
    destruct (destroy_safe [] None None None None s3 o op I3) as (s4 & -> & I4 & F4);
      [by rewrite Hh|by rewrite Hty|by left|by left|].
    eexists _, s4. split; [done|]. split; [done|]. etrans; [exact F2|]. etrans; [exact F3|].
    by eapply frame_hframe.
  - by apply Hdone, Hnoask.
  - by apply (Hwait false).
  - by apply Hdone, Hnoask.
  - by apply Hdone, Hnoask.
  - by apply Hdone, Hnoask.
Qed.

(** ** Disconnection *)

Lemma disc_pending_safe isr s ch c :
  inv [] None None s -> chan_heap s !! ch = Some c ->
  exists s1 s2 c', disc_pending junk sign_att counter react (pend isr c) s = Some s1 /\
    upd_chan ch (set_pend isr None) s1 = Some s2 /\ inv [] None None s2 /\ hframe s s2 /\
    chan_heap s2 !! ch = Some c' /\ pend isr c' = None /\ pend (negb isr) c' = pend (negb isr) c.
Proof using sign_len react_ok.
  intros I Hc. destruct (pend isr c) as [o|] eqn:Hp; cbn [disc_pending].
  - destruct (answer_pending isr [] ch c o BT_ATT_OP_ERROR_RSP [] s I Hc Hp)
      as (s1 & s2 & s3 & c' & E1 & E2 & E3 & I3 & F3 & Hc' & Hp' & Ho').
    exists s2, s3, c'. split; [|done]. unfold disc_att_send_op. by rewrite E1.
  - exists s. unfold upd_chan. rewrite Hc. cbn [mbind option_bind].
    eexists _, (set_pend isr None c). split; [done|]. split; [done|]. split.
    + eapply inv_upd_chan; [done..| | |]; destruct isr; cbn in *; congruence.
    + split; [by eapply set_chan_hframe|]. cbn. rewrite lookup_insert_eq. split; [done|].
      split; [apply pend_set_same|apply pend_set_other].
Qed.

(** All operations of an emptied queue are answered. *)
Lemma disc_all_safe l s :
  inv l None None s ->
  exists s', for_each (disc_att_send_op junk sign_att counter react) l s = Some s' /\
    inv [] None None s' /\ frame_reg true s s'.
Proof using sign_len react_ok.
  revert s. induction l as [|o l IH]; intros s I; cbn [for_each]; [by exists s|].
  destruct (disc_op_safe l None o s I) as (s1 & -> & I1 & F1). cbn [mbind option_bind].
  destruct (IH s1 I1) as (s2 & -> & I2 & F2). exists s2. split; [done|]. split; [done|by etrans].
Qed.

Lemma inv_chans_remove s ch :
  inv [] None None s -> inv [] None None (set_chans (remove_one ch (chans s)) s).
Proof.
  intros []. constructor; cbn; eauto. destruct inv_chans0 as [? Hin]. split; [by apply remove_one_NoDup|].
  intros x ?%remove_one_in. eauto.
Qed.

Lemma inv_in_disc b fl cur ft s : inv fl cur ft s -> inv fl cur ft (set_in_disc b s).
Proof. intros []. by constructor. Qed.

(** After the last channel is gone, every queue is emptied. *)
Lemma drain_safe err s :
  inv [] None None s -> chans s = [] ->
  exists s', disconnect_last junk sign_att counter react err s = Some s' /\ inv [] None None s' /\ hframe s s' /\
    req_queue s' = [] /\ ind_queue s' = [] /\ write_queue s' = [].
Proof using sign_len react_ok.
  intros I Hch. unfold disconnect_last. set (s1 := set_in_disc true (bt_att_ref s)). cbv zeta.
  assert (I1 : inv [] None None s1) by (by apply inv_in_disc, ref_up).
  assert (Hnil : forall l : list positive, (forall o, o ∈ l -> o ∈ @nil positive) -> l = [])
    by (intros [|x l] H; [done|]; specialize (H x ltac:(by left)); by apply elem_of_nil in H).
  pose proof (empty_req _ _ _ _ I1) as Ir. rewrite app_nil_r in Ir.
  destruct (disc_all_safe _ _ Ir) as (s2 & -> & I2 & F2). cbn [mbind option_bind].
  assert (C2 : chans s2 = []) by (by rewrite (fr_chans _ _ _ F2)).
  assert (Q2 : req_queue s2 = []) by (apply Hnil, (fr_req _ _ _ F2); done).
  pose proof (empty_ind _ _ _ _ I2) as Ii. rewrite app_nil_r in Ii.
  destruct (disc_all_safe _ _ Ii) as (s3 & -> & I3 & F3). cbn [mbind option_bind].
  assert (C3 : chans s3 = []) by (by rewrite (fr_chans _ _ _ F3)).
  assert (Q3 : req_queue s3 = [] /\ ind_queue s3 = []).
  { split; apply Hnil; [|by apply (fr_ind _ _ _ F3)]. rewrite <- Q2. by apply (fr_req _ _ _ F3). }
  pose proof (empty_write _ _ _ _ I3) as Iw. rewrite app_nil_r in Iw.
  destruct (disc_all_safe _ _ Iw) as (s4 & -> & I4 & F4). cbn [mbind option_bind].
  assert (C4 : chans s4 = []) by (by rewrite (fr_chans _ _ _ F4)).
  destruct Q3 as [Q3r Q3i].
  assert (Q4 : req_queue s4 = [] /\ ind_queue s4 = [] /\ write_queue s4 = []).
  { split; [|split]; apply Hnil; [| |by apply (fr_write _ _ _ F4)].
    - rewrite <- Q3r. by apply (fr_req _ _ _ F4).
    - rewrite <- Q3i. by apply (fr_ind _ _ _ F4). }
  set (s4' := set_in_disc false s4). assert (I4' : inv [] None None s4') by (by apply inv_in_disc).
  destruct (for_each_inv (frame_reg true) [] None None (disconn_handler junk sign_att counter react err)
    (disconn_list s4') s4' I4') as (s5 & -> & I5 & F5).
  { intros d s' Hd F' I'. unfold disconn_handler.
    destruct (fr_dis _ _ _ F' C4 d) as [di Hdi]; [by apply (inv_disconn _ _ _ _ I4')|].
    rewrite Hdi. cbn [mbind option_bind]. destruct (d_removed di); [by exists s'|].
    destruct (d_callback di); [|by exists s']. by apply (call_client_safe [] None None). }
  cbn [mbind option_bind]. destruct Q4 as (Q4r & Q4i & Q4w).
  assert (Q5 : req_queue s5 = [] /\ ind_queue s5 = [] /\ write_queue s5 = []).
  { split; [|split]; apply Hnil.
    - rewrite <- Q4r. by apply (fr_req _ _ _ F5).
    - rewrite <- Q4i. by apply (fr_ind _ _ _ F5).
    - rewrite <- Q4w. by apply (fr_write _ _ _ F5). }
  destruct (unregister_all_safe _ _ _ s5 I5) as (s6 & -> & I6 & R6). cbn [mbind option_bind].
  apply frame_hframe in F2, F3, F4, F5.
  assert (H05 : hframe s1 s5).
  { assert (H12 : hframe s1 s2) by (destruct F2; by constructor).
    assert (H23 : hframe s2 s3) by (destruct F3; by constructor).
    assert (H34 : hframe s3 s4) by (destruct F4; by constructor).
    assert (H45 : hframe s4 s5) by (destruct F5; by constructor).
    etrans; [exact H12|]. etrans; [exact H23|]. by etrans. }
  destruct H05 as [G1 G2 G3]. destruct R6. cbn in G1, G2, G3.
  pose proof (inv_ref _ _ _ _ I) as R0.
  destruct (unref_safe _ _ _ s6 I6) as (s7 & E7 & I7 & C7 & H7 & R7); [lia|]. 
  exists s7. split; [done|]. split; [done|]. split.
  - constructor; [congruence| |lia]. intros x. rewrite H7, ro_chan0. apply G2.
  - unfold bt_att_unref in E7. cbn in E7. destruct (ref_count s6 - 1 =? 0) eqn:E0; [lia|]. cbn in E7.
    injection E7 as <-. cbn. destruct Q5 as (? & ? & ?). repeat split; congruence.
Qed.

Lemma disconnect_safe s ch err :
  inv [] None None s -> is_Some (chan_heap s !! ch) ->
  exists s', disconnect_cb junk sign_att counter react ch err s = Some s' /\ inv [] None None s' /\
    chans s' = remove_one ch (chans s) /\
    (forall x, is_Some (chan_heap s' !! x) <-> x <> ch /\ is_Some (chan_heap s !! x)) /\
    (chans s' = [] -> req_queue s' = [] /\ ind_queue s' = [] /\ write_queue s' = []).
Proof using sign_len react_ok.
  intros I [c Hc]. unfold disconnect_cb. set (s0 := set_chans (remove_one ch (chans s)) s).
  assert (I0 : inv [] None None s0) by (by apply inv_chans_remove).
  change (chan_heap s0) with (chan_heap s). rewrite Hc. cbn [mbind option_bind].
  destruct (disc_pending_safe true s0 ch c I0 Hc) as (s1 & s2 & c2 & E1 & E2 & I2 & F2 & Hc2 & Hr2 & Hi2).
  cbn [pend] in E1. rewrite E1. cbn [mbind option_bind].
  change (set_pend true None) with (set_pending_req None) in E2. rewrite E2. cbn [mbind option_bind].
  rewrite Hc2. cbn [mbind option_bind].
  destruct (disc_pending_safe false s2 ch c2 I2 Hc2) as (s3 & s4 & c4 & E3 & E4 & I4 & F4 & Hc4 & Hi4 & Hr4).
  cbn [pend] in E3. rewrite E3. cbn [mbind option_bind].
  change (set_pend false None) with (set_pending_ind None) in E4. rewrite E4. cbn [mbind option_bind].
  cbn [pend negb] in Hr2, Hi2, Hi4, Hr4.
  assert (H04 : hframe s0 s4) by (by etrans). destruct H04 as [G1 G2 _]. cbn in G1, G2.
  destruct (chan_free_safe s4 ch c4 I4 Hc4) as (s5 & -> & I5 & F5 & Hh5).
  { congruence. }
  { done. }
  { rewrite G1. intros Hin. by eapply remove_one_notin; [apply (inv_chans _ _ _ _ I)|exact Hin|]. }
  cbn [mbind option_bind]. pose proof (fr_chans _ _ _ F5) as C5. cbn in C5.
  assert (Hdom : forall x, is_Some (chan_heap s5 !! x) <-> x <> ch /\ is_Some (chan_heap s !! x)).
  { intros x. rewrite Hh5. destruct (decide (x = ch)) as [->|Hne].
    - rewrite lookup_delete_eq. split; [by intros [? ?]|by intros [? _]].
    - rewrite lookup_delete_ne by done. rewrite <- (G2 x). naive_solver. }
  destruct (negb (isNil (chans s5))) eqn:En.
  { exists s5. split; [done|]. split; [done|]. split; [congruence|]. split; [done|].
    intros E. by rewrite E in En. }
  destruct (drain_safe err s5 I5) as (s6 & -> & I6 & F6 & Q).
  { destruct (chans s5); [done|]. by cbn in En. }
  exists s6. split; [done|]. split; [done|]. split; [rewrite (hf_chans _ _ F6); congruence|].
  split; [|done]. intros x. by rewrite <- (hf_chan _ _ F6).
Qed.

(** ** Runs *)

(** Between two events nothing is in flight, the channels in memory are the
    listed ones, and without channels nothing is queued. *)
Record sinv (s : bt_att) : Prop := {
  si_inv : inv [] None None s;
  si_dom : forall ch, is_Some (chan_heap s !! ch) -> ch ∈ chans s;
  si_empty : chans s = [] -> req_queue s = [] /\ ind_queue s = [] /\ write_queue s = [];
}.

Lemma no_elems {A} (l : list A) : (forall x, x ∈ l -> x ∈ @nil A) -> l = [].
Proof. destruct l as [|x l]; [done|]. intros H. specialize (H x ltac:(by left)). by apply elem_of_nil in H. Qed.

Lemma sinv_frame rg s s' : sinv s -> inv [] None None s' -> frame_reg rg s s' -> sinv s'.
Proof.
  intros [I D E] I' F. constructor; [done| |].
  - intros ch Hch. rewrite (fr_chans _ _ _ F). apply D. by apply (hf_chan _ _ (frame_hframe _ _ _ F)).
  - intros Hn. rewrite (fr_chans _ _ _ F) in Hn. destruct (E Hn) as (E1 & E2 & E3).
    split; [|split]; apply no_elems; [rewrite <- E1; by apply (fr_req _ _ _ F)|
      rewrite <- E2; by apply (fr_ind _ _ _ F)|rewrite <- E3; by apply (fr_write _ _ _ F)].
Qed.

(** With a channel in memory there is a listed channel. *)
Lemma sinv_hframe s s' ch :
  sinv s -> inv [] None None s' -> hframe s s' -> is_Some (chan_heap s !! ch) -> sinv s'.
Proof.
  intros [I D E] I' F Hc. constructor; [done| |].
  - intros x Hx. rewrite (hf_chans _ _ F). apply D. by apply (hf_chan _ _ F).
  - rewrite (hf_chans _ _ F). intros Hn. specialize (D ch Hc). rewrite Hn in D. by apply elem_of_nil in D.
Qed.

Definition input_ok (s : bt_att) (e : att_input) : Prop :=
  match e with
  | EvCall k => call_ok s k
  | EvWritable _ _ (Some tid) => timers s !! tid = None
  | EvUnref => 2 <= ref_count s
  | _ => True
  end.

Lemma attach_safe s c :
  inv [] None None s -> c_queue c = [] -> pending_req c = None -> pending_ind c = None ->
  (forall ch, is_Some (chan_heap s !! ch) -> ch ∈ chans s) ->
  exists s', bt_att_attach_chan c s = Some s' /\ inv [] None None s' /\
    chans s' = next_ptr s :: chans s /\ ref_count s' = ref_count s /\
    (forall ch, is_Some (chan_heap s' !! ch) -> ch ∈ chans s').
Proof.
  intros I Hq Hr Hi D. unfold bt_att_attach_chan.
  destruct (inv_fresh _ _ _ _ I (next_ptr s)) as (_ & _ & Hn & _); [done|].
  set (c0 := set_c_close (close_on_unref s) c). set (s1 := set_chans _ _).
  assert (I1 : inv [] None None s1).
  { pose proof (inv_bump _ _ _ _ I) as Ib. destruct Ib. constructor; cbn in *; eauto.
    - rewrite inv_perm0. unfold all_ops; cbn.
      rewrite (map_to_list_insert _ _ _ Hn). cbn. unfold chan_ops at 2; cbn. by rewrite Hq, Hr, Hi.
    - intros o Hle. destruct (inv_fresh0 o Hle) as (?&?&?&?&?). repeat (split; [done|]).
      by rewrite lookup_insert_ne by lia.
    - intros ch c'. destruct (decide (ch = next_ptr s)) as [->|Hne].
      + rewrite lookup_insert_eq. intros [= <-]. unfold chan_types; cbn. rewrite Hq, Hr, Hi.
        repeat split; try done. by intros o ?%elem_of_nil.
      + rewrite lookup_insert_ne by done. apply inv_chan0.
    - destruct inv_chans0 as [Hnd Hin]. split.
      + constructor; [|done]. intros Hin'. destruct (Hin _ Hin'). congruence.
      + intros ch [->|Hch]%elem_of_cons; [by rewrite lookup_insert_eq|].
        destruct (decide (ch = next_ptr s)) as [->|]; [by rewrite lookup_insert_eq|].
        rewrite lookup_insert_ne by done. by apply Hin.
    - intros t ch id Ht Hne. destruct (inv_timers0 t ch id Ht Hne) as (c' & o & op & Hc' & ?).
      exists c', o, op. rewrite lookup_insert_ne; [done|]. intros <-. congruence. }
  assert (D1 : forall ch, is_Some (chan_heap s1 !! ch) -> ch ∈ chans s1).
  { intros ch. cbn. destruct (decide (ch = next_ptr s)) as [->|Hne]; [by left|].
    rewrite lookup_insert_ne by done. right. by apply D. }
  set (s2 := if _ <? _ then _ else _).
  assert (I2 : inv [] None None s2) by (unfold s2; destruct (_ <? _); [inv_triv|done]).
  assert (E2 : chans s2 = chans s1 /\ chan_heap s2 = chan_heap s1 /\ ref_count s2 = ref_count s1)
    by (unfold s2; by destruct (_ <? _)).
  destruct E2 as (E2 & E2' & E2r).
  destruct (wakeup_chan_safe [] None None s2 (next_ptr s) I2) as (s3 & -> & I3 & F3).
  { rewrite E2'. cbn. rewrite lookup_insert_eq. by eexists. }
  exists s3. split; [done|]. split; [done|].
  split; [by rewrite (fr_chans _ _ _ F3), E2|]. split; [by rewrite (fr_ref _ _ _ F3), E2r|].
  intros ch Hch. rewrite (fr_chans _ _ _ F3), E2. apply D1. rewrite <- E2'.
  by apply (hf_chan _ _ (frame_hframe _ _ _ F3)).
Qed.

Lemma chan_new_empty k ok fd type c :
  bt_att_chan_new k ok fd type = Some c -> c_queue c = [] /\ pending_req c = None /\ pending_ind c = None.
Proof. unfold bt_att_chan_new. intros H. repeat case_match; by simplify_eq. Qed.

Lemma bt_att_new_sinv k ok cr fd ext s : bt_att_new k ok cr fd ext = Some (Some s) -> sinv s.
Proof.
  unfold bt_att_new. destruct (bt_att_chan_new k ok fd (io_get_type k)) as [c|] eqn:Hc; [|done].
  apply chan_new_empty in Hc as (Hq & Hr & Hi). set (s0 := mkAtt _ _ _ _ _ _ _ _ _ _ _ _ _ _ _ _ _ _ _ _ _ _ _ _ _ _ _ _ _).
  assert (I0 : inv [] None None (set_ref_count 1 s0)).
  { constructor; cbn; try done; try lia; try (by intros ? ?%elem_of_nil); try (by split; [constructor|intros ? ?%elem_of_nil]).
    intros o. rewrite lookup_empty. unfold op_ok, stat; cbn. repeat split; try lia; done. }
  destruct (attach_safe (set_ref_count 1 s0) c I0 Hq Hr Hi) as (s1 & E & I1 & C1 & R1 & D1).
  { intros ch [? H]. cbn in H. by rewrite lookup_empty in H. }
  destruct (bt_att_attach_chan c s0) as [s2|] eqn:E2; [|done]. cbn. intros [= <-].
  assert (Es : bt_att_ref s2 = s1).
  { assert (G : forall x, bt_att_attach_chan c (set_ref_count x s0) = set_ref_count x <$> bt_att_attach_chan c s0).
    { intros x. unfold bt_att_attach_chan, wakeup_chan_writer. cbn. case_match; cbn; rewrite !lookup_insert_eq; cbn;
        repeat case_match; done. }
    rewrite G, E2 in E. injection E as <-. unfold bt_att_ref. cbn.
    assert (ref_count s2 = 0) as ->; [|done].
    unfold bt_att_attach_chan, wakeup_chan_writer in E2. cbn in E2.
    case_match; cbn in E2; rewrite !lookup_insert_eq in E2; cbn in E2; repeat case_match; by simplify_eq. }
  rewrite Es. constructor; [done|done|]. intros Hn. by rewrite C1 in Hn.
Qed.

Lemma do_input_safe s e :
  sinv s -> small s -> input_ok s e ->
  exists s', do_input junk sign_att verify_att_sign counter react e s = Some s' /\ sinv s'.
Proof using sign_len react_ok.
  intros S Hsm Hok. pose proof (si_inv _ S) as I. unfold do_input. rewrite (inv_freed _ _ _ _ I).
  destruct e as [k|k ok fd|k ch r|ch ret tid|tid|ch err|]; cbn [input_ok] in Hok.
  - destruct (do_call_safe [] None None s k I Hok) as (s' & -> & I' & F').
    exists s'. split; [done|]. by eapply sinv_frame.
  - unfold bt_att_attach_fd. destruct (bt_att_chan_new k ok fd BT_ATT_EATT) as [c|] eqn:Hc; [|by exists s].
    apply chan_new_empty in Hc as (Hq & Hr & Hi).
    destruct (attach_safe s c I Hq Hr Hi (si_dom _ S)) as (s1 & -> & I1 & C1 & R1 & D1).
    cbn. exists s1. split; [done|]. constructor; [done|done|]. by rewrite C1.
  - destruct (chan_heap s !! ch) as [c|] eqn:Hc; [|by exists s]. destruct (negb (c_reading c)); [by exists s|].
    destruct (can_read_safe k ch r s I) as (b & s1 & -> & I1 & F1); [by exists c|]. cbn [mbind option_bind].
    assert (S1 : sinv s1) by (eapply sinv_hframe; [done..|by exists c]).
    destruct b; [by exists s1|].
    assert (Hc1 : is_Some (chan_heap s1 !! ch)) by (apply (hf_chan _ _ F1); by exists c).
    destruct (upd_chan_h [] None None s1 ch (set_c_reading false) I1 Hc1) as (s2 & -> & I2 & F2); [done|].
    exists s2. split; [done|]. by eapply sinv_hframe.
  - destruct (chan_heap s !! ch) as [c|] eqn:Hc; [|by exists s]. destruct (negb (writer_active c)); [by exists s|].
    destruct (can_write_safe s ch ret tid I) as (b & s1 & -> & I1 & F1); [by exists c| |].
    { intros t ->. exact Hok. }
    cbn [mbind option_bind]. assert (S1 : sinv s1) by (eapply sinv_hframe; [done..|by exists c]).
    destruct b; [by exists s1|].
    assert (Hc1 : is_Some (chan_heap s1 !! ch)) by (apply (hf_chan _ _ F1); by exists c).
    destruct (upd_chan_h [] None None s1 ch (set_writer_active false) I1 Hc1) as (s2 & -> & I2 & F2); [done|].
    exists s2. split; [done|]. by eapply sinv_hframe.
  - destruct (timers s !! tid) as [[ch id]|] eqn:Ht; [|by exists s].
    destruct (timeout_safe s tid ch id I Hsm Ht) as (s1 & -> & I1 & F1). cbn [mbind option_bind].
    eexists. split; [done|].
    destruct (inv_timers _ _ _ _ I tid ch id Ht) as (c & o & op & Hc & _); [done|].
    eapply (sinv_hframe s _ ch); [done|by apply inv_timer_fired| |by exists c].
    etrans; [exact F1|]. by apply hframe_same.
  - destruct (chan_heap s !! ch) as [c|] eqn:Hc; [|by exists s].
    destruct (disconnect_safe s ch err I) as (s1 & -> & I1 & C1 & H1 & Q1); [by exists c|].
    exists s1. split; [done|]. constructor; [done| |done].
    intros x [Hne Hx]%H1. rewrite C1. pose proof (si_dom _ S x Hx) as Hin.
    pose proof (remove_one_perm ch (chans s) (si_dom _ S ch ltac:(by exists c))) as P. rewrite P in Hin.
    by apply elem_of_cons in Hin as [->|Hin].
  - destruct (unref_safe _ _ _ s I Hok) as (s1 & E1 & I1 & C1 & H1 & R1). exists s1. split; [done|].
    unfold bt_att_unref in E1. cbn in E1. destruct (ref_count s - 1 =? 0) eqn:E0; [lia|]. cbn in E1.
    injection E1 as <-. destruct S. by constructor.
Qed.

Definition att_step (s s' : bt_att) : Prop :=
  exists e, input_ok s e /\ small s /\ do_input junk sign_att verify_att_sign counter react e s = Some s'.

Definition att_reachable (s : bt_att) : Prop :=
  exists k ok cr fd ext s0, bt_att_new k ok cr fd ext = Some (Some s0) /\ rtc att_step s0 s.

Lemma reachable_sinv s : att_reachable s -> sinv s.
Proof using sign_len react_ok.
  intros (k & ok & cr & fd & ext & s0 & Hnew & Hr). apply bt_att_new_sinv in Hnew.
  eapply (rtc_invariant att_step sinv); [|exact Hnew|exact Hr].
  intros a b Sa (e & Hok & Hsm & He). destruct (do_input_safe a e Sa Hsm Hok) as (b' & E & S'). congruence.
Qed.

(** C15. For a client that keeps to [react_ok] (it calls on channels that exist and sends no request or indication on a
    single channel; a function called for an incoming operation neither registers nor unregisters such functions, and
    sets the MTU only when no further function takes the same operation: [bt_att_set_mtu] frees the buffer the
    operation is in, see [set_mtu_frees_pdu]), in every reachable state of the transport no event touches freed memory
    or a buffer outside its bounds; every accepted operation that is not finished
    is in exactly one queue or waits on exactly one channel, unanswered; the
    response function and the destroy function of an operation are each called
    at most once, and nothing is called after the destroy function; a request or
    indication that is gone was answered exactly once, unless the client
    cancelled it; and once the last channel is disconnected nothing is left. *)
Theorem requests_answered_once s :
  att_reachable s ->
  (forall e, input_ok s e -> small s ->
     is_Some (do_input junk sign_att verify_att_sign counter react e s)) /\
  NoDup (all_ops s) /\ (forall o, o ∈ all_ops s <-> is_Some (op_heap s !! o)) /\
  (forall o, let st := stat (log s) o in
     late st = false /\ (resp st <= 1)%nat /\ (dest st <= 1)%nat /\
     (o ∈ all_ops s -> resp st = 0%nat) /\
     (forall t, born st = Some t -> asks t = true -> o ∉ all_ops s -> canc st = true \/ resp st = 1%nat)) /\
  (chans s = [] -> all_ops s = []).
Proof using sign_len react_ok.
  intros Hr. apply reachable_sinv in Hr as S. pose proof (si_inv _ S) as I.
  assert (Hlive : forall o, o ∈ all_ops s <-> is_Some (op_heap s !! o)) by (intros o; apply (inv_live [] None None s o I)).
  split; [|split; [|split; [done|split]]].
  - intros e Hok Hsm. destruct (do_input_safe s e S Hsm Hok) as (s' & -> & _). by eexists.
  - apply (inv_nodup [] None None s I).
  - intros o. pose proof (inv_ops _ _ _ _ I o) as (H1 & H2 & H3 & H4).
    repeat (split; [done|]). split.
    + intros [op Hop]%Hlive. rewrite Hop in H4. by destruct H4 as (_ & [?|?] & _).
    + intros t Hb Ha Hn. destruct (op_heap s !! o) as [op|] eqn:Hop; [|by eapply H4].
      destruct Hn. apply Hlive. by exists op.
  - intros Hn. destruct (si_empty _ S Hn) as (E1 & E2 & E3). unfold all_ops. rewrite E1, E2, E3. cbn.
    assert (chan_heap s = ∅) as ->; [|by rewrite map_to_list_empty].
    apply map_empty. intros ch. destruct (chan_heap s !! ch) as [c|] eqn:Hc; [|done].
    pose proof (si_dom _ S ch ltac:(by exists c)) as Hin. rewrite Hn in Hin. by apply elem_of_nil in Hin.
Qed.

End Safety.

(** ** Lengths *)

(** C16. What is encoded is exact.  For a payload that fits 16 bits with the signature, [encode_pdu] gives
    nothing when opcode, payload and signature exceed the MTU, and otherwise the opcode, the payload and what
    [signature] is: nothing without a key or for an unsigned opcode, else the 12 bytes that [bt_crypto_sign_att] makes of the opcode and
    the payload with the next value of the counter (nothing at all when either is not to be had),
    and uninitialised bytes when there are no cryptographic functions; the announced length is that of the buffer and fits the
    MTU.  But the length is a 16-bit number: for a payload of 65535 bytes it wraps to 0, the check against the MTU
    passes and the opcode is written behind an empty buffer. *)
Theorem encode_pdu_exact junk sign_att counter opcode s :
  (forall k m c sig, sign_att k m c = Some sig -> zlen sig = BT_ATT_SIGNATURE_LEN) ->
  (forall pdu len, pdu_ok pdu len -> (pdu = None -> len = 0) ->
     let data := slice 0 len (default [] pdu) in
     let n := 1 + len + sign_room opcode s in
     encode_pdu junk sign_att counter opcode pdu len s
       = Some (if mtu s <? n then None else tail ← signature junk sign_att counter opcode data s; Some (opcode :: data ++ tail, n)) /\
     forall buf m, encode_pdu junk sign_att counter opcode pdu len s = Some (Some (buf, m)) -> zlen buf = m /\ 1 <= m <= mtu s) /\
  (forall p, local_sign s = None -> 0 <= mtu s ->
     encode_pdu junk sign_att counter opcode (Some p) 65535 s = None).
Proof.
  intros Hsig. split.
  { intros pdu len Hok Hnone data n. split; [by apply encode_pdu_eq|]. intros buf m E.
    destruct (encode_pdu_spec junk sign_att counter Hsig opcode pdu len s Hok Hnone) as (r & E' & Hr). apply Hr. congruence. }
  intros p Hs Hm. unfold encode_pdu. rewrite Hs. cbn -[memcpy_at wrap].
  change (u16 (1 + 65535)) with 0. rewrite (proj2 (Z.ltb_ge _ _)) by done.
  by rewrite memcpy_at_None.
Qed.

(** ** Concrete runs *)

Definition demo_sign (k m : list Z) (c : Z) : option (list Z) := Some (replicate 12 7).
Definition demo_counter (f u c : Z) : option Z := Some c.
Definition demo_verify (k p : list Z) : bool := true.

(** The client sends the next request from the response function of request 5;
    its only handler of incoming operations sets the MTU. *)
Definition demo_react (e : att_event) (s : bt_att) : list att_call :=
  match e with
  | LResponse _ 5 _ _ _ => [CSend BT_ATT_OP_READ_REQ (Some [2; 0]) 2 (Some 6) 0 None]
  | LNotify _ _ _ _ _ _ => match notify_list s with [_] => [CSetMtu 64] | _ => [] end
  | _ => []
  end.

Definition demo_do := do_input 0 demo_sign demo_verify demo_counter demo_react.
Definition demo_run := do_inputs 0 demo_sign demo_verify demo_counter demo_react.
Definition demo_sock : sock_info := mkSock None None None None (inl 0).
Definition demo_sec : sock_security := mkSec None false.
Definition demo_att : bt_att :=
  default (mkAtt 0 false [] ∅ 0 0 [] ∅ [] ∅ 0 0 [] [] [] false None None 0 None 0 false None None ∅ 1 ∅ false [])
    (mjoin (bt_att_new demo_sock true true 3 true)).

(** Two requests; the first is sent and answered, which makes the client send
    another one; the peer then asks for another MTU. *)
Definition demo_inputs : list att_input :=
  [EvCall (CSend BT_ATT_OP_READ_REQ (Some [1; 0]) 2 (Some 5) 0 (Some 9));
   EvWritable 1 3 (Some 7%positive);
   EvReadable demo_sec 1 (Some [BT_ATT_OP_READ_RSP; 42]);
   EvCall (CRegister BT_ATT_OP_MTU_REQ 8 0 None);
   EvReadable demo_sec 1 (Some [BT_ATT_OP_MTU_REQ; 64; 0])].

(** A check that an input is allowed. *)
Definition input_good (s : bt_att) (e : att_input) : bool :=
  bool_decide (small s) &&
  match e with
  | EvCall (CSend _ (Some p) len _ _ _) => (0 <=? len) && (len <=? 65522) && (len <=? zlen p)
  | EvCall (CRegister _ _ _ _) => true
  | EvWritable _ _ (Some tid) => negb (isSome (timers s !! tid))
  | EvWritable _ _ None | EvReadable _ _ _ | EvTimeout _ | EvDisconnect _ _ => true
  | _ => false
  end.

Fixpoint inputs_good (l : list att_input) (s : bt_att) : bool :=
  match l with
  | [] => true
  | e :: l' => input_good s e && match demo_do e s with Some s' => inputs_good l' s' | None => false end
  end.

Lemma input_good_ok s e : input_good s e = true -> input_ok s e /\ small s.
Proof.
  unfold input_good. intros [Hs He]%andb_true_iff. apply bool_decide_eq_true in Hs. split; [|done].
  destruct e as [k| | |ch ret tid| | |]; try done.
  - destruct k; try done. destruct pdu as [p|]; [|done]. cbn.
    apply andb_true_iff in He as [[H1 H2]%andb_true_iff H3]. split; [lia|]. intros ? [= <-]. lia.
  - destruct tid as [t|]; cbn; [|done]. by destruct (timers s !! t).
Qed.

Lemma demo_run_reachable l s s' :
  att_reachable 0 demo_sign demo_verify demo_counter demo_react s ->
  inputs_good l s = true -> demo_run l s = Some s' ->
  att_reachable 0 demo_sign demo_verify demo_counter demo_react s'.
Proof.
  revert s. induction l as [|e l IH]; intros s Hr Hg Hrun; [by injection Hrun as <-|].
  cbn in Hg. apply andb_true_iff in Hg as [[Hok Hsm]%input_good_ok Hg].
  unfold demo_run in Hrun. cbn [do_inputs] in Hrun. fold demo_do in Hrun.
  change (do_input 0 demo_sign demo_verify demo_counter demo_react e s) with (demo_do e s) in Hrun.
  destruct (demo_do e s) as [s1|] eqn:He; [|done]. cbn [mbind option_bind] in Hrun.
  eapply (IH s1); [|done|exact Hrun].
  destruct Hr as (k & ok & cr & fd & ext & s0 & Hnew & Hr). exists k, ok, cr, fd, ext, s0.
  split; [done|]. eapply rtc_r; [done|]. by exists e.
Qed.

Lemma demo_att_reachable : att_reachable 0 demo_sign demo_verify demo_counter demo_react demo_att.
Proof. exists demo_sock, true, true, 3, true, demo_att. split; [by vm_compute|constructor]. Qed.

Lemma demo_react_ok e s k :
  k ∈ demo_react e s ->
  call_ok s k /\ (is_reg k = true -> is_notify e = false) /\ (is_set_mtu k = true -> last_handler e s).
Proof.
  unfold demo_react. destruct e; try by intros ?%elem_of_nil.
  - repeat case_match; try by intros ?%elem_of_nil. intros ->%list_elem_of_singleton.
    split; [|done]. split; [lia|]. intros ? [= <-]. done.
  - destruct (notify_list s) as [|x [|y l]] eqn:El; try by intros ?%elem_of_nil.
    intros ->%list_elem_of_singleton. do 2 (split; [done|]). intros _ pre post E. rewrite El in E.
    assert (post = []) as ->.
    { apply (f_equal length) in E. rewrite length_app in E. cbn in E. destruct post; [done|cbn in E; lia]. }
    by intros ? ? ?%elem_of_nil.
Qed.

Definition demo_end : bt_att := default demo_att (demo_run demo_inputs demo_att).

Lemma demo_end_reachable : att_reachable 0 demo_sign demo_verify demo_counter demo_react demo_end.
Proof.
  apply (demo_run_reachable demo_inputs demo_att); [exact demo_att_reachable|by vm_compute|by vm_compute].
Qed.

Lemma requests_answered_once_witness :
  mtu demo_end = 64 /\ born (stat (log demo_end) 2) = Some ATT_OP_TYPE_REQ /\ 2%positive ∉ all_ops demo_end /\
  (canc (stat (log demo_end) 2) = true \/ resp (stat (log demo_end) 2) = 1%nat).
Proof.
  assert (H1 : born (stat (log demo_end) 2) = Some ATT_OP_TYPE_REQ) by (vm_compute; reflexivity).
  destruct (requests_answered_once 0 demo_sign demo_verify demo_counter demo_react
    ltac:(intros ? ? ? ? [= <-]; reflexivity) demo_react_ok demo_end demo_end_reachable)
    as (_ & _ & Hl & Ho & _).
  assert (H2 : 2%positive ∉ all_ops demo_end).
  { intros Hin. apply Hl in Hin as [op Hop]. vm_compute in Hop. discriminate. }
  split; [vm_compute; reflexivity|]. split; [exact H1|]. split; [exact H2|].
  destruct (Ho 2%positive) as (_ & _ & _ & _ & H). exact (H _ H1 eq_refl H2).
Defined.

(** A signed write with a key, and the overrun. *)
Definition demo_signer : bt_att := 
  bt_att_set_local_key (replicate 16 1) 3 4 (default demo_att (mjoin (bt_att_new demo_sock true true 3 false))).

Lemma encode_pdu_exact_witness :
  encode_pdu 0 demo_sign demo_counter BT_ATT_OP_SIGNED_WRITE_CMD (Some [3; 0; 9]) 3 demo_signer
    = Some (Some ([BT_ATT_OP_SIGNED_WRITE_CMD; 3; 0; 9] ++ replicate 12 7, 16)) /\
  encode_pdu 0 demo_sign demo_counter 0x0a (Some (replicate 65535 0)) 65535 demo_att = None.
Proof.
  split.
  - destruct (encode_pdu_exact 0 demo_sign demo_counter BT_ATT_OP_SIGNED_WRITE_CMD demo_signer) as [H _];
      [intros ? ? ? ? [= <-]; reflexivity|].
    destruct (H (Some [3; 0; 9]) 3) as [E _]; [split; [lia|intros p [= <-]; done]|done|]. cbv zeta in E. rewrite E. reflexivity.
  - destruct (encode_pdu_exact 0 demo_sign demo_counter 0x0a demo_att) as [_ H];
      [intros ? ? ? ? [= <-]; reflexivity|].
    apply H; [reflexivity|]. vm_compute. discriminate.
Defined.

(** Two requests sent on one channel with [bt_att_chan_send]. *)
Definition demo_chan_requests : list att_input :=
  [EvCall (CChanSend 1 BT_ATT_OP_READ_REQ (Some [1; 0]) 2 (Some 6) 0 None);
   EvCall (CChanSend 1 BT_ATT_OP_READ_REQ (Some [2; 0]) 2 (Some 6) 0 None);
   EvWritable 1 3 (Some 7%positive); EvWritable 1 3 (Some 8%positive);
   EvReadable demo_sec 1 (Some [BT_ATT_OP_READ_RSP; 42]); EvDisconnect 1 0].

(** A channel's own queue is served although a request is pending: of two
    requests sent with [bt_att_chan_send] the second takes the place of the
    first, whose response function is never called, not by the response, not
    by the disconnection; its timer then fires for the freed channel. *)
Theorem chan_request_lost :
  exists s, demo_run demo_chan_requests demo_att = Some s /\ chans s = [] /\
    born (stat (log s) 2) = Some ATT_OP_TYPE_REQ /\ resp (stat (log s) 2) = 0%nat /\
    canc (stat (log s) 2) = false /\ is_Some (op_heap s !! 2%positive) /\
    resp (stat (log s) 3) = 1%nat /\ demo_do (EvTimeout 7) s = None.
Proof. eexists. split; [vm_compute; reflexivity|]. vm_compute. by repeat split; eauto. Qed.

(** A handler that sets the MTU, on a transport with two handlers of MTU requests. *)
Definition demo_react_mtu (e : att_event) (s : bt_att) : list att_call :=
  match e with LNotify _ 8 _ _ _ _ => [CSetMtu 64] | _ => [] end.

Definition demo_two_handlers : list att_input :=
  [EvCall (CRegister BT_ATT_OP_MTU_REQ 8 0 None); EvCall (CRegister BT_ATT_OP_MTU_REQ 9 0 None)].

(** [bt_att_set_mtu] frees the buffer of the channel although [handle_notify] still shows the operation in it
    to the handlers that follow: without the discipline of [requests_answered_once] the second handler of an MTU request
    is given freed memory. *)
Theorem set_mtu_frees_pdu :
  exists s, do_inputs 0 demo_sign demo_verify demo_counter demo_react_mtu demo_two_handlers demo_att = Some s /\
    input_ok s (EvReadable demo_sec 1 (Some [BT_ATT_OP_MTU_REQ; 64; 0])) /\
    do_input 0 demo_sign demo_verify demo_counter demo_react_mtu (EvReadable demo_sec 1 (Some [BT_ATT_OP_MTU_REQ; 64; 0])) s = None.
Proof. eexists. split; [vm_compute; reflexivity|]. split; [done|]. vm_compute. reflexivity. Qed.

(** The client cancels request 2 from the response function of request 1. *)
Definition demo_react_cancel (e : att_event) (s : bt_att) : list att_call :=
  match e with LResponse _ 5 _ _ _ => [CCancel 2] | _ => [] end.

Definition demo_cancel : list att_input :=
  [EvCall (CSend BT_ATT_OP_READ_REQ (Some [1; 0]) 2 (Some 5) 0 None);
   EvCall (CSend BT_ATT_OP_READ_REQ (Some [2; 0]) 2 (Some 6) 0 None); EvDisconnect 1 0].

(** While the queued requests are answered after a disconnection, a
    cancellation from one of the response functions does not find the other
    requests: the queue is emptied before its entries are processed, so the
    response function of the cancelled request is called all the same. *)
Theorem disc_cancel_too_late :
  exists s, do_inputs 0 demo_sign demo_verify demo_counter demo_react_cancel demo_cancel demo_att = Some s /\
    resp (stat (log s) 2) = 1%nat /\ resp (stat (log s) 3) = 1%nat /\ canc (stat (log s) 3) = false.
Proof. eexists. split; [vm_compute; reflexivity|]. by vm_compute. Qed.
