(* ===== verification/GattServer.v ===== *)
(** The GATT server ([shared/gatt-server.c]): the handlers of the ATT requests, the
    reads and writes they wait for, long writes, notifications and indications.

    The server works on the database of [GattDb] through the operations of
    [GattAttr].  A read or write that the database passes on to the client is
    pending there under the number of its timer; [g_waiting] holds, under the same
    number, what the server goes on with when the answer comes (the callback and
    its user data).  Requests come from the transport with the number of a
    channel; what is sent is put into [g_out]. *)
From S2P Require Import Prelude Uuid Att GattDb GattAttr.

(** ** Constants *)

Definition BT_ATT_PERM_WRITE : Z := 0x02.
Definition BT_ATT_PERM_READ_ENCRYPT : Z := 0x04.
Definition BT_ATT_PERM_WRITE_ENCRYPT : Z := 0x08.
Definition BT_ATT_PERM_ENCRYPT : Z := Z.lor BT_ATT_PERM_READ_ENCRYPT BT_ATT_PERM_WRITE_ENCRYPT.
Definition BT_ATT_PERM_READ_AUTHEN : Z := 0x10.
Definition BT_ATT_PERM_WRITE_AUTHEN : Z := 0x20.
Definition BT_ATT_PERM_AUTHEN : Z := Z.lor BT_ATT_PERM_READ_AUTHEN BT_ATT_PERM_WRITE_AUTHEN.
Definition BT_ATT_PERM_READ_SECURE : Z := 0x0100.
Definition BT_ATT_PERM_WRITE_SECURE : Z := 0x0200.
Definition BT_ATT_PERM_SECURE : Z := Z.lor BT_ATT_PERM_READ_SECURE BT_ATT_PERM_WRITE_SECURE.

Definition BT_ATT_ERROR_READ_NOT_PERMITTED : Z := 0x02.
Definition BT_ATT_ERROR_WRITE_NOT_PERMITTED : Z := 0x03.
Definition BT_ATT_ERROR_INVALID_PDU : Z := 0x04.
Definition BT_ATT_ERROR_PREPARE_QUEUE_FULL : Z := 0x09.
Definition BT_ATT_ERROR_ATTRIBUTE_NOT_FOUND : Z := 0x0A.
Definition BT_ATT_ERROR_INSUFFICIENT_ENCRYPTION_KEY_SIZE : Z := 0x0C.
Definition BT_ATT_ERROR_UNSUPPORTED_GROUP_TYPE : Z := 0x10.

Definition DEFAULT_MAX_PREP_QUEUE_LEN : Z := 30.

(** The masks the handlers pass to [check_permissions]. *)
Definition READ_MASK : Z := Z.lor (Z.lor BT_ATT_PERM_READ BT_ATT_PERM_READ_AUTHEN) BT_ATT_PERM_READ_ENCRYPT.
Definition WRITE_MASK : Z := Z.lor (Z.lor BT_ATT_PERM_WRITE BT_ATT_PERM_WRITE_AUTHEN) BT_ATT_PERM_WRITE_ENCRYPT.

(** ** Data *)

Record prep_write_data := mkPrep {
  pw_value : list Z;
  pw_handle : Z;
  pw_offset : Z;
  pw_length : Z;
  reliable_supported : bool
}.

Record nfy_mult_data := mkNfy {
  nm_pdu : list Z;                       (* the buffer, of [nm_len] bytes *)
  nm_offset : Z;
  nm_len : Z
}.

(** [async_read_op] of a Read By Type request. *)
Record read_by_type_op := mkByType {
  rt_chan : Z;
  rt_opcode : Z;
  rt_done : bool;
  rt_pdu : list Z;                       (* the buffer *)
  rt_pdu_len : Z;
  rt_value_len : Z
}.

Record read_mult_data := mkMult {
  rm_chan : Z;
  rm_opcode : Z;
  rm_rsp_data : list Z;
  rm_length : Z;
  rm_mtu : Z
}.

(** The callbacks a pending read or write can have, with their user data: for
    [KByType] the attributes still to be read, for [KMult] the handles still to
    be read.  [KOrphan] is an operation whose server pointer was cleared. *)
Inductive continuation :=
| KByType (op : read_by_type_op) (db_data : list aptr)
| KRead (chan opcode : Z)
| KMult (data : read_mult_data) (handles : list Z)
| KWrite (chan opcode : Z)
| KPrep (chan : Z) (pdu : list Z)
| KExec (chan : Z)
| KStack                                 (* an iovec on a stack that is gone *)
| KExtProp                               (* a uint16_t on a stack that is gone *)
| KOrphan.

(** What goes to the transport; [Refused] is a response the transport does not send. *)
Inductive att_out :=
| Rsp (chan opcode : Z) (pdu : list Z)
| Refused (chan opcode : Z)
| ErrorRsp (chan opcode handle ecode : Z)
| Send (opcode : Z) (pdu : list Z).

(** [g_att_mtu] is what [bt_att_get_mtu] returns; [g_security] and [g_enc_size]
    are what [bt_att_get_security] returns.  [g_calls] lists the calls made to
    the read and write functions of the client. *)
Record server := mkServer {
  g_db : gatt_db;
  g_timers : gset Z;
  g_next_timer : Z;
  g_mtu : Z;
  g_att_mtu : Z;
  g_security : Z;
  g_enc_size : Z;
  g_min_enc_size : Z;
  g_prep_queue : list prep_write_data;
  g_max_prep_queue_len : Z;
  g_pending_read_op : bool;
  g_pending_write_op : bool;
  g_nfy_mult : option nfy_mult_data;
  g_authorize : option Z;
  g_ref_count : Z;
  g_waiting : gmap Z continuation;
  g_alive : bool;
  g_calls : list (aptr * attr_event);
  g_out : list att_out
}.

Definition set_g_db (x : gatt_db) (s : server) : server :=
    mkServer x (g_timers s) (g_next_timer s) (g_mtu s) (g_att_mtu s) (g_security s) (g_enc_size s)
    (g_min_enc_size s) (g_prep_queue s) (g_max_prep_queue_len s) (g_pending_read_op s) (g_pending_write_op s)
    (g_nfy_mult s) (g_authorize s) (g_ref_count s) (g_waiting s) (g_alive s) (g_calls s) (g_out s).
Definition set_g_timers (x : gset Z) (s : server) : server :=
    mkServer (g_db s) x (g_next_timer s) (g_mtu s) (g_att_mtu s) (g_security s) (g_enc_size s) (g_min_enc_size
    s) (g_prep_queue s) (g_max_prep_queue_len s) (g_pending_read_op s) (g_pending_write_op s) (g_nfy_mult s)
    (g_authorize s) (g_ref_count s) (g_waiting s) (g_alive s) (g_calls s) (g_out s).
Definition set_g_next_timer (x : Z) (s : server) : server :=
    mkServer (g_db s) (g_timers s) x (g_mtu s) (g_att_mtu s) (g_security s) (g_enc_size s) (g_min_enc_size s)
    (g_prep_queue s) (g_max_prep_queue_len s) (g_pending_read_op s) (g_pending_write_op s) (g_nfy_mult s)
    (g_authorize s) (g_ref_count s) (g_waiting s) (g_alive s) (g_calls s) (g_out s).
Definition set_g_mtu (x : Z) (s : server) : server :=
    mkServer (g_db s) (g_timers s) (g_next_timer s) x (g_att_mtu s) (g_security s) (g_enc_size s)
    (g_min_enc_size s) (g_prep_queue s) (g_max_prep_queue_len s) (g_pending_read_op s) (g_pending_write_op s)
    (g_nfy_mult s) (g_authorize s) (g_ref_count s) (g_waiting s) (g_alive s) (g_calls s) (g_out s).
Definition set_g_att_mtu (x : Z) (s : server) : server :=
    mkServer (g_db s) (g_timers s) (g_next_timer s) (g_mtu s) x (g_security s) (g_enc_size s) (g_min_enc_size s)
    (g_prep_queue s) (g_max_prep_queue_len s) (g_pending_read_op s) (g_pending_write_op s) (g_nfy_mult s)
    (g_authorize s) (g_ref_count s) (g_waiting s) (g_alive s) (g_calls s) (g_out s).
Definition set_g_security (x : Z) (s : server) : server :=
    mkServer (g_db s) (g_timers s) (g_next_timer s) (g_mtu s) (g_att_mtu s) x (g_enc_size s) (g_min_enc_size s)
    (g_prep_queue s) (g_max_prep_queue_len s) (g_pending_read_op s) (g_pending_write_op s) (g_nfy_mult s)
    (g_authorize s) (g_ref_count s) (g_waiting s) (g_alive s) (g_calls s) (g_out s).
Definition set_g_enc_size (x : Z) (s : server) : server :=
    mkServer (g_db s) (g_timers s) (g_next_timer s) (g_mtu s) (g_att_mtu s) (g_security s) x (g_min_enc_size s)
    (g_prep_queue s) (g_max_prep_queue_len s) (g_pending_read_op s) (g_pending_write_op s) (g_nfy_mult s)
    (g_authorize s) (g_ref_count s) (g_waiting s) (g_alive s) (g_calls s) (g_out s).
Definition set_g_min_enc_size (x : Z) (s : server) : server :=
    mkServer (g_db s) (g_timers s) (g_next_timer s) (g_mtu s) (g_att_mtu s) (g_security s) (g_enc_size s) x
    (g_prep_queue s) (g_max_prep_queue_len s) (g_pending_read_op s) (g_pending_write_op s) (g_nfy_mult s)
    (g_authorize s) (g_ref_count s) (g_waiting s) (g_alive s) (g_calls s) (g_out s).
Definition set_g_prep_queue (x : list prep_write_data) (s : server) : server :=
    mkServer (g_db s) (g_timers s) (g_next_timer s) (g_mtu s) (g_att_mtu s) (g_security s) (g_enc_size s)
    (g_min_enc_size s) x (g_max_prep_queue_len s) (g_pending_read_op s) (g_pending_write_op s) (g_nfy_mult s)
    (g_authorize s) (g_ref_count s) (g_waiting s) (g_alive s) (g_calls s) (g_out s).
Definition set_g_max_prep_queue_len (x : Z) (s : server) : server :=
    mkServer (g_db s) (g_timers s) (g_next_timer s) (g_mtu s) (g_att_mtu s) (g_security s) (g_enc_size s)
    (g_min_enc_size s) (g_prep_queue s) x (g_pending_read_op s) (g_pending_write_op s) (g_nfy_mult s)
    (g_authorize s) (g_ref_count s) (g_waiting s) (g_alive s) (g_calls s) (g_out s).
Definition set_g_pending_read_op (x : bool) (s : server) : server :=
    mkServer (g_db s) (g_timers s) (g_next_timer s) (g_mtu s) (g_att_mtu s) (g_security s) (g_enc_size s)
    (g_min_enc_size s) (g_prep_queue s) (g_max_prep_queue_len s) x (g_pending_write_op s) (g_nfy_mult s)
    (g_authorize s) (g_ref_count s) (g_waiting s) (g_alive s) (g_calls s) (g_out s).
Definition set_g_pending_write_op (x : bool) (s : server) : server :=
    mkServer (g_db s) (g_timers s) (g_next_timer s) (g_mtu s) (g_att_mtu s) (g_security s) (g_enc_size s)
    (g_min_enc_size s) (g_prep_queue s) (g_max_prep_queue_len s) (g_pending_read_op s) x (g_nfy_mult s)
    (g_authorize s) (g_ref_count s) (g_waiting s) (g_alive s) (g_calls s) (g_out s).
Definition set_g_nfy_mult (x : option nfy_mult_data) (s : server) : server :=
    mkServer (g_db s) (g_timers s) (g_next_timer s) (g_mtu s) (g_att_mtu s) (g_security s) (g_enc_size s)
    (g_min_enc_size s) (g_prep_queue s) (g_max_prep_queue_len s) (g_pending_read_op s) (g_pending_write_op s) x
    (g_authorize s) (g_ref_count s) (g_waiting s) (g_alive s) (g_calls s) (g_out s).
Definition set_g_authorize (x : option Z) (s : server) : server :=
    mkServer (g_db s) (g_timers s) (g_next_timer s) (g_mtu s) (g_att_mtu s) (g_security s) (g_enc_size s)
    (g_min_enc_size s) (g_prep_queue s) (g_max_prep_queue_len s) (g_pending_read_op s) (g_pending_write_op s)
    (g_nfy_mult s) x (g_ref_count s) (g_waiting s) (g_alive s) (g_calls s) (g_out s).
Definition set_g_ref_count (x : Z) (s : server) : server :=
    mkServer (g_db s) (g_timers s) (g_next_timer s) (g_mtu s) (g_att_mtu s) (g_security s) (g_enc_size s)
    (g_min_enc_size s) (g_prep_queue s) (g_max_prep_queue_len s) (g_pending_read_op s) (g_pending_write_op s)
    (g_nfy_mult s) (g_authorize s) x (g_waiting s) (g_alive s) (g_calls s) (g_out s).
Definition set_g_waiting (x : gmap Z continuation) (s : server) : server :=
    mkServer (g_db s) (g_timers s) (g_next_timer s) (g_mtu s) (g_att_mtu s) (g_security s) (g_enc_size s)
    (g_min_enc_size s) (g_prep_queue s) (g_max_prep_queue_len s) (g_pending_read_op s) (g_pending_write_op s)
    (g_nfy_mult s) (g_authorize s) (g_ref_count s) x (g_alive s) (g_calls s) (g_out s).
Definition set_g_alive (x : bool) (s : server) : server :=
    mkServer (g_db s) (g_timers s) (g_next_timer s) (g_mtu s) (g_att_mtu s) (g_security s) (g_enc_size s)
    (g_min_enc_size s) (g_prep_queue s) (g_max_prep_queue_len s) (g_pending_read_op s) (g_pending_write_op s)
    (g_nfy_mult s) (g_authorize s) (g_ref_count s) (g_waiting s) x (g_calls s) (g_out s).
Definition set_g_calls (x : list (aptr * attr_event)) (s : server) : server :=
    mkServer (g_db s) (g_timers s) (g_next_timer s) (g_mtu s) (g_att_mtu s) (g_security s) (g_enc_size s)
    (g_min_enc_size s) (g_prep_queue s) (g_max_prep_queue_len s) (g_pending_read_op s) (g_pending_write_op s)
    (g_nfy_mult s) (g_authorize s) (g_ref_count s) (g_waiting s) (g_alive s) x (g_out s).
Definition set_g_out (x : list att_out) (s : server) : server :=
    mkServer (g_db s) (g_timers s) (g_next_timer s) (g_mtu s) (g_att_mtu s) (g_security s) (g_enc_size s)
    (g_min_enc_size s) (g_prep_queue s) (g_max_prep_queue_len s) (g_pending_read_op s) (g_pending_write_op s)
    (g_nfy_mult s) (g_authorize s) (g_ref_count s) (g_waiting s) (g_alive s) (g_calls s) x.

(** [create_att_send_op] of the transport makes no operation for an opcode that its table does not know, and the
    server looks at the result of none of its sends. *)
Definition rsp_out (chan opcode : Z) (pdu : list Z) : att_out :=
  match get_op_type opcode with ATT_OP_TYPE_UNKNOWN => Refused chan opcode | _ => Rsp chan opcode pdu end.

Definition bt_att_chan_send_rsp (chan opcode : Z) (pdu : list Z) (s : server) : server :=
  set_g_out (g_out s ++ [rsp_out chan opcode pdu]) s.
Definition bt_att_chan_send_error_rsp (chan opcode handle ecode : Z) (s : server) : server :=
  set_g_out (g_out s ++ [ErrorRsp chan opcode handle ecode]) s.
Definition bt_att_send (opcode : Z) (pdu : list Z) (s : server) : server :=
  set_g_out (g_out s ++ [Send opcode pdu]) s.

(** ** Operations of the database on an attribute *)

Definition put_attr (a : aptr) (A : gatt_db_attribute) (db : gatt_db) : option gatt_db :=
  sv ← svc_heap db !! a.1;
  Some (set_service a.1 (set_attributes (<[a.2 := Some A]> (attributes sv)) sv) db).

Definition on_attr (a : aptr) (f : attr_state -> option attr_state) (s : server)
  : option (list attr_event * server) :=
  A ← get_attr a (g_db s);
  st ← f (mkState A (g_timers s) (g_next_timer s) []);
  db ← put_attr a (GattAttr.attr st) (g_db s);
  Some (GattAttr.log st, set_g_db db (set_g_timers (GattAttr.timers st) (set_g_next_timer (next_timer st) s))).

Definition wait (key : Z) (k : continuation) (s : server) : server :=
  set_g_waiting (<[key := k]> (g_waiting s)) s.
Definition called (a : aptr) (e : attr_event) (s : server) : server :=
  set_g_calls (g_calls s ++ [(a, e)]) s.

(** [get_uuid_le]; [None] is [false], the UUID is then not set. *)
Definition get_uuid_le (l : list Z) : option bt_uuid :=
  if zlen l =? 2 then Some (bt_uuid16_create (get_le l))
  else if zlen l =? 16 then Some (bt_uuid128_create (rev l))
  else None.

Definition check_min_key_size (min_size size : Z) : bool :=
  if (min_size =? 0) || (size =? 0) then true else min_size <=? size.

Definition get_read_rsp_opcode (opcode : Z) : Z :=
  if opcode =? BT_ATT_OP_READ_REQ then BT_ATT_OP_READ_RSP
  else if opcode =? BT_ATT_OP_READ_BLOB_REQ then BT_ATT_OP_READ_BLOB_RSP
  else 0.

(** The tests of [check_permissions] one after the other, on the permissions. *)
Definition permission_error (perm mask security enc_size min_enc_size : Z) : Z :=
  let has m := negb (Z.land perm m =? 0) in
  let asks m := negb (Z.land mask m =? 0) in
  if negb (perm =? 0) && asks BT_ATT_PERM_READ && negb (has BT_ATT_PERM_READ)
  then BT_ATT_ERROR_READ_NOT_PERMITTED
  else if negb (perm =? 0) && asks BT_ATT_PERM_WRITE && negb (has BT_ATT_PERM_WRITE)
  then BT_ATT_ERROR_WRITE_NOT_PERMITTED
  else
    let perm := Z.land perm mask in
    let has m := negb (Z.land perm m =? 0) in
    if perm =? 0 then 0
    else if security <? 0 then BT_ATT_ERROR_UNLIKELY
    else if has BT_ATT_PERM_SECURE && (security <? BT_ATT_SECURITY_FIPS) then BT_ATT_ERROR_AUTHENTICATION
    else if has BT_ATT_PERM_SECURE && negb (check_min_key_size min_enc_size enc_size)
    then BT_ATT_ERROR_INSUFFICIENT_ENCRYPTION_KEY_SIZE
    else if has BT_ATT_PERM_AUTHEN && (security <? BT_ATT_SECURITY_HIGH) then BT_ATT_ERROR_AUTHENTICATION
    else if has BT_ATT_PERM_AUTHEN && negb (check_min_key_size min_enc_size enc_size)
    then BT_ATT_ERROR_INSUFFICIENT_ENCRYPTION_KEY_SIZE
    else if has BT_ATT_PERM_ENCRYPT && (security <? BT_ATT_SECURITY_MEDIUM)
    then BT_ATT_ERROR_INSUFFICIENT_ENCRYPTION
    else if has BT_ATT_PERM_ENCRYPT && negb (check_min_key_size min_enc_size enc_size)
    then BT_ATT_ERROR_INSUFFICIENT_ENCRYPTION_KEY_SIZE
    else 0.

Definition check_permissions (a : aptr) (mask : Z) (s : server) : option Z :=
  perm ← gatt_db_attribute_get_permissions (Some a) (g_db s);
  Some (permission_error perm mask (g_security s) (g_enc_size s) (g_min_enc_size s)).

Section Server.
Context (authorize : option (Z -> Z))                (* db->authorize, on the opcode *)
        (run_authorize : Z -> Z -> Z -> Z)           (* the server's, on opcode and handle *)
        (junk : Z -> Z).                             (* what fresh memory holds *)

(** [gatt_db_attribute_read] with a callback and its user data: the answer when
    the database has it at once, otherwise the operation is pending. *)
Definition attribute_read (a : aptr) (offset opcode : Z) (k : continuation) (s : server)
  : option (option (Z * list Z) * server) :=
  '(l, s) ← on_attr a (gatt_db_attribute_read authorize offset opcode 0) s;
  match l with
  | [ERead None _ err data] => Some (Some (err, data), s)
  | [EReadFunc key cb id off op] => Some (None, wait key k (called a (EReadFunc key cb id off op) s))
  | _ => None
  end.

Definition attribute_write (a : aptr) (offset : Z) (data : list Z) (opcode : Z) (k : continuation) (s : server)
  : option (option Z * server) :=
  '(l, s) ← on_attr a (gatt_db_attribute_write authorize junk offset data opcode 0) s;
  match l with
  | [EWritten None _ err] => Some (Some err, s)
  | [EWriteFunc key cb id off d op] => Some (None, wait key k (called a (EWriteFunc key cb id off d op) s))
  | _ => None
  end.

Definition authorize_req (s : server) (opcode handle : Z) : Z :=
  match g_authorize s with None => 0 | Some cb => u8 (run_authorize cb opcode handle) end.

(** ** Read By Group Type *)

(** The loop of [encode_read_by_grp_type_rsp]: [iter] bytes of [pdu] are written,
    [dvl] is [data_val_len] once it is set; the result is [None] for [false]. *)
Fixpoint encode_read_by_grp_type (q : list aptr) (mtu iter dvl : Z) (pdu : list Z) (s : server)
  : option (option (list Z * Z) * server) :=
  match q with
  | [] => Some (Some (pdu, u16 iter), s)
  | a :: q' =>
      '(r, s) ← attribute_read a 0 BT_ATT_OP_READ_BY_GRP_TYPE_REQ KStack s;
      let value := match r with Some (_, v) => v | None => [] end in
      if zlen value =? 0 then Some (None, s) else
      let first := iter =? 0 in
      let dvl := if first then u8 (Z.min (Z.min (u32 (mtu - 6)) 251) (zlen value)) else dvl in
      pdu ← (if first then memcpy_at pdu 0 [u8 (dvl + 4)] else Some pdu);
      let iter := if first then 1 else iter in
      if negb first && negb (zlen value =? dvl) then Some (Some (pdu, u16 iter), s) else
      if mtu - 1 <? iter + dvl + 4 then Some (Some (pdu, u16 iter), s) else
      r ← gatt_db_attribute_get_service_handles (Some a) (g_db s);
      '(start_handle, end_handle) ← r;
      pdu ← memcpy_at pdu iter (put_le16 start_handle);
      pdu ← memcpy_at pdu (iter + 2) (put_le16 end_handle);
      d ← memread value 0 dvl;
      pdu ← memcpy_at pdu (iter + 4) d;
      encode_read_by_grp_type q' mtu (iter + dvl + 4) dvl pdu s
  end.

(** A buffer of [n] bytes on the stack or from [malloc]. *)
Definition buffer (n : Z) : list Z := map junk (seqZ 0 n).

Definition read_by_grp_type_cb (chan opcode : Z) (pdu : list Z) (s : server) : option server :=
  let mtu := g_att_mtu s in
  let fail ehandle ecode s := Some (bt_att_chan_send_error_rsp chan opcode ehandle ecode s) in
  if negb (zlen pdu =? 6) && negb (zlen pdu =? 20) then fail 0 BT_ATT_ERROR_INVALID_PDU s else
  let start := get_le (slice 0 2 pdu) in
  let stop := get_le (slice 2 2 pdu) in
  type ← get_uuid_le (drop 4 pdu);
  if (start =? 0) || (stop =? 0) then fail 0 BT_ATT_ERROR_INVALID_HANDLE s else
  if stop <? start then fail start BT_ATT_ERROR_INVALID_HANDLE s else
  prim ← uuid_eq type primary_service_uuid;
  snd ← uuid_eq type secondary_service_uuid;
  if negb prim && negb snd then fail start BT_ATT_ERROR_UNSUPPORTED_GROUP_TYPE s else
  q ← gatt_db_read_by_group_type start stop type (g_db s);
  if isNil q then fail start BT_ATT_ERROR_ATTRIBUTE_NOT_FOUND s else
  '(r, s) ← encode_read_by_grp_type q mtu 0 0 (buffer mtu) s;
  match r with
  | None => fail start BT_ATT_ERROR_UNLIKELY s
  | Some (rsp_pdu, rsp_len) =>
      d ← memread rsp_pdu 0 rsp_len;
      Some (bt_att_chan_send_rsp chan BT_ATT_OP_READ_BY_GRP_TYPE_RSP d s)
  end.

(** ** Read By Type *)

Definition async_read_op_destroy (s : server) : server := set_g_pending_read_op false s.

(** [read_by_type_read_complete_cb] up to [done:], without an error. *)
Definition encode_read_by_type (mtu handle : Z) (value : list Z) (op : read_by_type_op)
  : option read_by_type_op :=
  let stop op := Some (mkByType (rt_chan op) (rt_opcode op) true (rt_pdu op) (rt_pdu_len op) (rt_value_len op)) in
  let first := rt_pdu_len op =? 0 in
  let vlen := if first then Z.min (Z.min (u32 (mtu - 4)) 253) (zlen value) else rt_value_len op in
  pdu ← (if first then memcpy_at (rt_pdu op) 0 [u8 (vlen + 2)] else Some (rt_pdu op));
  let len := if first then 1 else rt_pdu_len op in
  let op := mkByType (rt_chan op) (rt_opcode op) (rt_done op) pdu len vlen in
  if negb first && negb (zlen value =? vlen) then stop op else
  if u32 (mtu - 1) <? len + vlen + 2 then stop op else
  pdu ← memcpy_at pdu len (put_le16 handle);
  d ← memread value 0 vlen;
  pdu ← memcpy_at pdu (len + 2) d;
  let len := len + vlen + 2 in
  Some (mkByType (rt_chan op) (rt_opcode op) (len =? u32 (mtu - 1)) pdu len vlen).

(** The callback on an attribute; [next] is [process_read_by_type] of what is left. *)
Definition read_by_type_read_complete_cb (next : read_by_type_op -> server -> option server)
    (a : aptr) (err : Z) (value : list Z) (op : read_by_type_op) (s : server) : option server :=
  h ← gatt_db_attribute_get_handle (Some a) (g_db s);
  if negb (err =? 0)
  then Some (async_read_op_destroy
               (bt_att_chan_send_error_rsp (rt_chan op) BT_ATT_OP_READ_BY_TYPE_REQ h err s))
  else op ← encode_read_by_type (g_att_mtu s) h value op; next op s.

Fixpoint process_read_by_type (db_data : list aptr) (op : read_by_type_op) (s : server) : option server :=
  let finish s :=
    d ← memread (rt_pdu op) 0 (rt_pdu_len op);
    Some (async_read_op_destroy (bt_att_chan_send_rsp (rt_chan op) BT_ATT_OP_READ_BY_TYPE_RSP d s)) in
  match db_data with
  | [] => finish s
  | a :: db_data' =>
      if rt_done op then finish s else
      ecode ← check_permissions a READ_MASK s;
      if negb (ecode =? 0)
      then h ← gatt_db_attribute_get_handle (Some a) (g_db s);
           Some (async_read_op_destroy
                   (bt_att_chan_send_error_rsp (rt_chan op) BT_ATT_OP_READ_BY_TYPE_REQ h ecode s))
      else
      '(r, s) ← attribute_read a 0 (rt_opcode op) (KByType op db_data') s;
      match r with
      | None => Some s
      | Some (err, value) =>
          read_by_type_read_complete_cb (fun op s => process_read_by_type db_data' op s) a err value op s
      end
  end.

Definition read_by_type_cb (chan opcode : Z) (pdu : list Z) (s : server) : option server :=
  let fail ehandle ecode s := Some (bt_att_chan_send_error_rsp chan opcode ehandle ecode s) in
  if negb (zlen pdu =? 6) && negb (zlen pdu =? 20) then fail 0 BT_ATT_ERROR_INVALID_PDU s else
  let start := get_le (slice 0 2 pdu) in
  let stop := get_le (slice 2 2 pdu) in
  type ← get_uuid_le (drop 4 pdu);
  if (start =? 0) || (stop =? 0) then fail 0 BT_ATT_ERROR_INVALID_HANDLE s else
  if stop <? start then fail start BT_ATT_ERROR_INVALID_HANDLE s else
  q ← gatt_db_read_by_type start stop type (g_db s);
  if isNil q then fail start BT_ATT_ERROR_ATTRIBUTE_NOT_FOUND s else
  if g_pending_read_op s then fail start BT_ATT_ERROR_UNLIKELY s else
  process_read_by_type q (mkByType chan opcode false (buffer (g_att_mtu s)) 0 0) (set_g_pending_read_op true s).

(** ** Find Information *)

(** The loop of [encode_find_info_rsp]; [ulen] is [uuid_len] once it is set. *)
Fixpoint encode_find_info (q : list aptr) (mtu iter ulen : Z) (pdu : list Z) (db : gatt_db)
  : option (option (list Z * Z)) :=
  match q with
  | [] => Some (Some (pdu, u16 iter))
  | a :: q' =>
      h ← gatt_db_attribute_get_handle (Some a) db;
      t ← gatt_db_attribute_get_type (Some a) db;
      type ← t;
      if h =? 0 then Some None else
      let cur := bt_uuid_len type in
      let first := iter =? 0 in
      if first && negb (cur =? 2) && negb (cur =? 4) && negb (cur =? 16) then Some None else
      let ulen := if first then (if cur =? 2 then 2 else 16) else ulen in
      pdu ← (if first then memcpy_at pdu 0 [if cur =? 2 then 1 else 2] else Some pdu);
      let iter := if first then 1 else iter in
      if negb first && negb (cur =? ulen) then Some (Some (pdu, u16 iter)) else
      if mtu - 1 <? iter + ulen + 2 then Some (Some (pdu, u16 iter)) else
      pdu ← memcpy_at pdu iter (put_le16 h);
      pdu ← memcpy_at pdu (iter + 2) (bt_uuid_to_le type).2;
      encode_find_info q' mtu (iter + ulen + 2) ulen pdu db
  end.

Definition find_info_cb (chan opcode : Z) (pdu : list Z) (s : server) : option server :=
  let mtu := g_att_mtu s in
  let fail ehandle ecode s := Some (bt_att_chan_send_error_rsp chan opcode ehandle ecode s) in
  if negb (zlen pdu =? 4) then fail 0 BT_ATT_ERROR_INVALID_PDU s else
  let start := get_le (slice 0 2 pdu) in
  let stop := get_le (slice 2 2 pdu) in
  if (start =? 0) || (stop =? 0) then fail 0 BT_ATT_ERROR_INVALID_HANDLE s else
  if stop <? start then fail start BT_ATT_ERROR_INVALID_HANDLE s else
  q ← gatt_db_find_information start stop (g_db s);
  if isNil q then fail start BT_ATT_ERROR_ATTRIBUTE_NOT_FOUND s else
  r ← encode_find_info q mtu 0 0 (buffer mtu) (g_db s);
  match r with
  | None => fail start BT_ATT_ERROR_UNLIKELY s
  | Some (rsp_pdu, rsp_len) =>
      d ← memread rsp_pdu 0 rsp_len;
      Some (bt_att_chan_send_rsp chan BT_ATT_OP_FIND_INFO_RSP d s)
  end.

(** ** Find By Type Value *)

(** [find_by_type_val_att_cb] on the attributes found; the buffer, its length
    and the error code.  [gatt_db_attribute_get_service_data] is asked for the
    handles only. *)
Fixpoint find_by_type_val_att (l : list aptr) (mtu : Z) (pdu : list Z) (len ecode : Z) (db : gatt_db)
  : option (list Z * Z * Z) :=
  match l with
  | [] => Some (pdu, len, ecode)
  | a :: l' =>
      if negb (ecode =? 0) then find_by_type_val_att l' mtu pdu len ecode db else
      if mtu - 1 <? len + 4 then find_by_type_val_att l' mtu pdu len ecode db else
      r ← gatt_db_attribute_get_service_handles (Some a) db;
      '(h, end_handle) ← r;
      if (h =? 0) || (end_handle =? 0)
      then find_by_type_val_att l' mtu pdu len BT_ATT_ERROR_UNLIKELY db else
      pdu ← memcpy_at pdu len (put_le16 h);
      pdu ← memcpy_at pdu (len + 2) (put_le16 end_handle);
      find_by_type_val_att l' mtu pdu (u16 (len + 4)) 0 db
  end.

Definition find_by_type_val_cb (chan opcode : Z) (pdu : list Z) (s : server) : option server :=
  let mtu := g_att_mtu s in
  let fail ehandle ecode s := Some (bt_att_chan_send_error_rsp chan opcode ehandle ecode s) in
  if zlen pdu <? 6 then fail 0 BT_ATT_ERROR_INVALID_PDU s else
  let start := get_le (slice 0 2 pdu) in
  let stop := get_le (slice 2 2 pdu) in
  let uuid16 := get_le (slice 4 2 pdu) in
  if stop <? start then fail start BT_ATT_ERROR_INVALID_HANDLE s else
  r ← gatt_db_find_by_type_value (junk 0) start stop (bt_uuid16_create uuid16) (drop 6 pdu) (g_db s);
  '(rsp, len, ecode) ← find_by_type_val_att r.2 mtu (buffer mtu) 0 0 (g_db s);
  let ecode := if len =? 0 then BT_ATT_ERROR_ATTRIBUTE_NOT_FOUND else ecode in
  if negb (ecode =? 0) then fail start ecode s else
  d ← memread rsp 0 len;
  Some (bt_att_chan_send_rsp chan BT_ATT_OP_FIND_BY_TYPE_RSP d s).

(** ** Write Request and Write Command *)

Definition async_write_op_destroy (s : server) : server := set_g_pending_write_op false s.

Definition write_complete_cb (a : aptr) (err chan opcode : Z) (s : server) : option server :=
  if opcode =? BT_ATT_OP_WRITE_CMD then Some (async_write_op_destroy s) else
  h ← gatt_db_attribute_get_handle (Some a) (g_db s);
  Some (async_write_op_destroy
          (if negb (err =? 0) then bt_att_chan_send_error_rsp chan opcode h err s
           else bt_att_chan_send_rsp chan BT_ATT_OP_WRITE_RSP [] s)).

Definition write_cb (chan opcode : Z) (pdu : list Z) (s : server) : option server :=
  let fail h ecode s :=
    Some (if opcode =? BT_ATT_OP_WRITE_CMD then s else bt_att_chan_send_error_rsp chan opcode h ecode s) in
  if zlen pdu <? 2 then fail 0 BT_ATT_ERROR_INVALID_PDU s else
  let ecode := authorize_req s opcode 0 in
  if negb (ecode =? 0) then fail 0 ecode s else
  let h := get_le (slice 0 2 pdu) in
  r ← gatt_db_get_attribute h (g_db s);
  match r with
  | None => fail h BT_ATT_ERROR_INVALID_HANDLE s
  | Some a =>
      ecode ← check_permissions a WRITE_MASK s;
      if negb (ecode =? 0) then fail h ecode s else
      if g_pending_write_op s then fail h BT_ATT_ERROR_UNLIKELY s else
      '(r, s) ← attribute_write a 0 (drop 2 pdu) opcode (KWrite chan opcode) (set_g_pending_write_op true s);
      match r with
      | None => Some s
      | Some err => write_complete_cb a err chan opcode s
      end
  end.

(** ** Read Request and Read Blob Request *)

Definition read_complete_cb (a : aptr) (err : Z) (value : list Z) (chan opcode : Z) (s : server)
  : option server :=
  h ← gatt_db_attribute_get_handle (Some a) (g_db s);
  if negb (err =? 0)
  then Some (async_read_op_destroy (bt_att_chan_send_error_rsp chan opcode h err s))
  else
    d ← memread value 0 (u16 (Z.min (u32 (g_att_mtu s - 1)) (zlen value)));
    Some (async_read_op_destroy (bt_att_chan_send_rsp chan (get_read_rsp_opcode opcode) d s)).

Definition handle_read_req (chan opcode h offset : Z) (s : server) : option server :=
  let fail ecode s := Some (bt_att_chan_send_error_rsp chan opcode h ecode s) in
  let ecode := authorize_req s opcode h in
  if negb (ecode =? 0) then fail ecode s else
  r ← gatt_db_get_attribute h (g_db s);
  match r with
  | None => fail BT_ATT_ERROR_INVALID_HANDLE s
  | Some a =>
      ecode ← check_permissions a READ_MASK s;
      if negb (ecode =? 0) then fail ecode s else
      if g_pending_read_op s then fail BT_ATT_ERROR_UNLIKELY s else
      '(r, s) ← attribute_read a offset opcode (KRead chan opcode) (set_g_pending_read_op true s);
      match r with
      | None => Some s
      | Some (err, value) => read_complete_cb a err value chan opcode s
      end
  end.

Definition read_cb (chan opcode : Z) (pdu : list Z) (s : server) : option server :=
  if negb (zlen pdu =? 2) then Some (bt_att_chan_send_error_rsp chan opcode 0 BT_ATT_ERROR_INVALID_PDU s)
  else handle_read_req chan opcode (get_le (slice 0 2 pdu)) 0 s.

Definition read_blob_cb (chan opcode : Z) (pdu : list Z) (s : server) : option server :=
  if negb (zlen pdu =? 4) then Some (bt_att_chan_send_error_rsp chan opcode 0 BT_ATT_ERROR_INVALID_PDU s)
  else handle_read_req chan opcode (get_le (slice 0 2 pdu)) (get_le (slice 2 2 pdu)) s.

(** ** Read Multiple *)

(** What [read_multiple_complete_cb] does with a value: the lengths are those of
    [size_t]s, [data->length] is never above [data->mtu]. *)
Definition encode_read_multiple (value : list Z) (data : read_mult_data) : option read_mult_data :=
  let vl := rm_opcode data =? BT_ATT_OP_READ_MULT_VL_REQ in
  let room := rm_mtu data - rm_length data in
  let length := u16 (if vl then Z.min (zlen value) (Z.max room 3 - 3) else Z.min (zlen value) (room - 1)) in
  let tuple := vl && (3 <=? room) in
  rsp ← (if tuple then memcpy_at (rm_rsp_data data) (rm_length data) (put_le16 (zlen value))
         else Some (rm_rsp_data data));
  let len := if tuple then rm_length data + 2 else rm_length data in
  d ← memread value 0 length;
  rsp ← memcpy_at rsp len d;
  Some (mkMult (rm_chan data) (rm_opcode data) rsp (len + length) (rm_mtu data)).

Definition read_multiple_complete_cb (next : read_mult_data -> server -> option server)
    (a : aptr) (err : Z) (value : list Z) (data : read_mult_data) (s : server) : option server :=
  h ← gatt_db_attribute_get_handle (Some a) (g_db s);
  if negb (err =? 0)
  then Some (bt_att_chan_send_error_rsp (rm_chan data) (rm_opcode data) h (u8 err) s)
  else data ← encode_read_multiple value data; next data s.

(** From the handle to read on; the server is followed through [data->server],
    which nothing clears. *)
Fixpoint read_multiple (handles : list Z) (data : read_mult_data) (s : server) : option server :=
  match handles with
  | [] =>
      d ← memread (rm_rsp_data data) 0 (u16 (rm_length data));
      Some (bt_att_chan_send_rsp (rm_chan data) (u8 (rm_opcode data + 1)) d s)
  | h :: handles' =>
      let fail ecode s := Some (bt_att_chan_send_error_rsp (rm_chan data) (rm_opcode data) h ecode s) in
      if negb (g_alive s) then None else
      r ← gatt_db_get_attribute h (g_db s);
      match r with
      | None => fail BT_ATT_ERROR_INVALID_HANDLE s
      | Some a =>
          ecode ← check_permissions a READ_MASK s;
          if negb (ecode =? 0) then fail ecode s else
          '(r, s) ← attribute_read a 0 (rm_opcode data) (KMult data handles') s;
          match r with
          | None => Some s
          | Some (err, value) =>
              read_multiple_complete_cb (fun data s => read_multiple handles' data s) a err value data s
          end
      end
  end.

Definition read_mult_data_new (chan opcode : Z) (s : server) : read_mult_data :=
  mkMult chan opcode (replicate (Z.to_nat (g_att_mtu s - 1)) 0) 0 (g_att_mtu s).

(** The handles of the PDU, two bytes each. *)
Fixpoint handles_of (n : nat) (pdu : list Z) : list Z :=
  match n with
  | O => []
  | Datatypes.S n' => get_le (take 2 pdu) :: handles_of n' (drop 2 pdu)
  end.

Definition read_multiple_cb (chan opcode : Z) (pdu : list Z) (s : server) : option server :=
  if zlen pdu <? 4 then Some (bt_att_chan_send_error_rsp chan opcode 0 BT_ATT_ERROR_INVALID_PDU s)
  else read_multiple (handles_of (Z.to_nat (zlen pdu / 2)) pdu) (read_mult_data_new chan opcode s) s.

(** ** Prepare Write *)

Definition BT_GATT_CHRC_PROP_EXT_PROP : Z := 0x80.
Definition BT_GATT_CHRC_EXT_PROP_RELIABLE_WRITE : Z := 0x01.

(** [read_ext_prop] on the descriptors of a characteristic ([gatt-db.c]), the
    value found so far in [ext]. *)
Fixpoint read_ext_prop (l : list aptr) (ext : Z) (s : server) : option (Z * server) :=
  match l with
  | [] => Some (ext, s)
  | a :: l' =>
      if negb (ext =? 0) then read_ext_prop l' ext s else
      A ← get_attr a (g_db s);
      same ← uuid_eq ext_desc_uuid (uuid A);
      if negb same then read_ext_prop l' ext s else
      '(r, s) ← attribute_read a 0 BT_ATT_OP_READ_REQ KExtProp s;
      match r with
      | Some (err, v) =>
          if negb (err =? 0) || negb (zlen v =? 2) then read_ext_prop l' ext s
          else read_ext_prop l' (default 0 (head v)) s
      | None => read_ext_prop l' ext s
      end
  end.

Definition get_char_extended_prop (a : aptr) (s : server) : option (Z * server) :=
  A ← get_attr a (g_db s);
  same ← uuid_eq characteristic_uuid (uuid A);
  if negb same then Some (0, s) else
  props ← memread (value A) 0 1;
  if Z.land (be_value props) BT_GATT_CHRC_PROP_EXT_PROP =? 0 then Some (0, s) else
  l ← gatt_db_service_foreach_desc (Some a) (g_db s);
  '(ext, s) ← read_ext_prop l 0 s;
  Some (u8 ext, s).

(** [gatt_db_attribute_get_char_data] for the extended properties alone. *)
Definition is_reliable_write_supported (h : Z) (s : server) : option (bool * server) :=
  r ← gatt_db_get_attribute h (g_db s);
  match r with
  | None => Some (false, s)
  | Some a =>
      A ← get_attr a (g_db s);
      same ← uuid_eq characteristic_uuid (uuid A);
      if negb same || match value A with [] => true | _ => false end ||
         (negb (value_len A =? 5) && negb (value_len A =? 19)) then Some (false, s) else
      '(ext, s) ← get_char_extended_prop a s;
      Some (negb (Z.land ext BT_GATT_CHRC_EXT_PROP_RELIABLE_WRITE =? 0), s)
  end.

(** [append_prep_data]: the length is a uint16_t, the buffer is reallocated to
    it. *)
Definition append_prep_data (data : list Z) (p : prep_write_data) : option prep_write_data :=
  if zlen data =? 0 then Some p else
  let len := u16 (pw_length p + zlen data) in
  val ← memcpy_at (realloc junk (pw_value p) len) (pw_length p) data;
  Some (mkPrep val (pw_handle p) (pw_offset p) len (reliable_supported p)).

Definition prep_data_new (h offset : Z) (data : list Z) (s : server) : option server :=
  p ← append_prep_data data (mkPrep [] 0 0 0 false);
  '(rel, s) ← is_reliable_write_supported (u16 (h - 1)) s;
  Some (set_g_prep_queue (g_prep_queue s ++ [mkPrep (pw_value p) h offset (pw_length p) rel]) s).

Definition store_prep_data (h offset : Z) (data : list Z) (s : server) : option server :=
  match last (g_prep_queue s) with
  | Some p =>
      if (pw_handle p =? h) && (offset =? pw_length p + pw_offset p)
      then p ← append_prep_data data p;
           Some (set_g_prep_queue (take (length (g_prep_queue s) - 1) (g_prep_queue s) ++ [p]) s)
      else prep_data_new h offset data s
  | None => prep_data_new h offset data s
  end.

(** [pwcd->pdu] is [pdu]; the server is followed through [pwcd->server]. *)
Definition prep_write_complete_cb (err chan : Z) (pdu : list Z) (s : server) : option server :=
  let h := get_le (slice 0 2 pdu) in
  if negb (err =? 0) then Some (bt_att_chan_send_error_rsp chan BT_ATT_OP_PREP_WRITE_REQ h err s) else
  if negb (g_alive s) then None else
  s ← store_prep_data h (get_le (slice 2 2 pdu)) (drop 4 pdu) s;
  Some (bt_att_chan_send_rsp chan BT_ATT_OP_PREP_WRITE_RSP pdu s).

Definition prep_write_cb (chan opcode : Z) (pdu : list Z) (s : server) : option server :=
  let fail h ecode s := Some (bt_att_chan_send_error_rsp chan opcode h ecode s) in
  if zlen pdu <? 4 then fail 0 BT_ATT_ERROR_INVALID_PDU s else
  if g_max_prep_queue_len s <=? zlen (g_prep_queue s) then fail 0 BT_ATT_ERROR_PREPARE_QUEUE_FULL s else
  let h := get_le (slice 0 2 pdu) in
  let offset := get_le (slice 2 2 pdu) in
  r ← gatt_db_get_attribute h (g_db s);
  match r with
  | None => fail h BT_ATT_ERROR_INVALID_HANDLE s
  | Some a =>
      ecode ← check_permissions a WRITE_MASK s;
      if negb (ecode =? 0) then fail h ecode s else
      '(r, s) ← attribute_write a offset [] BT_ATT_OP_PREP_WRITE_REQ (KPrep chan pdu) s;
      match r with
      | None => Some s
      | Some err => prep_write_complete_cb err chan pdu s
      end
  end.

(** ** Execute Write *)

Definition exec_write_failed (chan ehandle err : Z) (s : server) : option server :=
  Some (bt_att_chan_send_error_rsp chan BT_ATT_OP_EXEC_WRITE_REQ ehandle err (set_g_prep_queue [] s)).

(** The loop of [exec_next_prep_write] and [exec_write_complete_cb] over what is
    in [g_prep_queue]. *)
Fixpoint exec_prep_queue (q : list prep_write_data) (chan ehandle err : Z) (s : server) : option server :=
  if negb (err =? 0) then exec_write_failed chan ehandle err s else
  match q with
  | [] => Some (bt_att_chan_send_rsp chan BT_ATT_OP_EXEC_WRITE_RSP [] s)
  | p :: q' =>
      let s := set_g_prep_queue q' s in
      r ← gatt_db_get_attribute (pw_handle p) (g_db s);
      match r with
      | None => exec_write_failed chan ehandle BT_ATT_ERROR_UNLIKELY s
      | Some a =>
          data ← memread (pw_value p) 0 (pw_length p);
          '(r, s) ← attribute_write a (pw_offset p) data BT_ATT_OP_EXEC_WRITE_REQ (KExec chan) s;
          match r with
          | None => Some s
          | Some err =>
              h ← gatt_db_attribute_get_handle (Some a) (g_db s);
              exec_prep_queue q' chan h err s
          end
      end
  end.

(** The server is followed through [data->server], which nothing clears. *)
Definition exec_next_prep_write (chan ehandle err : Z) (s : server) : option server :=
  if negb (g_alive s) then None else exec_prep_queue (g_prep_queue s) chan ehandle err s.

Definition exec_write_complete_cb (a : aptr) (err chan : Z) (s : server) : option server :=
  h ← gatt_db_attribute_get_handle (Some a) (g_db s);
  exec_next_prep_write chan h err s.

Definition find_no_reliable_characteristic (q : list prep_write_data) : option prep_write_data :=
  snd <$> list_find (fun p => reliable_supported p = false) q.

Definition exec_write_cb (chan opcode : Z) (pdu : list Z) (s : server) : option server :=
  let fail ehandle ecode :=
    Some (bt_att_chan_send_error_rsp chan opcode ehandle ecode (set_g_prep_queue [] s)) in
  match pdu with
  | [flags] =>
      if flags =? 0
      then Some (bt_att_chan_send_rsp chan BT_ATT_OP_EXEC_WRITE_RSP [] (set_g_prep_queue [] s))
      else if flags =? 1 then
        match (if 1 <? zlen (g_prep_queue s) then find_no_reliable_characteristic (g_prep_queue s) else None) with
        | Some p => fail (pw_handle p) BT_ATT_ERROR_REQUEST_NOT_SUPPORTED
        | None => exec_next_prep_write chan 0 0 s
        end
      else fail 0 BT_ATT_ERROR_INVALID_PDU
  | _ => fail 0 BT_ATT_ERROR_INVALID_PDU
  end.

(** ** Exchange MTU *)

(** [bt_att_set_mtu] raises what [bt_att_get_mtu] returns, never lowers it. *)
Definition exchange_mtu_cb (chan opcode : Z) (pdu : list Z) (s : server) : option server :=
  if negb (zlen pdu =? 2) then Some (bt_att_chan_send_error_rsp chan opcode 0 BT_ATT_ERROR_INVALID_PDU s) else
  let final_mtu := Z.max (Z.min (get_le pdu) (g_mtu s)) BT_ATT_DEFAULT_LE_MTU in
  let s := bt_att_chan_send_rsp chan BT_ATT_OP_MTU_RSP (put_le16 (g_mtu s)) s in
  Some (set_g_att_mtu (Z.max (g_att_mtu s) final_mtu) (set_g_mtu final_mtu s)).

(** ** Notifications and indications *)

Definition bt_gatt_server_send_notification (h : Z) (val : list Z) (multiple : bool) (s : server)
  : option server :=
  let len := u16 (g_att_mtu s - 1) in
  let data := match g_nfy_mult s with
              | Some d => if multiple then d else mkNfy (buffer len) 0 len
              | None => mkNfy (buffer len) 0 len
              end in
  pdu ← memcpy_at (nm_pdu data) (nm_offset data) (put_le16 h);
  let offset := u16 (nm_offset data + 2) in
  let length := u16 (Z.min (nm_len data - offset) (zlen val)) in
  pdu ← (if multiple then memcpy_at pdu offset (put_le16 length) else Some pdu);
  let offset := if multiple then u16 (offset + 2) else offset in
  d ← memread val 0 length;
  pdu ← memcpy_at pdu offset d;
  let offset := u16 (offset + length) in
  if multiple then Some (set_g_nfy_mult (Some (mkNfy pdu offset (nm_len data))) s)
  else d ← memread pdu 0 offset; Some (bt_att_send BT_ATT_OP_HANDLE_NFY d s).

(** The timer that [bt_gatt_server_send_notification] arms with the first
    notification of a batch; it keeps the pointer to the server. *)
Definition notify_multiple (s : server) : option server :=
  match g_nfy_mult s with
  | None => Some s
  | Some d =>
      if negb (g_alive s) then None else
      pdu ← memread (nm_pdu d) 0 (nm_offset d);
      Some (set_g_nfy_mult None (bt_att_send BT_ATT_OP_HANDLE_NFY_MULT pdu s))
  end.

Definition bt_gatt_server_send_indication (h : Z) (val : list Z) (s : server) : option server :=
  let pdu_len := u16 (Z.min (g_att_mtu s - 1) (zlen val + 2)) in
  pdu ← memcpy_at (buffer pdu_len) 0 (put_le16 h);
  d ← memread val 0 (pdu_len - 2);
  pdu ← memcpy_at pdu 2 d;
  Some (bt_att_send BT_ATT_OP_HANDLE_IND pdu s).

(** ** Life cycle *)

Definition bt_gatt_server_new (db : gatt_db) (att_mtu mtu min_enc_size : Z) : server :=
  mkServer db ∅ 1 (Z.max mtu BT_ATT_DEFAULT_LE_MTU) att_mtu 0 0 min_enc_size [] DEFAULT_MAX_PREP_QUEUE_LEN
    false false None None 1 ∅ true [] [].

Definition bt_gatt_server_get_mtu (s : server) : Z := g_att_mtu s.
Definition bt_gatt_server_ref (s : server) : server := set_g_ref_count (g_ref_count s + 1) s.
Definition bt_gatt_server_set_authorize (cb : option Z) (s : server) : server := set_g_authorize cb s.

(** The operation that is pending as a read or as a write loses its server. *)
Definition clear_server (k : continuation) : continuation :=
  match k with KByType _ _ | KRead _ _ | KWrite _ _ => KOrphan | _ => k end.

Definition bt_gatt_server_free (s : server) : server :=
  set_g_alive false (set_g_prep_queue [] (set_g_waiting (clear_server <$> g_waiting s) s)).
Definition bt_gatt_server_unref (s : server) : server :=
  let s := set_g_ref_count (g_ref_count s - 1) s in
  if negb (g_ref_count s =? 0) then s else bt_gatt_server_free s.

(** ** What happens to a server *)

(** [gatt_server_register_att_handlers]: the handler of each opcode. *)
Definition server_request (chan opcode : Z) (pdu : list Z) (s : server) : option server :=
  if negb (g_alive s) then Some s
  else if opcode =? BT_ATT_OP_MTU_REQ then exchange_mtu_cb chan opcode pdu s
  else if opcode =? BT_ATT_OP_READ_BY_GRP_TYPE_REQ then read_by_grp_type_cb chan opcode pdu s
  else if opcode =? BT_ATT_OP_READ_BY_TYPE_REQ then read_by_type_cb chan opcode pdu s
  else if opcode =? BT_ATT_OP_FIND_INFO_REQ then find_info_cb chan opcode pdu s
  else if opcode =? BT_ATT_OP_FIND_BY_TYPE_REQ then find_by_type_val_cb chan opcode pdu s
  else if (opcode =? BT_ATT_OP_WRITE_REQ) || (opcode =? BT_ATT_OP_WRITE_CMD) then write_cb chan opcode pdu s
  else if opcode =? BT_ATT_OP_READ_REQ then read_cb chan opcode pdu s
  else if opcode =? BT_ATT_OP_READ_BLOB_REQ then read_blob_cb chan opcode pdu s
  else if (opcode =? BT_ATT_OP_READ_MULT_REQ) || (opcode =? BT_ATT_OP_READ_MULT_VL_REQ)
  then read_multiple_cb chan opcode pdu s
  else if opcode =? BT_ATT_OP_PREP_WRITE_REQ then prep_write_cb chan opcode pdu s
  else if opcode =? BT_ATT_OP_EXEC_WRITE_REQ then exec_write_cb chan opcode pdu s
  else Some s.

(** The callback of a read or write that was pending on [a]. *)
Definition resume (a : aptr) (k : continuation) (err : Z) (value : list Z) (s : server) : option server :=
  match k with
  | KByType op db_data =>
      read_by_type_read_complete_cb (fun op s => process_read_by_type db_data op s) a err value op s
  | KRead chan opcode => read_complete_cb a err value chan opcode s
  | KMult data handles =>
      read_multiple_complete_cb (fun data s => read_multiple handles data s) a err value data s
  | KWrite chan opcode => write_complete_cb a err chan opcode s
  | KPrep chan pdu => prep_write_complete_cb err chan pdu s
  | KExec chan => exec_write_complete_cb a err chan s
  | KStack => None
  | KExtProp => if negb (err =? 0) || negb (zlen value =? 2) then Some s else None
  | KOrphan => Some s
  end.

(** The answer an operation of [GattAttr] gave, if it gave one to the server. *)
Definition after_result (a : aptr) (l : list attr_event) (s : server) : option server :=
  match l with
  | [ERead (Some key) _ err value] =>
      match g_waiting s !! key with
      | Some k => resume a k err value (set_g_waiting (delete key (g_waiting s)) s)
      | None => Some s
      end
  | [EWritten (Some key) _ err] =>
      match g_waiting s !! key with
      | Some k => resume a k err [] (set_g_waiting (delete key (g_waiting s)) s)
      | None => Some s
      end
  | _ => Some s
  end.

(** A timer runs the timeout of the read or of the write it was armed for. *)
Definition timer_fires (t : Z) (st : attr_state) : option attr_state :=
  match read_timeout t st with Some st' => Some st' | None => Some (default st (write_timeout t st)) end.

Inductive server_op :=
| SRequest (chan opcode : Z) (pdu : list Z)
| SReadResult (a : aptr) (id err : Z) (data : list Z)    (* gatt_db_attribute_read_result *)
| SWriteResult (a : aptr) (id err : Z)
| STimer (a : aptr) (t : Z)                              (* the timer of something pending on [a] *)
| SNotify (h : Z) (val : list Z) (multiple : bool)
| SNotifyTimer
| SIndicate (h : Z) (val : list Z)
| SAuthorize (cb : option Z)
| SSecurity (level enc_size : Z)                         (* the link is encrypted, or not any more *)
| SRef
| SUnref.

Definition server_step (o : server_op) (s : server) : option server :=
  match o with
  | SRequest chan opcode pdu => server_request chan opcode pdu s
  | SReadResult a id err data =>
      '(l, s) ← on_attr a (fun st => Some (gatt_db_attribute_read_result id err data st).2) s;
      after_result a l s
  | SWriteResult a id err =>
      '(l, s) ← on_attr a (fun st => Some (gatt_db_attribute_write_result id err st).2) s;
      after_result a l s
  | STimer a t =>
      '(l, s) ← on_attr a (timer_fires t) s;
      after_result a l s
  | SNotify h val multiple => bt_gatt_server_send_notification h val multiple s
  | SNotifyTimer => notify_multiple s
  | SIndicate h val => bt_gatt_server_send_indication h val s
  | SAuthorize cb => Some (bt_gatt_server_set_authorize cb s)
  | SSecurity level size => Some (set_g_enc_size size (set_g_security level s))
  | SRef => Some (bt_gatt_server_ref s)
  | SUnref => Some (bt_gatt_server_unref s)
  end.

Fixpoint server_run (os : list server_op) (s : server) : option server :=
  match os with [] => Some s | o :: os' => s ← server_step o s; server_run os' s end.

End Server.
