(* ===== verification/GattServerOk.v ===== *)
(** Proofs about the GATT server of [GattServer]: its invariant, that every
    request is answered once, what is read and written. *)
From S2P Require Import Prelude Uuid Att GattDb GattAttr GattServer.

(** ** The database below the server *)

(** What no operation of an attribute changes. *)
Definition static (A : gatt_db_attribute) :=
  (handle A, uuid A, permissions A, read_func A, write_func A).
Definition static_at (db : gatt_db) (a : aptr) := static <$> get_attr a db.

Lemma attrs_of_insert sv i A A' :
  service_wf sv -> attrs_of sv !! i = Some A ->
  attrs_of (set_attributes (<[i := Some A']> (attributes sv)) sv) = <[i := A']> (attrs_of sv).
Proof.
  intros Hwf Hi. destruct (wf_prefix sv Hwf) as [k Hk].
  set (As := attrs_of sv) in *. unfold attrs_of. cbn [attributes set_attributes].
  rewrite Hk, insert_app_l by (rewrite List.length_map; by eapply lookup_lt_Some).
  replace (<[i := Some A']> (map Some As)) with (map Some (<[i := A']> As))
    by (unfold map; apply (list_fmap_insert Some As i A')).
  rewrite omap_app, omap_replicate_None, app_nil_r.
  generalize (<[i := A']> As). intros l. induction l; cbn; congruence.
Qed.

Lemma put_service_wf sv i A A' :
  service_wf sv -> attrs_of sv !! i = Some A -> static A' = static A -> (i = O -> decl_ok A') ->
  let sv' := set_attributes (<[i := Some A']> (attributes sv)) sv in
  service_wf sv' /\ svc_start sv' = svc_start sv.
Proof.
  intros Hwf Hi Hst Hd sv'. pose proof (attrs_of_insert sv i A A' Hwf Hi) as Hat. fold sv' in Hat.
  assert (Hh : handle A' = handle A) by (unfold static in Hst; congruence).
  assert (Hu : uuid A' = uuid A) by (unfold static in Hst; congruence).
  assert (Hmap : map handle (attrs_of sv') = map handle (attrs_of sv)).
  { rewrite Hat. change (handle <$> <[i := A']> (attrs_of sv) = handle <$> attrs_of sv).
    rewrite list_fmap_insert, Hh. apply list_insert_id. by rewrite list_lookup_fmap, Hi. }
  destruct (wf_attrs sv Hwf) as (A0 & As & HA0 & Hf0).
  assert (Hstart : svc_start sv' = svc_start sv).
  { destruct Hwf as [(B & rest & Hl & _) _ _ _ _ _]. unfold svc_start, first_attr, sv' in *.
    cbn [attributes set_attributes] in *. rewrite Hl in *. destruct i as [|i]; cbn in *; [|done].
    rewrite HA0 in Hi. cbn in *. congruence. }
  assert (Hend : svc_end sv' = svc_end sv) by (unfold svc_end; by rewrite Hstart).
  split; [|done]. destruct Hwf as [(B & rest & Hl & HB) Hlen [k Hk] Hs Hin Hr]. split.
  - unfold sv'. cbn. rewrite Hl in *. destruct i as [|i]; cbn; eauto.
  - unfold sv', zlen in *; cbn. by rewrite length_insert.
  - exists k. rewrite Hat. unfold sv' at 1. cbn [attributes set_attributes]. rewrite Hk at 1.
    rewrite insert_app_l by (rewrite List.length_map; by eapply lookup_lt_Some).
    f_equal. symmetry. apply (list_fmap_insert Some).
  - by rewrite Hmap.
  - rewrite Hat, Hend. apply Forall_insert; [done|]. rewrite Forall_forall in Hin.
    rewrite Hh, Hu. apply Hin. by eapply list_elem_of_lookup_2.
  - by rewrite Hstart, Hend.
Qed.

(** Writing an attribute back. *)
Lemma put_attr_spec db a A A' :
  db_wf db -> get_attr a db = Some A -> static A' = static A -> (a.2 = O -> decl_ok A') ->
  exists db', put_attr a A' db = Some db' /\ db_wf db' /\ get_attr a db' = Some A' /\
    (forall b, b <> a -> get_attr b db' = get_attr b db) /\ services db' = services db.
Proof.
  intros Hwf Ha Hst Hd. destruct a as [s i].
  apply (get_attr_spec db s i A Hwf) in Ha as (sv & Hs & Hi). cbn [fst snd] in *.
  destruct (put_service_wf sv i A A' (wf_services db Hwf s sv Hs) Hi Hst Hd) as [Hwf' Hstart].
  unfold put_attr. cbn [fst snd]. rewrite Hs. cbn [mbind option_bind].
  assert (Hwf2 : db_wf (set_service s (set_attributes (<[i := Some A']> (attributes sv)) sv) db))
    by by eapply set_service_wf.
  assert (Hlen : (i < length (attributes sv))%nat).
  { apply (attr_lookup sv i A (wf_services db Hwf s sv Hs)) in Hi. by eapply lookup_lt_Some. }
  eexists. split_and!; [done|done| | |done].
  - unfold get_attr. cbn. by rewrite lookup_insert_eq; cbn; rewrite list_lookup_insert_eq.
  - intros [t j] Hne. unfold get_attr. cbn. destruct (decide (t = s)) as [->|Ht].
    + rewrite lookup_insert_eq, Hs. cbn. by rewrite list_lookup_insert_ne by congruence.
    + by rewrite lookup_insert_ne.
Qed.

Lemma put_attr_same db a A : get_attr a db = Some A -> put_attr a A db = Some db.
Proof.
  unfold get_attr, put_attr. destruct (svc_heap db !! a.1) as [sv|] eqn:Hs; cbn; [|done].
  destruct (attributes sv !! a.2) as [o|] eqn:Hi; cbn; [|done]. intros ->. f_equal.
  rewrite list_insert_id by done. destruct db, sv. unfold set_service, set_attributes. cbn in *.
  by rewrite insert_id.
Qed.

(** A declaration of a service is kept in the database and cannot be written;
    the descriptor the server itself reads is kept in the database. *)
Record attr_inv (a : aptr) (A : gatt_db_attribute) : Prop := mkAttrInv {
  ai_value : value_ok A;
  ai_decl : a.2 = O -> read_func A = None /\ write_func A = None /\ permissions A = BT_ATT_PERM_READ;
  ai_ext : bt_uuid_cmp ext_desc_uuid (uuid A) = Some 0 -> read_func A = None
}.

Record db_ok (db : gatt_db) : Prop := mkDbOk {
  do_wf : db_wf db;
  do_attrs : forall a A, get_attr a db = Some A -> attr_inv a A
}.

Definition pending_in (db : gatt_db) (t : Z) : Prop := exists a A, get_attr a db = Some A /\ t ∈ keys A.

(** The attribute can be written with the permissions it has. *)
Definition writable (A : gatt_db_attribute) : Prop :=
  permissions A = 0 \/ Z.land (permissions A) BT_ATT_PERM_WRITE <> 0.

(** [db'] is a later state of [db]: what is pending may have been joined, and
    [gone] may have left; values change only where writing is permitted. *)
Record db_next (gone : Z -> Prop) (db db' : gatt_db) : Prop := mkNext {
  dn_ok : db_ok db';
  dn_static : forall a, static_at db' a = static_at db a;
  dn_pending : forall t, pending_in db t -> gone t \/ pending_in db' t;
  dn_value : forall a A, get_attr a db = Some A -> ~ writable A -> exists A', get_attr a db' = Some A' /\
    value A' = value A /\ value_len A' = value_len A
}.

Definition none (t : Z) : Prop := False.

Lemma db_next_refl db : db_ok db -> db_next none db db.
Proof. intros H. split; [done|done|by right|]. intros a A HA _. by exists A. Qed.

Lemma static_get db db' a A :
  (forall a, static_at db' a = static_at db a) -> get_attr a db = Some A ->
  exists A', get_attr a db' = Some A' /\ static A' = static A.
Proof.
  intros Hst HA. specialize (Hst a). unfold static_at in Hst. rewrite HA in Hst.
  destruct (get_attr a db') as [A'|]; [|done]. cbn in Hst. exists A'. split; [done|congruence].
Qed.

Lemma decl_not_writable a A : attr_inv a A -> a.2 = O -> ~ writable A.
Proof. intros [_ Hd _] E [H|H]; destruct (Hd E) as (_ & _ & Hp); rewrite Hp in H; done. Qed.

(** An attribute is written back with other pending operations or another value. *)
Lemma put_attr_next gone db a A A' :
  db_ok db -> get_attr a db = Some A -> static A' = static A -> value_ok A' ->
  (writable A \/ value A' = value A /\ value_len A' = value_len A) ->
  (forall t, t ∈ keys A -> gone t \/ t ∈ keys A') ->
  exists db', put_attr a A' db = Some db' /\ db_next gone db db' /\ get_attr a db' = Some A'.
Proof.
  intros [Hwf Hin] Ha Hst Hv Hd Hk.
  assert (Hdecl : a.2 = O -> decl_ok A').
  { intros E. destruct Hd as [Hw|[Hv1 Hv2]]; [by destruct (decl_not_writable a A (Hin a A Ha) E)|].
    unfold decl_ok. rewrite Hv1, Hv2. fold (decl_ok A). destruct a as [s i]. cbn in E. subst i.
    apply (get_attr_spec db s 0 A Hwf) in Ha as (sv & Hs & Hi).
    destruct (wf_start sv (wf_services db Hwf s sv Hs)) as (B & HB & _ & Hok).
    destruct (wf_attrs sv (wf_services db Hwf s sv Hs)) as (C & As & HC & HB').
    rewrite HC in Hi. cbn in Hi. assert (A = B) as -> by congruence. exact Hok. }
  destruct (put_attr_spec db a A A' Hwf Ha Hst Hdecl) as (db' & E & Hwf' & Ha' & Hne & _).
  exists db'. split; [done|]. split; [|done].
  assert (Hget : forall b B', get_attr b db' = Some B' ->
    exists B, get_attr b db = Some B /\ static B' = static B /\ (b <> a -> B' = B) /\ (b = a -> B' = A')).
  { intros b B' HB. destruct (decide (b = a)) as [->|n].
    - exists A. rewrite Ha' in HB. injection HB as <-. by split_and!.
    - rewrite Hne in HB by done. exists B'. by split_and!. }
  split.
  - split; [done|]. intros b B' HB. destruct (Hget b B' HB) as (B & HB0 & Hs & Hn & He).
    destruct (Hin b B HB0) as [Hv' Hd' Hx]. unfold static in Hs.
    injection Hs as _ Hu Hp Hr Hf.
    split; [|by rewrite Hp, Hr, Hf|by rewrite Hu, Hr].
    destruct (decide (b = a)) as [E'|n]; [by rewrite (He E')|by rewrite (Hn n)].
  - intros b. unfold static_at. destruct (decide (b = a)) as [->|n]; [rewrite Ha', Ha; cbn; by rewrite Hst|].
    by rewrite Hne.
  - intros t (b & B & HB & Ht). destruct (decide (b = a)) as [->|n].
    + rewrite Ha in HB. injection HB as <-. destruct (Hk t Ht) as [|Ht']; [by left|]. right. exists a, A'. done.
    + right. exists b, B. by rewrite Hne.
  - intros b B HB Hnw. destruct (decide (b = a)) as [->|n].
    + rewrite Ha in HB. injection HB as <-. exists A'. split; [done|]. by destruct Hd.
    + exists B. by rewrite Hne.
Qed.

Section Attributes.
Context (authorize : option (Z -> Z)) (junk : Z -> Z).

(** The state after an operation was passed on to the client. *)
Definition deferred (a : aptr) (e : attr_event) (db' : gatt_db) (k : continuation) (s : server) : server :=
  wait (g_next_timer s) k (called a e
    (set_g_db db' (set_g_timers ({[g_next_timer s]} ∪ g_timers s) (set_g_next_timer (g_next_timer s + 1) s)))).

Lemma set_same s : set_g_db (g_db s) (set_g_timers (g_timers s) (set_g_next_timer (g_next_timer s) s)) = s.
Proof. by destruct s. Qed.

Lemma attribute_read_spec a A off op k s :
  db_ok (g_db s) -> get_attr a (g_db s) = Some A -> 0 <= off <= 65535 ->
  (exists err v, attribute_read authorize a off op k s = Some (Some (err, v), s) /\
     (read_func A = None -> off <= value_len A -> err = 0 /\ v = drop (Z.to_nat off) (stored A))) \/
  (exists cb id db', read_func A = Some cb /\
     attribute_read authorize a off op k s
     = Some (None, deferred a (EReadFunc (g_next_timer s) cb id off op) db' k s) /\
     db_next none (g_db s) db' /\ pending_in db' (g_next_timer s)).
Proof.
  intros Hok Ha Ho. pose proof (do_attrs _ Hok a A Ha) as Hin. pose proof (ai_value _ _ Hin) as [Hv1 Hv2].
  unfold attribute_read, on_attr. rewrite Ha. cbn [mbind option_bind]. unfold gatt_db_attribute_read.
  cbn [attr]. destruct (read_func A) as [cb|] eqn:Hr.
  - destruct (negb _) eqn:Eauth.
    { left. exists (attribute_authorize authorize op), []. cbn. rewrite (put_attr_same _ a A Ha). cbn.
      rewrite set_same. done. }
    right. cbn -[put_attr]. set (A' := set_reads _ _ A).
    destruct (put_attr_next none (g_db s) a A A' Hok Ha) as (db' & E & Hn & Ha'); [done|by split|by right| |].
    { intros t Ht. right. unfold A', keys in *; cbn. rewrite !fmap_app, !elem_of_app in *. cbn. naive_solver. }
    rewrite E. cbn. eexists cb, _, db'. split_and!; [done|done|done|].
    exists a, A'. split; [done|]. unfold A', keys; cbn. rewrite !fmap_app, !elem_of_app. left. right. by left.
  - left. destruct (Z.ltb_spec (value_len A) off) as [Hlt|Hge].
    { exists BT_ATT_ERROR_INVALID_OFFSET, []. cbn. rewrite (put_attr_same _ a A Ha). cbn. rewrite set_same.
      split; [done|]. intros _ H. lia. }
    destruct (Z.eqb_spec off (value_len A)) as [He|Hne].
    + exists 0, []. cbn. rewrite (put_attr_same _ a A Ha). cbn. rewrite set_same. split; [done|]. intros _ _.
      split; [done|]. rewrite drop_ge; [done|]. unfold stored. rewrite length_take. lia.
    + exists 0, (slice off (value_len A - off) (value A)). rewrite memread_Some by lia. cbn.
      rewrite (put_attr_same _ a A Ha). cbn. rewrite set_same. split; [done|]. intros _ _.
      split; [done|]. unfold slice, stored. rewrite take_drop_commute. do 2 f_equal. lia.
Qed.

Lemma attribute_write_spec a A off data op k s :
  db_ok (g_db s) -> get_attr a (g_db s) = Some A -> 0 <= off <= 65535 -> writable A ->
  (exists err db', attribute_write authorize junk a off data op k s = Some (Some err, set_g_db db' s) /\
     db_next none (g_db s) db' /\
     (write_func A = None -> err = 0 /\ exists A', get_attr a db' = Some A' /\
        (if zlen data =? 0 then Some A else write_value junk off data A) = Some A')) \/
  (exists cb id db', write_func A = Some cb /\
     attribute_write authorize junk a off data op k s
     = Some (None, deferred a (EWriteFunc (g_next_timer s) cb id off data op) db' k s) /\
     db_next none (g_db s) db' /\ pending_in db' (g_next_timer s)).
Proof.
  intros Hok Ha Ho Hwr. pose proof (do_attrs _ Hok a A Ha) as Hin. pose proof (ai_value _ _ Hin) as Hv.
  assert (Hset : forall db, set_g_db db (set_g_timers (g_timers s) (set_g_next_timer (g_next_timer s) s))
                            = set_g_db db s) by (by destruct s).
  unfold attribute_write, on_attr. rewrite Ha. cbn [mbind option_bind]. unfold gatt_db_attribute_write.
  cbn [attr]. destruct (write_func A) as [cb|] eqn:Hf.
  - destruct (negb _) eqn:Eauth.
    { left. exists (attribute_authorize authorize op), (g_db s). cbn. rewrite (put_attr_same _ a A Ha). cbn.
      rewrite Hset. split_and!; [done|by apply db_next_refl|done]. }
    right. cbn -[put_attr]. set (A' := set_writes _ _ A).
    destruct (put_attr_next none (g_db s) a A A' Hok Ha) as (db' & E & Hn & Ha'); [done|done|by right| |].
    { intros t Ht. right. unfold A', keys in *; cbn. rewrite !fmap_app, !elem_of_app in *. cbn. naive_solver. }
    rewrite E. cbn. eexists cb, _, db'. split_and!; [done|done|done|].
    exists a, A'. split; [done|]. unfold A', keys; cbn. rewrite !fmap_app, !elem_of_app. right. right. by left.
  - left. destruct (Z.eqb_spec (zlen data) 0) as [Hz|Hz].
    { exists 0, (g_db s). cbn. rewrite (put_attr_same _ a A Ha). cbn. rewrite Hset.
      split_and!; [done|by apply db_next_refl|]. intros _. split; [done|]. by exists A. }
    destruct (write_value_total junk off data A Hv Ho) as (A' & E & HA' & Hk). rewrite E. cbn -[put_attr].
    destruct (put_attr_next none (g_db s) a A A' Hok Ha) as (db' & E' & Hn & Ha').
    { unfold write_value in E. destruct (_ || _).
      - destruct (value_len A =? 0); [destruct (memcpy_at _ 0 _); [|done]|]; cbn [mbind option_bind] in E;
          (destruct (memcpy_at _ off _); [|done]); by injection E as <-.
      - destruct (memcpy_at _ _ _); [|done]. by injection E as <-. }
    { done. }
    { by left. }
    { intros t Ht. right. by rewrite Hk. }
    rewrite E'. cbn. rewrite Hset. exists 0, db'. split_and!; [done|done|]. intros _. split; [done|]. by exists A'.
Qed.

(** An operation that answers something that is pending, of which [Q] then holds,
    or does nothing, and [idle] holds of the attribute. *)
Definition finishes (Q : pending -> Z -> Prop) (idle : gatt_db_attribute -> Prop)
    (f : attr_state -> option attr_state) : Prop :=
  forall st, log st = [] ->
    (f st = Some st /\ idle (attr st)) \/
    (exists p l err v, pending_reads (attr st) ≡ₚ p :: l /\ Q p err /\
       f st = Some (pending_read_result p err v (set_attr (set_reads (read_id (attr st)) l (attr st)) st))) \/
    (exists p l err, pending_writes (attr st) ≡ₚ p :: l /\ Q p err /\
       f st = Some (pending_write_result p err (set_attr (set_writes (write_id (attr st)) l (attr st)) st))).

(** The answer with its key. *)
Definition answer (t err : Z) (v : list Z) (e : attr_event) : Prop :=
  exists u, e = ERead (Some t) u err v \/ (e = EWritten (Some t) u err /\ v = []).

Definition answered_state (t : Z) (db' : gatt_db) (s : server) : server :=
  set_g_db db' (set_g_timers (g_timers s ∖ {[t]}) s).

Lemma answered_state_eq t db' s :
  set_g_db db' (set_g_timers (g_timers s ∖ {[t]}) (set_g_next_timer (g_next_timer s) s)) = answered_state t db' s.
Proof. by destruct s. Qed.

Lemma finishes_spec Q idle f a A s :
  finishes Q idle f -> db_ok (g_db s) -> get_attr a (g_db s) = Some A ->
  (on_attr a f s = Some ([], s) /\ idle A) \/
  (exists p err v e db', on_attr a f s = Some ([e], answered_state (p_timeout p) db' s) /\
     answer (p_timeout p) err v e /\ db_next (eq (p_timeout p)) (g_db s) db' /\ Q p err).
Proof.
  intros Hf Hok Ha. pose proof (do_attrs _ Hok a A Ha) as Hin. unfold on_attr. rewrite Ha. cbn [mbind option_bind].
  destruct (Hf (mkState A (g_timers s) (g_next_timer s) []))
    as [[E Hid]|[(p & l & err & v & Hp & HQ & E)|(p & l & err & Hp & HQ & E)]];
    [done|..]; rewrite E; cbn -[put_attr] in *.
  - left. rewrite (put_attr_same _ a A Ha). cbn. by rewrite set_same.
  - right. set (A' := set_reads _ _ A).
    pose proof (keys_reads A (read_id A) p l Hp) as Hk. fold A' in Hk.
    destruct (put_attr_next (eq (p_timeout p)) (g_db s) a A A' Hok Ha) as (db' & E' & Hn & _);
      [done|apply Hin|by right| |].
    { intros t. rewrite Hk, elem_of_cons. naive_solver. }
    rewrite E'. cbn. rewrite answered_state_eq. eexists p, err, v, _, db'. split_and!; [done| |done|done].
    eexists. by left.
  - right. set (A' := set_writes _ _ A).
    pose proof (keys_writes A (write_id A) p l Hp) as Hk. fold A' in Hk.
    destruct (put_attr_next (eq (p_timeout p)) (g_db s) a A A' Hok Ha) as (db' & E' & Hn & _);
      [done|apply Hin|by right| |].
    { intros t. rewrite Hk, elem_of_cons. naive_solver. }
    rewrite E'. cbn. rewrite answered_state_eq. eexists p, err, [], _, db'. split_and!; [done| |done|done].
    eexists. by right.
Qed.

Lemma read_result_finishes id err v :
  finishes (fun p _ => p_id p = id) (fun _ => True) (fun st => Some (gatt_db_attribute_read_result id err v st).2).
Proof.
  intros st _. unfold gatt_db_attribute_read_result. destruct (id =? 0); [by left|].
  destruct (remove_first _ _) as [[p l]|] eqn:E; [|by left]. apply remove_first_spec in E as [E Hp].
  right. left. eexists p, l, _, _. split_and!; [done|by apply Z.eqb_eq|done].
Qed.

Lemma write_result_finishes id err :
  finishes (fun p _ => p_id p = id) (fun _ => True) (fun st => Some (gatt_db_attribute_write_result id err st).2).
Proof.
  intros st _. unfold gatt_db_attribute_write_result. destruct (id =? 0); [by left|].
  destruct (remove_first _ _) as [[p l]|] eqn:E; [|by left]. apply remove_first_spec in E as [E Hp].
  right. right. eexists p, l, _. split_and!; [done|by apply Z.eqb_eq|done].
Qed.

Lemma timer_finishes t :
  finishes (fun p err => p_timeout p = t /\ err = - ETIMEDOUT) (fun A => t ∉ keys A) (timer_fires t).
Proof.
  intros st _. unfold timer_fires, read_timeout, write_timeout.
  destruct (remove_first _ (pending_reads _)) as [[p l]|] eqn:E; cbn.
  { apply remove_first_spec in E as [E Hp%Z.eqb_eq]. right. left. by eexists p, l, _, _. }
  destruct (remove_first _ (pending_writes _)) as [[p l]|] eqn:E2; cbn.
  { apply remove_first_spec in E2 as [E2 Hp%Z.eqb_eq]. right. right. by eexists p, l, _. }
  left. split; [done|]. apply remove_first_None in E, E2. rewrite Forall_forall in E, E2. unfold keys.
  rewrite fmap_app, elem_of_app.
  intros [(p & -> & Hp)%list_elem_of_fmap|(p & -> & Hp)%list_elem_of_fmap];
    [specialize (E _ Hp)|specialize (E2 _ Hp)]; unfold has_timer in *; by rewrite Z.eqb_refl in *.
Qed.
End Attributes.

(** ** The invariant of the server *)

(** The request, with its channel, that is answered when the operation ends. *)
Definition owed (k : continuation) : list (Z * Z) :=
  match k with
  | KByType op _ => [(rt_chan op, BT_ATT_OP_READ_BY_TYPE_REQ)]
  | KRead chan opcode => [(chan, opcode)]
  | KPrep chan _ => [(chan, BT_ATT_OP_PREP_WRITE_REQ)]
  | KExec chan => [(chan, BT_ATT_OP_EXEC_WRITE_REQ)]
  | KMult data _ => [(rm_chan data, rm_opcode data)]
  | KWrite chan opcode => if opcode =? BT_ATT_OP_WRITE_CMD then [] else [(chan, opcode)]
  | KStack | KExtProp | KOrphan => []
  end.

(** The requests that were answered, by the response that follows their opcode or by an error that names it, and
    those whose response the transport refused. *)
Definition answers (l : list att_out) : list (Z * Z) :=
  omap (fun o => match o with Rsp c op _ => Some (c, op - 1) | ErrorRsp c op _ _ => Some (c, op) | Refused _ _ | Send _ _ => None end) l.
Definition refusals (l : list att_out) : list (Z * Z) :=
  omap (fun o => match o with Refused c op => Some (c, op - 1) | _ => None end) l.
Definition settled (l : list att_out) : list (Z * Z) := answers l ++ refusals l.

Definition conts (m : gmap Z continuation) : list continuation := (map_to_list m).*2.

(** Answers given and answers to come. *)
Definition accounted (s : server) : list (Z * Z) := settled (g_out s) ++ concat (owed <$> conts (g_waiting s)).

Definition is_read (k : continuation) : Prop := match k with KByType _ _ | KRead _ _ => True | _ => False end.
#[export] Instance is_read_dec k : Decision (is_read k).
Proof. destruct k; apply _. Defined.
Definition is_write (k : continuation) : Prop := match k with KWrite _ _ => True | _ => False end.
#[export] Instance is_write_dec k : Decision (is_write k).
Proof. destruct k; apply _. Defined.

Definition nreads (s : server) : nat := length (filter is_read (conts (g_waiting s))).
Definition nwrites (s : server) : nat := length (filter is_write (conts (g_waiting s))).

(** The pointers to pending operations are set exactly while there is one. *)
Definition flags (s : server) : Prop :=
  nreads s = Nat.b2n (g_pending_read_op s) /\ nwrites s = Nat.b2n (g_pending_write_op s).

(** Every attribute with the handle can be written. *)
Definition may_write (db : gatt_db) (h : Z) : Prop :=
  forall a A, get_attr a db = Some A -> handle A = h -> writable A.

Definition prep_ok (db : gatt_db) (p : prep_write_data) : Prop :=
  may_write db (pw_handle p) /\ zlen (pw_value p) = pw_length p /\ pw_length p <= 65535 /\
  0 <= pw_offset p <= 65535.

Definition by_type_ok (mtu : Z) (op : read_by_type_op) : Prop :=
  zlen (rt_pdu op) = mtu /\ 0 <= rt_pdu_len op <= mtu - 1 /\ 0 <= rt_value_len op <= 253.
Definition mult_ok (mtu : Z) (d : read_mult_data) : Prop :=
  0 <= rm_opcode d <= 254 /\ 23 <= rm_mtu d <= mtu /\ zlen (rm_rsp_data d) = rm_mtu d - 1 /\ 0 <= rm_length d <= rm_mtu d - 1.

(** A request as it comes from the transport. *)
Definition pdu_ok (mtu : Z) (pdu : list Z) : Prop := bytes_ok pdu /\ zlen pdu <= mtu - 1.

Definition cont_ok (db : gatt_db) (mtu : Z) (k : continuation) : Prop :=
  match k with
  | KByType op l => by_type_ok mtu op /\ Forall (fun a => is_Some (get_attr a db)) l
  | KMult data l => mult_ok mtu data /\ Forall (fun h => 0 <= h) l
  | KPrep _ pdu => pdu_ok mtu pdu /\ 4 <= zlen pdu /\ may_write db (get_le (slice 0 2 pdu))
  | KRead _ opcode => opcode = BT_ATT_OP_READ_REQ \/ opcode = BT_ATT_OP_READ_BLOB_REQ
  | KWrite _ opcode => opcode = BT_ATT_OP_WRITE_REQ \/ opcode = BT_ATT_OP_WRITE_CMD
  | KExec _ => True
  | KStack | KExtProp | KOrphan => False
  end.

Definition fits (mtu : Z) (o : att_out) : Prop :=
  match o with
  | Rsp _ _ pdu | Send _ pdu => zlen pdu <= mtu - 1
  | Refused _ opcode => get_op_type opcode = ATT_OP_TYPE_UNKNOWN
  | ErrorRsp _ _ _ _ => True
  end.

Definition nfy_ok (mtu : Z) (d : nfy_mult_data) : Prop :=
  zlen (nm_pdu d) = nm_len d /\ 0 <= nm_offset d <= nm_len d /\ nm_len d <= mtu - 1.

Record inv (s : server) : Prop := mkInv {
  i_db : db_ok (g_db s);
  i_mtu : 23 <= g_att_mtu s <= 65535 /\ 23 <= g_mtu s <= 65535;
  i_alive : g_alive s = true;
  i_wait : forall key k, g_waiting s !! key = Some k ->
    key < g_next_timer s /\ key ∈ g_timers s /\ pending_in (g_db s) key /\ cont_ok (g_db s) (g_att_mtu s) k;
  i_queue : Forall (prep_ok (g_db s)) (g_prep_queue s);
  i_fits : Forall (fits (g_att_mtu s)) (g_out s);
  i_nfy : forall d, g_nfy_mult s = Some d -> nfy_ok (g_att_mtu s) d
}.

Lemma may_write_static db db' h :
  (forall a, static_at db' a = static_at db a) -> may_write db h -> may_write db' h.
Proof.
  intros Hst Hw a A HA Hh. destruct (static_get db' db a A) as (B & HB & E); [done|done|].
  injection E as Eh _ Ep _ _. unfold writable in *. rewrite <- Ep. apply (Hw a B HB). congruence.
Qed.

Lemma cont_ok_static db db' mtu k :
  (forall a, static_at db' a = static_at db a) -> cont_ok db mtu k -> cont_ok db' mtu k.
Proof.
  intros Hst. destruct k; cbn; try done.
  - intros [? Hl]. split; [done|]. eapply Forall_impl; [exact Hl|]. intros a [A HA].
    destruct (static_get db db' a A Hst HA) as (B & HB & _). by exists B.
  - intros (? & ? & ?). split_and!; [done|done|]. by eapply may_write_static.
Qed.

Lemma prep_ok_static db db' p :
  (forall a, static_at db' a = static_at db a) -> prep_ok db p -> prep_ok db' p.
Proof. intros Hst (? & ?). split; [by eapply may_write_static|done]. Qed.

Lemma conts_insert m t k : m !! t = None -> conts (<[t := k]> m) ≡ₚ k :: conts m.
Proof. intros H. unfold conts. by rewrite map_to_list_insert. Qed.

Lemma conts_delete m t k : m !! t = Some k -> conts m ≡ₚ k :: conts (delete t m).
Proof.
  intros H. rewrite <- (conts_insert (delete t m) t k) by apply lookup_delete_eq. by rewrite insert_delete_id.
Qed.

Lemma settled_app l o : settled (l ++ o) ≡ₚ settled l ++ settled o.
Proof. unfold settled, answers, refusals. rewrite !omap_app. solve_Permutation. Qed.

Lemma settled_rsp chan q opcode pdu : q + 1 = opcode -> settled [rsp_out chan opcode pdu] = [(chan, q)].
Proof. intros <-. unfold rsp_out. destruct (get_op_type (q + 1)); cbn; by rewrite Z.add_simpl_r. Qed.

Lemma fits_rsp mtu chan opcode pdu : zlen pdu <= mtu - 1 -> fits mtu (rsp_out chan opcode pdu).
Proof. intros H. unfold rsp_out. by destruct (get_op_type opcode) eqn:E. Qed.

(** *** Steps of the handlers *)

Lemma inv_out o s : inv s -> fits (g_att_mtu s) o -> inv (set_g_out (g_out s ++ [o]) s).
Proof. intros [] Ho. split; try done. cbn. apply Forall_app. split; [done|by constructor]. Qed.

Lemma inv_flag_r b s : inv s -> inv (set_g_pending_read_op b s).
Proof. by intros []. Qed.
Lemma inv_flag_w b s : inv s -> inv (set_g_pending_write_op b s).
Proof. by intros []. Qed.
Lemma inv_prep q s : inv s -> Forall (prep_ok (g_db s)) q -> inv (set_g_prep_queue q s).
Proof. by intros []. Qed.

Lemma inv_set_db db' s : inv s -> db_next none (g_db s) db' -> inv (set_g_db db' s).
Proof.
  intros [] [Hok Hst Hp]. split; cbn; try done.
  - intros key k H. destruct (i_wait0 key k H) as (? & ? & Hpend & ?). split_and!; try done.
    + by destruct (Hp key Hpend).
    + by eapply cont_ok_static.
  - eapply Forall_impl; [exact i_queue0|]. intros p. by apply prep_ok_static.
Qed.

Lemma deferred_fresh s : inv s -> g_waiting s !! g_next_timer s = None.
Proof.
  intros Hi. destruct (g_waiting s !! g_next_timer s) as [k|] eqn:E; [|done].
  destruct (i_wait s Hi _ _ E). lia.
Qed.

Lemma inv_deferred a e db' k s :
  inv s -> db_next none (g_db s) db' -> pending_in db' (g_next_timer s) ->
  cont_ok (g_db s) (g_att_mtu s) k -> inv (deferred a e db' k s).
Proof.
  intros Hi Hn Hpend Hk. destruct (inv_set_db db' s Hi Hn) as []. split; cbn in *; try done.
  intros key k' Hl. destruct (decide (key = g_next_timer s)) as [->|Hne].
  - rewrite lookup_insert_eq in Hl. injection Hl as <-. split_and!; [lia|set_solver|done|].
    eapply cont_ok_static; [apply Hn|done].
  - rewrite lookup_insert_ne in Hl by done. destruct (i_wait0 key k' Hl) as (? & ? & ? & ?).
    split_and!; [lia|set_solver|done|done].
Qed.

Lemma accounted_deferred a e db' k s :
  inv s -> accounted (deferred a e db' k s) ≡ₚ owed k ++ accounted s.
Proof.
  intros Hi. unfold accounted. cbn. rewrite (conts_insert _ _ k (deferred_fresh s Hi)). cbn. solve_Permutation.
Qed.

Lemma filter_len_cons (P : continuation -> Prop) `{forall k, Decision (P k)} k l :
  length (filter P (k :: l)) = (Nat.b2n (bool_decide (P k)) + length (filter P l))%nat.
Proof. rewrite filter_cons. case_decide; case_bool_decide; done. Qed.

Lemma nreads_deferred a e db' k s :
  inv s -> nreads (deferred a e db' k s) = (Nat.b2n (bool_decide (is_read k)) + nreads s)%nat.
Proof.
  intros Hi. unfold nreads. cbn. rewrite (conts_insert _ _ k (deferred_fresh s Hi)). apply filter_len_cons.
Qed.
Lemma nwrites_deferred a e db' k s :
  inv s -> nwrites (deferred a e db' k s) = (Nat.b2n (bool_decide (is_write k)) + nwrites s)%nat.
Proof.
  intros Hi. unfold nwrites. cbn. rewrite (conts_insert _ _ k (deferred_fresh s Hi)). apply filter_len_cons.
Qed.

(** Attributes that cannot be written keep their values, and the write function
    of the client is not called for them. *)
Definition guards_writes (db : gatt_db) (c : aptr * attr_event) : Prop :=
  match c.2 with EWriteFunc _ _ _ _ _ _ => forall A, get_attr c.1 db = Some A -> writable A | _ => True end.

Definition protects (db0 : gatt_db) (calls0 : list (aptr * attr_event)) (db : gatt_db)
    (calls : list (aptr * attr_event)) : Prop :=
  (forall a, static_at db a = static_at db0 a) /\
  (forall a A, get_attr a db0 = Some A -> ~ writable A -> exists A', get_attr a db = Some A' /\
     value A' = value A /\ value_len A' = value_len A) /\
  exists l, calls = calls0 ++ l /\ Forall (guards_writes db0) l.

Definition prot (s0 s : server) : Prop := protects (g_db s0) (g_calls s0) (g_db s) (g_calls s).

Lemma prot_refl s : prot s s.
Proof. split; [done|]. split; [|exists []; by rewrite app_nil_r]. intros a A HA _. by exists A. Qed.

Lemma writable_static A B : static A = static B -> writable A -> writable B.
Proof. intros [= _ _ E _ _]. unfold writable. by rewrite E. Qed.

Lemma prot_trans s0 s1 s2 : prot s0 s1 -> prot s1 s2 -> prot s0 s2.
Proof.
  intros (Hs1 & Hv1 & l1 & E1 & Hl1) (Hs2 & Hv2 & l2 & E2 & Hl2). split; [intros a; by rewrite Hs2|]. split.
  - intros a A HA Hw. destruct (Hv1 a A HA Hw) as (A1 & HA1 & Ea & Eb).
    destruct (static_get _ _ _ _ Hs1 HA) as (A1' & HA1' & Hst).
    assert (A1' = A1) as -> by congruence.
    destruct (Hv2 a A1 HA1') as (A2 & HA2 & Ec & Ed); [by intros H%(writable_static _ A)|].
    exists A2. split_and!; congruence.
  - exists (l1 ++ l2). rewrite E2, E1, app_assoc. split; [done|]. apply Forall_app. split; [done|].
    eapply Forall_impl; [exact Hl2|]. intros [a e]. unfold guards_writes. cbn. destruct e; try done.
    intros H A HA. destruct (static_get _ _ _ _ Hs1 HA) as (A1 & HA1 & Hst). by eapply writable_static, H.
Qed.

Lemma prot_next gone db' s : db_next gone (g_db s) db' -> prot s (set_g_db db' s).
Proof. intros [_ Hs _ Hv]. split; [done|]. split; [done|]. exists []. by rewrite app_nil_r. Qed.

(** A state in the course of a handler: no answer was given yet. *)
Definition from (s0 s : server) : Prop := accounted s = accounted s0 /\ prot s0 s.
#[local] Instance from_refl : Reflexive from.
Proof. intros s. split; [done|apply prot_refl]. Qed.
#[local] Hint Extern 0 (from ?s _) => exact (from_refl s) : core.

Lemma from_set_db s0 s db' : from s0 s -> db_next none (g_db s) db' -> from s0 (set_g_db db' s).
Proof. intros [E Hp] Hn. split; [done|]. by eapply prot_trans, prot_next. Qed.

(** The result of a handler: the invariant, and [l] more answers given or owed. *)
Definition serves (l : list (Z * Z)) (s : server) (r : option server) : Prop :=
  exists s', r = Some s' /\ inv s' /\ flags s' /\ accounted s' ≡ₚ l ++ accounted s /\ prot s s'.

Lemma serves_out o s s0 :
  inv s -> flags s -> fits (g_att_mtu s) o -> from s0 s ->
  serves (settled [o]) s0 (Some (set_g_out (g_out s ++ [o]) s)).
Proof.
  intros Hi Hf Ho [E Hp]. eexists. split_and!; [done|by apply inv_out|done| |done]. rewrite <- E. unfold accounted.
  change (g_out (set_g_out (g_out s ++ [o]) s)) with (g_out s ++ [o]). rewrite settled_app. solve_Permutation.
Qed.

Lemma serves_error chan opcode h ecode s s0 :
  inv s -> flags s -> from s0 s ->
  serves [(chan, opcode)] s0 (Some (bt_att_chan_send_error_rsp chan opcode h ecode s)).
Proof. intros. by apply (serves_out (ErrorRsp chan opcode h ecode)). Qed.

Lemma serves_rsp chan q opcode pdu s s0 :
  inv s -> flags s -> zlen pdu <= g_att_mtu s - 1 -> from s0 s -> q + 1 = opcode ->
  serves [(chan, q)] s0 (Some (bt_att_chan_send_rsp chan opcode pdu s)).
Proof.
  intros ? ? ? ? Hq. rewrite <- (settled_rsp chan q opcode pdu Hq). apply (serves_out (rsp_out chan opcode pdu)); [done|done|by apply fits_rsp|done].
Qed.

(** A read that is under way, the server having its pointer set, and its end. *)
Definition reading (s : server) : Prop :=
  nreads s = O /\ g_pending_read_op s = true /\ nwrites s = Nat.b2n (g_pending_write_op s).

Lemma read_ends_error chan opcode h ecode s s0 :
  inv s -> reading s -> from s0 s ->
  serves [(chan, opcode)] s0 (Some (async_read_op_destroy (bt_att_chan_send_error_rsp chan opcode h ecode s))).
Proof.
  intros Hi (Hr & Hp & Hw) E.
  destruct (serves_error chan opcode h ecode (set_g_pending_read_op false s) s0) as (s' & [= <-] & ?);
    [by apply inv_flag_r|done|done|]. eexists. split; [done|]. done.
Qed.

Lemma read_ends_rsp chan q opcode pdu s s0 :
  inv s -> reading s -> zlen pdu <= g_att_mtu s - 1 -> from s0 s -> q + 1 = opcode ->
  serves [(chan, q)] s0 (Some (async_read_op_destroy (bt_att_chan_send_rsp chan opcode pdu s))).
Proof.
  intros Hi (Hr & Hp & Hw) Hl E Hq.
  destruct (serves_rsp chan q opcode pdu (set_g_pending_read_op false s) s0) as (s' & [= <-] & ?);
    [by apply inv_flag_r|done|done|done|done|]. eexists. split; [done|]. done.
Qed.

(** An operation is passed on while a read (a write) is under way, or none. *)
Lemma serves_deferred a e db' k s s0 :
  inv s -> db_next none (g_db s) db' -> pending_in db' (g_next_timer s) ->
  cont_ok (g_db s) (g_att_mtu s) k ->
  (Nat.b2n (bool_decide (is_read k)) + nreads s)%nat = Nat.b2n (g_pending_read_op s) ->
  (Nat.b2n (bool_decide (is_write k)) + nwrites s)%nat = Nat.b2n (g_pending_write_op s) ->
  from s0 s -> guards_writes (g_db s) (a, e) -> serves (owed k) s0 (Some (deferred a e db' k s)).
Proof.
  intros Hi Hn Hpd Hk Hr Hw [E Hp] Hg. eexists. split_and!; [done|by apply inv_deferred| | |].
  - split; [by rewrite nreads_deferred|by rewrite nwrites_deferred].
  - rewrite <- E. by apply accounted_deferred.
  - eapply prot_trans; [exact Hp|]. destruct Hn as [_ Hs _ Hv]. split; [done|]. split; [done|].
    exists [(a, e)]. split; [done|by constructor].
Qed.

Lemma check_permissions_eq a A mask s :
  get_attr a (g_db s) = Some A ->
  check_permissions a mask s
  = Some (permission_error (permissions A) mask (g_security s) (g_enc_size s) (g_min_enc_size s)).
Proof. intros H. unfold check_permissions, gatt_db_attribute_get_permissions. by rewrite H. Qed.

Lemma get_handle_eq a A db : get_attr a db = Some A -> gatt_db_attribute_get_handle (Some a) db = Some (handle A).
Proof. intros H. unfold gatt_db_attribute_get_handle. by rewrite H. Qed.

Lemma permitted_writable perm A sec es mes :
  perm = permissions A -> permission_error perm WRITE_MASK sec es mes = 0 -> writable A.
Proof.
  intros -> H. unfold writable. destruct (Z.eq_dec (permissions A) 0) as [|Hp]; [by left|right].
  intros Hw. unfold permission_error in H. change (Z.land WRITE_MASK BT_ATT_PERM_READ) with 0 in H.
  change (Z.land WRITE_MASK BT_ATT_PERM_WRITE) with 2 in H. rewrite Hw in H.
  rewrite (proj2 (Z.eqb_neq _ _) Hp) in H. cbn in H. done.
Qed.

Lemma find_attribute db h :
  db_ok db -> exists r, gatt_db_get_attribute h db = Some r /\
    match r with Some a => exists A, get_attr a db = Some A /\ handle A = h | None => True end.
Proof.
  intros Hok. destruct (decide (h = 0)) as [->|Hh].
  - by exists None.
  - destruct (get_attribute_spec db h (do_wf _ Hok) Hh) as (r & E & H). exists r. split; [done|].
    destruct r; [done|done].
Qed.

Section Handlers.
Context (authorize : option (Z -> Z)) (run_authorize : Z -> Z -> Z -> Z) (junk : Z -> Z).

Lemma read_serves a A off op k (next : Z -> list Z -> server -> option server) s s0 :
  inv s -> get_attr a (g_db s) = Some A -> 0 <= off <= 65535 -> cont_ok (g_db s) (g_att_mtu s) k ->
  (Nat.b2n (bool_decide (is_read k)) + nreads s)%nat = Nat.b2n (g_pending_read_op s) ->
  (Nat.b2n (bool_decide (is_write k)) + nwrites s)%nat = Nat.b2n (g_pending_write_op s) ->
  from s0 s -> (forall err v, serves (owed k) s0 (next err v s)) ->
  serves (owed k) s0
    ('(r, s) ← attribute_read authorize a off op k s;
     match r with None => Some s | Some (err, v) => next err v s end).
Proof.
  intros Hi Ha Ho Hk Hr Hw E Hnext.
  destruct (attribute_read_spec authorize junk a A off op k s) as [(err & v & -> & _)|(cb & id & db' & _ & -> & Hn & Hp)];
    [apply Hi|done|done|cbn; apply Hnext|]. cbn. by apply serves_deferred.
Qed.

Lemma write_serves a A off data op k (next : Z -> server -> option server) s s0 :
  inv s -> get_attr a (g_db s) = Some A -> 0 <= off <= 65535 -> writable A ->
  cont_ok (g_db s) (g_att_mtu s) k ->
  (Nat.b2n (bool_decide (is_read k)) + nreads s)%nat = Nat.b2n (g_pending_read_op s) ->
  (Nat.b2n (bool_decide (is_write k)) + nwrites s)%nat = Nat.b2n (g_pending_write_op s) ->
  from s0 s ->
  (forall err db', db_next none (g_db s) db' -> serves (owed k) s0 (next err (set_g_db db' s))) ->
  serves (owed k) s0
    ('(r, s) ← attribute_write authorize junk a off data op k s;
     match r with None => Some s | Some err => next err s end).
Proof.
  intros Hi Ha Ho Hwr Hk Hr Hw E Hnext.
  destruct (attribute_write_spec authorize junk a A off data op k s)
    as [(err & db' & -> & Hn & _)|(cb & id & db' & _ & -> & Hn & Hp)];
    [apply Hi|done|done|done|cbn; by apply Hnext|]. cbn. apply serves_deferred; try done. intros B HB. cbn in HB. congruence.
Qed.

(** *** Read By Type *)

Lemma zlen_buffer n : 0 <= n -> zlen (buffer junk n) = n.
Proof. intros H. unfold buffer, zlen. rewrite length_map, length_seqZ. lia. Qed.

Lemma u32_small x : 0 <= x <= 65535 -> u32 x = x.
Proof. intros H. unfold wrap. rewrite Z.mod_small; lia. Qed.

Lemma encode_read_by_type_ok mtu h v op :
  23 <= mtu <= 65535 -> by_type_ok mtu op ->
  exists op', encode_read_by_type mtu h v op = Some op' /\ by_type_ok mtu op' /\ rt_chan op' = rt_chan op.
Proof.
  intros Hm (Hz & Hl & Hv). unfold encode_read_by_type. pose proof (zlen_nonneg v) as Hv0.
  rewrite !u32_small by lia.
  set (first := rt_pdu_len op =? 0). set (vlen := if first then _ else _).
  assert (Hvl : 0 <= vlen <= 253 /\ (first = true -> vlen <= zlen v)) by (unfold vlen; destruct first; lia).
  assert (Hp : exists pdu, (if first then memcpy_at (rt_pdu op) 0 [u8 (vlen + 2)] else Some (rt_pdu op)) = Some pdu /\
    zlen pdu = mtu).
  { destruct first; [|by exists (rt_pdu op)].
    destruct (memcpy_at_total (rt_pdu op) 0 [u8 (vlen + 2)]) as (p & E & Hp); [lia|unfold zlen in *; cbn; lia|].
    exists p. split; [done|lia]. }
  destruct Hp as (pdu & -> & Hpdu). cbn [mbind option_bind].
  set (len := if first then 1 else rt_pdu_len op). assert (Hlen : 0 <= len <= mtu - 1) by (unfold len; destruct first; lia).
  cbn [rt_chan rt_opcode rt_done rt_pdu rt_pdu_len rt_value_len].
  destruct (negb first && negb (zlen v =? vlen)) eqn:Ed; [eexists; split_and!; [done|unfold by_type_ok; cbn; lia|done]|].
  assert (Hvv : vlen <= zlen v).
  { destruct first; [by apply Hvl|]. cbn in Ed. apply negb_false_iff, Z.eqb_eq in Ed. lia. }
  destruct (Z.ltb_spec (mtu - 1) (len + vlen + 2)); [eexists; split_and!; [done|unfold by_type_ok; cbn; lia|done]|].
  destruct (memcpy_at_total pdu len (put_le16 h)) as (p1 & -> & E1); [lia|rewrite zlen_put_le16; lia|].
  cbn [mbind option_bind]. rewrite memread_Some by lia. cbn [mbind option_bind].
  pose proof (zlen_slice 0 vlen v ltac:(lia) ltac:(lia) ltac:(lia)) as Hsl.
  destruct (memcpy_at_total p1 (len + 2) (slice 0 vlen v)) as (p2 & -> & E2); [lia|lia|].
  cbn [mbind option_bind]. eexists. split_and!; [done| |done]. unfold by_type_ok; cbn. lia.
Qed.

Lemma process_read_by_type_serves l op s s0 :
  inv s -> reading s -> by_type_ok (g_att_mtu s) op -> Forall (fun a => is_Some (get_attr a (g_db s))) l ->
  from s0 s -> serves [(rt_chan op, BT_ATT_OP_READ_BY_TYPE_REQ)] s0 (process_read_by_type authorize l op s).
Proof.
  revert op. induction l as [|a l IH]; intros op Hi Hr Hop Hl E.
  - cbn. destruct Hop as (Hz & Hlen & _). rewrite memread_Some by lia. cbn [mbind option_bind].
    apply read_ends_rsp; try done. rewrite zlen_slice; lia.
  - apply Forall_cons in Hl as [[A Ha] Hl]. cbn [process_read_by_type].
    destruct (rt_done op).
    { destruct Hop as (Hz & Hlen & _). rewrite memread_Some by lia. cbn [mbind option_bind].
      apply read_ends_rsp; try done. rewrite zlen_slice; lia. }
    rewrite (check_permissions_eq a A) by done. cbn [mbind option_bind].
    destruct (negb _).
    { rewrite (get_handle_eq a A) by done. cbn [mbind option_bind]. by apply read_ends_error. }
    destruct Hr as (Hr1 & Hr2 & Hr3).
    apply (read_serves a A 0 (rt_opcode op) (KByType op l)
             (fun err v s => read_by_type_read_complete_cb
                (fun op s => process_read_by_type authorize l op s) a err v op s)); try done.
    + by rewrite Hr1, Hr2.
    + intros err v. unfold read_by_type_read_complete_cb. rewrite (get_handle_eq a A) by done. cbn [mbind option_bind].
      destruct (negb _); [by apply read_ends_error|].
      destruct (encode_read_by_type_ok (g_att_mtu s) (handle A) v op) as (op' & -> & Hop' & Hc); [apply Hi|done|].
      cbn [mbind option_bind]. cbn [owed]. rewrite <- Hc. by apply IH.
Qed.

Lemma slice_ok off n pdu : bytes_ok pdu -> bytes_ok (slice off n pdu).
Proof. intros H. unfold slice. by apply Forall_take, Forall_drop. Qed.

Lemma get_le_range l : bytes_ok l -> zlen l <= 2 -> 0 <= get_le l <= 65535.
Proof.
  intros H Hz. unfold get_le. pose proof (be_value_range (rev l)) as Hr.
  assert (bytes_ok (rev l)) as Hb by by apply List.Forall_rev. specialize (Hr Hb).
  assert (2 ^ (8 * zlen (rev l)) <= 2 ^ 16); [|lia].
  apply Z.pow_le_mono_r; [lia|]. unfold zlen in *. rewrite List.length_rev. lia.
Qed.

Lemma le16_range off pdu : bytes_ok pdu -> 0 <= get_le (slice off 2 pdu) <= 65535.
Proof.
  intros H. apply get_le_range; [by apply slice_ok|]. unfold slice, zlen. rewrite length_take. lia.
Qed.

Lemma get_uuid_le_ok l : bytes_ok l -> zlen l = 2 \/ zlen l = 16 -> exists u, get_uuid_le l = Some u /\ comparable u.
Proof.
  intros Hb Hz. unfold get_uuid_le. destruct Hz as [Hz|Hz]; rewrite Hz; cbn [Z.eqb Pos.eqb].
  - eexists. split; [done|]. split; [|discriminate]. simpl. unfold wrap. apply Z.mod_pos_bound. lia.
  - eexists. split; [done|]. split; [|discriminate]. simpl. split; [by apply List.Forall_rev|].
    rewrite List.length_rev. unfold zlen in *. lia.
Qed.

Lemma enumerate_ok db u start stop :
  db_ok db -> filter_ok u -> start <= stop ->
  exists l, gatt_db_foreach_in_range u start stop db = Some l /\ Forall (fun a => is_Some (get_attr a db)) l.
Proof.
  intros Hok Hu Hle. unfold gatt_db_foreach_in_range. rewrite (proj2 (Z.ltb_ge stop start)) by done.
  destruct (foreach_attrs_spec db u start stop (services db) (do_wf _ Hok) Hu) as (l & -> & _ & Hl);
    [done|apply (do_wf _ Hok)|].
  exists l. split; [done|]. apply Forall_forall. intros a (sv & A & _ & _ & _ & HA & _)%Hl. by exists A.
Qed.

Lemma read_by_type_serves chan opcode pdu s :
  opcode = BT_ATT_OP_READ_BY_TYPE_REQ -> inv s -> flags s -> pdu_ok (g_att_mtu s) pdu ->
  serves [(chan, opcode)] s (read_by_type_cb authorize junk chan opcode pdu s).
Proof.
  intros Hop Hi Hf [Hb Hl]. unfold read_by_type_cb.
  assert (Herr : forall h e, serves [(chan, opcode)] s (Some (bt_att_chan_send_error_rsp chan opcode h e s)))
    by (intros; by apply serves_error).
  destruct (negb (zlen pdu =? 6) && negb (zlen pdu =? 20)) eqn:El; [apply Herr|].
  destruct (get_uuid_le_ok (drop 4 pdu)) as (u & -> & Hu); [by apply Forall_drop|rewrite zlen_drop; lia|].
  cbn [mbind option_bind]. destruct (_ || _); [apply Herr|].
  destruct (Z.ltb_spec (get_le (slice 2 2 pdu)) (get_le (slice 0 2 pdu))); [apply Herr|].
  destruct (enumerate_ok (g_db s) (Some u) (get_le (slice 0 2 pdu)) (get_le (slice 2 2 pdu))) as (l & E & Hls);
    [apply Hi|done|done|].
  unfold gatt_db_read_by_type. rewrite E. cbn [mbind option_bind].
  destruct (isNil l); [apply Herr|]. destruct (g_pending_read_op s) eqn:Ep; [apply Herr|].
  destruct (i_mtu s Hi). destruct Hf as [Hf1 Hf2].
  rewrite Hop. apply (process_read_by_type_serves l (mkByType chan BT_ATT_OP_READ_BY_TYPE_REQ false (buffer junk (g_att_mtu s)) 0 0)); try done.
  - by apply inv_flag_r.
  - split; [by rewrite <- Hf1 || (unfold nreads in *; cbn; rewrite Hf1, Ep)|done].
  - unfold by_type_ok; cbn -[buffer]. rewrite zlen_buffer by lia. lia.
Qed.

(** *** Read By Group Type *)

Definition is_decl (db : gatt_db) (a : aptr) : Prop := a.2 = O /\ is_Some (svc_heap db !! a.1).

Lemma decl_enumerate_ok db u start stop :
  db_ok db -> comparable u -> start <= stop ->
  exists l, gatt_db_read_by_group_type start stop u db = Some l /\ Forall (is_decl db) l.
Proof.
  intros [Hwf _] Hu Hle. unfold gatt_db_read_by_group_type, gatt_db_foreach_service_in_range.
  rewrite (proj2 (Z.ltb_ge stop start)) by done.
  destruct (foreach_services_spec (foreach_in_range false (Some u) start stop db)
              (fun s a => is_decl db a /\ exists l, foreach_in_range false (Some u) start stop db s = Some l /\ a ∈ l)
              (services db)) as (l & E & Hl).
  - intros s [sv Hs]%(wf_dom db Hwf).
    destruct (foreach_decl_spec db s sv (Some u) start stop Hwf Hu Hs) as (l & E & Hl & _).
    exists l. split; [done|]. intros a. split.
    + intros Ha. split; [|eauto]. apply Hl in Ha as [-> _]. split; [done|by exists sv].
    + intros (_ & l' & E' & Ha). congruence.
  - exists l. split; [done|]. apply Forall_forall. by intros a (s & _ & ? & _)%Hl.
Qed.

Lemma is_decl_attr db a : db_ok db -> is_decl db a -> exists sv A, svc_heap db !! a.1 = Some sv /\
  gatt_db_service_get_handles sv = Some (svc_start sv, svc_end sv) /\ get_attr a db = Some A /\
  read_func A = None /\ stored A = value A /\ decl_ok A /\ handle A = svc_start sv.
Proof.
  intros [Hwf Hin] [E [sv Hs]]. destruct a as [p i]. cbn in *. subst i.
  pose proof (wf_services db Hwf p sv Hs) as Hsv. destruct (wf_attrs sv Hsv) as (A & As & HA & Hf).
  destruct (wf_start sv Hsv) as (B & HB & Hh & Hd). assert (B = A) as -> by congruence.
  assert (Ha : get_attr (p, O) db = Some A) by (apply (get_attr_spec db p 0 A Hwf); exists sv; by rewrite HA).
  exists sv, A. split_and!; [done|by apply get_handles_wf|done| | |done|done].
  - by apply (ai_decl _ _ (Hin _ _ Ha)).
  - unfold stored. apply take_ge. destruct Hd as [Hd _]. unfold zlen in Hd. lia.
Qed.

Lemma u8_small x : 0 <= x < 256 -> u8 x = x.
Proof. intros. unfold wrap. by apply Z.mod_small. Qed.
Lemma u16_small x : 0 <= x <= 65535 -> u16 x = x.
Proof. intros. unfold wrap. apply Z.mod_small. lia. Qed.

Lemma encode_read_by_grp_type_ok mtu q : forall iter dvl pdu s,
  db_ok (g_db s) -> 23 <= mtu <= 65535 -> zlen pdu = mtu -> Forall (is_decl (g_db s)) q ->
  0 <= iter <= mtu - 1 -> 0 <= dvl <= 251 ->
  exists r, encode_read_by_grp_type authorize q mtu iter dvl pdu s = Some (r, s) /\
    match r with Some (p, n) => zlen p = mtu /\ 0 <= n <= mtu - 1 | None => True end.
Proof.
  induction q as [|a q IH]; intros iter dvl pdu s Hok Hm Hz Hq Hit Hd; cbn [encode_read_by_grp_type].
  - eexists. split; [done|]. cbn. rewrite u16_small by lia. lia.
  - apply Forall_cons in Hq as [Ha Hq].
    destruct (is_decl_attr _ a Hok Ha) as (sv & A & Hs & Hg & HA & Hr & Hst & Hdo & Hh).
    destruct (attribute_read_spec authorize junk a A 0 BT_ATT_OP_READ_BY_GRP_TYPE_REQ KStack s Hok HA)
      as [(err & v & -> & Hv)|(cb & id & db' & Hcb & _)]; [lia| |congruence].
    cbn [mbind option_bind]. pose proof (ai_value _ _ (do_attrs _ Hok a A HA)) as Hvo.
    destruct (Hv Hr) as [-> ->]; [unfold value_ok in Hvo; lia|]. rewrite Hst. change (Z.to_nat 0) with O. rewrite drop_0.
    destruct Hdo as (Hvz & Hvl & _). rewrite Hvz.
    destruct (value_len A =? 0) eqn:E0; [lia|].
    set (first := iter =? 0). rewrite u32_small by lia.
    assert (Hdvl : u8 (Z.min (Z.min (mtu - 6) 251) (value_len A)) = value_len A) by (rewrite u8_small; lia).
    rewrite Hdvl. set (dvl' := if first then value_len A else dvl).
    assert (Hd' : 0 <= dvl' <= 251) by (unfold dvl'; destruct first; lia).
    assert (Hp : exists p, (if first then memcpy_at pdu 0 [u8 (dvl' + 4)] else Some pdu) = Some p /\ zlen p = mtu).
    { destruct first; [|by exists pdu].
      destruct (memcpy_at_total pdu 0 [u8 (dvl' + 4)]) as (p & -> & E); [lia|unfold zlen in *; cbn; lia|].
      exists p. split; [done|lia]. }
    destruct Hp as (p & -> & Hp). cbn [mbind option_bind].
    set (it := if first then 1 else iter). assert (Hit' : 0 <= it <= mtu - 1) by (unfold it; destruct first; lia).
    destruct (negb first && negb (value_len A =? dvl')) eqn:Ed.
    { eexists. split; [done|]. cbn. rewrite u16_small by lia. lia. }
    destruct (Z.ltb_spec (mtu - 1) (it + dvl' + 4)).
    { eexists. split; [done|]. cbn. rewrite u16_small by lia. lia. }
    unfold gatt_db_attribute_get_service_handles. rewrite Hs. cbn [mbind option_bind]. rewrite Hg. cbn [mbind option_bind].
    assert (Hdv : dvl' = value_len A).
    { unfold dvl' in *. destruct first; [done|]. cbn in Ed. apply negb_false_iff, Z.eqb_eq in Ed. done. }
    destruct (memcpy_at_total p it (put_le16 (svc_start sv))) as (p1 & -> & E1); [lia|rewrite zlen_put_le16; lia|].
    cbn [mbind option_bind].
    destruct (memcpy_at_total p1 (it + 2) (put_le16 (svc_end sv))) as (p2 & -> & E2); [lia|rewrite zlen_put_le16; lia|].
    cbn [mbind option_bind]. rewrite memread_Some by lia. cbn [mbind option_bind].
    pose proof (zlen_slice 0 dvl' (value A) ltac:(lia) ltac:(lia) ltac:(lia)) as Hsl.
    destruct (memcpy_at_total p2 (it + 4) (slice 0 dvl' (value A))) as (p3 & -> & E3); [lia|lia|].
    cbn [mbind option_bind]. apply IH; try done; lia.
Qed.

Lemma read_by_grp_type_serves chan opcode pdu s :
  opcode = BT_ATT_OP_READ_BY_GRP_TYPE_REQ -> inv s -> flags s -> pdu_ok (g_att_mtu s) pdu ->
  serves [(chan, opcode)] s (read_by_grp_type_cb authorize junk chan opcode pdu s).
Proof.
  intros Hop Hi Hf [Hb Hl]. unfold read_by_grp_type_cb. destruct (i_mtu s Hi) as [Hm _].
  assert (Herr : forall h e, serves [(chan, opcode)] s (Some (bt_att_chan_send_error_rsp chan opcode h e s)))
    by (intros; by apply serves_error).
  destruct (negb (zlen pdu =? 6) && negb (zlen pdu =? 20)) eqn:El; [apply Herr|].
  destruct (get_uuid_le_ok (drop 4 pdu)) as (u & -> & Hu); [by apply Forall_drop|rewrite zlen_drop; lia|].
  cbn [mbind option_bind]. destruct (_ || _); [apply Herr|].
  destruct (Z.ltb_spec (get_le (slice 2 2 pdu)) (get_le (slice 0 2 pdu))); [apply Herr|].
  destruct (uuid_eq_some u primary_service_uuid Hu) as [b1 ->]; [by apply comparable16|].
  destruct (uuid_eq_some u secondary_service_uuid Hu) as [b2 ->]; [by apply comparable16|].
  cbn [mbind option_bind]. destruct (negb b1 && negb b2); [apply Herr|].
  destruct (decl_enumerate_ok (g_db s) u (get_le (slice 0 2 pdu)) (get_le (slice 2 2 pdu))) as (l & -> & Hls);
    [apply Hi|done|done|].
  cbn [mbind option_bind]. destruct (isNil l); [apply Herr|].
  destruct (encode_read_by_grp_type_ok (g_att_mtu s) l 0 0 (buffer junk (g_att_mtu s)) s) as (r & -> & Hr);
    [apply Hi|done|apply zlen_buffer; lia|done|lia|lia|].
  cbn [mbind option_bind]. destruct r as [[p n]|]; [|apply Herr].
  destruct Hr as [Hp Hn]. rewrite memread_Some by lia. cbn [mbind option_bind].
  apply serves_rsp; try done; [rewrite zlen_slice; lia|by rewrite Hop].
Qed.

(** *** Find Information and Find By Type Value *)

Lemma attr_comparable db a A : db_ok db -> get_attr a db = Some A -> comparable (uuid A).
Proof.
  intros [Hwf _] Ha. destruct a as [s i]. apply (get_attr_spec db s i A Hwf) in Ha as (sv & Hs & HA).
  by apply (attr_range sv i A (wf_services db Hwf s sv Hs) HA).
Qed.

Lemma uuid_le_len u : comparable u -> zlen (bt_uuid_to_le u).2 = if bt_uuid_len u =? 2 then 2 else 16.
Proof.
  intros [Hu Hs]. destruct u as [|v|v|d]; [done| | |].
  - done.
  - done.
  - destruct Hu as [_ Hl]. cbn. unfold zlen. rewrite List.length_rev, Hl. done.
Qed.

Lemma encode_find_info_ok mtu db q : forall iter ulen pdu,
  db_ok db -> 23 <= mtu <= 65535 -> zlen pdu = mtu -> Forall (fun a => is_Some (get_attr a db)) q ->
  0 <= iter <= mtu - 1 -> (iter = 0 \/ ulen = 2 \/ ulen = 16) ->
  exists r, encode_find_info q mtu iter ulen pdu db = Some r /\
    match r with Some (p, n) => zlen p = mtu /\ 0 <= n <= mtu - 1 | None => True end.
Proof.
  induction q as [|a q IH]; intros iter ulen pdu Hok Hm Hz Hq Hit Hul; cbn [encode_find_info].
  - eexists. split; [done|]. cbn. rewrite u16_small by lia. lia.
  - apply Forall_cons in Hq as [[A HA] Hq]. rewrite (get_handle_eq a A) by done.
    unfold gatt_db_attribute_get_type. rewrite HA. cbn [mbind option_bind].
    pose proof (uuid_le_len _ (attr_comparable db a A Hok HA)) as Hlen.
    destruct (handle A =? 0); [by exists None|]. set (cur := bt_uuid_len (uuid A)) in *.
    set (first := iter =? 0). destruct (first && _ && _ && _) eqn:Eb; [by exists None|].
    set (ul := if first then _ else ulen).
    assert (Hul' : ul = 2 \/ ul = 16) by (unfold ul, first; destruct (Z.eqb_spec iter 0), (cur =? 2); lia).
    assert (Hp : exists p, (if first then memcpy_at pdu 0 [if cur =? 2 then 1 else 2] else Some pdu) = Some p /\
      zlen p = mtu).
    { destruct first; [|by exists pdu].
      destruct (memcpy_at_total pdu 0 [if cur =? 2 then 1 else 2]) as (p & -> & E); [lia|unfold zlen in *; cbn; lia|].
      exists p. split; [done|lia]. }
    destruct Hp as (p & -> & Hp). cbn [mbind option_bind].
    set (it := if first then 1 else iter). assert (Hit' : 0 <= it <= mtu - 1) by (unfold it; destruct first; lia).
    destruct (negb first && negb (cur =? ul)) eqn:Ed.
    { eexists. split; [done|]. cbn. rewrite u16_small by lia. lia. }
    destruct (Z.ltb_spec (mtu - 1) (it + ul + 2)).
    { eexists. split; [done|]. cbn. rewrite u16_small by lia. lia. }
    assert (Hll : zlen (bt_uuid_to_le (uuid A)).2 = ul).
    { rewrite Hlen. unfold ul. destruct first; [done|]. cbn in Ed. unfold ul in Hul'.
      apply negb_false_iff, Z.eqb_eq in Ed. unfold ul in Ed. rewrite Ed. destruct Hul' as [->| ->]; done. }
    destruct (memcpy_at_total p it (put_le16 (handle A))) as (p1 & -> & E1); [lia|rewrite zlen_put_le16; lia|].
    cbn [mbind option_bind].
    destruct (memcpy_at_total p1 (it + 2) (bt_uuid_to_le (uuid A)).2) as (p2 & -> & E2); [lia|lia|].
    cbn [mbind option_bind]. apply IH; try done; lia.
Qed.

Lemma find_info_serves chan opcode pdu s :
  opcode = BT_ATT_OP_FIND_INFO_REQ -> inv s -> flags s -> pdu_ok (g_att_mtu s) pdu ->
  serves [(chan, opcode)] s (find_info_cb junk chan opcode pdu s).
Proof.
  intros Hop Hi Hf [Hb Hl]. unfold find_info_cb. destruct (i_mtu s Hi) as [Hm _].
  assert (Herr : forall h e, serves [(chan, opcode)] s (Some (bt_att_chan_send_error_rsp chan opcode h e s)))
    by (intros; by apply serves_error).
  destruct (negb (zlen pdu =? 4)); [apply Herr|]. destruct (_ || _); [apply Herr|].
  destruct (Z.ltb_spec (get_le (slice 2 2 pdu)) (get_le (slice 0 2 pdu))); [apply Herr|].
  destruct (enumerate_ok (g_db s) None (get_le (slice 0 2 pdu)) (get_le (slice 2 2 pdu))) as (l & E & Hls);
    [apply Hi|done|done|].
  unfold gatt_db_find_information. rewrite E. cbn [mbind option_bind]. destruct (isNil l); [apply Herr|].
  destruct (encode_find_info_ok (g_att_mtu s) (g_db s) l 0 0 (buffer junk (g_att_mtu s))) as (r & -> & Hr);
    [apply Hi|done|apply zlen_buffer; lia|done|lia|lia|].
  cbn [mbind option_bind]. destruct r as [[p n]|]; [|apply Herr].
  destruct Hr as [Hp Hn]. rewrite memread_Some by lia. cbn [mbind option_bind].
  apply serves_rsp; try done; [rewrite zlen_slice; lia|by rewrite Hop].
Qed.

Lemma find_by_type_ok db val l :
  db_ok db -> Forall (fun a => is_Some (get_attr a db)) l ->
  exists r, find_by_type val l db = Some r /\ Forall (fun a => is_Some (get_attr a db)) r.
Proof.
  intros Hok. induction 1 as [|a l [A HA] _ (r & IH & Hr)]; cbn [find_by_type]; [by exists []|].
  rewrite HA. cbn [mbind option_bind]. pose proof (ai_value _ _ (do_attrs _ Hok a A HA)) as [Hv1 Hv2].
  assert (exists b, match val with None => Some true | Some v =>
            if negb (zlen v =? value_len A) then Some false
            else d ← memread (value A) 0 (value_len A); Some (memcmp d v =? 0) end = Some b) as [b ->].
  { destruct val as [v|]; [|by exists true]. destruct (negb _); [by exists false|].
    rewrite memread_Some by lia. cbn. by eexists. }
  cbn [mbind option_bind]. rewrite IH. cbn [mbind option_bind]. eexists. split; [done|].
  destruct b; [|done]. constructor; [by exists A|done].
Qed.

Lemma find_by_type_val_att_ok mtu db l : forall pdu len ecode,
  db_ok db -> Forall (fun a => is_Some (get_attr a db)) l -> 23 <= mtu <= 65535 -> zlen pdu = mtu ->
  0 <= len <= mtu - 1 ->
  exists p n e, find_by_type_val_att l mtu pdu len ecode db = Some (p, n, e) /\ zlen p = mtu /\ 0 <= n <= mtu - 1.
Proof.
  intros pdu len ecode Hok Hl Hm. revert pdu len ecode.
  induction Hl as [|a l [A HA] _ IH]; intros pdu len ecode Hp Hn; cbn [find_by_type_val_att].
  - by exists pdu, len, ecode.
  - destruct (negb _); [by apply IH|]. destruct (Z.ltb_spec (mtu - 1) (len + 4)); [by apply IH|].
    unfold gatt_db_attribute_get_service_handles. destruct a as [t i].
    pose proof (do_wf _ Hok) as Hwf. apply (get_attr_spec db t i A Hwf) in HA as (sv & Hs & _). cbn [fst].
    rewrite Hs. cbn [mbind option_bind]. rewrite get_handles_wf by by eapply wf_services.
    cbn [mbind option_bind]. destruct (_ || _); [by apply IH|].
    destruct (memcpy_at_total pdu len (put_le16 (svc_start sv))) as (p1 & -> & E1); [lia|rewrite zlen_put_le16; lia|].
    cbn [mbind option_bind].
    destruct (memcpy_at_total p1 (len + 2) (put_le16 (svc_end sv))) as (p2 & -> & E2); [lia|rewrite zlen_put_le16; lia|].
    cbn [mbind option_bind]. apply IH; [lia|]. rewrite u16_small; lia.
Qed.

Lemma find_by_type_val_serves chan opcode pdu s :
  opcode = BT_ATT_OP_FIND_BY_TYPE_REQ -> inv s -> flags s -> pdu_ok (g_att_mtu s) pdu ->
  serves [(chan, opcode)] s (find_by_type_val_cb junk chan opcode pdu s).
Proof.
  intros Hop Hi Hf [Hb Hl]. unfold find_by_type_val_cb. destruct (i_mtu s Hi) as [Hm _].
  assert (Herr : forall h e, serves [(chan, opcode)] s (Some (bt_att_chan_send_error_rsp chan opcode h e s)))
    by (intros; by apply serves_error).
  destruct (zlen pdu <? 6); [apply Herr|].
  destruct (Z.ltb_spec (get_le (slice 2 2 pdu)) (get_le (slice 0 2 pdu))); [apply Herr|].
  pose proof (le16_range 4 pdu Hb) as Hu.
  destruct (enumerate_ok (g_db s) (Some (bt_uuid16_create (get_le (slice 4 2 pdu))))
    (get_le (slice 0 2 pdu)) (get_le (slice 2 2 pdu))) as (l & E & Hls); [apply Hi| |done|].
  { apply comparable16. rewrite u16_small by done. lia. }
  unfold gatt_db_find_by_type_value. rewrite E. cbn [mbind option_bind].
  destruct (find_by_type_ok (g_db s) (Some (drop 6 pdu)) l (i_db s Hi) Hls) as (r & -> & Hr).
  cbn [mbind option_bind snd].
  destruct (find_by_type_val_att_ok (g_att_mtu s) (g_db s) r (buffer junk (g_att_mtu s)) 0 0)
    as (p & n & e & -> & Hp & Hn); [apply Hi|done|done|apply zlen_buffer; lia|lia|].
  cbn [mbind option_bind]. destruct (negb _); [apply Herr|]. rewrite memread_Some by lia. cbn [mbind option_bind].
  apply serves_rsp; try done; [rewrite zlen_slice; lia|by rewrite Hop].
Qed.

(** *** Reads and writes of one attribute *)

Definition writing (s : server) : Prop :=
  nwrites s = O /\ g_pending_write_op s = true /\ nreads s = Nat.b2n (g_pending_read_op s).

Lemma serves_same s s0 : inv s -> flags s -> from s0 s -> serves [] s0 (Some s).
Proof. intros Hi Hf [E Hp]. exists s. split_and!; [done|done|done|by rewrite E|done]. Qed.

Lemma write_complete_serves a A err chan opcode s s0 :
  opcode = BT_ATT_OP_WRITE_REQ \/ opcode = BT_ATT_OP_WRITE_CMD -> inv s -> writing s -> get_attr a (g_db s) = Some A -> from s0 s ->
  serves (owed (KWrite chan opcode)) s0 (write_complete_cb a err chan opcode s).
Proof.
  intros Hop Hi (Hw & Hp & Hr) HA E. unfold write_complete_cb. cbn [owed].
  assert (Hi' : inv (async_write_op_destroy s)) by by apply inv_flag_w.
  assert (Hf' : flags (async_write_op_destroy s)) by done.
  destruct (Z.eqb_spec opcode BT_ATT_OP_WRITE_CMD) as [|Hne]; [by apply serves_same|]. destruct Hop as [Hop|]; [|done].
  rewrite (get_handle_eq a A) by done. cbn [mbind option_bind]. destruct (i_mtu s Hi).
  destruct (negb (err =? 0)).
  - by apply (serves_error chan opcode (handle A) err (async_write_op_destroy s)).
  - apply (serves_rsp chan opcode BT_ATT_OP_WRITE_RSP [] (async_write_op_destroy s)); try done; [change (0 <= g_att_mtu s - 1); lia|by rewrite Hop].
Qed.

Lemma get_attr_next db db' a A : db_next none db db' -> get_attr a db = Some A ->
  exists A', get_attr a db' = Some A' /\ static A' = static A.
Proof. intros [] H. by eapply static_get. Qed.

Lemma write_serves' chan opcode pdu s :
  opcode = BT_ATT_OP_WRITE_REQ \/ opcode = BT_ATT_OP_WRITE_CMD -> inv s -> flags s -> pdu_ok (g_att_mtu s) pdu ->
  serves (owed (KWrite chan opcode)) s (write_cb authorize run_authorize junk chan opcode pdu s).
Proof.
  intros Hop Hi Hf [Hb Hl]. unfold write_cb. cbn zeta.
  set (fail := fun h ecode (s : server) => Some (if opcode =? BT_ATT_OP_WRITE_CMD then s
    else bt_att_chan_send_error_rsp chan opcode h ecode s)).
  assert (Herr : forall h e, serves (owed (KWrite chan opcode)) s (fail h e s)).
  { intros h e. unfold fail. cbn [owed]. destruct (opcode =? BT_ATT_OP_WRITE_CMD);
      [by apply serves_same|by apply serves_error]. }
  destruct (zlen pdu <? 2); [apply Herr|]. destruct (negb _); [apply Herr|].
  destruct (find_attribute (g_db s) (get_le (slice 0 2 pdu)) (i_db s Hi)) as (r & -> & Hr).
  cbn [mbind option_bind]. destruct r as [a|]; [|apply Herr]. destruct Hr as (A & HA & _).
  rewrite (check_permissions_eq a A) by done. cbn [mbind option_bind].
  destruct (negb _) eqn:Ep; [apply Herr|]. apply negb_false_iff, Z.eqb_eq in Ep.
  destruct (g_pending_write_op s) eqn:Ew; [apply Herr|]. destruct Hf as [Hf1 Hf2]. rewrite Ew in Hf2.
  apply (write_serves a A 0 (drop 2 pdu) opcode (KWrite chan opcode)
           (fun err s => write_complete_cb a err chan opcode s)); try done.
  - by apply inv_flag_w.
  - by eapply permitted_writable.
  - change (nwrites _) with (nwrites s). by rewrite Hf2.
  - intros err db' Hn. destruct (get_attr_next _ _ _ _ Hn HA) as (A' & HA' & _).
    apply (write_complete_serves a A'); try done; [apply inv_set_db; [by apply inv_flag_w|done]|by apply from_set_db].
Qed.

Lemma read_complete_serves a A err v chan opcode s s0 :
  opcode = BT_ATT_OP_READ_REQ \/ opcode = BT_ATT_OP_READ_BLOB_REQ -> inv s -> reading s -> get_attr a (g_db s) = Some A -> from s0 s ->
  serves [(chan, opcode)] s0 (read_complete_cb a err v chan opcode s).
Proof.
  intros Hop Hi Hr HA E. unfold read_complete_cb. rewrite (get_handle_eq a A) by done. cbn [mbind option_bind].
  destruct (negb _); [by apply read_ends_error|]. destruct (i_mtu s Hi) as [Hm _]. pose proof (zlen_nonneg v).
  rewrite u32_small, u16_small by lia. rewrite memread_Some by lia. cbn [mbind option_bind].
  apply read_ends_rsp; try done; [rewrite zlen_slice; lia|by destruct Hop as [-> | ->]].
Qed.

Lemma handle_read_serves chan opcode h off s :
  opcode = BT_ATT_OP_READ_REQ \/ opcode = BT_ATT_OP_READ_BLOB_REQ -> inv s -> flags s -> 0 <= off <= 65535 ->
  serves [(chan, opcode)] s (handle_read_req authorize run_authorize chan opcode h off s).
Proof.
  intros Hop Hi Hf Ho. unfold handle_read_req. cbn zeta.
  assert (Herr : forall h e, serves [(chan, opcode)] s (Some (bt_att_chan_send_error_rsp chan opcode h e s)))
    by (intros; by apply serves_error).
  destruct (negb _); [apply Herr|].
  destruct (find_attribute (g_db s) h (i_db s Hi)) as (r & -> & Hr).
  cbn [mbind option_bind]. destruct r as [a|]; [|apply Herr]. destruct Hr as (A & HA & _).
  rewrite (check_permissions_eq a A) by done. cbn [mbind option_bind]. destruct (negb _); [apply Herr|].
  destruct (g_pending_read_op s) eqn:Ep; [apply Herr|]. destruct Hf as [Hf1 Hf2]. rewrite Ep in Hf1.
  apply (read_serves a A off opcode (KRead chan opcode)
           (fun err v s => read_complete_cb a err v chan opcode s)); try done.
  - by apply inv_flag_r.
  - change (nreads _) with (nreads s). by rewrite Hf1.
  - intros err v. apply (read_complete_serves a A); try done. by apply inv_flag_r.
Qed.

Lemma read_cb_serves chan opcode pdu s :
  opcode = BT_ATT_OP_READ_REQ \/ opcode = BT_ATT_OP_READ_BLOB_REQ -> inv s -> flags s -> serves [(chan, opcode)] s (read_cb authorize run_authorize chan opcode pdu s).
Proof.
  intros Hop Hi Hf. unfold read_cb. destruct (negb _); [by apply serves_error|]. by apply handle_read_serves.
Qed.

Lemma read_blob_serves chan opcode pdu s :
  opcode = BT_ATT_OP_READ_REQ \/ opcode = BT_ATT_OP_READ_BLOB_REQ -> inv s -> flags s -> pdu_ok (g_att_mtu s) pdu ->
  serves [(chan, opcode)] s (read_blob_cb authorize run_authorize chan opcode pdu s).
Proof.
  intros Hop Hi Hf [Hb _]. unfold read_blob_cb. destruct (negb _); [by apply serves_error|].
  apply handle_read_serves; try done. by apply le16_range.
Qed.

(** *** Read Multiple *)

Lemma encode_read_multiple_ok mtu v d :
  mtu <= 65535 -> mult_ok mtu d ->
  exists d', encode_read_multiple v d = Some d' /\ mult_ok mtu d' /\ (rm_chan d', rm_opcode d') = (rm_chan d, rm_opcode d).
Proof.
  intros Hm (Hop & Hmt & Hz & Hl). unfold encode_read_multiple. pose proof (zlen_nonneg v) as Hv.
  set (vl := rm_opcode d =? BT_ATT_OP_READ_MULT_VL_REQ). set (room := rm_mtu d - rm_length d).
  assert (Hroom : 1 <= room <= 65535) by lia.
  set (n := if vl then _ else _). assert (Hn : 0 <= n <= zlen v /\ n <= room - 1 /\ (vl = true -> n <= Z.max room 3 - 3))
    by (unfold n; destruct vl; lia).
  rewrite (u16_small n) by lia.
  set (tuple := vl && (3 <=? room)).
  assert (Ht : tuple = true -> 3 <= room) by (intros [_ ?%Z.leb_le]%andb_true_iff; done).
  assert (Htn : tuple = true -> n <= room - 3)
    by (intros E; pose proof (Ht E); apply andb_true_iff in E as [Ev _]; destruct Hn as (_ & _ & Hn); specialize (Hn Ev); lia).
  assert (Hp : exists p, (if tuple then memcpy_at (rm_rsp_data d) (rm_length d) (put_le16 (zlen v)) else Some (rm_rsp_data d))
    = Some p /\ zlen p = rm_mtu d - 1).
  { destruct tuple; [|by exists (rm_rsp_data d)].
    destruct (memcpy_at_total (rm_rsp_data d) (rm_length d) (put_le16 (zlen v))) as (p & -> & E);
      [lia|rewrite zlen_put_le16; lia|]. exists p. split; [done|lia]. }
  destruct Hp as (p & -> & Hp). cbn [mbind option_bind]. rewrite memread_Some by lia. cbn [mbind option_bind].
  pose proof (zlen_slice 0 n v ltac:(lia) ltac:(lia) ltac:(lia)) as Hsl.
  set (len := if tuple then _ else _). assert (Hlen : 0 <= len /\ len + n <= rm_mtu d - 1) by (unfold len; destruct tuple; lia).
  destruct (memcpy_at_total p len (slice 0 n v)) as (p2 & -> & E2); [lia|lia|].
  cbn [mbind option_bind]. eexists. split_and!; [done| |done]. unfold mult_ok; cbn. lia.
Qed.

Lemma read_multiple_serves l d s s0 :
  inv s -> flags s -> mult_ok (g_att_mtu s) d -> Forall (fun h => 0 <= h) l -> from s0 s ->
  serves [(rm_chan d, rm_opcode d)] s0 (read_multiple authorize l d s).
Proof.
  revert d. induction l as [|h l IH]; intros d Hi Hf Hd Hl E; cbn [read_multiple]; destruct (i_mtu s Hi) as [Hm _].
  - destruct Hd as (Hop & Hmt & Hz & Hlen). rewrite u16_small, memread_Some by lia. cbn [mbind option_bind].
    apply serves_rsp; try done; [rewrite zlen_slice; lia|by rewrite wrap_small by lia].
  - rewrite (i_alive s Hi). cbn [negb].
    assert (Herr : forall h e, serves [(rm_chan d, rm_opcode d)] s0 (Some (bt_att_chan_send_error_rsp (rm_chan d) (rm_opcode d) h e s)))
      by (intros; by apply serves_error).
    apply Forall_cons in Hl as [Hh Hl].
    destruct (find_attribute (g_db s) h (i_db s Hi)) as (r & -> & Hr).
    cbn [mbind option_bind]. destruct r as [a|]; [|apply Herr]. destruct Hr as (A & HA & _).
    rewrite (check_permissions_eq a A) by done. cbn [mbind option_bind]. destruct (negb _); [apply Herr|].
    destruct Hf as [Hf1 Hf2].
    apply (read_serves a A 0 (rm_opcode d) (KMult d l)
             (fun err v s => read_multiple_complete_cb (fun d s => read_multiple authorize l d s) a err v d s)); try done.
    intros err v. unfold read_multiple_complete_cb. rewrite (get_handle_eq a A) by done. cbn [mbind option_bind].
    destruct (negb _); [apply Herr|].
    destruct (encode_read_multiple_ok (g_att_mtu s) v d) as (d' & -> & Hd' & Hc); [lia|done|].
    cbn [mbind option_bind owed]. rewrite <- Hc. by apply IH.
Qed.

Lemma handles_of_ok n : forall pdu, bytes_ok pdu -> Forall (fun h => 0 <= h) (handles_of n pdu).
Proof.
  induction n as [|n IH]; intros pdu Hb; cbn; constructor.
  - apply (get_le_range (take 2 pdu)); [by apply Forall_take|]. unfold zlen. rewrite length_take. lia.
  - apply IH. by apply Forall_drop.
Qed.

Lemma read_multiple_cb_serves chan opcode pdu s :
  0 <= opcode <= 254 -> inv s -> flags s -> pdu_ok (g_att_mtu s) pdu -> serves [(chan, opcode)] s (read_multiple_cb authorize chan opcode pdu s).
Proof.
  intros Hop Hi Hf [Hb Hl]. unfold read_multiple_cb. destruct (zlen pdu <? 4); [by apply serves_error|].
  destruct (i_mtu s Hi) as [Hm _].
  apply (read_multiple_serves _ (read_mult_data_new chan opcode s)); try done.
  - unfold mult_ok, read_mult_data_new; cbn -[replicate]. rewrite zlen_replicate. lia.
  - by apply handles_of_ok.
Qed.

(** *** Prepare Write *)

Lemma descs_from_ok db t l : forall i,
  (forall j A, l !! j = Some (Some A) -> comparable (uuid A) /\ get_attr (t, i + j)%nat db = Some A) ->
  exists r, descs_from t i l = Some r /\ Forall (fun a => is_Some (get_attr a db)) r.
Proof.
  induction l as [|[A|] l IH]; intros i Hl; cbn [descs_from].
  - by exists [].
  - destruct (Hl O A eq_refl) as [Hu HA]. rewrite Nat.add_0_r in HA.
    destruct (uuid_eq_some characteristic_uuid (uuid A)) as [c ->]; [by apply comparable16|done|].
    destruct (uuid_eq_some included_service_uuid (uuid A)) as [c' ->]; [by apply comparable16|done|].
    cbn [mbind option_bind]. destruct (IH (Datatypes.S i)) as (r & E & Hr).
    { intros j B Hj. destruct (Hl (Datatypes.S j) B Hj) as [? HB]. split; [done|].
      by rewrite <- Nat.add_succ_comm in HB. }
    destruct c, c'; cbn [mbind option_bind]; rewrite ?E; cbn [mbind option_bind]; (eexists; split; [done|]);
      repeat constructor; try done; by exists A.
  - destruct (IH (Datatypes.S i)) as (r & E & Hr); [|by exists r].
    intros j B Hj. destruct (Hl (Datatypes.S j) B Hj) as [? HB]. split; [done|]. by rewrite <- Nat.add_succ_comm in HB.
Qed.

Lemma foreach_desc_ok db a :
  db_ok db -> is_Some (get_attr a db) ->
  exists r, gatt_db_service_foreach_desc (Some a) db = Some r /\ Forall (fun a => is_Some (get_attr a db)) r.
Proof.
  intros Hok [A HA]. unfold gatt_db_service_foreach_desc. rewrite HA. cbn [mbind option_bind].
  destruct (uuid_eq_some characteristic_uuid (uuid A)) as [c ->];
    [by apply comparable16|by eapply attr_comparable|].
  cbn [mbind option_bind]. destruct (negb c); [by exists []|]. destruct a as [t i]. cbn [fst snd].
  pose proof (do_wf _ Hok) as Hwf. apply (get_attr_spec db t i A Hwf) in HA as (sv & Hs & _).
  rewrite Hs. cbn [mbind option_bind]. apply descs_from_ok. intros j B Hj.
  rewrite lookup_drop in Hj. apply lookup_take_Some in Hj as [Hj _].
  pose proof (wf_services db Hwf t sv Hs) as Hsv. split.
  - apply (attr_lookup sv _ B Hsv) in Hj. by apply (attr_range sv _ B Hsv Hj).
  - unfold get_attr. cbn. rewrite Hs. cbn. by rewrite Hj.
Qed.

Lemma read_ext_prop_ok l ext s :
  inv s -> Forall (fun a => is_Some (get_attr a (g_db s))) l ->
  exists x, read_ext_prop authorize l ext s = Some (x, s).
Proof.
  intros Hi Hl. revert ext. induction Hl as [|a l [A HA] _ IH]; intros ext; cbn [read_ext_prop]; [by eexists|].
  destruct (negb _); [apply IH|]. rewrite HA. cbn [mbind option_bind].
  destruct (uuid_eq_spec ext_desc_uuid (uuid A)) as (b & -> & Hb);
    [by apply comparable16|eapply attr_comparable; [apply Hi|done]|].
  cbn [mbind option_bind]. destruct b; cbn [negb]; [|apply IH].
  pose proof (ai_ext _ _ (do_attrs _ (i_db s Hi) a A HA) (proj1 Hb eq_refl)) as Hr.
  destruct (attribute_read_spec authorize junk a A 0 BT_ATT_OP_READ_REQ KExtProp s)
    as [(err & v & -> & _)|(cb & id & db' & Hcb & _)]; [apply Hi|done|lia| |congruence].
  cbn [mbind option_bind]. destruct (_ || _); apply IH.
Qed.

Lemma is_reliable_ok h s : inv s -> exists b, is_reliable_write_supported authorize h s = Some (b, s).
Proof.
  intros Hi. unfold is_reliable_write_supported.
  destruct (find_attribute (g_db s) h (i_db s Hi)) as (r & -> & Hr). cbn [mbind option_bind].
  destruct r as [a|]; [|by eexists]. destruct Hr as (A & HA & _). rewrite HA. cbn [mbind option_bind].
  destruct (uuid_eq_some characteristic_uuid (uuid A)) as [c Ec];
    [by apply comparable16|eapply attr_comparable; [apply Hi|done]|].
  rewrite Ec. cbn [mbind option_bind]. destruct (_ || _) eqn:Eb; [by eexists|].
  unfold get_char_extended_prop. rewrite HA. cbn [mbind option_bind]. rewrite Ec. cbn [mbind option_bind].
  destruct (negb c) eqn:Enc; [by eexists|].
  pose proof (ai_value _ _ (do_attrs _ (i_db s Hi) a A HA)) as [Hv1 Hv2].
  apply orb_false_iff in Eb as [_ Eb]. rewrite memread_Some by lia. cbn [mbind option_bind].
  destruct (_ =? 0); [by eexists|].
  destruct (foreach_desc_ok (g_db s) a) as (l & -> & Hl); [apply Hi|by exists A|]. cbn [mbind option_bind].
  destruct (read_ext_prop_ok l 0 s Hi Hl) as (x & ->). cbn [mbind option_bind]. by eexists.
Qed.

Lemma append_prep_ok data p :
  zlen (pw_value p) = pw_length p -> pw_length p + zlen data <= 65535 ->
  exists p', append_prep_data junk data p = Some p' /\ zlen (pw_value p') = pw_length p' /\
    pw_length p' = pw_length p + zlen data /\ pw_handle p' = pw_handle p /\ pw_offset p' = pw_offset p /\
    pw_value p' = pw_value p ++ data /\ reliable_supported p' = reliable_supported p.
Proof.
  intros Hz Hl. unfold append_prep_data. pose proof (zlen_nonneg data). pose proof (zlen_nonneg (pw_value p)).
  destruct (Z.eqb_spec (zlen data) 0) as [E|E].
  - exists p. rewrite (zlen_0_nil data E), app_nil_r, zlen_nil. split_and!; try done. lia.
  - rewrite u16_small by lia.
    pose proof (zlen_realloc junk (pw_value p) (pw_length p + zlen data) ltac:(lia)) as Hr.
    rewrite memcpy_at_Some by lia. cbn [mbind option_bind]. eexists. split; [done|]. cbn [pw_value pw_length pw_handle pw_offset].
    assert (Hv : take (Z.to_nat (pw_length p)) (realloc junk (pw_value p) (pw_length p + zlen data)) ++ data ++
      drop (Z.to_nat (pw_length p + zlen data)) (realloc junk (pw_value p) (pw_length p + zlen data)) = pw_value p ++ data).
    { rewrite (drop_ge (realloc _ _ _)) by (unfold zlen in *; lia). rewrite app_nil_r. f_equal.
      rewrite realloc_grow by lia. rewrite take_app_le by (unfold zlen in *; lia). apply take_ge. unfold zlen in *. lia. }
    rewrite Hv. split_and!; try done. rewrite zlen_app. lia.
Qed.

(** What is prepared fits the 16-bit length it is kept with. *)
Definition store_fits (pdu : list Z) (s : server) : Prop :=
  forall p, last (g_prep_queue s) = Some p -> pw_handle p = get_le (slice 0 2 pdu) ->
    get_le (slice 2 2 pdu) = pw_length p + pw_offset p -> pw_length p + (zlen pdu - 4) <= 65535.

Lemma store_prep_ok pdu s :
  inv s -> pdu_ok (g_att_mtu s) pdu -> 4 <= zlen pdu -> may_write (g_db s) (get_le (slice 0 2 pdu)) ->
  store_fits pdu s ->
  exists q, store_prep_data authorize junk (get_le (slice 0 2 pdu)) (get_le (slice 2 2 pdu)) (drop 4 pdu) s
    = Some (set_g_prep_queue q s) /\ Forall (prep_ok (g_db s)) q.
Proof.
  intros Hi [Hb Hl] H4 Hw Hfit. unfold store_prep_data. destruct (i_mtu s Hi) as [Hm _].
  assert (Hz4 : zlen (drop 4 pdu) = zlen pdu - 4) by (rewrite zlen_drop; lia).
  pose proof (i_queue s Hi) as Hq. pose proof (le16_range 2 pdu Hb) as Ho.
  assert (Hnew : exists q, prep_data_new authorize junk (get_le (slice 0 2 pdu)) (get_le (slice 2 2 pdu)) (drop 4 pdu) s
    = Some (set_g_prep_queue q s) /\ Forall (prep_ok (g_db s)) q).
  { unfold prep_data_new. destruct (append_prep_ok (drop 4 pdu) (mkPrep [] 0 0 0 false))
      as (p & -> & Hp1 & Hp2 & _); [done|cbn [pw_length]; lia|].
    cbn [mbind option_bind]. destruct (is_reliable_ok (u16 (get_le (slice 0 2 pdu) - 1)) s Hi) as [b ->].
    cbn [mbind option_bind]. eexists. split; [done|]. apply Forall_app. split; [done|]. constructor; [|done].
    cbn [pw_length] in Hp2. split_and!; cbn [pw_handle pw_value pw_length pw_offset]; [done|done|lia|lia|lia]. }
  destruct (last (g_prep_queue s)) as [p|] eqn:El; [|done].
  destruct ((pw_handle p =? _) && _) eqn:Ec; [|done].
  apply andb_true_iff in Ec as [Eh%Z.eqb_eq Eo%Z.eqb_eq].
  pose proof (Hfit p El Eh Eo) as Hlen. rewrite Forall_forall in Hq.
  apply last_cons_snoc in El as [l El]. destruct (Hq p) as (Hp1 & Hp2 & Hp3 & Hp4); [rewrite El; set_solver|].
  destruct (append_prep_ok (drop 4 pdu) p) as (p' & -> & Ha1 & Ha2 & Ha3 & Ha4 & _); [done|lia|].
  cbn [mbind option_bind]. eexists. split; [done|]. apply Forall_app. split.
  - apply Forall_take, Forall_forall, Hq.
  - constructor; [|done]. split_and!; rewrite ?Ha3, ?Ha4; try done; lia.
Qed.

Lemma prep_write_complete_serves err chan pdu s s0 :
  inv s -> flags s -> pdu_ok (g_att_mtu s) pdu -> 4 <= zlen pdu ->
  may_write (g_db s) (get_le (slice 0 2 pdu)) -> (err = 0 -> store_fits pdu s) -> from s0 s ->
  serves [(chan, BT_ATT_OP_PREP_WRITE_REQ)] s0 (prep_write_complete_cb authorize junk err chan pdu s).
Proof.
  intros Hi Hf Hp H4 Hw Hfit E. unfold prep_write_complete_cb.
  destruct (Z.eqb_spec err 0) as [E0|]; cbn [negb]; [|by apply serves_error].
  rewrite (i_alive s Hi). cbn [negb].
  destruct (store_prep_ok pdu s Hi Hp H4 Hw (Hfit E0)) as (q & -> & Hq). cbn [mbind option_bind].
  apply (serves_rsp chan BT_ATT_OP_PREP_WRITE_REQ BT_ATT_OP_PREP_WRITE_RSP pdu (set_g_prep_queue q s)); [by apply inv_prep|done|apply Hp|done|done].
Qed.

Lemma prep_write_serves chan opcode pdu s :
  opcode = BT_ATT_OP_PREP_WRITE_REQ -> inv s -> flags s -> pdu_ok (g_att_mtu s) pdu -> store_fits pdu s ->
  serves [(chan, opcode)] s (prep_write_cb authorize junk chan opcode pdu s).
Proof.
  intros Hop Hi Hf Hp Hfit. unfold prep_write_cb. cbn zeta.
  assert (Herr : forall h e, serves [(chan, opcode)] s (Some (bt_att_chan_send_error_rsp chan opcode h e s)))
    by (intros; by apply serves_error).
  destruct (Z.ltb_spec (zlen pdu) 4); [apply Herr|]. destruct (_ <=? _); [apply Herr|].
  destruct (find_attribute (g_db s) (get_le (slice 0 2 pdu)) (i_db s Hi)) as (r & -> & Hr).
  cbn [mbind option_bind]. destruct r as [a|]; [|apply Herr]. destruct Hr as (A & HA & Hh).
  rewrite (check_permissions_eq a A) by done. cbn [mbind option_bind].
  destruct (negb _) eqn:Ep; [apply Herr|]. apply negb_false_iff, Z.eqb_eq in Ep.
  pose proof (permitted_writable _ A _ _ _ eq_refl Ep) as Hwr. destruct Hp as [Hb Hl].
  assert (Hmay : may_write (g_db s) (get_le (slice 0 2 pdu))).
  { intros b B HB HBh. assert (b = a) as -> by (eapply attr_handle_inj; [apply Hi|done|done|congruence]). congruence. }
  destruct Hf as [Hf1 Hf2].
  rewrite Hop. apply (write_serves a A (get_le (slice 2 2 pdu)) [] BT_ATT_OP_PREP_WRITE_REQ (KPrep chan pdu)
           (fun err s => prep_write_complete_cb authorize junk err chan pdu s)); try done.
  - by apply le16_range.
  - intros err db' Hn. apply prep_write_complete_serves; try done.
    + by apply inv_set_db.
    + eapply may_write_static; [apply Hn|done].
    + by apply from_set_db.
Qed.

(** *** Execute Write and Exchange MTU *)

Lemma exec_failed_serves chan h err s s0 :
  inv s -> flags s -> from s0 s -> serves [(chan, BT_ATT_OP_EXEC_WRITE_REQ)] s0 (exec_write_failed chan h err s).
Proof.
  intros Hi Hf E. unfold exec_write_failed.
  apply (serves_error chan BT_ATT_OP_EXEC_WRITE_REQ h err (set_g_prep_queue [] s)); try done.
  by apply inv_prep.
Qed.

Lemma exec_prep_queue_serves q : forall chan h err s s0,
  inv s -> flags s -> Forall (prep_ok (g_db s)) q -> from s0 s ->
  serves [(chan, BT_ATT_OP_EXEC_WRITE_REQ)] s0 (exec_prep_queue authorize junk q chan h err s).
Proof.
  induction q as [|p q IH]; intros chan h err s s0 Hi Hf Hq E; cbn [exec_prep_queue];
    (destruct (negb (err =? 0)); [by apply exec_failed_serves|]).
  - destruct (i_mtu s Hi). apply serves_rsp; try done. rewrite zlen_nil. lia.
  - apply Forall_cons in Hq as [(Hw & Hz & Hl & Ho) Hq].
    assert (Hi' : inv (set_g_prep_queue q s)) by by apply inv_prep.
    destruct (find_attribute (g_db s) (pw_handle p) (i_db s Hi)) as (r & Er & Hr).
    change (g_db (set_g_prep_queue q s)) with (g_db s). rewrite Er. cbn [mbind option_bind].
    destruct r as [a|]; [|by apply exec_failed_serves]. destruct Hr as (A & HA & Hh).
    pose proof (zlen_nonneg (pw_value p)). rewrite memread_Some by lia. cbn [mbind option_bind].
    destruct Hf as [Hf1 Hf2].
    apply (write_serves a A (pw_offset p) _ BT_ATT_OP_EXEC_WRITE_REQ (KExec chan)
             (fun err s => h ← gatt_db_attribute_get_handle (Some a) (g_db s); exec_prep_queue authorize junk q chan h err s));
      try done.
    + by apply (Hw a A).
    + intros err' db' Hn. destruct (get_attr_next _ _ _ _ Hn HA) as (A' & HA' & _).
      change (g_db (set_g_db db' (set_g_prep_queue q s))) with db'.
      rewrite (get_handle_eq a A') by done. cbn [mbind option_bind]. apply IH; try done.
      * by apply inv_set_db.
      * eapply Forall_impl; [exact Hq|]. intros x. apply prep_ok_static, Hn.
      * by apply (from_set_db s0 (set_g_prep_queue q s)).
Qed.

Lemma exec_write_serves chan opcode pdu s :
  opcode = BT_ATT_OP_EXEC_WRITE_REQ -> inv s -> flags s -> serves [(chan, opcode)] s (exec_write_cb authorize junk chan opcode pdu s).
Proof.
  intros Hop Hi Hf. unfold exec_write_cb. cbn zeta.
  assert (Hi' : inv (set_g_prep_queue [] s)) by by apply inv_prep.
  assert (Herr : forall h e, serves [(chan, opcode)] s (Some (bt_att_chan_send_error_rsp chan opcode h e (set_g_prep_queue [] s))))
    by (intros; by apply (serves_error chan opcode h e (set_g_prep_queue [] s))).
  destruct pdu as [|fl [|]]; [apply Herr| |apply Herr].
  destruct (fl =? 0).
  { destruct (i_mtu s Hi). apply (serves_rsp chan opcode _ [] (set_g_prep_queue [] s)); try done; [|by rewrite Hop].
    change (0 <= g_att_mtu s - 1). lia. }
  destruct (fl =? 1); [|apply Herr].
  destruct (if 1 <? zlen (g_prep_queue s) then find_no_reliable_characteristic (g_prep_queue s) else None); [apply Herr|].
  unfold exec_next_prep_write. rewrite (i_alive s Hi). cbn [negb].
  rewrite Hop. apply exec_prep_queue_serves; try done. apply Hi.
Qed.

(** The buffer of a Read By Type request was allocated for the MTU of its time. *)
Definition mtu_safe (s : server) : Prop :=
  forall key op l, g_waiting s !! key = Some (KByType op l) -> False.

Lemma exchange_mtu_serves chan opcode pdu s :
  opcode = BT_ATT_OP_MTU_REQ -> inv s -> flags s -> pdu_ok (g_att_mtu s) pdu -> mtu_safe s -> serves [(chan, opcode)] s (exchange_mtu_cb chan opcode pdu s).
Proof.
  intros Hop Hi Hf [Hb Hl] Hsafe. unfold exchange_mtu_cb. destruct (Z.eqb_spec (zlen pdu) 2) as [E|E]; cbn [negb];
    [|by apply serves_error].
  destruct (i_mtu s Hi) as [Hm1 Hm2]. pose proof (get_le_range pdu Hb ltac:(lia)) as Hr.
  set (m := Z.max (Z.min (get_le pdu) (g_mtu s)) BT_ATT_DEFAULT_LE_MTU). unfold BT_ATT_DEFAULT_LE_MTU in *.
  set (s1 := set_g_att_mtu (Z.max (g_att_mtu s) m) (set_g_mtu m s)).
  assert (Hi1 : inv s1).
  { destruct Hi. unfold s1. split; cbn; try done.
    - lia.
    - intros key k H. destruct (i_wait0 key k H) as (? & ? & ? & Hk). split_and!; try done.
      destruct k; try done.
      + by destruct (Hsafe key op db_data).
      + destruct Hk as [(? & ? & ?) ?]. cbn. unfold mult_ok. split; [lia|done].
      + destruct Hk as ([? ?] & ? & ?). cbn. unfold pdu_ok. split_and!; try done. lia.
    - eapply Forall_impl; [exact i_fits0|]. intros [| | |]; cbn; lia || done.
    - intros d Hd. destruct (i_nfy0 d Hd) as (? & ? & ?). unfold nfy_ok. lia. }
  apply (serves_rsp chan opcode BT_ATT_OP_MTU_RSP (put_le16 (g_mtu s)) s1); try done; [|by rewrite Hop].
  rewrite zlen_put_le16. change (2 <= Z.max (g_att_mtu s) m - 1). lia.
Qed.

(** *** Answers to what was passed on *)

Definition resume_safe (s : server) : Prop :=
  forall key chan pdu, g_waiting s !! key = Some (KPrep chan pdu) -> store_fits pdu s.

Lemma answer_shape t err v e a s :
  answer t err v e ->
  after_result authorize junk a [e] s
  = match g_waiting s !! t with
    | Some k => resume authorize junk a k err v (set_g_waiting (delete t (g_waiting s)) s)
    | None => Some s
    end.
Proof. intros (u & [->|[-> ->]]); done. Qed.

Lemma inv_answered t db' s :
  inv s -> db_next (eq t) (g_db s) db' ->
  inv (set_g_waiting (delete t (g_waiting s)) (answered_state t db' s)).
Proof.
  intros [] [Hok Hst Hp]. split; cbn; try done.
  - intros key k [Hne H]%lookup_delete_Some. destruct (i_wait0 key k H) as (? & ? & Hpend & ?). split_and!; try done.
    + set_solver.
    + by destruct (Hp key Hpend).
    + by eapply cont_ok_static.
  - eapply Forall_impl; [exact i_queue0|]. intros p. by apply prep_ok_static.
Qed.

Lemma count_taken (P : continuation -> Prop) `{forall k, Decision (P k)} m t k :
  m !! t = Some k ->
  length (filter P (conts m)) = (Nat.b2n (bool_decide (P k)) + length (filter P (conts (delete t m))))%nat.
Proof. intros Hk. rewrite (conts_delete m t k Hk). apply filter_len_cons. Qed.

Lemma resume_serves a A k err v s s0 :
  inv s -> get_attr a (g_db s) = Some A -> cont_ok (g_db s) (g_att_mtu s) k ->
  (Nat.b2n (bool_decide (is_read k)) + nreads s)%nat = Nat.b2n (g_pending_read_op s) ->
  (Nat.b2n (bool_decide (is_write k)) + nwrites s)%nat = Nat.b2n (g_pending_write_op s) ->
  (forall chan pdu, k = KPrep chan pdu -> err = 0 -> store_fits pdu s) ->
  from s0 s -> serves (owed k) s0 (resume authorize junk a k err v s).
Proof.
  intros Hi HA Hk Hr Hw Hfit E.
  destruct k as [op l|chan opcode|d l|chan opcode|chan pdu|chan| | |]; cbn [cont_ok] in Hk;
    cbn in Hr, Hw; try done; cbn [resume].
  - assert (Hrd : reading s) by (unfold reading; destruct (g_pending_read_op s); split_and!; cbn in *; lia || done).
    destruct Hk as [Hop Hl]. unfold read_by_type_read_complete_cb. rewrite (get_handle_eq a A) by done. cbn [mbind option_bind].
    destruct (negb _); [by apply read_ends_error|].
    destruct (encode_read_by_type_ok (g_att_mtu s) (handle A) v op) as (op' & -> & Hop' & Hc); [apply Hi|done|].
    cbn [mbind option_bind owed]. rewrite <- Hc. by apply process_read_by_type_serves.
  - assert (Hrd : reading s) by (unfold reading; destruct (g_pending_read_op s); split_and!; cbn in *; lia || done).
    by apply (read_complete_serves a A).
  - destruct Hk as [Hd Hl]. unfold read_multiple_complete_cb. rewrite (get_handle_eq a A) by done. cbn [mbind option_bind].
    destruct (negb _); [by apply serves_error|]. destruct (i_mtu s Hi) as [Hm _].
    destruct (encode_read_multiple_ok (g_att_mtu s) v d) as (d' & -> & Hd' & Hc); [lia|done|].
    cbn [mbind option_bind owed]. rewrite <- Hc. by apply read_multiple_serves.
  - assert (Hwr : writing s) by (unfold writing; destruct (g_pending_write_op s); split_and!; cbn in *; lia || done).
    by apply (write_complete_serves a A).
  - destruct Hk as (Hp & H4 & Hmw). apply prep_write_complete_serves; try done. intros E0. by eapply Hfit.
  - unfold exec_write_complete_cb. rewrite (get_handle_eq a A) by done. cbn [mbind option_bind].
    unfold exec_next_prep_write. rewrite (i_alive s Hi). cbn [negb].
    apply exec_prep_queue_serves; try done. apply Hi.
Qed.

(** A result, a timeout: nothing is owed more than before. *)
Lemma finish_serves Q idle f a A s :
  finishes Q idle f -> inv s -> flags s -> resume_safe s -> get_attr a (g_db s) = Some A ->
  serves [] s ('(l, s) ← on_attr a f s; after_result authorize junk a l s).
Proof.
  intros Hfin Hi Hf Hsafe HA.
  destruct (finishes_spec junk Q idle f a A s Hfin (i_db s Hi) HA) as [[-> _]|(p & err & v & e & db' & -> & He & Hn & _)];
    cbn [mbind option_bind]; [by apply serves_same|]. set (t := p_timeout p) in *.
  rewrite (answer_shape t err v e) by done. cbn [g_waiting answered_state set_g_db set_g_timers].
  change (g_waiting (answered_state t db' s)) with (g_waiting s).
  pose proof (inv_answered t db' s Hi Hn) as Hi'.
  destruct (g_waiting s !! t) as [k|] eqn:Ek.
  - destruct (i_wait s Hi t k Ek) as (_ & _ & _ & Hk). set (s1 := set_g_waiting _ _) in *.
    destruct Hf as [Hf1 Hf2].
    destruct (static_get (g_db s) db' a A) as (A' & HA' & _); [apply Hn|done|].
    assert (Hs : serves (owed k) s1 (resume authorize junk a k err v s1)).
    { apply (resume_serves a A'); try done.
      - eapply cont_ok_static; [apply Hn|done].
      - change (g_pending_read_op s1) with (g_pending_read_op s). rewrite <- Hf1. symmetry. by apply count_taken.
      - change (g_pending_write_op s1) with (g_pending_write_op s). rewrite <- Hf2. symmetry. by apply count_taken.
      - intros chan pdu -> _. by apply (Hsafe t chan pdu). }
    destruct Hs as (s2 & E2 & Hi2 & Hf2' & Ha2 & Hp2). exists s2.
    split_and!; [done|done|done| |eapply prot_trans, Hp2; exact (prot_next (eq t) db' s Hn)].
    rewrite Ha2. unfold accounted. cbn. rewrite (conts_delete _ t k Ek). cbn. solve_Permutation.
  - rewrite delete_id in Hi' by done. apply serves_same; [|done|split; [done|exact (prot_next (eq t) db' s Hn)]].
    replace (answered_state t db' s) with (set_g_waiting (g_waiting s) (answered_state t db' s)); [done|by destruct s].
Qed.

(** ** Sequences of operations *)

(** The request that asks for an answer, with its channel. *)
Definition asks (o : server_op) : list (Z * Z) :=
  match o with
  | SRequest chan opcode _ =>
      if bool_decide (opcode ∈ [BT_ATT_OP_MTU_REQ; BT_ATT_OP_READ_BY_GRP_TYPE_REQ; BT_ATT_OP_READ_BY_TYPE_REQ;
           BT_ATT_OP_FIND_INFO_REQ; BT_ATT_OP_FIND_BY_TYPE_REQ; BT_ATT_OP_WRITE_REQ; BT_ATT_OP_READ_REQ;
           BT_ATT_OP_READ_BLOB_REQ; BT_ATT_OP_READ_MULT_REQ; BT_ATT_OP_READ_MULT_VL_REQ;
           BT_ATT_OP_PREP_WRITE_REQ; BT_ATT_OP_EXEC_WRITE_REQ])
      then [(chan, opcode)] else []
  | _ => []
  end.

(** What the server relies on: PDUs are no longer than the MTU; the MTU is not
    exchanged while a Read By Type request waits; what is prepared for one
    attribute stays below 64 kB; a batch of notifications fits the MTU; the
    server is not released. *)
Definition op_guard (o : server_op) (s : server) : Prop :=
  match o with
  | SRequest _ opcode pdu =>
      pdu_ok (g_att_mtu s) pdu /\ (opcode = BT_ATT_OP_MTU_REQ -> mtu_safe s) /\
      (opcode = BT_ATT_OP_PREP_WRITE_REQ -> store_fits pdu s)
  | SReadResult a _ _ _ | SWriteResult a _ _ | STimer a _ => is_Some (get_attr a (g_db s)) /\ resume_safe s
  | SNotify _ val true =>
      match g_nfy_mult s with
      | Some d => nm_offset d + 4 + zlen val <= nm_len d
      | None => 4 + zlen val <= g_att_mtu s - 1
      end
  | SUnref => g_ref_count s <> 1
  | _ => True
  end.

Lemma send_serves opcode pdu s s0 :
  inv s -> flags s -> zlen pdu <= g_att_mtu s - 1 -> from s0 s ->
  serves [] s0 (Some (bt_att_send opcode pdu s)).
Proof. intros. by apply (serves_out (Send opcode pdu)). Qed.

Lemma notification_serves h val multiple s :
  inv s -> flags s -> op_guard (SNotify h val multiple) s ->
  serves [] s (bt_gatt_server_send_notification junk h val multiple s).
Proof.
  intros Hi Hf Hg. unfold bt_gatt_server_send_notification. destruct (i_mtu s Hi) as [Hm _].
  rewrite (u16_small (g_att_mtu s - 1)) by lia. set (len := g_att_mtu s - 1).
  set (data := match g_nfy_mult s with Some _ => _ | None => _ end).
  pose proof (zlen_nonneg val) as Hv.
  assert (Hd : nfy_ok (g_att_mtu s) data /\ (multiple = true -> nm_offset data + 4 + zlen val <= nm_len data) /\
    (multiple = false -> nm_offset data = 0 /\ nm_len data = len)).
  { assert (Hfresh : nfy_ok (g_att_mtu s) (mkNfy (buffer junk len) 0 len)).
    { unfold nfy_ok. cbn [nm_pdu nm_offset nm_len]. rewrite zlen_buffer by lia. lia. }
    unfold data. cbn in Hg. destruct (g_nfy_mult s) as [d|] eqn:En; destruct multiple; split_and!; try done.
    by apply (i_nfy s Hi). }
  clearbody data. destruct Hd as ((Hz & Ho & Hl) & Hfit & Hnew).
  assert (Hroom : nm_offset data + 2 <= nm_len data) by (destruct multiple; [specialize (Hfit eq_refl); lia|destruct (Hnew eq_refl); lia]).
  destruct (memcpy_at_total (nm_pdu data) (nm_offset data) (put_le16 h)) as (p & -> & E1); [lia|rewrite zlen_put_le16; lia|].
  cbn [mbind option_bind]. rewrite (u16_small (nm_offset data + 2)) by lia.
  set (n := u16 (Z.min (nm_len data - (nm_offset data + 2)) (zlen val))).
  assert (Hn : 0 <= n <= zlen val /\ nm_offset data + 2 + n <= nm_len data) by (unfold n; rewrite u16_small; lia).
  destruct multiple.
  - specialize (Hfit eq_refl).
    destruct (memcpy_at_total p (nm_offset data + 2) (put_le16 n)) as (p2 & -> & E2); [lia|rewrite zlen_put_le16; lia|].
    cbn [mbind option_bind]. rewrite (u16_small (nm_offset data + 2 + 2)), memread_Some by lia. cbn [mbind option_bind].
    pose proof (zlen_slice 0 n val ltac:(lia) ltac:(lia) ltac:(lia)) as Hsl.
    destruct (memcpy_at_total p2 (nm_offset data + 2 + 2) (slice 0 n val)) as (p3 & -> & E3); [lia|lia|].
    cbn [mbind option_bind]. apply serves_same; [|done|done]. destruct Hi. split; cbn; try done.
    intros d [= <-]. unfold nfy_ok. cbn. rewrite u16_small; lia.
  - cbn [mbind option_bind]. rewrite memread_Some by lia. cbn [mbind option_bind].
    pose proof (zlen_slice 0 n val ltac:(lia) ltac:(lia) ltac:(lia)) as Hsl.
    destruct (memcpy_at_total p (nm_offset data + 2) (slice 0 n val)) as (p3 & -> & E3); [lia|lia|].
    cbn [mbind option_bind]. rewrite u16_small, memread_Some by lia. cbn [mbind option_bind].
    apply send_serves; try done. rewrite zlen_slice; lia.
Qed.

Lemma indication_serves h val s :
  inv s -> flags s -> serves [] s (bt_gatt_server_send_indication junk h val s).
Proof.
  intros Hi Hf. unfold bt_gatt_server_send_indication. destruct (i_mtu s Hi) as [Hm _]. pose proof (zlen_nonneg val).
  set (n := u16 _). assert (Hn : 2 <= n <= g_att_mtu s - 1 /\ n <= zlen val + 2) by (unfold n; rewrite u16_small; lia).
  destruct (memcpy_at_total (buffer junk n) 0 (put_le16 h)) as (p & -> & E1);
    [lia|rewrite zlen_put_le16, zlen_buffer; lia|].
  cbn [mbind option_bind]. rewrite memread_Some by lia. cbn [mbind option_bind].
  pose proof (zlen_slice 0 (n - 2) val ltac:(lia) ltac:(lia) ltac:(lia)) as Hsl. rewrite zlen_buffer in E1 by lia.
  destruct (memcpy_at_total p 2 (slice 0 (n - 2) val)) as (p2 & -> & E2); [lia|lia|].
  cbn [mbind option_bind]. apply send_serves; try done. lia.
Qed.

Lemma notify_multiple_serves s : inv s -> flags s -> serves [] s (notify_multiple s).
Proof.
  intros Hi Hf. unfold notify_multiple. destruct (g_nfy_mult s) as [d|] eqn:Ed; [|by apply serves_same].
  rewrite (i_alive s Hi). cbn [negb]. destruct (i_nfy s Hi d Ed) as (Hz & Ho & Hl).
  rewrite memread_Some by lia. cbn [mbind option_bind].
  apply (send_serves BT_ATT_OP_HANDLE_NFY_MULT _ (set_g_nfy_mult None s)); try done.
  - by destruct Hi.
  - change (g_att_mtu (set_g_nfy_mult None s)) with (g_att_mtu s). rewrite zlen_slice; lia.
Qed.

Lemma request_serves chan opcode pdu s :
  inv s -> flags s -> op_guard (SRequest chan opcode pdu) s ->
  serves (asks (SRequest chan opcode pdu)) s (server_request authorize run_authorize junk chan opcode pdu s).
Proof.
  intros Hi Hf (Hp & Hmtu & Hprep). unfold server_request, asks. rewrite (i_alive s Hi). cbn [negb].
  repeat (match goal with |- context [opcode =? ?c] => destruct (Z.eqb_spec opcode c) as [->|] end;
    [cbn [orb]; first
       [by apply exchange_mtu_serves; auto|by apply read_by_grp_type_serves|by apply read_by_type_serves|
        by apply find_info_serves|by apply find_by_type_val_serves|by apply write_serves'; auto|by apply read_cb_serves; auto|
        by apply read_blob_serves; auto|by apply read_multiple_cb_serves; [split|..]|by apply prep_write_serves; auto|
        by apply exec_write_serves]|cbn [orb]]).
  rewrite bool_decide_false; [by apply serves_same|]. rewrite !elem_of_cons, elem_of_nil. naive_solver.
Qed.

Lemma step_serves o s :
  inv s -> flags s -> op_guard o s -> serves (asks o) s (server_step authorize run_authorize junk o s).
Proof.
  intros Hi Hf Hg. destruct o; cbn [server_step asks] in *.
  - by apply request_serves.
  - destruct Hg as [[A HA] Hs]. eapply finish_serves; [apply read_result_finishes|done..].
  - destruct Hg as [[A HA] Hs]. eapply finish_serves; [apply write_result_finishes|done..].
  - destruct Hg as [[A HA] Hs]. eapply finish_serves; [apply timer_finishes|done..].
  - by apply notification_serves.
  - by apply notify_multiple_serves.
  - by apply indication_serves.
  - apply serves_same; [by destruct Hi|done|done].
  - apply serves_same; [by destruct Hi|done|done].
  - apply serves_same; [by destruct Hi|done|done].
  - unfold bt_gatt_server_unref. cbn [g_ref_count set_g_ref_count op_guard] in *.
    rewrite (proj2 (Z.eqb_neq _ 0)) by lia. cbn [negb]. apply serves_same; [by destruct Hi|done|done].
Qed.

(** The guard holds before every operation of the sequence. *)
Fixpoint guarded (os : list server_op) (s : server) : Prop :=
  match os with
  | [] => True
  | o :: os' => op_guard o s /\
      forall s', server_step authorize run_authorize junk o s = Some s' -> guarded os' s'
  end.

Lemma run_serves os s :
  inv s -> flags s -> guarded os s -> serves (concat (asks <$> os)) s (server_run authorize run_authorize junk os s).
Proof.
  revert s. induction os as [|o os IH]; intros s Hi Hf Hg; cbn [server_run].
  - exists s. split_and!; [done|done|done|done|apply prot_refl].
  - destruct Hg as [Hg Hgs]. destruct (step_serves o s Hi Hf Hg) as (s1 & E & Hi1 & Hf1 & Ha1 & Hp1). rewrite E.
    cbn [mbind option_bind]. destruct (IH s1 Hi1 Hf1 (Hgs s1 E)) as (s2 & E2 & Hi2 & Hf2 & Ha2 & Hp2).
    exists s2. split_and!; [done|done|done| |by eapply prot_trans]. rewrite Ha2, Ha1. cbn. rewrite <- app_assoc. solve_Permutation.
Qed.

(** An operation that ends with an error starts nothing. *)
Lemma resume_error a k err v s s' :
  err <> 0 -> resume authorize junk a k err v s = Some s' -> g_waiting s' = g_waiting s.
Proof.
  intros Hne%Z.eqb_neq. destruct k; cbn [resume];
    unfold read_by_type_read_complete_cb, read_complete_cb, read_multiple_complete_cb, write_complete_cb,
      prep_write_complete_cb, exec_write_complete_cb, exec_next_prep_write; rewrite ?Hne; cbn [negb];
    try (destruct (gatt_db_attribute_get_handle _ _); cbn [mbind option_bind]; [|done]);
    try (by intros [= <-]); try done.
  - destruct (opcode =? _); [by intros [= <-]|].
    destruct (gatt_db_attribute_get_handle _ _); cbn [mbind option_bind]; [|done]. by intros [= <-].
  - destruct (g_alive s); cbn [negb]; [|done]. destruct (g_prep_queue s); cbn [exec_prep_queue]; rewrite Hne;
      cbn [negb]; by intros [= <-].
Qed.

(** The timer of something that waits settles it, with an error. *)
Lemma timer_settles t k s :
  inv s -> flags s -> g_waiting s !! t = Some k ->
  exists a s', server_step authorize run_authorize junk (STimer a t) s = Some s' /\ inv s' /\ flags s' /\
    accounted s' ≡ₚ accounted s /\ g_waiting s' = delete t (g_waiting s).
Proof.
  intros Hi Hf Ek. destruct (i_wait s Hi t k Ek) as (_ & _ & (a & A & HA & Hkey) & Hk). exists a. cbn [server_step].
  destruct (finishes_spec junk _ _ _ a A s (timer_finishes t) (i_db s Hi) HA)
    as [[_ Hid]|(p & err & v & e & db' & -> & He & Hn & Hpt & Herr)]; [done|].
  cbn [mbind option_bind]. rewrite (answer_shape (p_timeout p) err v e) by done. rewrite Hpt in *.
  change (g_waiting (answered_state t db' s)) with (g_waiting s). rewrite Ek.
  pose proof (inv_answered t db' s Hi Hn) as Hi'. set (s1 := set_g_waiting _ _) in *. destruct Hf as [Hf1 Hf2].
  destruct (static_get (g_db s) db' a A) as (A' & HA' & _); [apply Hn|done|].
  assert (Hne : err <> 0) by (rewrite Herr; done).
  destruct (resume_serves a A' k err v s1 s1) as (s2 & E2 & Hi2 & Hf2' & Ha2 & _); try done.
  - eapply cont_ok_static; [apply Hn|done].
  - change (g_pending_read_op s1) with (g_pending_read_op s). rewrite <- Hf1. symmetry. by apply count_taken.
  - change (g_pending_write_op s1) with (g_pending_write_op s). rewrite <- Hf2. symmetry. by apply count_taken.
  - exists s2. split_and!; [done|done|done| |].
    + rewrite Ha2. unfold accounted. cbn. rewrite (conts_delete _ t k Ek). cbn. solve_Permutation.
    + by rewrite (resume_error a k err v s1 s2 Hne E2).
Qed.

Lemma timers_settle n : forall s, inv s -> flags s -> size (g_waiting s) = n ->
  exists ts s', length ts = n /\ server_run authorize run_authorize junk (uncurry STimer <$> ts) s = Some s' /\
    inv s' /\ flags s' /\ g_waiting s' = ∅ /\ accounted s' ≡ₚ accounted s.
Proof.
  induction n as [|n IH]; intros s Hi Hf Hs.
  - exists [], s. split_and!; try done. by apply map_size_empty_inv.
  - destruct (map_choose (g_waiting s)) as (t & k & Ek); [intros E; by rewrite E, map_size_empty in Hs|].
    destruct (timer_settles t k s Hi Hf Ek) as (a & s1 & E1 & Hi1 & Hf1 & Ha1 & Hw1).
    destruct (IH s1 Hi1 Hf1) as (ts & s2 & Hl & E2 & Hi2 & Hf2 & Hw2 & Ha2).
    { rewrite Hw1, map_size_delete, Ek, Hs. cbn. lia. }
    exists ((a, t) :: ts), s2. split_and!; [cbn; by rewrite Hl| |done|done|done|by rewrite Ha2].
    cbn [fmap list_fmap uncurry server_run]. change (list_fmap _ _ (uncurry STimer) ts) with (uncurry STimer <$> ts). rewrite E1. done.
Qed.

Lemma new_inv db att_mtu mtu mes :
  db_ok db -> 23 <= att_mtu <= 65535 -> mtu <= 65535 ->
  inv (bt_gatt_server_new db att_mtu mtu mes) /\ flags (bt_gatt_server_new db att_mtu mtu mes).
Proof.
  intros Hdb Hm Hm2. split; [|done]. unfold BT_ATT_DEFAULT_LE_MTU. split; cbn; try done.
  unfold BT_ATT_DEFAULT_LE_MTU. lia.
Qed.
End Handlers.

(** Only the response to a Read Multiple Variable Length request is refused. *)
Lemma refused_variable os s : inv s -> concat (asks <$> os) ≡ₚ accounted s ->
  Forall (fun q => q.2 = BT_ATT_OP_READ_MULT_VL_REQ) (refusals (g_out s)).
Proof.
  intros Hi Ha. apply Forall_forall. intros [c q] Hq. assert ((c, q) ∈ concat (asks <$> os)) as Hin.
  { rewrite Ha. unfold accounted, settled. rewrite !elem_of_app. left. by right. }
  apply list_elem_of_omap in Hq as (o & Ho & E). destruct o as [| c' op| |]; try done. injection E as -> <-. cbn [snd] in *.
  pose proof (proj1 (Forall_forall _ _) (i_fits s Hi) _ Ho) as Hop. cbn [fits] in Hop.
  apply list_elem_of_In, in_concat in Hin as (l & Hl & Hin). apply list_elem_of_In, list_elem_of_fmap in Hl as (so & -> & _).
  destruct so; try done. unfold asks in Hin. case_bool_decide as Hr; [|done]. destruct Hin as [[= -> ->]|[]].
  replace op with (op - 1 + 1) in Hop by lia. rewrite !elem_of_cons, elem_of_nil in Hr.
  repeat (destruct Hr as [Er | Hr]; [rewrite Er in *; first [reflexivity|discriminate Hop]|]). done.
Qed.

(** C21. Every request is answered once, by the server.  For a server on a well-formed database and
    any sequence of requests, results, timeouts, notifications and changes of the
    link, as [op_guard] asks for: no operation leaves a buffer or fails; the
    requests, with their channels (commands ask for nothing), are, each as often as
    it was sent, those that got the response with the next opcode or an error that names them,
    those whose response the transport refuses, and those whose operation
    still waits; refused is nothing but the response to a Read Multiple Variable Length request, whose opcode
    is not in the table of the transport; what waits is pending in the database with an armed timer; and
    the server refuses a second read (write) exactly while one waits. *)
Theorem server_answers_once authorize run_authorize junk db att_mtu mtu mes os :
  let s0 := bt_gatt_server_new db att_mtu mtu mes in
  db_ok db -> 23 <= att_mtu <= 65535 -> mtu <= 65535 -> guarded authorize run_authorize junk os s0 ->
  exists s, server_run authorize run_authorize junk os s0 = Some s /\
    concat (asks <$> os) ≡ₚ answers (g_out s) ++ refusals (g_out s) ++ concat (owed <$> conts (g_waiting s)) /\
    Forall (fun q => q.2 = BT_ATT_OP_READ_MULT_VL_REQ) (refusals (g_out s)) /\
    (forall key k, g_waiting s !! key = Some k -> key ∈ g_timers s /\ pending_in (g_db s) key) /\
    (g_pending_read_op s = true <-> exists key k, g_waiting s !! key = Some k /\ is_read k) /\
    (g_pending_write_op s = true <-> exists key k, g_waiting s !! key = Some k /\ is_write k).
Proof.
  intros s0 Hdb Hm Hm2 Hg. destruct (new_inv db att_mtu mtu mes Hdb Hm Hm2) as [Hi Hf].
  destruct (run_serves authorize run_authorize junk os s0 Hi Hf Hg) as (s & E & Hi' & Hf' & Ha & _).
  change (accounted s0) with (@nil (Z * Z)) in Ha. rewrite app_nil_r in Ha. symmetry in Ha.
  exists s. split; [done|]. split; [by rewrite Ha; unfold accounted, settled; rewrite <- app_assoc|]. split; [by eapply refused_variable|]. split.
  { intros key k Hk. by destruct (i_wait s Hi' key k Hk) as (_ & ? & ? & _). }
  assert (Hcount : forall (P : continuation -> Prop) `{forall k, Decision (P k)} b,
    length (filter P (conts (g_waiting s))) = Nat.b2n b -> b = true <-> exists key k, g_waiting s !! key = Some k /\ P k).
  { intros P Hdec b Hb. split.
    - intros ->. destruct (filter P (conts (g_waiting s))) as [|k l] eqn:Ek; [done|].
      assert (Hin : k ∈ filter P (conts (g_waiting s))) by (rewrite Ek; by left).
      apply list_elem_of_filter in Hin as [HP ([key k'] & -> & Hin)%list_elem_of_fmap].
      apply elem_of_map_to_list in Hin. by exists key, k'.
    - intros (key & k & Hk & HP). destruct b; [done|]. cbn in Hb. apply length_zero_iff_nil in Hb.
      assert (Hin : k ∈ filter P (conts (g_waiting s))).
      { apply list_elem_of_filter. split; [done|]. apply list_elem_of_fmap. exists (key, k). split; [done|].
        by apply elem_of_map_to_list. }
      rewrite Hb in Hin. by apply not_elem_of_nil in Hin. }
  destruct Hf' as [Hf1 Hf2]. split; [by apply (Hcount is_read _)|by apply (Hcount is_write _)].
Qed.

(** C22. The timeouts settle everything.  From every state the server gets into, the
    timers of what waits, one for each, answer all of it: afterwards nothing
    waits, every request that was ever sent has its one answer, or is a Read Multiple Variable Length request
    whose response the transport refused, and the server takes reads and writes again. *)
Theorem timeouts_settle_everything authorize run_authorize junk db att_mtu mtu mes os s :
  let s0 := bt_gatt_server_new db att_mtu mtu mes in
  db_ok db -> 23 <= att_mtu <= 65535 -> mtu <= 65535 -> guarded authorize run_authorize junk os s0 ->
  server_run authorize run_authorize junk os s0 = Some s ->
  exists ts s', length ts = size (g_waiting s) /\
    server_run authorize run_authorize junk (uncurry STimer <$> ts) s = Some s' /\
    g_waiting s' = ∅ /\ g_pending_read_op s' = false /\ g_pending_write_op s' = false /\
    concat (asks <$> os) ≡ₚ answers (g_out s') ++ refusals (g_out s') /\
    Forall (fun q => q.2 = BT_ATT_OP_READ_MULT_VL_REQ) (refusals (g_out s')).
Proof.
  intros s0 Hdb Hm Hm2 Hg Er. destruct (new_inv db att_mtu mtu mes Hdb Hm Hm2) as [Hi Hf].
  destruct (run_serves authorize run_authorize junk os s0 Hi Hf Hg) as (s' & E & Hi' & Hf' & Ha & _).
  assert (s' = s) as -> by congruence. change (accounted s0) with (@nil (Z * Z)) in Ha. rewrite app_nil_r in Ha.
  destruct (timers_settle authorize run_authorize junk _ s Hi' Hf' eq_refl) as (ts & s2 & Hl & E2 & Hi2 & Hf2 & Hw & Ha2).
  assert (concat (asks <$> os) ≡ₚ accounted s2) as Hall by (by rewrite Ha2, Ha).
  exists ts, s2. pose proof (refused_variable os s2 Hi2 Hall) as Hv. destruct Hf2 as [Hr2 Hw2]. unfold nreads, nwrites in *.
  unfold accounted in Hall. rewrite Hw in *. change (conts ∅) with (@nil continuation) in *. cbn in Hr2, Hw2, Hall. rewrite app_nil_r in Hall.
  split_and!; try done; [by destruct (g_pending_read_op s2)|by destruct (g_pending_write_op s2)].
Qed.

(** C23. What must not be written is not.  An attribute whose permissions leave
    writing out keeps its value through every sequence of requests, prepared and
    executed writes included, and its write function is never called. *)
Theorem unwritable_never_written authorize run_authorize junk db att_mtu mtu mes os a A :
  let s0 := bt_gatt_server_new db att_mtu mtu mes in
  db_ok db -> 23 <= att_mtu <= 65535 -> mtu <= 65535 -> guarded authorize run_authorize junk os s0 ->
  get_attr a db = Some A -> permissions A <> 0 -> Z.land (permissions A) BT_ATT_PERM_WRITE = 0 ->
  exists s, server_run authorize run_authorize junk os s0 = Some s /\
    (exists A', get_attr a (g_db s) = Some A' /\ stored A' = stored A) /\
    (forall key cb id off data op, (a, EWriteFunc key cb id off data op) ∉ g_calls s).
Proof.
  intros s0 Hdb Hm Hm2 Hg HA Hp Hw. destruct (new_inv db att_mtu mtu mes Hdb Hm Hm2) as [Hi Hf].
  destruct (run_serves authorize run_authorize junk os s0 Hi Hf Hg) as (s & E & _ & _ & _ & _ & Hv & l & Hl & Hc).
  exists s. split; [done|]. assert (Hnw : ~ writable A) by (intros [?|?]; done). split.
  - destruct (Hv a A HA Hnw) as (A' & HA' & Ev & El). exists A'. split; [done|]. unfold stored. by rewrite Ev, El.
  - intros key cb id off data op Hin. cbn in Hl. rewrite Hl in Hin. rewrite Forall_forall in Hc.
    by destruct (Hnw (Hc _ Hin A HA)).
Qed.

(** ** Witnesses *)

(** A service with a characteristic kept in the database (value handle 3) and one
    whose value the client has (value handle 5). *)
Definition demo_ops : list db_op := [
  Db_insert_service 0 (BT_UUID16 0x1800) true 6;
  Db_characteristic 1 0 (BT_UUID16 0x2A00) 3 10 None None;
  Db_characteristic 1 0 (BT_UUID16 0x2A01) 3 10 (Some 7) (Some 8);
  Db_set_active 1 true ].
Definition demo_db : gatt_db := default gatt_db_new (run_db_ops demo_ops gatt_db_new).
Definition demo_sv : gatt_db_service := default (mkService false false 0 []) (svc_heap demo_db !! 1%positive).

Lemma demo_server_reachable : rtc db_step gatt_db_new demo_db.
Proof.
  eapply rtc_l.
  { exists (Db_insert_service 0 (BT_UUID16 0x1800) true 6). split; [|vm_compute; reflexivity].
    split; [apply comparable16; lia|]. split; [unfold UINT16_MAX; lia|].
    intros s sv. simpl. by rewrite lookup_empty. }
  eapply rtc_l.
  { exists (Db_characteristic 1 0 (BT_UUID16 0x2A00) 3 10 None None). split; [|vm_compute; reflexivity].
    split; [apply comparable16; lia|]. eexists. split; [vm_compute; reflexivity|]. vm_compute. discriminate. }
  eapply rtc_l.
  { exists (Db_characteristic 1 0 (BT_UUID16 0x2A01) 3 10 (Some 7) (Some 8)). split; [|vm_compute; reflexivity].
    split; [apply comparable16; lia|]. eexists. split; [vm_compute; reflexivity|]. vm_compute. discriminate. }
  eapply rtc_l; [|constructor].
  exists (Db_set_active 1 true). split; [|vm_compute; reflexivity].
  simpl. apply list_elem_of_singleton. vm_compute. reflexivity.
Qed.

Lemma demo_heap : svc_heap demo_db = {[1%positive := demo_sv]}.
Proof. vm_compute. reflexivity. Qed.

Lemma demo_db_ok : db_ok demo_db.
Proof.
  split; [by apply reachable_wf, demo_server_reachable|]. intros [p i] A. unfold get_attr. rewrite demo_heap. cbn [fst snd].
  destruct ({[1%positive := demo_sv]} !! p) as [sv|] eqn:E; [|done].
  apply lookup_singleton_Some in E as [<- <-]. cbn [mbind option_bind].
  do 6 (destruct i as [|i]; [vm_compute; first [done|intros [= <-]; split;
    [unfold value_ok; split_and!; vm_compute; discriminate
    |first [by intros _|intros E; by vm_compute in E]|vm_compute; discriminate]]|]).
  intros H. vm_compute in H. done.
Qed.

(** A test that implies the guard. *)
Definition fits_lastb (pdu : list Z) (s : server) : bool :=
  match last (g_prep_queue s) with Some p => pw_length p + (zlen pdu - 4) <=? 65535 | None => true end.

Definition op_guardb (o : server_op) (s : server) : bool :=
  match o with
  | SRequest _ opcode pdu =>
      forallb (fun b => (0 <=? b) && (b <? 256)) pdu && (zlen pdu <=? g_att_mtu s - 1) &&
      (negb (opcode =? BT_ATT_OP_MTU_REQ) ||
       forallb (fun k => match k with KByType _ _ => false | _ => true end) (conts (g_waiting s))) &&
      (negb (opcode =? BT_ATT_OP_PREP_WRITE_REQ) ||
       fits_lastb pdu s)
  | SReadResult a _ _ _ | SWriteResult a _ _ | STimer a _ =>
      match get_attr a (g_db s) with Some _ => true | None => false end &&
      forallb (fun k => match k with KPrep _ pdu => fits_lastb pdu s | _ => true end) (conts (g_waiting s))
  | SNotify _ val true =>
      match g_nfy_mult s with
      | Some d => nm_offset d + 4 + zlen val <=? nm_len d
      | None => 4 + zlen val <=? g_att_mtu s - 1
      end
  | SUnref => negb (g_ref_count s =? 1)
  | _ => true
  end.

Lemma conts_in m key k : m !! key = Some k -> In k (conts m).
Proof.
  intros H. apply list_elem_of_In, list_elem_of_fmap. exists (key, k). split; [done|]. by apply elem_of_map_to_list.
Qed.

Lemma fits_lastb_ok pdu s : fits_lastb pdu s = true -> store_fits pdu s.
Proof. unfold fits_lastb. intros H p E _ _. rewrite E in H. lia. Qed.

Lemma op_guardb_ok o s : op_guardb o s = true -> op_guard o s.
Proof.
  assert (Hres : forallb (fun k => match k with KPrep _ pdu => fits_lastb pdu s | _ => true end) (conts (g_waiting s)) = true ->
    resume_safe s).
  { intros H key chan pdu Hk%conts_in. apply (proj1 (forallb_forall _ _) H) in Hk. by apply fits_lastb_ok. }
  destruct o as [chan opcode pdu|a id err data|a id err|a t|h val []| | | | | |]; cbn [op_guardb op_guard]; try done.
  - intros [[[Hb Hl%Z.leb_le]%andb_true_iff Hm]%andb_true_iff Hp]%andb_true_iff. split_and!.
    + split; [|done]. apply Forall_forall. intros b Hin%list_elem_of_In.
      apply (proj1 (forallb_forall _ _) Hb) in Hin. unfold is_byte. lia.
    + intros ->. intros key op l Hk%conts_in. cbn in Hm. by apply (proj1 (forallb_forall _ _) Hm) in Hk.
    + intros ->. by apply fits_lastb_ok.
  - intros [Ha Hr]%andb_true_iff. split; [|auto]. destruct (get_attr a _); [by eexists|done].
  - intros [Ha Hr]%andb_true_iff. split; [|auto]. destruct (get_attr a _); [by eexists|done].
  - intros [Ha Hr]%andb_true_iff. split; [|auto]. destruct (get_attr a _); [by eexists|done].
  - destruct (g_nfy_mult s); lia.
  - lia.
Qed.

Fixpoint guardedb (authorize : option (Z -> Z)) (run_authorize : Z -> Z -> Z -> Z) (junk : Z -> Z)
    (os : list server_op) (s : server) : bool :=
  match os with
  | [] => true
  | o :: os' => op_guardb o s &&
      match server_step authorize run_authorize junk o s with
      | Some s' => guardedb authorize run_authorize junk os' s'
      | None => true
      end
  end.

Lemma guardedb_ok authorize run_authorize junk os s :
  guardedb authorize run_authorize junk os s = true -> guarded authorize run_authorize junk os s.
Proof.
  revert s. induction os as [|o os IH]; intros s; cbn [guardedb guarded]; [done|].
  intros [Hg Hs]%andb_true_iff. split; [by apply op_guardb_ok|]. intros s' E. rewrite E in Hs. by apply IH.
Qed.

Definition demo_server : server := bt_gatt_server_new demo_db 23 23 0.
Definition demo_requests : list server_op := [
  SSecurity 1 16;
  SRequest 1 BT_ATT_OP_FIND_INFO_REQ [1; 0; 255; 255];
  SRequest 1 BT_ATT_OP_READ_REQ [3; 0];
  SRequest 1 BT_ATT_OP_READ_REQ [5; 0];
  SRequest 2 BT_ATT_OP_READ_REQ [3; 0];
  SRequest 2 BT_ATT_OP_WRITE_CMD [5; 0; 9];
  SRequest 2 BT_ATT_OP_WRITE_REQ [1; 0; 9];
  SReadResult (1%positive, 4%nat) 1 0 [42];
  SRequest 1 BT_ATT_OP_PREP_WRITE_REQ [3; 0; 0; 0; 7; 8];
  SRequest 1 BT_ATT_OP_EXEC_WRITE_REQ [1];
  SRequest 1 BT_ATT_OP_READ_MULT_VL_REQ [1; 0; 3; 0];
  SRequest 2 BT_ATT_OP_READ_MULT_REQ [3; 0; 5; 0] ].

Definition no_db_authorize : option (Z -> Z) := None.
Definition grant_all (cb opcode h : Z) : Z := 0.
Definition zeroed (i : Z) : Z := 0.

Lemma demo_guarded : guarded no_db_authorize grant_all zeroed demo_requests demo_server.
Proof. apply guardedb_ok. vm_compute. reflexivity. Qed.

Lemma server_answers_once_witness :
  guarded no_db_authorize grant_all zeroed demo_requests demo_server /\
  exists s, server_run no_db_authorize grant_all zeroed demo_requests demo_server = Some s /\
    [(1, BT_ATT_OP_FIND_INFO_REQ); (1, BT_ATT_OP_READ_REQ); (1, BT_ATT_OP_READ_REQ); (2, BT_ATT_OP_READ_REQ); (2, BT_ATT_OP_WRITE_REQ);
     (1, BT_ATT_OP_PREP_WRITE_REQ); (1, BT_ATT_OP_EXEC_WRITE_REQ); (1, BT_ATT_OP_READ_MULT_VL_REQ); (2, BT_ATT_OP_READ_MULT_REQ)] ≡ₚ
    answers (g_out s) ++ refusals (g_out s) ++ concat (owed <$> conts (g_waiting s)) /\
    map fst (answers (g_out s)) = [1; 1; 2; 2; 1; 1; 1] /\ refusals (g_out s) = [(1, BT_ATT_OP_READ_MULT_VL_REQ)].
Proof.
  split; [exact demo_guarded|].
  destruct (server_answers_once no_db_authorize grant_all zeroed demo_db 23 23 0 demo_requests demo_db_ok)
    as (s & E & H & _); [lia|lia|exact demo_guarded|].
  exists s. split; [exact E|]. split; [exact H|]. vm_compute in E. injection E as <-. split; reflexivity.
Defined.

Lemma timeouts_settle_everything_witness :
  exists s, server_run no_db_authorize grant_all zeroed demo_requests demo_server = Some s /\
    size (g_waiting s) = 2%nat /\
    exists ts s', length ts = size (g_waiting s) /\
      server_run no_db_authorize grant_all zeroed (uncurry STimer <$> ts) s = Some s' /\
      g_waiting s' = ∅ /\ g_pending_read_op s' = false /\ g_pending_write_op s' = false /\
      [(1, BT_ATT_OP_FIND_INFO_REQ); (1, BT_ATT_OP_READ_REQ); (1, BT_ATT_OP_READ_REQ); (2, BT_ATT_OP_READ_REQ); (2, BT_ATT_OP_WRITE_REQ);
     (1, BT_ATT_OP_PREP_WRITE_REQ); (1, BT_ATT_OP_EXEC_WRITE_REQ); (1, BT_ATT_OP_READ_MULT_VL_REQ); (2, BT_ATT_OP_READ_MULT_REQ)] ≡ₚ
      answers (g_out s') ++ refusals (g_out s') /\
      Forall (fun q => q.2 = BT_ATT_OP_READ_MULT_VL_REQ) (refusals (g_out s')).
Proof.
  destruct (server_run no_db_authorize grant_all zeroed demo_requests demo_server) as [s|] eqn:E;
    [|vm_compute in E; discriminate].
  exists s. split; [reflexivity|]. split; [vm_compute in E; injection E as <-; reflexivity|].
  apply (timeouts_settle_everything no_db_authorize grant_all zeroed demo_db 23 23 0 demo_requests s demo_db_ok);
    [lia|lia|exact demo_guarded|exact E].
Defined.

Lemma unwritable_never_written_witness :
  exists A s, get_attr (1%positive, 1%nat) demo_db = Some A /\
    server_run no_db_authorize grant_all zeroed demo_requests demo_server = Some s /\
    (exists A', get_attr (1%positive, 1%nat) (g_db s) = Some A' /\ stored A' = stored A).
Proof.
  destruct (get_attr (1%positive, 1%nat) demo_db) as [A|] eqn:EA; [|vm_compute in EA; discriminate].
  destruct (unwritable_never_written no_db_authorize grant_all zeroed demo_db 23 23 0 demo_requests
      (1%positive, 1%nat) A demo_db_ok) as (s & E & H & _); [lia|lia|exact demo_guarded|exact EA| | |].
  - vm_compute in EA. injection EA as <-. vm_compute. discriminate.
  - vm_compute in EA. injection EA as <-. vm_compute. reflexivity.
  - exists A, s. split; [reflexivity|]. split; [exact E|exact H].
Defined.
