(* ===== verification/GattServerData.v ===== *)
(** What the GATT server of [GattServer] reads and writes: access rights, long
    reads and long writes, and the uses that leave its buffers or its memory. *)
From S2P Require Import Prelude Uuid Att GattDb GattAttr GattServer GattServerOk.

(** ** Access rights *)

Definition key_size_ok (min size : Z) : Prop := min = 0 \/ size = 0 \/ min <= size.

(** The rights of an attribute for reading and for writing: the bit that allows
    it at all, the one that asks for authentication, the one for encryption. *)
Definition access_bits (write : bool) : Z * Z * Z :=
  if write then (BT_ATT_PERM_WRITE, BT_ATT_PERM_WRITE_AUTHEN, BT_ATT_PERM_WRITE_ENCRYPT)
  else (BT_ATT_PERM_READ, BT_ATT_PERM_READ_AUTHEN, BT_ATT_PERM_READ_ENCRYPT).

Definition bit_set (perm bit : Z) : Prop := Z.land perm bit <> 0.

Definition access_granted (write : bool) (perm security enc_size min : Z) : Prop :=
  let '(allow, authen, encrypt) := access_bits write in
  perm = 0 \/
  (bit_set perm allow /\ 0 <= security /\
   (bit_set perm authen -> BT_ATT_SECURITY_HIGH <= security /\ key_size_ok min enc_size) /\
   (bit_set perm encrypt -> BT_ATT_SECURITY_MEDIUM <= security /\ key_size_ok min enc_size)).

Lemma check_min_key_size_spec min size : check_min_key_size min size = true <-> key_size_ok min size.
Proof. unfold check_min_key_size, key_size_ok. destruct (_ || _) eqn:E; lia. Qed.

Lemma land_land perm mask bits : Z.land (Z.land perm mask) bits = Z.land perm (Z.land mask bits).
Proof. by rewrite Z.land_assoc. Qed.

(** One test of [check_permissions]: a bit asks for a level and a key size. *)
Lemma level_test (b : bool) (P : Prop) sec level min size e rest :
  e <> 0 -> (b = true <-> P) ->
  ((if b && (sec <? level) then e else if b && negb (check_min_key_size min size)
    then BT_ATT_ERROR_INSUFFICIENT_ENCRYPTION_KEY_SIZE else rest) = 0
   <-> (P -> level <= sec /\ key_size_ok min size) /\ rest = 0).
Proof.
  intros He HP. rewrite <- check_min_key_size_spec. destruct b; cbn [andb].
  - assert (P) by by apply HP. destruct (Z.ltb_spec sec level).
    + split; [done|]. intros [Hl _]. destruct Hl; [done|lia].
    + destruct (check_min_key_size min size); cbn [negb]; [naive_solver lia|]. split; [done|]. intros [Hl _].
      by destruct Hl.
  - assert (~ P) by (intros H; by apply HP in H). naive_solver.
Qed.

Lemma has_bit perm m : negb (Z.land perm m =? 0) = true <-> bit_set perm m.
Proof. unfold bit_set. rewrite negb_true_iff, Z.eqb_neq. done. Qed.

Definition mask_of (write : bool) : Z := if write then WRITE_MASK else READ_MASK.

(** The first two tests: the attribute allows it at all. *)
Lemma allow_test write perm rest :
  (if negb (perm =? 0) && negb (Z.land (mask_of write) BT_ATT_PERM_READ =? 0) &&
      negb (negb (Z.land perm BT_ATT_PERM_READ =? 0)) then BT_ATT_ERROR_READ_NOT_PERMITTED
   else if negb (perm =? 0) && negb (Z.land (mask_of write) BT_ATT_PERM_WRITE =? 0) &&
      negb (negb (Z.land perm BT_ATT_PERM_WRITE =? 0)) then BT_ATT_ERROR_WRITE_NOT_PERMITTED
   else rest) = 0 <-> (perm = 0 \/ bit_set perm (access_bits write).1.1) /\ rest = 0.
Proof.
  unfold bit_set, mask_of. destruct write; cbn [access_bits fst];
    [change (Z.land WRITE_MASK BT_ATT_PERM_READ) with 0; change (Z.land WRITE_MASK BT_ATT_PERM_WRITE) with 2
    |change (Z.land READ_MASK BT_ATT_PERM_READ) with 1; change (Z.land READ_MASK BT_ATT_PERM_WRITE) with 0];
    cbn [Z.eqb negb andb]; rewrite ?andb_false_r, ?andb_true_r; cbn [andb]; rewrite negb_involutive;
    destruct (Z.eqb_spec perm 0) as [->|Hp]; cbn [negb andb]; rewrite ?Z.land_0_l; try tauto;
    match goal with |- context [Z.land perm ?b =? 0] => destruct (Z.eqb_spec (Z.land perm b) 0) end;
    (split; [intros E; try done; tauto|tauto]).
Qed.

(** Who gets at an attribute.  [check_permissions] with the mask of a read
    (write) lets a request pass exactly if the attribute has no permissions at
    all, or its permissions allow reading (writing), and the link has the
    security level and the key size that its bits for authentication and
    encryption ask for.  The bits for secure connections take no part in it. *)
Theorem access_granted_iff write perm security enc_size min :
  permission_error perm (if write : bool then WRITE_MASK else READ_MASK) security enc_size min = 0
  <-> access_granted write perm security enc_size min.
Proof.
  fold (mask_of write). assert (Hmask : Z.land (mask_of write) BT_ATT_PERM_SECURE = 0 /\
    Z.land (mask_of write) BT_ATT_PERM_AUTHEN = (access_bits write).1.2 /\
    Z.land (mask_of write) BT_ATT_PERM_ENCRYPT = (access_bits write).2 /\
    Z.land (mask_of write) (access_bits write).1.1 = (access_bits write).1.1) by by destruct write.
  destruct Hmask as (Hs & Ha & He & Hal). unfold permission_error.
  rewrite !land_land, Hs, Ha, He, Z.land_0_r. cbn [negb Z.eqb andb]. rewrite allow_test.
  unfold access_granted. destruct (access_bits write) as [[allow authen] encrypt]. cbn [fst snd] in *.
  assert (Hnz : bit_set perm allow -> Z.land perm (mask_of write) <> 0).
  { unfold bit_set. rewrite <- Hal at 1. rewrite <- land_land. intros H E. by rewrite E in H. }
  destruct (Z.eqb_spec (Z.land perm (mask_of write)) 0) as [E|E]; [naive_solver|].
  assert (Hp : perm <> 0) by (intros ->; by rewrite Z.land_0_l in E).
  destruct (Z.ltb_spec security 0).
  { split; [by intros [_ ?]|]. intros [|(_ & ? & _)]; [done|lia]. }
  rewrite !level_test by done. rewrite !has_bit. split.
  - intros ([|?] & ? & ? & _); [done|]. by right.
  - intros [|(? & ? & ? & ?)]; [done|]. split_and!; [by right|done..].
Qed.

(** ** One attribute kept in the database *)

Lemma get_le_0 h rest : 0 <= h <= 65535 -> get_le (slice 0 2 (put_le16 h ++ rest)) = h.
Proof.
  intros H. rewrite slice_app_l by (rewrite ?zlen_put_le16; lia).
  change (slice 0 2 (put_le16 h)) with (put_le16 h). apply get_le_put_le16. lia.
Qed.

Lemma get_le_2 h off rest : 0 <= off <= 65535 -> get_le (slice 2 2 (put_le16 h ++ put_le16 off ++ rest)) = off.
Proof.
  intros H. rewrite slice_app_r by (rewrite zlen_put_le16; lia). rewrite zlen_put_le16.
  change (2 - 2) with 0. by apply get_le_0.
Qed.

Lemma find_attribute_is db a A :
  db_ok db -> get_attr a db = Some A -> handle A <> 0 -> gatt_db_get_attribute (handle A) db = Some (Some a).
Proof.
  intros Hok HA Hh. destruct (get_attribute_spec db (handle A) (do_wf _ Hok) Hh) as (r & -> & Hr).
  destruct r as [b|]; [|by destruct (Hr a A HA)]. destruct Hr as (B & HB & HBh). do 2 f_equal.
  by eapply attr_handle_inj; [apply Hok|..].
Qed.

Lemma handle_range db a A : db_ok db -> get_attr a db = Some A -> 0 <= handle A <= 65535.
Proof.
  intros [Hwf _] HA. destruct a as [t i]. apply (get_attr_spec db t i A Hwf) in HA as (sv & Hs & HA).
  pose proof (wf_services db Hwf t sv Hs) as Hsv. destruct (attr_range sv i A Hsv HA) as [Hr _].
  destruct (wf_range sv Hsv). unfold UINT16_MAX in *. lia.
Qed.

(** The attribute [a] of a server, and that the link may read or write it. *)
Record serves_attr (write : bool) (a : aptr) (A : gatt_db_attribute) (s : server) : Prop := mkServes {
  sa_get : get_attr a (g_db s) = Some A;
  sa_handle : handle A <> 0;
  sa_plain : (if write then write_func A else read_func A) = None;
  sa_access : access_granted write (permissions A) (g_security s) (g_enc_size s) (g_min_enc_size s)
}.

Section Data.
Context (authorize : option (Z -> Z)) (run_authorize : Z -> Z -> Z -> Z) (junk : Z -> Z).

Lemma granted_check write a A s :
  serves_attr write a A s -> check_permissions a (mask_of write) s = Some 0.
Proof.
  intros [HA _ _ Hp]. rewrite (check_permissions_eq a A) by done. f_equal. by apply access_granted_iff.
Qed.

(** ** Long writes *)

Definition prep_pdu (h off : Z) (data : list Z) : list Z := put_le16 h ++ put_le16 off ++ data.

(** The Prepare Write requests of a client that writes the chunks one behind the
    other. *)
Fixpoint prep_requests (chan h off : Z) (chunks : list (list Z)) : list server_op :=
  match chunks with
  | [] => []
  | c :: cs => SRequest chan BT_ATT_OP_PREP_WRITE_REQ (prep_pdu h off c) :: prep_requests chan h (off + zlen c) cs
  end.

(** Their responses. *)
Fixpoint prep_responses (chan h off : Z) (chunks : list (list Z)) : list att_out :=
  match chunks with
  | [] => []
  | c :: cs => Rsp chan BT_ATT_OP_PREP_WRITE_RSP (prep_pdu h off c) :: prep_responses chan h (off + zlen c) cs
  end.

Lemma attribute_write_nil a A off op k s :
  get_attr a (g_db s) = Some A -> write_func A = None ->
  attribute_write authorize junk a off [] op k s = Some (Some 0, s).
Proof.
  intros HA Hw. unfold attribute_write, on_attr. rewrite HA. cbn [mbind option_bind].
  unfold gatt_db_attribute_write. cbn [attr]. rewrite Hw. change (zlen [] =? 0) with true. cbn -[put_attr].
  rewrite (put_attr_same _ a A HA). cbn. by rewrite set_same.
Qed.

(** A Prepare Write request for such an attribute stores its data and echoes. *)
Lemma prep_step a A chan off c s :
  inv s -> serves_attr true a A s -> 0 <= off <= 65535 -> zlen (g_prep_queue s) < g_max_prep_queue_len s ->
  server_step authorize run_authorize junk (SRequest chan BT_ATT_OP_PREP_WRITE_REQ (prep_pdu (handle A) off c)) s
  = s' ← store_prep_data authorize junk (handle A) off c s;
    Some (bt_att_chan_send_rsp chan BT_ATT_OP_PREP_WRITE_RSP (prep_pdu (handle A) off c) s').
Proof.
  intros Hi Hs Ho Hq. pose proof (handle_range _ a A (i_db s Hi) (sa_get _ _ _ _ Hs)) as Hh.
  cbn [server_step]. unfold server_request. rewrite (i_alive s Hi). cbn [negb]. cbn -[prep_write_cb prep_pdu].
  unfold prep_pdu. set (pdu := put_le16 (handle A) ++ put_le16 off ++ c).
  assert (Hlen : zlen pdu = 4 + zlen c) by (unfold pdu; rewrite !zlen_app, !zlen_put_le16; lia).
  assert (H0 : get_le (slice 0 2 pdu) = handle A) by by apply get_le_0.
  assert (H2 : get_le (slice 2 2 pdu) = off) by by apply get_le_2.
  assert (Hdrop : drop 4 pdu = c) by done. pose proof (zlen_nonneg c). clearbody pdu.
  unfold prep_write_cb. rewrite Hlen, H0, H2.
  rewrite (proj2 (Z.ltb_ge (4 + zlen c) 4)), (proj2 (Z.leb_gt (g_max_prep_queue_len s) _)) by lia.
  rewrite (find_attribute_is _ a A) by first [apply Hi|apply Hs]. cbn [mbind option_bind].
  rewrite (granted_check true a A s Hs : check_permissions a WRITE_MASK s = Some 0). cbn [mbind option_bind negb Z.eqb].
  rewrite (attribute_write_nil a A) by first [apply Hs|apply (sa_plain _ _ _ _ Hs)]. cbn [mbind option_bind].
  unfold prep_write_complete_cb. cbn [negb Z.eqb]. rewrite (i_alive s Hi). cbn [negb]. by rewrite H0, H2, Hdrop.
Qed.

(** What a long write leaves in the queue. *)
Definition entry (h off : Z) (v : list Z) (b : bool) : prep_write_data := mkPrep v h off (zlen v) b.

(** The state of the server but for its queue and its answers. *)
Definition prepared (q : list prep_write_data) (outs : list att_out) (s : server) : server :=
  set_g_prep_queue q (set_g_out (g_out s ++ outs) s).

Lemma append_entry h off v b c :
  zlen v + zlen c <= 65535 -> append_prep_data junk c (entry h off v b) = Some (entry h off (v ++ c) b).
Proof.
  intros Hl. destruct (append_prep_ok junk c (entry h off v b)) as ([v' h' o' l' b'] & -> & H1 & H2 & H3 & H4 & H5 & H6);
    [done|done|]. cbn in *. by subst.
Qed.

Lemma store_first h off c s :
  inv s -> g_prep_queue s = [] -> zlen c <= 65535 ->
  exists b, store_prep_data authorize junk h off c s = Some (set_g_prep_queue [entry h off c b] s).
Proof.
  intros Hi Hq Hl. unfold store_prep_data, prep_data_new. rewrite Hq. cbn [last].
  assert (Ha : append_prep_data junk c (mkPrep [] 0 0 0 false) = Some (entry 0 0 c false))
    by (apply (append_entry 0 0 [] false c); change (0 + zlen c <= 65535); lia).
  rewrite Ha.
  cbn [mbind option_bind]. destruct (is_reliable_ok authorize junk (u16 (h - 1)) s Hi) as [b ->]. exists b. cbn. by rewrite Hq.
Qed.

Lemma store_next h off v b c s :
  g_prep_queue s = [entry h off v b] -> zlen v + zlen c <= 65535 ->
  store_prep_data authorize junk h (zlen v + off) c s = Some (set_g_prep_queue [entry h off (v ++ c) b] s).
Proof.
  intros Hq Hl. unfold store_prep_data. rewrite Hq. cbn [last entry pw_handle pw_length pw_offset].
  rewrite !Z.eqb_refl. cbn [andb]. fold (entry h off v b). rewrite append_entry by done. done.
Qed.

(** One byte more than the length can count: the buffer is made small again. *)
Lemma store_overflow h off v b c s :
  g_prep_queue s = [entry h off v b] -> c <> [] -> 65535 < zlen v + zlen c ->
  store_prep_data authorize junk h (zlen v + off) c s = None.
Proof.
  intros Hq Hc Hl. unfold store_prep_data. rewrite Hq. cbn [last entry pw_handle pw_length pw_offset].
  rewrite !Z.eqb_refl. cbn [andb]. unfold append_prep_data.
  rewrite (proj2 (Z.eqb_neq (zlen c) 0)) by (intros E%zlen_0_nil; done). unfold entry. cbn [pw_length pw_value].
  pose proof (u16_range (zlen v + zlen c)) as Hr. unfold UINT16_MAX in Hr.
  rewrite memcpy_at_None; [done|]. rewrite zlen_realloc by lia. lia.
Qed.

Lemma entry_ok a A off v b s :
  inv s -> serves_attr true a A s -> 0 <= off -> off + zlen v <= 65535 -> prep_ok (g_db s) (entry (handle A) off v b).
Proof.
  intros Hi Hs Ho Hl. pose proof (zlen_nonneg v). split_and!; cbn; try done; try lia.
  intros a' A' HA' Hh. assert (a' = a) as -> by (eapply attr_handle_inj; [apply Hi|done|apply Hs|done]).
  assert (A' = A) as -> by (pose proof (sa_get _ _ _ _ Hs); congruence).
  apply (permitted_writable _ A (g_security s) (g_enc_size s) (g_min_enc_size s) eq_refl).
  apply (access_granted_iff true), Hs.
Qed.

Lemma prepared_inv q outs s :
  inv s -> Forall (prep_ok (g_db s)) q -> Forall (fits (g_att_mtu s)) outs -> inv (prepared q outs s).
Proof.
  intros [] Hq Ho. split; cbn; try done. apply Forall_app. by split.
Qed.

Lemma prepared_twice q q' o o' s : prepared q' o' (prepared q o s) = prepared q' (o ++ o') s.
Proof. unfold prepared. cbn. by rewrite <- app_assoc. Qed.

Lemma zlen_prep_pdu h off c : zlen (prep_pdu h off c) = 4 + zlen c.
Proof. unfold prep_pdu. rewrite !zlen_app, !zlen_put_le16. lia. Qed.

Lemma server_run_app os os' s :
  server_run authorize run_authorize junk (os ++ os') s
  = s' ← server_run authorize run_authorize junk os s; server_run authorize run_authorize junk os' s'.
Proof.
  revert s. induction os as [|o os IH]; intros s; cbn [server_run app]; [done|].
  destruct (server_step _ _ _ o s); cbn [mbind option_bind]; [apply IH|done].
Qed.

(** The chunks behind the first are appended to the entry. *)
Lemma preps_append a A chan cs : forall off v b s,
  inv s -> serves_attr true a A s -> g_prep_queue s = [entry (handle A) off v b] -> 1 < g_max_prep_queue_len s ->
  0 <= off -> off + zlen v + zlen (concat cs) <= 65535 -> Forall (fun c => zlen c + 5 <= g_att_mtu s) cs ->
  server_run authorize run_authorize junk (prep_requests chan (handle A) (zlen v + off) cs) s
  = Some (prepared [entry (handle A) off (v ++ concat cs) b] (prep_responses chan (handle A) (zlen v + off) cs) s).
Proof.
  induction cs as [|c cs IH]; intros off v b s Hi Hs Hq Hmax Ho Hl Hc.
  - cbn. unfold prepared. rewrite !app_nil_r, <- Hq. by destruct s.
  - apply Forall_cons in Hc as [Hc Hcs]. cbn [prep_requests prep_responses server_run concat]. cbn [concat] in Hl.
    rewrite zlen_app in Hl. pose proof (zlen_nonneg c). pose proof (zlen_nonneg (concat cs)). pose proof (zlen_nonneg v).
    rewrite (prep_step a A) by first [done|lia|rewrite Hq; unfold zlen; cbn; lia].
    rewrite (store_next _ off v b) by (done || lia). cbn [mbind option_bind].
    set (s1 := bt_att_chan_send_rsp _ _ _ _).
    assert (E1 : s1 = prepared [entry (handle A) off (v ++ c) b]
        [Rsp chan BT_ATT_OP_PREP_WRITE_RSP (prep_pdu (handle A) (zlen v + off) c)] s) by done.
    rewrite E1. clear s1 E1. replace (zlen v + off + zlen c) with (zlen (v ++ c) + off) by (rewrite zlen_app; lia).
    rewrite (IH off (v ++ c) b).
    + by rewrite prepared_twice, <- app_assoc.
    + apply prepared_inv; [done| |].
      * constructor; [|done]. apply (entry_ok a A); try done. rewrite zlen_app. lia.
      * constructor; [|done]. cbn -[prep_pdu]. rewrite zlen_prep_pdu. lia.
    + by destruct Hs.
    + done.
    + done.
    + done.
    + rewrite zlen_app. lia.
    + done.
Qed.

(** All the chunks. *)
Lemma preps_run a A chan off c cs s :
  inv s -> serves_attr true a A s -> g_prep_queue s = [] -> 1 < g_max_prep_queue_len s ->
  0 <= off -> off + zlen (concat (c :: cs)) <= 65535 -> Forall (fun c => zlen c + 5 <= g_att_mtu s) (c :: cs) ->
  exists b, server_run authorize run_authorize junk (prep_requests chan (handle A) off (c :: cs)) s
  = Some (prepared [entry (handle A) off (concat (c :: cs)) b] (prep_responses chan (handle A) off (c :: cs)) s).
Proof.
  intros Hi Hs Hq Hmax Ho Hl Hc. apply Forall_cons in Hc as [Hc Hcs].
  cbn [prep_requests prep_responses server_run concat] in *.
  rewrite zlen_app in Hl. pose proof (zlen_nonneg c). pose proof (zlen_nonneg (concat cs)).
  rewrite (prep_step a A) by first [done|lia|rewrite Hq; unfold zlen; cbn; lia].
  destruct (store_first (handle A) off c s Hi Hq) as [b ->]; [lia|]. cbn [mbind option_bind]. exists b.
  set (s1 := bt_att_chan_send_rsp _ _ _ _).
  assert (E1 : s1 = prepared [entry (handle A) off c b]
      [Rsp chan BT_ATT_OP_PREP_WRITE_RSP (prep_pdu (handle A) off c)] s) by done.
  rewrite E1. clear s1 E1. rewrite (Z.add_comm off (zlen c)).
  rewrite (preps_append a A chan cs off c b); try done.
  - by rewrite prepared_twice.
  - apply prepared_inv; [done| |].
    + constructor; [|done]. apply (entry_ok a A); try done. lia.
    + constructor; [|done]. cbn -[prep_pdu]. rewrite zlen_prep_pdu. lia.
  - by destruct Hs.
  - lia.
Qed.

(** Executing one prepared write. *)
Lemma exec_step a A chan off v b s :
  inv s -> serves_attr true a A s -> g_prep_queue s = [entry (handle A) off v b] -> 0 <= off <= 65535 ->
  exists db' A', server_step authorize run_authorize junk (SRequest chan BT_ATT_OP_EXEC_WRITE_REQ [1]) s
    = Some (prepared [] [Rsp chan BT_ATT_OP_EXEC_WRITE_RSP []] (set_g_db db' s)) /\
    get_attr a db' = Some A' /\ (if zlen v =? 0 then Some A else write_value junk off v A) = Some A'.
Proof.
  intros Hi Hs Hq Ho. cbn [server_step]. unfold server_request. rewrite (i_alive s Hi). cbn -[exec_write_cb].
  unfold exec_write_cb. cbn [Z.eqb Pos.eqb]. rewrite Hq. change (1 <? zlen [entry (handle A) off v b]) with false.
  cbn [find_no_reliable_characteristic]. unfold exec_next_prep_write. rewrite (i_alive s Hi), Hq.
  cbn [negb exec_prep_queue Z.eqb]. change (g_db (set_g_prep_queue [] s)) with (g_db s).
  change (pw_handle (entry (handle A) off v b)) with (handle A).
  rewrite (find_attribute_is _ a A) by first [apply Hi|apply Hs]. cbn [mbind option_bind].
  cbn [entry pw_value pw_length pw_offset]. pose proof (zlen_nonneg v).
  assert (Hread : memread v 0 (zlen v) = Some v) by (rewrite memread_Some by lia; by rewrite slice_all).
  change (pw_value (entry (handle A) off v b)) with v. change (pw_length (entry (handle A) off v b)) with (zlen v).
  change (pw_offset (entry (handle A) off v b)) with off. rewrite Hread. cbn [mbind option_bind].
  destruct (attribute_write_spec authorize junk a A off v BT_ATT_OP_EXEC_WRITE_REQ (KExec chan) (set_g_prep_queue [] s))
    as [(err & db' & -> & Hn & Hw)|(cb & id & db' & Hcb & _)];
    [apply Hi|apply Hs|done| | |pose proof (sa_plain _ _ _ _ Hs); cbn in *; congruence].
  { destruct (entry_ok a A 0 [] b s Hi Hs) as [Hm _]; [lia|unfold zlen; cbn; lia|]. apply (Hm a A); [apply Hs|done]. }
  destruct (Hw (sa_plain _ _ _ _ Hs)) as (-> & A' & HA' & HE). cbn [mbind option_bind].
  change (g_db (set_g_db db' (set_g_prep_queue [] s))) with db'. rewrite (get_handle_eq a A') by done.
  cbn [mbind option_bind Z.eqb negb]. exists db', A'. by split_and!.
Qed.

(** What a Read or Read Blob request is answered with. *)
Definition read_part (mtu off : Z) (v : list Z) : list Z := take (Z.to_nat (mtu - 1)) (drop (Z.to_nat off) v).

Lemma handle_read_step a A chan opcode off s :
  inv s -> serves_attr false a A s -> g_authorize s = None -> g_pending_read_op s = false ->
  0 <= off <= value_len A ->
  handle_read_req authorize run_authorize chan opcode (handle A) off s
  = Some (bt_att_chan_send_rsp chan (get_read_rsp_opcode opcode) (read_part (g_att_mtu s) off (stored A)) s).
Proof.
  intros Hi Hs Hau Hp Ho. pose proof (sa_get _ _ _ _ Hs) as HA.
  pose proof (ai_value _ _ (do_attrs _ (i_db s Hi) a A HA)) as Hv. pose proof (zlen_stored A Hv) as Hz.
  destruct Hv as [Hv1 Hv2].
  unfold handle_read_req, authorize_req. rewrite Hau. cbn [negb Z.eqb].
  rewrite (find_attribute_is _ a A) by first [apply Hi|apply Hs]. cbn [mbind option_bind].
  rewrite (granted_check false a A s Hs : check_permissions a READ_MASK s = Some 0). cbn [mbind option_bind negb Z.eqb].
  rewrite Hp.
  destruct (attribute_read_spec authorize junk a A off opcode (KRead chan opcode)
    (set_g_pending_read_op true s)) as [(err & v & -> & Hval)|(cb & id & db' & Hcb & _)];
    [apply Hi|done|lia| |pose proof (sa_plain _ _ _ _ Hs); cbn in *; congruence].
  destruct (Hval (sa_plain _ _ _ _ Hs)) as [-> ->]; [lia|]. cbn [mbind option_bind].
  unfold read_complete_cb. rewrite (get_handle_eq a A) by done. cbn [mbind option_bind negb Z.eqb].
  destruct (i_mtu s Hi) as [Hm _]. change (g_att_mtu (set_g_pending_read_op true s)) with (g_att_mtu s).
  set (v := drop (Z.to_nat off) (stored A)). pose proof (zlen_nonneg v). rewrite u32_small, u16_small by lia.
  rewrite memread_Some by lia. cbn [mbind option_bind].
  assert (Hsl : slice 0 (Z.min (g_att_mtu s - 1) (zlen v)) v = read_part (g_att_mtu s) off (stored A)).
  { unfold slice, read_part. fold v. rewrite drop_0. destruct (Z.le_gt_cases (g_att_mtu s - 1) (zlen v)).
    - by rewrite Z.min_l by lia.
    - rewrite Z.min_r by lia. rewrite !take_ge; [done|unfold zlen in *; lia..]. }
  rewrite Hsl. destruct s; cbn in Hp; by subst.
Qed.

Lemma read_step a A chan s :
  inv s -> serves_attr false a A s -> g_authorize s = None -> g_pending_read_op s = false ->
  server_step authorize run_authorize junk (SRequest chan BT_ATT_OP_READ_REQ (put_le16 (handle A))) s
  = Some (bt_att_chan_send_rsp chan BT_ATT_OP_READ_RSP (read_part (g_att_mtu s) 0 (stored A)) s).
Proof.
  intros Hi Hs Hau Hp. pose proof (sa_get _ _ _ _ Hs) as HA. pose proof (handle_range _ a A (i_db s Hi) HA) as Hh.
  pose proof (ai_value _ _ (do_attrs _ (i_db s Hi) a A HA)) as [Hv _].
  cbn [server_step]. unfold server_request. rewrite (i_alive s Hi). cbn -[read_cb put_le16].
  unfold read_cb. rewrite zlen_put_le16. cbn [negb Z.eqb Pos.eqb].
  rewrite <- (app_nil_r (put_le16 (handle A))), get_le_0 by done. apply (handle_read_step a A chan); (done || lia).
Qed.

Lemma blob_step a A chan off s :
  inv s -> serves_attr false a A s -> g_authorize s = None -> g_pending_read_op s = false ->
  0 <= off <= value_len A ->
  server_step authorize run_authorize junk
    (SRequest chan BT_ATT_OP_READ_BLOB_REQ (put_le16 (handle A) ++ put_le16 off)) s
  = Some (bt_att_chan_send_rsp chan BT_ATT_OP_READ_BLOB_RSP (read_part (g_att_mtu s) off (stored A)) s).
Proof.
  intros Hi Hs Hau Hp Ho. pose proof (sa_get _ _ _ _ Hs) as HA. pose proof (handle_range _ a A (i_db s Hi) HA) as Hh.
  pose proof (ai_value _ _ (do_attrs _ (i_db s Hi) a A HA)) as [Hv1 Hv2].
  cbn [server_step]. unfold server_request. rewrite (i_alive s Hi). cbn -[read_blob_cb put_le16].
  unfold read_blob_cb. rewrite zlen_app, !zlen_put_le16. cbn [negb Z.add Z.eqb Pos.eqb Pos.add].
  rewrite get_le_0 by done. rewrite <- (app_nil_r (put_le16 off)), get_le_2 by lia. by apply (handle_read_step a A chan).
Qed.

(** A client that reads a value with [n] blobs after the first part, of [m] bytes each. *)
Definition blob_requests (chan h m : Z) (n : nat) : list server_op :=
  (fun i => SRequest chan BT_ATT_OP_READ_BLOB_REQ (put_le16 h ++ put_le16 (m * Z.of_nat i))) <$> seq 1 n.
Definition read_requests (chan h m : Z) (n : nat) : list server_op :=
  SRequest chan BT_ATT_OP_READ_REQ (put_le16 h) :: blob_requests chan h m n.

Definition blob (v : list Z) (m : Z) (i : nat) : list Z := take (Z.to_nat m) (drop (Z.to_nat (m * Z.of_nat i)) v).

Lemma inv_outs o s : inv s -> Forall (fits (g_att_mtu s)) o -> inv (set_g_out (g_out s ++ o) s).
Proof. intros [] Ho. split; cbn; try done. by apply Forall_app. Qed.

Lemma blobs_run a A chan n s :
  inv s -> serves_attr false a A s -> g_authorize s = None -> g_pending_read_op s = false ->
  let m := g_att_mtu s - 1 in
  m * Z.of_nat n <= value_len A ->
  server_run authorize run_authorize junk (blob_requests chan (handle A) m n) s
  = Some (set_g_out (g_out s ++ (Rsp chan BT_ATT_OP_READ_BLOB_RSP <$> (blob (stored A) m <$> seq 1 n))) s).
Proof.
  intros Hi Hs Hau Hp m. destruct (i_mtu s Hi) as [Hm _]. unfold blob_requests. induction n as [|n IH]; intros Hn.
  - cbn. rewrite app_nil_r. by destruct s.
  - rewrite seq_S, !fmap_app, server_run_app, IH by lia. cbn [mbind option_bind].
    set (s1 := set_g_out _ s).
    assert (Hi1 : inv s1).
    { apply inv_outs; [done|]. rewrite Forall_fmap, Forall_fmap. apply Forall_forall. intros i _. cbn. unfold blob, zlen. rewrite length_take. lia. }
    cbn [fmap list_fmap server_run]. rewrite (blob_step a A chan (m * Z.of_nat (1 + n)) s1); try done.
    + cbn [mbind option_bind]. unfold s1 at 1. unfold bt_att_chan_send_rsp. cbn. f_equal. unfold s1. cbn.
      by rewrite <- app_assoc.
    + by destruct Hs.
    + pose proof (Z.mul_nonneg_nonneg m (Z.of_nat (1 + n)) ltac:(lia) ltac:(lia)). lia.
Qed.

Lemma read_run a A chan n s :
  inv s -> serves_attr false a A s -> g_authorize s = None -> g_pending_read_op s = false ->
  let m := g_att_mtu s - 1 in
  m * Z.of_nat n <= value_len A ->
  server_run authorize run_authorize junk (read_requests chan (handle A) m n) s
  = Some (set_g_out (g_out s ++ Rsp chan BT_ATT_OP_READ_RSP (blob (stored A) m 0) ::
            (Rsp chan BT_ATT_OP_READ_BLOB_RSP <$> (blob (stored A) m <$> seq 1 n))) s).
Proof.
  intros Hi Hs Hau Hp m Hn. destruct (i_mtu s Hi) as [Hm _]. unfold read_requests. cbn [server_run]. rewrite (read_step a A) by done. cbn [mbind option_bind].
  set (s1 := bt_att_chan_send_rsp _ _ _ _).
  assert (Hi1 : inv s1).
  { apply (inv_out (Rsp chan BT_ATT_OP_READ_RSP _)); [done|]. cbn. unfold read_part, zlen. rewrite length_take. lia. }
  pose proof (blobs_run a A chan n s1 Hi1 ltac:(by destruct Hs) Hau Hp Hn) as HB. cbv zeta in HB.
  change (g_att_mtu s1) with (g_att_mtu s) in HB. fold m in HB. rewrite HB. unfold s1, bt_att_chan_send_rsp. cbn. rewrite <- app_assoc. cbn.
  unfold blob at 2, read_part. by rewrite Z.mul_0_r.
Qed.

Lemma concat_blobs v m n :
  0 < m -> concat (blob v m <$> seq 0 n) = take (Z.to_nat (m * Z.of_nat n)) v.
Proof.
  intros Hm. induction n as [|n IH].
  - cbn. by rewrite Z.mul_0_r, take_0.
  - rewrite seq_S, fmap_app, List.concat_app, IH. cbn. rewrite app_nil_r. unfold blob. cbn.
    replace (Z.to_nat (m * Z.of_nat (Datatypes.S n))) with (Z.to_nat (m * Z.of_nat n) + Z.to_nat m)%nat by lia.
    rewrite <- (take_drop (Z.to_nat (m * Z.of_nat n)) v) at 3. 
    destruct (decide (Z.to_nat (m * Z.of_nat n) <= length v)%nat) as [Hle|Hgt].
    + rewrite take_app_ge by (rewrite length_take; lia). f_equal. f_equal. rewrite length_take. lia.
    + rewrite (drop_ge v) by lia. rewrite take_nil, !app_nil_r, take_take. f_equal. lia.
Qed.
End Data.

(** The invariant holds after the Prepare Write requests. *)
Lemma prepared_entry_inv a A chan off v b chunks s :
  inv s -> serves_attr true a A s -> 0 <= off -> off + zlen v <= 65535 ->
  Forall (fun c => zlen c + 5 <= g_att_mtu s) chunks ->
  inv (prepared [entry (handle A) off v b] (prep_responses chan (handle A) off chunks) s).
Proof.
  intros Hi Hs Ho Hl Hc. apply prepared_inv; [done| |].
  - constructor; [|done]. by apply (entry_ok a A).
  - clear Ho Hl. revert off. induction Hc as [|x l Hx _ IH]; intros o; cbn; constructor; [|apply IH].
    change (zlen (prep_pdu (handle A) o x) <= g_att_mtu s - 1). rewrite zlen_prep_pdu. lia.
Qed.

(** C24. A long write is one write.  For an attribute kept in the database that the
    link may write: Prepare Write requests for chunks one behind the other, and
    an Execute Write request, are echoed and confirmed, leave nothing prepared,
    and leave the attribute as [gatt_db_attribute_write] of all the data at the
    first offset does. *)
Theorem long_write_is_one_write authorize run_authorize junk a A chan off c cs op user s :
  inv s -> serves_attr true a A s -> g_prep_queue s = [] -> 1 < g_max_prep_queue_len s ->
  0 <= off -> off + zlen (concat (c :: cs)) <= 65535 -> Forall (fun c => zlen c + 5 <= g_att_mtu s) (c :: cs) ->
  exists s' A' st, server_run authorize run_authorize junk
      (prep_requests chan (handle A) off (c :: cs) ++ [SRequest chan BT_ATT_OP_EXEC_WRITE_REQ [1]]) s = Some s' /\
    g_out s' = g_out s ++ prep_responses chan (handle A) off (c :: cs) ++ [Rsp chan BT_ATT_OP_EXEC_WRITE_RSP []] /\
    g_prep_queue s' = [] /\ get_attr a (g_db s') = Some A' /\
    gatt_db_attribute_write authorize junk off (concat (c :: cs)) op user (mkState A (g_timers s) (g_next_timer s) [])
      = Some st /\ GattAttr.attr st = A' /\ GattAttr.log st = [EWritten None user 0].
Proof.
  intros Hi Hs Hq Hmax Ho Hl Hc. pose proof (zlen_nonneg (concat (c :: cs))).
  destruct (preps_run authorize run_authorize junk a A chan off c cs s Hi Hs Hq Hmax Ho Hl Hc) as [b E].
  rewrite server_run_app, E. cbn [mbind option_bind server_run]. set (s1 := prepared _ _ s).
  assert (Hi1 : inv s1) by by apply (prepared_entry_inv a).
  destruct (exec_step authorize run_authorize junk a A chan off (concat (c :: cs)) b s1) as (db' & A' & E1 & HA' & HE);
    [done|by destruct Hs|done|lia|].
  rewrite E1. cbn [mbind option_bind]. exists (prepared [] [Rsp chan BT_ATT_OP_EXEC_WRITE_RSP []] (set_g_db db' s1)), A'.
  unfold gatt_db_attribute_write. cbn [attr]. pose proof (sa_plain _ _ _ _ Hs) as Hw. cbn in Hw. rewrite Hw, HE.
  cbn [mbind option_bind]. eexists. split_and!; [done| |done|done|done|done|done].
  unfold s1, prepared. cbn. by rewrite <- app_assoc.
Qed.

Lemma concat_replicate_len n (c : list Z) : zlen (concat (replicate n c)) = Z.of_nat n * zlen c.
Proof. induction n as [|n IH]; cbn [replicate concat]; [done|]. rewrite zlen_app, IH. lia. Qed.

Section Overflow.
Context (authorize : option (Z -> Z)) (run_authorize : Z -> Z -> Z -> Z) (junk : Z -> Z).

Lemma prep_requests_snoc chunk n h off chan :
  prep_requests chan h off (replicate (Datatypes.S n) chunk)
  = prep_requests chan h off (replicate n chunk) ++
    [SRequest chan BT_ATT_OP_PREP_WRITE_REQ (prep_pdu h (off + Z.of_nat n * zlen chunk) chunk)].
Proof.
  revert off. induction n as [|n IH]; intros off.
  - cbn [replicate prep_requests app]. by replace (off + Z.of_nat 0 * zlen chunk) with off by lia.
  - change (replicate (Datatypes.S (Datatypes.S n)) chunk) with (chunk :: replicate (Datatypes.S n) chunk).
    cbn [prep_requests]. rewrite IH. cbn [replicate prep_requests app].
    by replace (off + zlen chunk + Z.of_nat n * zlen chunk) with (off + Z.of_nat (Datatypes.S n) * zlen chunk) by lia.
Qed.

Lemma overflow_after n chunk a A chan s :
  inv s -> serves_attr true a A s -> g_prep_queue s = [] -> 1 < g_max_prep_queue_len s ->
  chunk <> [] -> zlen chunk + 5 <= g_att_mtu s -> (0 < n)%nat ->
  Z.of_nat n * zlen chunk <= 65535 < (Z.of_nat n + 1) * zlen chunk ->
  (exists b, server_run authorize run_authorize junk (prep_requests chan (handle A) 0 (replicate n chunk)) s
     = Some (prepared [entry (handle A) 0 (concat (replicate n chunk)) b]
               (prep_responses chan (handle A) 0 (replicate n chunk)) s)) /\
  server_run authorize run_authorize junk (prep_requests chan (handle A) 0 (replicate (Datatypes.S n) chunk)) s = None.
Proof.
  intros Hi Hs Hq Hmax Hne Hc Hn Hl. pose proof (concat_replicate_len n chunk) as Hcat. pose proof (zlen_nonneg chunk).
  assert (Hfit : Forall (fun c => zlen c + 5 <= g_att_mtu s) (replicate n chunk)) by by apply Forall_replicate.
  assert (H0 : exists b, server_run authorize run_authorize junk (prep_requests chan (handle A) 0 (replicate n chunk)) s
     = Some (prepared [entry (handle A) 0 (concat (replicate n chunk)) b]
               (prep_responses chan (handle A) 0 (replicate n chunk)) s)).
  { assert (exists l, replicate n chunk = chunk :: l) as [l El] by (destruct n; [lia|by eexists]). rewrite El in *.
    apply (preps_run authorize run_authorize junk a A); try done. lia. }
  split; [done|]. destruct H0 as [b E]. rewrite prep_requests_snoc, server_run_app, E. cbn [mbind option_bind server_run].
  set (s1 := prepared _ _ s). rewrite Z.add_0_l, <- Hcat.
  assert (Hi1 : inv s1) by (apply (prepared_entry_inv a); try done; lia).
  rewrite (prep_step authorize run_authorize junk a A);
    [|done|by destruct Hs|lia|change (1 < g_max_prep_queue_len s); done].
  rewrite <- (Z.add_0_r (zlen (concat (replicate n chunk)))).
  rewrite (store_overflow authorize junk (handle A) 0 (concat (replicate n chunk)) b chunk s1); [done|done|done|lia].
Qed.
End Overflow.

(** A client overflows the heap.  The length of a prepared write is kept in 16
    bits and nothing bounds it: for an attribute a client may write and every
    MTU, 3641 requests of 18 bytes, all appended to one entry and so far below
    the limit of the queue, make the server reallocate the buffer to 2 bytes and
    copy behind it. *)
Theorem prepared_write_overflows authorize run_authorize junk a A chan s :
  inv s -> serves_attr true a A s -> g_prep_queue s = [] -> g_max_prep_queue_len s = DEFAULT_MAX_PREP_QUEUE_LEN ->
  let chunk := replicate 18 0 in
  (forall off, pdu_ok (g_att_mtu s) (prep_pdu (handle A) off chunk)) /\
  (exists b, server_run authorize run_authorize junk (prep_requests chan (handle A) 0 (replicate 3640 chunk)) s
     = Some (prepared [entry (handle A) 0 (concat (replicate 3640 chunk)) b]
               (prep_responses chan (handle A) 0 (replicate 3640 chunk)) s)) /\
  server_run authorize run_authorize junk (prep_requests chan (handle A) 0 (replicate 3641 chunk)) s = None.
Proof.
  intros Hi Hs Hq Hmax chunk. destruct (i_mtu s Hi) as [Hm _]. assert (Hch : zlen chunk = 18) by done. split.
  - intros off. split; [|rewrite zlen_prep_pdu; lia]. unfold prep_pdu, bytes_ok. rewrite !Forall_app.
    split_and!; [apply List.Forall_rev, be_bytes_ok..|]. apply Forall_replicate. done.
  - apply (overflow_after authorize run_authorize junk 3640 chunk a A); try done.
    + rewrite Hmax. done.
    + lia.
    + apply Nat.ltb_lt. done.
Qed.

(** C25. A long value is read whole.  For an attribute kept in the database that the
    link may read: a Read request and the Read Blob requests that continue it at multiples of the MTU less one, as many
    as the value needs, are answered with parts that put together are the value;
    all but the last are as long as the MTU allows, the last is shorter, which
    tells the client to stop; the server is otherwise as before. *)
Theorem long_read_is_whole authorize run_authorize junk a A chan s :
  inv s -> serves_attr false a A s -> g_authorize s = None -> g_pending_read_op s = false ->
  let m := g_att_mtu s - 1 in
  let n := Z.to_nat (value_len A / m) in
  exists first rest parts final, server_run authorize run_authorize junk (read_requests chan (handle A) m n) s
    = Some (set_g_out (g_out s ++ Rsp chan BT_ATT_OP_READ_RSP first :: (Rsp chan BT_ATT_OP_READ_BLOB_RSP <$> rest)) s) /\
    concat (first :: rest) = stored A /\ length rest = n /\
    first :: rest = parts ++ [final] /\ Forall (fun p => zlen p = m) parts /\ zlen final < m.
Proof.
  intros Hi Hs Hau Hp m n. destruct (i_mtu s Hi) as [Hm _]. assert (Hm0 : 0 < m) by lia.
  pose proof (ai_value _ _ (do_attrs _ (i_db s Hi) a A (sa_get _ _ _ _ Hs))) as Hv. pose proof (zlen_stored A Hv) as Hz.
  destruct Hv as [Hv _]. pose proof (Z.div_pos (value_len A) m ltac:(lia) Hm0) as Hn0.
  assert (Hn : Z.of_nat n = value_len A / m) by lia.
  pose proof (Z.mul_div_le (value_len A) m Hm0) as Hle. pose proof (Z.mul_succ_div_gt (value_len A) m Hm0) as Hgt.
  exists (blob (stored A) m 0), (blob (stored A) m <$> seq 1 n), (blob (stored A) m <$> seq 0 n), (blob (stored A) m n).
  assert (Hall : blob (stored A) m 0 :: (blob (stored A) m <$> seq 1 n) = blob (stored A) m <$> seq 0 (Datatypes.S n)) by done.
  split; [by apply (read_run authorize run_authorize junk a A chan n s); try done; fold m; lia|]. rewrite Hall. split.
  { rewrite concat_blobs by done. apply take_ge. unfold zlen in Hz. lia. }
  split; [by rewrite length_fmap, length_seq|]. split; [by rewrite seq_S, fmap_app|]. split.
  - apply Forall_fmap, Forall_forall. intros i Hin%elem_of_seq. unfold blob, zlen. cbn.
    rewrite length_take, length_drop. unfold zlen in Hz.
    assert (m * (Z.of_nat i + 1) <= m * Z.of_nat n) by (apply Z.mul_le_mono_nonneg_l; lia). lia.
  - unfold blob, zlen. rewrite length_take, length_drop. unfold zlen in Hz. lia.
Qed.

(** ** Batches of notifications *)

(** A copy behind what is filled. *)
Lemma memcpy_append {A} (dst : list A) off src dst' :
  memcpy_at dst off src = Some dst' -> 0 <= off -> slice 0 (off + zlen src) dst' = slice 0 off dst ++ src.
Proof.
  intros E Ho. pose proof (zlen_nonneg src). rewrite slice_split by lia. rewrite Z.add_0_l, (memcpy_at_slice _ _ _ _ E).
  by rewrite (memcpy_at_before _ _ _ _ 0 off E) by lia.
Qed.

(** One tuple of a Multiple Handle Value Notification. *)
Definition nfy_tuple (i : Z * list Z) : list Z := put_le16 i.1 ++ put_le16 (zlen i.2) ++ i.2.

Section Notifications.
Context (junk : Z -> Z).

Lemma notify_step h v s d :
  default (mkNfy (buffer junk (u16 (g_att_mtu s - 1))) 0 (u16 (g_att_mtu s - 1))) (g_nfy_mult s) = d ->
  zlen (nm_pdu d) = nm_len d -> 0 <= nm_offset d -> nm_len d <= 65535 -> nm_offset d + 4 + zlen v <= nm_len d ->
  exists pdu, bt_gatt_server_send_notification junk h v true s
      = Some (set_g_nfy_mult (Some (mkNfy pdu (nm_offset d + 4 + zlen v) (nm_len d))) s) /\
    zlen pdu = nm_len d /\
    slice 0 (nm_offset d + 4 + zlen v) pdu = slice 0 (nm_offset d) (nm_pdu d) ++ nfy_tuple (h, v).
Proof.
  intros Hd Hz Ho Hl Hfit. unfold bt_gatt_server_send_notification.
  replace (match g_nfy_mult s with Some d0 => d0 | None => _ end) with d by (rewrite <- Hd; by destruct (g_nfy_mult s)).
  set (off := nm_offset d) in *. pose proof (zlen_nonneg v).
  rewrite (u16_small (off + 2)), (u16_small (Z.min _ _)), (u16_small (off + 2 + 2)) by lia.
  rewrite Z.min_r by lia. rewrite (u16_small (off + 2 + 2 + zlen v)) by lia.
  destruct (memcpy_at_total (nm_pdu d) off (put_le16 h)) as (p1 & E1 & L1); [lia|rewrite zlen_put_le16; lia|].
  destruct (memcpy_at_total p1 (off + 2) (put_le16 (zlen v))) as (p2 & E2 & L2); [lia|rewrite zlen_put_le16; lia|].
  destruct (memcpy_at_total p2 (off + 2 + 2) v) as (p3 & E3 & L3); [lia|lia|].
  rewrite E1. cbn [mbind option_bind]. rewrite E2. cbn [mbind option_bind]. rewrite memread_Some by lia.
  cbn [mbind option_bind]. rewrite slice_all, E3. cbn [mbind option_bind].
  exists p3. replace (off + 4 + zlen v) with (off + 2 + 2 + zlen v) by lia. split_and!; [done|lia|].
  rewrite (memcpy_append _ _ _ _ E3) by lia.
  pose proof (memcpy_append _ _ _ _ E2 ltac:(lia)) as A2. pose proof (memcpy_append _ _ _ _ E1 Ho) as A1.
  rewrite zlen_put_le16 in A1, A2. rewrite A2, A1. unfold nfy_tuple. cbn [fst snd]. by rewrite <- !app_assoc.
Qed.

(** A notification that does not fit leaves the buffer. *)
Lemma notify_overflow h v s d :
  default (mkNfy (buffer junk (u16 (g_att_mtu s - 1))) 0 (u16 (g_att_mtu s - 1))) (g_nfy_mult s) = d ->
  zlen (nm_pdu d) = nm_len d -> 0 <= nm_offset d <= nm_len d -> nm_len d <= 60000 -> nm_len d < nm_offset d + 4 + zlen v ->
  zlen v <= 65535 -> bt_gatt_server_send_notification junk h v true s = None.
Proof.
  intros Hd Hz Ho Hl Hover Hv. unfold bt_gatt_server_send_notification.
  replace (match g_nfy_mult s with Some d0 => d0 | None => _ end) with d by (rewrite <- Hd; by destruct (g_nfy_mult s)).
  set (off := nm_offset d) in *. pose proof (zlen_nonneg v).
  rewrite (u16_small (off + 2)), (u16_small (off + 2 + 2)) by lia.
  destruct (memcpy_at (nm_pdu d) off (put_le16 h)) as [p1|] eqn:E1; [|done]. cbn [mbind option_bind].
  pose proof (memcpy_at_len _ _ _ _ E1) as L1.
  assert (H1 : off + 2 <= nm_len d).
  { unfold memcpy_at in E1. case_bool_decide as Hb; [|done]. rewrite zlen_put_le16 in Hb. lia. }
  rewrite (u16_small (Z.min _ _)) by lia. set (n := Z.min (nm_len d - (off + 2)) (zlen v)).
  destruct (memcpy_at p1 (off + 2) (put_le16 n)) as [p2|] eqn:E2; [|done]. cbn [mbind option_bind].
  pose proof (memcpy_at_len _ _ _ _ E2) as L2. rewrite memread_Some by lia. cbn [mbind option_bind].
  rewrite memcpy_at_None; [done|]. rewrite zlen_slice by lia. lia.
Qed.

(** The batch while it grows. *)
Lemma notify_batch items : forall s d,
  default (mkNfy (buffer junk (u16 (g_att_mtu s - 1))) 0 (u16 (g_att_mtu s - 1))) (g_nfy_mult s) = d ->
  zlen (nm_pdu d) = nm_len d -> 0 <= nm_offset d -> nm_len d <= 65535 ->
  nm_offset d + zlen (concat (nfy_tuple <$> items)) <= nm_len d -> items <> [] ->
  forall authorize run_authorize, exists pdu,
  server_run authorize run_authorize junk ((fun i => SNotify i.1 i.2 true) <$> items) s
    = Some (set_g_nfy_mult (Some (mkNfy pdu (nm_offset d + zlen (concat (nfy_tuple <$> items))) (nm_len d))) s) /\
  zlen pdu = nm_len d /\
  slice 0 (nm_offset d + zlen (concat (nfy_tuple <$> items))) pdu
    = slice 0 (nm_offset d) (nm_pdu d) ++ concat (nfy_tuple <$> items).
Proof.
  induction items as [|[h v] items IH]; intros s d Hd Hz Ho Hl Hfit Hne au ru; [done|].
  cbn [fmap list_fmap concat server_run server_step fst snd] in *.
  change (list_fmap _ _ nfy_tuple items) with (nfy_tuple <$> items) in *.
  change (list_fmap _ _ (fun i => SNotify i.1 i.2 true) items) with ((fun i => SNotify i.1 i.2 true) <$> items).
  assert (Ht : zlen (nfy_tuple (h, v)) = 4 + zlen v).
  { unfold nfy_tuple. cbn [fst snd]. rewrite !zlen_app, !zlen_put_le16. lia. }
  rewrite zlen_app, Ht in *. pose proof (zlen_nonneg (concat (nfy_tuple <$> items))). pose proof (zlen_nonneg v).
  destruct (notify_step h v s d Hd Hz Ho Hl) as (pdu & -> & Hp & Hs); [lia|]. cbn [mbind option_bind].
  destruct (decide (items = [])) as [->|Hi].
  - cbn. exists pdu. change (zlen (@nil Z)) with 0. rewrite app_nil_r.
    replace (nm_offset d + (4 + zlen v + 0)) with (nm_offset d + 4 + zlen v) by lia. by split_and!.
  - destruct (IH (set_g_nfy_mult (Some (mkNfy pdu (nm_offset d + 4 + zlen v) (nm_len d))) s)
        (mkNfy pdu (nm_offset d + 4 + zlen v) (nm_len d))) with (authorize := au) (run_authorize := ru)
      as (pdu' & -> & Hp' & Hs'); try done; cbn [nm_pdu nm_offset nm_len] in *; [lia|lia|].
    exists pdu'.
    replace (nm_offset d + (4 + zlen v + zlen (concat (nfy_tuple <$> items))))
      with (nm_offset d + 4 + zlen v + zlen (concat (nfy_tuple <$> items))) by lia.
    split_and!; [done|done|]. by rewrite Hs', Hs, <- app_assoc.
Qed.
End Notifications.

(** A batch of notifications.  Multiple notifications that together fit the MTU
    are sent by the timer as one PDU, the handle, the length and the value of
    each in turn, and the batch is closed; one that does not fit any more is not
    sent on its own or left for the next batch but written behind the buffer. *)
Theorem notification_batch authorize run_authorize junk items s :
  inv s -> g_nfy_mult s = None -> items <> [] -> g_att_mtu s <= 60001 ->
  let batch := (fun i => SNotify i.1 i.2 true) <$> items in
  let content := concat (nfy_tuple <$> items) in
  zlen content <= g_att_mtu s - 1 ->
  server_run authorize run_authorize junk (batch ++ [SNotifyTimer]) s
    = Some (set_g_out (g_out s ++ [Send BT_ATT_OP_HANDLE_NFY_MULT content]) s) /\
  (forall h v, g_att_mtu s - 1 < zlen content + zlen (nfy_tuple (h, v)) -> zlen v <= 65535 ->
     server_run authorize run_authorize junk (batch ++ [SNotify h v true]) s = None).
Proof.
  intros Hi Hn Hne Hmax batch content Hfit. destruct (i_mtu s Hi) as [Hm _].
  set (d := mkNfy (buffer junk (g_att_mtu s - 1)) 0 (g_att_mtu s - 1)).
  assert (Hz : zlen (nm_pdu d) = nm_len d) by (cbn -[buffer]; apply zlen_buffer; lia).
  destruct (notify_batch junk items s d) with (authorize := authorize) (run_authorize := run_authorize)
    as (pdu & E & Hp & Hs); [rewrite Hn, u16_small by lia; done|done|done|cbn; lia|done|done|].
  fold content in E, Hs. fold batch in E. cbn [nm_offset nm_len nm_pdu d] in *. rewrite Z.add_0_l in *.
  rewrite slice_0 in Hs. cbn [app] in Hs. pose proof (zlen_nonneg content). split.
  - rewrite server_run_app, E. cbn [mbind option_bind server_run server_step]. unfold notify_multiple.
    cbn [g_nfy_mult set_g_nfy_mult g_alive]. rewrite (i_alive s Hi). cbn [negb nm_pdu nm_offset].
    change (nm_len d) with (g_att_mtu s - 1) in *. rewrite memread_Some by lia. cbn [mbind option_bind]. rewrite Hs.
    destruct s. cbn in *. by subst.
  - intros h v Hover Hv. rewrite server_run_app, E. cbn [mbind option_bind server_run server_step].
    unfold nfy_tuple in Hover. cbn [fst snd] in Hover. rewrite !zlen_app, !zlen_put_le16 in Hover.
    rewrite (notify_overflow junk h v _ (mkNfy pdu (zlen content) (g_att_mtu s - 1))); try done; cbn; lia.
Qed.

(** What is left behind by a released server.  When the last reference is given
    up while an operation waits, a pending read or write of a single attribute
    (Read, Read Blob, Read By Type, Write) later ends without an answer and
    without touching the server; the executed write, and a batch of
    notifications, still follow their pointer to it. *)
Theorem release_leaves_pointers authorize run_authorize junk s :
  inv s -> g_ref_count s = 1 ->
  (forall t k, g_waiting s !! t = Some k -> exists a,
     (is_read k \/ is_write k -> exists s',
        server_run authorize run_authorize junk [SUnref; STimer a t] s = Some s' /\ g_out s' = g_out s) /\
     (forall chan, k = KExec chan -> server_run authorize run_authorize junk [SUnref; STimer a t] s = None)) /\
  (g_nfy_mult s <> None -> server_run authorize run_authorize junk [SUnref; SNotifyTimer] s = None).
Proof.
  intros Hi Hr. assert (Hfree : server_step authorize run_authorize junk SUnref s
    = Some (bt_gatt_server_free (set_g_ref_count 0 s))).
  { cbn [server_step]. unfold bt_gatt_server_unref. cbn [g_ref_count set_g_ref_count]. by rewrite Hr. }
  cbn [server_run]. rewrite Hfree. cbn [mbind option_bind]. set (s1 := bt_gatt_server_free _). split.
  - intros t k Ek. destruct (i_wait s Hi t k Ek) as (_ & _ & (a & A & HA & Hkey) & _). exists a. cbn [server_step].
    destruct (finishes_spec junk _ _ _ a A s1 (timer_finishes t) (i_db s Hi) HA)
      as [[_ Hid]|(p & err & v & e & db' & -> & He & Hn & Hpt & Herr)]; [done|].
    cbn [mbind option_bind]. rewrite (answer_shape authorize junk (p_timeout p) err v e) by done. rewrite Hpt.
    assert (Ek1 : g_waiting (answered_state t db' s1) !! t = Some (clear_server k)).
    { cbn. by rewrite lookup_fmap, Ek. }
    rewrite Ek1. split.
    + intros [Hk|Hk]; destruct k; try done; cbn [clear_server resume]; cbn [mbind option_bind]; eexists; split; done.
    + intros chan ->. cbn [clear_server resume]. unfold exec_write_complete_cb, exec_next_prep_write.
      change (g_alive (set_g_waiting _ (answered_state t db' s1))) with false. cbn [negb].
      destruct (gatt_db_attribute_get_handle _ _); done.
  - intros Hne. cbn [server_step]. unfold notify_multiple. change (g_nfy_mult s1) with (g_nfy_mult s).
    destruct (g_nfy_mult s); [|done]. done.
Qed.

(** ** Witnesses *)

Definition demo_attr (i : nat) : gatt_db_attribute :=
  default (new_attribute 0 BT_UUID_UNSPEC []) (get_attr (1%positive, i) demo_db).

Lemma demo_inv : inv demo_server.
Proof. apply (new_inv demo_db 23 23 0 demo_db_ok); lia. Qed.

Lemma demo_serves write : serves_attr write (1%positive, 2%nat) (demo_attr 2) demo_server.
Proof.
  split; [vm_compute; reflexivity|vm_compute; discriminate|destruct write; vm_compute; reflexivity|].
  apply access_granted_iff. destruct write; vm_compute; reflexivity.
Qed.

Lemma long_write_is_one_write_witness :
  exists s' A' st, server_run no_db_authorize grant_all zeroed
      (prep_requests 1 3 1 [[7; 8]; [9]] ++ [SRequest 1 BT_ATT_OP_EXEC_WRITE_REQ [1]]) demo_server = Some s' /\
    get_attr (1%positive, 2%nat) (g_db s') = Some A' /\
    gatt_db_attribute_write no_db_authorize zeroed 1 [7; 8; 9] 0 0 (mkState (demo_attr 2) ∅ 1 []) = Some st /\
    GattAttr.attr st = A' /\ stored A' = [0; 7; 8; 9].
Proof.
  destruct (long_write_is_one_write no_db_authorize grant_all zeroed (1%positive, 2%nat) (demo_attr 2) 1 1 [7; 8] [[9]] 0 0
    demo_server demo_inv (demo_serves true)) as (s' & A' & st & E & _ & _ & HA & Ew & <- & _);
    [reflexivity|reflexivity|lia|vm_compute; discriminate|repeat constructor; vm_compute; discriminate|].
  exists s', (GattAttr.attr st), st. split; [exact E|]. split; [exact HA|]. split; [exact Ew|]. split; [reflexivity|].
  vm_compute in Ew. injection Ew as <-. reflexivity.
Defined.

Lemma prepared_write_overflows_witness :
  server_run no_db_authorize grant_all zeroed (prep_requests 1 3 0 (replicate 3641 (replicate 18 0))) demo_server = None.
Proof.
  apply (prepared_write_overflows no_db_authorize grant_all zeroed (1%positive, 2%nat) (demo_attr 2) 1 demo_server
    demo_inv (demo_serves true)); reflexivity.
Defined.

(** The value of the first characteristic after a write of 30 bytes. *)
Definition demo_written : server :=
  default demo_server (server_run no_db_authorize grant_all zeroed
    (prep_requests 1 3 0 [replicate 15 1; replicate 15 2] ++ [SRequest 1 BT_ATT_OP_EXEC_WRITE_REQ [1]]) demo_server).
Definition demo_written_attr : gatt_db_attribute :=
  default (demo_attr 2) (get_attr (1%positive, 2%nat) (g_db demo_written)).

Lemma demo_written_inv : inv demo_written.
Proof.
  destruct (run_serves no_db_authorize grant_all zeroed
    (prep_requests 1 3 0 [replicate 15 1; replicate 15 2] ++ [SRequest 1 BT_ATT_OP_EXEC_WRITE_REQ [1]]) demo_server)
    as (s & E & Hi & _); [exact demo_inv|by split|apply guardedb_ok; vm_compute; reflexivity|].
  unfold demo_written. by rewrite E.
Qed.

Lemma long_read_is_whole_witness :
  exists first rest, server_run no_db_authorize grant_all zeroed (read_requests 1 3 22 1) demo_written
    = Some (set_g_out (g_out demo_written ++ Rsp 1 BT_ATT_OP_READ_RSP first :: (Rsp 1 BT_ATT_OP_READ_BLOB_RSP <$> rest)) demo_written) /\
    concat (first :: rest) = replicate 15 1 ++ replicate 15 2 /\ length rest = 1%nat.
Proof.
  assert (Hs : serves_attr false (1%positive, 2%nat) demo_written_attr demo_written).
  { split; [vm_compute; reflexivity|vm_compute; discriminate|vm_compute; reflexivity|].
    apply access_granted_iff. vm_compute. reflexivity. }
  destruct (long_read_is_whole no_db_authorize grant_all zeroed (1%positive, 2%nat) demo_written_attr 1 demo_written
    demo_written_inv Hs eq_refl eq_refl) as (first & rest & _ & _ & E & Hc & Hl & _).
  exists first, rest. split; [exact E|]. split; [exact Hc|exact Hl].
Defined.

Lemma notification_batch_witness :
  server_run no_db_authorize grant_all zeroed [SNotify 3 [1; 2] true; SNotify 5 [9] true; SNotifyTimer] demo_server
    = Some (set_g_out [Send BT_ATT_OP_HANDLE_NFY_MULT [3; 0; 2; 0; 1; 2; 5; 0; 1; 0; 9]] demo_server) /\
  server_run no_db_authorize grant_all zeroed
    [SNotify 3 [1; 2] true; SNotify 5 [9] true; SNotify 5 (replicate 8 0) true] demo_server = None.
Proof.
  destruct (notification_batch no_db_authorize grant_all zeroed [(3, [1; 2]); (5, [9])] demo_server demo_inv)
    as [H1 H2]; [reflexivity|discriminate|vm_compute; discriminate|vm_compute; discriminate|].
  split; [exact H1|]. apply (H2 5 (replicate 8 0)); [reflexivity|vm_compute; discriminate].
Defined.

(** A prepared write to the client's attribute that is being executed. *)
Definition demo_executing_ops : list server_op := [
  SRequest 1 BT_ATT_OP_PREP_WRITE_REQ [5; 0; 0; 0; 7; 8];
  SWriteResult (1%positive, 4%nat) 1 0;
  SNotify 3 [1; 2] true;
  SRequest 1 BT_ATT_OP_EXEC_WRITE_REQ [1] ].
Definition demo_executing : server :=
  default demo_server (server_run no_db_authorize grant_all zeroed demo_executing_ops demo_server).

Lemma demo_executing_inv : inv demo_executing.
Proof.
  destruct (run_serves no_db_authorize grant_all zeroed demo_executing_ops demo_server)
    as (s & E & Hi & _); [exact demo_inv|by split|apply guardedb_ok; vm_compute; reflexivity|].
  unfold demo_executing. by rewrite E.
Qed.

Lemma release_leaves_pointers_witness :
  (exists t a, g_waiting demo_executing !! t = Some (KExec 1) /\
     server_run no_db_authorize grant_all zeroed [SUnref; STimer a t] demo_executing = None) /\
  server_run no_db_authorize grant_all zeroed [SUnref; SNotifyTimer] demo_executing = None.
Proof.
  destruct (release_leaves_pointers no_db_authorize grant_all zeroed demo_executing demo_executing_inv) as [H1 H2];
    [reflexivity|].
  split; [|apply H2; vm_compute; discriminate].
  destruct (H1 2 (KExec 1)) as (a & _ & H); [vm_compute; reflexivity|].
  exists 2, a. split; [vm_compute; reflexivity|]. apply (H 1). reflexivity.
Defined.
