(* ===== verification/GattHelpers.v ===== *)
(** The GATT client procedures ([shared/gatt-helpers.c]): the exchange of the MTU,
    the discovery of services, characteristics, descriptors and included services,
    reading by type, and the iterators over what was found.

    One request ([struct bt_gatt_request]) is followed through its life: [c_req]
    is [None] once it is freed.  [c_ops] holds the operations that it has in the
    transport; what happens to it is a sequence of answers to these and of calls
    of its user, who may also call from inside the callback. *)
From S2P Require Import Prelude Uuid Att GattDb GattAttr GattServer.

(** ** Results and iterators *)

(** [struct bt_gatt_result]; the list of results is a list, [op] is the request
    that the functions below get as an argument. *)
Record bt_gatt_result := mkResult { rs_opcode : Z; rs_pdu : list Z; rs_data_len : Z }.

Record bt_gatt_iter := mkIter { it_result : list bt_gatt_result; it_pos : Z }.

Definition le16_at (pdu : list Z) (off : Z) : option Z := get_le <$> memread pdu off 2.

(** [None] is a division by zero. *)
Fixpoint result_element_count (rs : list bt_gatt_result) : option Z :=
  match rs with
  | [] => Some 0
  | r :: rs' =>
      if rs_data_len r =? 0 then None else
      n ← result_element_count rs';
      Some (u32 (zlen (rs_pdu r) / rs_data_len r + n))
  end.

Definition bt_gatt_result_service_count (rs : list bt_gatt_result) : option Z :=
  match rs with
  | [] => Some 0
  | r :: _ =>
      if negb (rs_opcode r =? BT_ATT_OP_READ_BY_GRP_TYPE_RSP) && negb (rs_opcode r =? BT_ATT_OP_FIND_BY_TYPE_RSP)
      then Some 0 else result_element_count rs
  end.

Definition bt_gatt_result_characteristic_count (rs : list bt_gatt_result) : option Z :=
  match rs with
  | [] => Some 0
  | r :: _ =>
      if negb (rs_opcode r =? BT_ATT_OP_READ_BY_TYPE_RSP) then Some 0 else
      if negb (rs_data_len r =? 21) && negb (rs_data_len r =? 7) then Some 0 else
      result_element_count rs
  end.

Definition bt_gatt_result_descriptor_count (rs : list bt_gatt_result) : option Z :=
  match rs with
  | [] => Some 0
  | r :: _ => if negb (rs_opcode r =? BT_ATT_OP_FIND_INFO_RSP) then Some 0 else result_element_count rs
  end.

Definition bt_gatt_result_included_count (rs : list bt_gatt_result) : option Z :=
  match rs with
  | [] => Some 0
  | r :: _ =>
      if negb (rs_opcode r =? BT_ATT_OP_READ_BY_TYPE_RSP) then Some 0 else
      if negb (rs_data_len r =? 6) && negb (rs_data_len r =? 8) then Some 0 else
      result_element_count (filter (fun r => rs_opcode r = BT_ATT_OP_READ_BY_TYPE_RSP) rs)
  end.

Definition bt_gatt_iter_init (rs : list bt_gatt_result) : option bt_gatt_iter :=
  match rs with [] => None | _ => Some (mkIter rs 0) end.

(** The conversion of [len] bytes at [off]; [dst] stays as it is when [len] is
    neither 2 nor 16. *)
Definition convert_uuid_le (src : list Z) (off len : Z) (dst : list Z) : option (list Z) :=
  if len =? 16 then d ← memread src off 16; Some (rev d)
  else if negb (len =? 2) then Some dst
  else d ← memread src off 2; Some (patch BASE_UUID16_OFFSET (rev d) bluetooth_base_uuid).

(** [iter->pos] after an element of the result in front. *)
Definition iter_advance (r : bt_gatt_result) (rs : list bt_gatt_result) (pos : Z) : bt_gatt_iter :=
  let pos := u16 (pos + rs_data_len r) in
  if pos =? zlen (rs_pdu r) then mkIter rs 0 else mkIter (r :: rs) pos.

(** An iterator returns the element, or [None] for [false], and the new position;
    [uuid] is what the caller's array held before. *)
Definition bt_gatt_iter_next_service (op_uuid : bt_uuid) (uuid : list Z) (it : bt_gatt_iter)
  : option (option (Z * Z * list Z) * bt_gatt_iter) :=
  match it_result it with
  | [] => Some (None, it)
  | r :: rs =>
      if rs_opcode r =? BT_ATT_OP_READ_BY_GRP_TYPE_RSP then
        start_handle ← le16_at (rs_pdu r) (it_pos it);
        end_handle ← le16_at (rs_pdu r) (it_pos it + 2);
        uuid ← convert_uuid_le (rs_pdu r) (it_pos it + 4) (rs_data_len r - 4) uuid;
        Some (Some (start_handle, end_handle, uuid), iter_advance r rs (it_pos it))
      else if rs_opcode r =? BT_ATT_OP_FIND_BY_TYPE_RSP then
        start_handle ← le16_at (rs_pdu r) (it_pos it);
        end_handle ← le16_at (rs_pdu r) (it_pos it + 2);
        match bt_uuid_to_uuid128 op_uuid BT_UUID_UNSPEC with
        | BT_UUID128 d => Some (Some (start_handle, end_handle, d), iter_advance r rs (it_pos it))
        | _ => None
        end
      else Some (None, it)
  end.

Definition bt_gatt_iter_next_characteristic (op_uuid : bt_uuid) (op_end_handle : Z) (uuid : list Z)
    (it : bt_gatt_iter) : option (option (Z * Z * Z * Z * list Z) * bt_gatt_iter) :=
  match it_result it with
  | [] => Some (None, it)
  | r :: rs =>
      if negb (rs_opcode r =? BT_ATT_OP_READ_BY_TYPE_RSP) then Some (None, it) else
      if negb (uuid_type op_uuid =? 0) then Some (None, it) else
      if negb (rs_data_len r =? 21) && negb (rs_data_len r =? 7) then Some (None, it) else
      start_handle ← le16_at (rs_pdu r) (it_pos it);
      properties ← (d ← memread (rs_pdu r) (it_pos it + 2) 1; head d);
      value_handle ← le16_at (rs_pdu r) (it_pos it + 3);
      uuid ← convert_uuid_le (rs_pdu r) (it_pos it + 5) (rs_data_len r - 5) uuid;
      let it := iter_advance r rs (it_pos it) in
      match it_result it with
      | [] => Some (Some (start_handle, op_end_handle, value_handle, properties, uuid), it)
      | r :: _ =>
          next ← le16_at (rs_pdu r) (it_pos it);
          Some (Some (start_handle, u16 (next - 1), value_handle, properties, uuid), it)
      end
  end.

Definition bt_gatt_iter_next_descriptor (uuid : list Z) (it : bt_gatt_iter)
  : option (option (Z * list Z) * bt_gatt_iter) :=
  match it_result it with
  | [] => Some (None, it)
  | r :: rs =>
      if negb (rs_opcode r =? BT_ATT_OP_FIND_INFO_RSP) then Some (None, it) else
      handle ← le16_at (rs_pdu r) (it_pos it);
      uuid ← convert_uuid_le (rs_pdu r) (it_pos it + 2) (rs_data_len r - 2) uuid;
      Some (Some (handle, uuid), iter_advance r rs (it_pos it))
  end.

(** [bt_gatt_iter_next_included_service]: the UUID of an entry without one is in
    the answer to the read that follows at the same place. *)
Definition bt_gatt_iter_next_included_service (op_uuid : bt_uuid) (uuid : list Z) (it : bt_gatt_iter)
  : option (option (Z * Z * Z * list Z) * bt_gatt_iter) :=
  match it_result it with
  | [] => Some (None, it)
  | r :: rs =>
      if negb (rs_opcode r =? BT_ATT_OP_READ_BY_TYPE_RSP) then Some (None, it) else
      if negb (uuid_type op_uuid =? 0) then Some (None, it) else
      if negb (rs_data_len r =? 8) && negb (rs_data_len r =? 6) then Some (None, it) else
      handle ← le16_at (rs_pdu r) (it_pos it);
      start_handle ← le16_at (rs_pdu r) (it_pos it + 2);
      end_handle ← le16_at (rs_pdu r) (it_pos it + 4);
      if rs_data_len r =? 8 then
        uuid ← convert_uuid_le (rs_pdu r) (it_pos it + 6) 2 uuid;
        Some (Some (handle, start_handle, end_handle, uuid), iter_advance r rs (it_pos it))
      else
        match drop (Z.to_nat (it_pos it / rs_data_len r)) rs with
        | [] => Some (None, it)
        | read_result :: after =>
            uuid ← convert_uuid_le (rs_pdu read_result) 0 (rs_data_len read_result) uuid;
            let pos := u16 (it_pos it + rs_data_len r) in
            Some (Some (handle, start_handle, end_handle, uuid),
                  if pos =? zlen (rs_pdu r) then mkIter after 0 else mkIter (r :: rs) pos)
        end
  end.

(** The value is returned as a pointer into the result: the bytes behind it. *)
Definition bt_gatt_iter_next_read_by_type (op_uuid : bt_uuid) (it : bt_gatt_iter)
  : option (option (Z * list Z) * bt_gatt_iter) :=
  match it_result it with
  | [] => Some (None, it)
  | r :: rs =>
      if negb (rs_opcode r =? BT_ATT_OP_READ_BY_TYPE_RSP) then Some (None, it) else
      if uuid_type op_uuid =? 0 then Some (None, it) else
      handle ← le16_at (rs_pdu r) (it_pos it);
      value ← memread (rs_pdu r) (it_pos it + 2) (u16 (rs_data_len r - 2));
      Some (Some (handle, value), iter_advance r rs (it_pos it))
  end.

(** ** Exchange of the MTU *)

Definition process_error (pdu : option (list Z)) : Z :=
  match pdu with Some [_; _; _; ecode] => ecode | _ => 0 end.

(** The result is what the callback gets. *)
Definition mtu_cb (opcode : Z) (pdu : option (list Z)) (client_rx_mtu : Z) (att : bt_att)
  : option (bool * Z * bt_att) :=
  if opcode =? BT_ATT_OP_ERROR_RSP then Some (false, process_error pdu, att) else
  match pdu with
  | Some pdu =>
      if negb (opcode =? BT_ATT_OP_MTU_RSP) || negb (zlen pdu =? 2) then Some (false, 0, att) else
      '(_, att) ← bt_att_set_mtu (Z.min client_rx_mtu (get_le pdu)) att;
      Some (true, 0, att)
  | None => Some (false, 0, att)
  end.

(** The arguments [junk], [sign_att] and [counter] are those of the transport. *)
Definition bt_gatt_exchange_mtu (junk : Z) (sign_att : list Z -> list Z -> Z -> option (list Z))
    (counter : Z -> Z -> Z -> option Z) (client_rx_mtu : Z) (callback destroy : option Z) (op : Z)
    (att : bt_att) : option (Z * bt_att) :=
  if client_rx_mtu =? 0 then Some (0, att) else
  Att.bt_att_send junk sign_att counter BT_ATT_OP_MTU_REQ (Some (put_le16 client_rx_mtu)) 2
    callback op destroy att.

(** ** Requests *)

Record bt_gatt_request := mkReq {
  rq_id : Z;
  rq_start_handle : Z;
  rq_end_handle : Z;
  rq_ref_count : Z;
  rq_uuid : bt_uuid;
  rq_service_type : Z;
  rq_results : list bt_gatt_result;
  rq_callback : bool
}.

Definition set_rq_id (x : Z) (q : bt_gatt_request) : bt_gatt_request :=
  mkReq x (rq_start_handle q) (rq_end_handle q) (rq_ref_count q) (rq_uuid q) (rq_service_type q)
    (rq_results q) (rq_callback q).
Definition set_rq_start_handle (x : Z) (q : bt_gatt_request) : bt_gatt_request :=
  mkReq (rq_id q) x (rq_end_handle q) (rq_ref_count q) (rq_uuid q) (rq_service_type q)
    (rq_results q) (rq_callback q).
Definition set_rq_ref_count (x : Z) (q : bt_gatt_request) : bt_gatt_request :=
  mkReq (rq_id q) (rq_start_handle q) (rq_end_handle q) x (rq_uuid q) (rq_service_type q)
    (rq_results q) (rq_callback q).
Definition set_rq_results (x : list bt_gatt_result) (q : bt_gatt_request) : bt_gatt_request :=
  mkReq (rq_id q) (rq_start_handle q) (rq_end_handle q) (rq_ref_count q) (rq_uuid q) (rq_service_type q)
    x (rq_callback q).

(** [data->result] is the place of the result in the list. *)
Record read_incl_data := mkIncl { ri_result : nat; ri_pos : Z; ri_ref_count : Z }.

(** The callbacks of the operations in the transport; [CReadIncluded] has a
    [read_incl_data] as its user data, the others the request. *)
Inductive att_callback :=
| CReadByGrpType | CFindByTypeVal | CDiscoverIncluded | CReadIncluded (data : Z)
| CDiscoverChrcs | CReadByType | CDiscoverDescs.

Record att_operation := mkAttOp { ao_id : Z; ao_callback : att_callback }.

Inductive client_event :=
| ESend (opcode : Z) (pdu : list Z)
| ECallback (success : bool) (ecode : Z) (result : option (list bt_gatt_result))
| EFree.

(** What the user of a request can do with it.  [found] is whether the transport finds the operation that it is
    asked to cancel: it does not while it handles a disconnection and has emptied its queues to answer what was in
    them (att.c, [bt_att_disc_cancel]). *)
Inductive user_call := URef | UUnref | UCancel (found : bool).

Record client := mkClient {
  c_req : option bt_gatt_request;
  c_ops : list att_operation;
  c_next_id : Z;
  c_incl : gmap Z read_incl_data;
  c_next_incl : Z;
  c_events : list client_event
}.

Definition set_c_req (x : option bt_gatt_request) (s : client) : client :=
  mkClient x (c_ops s) (c_next_id s) (c_incl s) (c_next_incl s) (c_events s).
Definition set_c_ops (x : list att_operation) (s : client) : client :=
  mkClient (c_req s) x (c_next_id s) (c_incl s) (c_next_incl s) (c_events s).
Definition set_c_next_id (x : Z) (s : client) : client :=
  mkClient (c_req s) (c_ops s) x (c_incl s) (c_next_incl s) (c_events s).
Definition set_c_incl (x : gmap Z read_incl_data) (s : client) : client :=
  mkClient (c_req s) (c_ops s) (c_next_id s) x (c_next_incl s) (c_events s).
Definition set_c_next_incl (x : Z) (s : client) : client :=
  mkClient (c_req s) (c_ops s) (c_next_id s) (c_incl s) x (c_events s).
Definition add_event (e : client_event) (s : client) : client :=
  mkClient (c_req s) (c_ops s) (c_next_id s) (c_incl s) (c_next_incl s) (c_events s ++ [e]).

(** A write to the request; it must not be freed. *)
Definition on_req (f : bt_gatt_request -> bt_gatt_request) (s : client) : option client :=
  q ← c_req s; Some (set_c_req (Some (f q)) s).

Definition bt_gatt_request_ref (s : client) : option client :=
  on_req (fun q => set_rq_ref_count (rq_ref_count q + 1) q) s.

(** [op->uuid] as it is put behind the handles of a request. *)
Definition get_uuid_len (uuid : bt_uuid) : Z := match uuid with BT_UUID16 _ => 2 | _ => 16 end.

Section Requests.
(** Whether the transport takes the operation it would give a number; what the
    callback of the request does with it, on the arguments it gets. *)
Context (accepts : Z -> bool)
        (on_result : bool -> Z -> option (list bt_gatt_result) -> list user_call).

(** What a request sees of the transport ([Att] has it in full): the operations that
    it has accepted and not destroyed.  The number of the operation, or 0. *)
Definition bt_att_send (opcode : Z) (pdu : list Z) (cb : att_callback) (s : client) : Z * client :=
  let id := c_next_id s in
  let s := set_c_next_id (id + 1) s in
  if accepts id
  then (id, set_c_ops (c_ops s ++ [mkAttOp id cb]) (add_event (ESend opcode pdu) s))
  else (0, s).

(** *** References *)

Section Unref.
Context (unref : client -> option client).             (* bt_gatt_request_unref *)

Definition read_included_unref (d : Z) (s : client) : option client :=
  data ← c_incl s !! d;
  let n := ri_ref_count data - 1 in
  let s := set_c_incl (<[d := mkIncl (ri_result data) (ri_pos data) n]> (c_incl s)) s in
  if negb (n =? 0) then Some s else
  s ← unref s;
  Some (set_c_incl (delete d (c_incl s)) s).

(** The destroy function of an operation. *)
Definition destroy_op (cb : att_callback) (s : client) : option client :=
  match cb with CReadIncluded d => read_included_unref d s | _ => unref s end.

Definition remove_op (id : Z) (s : client) : client :=
  set_c_ops (filter (fun o => ao_id o <> id) (c_ops s)) s.

(** The transport drops an operation without calling its callback, when it finds it. *)
Definition bt_att_cancel (found : bool) (id : Z) (s : client) : option client :=
  if negb found then Some s else
  match list_find (fun o => ao_id o = id) (c_ops s) with
  | None => Some s
  | Some (_, o) => destroy_op (ao_callback o) (remove_op id s)
  end.

(** The result of [bt_att_cancel] is not looked at. *)
Definition bt_gatt_request_cancel (found : bool) (s : client) : option client :=
  q ← c_req s;
  if rq_id q =? 0 then Some s else
  s ← bt_att_cancel found (rq_id q) s;
  on_req (set_rq_id 0) s.
End Unref.

(** The fuel counts the operations that are cancelled inside one another.  Without references there is no
    operation of the request in the transport, so that it does not matter whether one is found. *)
Fixpoint request_unref (fuel : nat) (s : client) : option client :=
  match fuel with
  | O => None
  | Datatypes.S fuel' =>
      s ← on_req (fun q => set_rq_ref_count (rq_ref_count q - 1) q) s;
      q ← c_req s;
      if negb (rq_ref_count q =? 0) then Some s else
      s ← bt_gatt_request_cancel (request_unref fuel') true s;
      Some (set_c_req None (add_event EFree s))
  end.

Definition bt_gatt_request_unref (s : client) : option client :=
  request_unref (Datatypes.S (length (c_ops s))) s.

Definition user_call_step (u : user_call) (s : client) : option client :=
  match u with
  | URef => bt_gatt_request_ref s
  | UUnref => bt_gatt_request_unref s
  | UCancel found => bt_gatt_request_cancel bt_gatt_request_unref found s
  end.

Fixpoint user_calls (us : list user_call) (s : client) : option client :=
  match us with
  | [] => Some s
  | u :: us' => s ← user_call_step u s; user_calls us' s
  end.

(** *** Answers *)

Definition discovery_op_complete (success : bool) (ecode : Z) (s : client) : option client :=
  q ← c_req s;
  let success := if (ecode =? BT_ATT_ERROR_ATTRIBUTE_NOT_FOUND) && negb (isNil (rq_results q))
                 then true else success in
  let result := if success then Some (rq_results q) else None in
  s ← (if rq_callback q
       then user_calls (on_result success ecode result) (add_event (ECallback success ecode result) s)
       else Some s);
  q ← c_req s;
  if rq_id q =? 0 then bt_gatt_request_unref s else on_req (set_rq_id 0) s.

Definition result_append (opcode : Z) (pdu : list Z) (data_len : Z) (s : client) : option client :=
  on_req (fun q => set_rq_results (rq_results q ++ [mkResult opcode pdu (u16 data_len)]) q) s.

(** The next request of a procedure; when it cannot be sent the procedure ends. *)
Definition send_next (opcode : Z) (pdu : list Z) (cb : att_callback) (s : client) : option client :=
  s ← bt_gatt_request_ref s;
  let '(id, s) := bt_att_send opcode pdu cb s in
  s ← on_req (set_rq_id id) s;
  if negb (id =? 0) then Some s else discovery_op_complete false 0 s.

Definition handle_range (q : bt_gatt_request) : list Z :=
  put_le16 (rq_start_handle q) ++ put_le16 (rq_end_handle q).

(** The end handle of the last service found becomes the one of the request. *)
Definition patch_last_end (off : Z) (s : client) : option client :=
  q ← c_req s;
  r ← last (rq_results q);
  pdu ← memcpy_at (rs_pdu r) off (put_le16 (rq_end_handle q));
  on_req (set_rq_results (take (length (rq_results q) - 1) (rq_results q) ++
                          [mkResult (rs_opcode r) pdu (rs_data_len r)])) s.

Definition read_by_grp_type_cb (opcode : Z) (pdu : option (list Z)) (s : client) : option client :=
  if opcode =? BT_ATT_OP_ERROR_RSP then discovery_op_complete false (process_error pdu) s else
  match pdu with
  | None => discovery_op_complete false 0 s
  | Some pdu =>
      let length := zlen pdu in
      if negb (opcode =? BT_ATT_OP_READ_BY_GRP_TYPE_RSP) || (length <? 7)
      then discovery_op_complete false 0 s else
      data_length ← head pdu;
      let list_length := length - 1 in
      if (negb (data_length =? 6) && negb (data_length =? 20)) || negb (list_length mod data_length =? 0)
      then discovery_op_complete false 0 s else
      s ← result_append opcode (drop 1 pdu) data_length s;
      last_end ← le16_at pdu (length - data_length + 2);
      q ← c_req s;
      if last_end <? rq_start_handle q then discovery_op_complete false 0 s else
      s ← on_req (set_rq_start_handle (u16 (last_end + 1))) s;
      q ← c_req s;
      if last_end <? rq_end_handle q then
        send_next BT_ATT_OP_READ_BY_GRP_TYPE_REQ (handle_range q ++ put_le16 (rq_service_type q))
          CReadByGrpType s
      else
        s ← (if (last_end =? 0xffff) && negb (last_end =? rq_end_handle q)
             then patch_last_end (length - data_length + 1) s else Some s);
        discovery_op_complete true 0 s
  end.

Definition find_by_type_val_cb (opcode : Z) (pdu : option (list Z)) (s : client) : option client :=
  if opcode =? BT_ATT_OP_ERROR_RSP then discovery_op_complete false (process_error pdu) s else
  match pdu with
  | None => discovery_op_complete false 0 s
  | Some pdu =>
      let length := zlen pdu in
      if negb (opcode =? BT_ATT_OP_FIND_BY_TYPE_RSP) || (length =? 0) || negb (length mod 4 =? 0)
      then discovery_op_complete false 0 s else
      s ← result_append opcode pdu 4 s;
      last_end ← le16_at pdu (length - 2);
      q ← c_req s;
      if last_end <? rq_start_handle q then discovery_op_complete false 0 s else
      s ← on_req (set_rq_start_handle (u16 (last_end + 1))) s;
      q ← c_req s;
      if last_end <? rq_end_handle q then
        send_next BT_ATT_OP_FIND_BY_TYPE_REQ
          (handle_range q ++ put_le16 (rq_service_type q) ++ (bt_uuid_to_le (rq_uuid q)).2) CFindByTypeVal s
      else discovery_op_complete true 0 s
  end.

(** What the four procedures that go by the handle of the last element do with
    it; [next] is the request for the rest. *)
Definition after_last_handle (opcode : Z) (next : bt_gatt_request -> list Z) (cb : att_callback)
    (last_handle : Z) (s : client) : option client :=
  q ← c_req s;
  if last_handle <? rq_start_handle q then discovery_op_complete false 0 s else
  s ← on_req (set_rq_start_handle (u16 (last_handle + 1))) s;
  q ← c_req s;
  if negb (last_handle =? rq_end_handle q) then send_next opcode (next q) cb s
  else discovery_op_complete true 0 s.

Definition discover_chrcs_cb (opcode : Z) (pdu : option (list Z)) (s : client) : option client :=
  if opcode =? BT_ATT_OP_ERROR_RSP then discovery_op_complete false (process_error pdu) s else
  match pdu with
  | None => discovery_op_complete false 0 s
  | Some pdu =>
      let length := zlen pdu in
      if negb (opcode =? BT_ATT_OP_READ_BY_TYPE_RSP) || (length <? 8)
      then discovery_op_complete false 0 s else
      data_length ← head pdu;
      if (negb (data_length =? 7) && negb (data_length =? 21)) || negb ((length - 1) mod data_length =? 0)
      then discovery_op_complete false 0 s else
      s ← result_append opcode (drop 1 pdu) data_length s;
      last_handle ← le16_at pdu (length - data_length);
      after_last_handle BT_ATT_OP_READ_BY_TYPE_REQ (fun q => handle_range q ++ put_le16 GATT_CHARAC_UUID)
        CDiscoverChrcs last_handle s
  end.

(** A [data_length] of 0 divides by zero; when the PDU holds no element the last
    handle is read in front of it. *)
Definition read_by_type_cb (opcode : Z) (pdu : option (list Z)) (s : client) : option client :=
  if opcode =? BT_ATT_OP_ERROR_RSP then discovery_op_complete false (process_error pdu) s else
  match pdu with
  | None => discovery_op_complete false 0 s
  | Some pdu =>
      let length := zlen pdu in
      if negb (opcode =? BT_ATT_OP_READ_BY_TYPE_RSP) then discovery_op_complete false 0 s else
      data_length ← head pdu;
      if data_length =? 0 then None else
      if negb ((length - 1) mod data_length =? 0) then discovery_op_complete false 0 s else
      s ← result_append opcode (drop 1 pdu) data_length s;
      last_handle ← le16_at pdu (length - data_length);
      after_last_handle BT_ATT_OP_READ_BY_TYPE_REQ (fun q => handle_range q ++ (bt_uuid_to_le (rq_uuid q)).2)
        CReadByType last_handle s
  end.

Definition discover_descs_cb (opcode : Z) (pdu : option (list Z)) (s : client) : option client :=
  if opcode =? BT_ATT_OP_ERROR_RSP then discovery_op_complete false (process_error pdu) s else
  match pdu with
  | None => discovery_op_complete false 0 s
  | Some pdu =>
      let length := zlen pdu in
      if negb (opcode =? BT_ATT_OP_FIND_INFO_RSP) || (length <? 5) then discovery_op_complete false 0 s else
      format ← head pdu;
      if negb (format =? 1) && negb (format =? 2) then discovery_op_complete false 0 s else
      let data_length := if format =? 1 then 4 else 18 in
      if negb ((length - 1) mod data_length =? 0) then discovery_op_complete false 0 s else
      s ← result_append opcode (drop 1 pdu) data_length s;
      last_handle ← le16_at pdu (length - data_length);
      after_last_handle BT_ATT_OP_FIND_INFO_REQ handle_range CDiscoverDescs last_handle s
  end.

(** *** Included services *)

Definition new_read_included (result : nat) (s : client) : option (Z * client) :=
  s ← bt_gatt_request_ref s;
  let d := c_next_incl s in
  Some (d, set_c_incl (<[d := mkIncl result 0 0]> (c_incl s)) (set_c_next_incl (d + 1) s)).

Definition on_incl (f : read_incl_data -> read_incl_data) (d : Z) (s : client) : option client :=
  data ← c_incl s !! d; Some (set_c_incl (<[d := f data]> (c_incl s)) s).

Definition read_included_ref (d : Z) (s : client) : option client :=
  on_incl (fun x => mkIncl (ri_result x) (ri_pos x) (ri_ref_count x + 1)) d s.

(** The read of the declaration at [data->pos]; whether it was sent. *)
Definition send_read (d : Z) (handle : list Z) (s : client) : option (bool * client) :=
  data ← c_incl s !! d;
  q ← c_req s;
  r ← rq_results q !! ri_result data;
  s ← on_incl (fun x => mkIncl (ri_result x) (ri_pos x + rs_data_len r) (ri_ref_count x)) d s;
  s ← read_included_ref d s;
  let '(id, s) := bt_att_send BT_ATT_OP_READ_REQ handle (CReadIncluded d) s in
  Some (negb (id =? 0), s).

Definition incl_result (d : Z) (s : client) : option (read_incl_data * bt_gatt_result) :=
  data ← c_incl s !! d;
  q ← c_req s;
  r ← rq_results q !! ri_result data;
  Some (data, r).

Definition read_included (d : Z) (s : client) : option client :=
  '(_, r) ← incl_result d s;
  handle ← memread (rs_pdu r) 2 2;
  '(sent, s) ← send_read d handle s;
  if sent : bool then Some s else
  q ← c_req s;
  s ← (if rq_callback q then user_calls (on_result false 0 None) (add_event (ECallback false 0 None) s)
       else Some s);
  read_included_unref bt_gatt_request_unref d s.

Definition discover_included_cb (opcode : Z) (pdu : option (list Z)) (s : client) : option client :=
  if opcode =? BT_ATT_OP_ERROR_RSP then discovery_op_complete false (process_error pdu) s else
  match pdu with
  | None => discovery_op_complete false 0 s
  | Some pdu =>
      let length := zlen pdu in
      if negb (opcode =? BT_ATT_OP_READ_BY_TYPE_RSP) || (length <? 6)
      then discovery_op_complete false 0 s else
      data_length ← head pdu;
      if (negb (data_length =? 8) && negb (data_length =? 6)) || negb ((length - 1) mod data_length =? 0)
      then discovery_op_complete false 0 s else
      s ← result_append opcode (drop 1 pdu) data_length s;
      if data_length =? 6 then
        q ← c_req s;
        '(d, s) ← new_read_included (List.length (rq_results q) - 1) s;
        read_included d s
      else
        last_handle ← le16_at pdu (length - data_length);
        after_last_handle BT_ATT_OP_READ_BY_TYPE_REQ (fun q => handle_range q ++ put_le16 GATT_INCLUDE_UUID)
          CDiscoverIncluded last_handle s
  end.

Definition read_included_cb (d : Z) (opcode : Z) (pdu : option (list Z)) (s : client) : option client :=
  if opcode =? BT_ATT_OP_ERROR_RSP then discovery_op_complete false (process_error pdu) s else
  if negb (opcode =? BT_ATT_OP_READ_RSP) then discovery_op_complete false 0 s else
  match pdu with
  | None => discovery_op_complete false 0 s
  | Some pdu =>
      if negb (zlen pdu =? 16) then discovery_op_complete false 0 s else
      s ← result_append opcode pdu (zlen pdu) s;
      '(data, r) ← incl_result d s;
      if ri_pos data =? zlen (rs_pdu r) then
        last_handle ← le16_at (rs_pdu r) (ri_pos data - rs_data_len r);
        q ← c_req s;
        if last_handle =? rq_end_handle q then discovery_op_complete true 0 s else
        send_next BT_ATT_OP_READ_BY_TYPE_REQ
          (put_le16 (last_handle + 1) ++ put_le16 (rq_end_handle q) ++ put_le16 GATT_INCLUDE_UUID)
          CDiscoverIncluded s
      else
        handle ← memread (rs_pdu r) (ri_pos data + 2) 2;
        '(sent, s) ← send_read d handle s;
        if sent : bool then Some s else
        s ← read_included_unref bt_gatt_request_unref d s;
        discovery_op_complete false 0 s
  end.

(** *** Starting a request *)

(** A new request and its first operation: whether it was started, which also
    says whether the caller gets a pointer to it. *)
Definition start_request (opcode : Z) (pdu : list Z) (cb : att_callback) (q : bt_gatt_request)
  : option (bool * client) :=
  s ← bt_gatt_request_ref (mkClient (Some q) [] 1 ∅ 1 []);
  let '(id, s) := bt_att_send opcode pdu cb s in
  s ← on_req (set_rq_id id) s;
  if id =? 0 then Some (false, set_c_req None s) else Some (true, s).

(** The functions that return the request return a reference. *)
Definition returned (r : option (bool * client)) : option (bool * client) :=
  '(started, s) ← r;
  if started : bool then s ← bt_gatt_request_ref s; Some (true, s) else Some (false, s).

(** [new0] and the arguments; [BT_UUID_UNSPEC] is the UUID of zeros. *)
Definition new_request (start stop : Z) (uuid : bt_uuid) (service_type : Z) (callback : bool)
  : bt_gatt_request :=
  mkReq 0 start stop 0 uuid service_type [] callback.

Definition discover_services (uuid : option bt_uuid) (start stop : Z) (callback primary : bool)
  : option (bool * client) :=
  let service_type := if primary then GATT_PRIM_SVC_UUID else GATT_SND_SVC_UUID in
  let range := put_le16 start ++ put_le16 stop ++ put_le16 service_type in
  match uuid with
  | None =>
      returned (start_request BT_ATT_OP_READ_BY_GRP_TYPE_REQ range CReadByGrpType
                  (new_request start stop BT_UUID_UNSPEC service_type callback))
  | Some BT_UUID_UNSPEC => Some (false, mkClient None [] 1 ∅ 1 [])
  | Some uuid =>
      returned (start_request BT_ATT_OP_FIND_BY_TYPE_REQ (range ++ (bt_uuid_to_le uuid).2) CFindByTypeVal
                  (new_request start stop uuid service_type callback))
  end.

Definition bt_gatt_discover_primary_services (uuid : option bt_uuid) (start stop : Z) (callback : bool) :=
  discover_services uuid start stop callback true.
Definition bt_gatt_discover_secondary_services (uuid : option bt_uuid) (start stop : Z) (callback : bool) :=
  discover_services uuid start stop callback false.
Definition bt_gatt_discover_all_primary_services (uuid : option bt_uuid) (callback : bool) :=
  bt_gatt_discover_primary_services uuid 0x0001 0xffff callback.

Definition bt_gatt_discover_included_services (start stop : Z) (callback : bool) : option (bool * client) :=
  returned (start_request BT_ATT_OP_READ_BY_TYPE_REQ
              (put_le16 start ++ put_le16 stop ++ put_le16 GATT_INCLUDE_UUID) CDiscoverIncluded
              (new_request start stop BT_UUID_UNSPEC 0 callback)).

Definition bt_gatt_discover_characteristics (start stop : Z) (callback : bool) : option (bool * client) :=
  returned (start_request BT_ATT_OP_READ_BY_TYPE_REQ
              (put_le16 start ++ put_le16 stop ++ put_le16 GATT_CHARAC_UUID) CDiscoverChrcs
              (new_request start stop BT_UUID_UNSPEC 0 callback)).

(** [bt_gatt_read_by_type] does not give the request away. *)
Definition bt_gatt_read_by_type (start stop : Z) (uuid : bt_uuid) (callback : bool) : option (bool * client) :=
  match uuid with
  | BT_UUID_UNSPEC => Some (false, mkClient None [] 1 ∅ 1 [])
  | _ => start_request BT_ATT_OP_READ_BY_TYPE_REQ (put_le16 start ++ put_le16 stop ++ (bt_uuid_to_le uuid).2)
           CReadByType (new_request start stop uuid 0 callback)
  end.

Definition bt_gatt_discover_descriptors (start stop : Z) (callback : bool) : option (bool * client) :=
  returned (start_request BT_ATT_OP_FIND_INFO_REQ (put_le16 start ++ put_le16 stop) CDiscoverDescs
              (new_request start stop BT_UUID_UNSPEC 0 callback)).

(** *** What happens to a request *)

Definition call_back (cb : att_callback) : Z -> option (list Z) -> client -> option client :=
  match cb with
  | CReadByGrpType => read_by_grp_type_cb
  | CFindByTypeVal => find_by_type_val_cb
  | CDiscoverIncluded => discover_included_cb
  | CReadIncluded d => read_included_cb d
  | CDiscoverChrcs => discover_chrcs_cb
  | CReadByType => read_by_type_cb
  | CDiscoverDescs => discover_descs_cb
  end.

(** The transport has an answer to an operation: it calls its callback, and
    destroys the operation if it was not cancelled there. *)
Definition deliver (id opcode : Z) (pdu : option (list Z)) (s : client) : option client :=
  match list_find (fun o => ao_id o = id) (c_ops s) with
  | None => Some s
  | Some (_, o) =>
      s ← call_back (ao_callback o) opcode pdu s;
      match list_find (fun o => ao_id o = id) (c_ops s) with
      | None => Some s
      | Some (_, o) => destroy_op bt_gatt_request_unref (ao_callback o) (remove_op id s)
      end
  end.

Inductive client_op :=
| Deliver (id opcode : Z) (pdu : option (list Z))
| User (u : user_call).

Definition client_step (o : client_op) (s : client) : option client :=
  match o with
  | Deliver id opcode pdu => deliver id opcode pdu s
  | User u => user_call_step u s
  end.

Fixpoint client_run (os : list client_op) (s : client) : option client :=
  match os with
  | [] => Some s
  | o :: os' => s ← client_step o s; client_run os' s
  end.
End Requests.
