(* ===== verification/GattHelpersOk.v ===== *)
(** Proofs about the GATT client procedures of [GattHelpers]: the life of a request,
    what its results hold, and how often it sends. *)
From S2P Require Import Prelude Uuid Att GattDb GattAttr GattServer GattServerOk GattHelpers.

#[local] Arguments set_rq_id _ _ /.
#[local] Arguments set_rq_ref_count _ _ /.
#[local] Arguments set_rq_results _ _ /.
#[local] Arguments set_rq_start_handle _ _ /.
#[local] Arguments set_c_req _ _ /.
#[local] Arguments set_c_ops _ _ /.
#[local] Arguments set_c_next_id _ _ /.
#[local] Arguments set_c_incl _ _ /.
#[local] Arguments set_c_next_incl _ _ /.
#[local] Arguments add_event _ _ /.

(** ** The life of a request *)

(** The references a user holds after calls from inside the callback; [None] when
    he uses a reference he does not have, or cancels there. *)
Fixpoint calls_ok (us : list user_call) (u : Z) : option Z :=
  match us with
  | [] => Some u
  | URef :: us' => if 0 <? u then calls_ok us' (u + 1) else None
  | UUnref :: us' => if 0 <? u then calls_ok us' (u - 1) else None
  | UCancel _ :: _ => None
  end.

Lemma calls_ok_nonneg us u u' : 0 <= u -> calls_ok us u = Some u' -> 0 <= u'.
Proof.
  revert u; induction us as [|[| |found] us IH]; intros u Hu; simpl; [naive_solver | | |done];
    destruct (0 <? u) eqn:E; try done; apply IH; lia.
Qed.

(** The elements of a result have the size the iterators count on. *)
Definition element_sizes (opcode : Z) (n : Z) : Prop :=
  if opcode =? BT_ATT_OP_READ_BY_GRP_TYPE_RSP then n = 6 \/ n = 20
  else if opcode =? BT_ATT_OP_FIND_BY_TYPE_RSP then n = 4
  else if opcode =? BT_ATT_OP_FIND_INFO_RSP then n = 4 \/ n = 18
  else if opcode =? BT_ATT_OP_READ_BY_TYPE_RSP then 2 <= n <= 255
  else opcode = BT_ATT_OP_READ_RSP /\ n = 16.

Record result_wf (r : bt_gatt_result) : Prop := {
  wf_size : element_sizes (rs_opcode r) (rs_data_len r);
  wf_pos : 0 < zlen (rs_pdu r) <= 65535;
  wf_div : zlen (rs_pdu r) mod rs_data_len r = 0
}.

Lemma element_sizes_range opcode n : element_sizes opcode n -> 2 <= n <= 255.
Proof. unfold element_sizes. repeat (destruct (_ =? _)); lia. Qed.

Definition is_callback (e : client_event) : bool := match e with ECallback _ _ _ => true | _ => false end.
Definition is_free (e : client_event) : bool := match e with EFree => true | _ => false end.
Definition callbacks (l : list client_event) : nat := length (filter (fun e => is_callback e = true) l).
Definition frees (l : list client_event) : nat := length (filter (fun e => is_free e = true) l).

Lemma callbacks_app l1 l2 : callbacks (l1 ++ l2) = (callbacks l1 + callbacks l2)%nat.
Proof. unfold callbacks. by rewrite filter_app, length_app. Qed.
Lemma frees_app l1 l2 : frees (l1 ++ l2) = (frees l1 + frees l2)%nat.
Proof. unfold frees. by rewrite filter_app, length_app. Qed.

Definition is_send (e : client_event) : bool := match e with ESend _ _ => true | _ => false end.
Definition sends (l : list client_event) : Z := zlen (filter (fun e => is_send e = true) l).

Lemma sends_app l1 l2 : sends (l1 ++ l2) = sends l1 + sends l2.
Proof. unfold sends. by rewrite filter_app, zlen_app. Qed.

(** The results handed to the callback are well formed. *)
Definition event_ok (e : client_event) : Prop :=
  match e with ECallback _ _ (Some rs) => Forall result_wf rs | _ => True end.

(** The place up to which the declarations of a result without UUIDs were read. *)
Definition data_ok (data : read_incl_data) (q : bt_gatt_request) : Prop :=
  exists r, rq_results q !! ri_result data = Some r /\ rs_data_len r = 6 /\
    6 <= ri_pos data <= zlen (rs_pdu r) /\ ri_pos data mod 6 = 0.

(** What keeps the request alive for an operation in the transport. *)
Definition held_for (o : att_operation) (q : bt_gatt_request) (s : client) : Prop :=
  match ao_callback o with
  | CReadIncluded d =>
      exists data, c_incl s = {[d := data]} /\ ri_ref_count data = 1 /\ data_ok data q
  | _ => c_incl s = ∅
  end.

Definition is_service (cb : att_callback) : bool :=
  match cb with CReadByGrpType | CFindByTypeVal => true | _ => false end.

(** The requests a discovery of services between two handles has sent when it is
    about to go on at [rq_start_handle]. *)
Definition sent_ok (range : option (Z * Z)) (cb : att_callback) (q : bt_gatt_request) (s : client) : Prop :=
  match range with
  | None => True
  | Some (first, last) =>
      is_service cb = true /\ rq_end_handle q = last /\ 0 <= first <= rq_start_handle q /\ last <= 65535 /\
      sends (c_events s) <= 1 + (rq_start_handle q - first) /\
      (sends (c_events s) = 1 \/ rq_start_handle q <= last)
  end.
Definition total_ok (range : option (Z * Z)) (s : client) : Prop :=
  match range with None => True | Some (first, last) => sends (c_events s) <= Z.max 1 (last - first + 1) end.

Record base (q : bt_gatt_request) (s : client) : Prop := {
  b_req : c_req s = Some q;
  b_results : Forall result_wf (rq_results q);
  b_events : Forall event_ok (c_events s);
  b_next : 0 < c_next_id s;
  b_frees : frees (c_events s) = 0%nat
}.

(** One operation is in the transport; [u] references are the user's. *)
Record waiting (range : option (Z * Z)) (u : Z) (s : client) (q : bt_gatt_request) (o : att_operation) : Prop := {
  w_base : base q s;
  w_ops : c_ops s = [o];
  w_id : 0 < ao_id o < c_next_id s;
  w_ref : rq_ref_count q = u + 1;
  w_user : 0 <= u;
  w_held : held_for o q s;
  w_running : rq_id q <> 0;
  w_current : match ao_callback o with CReadIncluded _ => True | _ => rq_id q = ao_id o end;
  w_quiet : callbacks (c_events s) = 0%nat;
  w_sent : sent_ok range (ao_callback o) q s
}.

(** Nothing is in the transport any more. *)
Definition answered_events (cancelled cb : bool) (l : list client_event) : Prop :=
  (cancelled = true /\ callbacks l = 0%nat) \/ callbacks l = Nat.b2n cb.

Record resting (range : option (Z * Z)) (cancelled : bool) (u : Z) (s : client) (q : bt_gatt_request) : Prop := {
  r_base : base q s;
  r_ops : c_ops s = [];
  r_incl : c_incl s = ∅;
  r_ref : rq_ref_count q = u;
  r_user : 0 < u;
  r_answered : answered_events cancelled (rq_callback q) (c_events s);
  r_total : total_ok range s
}.

Record gone (range : option (Z * Z)) (cancelled cb : bool) (s : client) : Prop := {
  g_req : c_req s = None;
  g_ops : c_ops s = [];
  g_incl : c_incl s = ∅;
  g_results : Forall event_ok (c_events s);
  g_frees : frees (c_events s) = 1%nat;
  g_answered : answered_events cancelled cb (c_events s);
  g_total : total_ok range s
}.

Definition settled (range : option (Z * Z)) (cancelled cb : bool) (s : client) : Prop :=
  (exists u q, resting range cancelled u s q /\ rq_callback q = cb) \/ gone range cancelled cb s.

(** A life: [cb] says whether the request has a callback. *)
Definition life (range : option (Z * Z)) (cancelled cb : bool) (s : client) : Prop :=
  (exists u q o, waiting range u s q o /\ rq_callback q = cb) \/ settled range cancelled cb s.

Section Life.
Context (accepts : Z -> bool)
        (on_result : bool -> Z -> option (list bt_gatt_result) -> list user_call)
        (range : option (Z * Z)).

Notation waiting := (waiting range).
Notation resting := (resting range).
Notation gone := (gone range).
Notation settled := (settled range).
Notation life := (life range).
Notation sent_ok := (sent_ok range).
Notation total_ok := (total_ok range).

Notation discovery_op_complete := (discovery_op_complete on_result).
Notation send_next := (send_next accepts on_result).
Notation on_result_ok u := (forall b e r, is_Some (calls_ok (on_result b e r) u)).

(** *** Calls of the user while something else holds a reference *)

Lemma on_req_eq f q s : c_req s = Some q -> on_req f s = Some (set_c_req (Some (f q)) s).
Proof. intros H. unfold on_req. by rewrite H. Qed.

Lemma unref_held q s :
  c_req s = Some q -> rq_ref_count q <> 1 ->
  bt_gatt_request_unref s = Some (set_c_req (Some (set_rq_ref_count (rq_ref_count q - 1) q)) s).
Proof.
  intros H Hn. unfold bt_gatt_request_unref. simpl. rewrite (on_req_eq _ _ _ H). simpl.
  by replace (rq_ref_count q - 1 =? 0) with false by lia.
Qed.

Lemma user_calls_held us : forall u x u' q s,
  c_req s = Some q -> rq_ref_count q = u + x -> 0 <= u -> 1 <= x -> calls_ok us u = Some u' ->
  user_calls us s = Some (set_c_req (Some (set_rq_ref_count (u' + x) q)) s).
Proof.
  induction us as [|c us IH]; intros u x u' q s Hq Hr Hu Hx Hok; simpl in *.
  - simplify_eq. by destruct s, q; simpl in *; subst.
  - destruct c; simpl; try done; destruct (0 <? u) eqn:E; try done.
    + unfold bt_gatt_request_ref. rewrite (on_req_eq _ _ _ Hq). simpl.
      eapply eq_trans; [eapply (IH (u + 1) x u'); [reflexivity|simpl; lia|lia|lia|done]|done].
    + rewrite (unref_held q) by (done || lia). simpl.
      eapply eq_trans; [eapply (IH (u - 1) x u'); [reflexivity|simpl; lia|lia|lia|done]|done].
Qed.

(** *** The end of a procedure *)

(** What does not change before a procedure ends or goes on. *)
Record ready (q : bt_gatt_request) (s : client) : Prop := {
  y_req : c_req s = Some q;
  y_results : Forall result_wf (rq_results q);
  y_events : Forall event_ok (c_events s);
  y_next : 0 < c_next_id s
}.

Record same_frame (s s' : client) : Prop := {
  f_ops : c_ops s' = c_ops s;
  f_incl : c_incl s' = c_incl s;
  f_next : c_next_id s' = c_next_id s;
  f_events : c_events s' = c_events s
}.

(** The procedure is over: its callback was called, [x] references are not the
    user's. *)
Record completed (cb : bool) (x : Z) (s s' : client) (q' : bt_gatt_request) : Prop := {
  k_ready : ready q' s';
  k_ops : c_ops s' = c_ops s;
  k_next : c_next_id s <= c_next_id s';
  k_incl : c_incl s' = c_incl s;
  k_callback : rq_callback q' = cb;
  k_user : x <= rq_ref_count q';
  k_frees : frees (c_events s') = frees (c_events s);
  k_called : callbacks (c_events s') = (callbacks (c_events s) + Nat.b2n cb)%nat;
  k_sends : sends (c_events s') = sends (c_events s)
}.
(** *** The end of a procedure *)

Definition call_events (q : bt_gatt_request) (b : bool) (e : Z) (r : option (list bt_gatt_result)) :=
  if rq_callback q then [ECallback b e r] else [].

Lemma call_events_ok q b e r l :
  Forall event_ok l -> match r with Some rs => Forall result_wf rs | None => True end ->
  Forall event_ok (l ++ call_events q b e r) /\ frees (l ++ call_events q b e r) = frees l /\
  callbacks (l ++ call_events q b e r) = (callbacks l + Nat.b2n (rq_callback q))%nat /\
  sends (l ++ call_events q b e r) = sends l.
Proof.
  intros Hl Hr. rewrite frees_app, callbacks_app, sends_app. unfold call_events.
  destruct (rq_callback q); simpl; rewrite ?Nat.add_0_r, ?Z.add_0_r, ?app_nil_r; split; try done.
  apply Forall_app; split; [done|]. by constructor.
Qed.

(** Calling the callback while [x] references are not the user's. *)
Lemma callback_held b e r u x q s :
  c_req s = Some q -> rq_ref_count q = u + x -> 0 <= u -> 1 <= x -> on_result_ok u ->
  exists u1, 0 <= u1 /\
    (if rq_callback q then user_calls (on_result b e r) (add_event (ECallback b e r) s) else Some s)
    = Some (mkClient (Some (set_rq_ref_count (u1 + x) q)) (c_ops s) (c_next_id s) (c_incl s)
              (c_next_incl s) (c_events s ++ call_events q b e r)).
Proof.
  intros Hq Hr Hu Hx Hok. destruct (Hok b e r) as [u' Hu']. pose proof (calls_ok_nonneg _ _ _ Hu Hu').
  unfold call_events. destruct (rq_callback q).
  - exists u'. split; [done|]. by erewrite (user_calls_held _ u x u' q (add_event _ s)).
  - exists u. split; [done|]. rewrite app_nil_r. by destruct s, q; simpl in *; subst.
Qed.

Lemma complete_ok b e u x q s :
  ready q s -> rq_ref_count q = u + x -> 0 <= u -> 1 <= x -> on_result_ok u -> (rq_id q = 0 -> 2 <= x) ->
  exists s' q', discovery_op_complete b e s = Some s' /\
    completed (rq_callback q) (if rq_id q =? 0 then x - 1 else x) s s' q'.
Proof.
  intros [Hq Hwf Hev Hn] Hr Hu Hx Hok Hid. unfold GattHelpers.discovery_op_complete. rewrite Hq.
  cbn [mbind option_bind].
  set (b' := if (e =? _) && _ then true else b). set (r := if b' then _ else _).
  destruct (callback_held b' e r u x q s) as (u1 & Hu1 & ->); [done..|].
  destruct (call_events_ok q b' e r (c_events s)) as (Hev' & Hf & Hc & Hs); [done|by subst r; destruct b'|].
  simpl. destruct (rq_id q =? 0) eqn:E.
  - erewrite unref_held; [|reflexivity|simpl; lia]. do 2 eexists. split; [reflexivity|].
    constructor; [by constructor|..]; simpl; try done; lia.
  - do 2 eexists. split; [reflexivity|]. constructor; [by constructor|..]; simpl; try done; lia.
Qed.

(** The next operation [o'] is in the transport. *)
Record continues (cb : bool) (ref : Z) (s s' : client) (q' : bt_gatt_request) (o' : att_operation) : Prop := {
  n_ready : ready q' s';
  n_ops : c_ops s' = c_ops s ++ [o'];
  n_id : c_next_id s <= ao_id o' < c_next_id s';
  n_current : rq_id q' <> 0;
  n_callback : rq_callback q' = cb;
  n_ref : rq_ref_count q' = ref;
  n_frees : frees (c_events s') = frees (c_events s);
  n_called : callbacks (c_events s') = callbacks (c_events s)
}.

Definition continues_direct (cb : bool) (ref : Z) (s s' : client) (q' : bt_gatt_request)
    (o' : att_operation) : Prop :=
  continues cb ref s s' q' o' /\ c_incl s' = c_incl s /\
  rq_id q' = ao_id o' /\ (forall d, ao_callback o' <> CReadIncluded d) /\ sent_ok (ao_callback o') q' s'.

(** What a callback that does not read included services comes to. *)
Definition outcome (u : Z) (q : bt_gatt_request) (s s' : client) : Prop :=
  (exists q', completed (rq_callback q) 1 s s' q') \/
  (exists q' o', continues_direct (rq_callback q) (u + 2) s s' q' o').

Lemma completed_outcome u q s s' q' : completed (rq_callback q) 1 s s' q' -> outcome u q s s'.
Proof. left; by exists q'. Qed.

Lemma complete_outcome b e u q s :
  ready q s -> rq_ref_count q = u + 1 -> 0 <= u -> on_result_ok u -> rq_id q <> 0 ->
  exists s', discovery_op_complete b e s = Some s' /\ outcome u q s s'.
Proof.
  intros Hy Hr Hu Hok Hid.
  destruct (complete_ok b e u 1 q s) as (s' & q' & E & Hc); [done..|].
  exists s'; split; [done|]. replace (rq_id q =? 0) with false in Hc by lia. by eapply completed_outcome.
Qed.

Lemma send_next_ok opcode pdu cb u q s :
  ready q s -> rq_ref_count q = u + 1 -> 0 <= u -> on_result_ok u -> (forall d, cb <> CReadIncluded d) ->
  sent_ok cb q (add_event (ESend opcode pdu) s) ->
  exists s', send_next opcode pdu cb s = Some s' /\ outcome u q s s'.
Proof.
  intros [Hq Hwf Hev Hn] Hr Hu Hok Hcb Hsent. unfold GattHelpers.send_next, bt_gatt_request_ref.
  rewrite (on_req_eq _ _ _ Hq). unfold bt_att_send. simpl.
  destruct (accepts (c_next_id s)); simpl.
  - replace (c_next_id s =? 0) with false by lia. simpl. eexists; split; [done|]. right.
    do 2 eexists. split; [constructor|].
    all: simpl; repeat split; simpl; try done; try lia.
    + apply Forall_app; split; [done|]. by repeat constructor.
    + by rewrite frees_app, Nat.add_0_r.
    + by rewrite callbacks_app, Nat.add_0_r.
  - match goal with |- context [discovery_op_complete _ _ ?t] => set (s1 := t) end.
    destruct (complete_ok false 0 u 2 (set_rq_id 0 (set_rq_ref_count (rq_ref_count q + 1) q)) s1)
      as (s' & q' & E & Hc); [constructor; simpl; done || lia | simpl; lia | done | lia | done | done |].
    exists s'; split; [done|]. left. exists q'. simpl in Hc. destruct Hc; simpl in *.
    constructor; try done; lia.
Qed.

(** *** The answers *)

Lemma le16_some pdu off : 0 <= off -> off + 2 <= zlen pdu -> exists h, le16_at pdu off = Some h.
Proof. intros H1 H2. unfold le16_at. rewrite memread_Some by lia. simpl. by eexists. Qed.

(** A list of elements behind [k] bytes of a PDU: the result that is appended is
    well formed, and the last element is in the PDU. *)
Lemma list_result opcode (pdu : list Z) k d :
  k = 0 \/ k = 1 -> element_sizes opcode d -> zlen pdu <= 65535 -> 0 < zlen pdu - k ->
  (zlen pdu - k) mod d = 0 ->
  result_wf (mkResult opcode (drop (Z.to_nat k) pdu) (u16 d)) /\ d <= zlen pdu - k /\
  forall off, 0 <= off -> off + 2 <= d -> exists h, le16_at pdu (zlen pdu - d + off) = Some h.
Proof.
  intros Hk Hs Hl Hd Hm. pose proof (element_sizes_range _ _ Hs).
  assert (d <= zlen pdu - k) by (apply Z.mod_divide in Hm; [apply Z.divide_pos_le in Hm|]; lia).
  assert (u16 d = d) as Hu by (apply Z.mod_small; lia).
  assert (zlen (drop (Z.to_nat k) pdu) = zlen pdu - k) as Hz by (rewrite zlen_drop; lia).
  split; [|split; [done|]].
  - constructor; simpl; rewrite ?Hu, ?Hz; try done; lia.
  - intros off Ho1 Ho2. apply le16_some; lia.
Qed.

Lemma append_ready opcode pdu d u q s :
  ready q s -> rq_ref_count q = u + 1 -> result_wf (mkResult opcode pdu (u16 d)) ->
  exists s1 q1, result_append opcode pdu d s = Some s1 /\ ready q1 s1 /\ same_frame s s1 /\
    rq_ref_count q1 = u + 1 /\ rq_callback q1 = rq_callback q /\ rq_id q1 = rq_id q /\
    rq_results q1 = rq_results q ++ [mkResult opcode pdu (u16 d)] /\
    rq_start_handle q1 = rq_start_handle q /\ rq_end_handle q1 = rq_end_handle q.
Proof.
  intros [Hq Hwf Hev Hn] Hr Hw. unfold result_append. rewrite (on_req_eq _ _ _ Hq).
  do 2 eexists. split; [done|]. split; [constructor; simpl; try done|].
  - apply Forall_app; split; [done|]. by constructor.
  - by repeat split.
Qed.

Lemma start_handle_ready h u q s :
  ready q s -> rq_ref_count q = u + 1 ->
  exists s1 q1, on_req (set_rq_start_handle h) s = Some s1 /\ ready q1 s1 /\ same_frame s s1 /\
    rq_ref_count q1 = u + 1 /\ rq_callback q1 = rq_callback q /\ rq_id q1 = rq_id q /\
    rq_results q1 = rq_results q /\ rq_start_handle q1 = h /\ rq_end_handle q1 = rq_end_handle q.
Proof.
  intros [Hq Hwf Hev Hn] Hr. rewrite (on_req_eq _ _ _ Hq). do 2 eexists. split; [done|].
  split; [by constructor|]. by repeat split.
Qed.

Lemma outcome_frame u q q1 s s1 s' :
  same_frame s s1 -> rq_callback q1 = rq_callback q -> outcome u q1 s1 s' -> outcome u q s s'.
Proof.
  intros [F1 F2 F3 F5] E [(q' & [])|(q' & o' & [] & ? & ? & ? & ?)]; [left; exists q'|right; exists q', o'].
  - rewrite <- E. rewrite ?F1, ?F2, ?F3, ?F5 in *. by constructor.
  - rewrite <- E. rewrite ?F1, ?F2, ?F3, ?F5 in *. unfold continues_direct. by split_and!; [constructor|..].
Qed.

Lemma same_frame_trans s s1 s2 : same_frame s s1 -> same_frame s1 s2 -> same_frame s s2.
Proof. intros [] []. constructor; congruence. Qed.

Definition handles (u : Z) (q : bt_gatt_request) (s : client) (r : option client) : Prop :=
  exists s', r = Some s' /\ outcome u q s s'.

Lemma handles_frame u q q1 s s1 r :
  same_frame s s1 -> rq_callback q1 = rq_callback q -> handles u q1 s1 r -> handles u q s r.
Proof. intros F E (s' & -> & H). exists s'; split; [done|]. by eapply outcome_frame. Qed.

Lemma sent_none cb q s : range = None -> sent_ok cb q s.
Proof. by intros ->. Qed.

Lemma sent_next cb h q q1 s s1 e :
  sent_ok cb q s -> same_frame s s1 -> is_send e = true -> rq_end_handle q1 = rq_end_handle q ->
  rq_start_handle q1 = u16 (h + 1) -> rq_start_handle q <= h < rq_end_handle q ->
  sent_ok cb q1 (add_event e s1).
Proof.
  unfold GattHelpersOk.sent_ok. destruct range as [[first last]|]; [|done].
  intros (H1 & H2 & H3 & H4 & H5 & _) F He Hend Hstart Hh. simpl. rewrite (f_events _ _ F), sends_app.
  assert (u16 (h + 1) = h + 1) as Hu by (apply Z.mod_small; lia).
  assert (sends [e] = 1) as -> by (unfold sends; by rewrite filter_cons_True).
  rewrite Hend, Hstart, Hu. split_and!; [done|done|lia|lia|lia|lia|]. right. lia.
Qed.

Lemma after_last_handle_ok opcode next cb h u q s :
  ready q s -> rq_ref_count q = u + 1 -> 0 <= u -> on_result_ok u -> rq_id q <> 0 ->
  (forall d, cb <> CReadIncluded d) -> range = None ->
  handles u q s (after_last_handle accepts on_result opcode next cb h s).
Proof.
  intros Hy Hr Hu Hok Hid Hcb Hrange. unfold after_last_handle. rewrite (y_req _ _ Hy).
  cbn [mbind option_bind]. destruct (h <? _); [by apply complete_outcome|].
  destruct (start_handle_ready (u16 (h + 1)) u q s) as (s1 & q1 & -> & Hy1 & F & Hr1 & Hc1 & Hi1 & _); [done..|].
  cbn [mbind option_bind]. rewrite (y_req _ _ Hy1). cbn [mbind option_bind].
  eapply handles_frame; [done..|]. destruct (negb _).
  - by apply send_next_ok; try done; apply sent_none.
  - apply complete_outcome; congruence || done.
Qed.

(** What the transport gives to a callback. *)
Definition pdu_ok (pdu : option (list Z)) : Prop := match pdu with Some l => zlen l <= 65535 | None => True end.

(** An element of a list of values is at least its handle, and something follows its length. *)
Definition type_list_ok (opcode : Z) (pdu : option (list Z)) : Prop :=
  opcode = BT_ATT_OP_READ_BY_TYPE_RSP ->
  match pdu with Some (d :: l) => 2 <= d <= 255 /\ l <> [] | Some [] => False | None => True end.

Ltac after_append :=
  match goal with
  | Hwf1 : result_wf _, Hy : ready ?q ?s, Hr : rq_ref_count ?q = ?u + 1
    |- context [result_append ?o ?p ?d ?s] =>
      let s1 := fresh "s1" in let q1 := fresh "q1" in let E := fresh in
      destruct (append_ready o p d u q s Hy Hr Hwf1)
        as (s1 & q1 & E & Hy1 & F1 & Hr1 & Hc1 & Hi1 & Hres1 & Hst1 & Hen1);
      rewrite E; cbn [mbind option_bind]
  end.

Lemma patch_ready off pre r u q s :
  ready q s -> rq_ref_count q = u + 1 -> rq_results q = pre ++ [r] -> 0 <= off -> off + 2 <= zlen (rs_pdu r) ->
  exists s1 q1, patch_last_end off s = Some s1 /\ ready q1 s1 /\ same_frame s s1 /\
    rq_ref_count q1 = u + 1 /\ rq_callback q1 = rq_callback q /\ rq_id q1 = rq_id q.
Proof.
  intros [Hq Hwf Hev Hn] Hr Hres H0 H2. unfold patch_last_end. rewrite Hq. cbn [mbind option_bind].
  rewrite Hres, last_snoc. cbn [mbind option_bind].
  destruct (memcpy_at_total (rs_pdu r) off (put_le16 (rq_end_handle q))) as (pdu & Hm & Hz);
    [done|rewrite zlen_put_le16; lia|]. rewrite Hm. cbn [mbind option_bind].
  rewrite (on_req_eq _ _ _ Hq). do 2 eexists. split; [done|].
  split; [constructor; simpl; [done| |done..]|by repeat split].
  rewrite Hres in Hwf. apply Forall_app in Hwf as [Hpre Hr1]. inversion_clear Hr1 as [|? ? [] _].
  rewrite length_app. simpl. rewrite Nat.add_sub, take_app_length. apply Forall_app; split; [done|].
  repeat constructor; simpl; rewrite ?Hz; done || lia.
Qed.

Section Answer.
Context (u : Z) (q : bt_gatt_request) (s : client).
Hypotheses (Hy : ready q s) (Hr : rq_ref_count q = u + 1) (Hu : 0 <= u) (Hok : on_result_ok u)
           (Hid : rq_id q <> 0).

Lemma fails b e : handles u q s (discovery_op_complete b e s).
Proof. by apply complete_outcome. Qed.

(** The tests in front of a list of elements. *)
Ltac refuse :=
  match goal with
  | |- handles _ _ _ (if ?b then discovery_op_complete _ _ _ else _) =>
      let E := fresh "E" in destruct b eqn:E; [by apply fails|]; try apply orb_false_iff in E as [E ?]
  | |- handles _ _ _ (match ?p with Some _ => _ | None => discovery_op_complete _ _ _ end) =>
      destruct p as [pdu|]; [|by apply fails]
  | |- handles _ _ _ (head ?p ≫= _) =>
      destruct p as [|d l]; [done|]; cbn [head mbind option_bind]
  end.

Ltac last_element off :=
  match goal with
  | Hread : forall off, _ |- _ =>
      let h := fresh "h" in let Hh := fresh in
      destruct (Hread off) as [h Hh]; [lia|lia|]; rewrite ?Z.add_0_r in Hh; rewrite Hh;
      cbn [mbind option_bind]
  end.

Lemma discover_chrcs_ok opcode pdu :
  range = None -> pdu_ok pdu -> handles u q s (discover_chrcs_cb accepts on_result opcode pdu s).
Proof.
  intros Hrange Hp. unfold discover_chrcs_cb. repeat refuse. simpl in Hp.
  assert (opcode = BT_ATT_OP_READ_BY_TYPE_RSP) as -> by lia.
  destruct (list_result BT_ATT_OP_READ_BY_TYPE_RSP (d :: l) 1 d) as (Hwf1 & Hdl & Hread);
    [by right|unfold element_sizes; simpl; lia|done|lia|lia|].
  after_append. last_element 0.
  eapply handles_frame; [done..|]. apply after_last_handle_ok; congruence || done.
Qed.

Lemma read_by_type_ok opcode pdu :
  range = None -> pdu_ok pdu -> type_list_ok opcode pdu -> handles u q s (read_by_type_cb accepts on_result opcode pdu s).
Proof.
  intros Hrange Hp Ht. unfold read_by_type_cb. repeat refuse. simpl in Hp. destruct pdu as [|d l]; [exfalso; apply Ht; lia|].
  assert (opcode = BT_ATT_OP_READ_BY_TYPE_RSP) as -> by lia. destruct (Ht eq_refl) as [Hd Hl].
  cbn [head mbind option_bind]. replace (d =? 0) with false by lia. refuse.
  pose proof (zlen_cons d l).
  assert (d <= zlen l).
  { apply Z.divide_pos_le; [destruct l; [done|rewrite zlen_cons; unfold zlen; lia]|]. apply Z.mod_divide; [lia|].
    replace (zlen l) with (zlen (d :: l) - 1) by lia. lia. }
  destruct (list_result BT_ATT_OP_READ_BY_TYPE_RSP (d :: l) 1 d) as (Hwf1 & Hdl & Hread);
    [by right|unfold element_sizes; simpl; lia|done|lia|lia|].
  after_append. last_element 0.
  eapply handles_frame; [done..|]. apply after_last_handle_ok; congruence || done.
Qed.

Lemma discover_descs_ok opcode pdu :
  range = None -> pdu_ok pdu -> handles u q s (discover_descs_cb accepts on_result opcode pdu s).
Proof.
  intros Hrange Hp. unfold discover_descs_cb. repeat refuse. simpl in Hp.
  assert (opcode = BT_ATT_OP_FIND_INFO_RSP) as -> by lia.
  set (n := if d =? 1 then 4 else 18) in *.
  assert (n = 4 \/ n = 18) by (subst n; destruct (d =? 1); lia).
  destruct (list_result BT_ATT_OP_FIND_INFO_RSP (d :: l) 1 n) as (Hwf1 & Hdl & Hread);
    [by right|done|done|lia|lia|].
  after_append. last_element 0.
  eapply handles_frame; [done..|]. apply after_last_handle_ok; congruence || done.
Qed.

Lemma read_by_grp_type_ok opcode pdu :
  sent_ok CReadByGrpType q s -> pdu_ok pdu -> handles u q s (read_by_grp_type_cb accepts on_result opcode pdu s).
Proof.
  intros Hsent Hp. unfold read_by_grp_type_cb. repeat refuse. simpl in Hp.
  assert (opcode = BT_ATT_OP_READ_BY_GRP_TYPE_RSP) as -> by lia.
  destruct (list_result BT_ATT_OP_READ_BY_GRP_TYPE_RSP (d :: l) 1 d) as (Hwf1 & Hdl & Hread);
    [by right|unfold element_sizes; simpl; lia|done|lia|lia|].
  after_append. last_element 2. rewrite (y_req _ _ Hy1). cbn [mbind option_bind].
  destruct (h <? _) eqn:Elow; [eapply handles_frame; [done..|]; apply complete_outcome; congruence || done|].
  destruct (start_handle_ready (u16 (h + 1)) u q1 s1) as (s2 & q2 & -> & Hy2 & F2 & Hr2 & Hc2 & Hi2 & Hres2 & Hst2 & Hen2);
    [done..|]. cbn [mbind option_bind]. rewrite (y_req _ _ Hy2). cbn [mbind option_bind].
  apply (handles_frame u q q2 s s2); [by eapply same_frame_trans|congruence|].
  destruct (h <? rq_end_handle q2) eqn:Ehigh.
  { apply send_next_ok; try done.
    eapply (sent_next _ h q q2 s s2); [done|by eapply same_frame_trans|done|congruence|done|].
    rewrite Hst1 in Elow. rewrite Hen2, Hen1 in Ehigh. lia. }
  destruct ((h =? 65535) && _).
  - destruct (patch_ready (zlen (d :: l) - d + 1) (rq_results q)
                (mkResult BT_ATT_OP_READ_BY_GRP_TYPE_RSP l (u16 d)) u q2 s2)
      as (s3 & q3 & E3 & Hy3 & F3 & Hr3 & Hc3 & Hi3); [done|done|by rewrite Hres2|lia|simpl; rewrite zlen_cons in *; lia|].
    rewrite E3. cbn [mbind option_bind]. eapply handles_frame; [done..|].
    apply complete_outcome; congruence || done.
  - cbn [mbind option_bind]. apply complete_outcome; congruence || done.
Qed.

Lemma find_by_type_val_ok opcode pdu :
  sent_ok CFindByTypeVal q s -> pdu_ok pdu -> handles u q s (find_by_type_val_cb accepts on_result opcode pdu s).
Proof.
  intros Hsent Hp. unfold find_by_type_val_cb. repeat refuse. simpl in Hp.
  assert (opcode = BT_ATT_OP_FIND_BY_TYPE_RSP) as -> by lia. pose proof (zlen_nonneg pdu).
  destruct (list_result BT_ATT_OP_FIND_BY_TYPE_RSP pdu 0 4) as (Hwf1 & Hdl & Hread);
    [by left|done|done|lia|by rewrite Z.sub_0_r; lia|]. rewrite drop_0 in Hwf1.
  after_append. destruct (Hread 2) as [h Hh]; [lia|lia|].
  replace (zlen pdu - 4 + 2) with (zlen pdu - 2) in Hh by lia. rewrite Hh. cbn [mbind option_bind].
  rewrite (y_req _ _ Hy1). cbn [mbind option_bind].
  destruct (h <? _) eqn:Elow; [eapply handles_frame; [done..|]; apply complete_outcome; congruence || done|].
  destruct (start_handle_ready (u16 (h + 1)) u q1 s1) as (s2 & q2 & -> & Hy2 & F2 & Hr2 & Hc2 & Hi2 & Hres2 & Hst2 & Hen2);
    [done..|]. cbn [mbind option_bind]. rewrite (y_req _ _ Hy2). cbn [mbind option_bind].
  apply (handles_frame u q q2 s s2); [by eapply same_frame_trans|congruence|].
  destruct (h <? rq_end_handle q2) eqn:Ehigh.
  { apply send_next_ok; try done.
    eapply (sent_next _ h q q2 s s2); [done|by eapply same_frame_trans|done|congruence|done|].
    rewrite Hst1 in Elow. rewrite Hen2, Hen1 in Ehigh. lia. } apply complete_outcome; congruence || done.
Qed.
End Answer.

(** *** Included services *)

Definition outcome_incl (u : Z) (q : bt_gatt_request) (s s' : client) : Prop :=
  outcome u q s s' \/
  exists q' o' d data, continues (rq_callback q) (u + 2) s s' q' o' /\
    ao_callback o' = CReadIncluded d /\ c_incl s' = {[d := data]} /\ ri_ref_count data = 1 /\ data_ok data q'.

Lemma read_included_ok pre r u q s :
  ready q s -> rq_ref_count q = u + 1 -> 0 <= u -> on_result_ok u -> rq_id q <> 0 ->
  c_incl s = ∅ -> rq_results q = pre ++ [r] -> rs_data_len r = 6 -> 6 <= zlen (rs_pdu r) ->
  exists s', ('(d, s) ← new_read_included (List.length (rq_results q) - 1) s;
              read_included accepts on_result d s) = Some s' /\ outcome_incl u q s s'.
Proof.
  intros [Hq Hwf Hev Hn] Hr Hu Hok Hid Hi Hres Hd Hz.
  set (k := (List.length (rq_results q) - 1)%nat).
  unfold new_read_included, bt_gatt_request_ref. rewrite (on_req_eq _ _ _ Hq). cbn [mbind option_bind].
  set (d := c_next_incl (set_c_req _ s)). clearbody d.
  assert (rq_results q !! k = Some r) as Hlast.
  { subst k. rewrite Hres, length_app. simpl. by rewrite Nat.add_sub, lookup_app_r, Nat.sub_diag by lia. }
  clearbody k.
  unfold read_included, incl_result, send_read, read_included_ref, on_incl. simpl.
  repeat (rewrite ?lookup_insert_eq, ?Hlast; simpl). rewrite memread_Some by lia. simpl.
  repeat (rewrite ?lookup_insert_eq, ?Hlast; simpl). unfold bt_att_send. simpl.
  destruct (accepts (c_next_id s)); simpl.
  - replace (c_next_id s =? 0) with false by lia. simpl. eexists; split; [done|]. right.
    do 4 eexists. split_and!; [constructor|..]; simpl.
    1: constructor; simpl; [done|done| |lia]; apply Forall_app; split; [done|]; by repeat constructor.
    all: try done; try lia; simpl; try done; try lia.
    + by rewrite frees_app, Nat.add_0_r.
    + by rewrite callbacks_app, Nat.add_0_r.
    + by rewrite Hi, !insert_insert_eq.
    + done.
    + exists r. simpl. rewrite Hd. done.
  - set (q0 := set_rq_ref_count (rq_ref_count q + 1) q).
    match goal with |- context [if rq_callback q then user_calls ?f ?a else Some ?b] =>
      change (if rq_callback q then user_calls f a else Some b)
        with (if rq_callback q0 then user_calls f (add_event (ECallback false 0 None) b) else Some b);
      destruct (callback_held false 0 None u 2 q0 b) as (u1 & Hu1 & E); [done|simpl; lia|done|lia|done|]
    end.
    rewrite E. destruct (call_events_ok q0 false 0 None (c_events s)) as (Hev' & Hf & Hc & Hs); [done..|].
    unfold read_included_unref. simpl. rewrite lookup_insert_eq. simpl.
    erewrite unref_held; [|reflexivity|simpl; lia]. simpl. eexists; split; [done|].
    left; left. eexists. constructor; simpl; [constructor; simpl; [done|done|done|lia]|..]; try done; try lia.
    + by rewrite Hi, !insert_insert_eq, delete_insert_eq, delete_empty.
    + simpl. lia.
Qed.

Lemma outcome_incl_frame u q q1 s s1 s' :
  same_frame s s1 -> rq_callback q1 = rq_callback q -> outcome_incl u q1 s1 s' -> outcome_incl u q s s'.
Proof.
  intros F E [H|(q' & o' & d & data & [] & H)]; [left; by eapply outcome_frame|right].
  exists q', o', d, data. split; [|done]. destruct F as [F1 F2 F3 F5]. rewrite <- E.
  rewrite ?F1, ?F2, ?F3, ?F5 in *. by constructor.
Qed.

Lemma discover_included_ok opcode pdu u q s :
  range = None ->
  ready q s -> rq_ref_count q = u + 1 -> 0 <= u -> on_result_ok u -> rq_id q <> 0 ->
  pdu_ok pdu -> c_incl s = ∅ ->
  exists s', discover_included_cb accepts on_result opcode pdu s = Some s' /\ outcome_incl u q s s'.
Proof.
  intros Hrange Hy Hr Hu Hok Hid Hp Hi.
  assert (forall r, handles u q s r -> exists s', r = Some s' /\ outcome_incl u q s s') as Hh.
  { intros r (s' & -> & H). exists s'. split; [done|by left]. }
  assert (forall b e, exists s', discovery_op_complete b e s = Some s' /\ outcome_incl u q s s') as Hfail.
  { intros b e. apply Hh, complete_outcome; done. }
  unfold discover_included_cb. destruct (opcode =? _); [apply Hfail|].
  destruct pdu as [pdu|]; [|apply Hfail]. destruct (_ || _) eqn:E1; [apply Hfail|].
  apply orb_false_iff in E1 as [E1 E2]. destruct pdu as [|n l]; [done|]. cbn [head mbind option_bind].
  destruct (_ || _) eqn:E3; [apply Hfail|]. apply orb_false_iff in E3 as [E3 E4]. simpl in Hp.
  assert (opcode = BT_ATT_OP_READ_BY_TYPE_RSP) as -> by lia.
  destruct (list_result BT_ATT_OP_READ_BY_TYPE_RSP (n :: l) 1 n) as (Hwf1 & Hdl & Hread);
    [by right|unfold element_sizes; simpl; lia|done|lia|lia|].
  after_append. destruct (n =? 6) eqn:E6.
  - rewrite (y_req _ _ Hy1). cbn [mbind option_bind].
    destruct (read_included_ok (rq_results q) (mkResult BT_ATT_OP_READ_BY_TYPE_RSP l (u16 n)) u q1 s1)
      as (s' & E & Ho); try done; try congruence.
    + by rewrite (f_incl _ _ F1).
    + simpl. by apply Z.eqb_eq in E6 as ->.
    + simpl. rewrite zlen_cons in Hdl. lia.
    + exists s'. split; [done|]. by eapply outcome_incl_frame.
  - destruct (Hread 0) as [h Hh0]; [lia|lia|]. rewrite Z.add_0_r in Hh0. rewrite Hh0. cbn [mbind option_bind].
    apply Hh. eapply handles_frame; [done..|]. apply after_last_handle_ok; congruence || done.
Qed.

Definition outcome_read (d u : Z) (q : bt_gatt_request) (s s' : client) : Prop :=
  (exists s1 data1, c_ops s1 = c_ops s /\ c_next_id s <= c_next_id s1 /\ c_events s1 = c_events s /\
     c_incl s1 = {[d := data1]} /\ ri_ref_count data1 = 1 /\ outcome u q s1 s') \/
  (exists q' o' data', continues (rq_callback q) (u + 1) s s' q' o' /\ ao_callback o' = CReadIncluded d /\
     c_incl s' = {[d := data']} /\ ri_ref_count data' = 2 /\ data_ok data' q').

Lemma read_included_cb_ok d data opcode pdu u q s :
  range = None ->
  ready q s -> rq_ref_count q = u + 1 -> 0 <= u -> on_result_ok u -> rq_id q <> 0 ->
  c_incl s = {[d := data]} -> ri_ref_count data = 1 -> data_ok data q ->
  exists s', read_included_cb accepts on_result d opcode pdu s = Some s' /\ outcome_read d u q s s'.
Proof.
  intros Hrange Hy Hr Hu Hok Hid Hi Hd (r & Hlook & Hdl & Hpos & Hmod).
  assert (forall res, handles u q s res -> exists s', res = Some s' /\ outcome_read d u q s s') as Hh.
  { intros res (s' & -> & H). exists s'. split; [done|]. left. exists s, data. by repeat split. }
  assert (forall b e, exists s', discovery_op_complete b e s = Some s' /\ outcome_read d u q s s') as Hfail.
  { intros b e. apply Hh, complete_outcome; done. }
  unfold read_included_cb. destruct (opcode =? _); [apply Hfail|].
  destruct (negb (opcode =? _)) eqn:E0; [apply Hfail|].
  destruct pdu as [pdu|]; [|apply Hfail]. destruct (negb (zlen pdu =? 16)) eqn:E1; [apply Hfail|].
  assert (opcode = BT_ATT_OP_READ_RSP) as -> by lia. assert (zlen pdu = 16) as Hz by lia. rewrite Hz.
  assert (result_wf (mkResult BT_ATT_OP_READ_RSP pdu (u16 16))) as Hwf1.
  { constructor; simpl; rewrite ?Hz; [done|lia|done]. }
  after_append. pose proof (f_incl _ _ F1) as Hi'. rewrite Hi in Hi'.
  assert (rq_results q1 !! ri_result data = Some r) as Hlook1 by (rewrite Hres1; by apply lookup_app_l_Some).
  assert (result_wf r) as [_ Hrp Hrd] by (eapply Forall_lookup_1; [apply Hy|done]). rewrite Hdl in Hrd.
  unfold incl_result. rewrite Hi', lookup_singleton_eq. cbn [mbind option_bind].
  rewrite (y_req _ _ Hy1). cbn [mbind option_bind]. rewrite Hlook1. cbn [mbind option_bind].
  rewrite Hdl. destruct (ri_pos data =? zlen (rs_pdu r)) eqn:Epos.
  - destruct (le16_some (rs_pdu r) (ri_pos data - 6)) as [h ->]; [lia|lia|]. cbn [mbind option_bind].
    apply Hh. eapply handles_frame; [done..|]. destruct (h =? _).
    + apply complete_outcome; congruence || done.
    + by apply send_next_ok; try done; apply sent_none.
  - assert (ri_pos data + 6 <= zlen (rs_pdu r) /\ (ri_pos data + 6) mod 6 = 0) as [Hnext Hmod'].
    { apply Z.mod_divide in Hmod as [a Ha]; [|lia]. apply Z.mod_divide in Hrd as [b Hb]; [|lia].
      split; [lia|]. apply Z.mod_divide; [lia|]. exists (a + 1). lia. }
    rewrite memread_Some by lia. cbn [mbind option_bind].
    unfold send_read, on_incl, read_included_ref, on_incl. rewrite Hi', lookup_singleton_eq. cbn [mbind option_bind].
    rewrite (y_req _ _ Hy1). cbn [mbind option_bind]. rewrite Hlook1. simpl.
    repeat (rewrite ?Hi', ?lookup_singleton_eq, ?lookup_insert_eq; simpl).
    set (data' := mkIncl (ri_result data) (ri_pos data + rs_data_len r)).
    assert (forall n, data_ok (data' n) q1) as Hd'.
    { intros n. exists r. simpl. rewrite Hdl. by split_and!; [..|lia| |]; try lia. }
    unfold bt_att_send. simpl. destruct Hy1 as [Hq1 Hw1 He1 Hn1]. destruct F1 as [F1 F2 F3 F4].
    destruct (accepts (c_next_id s1)); simpl.
    + replace (c_next_id s1 =? 0) with false by lia. simpl. eexists; split; [done|]. right.
      exists q1. do 2 eexists. split; [constructor; simpl|split_and!; simpl].
      1: constructor; simpl; [done|done| |lia]; apply Forall_app; split; [done|]; by repeat constructor.
      all: rewrite ?F1, ?F3, ?F4; try done; try lia; try congruence.
      * simpl. lia.
      * by rewrite frees_app, Nat.add_0_r.
      * by rewrite callbacks_app, Nat.add_0_r.
      * by rewrite !insert_singleton_eq.
      * simpl. lia.
    + unfold read_included_unref. simpl. rewrite lookup_insert_eq. simpl.
      replace (ri_ref_count data + 1 - 1 =? 0) with false by lia. simpl.
      match goal with |- context [discovery_op_complete _ _ ?t] => set (s2 := t) end.
      destruct (complete_outcome false 0 u q1 s2) as (s' & E & Ho);
        [by constructor; simpl; try lia|done|done|done|congruence|].
      exists s'. split; [done|]. left.
      exists s2, (data' (ri_ref_count data)). split_and!; simpl; try congruence; try lia.
      * rewrite !insert_singleton_eq. by replace (ri_ref_count data + 1 - 1) with (ri_ref_count data) by lia.
      * unfold outcome. by rewrite <- Hc1.
Qed.

(** *** The end of an operation *)

(** The operation owns the reference that it gives back when it is destroyed. *)
Definition owns (o : att_operation) (s : client) : Prop :=
  match ao_callback o with
  | CReadIncluded d => exists data, c_incl s = {[d := data]} /\ ri_ref_count data = 1
  | _ => c_incl s = ∅
  end.

Lemma unref_last q s :
  c_req s = Some q -> rq_ref_count q = 1 -> c_ops s = [] ->
  bt_gatt_request_unref s
  = Some (mkClient None [] (c_next_id s) (c_incl s) (c_next_incl s) (c_events s ++ [EFree])).
Proof.
  intros Hq Hr Ho. unfold bt_gatt_request_unref. simpl. rewrite (on_req_eq _ _ _ Hq). simpl. rewrite Hr. simpl.
  unfold bt_gatt_request_cancel, bt_att_cancel. simpl. rewrite Ho. simpl.
  destruct (rq_id q =? 0); simpl; by rewrite ?Ho.
Qed.

Lemma destroy_owned q o s :
  c_req s = Some q -> owns o s -> 1 <= rq_ref_count q -> (rq_ref_count q = 1 -> c_ops s = []) ->
  destroy_op bt_gatt_request_unref (ao_callback o) s
  = Some (if rq_ref_count q =? 1
          then mkClient None [] (c_next_id s) ∅ (c_next_incl s) (c_events s ++ [EFree])
          else mkClient (Some (set_rq_ref_count (rq_ref_count q - 1) q)) (c_ops s) (c_next_id s) ∅
                 (c_next_incl s) (c_events s)).
Proof.
  intros Hq Ho H1 Hops. unfold owns in Ho.
  assert (forall s1, c_req s1 = Some q -> c_ops s1 = c_ops s -> c_next_id s1 = c_next_id s ->
            c_next_incl s1 = c_next_incl s -> c_events s1 = c_events s ->
            bt_gatt_request_unref s1
            = Some (if rq_ref_count q =? 1
                    then mkClient None [] (c_next_id s) (c_incl s1) (c_next_incl s) (c_events s ++ [EFree])
                    else mkClient (Some (set_rq_ref_count (rq_ref_count q - 1) q)) (c_ops s) (c_next_id s)
                           (c_incl s1) (c_next_incl s) (c_events s))) as Hunref.
  { intros s1 E1 E2 E3 E4 E5. destruct (rq_ref_count q =? 1) eqn:E.
    - rewrite (unref_last q) by (done || lia || (rewrite E2; apply Hops; lia)). congruence.
    - rewrite (unref_held q) by (done || lia). simpl. congruence. }
  destruct (ao_callback o); simpl; try (rewrite Hunref by done; by rewrite Ho).
  destruct Ho as (x & Hi & Hx). unfold read_included_unref. rewrite Hi, lookup_singleton_eq. simpl.
  rewrite Hx. simpl. rewrite Hunref by done. simpl.
  destruct (rq_ref_count q =? 1); simpl; by rewrite insert_singleton_eq, delete_singleton_eq.
Qed.

(** A procedure that ends has sent no more. *)
Lemma sent_total cb q s s1 : sent_ok cb q s -> sends (c_events s1) = sends (c_events s) -> total_ok s1.
Proof.
  unfold GattHelpersOk.sent_ok, GattHelpersOk.total_ok. destruct range as [[first last]|]; [|done].
  intros (_ & _ & ? & ? & ? & ?) ->. lia.
Qed.

Lemma sent_same cb q q' s s' :
  sent_ok cb q s -> rq_start_handle q' = rq_start_handle q -> rq_end_handle q' = rq_end_handle q ->
  sends (c_events s') = sends (c_events s) -> sent_ok cb q' s'.
Proof. unfold GattHelpersOk.sent_ok. intros H -> -> ->. done. Qed.

Lemma gone_or_resting cb q o s s1 :
  total_ok s ->
  callbacks (c_events s) = 0%nat -> frees (c_events s) = 0%nat ->
  completed cb 1 s s1 q -> owns o s1 -> c_ops s = [o] ->
  exists s2, destroy_op bt_gatt_request_unref (ao_callback o) (set_c_ops [] s1) = Some s2 /\
    forall c, settled c cb s2.
Proof.
  intros Ht Hc Hf [[Hq Hwf Hev Hn] K1 K2 K3 K4 K5 K6 K7 K8] Ho Hops.
  assert (forall s2, sends (c_events s2) = sends (c_events s1) -> total_ok s2) as Htot.
  { intros s2 E. unfold GattHelpersOk.total_ok in *. by rewrite E, K8. }
  erewrite destroy_owned; [|done|done|done|done]. eexists; split; [done|]. intros c.
  destruct (rq_ref_count q =? 1) eqn:E; simpl; [right|left].
  - constructor; simpl; try done.
    + apply Forall_app; split; [done|]. by repeat constructor.
    + rewrite frees_app, K6, Hf. done.
    + right. rewrite callbacks_app, K7, Hc. apply Nat.add_0_r.
    + apply Htot. simpl. by rewrite sends_app, Z.add_0_r.
  - exists (rq_ref_count q - 1), (set_rq_ref_count (rq_ref_count q - 1) q).
    split; [constructor; simpl; [constructor; simpl|..]|done]; try done; try lia.
    + right. by rewrite K7, Hc, K4.
    + by apply Htot.
Qed.

Lemma still_waiting c cb u ref q o' o s s1 :
  callbacks (c_events s) = 0%nat -> frees (c_events s) = 0%nat -> 0 < c_next_id s -> 0 <= u ->
  continues cb ref s s1 q o' -> owns o s1 -> ref = u + 2 -> c_ops s = [o] ->
  (forall d, ao_callback o' <> CReadIncluded d) -> rq_id q = ao_id o' -> sent_ok (ao_callback o') q s1 ->
  exists s2, destroy_op bt_gatt_request_unref (ao_callback o) (set_c_ops [o'] s1) = Some s2 /\ life c cb s2.
Proof.
  intros Hc Hf Hn Hu [[Hq Hwf Hev Hn1] N1 N2 N3 N4 N5 N6 N7] Ho Hr Hops Hd Hid Hsent.
  erewrite destroy_owned; [|done|done|lia|intros; lia].
  replace (rq_ref_count q =? 1) with false by lia. eexists; split; [done|]. left.
  exists u, (set_rq_ref_count (rq_ref_count q - 1) q), o'. split; [|done].
  constructor; simpl; [constructor; simpl|..]; try done; try lia; try congruence.
  - unfold held_for. simpl. destruct (ao_callback o') eqn:E; try done. by destruct (Hd data).
  - by destruct (ao_callback o').
Qed.

Lemma waiting_read c cb u ref q q2 d data o o' s s1 s2 :
  range = None ->
  callbacks (c_events s) = 0%nat -> frees (c_events s) = 0%nat -> 0 < c_next_id s -> 0 <= u ->
  continues cb ref s s1 q o' -> ao_callback o' = CReadIncluded d ->
  c_req s2 = Some q2 -> rq_results q2 = rq_results q -> rq_id q2 = rq_id q -> rq_callback q2 = cb ->
  rq_ref_count q2 = u + 1 -> c_ops s2 = [o'] -> c_next_id s2 = c_next_id s1 -> c_events s2 = c_events s1 ->
  c_incl s2 = {[d := data]} -> ri_ref_count data = 1 -> data_ok data q -> c_ops s = [o] -> life c cb s2.
Proof.
  intros Hrange Hc Hf Hn Hu [[Hq Hwf Hev Hn1] N1 N2 N3 N4 N5 N6 N7] Ed E1 R1 R2 R3 R4 E2 E3 E4 Hi Hr Hok Hops.
  left. exists u, q2, o'. split; [|done].
  constructor; simpl; [constructor; simpl|..]; rewrite ?E1, ?E2, ?E3, ?E4, ?R1, ?R2; try done; try lia; try congruence.
  - unfold held_for. rewrite Ed. exists data. unfold data_ok. by rewrite R1.
  - by rewrite Ed.
  - by apply sent_none.
Qed.

Definition drop_op (id : Z) (s : client) : option client :=
  match list_find (fun o => ao_id o = id) (c_ops s) with
  | None => Some s
  | Some (_, o) => destroy_op bt_gatt_request_unref (ao_callback o) (remove_op id s)
  end.

Lemma drop_first o rest s :
  c_ops s = o :: rest -> Forall (fun o' => ao_id o' <> ao_id o) rest ->
  drop_op (ao_id o) s = destroy_op bt_gatt_request_unref (ao_callback o) (set_c_ops rest s).
Proof.
  intros Hops Hrest. unfold drop_op, remove_op. rewrite Hops. simpl. rewrite decide_True by done.
  rewrite filter_cons_False by naive_solver. by rewrite filter_Forall.
Qed.

Lemma call_back_direct opcode pdu u q o s :
  ready q s -> rq_ref_count q = u + 1 -> 0 <= u -> on_result_ok u -> rq_id q <> 0 -> pdu_ok pdu ->
  (ao_callback o = CReadByType -> type_list_ok opcode pdu) ->
  (forall d, ao_callback o <> CReadIncluded d) -> c_incl s = ∅ -> sent_ok (ao_callback o) q s ->
  exists s', call_back accepts on_result (ao_callback o) opcode pdu s = Some s' /\
    (outcome u q s s' \/ (range = None /\ outcome_incl u q s s')).
Proof.
  intros Hy Hr Hu Hok Hid Hp Ht Hd Hi Hsent.
  assert (forall r, handles u q s r -> exists s', r = Some s' /\
      (outcome u q s s' \/ (range = None /\ outcome_incl u q s s'))) as Hh.
  { intros r (s' & -> & H). exists s'. split; [done|by left]. }
  assert (is_service (ao_callback o) = false -> range = None) as Hother.
  { unfold GattHelpersOk.sent_ok in Hsent. destruct range as [[first last]|]; [|done]. by destruct Hsent as [-> _]. }
  destruct (ao_callback o) eqn:E; simpl.
  - by apply Hh, read_by_grp_type_ok.
  - by apply Hh, find_by_type_val_ok.
  - destruct (discover_included_ok opcode pdu u q s) as (s' & -> & Ho); auto. exists s'; auto.
  - by destruct (Hd data).
  - by apply Hh, discover_chrcs_ok; auto.
  - by apply Hh, read_by_type_ok; auto.
  - by apply Hh, discover_descs_ok; auto.
Qed.

Lemma deliver_ok c cb id opcode pdu u q o s :
  waiting u s q o -> rq_callback q = cb -> on_result_ok u -> pdu_ok pdu ->
  (ao_callback o = CReadByType -> type_list_ok opcode pdu) ->
  exists s', deliver accepts on_result id opcode pdu s = Some s' /\ life c cb s'.
Proof.
  intros Hw Hcb Hok Hp Ht. pose proof Hw as [[Hq Hwf Hev Hn Hf] Hops Hid Hr Hu Hh Hrun Hcur Hc Hsent].
  unfold deliver. rewrite Hops. simpl. destruct (decide (ao_id o = id)) as [<-|].
  2: { exists s. split; [done|]. left. by exists u, q, o. }
  assert (forall s0 s1 ref q' o', c_ops s0 = [o] -> ao_id o < c_next_id s0 -> continues cb ref s0 s1 q' o' ->
            drop_op (ao_id o) s1 = destroy_op bt_gatt_request_unref (ao_callback o) (set_c_ops [o'] s1)) as Hdrop.
  { intros s0 s1 ref q' o' E1 E2 Hk. apply drop_first; [by rewrite (n_ops _ _ _ _ _ _ Hk), E1|].
    constructor; [|constructor]. pose proof (n_id _ _ _ _ _ _ Hk). lia. }
  assert (forall s0 s1, c_ops s0 = c_ops s -> c_next_id s <= c_next_id s0 -> c_events s0 = c_events s ->
            outcome u q s0 s1 -> owns o s0 -> exists s', drop_op (ao_id o) s1 = Some s' /\ life c cb s') as Hout.
  { intros s0 s1 E1 E2 E3 [(q' & Hk)|(q' & o' & Hk & Hi & Hcur' & Hd & Hsent')] Ho; rewrite Hcb, ?Hops, <- E3 in *.
    - rewrite (drop_first o []) by (rewrite ?(k_ops _ _ _ _ _ Hk); done).
      destruct (gone_or_resting cb q' o s0 s1) as (s2 & -> & Hl);
        [by eapply sent_total; [|by rewrite E3]|done..| |done|exists s2; split; [done|by right]].
      unfold owns in *. by rewrite (k_incl _ _ _ _ _ Hk).
    - rewrite (Hdrop s0 _ _ _ _ E1 ltac:(lia) Hk).
      eapply (still_waiting c cb u); [done..|lia|done|done| |done|done|done|done|done].
      unfold owns in *. by rewrite Hi. }
  assert (is_service (ao_callback o) = false -> range = None) as Hother.
  { unfold GattHelpersOk.sent_ok in Hsent. destruct range as [[first last]|]; [|done]. by destruct Hsent as [-> _]. }
  unfold held_for in Hh. destruct (decide (isSome (match ao_callback o with CReadIncluded d => Some d | _ => None end)))
    as [Hd|Hd].
  - destruct (ao_callback o) as [| | |d| | |] eqn:Ed; try done. destruct Hh as (data & Hi & Hone & Hdata).
    specialize (Hother eq_refl).
    destruct (read_included_cb_ok d data opcode pdu u q s) as (s1 & E & Ho); [done..|].
    simpl. rewrite E. cbn [mbind option_bind]. fold (drop_op (ao_id o) s1).
    destruct Ho as [(s0 & data1 & F1 & F2 & F3 & F4 & F5 & Ho)|(q' & o' & data' & Hk & Eo' & Hi' & Htwo & Hdata')].
    + apply (Hout s0); try done. unfold owns. rewrite Ed. by exists data1.
    + rewrite Hcb in Hk. rewrite (Hdrop s _ _ _ _ Hops ltac:(lia) Hk). simpl. unfold read_included_unref. simpl.
      rewrite Hi', lookup_singleton_eq. simpl. rewrite Htwo. simpl. eexists. split; [done|].
      eapply (waiting_read c cb u _ q' q' d (mkIncl (ri_result data') (ri_pos data') 1) o o' s s1);
        try apply Hk; try done; simpl; by rewrite ?insert_singleton_eq.
  - destruct (call_back_direct opcode pdu u q o s) as (s1 & E & Ho); [done..| | |done|].
    + intros d Ed. by rewrite Ed in Hd.
    + by destruct (ao_callback o).
    + rewrite E. cbn [mbind option_bind]. fold (drop_op (ao_id o) s1).
      assert (owns o s) as Hown by (unfold owns; by destruct (ao_callback o)).
      destruct Ho as [Ho|[Hrange [Ho|(q' & o' & d & data & Hk & Eo' & Hi' & Hone & Hdata)]]]; try (by apply (Hout s)).
      rewrite Hcb in Hk. rewrite (Hdrop s _ _ _ _ Hops ltac:(lia) Hk).
      pose proof (y_req _ _ (n_ready _ _ _ _ _ _ Hk)) as Hq'. pose proof (n_ref _ _ _ _ _ _ Hk).
      assert (destroy_op bt_gatt_request_unref (ao_callback o) (set_c_ops [o'] s1)
              = bt_gatt_request_unref (set_c_ops [o'] s1)) as -> by (by destruct (ao_callback o)).
      rewrite (unref_held q') by (done || lia). eexists; split; [done|].
      eapply (waiting_read c cb u _ q' (set_rq_ref_count (rq_ref_count q' - 1) q') d data o o' s s1);
        try apply Hk; try done; simpl; lia.
Qed.

(** *** The calls of the user *)

(** The references the user holds. *)
Definition held (s : client) : Z :=
  match c_req s with Some q => rq_ref_count q - Z.of_nat (length (c_ops s)) | None => 0 end.

Definition reads_included (o : att_operation) : Prop := isSome (match ao_callback o with CReadIncluded d => Some d | _ => None end).

(** What may happen: the user calls on references he has, cancels only outside
    the callback, not while a UUID is being read and not while the transport handles a disconnection, and the answer
    to a Read By Type request is not one that crashes the client. *)
Definition op_guard (o : client_op) (s : client) : Prop :=
  match o with
  | Deliver id opcode pdu =>
      on_result_ok (held s) /\ pdu_ok pdu /\
      (Exists (fun o => ao_callback o = CReadByType) (c_ops s) -> type_list_ok opcode pdu)
  | User (UCancel found) => found = true /\ 0 < held s /\ Forall (fun o => ~ reads_included o) (c_ops s)
  | User _ => 0 < held s
  end.

Definition is_cancel (o : client_op) : bool := match o with User (UCancel _) => true | _ => false end.

Lemma base_same q q' s :
  base q s -> rq_results q' = rq_results q -> base q' (set_c_req (Some q') s).
Proof. intros [] E. constructor; simpl; try done. congruence. Qed.

Lemma answered_weaken c c' cb l : (c = true -> c' = true) -> answered_events c cb l -> answered_events c' cb l.
Proof. intros H [[-> ?]|?]; [left; auto|by right]. Qed.

Lemma held_waiting u s q o : waiting u s q o -> held s = u.
Proof. intros [[Hq _ _ _ _] Hops _ Hr _ _ _ _ _ _]. unfold held. rewrite Hq, Hops. simpl. lia. Qed.
Lemma held_resting c u s q : resting c u s q -> held s = u.
Proof. intros [[Hq _ _ _ _] Hops _ Hr _ _ _]. unfold held. rewrite Hq, Hops. simpl. lia. Qed.

Lemma waiting_count c cb u u' s q o :
  waiting u s q o -> rq_callback q = cb -> 0 <= u' -> life c cb (set_c_req (Some (set_rq_ref_count (u' + 1) q)) s).
Proof.
  intros [Hb Hops Hid Hr Hu Hh Hrun Hcur Hc Hsent] Hcb Hu'. left.
  exists u', (set_rq_ref_count (u' + 1) q), o. split; [|done].
  constructor; simpl; try done. by eapply base_same.
Qed.

Lemma resting_count c cb u u' s q :
  resting c u s q -> rq_callback q = cb -> 0 < u' -> life c cb (set_c_req (Some (set_rq_ref_count u' q)) s).
Proof.
  intros [Hb Hops Hi Hr Hu Hc Ht] Hcb Hu'. right; left.
  exists u', (set_rq_ref_count u' q). split; [|done].
  constructor; simpl; try done. by eapply base_same.
Qed.

Lemma user_call_ok uc c cb s :
  life c cb s -> op_guard (User uc) s ->
  exists s', user_call_step uc s = Some s' /\ life (c || is_cancel (User uc)) cb s'.
Proof.
  intros [(u & q & o & Hw & Hcb)|[(u & q & Hr & Hcb)|Hg]] Hguard.
  - pose proof (held_waiting _ _ _ _ Hw) as Hh.
    pose proof Hw as [[Hq Hwf Hev Hn Hf] Hops Hid Href Hu Hheld Hrun Hcur Hc Hsent].
    destruct uc; simpl in *.
    + unfold bt_gatt_request_ref. rewrite (on_req_eq _ _ _ Hq). eexists; split; [done|].
      rewrite Href. by eapply (waiting_count _ cb u (u + 1)); [..|lia].
    + rewrite (unref_held q) by (done || lia). eexists; split; [done|]. rewrite Href.
      replace (u + 1 - 1) with (u - 1 + 1) by lia. by eapply (waiting_count _ cb u (u - 1)); [..|lia].
    + destruct Hguard as (-> & Hpos & Hno). rewrite Hops in Hno. apply Forall_cons in Hno as [Hno _].
      unfold bt_gatt_request_cancel, bt_att_cancel. rewrite Hq. cbn [mbind option_bind].
      replace (rq_id q =? 0) with false by lia. rewrite Hops. simpl.
      assert (rq_id q = ao_id o /\ c_incl s = ∅ /\
        forall s1, destroy_op bt_gatt_request_unref (ao_callback o) s1 = bt_gatt_request_unref s1) as (Eid & Hi & Hd).
      { unfold reads_included, held_for in *. destruct (ao_callback o); done. }
      rewrite decide_True by done. simpl. rewrite Hd. rewrite (unref_held q) by (done || lia). unfold on_req. simpl. eexists. split; [done|].
      right; left. exists u, (set_rq_id 0 (set_rq_ref_count (rq_ref_count q - 1) q)). split; [|done].
      constructor; simpl; try done; try lia.
      * rewrite Hops, filter_cons_False, filter_nil by naive_solver. done.
      * left. by rewrite orb_true_r.
      * by eapply sent_total.
  - pose proof (held_resting _ _ _ _ Hr) as Hh. pose proof Hr as [[Hq Hwf Hev Hn Hf] Hops Hi Href Hu Hc Ht].
    destruct uc; simpl in *; rewrite ?orb_false_r.
    + unfold bt_gatt_request_ref. rewrite (on_req_eq _ _ _ Hq). eexists; split; [done|].
      eapply resting_count; [done..|lia].
    + destruct (decide (u = 1)) as [->|].
      * rewrite (unref_last q) by done. eexists; split; [done|]. right; right.
        constructor; simpl; try done.
        -- apply Forall_app; split; [done|]. by repeat constructor.
        -- by rewrite frees_app, Hf.
        -- unfold answered_events in *. rewrite callbacks_app, <- Hcb. by rewrite Nat.add_0_r.
        -- unfold GattHelpersOk.total_ok in *. simpl. by rewrite sends_app, Z.add_0_r.
      * rewrite (unref_held q) by (done || lia). eexists; split; [done|]. eapply resting_count; [done..|lia].
    + destruct Hguard as (-> & _). unfold bt_gatt_request_cancel, bt_att_cancel. rewrite Hq. cbn [mbind option_bind negb].
      destruct (rq_id q =? 0); [|rewrite Hops; simpl; rewrite (on_req_eq _ _ _ Hq)]; eexists; (split; [done|]).
      all: right; left; exists u; eexists; (split; [constructor; simpl; [constructor; simpl|..]|]); try done.
      all: try (eapply answered_weaken; [|done]); by rewrite orb_true_r.
  - exfalso. destruct Hg as [Hq _ _ _ _ _ _]. destruct uc; unfold op_guard, held in Hguard; rewrite Hq in Hguard; lia || by destruct Hguard as (_ & [] & _).
Qed.

(** *** Runs *)

Lemma client_step_ok o c cb s :
  life c cb s -> op_guard o s -> exists s', client_step accepts on_result o s = Some s' /\ life (c || is_cancel o) cb s'.
Proof.
  intros Hl Hg. destruct o as [id opcode pdu|uc]; [|by apply user_call_ok]. simpl. rewrite orb_false_r.
  assert (c_ops s = [] -> deliver accepts on_result id opcode pdu s = Some s) as Hnone.
  { intros E. unfold deliver. by rewrite E. }
  destruct Hl as [(u & q & o & Hw & Hcb)|Hl]; [|exists s; split; [|by right]].
  - destruct Hg as (H1 & H2 & H3). rewrite (held_waiting _ _ _ _ Hw) in H1.
    eapply (deliver_ok c cb id opcode pdu u q o s); try done. intros Et. apply H3.
    rewrite (w_ops _ _ _ _ _ Hw). by constructor.
  - apply Hnone. destruct Hl as [(u & q & Hr & _)|Hr]; apply Hr.
Qed.

Fixpoint guarded (os : list client_op) (s : client) : Prop :=
  match os with
  | [] => True
  | o :: os' =>
      op_guard o s /\
      match client_step accepts on_result o s with Some s' => guarded os' s' | None => False end
  end.

Lemma run_life os : forall c cb s, life c cb s -> guarded os s ->
  exists s', client_run accepts on_result os s = Some s' /\ life (c || existsb is_cancel os) cb s'.
Proof.
  induction os as [|o os IH]; intros c cb s Hl Hg; simpl in *.
  - exists s. by rewrite orb_false_r.
  - destruct Hg as [Hg Hrest]. destruct (client_step_ok o c cb s Hl Hg) as (s1 & E & Hl1).
    rewrite E in *. simpl. destruct (IH _ _ _ Hl1 Hrest) as (s2 & E2 & Hl2). exists s2. by rewrite orb_assoc.
Qed.

(** The functions that start a request. *)
Inductive procedure :=
| PServices (uuid : option bt_uuid) (start stop : Z) (primary : bool)
| PIncluded (start stop : Z)
| PCharacteristics (start stop : Z)
| PReadByType (start stop : Z) (uuid : bt_uuid)
| PDescriptors (start stop : Z).

Definition start_procedure (p : procedure) (callback : bool) : option (bool * client) :=
  match p with
  | PServices uuid start stop primary => discover_services accepts uuid start stop callback primary
  | PIncluded start stop => bt_gatt_discover_included_services accepts start stop callback
  | PCharacteristics start stop => bt_gatt_discover_characteristics accepts start stop callback
  | PReadByType start stop uuid => bt_gatt_read_by_type accepts start stop uuid callback
  | PDescriptors start stop => bt_gatt_discover_descriptors accepts start stop callback
  end.

Definition procedure_range (p : procedure) : option (Z * Z) :=
  match p with PServices _ start stop _ => Some (start, stop) | _ => None end.

Lemma start_ok opcode pdu cb q :
  rq_results q = [] -> rq_ref_count q = 0 -> (forall d, cb <> CReadIncluded d) ->
  (forall s, sends (c_events s) = 1 -> sent_ok cb q s) ->
  exists s, start_request accepts opcode pdu cb q = Some (accepts 1, s) /\
    if accepts 1 then waiting 0 s (set_rq_id 1 (set_rq_ref_count 1 q)) (mkAttOp 1 cb)
    else c_req s = None /\ c_ops s = [].
Proof.
  intros Hres Hr Hcb Hs. unfold start_request, bt_gatt_request_ref, on_req, bt_att_send. simpl. rewrite Hr.
  destruct (accepts 1); simpl; eexists; (split; [reflexivity|]); simpl; [|done].
  constructor; simpl; [constructor; simpl|..]; rewrite ?Hres; try done.
  - by repeat constructor.
  - unfold held_for. simpl. destruct cb; try done. by destruct (Hcb data).
  - by destruct cb.
  - by eapply sent_same; [apply (Hs (mkClient None [] 1 ∅ 1 [ESend opcode pdu]))|..].
Qed.

Lemma returned_ok opcode pdu cb q :
  rq_results q = [] -> rq_ref_count q = 0 -> (forall d, cb <> CReadIncluded d) ->
  (forall s, sends (c_events s) = 1 -> sent_ok cb q s) ->
  exists s, returned (start_request accepts opcode pdu cb q) = Some (accepts 1, s) /\
    if accepts 1 then waiting 1 s (set_rq_id 1 (set_rq_ref_count 2 q)) (mkAttOp 1 cb)
    else c_req s = None /\ c_ops s = [].
Proof.
  intros Hres Hr Hcb Hsent. destruct (start_ok opcode pdu cb q Hres Hr Hcb Hsent) as (s & E & Hs).
  unfold returned. rewrite E. cbn [mbind option_bind]. destruct (accepts 1); [|by exists s].
  pose proof Hs as [Hb Hops Hid Href Hu Hh Hrun Hcur Hc Hsent'].
  unfold bt_gatt_request_ref. rewrite (on_req_eq _ _ _ (b_req _ _ Hb)). eexists; split; [done|].
  constructor; simpl; try done. by eapply base_same.
Qed.

(** The life of a started request: the user has one reference, none for
    [bt_gatt_read_by_type]. *)
Lemma procedure_ok p cb :
  range = procedure_range p ->
  match p with PServices _ start stop _ => 0 <= start /\ stop <= 65535 | _ => True end ->
  exists b s, start_procedure p cb = Some (b, s) /\
    if b : bool then exists u q o, waiting u s q o /\ rq_callback q = cb /\ rq_results q = []
    else c_req s = None /\ c_ops s = [].
Proof.
  intros Hrange Hbounds.
  assert (forall r u q o, (exists s, r = Some (accepts 1, s) /\
      if accepts 1 then waiting u s q o else c_req s = None /\ c_ops s = []) ->
    rq_callback q = cb -> rq_results q = [] ->
    exists b s, r = Some (b, s) /\
      if b : bool then exists u q o, waiting u s q o /\ rq_callback q = cb /\ rq_results q = []
      else c_req s = None /\ c_ops s = []) as H.
  { intros r u q o (s & -> & Hs) H1 H2. exists (accepts 1), s. split; [done|].
    destruct (accepts 1); [|done]. by exists u, q, o. }
  assert (forall cb q s, range = None -> sends (c_events s) = 1 -> sent_ok cb q s) as Hnone
    by (intros ? ? ? ? _; by apply sent_none).
  destruct p as [[v|] start stop primary|start stop|start stop|start stop v|start stop]; simpl in *.
  all: unfold discover_services, bt_gatt_discover_included_services, bt_gatt_discover_characteristics,
    bt_gatt_read_by_type, bt_gatt_discover_descriptors.
  all: try (destruct v; try (by eexists false, _)).
  all: eapply H; [(apply returned_ok || apply start_ok); [done..|]| |]; try done.
  all: intros s Hs; try (by apply Hnone).
  all: unfold GattHelpersOk.sent_ok; rewrite Hrange, Hs; simpl; split_and!; try done; try lia; by left.
Qed.

End Life.

(** ** The theorems *)

Definition bounds_ok (p : procedure) : Prop :=
  match p with PServices _ start stop _ => 0 <= start /\ stop <= 65535 | _ => True end.

(** C26. The life of a request.  The user uses references he has and cancels only outside the callback, not while a UUID is being
    read and not while the transport handles a disconnection (each of these loses a reference, see [cancel_drops_a_reference]); the
    server answers what it likes, except that an answer to a Read By Type request of [bt_gatt_read_by_type] that is not an error has an element length of 2
    at least and something behind it (the others crash the client, see [read_by_type_crashes]).  Then no freed
    request is used and no response is read beyond its end; the callback is called
    at most once, and exactly once when the transport is done with the request,
    unless it was cancelled; the request is freed when nobody has a reference any
    more, once; the results handed over are lists of elements of the right size. *)
Theorem request_lives accepts on_result p cb os :
  bounds_ok p ->
  exists b s, start_procedure accepts p cb = Some (b, s) /\
    (b = false -> c_req s = None /\ c_ops s = []) /\
    (b = true -> guarded accepts on_result os s ->
     exists s', client_run accepts on_result os s = Some s' /\
       (callbacks (c_events s') <= 1 /\ frees (c_events s') <= 1)%nat /\
       (c_req s' = None <-> frees (c_events s') = 1%nat) /\
       (c_ops s' <> [] -> callbacks (c_events s') = 0%nat /\ c_req s' <> None) /\
       (c_ops s' = [] -> existsb is_cancel os = false -> callbacks (c_events s') = Nat.b2n cb) /\
       (c_ops s' = [] -> c_incl s' = ∅ /\ (held s' = 0 -> frees (c_events s') = 1%nat)) /\
       Forall event_ok (c_events s')).
Proof.
  intros Hb. destruct (procedure_ok accepts (procedure_range p) p cb eq_refl Hb) as (b & s & E & Hs).
  exists b, s. split; [done|]. split; [by intros ->|]. intros -> Hg.
  destruct Hs as (u & q & o & Hw & Hcb & _).
  destruct (run_life accepts on_result (procedure_range p) os false cb s) as (s' & E' & Hl);
    [left; by exists u, q, o|done|].
  exists s'. split; [done|]. simpl in Hl.
  destruct Hl as [(u' & q' & o' & Hw' & Hcb')|[(u' & q' & Hr & Hcb')|Hgone]].
  - pose proof (held_waiting _ _ _ _ _ Hw') as Hh. destruct Hw' as [[Hq Hwf Hev Hn Hf] Hops _ _ _ _ _ _ Hc _].
    rewrite Hops, Hf, Hc, Hq. by split_and!; try lia.
  - pose proof (held_resting _ _ _ _ _ Hr) as Hh. destruct Hr as [[Hq Hwf Hev Hn Hf] Hops Hi _ Hu Hc _].
    rewrite Hcb' in Hc. rewrite Hops, Hf, Hq, Hi.
    destruct Hc as [[Hex Hc]|Hc]; rewrite Hc; destruct cb; simpl; split_and!; intros; try split; try done; try lia; congruence.
  - destruct Hgone as [Hq Hops Hi Hev Hf Hc _]. rewrite Hops, Hf, Hq, Hi.
    destruct Hc as [[Hex Hc]|Hc]; rewrite Hc; destruct cb; simpl; split_and!; intros; try split; try done; try lia; congruence.
Qed.

(** C27. Discovering services ends.  Whatever the server answers, the discovery of the
    services between two handles sends at most one request for each handle: every
    answer that leads to another request moves the start of the range up. *)
Theorem service_discovery_ends accepts on_result uuid start stop primary cb os s s' :
  0 <= start -> stop <= 65535 ->
  discover_services accepts uuid start stop cb primary = Some (true, s) ->
  guarded accepts on_result os s -> client_run accepts on_result os s = Some s' ->
  sends (c_events s') <= Z.max 1 (stop - start + 1).
Proof.
  intros H1 H2 E Hg Hrun.
  destruct (procedure_ok accepts (Some (start, stop)) (PServices uuid start stop primary) cb)
    as (b & s0 & E0 & Hs); [done|done|]. simpl in E0. rewrite E in E0. simplify_eq.
  destruct Hs as (u & q & o & Hw & Hcb & _).
  destruct (run_life accepts on_result (Some (start, stop)) os false cb s0) as (s1 & E1 & Hl);
    [left; by exists u, q, o|done|]. simplify_eq.
  destruct Hl as [(u' & q' & o' & Hw' & _)|[(u' & q' & Hr & _)|Hgone]].
  - destruct (w_sent _ _ _ _ _ Hw') as (_ & _ & ? & ? & ? & ?). lia.
  - apply Hr.
  - apply Hgone.
Qed.

(** The last handle in every answer: a characteristic at 0xffff. *)
Definition hostile : list Z := [7; 0xff; 0xff; 2; 0; 0; 0; 0x2a].

Definition endless (n : nat) : list client_op :=
  map (fun i => Deliver i BT_ATT_OP_READ_BY_TYPE_RSP (Some hostile)) (seqZ 1 (Z.of_nat n)).

Lemma hostile_step on_result i q s :
  0 < i -> c_req s = Some q -> c_ops s = [mkAttOp i CDiscoverChrcs] -> c_next_id s = i + 1 ->
  rq_start_handle q <= 65535 -> rq_end_handle q <> 65535 -> rq_ref_count q = 2 ->
  exists s' q', deliver (fun _ => true) on_result i BT_ATT_OP_READ_BY_TYPE_RSP (Some hostile) s = Some s' /\
    c_req s' = Some q' /\ c_ops s' = [mkAttOp (i + 1) CDiscoverChrcs] /\ c_next_id s' = i + 1 + 1 /\
    rq_start_handle q' <= 65535 /\ rq_end_handle q' = rq_end_handle q /\ rq_ref_count q' = 2 /\
    zlen (rq_results q') = zlen (rq_results q) + 1 /\ sends (c_events s') = sends (c_events s) + 1.
Proof.
  intros Hi Hq Hops Hnext Hs He Hr. unfold deliver. rewrite Hops. simpl. rewrite decide_True by done. simpl.
  change (discover_chrcs_cb (fun _ => true) on_result BT_ATT_OP_READ_BY_TYPE_RSP (Some hostile) s)
    with (s ← result_append BT_ATT_OP_READ_BY_TYPE_RSP (drop 1 hostile) 7 s;
          after_last_handle (fun _ => true) on_result BT_ATT_OP_READ_BY_TYPE_REQ
            (fun q => handle_range q ++ put_le16 GATT_CHARAC_UUID) CDiscoverChrcs 65535 s).
  unfold result_append, after_last_handle. rewrite (on_req_eq _ _ _ Hq). simpl.
  replace (65535 <? rq_start_handle q) with false by lia. simpl.
  change (match rq_end_handle q with Z.pos p => (65535 =? p)%positive | _ => false end)
    with (65535 =? rq_end_handle q). replace (65535 =? rq_end_handle q) with false by lia. simpl.
  unfold send_next, bt_gatt_request_ref, on_req, bt_att_send. simpl. rewrite Hnext.
  replace (i + 1 =? 0) with false by lia. simpl. rewrite Hops. simpl. rewrite decide_True by done. simpl.
  erewrite unref_held; [|reflexivity|simpl; lia]. simpl. do 2 eexists. split; [done|]. simpl.
  rewrite filter_cons_False by naive_solver. rewrite filter_cons_True by (simpl; lia).
  rewrite filter_nil. split_and!; [done..| | | | | |]; simpl; rewrite ?zlen_app, ?sends_app; done || lia.
Qed.

(** Discovering characteristics need not end.  A server that answers every request
    with a characteristic at the last handle keeps the client asking for ever, and
    storing the answers, although the code stops when the handles do not increase
    to avoid just that: the start of the range wraps to 0, and the procedure ends
    only at the end handle of the request. *)
Theorem characteristics_never_end on_result cb start stop n :
  0 <= start <= 65535 -> 0 <= stop < 65535 ->
  exists s s' q, bt_gatt_discover_characteristics (fun _ => true) start stop cb = Some (true, s) /\
    client_run (fun _ => true) on_result (endless n) s = Some s' /\
    c_req s' = Some q /\ c_ops s' = [mkAttOp (Z.of_nat n + 1) CDiscoverChrcs] /\
    sends (c_events s') = Z.of_nat n + 1 /\ zlen (rq_results q) = Z.of_nat n.
Proof.
  intros Hstart Hstop.
  assert (forall n i q s, 0 < i -> c_req s = Some q -> c_ops s = [mkAttOp i CDiscoverChrcs] ->
    c_next_id s = i + 1 -> rq_start_handle q <= 65535 -> rq_end_handle q <> 65535 -> rq_ref_count q = 2 ->
    exists s' q', client_run (fun _ => true) on_result
        (map (fun i => Deliver i BT_ATT_OP_READ_BY_TYPE_RSP (Some hostile)) (seqZ i (Z.of_nat n))) s = Some s' /\
      c_req s' = Some q' /\ c_ops s' = [mkAttOp (i + Z.of_nat n) CDiscoverChrcs] /\
      sends (c_events s') = sends (c_events s) + Z.of_nat n /\
      zlen (rq_results q') = zlen (rq_results q) + Z.of_nat n) as H.
  { clear n. induction n as [|n IH]; intros i q s Hi Hq Hops Hn Hs He Hr.
    - exists s, q. simpl. rewrite !Z.add_0_r. done.
    - destruct (hostile_step on_result i q s) as (s1 & q1 & E & Hq1 & Hops1 & Hn1 & Hs1 & He1 & Hr1 & Hz & Hse); [done..|].
      rewrite seqZ_cons by lia. simpl. rewrite E. simpl.
      replace (Z.pred (Z.of_nat (S n))) with (Z.of_nat n) by lia.
      destruct (IH (Z.succ i) q1 s1) as (s2 & q2 & E2 & Hq2 & Hops2 & Hse2 & Hz2); try done; try lia; try congruence.
      exists s2, q2. split_and!; try done; try lia. rewrite Hops2. do 2 f_equal. lia. }
  unfold bt_gatt_discover_characteristics, returned, start_request. simpl.
  match goal with |- context [Some (true, ?t)] =>
    edestruct (H n 1 ltac:(let q := eval simpl in (c_req t) in match q with Some ?q => exact q end) t) as (s' & q' & E & Hq & Hops & Hse & Hz);
      [lia|reflexivity|reflexivity|done|simpl; lia|simpl; lia|done|]; exists t, s', q' end.
  split; [done|]. split; [exact E|].
  split_and!; [done|by rewrite Hops, Z.add_comm|by rewrite Hse, Z.add_comm|done].
Qed.

(** Cancelling at the wrong time gives a reference away.  A user who cancels a
    request from inside its callback, while the UUID of an included service is
    being read, or from another client function while the transport handles a disconnection and does not find the operation any more,
    loses the reference he holds: the request is freed with the
    operation, and giving the reference back then uses freed memory. *)
Theorem cancel_drops_a_reference :
  let always := fun _ : Z => true in
  (exists s s', bt_gatt_discover_descriptors always 1 0xffff true = Some (true, s) /\ held s = 1 /\
     client_run always (fun _ _ _ => [UCancel true]) [Deliver 1 BT_ATT_OP_ERROR_RSP None] s = Some s' /\
     c_req s' = None /\ bt_gatt_request_unref s' = None) /\
  (exists s s', bt_gatt_discover_included_services always 1 0xffff true = Some (true, s) /\ held s = 1 /\
     client_run always (fun _ _ _ => [])
       [Deliver 1 BT_ATT_OP_READ_BY_TYPE_RSP (Some [6; 2; 0; 0x10; 0; 0x1f; 0]); User (UCancel true);
        Deliver 2 BT_ATT_OP_ERROR_RSP None] s = Some s' /\
     c_req s' = None /\ bt_gatt_request_unref s' = None) /\
  (exists s s', bt_gatt_discover_descriptors always 1 0xffff true = Some (true, s) /\ held s = 1 /\
     client_run always (fun _ _ _ => []) [User (UCancel false); Deliver 1 BT_ATT_OP_ERROR_RSP None] s = Some s' /\
     callbacks (c_events s') = 1%nat /\ c_req s' = None /\ bt_gatt_request_unref s' = None).
Proof.
  split; [|split]; do 2 eexists; repeat (split; [vm_compute; reflexivity|]); vm_compute; reflexivity.
Qed.

(** A server crashes the client.  [read_by_type_cb] does not test the length of
    an element before it divides by it, nor that there is an element: an answer
    with the length 0 divides by zero, and one that ends behind the length reads
    the last handle in front of the answer. *)
Theorem read_by_type_crashes on_result start stop uuid cb s l :
  let always := fun _ : Z => true in
  bt_gatt_read_by_type always start stop uuid cb = Some (true, s) ->
  deliver always on_result 1 BT_ATT_OP_READ_BY_TYPE_RSP (Some (0 :: l)) s = None /\
  (forall n, 0 < n -> deliver always on_result 1 BT_ATT_OP_READ_BY_TYPE_RSP (Some [n]) s = None) /\
  deliver always on_result 1 BT_ATT_OP_READ_BY_TYPE_RSP (Some []) s = None.
Proof.
  intros always E.
  assert (exists q, c_req s = Some q /\ c_ops s = [mkAttOp 1 CReadByType]) as (q & Hq & Hops).
  { destruct uuid; [done|..]; injection E as <-; by eexists. }
  assert (forall pdu, read_by_type_cb always on_result BT_ATT_OP_READ_BY_TYPE_RSP pdu s = None ->
    deliver always on_result 1 BT_ATT_OP_READ_BY_TYPE_RSP pdu s = None) as H.
  { intros pdu H. unfold deliver. rewrite Hops. simpl. by rewrite H. }
  split_and!; [by apply H| |by apply H].
  intros n Hn. apply H. unfold read_by_type_cb. simpl.
  replace (n =? 0) with false by lia.
  unfold result_append. rewrite (on_req_eq _ _ _ Hq). simpl.
  unfold le16_at, memread. rewrite bool_decide_eq_false_2; [done|]. change (zlen [n]) with 1. lia.
Qed.

(** *** An answer to the operation ends the request *)

Lemma error_ends accepts on_result range cb u q o s :
  waiting range u s q o -> rq_callback q = cb -> (forall b e r, is_Some (calls_ok (on_result b e r) u)) ->
  exists s', deliver accepts on_result (ao_id o) BT_ATT_OP_ERROR_RSP None s = Some s' /\ settled range false cb s'.
Proof.
  intros Hw Hcb Hok. pose proof Hw as [[Hq Hwf Hev Hn Hf] Hops Hid Hr Hu Hh Hrun Hcur Hc Hsent].
  assert (call_back accepts on_result (ao_callback o) BT_ATT_OP_ERROR_RSP None s
          = discovery_op_complete on_result false 0 s) as E by (by destruct (ao_callback o)).
  destruct (complete_ok on_result false 0 u 1 q s) as (s1 & q1 & E1 & Hk); [done..|].
  replace (rq_id q =? 0) with false in Hk by lia. rewrite Hcb in Hk.
  unfold deliver. rewrite Hops. simpl. rewrite decide_True by done. rewrite E, E1. cbn [mbind option_bind].
  fold (drop_op (ao_id o) s1). rewrite (drop_first o []) by (rewrite ?(k_ops _ _ _ _ _ Hk); done).
  destruct (gone_or_resting range cb q1 o s s1) as (s2 & -> & Hl); [by eapply sent_total|done..| |done|by exists s2].
  unfold owns. rewrite (k_incl _ _ _ _ _ Hk). unfold held_for in Hh.
  destruct (ao_callback o); try done. destruct Hh as (x & ? & ? & _). by exists x.
Qed.

(** An answer always comes.  While a request has an operation in the transport,
    the error that the transport reports when it is disconnected or times out
    ends it: the callback has then been called exactly once. *)
Theorem request_is_answered accepts on_result p cb os s s' o :
  bounds_ok p -> start_procedure accepts p cb = Some (true, s) ->
  guarded accepts on_result os s -> client_run accepts on_result os s = Some s' ->
  c_ops s' = [o] -> (forall b e r, is_Some (calls_ok (on_result b e r) (held s'))) ->
  exists s'', client_step accepts on_result (Deliver (ao_id o) BT_ATT_OP_ERROR_RSP None) s' = Some s'' /\
    c_ops s'' = [] /\ callbacks (c_events s'') = Nat.b2n cb.
Proof.
  intros Hb E Hg Hrun Hops Hok.
  destruct (procedure_ok accepts (procedure_range p) p cb eq_refl Hb) as (b & s0 & E0 & Hs).
  rewrite E in E0. injection E0 as <- <-.
  destruct Hs as (u & q & o0 & Hw & Hcb & _).
  destruct (run_life accepts on_result (procedure_range p) os false cb s) as (s1 & E1 & Hl);
    [left; by exists u, q, o0|done|]. rewrite Hrun in E1. injection E1 as <-.
  destruct Hl as [(u' & q' & o' & Hw' & Hcb')|Hl].
  - rewrite (held_waiting _ _ _ _ _ Hw') in Hok. pose proof (w_ops _ _ _ _ _ Hw') as Ho. rewrite Hops in Ho. injection Ho as <-.
    destruct (error_ends accepts on_result (procedure_range p) cb u' q' o s' Hw' Hcb' Hok)
      as (s2 & E2 & Hset).
    exists s2. split; [exact E2|].
    destruct Hset as [(u2 & q2 & [_ Hops2 _ _ _ Ha _] & Hcb2)|[_ Hops2 _ _ _ Ha _]].
    + split; [done|]. rewrite Hcb2 in Ha. by destruct Ha as [[? _]|].
    + split; [done|]. by destruct Ha as [[? _]|].
  - destruct Hl as [(u' & q' & [_ Ho _ _ _ _ _] & _)|[_ Ho _ _ _ _ _]]; by rewrite Ho in Hops.
Qed.

(** ** The theorems at work *)

(** Two services in one answer, the rest not found; the user gives the request up
    in the callback. *)
Definition demo_answers : list client_op :=
  [Deliver 1 BT_ATT_OP_READ_BY_GRP_TYPE_RSP (Some [6; 1; 0; 5; 0; 0; 0x18; 6; 0; 9; 0; 1; 0x18]);
   Deliver 2 BT_ATT_OP_ERROR_RSP (Some [0x10; 10; 0; 0x0a])].
Definition demo_release : bool -> Z -> option (list bt_gatt_result) -> list user_call := fun _ _ _ => [UUnref].
Definition demo_accepts : Z -> bool := fun _ => true.
Definition demo_procedure : procedure := PServices None 1 0xffff true.
Definition demo_client : client :=
  match start_procedure demo_accepts demo_procedure true with Some (_, s) => s | None => mkClient None [] 1 ∅ 1 [] end.

(** The guard as a test, for a callback that always does the same. *)
Definition op_guardb (us : list user_call) (o : client_op) (s : client) : bool :=
  match o with
  | Deliver id opcode pdu =>
      isSome (calls_ok us (held s)) &&
      (match pdu with Some l => zlen l <=? 65535 | None => true end) &&
      forallb (fun o => match ao_callback o with CReadByType => false | _ => true end) (c_ops s)
  | User (UCancel found) =>
      found && (0 <? held s) && forallb (fun o => match ao_callback o with CReadIncluded _ => false | _ => true end) (c_ops s)
  | User _ => 0 <? held s
  end.

Fixpoint guardedb accepts (us : list user_call) (os : list client_op) (s : client) : bool :=
  match os with
  | [] => true
  | o :: os' =>
      op_guardb us o s &&
      match client_step accepts (fun _ _ _ => us) o s with Some s' => guardedb accepts us os' s' | None => false end
  end.

Lemma client_guardedb_ok accepts us os s : guardedb accepts us os s = true -> guarded accepts (fun _ _ _ => us) os s.
Proof.
  revert s; induction os as [|o os IH]; intros s H; simpl in *; [done|].
  apply andb_prop in H as [H1 H2]. split.
  - destruct o as [id opcode pdu|[]]; simpl in *; try lia.
    + apply andb_prop in H1 as [H1 H3]. apply andb_prop in H1 as [H1 H4]. split_and!.
      * intros _ _ _. by destruct (calls_ok us (held s)); [eexists|].
      * destruct pdu; simpl; [lia|done].
      * intros Hex. exfalso. apply Exists_exists in Hex as (o & Hin & Ho).
        rewrite forallb_forall in H3. apply list_elem_of_In in Hin. specialize (H3 _ Hin). by rewrite Ho in H3.
    + apply andb_prop in H1 as [H1 H3]. apply andb_prop in H1 as [H1 H4]. split; [done|]. split; [lia|]. apply Forall_forall. intros o Hin Ho.
      rewrite forallb_forall in H3. apply list_elem_of_In in Hin. specialize (H3 _ Hin).
      unfold reads_included in Ho. by destruct (ao_callback o).
  - destruct (client_step _ _ _ _); [by apply IH|done].
Qed.

Lemma demo_client_guarded : guarded demo_accepts demo_release demo_answers demo_client.
Proof. apply client_guardedb_ok. vm_compute. reflexivity. Qed.

Lemma request_lives_witness :
  exists b s, start_procedure demo_accepts demo_procedure true = Some (b, s) /\
    (b = true -> exists s', client_run demo_accepts demo_release demo_answers s = Some s' /\
       frees (c_events s') = 1%nat /\ callbacks (c_events s') = 1%nat).
Proof.
  destruct (request_lives demo_accepts demo_release demo_procedure true demo_answers) as (b & s & E & _ & H);
    [vm_compute; split; discriminate|].
  exists b, s. split; [exact E|]. intros Hb. specialize (H Hb). injection E as <- <-.
  destruct (H demo_client_guarded) as (s' & E' & _ & _ & H1 & H2 & H3 & _). exists s'. split; [exact E'|].
  injection E' as <-. split; [apply H3; reflexivity|apply H2; reflexivity].
Defined.

Lemma service_discovery_ends_witness :
  exists s', client_run demo_accepts demo_release demo_answers demo_client = Some s' /\ sends (c_events s') <= 65535.
Proof.
  eexists. split; [vm_compute; reflexivity|].
  eapply (service_discovery_ends demo_accepts demo_release None 1 0xffff true true demo_answers demo_client);
    [discriminate|discriminate|vm_compute; reflexivity|exact demo_client_guarded|vm_compute; reflexivity].
Defined.

Lemma characteristics_never_end_witness :
  exists s s' q, bt_gatt_discover_characteristics (fun _ => true) 1 10 true = Some (true, s) /\
    client_run (fun _ => true) demo_release (endless 5) s = Some s' /\
    c_req s' = Some q /\ c_ops s' = [mkAttOp 6 CDiscoverChrcs] /\
    sends (c_events s') = 6 /\ zlen (rq_results q) = 5.
Proof. apply (characteristics_never_end demo_release true 1 10 5); lia. Defined.

Definition demo_reader : client :=
  match bt_gatt_read_by_type (fun _ => true) 1 0xffff (BT_UUID16 0x2a00) true with
  | Some (_, s) => s | None => mkClient None [] 1 ∅ 1 [] end.

Lemma read_by_type_crashes_witness :
  deliver (fun _ => true) demo_release 1 BT_ATT_OP_READ_BY_TYPE_RSP (Some [0]) demo_reader = None.
Proof.
  apply (read_by_type_crashes demo_release 1 0xffff (BT_UUID16 0x2a00) true demo_reader []). vm_compute. reflexivity.
Defined.

Lemma request_is_answered_witness :
  exists s', client_run demo_accepts demo_release (take 1 demo_answers) demo_client = Some s' /\
    exists s'', client_step demo_accepts demo_release (Deliver 2 BT_ATT_OP_ERROR_RSP None) s' = Some s'' /\
      c_ops s'' = [] /\ callbacks (c_events s'') = 1%nat.
Proof.
  eexists. split; [vm_compute; reflexivity|].
  eapply (request_is_answered demo_accepts demo_release demo_procedure true (take 1 demo_answers) demo_client _
            (mkAttOp 2 CReadByGrpType));
    [vm_compute; split; discriminate|vm_compute; reflexivity|apply client_guardedb_ok; vm_compute; reflexivity
    |vm_compute; reflexivity|reflexivity|intros; vm_compute; by eexists].
Defined.
