(* ===== verification/GattIter.v ===== *)
(** What the iterators of [GattHelpers] find in the results of a procedure. *)
From S2P Require Import Prelude Uuid Att GattDb GattAttr GattHelpers GattHelpersOk.

(** ** Iterators *)

(** The loop of a client over an iterator, until it returns [false]. *)
Fixpoint iterate {A} (next : bt_gatt_iter -> option (option A * bt_gatt_iter)) (fuel : nat) (it : bt_gatt_iter)
  : option (list A) :=
  match fuel with
  | O => None
  | S fuel' =>
      '(r, it) ← next it;
      match r with
      | None => Some []
      | Some x => l ← iterate next fuel' it; Some (x :: l)
      end
  end.

(** The elements of a list of bytes, each with what is left from it on. *)
Fixpoint chunks (n : nat) (size : Z) (l : list Z) : list (list Z) :=
  match n with
  | O => []
  | S n' => take (Z.to_nat size) l :: chunks n' size (drop (Z.to_nat size) l)
  end.

Definition elements_of (r : bt_gatt_result) : list (list Z) :=
  chunks (Z.to_nat (zlen (rs_pdu r) / rs_data_len r)) (rs_data_len r) (rs_pdu r).

Definition elements (rs : list bt_gatt_result) : list (list Z) := concat (map elements_of rs).

Definition le16 (l : list Z) (off : Z) : Z := get_le (slice off 2 l).

(** The 128 bits of a UUID in an element. *)
Definition uuid128_of (l : list Z) : list Z :=
  if zlen l =? 2 then patch BASE_UUID16_OFFSET (rev l) bluetooth_base_uuid else rev l.

(** Where an iterator stands: at the beginning of an element, or at the end. *)
Definition it_ok (it : bt_gatt_iter) : Prop :=
  Forall result_wf (it_result it) /\
  match it_result it with
  | [] => True
  | r :: _ => 0 <= it_pos it < zlen (rs_pdu r) /\ it_pos it mod rs_data_len r = 0
  end.

Definition remaining (it : bt_gatt_iter) : list (list Z) :=
  match it_result it with
  | [] => []
  | r :: rs =>
      chunks (Z.to_nat ((zlen (rs_pdu r) - it_pos it) / rs_data_len r)) (rs_data_len r)
        (drop (Z.to_nat (it_pos it)) (rs_pdu r)) ++ elements rs
  end.

Lemma result_size r : result_wf r -> 2 <= rs_data_len r <= 255 /\ exists k, 0 < k /\ zlen (rs_pdu r) = k * rs_data_len r.
Proof.
  intros [H1 H2 H3]. pose proof (element_sizes_range _ _ H1). split; [done|].
  apply Z.mod_divide in H3 as [k Hk]; [|lia].
  exists k. split; [|done]. assert (~ k <= 0) by nia. lia.
Qed.

Lemma iter_room r rs pos :
  it_ok (mkIter (r :: rs) pos) -> pos + rs_data_len r <= zlen (rs_pdu r).
Proof.
  intros [Hwf [Hp Hm]]. simpl in *. apply Forall_cons in Hwf as [Hr _].
  destruct (result_size r Hr) as (Hs & k & Hk & Hz). apply Z.mod_divide in Hm as [j Hj]; [|lia].
  assert (j < k) by nia. nia.
Qed.

Lemma iter_advance_ok r rs pos :
  it_ok (mkIter (r :: rs) pos) ->
  it_ok (iter_advance r rs pos) /\
  remaining (mkIter (r :: rs) pos) = slice pos (rs_data_len r) (rs_pdu r) :: remaining (iter_advance r rs pos).
Proof.
  intros Hok. pose proof (iter_room _ _ _ Hok) as Hroom. destruct Hok as [Hwf [Hp Hm]]. simpl in *.
  pose proof Hwf as Hwf'. apply Forall_cons in Hwf as [Hr Hrs].
  destruct (result_size r Hr) as (Hs & k & Hk & Hz). destruct Hr as [_ Hlen _].
  apply Z.mod_divide in Hm as [j Hj]; [|lia].
  unfold iter_advance. assert (u16 (pos + rs_data_len r) = pos + rs_data_len r) as -> by (apply Z.mod_small; lia).
  assert (Hdiv : Z.to_nat ((zlen (rs_pdu r) - pos) / rs_data_len r)
                 = S (Z.to_nat ((zlen (rs_pdu r) - (pos + rs_data_len r)) / rs_data_len r))).
  { rewrite Hz, Hj. replace (k * rs_data_len r - j * rs_data_len r) with ((k - j) * rs_data_len r) by ring.
    replace (k * rs_data_len r - (j * rs_data_len r + rs_data_len r)) with ((k - j - 1) * rs_data_len r) by ring.
    rewrite !Z.div_mul by lia. rewrite <- Z2Nat.inj_succ by nia. f_equal. lia. }
  assert (Hrem : remaining (mkIter (r :: rs) pos) = slice pos (rs_data_len r) (rs_pdu r) ::
            chunks (Z.to_nat ((zlen (rs_pdu r) - (pos + rs_data_len r)) / rs_data_len r)) (rs_data_len r)
              (drop (Z.to_nat (pos + rs_data_len r)) (rs_pdu r)) ++ elements rs).
  { unfold remaining. simpl. rewrite Hdiv. simpl. unfold slice. f_equal. rewrite drop_drop.
    do 3 f_equal. lia. }
  rewrite Hrem. destruct (Z.eqb_spec (pos + rs_data_len r) (zlen (rs_pdu r))) as [E|E].
  - split.
    + split; simpl; [done|]. destruct rs as [|r2 rs2]; [done|]. apply Forall_cons in Hrs as [[_ H2 _] _].
      split; [lia|]. done.
    + f_equal. rewrite E, Z.sub_diag. simpl. unfold remaining. simpl. destruct rs as [|r2 rs2]; [done|].
      unfold elements. simpl. f_equal. unfold elements_of. by rewrite Z.sub_0_r, drop_0.
  - split; [|done]. split; simpl; [done|]. split; [lia|]. rewrite Z.add_mod, Hj, Z.mod_mul, Z.mod_same by lia. done.
Qed.

Lemma le16_at_in r off pos : 0 <= pos -> 0 <= off -> off + 2 <= rs_data_len r -> pos + rs_data_len r <= zlen (rs_pdu r) ->
  le16_at (rs_pdu r) (pos + off) = Some (le16 (slice pos (rs_data_len r) (rs_pdu r)) off).
Proof.
  intros H0 H1 H2 H3. unfold le16_at, le16. rewrite memread_Some by lia. simpl. do 2 f_equal.
  by rewrite slice_slice by lia.
Qed.

Lemma convert_in r off buf pos : 0 <= pos -> 0 <= off -> pos + rs_data_len r <= zlen (rs_pdu r) ->
  rs_data_len r - off = 2 \/ rs_data_len r - off = 16 ->
  convert_uuid_le (rs_pdu r) (pos + off) (rs_data_len r - off) buf
  = Some (uuid128_of (drop (Z.to_nat off) (slice pos (rs_data_len r) (rs_pdu r)))).
Proof.
  intros H0 H1 H2 Hn.
  assert (slice (pos + off) (rs_data_len r - off) (rs_pdu r) = drop (Z.to_nat off) (slice pos (rs_data_len r) (rs_pdu r))) as E.
  { unfold slice. rewrite skipn_firstn_comm, drop_drop. f_equal; [lia|]. f_equal. lia. }
  assert (zlen (drop (Z.to_nat off) (slice pos (rs_data_len r) (rs_pdu r))) = rs_data_len r - off) as Hz.
  { rewrite <- E. apply zlen_slice; lia. }
  unfold convert_uuid_le, uuid128_of. rewrite Hz.
  destruct Hn as [Hn|Hn]; rewrite Hn in *; simpl; rewrite memread_Some by lia; simpl; by rewrite E.
Qed.

(** One value of each element, which may depend on the elements behind it. *)
Fixpoint with_rest {A} (value : list Z -> list (list Z) -> A) (l : list (list Z)) : list A :=
  match l with [] => [] | e :: l' => value e l' :: with_rest value l' end.

Lemma with_rest_map {A} (f : list Z -> A) l : with_rest (fun e _ => f e) l = map f l.
Proof. induction l as [|e l IH]; [done|]. simpl. by rewrite IH. Qed.

Lemma iterate_elements {A} (next : bt_gatt_iter -> option (option A * bt_gatt_iter)) (Q : bt_gatt_result -> Prop)
    (value : list Z -> list (list Z) -> A) :
  (forall it, it_result it = [] -> next it = Some (None, it)) ->
  (forall r rs pos, it_ok (mkIter (r :: rs) pos) -> Forall Q (r :: rs) ->
     next (mkIter (r :: rs) pos)
     = Some (Some (value (slice pos (rs_data_len r) (rs_pdu r)) (remaining (iter_advance r rs pos))),
             iter_advance r rs pos)) ->
  forall fuel it, it_ok it -> Forall Q (it_result it) -> (length (remaining it) < fuel)%nat ->
  iterate next fuel it = Some (with_rest value (remaining it)).
Proof.
  intros Hend Hstep. induction fuel as [|fuel IH]; intros it Hok HQ Hf; [lia|]. simpl.
  destruct it as [[|r rs] pos].
  - rewrite Hend by done. done.
  - rewrite Hstep by done. cbn [mbind option_bind].
    destruct (iter_advance_ok r rs pos Hok) as [Hok2 Hrem]. rewrite Hrem in *.
    rewrite IH; [done|done| |simpl in Hf; lia].
    apply Forall_cons in HQ as [Hr HQ']. unfold iter_advance. destruct (_ =? _); simpl; [done|]. by constructor.
Qed.

Lemma iter_start rs : Forall result_wf rs -> it_ok (mkIter rs 0) /\ remaining (mkIter rs 0) = elements rs.
Proof.
  intros Hwf. split.
  - split; [done|]. destruct Hwf as [|r rs [_ H _] _]; [done|]. simpl. by split; [lia|].
  - destruct rs as [|r rs]; [done|]. unfold remaining, elements. simpl. unfold elements_of. by rewrite Z.sub_0_r, drop_0.
Qed.

Lemma length_chunks n size l : length (chunks n size l) = n.
Proof. revert l. induction n as [|n IH]; intros l; simpl; [done|]. by rewrite IH. Qed.

Lemma zlen_elements_of r : result_wf r -> zlen (elements_of r) = zlen (rs_pdu r) / rs_data_len r.
Proof.
  intros Hr. destruct (result_size r Hr) as (Hs & k & Hk & Hz).
  unfold zlen at 1, elements_of. rewrite length_chunks, Z2Nat.id; [done|]. rewrite Hz, Z.div_mul by lia. lia.
Qed.

Lemma count_elements rs : Forall result_wf rs -> zlen (elements rs) < 2 ^ 32 ->
  result_element_count rs = Some (zlen (elements rs)).
Proof.
  induction 1 as [|r rs Hr Hrs IH]; intros Hb; [done|]. simpl.
  destruct (result_size r Hr) as (Hs & _). replace (rs_data_len r =? 0) with false by lia.
  change (elements (r :: rs)) with (elements_of r ++ elements rs) in *. rewrite zlen_app in *.
  pose proof (zlen_nonneg (elements_of r)). pose proof (zlen_nonneg (elements rs)).
  rewrite IH by lia. simpl. f_equal. rewrite <- zlen_elements_of by done. by apply wrap_small; lia.
Qed.

(** *** What an element says *)

Definition service_of (e : list Z) : Z * Z * list Z := (le16 e 0, le16 e 2, uuid128_of (drop 4 e)).

(** A characteristic ends in front of the next one. *)
Definition characteristic_of (stop : Z) (e : list Z) (rest : list (list Z)) : Z * Z * Z * Z * list Z :=
  (le16 e 0, match rest with [] => stop | e' :: _ => u16 (le16 e' 0 - 1) end, le16 e 3, default 0 (e !! 2%nat),
   uuid128_of (drop 5 e)).

Definition descriptor_of (e : list Z) : Z * list Z := (le16 e 0, uuid128_of (drop 2 e)).

Lemma next_service_of u buf r rs pos :
  it_ok (mkIter (r :: rs) pos) -> rs_opcode r = BT_ATT_OP_READ_BY_GRP_TYPE_RSP ->
  bt_gatt_iter_next_service u buf (mkIter (r :: rs) pos)
  = Some (Some (service_of (slice pos (rs_data_len r) (rs_pdu r))), iter_advance r rs pos).
Proof.
  intros Hok Ho. pose proof (iter_room _ _ _ Hok) as Hroom. destruct Hok as [Hwf [Hp _]]. simpl in Hp.
  apply Forall_cons in Hwf as [[Hs _ _] _]. rewrite Ho in Hs. unfold element_sizes in Hs. simpl in Hs.
  unfold bt_gatt_iter_next_service. simpl. rewrite Ho. simpl.
  rewrite <- (Z.add_0_r pos) at 1. rewrite !le16_at_in by lia. simpl.
  rewrite convert_in by lia. done.
Qed.

Lemma uuid128_of_comparable u : comparable u -> exists d, bt_uuid_to_uuid128 u BT_UUID_UNSPEC = BT_UUID128 d.
Proof.
  intros [Hu Hs]. destruct (to_uuid128_ok u BT_UUID_UNSPEC Hu Hs) as (d & Hd & _). by exists d.
Qed.

Lemma next_found_service u buf d r rs pos :
  it_ok (mkIter (r :: rs) pos) -> rs_opcode r = BT_ATT_OP_FIND_BY_TYPE_RSP ->
  bt_uuid_to_uuid128 u BT_UUID_UNSPEC = BT_UUID128 d ->
  bt_gatt_iter_next_service u buf (mkIter (r :: rs) pos)
  = Some (Some (let e := slice pos (rs_data_len r) (rs_pdu r) in (le16 e 0, le16 e 2, d)), iter_advance r rs pos).
Proof.
  intros Hok Ho Hu. pose proof (iter_room _ _ _ Hok) as Hroom. destruct Hok as [Hwf [Hp _]]. simpl in Hp.
  apply Forall_cons in Hwf as [[Hs _ _] _]. rewrite Ho in Hs. unfold element_sizes in Hs. simpl in Hs.
  unfold bt_gatt_iter_next_service. simpl. rewrite Ho. simpl.
  rewrite <- (Z.add_0_r pos) at 1. rewrite !le16_at_in by lia. simpl. by rewrite Hu.
Qed.

Lemma next_descriptor_of buf r rs pos :
  it_ok (mkIter (r :: rs) pos) -> rs_opcode r = BT_ATT_OP_FIND_INFO_RSP ->
  bt_gatt_iter_next_descriptor buf (mkIter (r :: rs) pos)
  = Some (Some (descriptor_of (slice pos (rs_data_len r) (rs_pdu r))), iter_advance r rs pos).
Proof.
  intros Hok Ho. pose proof (iter_room _ _ _ Hok) as Hroom. destruct Hok as [Hwf [Hp _]]. simpl in Hp.
  apply Forall_cons in Hwf as [[Hs _ _] _]. rewrite Ho in Hs. unfold element_sizes in Hs. simpl in Hs.
  unfold bt_gatt_iter_next_descriptor. simpl. rewrite Ho. simpl.
  rewrite <- (Z.add_0_r pos) at 1. rewrite !le16_at_in by lia. simpl.
  rewrite convert_in by lia. done.
Qed.

(** The results of a discovery of characteristics. *)
Definition is_characteristics (r : bt_gatt_result) : Prop :=
  rs_opcode r = BT_ATT_OP_READ_BY_TYPE_RSP /\ (rs_data_len r = 7 \/ rs_data_len r = 21).

Lemma slice_lookup {A} off len (l : list A) n : 0 <= off -> Z.of_nat n < len ->
  slice off len l !! n = l !! (Z.to_nat off + n)%nat.
Proof. intros Ho Hn. unfold slice. rewrite lookup_take_lt by lia. by rewrite lookup_drop. Qed.

Lemma memread_1 (l : list Z) off : 0 <= off < zlen l -> (memread l off 1 ≫= head) = l !! Z.to_nat off.
Proof.
  intros H. rewrite memread_Some by lia. simpl. unfold slice. change (Z.to_nat 1) with 1%nat.
  rewrite head_lookup, lookup_take_lt, lookup_drop by lia. f_equal. lia.
Qed.

Lemma next_characteristic_of u stop buf r rs pos :
  uuid_type u = 0 -> it_ok (mkIter (r :: rs) pos) -> Forall is_characteristics (r :: rs) ->
  bt_gatt_iter_next_characteristic u stop buf (mkIter (r :: rs) pos)
  = Some (Some (characteristic_of stop (slice pos (rs_data_len r) (rs_pdu r)) (remaining (iter_advance r rs pos))),
          iter_advance r rs pos).
Proof.
  intros Hu Hok HQ. pose proof (iter_room _ _ _ Hok) as Hroom.
  destruct (iter_advance_ok _ _ _ Hok) as [Hok2 _].
  destruct Hok as [Hwf [Hp _]]. simpl in Hp.
  pose proof HQ as HQ'. apply Forall_cons in HQ as [[Ho Hs] HQ].
  unfold bt_gatt_iter_next_characteristic. simpl. rewrite Ho, Hu. simpl.
  destruct (negb (rs_data_len r =? 21) && negb (rs_data_len r =? 7)) eqn:E; [lia|].
  rewrite <- (Z.add_0_r pos) at 1. rewrite !le16_at_in by lia. simpl.
  rewrite memread_1 by lia.
  assert (is_Some (rs_pdu r !! Z.to_nat (pos + 2))) as [b Hb] by (apply lookup_lt_is_Some; unfold zlen in *; lia).
  rewrite Hb. simpl. rewrite convert_in by lia. simpl.
  assert (default 0 (slice pos (rs_data_len r) (rs_pdu r) !! 2%nat) = b) as Hb2.
  { rewrite slice_lookup by lia. replace (Z.to_nat pos + 2)%nat with (Z.to_nat (pos + 2)) by lia. by rewrite Hb. }
  unfold characteristic_of. rewrite Hb2.
  assert (Forall is_characteristics (it_result (iter_advance r rs pos))) as HQ2.
  { unfold iter_advance. destruct (u16 (pos + rs_data_len r) =? zlen (rs_pdu r)); simpl; [done|exact HQ']. }
  destruct (iter_advance r rs pos) as [[|r' rs'] pos'] eqn:Eadv; simpl; [done|].
  pose proof (iter_room _ _ _ Hok2) as Hroom2. destruct (iter_advance_ok _ _ _ Hok2) as [_ Hrem].
  rewrite Hrem. destruct Hok2 as [_ [Hp2 _]]. simpl in Hp2. apply Forall_cons in HQ2 as [[_ Hs2] _].
  rewrite <- (Z.add_0_r pos') at 1. rewrite le16_at_in by lia. done.
Qed.

Lemma iterate_all {A} (next : bt_gatt_iter -> option (option A * bt_gatt_iter)) Q
    (value : list Z -> list (list Z) -> A) rs fuel :
  (forall p, next (mkIter [] p) = Some (None, mkIter [] p)) ->
  (forall r rs pos, it_ok (mkIter (r :: rs) pos) -> Forall Q (r :: rs) -> next (mkIter (r :: rs) pos)
     = Some (Some (value (slice pos (rs_data_len r) (rs_pdu r)) (remaining (iter_advance r rs pos))),
             iter_advance r rs pos)) ->
  Forall result_wf rs -> Forall Q rs -> (length (elements rs) < fuel)%nat ->
  iterate next fuel (mkIter rs 0) = Some (with_rest value (elements rs)).
Proof.
  intros Hend Hstep Hwf HQ Hf. destruct (iter_start rs Hwf) as [Hok Hrem]. rewrite <- Hrem in *.
  apply (iterate_elements next Q); [|done..]. intros [l p] Hl. simpl in Hl. subst l. apply Hend.
Qed.

Lemma iterate_services rs fuel u buf :
  Forall result_wf rs -> Forall (fun r => rs_opcode r = BT_ATT_OP_READ_BY_GRP_TYPE_RSP) rs ->
  (length (elements rs) < fuel)%nat ->
  iterate (bt_gatt_iter_next_service u buf) fuel (mkIter rs 0) = Some (map service_of (elements rs)).
Proof.
  intros Hwf HQ Hf. rewrite <- with_rest_map.
  apply (iterate_all _ (fun r => rs_opcode r = BT_ATT_OP_READ_BY_GRP_TYPE_RSP)); [done| |done..].
  intros r rs' pos Hok [Hr _]%Forall_cons. by apply next_service_of.
Qed.

Lemma count_services rs :
  Forall result_wf rs -> Forall (fun r => rs_opcode r = BT_ATT_OP_READ_BY_GRP_TYPE_RSP) rs ->
  zlen (elements rs) < 2 ^ 32 -> bt_gatt_result_service_count rs = Some (zlen (elements rs)).
Proof.
  intros Hwf HQ Hb. pose proof (count_elements rs Hwf Hb) as Hc.
  destruct HQ as [|r rs Hr]; [done|]. unfold bt_gatt_result_service_count. by rewrite Hr.
Qed.

(** C28. The iterators are exact.  Over the results of a procedure an iterator returns
    every element once, in the order of the answers, and then stops, without reading
    beyond a result: services with their range and 128-bit UUID, characteristics
    with the properties, the value handle and a range that ends in front of the next
    characteristic or at the end of the request, descriptors; and the functions that
    count agree with it. *)
Theorem iterators_exact rs fuel u stop buf :
  Forall result_wf rs -> (length (elements rs) < fuel)%nat -> zlen (elements rs) < 2 ^ 32 ->
  let it := mkIter rs 0 in
  (Forall (fun r => rs_opcode r = BT_ATT_OP_READ_BY_GRP_TYPE_RSP) rs ->
   iterate (bt_gatt_iter_next_service u buf) fuel it = Some (map service_of (elements rs)) /\
   bt_gatt_result_service_count rs = Some (zlen (elements rs))) /\
  (Forall (fun r => rs_opcode r = BT_ATT_OP_FIND_BY_TYPE_RSP) rs -> comparable u ->
   exists d, bt_uuid_to_uuid128 u BT_UUID_UNSPEC = BT_UUID128 d /\
   iterate (bt_gatt_iter_next_service u buf) fuel it = Some (map (fun e => (le16 e 0, le16 e 2, d)) (elements rs)) /\
   bt_gatt_result_service_count rs = Some (zlen (elements rs))) /\
  (Forall is_characteristics rs -> uuid_type u = 0 ->
   iterate (bt_gatt_iter_next_characteristic u stop buf) fuel it
   = Some (with_rest (characteristic_of stop) (elements rs)) /\
   bt_gatt_result_characteristic_count rs = Some (zlen (elements rs))) /\
  (Forall (fun r => rs_opcode r = BT_ATT_OP_FIND_INFO_RSP) rs ->
   iterate (bt_gatt_iter_next_descriptor buf) fuel it = Some (map descriptor_of (elements rs)) /\
   bt_gatt_result_descriptor_count rs = Some (zlen (elements rs))).
Proof.
  intros Hwf Hf Hb it. pose proof (count_elements rs Hwf Hb) as Hc. unfold it.
  split; [|split; [|split]].
  - intros HQ. split; [by apply iterate_services|by apply count_services].
  - intros HQ Hu. destruct (uuid128_of_comparable u Hu) as [d Hd]. exists d. split; [done|]. split.
    + rewrite <- with_rest_map. apply (iterate_all _ (fun r => rs_opcode r = BT_ATT_OP_FIND_BY_TYPE_RSP)); [done| |done..].
      intros r rs' pos Hok [Hr _]%Forall_cons. by apply next_found_service.
    + destruct HQ as [|r rs Hr]; [done|]. unfold bt_gatt_result_service_count. by rewrite Hr.
  - intros HQ Hu. split.
    + apply (iterate_all _ is_characteristics); [done| |done..]. intros r rs' pos Hok HQ'. by apply next_characteristic_of.
    + destruct HQ as [|r rs [Hr Hs]]; [done|]. unfold bt_gatt_result_characteristic_count. rewrite Hr, Z.eqb_refl.
      destruct Hs as [E|E]; rewrite E; exact Hc.
  - intros HQ. split.
    + rewrite <- with_rest_map. apply (iterate_all _ (fun r => rs_opcode r = BT_ATT_OP_FIND_INFO_RSP)); [done| |done..].
      intros r rs' pos Hok [Hr _]%Forall_cons. by apply next_descriptor_of.
    + destruct HQ as [|r rs Hr]; [done|]. unfold bt_gatt_result_descriptor_count. by rewrite Hr.
Qed.

(** Characteristics in two answers, with UUIDs of both sizes. *)
Definition two_answers : list bt_gatt_result := [
  mkResult BT_ATT_OP_READ_BY_TYPE_RSP [2; 0; 0x0a; 3; 0; 0; 0x2a; 4; 0; 0x12; 5; 0; 1; 0x2a] 7;
  mkResult BT_ATT_OP_READ_BY_TYPE_RSP ([7; 0; 8; 8; 0] ++ map Z.of_nat (seq 1 16)) 21 ].

Lemma iterators_exact_witness :
  Forall result_wf two_answers /\
  iterate (bt_gatt_iter_next_characteristic BT_UUID_UNSPEC 0xffff []) 4 (mkIter two_answers 0)
  = Some [ (2, 3, 3, 0x0a, [0; 0; 0x2a; 0; 0; 0; 16; 0; 128; 0; 0; 128; 95; 155; 52; 251]);
           (4, 6, 5, 0x12, [0; 0; 0x2a; 1; 0; 0; 16; 0; 128; 0; 0; 128; 95; 155; 52; 251]);
           (7, 0xffff, 8, 8, [16; 15; 14; 13; 12; 11; 10; 9; 8; 7; 6; 5; 4; 3; 2; 1]) ].
Proof.
  assert (Forall result_wf two_answers) as Hwf.
  { constructor; [|constructor; [|constructor]]; (split; [unfold element_sizes; simpl; lia|vm_compute; split; congruence|reflexivity]). }
  split; [exact Hwf|].
  destruct (iterators_exact two_answers 4 BT_UUID_UNSPEC 0xffff [] Hwf) as (_ & _ & H & _);
    [vm_compute; lia|vm_compute; reflexivity|].
  destruct H as [H _]; [constructor; [|constructor; [|constructor]]; (split; simpl; auto)|done|]. rewrite H. vm_compute. reflexivity.
Defined.
