(* ===== verification/GattDiscovery.v ===== *)
(** The client of [GattHelpers] and the server of [GattServer] together: a discovery
    of services finds what the database of [GattDb] holds. *)
From S2P Require Import Prelude Uuid Att GattDb GattAttr GattServer GattServerOk GattHelpers GattHelpersOk GattIter.

#[local] Arguments set_rq_id _ _ /.
#[local] Arguments set_rq_ref_count _ _ /.
#[local] Arguments set_rq_results _ _ /.
#[local] Arguments set_rq_start_handle _ _ /.
#[local] Arguments set_c_req _ _ /.
#[local] Arguments set_c_ops _ _ /.
#[local] Arguments set_c_next_id _ _ /.
#[local] Arguments set_c_incl _ _ /.
#[local] Arguments set_c_next_incl _ _ /.
#[local] Arguments add_event _ _ /.

(** ** The services of a database *)

(** The first and the last handle of a service and its UUID as it is stored. *)
Abbreviation entry := (Z * Z * list Z)%type.
Definition e_start (e : entry) : Z := e.1.1.
Definition e_end (e : entry) : Z := e.1.2.

Definition service_entry (db : gatt_db) (a : aptr) : option entry :=
  sv ← svc_heap db !! a.1;
  A ← get_attr a db;
  Some (svc_start sv, svc_end sv, value A).

Definition services_found (type : bt_uuid) (start stop : Z) (db : gatt_db) : option (list entry) :=
  l ← gatt_db_read_by_group_type start stop type db;
  mapM (service_entry db) l.

Definition entry_ok (start stop : Z) (e : entry) : Prop :=
  start <= e_start e <= stop /\ e_start e <= e_end e <= 65535 /\ (zlen e.2 = 2 \/ zlen e.2 = 16) /\ bytes_ok e.2.

Definition entry_before (e e' : entry) : Prop := e_end e < e_start e'.

Lemma foreach_decl db s sv u start stop st :
  db_wf db -> comparable u -> svc_heap db !! s = Some sv -> start <= st <= stop ->
  exists l, foreach_in_range false (Some u) start stop db s = Some l /\
    foreach_in_range false (Some u) st stop db s = Some (if st <=? svc_start sv then l else []) /\
    (l = [] \/ l = [(s, O)] /\ start <= svc_start sv <= stop).
Proof.
  intros Hwf Hu Hs Hst.
  destruct (foreach_decl_spec db s sv (Some u) start stop Hwf Hu Hs) as (l & E & Hl & Hn).
  destruct (foreach_decl_spec db s sv (Some u) st stop Hwf Hu Hs) as (l' & E' & Hl' & Hn').
  exists l. split; [done|]. rewrite E'.
  assert (forall k, (length k <= 1)%nat -> (forall a, a ∈ k -> a = (s, O)) -> k = [] \/ k = [(s, O)]) as Hk.
  { intros [|a [|b k]] Hk Hall; [by left| |simpl in Hk; lia]. right. f_equal. apply Hall. by left. }
  assert (l = [] \/ l = [(s, O)] /\ start <= svc_start sv <= stop) as Hcase.
  { destruct (Hk l Hn) as [->| ->]; [by intros a [-> _]%Hl|by left|]. right. split; [done|].
    by destruct (proj1 (Hl (s, O))) as (_ & _ & ? & _); [left|]. }
  split; [|done]. f_equal.
  destruct (Z.leb_spec st (svc_start sv)).
  - destruct (Hk l' Hn') as [->| ->]; [by intros a [-> _]%Hl'| |].
    + destruct Hcase as [->|[-> Hr]]; [done|]. exfalso. apply (not_elem_of_nil (s, O)), Hl'.
      destruct (proj1 (Hl (s, O))) as (_ & ? & _ & ?); [by left|]. split_and!; try done; lia.
    + destruct Hcase as [->|[-> Hr]]; [|done]. exfalso. apply (not_elem_of_nil (s, O)), Hl.
      destruct (proj1 (Hl' (s, O))) as (_ & ? & ? & ?); [by left|]. split_and!; try done; lia.
  - destruct (Hk l' Hn') as [->| ->]; [by intros a [-> _]%Hl'|done|].
    destruct (proj1 (Hl' (s, O))) as (_ & _ & ? & _); [by left|]. lia.
Qed.

Lemma decl_entry db s sv :
  db_ok db -> svc_heap db !! s = Some sv ->
  exists v, service_entry db (s, O) = Some (svc_start sv, svc_end sv, v) /\ (zlen v = 2 \/ zlen v = 16) /\ bytes_ok v /\
    svc_start sv <= svc_end sv <= 65535.
Proof.
  intros Hok Hs. destruct (is_decl_attr db (s, O) Hok) as (sv' & A & Hs' & _ & HA & _ & _ & (Hz & Hl & Hb) & _).
  { split; [done|by exists sv]. }
  simpl in Hs'. simplify_eq. exists (value A). unfold service_entry. simpl. rewrite Hs. simpl. rewrite HA. simpl.
  pose proof (wf_services db (do_wf db Hok) s sv Hs) as Hsv. pose proof (wf_nonempty sv Hsv).
  destruct (wf_range sv Hsv). change UINT16_MAX with 65535 in *. split_and!; try done; lia.
Qed.

(** What a query from a later handle on finds is what the first one found there. *)
Lemma found_from db type start stop st ss :
  db_ok db -> comparable type -> start <= st <= stop ->
  (forall s, s ∈ ss -> s ∈ services db) -> StronglySorted (before (svc_heap db)) ss ->
  exists q L, foreach_services (foreach_in_range false (Some type) start stop db) ss = Some q /\
    mapM (service_entry db) q = Some L /\ Forall (is_decl db) q /\
    StronglySorted entry_before L /\ Forall (entry_ok start stop) L /\
    Forall (fun e => exists s sv, s ∈ ss /\ svc_heap db !! s = Some sv /\ e_start e = svc_start sv) L /\
    exists q', foreach_services (foreach_in_range false (Some type) st stop db) ss = Some q' /\
      mapM (service_entry db) q' = Some (filter (fun e => st <= e_start e) L) /\ Forall (is_decl db) q'.
Proof.
  intros Hok Hu Hst. induction ss as [|s ss IH]; intros Hin Hord; cbn [foreach_services].
  { exists [], []. split_and!; try done; try constructor. by exists []. }
  apply StronglySorted_inv in Hord as [Hord Hall]. pose proof (do_wf db Hok) as Hwf.
  destruct (proj1 (wf_dom db Hwf s)) as [sv Hs]; [apply Hin; by left|].
  destruct IH as (q & L & -> & HL & Hd & Hsort & Hent & Hfrom & q' & -> & HL' & Hd');
    [intros t Ht; apply Hin; by right|done|].
  destruct (foreach_decl db s sv type start stop st Hwf Hu Hs Hst) as (l & -> & -> & Hl).
  cbn [mbind option_bind].
  assert (Forall (fun e => exists t tv, t ∈ s :: ss /\ svc_heap db !! t = Some tv /\ e_start e = svc_start tv) L) as Hfrom'.
  { eapply Forall_impl; [exact Hfrom|]. intros e (t & tv & ? & ?). exists t, tv. by split; [right|]. }
  destruct Hl as [->|[-> Hr]].
  - exists q, L. split_and!; try done. exists q'. destruct (st <=? svc_start sv); by simpl.
  - destruct (decl_entry db s sv Hok Hs) as (v & He & Hv & Hvb & Hse).
    set (e := (svc_start sv, svc_end sv, v)) in *.
    assert (Forall (entry_before e) L) as Hbef.
    { eapply Forall_impl; [exact Hfrom|]. intros e' (t & tv & Ht & Htv & He').
      rewrite Forall_forall in Hall. specialize (Hall t Ht sv tv Hs Htv). unfold entry_before, e, e_end. simpl. lia. }
    assert (is_decl db (s, O)) as Hdecl by (split; [done|by exists sv]).
    exists ((s, O) :: q), (e :: L). split_and!.
    + done.
    + simpl. rewrite He. simpl. by rewrite HL.
    + by constructor.
    + by constructor.
    + constructor; [|done]. unfold entry_ok, e, e_start, e_end. simpl. split_and!; try done; lia.
    + constructor; [|done]. exists s, sv. by split; [left|].
    + rewrite filter_cons. change (e_start e) with (svc_start sv).
      destruct (Z.leb_spec st (svc_start sv)).
      * exists ((s, O) :: q'). rewrite decide_True by done. split_and!; [done| |by constructor].
        simpl. rewrite He. simpl. by rewrite HL'.
      * exists q'. by rewrite decide_False by lia.
Qed.

Lemma services_found_ok db type start stop :
  db_ok db -> comparable type -> start <= stop ->
  exists L, services_found type start stop db = Some L /\
    StronglySorted entry_before L /\ Forall (entry_ok start stop) L /\
    forall st, start <= st <= stop -> exists q, gatt_db_read_by_group_type st stop type db = Some q /\
      mapM (service_entry db) q = Some (filter (fun e => st <= e_start e) L) /\ Forall (is_decl db) q.
Proof.
  intros Hok Hu Hle. pose proof (do_wf db Hok) as Hwf.
  assert (forall st, start <= st <= stop -> exists q L,
    gatt_db_read_by_group_type start stop type db = Some q /\ mapM (service_entry db) q = Some L /\
    StronglySorted entry_before L /\ Forall (entry_ok start stop) L /\
    exists q', gatt_db_read_by_group_type st stop type db = Some q' /\
      mapM (service_entry db) q' = Some (filter (fun e => st <= e_start e) L) /\ Forall (is_decl db) q') as H.
  { intros st Hst. unfold gatt_db_read_by_group_type, gatt_db_foreach_service_in_range.
    rewrite !(proj2 (Z.ltb_ge stop _)) by lia.
    destruct (found_from db type start stop st (services db)) as (q & L & E & HL & _ & Hs & He & _ & Hq);
      [done|done|done|done|apply Hwf|].
    exists q, L. by split_and!. }
  destruct (H start) as (q & L & E & HL & Hs & He & _); [lia|].
  exists L. unfold services_found. rewrite E. simpl. split_and!; [done..|].
  intros st Hst. destruct (H st Hst) as (q1 & L1 & E1 & HL1 & _ & _ & Hq). rewrite E in E1. simplify_eq. done.
Qed.

(** ** The answer of the server *)

Definition entry_bytes (e : entry) : list Z := put_le16 (e_start e) ++ put_le16 (e_end e) ++ e.2.

Lemma zlen_entry_bytes e : zlen (entry_bytes e) = 4 + zlen e.2.
Proof. unfold entry_bytes. rewrite !zlen_app, !zlen_put_le16. lia. Qed.

(** Bytes copied behind those that are there already. *)
Lemma memcpy_behind (dst : list Z) off src :
  0 <= off -> off + zlen src <= zlen dst ->
  exists dst', memcpy_at dst off src = Some dst' /\ zlen dst' = zlen dst /\
    slice 0 (off + zlen src) dst' = slice 0 off dst ++ src.
Proof.
  intros Ho Hl. destruct (memcpy_at_total dst off src) as (d & E & Hz); [done|done|]. exists d. split; [done|]. split; [done|].
  pose proof (zlen_nonneg src). rewrite slice_split by lia.
  rewrite (memcpy_at_before dst off src d 0 off E) by lia. f_equal. by apply (memcpy_at_slice dst off src d).
Qed.

Lemma slice_take {A} n (l : list A) : slice 0 n l = take (Z.to_nat n) l.
Proof. unfold slice. by rewrite drop_0. Qed.

Section Server.
Context (authorize : option (Z -> Z)) (run_authorize : Z -> Z -> Z -> Z) (junk : Z -> Z).

Lemma declaration_read a e op s :
  db_ok (g_db s) -> is_decl (g_db s) a -> service_entry (g_db s) a = Some e ->
  attribute_read authorize a 0 op KStack s = Some (Some (0, e.2), s) /\
  gatt_db_attribute_get_service_handles (Some a) (g_db s) = Some (Some (e_start e, e_end e)).
Proof.
  intros Hok Ha He. destruct (is_decl_attr _ a Hok Ha) as (sv & A & Hs & Hg & HA & Hr & Hst & Hdo & Hh).
  unfold service_entry in He. rewrite Hs in He. simpl in He. rewrite HA in He. simpl in He. injection He as <-.
  split.
  - destruct (attribute_read_spec authorize junk a A 0 op KStack s Hok HA)
      as [(err & v & -> & Hv)|(cb & id & db' & Hcb & _)]; [lia| |congruence].
    destruct (Hv Hr) as [-> ->]; [destruct Hdo as (_ & ? & _); lia|]. by rewrite Hst.
  - unfold gatt_db_attribute_get_service_handles. rewrite Hs. cbn [mbind option_bind]. by rewrite Hg.
Qed.

(** The loop of the encoder has put some of the entries behind what is there. *)
Definition encoded (es : list entry) (mtu iter d : Z) (pdu : list Z) (s : server)
    (r : option (option (list Z * Z) * server)) : Prop :=
  exists es1 es2 p n, es = es1 ++ es2 /\ r = Some (Some (p, n), s) /\
    zlen p = mtu /\ n = iter + zlen es1 * (d + 4) /\ n <= mtu - 1 /\ Forall (fun e => zlen e.2 = d) es1 /\
    slice 0 n p = slice 0 iter pdu ++ concat (map entry_bytes es1).

Lemma encoded_stop es mtu iter d pdu s :
  0 < iter <= mtu - 1 -> mtu <= 65535 -> zlen pdu = mtu -> encoded es mtu iter d pdu s (Some (Some (pdu, u16 iter), s)).
Proof.
  intros Hi Hm Hz. exists [], es, pdu, iter. rewrite u16_small by lia. simpl. rewrite app_nil_r.
  split_and!; try done; unfold zlen; simpl; lia.
Qed.

(** The loop behind its first turn. *)
Lemma encode_rest mtu q : forall es iter d pdu s,
  db_ok (g_db s) -> 23 <= mtu <= 65535 -> zlen pdu = mtu -> Forall (is_decl (g_db s)) q ->
  mapM (service_entry (g_db s)) q = Some es -> Forall (fun e => zlen e.2 = 2 \/ zlen e.2 = 16) es ->
  0 < iter <= mtu - 1 -> 0 <= d <= 251 ->
  encoded es mtu iter d pdu s (encode_read_by_grp_type authorize q mtu iter d pdu s).
Proof.
  induction q as [|a q IH]; intros es iter d pdu s Hok Hm Hz Hq Hes Hlen Hit Hd; cbn [encode_read_by_grp_type].
  - apply encoded_stop; lia.
  - apply Forall_cons in Hq as [Ha Hq]. apply mapM_Some_1 in Hes. inversion Hes as [|? e ? es' He Hes' ]; subst.
    apply mapM_Some_2 in Hes'. apply Forall_cons in Hlen as [Hl Hlen].
    destruct (declaration_read a e BT_ATT_OP_READ_BY_GRP_TYPE_REQ s Hok Ha He) as [-> Hsh]. cbn [mbind option_bind].
    replace (zlen e.2 =? 0) with false by lia. replace (iter =? 0) with false by lia. cbn [negb andb].
    destruct (Z.eqb_spec (zlen e.2) d) as [Ed|Ed]; cbn [negb andb]; [|apply encoded_stop; lia].
    destruct (Z.ltb_spec (zlen pdu - 1) (iter + d + 4)); [apply encoded_stop; lia|].
    rewrite Hsh. cbn [mbind option_bind].
    destruct (memcpy_behind pdu iter (put_le16 (e_start e))) as (p1 & -> & Z1 & S1); [lia|rewrite zlen_put_le16; lia|].
    rewrite zlen_put_le16 in S1. cbn [mbind option_bind].
    destruct (memcpy_behind p1 (iter + 2) (put_le16 (e_end e))) as (p2 & -> & Z2 & S2); [lia|rewrite zlen_put_le16; lia|].
    rewrite zlen_put_le16 in S2. cbn [mbind option_bind].
    rewrite memread_Some by lia. replace (slice 0 d e.2) with e.2 by (rewrite <- Ed; symmetry; apply slice_all).
    cbn [mbind option_bind].
    destruct (memcpy_behind p2 (iter + 4) e.2) as (p3 & -> & Z3 & S3); [lia|lia|]. cbn [mbind option_bind].
    destruct (IH es' (iter + d + 4) d p3 s) as (es1 & es2 & p & n & -> & -> & Hp & Hn & Hmax & Hes1 & Hsl); try done; try lia.
    exists (e :: es1), es2, p, n. split_and!; try done; try lia.
    + rewrite zlen_cons. lia.
    + by constructor.
    + rewrite Hsl. change (concat (map entry_bytes (e :: es1))) with (entry_bytes e ++ concat (map entry_bytes es1)).
      unfold entry_bytes at 2. replace (iter + d + 4) with (iter + 4 + zlen e.2) by lia. rewrite S3.
      replace (iter + 4) with (iter + 2 + 2) by lia. rewrite S2, S1. by rewrite <- !app_assoc.
Qed.

(** An encoder that is given an entry writes it and some of those behind it. *)
Lemma encode_services mtu q es s pdu :
  db_ok (g_db s) -> 23 <= mtu <= 65535 -> zlen pdu = mtu -> Forall (is_decl (g_db s)) q ->
  mapM (service_entry (g_db s)) q = Some es -> Forall (fun e => zlen e.2 = 2 \/ zlen e.2 = 16) es -> es <> [] ->
  exists es1 es2 d p n, es = es1 ++ es2 /\ es1 <> [] /\ (d = 2 \/ d = 16) /\ Forall (fun e => zlen e.2 = d) es1 /\
    encode_read_by_grp_type authorize q mtu 0 0 pdu s = Some (Some (p, n), s) /\ zlen p = mtu /\
    n = 1 + zlen es1 * (d + 4) /\ n <= mtu - 1 /\
    slice 0 n p = (d + 4) :: concat (map entry_bytes es1).
Proof.
  intros Hok Hm Hz Hq Hes Hlen Hne. destruct q as [|a q]; [apply mapM_Some_1 in Hes; by inversion Hes; subst|].
  apply Forall_cons in Hq as [Ha Hq]. apply mapM_Some_1 in Hes. inversion Hes as [|? e ? es' He Hes' ]; subst es.
  apply mapM_Some_2 in Hes'. apply Forall_cons in Hlen as [Hl Hlen]. subst.
  cbn [encode_read_by_grp_type].
  destruct (declaration_read a e BT_ATT_OP_READ_BY_GRP_TYPE_REQ s Hok Ha He) as [-> Hsh]. cbn [mbind option_bind].
  replace (zlen e.2 =? 0) with false by lia. cbn [Z.eqb negb andb].
  rewrite u32_small by lia.
  replace (u8 (Z.min (Z.min (zlen pdu - 6) 251) (zlen e.2))) with (zlen e.2) by (rewrite u8_small; lia).
  rewrite (u8_small (zlen e.2 + 4)) by lia. set (d := zlen e.2) in *.
  destruct (memcpy_behind pdu 0 [d + 4]) as (p0 & -> & Z0 & S0); [lia|unfold zlen in *; simpl; lia|].
  change (0 + zlen [d + 4]) with 1 in S0. rewrite slice_0 in S0. cbn [mbind option_bind].
  destruct (Z.ltb_spec (zlen pdu - 1) (1 + d + 4)); [lia|].
  rewrite Hsh. cbn [mbind option_bind].
  destruct (memcpy_behind p0 1 (put_le16 (e_start e))) as (p1 & -> & Z1 & S1); [lia|rewrite zlen_put_le16; lia|].
  rewrite zlen_put_le16 in S1. cbn [mbind option_bind].
  destruct (memcpy_behind p1 (1 + 2) (put_le16 (e_end e))) as (p2 & -> & Z2 & S2); [lia|rewrite zlen_put_le16; lia|].
  rewrite zlen_put_le16 in S2. cbn [mbind option_bind].
  rewrite memread_Some by lia. replace (slice 0 d e.2) with e.2 by (symmetry; apply slice_all).
  cbn [mbind option_bind].
  destruct (memcpy_behind p2 (1 + 4) e.2) as (p3 & -> & Z3 & S3); [lia|unfold d in *; lia|]. cbn [mbind option_bind].
  destruct (encode_rest (zlen pdu) q es' (1 + d + 4) d p3 s) as (es1 & es2 & p & n & -> & -> & Hp & Hn & Hmax & Hes1 & Hsl);
    try done; try lia.
  exists (e :: es1), es2, d, p, n. split_and!; try done; try lia.
  - by constructor.
  - rewrite zlen_cons. lia.
  - rewrite Hsl. change (concat (map entry_bytes (e :: es1))) with (entry_bytes e ++ concat (map entry_bytes es1)).
    unfold entry_bytes at 2. replace (1 + d + 4) with (1 + 4 + zlen e.2) by (unfold d; lia). rewrite S3.
    replace (1 + 4) with (1 + 2 + 2) by lia. rewrite S2, S1, S0. by rewrite <- !app_assoc.
Qed.

(** The request for the services of a type from [st] on. *)
Definition service_request (st stop type : Z) : list Z := put_le16 st ++ put_le16 stop ++ put_le16 type.

Lemma request_parts st stop type :
  0 <= st <= 65535 -> 0 <= stop <= 65535 -> 0 <= type <= 65535 ->
  let pdu := service_request st stop type in
  zlen pdu = 6 /\ get_le (slice 0 2 pdu) = st /\ get_le (slice 2 2 pdu) = stop /\
  get_uuid_le (drop 4 pdu) = Some (BT_UUID16 type).
Proof.
  intros H1 H2 H3 pdu. unfold pdu, service_request.
  pose proof (zlen_put_le16 st) as Z1. pose proof (zlen_put_le16 stop) as Z2. pose proof (zlen_put_le16 type) as Z3.
  split; [rewrite !zlen_app; lia|]. split_and!.
  - rewrite slice_app_l by lia. replace 2 with (zlen (put_le16 st)) by done. rewrite slice_all.
    apply get_le_put_le16. lia.
  - rewrite slice_app_r by lia. rewrite Z1, Z.sub_diag, slice_app_l by lia.
    replace 2 with (zlen (put_le16 stop)) by done. rewrite slice_all. apply get_le_put_le16. lia.
  - rewrite app_assoc, drop_app_length' by (rewrite length_app; unfold zlen in *; lia).
    unfold get_uuid_le. rewrite Z3, get_le_put_le16 by lia. cbn [Z.eqb Pos.eqb].
    unfold bt_uuid16_create. by rewrite ?u16_small by lia.
Qed.

(** What the server answers to it: some of the services that start there, or that
    there are none. *)
Lemma server_finds chan type st stop es g :
  db_ok (g_db g) -> 23 <= g_att_mtu g <= 65535 -> g_alive g = true -> 1 <= st <= stop -> stop <= 65535 ->
  type = GATT_PRIM_SVC_UUID \/ type = GATT_SND_SVC_UUID ->
  (exists q, gatt_db_read_by_group_type st stop (BT_UUID16 type) (g_db g) = Some q /\
     mapM (service_entry (g_db g)) q = Some es /\ Forall (is_decl (g_db g)) q) ->
  Forall (fun e => zlen e.2 = 2 \/ zlen e.2 = 16) es ->
  let answer := server_request authorize run_authorize junk chan BT_ATT_OP_READ_BY_GRP_TYPE_REQ (service_request st stop type) g in
  (es = [] -> answer = Some (bt_att_chan_send_error_rsp chan BT_ATT_OP_READ_BY_GRP_TYPE_REQ st
                               BT_ATT_ERROR_ATTRIBUTE_NOT_FOUND g)) /\
  (es <> [] -> exists es1 es2 d, es = es1 ++ es2 /\ es1 <> [] /\ (d = 2 \/ d = 16) /\
     Forall (fun e => zlen e.2 = d) es1 /\ 1 + zlen es1 * (d + 4) <= 65535 /\
     answer = Some (bt_att_chan_send_rsp chan BT_ATT_OP_READ_BY_GRP_TYPE_RSP
                      ((d + 4) :: concat (map entry_bytes es1)) g)).
Proof.
  intros Hok Hm Ha Hst Hstop Ht (q & Eq & Hes & Hq) Hlen answer.
  assert (0 <= type <= 65535) as Htr by (by destruct Ht as [->| ->]).
  destruct (request_parts st stop type) as (P0 & P1 & P2 & P3); [lia|lia|done|].
  assert (exists b1 b2, uuid_eq (BT_UUID16 type) primary_service_uuid = Some b1 /\
    uuid_eq (BT_UUID16 type) secondary_service_uuid = Some b2 /\ negb b1 && negb b2 = false) as (b1 & b2 & Hb1 & Hb2 & Hb).
  { clear -Ht. destruct Ht as [->| ->]; [exists true, false|exists false, true]; split_and!; vm_compute; reflexivity. }
  assert (answer = GattServer.read_by_grp_type_cb authorize junk chan BT_ATT_OP_READ_BY_GRP_TYPE_REQ
                     (service_request st stop type) g) as -> by (unfold answer, server_request; by rewrite Ha).
  unfold GattServer.read_by_grp_type_cb. cbv zeta. rewrite P0, P1, P2, P3. cbn [Z.eqb Pos.eqb negb andb mbind option_bind].
  replace (st =? 0) with false by lia. replace (stop =? 0) with false by lia. replace (stop <? st) with false by lia.
  cbn [orb]. rewrite Hb1, Hb2. cbn [mbind option_bind]. rewrite Hb, Eq. cbn [mbind option_bind].
  split.
  - intros ->. destruct q as [|a q]; [done|]. apply mapM_Some_1 in Hes. inversion Hes.
  - intros Hne. destruct (encode_services (g_att_mtu g) q es g (buffer junk (g_att_mtu g)))
      as (es1 & es2 & d & p & n & -> & Hne1 & Hd & Hall & -> & Hp & Hn & Hmax & Hsl); try done; [apply zlen_buffer; lia|].
    destruct q as [|a q]; [apply mapM_Some_1 in Hes; inversion Hes; by destruct es1|]. cbn [isNil mbind option_bind].
    pose proof (zlen_nonneg es1).
    rewrite memread_Some by nia. cbn [mbind option_bind]. rewrite Hsl.
    exists es1, es2, d. split_and!; try done. lia.
Qed.
End Server.

(** ** What the client makes of an answer *)

Definition result_for (g : Z * list entry) : bt_gatt_result :=
  mkResult BT_ATT_OP_READ_BY_GRP_TYPE_RSP (concat (map entry_bytes g.2)) (g.1 + 4).

Record group_ok (g : Z * list entry) : Prop := {
  gr_size : g.1 = 2 \/ g.1 = 16;
  gr_some : g.2 <> [];
  gr_len : Forall (fun e => zlen e.2 = g.1) g.2;
  gr_fits : 1 + zlen g.2 * (g.1 + 4) <= 65535;
  gr_handles : Forall (fun e => 0 <= e_start e <= 65535 /\ 0 <= e_end e <= 65535) g.2
}.

Lemma zlen_entries d es : Forall (fun e => zlen e.2 = d) es -> zlen (concat (map entry_bytes es)) = zlen es * (d + 4).
Proof.
  induction 1 as [|e es He Hes IH]; [done|]. cbn [map concat]. rewrite zlen_app, zlen_cons, IH, zlen_entry_bytes. lia.
Qed.

Lemma chunks_entries d es : Forall (fun e => zlen e.2 = d) es ->
  chunks (length es) (d + 4) (concat (map entry_bytes es)) = map entry_bytes es.
Proof.
  induction 1 as [|e es He Hes IH]; [done|]. cbn [length map concat chunks].
  pose proof (zlen_entry_bytes e) as Hz.
  replace (Z.to_nat (d + 4)) with (length (entry_bytes e)) by (unfold zlen in *; lia).
  rewrite take_app_length, drop_app_length. f_equal. exact IH.
Qed.

Lemma group_result g : group_ok g -> result_wf (result_for g) /\ elements_of (result_for g) = map entry_bytes g.2.
Proof.
  intros [Hs Hne Hl Hf _]. destruct g as [d es]. simpl in *. pose proof (zlen_entries d es Hl) as Hz.
  assert (0 < zlen es) by (destruct es; [done|rewrite zlen_cons; pose proof (zlen_nonneg es); lia]).
  split.
  - split; simpl; [unfold element_sizes; simpl; lia|nia|]. rewrite Hz. apply Z.mod_mul. lia.
  - unfold elements_of. simpl. rewrite Hz, Z.div_mul by lia. unfold zlen. rewrite Nat2Z.id. by apply chunks_entries.
Qed.

Lemma group_results gs : Forall group_ok gs ->
  Forall result_wf (map result_for gs) /\ elements (map result_for gs) = map entry_bytes (concat (map snd gs)).
Proof.
  induction 1 as [|g gs Hg Hgs [IH1 IH2]]; [by split; [constructor|]|].
  destruct (group_result g Hg) as [H1 H2]. split; [by constructor|].
  change (elements (map result_for (g :: gs))) with (elements_of (result_for g) ++ elements (map result_for gs)).
  rewrite H2, IH2. simpl. by rewrite map_app.
Qed.

Lemma service_of_entry e :
  0 <= e_start e <= 65535 -> 0 <= e_end e <= 65535 ->
  service_of (entry_bytes e) = (e_start e, e_end e, uuid128_of e.2).
Proof.
  intros H1 H2. unfold service_of, le16, entry_bytes.
  pose proof (zlen_put_le16 (e_start e)) as Z1. pose proof (zlen_put_le16 (e_end e)) as Z2.
  rewrite (slice_app_l 0 2) by lia. replace 2 with (zlen (put_le16 (e_start e))) at 1 by done. rewrite slice_all.
  rewrite (slice_app_r 2 2) by lia. rewrite Z1, Z.sub_diag, slice_app_l by lia.
  replace 2 with (zlen (put_le16 (e_end e))) at 1 by done. rewrite slice_all.
  rewrite !get_le_put_le16 by lia. rewrite app_assoc, drop_app_length' by (rewrite length_app; unfold zlen in *; lia). done.
Qed.

(** An end handle of 0xffff is taken for the end of the range. *)
Definition reported (stop : Z) (e : entry) : entry :=
  if e_end e =? 65535 then (e_start e, stop, e.2) else e.

Definition silent (b : bool) (e : Z) (r : option (list bt_gatt_result)) : list user_call := [].
Definition always (id : Z) : bool := true.

(** A client whose request has been sent [i] times. *)
Definition discovering (i st stop type : Z) (rs : list bt_gatt_result) (evs : list client_event) : client :=
  mkClient (Some (mkReq i st stop 2 BT_UUID_UNSPEC type rs true)) [mkAttOp i CReadByGrpType] (i + 1) ∅ 1
    (evs ++ [ESend BT_ATT_OP_READ_BY_GRP_TYPE_REQ (service_request st stop type)]).

Definition ended (s : client) (success : bool) (ecode : Z) (r : option (list bt_gatt_result)) : Prop :=
  c_ops s = [] /\ last (c_events s) = Some (ECallback success ecode r).

(** The end of a request: its callback, and the end of the operation. *)
Lemma complete_silent b e q s :
  c_req s = Some q -> rq_id q <> 0 -> rq_callback q = true ->
  let b' := if (e =? BT_ATT_ERROR_ATTRIBUTE_NOT_FOUND) && negb (isNil (rq_results q)) then true else b in
  let r := if b' then Some (rq_results q) else None in
  discovery_op_complete silent b e s
  = Some (set_c_req (Some (set_rq_id 0 q)) (add_event (ECallback b' e r) s)).
Proof.
  intros Hq Hi Hc b' r. unfold discovery_op_complete. rewrite Hq. cbn [mbind option_bind]. rewrite Hc.
  fold b'. fold r. unfold user_calls, silent. cbn [mbind option_bind].
  rewrite (eq_refl : c_req (add_event _ s) = c_req s), Hq. cbn [mbind option_bind].
  replace (rq_id q =? 0) with false by lia. unfold on_req. simpl. by rewrite Hq.
Qed.

Lemma deliver_one i opcode pdu q s s1 :
  c_ops s = [mkAttOp i CReadByGrpType] -> read_by_grp_type_cb always silent opcode pdu s = Some s1 ->
  c_req s1 = Some q -> rq_ref_count q <> 1 -> (exists ops, c_ops s1 = mkAttOp i CReadByGrpType :: ops) ->
  deliver always silent i opcode pdu s
  = Some (set_c_req (Some (set_rq_ref_count (rq_ref_count q - 1) q)) (remove_op i s1)).
Proof.
  intros Hops E Hq Hr [ops Hops1]. unfold deliver. rewrite Hops. simpl. rewrite decide_True by done. simpl. rewrite E. simpl.
  rewrite Hops1. simpl. rewrite decide_True by done. simpl. rewrite (unref_held q) by (exact Hq || exact Hr). simpl. by rewrite Hops1.
Qed.

Lemma not_found_ends i st stop type rs evs h : 0 < i ->
  exists s, deliver always silent i BT_ATT_OP_ERROR_RSP
      (Some (error_rsp_pdu BT_ATT_OP_READ_BY_GRP_TYPE_REQ h BT_ATT_ERROR_ATTRIBUTE_NOT_FOUND))
      (discovering i st stop type rs evs) = Some s /\
    ended s (negb (isNil rs)) BT_ATT_ERROR_ATTRIBUTE_NOT_FOUND (if isNil rs then None else Some rs).
Proof.
  intros Hi. set (s0 := discovering i st stop type rs evs).
  pose proof (complete_silent false BT_ATT_ERROR_ATTRIBUTE_NOT_FOUND _ s0 eq_refl ltac:(simpl; lia) eq_refl) as Hc.
  cbv zeta in Hc. erewrite (deliver_one i); [|reflexivity|exact Hc|reflexivity|done|by eexists].
  eexists. split; [reflexivity|]. split; simpl.
  - rewrite filter_cons_False by naive_solver. done.
  - rewrite last_snoc. by destruct rs.
Qed.

(** The last entry of an answer. *)
Lemma le16_at_last pre d es0 e :
  zlen e.2 = d -> Forall (fun e => zlen e.2 = d) es0 -> 0 <= e_end e <= 65535 ->
  let pdu := pre ++ concat (map entry_bytes (es0 ++ [e])) in
  le16_at pdu (zlen pdu - (d + 4) + 2) = Some (e_end e).
Proof.
  intros He Hes Hr pdu.
  assert (pdu = (pre ++ concat (map entry_bytes es0) ++ put_le16 (e_start e)) ++ put_le16 (e_end e) ++ e.2) as Ep.
  { unfold pdu. rewrite map_app, concat_app. cbn [map concat]. unfold entry_bytes at 2. by rewrite app_nil_r, <- !app_assoc. }
  unfold le16_at.
  assert (zlen pdu - (d + 4) + 2 = zlen (pre ++ concat (map entry_bytes es0) ++ put_le16 (e_start e))) as ->.
  { rewrite Ep. rewrite !zlen_app, !zlen_put_le16. lia. }
  rewrite Ep. change 2 with (zlen (put_le16 (e_end e))). rewrite memread_mid. apply (f_equal Some). apply get_le_put_le16. lia.
Qed.

Lemma memcpy_last d es0 e stop :
  zlen e.2 = d -> Forall (fun e => zlen e.2 = d) es0 ->
  memcpy_at (concat (map entry_bytes (es0 ++ [e]))) (zlen (concat (map entry_bytes (es0 ++ [e]))) - (d + 4) + 2)
    (put_le16 stop)
  = Some (concat (map entry_bytes (es0 ++ [(e_start e, stop, e.2)]))).
Proof.
  intros He Hes.
  assert (forall e : entry, concat (map entry_bytes (es0 ++ [e]))
    = (concat (map entry_bytes es0) ++ put_le16 (e_start e)) ++ put_le16 (e_end e) ++ e.2) as Ep.
  { intros e'. rewrite map_app, concat_app. cbn [map concat]. unfold entry_bytes at 2. by rewrite app_nil_r, <- !app_assoc. }
  rewrite !Ep.
  assert (zlen ((concat (map entry_bytes es0) ++ put_le16 (e_start e)) ++ put_le16 (e_end e) ++ e.2) - (d + 4) + 2
    = zlen (concat (map entry_bytes es0) ++ put_le16 (e_start e))) as ->.
  { rewrite !zlen_app, !zlen_put_le16. lia. }
  apply memcpy_at_mid. by rewrite !zlen_put_le16.
Qed.

(** The client on an answer that ends inside the range, and on one that ends it. *)
Lemma services_answered i st stop type rs evs d es0 e :
  0 < i -> 0 <= st -> group_ok (d, es0 ++ [e]) -> st <= e_end e -> 0 <= stop <= 65535 ->
  let s := discovering i st stop type rs evs in
  let answer := (d + 4) :: concat (map entry_bytes (es0 ++ [e])) in
  exists s', deliver always silent i BT_ATT_OP_READ_BY_GRP_TYPE_RSP (Some answer) s = Some s' /\
    if e_end e <? stop
    then s' = discovering (i + 1) (e_end e + 1) stop type (rs ++ [result_for (d, es0 ++ [e])]) (c_events s)
    else ended s' true 0 (Some (rs ++ [result_for (d, es0 ++ [reported stop e])])).
Proof.
  intros Hi Hst Hg Hle Hstop s answer. pose proof Hg as [Hd _ Hl Hf Hh]. simpl in *.
  apply Forall_app in Hl as [Hl0 He]. apply Forall_cons in He as [He _].
  apply Forall_app in Hh as [_ Hh]. apply Forall_cons in Hh as [Hh _].
  pose proof (zlen_entries d (es0 ++ [e])) as Hz. rewrite zlen_app in Hz, Hf.
  change (zlen [e]) with 1 in Hz, Hf. specialize (Hz ltac:(by apply Forall_app; split; [|constructor])).
  pose proof (zlen_nonneg es0).
  assert (zlen answer = 1 + (zlen es0 + 1) * (d + 4)) as Hza by (unfold answer; rewrite zlen_cons; lia).
  pose proof (le16_at_last [d + 4] d es0 e He Hl0 ltac:(lia)) as Hend. cbv zeta in Hend.
  change ([d + 4] ++ concat (map entry_bytes (es0 ++ [e]))) with answer in Hend.
  set (rs' := rs ++ [result_for (d, es0 ++ [e])]).
  assert (result_append BT_ATT_OP_READ_BY_GRP_TYPE_RSP (drop 1 answer) (d + 4) s
    = Some (mkClient (Some (mkReq i st stop 2 BT_UUID_UNSPEC type rs' true)) (c_ops s) (i + 1) ∅ 1 (c_events s))) as Happ.
  { unfold result_append, on_req, rs', result_for. simpl. rewrite u16_small by lia. done. }
  assert (read_by_grp_type_cb always silent BT_ATT_OP_READ_BY_GRP_TYPE_RSP (Some answer) s
    = let q := mkReq i (u16 (e_end e + 1)) stop 2 BT_UUID_UNSPEC type rs' true in
      let s2 := mkClient (Some q) (c_ops s) (i + 1) ∅ 1 (c_events s) in
      if e_end e <? stop then
        send_next always silent BT_ATT_OP_READ_BY_GRP_TYPE_REQ (handle_range q ++ put_le16 type) CReadByGrpType s2
      else
        s ← (if (e_end e =? 0xffff) && negb (e_end e =? stop)
             then patch_last_end (zlen answer - (d + 4) + 1) s2 else Some s2);
        discovery_op_complete silent true 0 s) as Ecb.
  { unfold read_by_grp_type_cb. rewrite Hza.
    replace (BT_ATT_OP_READ_BY_GRP_TYPE_RSP =? BT_ATT_OP_ERROR_RSP) with false by done.
    rewrite Z.eqb_refl. replace (1 + (zlen es0 + 1) * (d + 4) <? 7) with false by nia. cbn [negb orb].
    change (head answer) with (Some (d + 4)). cbn [mbind option_bind].
    replace (negb (d + 4 =? 6) && negb (d + 4 =? 20)) with false by lia.
    replace (1 + (zlen es0 + 1) * (d + 4) - 1) with ((zlen es0 + 1) * (d + 4)) by ring.
    rewrite Z.mod_mul by lia. cbn [Z.eqb negb orb]. rewrite Happ. cbn [mbind option_bind].
    rewrite Hza in Hend. rewrite Hend. cbn [mbind option_bind]. cbn [c_req rq_start_handle].
    cbn [mbind option_bind rq_start_handle]. replace (e_end e <? st) with false by lia. done. }
  destruct (Z.ltb_spec (e_end e) stop) as [Hlt|Hge].
  - rewrite u16_small in Ecb by lia. cbv zeta in Ecb. unfold send_next, bt_gatt_request_ref, on_req, bt_att_send in Ecb.
    simpl in Ecb. replace (i + 1 =? 0) with false in Ecb by lia. simpl in Ecb.
    erewrite (deliver_one i); [|reflexivity|exact Ecb|reflexivity|done|by eexists].
    eexists. split; [reflexivity|]. simpl. rewrite filter_cons_False by naive_solver.
    rewrite filter_cons_True by (simpl; lia). rewrite filter_nil. unfold discovering, service_request, handle_range. simpl.
    by rewrite <- app_assoc.
  - cbv zeta in Ecb.
    assert (exists s2, (if (e_end e =? 0xffff) && negb (e_end e =? stop)
        then patch_last_end (zlen answer - (d + 4) + 1)
          (mkClient (Some (mkReq i (u16 (e_end e + 1)) stop 2 BT_UUID_UNSPEC type rs' true)) (c_ops s) (i + 1) ∅ 1 (c_events s))
        else Some (mkClient (Some (mkReq i (u16 (e_end e + 1)) stop 2 BT_UUID_UNSPEC type rs' true)) (c_ops s) (i + 1) ∅ 1 (c_events s)))
      = Some s2 /\ c_ops s2 = c_ops s /\
      c_req s2 = Some (mkReq i (u16 (e_end e + 1)) stop 2 BT_UUID_UNSPEC type
                         (rs ++ [result_for (d, es0 ++ [reported stop e])]) true)) as (s2 & E2 & Hops2 & Hq2).
    { unfold reported. change 0xffff with 65535. destruct (Z.eqb_spec (e_end e) 65535) as [E1|E1]; cbn [andb].
      - destruct (Z.eqb_spec (e_end e) stop) as [E3|E3]; cbn [negb].
        + eexists. split; [reflexivity|]. split; [done|]. simpl. unfold rs'. rewrite <- E3. by destruct e as [[? ?] ?].
        + unfold patch_last_end. cbn [c_req mbind option_bind rq_results]. unfold rs'. rewrite last_snoc. cbn [mbind option_bind].
          change (rs_pdu (result_for (d, es0 ++ [e]))) with (concat (map entry_bytes (es0 ++ [e]))).
          replace (zlen answer - (d + 4) + 1) with (zlen (concat (map entry_bytes (es0 ++ [e]))) - (d + 4) + 2) by lia.
          rewrite (memcpy_last d) by done. cbn [mbind option_bind]. unfold on_req. cbn [c_req mbind option_bind rq_end_handle].
          eexists. split; [reflexivity|]. split; [done|]. simpl. do 3 f_equal.
          rewrite length_app. simpl. replace (length rs + 1 - 1)%nat with (length rs) by lia. by rewrite take_app_length.
      - eexists. split; [reflexivity|]. split; done. }
    rewrite E2 in Ecb. cbn [mbind option_bind] in Ecb.
    pose proof (complete_silent true 0 _ s2 Hq2 ltac:(simpl; lia) eq_refl) as Hc. cbv zeta in Hc. rewrite Hc in Ecb.
    erewrite (deliver_one i); [|reflexivity|exact Ecb|reflexivity|done|eexists; simpl; exact Hops2].
    eexists. split; [reflexivity|]. split; simpl.
    + rewrite Hops2. simpl. rewrite filter_cons_False by naive_solver. done.
    + by rewrite last_snoc.
Qed.

(** ** The two together *)

(** The PDU of an answer as the client's transport hands it over. *)
Definition answer_pdu (o : att_out) : option (Z * list Z) :=
  match o with
  | Rsp _ opcode pdu => Some (opcode, pdu)
  | ErrorRsp _ opcode h e => Some (BT_ATT_OP_ERROR_RSP, error_rsp_pdu opcode h (att_ecode_from_error e))
  | Refused _ _ | Send _ _ => None
  end.

Section Talk.
Context (authorize : option (Z -> Z)) (run_authorize : Z -> Z -> Z -> Z) (junk : Z -> Z) (chan : Z).

(** The server answers the request sent last, until the client waits no more. *)
Fixpoint talk (fuel : nat) (s : client) (g : server) : option (client * server) :=
  match c_ops s, fuel with
  | [], _ => Some (s, g)
  | _, O => None
  | o :: _, S fuel' =>
      match last (c_events s) with
      | Some (ESend opcode pdu) =>
          g' ← server_request authorize run_authorize junk chan opcode pdu g;
          answer ← last (g_out g');
          '(opcode, pdu) ← answer_pdu answer;
          s' ← deliver always silent (ao_id o) opcode (Some pdu) s;
          talk fuel' s' g'
      | _ => None
      end
  end.

Lemma talk_ended fuel s g b e r : ended s b e r -> talk fuel s g = Some (s, g).
Proof. intros [H _]. destruct fuel; simpl; by rewrite H. Qed.

Lemma StronglySorted_filter {A} (R : A -> A -> Prop) (P : A -> Prop) `{forall x, Decision (P x)} l :
  StronglySorted R l -> StronglySorted R (filter P l).
Proof.
  induction 1 as [|x l Hs IH Hx]; [constructor|]. rewrite filter_cons. destruct (decide (P x)); [|done].
  constructor; [done|]. apply Forall_forall. intros y [_ Hy]%list_elem_of_filter. rewrite Forall_forall in Hx. by apply Hx.
Qed.

(** What is left behind the entries of an answer. *)
Lemma filter_after L st es0 e es2 :
  StronglySorted entry_before L -> Forall (fun e => e_start e <= e_end e) L ->
  filter (fun e => st <= e_start e) L = (es0 ++ [e]) ++ es2 ->
  filter (fun e' => e_end e + 1 <= e_start e') L = es2 /\ Forall (fun e' => e_end e' < e_start e) es0 /\
  Forall (fun e' => e_end e < e_start e') es2 /\ st <= e_start e <= e_end e.
Proof.
  intros Hs Hr E.
  assert (Forall (fun e => e_start e <= e_end e) (filter (fun e => st <= e_start e) L)) as Hr2.
  { apply Forall_forall. intros x [_ Hx]%list_elem_of_filter. rewrite Forall_forall in Hr. by apply Hr. }
  assert (st <= e_start e) as Hst.
  { assert (e ∈ filter (fun e => st <= e_start e) L) as [? _]%list_elem_of_filter; [|done].
    rewrite E. apply elem_of_app. left. apply elem_of_app. right. by left. }
  pose proof (StronglySorted_filter entry_before (fun e => st <= e_start e) L Hs) as Hs2.
  rewrite E in Hr2, Hs2. apply Forall_app in Hr2 as [[Hr0 [Hre _]%Forall_cons]%Forall_app Hr2].
  rewrite <- app_assoc in Hs2. apply StronglySorted_app_iff in Hs2 as (Hs0 & Hs1 & Hs3).
  apply StronglySorted_inv in Hs1 as [Hs1 Hs2].
  assert (Forall (fun e' => e_end e' < e_start e) es0) as H0.
  { apply Forall_forall. intros x Hx. apply (Hs3 x e Hx). by left. }
  split_and!; try done.
  assert (filter (fun e' => e_end e + 1 <= e_start e') L
    = filter (fun e' => e_end e + 1 <= e_start e') (filter (fun e => st <= e_start e) L)) as ->.
  { rewrite list_filter_filter. apply list_filter_iff. intros x. lia. }
  rewrite E, !filter_app, filter_cons_False by lia. rewrite filter_nil.
  rewrite (filter_Forall_not _ es0), (filter_Forall _ es2); [done| |].
  - eapply Forall_impl; [exact Hs2|]. unfold entry_before. simpl. lia.
  - rewrite Forall_forall in *. intros x Hx. specialize (H0 x Hx). specialize (Hr0 x Hx). simpl in *. lia.
Qed.

Definition outcome (found : list entry) (s : client) : Prop :=
  match found with
  | [] => ended s false BT_ATT_ERROR_ATTRIBUTE_NOT_FOUND None
  | _ => exists e gs, ended s true e (Some (map result_for gs)) /\ Forall group_ok gs /\ concat (map snd gs) = found
  end.

Lemma concat_groups gs : Forall group_ok gs -> concat (map snd gs) = [] -> gs = [].
Proof. intros [|[d es] gs' [_ Hne _ _ _] _]; [done|]. simpl in *. by destruct es. Qed.

Lemma reported_small stop es : Forall (fun e => e_end e < 65535) es -> map (reported stop) es = es.
Proof.
  induction 1 as [|e es He Hes IH]; [done|]. simpl. rewrite IH. unfold reported. by replace (e_end e =? 65535) with false by lia.
Qed.

Lemma group_reported d es0 e stop :
  0 <= stop <= 65535 -> group_ok (d, es0 ++ [e]) -> group_ok (d, es0 ++ [reported stop e]).
Proof.
  intros Hs [G1 G2 G3 G4 G5]. simpl in *.
  apply Forall_app in G3 as [? [? _]%Forall_cons]. apply Forall_app in G5 as [? [? _]%Forall_cons].
  unfold reported. destruct (e_end e =? 65535).
  - split; simpl; [done|by destruct es0| |by rewrite zlen_app in *|];
      (apply Forall_app; split; [done|]; constructor; [|done]); unfold e_start, e_end in *; simpl; done || lia.
  - split; simpl; [done|by destruct es0| |done|]; (apply Forall_app; split; [done|]; by constructor).
Qed.

(** A client that ends with what it has found. *)
Lemma outcome_found gs e es0 d s :
  Forall group_ok gs -> group_ok (d, es0 ++ [e]) ->
  ended s true 0 (Some (map result_for gs ++ [result_for (d, es0 ++ [e])])) ->
  outcome (concat (map snd gs) ++ es0 ++ [e]) s.
Proof.
  intros Hgs Hg Hs. assert (concat (map snd gs) ++ es0 ++ [e] = concat (map snd (gs ++ [(d, es0 ++ [e])]))) as E.
  { rewrite map_app, concat_app. simpl. by rewrite app_nil_r. }
  unfold outcome. destruct (concat (map snd gs) ++ es0 ++ [e]) as [|x l] eqn:Ec.
  - by destruct (concat (map snd gs)), es0.
  - exists 0, (gs ++ [(d, es0 ++ [e])]). rewrite map_app. split; [exact Hs|]. split; [|done].
    apply Forall_app. split; [done|]. by constructor.
Qed.

Section Loop.
Context (type start stop : Z) (db : gatt_db) (L : list entry).
Hypothesis Hdb : db_ok db.
Hypothesis Htype : type = GATT_PRIM_SVC_UUID \/ type = GATT_SND_SVC_UUID.
Hypothesis Hrange : 1 <= start /\ start <= stop /\ stop <= 65535.
Hypothesis Hsorted : StronglySorted entry_before L.
Hypothesis Hentries : Forall (entry_ok start stop) L.
Hypothesis Hqueries : forall st, start <= st <= stop ->
  exists q, gatt_db_read_by_group_type st stop (BT_UUID16 type) db = Some q /\
    mapM (service_entry db) q = Some (filter (fun e => st <= e_start e) L) /\ Forall (is_decl db) q.

Lemma talk_finds n : forall st gs i evs g,
  g_db g = db -> 23 <= g_att_mtu g <= 65535 -> g_alive g = true -> start <= st <= stop -> 0 < i ->
  Forall group_ok gs -> (length (filter (fun e => (st <= e_start e)%Z) L) <= n)%nat ->
  exists s' g', talk (S n) (discovering i st stop type (map result_for gs) evs) g = Some (s', g') /\ g_db g' = db /\
    outcome (concat (map snd gs) ++ map (reported stop) (filter (fun e => st <= e_start e) L)) s'.
Proof.
  induction n as [n IH] using lt_wf_ind. intros st gs i evs g Hg Hm Ha Hst Hi Hgs Hn.
  set (es := filter (fun e => st <= e_start e) L) in *.
  assert (Forall (entry_ok start stop) es) as Hes.
  { apply Forall_forall. intros x [_ Hx]%list_elem_of_filter. rewrite Forall_forall in Hentries. by apply Hentries. }
  destruct (server_finds authorize run_authorize junk chan type st stop es g) as [Hnone Hsome];
    [by rewrite Hg|done|done|lia|lia|done|rewrite Hg; apply Hqueries; lia| |].
  { eapply Forall_impl; [exact Hes|]. by intros e (_ & _ & ? & _). }
  cbn [talk]. change (c_ops (discovering i st stop type (map result_for gs) evs)) with [mkAttOp i CReadByGrpType].
  cbn [c_events discovering]. rewrite last_snoc. cbn [ao_id].
  destruct (decide (es = [])) as [E|E].
  - rewrite (Hnone E). cbn [mbind option_bind bt_att_chan_send_error_rsp set_g_out g_out]. rewrite last_snoc.
    cbn [mbind option_bind answer_pdu].
    destruct (not_found_ends i st stop type (map result_for gs) evs st Hi) as (s' & Hd & He).
    change (att_ecode_from_error BT_ATT_ERROR_ATTRIBUTE_NOT_FOUND) with BT_ATT_ERROR_ATTRIBUTE_NOT_FOUND.
    rewrite Hd. cbn [mbind option_bind]. rewrite (talk_ended _ _ _ _ _ _ He).
    do 2 eexists. split; [reflexivity|]. split; [exact Hg|]. rewrite E, app_nil_r.
    destruct (concat (map snd gs)) as [|x l] eqn:Ec.
    + apply concat_groups in Ec as ->; [|done]. exact He.
    + exists BT_ATT_ERROR_ATTRIBUTE_NOT_FOUND, gs. rewrite Ec. split; [|done]. by destruct gs.
  - destruct (Hsome E) as (es1 & es2 & d & Esplit & Hne & Hd & Hl & Hf & ->).
    cbn [mbind option_bind bt_att_chan_send_rsp set_g_out g_out]. rewrite last_snoc.
    change (rsp_out ?c BT_ATT_OP_READ_BY_GRP_TYPE_RSP ?l) with (Rsp c BT_ATT_OP_READ_BY_GRP_TYPE_RSP l). cbn [mbind option_bind answer_pdu].
    destruct (exists_last Hne) as (es0 & e & ->).
    destruct (filter_after L st es0 e es2 Hsorted) as (Hnext & H0 & H2 & Hle); [|done|].
    { eapply Forall_impl; [exact Hentries|]. by intros x (_ & [? _] & _). }
    assert (Forall (entry_ok start stop) ((es0 ++ [e]) ++ es2)) as Hes' by (by rewrite <- Esplit).
    apply Forall_app in Hes' as [Hes1 Hes2].
    assert (group_ok (d, es0 ++ [e])) as Hgr.
    { split; simpl; try done. eapply Forall_impl; [exact Hes1|]. intros x (? & ? & _). lia. }
    assert (e_end e <= 65535) as Hmax by (apply Forall_app in Hes1 as [_ [(_ & ? & _) _]%Forall_cons]; lia).
    destruct (services_answered i st stop type (map result_for gs) evs d es0 e) as (s' & Hdel & Hs'); [done|lia|done|lia|lia|].
    rewrite Hdel. cbn [mbind option_bind].
    assert (map (reported stop) es0 = es0) as Hr0.
    { apply reported_small. eapply Forall_impl; [exact H0|]. simpl. lia. }
    destruct (Z.ltb_spec (e_end e) stop) as [Hlt|Hge].
    + subst s'. destruct n as [|n]; [rewrite Esplit, !length_app in Hn; simpl in Hn; lia|].
      destruct (IH n ltac:(lia) (e_end e + 1) (gs ++ [(d, es0 ++ [e])]) (i + 1)
        (c_events (discovering i st stop type (map result_for gs) evs))
        (bt_att_chan_send_rsp chan BT_ATT_OP_READ_BY_GRP_TYPE_RSP (d + 4 :: concat (map entry_bytes (es0 ++ [e]))) g))
        as (s' & g' & Et & Hg' & Ho); try done; try lia.
      { apply Forall_app. split; [done|]. by constructor. }
      { rewrite Hnext. rewrite Esplit, !length_app in Hn. simpl in Hn. lia. }
      rewrite map_app in Et. simpl map in Et. exists s', g'. split; [exact Et|]. split; [done|].
      rewrite Hnext in Ho. rewrite map_app, concat_app in Ho. simpl in Ho. rewrite app_nil_r in Ho.
      rewrite Esplit, !map_app, Hr0. simpl. unfold reported at 1. replace (e_end e =? 65535) with false by lia.
      by rewrite app_assoc.
    + rewrite (talk_ended _ _ _ _ _ _ Hs'). do 2 eexists. split; [reflexivity|]. split; [exact Hg|].
      assert (es2 = []) as ->.
      { destruct es2 as [|x l]; [done|]. apply Forall_cons in Hes2 as [(? & _) _]. apply Forall_cons in H2 as [? _]. lia. }
      rewrite Esplit, app_nil_r, map_app, Hr0. simpl map.
      apply (outcome_found gs (reported stop e) es0 d); [done|apply group_reported; [lia|done]|exact Hs'].
Qed.
End Loop.
End Talk.

Lemma entries_bound L : forall lo stop,
  Forall (entry_ok lo stop) L -> StronglySorted entry_before L -> stop <= 65535 -> zlen L <= Z.max 0 (65536 - lo).
Proof.
  induction L as [|e L IH]; intros lo stop Hok Hs Hstop; [unfold zlen; simpl; lia|].
  apply Forall_cons in Hok as [He Hok]. apply StronglySorted_inv in Hs as [Hs Hb]. rewrite zlen_cons.
  assert (zlen L <= Z.max 0 (65536 - (lo + 1))); [|destruct He; lia].
  apply (IH (lo + 1) stop); [|done|done]. apply Forall_forall. intros x Hx. rewrite Forall_forall in Hok, Hb.
  destruct (Hok x Hx) as (? & ? & ?). specialize (Hb x Hx). unfold entry_before in Hb. destruct He as (? & ? & _).
  split; [lia|by split].
Qed.

(** C29. A discovery finds the services of the server.  The client that discovers the
    primary or the secondary services between two handles, and the server that
    answers its requests from its database, come to an end, with any MTU; the
    client then has, in the order of the handles and each once, the services that
    start in the range, with their range (an end handle of 0xffff is taken for the
    end of the range asked for) and their UUID, and nothing else; when there is none
    the callback is told so.  The database stays as it is. *)
Theorem discovery_finds_services authorize run_authorize junk chan g (primary : bool) start stop buf :
  db_ok (g_db g) -> 23 <= g_att_mtu g <= 65535 -> g_alive g = true -> 1 <= start <= stop -> stop <= 65535 ->
  let type := if primary then GATT_PRIM_SVC_UUID else GATT_SND_SVC_UUID in
  exists L s s' g', services_found (BT_UUID16 type) start stop (g_db g) = Some L /\
    discover_services always None start stop true primary = Some (true, s) /\
    talk authorize run_authorize junk chan (S (length L)) s g = Some (s', g') /\ g_db g' = g_db g /\
    (L = [] -> ended s' false BT_ATT_ERROR_ATTRIBUTE_NOT_FOUND None) /\
    (L <> [] -> exists e rs, ended s' true e (Some rs) /\ bt_gatt_result_service_count rs = Some (zlen L) /\
       iterate (bt_gatt_iter_next_service BT_UUID_UNSPEC buf) (S (length L)) (mkIter rs 0)
       = Some (map (fun e => let e := reported stop e in (e_start e, e_end e, uuid128_of e.2)) L)).
Proof.
  intros Hdb Hm Ha Hst Hstop type.
  assert (type = GATT_PRIM_SVC_UUID \/ type = GATT_SND_SVC_UUID) as Ht by (destruct primary; tauto).
  destruct (services_found_ok (g_db g) (BT_UUID16 type) start stop) as (L & EL & Hs & He & Hq);
    [done|destruct Ht as [->| ->]; by apply comparable16|lia|].
  assert (filter (fun e => start <= e_start e) L = L) as Hall.
  { apply filter_Forall. eapply Forall_impl; [exact He|]. by intros e ([? _] & _). }
  destruct (talk_finds authorize run_authorize junk chan type start stop (g_db g) L Hdb Ht ltac:(lia) Hs He Hq
    (length L) start [] 1 [] g) as (s' & g' & Et & Hg' & Ho); try done; [lia|by rewrite Hall|].
  exists L, (discovering 1 start stop type [] []), s', g'.
  split; [done|]. split; [by destruct primary|]. split; [exact Et|]. split; [done|].
  rewrite Hall in Ho. simpl in Ho. split; [by intros ->|]. intros Hne.
  destruct L as [|e0 L0]; [done|]. simpl in Ho. destruct Ho as (e & gs & Hend & Hgs & Hc).
  destruct (group_results gs Hgs) as [Hwf Hel]. rewrite Hc in Hel.
  assert (Forall (fun r => rs_opcode r = BT_ATT_OP_READ_BY_GRP_TYPE_RSP) (map result_for gs)) as HQ.
  { apply Forall_map. by apply Forall_true. }
  assert (zlen (elements (map result_for gs)) = zlen (e0 :: L0)) as Hz.
  { rewrite Hel. unfold zlen. simpl. by rewrite !length_map. }
  pose proof (entries_bound _ _ _ He Hs Hstop) as Hb.
  exists e, (map result_for gs). split; [done|]. split.
  - rewrite count_services; [by rewrite Hz|done|done|rewrite Hz; lia].
  - rewrite iterate_services; [|done|done|unfold zlen in Hz; lia]. f_equal. rewrite Hel.
    change (reported stop e0 :: map (reported stop) L0) with (map (reported stop) (e0 :: L0)).
    rewrite !map_map. apply map_ext_in. intros x Hx%list_elem_of_In.
    rewrite Forall_forall in He. destruct (He x Hx) as (? & ? & _).
    rewrite service_of_entry; [done|..]; unfold reported; destruct (e_end x =? 65535); unfold e_start, e_end in *; simpl; lia.
Qed.

(** ** The theorem at work *)

(** A test for operations that insert and activate services. *)
Definition comparableb (u : bt_uuid) : bool :=
  match u with
  | BT_UUID16 v => bool_decide (0 <= v < 2 ^ 16)
  | BT_UUID128 l => bool_decide (bytes_ok l /\ length l = 16%nat)
  | _ => false
  end.

Definition insert_opb (o : db_op) (db : gatt_db) : bool :=
  match o with
  | Db_insert_service h u _ num =>
      comparableb u && bool_decide (0 < h <= UINT16_MAX) &&
      bool_decide (map_Forall (fun _ sv => ~ (h < svc_start sv /\ svc_end sv < h + num - 1)) (svc_heap db))
  | Db_set_active s _ => bool_decide (s ∈ services db)
  | _ => false
  end.

Fixpoint insert_run (os : list db_op) (db : gatt_db) : option gatt_db :=
  match os with
  | [] => Some db
  | o :: os' => if insert_opb o db then db' ← run_db_op o db; insert_run os' db' else None
  end.

Lemma insert_opb_ok o db : insert_opb o db = true -> db_op_ok o db.
Proof.
  destruct o as [h u p num| | | | | |s b| | |]; try done; simpl.
  - intros [[Hu Hh%bool_decide_eq_true]%andb_true_iff Hs%bool_decide_eq_true]%andb_true_iff.
    split; [|split; [lia|]].
    + destruct u as [|v|v|l]; try done; apply bool_decide_eq_true in Hu; by split.
    + replace (h =? 0) with false by lia. intros s sv. apply (Hs s sv).
  - intros Hs%bool_decide_eq_true. exact Hs.
Qed.

Lemma insert_run_reachable os : forall db db', insert_run os db = Some db' -> rtc db_step db db'.
Proof.
  induction os as [|o os IH]; intros db db'; simpl; [intros [= <-]; constructor|].
  destruct (insert_opb o db) eqn:E; [|done]. destruct (run_db_op o db) as [db1|] eqn:E1; simpl; [|done].
  intros H. eapply rtc_l; [|by apply IH]. exists o. split; [by apply insert_opb_ok|done].
Qed.

(** Attributes that are kept in the database can be read by the server. *)
Definition attr_invb (a : aptr) (A : gatt_db_attribute) : bool :=
  (0 <=? value_len A) && (value_len A <=? 65535) && (value_len A <=? zlen (value A)) &&
  bool_decide (read_func A = None) && bool_decide (write_func A = None) && (permissions A =? BT_ATT_PERM_READ).

Lemma attr_invb_ok a A : attr_invb a A = true -> attr_inv a A.
Proof.
  unfold attr_invb. rewrite !andb_true_iff, !bool_decide_eq_true, !Z.leb_le, Z.eqb_eq. intros H.
  split; [unfold value_ok; lia|tauto|tauto].
Qed.

Definition attrs_invb (db : gatt_db) : bool :=
  bool_decide (map_Forall (fun s sv => Forall (fun A => attr_invb (s, O) A = true) (attrs_of sv)) (svc_heap db)).

Lemma reachable_db_ok db : rtc db_step gatt_db_new db -> attrs_invb db = true -> db_ok db.
Proof.
  intros Hwf%reachable_wf H%bool_decide_eq_true. split; [done|]. intros [s i] A HA.
  apply (get_attr_spec db s i A Hwf) in HA as (sv & Hs & HA). apply (attr_invb_ok (s, i)).
  specialize (H s sv Hs). rewrite Forall_forall in H. by apply (H A), list_elem_of_lookup_2 with i.
Qed.

(** Two services with UUIDs of both sizes, a secondary one, and one up to 0xffff. *)
Definition four_inserts : list db_op := [
  Db_insert_service 0x01 (BT_UUID16 0x1800) true 4;
  Db_set_active 1 true;
  Db_insert_service 0x10 (BT_UUID128 (map Z.of_nat (seq 1 16))) true 2;
  Db_set_active 2 true;
  Db_insert_service 0x20 (BT_UUID16 0x180a) false 2;
  Db_set_active 3 true;
  Db_insert_service 0xfff0 (BT_UUID16 0x1801) true 16;
  Db_set_active 4 true].
Definition four_services : gatt_db := default gatt_db_new (insert_run four_inserts gatt_db_new).

Lemma four_services_ok : db_ok four_services.
Proof.
  apply reachable_db_ok; [|vm_compute; reflexivity].
  apply (insert_run_reachable four_inserts). unfold four_services.
  destruct (insert_run four_inserts gatt_db_new) as [db|] eqn:E; [done|]. vm_compute in E. discriminate.
Qed.

Definition four_server : server := bt_gatt_server_new four_services 23 23 0.

(** Three answers: the two UUIDs do not fit into one. *)
Lemma discovery_finds_services_witness :
  exists s s' g' rs e, discover_services always None 1 0xffff true true = Some (true, s) /\
    talk no_db_authorize grant_all zeroed 1 4 s four_server = Some (s', g') /\
    ended s' true e (Some rs) /\
    iterate (bt_gatt_iter_next_service BT_UUID_UNSPEC []) 4 (mkIter rs 0)
    = Some [ (0x01, 0x04, [0; 0; 0x18; 0; 0; 0; 16; 0; 128; 0; 0; 128; 95; 155; 52; 251]);
             (0x10, 0x11, map Z.of_nat (seq 1 16));
             (0xfff0, 0xffff, [0; 0; 0x18; 1; 0; 0; 16; 0; 128; 0; 0; 128; 95; 155; 52; 251]) ].
Proof.
  destruct (discovery_finds_services no_db_authorize grant_all zeroed 1 four_server true 1 0xffff [] four_services_ok)
    as (L & s & s' & g' & EL & Es & Et & _ & _ & H); [vm_compute; split; discriminate|done|lia|lia|].
  assert (services_found (BT_UUID16 GATT_PRIM_SVC_UUID) 1 65535 four_services
    = Some [ (0x01, 0x04, [0; 0x18]); (0x10, 0x11, rev (map Z.of_nat (seq 1 16))); (0xfff0, 0xffff, [1; 0x18]) ]) as EL'
    by (vm_compute; reflexivity).
  change (g_db four_server) with four_services in EL. rewrite EL' in EL. injection EL as <-.
  destruct H as (e & rs & He & _ & Hit); [done|]. exists s, s', g', rs, e. split_and!; [done..|].
  etransitivity; [exact Hit|]. vm_compute. reflexivity.
Defined.
