(* ===== verification/Iutils.v ===== *)
(** Class Iutils (src/imp/common/iutils.cpp): the CRC of the update packets, the
    suffix of a file name. *)
From S2P Require Import Prelude.

(** ** crc_rc16 *)

Definition G16 : Z := 0x11021.

(** One turn of the two loops over bits: [b] is the bit that is shifted in. *)
Definition crc_bit (CRC_DATA b : Z) : Z :=
  let CRC_DATA := Z.lor (u32 (Z.shiftl CRC_DATA 1)) b in
  if Z.testbit CRC_DATA 16 then Z.lxor CRC_DATA G16 else CRC_DATA.

Definition crc_byte (CRC_DATA p : Z) : Z :=
  foldl (fun crc RC_Lenght => crc_bit crc (Z.land (Z.shiftr p RC_Lenght) 1)) CRC_DATA [7; 6; 5; 4; 3; 2; 1; 0].

(** The last loop: sixteen zero bits. *)
Definition crc_flush (CRC_DATA : Z) : Z := foldl crc_bit CRC_DATA (replicate 16 0).

(** The loop over the bytes; its counter [Lenght_Buf] is an unsigned char, [pos] is
    where [p] points to. *)
Fixpoint crc_loop (fuel : nat) (data : list Z) (data_len Lenght_Buf : Z) (pos : nat) (CRC_DATA : Z) : option Z :=
  match fuel with
  | O => None
  | S fuel' =>
      if Lenght_Buf <? data_len then
        b ← data !! pos;
        crc_loop fuel' data data_len (u8 (Lenght_Buf + 1)) (S pos) (crc_byte CRC_DATA b)
      else Some CRC_DATA
  end.

(** [data] is what the pointer points to. *)
Definition crc_rc16 (data : list Z) (data_len : Z) : option Z :=
  CRC_DATA ← crc_loop 257 data data_len 0 0 0;
  Some (u16 (crc_flush CRC_DATA)).

(** ** getSuffix *)

(** The part behind the last character of [separator] in [input]; empty when there
    is none or it is the last. *)
Fixpoint find_last_of (separator : list Z) (i : nat) (input : list Z) : option nat :=
  match input with
  | [] => None
  | c :: input' =>
      match find_last_of separator (S i) input' with
      | Some p => Some p
      | None => if bool_decide (c ∈ separator) then Some i else None
      end
  end.

Definition getSuffix (input separator : list Z) : list Z :=
  match find_last_of separator 0 input with
  | None => []
  | Some pos => if (pos =? length input - 1)%nat then [] else drop (pos + 1) input
  end.

(** ** The CRC as a shift register *)

Definition reg_ok (r : Z) : Prop := 0 <= r < 2 ^ 16.

(** The register behind a list of bits. *)
Definition crc_bits (r : Z) (bs : list Z) : Z := foldl crc_bit r bs.
Definition bits_of (b : Z) : list Z := map (fun i => Z.land (Z.shiftr b i) 1) [7; 6; 5; 4; 3; 2; 1; 0].
Definition message (l : list Z) : list Z := concat (map bits_of l).
Definition is_bit (b : Z) : Prop := b = 0 \/ b = 1.
Definition zeros (n : nat) : list Z := replicate n 0.

Lemma crc_byte_bits r b : crc_byte r b = crc_bits r (bits_of b).
Proof. unfold crc_byte, crc_bits, bits_of. cbn [foldl map]. reflexivity. Qed.

Lemma crc_flush_bits r : crc_flush r = crc_bits r (zeros 16).
Proof. unfold crc_flush, crc_bits, zeros. reflexivity. Qed.

Lemma crc_bits_app r l1 l2 : crc_bits r (l1 ++ l2) = crc_bits (crc_bits r l1) l2.
Proof. apply foldl_app. Qed.

Lemma land1_mod x : Z.land x 1 = x mod 2.
Proof. apply (Z.land_ones x 1). lia. Qed.

Lemma land1_bit x : is_bit (Z.land x 1).
Proof. unfold is_bit. rewrite land1_mod. pose proof (Z.mod_pos_bound x 2). lia. Qed.

Lemma bits_of_ok b : Forall is_bit (bits_of b).
Proof. apply Forall_map, Forall_true. intros. apply land1_bit. Qed.

Lemma message_ok l : Forall is_bit (message l).
Proof. apply Forall_concat, Forall_map, Forall_true. intros. apply bits_of_ok. Qed.

Lemma zeros_ok n : Forall is_bit (zeros n).
Proof. apply Forall_replicate. by left. Qed.

(** A bit is shifted in; the polynomial is added when one leaves on top. *)
Lemma crc_bit_eq r b : reg_ok r -> is_bit b ->
  crc_bit r b = Z.lxor (Z.lxor (Z.shiftl r 1) b) (if Z.testbit r 15 then G16 else 0).
Proof.
  intros Hr Hb. unfold crc_bit, reg_ok in *. rewrite wrap_small.
  2: { rewrite Z.shiftl_mul_pow2 by lia. change (2 ^ 32) with 4294967296. change (2 ^ 16) with 65536 in Hr. lia. }
  assert (Z.lor (Z.shiftl r 1) b = Z.lxor (Z.shiftl r 1) b) as ->.
  { symmetry. apply Z.lxor_lor. destruct Hb as [-> | ->]; [apply Z.land_0_r|].
    rewrite land1_mod, Z.shiftl_mul_pow2 by lia. change (2 ^ 1) with 2. apply Z.mod_mul. lia. }
  rewrite Z.lxor_spec, Z.shiftl_spec by lia. change (16 - 1) with 15.
  assert (Z.testbit b 16 = false) as -> by (by destruct Hb as [-> | ->]). rewrite xorb_false_r.
  destruct (Z.testbit r 15); [done|]. by rewrite Z.lxor_0_r.
Qed.

Lemma reg_ok_bits r : 0 <= r -> (forall n, 16 <= n -> Z.testbit r n = false) -> reg_ok r.
Proof.
  intros Hr Hn. split; [done|]. assert (r = r mod 2 ^ 16) as ->; [|apply Z.mod_pos_bound; lia].
  apply Z.bits_inj'. intros n H. destruct (Z.lt_ge_cases n 16) as [Hlt|Hge].
  - by rewrite Z.mod_pow2_bits_low.
  - rewrite Z.mod_pow2_bits_high by lia. by apply Hn.
Qed.

Lemma reg_ok_high r n : reg_ok r -> 16 <= n -> Z.testbit r n = false.
Proof.
  intros [H1 H2] Hn. destruct (Z.eq_dec r 0) as [->|H0]; [apply Z.bits_0|].
  apply Z.bits_above_log2; [done|]. apply Z.log2_lt_pow2 in H2; lia.
Qed.

Lemma lxor_reg r1 r2 : reg_ok r1 -> reg_ok r2 -> reg_ok (Z.lxor r1 r2).
Proof.
  intros H1 H2. apply reg_ok_bits; [apply Z.lxor_nonneg; destruct H1, H2; lia|].
  intros n Hn. by rewrite Z.lxor_spec, !reg_ok_high.
Qed.

Lemma crc_bit_reg r b : reg_ok r -> is_bit b -> reg_ok (crc_bit r b).
Proof.
  intros Hr Hb. rewrite crc_bit_eq by done. destruct Hr as [Hr1 Hr2].
  apply reg_ok_bits.
  - rewrite !Z.lxor_nonneg, Z.shiftl_nonneg. unfold G16. destruct Hb, (Z.testbit r 15); lia.
  - intros n Hn. rewrite !Z.lxor_spec, Z.shiftl_spec by lia.
    assert (Z.testbit b n = false) as ->.
    { destruct Hb as [-> | ->]; [apply Z.bits_0|]. apply Z.bits_above_log2; simpl; lia. }
    rewrite xorb_false_r. destruct (Z.eq_dec n 16) as [->|Hne].
    + change (16 - 1) with 15. by destruct (Z.testbit r 15).
    + rewrite (reg_ok_high r) by (unfold reg_ok; lia).
      destruct (Z.testbit r 15); [|apply Z.bits_0]. apply Z.bits_above_log2; [done|]. unfold G16. simpl. lia.
Qed.

Lemma crc_bits_reg bs : forall r, reg_ok r -> Forall is_bit bs -> reg_ok (crc_bits r bs).
Proof.
  induction bs as [|b bs IH]; intros r Hr; [done|]. intros [Hb Hbs]%Forall_cons. apply IH; [by apply crc_bit_reg|done].
Qed.

(** The register is linear in what it starts from and in the bits. *)
Definition xor_bits : list Z -> list Z -> list Z := zip_with Z.lxor.

Lemma crc_bit_linear r1 r2 b1 b2 :
  reg_ok r1 -> reg_ok r2 -> is_bit b1 -> is_bit b2 ->
  crc_bit (Z.lxor r1 r2) (Z.lxor b1 b2) = Z.lxor (crc_bit r1 b1) (crc_bit r2 b2).
Proof.
  intros H1 H2 Hb1 Hb2. assert (is_bit (Z.lxor b1 b2)).
  { unfold is_bit. destruct Hb1 as [-> | ->], Hb2 as [-> | ->]; simpl; auto. }
  rewrite !crc_bit_eq by (done || by apply lxor_reg). rewrite Z.lxor_spec, Z.shiftl_lxor.
  apply Z.bits_inj'. intros n _. rewrite !Z.lxor_spec.
  destruct (Z.testbit r1 15), (Z.testbit r2 15); cbn [xorb]; rewrite ?Z.bits_0;
    repeat match goal with |- context [Z.testbit ?x n] => destruct (Z.testbit x n) end; done.
Qed.

Lemma crc_bits_linear bs1 : forall bs2 r1 r2,
  length bs1 = length bs2 -> reg_ok r1 -> reg_ok r2 -> Forall is_bit bs1 -> Forall is_bit bs2 ->
  crc_bits (Z.lxor r1 r2) (xor_bits bs1 bs2) = Z.lxor (crc_bits r1 bs1) (crc_bits r2 bs2).
Proof.
  induction bs1 as [|b1 bs1 IH]; intros [|b2 bs2] r1 r2 Hl H1 H2; try done.
  intros [Hb1 Hbs1]%Forall_cons [Hb2 Hbs2]%Forall_cons. simpl in Hl.
  cbn [xor_bits zip_with crc_bits foldl]. fold (crc_bits (crc_bit r1 b1) bs1). fold (crc_bits (crc_bit r2 b2) bs2).
  rewrite crc_bit_linear by done. apply IH; [lia|by apply crc_bit_reg|by apply crc_bit_reg|done|done].
Qed.

(** Zeros keep zero, and nothing else gets there by zeros. *)
Lemma crc_zeros n : crc_bits 0 (zeros n) = 0.
Proof. induction n as [|n IH]; [done|]. exact IH. Qed.

Lemma crc_bit_0 r : reg_ok r -> crc_bit r 0 = 0 -> r = 0.
Proof.
  intros Hr E. rewrite crc_bit_eq, Z.lxor_0_r in E by (done || by left). apply Z.lxor_eq in E.
  rewrite Z.shiftl_mul_pow2 in E by lia. unfold G16 in E. destruct (Z.testbit r 15); lia.
Qed.

Lemma crc_zeros_0 n : forall r, reg_ok r -> crc_bits r (zeros n) = 0 -> r = 0.
Proof.
  induction n as [|n IH]; intros r Hr E; [done|]. apply crc_bit_0; [done|].
  apply IH; [by apply crc_bit_reg; [|left]|exact E].
Qed.

(** Sixteen bits are shifted in before the polynomial matters. *)
Definition bits_value (r : Z) (bs : list Z) : Z := foldl (fun acc b => 2 * acc + b) r bs.

Lemma crc_bits_small bs : forall r k,
  0 <= r < 2 ^ k -> 0 <= k -> k + zlen bs <= 16 -> Forall is_bit bs -> crc_bits r bs = bits_value r bs.
Proof.
  induction bs as [|b bs IH]; intros r k Hr Hk Hl; [done|]. intros [Hb Hbs]%Forall_cons.
  rewrite zlen_cons in Hl. pose proof (zlen_nonneg bs).
  assert (2 ^ (k + 1) = 2 * 2 ^ k) as Hp by (rewrite Z.pow_add_r by lia; lia).
  assert (2 ^ (k + 1) <= 2 ^ 16) by (apply Z.pow_le_mono_r; lia).
  assert (crc_bit r b = 2 * r + b) as E.
  { rewrite crc_bit_eq by (done || (unfold reg_ok; lia)).
    assert (Z.testbit r 15 = false) as ->.
    { destruct (Z.eq_dec r 0) as [->|Hn]; [done|]. apply Z.bits_above_log2; [lia|].
      assert (Z.log2 r < k) by (apply Z.log2_lt_pow2; lia). lia. }
    rewrite Z.lxor_0_r, Z.shiftl_mul_pow2 by lia. change (2 ^ 1) with 2.
    destruct Hb as [-> | ->]; [rewrite Z.lxor_0_r; lia|].
    rewrite <- Z.add_nocarry_lxor; [lia|]. rewrite land1_mod. apply Z.mod_mul. lia. }
  cbn [crc_bits bits_value foldl]. rewrite E. apply (IH (2 * r + b) (k + 1)); [destruct Hb; lia|lia|lia|done].
Qed.

Lemma bits_value_app r l1 l2 : bits_value r (l1 ++ l2) = bits_value (bits_value r l1) l2.
Proof. apply foldl_app. Qed.

Lemma bits_value_shift bs : forall r, bits_value r bs = r * 2 ^ zlen bs + bits_value 0 bs.
Proof.
  induction bs as [|b bs IH]; intros r; [change (2 ^ zlen []) with 1; simpl; lia|]. cbn [bits_value foldl].
  change (foldl _ ?a bs) with (bits_value a bs). rewrite (IH (2 * r + b)), (IH (2 * 0 + b)), zlen_cons.
  rewrite Z.pow_add_r by (pose proof (zlen_nonneg bs); lia). lia.
Qed.

Lemma bits_value_byte a : is_byte a -> bits_value 0 (bits_of a) = a.
Proof.
  intros Ha. assert (forallb (fun a => bits_value 0 (bits_of a) =? a) (seqZ 0 256) = true) as H by (vm_compute; reflexivity).
  rewrite forallb_forall in H. specialize (H a). rewrite <- list_elem_of_In, elem_of_seqZ in H.
  apply Z.eqb_eq, H. exact Ha.
Qed.

Lemma message_value l : bytes_ok l -> forall r, bits_value r (message l) = be_value_from r l.
Proof.
  induction 1 as [|a l Ha Hl IH]; intros r; [done|]. unfold message. cbn [map concat].
  rewrite bits_value_app, (bits_value_shift (bits_of a) r), bits_value_byte by done.
  change (2 ^ zlen (bits_of a)) with 256. apply IH.
Qed.

Lemma length_message l : length (message l) = (8 * length l)%nat.
Proof. induction l as [|a l IH]; [done|]. unfold message in *. cbn [map concat]. rewrite length_app, IH. simpl. lia. Qed.

(** The register behind one or two bytes. *)
Lemma crc_short l : bytes_ok l -> (length l <= 2)%nat -> crc_bits 0 (message l) = be_value l.
Proof.
  intros Hl Hn. rewrite (crc_bits_small _ 0 0); [|lia|lia| |apply message_ok].
  - by apply message_value.
  - unfold zlen. rewrite length_message. lia.
Qed.

Definition xor_bytes : list Z -> list Z -> list Z := zip_with Z.lxor.

Lemma bits_of_xor a b : bits_of (Z.lxor a b) = xor_bits (bits_of a) (bits_of b).
Proof.
  unfold bits_of, xor_bits. cbn [map zip_with].
  assert (forall i, Z.land (Z.shiftr (Z.lxor a b) i) 1 = Z.lxor (Z.land (Z.shiftr a i) 1) (Z.land (Z.shiftr b i) 1)) as E.
  { intros i. apply Z.bits_inj'. intros n Hn. rewrite !Z.lxor_spec, !Z.land_spec, Z.shiftr_lxor, Z.lxor_spec.
    destruct (Z.testbit 1 n); by rewrite ?andb_true_r, ?andb_false_r. }
  by rewrite !E.
Qed.

Lemma message_xor l1 : forall l2, length l1 = length l2 ->
  message (xor_bytes l1 l2) = xor_bits (message l1) (message l2).
Proof.
  induction l1 as [|a l1 IH]; intros [|b l2] Hl; try done. simpl in Hl.
  unfold message, xor_bytes in *. cbn [zip_with map concat]. rewrite bits_of_xor, IH by lia.
  unfold xor_bits. by rewrite zip_with_app.
Qed.

Lemma xor_bits_zeros l : xor_bits l (zeros (length l)) = l.
Proof. induction l as [|a l IH]; [done|]. unfold xor_bits, zeros in *. cbn [length replicate zip_with]. by rewrite IH, Z.lxor_0_r. Qed.

Lemma xor_bits_self l : xor_bits l l = zeros (length l).
Proof. induction l as [|a l IH]; [done|]. unfold xor_bits, zeros in *. cbn [length replicate zip_with]. by rewrite IH, Z.lxor_nilpotent. Qed.

(** ** The loop *)

Lemma crc_loop_spec data data_len : 0 <= data_len <= 255 -> data_len <= zlen data ->
  forall n i fuel r, data_len - i = Z.of_nat n -> 0 <= i -> (n < fuel)%nat ->
  crc_loop fuel data data_len i (Z.to_nat i) r = Some (crc_bits r (message (slice i (data_len - i) data))).
Proof.
  intros Hl Hz. induction n as [|n IH]; intros i fuel r Hn Hi Hf; (destruct fuel as [|fuel]; [lia|]); cbn [crc_loop].
  - replace (i <? data_len) with false by lia. replace (data_len - i) with 0 by lia. by rewrite slice_0.
  - replace (i <? data_len) with true by lia.
    assert (is_Some (data !! Z.to_nat i)) as [b Hb] by (apply lookup_lt_is_Some; unfold zlen in Hz; lia).
    rewrite Hb. cbn [mbind option_bind]. rewrite wrap_small by lia.
    replace (S (Z.to_nat i)) with (Z.to_nat (i + 1)) by lia. rewrite IH by lia. rewrite crc_byte_bits.
    assert (slice i (data_len - i) data = b :: slice (i + 1) (data_len - (i + 1)) data) as ->.
    { unfold slice. replace (Z.to_nat (data_len - i)) with (S (Z.to_nat (data_len - (i + 1)))) by lia.
      rewrite (drop_S _ _ _ Hb). simpl. do 3 f_equal. lia. }
    change (message (b :: slice (i + 1) (data_len - (i + 1)) data))
      with (bits_of b ++ message (slice (i + 1) (data_len - (i + 1)) data)). rewrite crc_bits_app. reflexivity.
Qed.

Lemma crc_rc16_spec data data_len : 0 <= data_len <= 255 -> data_len <= zlen data ->
  crc_rc16 data data_len = Some (crc_bits 0 (message (slice 0 data_len data) ++ zeros 16)).
Proof.
  intros Hl Hz. unfold crc_rc16.
  pose proof (crc_loop_spec data data_len Hl Hz (Z.to_nat data_len) 0 257 0 ltac:(lia) ltac:(lia) ltac:(lia)) as E.
  rewrite Z.sub_0_r in E. change (Z.to_nat 0) with O in E. rewrite E. clear E.
  cbn [mbind option_bind]. set (m := message (slice 0 data_len data)).
  assert (reg_ok (crc_bits (crc_bits 0 m) (zeros 16))) as Hr.
  { apply crc_bits_reg; [|apply zeros_ok]. apply crc_bits_reg; [unfold reg_ok; lia|apply message_ok]. }
  rewrite (crc_bits_app 0 m (zeros 16)), crc_flush_bits. f_equal. apply wrap_small, Hr.
Qed.

Lemma crc_loop_endless fuel data data_len : 256 <= data_len -> forall i pos r, 0 <= i < 256 ->
  crc_loop fuel data data_len i pos r = None.
Proof.
  intros Hl. induction fuel as [|fuel IH]; intros i pos r Hi; [done|]. cbn [crc_loop].
  replace (i <? data_len) with true by lia. destruct (data !! pos) as [b|]; [|done]. cbn [mbind option_bind].
  apply IH. apply wrap_range. lia.
Qed.

(** ** What the CRC protects *)

Lemma crc_of data : zlen data <= 255 ->
  crc_rc16 data (zlen data) = Some (crc_bits 0 (message data ++ zeros 16)).
Proof. intros H. rewrite crc_rc16_spec by (pose proof (zlen_nonneg data); lia). by rewrite slice_all. Qed.

Lemma message_app l1 l2 : message (l1 ++ l2) = message l1 ++ message l2.
Proof. unfold message. by rewrite map_app, concat_app. Qed.

(** The CRC of a message that is followed by its CRC. *)
Lemma crc_residue data c : zlen data <= 253 -> crc_rc16 data (zlen data) = Some c ->
  crc_rc16 (data ++ be_bytes 2 c) (zlen data + 2) = Some 0.
Proof.
  intros Hz Hc. rewrite crc_of in Hc by lia. injection Hc as Hc.
  replace (zlen data + 2) with (zlen (data ++ be_bytes 2 c)) by (rewrite zlen_app, zlen_be_bytes; lia).
  rewrite crc_of by (rewrite zlen_app, zlen_be_bytes; lia). f_equal.
  set (m := message data) in *. set (r := crc_bits 0 m).
  assert (reg_ok r) as Hr by (apply crc_bits_reg; [unfold reg_ok; lia|apply message_ok]).
  assert (crc_bits r (zeros 16) = c) as Hc' by (unfold r; by rewrite <- crc_bits_app).
  assert (reg_ok c) as Hcr by (rewrite <- Hc'; apply crc_bits_reg; [done|apply zeros_ok]).
  rewrite message_app, <- app_assoc, (crc_bits_app 0 m). fold r.
  rewrite (crc_bits_app r (message (be_bytes 2 c))).
  assert (crc_bits r (message (be_bytes 2 c)) = 0) as ->; [|apply crc_zeros].
  assert (length (message (be_bytes 2 c)) = 16%nat) as Hlen by (by rewrite length_message, length_be_bytes).
  pose proof (crc_bits_linear (zeros 16) (message (be_bytes 2 c)) r 0) as Hlin.
  rewrite Z.lxor_0_r in Hlin. rewrite Hc', (crc_short (be_bytes 2 c)), be_value_bytes in Hlin;
    [|apply be_bytes_ok|by rewrite length_be_bytes].
  rewrite Z.mod_small in Hlin by exact Hcr. rewrite Z.lxor_nilpotent in Hlin.
  rewrite <- Hlin; [|by rewrite Hlen|done|unfold reg_ok; lia|apply zeros_ok|apply message_ok].
  reflexivity.
Qed.

(** A change within two adjacent bytes changes the CRC. *)
Lemma crc_burst pre m1 m2 post : length m1 = length m2 -> (length m1 <= 2)%nat -> bytes_ok m1 -> bytes_ok m2 -> m1 <> m2 ->
  crc_bits 0 (message (pre ++ m1 ++ post) ++ zeros 16) <> crc_bits 0 (message (pre ++ m2 ++ post) ++ zeros 16).
Proof.
  intros Hl Hn H1 H2 Hne E.
  assert (reg_ok 0) as H0 by (unfold reg_ok; lia).
  pose proof (crc_bits_linear (message (pre ++ m1 ++ post) ++ zeros 16) (message (pre ++ m2 ++ post) ++ zeros 16) 0 0) as Hlin.
  rewrite E, (Z.lxor_nilpotent (crc_bits _ _)) in Hlin. change (Z.lxor 0 0) with 0 in Hlin.
  assert (xor_bits (message (pre ++ m1 ++ post) ++ zeros 16) (message (pre ++ m2 ++ post) ++ zeros 16)
    = zeros (length (message pre)) ++ message (xor_bytes m1 m2) ++ zeros (length (message post)) ++ zeros 16) as Ex.
  { rewrite !message_app, <- !app_assoc. unfold xor_bits.
    rewrite zip_with_app by done. rewrite (zip_with_app _ (message m1)) by (by rewrite !length_message, Hl).
    rewrite zip_with_app by done. fold xor_bits. by rewrite !xor_bits_self, message_xor. }
  rewrite Ex in Hlin. specialize (Hlin ltac:(rewrite !length_app, !length_message, !length_app, Hl; done) H0 H0
    ltac:(apply Forall_app; split; [apply message_ok|apply zeros_ok]) ltac:(apply Forall_app; split; [apply message_ok|apply zeros_ok])).
  rewrite !crc_bits_app, crc_zeros in Hlin.
  assert (bytes_ok (xor_bytes m1 m2)) as Hx.
  { apply Forall_forall. intros x Hx. apply elem_of_lookup_zip_with in Hx as (i & a & b & -> & Ha & Hb).
    apply lxor_byte; [by eapply Forall_lookup_1 in H1|by eapply Forall_lookup_1 in H2]. }
  assert (reg_ok (crc_bits 0 (message (xor_bytes m1 m2)))) as Hr by (apply crc_bits_reg; [done|apply message_ok]).
  apply crc_zeros_0 in Hlin; [|by apply crc_bits_reg; [|apply zeros_ok]]. apply crc_zeros_0 in Hlin; [|done].
  rewrite crc_short in Hlin; [|done|unfold xor_bytes; rewrite length_zip_with; lia].
  apply Hne. clear -Hl Hn H1 H2 Hlin Hx.
  destruct m1 as [|a1 [|b1 [|]]], m2 as [|a2 [|b2 [|]]]; simpl in Hl, Hn; try lia; try done;
    unfold xor_bytes, be_value in Hlin; cbn [zip_with be_value_from] in Hlin;
    unfold xor_bytes in Hx; cbn [zip_with] in Hx; unfold bytes_ok in Hx; rewrite !Forall_cons in Hx; unfold is_byte in Hx.
  - assert (Z.lxor a1 a2 = 0) as ->%Z.lxor_eq by lia. done.
  - assert (Z.lxor a1 a2 = 0) as ->%Z.lxor_eq by lia. assert (Z.lxor b1 b2 = 0) as ->%Z.lxor_eq by lia. done.
Qed.

(** The CRC protects a packet.  For the lengths it can count, [crc_rc16] returns a
    16-bit value; a message with its CRC behind it has the CRC 0; two messages that
    differ only within two adjacent bytes have different CRCs.  From 256 bytes on
    the loop never ends, because its counter is an unsigned char. *)
Theorem crc_protects :
  (forall data, zlen data <= 253 -> exists c, crc_rc16 data (zlen data) = Some c /\ 0 <= c < 2 ^ 16 /\
     crc_rc16 (data ++ be_bytes 2 c) (zlen data + 2) = Some 0) /\
  (forall pre m1 m2 post, zlen (pre ++ m1 ++ post) <= 255 -> length m1 = length m2 -> (length m1 <= 2)%nat ->
     bytes_ok m1 -> bytes_ok m2 -> m1 <> m2 ->
     crc_rc16 (pre ++ m1 ++ post) (zlen (pre ++ m1 ++ post)) <> crc_rc16 (pre ++ m2 ++ post) (zlen (pre ++ m2 ++ post))) /\
  (forall fuel data data_len, 256 <= data_len -> crc_loop fuel data data_len 0 0 0 = None).
Proof.
  split; [|split].
  - intros data Hz. eexists. split; [apply crc_of; lia|]. split.
    + apply crc_bits_reg; [unfold reg_ok; lia|]. apply Forall_app. split; [apply message_ok|apply zeros_ok].
    + apply crc_residue; [done|]. apply crc_of. lia.
  - intros pre m1 m2 post Hz Hl Hn H1 H2 Hne E.
    rewrite !crc_of in E by (done || (rewrite !zlen_app in *; unfold zlen in *; lia)). injection E as E.
    by apply (crc_burst pre m1 m2 post Hl Hn H1 H2 Hne).
  - intros fuel data data_len H. apply crc_loop_endless; [done|lia].
Qed.

(** The check value of the CRC: that of the digits 1 to 9. *)
Lemma crc_protects_witness :
  crc_rc16 (seqZ 49 9) 9 = Some 0x31c3 /\ crc_rc16 (seqZ 49 9 ++ [0x31; 0xc3]) 11 = Some 0.
Proof.
  destruct crc_protects as (H & _ & _). destruct (H (seqZ 49 9)) as (c & E & _ & Hr); [vm_compute; discriminate|].
  assert (crc_rc16 (seqZ 49 9) 9 = Some 0x31c3) as Ec by (vm_compute; reflexivity).
  change (zlen (seqZ 49 9)) with 9 in E, Hr. split; [exact Ec|]. rewrite Ec in E. injection E as <-. exact Hr.
Defined.

(** *** Suffixes *)

Lemma find_last_of_none separator i l : (forall c, c ∈ l -> c ∉ separator) -> find_last_of separator i l = None.
Proof.
  revert i. induction l as [|c l IH]; intros i H; [done|]. cbn [find_last_of].
  rewrite IH by (intros; apply H; by right). rewrite bool_decide_false; [done|]. apply H. by left.
Qed.

Lemma find_last_of_app separator c l : forall pre i, c ∈ separator -> (forall c, c ∈ l -> c ∉ separator) ->
  find_last_of separator i (pre ++ c :: l) = Some (i + length pre)%nat.
Proof.
  induction pre as [|x pre IH]; intros i Hc Hl; cbn [find_last_of app length].
  - rewrite find_last_of_none by done. rewrite bool_decide_true by done. f_equal. lia.
  - rewrite IH by done. f_equal. lia.
Qed.

Lemma getSuffix_spec separator pre c suffix :
  c ∈ separator -> (forall c, c ∈ suffix -> c ∉ separator) -> getSuffix (pre ++ c :: suffix) separator = suffix.
Proof.
  intros Hc Hs. unfold getSuffix. rewrite find_last_of_app by done. cbn [Nat.add]. rewrite length_app. cbn [length].
  destruct (Nat.eqb_spec (length pre) (length pre + S (length suffix) - 1)).
  - destruct suffix as [|x suffix]; [done|]. simpl in *. lia.
  - rewrite <- drop_drop, drop_app_length. done.
Qed.
