(* ===== verification/DeviceProtocol.v ===== *)
(** The frames of the device updater: class Protocol
    (src/imp/device-update/Protocol.h, Protocol.cpp). *)
From S2P Require Import Prelude.

(** ** Layout *)

Definition FLAG_1 : Z := 0x55.
Definition FLAG_2 : Z := 0xAA.

(** [sizeof(Head)], [sizeof(AddressInfo)], [sizeof(Address)], [sizeof(CheckCode)],
    [offsetof(Head, control_code)]. *)
Definition sizeof_Head : Z := 5.
Definition sizeof_AddressInfo : Z := 1.
Definition sizeof_Address : Z := 2.
Definition sizeof_CheckCode : Z := 1.
Definition offset_control_code : Z := 3.

(** The bits of [ControlCode]. *)
Definition read_write_flag (code : Z) : bool := Z.testbit code 0.
Definition dst_addr_switch (code : Z) : bool := Z.testbit code 2.
Definition src_addr_switch (code : Z) : bool := Z.testbit code 3.
Definition control_frame_switch (code : Z) : bool := Z.testbit code 7.
Definition ControlCode (read_write dst control_frame : bool) : Z :=
  Z.b2z read_write + 4 * Z.b2z dst + 128 * Z.b2z control_frame.

Definition GetMinProtocolSize : Z := sizeof_Head + 1 + sizeof_CheckCode + sizeof_AddressInfo + sizeof_Address.

(** The XOR of [length] bytes. *)
Definition GenCheckCode (p_data : list Z) (length : Z) : option Z :=
  d ← memread p_data 0 length; Some (foldl Z.lxor 0 d).

(** ** Mux *)

(** The bytes of [input] are framed in the buffer [out]; the result is the buffer
    and the length of the frame. *)
Definition Mux (input : list Z) (p_address : option Z) (control_code : Z) (out : list Z) : option (list Z * Z) :=
  let code := u8 control_code in
  let n := zlen input in
  out ← memcpy_at out 1 [FLAG_1; FLAG_2; ControlCode (read_write_flag code) false (control_frame_switch code); u8 n];
  let length := u8 (sizeof_Head - 1 + n + sizeof_CheckCode) in
  out ← memcpy_at out sizeof_Head input;
  '(out, length) ← match p_address with
    | None => Some (out, length)
    | Some address =>
        out ← memcpy_at out offset_control_code
                [ControlCode (read_write_flag code) true (control_frame_switch code)];
        out ← memcpy_at out (sizeof_Head + n) (sizeof_Address :: be_bytes 2 address);
        Some (out, u8 (length + sizeof_AddressInfo + sizeof_Address))
    end;
  out ← memcpy_at out 0 [length];
  check ← GenCheckCode (drop (Z.to_nat offset_control_code) out) (u32 (length - offset_control_code));
  out ← memcpy_at out length [check];
  Some (out, length + 1).

(** ** DeMux *)

(** A result: the value returned, the address read, and the length of the data
    (which start behind the head) with the control code, when the frame is good. *)
Definition demuxed : Type := Z * Z * option (Z * Z).

(** What a [break] before any assignment to [ret] returns: [ret] is a [bool] that
    is set to -1. *)
Definition unassigned : Z := Z.b2z true.

(** The check code of a frame whose parts end at [cur_length]. *)
Definition DeMux_check (p : list Z) (input_length cur_length address : Z) : option demuxed :=
  if input_length <? cur_length + sizeof_CheckCode then Some (1, address, None) else
  check_code ← GenCheckCode (drop (Z.to_nat offset_control_code) p) (cur_length - offset_control_code);
  received ← p !! Z.to_nat cur_length;
  if negb (received =? check_code) then Some (unassigned, address, None) else
  code ← p !! Z.to_nat offset_control_code;
  data_length ← p !! 4%nat;
  Some (0, address, Some (data_length, code)).

(** The source address. *)
Definition DeMux_src (p : list Z) (input_length cur_length address code : Z) : option demuxed :=
  if negb (src_addr_switch code) then DeMux_check p input_length cur_length address else
  let info := cur_length in
  let cur_length := cur_length + sizeof_AddressInfo in
  if input_length <=? cur_length then Some (1, address, None) else
  src_addr_size ← p !! Z.to_nat info;
  if src_addr_size =? 0 then Some (unassigned, address, None) else
  let cur_length := cur_length + src_addr_size in
  if input_length <=? cur_length then Some (1, address, None) else
  a ← memread p (info + sizeof_AddressInfo) 2;
  DeMux_check p input_length cur_length (be_value a).

(** [p] is the memory from the start of the input on; [address] is what the
    variable of the caller holds before. *)
Definition DeMux (p : list Z) (input_length address : Z) : option demuxed :=
  if input_length <=? sizeof_Head then Some (1, address, None) else
  f1 ← p !! 1%nat;
  f2 ← p !! 2%nat;
  if negb (f1 =? FLAG_1) || negb (f2 =? FLAG_2) then Some (unassigned, address, None) else
  code ← p !! Z.to_nat offset_control_code;
  data_length ← p !! 4%nat;
  let cur_length := sizeof_Head + data_length in
  if negb (dst_addr_switch code) then DeMux_src p input_length cur_length address code else
  let info := cur_length in
  let cur_length := cur_length + sizeof_AddressInfo in
  if input_length <=? cur_length then Some (1, address, None) else
  dst_addr_size ← p !! Z.to_nat info;
  DeMux_src p input_length (cur_length + dst_addr_size) address code.

(** ** DeMux stays in its input *)

(** A result of DeMux is 0 or 1, and the data of a good frame are in the input. *)
Definition demux_ok (p : list Z) (input_length : Z) (r : option demuxed) : Prop :=
  exists ret a o, r = Some (ret, a, o) /\ (ret = 0 \/ ret = 1) /\
    (o = None <-> ret = 1) /\
    forall n c, o = Some (n, c) -> 0 <= n /\ sizeof_Head + n < input_length /\ p !! 3%nat = Some c.

Lemma lookup_byte p i : bytes_ok p -> 0 <= i < zlen p -> exists b, p !! Z.to_nat i = Some b /\ 0 <= b < 256.
Proof.
  intros Hp Hi. destruct (lookup_lt_is_Some_2 p (Z.to_nat i)) as [b Hb]; [unfold zlen in Hi; lia|].
  exists b. split; [done|]. by eapply Forall_lookup_1 in Hp.
Qed.

Lemma demux_refused p n a : demux_ok p n (Some (1, a, None)).
Proof. exists 1, a, None. split_and!; try done; auto. Qed.

Lemma GenCheckCode_some p n : 0 <= n <= zlen p -> GenCheckCode p n = Some (foldl Z.lxor 0 (slice 0 n p)).
Proof. intros Hn. unfold GenCheckCode. by rewrite memread_Some by lia. Qed.

Lemma DeMux_check_ok p input_length cur_length a dl :
  bytes_ok p -> input_length <= zlen p -> p !! 4%nat = Some dl -> 0 <= dl -> 5 + dl <= cur_length ->
  demux_ok p input_length (DeMux_check p input_length cur_length a).
Proof.
  intros Hp Hl Hd Hdl Hc. unfold DeMux_check. change sizeof_CheckCode with 1. change offset_control_code with 3.
  destruct (Z.ltb_spec input_length (cur_length + 1)); [apply demux_refused|].
  rewrite GenCheckCode_some by (rewrite zlen_drop by lia; lia). cbn [mbind option_bind].
  destruct (lookup_byte p cur_length Hp) as (b & -> & _); [lia|]. cbn [mbind option_bind].
  destruct (negb _); [apply demux_refused|].
  destruct (lookup_byte p 3 Hp) as (c & Hc3 & _); [lia|]. change (Z.to_nat 3) with 3%nat in *. rewrite Hc3.
  cbn [mbind option_bind]. rewrite Hd. cbn [mbind option_bind]. exists 0, a, (Some (dl, c)). split_and!; try done; auto.
  intros n c' [= <- <-]. change sizeof_Head with 5. split; [done|]. split; [lia|done].
Qed.

Lemma DeMux_src_ok p input_length cur_length a code dl :
  bytes_ok p -> input_length <= zlen p -> p !! 4%nat = Some dl -> 0 <= dl -> 5 + dl <= cur_length ->
  demux_ok p input_length (DeMux_src p input_length cur_length a code).
Proof.
  intros Hp Hl Hd Hdl Hc. unfold DeMux_src. change sizeof_AddressInfo with 1.
  destruct (negb _); [by apply (DeMux_check_ok _ _ _ _ dl)|].
  destruct (Z.leb_spec input_length (cur_length + 1)); [apply demux_refused|].
  destruct (lookup_byte p cur_length Hp) as (b & -> & Hb); [lia|]. cbn [mbind option_bind].
  destruct (Z.eqb_spec b 0); [apply demux_refused|].
  destruct (Z.leb_spec input_length (cur_length + 1 + b)); [apply demux_refused|].
  rewrite memread_Some by lia. cbn [mbind option_bind]. apply (DeMux_check_ok _ _ _ _ dl); try done. lia.
Qed.

Lemma DeMux_ok p input_length a :
  bytes_ok p -> input_length <= zlen p -> demux_ok p input_length (DeMux p input_length a).
Proof.
  intros Hp Hl. unfold DeMux. change sizeof_Head with 5. change sizeof_AddressInfo with 1. change offset_control_code with 3.
  destruct (Z.leb_spec input_length 5); [apply demux_refused|].
  destruct (lookup_byte p 1 Hp) as (f1 & H1 & _); [lia|]. destruct (lookup_byte p 2 Hp) as (f2 & H2 & _); [lia|].
  change (Z.to_nat 1) with 1%nat in *. change (Z.to_nat 2) with 2%nat in *. rewrite H1, H2. cbn [mbind option_bind].
  destruct (_ || _); [apply demux_refused|].
  destruct (lookup_byte p 3 Hp) as (c & -> & _); [lia|]. destruct (lookup_byte p 4 Hp) as (dl & Hd & Hdl); [lia|].
  change (Z.to_nat 4) with 4%nat in *. rewrite Hd. cbn [mbind option_bind].
  destruct (negb (dst_addr_switch c)); [apply (DeMux_src_ok _ _ _ _ _ dl); done || lia|].
  destruct (Z.leb_spec input_length (5 + dl + 1)); [apply demux_refused|].
  destruct (lookup_byte p (5 + dl) Hp) as (b & -> & Hb); [lia|]. cbn [mbind option_bind].
  apply (DeMux_src_ok _ _ _ _ _ dl); try done; lia.
Qed.

(** ** Round trip *)

(** The control code that arrives, and the frame as a whole. *)
Definition sent_code (address : option Z) (control_code : Z) : Z :=
  ControlCode (read_write_flag control_code) (if address then true else false) (control_frame_switch control_code).

Definition address_part (address : option Z) : list Z :=
  match address with None => [] | Some a => sizeof_Address :: be_bytes 2 a end.

Definition frame_body (input : list Z) (address : option Z) (control_code : Z) : list Z :=
  [sent_code address control_code; zlen input] ++ input ++ address_part address.

(** A frame with the check code [k]. *)
Definition framed (input : list Z) (address : option Z) (control_code k : Z) : list Z :=
  let body := frame_body input address control_code in [3 + zlen body; FLAG_1; FLAG_2] ++ body ++ [k].

Definition frame (input : list Z) (address : option Z) (control_code : Z) : list Z :=
  framed input address control_code (foldl Z.lxor 0 (frame_body input address control_code)).

Lemma zlen_frame_body input address c :
  zlen (frame_body input address c) = 2 + zlen input + zlen (address_part address).
Proof. unfold frame_body. rewrite !zlen_app. change (zlen [_; _]) with 2. lia. Qed.

Lemma zlen_address_part address : zlen (address_part address) = if address then 3 else 0.
Proof. by destruct address. Qed.

Lemma ControlCode_bits rw dst cf :
  let code := ControlCode rw dst cf in
  0 <= code < 256 /\ read_write_flag code = rw /\ dst_addr_switch code = dst /\ src_addr_switch code = false /\
  control_frame_switch code = cf.
Proof. destruct rw, dst, cf; vm_compute; repeat split; discriminate. Qed.

Lemma u8_bits c : read_write_flag (u8 c) = read_write_flag c /\ control_frame_switch (u8 c) = control_frame_switch c.
Proof.
  unfold read_write_flag, control_frame_switch, wrap. split; by rewrite Z.mod_pow2_bits_low by lia.
Qed.

Lemma split_len {A} n (l : list A) : 0 <= n <= zlen l -> exists a b, l = a ++ b /\ zlen a = n.
Proof.
  intros H. exists (take (Z.to_nat n) l), (drop (Z.to_nat n) l). split; [by rewrite take_drop|].
  unfold zlen in *. rewrite length_take. lia.
Qed.

(** The parts of the buffer that Mux writes. *)
Lemma Mux_frame input address c out :
  zlen input <= 247 -> zlen (frame input address c) <= zlen out ->
  exists rest, Mux input address c out = Some (frame input address c ++ rest, zlen (frame input address c)) /\
    zlen (frame input address c ++ rest) = zlen out.
Proof.
  intros Hn Hout.
  pose proof (zlen_nonneg input) as Hi. pose proof (zlen_address_part address) as Ha.
  assert (zlen (frame input address c) = 6 + zlen input + zlen (address_part address)) as HF.
  { unfold frame, framed. rewrite !zlen_app, zlen_frame_body. change (zlen [_; _; _]) with 3. change (zlen [_]) with 1. lia. }
  assert (exists x0 x1 x2 x3 x4 I A k rest, out = [x0; x1; x2; x3; x4] ++ I ++ A ++ [k] ++ rest /\
    zlen I = zlen input /\ zlen A = zlen (address_part address)) as (x0 & x1 & x2 & x3 & x4 & I & A & k & rest & -> & HI & HA).
  { destruct (split_len 5 out) as (h & o1 & -> & Hh); [destruct address; lia|]. rewrite zlen_app in Hout.
    destruct (split_len (zlen input) o1) as (I & o2 & -> & HI); [destruct address; lia|]. rewrite zlen_app in Hout.
    destruct (split_len (zlen (address_part address)) o2) as (A & o3 & -> & HA); [destruct address; lia|]. rewrite zlen_app in Hout.
    destruct o3 as [|k rest]; [rewrite zlen_nil in Hout; lia|].
    destruct h as [|x0 [|x1 [|x2 [|x3 [|x4 [|]]]]]]; try (unfold zlen in Hh; simpl in Hh; lia).
    by exists x0, x1, x2, x3, x4, I, A, k, rest. }
  exists rest. destruct (u8_bits c) as [Hrw Hcf].
  assert (0 <= zlen (address_part address) <= 3) as Hap by (destruct address; lia).
  unfold Mux. rewrite Hrw, Hcf. change sizeof_Head with 5. change sizeof_CheckCode with 1.
  change offset_control_code with 3. change sizeof_AddressInfo with 1. change sizeof_Address with 2.
  rewrite (wrap_small 8 (zlen input)) by lia. rewrite (wrap_small 8 (5 - 1 + zlen input + 1)) by lia.
  set (rw := read_write_flag c). set (cf := control_frame_switch c).
  rewrite (memcpy_at_mid [x0] [x1; x2; x3; x4] (I ++ A ++ [k] ++ rest)
             [FLAG_1; FLAG_2; ControlCode rw false cf; zlen input] eq_refl : memcpy_at ([x0; x1; x2; x3; x4] ++ _) 1 _ = _).
  cbn [mbind option_bind].
  rewrite (memcpy_at_mid [x0; FLAG_1; FLAG_2; ControlCode rw false cf; zlen input] I (A ++ [k] ++ rest) input
             (eq_sym HI) : memcpy_at ([x0] ++ [FLAG_1; FLAG_2; ControlCode rw false cf; zlen input] ++ I ++ A ++ [k] ++ rest) 5 _ = _).
  cbn [mbind option_bind].
  set (len := 5 + zlen input + zlen (address_part address)).
  match goal with |- (?e ≫= _ = _) /\ _ => set (addressed := e) end.
  assert (addressed = Some ([x0; FLAG_1; FLAG_2] ++ frame_body input address c ++ [k] ++ rest, len)) as ->.
  { unfold addressed, frame_body, sent_code. destruct address as [a|]; fold rw cf.
    - rewrite (memcpy_at_mid [x0; FLAG_1; FLAG_2] [ControlCode rw false cf] ([zlen input] ++ input ++ A ++ [k] ++ rest)
                [ControlCode rw true cf] eq_refl
                : memcpy_at ([x0; FLAG_1; FLAG_2; ControlCode rw false cf; zlen input] ++ input ++ A ++ [k] ++ rest) 3 _ = _).
      cbn [mbind option_bind].
      pose proof (memcpy_at_mid ([x0; FLAG_1; FLAG_2; ControlCode rw true cf; zlen input] ++ input) A ([k] ++ rest)
                    (2 :: be_bytes 2 a) (eq_sym HA)) as E.
      rewrite <- app_assoc, zlen_app in E. change (zlen [x0; _; _; _; _]) with 5 in E.
      change ([x0; FLAG_1; FLAG_2] ++ [ControlCode rw true cf] ++ [zlen input] ++ input ++ A ++ [k] ++ rest)
        with ([x0; FLAG_1; FLAG_2; ControlCode rw true cf; zlen input] ++ input ++ A ++ [k] ++ rest).
      rewrite E. cbn [mbind option_bind]. rewrite wrap_small by lia. f_equal. f_equal; [|unfold len; lia].
      by rewrite <- !app_assoc.
    - apply zlen_0_nil in HA as ->.
      f_equal. f_equal; [|unfold len; change (zlen (address_part None)) with 0; lia]. simpl. by rewrite app_nil_r. }
  cbn [mbind option_bind].
  pose proof (zlen_frame_body input address c) as Hb. set (body := frame_body input address c) in *.
  rewrite (memcpy_at_mid [] [x0] ([FLAG_1; FLAG_2] ++ body ++ [k] ++ rest) [len] eq_refl
             : memcpy_at ([x0; FLAG_1; FLAG_2] ++ body ++ [k] ++ rest) 0 _ = _).
  cbn [mbind option_bind].
  change (drop (Z.to_nat 3) ([] ++ [len] ++ [FLAG_1; FLAG_2] ++ body ++ [k] ++ rest)) with (body ++ [k] ++ rest).
  rewrite (wrap_small 32) by (change (2 ^ 32) with 4294967296; unfold len; lia). replace (len - 3) with (zlen body) by (unfold len; lia).
  unfold GenCheckCode. rewrite (memread_mid [] body ([k] ++ rest) : memread (body ++ [k] ++ rest) 0 (zlen body) = _).
  cbn [mbind option_bind].
  pose proof (memcpy_at_mid ([len; FLAG_1; FLAG_2] ++ body) [k] rest [foldl Z.lxor 0 body] eq_refl) as E.
  rewrite <- app_assoc, zlen_app in E. change (zlen [len; _; _]) with 3 in E.
  replace len with (3 + zlen body) at 2 by (unfold len; lia).
  change ([] ++ [len] ++ [FLAG_1; FLAG_2] ++ body ++ [k] ++ rest) with ([len; FLAG_1; FLAG_2] ++ body ++ [k] ++ rest).
  rewrite E. cbn [mbind option_bind].
  assert (([len; FLAG_1; FLAG_2] ++ body) ++ [foldl Z.lxor 0 body] ++ rest = frame input address c ++ rest) as ->.
  { unfold frame, framed. fold body. replace (3 + zlen body) with len by (unfold len; lia). by rewrite <- !app_assoc. }
  split; [|rewrite zlen_app, HF, !zlen_app, HI, HA; change (zlen [_]) with 1; change (zlen [_; _; _; _; _]) with 5; lia].
  f_equal. f_equal. unfold len. lia.
Qed.

(** *** Reading it back *)

(** The memory starts with [n] bytes of the frame. *)
Definition starts_with (p : list Z) (n : Z) (F : list Z) : Prop := forall j : nat, Z.of_nat j < n -> p !! j = F !! j.

Lemma frame_lookup input address c k :
  let F := framed input address c k in
  F !! 1%nat = Some FLAG_1 /\ F !! 2%nat = Some FLAG_2 /\ F !! 3%nat = Some (sent_code address c) /\
  F !! 4%nat = Some (zlen input) /\
  (is_Some address -> F !! (Z.to_nat (5 + zlen input)) = Some 2) /\
  F !! Z.to_nat (zlen F - 1) = Some k.
Proof.
  intros F. split_and!; try done.
  - unfold F, framed, frame_body. intros [a ->].
    rewrite Z2Nat.inj_add by (pose proof (zlen_nonneg input); lia). unfold zlen. rewrite Nat2Z.id. simpl.
    rewrite <- app_assoc, lookup_app_r, Nat.sub_diag by lia. done.
  - unfold F, framed. rewrite app_assoc, lookup_app_r by (rewrite !zlen_app; unfold zlen; simpl; lia).
    rewrite !zlen_app. change (zlen [_; _; _]) with 3. change (zlen [_]) with 1.
    match goal with |- [_] !! ?n = _ => replace n with O; [done|] end. unfold zlen. rewrite length_app. simpl. lia.
Qed.

Lemma zlen_framed input address c k : zlen (framed input address c k) = 6 + zlen input + if address then 3 else 0.
Proof.
  unfold framed. rewrite !zlen_app, zlen_frame_body, zlen_address_part. change (zlen [_; _; _]) with 3.
  change (zlen [_]) with 1. destruct address; lia.
Qed.

Lemma frame_check_memory p input address c k n :
  let F := framed input address c k in
  starts_with p (zlen F) F -> n = zlen (frame_body input address c) ->
  GenCheckCode (drop 3 p) n = Some (foldl Z.lxor 0 (frame_body input address c)).
Proof.
  intros F Hp ->. set (body := frame_body input address c) in *.
  assert (drop 3 p = body ++ drop (length body) (drop 3 p)) as ->.
  { rewrite <- (take_drop (length body) (drop 3 p)) at 1. f_equal. apply list_eq_same_length with (length body); [done| |].
    - rewrite length_take, length_drop.
      assert (is_Some (p !! (3 + length body)%nat)) as Hl%lookup_lt_is_Some; [|lia].
      rewrite Hp by (unfold F, framed; rewrite !zlen_app; fold body; change (zlen [_; _; _]) with 3; change (zlen [_]) with 1; unfold zlen; lia).
      apply lookup_lt_is_Some. unfold F, framed. rewrite !length_app. fold body. simpl. lia.
    - intros i x y Hi. rewrite lookup_take_lt, lookup_drop by lia.
      rewrite Hp by (unfold F, framed; rewrite !zlen_app; fold body; change (zlen [_; _; _]) with 3; change (zlen [_]) with 1; unfold zlen; lia).
      unfold F, framed. fold body. rewrite lookup_app_r by (simpl; lia). change (length [_; _; _]) with 3%nat. replace (3 + i - 3)%nat with i by lia.
      rewrite lookup_app_l by lia. congruence. }
  unfold GenCheckCode. rewrite (memread_mid [] body _ : memread (body ++ _) 0 (zlen body) = _). done.
Qed.

(** A whole frame is taken, a part of one is waited for. *)
Lemma DeMux_frame p input address c k input_length a :
  let F := framed input address c k in
  zlen input <= 247 -> starts_with p (Z.min input_length (zlen F)) F -> input_length <= zlen p ->
  DeMux p input_length a
  = if (zlen F <=? input_length) && (k =? foldl Z.lxor 0 (frame_body input address c))
    then Some (0, a, Some (zlen input, sent_code address c)) else Some (1, a, None).
Proof.
  intros F Hn Hp Hl. pose proof (zlen_nonneg input) as Hi.
  destruct (frame_lookup input address c k) as (L1 & L2 & L3 & L4 & L5 & L6). fold F in L1, L2, L3, L4, L5, L6.
  pose proof (zlen_framed input address c k) as HF. fold F in HF.
  destruct (ControlCode_bits (read_write_flag c) (if address then true else false) (control_frame_switch c))
    as (_ & _ & Hd & Hs & _). fold (sent_code address c) in Hd, Hs.
  unfold DeMux. change sizeof_Head with 5. change sizeof_AddressInfo with 1. change offset_control_code with 3.
  destruct (Z.leb_spec input_length 5).
  { by replace (zlen F <=? input_length) with false by (destruct address; lia). }
  assert (forall j : nat, Z.of_nat j < input_length -> Z.of_nat j < zlen F -> p !! j = F !! j) as Hj
    by (intros; apply Hp; lia).
  change (Z.to_nat 3) with 3%nat.
  rewrite !Hj by (destruct address; lia). rewrite L1, L2, L3, L4. cbn [mbind option_bind].
  rewrite !Z.eqb_refl. cbn [negb orb]. rewrite Hd. unfold DeMux_src. rewrite Hs.
  assert (forall cur, cur = zlen F - 1 -> DeMux_check p input_length cur a
    = if (zlen F <=? input_length) && (k =? foldl Z.lxor 0 (frame_body input address c))
      then Some (0, a, Some (zlen input, sent_code address c)) else Some (1, a, None)) as Hcheck.
  { intros cur ->. unfold DeMux_check. change sizeof_CheckCode with 1. change offset_control_code with 3.
    rewrite Z.sub_add. destruct (Z.ltb_spec input_length (zlen F)), (Z.leb_spec (zlen F) input_length); try lia; [done|].
    change (Z.to_nat 3) with 3%nat.
    assert (zlen F - 1 - 3 = zlen (frame_body input address c)) as ->
      by (rewrite zlen_frame_body, zlen_address_part; destruct address; lia).
    rewrite (frame_check_memory p input address c k) by (done || (intros j Hj'; apply Hp; fold F in Hj'; lia)). cbn [mbind option_bind].
    rewrite !Hj by (destruct address; lia). rewrite L6, L3, L4. cbn [mbind option_bind andb]. by destruct (k =? _). }
  destruct address as [ad|]; cbn [negb].
  - destruct (Z.leb_spec input_length (5 + zlen input + 1)).
    { by replace (zlen F <=? input_length) with false by lia. }
    rewrite Hj by lia. rewrite L5 by eauto. cbn [mbind option_bind]. apply Hcheck. lia.
  - apply Hcheck. lia.
Qed.

Lemma xor_from r l : foldl Z.lxor r l = Z.lxor r (foldl Z.lxor 0 l).
Proof.
  revert r. induction l as [|x l IH]; intros r; cbn [foldl]; [by rewrite Z.lxor_0_r|].
  rewrite IH, (IH (Z.lxor 0 x)), Z.lxor_0_l, Z.lxor_assoc. done.
Qed.

Lemma xor_change r l1 l2 b b' :
  foldl Z.lxor r (l1 ++ b :: l2) = foldl Z.lxor r (l1 ++ b' :: l2) -> b = b'.
Proof.
  rewrite !foldl_app. cbn [foldl]. rewrite (xor_from (Z.lxor _ b)), (xor_from (Z.lxor _ b')). intros E.
  apply (f_equal (fun x => Z.lxor x (foldl Z.lxor 0 l2))) in E. rewrite !Z.lxor_assoc, !Z.lxor_nilpotent, !Z.lxor_0_r in E.
  apply (f_equal (Z.lxor (foldl Z.lxor r l1))) in E. by rewrite <- !Z.lxor_assoc, !Z.lxor_nilpotent, !Z.lxor_0_l in E.
Qed.

(** C30. What is framed is read back.  [Mux] writes at most the frame into the buffer,
    and [DeMux] finds in memory that starts with it the payload and the bits of the
    control code; of a part of the frame it says that data are missing, whatever is
    in the memory behind; a frame with one byte of the payload changed is not
    accepted. *)
Theorem mux_demux input address c out :
  zlen input <= 247 -> zlen input + 9 <= zlen out ->
  exists out' len, Mux input address c out = Some (out', len) /\ zlen out' = zlen out /\
    len = 6 + zlen input + (if address then 3 else 0) /\
    (forall more n a, 0 <= n <= len + zlen more ->
       let p := slice 0 (Z.min n len) out' ++ more in n <= zlen p ->
       DeMux p n a = (if len <=? n then Some (0, a, Some (zlen input, sent_code address c)) else Some (1, a, None)) /\
       (len <= n -> memread p sizeof_Head (zlen input) = Some input)) /\
    (forall more n a i b, len <= n <= len + zlen more -> input !! i <> Some b -> (i < length input)%nat ->
       DeMux (<[(5 + i)%nat := b]> (slice 0 len out') ++ more) n a = Some (1, a, None)).
Proof.
  intros Hn Hout. pose proof (zlen_nonneg input) as Hi. pose proof (zlen_framed input address c (foldl Z.lxor 0 (frame_body input address c))) as HF.
  fold (frame input address c) in HF.
  destruct (Mux_frame input address c out) as (rest & E & Hz); [done|destruct address; lia|].
  set (F := frame input address c) in *. exists (F ++ rest), (zlen F).
  split; [done|]. split; [done|]. split; [done|]. split.
  - intros more n a Hnn p Hp. assert (slice 0 (Z.min n (zlen F)) (F ++ rest) = take (Z.to_nat (Z.min n (zlen F))) F) as Es.
    { unfold slice. rewrite drop_0, take_app_le; [done|]. unfold zlen. lia. }
    split.
    + unfold p. rewrite (DeMux_frame _ input address c (foldl Z.lxor 0 (frame_body input address c)) n a); [|done| |done].
      { fold (frame input address c). fold F. by rewrite Z.eqb_refl, andb_true_r. }
      fold (frame input address c). fold F. intros j Hj. rewrite Es.
      rewrite lookup_app_l by (rewrite length_take; unfold zlen in *; lia). apply lookup_take_lt. lia.
    + intros Hle. unfold p. rewrite Es, Z.min_r by lia. unfold zlen at 1. rewrite Nat2Z.id, take_ge by lia.
      set (k := foldl Z.lxor 0 (frame_body input address c)).
      set (head := [3 + zlen (frame_body input address c); FLAG_1; FLAG_2; sent_code address c; zlen input]).
      assert (F ++ more = head ++ input ++ (address_part address ++ [k] ++ more)) as ->.
      { unfold F, frame, framed, head. fold k. unfold frame_body at 2. by rewrite <- !app_assoc. }
      apply (memread_mid head input).
  - intros more n a i b Hnn Hb Hlt.
    assert (slice 0 (zlen F) (F ++ rest) = F) as -> by (unfold slice, zlen; by rewrite Nat2Z.id, drop_0, take_app_length).
    destruct (lookup_lt_is_Some_2 input i Hlt) as [b0 Hb0].
    assert (<[(5 + i)%nat:=b]> F = framed (<[i:=b]> input) address c (foldl Z.lxor 0 (frame_body input address c))) as EF.
    { unfold F, frame, framed, frame_body. rewrite !zlen_app. unfold zlen. rewrite length_insert. simpl. by rewrite !insert_app_l by (rewrite ?length_app; lia). }
    assert (zlen (<[i:=b]> input) = zlen input) as Hzi by (unfold zlen; by rewrite length_insert).
    rewrite EF, (DeMux_frame _ (<[i:=b]> input) address c (foldl Z.lxor 0 (frame_body input address c)) n a).
    + replace (foldl Z.lxor 0 (frame_body input address c) =? _) with false; [by rewrite andb_false_r|]. symmetry.
      apply Z.eqb_neq. intros Ex. apply Hb. rewrite Hb0. f_equal.
      unfold frame_body in Ex. rewrite Hzi in Ex. rewrite <- (take_drop_middle input i b0 Hb0) in Ex at 2.
      rewrite (insert_take_drop input i b Hlt), <- !(app_assoc (take i input)) in Ex. rewrite !app_assoc in Ex.
      rewrite <- !(app_assoc _ (_ :: _)) in Ex. simpl in Ex. by apply xor_change in Ex.
    + by rewrite Hzi.
    + intros j Hj. rewrite lookup_app_l; [done|]. unfold zlen in Hj. lia.
    + rewrite zlen_app, zlen_framed, Hzi. lia.
Qed.

Lemma mux_demux_witness :
  exists out' len, Mux [0xe0; 1; 2] (Some 0x1234) 0x81 (replicate 129 0) = Some (out', len) /\ len = 12 /\
    slice 0 12 out' = [11; 0x55; 0xaa; 0x85; 3; 0xe0; 1; 2; 2; 0x12; 0x34; 0x41] /\
    DeMux out' 129 7 = Some (0, 7, Some (3, 0x85)) /\ DeMux out' 11 7 = Some (1, 7, None).
Proof.
  destruct (mux_demux [0xe0; 1; 2] (Some 0x1234) 0x81 (replicate 129 0)) as (out' & len & E & _ & Hl & _);
    [vm_compute; discriminate|vm_compute; discriminate|].
  exists out', len. split; [exact E|]. split; [exact Hl|].
  vm_compute in E. injection E as <- <-. repeat split.
Defined.
