(* ===== verification/HexFile.v ===== *)
(** The Intel HEX reader of the device updater: struct HexFileContext
    (src/imp/device-update/update-type-def.h, update-type-def.cpp). *)
From stdpp Require Import strings.
From S2P Require Import Prelude Uuid.

(** ** Text lines *)

(** [fgets] on the rest of a file: at most [size - 1] characters, up to a new line. *)
Fixpoint fgets_line (n : nat) (s : list Z) : list Z :=
  match n, s with
  | S n', c :: s' => if c =? 10 then [c] else c :: fgets_line n' s'
  | _, _ => []
  end.

Definition fgets (size : nat) (s : list Z) : option (list Z * list Z) :=
  match fgets_line (size - 1) s with
  | [] => None
  | line => Some (line, drop (length line) s)
  end.

(** The characters in front of the first NUL. *)
Fixpoint c_str (s : list Z) : list Z :=
  match s with
  | [] => []
  | c :: s' => if c =? 0 then [] else c :: c_str s'
  end.

Definition strlen (s : list Z) : Z := zlen (c_str s).

(** ** Records *)

Definition RECORD_TYPE_DATA : Z := 0.
Definition RECORD_TYPE_EOF : Z := 1.
Definition RECORD_TYPE_EX_SEG_ADDR : Z := 2.
Definition RECORD_TYPE_START_SEG_ADDR : Z := 3.
Definition RECORD_TYPE_EX_LINEAR_ADDR : Z := 4.
Definition RECORD_TYPE_START_LINEAR_ADDR : Z := 5.

Record hex_record := mkRecord { offset_address : Z; type : Z; payload : list Z }.

(** [n] characters from [off] on, copied to [convert_box] and converted. *)
Definition convert (read_cache : list Z) (off n : Z) : option Z :=
  box ← memread read_cache off n;
  Some (fst (strtol16 (map (fun c => Ascii.ascii_of_N (Z.to_N c)) (c_str box)))).

Definition byte_at (read_cache : list Z) (off : Z) : option Z :=
  v ← convert read_cache off 2; Some (Z.land v 0xff).

(** The end of the line is cut off: the buffer and the length of the text. *)
Definition cut_newline (read_cache : list Z) (data_len : Z) : option (list Z * Z) :=
  last ← read_cache !! Z.to_nat (data_len - 1);
  if negb (last =? 10) then Some (read_cache, data_len) else
  before ← read_cache !! Z.to_nat (data_len - 2);
  if before =? 13 then Some (<[Z.to_nat (data_len - 2) := 0]> read_cache, data_len - 2)
  else Some (<[Z.to_nat (data_len - 1) := 0]> read_cache, data_len - 1).

(** The fields of a line whose length fits its payload; [None] inside when the
    check fails. *)
Definition parse_fields (read_cache : list Z) (payload_len : Z) : option (option hex_record) :=
  offset ← convert read_cache 3 4;
  let offset_address := Z.land offset 0xffff in
  type ← byte_at read_cache 7;
  tmp ← mapM (fun i => byte_at read_cache (9 + 2 * i)) (seqZ 0 payload_len);
  check_code ← byte_at read_cache (9 + 2 * payload_len);
  let sum := u8 (check_code + payload_len + Z.shiftr offset_address 8 + Z.land offset_address 0xff + type) in
  let sum := foldl (fun sum b => u8 (sum + b)) sum tmp in
  if negb (sum =? 0) then Some None else Some (Some (mkRecord offset_address type tmp)).

(** One line; [None] inside stands for the lines at which the reader stops. *)
Definition parse_record (line : list Z) : option (option hex_record) :=
  let read_cache := line ++ replicate (256 - length line) 0 in
  let data_len := strlen read_cache in
  c0 ← read_cache !! 0%nat;
  if (data_len <? 11) || negb (c0 =? 58) then Some None else
  '(read_cache, data_len) ← cut_newline read_cache data_len;
  if data_len <? 11 then Some None else
  payload_len ← byte_at read_cache 1;
  let need_len := 1 + 2 + 4 + 2 + payload_len * 2 + 2 in
  if negb (data_len =? need_len) then Some None else
  parse_fields read_cache payload_len.

(** ** readData *)

Record hex_state := mkHex {
  h_buf : list Z;                 (* buf *)
  h_flag : list Z;                (* flag *)
  h_ret : Z;                      (* ret *)
  h_find : bool;                  (* find_LINEAR_ADDR *)
  h_last : Z }.                   (* last_ex_linear_addr *)

(** [copy_len] bytes of the payload from [from] on are copied to [to]. *)
Definition copy_out (tmp : list Z) (from to copy_len : Z) (st : hex_state) : option hex_state :=
  bytes ← memread (tmp ++ [0]) from copy_len;
  buf ← memcpy_at (h_buf st) to bytes;
  flag ← memcpy_at (h_flag st) to (replicate (Z.to_nat copy_len) 1);
  Some (mkHex buf flag 1 (h_find st) (h_last st)).

Definition data_record (start_addr end_addr : Z) (r : hex_record) (st : hex_state) : option hex_state :=
  let payload_len := zlen (payload r) in
  let data_start_addr := u32 (h_last st + offset_address r) in
  let data_end_addr := u32 (data_start_addr + payload_len) in
  let actual_end_addr := if data_end_addr <? end_addr then data_end_addr else end_addr in
  if data_start_addr <? start_addr then
    if data_end_addr <? start_addr then Some st
    else copy_out (payload r) (start_addr - data_start_addr) 0 (u32 (actual_end_addr - start_addr)) st
  else if end_addr <? data_start_addr then Some st
  else copy_out (payload r) 0 (data_start_addr - start_addr) (u32 (actual_end_addr - data_start_addr)) st.

Definition set_linear (find : bool) (last : Z) (st : hex_state) : hex_state :=
  mkHex (h_buf st) (h_flag st) (h_ret st) find last.

Definition apply_record (start_addr end_addr : Z) (r : hex_record) (st : hex_state) : option hex_state :=
  if type r =? RECORD_TYPE_DATA then
    if h_find st then data_record start_addr end_addr r st else Some st
  else if type r =? RECORD_TYPE_EOF then Some (set_linear false (h_last st) st)
  else if type r =? RECORD_TYPE_EX_LINEAR_ADDR then
    if negb (zlen (payload r) =? 2) then Some st
    else Some (set_linear true (u32 (Z.shiftl (be_value (payload r)) 16)) st)
  else if type r =? RECORD_TYPE_START_LINEAR_ADDR then
    if negb (zlen (payload r) =? 4) then Some st
    else Some (set_linear false (be_value (payload r)) st)
  else if (type r =? RECORD_TYPE_EX_SEG_ADDR) || (type r =? RECORD_TYPE_START_SEG_ADDR)
  then Some (set_linear false (h_last st) st)
  else Some st.

(** The loop over the lines of the rest [s] of the file. *)
Fixpoint read_lines (fuel : nat) (start_addr end_addr : Z) (s : list Z) (st : hex_state) : option hex_state :=
  match fuel with
  | O => None
  | S fuel' =>
      match fgets 256 s with
      | None => Some st
      | Some (line, s') =>
          r ← parse_record line;
          match r with
          | None => Some st
          | Some r =>
              st ← apply_record start_addr end_addr r st;
              read_lines fuel' start_addr end_addr s' st
          end
      end
  end.

(** The number of flags set at the start. *)
Fixpoint flagged (flag : list Z) : Z :=
  match flag with
  | f :: flag' => if f =? 0 then 0 else 1 + flagged flag'
  | [] => 0
  end.

(** The result, the buffer and [max_read_len]; [fp] is the content of the open file. *)
Definition readData (fp : option (list Z)) (data_addr : Z) (buf : list Z) (max_read_len : Z) : option (Z * list Z * Z) :=
  buf ← memcpy_at buf 0 (replicate (Z.to_nat max_read_len) 0);
  let flag := replicate (Z.to_nat max_read_len) 0 in
  let end_addr := u32 (data_addr + max_read_len) in
  st ← match fp with
       | None => Some (mkHex buf flag (-1) false 0)
       | Some contents => read_lines (S (length contents)) data_addr end_addr contents (mkHex buf flag (-1) false 0)
       end;
  Some (h_ret st, h_buf st, flagged (h_flag st)).

(** A file of two records: the address 0x0800, then four bytes. *)
Definition of_string (s : string) : list Z := map (fun c => Z.of_N (Ascii.N_of_ascii c)) (String.list_ascii_of_string s).
Definition newline : list Z := [13; 10].
Example readData_ex :
  readData (Some (of_string ":020000040800F2" ++ newline ++ of_string ":0401000001020304F1" ++ newline)) 0x8000102 (repeat 9 5) 4
    = Some (1, [3; 4; 0; 0; 9], 2).
Proof. vm_compute. reflexivity. Qed.

(** ** What the reader reads *)

(** The records of a file up to the first line that is refused. *)
Fixpoint hex_records (fuel : nat) (s : list Z) : list hex_record :=
  match fuel with
  | O => []
  | S fuel' =>
      match fgets 256 s with
      | Some (line, s') =>
          match parse_record line with
          | Some (Some r) => r :: hex_records fuel' s'
          | _ => []
          end
      | None => []
      end
  end.

(** The memory that records describe: the last record that covers an address
    decides. *)
Abbreviation hex_mem := (Z -> option Z).

Definition store (a : Z) (l : list Z) (m : hex_mem) : hex_mem :=
  fun x => if (a <=? x) && (x <? a + zlen l) then l !! Z.to_nat (x - a) else m x.

(** The address base behind a record that carries no data; [None] when there is
    none. *)
Definition linear (r : hex_record) (base : option Z) : option Z :=
  if type r =? RECORD_TYPE_EX_LINEAR_ADDR
  then if zlen (payload r) =? 2 then Some (be_value (payload r) * 2 ^ 16) else base
  else if type r =? RECORD_TYPE_START_LINEAR_ADDR
  then if zlen (payload r) =? 4 then None else base
  else if 5 <? type r then base else None.

Fixpoint image (base : option Z) (m : hex_mem) (rs : list hex_record) : hex_mem :=
  match rs with
  | [] => m
  | r :: rs' =>
      if type r =? RECORD_TYPE_DATA
      then image base (if base is Some b then store (u32 (b + offset_address r)) (payload r) m else m) rs'
      else image (linear r base) m rs'
  end.

Definition record_ok (r : hex_record) : Prop :=
  0 <= offset_address r < 2 ^ 16 /\ 0 <= type r < 256 /\ bytes_ok (payload r) /\ zlen (payload r) <= 122.

(** *** Lines *)

Lemma fgets_line_length n s : (length (fgets_line n s) <= n)%nat /\ (length (fgets_line n s) <= length s)%nat.
Proof.
  revert s. induction n as [|n IH]; intros [|c s]; cbn [fgets_line]; [simpl; lia..|].
  destruct (c =? 10); cbn [length]; [lia|]. specialize (IH s). lia.
Qed.

Lemma fgets_some size s line s' : fgets size s = Some (line, s') ->
  (0 < length line)%nat /\ (length line <= size - 1)%nat /\ (length s' < length s)%nat.
Proof.
  unfold fgets. pose proof (fgets_line_length (size - 1) s) as [H1 H2]. destruct (fgets_line _ _) eqn:E; [done|].
  intros [= <- <-]. rewrite length_drop. cbn [length] in *. lia.
Qed.

Lemma c_str_app_zeros s n : c_str (s ++ replicate n 0) = c_str s.
Proof. induction s as [|c s IH]; cbn [c_str app]; [by destruct n|]. by rewrite IH. Qed.

Lemma strlen_le s : 0 <= strlen s <= zlen s.
Proof. induction s as [|c s IH]; unfold strlen in *; cbn [c_str]; [done|]. destruct (c =? 0); unfold zlen in *; cbn [length]; lia. Qed.

Lemma convert_some s off n : 0 <= off -> 0 <= n -> off + n <= zlen s -> exists v, convert s off n = Some v.
Proof. intros. unfold convert. rewrite memread_Some by lia. cbn [mbind option_bind]. eauto. Qed.

Lemma land_ones_range v n : 0 <= n -> 0 <= Z.land v (Z.ones n) < 2 ^ n.
Proof. intros. rewrite Z.land_ones by done. apply Z.mod_pos_bound. lia. Qed.

Lemma byte_at_some s off : 0 <= off -> off + 2 <= zlen s -> exists v, byte_at s off = Some v /\ is_byte v.
Proof.
  intros. destruct (convert_some s off 2) as [v Hv]; [lia..|]. unfold byte_at. rewrite Hv. cbn [mbind option_bind].
  eexists. split; [done|]. apply (land_ones_range v 8). lia.
Qed.

Lemma byte_at_ok s off v : byte_at s off = Some v -> is_byte v.
Proof. unfold byte_at. destruct (convert s off 2) as [w|]; [|done]. intros [= <-]. apply (land_ones_range w 8). lia. Qed.

Lemma parse_fields_some s n : 0 <= n <= 122 -> 11 + 2 * n <= zlen s ->
  exists o, parse_fields s n = Some o /\ forall r, o = Some r -> record_ok r /\ zlen (payload r) = n.
Proof.
  intros Hn Hs. unfold parse_fields.
  destruct (convert_some s 3 4) as [v ->]; [lia..|]. cbn [mbind option_bind].
  destruct (byte_at_some s 7) as (t & -> & Ht); [lia..|]. cbn [mbind option_bind].
  destruct (mapM_is_Some_2 (fun i => byte_at s (9 + 2 * i)) (seqZ 0 n)) as [tmp Htmp].
  { apply Forall_forall. intros i Hi%elem_of_seqZ. change (is_Some (byte_at s (9 + 2 * i))). destruct (byte_at_some s (9 + 2 * i)) as (b & -> & _); [lia..|]. by eexists. }
  rewrite Htmp. cbn [mbind option_bind].
  destruct (byte_at_some s (9 + 2 * n)) as (k & -> & Hk); [lia..|]. cbn [mbind option_bind].
  apply mapM_Some in Htmp. assert (zlen tmp = n) as Hz.
  { apply Forall2_length in Htmp. rewrite length_seqZ in Htmp. unfold zlen. lia. }
  destruct (negb _); eexists; (split; [done|]); intros r Hr; simplify_eq. split; [|done].
  split; [apply (land_ones_range v 16); lia|]. split; [exact Ht|]. cbn [payload]. split; [|lia].
  unfold bytes_ok. clear -Htmp. induction Htmp; constructor; [by eapply byte_at_ok|done].
Qed.

Lemma cut_newline_some s n : 11 <= n <= zlen s -> exists s' n', cut_newline s n = Some (s', n') /\ zlen s' = zlen s /\ n - 2 <= n' <= n.
Proof.
  intros Hn. unfold cut_newline.
  destruct (lookup_lt_is_Some_2 s (Z.to_nat (n - 1))) as [x ->]; [unfold zlen in Hn; lia|]. cbn [mbind option_bind].
  destruct (negb _); [eexists _, _; split; [done|split; [done|lia]]|].
  destruct (lookup_lt_is_Some_2 s (Z.to_nat (n - 2))) as [y ->]; [unfold zlen in Hn; lia|]. cbn [mbind option_bind].
  destruct (y =? 13); (eexists _, _; split; [done|]); unfold zlen; rewrite length_insert; split; [done|lia|done|lia].
Qed.

(** No line makes the reader leave its buffers. *)
Lemma parse_record_some line : (0 < length line <= 255)%nat ->
  exists o, parse_record line = Some o /\ forall r, o = Some r -> record_ok r.
Proof.
  intros Hl. unfold parse_record. set (cache := line ++ replicate (256 - length line) 0).
  assert (zlen cache = 256) as Hc by (unfold cache; rewrite zlen_app, zlen_replicate; unfold zlen; lia).
  assert (0 <= strlen cache <= 255) as Hs.
  { unfold cache, strlen. rewrite c_str_app_zeros. pose proof (strlen_le line). unfold strlen, zlen in *. lia. }
  destruct (lookup_lt_is_Some_2 cache 0) as [c0 ->]; [unfold zlen in Hc; lia|]. cbn [mbind option_bind].
  destruct (strlen cache <? 11) eqn:Hlt; cbn [orb]; [by eexists|]. apply Z.ltb_ge in Hlt.
  destruct (negb _); [by eexists|].
  destruct (cut_newline_some cache (strlen cache)) as (cache' & n & -> & Hc' & Hn); [lia|]. cbn [mbind option_bind].
  destruct (n <? 11) eqn:Hlt'; [by eexists|]. apply Z.ltb_ge in Hlt'.
  destruct (byte_at_some cache' 1) as (k & -> & Hk); [lia..|]. cbn [mbind option_bind].
  destruct (n =? _) eqn:Hneed; cbn [negb]; [|by eexists]. apply Z.eqb_eq in Hneed. unfold is_byte in Hk.
  destruct (parse_fields_some cache' k) as (o & -> & Ho); [lia..|]. eexists. split; [done|]. intros r ->. by apply Ho.
Qed.

(** *** The buffer follows the memory *)

Lemma memcpy_at_lookup {A} (dst : list A) off src dst' (i : nat) : memcpy_at dst off src = Some dst' ->
  dst' !! i = if (off <=? Z.of_nat i) && (Z.of_nat i <? off + zlen src) then src !! (i - Z.to_nat off)%nat else dst !! i.
Proof.
  unfold memcpy_at. case_bool_decide as H; [|done]. intros [= <-]. unfold zlen in *.
  destruct (Z.leb_spec off (Z.of_nat i)); cbn [andb].
  - rewrite lookup_app_r by (rewrite length_take; lia). rewrite length_take.
    replace (i - Z.to_nat off `min` length dst)%nat with (i - Z.to_nat off)%nat by lia.
    destruct (Z.ltb_spec (Z.of_nat i) (off + Z.of_nat (length src))).
    + rewrite lookup_app_l by lia. done.
    + rewrite lookup_app_r by lia. rewrite lookup_drop. f_equal. lia.
  - rewrite lookup_app_l by (rewrite length_take; lia). apply lookup_take_lt. lia.
Qed.

Definition hex_inv (start len : Z) (buf0 : list Z) (m : hex_mem) (st : hex_state) : Prop :=
  zlen (h_buf st) = zlen buf0 /\ zlen (h_flag st) = len /\
  (forall i, 0 <= i < len ->
     h_buf st !! Z.to_nat i = Some (default 0 (m (start + i))) /\
     h_flag st !! Z.to_nat i = Some (if m (start + i) is Some _ then 1 else 0)) /\
  (forall i, len <= i -> h_buf st !! Z.to_nat i = buf0 !! Z.to_nat i) /\
  (h_ret st = 1 \/ h_ret st = -1 /\ forall i, 0 <= i < len -> m (start + i) = None).

Definition base_ok (base : option Z) (st : hex_state) : Prop :=
  match base with
  | Some b => h_find st = true /\ h_last st = b
  | None => h_find st = false
  end.

Lemma copy_out_inv start len buf0 m st a p from to n :
  hex_inv start len buf0 m st -> len <= zlen buf0 -> 0 <= from -> 0 <= to -> 0 <= n -> to + n <= len -> from + n <= zlen p ->
  to = a + from - start ->
  (forall i, 0 <= i < len -> (to <= i < to + n <-> a <= start + i < a + zlen p)) ->
  exists st', copy_out p from to n st = Some st' /\ hex_inv start len buf0 (store a p m) st' /\
    h_find st' = h_find st /\ h_last st' = h_last st.
Proof.
  intros (Hb & Hf & Hi & Hout & Hr) Hlen Hfrom Hto Hn Hton Hfn Hrel Hcov. unfold copy_out.
  rewrite memread_Some by (rewrite ?zlen_app, ?zlen_cons; change (zlen (@nil Z)) with 0; lia). cbn [mbind option_bind].
  assert (slice from n (p ++ [0]) = slice from n p) as -> by (apply slice_app_l; lia).
  assert (zlen (slice from n p) = n) as Hz by (rewrite zlen_slice; lia).
  rewrite (memcpy_at_Some (h_buf st)) by (try rewrite Hz; lia). set (buf := _ ++ _ ++ _). cbn [mbind option_bind].
  assert (memcpy_at (h_buf st) to (slice from n p) = Some buf) as Eb by (rewrite memcpy_at_Some; [done|try rewrite Hz; lia..]).
  assert (zlen (replicate (Z.to_nat n) 1) = n) as Hz' by (rewrite zlen_replicate; lia).
  rewrite memcpy_at_Some by (try rewrite Hz'; lia). set (flag := _ ++ _ ++ _). cbn [mbind option_bind].
  assert (memcpy_at (h_flag st) to (replicate (Z.to_nat n) 1) = Some flag) as Ef by (rewrite memcpy_at_Some; [done|try rewrite Hz'; lia..]).
  eexists. split; [done|]. split; [|done].
  split; [cbn; rewrite (memcpy_at_len _ _ _ _ Eb); done|]. split; [cbn; rewrite (memcpy_at_len _ _ _ _ Ef); done|].
  cbn [h_buf h_flag h_ret]. split; [|split; [|by left]].
  - intros i Hin. specialize (Hcov i Hin). specialize (Hi i Hin) as [Hi1 Hi2].
    rewrite (memcpy_at_lookup _ _ _ _ _ Eb), (memcpy_at_lookup _ _ _ _ _ Ef), Hz, Hz', Z2Nat.id by lia. unfold store.
    destruct (Z.leb_spec to i), (Z.ltb_spec i (to + n)), (Z.leb_spec a (start + i)), (Z.ltb_spec (start + i) (a + zlen p)); cbn [andb]; try lia; try done.
    assert (slice from n p !! (Z.to_nat i - Z.to_nat to)%nat = p !! Z.to_nat (start + i - a)) as ->.
    { unfold slice. rewrite lookup_take_lt by lia. rewrite lookup_drop. f_equal. lia. }
    rewrite lookup_replicate_2 by lia. destruct (lookup_lt_is_Some_2 p (Z.to_nat (start + i - a))) as [v ->]; [unfold zlen in *; lia|done].
  - intros i Hge. rewrite (memcpy_at_lookup _ _ _ _ _ Eb), Hz.
    rewrite <- (Hout i Hge). destruct (Z.leb_spec to (Z.of_nat (Z.to_nat i))), (Z.ltb_spec (Z.of_nat (Z.to_nat i)) (to + n)); try done. lia.
Qed.

(** Addresses that a wrapped end cannot reach. *)
Definition range_ok (start len : Z) : Prop := 0 <= start /\ 0 <= len /\ start + len <= 2 ^ 32 - 256.

Lemma store_miss start len buf0 m st a p :
  hex_inv start len buf0 m st -> (forall i, 0 <= i < len -> ~ a <= start + i < a + zlen p) -> hex_inv start len buf0 (store a p m) st.
Proof.
  intros (Hb & Hf & Hi & Hout & Hr) Hcov.
  assert (forall i, 0 <= i < len -> store a p m (start + i) = m (start + i)) as E.
  { intros i Hin. specialize (Hcov i Hin). unfold store.
    destruct (Z.leb_spec a (start + i)), (Z.ltb_spec (start + i) (a + zlen p)); try done. lia. }
  split; [done|]. split; [done|]. split; [|split; [done|]].
  - intros i Hin. rewrite E by done. auto.
  - destruct Hr as [|[Hr Hm]]; [by left|]. right. split; [done|]. intros i Hin. rewrite E by done. auto.
Qed.

Lemma data_record_inv start len buf0 m st r :
  range_ok start len -> hex_inv start len buf0 m st -> len <= zlen buf0 -> record_ok r ->
  exists st', data_record start (start + len) r st = Some st' /\
    hex_inv start len buf0 (store (u32 (h_last st + offset_address r)) (payload r) m) st' /\
    h_find st' = h_find st /\ h_last st' = h_last st.
Proof.
  intros (Hs & Hl & Hsl) Hinv Hlen (_ & _ & _ & Hp). unfold data_record. set (a := u32 (h_last st + offset_address r)).
  assert (0 <= a < 2 ^ 32) as Ha by (apply wrap_range; lia). pose proof (zlen_nonneg (payload r)) as Hp0.
  change (2 ^ 32) with 4294967296 in *. destruct (Z.ltb_spec a start).
  - rewrite (wrap_small 32 (a + zlen (payload r))) by (change (2 ^ 32) with 4294967296; lia).
    destruct (Z.ltb_spec (a + zlen (payload r)) start).
    { exists st. split; [done|]. split; [|done]. apply store_miss; [done|]. intros. lia. }
    replace (if _ <? _ then _ else _) with (Z.min (a + zlen (payload r)) (start + len)) by (destruct (Z.ltb_spec (a + zlen (payload r)) (start + len)); lia).
    rewrite wrap_small by (change (2 ^ 32) with 4294967296; lia). apply copy_out_inv; try done; try lia.
  - destruct (Z.ltb_spec (start + len) a).
    { exists st. split; [done|]. split; [|done]. apply store_miss; [done|]. intros. lia. }
    rewrite (wrap_small 32 (a + zlen (payload r))) by (change (2 ^ 32) with 4294967296; lia).
    replace (if _ <? _ then _ else _) with (Z.min (a + zlen (payload r)) (start + len)) by (destruct (Z.ltb_spec (a + zlen (payload r)) (start + len)); lia).
    rewrite wrap_small by (change (2 ^ 32) with 4294967296; lia). apply copy_out_inv; try done; try lia.
Qed.

(** *** Whole files *)

Lemma hex_inv_linear start len buf0 m st find last : hex_inv start len buf0 m (set_linear find last st) <-> hex_inv start len buf0 m st.
Proof. reflexivity. Qed.

Lemma linear_record start end_addr r base st :
  record_ok r -> type r <> RECORD_TYPE_DATA -> base_ok base st ->
  exists find last, apply_record start end_addr r st = Some (set_linear find last st) /\
    base_ok (linear r base) (set_linear find last st).
Proof.
  intros (_ & Ht & Hp & _) Hne Hb. unfold apply_record, linear.
  unfold RECORD_TYPE_DATA, RECORD_TYPE_EOF, RECORD_TYPE_EX_LINEAR_ADDR, RECORD_TYPE_START_LINEAR_ADDR, RECORD_TYPE_EX_SEG_ADDR, RECORD_TYPE_START_SEG_ADDR in *.
  assert (set_linear (h_find st) (h_last st) st = st) as Eid by (by destruct st).
  assert (Some st = Some (set_linear (h_find st) (h_last st) st)) as Esame by (by rewrite Eid).
  assert (base_ok base (set_linear (h_find st) (h_last st) st)) as Bsame by (by rewrite Eid).
  destruct (Z.eqb_spec (type r) 0) as [|_]; [done|].
  destruct (Z.eqb_spec (type r) 1) as [->|H1]; [by eexists _, _|].
  destruct (Z.eqb_spec (type r) 4) as [_|H4].
  { destruct (Z.eqb_spec (zlen (payload r)) 2) as [Hz|]; cbn [negb]; [|by eexists _, _]. eexists _, _. split; [done|]. split; [done|].
    cbn. pose proof (be_value_range _ Hp) as Hv. rewrite Hz in Hv. rewrite Z.shiftl_mul_pow2 by lia.
    rewrite wrap_small by (change (2 ^ 32) with (2 ^ (8 * 2) * 2 ^ 16); lia). done. }
  destruct (Z.eqb_spec (type r) 5) as [_|H5].
  { destruct (Z.eqb_spec (zlen (payload r)) 4) as [Hz|]; cbn [negb]; [|by eexists _, _]. by eexists _, _. }
  destruct (Z.eqb_spec (type r) 2) as [->|H2]; [by eexists _, _|].
  destruct (Z.eqb_spec (type r) 3) as [->|H3]; [by eexists _, _|]. cbn [orb].
  destruct (Z.ltb_spec 5 (type r)); [by eexists _, _|lia].
Qed.

(** The loop builds the image of the records of the file; nothing stops it but
    the end of the file or a line that is refused. *)
Lemma read_lines_image start len buf0 fuel : range_ok start len -> len <= zlen buf0 ->
  forall s base m st, (length s < fuel)%nat -> base_ok base st -> hex_inv start len buf0 m st ->
  exists st', read_lines fuel start (start + len) s st = Some st' /\
    hex_inv start len buf0 (image base m (hex_records fuel s)) st'.
Proof.
  intros Hr Hlen. induction fuel as [|fuel IH]; intros s base m st Hf Hb Hi; [lia|]. cbn [read_lines hex_records].
  destruct (fgets 256 s) as [[line s']|] eqn:E; [|by exists st]. apply fgets_some in E as (H1 & H2 & H3).
  destruct (parse_record_some line) as (o & -> & Ho); [lia|]. cbn [mbind option_bind].
  destruct o as [r|]; [|by exists st]. specialize (Ho r eq_refl). cbn [image].
  destruct (Z.eqb_spec (type r) RECORD_TYPE_DATA) as [Ht|Ht].
  - unfold apply_record. rewrite Ht. cbn [Z.eqb RECORD_TYPE_DATA]. destruct base as [b|]; cbn [base_ok] in Hb.
    + destruct Hb as [Hfind Hlast]. rewrite Hfind.
      destruct (data_record_inv start len buf0 m st r) as (st' & -> & Hinv & Hf' & Hl'); [done..|]. cbn [mbind option_bind].
      rewrite Hlast in Hinv. apply (IH s' (Some b)); [lia| |done]. cbn. by rewrite Hf', Hl'.
    + rewrite Hb. cbn [mbind option_bind]. apply (IH s' None); [lia|done|done].
  - destruct (linear_record start (start + len) r base st) as (find & last & -> & Hb'); [done..|]. cbn [mbind option_bind].
    apply (IH s' (linear r base)); [lia|done|]. by apply hex_inv_linear.
Qed.

(** The longest part from the start that the memory covers. *)
Lemma flagged_spec (m : hex_mem) flag : forall start,
  (forall i, 0 <= i < zlen flag -> flag !! Z.to_nat i = Some (if m (start + i) is Some _ then 1 else 0)) ->
  0 <= flagged flag <= zlen flag /\ (forall i, 0 <= i < flagged flag -> m (start + i) <> None) /\
  (flagged flag < zlen flag -> m (start + flagged flag) = None).
Proof.
  induction flag as [|f flag IH]; intros start Hf; cbn [flagged].
  { change (zlen (@nil Z)) with 0. split; [lia|]. split; lia. }
  rewrite zlen_cons in *. pose proof (zlen_nonneg flag).
  pose proof (Hf 0 ltac:(lia)) as H0. cbn in H0. injection H0 as H0. rewrite Z.add_0_r in H0.
  destruct (Z.eqb_spec f 0) as [->|Hne].
  - split; [lia|]. split; [lia|]. intros _. rewrite Z.add_0_r. by destruct (m start).
  - destruct (IH (start + 1)) as (H1 & H2 & H3).
    { intros i Hi. specialize (Hf (i + 1) ltac:(lia)). replace (Z.to_nat (i + 1)) with (S (Z.to_nat i)) in Hf by lia.
      change ((f :: flag) !! S (Z.to_nat i)) with (flag !! Z.to_nat i) in Hf. rewrite Hf. by replace (start + (i + 1)) with (start + 1 + i) by lia. }
    split; [lia|]. split.
    + intros i Hi. destruct (Z.eq_dec i 0) as [->|Hi0].
      * rewrite Z.add_0_r. destruct (m start); [done|]. subst f. done.
      * replace (start + i) with (start + 1 + (i - 1)) by lia. apply H2. lia.
    + intros Hlt. replace (start + (1 + flagged flag)) with (start + 1 + flagged flag) by lia. apply H3. lia.
Qed.

(** [readData] copies the image of the file: what it returns in every case. *)
Lemma readData_image contents start len buf : range_ok start len -> len <= zlen buf ->
  let m := image None (fun _ => None) (hex_records (S (length contents)) contents) in
  exists ret buf' n, readData (Some contents) start buf len = Some (ret, buf', n) /\ zlen buf' = zlen buf /\
    (forall i, 0 <= i < len -> buf' !! Z.to_nat i = Some (default 0 (m (start + i)))) /\
    (forall i, len <= i -> buf' !! Z.to_nat i = buf !! Z.to_nat i) /\
    (0 <= n <= len /\ (forall i, 0 <= i < n -> m (start + i) <> None) /\ (n < len -> m (start + n) = None)) /\
    (ret = 1 \/ ret = -1 /\ forall i, 0 <= i < len -> m (start + i) = None).
Proof.
  intros Hr Hlen m. unfold readData. assert (range_ok start len) as (Hs & Hl & Hsl) by done.
  assert (zlen (replicate (Z.to_nat len) 0) = len) as Hz by (rewrite zlen_replicate; lia).
  rewrite memcpy_at_Some by (try rewrite Hz; lia). set (buf1 := _ ++ _ ++ _). cbn [mbind option_bind].
  assert (memcpy_at buf 0 (replicate (Z.to_nat len) 0) = Some buf1) as Eb by (rewrite memcpy_at_Some; [done|try rewrite Hz; lia..]).
  rewrite wrap_small by (change (2 ^ 32) with 4294967296 in *; lia).
  destruct (read_lines_image start len buf (S (length contents)) Hr Hlen contents None (fun _ => None)
    (mkHex buf1 (replicate (Z.to_nat len) 0) (-1) false 0)) as (st' & -> & H1 & H2 & H3 & H4 & H5); [lia|done| |].
  { split; [cbn; by rewrite (memcpy_at_len _ _ _ _ Eb)|]. split; [done|]. cbn [h_buf h_flag h_ret]. split; [|split; [|by right]].
    - intros i Hi. rewrite (memcpy_at_lookup _ _ _ _ _ Eb), Hz. split; [|by rewrite lookup_replicate_2 by lia].
      destruct (Z.leb_spec 0 (Z.of_nat (Z.to_nat i))), (Z.ltb_spec (Z.of_nat (Z.to_nat i)) (0 + len)); cbn [andb]; try lia.
      rewrite lookup_replicate_2 by lia. done.
    - intros i Hi. rewrite (memcpy_at_lookup _ _ _ _ _ Eb), Hz.
      destruct (Z.leb_spec 0 (Z.of_nat (Z.to_nat i))), (Z.ltb_spec (Z.of_nat (Z.to_nat i)) (0 + len)); cbn [andb]; try lia. done. }
  cbn [mbind option_bind]. eexists _, _, _. split; [done|]. split; [done|]. split; [intros i Hi; apply H3; done|]. split; [done|].
  split; [|done]. rewrite <- H2. apply (flagged_spec m). intros i Hi. apply H3. lia.
Qed.

(** ** Files that a HEX writer makes *)

Definition code (c : Ascii.ascii) : Z := Z.of_N (Ascii.N_of_ascii c).
Definition hex_text (n : nat) (x : Z) : list Z := map code (hex_fixed n x).

Definition check_byte (r : hex_record) : Z :=
  u8 (- (zlen (payload r) + Z.shiftr (offset_address r) 8 + Z.land (offset_address r) 0xff + type r + zsum (payload r))).

Definition hex_body (r : hex_record) : list Z :=
  [58] ++ hex_text 2 (zlen (payload r)) ++ hex_text 4 (offset_address r) ++ hex_text 2 (type r) ++
  concat (map (hex_text 2) (payload r)) ++ hex_text 2 (check_byte r).

(** A line ends with a new line, with or without a carriage return. *)
Definition hex_line (r : hex_record) (cr : bool) : list Z := hex_body r ++ (if cr then [13; 10] else [10]).

Definition hex_file (rs : list (hex_record * bool)) : list Z := concat (map (fun x => hex_line (fst x) (snd x)) rs).

(** What fits a line that [fgets] reads at once. *)
Definition line_ok (r : hex_record) : Prop := record_ok r /\ zlen (payload r) <= 121.

Lemma ascii_code c : Ascii.ascii_of_N (Z.to_N (code c)) = c.
Proof. unfold code. rewrite N2Z.id. apply Ascii.ascii_N_embedding. Qed.

Lemma hexchar_code d : nibble d -> code (hexchar d) <> 0 /\ code (hexchar d) <> 10 /\ code (hexchar d) <> 13.
Proof. intros Hd. nibble_cases d; vm_compute; repeat split; discriminate. Qed.

(** A printing character, as far as lines and strings care. *)
Definition inner (c : Z) : Prop := c <> 0 /\ c <> 10 /\ c <> 13.

Lemma hex_text_inner n x : Forall inner (hex_text n x).
Proof.
  unfold hex_text. rewrite hex_fixed_nibbles, List.map_map. apply Forall_map.
  eapply Forall_impl; [apply nibbles_ok|]. intros d Hd. by apply hexchar_code.
Qed.

Lemma zlen_hex_text n x : zlen (hex_text n x) = Z.of_nat n.
Proof. unfold hex_text, zlen. by rewrite List.length_map, length_hex_fixed. Qed.

Lemma zlen_payload_text p : zlen (concat (map (hex_text 2) p)) = 2 * zlen p.
Proof. induction p as [|b p IH]; [done|]. cbn [map concat]. rewrite zlen_app, zlen_hex_text, zlen_cons, IH. lia. Qed.

Lemma payload_text_inner p : Forall inner (concat (map (hex_text 2) p)).
Proof. apply Forall_concat, Forall_map, Forall_true. intros. apply hex_text_inner. Qed.

Lemma zlen_hex_body r : zlen (hex_body r) = 11 + 2 * zlen (payload r).
Proof. unfold hex_body. rewrite !zlen_app, !zlen_hex_text, zlen_payload_text, zlen_cons. change (zlen (@nil Z)) with 0. lia. Qed.

Lemma hex_body_inner r : Forall inner (hex_body r).
Proof.
  unfold hex_body. rewrite !Forall_app. repeat split; try apply hex_text_inner; [|apply payload_text_inner].
  constructor; [|done]. vm_compute. repeat split; discriminate.
Qed.

Lemma c_str_inner l : Forall inner l -> c_str l = l.
Proof. induction 1 as [|c l (Hc & _) _ IH]; [done|]. cbn [c_str]. rewrite IH. by destruct (Z.eqb_spec c 0). Qed.

Lemma c_str_app l1 l2 : Forall (fun c => c <> 0) l1 -> c_str (l1 ++ l2) = l1 ++ c_str l2.
Proof. induction 1 as [|c l Hc _ IH]; [done|]. cbn [c_str app]. rewrite IH. by destruct (Z.eqb_spec c 0). Qed.

Lemma strtol16_hex n x : (2 <= n)%nat -> 0 <= x < 16 ^ Z.of_nat n -> x < 2 ^ 63 -> fst (strtol16 (hex_fixed n x)) = x.
Proof.
  intros Hn Hx Hlt. rewrite hex_fixed_nibbles. unfold strtol16. pose proof (nibbles_ok n x) as Hok.
  pose proof (length_nibbles n x) as Hlen. pose proof (nibble_value_nibbles n 0 x) as Hv.
  destruct (nibbles n x) as [|d [|e ds]] eqn:E; [simpl in Hlen; lia..|].
  assert (Hok' := Hok). apply Forall_cons in Hok' as [Hd [He _]%Forall_cons].
  destruct (digits_plain d e ds [] Hd He) as (H1 & H2 & H3). rewrite !app_nil_r in *. rewrite H1, H2, H3. cbn [andb].
  rewrite <- (app_nil_r (map hexchar (d :: e :: ds))) at 2.
  rewrite (take_hex_digits _ 0 (d :: e :: ds) []); [|done|rewrite List.length_map; lia|by right].
  rewrite Hv. cbn [length fst]. rewrite Z.add_0_l, Z.mod_small by done. lia.
Qed.

Lemma convert_text pre post n x : (2 <= n)%nat -> 0 <= x < 16 ^ Z.of_nat n -> x < 2 ^ 63 ->
  convert (pre ++ hex_text n x ++ post) (zlen pre) (Z.of_nat n) = Some x.
Proof.
  intros Hn Hx Hlt. unfold convert. rewrite <- (zlen_hex_text n x), memread_mid. cbn [mbind option_bind].
  rewrite c_str_inner by apply hex_text_inner. unfold hex_text. rewrite List.map_map, (List.map_ext _ (fun c => c)) by apply ascii_code.
  by rewrite List.map_id, strtol16_hex.
Qed.

Lemma byte_at_text pre post x : is_byte x -> byte_at (pre ++ hex_text 2 x ++ post) (zlen pre) = Some x.
Proof.
  unfold is_byte. intros Hx. unfold byte_at. rewrite (convert_text pre post 2) by (try done; lia). cbn [mbind option_bind].
  f_equal. change 0xff with (Z.ones 8). rewrite Z.land_ones by lia. apply Z.mod_small. done.
Qed.

Lemma payload_at pre p post : bytes_ok p ->
  mapM (fun i => byte_at (pre ++ concat (map (hex_text 2) p) ++ post) (zlen pre + 2 * i)) (seqZ 0 (zlen p)) = Some p.
Proof.
  intros Hp. apply mapM_Some, Forall2_same_length_lookup_2; [rewrite length_seqZ; unfold zlen; lia|].
  intros i j y Hj%lookup_seqZ Hy. destruct Hj as [-> Hj]. rewrite Z.add_0_l.
  rewrite <- (take_drop_middle p i y Hy) at 1. rewrite map_app, concat_app. cbn [map concat]. rewrite <- !app_assoc, app_assoc.
  replace (zlen pre + 2 * Z.of_nat i) with (zlen (pre ++ concat (map (hex_text 2) (take i p)))).
  - apply byte_at_text. by eapply Forall_lookup_1 in Hp.
  - rewrite zlen_app, zlen_payload_text. unfold zlen. rewrite length_take. apply lookup_lt_Some in Hy. lia.
Qed.

Lemma sum_wraps l : forall s, foldl (fun sum b => u8 (sum + b)) (u8 s) l = u8 (s + zsum l).
Proof.
  induction l as [|b l IH]; intros s; cbn [foldl]; [change (zsum []) with 0; by rewrite Z.add_0_r|].
  assert (u8 (u8 s + b) = u8 (s + b)) as -> by (unfold wrap; by rewrite Z.add_mod_idemp_l).
  rewrite IH. change (zsum (b :: l)) with (b + zsum l). f_equal. lia.
Qed.

Lemma check_sums r : let s := check_byte r + zlen (payload r) + Z.shiftr (offset_address r) 8 + Z.land (offset_address r) 0xff + type r in
  foldl (fun sum b => u8 (sum + b)) (u8 s) (payload r) = 0.
Proof.
  intros s. rewrite sum_wraps. unfold s, check_byte. set (k := zlen _ + _ + _ + _ + zsum _).
  replace (u8 (- k) + _ + _ + _ + _ + _) with (u8 (- k) + k) by (unfold k; lia).
  unfold wrap. rewrite Z.add_mod_idemp_l by done. by replace (- k + k) with 0 by lia.
Qed.

(** The fields of a text that starts with the body of a line. *)
Lemma parse_fields_body r tail : record_ok r -> parse_fields (hex_body r ++ tail) (zlen (payload r)) = Some (Some r).
Proof.
  intros (Ho & Ht & Hp & Hl). unfold parse_fields, hex_body. set (n := zlen (payload r)) in *.
  set (P := concat (map (hex_text 2) (payload r))). set (C := hex_text 2 (check_byte r)).
  assert (zlen P = 2 * n) as HP by apply zlen_payload_text.
  assert (is_byte (check_byte r)) as Hc by (apply wrap_range; lia).
  rewrite <- !app_assoc.
  pose proof (convert_text ([58] ++ hex_text 2 n) (hex_text 2 (type r) ++ P ++ C ++ tail) 4 (offset_address r)) as E1.
  rewrite <- !app_assoc in E1. rewrite zlen_app, zlen_hex_text in E1. change (zlen [58] + Z.of_nat 2) with 3 in E1. change (Z.of_nat 4) with 4 in E1.
  rewrite E1; [|lia|change (16 ^ Z.of_nat 4) with (2 ^ 16); lia|lia]. cbn [mbind option_bind].
  pose proof (byte_at_text ([58] ++ hex_text 2 n ++ hex_text 4 (offset_address r)) (P ++ C ++ tail) (type r)) as E2.
  rewrite <- !app_assoc in E2. rewrite !zlen_app, !zlen_hex_text in E2. change (zlen [58] + _) with 7 in E2.
  rewrite E2 by done. cbn [mbind option_bind].
  pose proof (payload_at ([58] ++ hex_text 2 n ++ hex_text 4 (offset_address r) ++ hex_text 2 (type r)) (payload r) (C ++ tail) Hp) as E3.
  rewrite <- !app_assoc in E3. rewrite !zlen_app, !zlen_hex_text in E3. change (zlen [58] + _) with 9 in E3.
  fold P n in E3. rewrite E3. cbn [mbind option_bind].
  pose proof (byte_at_text ([58] ++ hex_text 2 n ++ hex_text 4 (offset_address r) ++ hex_text 2 (type r) ++ P) tail (check_byte r) Hc) as E4.
  rewrite <- !app_assoc in E4. rewrite !zlen_app, !zlen_hex_text, HP in E4.
  replace (zlen [58] + _) with (9 + 2 * n) in E4 by (change (zlen [58]) with 1; lia). fold C in E4. rewrite E4. cbn [mbind option_bind].
  assert (Z.land (offset_address r) 0xffff = offset_address r) as ->.
  { change 0xffff with (Z.ones 16). rewrite Z.land_ones by lia. by apply Z.mod_small. }
  pose proof (check_sums r) as Ek. cbv zeta in Ek. fold n in Ek. rewrite Ek. cbn. by destruct r.
Qed.

Lemma hex_body_snoc r : exists b c, hex_body r = b ++ [c] /\ inner c.
Proof.
  destruct (exists_last (l := hex_body r)) as (b & c & E). { pose proof (zlen_hex_body r). intros E. rewrite E in H. change (zlen (@nil Z)) with 0 in H. pose proof (zlen_nonneg (payload r)). lia. }
  exists b, c. split; [done|]. pose proof (hex_body_inner r) as H. rewrite E in H. apply Forall_app in H as [_ [H _]%Forall_cons]. done.
Qed.

Lemma lookup_behind {A} (l1 l2 : list A) k : 0 <= k -> (l1 ++ l2) !! Z.to_nat (zlen l1 + k) = l2 !! Z.to_nat k.
Proof. intros. unfold zlen. rewrite lookup_app_r by lia. f_equal. lia. Qed.

Lemma insert_behind {A} (l1 l2 : list A) k x : 0 <= k -> <[Z.to_nat (zlen l1 + k) := x]> (l1 ++ l2) = l1 ++ <[Z.to_nat k := x]> l2.
Proof. intros. unfold zlen. rewrite insert_app_r_alt by lia. do 2 f_equal. lia. Qed.

(** Cutting a line that ends with a new line leaves its body. *)
Lemma cut_newline_line r cr z : exists tail,
  cut_newline (hex_line r cr ++ z) (zlen (hex_line r cr)) = Some (hex_body r ++ tail, zlen (hex_body r)).
Proof.
  destruct (hex_body_snoc r) as (b & c & E & Hc0 & Hc10 & Hc13). unfold hex_line, cut_newline. set (B := hex_body r) in *.
  destruct cr; rewrite <- app_assoc, zlen_app.
  - change (zlen [13; 10]) with 2. replace (zlen B + 2 - 1) with (zlen B + 1) by lia. replace (zlen B + 2 - 2) with (zlen B + 0) by lia.
    rewrite !lookup_behind, insert_behind by lia. rewrite Z.add_0_r. eexists. reflexivity.
  - change (zlen [10]) with 1. replace (zlen B + 1 - 1) with (zlen B + 0) by lia.
    rewrite lookup_behind, insert_behind by lia.
    assert ((B ++ [10] ++ z) !! Z.to_nat (zlen B + 1 - 2) = Some c) as Ec.
    { rewrite E, zlen_app, <- app_assoc. change (zlen [c]) with 1. replace (zlen b + 1 + 1 - 2) with (zlen b + 0) by lia.
      by rewrite lookup_behind by lia. }
    rewrite Ec, Z.add_0_r. cbn -[B]. destruct (Z.eqb_spec c 13) as [->|_]; [done|]. eexists. reflexivity.
Qed.

(** What a writer writes is parsed back. *)
Lemma parse_line r cr : line_ok r -> parse_record (hex_line r cr) = Some (Some r).
Proof.
  intros [Hr Hl]. pose proof (zlen_hex_body r) as Hb. pose proof (zlen_nonneg (payload r)) as Hp.
  assert (zlen (hex_line r cr) = zlen (hex_body r) + if cr then 2 else 1) as Hz by (unfold hex_line; rewrite zlen_app; by destruct cr).
  unfold parse_record. set (z := replicate _ 0).
  assert (strlen (hex_line r cr ++ z) = zlen (hex_line r cr)) as ->.
  { unfold strlen, z. rewrite c_str_app_zeros. rewrite <- (app_nil_r (hex_line r cr)) at 1. rewrite c_str_app; [by rewrite app_nil_r|].
    unfold hex_line. apply Forall_app. split; [eapply Forall_impl; [apply hex_body_inner|by intros ? []]|].
    destruct cr; repeat constructor; done. }
  assert ((hex_line r cr ++ z) !! 0%nat = Some 58) as -> by done. cbn [mbind option_bind].
  destruct (Z.ltb_spec (zlen (hex_line r cr)) 11); [destruct cr; lia|]. cbn [orb Z.eqb Pos.eqb negb].
  destruct (cut_newline_line r cr z) as [tail ->]. cbn [mbind option_bind].
  destruct (Z.ltb_spec (zlen (hex_body r)) 11); [lia|].
  assert (byte_at (hex_body r ++ tail) 1 = Some (zlen (payload r))) as ->.
  { unfold hex_body. rewrite <- !app_assoc. apply (byte_at_text [58]). unfold is_byte. lia. }
  cbn [mbind option_bind]. destruct (Z.eqb_spec (zlen (hex_body r)) (1 + 2 + 4 + 2 + zlen (payload r) * 2 + 2)); [|lia].
  cbn [negb]. by apply parse_fields_body.
Qed.

Lemma fgets_body l eol rest : Forall inner l -> forall n, (length l + length eol <= n)%nat ->
  eol = [13; 10] \/ eol = [10] -> fgets_line n (l ++ eol ++ rest) = l ++ eol.
Proof.
  induction 1 as [|c l (_ & Hc & _) _ IH]; intros n Hn Heol.
  - destruct Heol as [-> | ->]; cbn [length] in Hn; destruct n as [|[|n]]; try lia; done.
  - destruct n as [|n]; [cbn [length] in Hn; lia|]. cbn [app fgets_line]. destruct (Z.eqb_spec c 10) as [|_]; [done|].
    rewrite IH; [done|cbn [length] in Hn; lia|done].
Qed.

Lemma fgets_hex_line r cr rest : line_ok r -> fgets 256 (hex_line r cr ++ rest) = Some (hex_line r cr, rest).
Proof.
  intros [Hr Hl]. pose proof (zlen_hex_body r) as Hb. unfold zlen in *. unfold fgets, hex_line. rewrite <- app_assoc.
  rewrite (fgets_body (hex_body r) _ rest (hex_body_inner r)); [|destruct cr; cbn [length]; lia|destruct cr; auto].
  destruct (hex_body r ++ _) eqn:E; [by apply app_nil in E as [_ E2]; destruct cr|]. rewrite <- E. do 2 f_equal.
  by rewrite app_assoc, drop_app_length.
Qed.

Lemma hex_records_file rs : Forall (fun x => line_ok (fst x)) rs -> forall fuel, (length (hex_file rs) < fuel)%nat ->
  hex_records fuel (hex_file rs) = map fst rs.
Proof.
  induction 1 as [|[r cr] rs Hr _ IH]; intros fuel Hf.
  - destruct fuel; [lia|done].
  - destruct fuel as [|fuel]; [lia|]. cbn [hex_records]. unfold hex_file in *. cbn [map concat] in *. cbn [fst snd] in *.
    rewrite fgets_hex_line, parse_line by done. rewrite length_app in Hf. assert (0 < length (hex_line r cr))%nat by (unfold hex_line; destruct cr; rewrite length_app; simpl; lia).
    rewrite IH; [done|lia].
Qed.


(** Two records with a gap of four bytes between them: the second is lost. *)
Definition gap_file : list (hex_record * bool) :=
  [(mkRecord 0 RECORD_TYPE_EX_LINEAR_ADDR [8; 0], true); (mkRecord 0 RECORD_TYPE_DATA [1; 2; 3; 4], true);
   (mkRecord 8 RECORD_TYPE_DATA [5; 6; 7; 8], false); (mkRecord 0 RECORD_TYPE_EOF [], true)].

