(* ===== verification/UpdateFile.v ===== *)
(** The update file of the device updater: class UpdateFileContext and struct
    UpdateSliceContext (src/imp/device-update/update-file.h, update-file.cpp,
    update-type-def.h). *)
From S2P Require Import Prelude HexFile Iutils.

(** ** Slices *)

Definition UPDATE_VECTOR_SLICE : Z := 0xE3.
Definition UPDATE_CODE_SLICE : Z := 0xE6.

Record UpdateSliceContext := mkSlice {
  max_slice_size : Z;
  data : list Z;
  data_len : Z;
  slice_type : Z;                    (* type *)
  vector_map : list (Z * Z);
  code_map : list (Z * Z);
  seq : Z;
  page_size : Z }.

Definition new_UpdateSliceContext (_max_slice_size : Z) : UpdateSliceContext :=
  mkSlice _max_slice_size (replicate (Z.to_nat (u32 (_max_slice_size + 1))) 0) 0 UPDATE_VECTOR_SLICE [] [] (-2) 1024.

Definition set_data (d : list Z) (n : Z) (c : UpdateSliceContext) : UpdateSliceContext :=
  mkSlice (max_slice_size c) d n (slice_type c) (vector_map c) (code_map c) (seq c) (page_size c).
Definition set_seq (t q : Z) (c : UpdateSliceContext) : UpdateSliceContext :=
  mkSlice (max_slice_size c) (data c) (data_len c) t (vector_map c) (code_map c) q (page_size c).
Definition set_maps (v m : list (Z * Z)) (c : UpdateSliceContext) : UpdateSliceContext :=
  mkSlice (max_slice_size c) (data c) (data_len c) (slice_type c) v m (seq c) (page_size c).
Definition set_page_size (p : Z) (c : UpdateSliceContext) : UpdateSliceContext :=
  mkSlice (max_slice_size c) (data c) (data_len c) (slice_type c) (vector_map c) (code_map c) (seq c) p.

(** ** Files *)

Inductive AimyUpdateFileType := AIMY_HEX_FILE | AIMY_BIN_FILE | AIMY_ENCRYPT_BIN_FILE | AIMY_UNKNOWN_FILE.
#[global] Instance AimyUpdateFileType_eq_dec : EqDecision AimyUpdateFileType.
Proof. solve_decision. Defined.

Definition AIMY_HEX_STRING_MAX_LEN : Z := 0x20.
Definition sizeof_DeviceInfo : Z := 3 * AIMY_HEX_STRING_MAX_LEN.

(** An open file is its content: every operation seeks before it reads. *)
Record UpdateFileContext := mkContext {
  file_type : AimyUpdateFileType;    (* type *)
  updateFilename : list Z;
  fp : option (list Z);
  fileSize : Z;
  vecData : option (list Z);
  vecDataLen : Z;
  codeData : option (list Z);
  codeDataLen : Z }.

Definition new_UpdateFileContext : UpdateFileContext := mkContext AIMY_UNKNOWN_FILE [] None 0 None 0 None 0.

Definition deInit (x : UpdateFileContext) : UpdateFileContext :=
  match updateFilename x with
  | [] => x
  | name => mkContext AIMY_UNKNOWN_FILE name None 0 None 0 None 0
  end.

Definition tolower (c : Z) : Z := if (65 <=? c) && (c <=? 90) then c + 32 else c.
Definition strcasecmp_eq (a b : list Z) : bool := bool_decide (map tolower (c_str a) = map tolower (c_str b)).

Definition match_list : list (list Z * AimyUpdateFileType) :=
  [([104; 101; 120], AIMY_HEX_FILE);                 (* hex *)
   ([109; 118; 97], AIMY_BIN_FILE);                  (* mva *)
   ([97; 109; 118; 97], AIMY_ENCRYPT_BIN_FILE)].     (* amva *)

Definition guessFileType (file_name : list Z) (guessType : AimyUpdateFileType) : AimyUpdateFileType :=
  let suffix := getSuffix file_name [46] in
  match suffix with
  | [] => guessType
  | _ => match list_find (fun x => Is_true (strcasecmp_eq (fst x) suffix)) match_list with
         | Some (_, (_, t)) => t
         | None => guessType
         end
  end.

(** [fopen] is the file system. *)
Definition init (fopen : list Z -> option (list Z)) (fileName : list Z) (guessType : AimyUpdateFileType)
    (x : UpdateFileContext) : bool * UpdateFileContext :=
  let x := deInit x in
  match fileName with
  | [] => (false, deInit x)
  | _ =>
      let x := mkContext (guessFileType fileName guessType) fileName (fp x) (fileSize x) (vecData x) (vecDataLen x) (codeData x) (codeDataLen x) in
      if decide (file_type x = AIMY_UNKNOWN_FILE) then (false, deInit x) else
      match fopen fileName with
      | None => (false, deInit x)
      | Some contents =>
          if zlen contents <=? 0 then (false, deInit x)
          else (true, mkContext (file_type x) fileName (Some contents) (zlen contents) (vecData x) (vecDataLen x) (codeData x) (codeDataLen x))
      end
  end.

(** *** Loading the two segments *)

Definition fread (contents : list Z) (pos n : Z) : list Z := slice pos n contents.

(** The buffer of a segment of [n] bytes, with a byte behind it. *)
Definition segment_buffer (n : Z) : list Z := replicate (Z.to_nat (u32 (n + 1))) 0.

(** A segment that is read from [pos]; [None] inside when nothing is read. *)
Definition load_raw (contents : list Z) (pos n : Z) (buf : list Z) : option (option (list Z)) :=
  if n <=? 0 then Some (Some buf) else
  let d := fread contents pos n in
  buf ← memcpy_at buf 0 d;
  if zlen d <=? 0 then Some None else Some (Some buf).

(** The same for a HEX file, where the length can change. *)
Definition load_hex (contents : list Z) (start n : Z) (buf : list Z) : option (option (list Z * Z)) :=
  if n <=? 0 then Some (Some (buf, n)) else
  '(read_len, buf, n) ← readData (Some contents) start buf n;
  if read_len <=? 0 then Some None else Some (Some (buf, n)).

Definition set_segments (v : option (list Z)) (vl : Z) (c : option (list Z)) (cl : Z) (x : UpdateFileContext) : UpdateFileContext :=
  mkContext (file_type x) (updateFilename x) (fp x) (fileSize x) v vl c cl.

Definition load_failed (x : UpdateFileContext) : option (bool * UpdateFileContext) :=
  Some (false, set_segments None 0 None 0 x).

Definition load_bin (contents : list Z) (vec_start vl cl : Z) (x : UpdateFileContext) : option (bool * UpdateFileContext) :=
  v ← load_raw contents vec_start vl (segment_buffer vl);
  match v with
  | None => load_failed x
  | Some v =>
      let buf := segment_buffer cl in
      let rest := u64 (fileSize x - sizeof_DeviceInfo) in
      let cl := if decide (file_type x = AIMY_ENCRYPT_BIN_FILE) then if rest <? cl then u32 rest else cl else cl in
      c ← load_raw contents 0 cl buf;
      match c with
      | None => load_failed x
      | Some c => Some (true, set_segments (Some v) vl (Some c) cl x)
      end
  end.

Definition load_hex_file (contents : list Z) (vec_start vl code_start cl : Z) (x : UpdateFileContext) : option (bool * UpdateFileContext) :=
  v ← load_hex contents vec_start vl (segment_buffer vl);
  match v with
  | None => load_failed x
  | Some (v, vl) =>
      c ← load_hex contents code_start cl (segment_buffer cl);
      match c with
      | None => load_failed x
      | Some (c, cl) => Some (true, set_segments (Some v) vl (Some c) cl x)
      end
  end.

Definition loadProgramData (vec_start_offset vec_end_offset code_start_offset code_end_offset : Z)
    (x : UpdateFileContext) : option (bool * UpdateFileContext) :=
  match fp x with
  | None => Some (false, x)
  | Some contents =>
      if (vec_end_offset <? vec_start_offset) || (code_end_offset <? code_start_offset) then Some (false, x) else
      let vl := vec_end_offset - vec_start_offset in
      let cl := code_end_offset - code_start_offset in
      if (vl =? 0) && (cl =? 0) then Some (false, set_segments (vecData x) vl (codeData x) cl x) else
      match file_type x with
      | AIMY_BIN_FILE | AIMY_ENCRYPT_BIN_FILE => load_bin contents vec_start_offset vl cl x
      | AIMY_HEX_FILE => load_hex_file contents vec_start_offset vl code_start_offset cl x
      | AIMY_UNKNOWN_FILE => load_failed x
      end
  end.

(** *** Cutting them into slices *)

(** [static_cast<int>]. *)
Definition to_int (x : Z) : Z := let u := u32 x in if u <? 2 ^ 31 then u else u - 2 ^ 32.

(** The loop that cuts [len] bytes; the slices and what is left of the page. *)
Fixpoint fill_map (fuel : nat) (len max_slice page i page_left : Z) : option (list (Z * Z) * Z) :=
  match fuel with
  | O => None
  | S fuel' =>
      if i <? len then
        let max_len := len - i in
        let max_len := if max_slice <? max_len then max_slice else max_len in
        let max_len := if page_left <? max_len then page_left else max_len in
        let page_left := u32 (page_left - max_len) in
        '(rest, page_left) ← fill_map fuel' len max_slice page (u32 (i + max_len)) (if page_left =? 0 then page else page_left);
        Some ((i, max_len) :: rest, page_left)
      else Some ([], page_left)
  end.

Definition init_maps (x : UpdateFileContext) (c : UpdateSliceContext) : option UpdateSliceContext :=
  '(v, page_left) ← fill_map (S (Z.to_nat (vecDataLen x))) (vecDataLen x) (max_slice_size c) (page_size c) 0 (page_size c);
  '(m, _) ← fill_map (S (Z.to_nat (codeDataLen x))) (codeDataLen x) (max_slice_size c) (page_size c) 0 page_left;
  let c := set_maps (vector_map c ++ v) (code_map c ++ m) c in
  match vector_map c with
  | _ :: _ => Some (set_seq UPDATE_VECTOR_SLICE (to_int (zlen (vector_map c) - 1)) c)
  | [] => Some (set_seq UPDATE_CODE_SLICE (to_int (zlen (code_map c) - 1)) c)
  end.

(** The slice that [seq] names is copied, its length rounded up to a multiple of 4. *)
Definition read_slice (x : UpdateFileContext) (c : UpdateSliceContext) : option (bool * UpdateSliceContext) :=
  let code := slice_type c =? UPDATE_CODE_SLICE in
  let offset_map := if code then code_map c else vector_map c in
  if to_int (zlen offset_map) <=? seq c then Some (false, c) else
  '(off, n) ← offset_map !! Z.to_nat (u32 (zlen offset_map - 1 - seq c));
  opt_data ← if code then codeData x else vecData x;
  d ← memread opt_data off n;
  buf ← memcpy_at (data c) 0 d;
  let len := if negb (Z.land n 3 =? 0) then Z.land n 0xfffffffc + 4 else n in
  Some (true, set_data buf len c).

Definition fillUpdateSliceContext (x : UpdateFileContext) (c : UpdateSliceContext) : option (bool * UpdateSliceContext) :=
  if max_slice_size c <? 1 then Some (false, c) else
  buf ← memcpy_at (data c) 0 (replicate (Z.to_nat (max_slice_size c)) 0);
  let c := set_data buf 0 c in
  c ← if seq c <? -1 then init_maps x c else Some c;
  let c := if (seq c =? -1) && (slice_type c =? UPDATE_VECTOR_SLICE)
           then set_seq UPDATE_CODE_SLICE (to_int (zlen (code_map c)) - 1) c else c in
  if (slice_type c =? UPDATE_CODE_SLICE) && (seq c <? 0) then Some (true, c) else
  read_slice x c.

(** ** Comparing the file with the device *)

(** The C string at the start of [s]; [None] when nothing ends it. *)
Fixpoint cstring (s : list Z) : option (list Z) :=
  match s with
  | [] => None
  | c :: s' => if c =? 0 then Some [] else t ← cstring s'; Some (c :: t)
  end.

Definition field (info : list Z) (n : Z) : option (list Z) :=
  cstring (drop (Z.to_nat (n * AIMY_HEX_STRING_MAX_LEN)) info).

(** [force] is whether FORCE_UPDATE is set to true; [info] is the memory from the
    three strings of the file on. *)
Definition compare_info (force : bool) (version product date info : list Z) : option Z :=
  v ← field info 0;
  p ← field info 1;
  d ← field info 2;
  if negb (bool_decide (product = p)) then if force then Some 1 else Some (-1)
  else if bool_decide (version = v) && bool_decide (date = d) then Some 0
  else Some 1.

Definition key : list Z :=
  [65; 65; 77; 95; 80; 82; 79; 68; 85; 67; 84; 95; 73; 78; 70; 79; 82; 77; 65; 84; 73; 79; 78; 0] ++ replicate 8 0.

(** The first position below [max_i] at which the key is found. *)
Fixpoint find_key (n : nat) (buffer : list Z) (i : Z) : option Z :=
  match n with
  | O => None
  | S n' => if bool_decide (slice i (zlen key) buffer = key) then Some i else find_key n' buffer (i + 1)
  end.

(** The strings behind the key at [i]: what is in the buffer moves to its start, the
    rest is read. *)
Definition found (contents : list Z) (pos data_length i : Z) (buffer : list Z) : option (option (list Z)) :=
  let offset := data_length - i - zlen key in
  moved ← memread buffer (i + zlen key) offset;
  buffer ← memcpy_at buffer 0 moved;
  let d := fread contents pos (sizeof_DeviceInfo - offset) in
  buffer ← memcpy_at buffer offset d;
  if zlen d + offset <? sizeof_DeviceInfo then Some None else Some (Some buffer).

Fixpoint scan (fuel : nat) (contents : list Z) (pos offset : Z) (buffer : list Z) : option (option (list Z)) :=
  match fuel with
  | O => None
  | S fuel' =>
      let d := fread contents pos (zlen buffer - offset) in
      buffer ← memcpy_at buffer offset d;
      let data_length := zlen d + offset in
      if data_length <? zlen buffer then Some None else
      let max_i := data_length - zlen key + 1 in
      match find_key (Z.to_nat max_i) buffer 0 with
      | Some i => found contents (pos + zlen d) data_length i buffer
      | None =>
          let offset := zlen key - 1 in
          kept ← memread buffer max_i offset;
          buffer ← memcpy_at buffer 0 kept;
          scan fuel' contents (pos + zlen d) offset buffer
      end
  end.

(** [junk] is what the buffer on the stack holds before. *)
Definition checkBinFile (force : bool) (junk version product date contents : list Z) : option Z :=
  r ← scan (S (length contents)) contents 0 0 junk;
  match r with
  | None => Some (-1)
  | Some buffer => compare_info force version product date buffer
  end.

(** In a file that is too short the seek fails and no whole record can be read. *)
Definition checkEncryptFile (force : bool) (version product date contents : list Z) : option Z :=
  if zlen contents <? sizeof_DeviceInfo then Some (-1)
  else compare_info force version product date (slice (zlen contents - sizeof_DeviceInfo) sizeof_DeviceInfo contents).

(** One of the three strings of a HEX file; [None] inside when it stops the check. *)
Definition hex_field (force : bool) (contents : list Z) (offset : Z) (junk : list Z) : option (option (list Z)) :=
  '(ret, s, _) ← readData (Some contents) offset junk AIMY_HEX_STRING_MAX_LEN;
  if (ret <=? 0) && negb force then Some None else Some (Some s).

Definition checkHexFile (force : bool) (junk version product date : list Z)
    (version_offset product_offset date_offset : Z) (contents : list Z) : option Z :=
  v ← hex_field force contents version_offset (slice 0 32 junk);
  if v is Some v then
    p ← hex_field force contents product_offset (slice 32 32 junk);
    if p is Some p then
      d ← hex_field force contents date_offset (slice 64 32 junk);
      if d is Some d then
        let dev_info := v ++ p ++ d in
        p ← field dev_info 1;
        if negb (bool_decide (product = p)) && negb force then Some (-1) else
        v ← field dev_info 0;
        d ← field dev_info 2;
        if bool_decide (version = v) && bool_decide (date = d) && negb force then Some 0
        else Some 1
      else Some (-1)
    else Some (-1)
  else Some (-1).

(** -1: failed, 0: the same version, positive: to be updated. *)
Definition checkFile (force : bool) (junk version product date : list Z)
    (version_offset product_offset date_offset : Z) (x : UpdateFileContext) : option Z :=
  match fp x with
  | None => Some (-1)
  | Some contents =>
      match file_type x with
      | AIMY_HEX_FILE => checkHexFile force junk version product date version_offset product_offset date_offset contents
      | AIMY_BIN_FILE => checkBinFile force junk version product date contents
      | AIMY_ENCRYPT_BIN_FILE => checkEncryptFile force version product date contents
      | AIMY_UNKNOWN_FILE => Some (-1)
      end
  end.

(** ** Slices cut the segments exactly *)

(** [l] cuts the bytes from [i] to [len]; [q] is how far the stream of both segments
    is at [i]: no slice is longer than [max], none crosses a page of the stream, and
    one is shorter only at the end of a page or of the segment. *)
Fixpoint slices_ok (max page q i len : Z) (l : list (Z * Z)) : Prop :=
  match l with
  | [] => i = len
  | (o, n) :: l' =>
      o = i /\ 0 < n <= max /\ q mod page + n <= page /\ (n = max \/ i + n = len \/ (q + n) mod page = 0) /\
      slices_ok max page (q + n) (i + n) len l'
  end.

Lemma slices_ok_le max page l : forall q i len, slices_ok max page q i len l -> i <= len /\ zlen l <= len - i.
Proof.
  induction l as [|[o n] l IH]; intros q i len; cbn [slices_ok]; [intros ->; change (zlen (@nil (Z * Z))) with 0; lia|].
  intros (_ & Hn & _ & _ & [H1 H2]%IH). rewrite zlen_cons. lia.
Qed.

Lemma page_step q n page : 0 < page -> 0 <= n -> q mod page + n <= page ->
  (q + n) mod page = if q mod page + n =? page then 0 else q mod page + n.
Proof.
  intros Hp Hn Hle. pose proof (Z.mod_pos_bound q page Hp). rewrite <- Z.add_mod_idemp_l by lia.
  destruct (Z.eqb_spec (q mod page + n) page) as [->|]; [by apply Z.mod_same; lia|]. apply Z.mod_small. lia.
Qed.

Lemma fill_map_ok max page len fuel : 0 < max -> 0 < page < 2 ^ 32 -> len < 2 ^ 32 ->
  forall q i, 0 <= i <= len -> len - i < Z.of_nat fuel ->
  exists l, fill_map fuel len max page i (page - q mod page) = Some (l, page - (q + (len - i)) mod page) /\
    slices_ok max page q i len l.
Proof.
  intros Hmax Hpage Hlen. induction fuel as [|fuel IH]; intros q i Hi Hf; [lia|]. cbn [fill_map].
  pose proof (Z.mod_pos_bound q page ltac:(lia)) as Hq. destruct (Z.ltb_spec i len) as [Hlt|Hge].
  2: { exists []. cbn [slices_ok]. assert (i = len) as -> by lia. by rewrite Z.sub_diag, Z.add_0_r. }
  set (n1 := if max <? len - i then max else len - i). set (n := if _ <? n1 then _ else n1).
  assert (0 < n /\ n <= max /\ q mod page + n <= page /\ i + n <= len /\ (n = max \/ i + n = len \/ q mod page + n = page)) as (H1 & H2 & H3 & H4 & H5).
  { unfold n, n1. destruct (Z.ltb_spec max (len - i)); [destruct (Z.ltb_spec (page - q mod page) max)|destruct (Z.ltb_spec (page - q mod page) (len - i))]; lia. }
  clearbody n. clear n1. rewrite !wrap_small by lia. pose proof (page_step q n page ltac:(lia) ltac:(lia) H3) as Hs.
  destruct (IH (q + n) (i + n)) as (l & El & Hl); [lia..|].
  assert ((if page - q mod page - n =? 0 then page else page - q mod page - n) = page - (q + n) mod page) as ->.
  { rewrite Hs. destruct (Z.eqb_spec (page - q mod page - n) 0), (Z.eqb_spec (q mod page + n) page); lia. }
  rewrite El. cbn [mbind option_bind]. exists ((i, n) :: l). replace (q + n + (len - (i + n))) with (q + (len - i)) by lia. split; [done|].
  cbn [slices_ok]. split_and!; try done. destruct H5 as [H5|[H5|H5]]; [by left|by right; left|]. right; right. rewrite Hs. by rewrite (proj2 (Z.eqb_eq _ _) H5).
Qed.

(** With the page size 0 that a device can report, the loop never ends. *)
Lemma fill_map_endless len max fuel : 0 < max -> forall i, 0 <= i < len -> len < 2 ^ 32 -> fill_map fuel len max 0 i 0 = None.
Proof.
  intros Hmax. induction fuel as [|fuel IH]; intros i Hi Hlen; [done|]. cbn [fill_map].
  destruct (Z.ltb_spec i len); [|lia]. set (n1 := if max <? len - i then max else len - i).
  assert (0 < n1) by (unfold n1; destruct (Z.ltb_spec max (len - i)); lia). destruct (Z.ltb_spec 0 n1); [|lia].
  change (u32 (0 - 0)) with 0. cbn [Z.eqb]. rewrite Z.add_0_r, wrap_small by lia. by rewrite IH.
Qed.

(** The pieces together are the segment. *)
Lemma slices_concat max page (seg : list Z) l : forall q i len, slices_ok max page q i len l -> 0 <= i ->
  concat (map (fun s => slice (fst s) (snd s) seg) l) = slice i (len - i) seg.
Proof.
  induction l as [|[o n] l IH]; intros q i len; cbn [slices_ok map concat fst snd].
  - intros -> _. by rewrite Z.sub_diag, slice_0.
  - intros (-> & Hn & _ & _ & Hl) Hi. rewrite (IH (q + n) (i + n) len) by (done || lia).
    apply slices_ok_le in Hl. rewrite <- slice_split by lia. f_equal. lia.
Qed.

(** *** Padding *)

Definition round4 (n : Z) : Z := if negb (Z.land n 3 =? 0) then Z.land n 0xfffffffc + 4 else n.
Definition padded (d : list Z) : list Z := d ++ replicate (Z.to_nat (round4 (zlen d) - zlen d)) 0.

Lemma round4_eq n : 0 <= n < 2 ^ 32 -> round4 n = 4 * ((n + 3) / 4).
Proof.
  intros Hn. unfold round4. change 3 with (Z.ones 2) at 1. rewrite Z.land_ones by lia. change (2 ^ 2) with 4.
  assert (Z.land n 0xfffffffc = 4 * (n / 4)) as ->.
  { change 0xfffffffc with (Z.shiftl (Z.ones 30) 2). transitivity (Z.shiftl (Z.shiftr n 2) 2).
    2: { rewrite Z.shiftl_mul_pow2, Z.shiftr_div_pow2 by lia. change (2 ^ 2) with 4. lia. }
    apply Z.bits_inj'. intros i Hi. rewrite Z.land_spec. destruct (Z.lt_ge_cases i 2).
    { rewrite !Z.shiftl_spec_low by lia. apply andb_false_r. }
    rewrite !Z.shiftl_spec, Z.shiftr_spec by lia. replace (i - 2 + 2) with i by lia. destruct (Z.lt_ge_cases i 32).
    - rewrite Z.ones_spec_low by lia. apply andb_true_r.
    - rewrite Z.ones_spec_high, andb_false_r by lia. rewrite <- (Z.mod_small n (2 ^ 32)) by done. symmetry. apply Z.mod_pow2_bits_high. lia. }
  destruct (Z.eqb_spec (n mod 4) 0); cbn [negb]; Z.div_mod_to_equations; lia.
Qed.

Lemma round4_bounds n max : 0 < n <= max -> max mod 4 = 0 -> n < 2 ^ 32 -> n <= round4 n <= max /\ round4 n mod 4 = 0 /\ round4 n < n + 4.
Proof. intros. rewrite round4_eq by lia. Z.div_mod_to_equations. lia. Qed.

Lemma padded_aligned d : zlen d mod 4 = 0 -> zlen d < 2 ^ 32 -> padded d = d.
Proof.
  intros Hm Hl. unfold padded. pose proof (zlen_nonneg d). rewrite round4_eq by lia.
  replace (Z.to_nat _) with 0%nat by (Z.div_mod_to_equations; lia). apply app_nil_r.
Qed.

(** *** Slice by slice *)

(** What the updater does with a slice context: every slice as the type, the number
    and the bytes that are sent, until none is left. *)
Fixpoint all_slices (fuel : nat) (x : UpdateFileContext) (c : UpdateSliceContext) : option (list (Z * Z * list Z)) :=
  match fuel with
  | O => None
  | S fuel' =>
      '(ok, c) ← fillUpdateSliceContext x c;
      if negb ok || (data_len c =? 0) then Some [] else
      rest ← all_slices fuel' x (set_seq (slice_type c) (seq c - 1) c);
      Some ((slice_type c, seq c, take (Z.to_nat (data_len c)) (data c)) :: rest)
  end.

(** The slices of a segment, numbered down to 0. *)
Fixpoint emits (t : Z) (seg : list Z) (l : list (Z * Z)) : list (Z * Z * list Z) :=
  match l with
  | [] => []
  | (o, n) :: l' => (t, zlen l', padded (slice o n seg)) :: emits t seg l'
  end.

Definition in_segment (max : Z) (seg : list Z) (s : Z * Z) : Prop := 0 <= fst s /\ 0 < snd s <= max /\ fst s + snd s <= zlen seg.

Lemma slices_in_segment max page (seg : list Z) len l : len <= zlen seg -> forall q i, slices_ok max page q i len l -> 0 <= i ->
  Forall (in_segment max seg) l.
Proof.
  intros Hlen. induction l as [|[o n] l IH]; intros q i; cbn [slices_ok]; [constructor|]. intros (-> & Hn & _ & _ & Hl) Hi.
  constructor; [|apply (IH (q + n) (i + n)); [done|lia]]. apply slices_ok_le in Hl. unfold in_segment. cbn [fst snd]. lia.
Qed.

Lemma to_int_small n : 0 <= n < 2 ^ 31 -> to_int n = n.
Proof. intros Hn. unfold to_int. rewrite wrap_small by lia. destruct (Z.ltb_spec n (2 ^ 31)); lia. Qed.

Lemma take_padded max (d r : list Z) : zlen d <= max -> 0 < zlen d -> max mod 4 = 0 -> max < 2 ^ 32 ->
  take (Z.to_nat (round4 (zlen d))) (d ++ replicate (Z.to_nat (max - zlen d)) 0 ++ r) = padded d.
Proof.
  intros Hd H0 Hm Hlt. destruct (round4_bounds (zlen d) max) as ([H1 H2] & _); [lia..|]. unfold padded.
  replace (Z.to_nat (round4 (zlen d))) with (length d + Z.to_nat (round4 (zlen d) - zlen d))%nat by (unfold zlen in *; lia).
  rewrite take_app_add. f_equal. rewrite take_app_le by (rewrite length_replicate; lia). rewrite take_replicate. f_equal. lia.
Qed.

Section slices.
Context (x : UpdateFileContext) (max : Z) (sv sc : list Z) (lv lc : list (Z * Z)).
Hypotheses (Hv : vecData x = Some sv) (Hc : codeData x = Some sc) (Hmax : 0 < max < 2 ^ 31) (Hmax4 : max mod 4 = 0)
    (Hlv : Forall (in_segment max sv) lv) (Hlc : Forall (in_segment max sc) lc)
    (Hnv : zlen lv < 2 ^ 31) (Hnc : zlen lc < 2 ^ 31).

Definition at_slice (t q : Z) (c : UpdateSliceContext) : Prop :=
    max_slice_size c = max /\ zlen (data c) = max + 1 /\ vector_map c = lv /\ code_map c = lc /\ slice_type c = t /\ seq c = q.

(** A context that names the slice [(o, n)]: it is filled with it. *)
Lemma fill_slice t l seg c o n done todo :
    (t = UPDATE_VECTOR_SLICE /\ l = lv /\ seg = sv \/ t = UPDATE_CODE_SLICE /\ l = lc /\ seg = sc) ->
    l = done ++ (o, n) :: todo -> at_slice t (zlen todo) c ->
    exists c', fillUpdateSliceContext x c = Some (true, c') /\ at_slice t (zlen todo) c' /\
      data_len c' = round4 n /\ 0 < round4 n <= max /\ take (Z.to_nat (data_len c')) (data c') = padded (slice o n seg).
Proof.
    intros Ht Hl (H1 & H2 & H3 & H4 & H5 & H6). pose proof (zlen_nonneg todo) as H0.
    assert (in_segment max seg (o, n) /\ zlen l < 2 ^ 31) as ((Ho & Hn & Hon) & Hz).
    { destruct Ht as [(_ & -> & ->) | (_ & -> & ->)]; (split; [|done]);
        [rewrite Hl in Hlv; apply Forall_app in Hlv as [_ [H _]%Forall_cons]|rewrite Hl in Hlc; apply Forall_app in Hlc as [_ [H _]%Forall_cons]]; done. }
    cbn [fst snd] in *. assert (zlen l = zlen done + 1 + zlen todo) as Ez by (rewrite Hl, zlen_app, zlen_cons; lia).
    pose proof (zlen_nonneg done) as Hd0. unfold fillUpdateSliceContext. rewrite H1.
    destruct (Z.ltb_spec max 1); [lia|]. rewrite memcpy_at_Some by (rewrite ?zlen_replicate; lia). cbn [mbind option_bind].
    change (Z.to_nat 0) with 0%nat. rewrite take_0, zlen_replicate, Z2Nat.id, Z.add_0_l by lia. cbn [app].
    cbn [seq set_data slice_type code_map]. rewrite H6. destruct (Z.ltb_spec (zlen todo) (-1)); [lia|].
    cbn [mbind option_bind seq set_data slice_type code_map]. rewrite H6.
    destruct (Z.eqb_spec (zlen todo) (-1)); [lia|]. cbn [andb]. cbn [seq set_data slice_type]. rewrite H6.
    destruct (Z.ltb_spec (zlen todo) 0); [lia|]. rewrite andb_false_r. unfold read_slice. cbn [seq set_data slice_type vector_map code_map data].
    rewrite H3, H4, H5, H6.
    assert ((if t =? UPDATE_CODE_SLICE then lc else lv) = l) as -> by (destruct Ht as [(-> & -> & _) | (-> & -> & _)]; done).
    assert ((if t =? UPDATE_CODE_SLICE then codeData x else vecData x) = Some seg) as -> by (destruct Ht as [(-> & _ & ->) | (-> & _ & ->)]; done).
    rewrite to_int_small by lia. destruct (Z.leb_spec (zlen l) (zlen todo)); [lia|]. rewrite wrap_small by lia.
    replace (zlen l - 1 - zlen todo) with (zlen done) by lia.
    assert (l !! Z.to_nat (zlen done) = Some (o, n)) as ->.
    { rewrite Hl. replace (zlen done) with (zlen done + 0) by lia. by rewrite lookup_behind by lia. }
    cbn [mbind option_bind]. rewrite memread_Some by lia. cbn [mbind option_bind].
    assert (zlen (slice o n seg) = n) as Hs by (rewrite zlen_slice; lia). set (d := slice o n seg) in *.
    set (r := drop (Z.to_nat max) (data c)).
    assert (memcpy_at (replicate (Z.to_nat max) 0 ++ r) 0 d = Some (d ++ replicate (Z.to_nat (max - n)) 0 ++ r)) as ->.
    { assert (replicate (Z.to_nat max) 0 = [] ++ replicate (length d) 0 ++ replicate (Z.to_nat (max - n)) 0) as ->.
      { cbn [app]. rewrite <- replicate_add. f_equal. unfold zlen in Hs. lia. }
      rewrite <- !app_assoc. apply (memcpy_at_mid [] (replicate (length d) 0)). unfold zlen. by rewrite length_replicate. }
    cbn [mbind option_bind]. destruct (round4_bounds n max) as (Hr & _); [lia..|].
    eexists. split; [done|]. split; [|split; [done|split; [lia|]]].
    - unfold at_slice. cbn. split_and!; try done. rewrite !zlen_app, Hs, zlen_replicate. unfold r. rewrite zlen_drop. lia.
    - cbn [data data_len set_data]. fold (round4 n). pose proof (take_padded max d r) as Ht'. rewrite Hs in Ht'. apply Ht'; lia.
Qed.

(** Behind the last vector slice the code follows. *)
Lemma fill_switch c : at_slice UPDATE_VECTOR_SLICE (-1) c ->
    fillUpdateSliceContext x c = fillUpdateSliceContext x (set_seq UPDATE_CODE_SLICE (zlen lc - 1) c).
Proof.
    intros (H1 & H2 & H3 & H4 & H5 & H6). pose proof (zlen_nonneg lc). unfold fillUpdateSliceContext.
    cbn [max_slice_size data set_seq]. rewrite H1. destruct (Z.ltb_spec max 1); [lia|].
    destruct (memcpy_at _ _ _) as [buf|]; [|done]. cbn [mbind option_bind seq set_seq set_data]. rewrite H6.
    destruct (Z.ltb_spec (zlen lc - 1) (-1)); [lia|]. change (-1 <? -1) with false.
    cbn [mbind option_bind seq set_seq set_data slice_type code_map]. rewrite H4, H5, H6.
    change (UPDATE_VECTOR_SLICE =? UPDATE_VECTOR_SLICE) with true. change (UPDATE_CODE_SLICE =? UPDATE_VECTOR_SLICE) with false.
    rewrite andb_false_r. cbn [Z.eqb Pos.eqb andb]. rewrite to_int_small by lia. done.
Qed.

Lemma fill_done c : at_slice UPDATE_CODE_SLICE (-1) c ->
    exists c', fillUpdateSliceContext x c = Some (true, c') /\ data_len c' = 0.
Proof.
    intros (H1 & H2 & H3 & H4 & H5 & H6). unfold fillUpdateSliceContext. rewrite H1. destruct (Z.ltb_spec max 1); [lia|].
    rewrite memcpy_at_Some by (rewrite ?zlen_replicate; lia). cbn [mbind option_bind seq set_data]. rewrite H6. change (-1 <? -1) with false.
    cbn [seq set_data slice_type code_map mbind option_bind]. rewrite H5, H6.
    change (UPDATE_CODE_SLICE =? UPDATE_VECTOR_SLICE) with false. rewrite andb_false_r. cbn [seq set_data slice_type]. rewrite H5, H6.
    eexists. done.
Qed.

Lemma all_code_slices todo : forall fuel c done, lc = done ++ todo -> at_slice UPDATE_CODE_SLICE (zlen todo - 1) c -> (length todo < fuel)%nat ->
    all_slices fuel x c = Some (emits UPDATE_CODE_SLICE sc todo).
Proof.
    induction todo as [|[o n] todo IH]; intros fuel c done El Hat Hf; (destruct fuel as [|fuel]; [simpl in Hf; lia|]); cbn [all_slices emits].
    - destruct (fill_done c Hat) as (c' & -> & Hl). cbn [mbind option_bind]. by rewrite Hl.
    - rewrite zlen_cons in Hat. replace (1 + zlen todo - 1) with (zlen todo) in Hat by lia.
      destruct (fill_slice UPDATE_CODE_SLICE lc sc c o n done todo) as (c' & -> & Hat' & Hl & Hr & Hd); [by right|done|done|].
      cbn [mbind option_bind]. destruct (Z.eqb_spec (data_len c') 0); [lia|]. cbn [negb orb].
      rewrite (IH fuel _ (done ++ [(o, n)])); [|by rewrite <- app_assoc| |simpl in Hf; lia].
      + cbn [mbind option_bind]. destruct Hat' as (_ & _ & _ & _ & -> & ->). by rewrite Hd.
      + destruct Hat' as (? & ? & ? & ? & ? & Hq). unfold at_slice. cbn. rewrite Hq. split_and!; done.
Qed.

Lemma all_vector_slices todo : forall fuel c done, lv = done ++ todo -> at_slice UPDATE_VECTOR_SLICE (zlen todo - 1) c ->
    (length todo + length lc < fuel)%nat ->
    all_slices fuel x c = Some (emits UPDATE_VECTOR_SLICE sv todo ++ emits UPDATE_CODE_SLICE sc lc).
Proof.
    induction todo as [|[o n] todo IH]; intros fuel c done El Hat Hf; (destruct fuel as [|fuel]; [simpl in Hf; lia|]).
    - change (zlen [] - 1) with (-1) in Hat. cbn [emits app].
      transitivity (all_slices (S fuel) x (set_seq UPDATE_CODE_SLICE (zlen lc - 1) c)); [cbn [all_slices]; by rewrite fill_switch|].
      apply (all_code_slices lc (S fuel) _ []); [done| |simpl in Hf; lia]. destruct Hat as (? & ? & ? & ? & ? & ?). unfold at_slice. by split_and!.
    - cbn [all_slices emits app]. rewrite zlen_cons in Hat. replace (1 + zlen todo - 1) with (zlen todo) in Hat by lia.
      destruct (fill_slice UPDATE_VECTOR_SLICE lv sv c o n done todo) as (c' & -> & Hat' & Hl & Hr & Hd); [by left|done|done|].
      cbn [mbind option_bind]. destruct (Z.eqb_spec (data_len c') 0); [lia|]. cbn [negb orb].
      rewrite (IH fuel _ (done ++ [(o, n)])); [|by rewrite <- app_assoc| |simpl in Hf; lia].
      + cbn [mbind option_bind]. destruct Hat' as (_ & _ & _ & _ & -> & ->). by rewrite Hd.
      + destruct Hat' as (? & ? & ? & ? & ? & Hq). unfold at_slice. cbn. rewrite Hq. split_and!; done.
Qed.
End slices.

(** *** The slices of a file *)

Lemma padded_app a b : zlen a mod 4 = 0 -> zlen a + zlen b < 2 ^ 32 -> a ++ padded b = padded (a ++ b).
Proof.
  intros Ha Hl. unfold padded. rewrite zlen_app, <- app_assoc. do 2 f_equal.
  pose proof (zlen_nonneg a). pose proof (zlen_nonneg b). rewrite !round4_eq by lia. f_equal. Z.div_mod_to_equations. lia.
Qed.

(** When the segment starts at a multiple of 4 of the stream, only its last slice is
    padded: the bytes sent are the segment. *)
Lemma emits_concat max page t (seg : list Z) len l : max mod 4 = 0 -> page mod 4 = 0 -> 0 < page -> len < 2 ^ 32 -> len <= zlen seg ->
  forall q i, slices_ok max page q i len l -> q mod 4 = 0 -> i mod 4 = 0 -> 0 <= i ->
  concat (map snd (emits t seg l)) = padded (slice i (len - i) seg).
Proof.
  intros Hm Hp Hp0 Hlen Hseg. induction l as [|[o n] l IH]; intros q i; cbn [slices_ok emits map concat].
  - intros -> _ _ _. rewrite Z.sub_diag, slice_0. by rewrite padded_aligned by done.
  - intros (-> & Hn & _ & Hend & Hl) Hq Hi Hi0. cbn [snd]. pose proof (slices_ok_le _ _ _ _ _ _ Hl) as [Hle _].
    assert (zlen (slice i n seg) = n) as Hz by (rewrite zlen_slice; lia).
    destruct (Z.eq_dec (i + n) len) as [E|Hne].
    + destruct l as [|[o' n'] l]; cbn [slices_ok] in Hl; [|destruct Hl as (_ & Hn' & _ & _ & Hl); apply slices_ok_le in Hl; lia].
      cbn [emits map concat]. rewrite app_nil_r. do 2 f_equal. lia.
    + assert (n mod 4 = 0) as Hn4.
      { destruct Hend as [-> | [?|Hend]]; [done|done|]. assert ((q + n) mod 4 = 0) as H4.
        { apply Z.mod_divide; [lia|]. apply Z.mod_divide in Hend; [|lia]. apply Z.mod_divide in Hp; [|lia]. by transitivity page. }
        Z.div_mod_to_equations. lia. }
      rewrite (IH (q + n) (i + n)); [|done|Z.div_mod_to_equations; lia..]. rewrite padded_aligned by (rewrite Hz; (done || lia)).
      rewrite padded_app; [|by rewrite Hz|rewrite !zlen_slice; lia]. f_equal. rewrite <- slice_split by lia. f_equal. lia.
Qed.

Lemma slices_length max page l : forall q i len, slices_ok max page q i len l -> zlen l = 0 <-> i = len.
Proof.
  destruct l as [|[o n] l]; intros q i len; cbn [slices_ok]; [done|]. intros (_ & Hn & _ & _ & Hl%slices_ok_le).
  rewrite zlen_cons. pose proof (zlen_nonneg l). lia.
Qed.

(** The maps that a fresh context gets. *)
Lemma init_maps_spec x max page c : max_slice_size c = max -> vector_map c = [] -> code_map c = [] -> page_size c = page ->
  0 < max -> 0 < page < 2 ^ 32 -> 0 <= vecDataLen x < 2 ^ 31 -> 0 <= codeDataLen x < 2 ^ 31 ->
  exists lv lc, slices_ok max page 0 0 (vecDataLen x) lv /\ slices_ok max page (vecDataLen x) 0 (codeDataLen x) lc /\
    init_maps x c = Some (set_seq (if 0 <? vecDataLen x then UPDATE_VECTOR_SLICE else UPDATE_CODE_SLICE)
      (to_int (zlen (if 0 <? vecDataLen x then lv else lc) - 1)) (set_maps lv lc c)).
Proof.
  intros H1 H2 H3 H4 Hmax Hpage Hvl Hcl. unfold init_maps. rewrite H1, H2, H3, H4.
  destruct (fill_map_ok max page (vecDataLen x) (S (Z.to_nat (vecDataLen x))) Hmax Hpage) with (q := 0) (i := 0) as (lv & Ev & Hv); [lia..|].
  destruct (fill_map_ok max page (codeDataLen x) (S (Z.to_nat (codeDataLen x))) Hmax Hpage) with (q := vecDataLen x) (i := 0) as (lc & Ec & Hc); [lia..|].
  rewrite Z.mod_0_l, Z.sub_0_r in Ev by lia. rewrite Ev. cbn [mbind option_bind].
  rewrite Z.sub_0_r, Z.add_0_l, Ec. cbn [mbind option_bind app]. exists lv, lc. split; [done|]. split; [done|].
  cbn [vector_map set_maps code_map]. apply slices_length in Hv. rewrite Z.sub_0_r in *.
  destruct lv as [|s lv]; destruct (Z.ltb_spec 0 (vecDataLen x)); try done.
  - exfalso. change (zlen []) with 0 in Hv. lia.
  - exfalso. rewrite zlen_cons in Hv. pose proof (zlen_nonneg lv). lia.
Qed.

Definition fresh (max page : Z) : UpdateSliceContext := set_page_size page (new_UpdateSliceContext max).

(** The first call makes the maps. *)
Lemma fill_fresh x max page lv lc t q : 0 < max < 2 ^ 31 ->
  init_maps x (set_data (replicate (Z.to_nat max) 0 ++ [0]) 0 (fresh max page)) = Some (set_seq t q (set_maps lv lc (set_data (replicate (Z.to_nat max) 0 ++ [0]) 0 (fresh max page)))) ->
  0 <= q ->
  fillUpdateSliceContext x (fresh max page) = fillUpdateSliceContext x (set_seq t q (set_maps lv lc (fresh max page))).
Proof.
  intros Hmax Hi Hq. unfold fillUpdateSliceContext. cbn [max_slice_size fresh set_page_size new_UpdateSliceContext set_seq set_maps data].
  rewrite wrap_small by lia. destruct (Z.ltb_spec max 1); [lia|].
  replace (Z.to_nat (max + 1)) with (Z.to_nat max + 1)%nat by lia. rewrite replicate_add. cbn [replicate].
  pose proof (memcpy_at_mid [] (replicate (Z.to_nat max) 0) [0] (replicate (Z.to_nat max) 0) eq_refl) as Em. cbn [app] in Em.
  change (zlen []) with 0 in Em. rewrite Em. cbn [mbind option_bind].
  change (seq (set_data _ _ _) <? -1) with true at 1. cbn [seq set_data set_seq set_maps].
  destruct (Z.ltb_spec q (-1)); [lia|].
  cbn [fresh set_page_size new_UpdateSliceContext set_data max_slice_size data slice_type vector_map code_map seq page_size] in Hi.
  cbn [mbind option_bind]. rewrite Hi. reflexivity.
Qed.

(** The maps of a file and the slice that the first call reads. *)
Lemma fresh_at x max page sv sc : 0 <= vecDataLen x <= zlen sv -> 0 <= codeDataLen x <= zlen sc -> vecDataLen x < 2 ^ 31 -> codeDataLen x < 2 ^ 31 ->
  0 < vecDataLen x + codeDataLen x -> 0 < max < 2 ^ 31 -> 0 < page < 2 ^ 32 ->
  exists lv lc c, slices_ok max page 0 0 (vecDataLen x) lv /\ slices_ok max page (vecDataLen x) 0 (codeDataLen x) lc /\
    fillUpdateSliceContext x (fresh max page) = fillUpdateSliceContext x c /\
    (if 0 <? vecDataLen x then at_slice max lv lc UPDATE_VECTOR_SLICE (zlen lv - 1) c /\ lv <> []
     else at_slice max lv lc UPDATE_CODE_SLICE (zlen lc - 1) c /\ lv = []) /\
    Forall (in_segment max sv) lv /\ Forall (in_segment max sc) lc /\ zlen lv < 2 ^ 31 /\ zlen lc < 2 ^ 31 /\ (0 < codeDataLen x -> lc <> []).
Proof.
  intros Hvl Hcl Hv31 Hc31 Hpos Hmax Hpage.
  set (c0 := set_data (replicate (Z.to_nat max) 0 ++ [0]) 0 (fresh max page)).
  destruct (init_maps_spec x max page c0) as (lv & lc & Hlv & Hlc & Hi); [done|done|done|done|lia|done|lia|lia|].
  pose proof (slices_ok_le _ _ _ _ _ _ Hlv) as [_ Hnv]. pose proof (slices_ok_le _ _ _ _ _ _ Hlc) as [_ Hnc].
  pose proof (slices_length _ _ _ _ _ _ Hlv) as Hlv0. pose proof (slices_length _ _ _ _ _ _ Hlc) as Hlc0.
  pose proof (zlen_nonneg lv). pose proof (zlen_nonneg lc).
  set (t := if 0 <? vecDataLen x then UPDATE_VECTOR_SLICE else UPDATE_CODE_SLICE) in *.
  set (q := to_int (zlen (if 0 <? vecDataLen x then lv else lc) - 1)) in *.
  assert (q = zlen (if 0 <? vecDataLen x then lv else lc) - 1 /\ 0 <= q) as [Hq Hq0].
  { unfold q. destruct (Z.ltb_spec 0 (vecDataLen x)); rewrite to_int_small by lia; lia. }
  exists lv, lc, (set_seq t q (set_maps lv lc (fresh max page))). split; [done|]. split; [done|].
  split; [by apply fill_fresh|].
  assert (at_slice max lv lc t q (set_seq t q (set_maps lv lc (fresh max page)))) as Hat.
  { unfold at_slice. cbn. rewrite zlen_replicate, wrap_small by lia. split_and!; try done. lia. }
  split. { rewrite Hq in Hat at 1. unfold t in Hat at 1. destruct (Z.ltb_spec 0 (vecDataLen x)).
    - split; [exact Hat|]. intros ->. change (zlen []) with 0 in *. lia.
    - split; [exact Hat|]. apply zlen_0_nil. lia. }
  split; [eapply slices_in_segment; [|done|]; lia|]. split; [eapply slices_in_segment; [|done|]; lia|].
  split; [lia|]. split; [lia|]. intros Hc ->. change (zlen []) with 0 in *. lia.
Qed.

(** C32. The slices of an update file.  For segments of less than 2^31 bytes, not both empty, a largest
    slice that is a multiple of 4 and a page size that is not 0, cutting ends and the slices are, in order and numbered down to 0 in each
    segment, those of two lists that cut the vector table and the code exactly: none is
    longer than a frame takes, none crosses a page of the stream of both segments, and
    what is sent of a slice is padded to a multiple of 4.  The vector slices together are
    the vector table; the code slices together are the code when the vector table is a
    multiple of 4 long. *)
Theorem slices_exact x max page sv sc : vecData x = Some sv -> codeData x = Some sc ->
  0 <= vecDataLen x <= zlen sv -> 0 <= codeDataLen x <= zlen sc -> vecDataLen x < 2 ^ 31 -> codeDataLen x < 2 ^ 31 ->
  0 < vecDataLen x + codeDataLen x -> 0 < max < 2 ^ 31 -> max mod 4 = 0 -> 0 < page < 2 ^ 32 ->
  exists lv lc, slices_ok max page 0 0 (vecDataLen x) lv /\ slices_ok max page (vecDataLen x) 0 (codeDataLen x) lc /\
    (forall fuel, (length lv + length lc < fuel)%nat ->
       all_slices fuel x (fresh max page) = Some (emits UPDATE_VECTOR_SLICE sv lv ++ emits UPDATE_CODE_SLICE sc lc)) /\
    concat (map (fun s => slice (fst s) (snd s) sv) lv) = slice 0 (vecDataLen x) sv /\
    concat (map (fun s => slice (fst s) (snd s) sc) lc) = slice 0 (codeDataLen x) sc /\
    (page mod 4 = 0 -> concat (map snd (emits UPDATE_VECTOR_SLICE sv lv)) = padded (slice 0 (vecDataLen x) sv) /\
      (vecDataLen x mod 4 = 0 -> concat (map snd (emits UPDATE_CODE_SLICE sc lc)) = padded (slice 0 (codeDataLen x) sc))).
Proof.
  intros Hv Hc Hvl Hcl Hv31 Hc31 Hpos Hmax Hmax4 Hpage.
  destruct (fresh_at x max page sv sc) as (lv & lc & c & Hlv & Hlc & Ef & Hat & Fv & Fc & Hnv & Hnc & _); [done|done|done|done|lia|done|done|].
  exists lv, lc. split; [done|]. split; [done|]. split; [|split; [|split; [|intros Hp4; split; [|intros Hv4]]]].
  - intros fuel Hf. destruct fuel as [|fuel]; [lia|].
    transitivity (all_slices (S fuel) x c); [cbn [all_slices]; by rewrite Ef|].
    destruct (0 <? vecDataLen x); destruct Hat as [Hat Hne].
    + by apply (all_vector_slices x max sv sc lv lc Hv Hc Hmax Hmax4 Fv Fc) with (done := []).
    + subst lv. cbn [emits app].
      apply (all_code_slices x max sv sc [] lc Hv Hc Hmax Hmax4 Fv Fc) with (done := []); [lia|lia|done|done|simpl in Hf; lia].
  - rewrite (slices_concat max page sv lv 0 0 (vecDataLen x)) by done. by rewrite Z.sub_0_r.
  - rewrite (slices_concat max page sc lc (vecDataLen x) 0 (codeDataLen x)) by done. by rewrite Z.sub_0_r.
  - rewrite (emits_concat max page _ sv (vecDataLen x) lv) with (q := 0) (i := 0) by (done || lia). by rewrite Z.sub_0_r.
  - rewrite (emits_concat max page _ sc (codeDataLen x) lc) with (q := vecDataLen x) (i := 0) by (done || lia). by rewrite Z.sub_0_r.
Qed.

(** A file with a vector table of 8 bytes and 6 bytes of code; with a vector table of 2
    bytes and pages of 8 bytes the code is padded in the middle. *)
Definition small_file (vl : Z) : UpdateFileContext :=
  mkContext AIMY_BIN_FILE [97] (Some []) 0 (Some (seqZ 1 9)) vl (Some (seqZ 101 11)) 10.

Lemma slices_exact_witness :
  (exists lv lc, slices_ok 8 1024 0 0 8 lv /\ slices_ok 8 1024 8 0 10 lc /\
     emits UPDATE_VECTOR_SLICE (seqZ 1 9) lv ++ emits UPDATE_CODE_SLICE (seqZ 101 11) lc
       = [(UPDATE_VECTOR_SLICE, 0, seqZ 1 8); (UPDATE_CODE_SLICE, 1, seqZ 101 8); (UPDATE_CODE_SLICE, 0, [109; 110; 0; 0])]) /\
  all_slices 5 (small_file 2) (fresh 8 8)
    = Some [(UPDATE_VECTOR_SLICE, 0, [1; 2; 0; 0]); (UPDATE_CODE_SLICE, 1, [101; 102; 103; 104; 105; 106; 0; 0]); (UPDATE_CODE_SLICE, 0, seqZ 107 4)].
Proof.
  destruct (slices_exact (small_file 8) 8 1024 (seqZ 1 9) (seqZ 101 11)) as (lv & lc & Hlv & Hlc & H & _);
    [reflexivity|reflexivity|vm_compute; split; discriminate|vm_compute; split; discriminate|reflexivity|reflexivity|reflexivity|split; reflexivity|reflexivity|split; reflexivity|].
  split; [|vm_compute; reflexivity]. exists lv, lc. split; [exact Hlv|]. split; [exact Hlc|].
  apply slices_ok_le in Hlv as [_ Hlv], Hlc as [_ Hlc]. change (vecDataLen (small_file 8) - 0) with 8 in Hlv. change (codeDataLen (small_file 8) - 0) with 10 in Hlc. specialize (H 20%nat).
  assert (length lv + length lc < 20)%nat as Hf by (unfold zlen in *; lia).
  specialize (H Hf). vm_compute all_slices in H. injection H as H. symmetry. exact H.
Defined.

(** ** What loading leaves *)

(** The lengths never exceed the buffers. *)
Definition segment_ok (b : option (list Z)) (n : Z) : Prop := n = 0 \/ exists l, b = Some l /\ 0 <= n <= zlen l.
Definition segments_ok (x : UpdateFileContext) : Prop := segment_ok (vecData x) (vecDataLen x) /\ segment_ok (codeData x) (codeDataLen x).

(** The bytes of the file from [pos] on, zeros behind its end. *)
Definition bin_segment (contents : list Z) (pos n : Z) (seg : list Z) : Prop :=
  n <= zlen seg /\ forall i, 0 <= i < n -> seg !! Z.to_nat i = Some (default 0 (contents !! Z.to_nat (pos + i))).

(** The longest covered part of the memory from [start] on. *)
Definition hex_segment (m : hex_mem) (start n0 n : Z) (seg : list Z) : Prop :=
  0 <= n <= n0 /\ n <= zlen seg /\ (forall i, 0 <= i < n -> seg !! Z.to_nat i = m (start + i)) /\ (n < n0 -> m (start + n) = None).

Lemma zlen_fread contents pos n : 0 <= pos -> 0 <= n -> zlen (fread contents pos n) = Z.min n (Z.max 0 (zlen contents - pos)).
Proof. intros. unfold fread, slice, zlen. rewrite length_take, length_drop. lia. Qed.

Lemma lookup_fread contents pos n i : 0 <= pos -> 0 <= i < n -> fread contents pos n !! Z.to_nat i = contents !! Z.to_nat (pos + i).
Proof. intros. unfold fread, slice. rewrite lookup_take_lt, lookup_drop by lia. f_equal. lia. Qed.

Lemma load_raw_spec contents pos n N : 0 <= pos -> 0 <= n <= Z.of_nat N ->
  exists r, load_raw contents pos n (replicate N 0) = Some r /\
    (r = None <-> 0 < n /\ zlen contents <= pos) /\
    (forall seg, r = Some seg -> zlen seg = Z.of_nat N /\ bin_segment contents pos n seg).
Proof.
  intros Hpos Hn. unfold load_raw. destruct (Z.leb_spec n 0).
  { eexists. split; [done|]. split; [split; [done|lia]|]. intros seg [= <-]. unfold bin_segment. rewrite zlen_replicate. split; [done|]. split; [lia|]. intros. lia. }
  pose proof (zlen_fread contents pos n Hpos ltac:(lia)) as Hz. set (d := fread contents pos n) in *. pose proof (zlen_nonneg contents) as Hc.
  destruct (memcpy_at (replicate N 0) 0 d) as [buf|] eqn:E; [|rewrite memcpy_at_Some in E by (rewrite ?zlen_replicate; lia); done].
  cbn [mbind option_bind]. destruct (Z.leb_spec (zlen d) 0).
  { exists None. split; [done|]. split; [|done]. split; [lia|done]. }
  exists (Some buf). split; [done|]. split; [split; [done|lia]|]. intros seg [= <-].
  pose proof (memcpy_at_len _ _ _ _ E) as Hb. rewrite zlen_replicate in Hb. split; [done|]. split; [lia|]. intros i Hi.
  rewrite (memcpy_at_lookup _ _ _ _ _ E). destruct (Z.leb_spec 0 (Z.of_nat (Z.to_nat i))); [|lia].
  destruct (Z.ltb_spec (Z.of_nat (Z.to_nat i)) (0 + zlen d)); cbn [andb].
  - replace (Z.to_nat i - Z.to_nat 0)%nat with (Z.to_nat i) by lia. unfold d. rewrite lookup_fread by lia.
    destruct (lookup_lt_is_Some_2 contents (Z.to_nat (pos + i))) as [v ->]; [unfold zlen in *; lia|done].
  - rewrite lookup_replicate_2 by lia. rewrite (lookup_ge_None_2 contents); [done|]. unfold zlen in *. lia.
Qed.

Lemma segment_buffer_eq n : 0 <= n < 2 ^ 32 - 1 -> segment_buffer n = replicate (Z.to_nat (n + 1)) 0.
Proof. intros. unfold segment_buffer. by rewrite wrap_small by lia. Qed.

Lemma load_hex_spec contents start n0 : range_ok start n0 ->
  let m := image None (fun _ => None) (hex_records (S (length contents)) contents) in
  exists r, load_hex contents start n0 (segment_buffer n0) = Some r /\
    (forall seg n, r = Some (seg, n) -> hex_segment m start n0 n seg).
Proof.
  intros Hr m. pose proof Hr as (Hs & Hn & Hsn). unfold load_hex. rewrite segment_buffer_eq by lia.
  destruct (Z.leb_spec n0 0).
  { eexists. split; [done|]. intros seg n [= <- <-]. unfold hex_segment. rewrite zlen_replicate. split_and!; lia. }
  destruct (readData_image contents start n0 (replicate (Z.to_nat (n0 + 1)) 0) Hr) as (ret & buf & n & -> & Hz & Hb & _ & (Hn0 & Hcov & Hend) & _);
    [rewrite zlen_replicate; lia|].
  cbn [mbind option_bind]. fold m in Hb, Hcov, Hend. rewrite zlen_replicate in Hz. destruct (ret <=? 0); eexists; (split; [done|]); intros seg n' Hseg; [done|]. injection Hseg as <- <-.
  split; [lia|]. split; [lia|]. split; [|done]. intros i Hi. rewrite Hb by lia. specialize (Hcov i Hi). by destruct (m (start + i)).
Qed.

Lemma segment_ok_full (l : list Z) n : 0 <= n <= zlen l -> segment_ok (Some l) n.
Proof. intros. right. by exists l. Qed.

(** Loading the two segments.  For every pair of address ranges, [loadProgramData]
    stays in its buffers and leaves lengths that fit them.  On success a plain file
    has given the bytes at the vector address and those from its start on, as code,
    with zeros behind its end, and of an encrypted file without the 96 bytes of its
    trailer; a HEX file has given the longest part of each range that its records cover
    from the start. *)
Theorem load_program contents vs ve cs ce x : fp x = Some contents -> fileSize x = zlen contents -> zlen contents < 2 ^ 63 ->
  segments_ok x -> 0 <= vs -> 0 <= cs -> ve - vs < 2 ^ 32 - 1 -> ce - cs < 2 ^ 32 - 1 ->
  (file_type x = AIMY_HEX_FILE -> ve <= 2 ^ 32 - 256 /\ ce <= 2 ^ 32 - 256) ->
  exists ok x', loadProgramData vs ve cs ce x = Some (ok, x') /\ segments_ok x' /\
    file_type x' = file_type x /\ fp x' = fp x /\
    (ok = true -> exists sv sc, vecData x' = Some sv /\ codeData x' = Some sc /\
      match file_type x with
      | AIMY_HEX_FILE =>
          let m := image None (fun _ => None) (hex_records (S (length contents)) contents) in
          hex_segment m vs (ve - vs) (vecDataLen x') sv /\ hex_segment m cs (ce - cs) (codeDataLen x') sc
      | t =>
          vecDataLen x' = ve - vs /\ bin_segment contents vs (vecDataLen x') sv /\
          codeDataLen x' = (if decide (t = AIMY_ENCRYPT_BIN_FILE /\ 96 <= zlen contents) then Z.min (ce - cs) (zlen contents - 96) else ce - cs) /\
          bin_segment contents 0 (codeDataLen x') sc
      end).
Proof.
  intros Hfp Hsz H63 Hok Hvs Hcs Hvl Hcl Hhex. unfold loadProgramData. rewrite Hfp. pose proof (zlen_nonneg contents) as Hc0.
  destruct (Z.ltb_spec ve vs); [by eexists false, _|]. destruct (Z.ltb_spec ce cs); [by eexists false, _|]. cbn [orb].
  destruct ((ve - vs =? 0) && (ce - cs =? 0)) eqn:E0.
  { apply andb_true_iff in E0 as [Ev%Z.eqb_eq Ec%Z.eqb_eq]. rewrite Ev, Ec. eexists false, _. split; [done|]. split; [split; by left|]. done. }
  clear E0. assert (forall o, load_failed x = Some (false, o) -> exists ok x', load_failed x = Some (ok, x') /\ segments_ok x' /\
    file_type x' = file_type x /\ fp x' = fp x /\ ok <> true) as Hfail.
  { intros o _. eexists false, _. split; [done|]. split; [split; by left|]. done. }
  specialize (Hfail _ eq_refl) as (ok0 & x0 & E0 & Hs0 & Ht0 & Hf0 & Hne0).
  destruct (file_type x) eqn:Et.
  - destruct (Hhex eq_refl) as [He1 He2]. unfold load_hex_file.
    destruct (load_hex_spec contents vs (ve - vs)) as (r1 & -> & H1); [unfold range_ok; lia|]. cbn [mbind option_bind].
    destruct r1 as [[sv n]|]; [|exists ok0, x0; split_and!; congruence]. specialize (H1 _ _ eq_refl).
    destruct (load_hex_spec contents cs (ce - cs)) as (r2 & -> & H2); [unfold range_ok; lia|]. cbn [mbind option_bind].
    destruct r2 as [[sc n2]|]; [|exists ok0, x0; split_and!; congruence]. specialize (H2 _ _ eq_refl).
    eexists true, _. split; [done|]. split; [split; cbn; apply segment_ok_full; [destruct H1 as (? & ? & _)|destruct H2 as (? & ? & _)]; lia|].
    split; [done|]. split; [done|]. intros _. exists sv, sc. done.
  - unfold load_bin. rewrite !segment_buffer_eq by lia.
    destruct (load_raw_spec contents vs (ve - vs) (Z.to_nat (ve - vs + 1)) Hvs) as (r1 & -> & _ & H1); [lia|]. cbn [mbind option_bind].
    destruct r1 as [sv|]; [|exists ok0, x0; split_and!; congruence]. specialize (H1 _ eq_refl) as [Hz1 Hb1].
    rewrite decide_False by (by rewrite Et).
    destruct (load_raw_spec contents 0 (ce - cs) (Z.to_nat (ce - cs + 1)) ltac:(lia)) as (r2 & -> & _ & H2); [lia|]. cbn [mbind option_bind].
    destruct r2 as [sc|]; [|exists ok0, x0; split_and!; congruence]. specialize (H2 _ eq_refl) as [Hz2 Hb2].
    eexists true, _. split; [done|]. split; [split; cbn; apply segment_ok_full; lia|]. split; [done|]. split; [done|]. intros _. exists sv, sc.
    rewrite decide_False by (by intros [? _]). done.
  - unfold load_bin. rewrite !segment_buffer_eq by lia.
    destruct (load_raw_spec contents vs (ve - vs) (Z.to_nat (ve - vs + 1)) Hvs) as (r1 & -> & _ & H1); [lia|]. cbn [mbind option_bind].
    destruct r1 as [sv|]; [|exists ok0, x0; split_and!; congruence]. specialize (H1 _ eq_refl) as [Hz1 Hb1].
    rewrite decide_True by done. rewrite Hsz. change sizeof_DeviceInfo with 96.
    set (cl := if _ <? ce - cs then _ else _).
    assert (cl = (if decide (AIMY_ENCRYPT_BIN_FILE = AIMY_ENCRYPT_BIN_FILE /\ 96 <= zlen contents) then Z.min (ce - cs) (zlen contents - 96) else ce - cs)) as Ecl.
    { unfold cl. destruct (Z.le_gt_cases 96 (zlen contents)).
      - rewrite decide_True by done. rewrite (wrap_small 64) by lia. destruct (Z.ltb_spec (zlen contents - 96) (ce - cs)); [rewrite wrap_small|]; lia.
      - rewrite decide_False by lia. assert (u64 (zlen contents - 96) = 2 ^ 64 + zlen contents - 96) as ->.
        { unfold wrap. rewrite <- (Z.mod_add _ 1) by lia. rewrite Z.mod_small; lia. }
        destruct (Z.ltb_spec (2 ^ 64 + zlen contents - 96) (ce - cs)); [lia|done]. }
    assert (0 <= cl <= ce - cs) as Hclr by (rewrite Ecl; case_decide; lia). clearbody cl.
    destruct (load_raw_spec contents 0 cl (Z.to_nat (ce - cs + 1)) ltac:(lia)) as (r2 & -> & _ & H2); [lia|]. cbn [mbind option_bind].
    destruct r2 as [sc|]; [|exists ok0, x0; split_and!; congruence]. specialize (H2 _ eq_refl) as [Hz2 Hb2].
    eexists true, _. split; [done|]. split; [split; cbn; apply segment_ok_full; lia|]. split; [done|]. split; [done|]. intros _. exists sv, sc. done.
  - exists ok0, x0. split_and!; congruence.
Qed.

(** The HEX file with a gap: eight of the twelve bytes of code are dropped. *)
Definition gap_context : UpdateFileContext :=
  mkContext AIMY_HEX_FILE [97] (Some (hex_file gap_file)) (zlen (hex_file gap_file)) None 0 None 0.

Lemma load_program_witness : exists x',
  loadProgramData 0x8000000 0x8000003 0x8000000 0x800000c gap_context = Some (true, x') /\ vecDataLen x' = 3 /\ codeDataLen x' = 4 /\
  segments_ok x'.
Proof.
  destruct (load_program (hex_file gap_file) 0x8000000 0x8000003 0x8000000 0x800000c gap_context) as (ok & x' & E & Hok & _);
    [reflexivity|reflexivity|reflexivity|split; by left|discriminate|discriminate|reflexivity|reflexivity|intros _; split; discriminate|].
  exists x'. vm_compute in E. injection E as <- <-. split; [vm_compute; reflexivity|]. split; [reflexivity|]. split; [reflexivity|exact Hok].
Defined.

(** ** The search for the strings of a plain file *)

Definition key_at (l : list Z) (p : Z) : Prop := slice p (zlen key) l = key.

Lemma find_key_spec n l : forall i,
  match find_key n l i with
  | Some p => i <= p < i + Z.of_nat n /\ key_at l p /\ forall p', i <= p' < p -> ~ key_at l p'
  | None => forall p', i <= p' < i + Z.of_nat n -> ~ key_at l p'
  end.
Proof.
  unfold key_at. induction n as [|n IH]; intros i; cbn [find_key]; [lia|]. case_bool_decide as H.
  - split; [lia|]. split; [done|]. lia.
  - specialize (IH (i + 1)). destruct (find_key n l (i + 1)) as [p|].
    + destruct IH as (H1 & H2 & H3). split; [lia|]. split; [done|]. intros p' Hp'. destruct (Z.eq_dec p' i) as [->|]; [done|]. apply H3. lia.
    + intros p' Hp'. destruct (Z.eq_dec p' i) as [->|]; [done|]. apply IH. lia.
Qed.

Lemma find_key_first n l i p : i <= p < i + Z.of_nat n -> key_at l p -> (forall p', i <= p' < p -> ~ key_at l p') -> find_key n l i = Some p.
Proof.
  intros H1 H2 H3. pose proof (find_key_spec n l i) as H. destruct (find_key n l i) as [q|]; [|by destruct (H p H1)].
  destruct H as (G1 & G2 & G3). f_equal. destruct (Z.lt_trichotomy p q) as [|[|]]; [by destruct (G3 p ltac:(lia))|done|by destruct (H3 q ltac:(lia))].
Qed.

Lemma find_key_none n l i : (forall p', i <= p' < i + Z.of_nat n -> ~ key_at l p') -> find_key n l i = None.
Proof.
  intros H3. pose proof (find_key_spec n l i) as H. destruct (find_key n l i) as [q|]; [|done].
  destruct H as (G1 & G2 & G3). by destruct (H3 q G1).
Qed.

(** A window of 128 bytes of the file sees the keys that lie in it. *)
Lemma key_in_window contents B p : 0 <= B -> 0 <= p -> p + 32 <= 128 -> key_at (slice B 128 contents) p <-> key_at contents (B + p).
Proof. intros HB Hp Hp'. unfold key_at. change (zlen key) with 32. by rewrite slice_slice by lia. Qed.

(** The buffer at the head of the loop: it holds the bytes of the file from
    [pos - offset] on, and no key starts in front of them. *)
Definition scan_inv (contents : list Z) (pos offset : Z) (buffer : list Z) : Prop :=
  zlen buffer = 128 /\ 0 <= offset <= 31 /\ offset <= pos <= zlen contents /\ slice 0 offset buffer = slice (pos - offset) offset contents /\
  forall p, 0 <= p < pos - offset -> ~ key_at contents p.

Lemma slice_memcpy_front {A} (buffer src : list A) off n buffer' : memcpy_at buffer off src = Some buffer' -> 0 <= off -> n = off + zlen src ->
  slice 0 n buffer' = slice 0 off buffer ++ src.
Proof.
  intros E Ho ->. apply list_eq. intros i. unfold slice. rewrite !drop_0. destruct (decide (Z.of_nat i < off + zlen src)) as [Hi|Hi].
  - rewrite lookup_take_lt by (unfold zlen in *; lia). rewrite (memcpy_at_lookup _ _ _ _ _ E).
    unfold memcpy_at in E. case_bool_decide as Hb; [|done]. destruct (Z.leb_spec off (Z.of_nat i)); cbn [andb].
    + destruct (Z.ltb_spec (Z.of_nat i) (off + zlen src)); [|lia]. rewrite lookup_app_r by (rewrite length_take; lia). f_equal.
      rewrite length_take. unfold zlen in *. lia.
    + rewrite lookup_app_l by (rewrite length_take; unfold zlen in *; lia). by rewrite lookup_take_lt by lia.
  - rewrite lookup_take_ge by (unfold zlen in *; lia). symmetry. apply lookup_ge_None. rewrite length_app, length_take. unfold zlen in *. lia.
Qed.

Lemma found_spec contents pos i buffer : zlen buffer = 128 -> buffer = slice (pos - 128) 128 contents -> 128 <= pos <= zlen contents -> 0 <= i <= 96 ->
  exists r, found contents pos 128 i buffer = Some r /\
    (if pos + i <=? zlen contents then exists buf, r = Some buf /\ slice 0 96 buf = slice (pos - 128 + i + 32) 96 contents else r = None).
Proof.
  intros Hb Eb Hpos Hi. unfold found. change (zlen key) with 32. change sizeof_DeviceInfo with 96.
  rewrite memread_Some by lia. cbn [mbind option_bind]. set (moved := slice _ _ buffer).
  assert (zlen moved = 96 - i) as Hm by (unfold moved; rewrite zlen_slice; lia).
  destruct (memcpy_at buffer 0 moved) as [buf1|] eqn:E1; [|rewrite memcpy_at_Some in E1 by lia; done].
  cbn [mbind option_bind]. pose proof (memcpy_at_len _ _ _ _ E1) as H1. replace (96 - (128 - i - 32)) with i by lia.
  pose proof (zlen_fread contents pos i ltac:(lia) ltac:(lia)) as Hd. set (d := fread contents pos i) in *.
  destruct (memcpy_at buf1 (128 - i - 32) d) as [buf2|] eqn:E2; [|rewrite memcpy_at_Some in E2 by lia; done].
  cbn [mbind option_bind]. destruct (Z.leb_spec (pos + i) (zlen contents)); destruct (Z.ltb_spec (zlen d + (128 - i - 32)) 96); try lia.
  - eexists. split; [done|]. exists buf2. split; [done|].
    rewrite (slice_memcpy_front _ _ _ 96 _ E2) by lia. replace (128 - i - 32) with (96 - i) by lia.
    rewrite (slice_memcpy_front buffer moved 0 (96 - i) buf1 E1) by lia. rewrite slice_0. cbn [app].
    unfold moved, d, fread. rewrite Eb, slice_slice by lia. replace (128 - i - 32) with (96 - i) by lia.
    replace (pos - 128 + (i + 32)) with (pos - 128 + i + 32) by lia.
    replace (slice pos i contents) with (slice (pos - 128 + i + 32 + (96 - i)) i contents) by (f_equal; lia).
    rewrite <- slice_split by lia. f_equal. lia.
  - eexists. done.
Qed.

(** The loop finds the first key that has a whole record behind it. *)
Lemma scan_spec contents fuel : forall pos offset buffer, scan_inv contents pos offset buffer ->
  zlen contents - (pos - offset) < Z.of_nat fuel ->
  exists r, scan fuel contents pos offset buffer = Some r /\
    match find_key (Z.to_nat (zlen contents - 127)) contents 0 with
    | Some p => exists buf, r = Some buf /\ slice 0 96 buf = slice (p + 32) 96 contents
    | None => r = None
    end.
Proof.
  induction fuel as [|fuel IH]; intros pos offset buffer (Hb & Ho & Hp & Es & Hno) Hf; [lia|]. cbn [scan]. rewrite Hb.
  pose proof (zlen_fread contents pos (128 - offset) ltac:(lia) ltac:(lia)) as Hd. set (d := fread contents pos (128 - offset)) in *.
  destruct (memcpy_at buffer offset d) as [buf|] eqn:E1; [|rewrite memcpy_at_Some in E1 by lia; done].
  cbn [mbind option_bind]. pose proof (memcpy_at_len _ _ _ _ E1) as H1. rewrite H1, Hb.
  destruct (Z.ltb_spec (zlen d + offset) 128).
  { exists None. split; [done|]. rewrite find_key_none; [done|]. intros p Hp'. apply Hno. lia. }
  assert (zlen d = 128 - offset) as Hd' by lia. rewrite Hd'. set (B := pos - offset) in *.
  replace (pos + (128 - offset)) with (B + 128) by lia. replace (128 - offset + offset) with 128 by lia.
  change (128 - zlen key + 1) with 97.
  assert (buf = slice B 128 contents) as Ebuf.
  { rewrite <- (slice_all buf), H1, Hb, (slice_memcpy_front _ _ _ 128 _ E1) by lia. rewrite Es. unfold d, fread.
    replace (slice pos (128 - offset) contents) with (slice (B + offset) (128 - offset) contents) by (f_equal; lia).
    rewrite <- slice_split by lia. f_equal. lia. }
  pose proof (find_key_spec (Z.to_nat 97) buf 0) as Hk. destruct (find_key (Z.to_nat 97) buf 0) as [i|].
  - destruct Hk as (Hi & Hat & Hbefore). assert (key_at contents (B + i)) as Hat' by (apply key_in_window; [lia..|by rewrite <- Ebuf]).
    assert (forall p, 0 <= p < B + i -> ~ key_at contents p) as Hfirst.
    { intros p Hp'. destruct (Z.lt_ge_cases p B); [apply Hno; lia|]. intros G. apply (Hbefore (p - B)); [lia|]. rewrite Ebuf. apply key_in_window; [lia..|].
      by replace (B + (p - B)) with p by lia. }
    destruct (found_spec contents (B + 128) i buf) as (r & -> & Hr); [lia|by replace (B + 128 - 128) with B by lia|lia..|].
    exists r. split; [done|]. destruct (Z.leb_spec (B + 128 + i) (zlen contents)).
    + rewrite (find_key_first _ contents 0 (B + i)) by (done || lia). destruct Hr as (buf' & -> & Hr). exists buf'. split; [done|].
      rewrite Hr. f_equal. lia.
    + rewrite find_key_none; [done|]. intros p Hp'. apply Hfirst. lia.
  - change (zlen key - 1) with 31. rewrite memread_Some by lia. cbn [mbind option_bind].
    set (kept := slice 97 31 buf). assert (zlen kept = 31) as Hkz by (unfold kept; rewrite zlen_slice; lia).
    destruct (memcpy_at buf 0 kept) as [buf'|] eqn:E2; [|rewrite memcpy_at_Some in E2 by lia; done].
    cbn [mbind option_bind]. apply IH; [|lia]. unfold scan_inv. rewrite (memcpy_at_len _ _ _ _ E2).
    split; [lia|]. split; [lia|]. split; [lia|]. split.
    + rewrite (slice_memcpy_front buf kept 0 31 buf' E2) by lia. rewrite slice_0. cbn [app]. unfold kept. rewrite Ebuf, slice_slice by lia. f_equal. lia.
    + intros p Hp'. destruct (Z.lt_ge_cases p B); [apply Hno; lia|]. intros G. apply (Hk (p - B)); [lia|]. rewrite Ebuf. apply key_in_window; [lia..|].
      by replace (B + (p - B)) with p by lia.
Qed.

Lemma cstring_app a b s : cstring a = Some s -> cstring (a ++ b) = Some s.
Proof.
  revert s. induction a as [|c a IH]; intros s; [done|]. cbn [cstring app]. destruct (c =? 0); [done|].
  destruct (cstring a) as [t|]; [|done]. intros [= <-]. by rewrite (IH t).
Qed.

Lemma field_prefix (buf info : list Z) n s : slice 0 96 buf = info -> field info n = Some s -> 0 <= n <= 2 -> 96 <= zlen buf -> field buf n = Some s.
Proof.
  unfold field. intros <- Hs Hn Hb. rewrite <- (take_drop 96 buf). rewrite drop_app_le; [|rewrite length_take; change AIMY_HEX_STRING_MAX_LEN with 32; unfold zlen in *; lia].
  by apply cstring_app.
Qed.

(** What the search is for: the strings behind the first key that has 96 bytes behind
    it. *)
Definition bin_reference (force : bool) (version product date contents : list Z) : option Z :=
  match find_key (Z.to_nat (zlen contents - 127)) contents 0 with
  | None => Some (-1)
  | Some p => compare_info force version product date (slice (p + 32) 96 contents)
  end.

(** The search through a plain file.  Reading the file in overlapping blocks of 128
    bytes finds the same strings as looking at every position of the whole file: those
    behind the first key, whatever block borders it lies on and whatever the buffer
    held before; the search ends for every file.  (The strings of the file have to be
    terminated, otherwise they are read beyond their field.) *)
Theorem bin_search_exact force junk version product date contents :
  zlen junk = 128 -> bin_reference force version product date contents <> None ->
  checkBinFile force junk version product date contents = bin_reference force version product date contents.
Proof.
  intros Hj Href. unfold checkBinFile, bin_reference in *. pose proof (zlen_nonneg contents).
  destruct (scan_spec contents (S (length contents)) 0 0 junk) as (r & -> & Hr); [|unfold zlen; lia|].
  { split; [done|]. split; [lia|]. split; [lia|]. split; [by rewrite !slice_0|]. lia. }
  cbn [mbind option_bind]. pose proof (find_key_spec (Z.to_nat (zlen contents - 127)) contents 0) as Hk.
  destruct (find_key _ _ _) as [p|]; [|by subst r]. destruct Hr as (buf & -> & Eb). destruct Hk as (Hp & _).
  assert (96 <= zlen buf) as Hb. { assert (zlen (slice 0 96 buf) = 96) as Hz by (rewrite Eb, zlen_slice; lia). unfold slice, zlen in *. rewrite length_take, drop_0 in Hz. lia. }
  unfold compare_info in *. set (info := slice (p + 32) 96 contents) in *.
  destruct (field info 0) as [v|] eqn:E0; [|done]. cbn [mbind option_bind] in *.
  destruct (field info 1) as [q|] eqn:E1; [|done]. cbn [mbind option_bind] in *.
  destruct (field info 2) as [d|] eqn:E2; [|done].
  rewrite (field_prefix buf info 0 v), (field_prefix buf info 1 q), (field_prefix buf info 2 d) by (done || lia). done.
Qed.

(** A key across the border of the first block; the version 1, product 2, date 3. *)
Definition bin_file : list Z := replicate 90 7 ++ key ++ concat (map (fun c => c :: replicate 31 0) [49; 50; 51]) ++ [1; 2; 3].

Lemma bin_search_exact_witness :
  checkBinFile false (replicate 128 65) [49] [50] [51] bin_file = Some 0 /\
  checkBinFile false (replicate 128 65) [48] [50] [51] bin_file = Some 1 /\
  checkBinFile false (replicate 128 65) [49] [51] [51] bin_file = Some (-1).
Proof.
  split; [|split]; (rewrite (bin_search_exact false (replicate 128 65)); [vm_compute; reflexivity|reflexivity|vm_compute; discriminate]).
Defined.
