(* ===== verification/DeviceUpdater.v ===== *)
(** The state machine of the device updater: class AimyUpdater
    (src/imp/device-update/device_updater.h, device_updater.cpp). *)
From stdpp Require Import strings.
From S2P Require Import Prelude HexFile Iutils DeviceProtocol UpdateFile.

(** ** State *)

Definition QUERY_DEVICE : Z := 0xA1.
Definition QUERY_UPID : Z := 0xA2.
Definition TRANSFER_ERROR : Z := 0xA6.
Definition QUERY_WORK_MODE : Z := 0xB3.
Definition UPGRADE_ENTER : Z := 0xE0.
Definition UPGRADE_QUERY_SOFTWARE : Z := 0xE1.
Definition UPGRADE_QUERY_SEGMENT : Z := 0xE2.
Definition UPGRADE_INT_VECTOR_TABLE : Z := 0xE3.
Definition UPGRADE_CODE_SEGMENT : Z := 0xE6.
Definition UPGRADE_RESUME : Z := 0xE7.
Definition UPGRADE_QUIT : Z := 0xE8.

Definition UPGRADE_SUCCESS : Z := 0.
Definition UPGRADE_ERROR_WITH_ROLLBACK : Z := 0x61.
Definition UPGRADE_ERROR_WITHOUT_ROLLBACK : Z := 0x62.

(** The signals, with their arguments. *)
Inductive signal :=
| NotifyQuit (status : Z) (message : string)
| NotifyQuery (type : Z) (message : string)
| NotifyUpdate (type : Z)
| NotifyProgress (packets total : Z).      (* packets * 100.0 / total *)

(** [workChannel] is whether the open channel is written to; a frame to be sent is
    its bytes; a timer is whether it works. *)
Record AimyUpdater := mkUpdater {
  workChannel : option bool;
  messageUrl : list Z;
  context : UpdateFileContext;
  updateDeviceAdress : Z;
  quitStatus : Z;
  quitMessage : string;
  readCache : list Z;
  dataLen : Z;
  sendDataList : list (list Z);
  sliceContext : option UpdateSliceContext;
  lastUpdateFrame : option (list Z);
  resendTimer : bool;
  totalPackets : Z;
  progressPackets : Z;
  force_update : bool;                       (* FORCE_UPDATE in the environment *)
  signals : list signal }.                   (* what was notified *)

Definition new_AimyUpdater (force : bool) : AimyUpdater :=
  mkUpdater None [] new_UpdateFileContext 0 UPGRADE_ERROR_WITHOUT_ROLLBACK "normal" (replicate 4096 0) 0 [] None None false 0 0 force [].

Definition set_channel (v : option bool) (u : AimyUpdater) : AimyUpdater :=
  mkUpdater v (messageUrl u) (context u) (updateDeviceAdress u) (quitStatus u) (quitMessage u) (readCache u) (dataLen u) (sendDataList u) (sliceContext u) (lastUpdateFrame u) (resendTimer u) (totalPackets u) (progressPackets u) (force_update u) (signals u).
Definition set_url (v : list Z) (u : AimyUpdater) : AimyUpdater :=
  mkUpdater (workChannel u) v (context u) (updateDeviceAdress u) (quitStatus u) (quitMessage u) (readCache u) (dataLen u) (sendDataList u) (sliceContext u) (lastUpdateFrame u) (resendTimer u) (totalPackets u) (progressPackets u) (force_update u) (signals u).
Definition set_context (v : UpdateFileContext) (u : AimyUpdater) : AimyUpdater :=
  mkUpdater (workChannel u) (messageUrl u) v (updateDeviceAdress u) (quitStatus u) (quitMessage u) (readCache u) (dataLen u) (sendDataList u) (sliceContext u) (lastUpdateFrame u) (resendTimer u) (totalPackets u) (progressPackets u) (force_update u) (signals u).
Definition set_address (v : Z) (u : AimyUpdater) : AimyUpdater :=
  mkUpdater (workChannel u) (messageUrl u) (context u) v (quitStatus u) (quitMessage u) (readCache u) (dataLen u) (sendDataList u) (sliceContext u) (lastUpdateFrame u) (resendTimer u) (totalPackets u) (progressPackets u) (force_update u) (signals u).
Definition set_quit (st : Z) (msg : string) (u : AimyUpdater) : AimyUpdater :=
  mkUpdater (workChannel u) (messageUrl u) (context u) (updateDeviceAdress u) st msg (readCache u) (dataLen u) (sendDataList u) (sliceContext u) (lastUpdateFrame u) (resendTimer u) (totalPackets u) (progressPackets u) (force_update u) (signals u).
Definition set_cache (c : list Z) (n : Z) (u : AimyUpdater) : AimyUpdater :=
  mkUpdater (workChannel u) (messageUrl u) (context u) (updateDeviceAdress u) (quitStatus u) (quitMessage u) c n (sendDataList u) (sliceContext u) (lastUpdateFrame u) (resendTimer u) (totalPackets u) (progressPackets u) (force_update u) (signals u).
Definition set_sendDataList (v : list (list Z)) (u : AimyUpdater) : AimyUpdater :=
  mkUpdater (workChannel u) (messageUrl u) (context u) (updateDeviceAdress u) (quitStatus u) (quitMessage u) (readCache u) (dataLen u) v (sliceContext u) (lastUpdateFrame u) (resendTimer u) (totalPackets u) (progressPackets u) (force_update u) (signals u).
Definition set_slice (v : option UpdateSliceContext) (u : AimyUpdater) : AimyUpdater :=
  mkUpdater (workChannel u) (messageUrl u) (context u) (updateDeviceAdress u) (quitStatus u) (quitMessage u) (readCache u) (dataLen u) (sendDataList u) v (lastUpdateFrame u) (resendTimer u) (totalPackets u) (progressPackets u) (force_update u) (signals u).
Definition set_last (v : option (list Z)) (u : AimyUpdater) : AimyUpdater :=
  mkUpdater (workChannel u) (messageUrl u) (context u) (updateDeviceAdress u) (quitStatus u) (quitMessage u) (readCache u) (dataLen u) (sendDataList u) (sliceContext u) v (resendTimer u) (totalPackets u) (progressPackets u) (force_update u) (signals u).
Definition set_timer (v : bool) (u : AimyUpdater) : AimyUpdater :=
  mkUpdater (workChannel u) (messageUrl u) (context u) (updateDeviceAdress u) (quitStatus u) (quitMessage u) (readCache u) (dataLen u) (sendDataList u) (sliceContext u) (lastUpdateFrame u) v (totalPackets u) (progressPackets u) (force_update u) (signals u).
Definition set_packets (t p : Z) (u : AimyUpdater) : AimyUpdater :=
  mkUpdater (workChannel u) (messageUrl u) (context u) (updateDeviceAdress u) (quitStatus u) (quitMessage u) (readCache u) (dataLen u) (sendDataList u) (sliceContext u) (lastUpdateFrame u) (resendTimer u) t p (force_update u) (signals u).
Definition set_force (v : bool) (u : AimyUpdater) : AimyUpdater :=
  mkUpdater (workChannel u) (messageUrl u) (context u) (updateDeviceAdress u) (quitStatus u) (quitMessage u) (readCache u) (dataLen u) (sendDataList u) (sliceContext u) (lastUpdateFrame u) (resendTimer u) (totalPackets u) (progressPackets u) v (signals u).
Definition notify (s : signal) (u : AimyUpdater) : AimyUpdater :=
  mkUpdater (workChannel u) (messageUrl u) (context u) (updateDeviceAdress u) (quitStatus u) (quitMessage u) (readCache u) (dataLen u) (sendDataList u) (sliceContext u) (lastUpdateFrame u) (resendTimer u) (totalPackets u) (progressPackets u) (force_update u) (signals u ++ [s]).

(** [enablWriting] and [disableWriting] of the channel; [None] without one. *)
Definition set_writing (w : bool) (u : AimyUpdater) : option AimyUpdater :=
  _ ← workChannel u; Some (set_channel (Some w) u).

(** ** Sending *)

(** The control code on the stack, of which two bits are set; [g] is what it held. *)
Definition control_code (g : Z) (read_write : bool) : Z := Z.lor (Z.land g 0x7e) (128 + Z.b2z read_write).

(** A frame in a buffer of 128 bytes and one. *)
Definition mux_frame (d : list Z) (address : option Z) (code : Z) : option (list Z) :=
  '(cache, ret_len) ← Mux d address code (replicate 129 0);
  Some (slice 0 ret_len cache).

Definition sendNormalData (g : Z) (d : list Z) (u : AimyUpdater) : option AimyUpdater :=
  frame ← mux_frame d None (control_code g false);
  set_writing true (set_sendDataList (sendDataList u ++ [frame]) u).

Definition sendUpdateData (g : Z) (d : list Z) (u : AimyUpdater) : option AimyUpdater :=
  frame ← mux_frame d (Some (updateDeviceAdress u)) (control_code g true);
  set_writing true (set_last (Some frame) (set_timer false u)).

(** ** Requests *)

Definition requestQueryDevice (g : Z) (u : AimyUpdater) : option AimyUpdater := sendNormalData g [QUERY_DEVICE] u.
Definition requestQueryUPID (g : Z) (u : AimyUpdater) : option AimyUpdater := sendNormalData g [QUERY_UPID] u.
Definition requestQueryWorkMode (g : Z) (u : AimyUpdater) : option AimyUpdater := sendNormalData g [QUERY_WORK_MODE] u.

Definition max_size_frame : Z := Z.land (64 - (GetMinProtocolSize + 1 + 2 + 2)) 0xFC.

Definition requestEnterUpgradeWorkMode (g : Z) (u : AimyUpdater) : option AimyUpdater :=
  sendUpdateData g [UPGRADE_ENTER] (set_slice (Some (new_UpdateSliceContext max_size_frame)) u).
Definition requestQuerySoftwareVersion (g : Z) (u : AimyUpdater) : option AimyUpdater := sendUpdateData g [UPGRADE_QUERY_SOFTWARE] u.
Definition requestQuerySegmentInfomation (g : Z) (u : AimyUpdater) : option AimyUpdater := sendUpdateData g [UPGRADE_QUERY_SEGMENT] u.

(** The payload that carries [n] bytes of a slice in a struct with room for 64. *)
Definition segment_content (t q : Z) (d : list Z) (n : Z) : option (list Z) :=
  bytes ← memread d 0 n;
  content ← memcpy_at (replicate 64 0) 0 bytes;
  crc ← crc_rc16 content n;
  Some (t :: be_bytes 2 (Z.land q 0xffff) ++ be_bytes 2 crc ++ slice 0 n content).

Definition requestUploadSegment (g : Z) (u : AimyUpdater) : option AimyUpdater :=
  c ← sliceContext u;
  content ← segment_content (slice_type c) (seq c) (data c) (data_len c);
  sendUpdateData g content u.

Definition requestQuitUpgradeWorkMode (g : Z) (message : string) (u : AimyUpdater) : option AimyUpdater :=
  sendNormalData g [UPGRADE_QUIT; quitStatus u] (set_quit (quitStatus u) message u).

Definition startUpdate (g : Z) (u : AimyUpdater) : option AimyUpdater := requestEnterUpgradeWorkMode g u.
Definition stopUpdate (g : Z) (u : AimyUpdater) : option AimyUpdater := requestQuitUpgradeWorkMode g "active quit" u.

Definition loadUpdateTask (fopen : list Z -> option (list Z)) (file_path : list Z) (device_adress : Z) (u : AimyUpdater) : bool * AimyUpdater :=
  let '(ok, x) := UpdateFile.init fopen file_path AIMY_UNKNOWN_FILE (context u) in
  (ok, set_context x (set_address device_adress u)).

(** ** The channel *)

Definition release (u : AimyUpdater) : AimyUpdater :=
  match workChannel u with
  | None => u
  | Some _ => set_channel None (set_last None (set_sendDataList [] u))
  end.

(** What opening devices gives: the HID devices with a product and vendor, and the
    descriptors of a HID path and of a serial line. *)
Record device_env := mkEnv {
  hidFind : Z -> Z -> list (list Z);
  hid_open : list Z -> Z;
  aserial_open : list Z -> Z }.

Fixpoint strstr (s sub : list Z) : bool :=
  bool_decide (take (length sub) s = sub) || match s with [] => false | _ :: s' => strstr s' sub end.

Definition ascii_of (l : list Z) : Uuid.cstring := map (fun c => Ascii.ascii_of_N (Z.to_N c)) l.

(** [sscanf(url, "hid:%04x:%04x", &vid, &pid)]. *)
Definition scan_url (url : list Z) : option (Z * Z) :=
  s ← Uuid.scan_lit (ascii_of (of_string "hid:")) (ascii_of (c_str url));
  '(vid, s) ← Uuid.scan_hex 4 s;
  s ← Uuid.scan_lit (ascii_of (of_string ":")) s;
  '(pid, _) ← Uuid.scan_hex 4 s;
  Some (vid, pid).

Definition init (env : device_env) (url : list Z) (u : AimyUpdater) : bool * AimyUpdater :=
  match url with
  | [] => (false, u)
  | _ =>
      let u := set_url url (release u) in
      if strstr (c_str url) (of_string "hid:") then
        match scan_url url with
        | None => (false, u)
        | Some (vid, pid) =>
            match hidFind env pid vid with
            | [] => (false, u)
            | dev_path :: _ =>
                if hid_open env dev_path <? 0 then (false, u)
                else (true, set_channel (Some false) (set_force true u))
            end
        end
      else if aserial_open env url =? 0 then (false, u)
      else (true, set_channel (Some false) u)
  end.

(** The attempts to open the device again, [n] of them at most; [envs] is what each
    finds. *)
Fixpoint reopen (n : nat) (envs : nat -> device_env) (g : Z) (u : AimyUpdater) : option AimyUpdater :=
  match n with
  | O => 
      let u := release (set_quit (quitStatus u) "connection disconnected" u) in
      Some (notify (NotifyQuit (quitStatus u) (quitMessage u)) u)
  | S n' =>
      let '(ok, u) := init (envs n) (messageUrl u) u in
      if ok then startUpdate g u else reopen n' envs g u
  end.

Definition reload_upgrade_task (envs : nat -> device_env) (g : Z) (u : AimyUpdater) : option AimyUpdater :=
  if negb (updateDeviceAdress u =? 0) then reopen 10 envs g u else Some (release u).

Definition on_close := reload_upgrade_task.
Definition on_error := reload_upgrade_task.

Definition on_send_timeout (u : AimyUpdater) : option AimyUpdater :=
  let u := set_timer false u in
  match workChannel u with
  | None => Some u
  | Some _ => set_writing true u
  end.

(** *** Writing *)

(** What [write] returns: an error that passes or not, 0, or a positive number. *)
Inductive write_result := WAgain | WFail | WZero | WDone.

(** The device has closed the connection. *)
Definition reset_by_peer (u : AimyUpdater) : AimyUpdater :=
  let u := release (set_quit (quitStatus u) "connection reset by remote peer" u) in
  notify (NotifyQuit (quitStatus u) (quitMessage u)) u.

(** Behind the writing: nothing is left to be written now. *)
Definition write_idle (u : AimyUpdater) : option AimyUpdater :=
  let quiet := resendTimer u || match lastUpdateFrame u with None => true | Some _ => false end in
  if quiet && match sendDataList u with [] => true | _ => false end then set_writing false u else Some u.

(** The loop over the list; [results] are those of the next calls of [write].  The
    result has the frames written. *)
Fixpoint write_list (results : list write_result) (envs : nat -> device_env) (g : Z) (u : AimyUpdater)
    : option (list (list Z) * AimyUpdater) :=
  match sendDataList u with
  | [] => u ← write_idle u; Some ([], u)
  | front :: rest =>
      match results with
      | [] => None
      | r :: results' =>
          _ ← workChannel u;
          match r with
          | WAgain => write_list results' envs g u
          | WFail => u ← reload_upgrade_task envs g u; Some ([], u)
          | WZero => Some ([], reset_by_peer u)
          | WDone => '(written, u) ← write_list results' envs g (set_sendDataList rest u); Some (front :: written, u)
          end
      end
  end.

Definition on_write (results : list write_result) (envs : nat -> device_env) (g : Z) (u : AimyUpdater)
    : option (list (list Z) * AimyUpdater) :=
  match sendDataList u, lastUpdateFrame u with
  | _ :: _, _ => write_list results envs g u
  | [], Some frame =>
      if resendTimer u then u ← write_idle u; Some ([], u) else
      _ ← workChannel u;
      match results with
      | [] => None
      | WAgain :: _ => u ← write_idle u; Some ([], u)
      | WFail :: _ => u ← reload_upgrade_task envs g u; Some ([], u)
      | WZero :: _ => Some ([], reset_by_peer u)
      | WDone :: _ => u ← write_idle (set_timer true u); Some ([frame], u)
      end
  | [], None => u ← write_idle u; Some ([], u)
  end.

(** ** Replies *)

Definition updateProgress (u : AimyUpdater) : AimyUpdater :=
  let p := u64 (progressPackets u + 1) in
  let p := if totalPackets u <? p then totalPackets u else p in
  let u := set_packets (totalPackets u) p u in
  if (0 <? totalPackets u) && ((p mod 100 =? 0) || (p =? totalPackets u)) then notify (NotifyProgress p (totalPackets u)) u else u.

(** [mem] is the memory from [data] on; the offsets of the three strings.  [None] is a
    read beyond the memory, [None] inside stands for false. *)
Fixpoint parse_info (mem : list Z) (date_len i cur_field_length : Z) (fields : list Z) : option (option (list Z)) :=
  if date_len <=? i then Some None else
  match mem with
  | [] => None
  | c :: mem' =>
      if c =? 0 then
        if cur_field_length =? 0 then Some None else parse_info mem' date_len (i + 1) 0 fields
      else
        let cur_field_length := cur_field_length + 1 in
        if cur_field_length =? 1 then
          let fields := fields ++ [i] in
          if zlen fields =? 3 then Some (Some fields) else parse_info mem' date_len (i + 1) cur_field_length fields
        else parse_info mem' date_len (i + 1) cur_field_length fields
  end.

(** The three strings. *)
Definition parserDeviceInfo (mem : list Z) (date_len : Z) : option (option (list Z * list Z * list Z)) :=
  r ← parse_info mem date_len 0 0 [];
  match r with
  | Some [v; p; d] =>
      v ← cstring (drop (Z.to_nat v) mem);
      p ← cstring (drop (Z.to_nat p) mem);
      d ← cstring (drop (Z.to_nat d) mem);
      Some (Some (v, p, d))
  | _ => Some None
  end.

(** The replies to queries only print. *)
Definition handleReplyQueryDevice (mem : list Z) (n : Z) (u : AimyUpdater) : option AimyUpdater :=
  if 1 <? n then _ ← parserDeviceInfo mem n; Some u else Some u.
Definition handleReplyQueryUPID (mem : list Z) (n : Z) (u : AimyUpdater) : option AimyUpdater :=
  if 1 <? n then _ ← memread mem 0 1; Some u else Some u.
Definition handleReplyQueryWorkMode (mem : list Z) (n : Z) (u : AimyUpdater) : option AimyUpdater :=
  if 1 <? n then _ ← memread mem 0 2; Some u else Some u.

Definition FULL : Z := 1.
Definition RESUME : Z := 2.
Definition REPORT : Z := 3.

Definition handleReplyEnterUpgradeWorkMode (g : Z) (mem : list Z) (n address : Z) (u : AimyUpdater) : option AimyUpdater :=
  if negb (address =? updateDeviceAdress u) then Some u else
  if n <? 3 then requestQuitUpgradeWorkMode g "enter upgrade reply false format" u else
  status ← mem !! 0%nat;
  page ← mem !! 1%nat;
  c ← sliceContext u;
  let u := set_slice (Some (set_page_size (page * 1024) c)) u in
  if (status =? FULL) || (status =? RESUME) || (status =? REPORT)
  then requestQuerySoftwareVersion g u
  else requestQuitUpgradeWorkMode g "device is busy or not support!" u.

(** A 32-bit integer as the machine reads it, least significant byte first. *)
Definition le32 (mem : list Z) (off : Z) : option Z := b ← memread mem off 4; Some (be_value (rev b)).
Definition be32 (mem : list Z) (off : Z) : option Z := b ← memread mem off 4; Some (be_value b).

Definition handleReplyQuerySoftwareVersion (g : Z) (junk mem : list Z) (n address : Z) (u : AimyUpdater) : option AimyUpdater :=
  if negb (address =? updateDeviceAdress u) then Some u else
  if n <? 12 then requestQuitUpgradeWorkMode g "upgrade query software upgrade reply false format" u else
  info ← parserDeviceInfo (drop 12 mem) (n - 12);
  match info with
  | None => requestQuitUpgradeWorkMode g "upgrade query software upgrade reply parse device info failed!" u
  | Some (str_version, str_product, str_date) =>
      version_addr ← le32 mem 0;
      date_addr ← le32 mem 8;
      ret ← checkFile (force_update u) junk str_version str_product str_date version_addr date_addr date_addr (context u);
      if ret =? 0 then requestQuitUpgradeWorkMode g "not need upgrade!" u
      else if ret <? 0 then requestQuitUpgradeWorkMode g "file check failed!" (set_quit UPGRADE_ERROR_WITH_ROLLBACK (quitMessage u) u)
      else requestQuerySegmentInfomation g u
  end.

(** Filling the next slice, or quitting when there is none. *)
Definition send_next_slice (g : Z) (k : UpdateSliceContext -> AimyUpdater -> AimyUpdater) (c : UpdateSliceContext) (u : AimyUpdater) : option AimyUpdater :=
  '(ok, c) ← fillUpdateSliceContext (context u) c;
  let u := set_slice (Some c) u in
  if negb ok || (data_len c =? 0)
  then requestQuitUpgradeWorkMode g "read slice failed!" (set_quit UPGRADE_ERROR_WITH_ROLLBACK (quitMessage u) u)
  else requestUploadSegment g (k c u).

Definition handleReplyQuerySegmentInfomation (g : Z) (mem : list Z) (n address : Z) (u : AimyUpdater) : option AimyUpdater :=
  if negb (address =? updateDeviceAdress u) then Some u else
  if n <? 16 then requestQuitUpgradeWorkMode g "upgrade query segment info reply false format" u else
  vs ← be32 mem 0;
  cs ← be32 mem 4;
  ve ← be32 mem 8;
  ce ← be32 mem 12;
  '(ok, x) ← loadProgramData vs ve cs ce (context u);
  let u := set_context x u in
  if negb ok then requestQuitUpgradeWorkMode g "file load failed!" (set_quit UPGRADE_ERROR_WITH_ROLLBACK (quitMessage u) u) else
  c ← sliceContext u;
  send_next_slice g (fun c => set_packets (zlen (code_map c) + zlen (vector_map c)) 0) c u.

Definition MISSING : Z := 0x54.

(** Is the reply to an uploaded segment too short? *)
Definition short_reply (mem : list Z) (n : Z) : option bool :=
  if n <? 3 then Some true else
  status ← mem !! 0%nat;
  Some ((status =? MISSING) && (n <? 5)).

Definition handleReplyUploadVectorTable (g : Z) (mem : list Z) (n address : Z) (u : AimyUpdater) : option AimyUpdater :=
  if negb (address =? updateDeviceAdress u) then Some u else
  short ← short_reply mem n;
  if short : bool then requestQuitUpgradeWorkMode g "upgrade upload vector table reply false format!" (set_quit UPGRADE_ERROR_WITH_ROLLBACK (quitMessage u) u) else
  no ← memread mem 1 2;
  c ← sliceContext u;
  if negb (be_value no =? Z.land (seq c) 0xffff) then Some u else
  status ← mem !! 0%nat;
  if status =? 0 then send_next_slice g (fun _ u => u) (set_seq (slice_type c) (seq c - 1) c) (updateProgress u)
  else if status =? MISSING then on_send_timeout u
  else Some u.

Definition handleReplyUploadCodeSegment (g : Z) (mem : list Z) (n address : Z) (u : AimyUpdater) : option AimyUpdater :=
  if negb (address =? updateDeviceAdress u) then Some u else
  short ← short_reply mem n;
  if short : bool then requestQuitUpgradeWorkMode g "upgrade upload code  segment reply false format!" (set_quit UPGRADE_ERROR_WITH_ROLLBACK (quitMessage u) u) else
  no ← memread mem 1 2;
  c ← sliceContext u;
  if negb (be_value no =? Z.land (seq c) 0xffff) then Some u else
  status ← mem !! 0%nat;
  if status =? 0 then
    let u := updateProgress u in
    if 0 <? seq c then send_next_slice g (fun _ u => u) (set_seq (slice_type c) (seq c - 1) c) u
    else requestQuitUpgradeWorkMode g "success" (set_quit UPGRADE_SUCCESS (quitMessage u) u)
  else if status =? MISSING then on_send_timeout u
  else Some u.

Definition handleReplyQuitUpgradeWorkMode (mem : list Z) (n address : Z) (u : AimyUpdater) : option AimyUpdater :=
  if negb (address =? updateDeviceAdress u) then Some u else
  let u := set_timer false u in
  u ← (if n <? 1 then Some u else
       status ← mem !! 0%nat;
       if negb (status =? 0) && (quitStatus u =? UPGRADE_SUCCESS)
       then Some (set_quit UPGRADE_ERROR_WITH_ROLLBACK "quit failed" u) else Some u);
  Some (notify (NotifyQuit (quitStatus u) (quitMessage u)) u).

(** ** Reading *)

(** A frame whose [n] bytes of data start at [mem]; [junk] is the stack that checking
    the file uses. *)
Definition handleFrame (g : Z) (junk mem : list Z) (n address code : Z) (u : AimyUpdater) : option AimyUpdater :=
  if code =? 0 then Some u else
  command ← mem !! 0%nat;
  let mem := drop 1 mem in
  let n := u32 (n - 1) in
  let query h msg t := u ← h; Some (notify (NotifyQuery t msg) u) in
  let update h t := u ← h; Some (notify (NotifyUpdate t) u) in
  if command =? QUERY_DEVICE then query (handleReplyQueryDevice mem n u) "query_device" QUERY_DEVICE
  else if command =? QUERY_UPID then query (handleReplyQueryUPID mem n u) "query_upid" QUERY_DEVICE
  else if command =? TRANSFER_ERROR then query (_ ← mem !! 0%nat; Some u) "TRANSFER_ERROR" TRANSFER_ERROR
  else if command =? QUERY_WORK_MODE then query (handleReplyQueryWorkMode mem n u) "query_workmode" QUERY_DEVICE
  else if command =? UPGRADE_ENTER then update (handleReplyEnterUpgradeWorkMode g mem n address u) UPGRADE_ENTER
  else if command =? UPGRADE_QUERY_SOFTWARE then update (handleReplyQuerySoftwareVersion g junk mem n address u) UPGRADE_QUERY_SOFTWARE
  else if command =? UPGRADE_QUERY_SEGMENT then update (handleReplyQuerySegmentInfomation g mem n address u) UPGRADE_QUERY_SEGMENT
  else if command =? UPGRADE_INT_VECTOR_TABLE then update (handleReplyUploadVectorTable g mem n address u) UPGRADE_INT_VECTOR_TABLE
  else if command =? UPGRADE_CODE_SEGMENT then update (handleReplyUploadCodeSegment g mem n address u) UPGRADE_CODE_SEGMENT
  else if command =? UPGRADE_QUIT then handleReplyQuitUpgradeWorkMode mem n address u
  else Some u.

(** The loop over the positions of the cache; [address] is the variable that DeMux
    writes when the frame has a source address. *)
Fixpoint cache_loop (fuel : nat) (g : Z) (junk : list Z) (address i : Z) (u : AimyUpdater) : option AimyUpdater :=
  match fuel with
  | O => None
  | S fuel' =>
      if i <? dataLen u then
        let p := drop (Z.to_nat i) (readCache u) in
        '(err, address, frame) ← DeMux p (u32 (dataLen u - i)) address;
        match frame with
        | Some (frame_length, code) =>
            u ← handleFrame g junk (drop (Z.to_nat sizeof_Head) p) frame_length address (Z.b2z (control_frame_switch code)) u;
            Some (set_cache (readCache u) 0 u)
        | None =>
            if err =? 1 then Some u else cache_loop fuel' g junk address (i + 1) u
        end
      else Some (set_cache (readCache u) 0 u)
  end.

Definition handleDataCache (g : Z) (junk : list Z) (address : Z) (u : AimyUpdater) : option AimyUpdater :=
  cache_loop (S (Z.to_nat (dataLen u))) g junk address 0 u.

(** What [read] returns: an error that passes or not, or at most 128 bytes. *)
Inductive read_result := RAgain | RFail | RBytes (b : list Z).

Definition on_read (r : read_result) (envs : nat -> device_env) (g : Z) (junk : list Z) (address : Z) (u : AimyUpdater) : option AimyUpdater :=
  _ ← workChannel u;
  match r with
  | RAgain => Some u
  | RFail => reload_upgrade_task envs g u
  | RBytes b =>
      cache ← memcpy_at (readCache u) (dataLen u) b;
      handleDataCache g junk address (set_cache cache (dataLen u + zlen b) u)
  end.
