(* ===== verification/DeviceUpdaterOk.v ===== *)
(** What the device updater guarantees: a complete update with a device that answers,
    the size of every frame, and a reader that does not recover from noise. *)
From stdpp Require Import strings.
From S2P Require Import Prelude HexFile Iutils DeviceProtocol UpdateFile DeviceUpdater.

(** ** Frames in both directions *)

Lemma mux_frame_eq d address code : zlen d <= 120 -> mux_frame d address code = Some (frame d address code).
Proof.
  intros Hd. pose proof (zlen_framed d address code (foldl Z.lxor 0 (frame_body d address code))) as Hz. fold (frame d address code) in Hz.
  unfold mux_frame. destruct (Mux_frame d address code (replicate 129 0)) as (rest & -> & _); [lia|rewrite zlen_replicate; destruct address; lia|].
  cbn [mbind option_bind]. f_equal. unfold slice, zlen. by rewrite Nat2Z.id, drop_0, take_app_length.
Qed.

Lemma zlen_mux_frame d address code f : mux_frame d address code = Some f -> zlen d <= 53 -> zlen f <= 62.
Proof.
  intros E Hd. rewrite mux_frame_eq in E by lia. injection E as <-. unfold frame. rewrite zlen_framed. destruct address; lia.
Qed.

(** What a device reads out of a frame: the data behind the head. *)
Definition payload_of (f : list Z) : list Z := slice sizeof_Head (nth 4 f 0) f.

Lemma payload_of_frame d address code : payload_of (frame d address code) = d.
Proof.
  unfold payload_of, frame, framed. set (k := foldl _ _ _). unfold frame_body at 2 4. cbn [app nth].
  unfold slice. change (Z.to_nat sizeof_Head) with 5%nat. cbn [drop]. unfold zlen. rewrite Nat2Z.id, <- app_assoc. apply take_app_length.
Qed.

(** The frame of a device with the address [A]. *)
Definition reply_code : Z := 0x88.
Definition reply_body (A : Z) (pl : list Z) : list Z := [reply_code; zlen pl] ++ pl ++ sizeof_Address :: be_bytes 2 A.
Definition reply_frame (A : Z) (pl : list Z) : list Z :=
  [3 + zlen (reply_body A pl); FLAG_1; FLAG_2] ++ reply_body A pl ++ [foldl Z.lxor 0 (reply_body A pl)].

Lemma zlen_reply_body A pl : zlen (reply_body A pl) = 5 + zlen pl.
Proof. unfold reply_body. rewrite !zlen_app, !zlen_cons, zlen_be_bytes. change (zlen (@nil Z)) with 0. lia. Qed.

Lemma zlen_reply_frame A pl : zlen (reply_frame A pl) = 9 + zlen pl.
Proof. unfold reply_frame. rewrite !zlen_app, zlen_reply_body, !zlen_cons. change (zlen (@nil Z)) with 0. lia. Qed.

Lemma slice_mid {A} (a b c : list A) : slice (zlen a) (zlen b) (a ++ b ++ c) = b.
Proof. unfold slice, zlen. by rewrite !Nat2Z.id, drop_app_length, take_app_length. Qed.

(** The updater reads such a frame whatever is behind it in its cache. *)
Lemma DeMux_reply A pl rest a : 0 <= A < 2 ^ 16 ->
  DeMux (reply_frame A pl ++ rest) (zlen (reply_frame A pl)) a = Some (0, A, Some (zlen pl, reply_code)).
Proof.
  intros HA. set (p := reply_frame A pl ++ rest). pose proof (zlen_nonneg pl) as Hp. rewrite zlen_reply_frame.
  set (k := foldl Z.lxor 0 (reply_body A pl)). set (head := [3 + zlen (reply_body A pl); FLAG_1; FLAG_2; reply_code; zlen pl]).
  assert (p = head ++ pl ++ sizeof_Address :: be_bytes 2 A ++ k :: rest) as Ep.
  { unfold p, reply_frame, head. fold k. unfold reply_body at 2. by rewrite <- !app_assoc. }
  assert (forall i, 0 <= i -> p !! Z.to_nat (5 + i) = (pl ++ sizeof_Address :: be_bytes 2 A ++ k :: rest) !! Z.to_nat i) as Hbehind.
  { intros i Hi. rewrite Ep. apply (lookup_behind head). done. }
  assert (forall i, 0 <= i -> p !! Z.to_nat (5 + zlen pl + i) = (sizeof_Address :: be_bytes 2 A ++ k :: rest) !! Z.to_nat i) as Haddr.
  { intros i Hi. rewrite <- Z.add_assoc, Hbehind by lia. apply lookup_behind. done. }
  unfold DeMux. change sizeof_Head with 5. destruct (Z.leb_spec (9 + zlen pl) 5); [lia|].
  assert (p !! 1%nat = Some FLAG_1 /\ p !! 2%nat = Some FLAG_2 /\ p !! 3%nat = Some reply_code /\ p !! 4%nat = Some (zlen pl)) as (-> & -> & Hcode & Hlen) by (by rewrite Ep).
  cbn [mbind option_bind]. change (Z.to_nat offset_control_code) with 3%nat. rewrite Hcode. cbn [mbind option_bind]. rewrite Hlen. cbn [mbind option_bind].
  change (negb (FLAG_1 =? FLAG_1) || negb (FLAG_2 =? FLAG_2)) with false. change (dst_addr_switch reply_code) with false. cbn [negb].
  unfold DeMux_src. change (src_addr_switch reply_code) with true. cbn [negb]. change sizeof_AddressInfo with 1.
  destruct (Z.leb_spec (9 + zlen pl) (5 + zlen pl + 1)); [lia|].
  replace (5 + zlen pl) with (5 + zlen pl + 0) at 1 by lia. rewrite Haddr by lia. change (_ !! Z.to_nat 0) with (Some sizeof_Address). cbn [mbind option_bind].
  change (sizeof_Address =? 0) with false. cbn match. change sizeof_Address with 2.
  destruct (Z.leb_spec (9 + zlen pl) (5 + zlen pl + 1 + 2)); [lia|].
  assert (memread p (5 + zlen pl + 1) 2 = Some (be_bytes 2 A)) as ->.
  { assert (p = (head ++ pl ++ [sizeof_Address]) ++ be_bytes 2 A ++ k :: rest) as -> by (rewrite Ep, <- !app_assoc; done).
    pose proof (memread_mid (head ++ pl ++ [sizeof_Address]) (be_bytes 2 A) (k :: rest)) as E. rewrite zlen_be_bytes, !zlen_app in E.
    change (zlen head) with 5 in E. change (zlen [sizeof_Address]) with 1 in E. rewrite Z.add_assoc in E. exact E. }
  cbn [mbind option_bind]. rewrite be_value_bytes, Z.mod_small by done. unfold DeMux_check. change sizeof_CheckCode with 1.
  replace (5 + zlen pl + 1 + 2) with (8 + zlen pl) by lia. destruct (Z.ltb_spec (9 + zlen pl) (8 + zlen pl + 1)); [lia|].
  change offset_control_code with 3. change (Z.to_nat 3) with 3%nat.
  assert (drop 3 p = reply_body A pl ++ k :: rest) as Ed by (unfold p, reply_frame; rewrite <- !app_assoc; done).
  assert (p !! Z.to_nat (8 + zlen pl) = Some k) as Ek.
  { replace (8 + zlen pl) with (5 + zlen pl + 3) by lia. rewrite Haddr by lia. done. }
  rewrite GenCheckCode_some; [|rewrite Ed, zlen_app, zlen_reply_body, zlen_cons; pose proof (zlen_nonneg rest); lia].
  cbn [mbind option_bind]. rewrite Ek. cbn [mbind option_bind]. rewrite Ed. replace (8 + zlen pl - 3) with (zlen (reply_body A pl)) by (rewrite zlen_reply_body; lia).
  pose proof (slice_mid [] (reply_body A pl) (k :: rest)) as Es. cbn [app] in Es. change (zlen []) with 0 in Es. rewrite Es.
  fold k. rewrite Z.eqb_refl. cbn [negb]. rewrite Hcode. cbn [mbind option_bind]. rewrite Hlen. reflexivity.
Qed.

(** *** Strings of a device *)

Definition text (s : list Z) : Prop := s <> [] /\ Forall (fun c => c <> 0) s.

Lemma cstring_text s rest : Forall (fun c => c <> 0) s -> cstring (s ++ 0 :: rest) = Some s.
Proof. induction 1 as [|c s Hc _ IH]; [done|]. cbn [cstring app]. rewrite IH. by destruct (Z.eqb_spec c 0). Qed.

Lemma parse_info_word s rest date_len fields : Forall (fun c => c <> 0) s -> forall i n, 1 <= n -> i + zlen s < date_len ->
  parse_info (s ++ 0 :: rest) date_len i n fields = parse_info rest date_len (i + zlen s + 1) 0 fields.
Proof.
  induction 1 as [|c s Hc _ IH]; intros i n Hn Hi; cbn [parse_info app].
  - change (zlen (@nil Z)) with 0 in *. destruct (Z.leb_spec date_len i); [lia|]. cbn [Z.eqb]. destruct (Z.eqb_spec n 0); [lia|]. f_equal. lia.
  - rewrite zlen_cons in Hi. pose proof (zlen_nonneg s). destruct (Z.leb_spec date_len i); [lia|].
    destruct (Z.eqb_spec c 0); [done|]. destruct (Z.eqb_spec (n + 1) 1); [lia|]. rewrite IH by lia. f_equal. rewrite zlen_cons. lia.
Qed.

Lemma parse_info_field s rest date_len fields i : text s -> i + zlen s < date_len -> zlen fields < 2 ->
  parse_info (s ++ 0 :: rest) date_len i 0 fields = parse_info rest date_len (i + zlen s + 1) 0 (fields ++ [i]).
Proof.
  intros [Hne Hs] Hi Hf. destruct Hs as [|c s Hc Hs]; [done|]. cbn [parse_info app]. rewrite zlen_cons in Hi. pose proof (zlen_nonneg s).
  destruct (Z.leb_spec date_len i); [lia|]. destruct (Z.eqb_spec c 0); [done|]. cbn [Z.add Z.eqb Pos.eqb].
  destruct (Z.eqb_spec (zlen (fields ++ [i])) 3) as [E|_]; [rewrite zlen_app in E; change (zlen [i]) with 1 in E; lia|].
  rewrite parse_info_word by (done || lia). f_equal. rewrite zlen_cons. lia.
Qed.

Lemma parserDeviceInfo_strings v p d rest n : text v -> text p -> text d -> zlen v + zlen p + 2 < n ->
  parserDeviceInfo (v ++ 0 :: p ++ 0 :: d ++ 0 :: rest) n = Some (Some (v, p, d)).
Proof.
  intros Hv Hp Hd Hn. unfold parserDeviceInfo. pose proof (zlen_nonneg v). pose proof (zlen_nonneg p).
  rewrite parse_info_field by (done || lia || (change (zlen (@nil Z)) with 0; lia)). cbn [app].
  rewrite parse_info_field by (done || lia || (change (zlen [0]) with 1; lia)). cbn [app].
  destruct Hd as [Hne Hd]. destruct Hd as [|c d Hc Hd]; [done|]. cbn [parse_info app].
  destruct (Z.leb_spec n (0 + zlen v + 1 + zlen p + 1)); [lia|]. destruct (Z.eqb_spec c 0); [done|]. cbn [Z.add Z.eqb Pos.eqb].
  change (0 + 1 =? 1) with true. cbn [app]. change (zlen [0; _; _] =? 3) with true. cbn [mbind option_bind].
  rewrite Z.add_0_l. change (Z.to_nat 0) with 0%nat. rewrite drop_0, cstring_text by apply Hv. cbn [mbind option_bind].
  assert (forall (a b : list Z), drop (Z.to_nat (zlen a + 1)) (a ++ 0 :: b) = b) as Hdrop.
  { intros a b. change (a ++ 0 :: b) with (a ++ [0] ++ b). rewrite app_assoc. unfold zlen.
    replace (Z.to_nat (Z.of_nat (length a) + 1)) with (length (a ++ [0])) by (rewrite length_app; simpl; lia). apply drop_app_length. }
  rewrite Hdrop, cstring_text by apply Hp. cbn [mbind option_bind].
  assert (drop (Z.to_nat (zlen v + 1 + zlen p + 1)) (v ++ 0 :: p ++ 0 :: c :: d ++ 0 :: rest) = c :: d ++ 0 :: rest) as ->.
  { replace (Z.to_nat (zlen v + 1 + zlen p + 1)) with (Z.to_nat (zlen v + 1) + Z.to_nat (zlen p + 1))%nat by lia. by rewrite <- drop_drop, !Hdrop. }
  change (c :: d ++ 0 :: rest) with ((c :: d) ++ 0 :: rest). rewrite cstring_text by (by constructor). reflexivity.
Qed.

Lemma nonempty_cons {A} (l : list A) : l <> [] -> exists a l', l = a :: l'.
Proof. destruct l as [|a l]; [done|]. intros _. by exists a, l. Qed.

(** ** A session of updater and device *)

Section session.
Context (envs : nat -> device_env) (g : Z) (junk : list Z) (a0 : Z) (A : Z) (answer : list Z -> list Z) (force : bool).
Hypothesis HA : 0 <= A < 2 ^ 16.

(** Every frame written is answered by one frame. *)
Fixpoint replies (fs : list (list Z)) (u : AimyUpdater) : option AimyUpdater :=
    match fs with
    | [] => Some u
    | f :: fs' => u ← on_read (RBytes (reply_frame A (answer (payload_of f)))) envs g junk a0 u; replies fs' u
    end.

(** The loop calls [on_write] while the channel is written to; the frames of the
      whole session. *)
Fixpoint session (fuel : nat) (u : AimyUpdater) : option (list (list Z) * AimyUpdater) :=
    match fuel with
    | O => None
    | S fuel' =>
        match workChannel u with
        | Some true =>
            '(fs, u) ← on_write [WDone; WDone] envs g u;
            u ← replies fs u;
            '(rest, u) ← session fuel' u;
            Some (fs ++ rest, u)
        | _ => Some ([], u)
        end
    end.

Definition update_frame (d : list Z) : list Z := frame d (Some A) (control_code g true).
Definition normal_frame (d : list Z) : list Z := frame d None (control_code g false).

(** Nothing waits in the list; the parts of the state that replies use. *)
Definition calm (x : UpdateFileContext) (c : option UpdateSliceContext) (u : AimyUpdater) : Prop :=
    updateDeviceAdress u = A /\ zlen (readCache u) = 4096 /\ context u = x /\ sliceContext u = c /\ sendDataList u = [] /\
    force_update u = force /\ exists w, workChannel u = Some w.

(** A frame is to be written. *)
Definition pending (d : list Z) (x : UpdateFileContext) (c : option UpdateSliceContext) (u : AimyUpdater) : Prop :=
    calm x c u /\ workChannel u = Some true /\ lastUpdateFrame u = Some (update_frame d) /\ resendTimer u = false.

(** It was written and waits for its reply. *)
Definition sent (x : UpdateFileContext) (c : option UpdateSliceContext) (u : AimyUpdater) : Prop :=
    calm x c u /\ workChannel u = Some false /\ (exists f, lastUpdateFrame u = Some f) /\ resendTimer u = true.

(** The frame that ends the update is to be written. *)
Definition quitting (status : Z) (u : AimyUpdater) : Prop :=
    updateDeviceAdress u = A /\ zlen (readCache u) = 4096 /\ sendDataList u = [normal_frame [UPGRADE_QUIT; status]] /\
    workChannel u = Some true /\ (exists f, lastUpdateFrame u = Some f) /\ resendTimer u = true /\ quitStatus u = status.

Lemma calm_notify x c s u : calm x c u -> calm x c (notify s u).
Proof. done. Qed.

Lemma calm_cache x c cache n u : calm x c u -> zlen cache = 4096 -> calm x c (set_cache cache n u).
Proof. unfold calm. cbn. tauto. Qed.

Lemma send_update d x c u : calm x c u -> zlen d <= 53 -> exists u', sendUpdateData g d u = Some u' /\ pending d x c u'.
Proof.
    intros (HAu & Hz & Hx & Hc & Hs & Hf & w & Hw) Hd. unfold sendUpdateData. rewrite mux_frame_eq by lia. cbn [mbind option_bind].
    unfold set_writing. cbn. rewrite Hw. cbn. eexists. split; [done|]. unfold pending, calm. cbn. rewrite HAu. split_and!; try done. by exists true.
Qed.

Lemma write_pending d x c u : pending d x c u ->
    exists u', on_write [WDone; WDone] envs g u = Some ([update_frame d], u') /\ sent x c u' /\ dataLen u' = dataLen u.
Proof.
    intros ((HAu & Hz & Hx & Hc & Hs & Hf & w & Hw) & Hw' & Hl & Ht). unfold on_write. rewrite Hs, Hl, Ht, Hw'. cbn [mbind option_bind].
    unfold write_idle. cbn. rewrite Hs. cbn. unfold set_writing. cbn. rewrite Hw'. cbn. eexists. split; [done|]. split; [|done].
    unfold sent, calm. cbn. split_and!; try done; [by exists false|]. eexists. exact Hl.
Qed.

(** The cache holds the reply and is handed to [handleFrame]. *)
Lemma read_reply pl u w : workChannel u = Some w -> zlen (readCache u) = 4096 -> dataLen u = 0 -> zlen pl <= 100 ->
    exists more cache n, zlen cache = 4096 /\
      on_read (RBytes (reply_frame A pl)) envs g junk a0 u =
        (u2 ← handleFrame g junk (pl ++ more) (zlen pl) A 1 (set_cache cache n u); Some (set_cache (readCache u2) 0 u2)).
Proof.
    intros Hw Hz Hn Hpl. pose proof (zlen_reply_frame A pl) as Hf. pose proof (zlen_nonneg pl). unfold on_read. rewrite Hw. cbn [mbind option_bind].
    rewrite Hn. destruct (split_len (zlen (reply_frame A pl)) (readCache u)) as (b & rest & Eb & Hb); [lia|].
    rewrite Eb. pose proof (memcpy_at_mid [] b rest (reply_frame A pl) (eq_sym Hb)) as Em. cbn [app] in Em. change (zlen []) with 0 in Em.
    rewrite Em. cbn [mbind option_bind].
    exists (sizeof_Address :: be_bytes 2 A ++ [foldl Z.lxor 0 (reply_body A pl)] ++ rest), (reply_frame A pl ++ rest), (zlen (reply_frame A pl)).
    split; [rewrite Eb, zlen_app in Hz; rewrite zlen_app; lia|].
    unfold handleDataCache. rewrite Z.add_0_l. cbn [dataLen set_cache]. cbn [cache_loop]. cbn [dataLen set_cache readCache].
    destruct (Z.ltb_spec 0 (zlen (reply_frame A pl))); [|lia]. change (Z.to_nat 0) with 0%nat. rewrite drop_0, Z.sub_0_r, wrap_small by lia.
    rewrite DeMux_reply by done. cbn [mbind option_bind]. change (Z.b2z (control_frame_switch reply_code)) with 1.
    assert (drop (Z.to_nat sizeof_Head) (reply_frame A pl ++ rest) = pl ++ sizeof_Address :: be_bytes 2 A ++ [foldl Z.lxor 0 (reply_body A pl)] ++ rest) as ->; [|done].
    unfold reply_frame. set (k := foldl _ _ _). unfold reply_body at 2. change (Z.to_nat sizeof_Head) with 5%nat. cbn [app drop]. by rewrite <- !app_assoc.
Qed.

Lemma payload_update d : payload_of (update_frame d) = d.
Proof. apply payload_of_frame. Qed.

(** One exchange, and what follows it. *)
Lemma round fuel d x c u (Post : list (list Z) -> AimyUpdater -> Prop) :
    pending d x c u -> dataLen u = 0 -> zlen (answer d) <= 100 ->
    (forall more u1, sent x c u1 -> exists u2, handleFrame g junk (answer d ++ more) (zlen (answer d)) A 1 u1 = Some u2 /\
       zlen (readCache u2) = 4096 /\
       exists fs u3, session fuel (set_cache (readCache u2) 0 u2) = Some (fs, u3) /\ Post fs u3) ->
    exists fs u3, session (S fuel) u = Some (update_frame d :: fs, u3) /\ Post fs u3.
Proof.
    intros Hp Hn Ha Hnext. cbn [session]. assert (workChannel u = Some true) as -> by apply Hp.
    destruct (write_pending d x c u Hp) as (u' & -> & Hs & Hn'). cbn [mbind option_bind replies].
    rewrite payload_update.
    destruct (read_reply (answer d) u' false) as (more & cache & n & Hc & E); [apply Hs|apply Hs|by rewrite Hn'|done|].
    destruct (Hnext more (set_cache cache n u')) as (u2 & E2 & Hz2 & fs & u3 & Es & HP).
    { destruct Hs as (Hcalm & Hrest). split; [by apply calm_cache|exact Hrest]. }
    rewrite E, E2. cbn [mbind option_bind]. rewrite Es. cbn [mbind option_bind app]. by exists fs, u3.
Qed.

(** The same for a next frame that is pending. *)
Lemma round_next fuel d x c u d' x' c' (Post : list (list Z) -> AimyUpdater -> Prop) :
    pending d x c u -> dataLen u = 0 -> zlen (answer d) <= 100 ->
    (forall more u1, sent x c u1 -> exists u2, handleFrame g junk (answer d ++ more) (zlen (answer d)) A 1 u1 = Some u2 /\ pending d' x' c' u2) ->
    (forall u', pending d' x' c' u' -> dataLen u' = 0 -> exists fs u3, session fuel u' = Some (fs, u3) /\ Post fs u3) ->
    exists fs u3, session (S fuel) u = Some (update_frame d :: fs, u3) /\ Post fs u3.
Proof.
    intros Hp Hn Ha Hh Hnext. apply (round fuel d x c u Post Hp Hn Ha). intros more u1 Hs. destruct (Hh more u1 Hs) as (u2 & E & Hp2).
    exists u2. split; [done|]. assert (zlen (readCache u2) = 4096) as Hz by apply Hp2. split; [done|].
    apply Hnext; [|done]. destruct Hp2 as [Hc Hr]. split; [by apply calm_cache|exact Hr].
Qed.

(** *** The three requests in front of the upload *)

Lemma handle_enter st k ch more x c u : sent x (Some c) u -> st = FULL \/ st = RESUME \/ st = REPORT ->
    exists u', handleFrame g junk ([UPGRADE_ENTER; st; k; ch] ++ more) 4 A 1 u = Some u' /\
      pending [UPGRADE_QUERY_SOFTWARE] x (Some (set_page_size (k * 1024) c)) u'.
Proof.
    intros Hs Hst. pose proof Hs as ((HAu & Hz & Hx & Hc & Hl & Hf & w & Hw) & _). unfold handleFrame. cbn [Z.eqb lookup list_lookup app mbind option_bind drop].
    change (u32 (4 - 1)) with 3. cbn -[sendUpdateData requestQuerySoftwareVersion handleReplyEnterUpgradeWorkMode].
    unfold handleReplyEnterUpgradeWorkMode. rewrite HAu, Z.eqb_refl. cbn [negb Z.ltb Z.compare Pos.compare Pos.compare_cont lookup list_lookup mbind option_bind].
    rewrite Hc. cbn [mbind option_bind].
    assert ((st =? FULL) || (st =? RESUME) || (st =? REPORT) = true) as -> by (by destruct Hst as [-> | [-> | ->]]).
    destruct (send_update [UPGRADE_QUERY_SOFTWARE] x (Some (set_page_size (k * 1024) c)) (set_slice (Some (set_page_size (k * 1024) c)) u)) as (u' & E & Hp);
      [unfold calm; cbn; split_and!; try done; by exists w|done|].
    unfold requestQuerySoftwareVersion. rewrite E. cbn [mbind option_bind]. eexists. split; [done|exact Hp].
Qed.

Lemma handle_software va pa da v p d more x c u r : sent x c u -> length va = 4%nat -> length pa = 4%nat -> length da = 4%nat ->
    text v -> text p -> text d -> zlen v + zlen p + zlen d <= 80 ->
    checkFile force junk v p d (be_value (rev va)) (be_value (rev da)) (be_value (rev da)) x = Some r -> 0 < r ->
    let pl := UPGRADE_QUERY_SOFTWARE :: va ++ pa ++ da ++ v ++ 0 :: p ++ 0 :: d ++ [0] in
    exists u', handleFrame g junk (pl ++ more) (zlen pl) A 1 u = Some u' /\ pending [UPGRADE_QUERY_SEGMENT] x c u'.
Proof.
    intros Hs Hva Hpa Hda Hv Hp Hd Hlen Hcheck Hr pl. pose proof Hs as ((HAu & Hz & Hx & Hc & Hl & Hf & w & Hw) & _).
    assert (zlen va = 4 /\ zlen pa = 4 /\ zlen da = 4) as (Zva & Zpa & Zda) by (unfold zlen; rewrite Hva, Hpa, Hda; done).
    assert (zlen pl = 16 + zlen v + zlen p + zlen d) as Hpl.
    { unfold pl. repeat (rewrite zlen_cons || rewrite zlen_app). change (zlen (@nil Z)) with 0. lia. }
    pose proof (zlen_nonneg v). pose proof (zlen_nonneg p). pose proof (zlen_nonneg d).
    unfold handleFrame. cbn [Z.eqb]. unfold pl at 1. cbn [lookup list_lookup app mbind option_bind]. change (drop 1 (pl ++ more)) with ((va ++ pa ++ da ++ v ++ 0 :: p ++ 0 :: d ++ [0]) ++ more). rewrite Hpl, wrap_small by lia.
    cbn -[handleReplyQuerySoftwareVersion Z.add Z.sub Z.mul]. unfold handleReplyQuerySoftwareVersion. rewrite HAu, Z.eqb_refl. cbn [negb].
    destruct (Z.ltb_spec (16 + zlen v + zlen p + zlen d - 1) 12); [lia|].
    repeat (progress (rewrite <- ?app_assoc; cbn [app])).
    set (info := v ++ _). set (mem := va ++ _).
    assert (drop 12 mem = info) as ->.
    { unfold mem. rewrite !app_assoc. apply drop_app_length'. rewrite !length_app. lia. }
    unfold info at 1. rewrite parserDeviceInfo_strings by (done || lia). cbn [mbind option_bind]. unfold le32.
    pose proof (memread_mid [] va (pa ++ da ++ info)) as E1. pose proof (memread_mid (va ++ pa) da info) as E2.
    rewrite <- app_assoc, zlen_app, Zva, Zpa, Zda in E2. cbn [app] in E1. change (zlen []) with 0 in E1. rewrite Zva in E1. fold mem in E1, E2.
    rewrite E1. cbn [mbind option_bind]. change (4 + 4) with 8 in E2. rewrite E2. cbn [mbind option_bind]. rewrite Hf, Hx, Hcheck. cbn [mbind option_bind].
    destruct (Z.eqb_spec r 0); [lia|]. destruct (Z.ltb_spec r 0); [lia|]. unfold requestQuerySegmentInfomation.
    destruct (send_update [UPGRADE_QUERY_SEGMENT] x c u) as (u' & E & Hp'); [unfold calm; split_and!; try done; by exists w|done|].
    rewrite E. cbn [mbind option_bind]. eexists. split; [done|exact Hp'].
Qed.

(** *** Uploading *)

(** The payload that carries a slice. *)
Definition content_of (s : Z * Z * list Z) : list Z :=
    let '(t, q, d) := s in t :: be_bytes 2 (Z.land q 0xffff) ++ be_bytes 2 (default 0 (crc_rc16 d (zlen d))) ++ d.

Lemma segment_content_eq t q d n : 0 <= n <= 48 -> n <= zlen d ->
    segment_content t q d n = Some (content_of (t, q, slice 0 n d)).
Proof.
    intros Hn Hd. unfold segment_content. rewrite memread_Some by lia. cbn [mbind option_bind].
    assert (zlen (slice 0 n d) = n) as Hz by (rewrite zlen_slice; lia).
    destruct (split_len n (replicate 64 0)) as (b & rest & Eb & Hb); [rewrite zlen_replicate; lia|].
    rewrite Eb. pose proof (memcpy_at_mid [] b rest (slice 0 n d)) as Em. rewrite Hz in Em. specialize (Em (eq_sym Hb)). cbn [app] in Em. change (zlen []) with 0 in Em.
    rewrite Em. cbn [mbind option_bind]. rewrite crc_rc16_spec by (rewrite ?zlen_app, ?Hz; pose proof (zlen_nonneg rest); lia).
    cbn [mbind option_bind]. pose proof (slice_mid [] (slice 0 n d) rest) as Es. rewrite Hz in Es. cbn [app] in Es. change (zlen []) with 0 in Es. rewrite Es.
    unfold content_of. rewrite crc_rc16_spec by lia. by rewrite slice_all.
Qed.

Lemma zlen_content t q d : zlen (content_of (t, q, d)) = 5 + zlen d.
Proof. unfold content_of. rewrite zlen_cons, !zlen_app, !zlen_be_bytes. lia. Qed.

(** A filled context is sent. *)
Lemma upload_slice x c u : calm x (Some c) u -> 0 <= data_len c <= 48 -> data_len c <= zlen (data c) ->
    exists u', requestUploadSegment g u = Some u' /\ pending (content_of (slice_type c, seq c, take (Z.to_nat (data_len c)) (data c))) x (Some c) u'.
Proof.
    intros Hcalm Hn Hd. unfold requestUploadSegment. assert (sliceContext u = Some c) as -> by apply Hcalm. cbn [mbind option_bind].
    rewrite segment_content_eq by done. cbn [mbind option_bind]. unfold slice. rewrite drop_0.
    apply send_update; [done|]. rewrite zlen_content. unfold zlen. rewrite length_take. unfold zlen in Hd. lia.
Qed.

Lemma quit_update msg x c u : sent x c u -> exists u', requestQuitUpgradeWorkMode g msg u = Some u' /\ quitting (quitStatus u) u' /\ quitMessage u' = msg.
Proof.
    intros ((HAu & Hz & Hx & Hc & Hs & Hf & w & Hw) & Hw' & Hl & Ht). unfold requestQuitUpgradeWorkMode, sendNormalData.
    rewrite mux_frame_eq by done. cbn [mbind option_bind]. unfold set_writing. cbn. rewrite Hw, Hs. cbn. eexists. split; [done|].
    split; [|done]. unfold quitting. cbn. by split_and!.
Qed.

Lemma sent_progress x c u : sent x c u -> sent x c (updateProgress u) /\ quitStatus (updateProgress u) = quitStatus u /\ readCache (updateProgress u) = readCache u.
Proof. intros H. unfold updateProgress. destruct (_ && _); by split_and!. Qed.

Lemma sent_slice x c c' u : sent x c u -> sent x (Some c') (set_slice (Some c') u).
Proof. intros ((HAu & Hz & Hx & Hc & Hs & Hf & w & Hw) & Hw' & Hl & Ht). unfold sent, calm. cbn. split_and!; try done. by exists w. Qed.

Lemma sent_calm x c u : sent x c u -> calm x c u.
Proof. by intros [H _]. Qed.

Lemma send_next k c0 c' x c u : sent x c u -> (forall c'' u', calm x (Some c') u' -> calm x (Some c') (k c'' u')) ->
    fillUpdateSliceContext x c0 = Some (true, c') -> 0 < data_len c' <= 48 -> data_len c' <= zlen (data c') ->
    exists u', send_next_slice g k c0 u = Some u' /\
      pending (content_of (slice_type c', seq c', take (Z.to_nat (data_len c')) (data c'))) x (Some c') u'.
Proof.
    intros Hs Hk E Hn Hd. unfold send_next_slice. assert (context u = x) as -> by apply Hs. rewrite E. cbn [mbind option_bind negb orb].
    destruct (Z.eqb_spec (data_len c') 0); [lia|]. apply upload_slice; [|lia|done]. apply Hk, sent_calm. by eapply sent_slice.
Qed.

(** The reply that acknowledges a slice. *)
Definition ack (t q : Z) : list Z := t :: 0 :: be_bytes 2 (Z.land q 0xffff).

Lemma land_ffff q : 0 <= Z.land q 0xffff < 2 ^ 16.
Proof. change 0xffff with (Z.ones 16). rewrite Z.land_ones by lia. apply Z.mod_pos_bound. lia. Qed.

Lemma ack_number t q more : memread (0 :: be_bytes 2 (Z.land q 0xffff) ++ more) 1 2 = Some (be_bytes 2 (Z.land q 0xffff)) /\
    be_value (be_bytes 2 (Z.land q 0xffff)) = Z.land q 0xffff /\ zlen (ack t q) = 4.
Proof.
    split; [|split].
    - apply (memread_mid [0] (be_bytes 2 (Z.land q 0xffff)) more).
    - rewrite be_value_bytes. apply Z.mod_small, land_ffff.
    - unfold ack. by rewrite !zlen_cons, zlen_be_bytes.
Qed.

Lemma handle_vector_ack x c more u : sent x (Some c) u ->
    handleFrame g junk (ack UPDATE_VECTOR_SLICE (seq c) ++ more) (zlen (ack UPDATE_VECTOR_SLICE (seq c))) A 1 u =
      (u ← send_next_slice g (fun _ u => u) (set_seq (slice_type c) (seq c - 1) c) (updateProgress u);
       Some (notify (NotifyUpdate UPGRADE_INT_VECTOR_TABLE) u)).
Proof.
    change UPDATE_VECTOR_SLICE with UPGRADE_INT_VECTOR_TABLE. intros ((HAu & Hz & Hx & Hc & Hs & Hf & w & Hw) & _). destruct (ack_number UPGRADE_INT_VECTOR_TABLE (seq c) more) as (E1 & E2 & ->).
    unfold handleFrame, ack. cbn [Z.eqb app lookup list_lookup mbind option_bind]. change (drop 1 (?a :: ?l)) with l. change (u32 (4 - 1)) with 3.
    change (UPGRADE_INT_VECTOR_TABLE =? QUERY_DEVICE) with false. change (UPGRADE_INT_VECTOR_TABLE =? QUERY_UPID) with false.
    change (UPGRADE_INT_VECTOR_TABLE =? TRANSFER_ERROR) with false. change (UPGRADE_INT_VECTOR_TABLE =? QUERY_WORK_MODE) with false.
    change (UPGRADE_INT_VECTOR_TABLE =? UPGRADE_ENTER) with false. change (UPGRADE_INT_VECTOR_TABLE =? UPGRADE_QUERY_SOFTWARE) with false.
    change (UPGRADE_INT_VECTOR_TABLE =? UPGRADE_QUERY_SEGMENT) with false. change (UPGRADE_INT_VECTOR_TABLE =? UPGRADE_INT_VECTOR_TABLE) with true.
    cbn match. unfold handleReplyUploadVectorTable. rewrite HAu, Z.eqb_refl. cbn [negb]. unfold short_reply. change (3 <? 3) with false.
    cbn [lookup list_lookup mbind option_bind]. change ((0 =? MISSING) && (3 <? 5)) with false. cbn match. rewrite E1. cbn [mbind option_bind].
    rewrite Hc. cbn [mbind option_bind]. rewrite E2, Z.eqb_refl. cbn [negb]. change (0 =? 0) with true. reflexivity.
Qed.

Lemma handle_code_ack x c more u : sent x (Some c) u ->
    handleFrame g junk (ack UPDATE_CODE_SLICE (seq c) ++ more) (zlen (ack UPDATE_CODE_SLICE (seq c))) A 1 u =
      (u ← (if 0 <? seq c then send_next_slice g (fun _ u => u) (set_seq (slice_type c) (seq c - 1) c) (updateProgress u)
            else requestQuitUpgradeWorkMode g "success" (set_quit UPGRADE_SUCCESS (quitMessage (updateProgress u)) (updateProgress u)));
       Some (notify (NotifyUpdate UPGRADE_CODE_SEGMENT) u)).
Proof.
    change UPDATE_CODE_SLICE with UPGRADE_CODE_SEGMENT. intros ((HAu & Hz & Hx & Hc & Hs & Hf & w & Hw) & _). destruct (ack_number UPGRADE_CODE_SEGMENT (seq c) more) as (E1 & E2 & ->).
    unfold handleFrame, ack. cbn [Z.eqb app lookup list_lookup mbind option_bind]. change (drop 1 (?a :: ?l)) with l. change (u32 (4 - 1)) with 3.
    change (UPGRADE_CODE_SEGMENT =? QUERY_DEVICE) with false. change (UPGRADE_CODE_SEGMENT =? QUERY_UPID) with false.
    change (UPGRADE_CODE_SEGMENT =? TRANSFER_ERROR) with false. change (UPGRADE_CODE_SEGMENT =? QUERY_WORK_MODE) with false.
    change (UPGRADE_CODE_SEGMENT =? UPGRADE_ENTER) with false. change (UPGRADE_CODE_SEGMENT =? UPGRADE_QUERY_SOFTWARE) with false.
    change (UPGRADE_CODE_SEGMENT =? UPGRADE_QUERY_SEGMENT) with false. change (UPGRADE_CODE_SEGMENT =? UPGRADE_INT_VECTOR_TABLE) with false.
    change (UPGRADE_CODE_SEGMENT =? UPGRADE_CODE_SEGMENT) with true.
    cbn match. unfold handleReplyUploadCodeSegment. rewrite HAu, Z.eqb_refl. cbn [negb]. unfold short_reply. change (3 <? 3) with false.
    cbn [lookup list_lookup mbind option_bind]. change ((0 =? MISSING) && (3 <? 5)) with false. cbn match. rewrite E1. cbn [mbind option_bind].
    rewrite Hc. cbn [mbind option_bind]. rewrite E2, Z.eqb_refl. cbn [negb]. change (0 =? 0) with true. reflexivity.
Qed.

(** *** The end *)

Definition finished (u : AimyUpdater) : Prop :=
    quitStatus u = UPGRADE_SUCCESS /\ exists before, signals u = before ++ [NotifyQuit UPGRADE_SUCCESS "success"].

Lemma handle_quit more u : updateDeviceAdress u = A -> quitStatus u = UPGRADE_SUCCESS -> quitMessage u = "success"%string ->
    handleFrame g junk ([UPGRADE_QUIT; 0] ++ more) (zlen [UPGRADE_QUIT; 0]) A 1 u = Some (notify (NotifyQuit UPGRADE_SUCCESS "success") (set_timer false u)).
Proof.
    intros HAu Hq Hm. unfold handleFrame. cbn [Z.eqb app lookup list_lookup mbind option_bind]. change (drop 1 (?a :: ?l)) with l.
    change (u32 (zlen [UPGRADE_QUIT; 0] - 1)) with 1. cbn -[notify]. unfold handleReplyQuitUpgradeWorkMode. rewrite HAu, Z.eqb_refl. cbn. by rewrite Hq, Hm.
Qed.

Lemma quit_round fuel u : answer [UPGRADE_QUIT; UPGRADE_SUCCESS] = [UPGRADE_QUIT; 0] ->
    quitting UPGRADE_SUCCESS u -> quitMessage u = "success"%string -> dataLen u = 0 ->
    exists u3, session (S (S fuel)) u = Some ([normal_frame [UPGRADE_QUIT; UPGRADE_SUCCESS]], u3) /\ finished u3.
Proof.
    intros Ha (HAu & Hz & Hs & Hw & (f & Hl) & Ht & Hq) Hm Hn. cbn [session]. rewrite Hw.
    assert (on_write [WDone; WDone] envs g u = Some ([normal_frame [UPGRADE_QUIT; UPGRADE_SUCCESS]], set_channel (Some false) (set_sendDataList [] u))) as ->.
    { unfold on_write. rewrite Hs. cbn [write_list]. rewrite Hs, Hw. cbn [mbind option_bind write_list sendDataList set_sendDataList].
      unfold write_idle. cbn [resendTimer sendDataList set_sendDataList]. rewrite Ht. cbn [orb andb]. unfold set_writing. cbn [workChannel set_sendDataList]. by rewrite Hw. }
    cbn [mbind option_bind replies]. assert (payload_of (normal_frame [UPGRADE_QUIT; UPGRADE_SUCCESS]) = [UPGRADE_QUIT; UPGRADE_SUCCESS]) as -> by apply payload_of_frame.
    rewrite Ha.
    set (u1 := set_channel (Some false) (set_sendDataList [] u)).
    destruct (read_reply [UPGRADE_QUIT; 0] u1 false) as (more & cache & n & Hc & E); [done|done|done|done|].
    rewrite E, handle_quit by done. cbn [mbind option_bind session]. cbn [workChannel set_cache notify set_timer u1 set_channel].
    cbn [mbind option_bind app].
    eexists. split; [reflexivity|]. unfold finished. cbn. split; [done|]. by eexists.
Qed.

(** *** Slice by slice *)

Section upload.
Context (x : UpdateFileContext) (sv sc : list Z) (lv lc : list (Z * Z)).
Hypotheses (Hv : vecData x = Some sv) (Hc : codeData x = Some sc)
      (Hlv : Forall (in_segment 48 sv) lv) (Hlc : Forall (in_segment 48 sc) lc)
      (Hnv : zlen lv < 2 ^ 31) (Hnc : zlen lc < 2 ^ 31) (Hcode : lc <> [])
      (Hack : forall t q k d, t = UPDATE_VECTOR_SLICE \/ t = UPDATE_CODE_SLICE ->
         answer (t :: be_bytes 2 (Z.land q 0xffff) ++ k ++ d) = ack t q)
      (Hquit : answer [UPGRADE_QUIT; UPGRADE_SUCCESS] = [UPGRADE_QUIT; 0]).

Definition at_c := at_slice 48 lv lc.

Lemma max48 : 0 < 48 < 2 ^ 31.
Proof. done. Qed.

(** A context that was filled with the slice [(o, n)] of the type [t]. *)
Definition filled (t : Z) (seg : list Z) (o n q : Z) (c : UpdateSliceContext) : Prop :=
      at_c t q c /\ 0 < data_len c <= 48 /\ take (Z.to_nat (data_len c)) (data c) = padded (slice o n seg).

Lemma fill_code c o n done todo : lc = done ++ (o, n) :: todo -> at_c UPDATE_CODE_SLICE (zlen todo) c ->
      exists c', fillUpdateSliceContext x c = Some (true, c') /\ filled UPDATE_CODE_SLICE sc o n (zlen todo) c'.
Proof.
      intros El Hat. destruct (fill_slice x 48 sv sc lv lc Hv Hc max48 eq_refl Hlv Hlc Hnv Hnc UPDATE_CODE_SLICE lc sc c o n done todo)
        as (c' & E & Hat' & Hl & Hr & Hd); [by right|done|done|]. exists c'. split; [done|]. split; [done|]. split; [lia|done].
Qed.

Lemma fill_vector c o n done todo : lv = done ++ (o, n) :: todo -> at_c UPDATE_VECTOR_SLICE (zlen todo) c ->
      exists c', fillUpdateSliceContext x c = Some (true, c') /\ filled UPDATE_VECTOR_SLICE sv o n (zlen todo) c'.
Proof.
      intros El Hat. destruct (fill_slice x 48 sv sc lv lc Hv Hc max48 eq_refl Hlv Hlc Hnv Hnc UPDATE_VECTOR_SLICE lv sv c o n done todo)
        as (c' & E & Hat' & Hl & Hr & Hd); [by left|done|done|]. exists c'. split; [done|]. split; [done|]. split; [lia|done].
Qed.

Lemma filled_sends k t seg o n q c0 c' cold u : sent x cold u -> (forall c'' u', calm x (Some c') u' -> calm x (Some c') (k c'' u')) ->
      fillUpdateSliceContext x c0 = Some (true, c') -> filled t seg o n q c' ->
      exists u', send_next_slice g k c0 u = Some u' /\ pending (content_of (t, q, padded (slice o n seg))) x (Some c') u'.
Proof.
      intros Hs Hk E (Hat & Hn & Hd). destruct Hat as (_ & Hz & _ & _ & Ht & Hq).
      destruct (send_next k c0 c' x cold u Hs Hk E) as (u' & E' & Hp); [done|lia|]. exists u'. split; [done|]. by rewrite <- Hd, <- Ht, <- Hq.
Qed.

Lemma at_next t q c : at_c t q c -> at_c t (q - 1) (set_seq (slice_type c) (seq c - 1) c).
Proof. intros (? & ? & ? & ? & ? & Hq). unfold at_c, at_slice. cbn. rewrite Hq. by split_and!. Qed.

Lemma ack_content t q d : t = UPDATE_VECTOR_SLICE \/ t = UPDATE_CODE_SLICE -> answer (content_of (t, q, d)) = ack t q.
Proof. intros. by apply Hack. Qed.

Lemma zlen_ack t q : zlen (ack t q) <= 100.
Proof. unfold ack. rewrite !zlen_cons, zlen_be_bytes. done. Qed.

Definition frames_of (l : list (Z * Z * list Z)) : list (list Z) :=
      map (fun s => update_frame (content_of s)) l ++ [normal_frame [UPGRADE_QUIT; UPGRADE_SUCCESS]].

Definition ends_with (fuel : nat) (l : list (Z * Z * list Z)) (u : AimyUpdater) : Prop :=
      exists u3, session fuel u = Some (frames_of l, u3) /\ finished u3.

(** A round in front of an end. *)
Lemma ends_round fuel t q d l c u d' c' : pending (content_of (t, q, d)) x c u -> dataLen u = 0 -> t = UPDATE_VECTOR_SLICE \/ t = UPDATE_CODE_SLICE ->
      (forall more u1, sent x c u1 -> exists u2, handleFrame g junk (ack t q ++ more) (zlen (ack t q)) A 1 u1 = Some u2 /\ pending d' x c' u2) ->
      (forall u', pending d' x c' u' -> dataLen u' = 0 -> ends_with fuel l u') -> ends_with (S fuel) ((t, q, d) :: l) u.
Proof.
      intros Hp Hn Ht Hh Hnext.
      destruct (round_next fuel (content_of (t, q, d)) x c u d' x c' (fun fs u3 => fs = frames_of l /\ finished u3)) as (fs & u3 & E & -> & Hf).
      - done.
      - done.
      - rewrite ack_content by done. apply zlen_ack.
      - intros more u1 Hs. rewrite ack_content by done. by apply Hh.
      - intros u' Hp' Hn'. destruct (Hnext u' Hp' Hn') as (u3 & E & Hf). by eexists _, _.
      - exists u3. split; [exact E|done].
Qed.

Lemma code_phase todo : forall o n done c u, lc = done ++ (o, n) :: todo -> filled UPDATE_CODE_SLICE sc o n (zlen todo) c ->
      pending (content_of (UPDATE_CODE_SLICE, zlen todo, padded (slice o n sc))) x (Some c) u -> dataLen u = 0 ->
      ends_with (length todo + 3) (emits UPDATE_CODE_SLICE sc ((o, n) :: todo)) u.
Proof.
      induction todo as [|[o' n'] todo IH]; intros o n done c u El Hfill Hp Hn; cbn [emits length Nat.add].
      - destruct (round (S (S O)) (content_of (UPDATE_CODE_SLICE, zlen (@nil (Z * Z)), padded (slice o n sc))) x (Some c) u
          (fun fs u3 => fs = [normal_frame [UPGRADE_QUIT; UPGRADE_SUCCESS]] /\ finished u3)) as (fs & u3 & E & -> & Hf).
        + done.
        + done.
        + rewrite ack_content by (by right). apply zlen_ack.
        + rewrite ack_content by (by right). intros more u1 Hs. destruct Hfill as ((_ & _ & _ & _ & _ & Hq) & _).
          rewrite <- Hq, (handle_code_ack x c more u1 Hs). assert (0 <? seq c = false) as -> by (by rewrite Hq).
          destruct (sent_progress _ _ _ Hs) as (Hs' & _ & _).
          destruct (quit_update "success" x (Some c) (set_quit UPGRADE_SUCCESS (quitMessage (updateProgress u1)) (updateProgress u1))) as (u2 & E & Hqq & Hm); [exact Hs'|].
          rewrite E. cbn [mbind option_bind]. eexists. split; [done|]. split; [apply Hqq|].
          destruct (quit_round 0 (set_cache (readCache (notify (NotifyUpdate UPGRADE_CODE_SEGMENT) u2)) 0 (notify (NotifyUpdate UPGRADE_CODE_SEGMENT) u2)) Hquit) as (u3 & E3 & Hf3);
            [exact Hqq|exact Hm|done|]. eexists _, _. split; [exact E3|]. split; [done|exact Hf3].
        + exists u3. split; [exact E|done].
      - assert (lc = (done ++ [(o, n)]) ++ (o', n') :: todo) as El' by (by rewrite <- app_assoc).
        pose proof Hfill as (Hat & _). pose proof (at_next _ _ _ Hat) as Hat'. rewrite zlen_cons in Hat'. replace (1 + zlen todo - 1) with (zlen todo) in Hat' by lia.
        destruct (fill_code _ o' n' _ todo El' Hat') as (c' & Ef & Hfill').
        apply (ends_round (length todo + 3) _ _ _ _ (Some c) u (content_of (UPDATE_CODE_SLICE, zlen todo, padded (slice o' n' sc))) (Some c')); [done|done|by right| |].
        + intros more u1 Hs. destruct Hat as (_ & _ & _ & _ & _ & Hq). rewrite <- Hq, (handle_code_ack x c more u1 Hs).
          assert (0 <? seq c = true) as -> by (apply Z.ltb_lt; rewrite Hq, zlen_cons; pose proof (zlen_nonneg todo); lia).
          destruct (sent_progress _ _ _ Hs) as (Hs' & _ & _).
          destruct (filled_sends (fun _ u => u) _ _ _ _ _ _ _ _ _ Hs' (fun _ _ H => H) Ef Hfill') as (u2 & E & Hp2).
          rewrite E. cbn [mbind option_bind]. eexists. split; [done|exact Hp2].
        + intros u' Hp' Hn'. by apply (IH o' n' (done ++ [(o, n)]) c' u').
Qed.

Lemma vector_phase todo : forall o n done c u, lv = done ++ (o, n) :: todo -> filled UPDATE_VECTOR_SLICE sv o n (zlen todo) c ->
      pending (content_of (UPDATE_VECTOR_SLICE, zlen todo, padded (slice o n sv))) x (Some c) u -> dataLen u = 0 ->
      ends_with (length todo + length lc + 3) (emits UPDATE_VECTOR_SLICE sv ((o, n) :: todo) ++ emits UPDATE_CODE_SLICE sc lc) u.
Proof.
      induction todo as [|[o' n'] todo IH]; intros o n done c u El Hfill Hp Hn; cbn [emits length Nat.add app].
      - pose proof Hfill as (Hat & _). pose proof (at_next _ _ _ Hat) as Hat'. change (zlen [] - 1) with (-1) in Hat'.
        destruct (nonempty_cons lc Hcode) as ([o' n'] & todo & Elc).
        assert (exists c', fillUpdateSliceContext x (set_seq (slice_type c) (seq c - 1) c) = Some (true, c') /\ filled UPDATE_CODE_SLICE sc o' n' (zlen todo) c') as (c' & Ef & Hfill').
        { unfold at_c in Hat'. rewrite (fill_switch x 48 lv lc max48 Hnc _ Hat').
          apply (fill_code _ o' n' [] todo Elc). destruct Hat' as (? & ? & ? & ? & ? & ?). unfold at_c, at_slice. cbn. split_and!; try done.
          rewrite Elc, zlen_cons. lia. }
        replace (length lc + 3)%nat with (S (length todo + 3)) by (rewrite Elc; simpl; lia).
        apply (ends_round (length todo + 3) _ _ _ _ (Some c) u (content_of (UPDATE_CODE_SLICE, zlen todo, padded (slice o' n' sc))) (Some c')); [done|done|by left| |].
        + intros more u1 Hs. destruct Hat as (_ & _ & _ & _ & _ & Hq). rewrite <- Hq, (handle_vector_ack x c more u1 Hs).
          destruct (sent_progress _ _ _ Hs) as (Hs' & _ & _).
          destruct (filled_sends (fun _ u => u) _ _ _ _ _ _ _ _ _ Hs' (fun _ _ H => H) Ef Hfill') as (u2 & E & Hp2).
          rewrite E. cbn [mbind option_bind]. eexists. split; [done|exact Hp2].
        + intros u' Hp' Hn'. rewrite Elc. by apply (code_phase todo o' n' [] c' u').
      - assert (lv = (done ++ [(o, n)]) ++ (o', n') :: todo) as El' by (by rewrite <- app_assoc).
        pose proof Hfill as (Hat & _). pose proof (at_next _ _ _ Hat) as Hat'. rewrite zlen_cons in Hat'. replace (1 + zlen todo - 1) with (zlen todo) in Hat' by lia.
        destruct (fill_vector _ o' n' _ todo El' Hat') as (c' & Ef & Hfill').
        apply (ends_round (length todo + length lc + 3) _ _ _ _ (Some c) u (content_of (UPDATE_VECTOR_SLICE, zlen todo, padded (slice o' n' sv))) (Some c')); [done|done|by left| |].
        + intros more u1 Hs. destruct Hat as (_ & _ & _ & _ & _ & Hq). rewrite <- Hq, (handle_vector_ack x c more u1 Hs).
          destruct (sent_progress _ _ _ Hs) as (Hs' & _ & _).
          destruct (filled_sends (fun _ u => u) _ _ _ _ _ _ _ _ _ Hs' (fun _ _ H => H) Ef Hfill') as (u2 & E & Hp2).
          rewrite E. cbn [mbind option_bind]. eexists. split; [done|exact Hp2].
        + intros u' Hp' Hn'. by apply (IH o' n' (done ++ [(o, n)]) c' u').
Qed.
End upload.
End session.

(** ** A whole update *)

Lemma handle_segments g junk A force x0 x c c' u vs ve cs ce t seg o n q more : 0 <= A < 2 ^ 16 -> sent A force x0 (Some c) u ->
  0 <= vs < 2 ^ 32 -> 0 <= ve < 2 ^ 32 -> 0 <= cs < 2 ^ 32 -> 0 <= ce < 2 ^ 32 ->
  loadProgramData vs ve cs ce x0 = Some (true, x) -> fillUpdateSliceContext x c = Some (true, c') ->
  slice_type c' = t -> seq c' = q -> zlen (data c') = 49 -> 0 < data_len c' <= 48 -> take (Z.to_nat (data_len c')) (data c') = padded (slice o n seg) ->
  let pl := UPGRADE_QUERY_SEGMENT :: be_bytes 4 vs ++ be_bytes 4 cs ++ be_bytes 4 ve ++ be_bytes 4 ce in
  exists u', handleFrame g junk (pl ++ more) (zlen pl) A 1 u = Some u' /\ pending g A force (content_of (t, q, padded (slice o n seg))) x (Some c') u'.
Proof.
  intros HA Hs Hvs Hve Hcs Hce Hload Hfill Ht Hq Hz Hn Hd pl. pose proof Hs as ((HAu & Hzc & Hx & Hc & Hl & Hf & w & Hw) & Hw' & Hlast & Htimer).
  assert (zlen pl = 17) as Hpl by (unfold pl; rewrite zlen_cons, !zlen_app, !zlen_be_bytes; done).
  unfold handleFrame. cbn [Z.eqb]. rewrite Hpl. change (u32 (17 - 1)) with 16. unfold pl at 1. cbn [lookup list_lookup app mbind option_bind].
  change (drop 1 (pl ++ more)) with ((be_bytes 4 vs ++ be_bytes 4 cs ++ be_bytes 4 ve ++ be_bytes 4 ce) ++ more).
  rewrite <- !app_assoc. set (mem := be_bytes 4 vs ++ _).
  change (UPGRADE_QUERY_SEGMENT =? QUERY_DEVICE) with false. change (UPGRADE_QUERY_SEGMENT =? QUERY_UPID) with false.
  change (UPGRADE_QUERY_SEGMENT =? TRANSFER_ERROR) with false. change (UPGRADE_QUERY_SEGMENT =? QUERY_WORK_MODE) with false.
  change (UPGRADE_QUERY_SEGMENT =? UPGRADE_ENTER) with false. change (UPGRADE_QUERY_SEGMENT =? UPGRADE_QUERY_SOFTWARE) with false.
  change (UPGRADE_QUERY_SEGMENT =? UPGRADE_QUERY_SEGMENT) with true. cbn match.
  unfold handleReplyQuerySegmentInfomation. rewrite HAu, Z.eqb_refl. cbn [negb]. change (16 <? 16) with false. cbn match. unfold be32.
  assert (forall a b rest v, mem = a ++ be_bytes 4 v ++ rest -> zlen a = b -> memread mem b 4 = Some (be_bytes 4 v)) as Hread.
  { intros a b rest v -> <-. pose proof (memread_mid a (be_bytes 4 v) rest) as E. by rewrite zlen_be_bytes in E. }
  rewrite (Hread [] 0 _ vs eq_refl eq_refl). cbn [mbind option_bind].
  rewrite (Hread (be_bytes 4 vs) 4 _ cs eq_refl) by apply zlen_be_bytes. cbn [mbind option_bind].
  rewrite (Hread (be_bytes 4 vs ++ be_bytes 4 cs) 8 (be_bytes 4 ce ++ more) ve) by (rewrite ?zlen_app, ?zlen_be_bytes; try done; unfold mem; by rewrite <- !app_assoc).
  cbn [mbind option_bind].
  rewrite (Hread (be_bytes 4 vs ++ be_bytes 4 cs ++ be_bytes 4 ve) 12 more ce) by (rewrite ?zlen_app, ?zlen_be_bytes; try done; unfold mem; by rewrite <- !app_assoc).
  cbn [mbind option_bind]. rewrite !be_value_bytes. change (2 ^ (8 * Z.of_nat 4)) with (2 ^ 32). rewrite !Z.mod_small by done.
  rewrite Hx, Hload. cbn [mbind option_bind negb]. cbn [sliceContext set_context]. rewrite Hc. cbn [mbind option_bind].
  assert (sent A force x (Some c) (set_context x u)) as Hs' by (unfold sent, calm; cbn; split_and!; try done; by exists w).
  destruct (send_next g A force (fun c => set_packets (zlen (code_map c) + zlen (vector_map c)) 0) c c' x (Some c) (set_context x u)) as (u' & E & Hp);
    [exact Hs'|done|exact Hfill|done|lia|].
  rewrite E. cbn [mbind option_bind]. eexists. split; [done|]. rewrite <- Hd, <- Ht, <- Hq. exact Hp.
Qed.

(** The first slice, and that the session from it on sends all of them. *)
Lemma first_slice envs g junk a0 A answer force x sv sc lv lc c1 c0 : 0 <= A < 2 ^ 16 -> vecData x = Some sv -> codeData x = Some sc ->
  fillUpdateSliceContext x c0 = fillUpdateSliceContext x c1 ->
  (if 0 <? vecDataLen x then at_slice 48 lv lc UPDATE_VECTOR_SLICE (zlen lv - 1) c1 /\ lv <> []
   else at_slice 48 lv lc UPDATE_CODE_SLICE (zlen lc - 1) c1 /\ lv = []) ->
  Forall (in_segment 48 sv) lv -> Forall (in_segment 48 sc) lc -> zlen lv < 2 ^ 31 -> zlen lc < 2 ^ 31 -> lc <> [] ->
  (forall t q k d, t = UPDATE_VECTOR_SLICE \/ t = UPDATE_CODE_SLICE -> answer (t :: be_bytes 2 (Z.land q 0xffff) ++ k ++ d) = ack t q) ->
  answer [UPGRADE_QUIT; UPGRADE_SUCCESS] = [UPGRADE_QUIT; 0] ->
  exists c' t seg o n q, filled lv lc t seg o n q c' /\ fillUpdateSliceContext x c0 = Some (true, c') /\
    forall u, pending g A force (content_of (t, q, padded (slice o n seg))) x (Some c') u -> dataLen u = 0 ->
      ends_with envs g junk a0 A answer (length lv + length lc + 2) (emits UPDATE_VECTOR_SLICE sv lv ++ emits UPDATE_CODE_SLICE sc lc) u.
Proof.
  intros HA Hsv Hsc Ef Hat Fv Fc Hnv Hnc Hne Hack Hquit. destruct (0 <? vecDataLen x); destruct Hat as [Hat Hlv0].
  - destruct (nonempty_cons lv Hlv0) as ([o n] & todo & Elv). rewrite Ef.
    rewrite Elv, zlen_cons in Hat. replace (1 + zlen todo - 1) with (zlen todo) in Hat by lia. rewrite <- Elv in Hat.
    destruct (fill_vector x sv sc lv lc Hsv Hsc Fv Fc Hnv Hnc c1 o n [] todo Elv Hat) as (c' & E & Hfill).
    exists c', UPDATE_VECTOR_SLICE, sv, o, n, (zlen todo). split; [done|]. split; [done|]. intros u Hpu Hnu. rewrite Elv at 2.
    replace (length lv + length lc + 2)%nat with (length todo + length lc + 3)%nat by (rewrite Elv; simpl; lia).
    by apply (vector_phase envs g junk a0 A answer force HA x sv sc lv lc Hsv Hsc Fv Fc Hnv Hnc Hne Hack Hquit todo o n [] c' u).
  - destruct (nonempty_cons lc Hne) as ([o n] & todo & Elc). rewrite Ef.
    rewrite Elc, zlen_cons in Hat. replace (1 + zlen todo - 1) with (zlen todo) in Hat by lia. rewrite <- Elc in Hat.
    destruct (fill_code x sv sc lv lc Hsv Hsc Fv Fc Hnv Hnc c1 o n [] todo Elc Hat) as (c' & E & Hfill).
    exists c', UPDATE_CODE_SLICE, sc, o, n, (zlen todo). split; [done|]. split; [done|]. intros u Hpu Hnu.
    replace (length lv + length lc + 2)%nat with (length todo + 3)%nat by (rewrite Elc, Hlv0; simpl; lia).
    assert (emits UPDATE_VECTOR_SLICE sv lv ++ emits UPDATE_CODE_SLICE sc lc = emits UPDATE_CODE_SLICE sc ((o, n) :: todo)) as -> by (by rewrite Hlv0, Elc).
    by apply (code_phase envs g junk a0 A answer force HA x sv sc lv lc Hsv Hsc Fv Fc Hnv Hnc Hack Hquit todo o n [] c' u).
Qed.

(** C33. A whole update.  With a device that answers every request as the protocol says
    (ready with a page size that is not 0, strings of an older version, address ranges
    that the file can be loaded for, an acknowledgement of every packet with its number),
    the updater sends, from [startUpdate] on, exactly: the three queries, every slice of
    the vector table, every slice of the code (each once and in order, numbered down,
    with its CRC), and the end of the upgrade with success, which it then reports. *)
Theorem update_completes envs g junk a0 A answer force x0 x c0 u0 st k ch va pa da v p d vs cs ve ce sv sc r :
  0 <= A < 2 ^ 16 -> calm A force x0 c0 u0 -> dataLen u0 = 0 ->
  answer [UPGRADE_ENTER] = [UPGRADE_ENTER; st; k; ch] -> st = FULL \/ st = RESUME \/ st = REPORT -> 0 < k < 256 ->
  answer [UPGRADE_QUERY_SOFTWARE] = UPGRADE_QUERY_SOFTWARE :: va ++ pa ++ da ++ v ++ 0 :: p ++ 0 :: d ++ [0] ->
  length va = 4%nat -> length pa = 4%nat -> length da = 4%nat -> text v -> text p -> text d -> zlen v + zlen p + zlen d <= 80 ->
  checkFile force junk v p d (be_value (rev va)) (be_value (rev da)) (be_value (rev da)) x0 = Some r -> 0 < r ->
  answer [UPGRADE_QUERY_SEGMENT] = UPGRADE_QUERY_SEGMENT :: be_bytes 4 vs ++ be_bytes 4 cs ++ be_bytes 4 ve ++ be_bytes 4 ce ->
  0 <= vs < 2 ^ 32 -> 0 <= ve < 2 ^ 32 -> 0 <= cs < 2 ^ 32 -> 0 <= ce < 2 ^ 32 ->
  loadProgramData vs ve cs ce x0 = Some (true, x) -> vecData x = Some sv -> codeData x = Some sc ->
  0 <= vecDataLen x <= zlen sv -> 0 < codeDataLen x <= zlen sc -> vecDataLen x < 2 ^ 31 -> codeDataLen x < 2 ^ 31 ->
  (forall t q k d, t = UPDATE_VECTOR_SLICE \/ t = UPDATE_CODE_SLICE ->
     answer (t :: be_bytes 2 (Z.land q 0xffff) ++ k ++ d) = ack t q) ->
  answer [UPGRADE_QUIT; UPGRADE_SUCCESS] = [UPGRADE_QUIT; 0] ->
  exists lv lc u1 u3, slices_ok 48 (k * 1024) 0 0 (vecDataLen x) lv /\ slices_ok 48 (k * 1024) (vecDataLen x) 0 (codeDataLen x) lc /\
    startUpdate g u0 = Some u1 /\
    session envs g junk a0 A answer (length lv + length lc + 5) u1 =
      Some (map (update_frame g A) ([[UPGRADE_ENTER]; [UPGRADE_QUERY_SOFTWARE]; [UPGRADE_QUERY_SEGMENT]] ++
                 map content_of (emits UPDATE_VECTOR_SLICE sv lv ++ emits UPDATE_CODE_SLICE sc lc)) ++
            [normal_frame g [UPGRADE_QUIT; UPGRADE_SUCCESS]], u3) /\
    finished u3.
Proof.
  intros HA Hcalm Hn He Hst Hk Hs Hva Hpa Hda Hv Hp Hd Hlen Hcheck Hr Hg Hvs Hve Hcs Hce Hload Hsv Hsc Hvl Hcl Hv31 Hc31 Hack Hquit.
  destruct (fresh_at x 48 (k * 1024) sv sc) as (lv & lc & c1 & Hlv & Hlc & Ef & Hat & Fv & Fc & Hnv & Hnc & Hne); [lia..|done|lia|].
  specialize (Hne ltac:(lia)). destruct (send_update g A force [UPGRADE_ENTER] x0 (Some (new_UpdateSliceContext 48)) (set_slice (Some (new_UpdateSliceContext 48)) u0)) as (u1 & E1 & Hp1).
  { destruct Hcalm as (H1 & H2 & H3 & H4 & H5 & H6 & w & H7). unfold calm. cbn. split_and!; try done. by exists w. }
  { done. }
  assert (startUpdate g u0 = Some u1) as Estart by exact E1.
  assert (dataLen u1 = 0) as Hn1.
  { unfold sendUpdateData in E1. rewrite mux_frame_eq in E1 by done. cbn [mbind option_bind] in E1. unfold set_writing in E1.
    destruct (workChannel _); [|done]. cbn in E1. by injection E1 as <-. }
  exists lv, lc, u1. set (l := emits UPDATE_VECTOR_SLICE sv lv ++ emits UPDATE_CODE_SLICE sc lc).
  set (Post := fun fs u3 => fs = frames_of g A l /\ finished u3).
  assert (exists fs u3, session envs g junk a0 A answer (S (S (S (length lv + length lc + 2)))) u1 = Some (update_frame g A [UPGRADE_ENTER] :: fs, u3) /\
    exists fs2, fs = update_frame g A [UPGRADE_QUERY_SOFTWARE] :: update_frame g A [UPGRADE_QUERY_SEGMENT] :: fs2 /\ Post fs2 u3) as (fs & u3 & Es & fs2 & -> & -> & Hf).
  2: { exists u3. split; [done|]. split; [done|]. split; [done|]. split; [|done].
       replace (length lv + length lc + 5)%nat with (S (S (S (length lv + length lc + 2)))) by lia. rewrite Es. unfold frames_of. cbn [map app].
       by rewrite map_map. }
  apply (round_next envs g junk a0 A answer force HA _ [UPGRADE_ENTER] x0 (Some (new_UpdateSliceContext 48)) u1 [UPGRADE_QUERY_SOFTWARE] x0 (Some (fresh 48 (k * 1024)))
    (fun fs u3 => exists fs2, fs = update_frame g A [UPGRADE_QUERY_SOFTWARE] :: update_frame g A [UPGRADE_QUERY_SEGMENT] :: fs2 /\ Post fs2 u3)); [done|done|by rewrite He| |].
  { rewrite He. intros more u Hsent. by apply (handle_enter g junk A force st k ch more x0). }
  intros u2 Hp2 Hn2.
  destruct (round_next envs g junk a0 A answer force HA (S (length lv + length lc + 2)) [UPGRADE_QUERY_SOFTWARE] x0 (Some (fresh 48 (k * 1024))) u2 [UPGRADE_QUERY_SEGMENT] x0 (Some (fresh 48 (k * 1024)))
    (fun fs u3 => exists fs2, fs = update_frame g A [UPGRADE_QUERY_SEGMENT] :: fs2 /\ Post fs2 u3)) as (fs & u3 & E3 & fs2 & -> & HP).
  { done. } { done. }
  { rewrite Hs. repeat (rewrite zlen_cons || rewrite zlen_app). unfold zlen in *. rewrite Hva, Hpa, Hda. simpl. lia. }
  { rewrite Hs. intros more u Hsent. by eapply (handle_software g junk A force va pa da v p d more x0). }
  2: { eexists _, _. split; [exact E3|]. by exists fs2. }
  clear u2 Hp2 Hn2. intros u2 Hp2 Hn2.
  destruct (first_slice envs g junk a0 A answer force x sv sc lv lc c1 (fresh 48 (k * 1024))) as (c' & t & seg & o & n & q & Hfill & Efill & Hend); [done..|].
  destruct Hfill as ((_ & Hz & _ & _ & Ht & Hq) & Hdl & Hdata).
  destruct (round_next envs g junk a0 A answer force HA (length lv + length lc + 2) [UPGRADE_QUERY_SEGMENT] x0 (Some (fresh 48 (k * 1024))) u2
    (content_of (t, q, padded (slice o n seg))) x (Some c') Post) as (fs & u3 & E4 & HP4); [done|done|by rewrite Hg| | |].
  { rewrite Hg. intros more u Hsent. by apply (handle_segments g junk A force x0 x (fresh 48 (k * 1024)) c' u vs ve cs ce t seg o n q more). }
  { intros u Hpu Hnu. destruct (Hend u Hpu Hnu) as (u3 & E & Hf). by exists (frames_of g A l), u3. }
  eexists _, _. split; [exact E4|]. by exists fs.
Qed.

(** A device with an older version; 64 bytes of vector table and 100 of code. *)
Definition test_answer (pl : list Z) : list Z :=
  match pl with
  | [] => []
  | c :: rest =>
      if c =? UPGRADE_ENTER then [UPGRADE_ENTER; FULL; 1; 7]
      else if c =? UPGRADE_QUERY_SOFTWARE then
        UPGRADE_QUERY_SOFTWARE :: repeat 0 4 ++ repeat 0 4 ++ repeat 0 4 ++ [48] ++ 0 :: [50] ++ 0 :: [51] ++ [0]
      else if c =? UPGRADE_QUERY_SEGMENT then
        UPGRADE_QUERY_SEGMENT :: be_bytes 4 0 ++ be_bytes 4 0x1000 ++ be_bytes 4 64 ++ be_bytes 4 0x1064
      else if c =? UPGRADE_QUIT then [UPGRADE_QUIT; 0]
      else c :: 0 :: take 2 rest
  end.

Definition test_context : UpdateFileContext := mkContext AIMY_BIN_FILE [97] (Some bin_file) (zlen bin_file) None 0 None 0.
Definition test_updater : AimyUpdater := set_channel (Some false) (set_context test_context (set_address 5 (new_AimyUpdater false))).
Definition no_device : device_env := mkEnv (fun _ _ => []) (fun _ => -1) (fun _ => -1).

Definition test_loaded : UpdateFileContext := default test_context (snd <$> loadProgramData 0 64 0x1000 0x1064 test_context).

Lemma update_completes_witness : exists u1 n fs u3, startUpdate 0 test_updater = Some u1 /\
  session (fun _ => no_device) 0 (repeat 0 128) 0 5 test_answer n u1 = Some (fs, u3) /\ finished u3 /\
  firstn 3 fs = map (update_frame 0 5) [[UPGRADE_ENTER]; [UPGRADE_QUERY_SOFTWARE]; [UPGRADE_QUERY_SEGMENT]].
Proof.
  destruct (update_completes (fun _ => no_device) 0 (repeat 0 128) 0 5 test_answer false test_context test_loaded None test_updater FULL 1 7
    (repeat 0 4) (repeat 0 4) (repeat 0 4) [48] [50] [51] 0 0x1000 64 0x1064 (default [] (vecData test_loaded)) (default [] (codeData test_loaded)) 1)
    as (lv & lc & u1 & u3 & _ & _ & Hs & Hses & Hf);
    [split; [discriminate|reflexivity]|unfold calm; split_and!; try reflexivity; by exists false|reflexivity|reflexivity|by left|split; reflexivity|
     reflexivity|reflexivity|reflexivity|reflexivity|split; [discriminate|]; repeat constructor; discriminate|split; [discriminate|]; repeat constructor; discriminate|
     split; [discriminate|]; repeat constructor; discriminate|discriminate|vm_compute; reflexivity|reflexivity|vm_compute; reflexivity|
     split; [discriminate|reflexivity]|split; [discriminate|reflexivity]|split; [discriminate|reflexivity]|split; [discriminate|reflexivity]|
     vm_compute; reflexivity|vm_compute; reflexivity|vm_compute; reflexivity|vm_compute; split; discriminate|vm_compute; split; [reflexivity|discriminate]|
     vm_compute; reflexivity|vm_compute; reflexivity|by intros t q k d [-> | ->]|reflexivity|].
  exists u1, (length lv + length lc + 5)%nat. eexists _, u3. split; [exact Hs|]. split; [exact Hses|]. split; [exact Hf|]. reflexivity.
Defined.

(** The numbers and lengths of all the frames of that session. *)
Example update_run : (u ← startUpdate 0 test_updater; '(fs, u) ← session (fun _ => no_device) 0 (repeat 0 128) 0 5 test_answer 20 u;
    Some (map (fun f => (take 3 (payload_of f), zlen f)) fs, last (signals u)))
  = Some ([([0xE0], 10); ([0xE1], 10); ([0xE2], 10); ([0xE3; 0; 1], 62); ([0xE3; 0; 0], 30);
           ([0xE6; 0; 2], 62); ([0xE6; 0; 1], 62); ([0xE6; 0; 0], 18); ([0xE8; 0], 8)], Some (NotifyQuit UPGRADE_SUCCESS "success")).
Proof. vm_compute. reflexivity. Qed.

(** ** Noise *)

Section noise.
Context (envs : nat -> device_env) (g : Z) (junk : list Z) (a0 : Z).

Fixpoint reads (bs : list (list Z)) (u : AimyUpdater) : option AimyUpdater :=
    match bs with
    | [] => Some u
    | b :: bs' => u ← on_read (RBytes b) envs g junk a0 u; reads bs' u
    end.

(** The cache starts with at least six bytes that are no head. *)
Definition noisy (u : AimyUpdater) : Prop :=
    (exists w, workChannel u = Some w) /\ zlen (readCache u) = 4096 /\ 6 <= dataLen u <= 4096 /\
    exists b1 b2, readCache u !! 1%nat = Some b1 /\ readCache u !! 2%nat = Some b2 /\ (b1 <> FLAG_1 \/ b2 <> FLAG_2).

Lemma noisy_read b u : noisy u ->
    (dataLen u + zlen b <= 4096 -> exists cache, on_read (RBytes b) envs g junk a0 u = Some (set_cache cache (dataLen u + zlen b) u) /\
       noisy (set_cache cache (dataLen u + zlen b) u)) /\
    (4096 < dataLen u + zlen b -> on_read (RBytes b) envs g junk a0 u = None).
Proof.
    intros ((w & Hw) & Hz & Hn & b1 & b2 & H1 & H2 & Hne). pose proof (zlen_nonneg b) as Hb. unfold on_read. rewrite Hw. cbn [mbind option_bind]. split; intros Hle.
    2: { destruct (memcpy_at (readCache u) (dataLen u) b) eqn:E; [|done]. unfold memcpy_at in E. case_bool_decide; [lia|done]. }
    destruct (memcpy_at (readCache u) (dataLen u) b) as [cache|] eqn:E; [|rewrite memcpy_at_Some in E by lia; done].
    cbn [mbind option_bind]. exists cache. pose proof (memcpy_at_len _ _ _ _ E) as Hc.
    assert (cache !! 1%nat = Some b1 /\ cache !! 2%nat = Some b2) as [G1 G2].
    { split; rewrite (memcpy_at_lookup _ _ _ _ _ E).
      - destruct (Z.leb_spec (dataLen u) (Z.of_nat 1)); [lia|]. done.
      - destruct (Z.leb_spec (dataLen u) (Z.of_nat 2)); [lia|]. done. }
    split.
    2: { split; [by exists w|]. cbn. split; [lia|]. split; [lia|]. by exists b1, b2. }
    unfold handleDataCache. cbn [dataLen set_cache cache_loop readCache]. destruct (Z.ltb_spec 0 (dataLen u + zlen b)); [|lia].
    change (Z.to_nat 0) with 0%nat. rewrite drop_0, Z.sub_0_r, wrap_small by lia. unfold DeMux. change sizeof_Head with 5.
    destruct (Z.leb_spec (dataLen u + zlen b) 5); [lia|]. rewrite G1, G2. cbn [mbind option_bind].
    assert (negb (b1 =? FLAG_1) || negb (b2 =? FLAG_2) = true) as ->.
    { destruct (Z.eqb_spec b1 FLAG_1), (Z.eqb_spec b2 FLAG_2); try done. by destruct Hne. }
    done.
Qed.

Definition total (bs : list (list Z)) : Z := zsum (map zlen bs).
End noise.

(** The updater does not recover from noise.  Once six bytes that do not start like a
    frame are in the cache (the rest of a broken frame, say), no frame that follows is
    ever handled: whatever arrives is appended and nothing else changes, until the
    cache of 4096 bytes is full; the next byte is written behind it. *)
Theorem noise_is_kept envs g junk a0 bs u : noisy u ->
  (dataLen u + total bs <= 4096 -> exists cache, reads envs g junk a0 bs u = Some (set_cache cache (dataLen u + total bs) u)) /\
  (4096 < dataLen u + total bs -> reads envs g junk a0 bs u = None).
Proof.
  revert u. induction bs as [|b bs IH]; intros u Hu; cbn [reads].
  - change (total []) with 0. rewrite Z.add_0_r. split; [|intros; destruct Hu as (_ & _ & ? & _); lia]. intros _. exists (readCache u). by destruct u.
  - change (total (b :: bs)) with (zlen b + total bs). pose proof (zlen_nonneg b).
    assert (0 <= total bs) by (clear; induction bs as [|b bs IH]; [done|]; change (total (b :: bs)) with (zlen b + total bs); pose proof (zlen_nonneg b); lia).
    destruct (noisy_read envs g junk a0 b u Hu) as [Hfit Hover]. destruct (Z.le_gt_cases (dataLen u + zlen b) 4096) as [Hle|Hgt].
    + destruct (Hfit Hle) as (cache & -> & Hu'). cbn [mbind option_bind]. destruct (IH _ Hu') as [H1 H2]. cbn [dataLen set_cache] in H1, H2. rewrite Z.add_assoc. split; [|done].
      intros Hle'. destruct (H1 Hle') as (cache' & ->). by exists cache'.
    + rewrite Hover by lia. split; [lia|done].
Qed.

(** A good reply behind one that lost its first byte. *)
Lemma noise_is_kept_witness :
  exists cache, reads (fun _ => no_device) 0 [] 0 [drop 1 (reply_frame 5 [UPGRADE_QUIT; 0]); reply_frame 5 [UPGRADE_QUIT; 0]] test_updater
    = Some (set_cache cache 21 test_updater).
Proof.
  assert (reads (fun _ => no_device) 0 [] 0 [drop 1 (reply_frame 5 [UPGRADE_QUIT; 0])] test_updater
    = Some (set_cache (drop 1 (reply_frame 5 [UPGRADE_QUIT; 0]) ++ replicate 4086 0) 10 test_updater)) as E by (vm_compute; reflexivity).
  destruct (noise_is_kept (fun _ => no_device) 0 [] 0 [reply_frame 5 [UPGRADE_QUIT; 0]]
    (set_cache (drop 1 (reply_frame 5 [UPGRADE_QUIT; 0]) ++ replicate 4086 0) 10 test_updater)) as [H _].
  { split; [by exists false|]. split; [vm_compute; reflexivity|]. split; [split; discriminate|]. exists 0xAA, 0x88. split; [reflexivity|]. split; [reflexivity|]. by left. }
  destruct H as (cache & H); [vm_compute; discriminate|]. exists cache.
  change (reads ?e ?g ?j ?a [?b1; ?b2] ?u) with (u' ← reads e g j a [b1] u; reads e g j a [b2] u'). 
  rewrite E. exact H.
Defined.

(** ** Frames fit a HID report *)

Definition small (f : list Z) : Prop := zlen f <= 62.

Definition slice_fits (c : UpdateSliceContext) : Prop :=
  max_slice_size c = 48 /\ data_len c <= 48 /\ Forall (fun s => snd s <= 48) (vector_map c) /\ Forall (fun s => snd s <= 48) (code_map c).

Definition fits (u : AimyUpdater) : Prop :=
  Forall small (sendDataList u) /\ (forall f, lastUpdateFrame u = Some f -> small f) /\ (forall c, sliceContext u = Some c -> slice_fits c).

(** Taking a computation apart that has returned. *)
Ltac unbind :=
  repeat match goal with
  | H : (_ ≫= _) = Some _ |- _ => apply bind_Some in H as (? & ? & H)
  | H : Some _ = Some _ |- _ => injection H as H
  | H : None = Some _ |- _ => discriminate H
  | p : _ * _ |- _ => destruct p
  | H : (_, _) = (_, _) |- _ => injection H as H
  | H : (if ?b then _ else _) = Some _ |- _ => let E := fresh "Eb" in destruct b eqn:E
  | H : match ?o with None => _ | Some _ => _ end = Some _ |- _ => let E := fresh "Eo" in destruct o eqn:E
  end; subst.

Lemma fits_send u u' : fits u -> sendDataList u' = sendDataList u -> lastUpdateFrame u' = lastUpdateFrame u -> sliceContext u' = sliceContext u -> fits u'.
Proof. unfold fits. by intros H -> -> ->. Qed.

Lemma set_writing_fits w u u' : fits u -> set_writing w u = Some u' -> fits u'.
Proof. unfold set_writing. intros H E. unbind. by eapply fits_send. Qed.

Lemma sendNormalData_fits g d u u' : zlen d <= 53 -> fits u -> sendNormalData g d u = Some u' -> fits u'.
Proof.
  intros Hd (H1 & H2 & H3) E. unfold sendNormalData in E. apply bind_Some in E as (f & Ef & E). eapply set_writing_fits; [|exact E].
  apply zlen_mux_frame in Ef; [|done]. split; [|done]. cbn. apply Forall_app. split; [done|]. by constructor.
Qed.

Lemma sendUpdateData_fits g d u u' : zlen d <= 53 -> fits u -> sendUpdateData g d u = Some u' -> fits u'.
Proof.
  intros Hd (H1 & H2 & H3) E. unfold sendUpdateData in E. apply bind_Some in E as (f & Ef & E). eapply set_writing_fits; [|exact E].
  apply zlen_mux_frame in Ef; [|done]. split; [done|]. split; [|done]. cbn. by intros ? [= <-].
Qed.

Lemma quit_fits g msg u u' : fits u -> requestQuitUpgradeWorkMode g msg u = Some u' -> fits u'.
Proof. intros H E. unfold requestQuitUpgradeWorkMode in E. eapply sendNormalData_fits; [| |exact E]; [done|exact H]. Qed.

Lemma segment_content_len t q d n l : n <= 48 -> segment_content t q d n = Some l -> zlen l <= 53.
Proof.
  unfold segment_content. intros Hn E. unbind. repeat (rewrite zlen_cons || rewrite zlen_app || rewrite zlen_be_bytes).
  assert (zlen (slice 0 n x0) <= 48); [|lia]. unfold slice, zlen. rewrite length_take. lia.
Qed.

Lemma upload_fits g u u' : fits u -> requestUploadSegment g u = Some u' -> fits u'.
Proof.
  intros H E. unfold requestUploadSegment in E. apply bind_Some in E as (c & Ec & E). apply bind_Some in E as (l & El & E).
  eapply sendUpdateData_fits; [|exact H|exact E]. eapply segment_content_len; [|exact El]. by apply H.
Qed.

Lemma slice_set_fits c u : fits u -> slice_fits c -> fits (set_slice (Some c) u).
Proof. intros (H1 & H2 & H3) Hc. split; [done|]. split; [done|]. cbn. by intros ? [= <-]. Qed.

Lemma fill_map_bound fuel len max page : forall i page_left l pl, fill_map fuel len max page i page_left = Some (l, pl) -> Forall (fun s => snd s <= max) l.
Proof.
  induction fuel as [|fuel IH]; intros i page_left l pl E; [done|]. cbn [fill_map] in E. destruct (i <? len); [|by injection E as <- <-].
  set (n1 := if max <? len - i then max else len - i) in *. set (n := if page_left <? n1 then page_left else n1) in *.
  apply bind_Some in E as ([rest pl'] & E1 & E). injection E as <- <-. constructor; [|by eapply IH]. cbn [snd].
  assert (n1 <= max) by (unfold n1; destruct (Z.ltb_spec max (len - i)); lia). unfold n. destruct (Z.ltb_spec page_left n1); lia.
Qed.

Lemma fill_fits x c ok c' : slice_fits c -> fillUpdateSliceContext x c = Some (ok, c') -> slice_fits c'.
Proof.
  intros (Hm & Hd & Hv & Hc) E. unfold fillUpdateSliceContext in E. rewrite Hm in E. cbn [Z.ltb Z.compare Pos.compare Pos.compare_cont] in E.
  apply bind_Some in E as (buf & _ & E). apply bind_Some in E as (c1 & E1 & E).
  assert (slice_fits c1) as H1.
  { destruct (seq (set_data buf 0 c) <? -1); [|injection E1 as <-; unfold slice_fits; cbn; split_and!; (done || lia)].
    unfold init_maps in E1. apply bind_Some in E1 as ([v pl] & Ev & E1). apply bind_Some in E1 as ([m pl'] & Em & E1).
    apply fill_map_bound in Ev, Em. cbn in Ev, Em. rewrite Hm in Ev, Em.
    destruct (vector_map (set_maps _ _ _)) eqn:?; injection E1 as <-; unfold slice_fits; cbn; (split; [done|]); (split; [lia|]); split; by apply Forall_app. }
  clear E1. set (c2 := if (seq c1 =? -1) && _ then _ else _) in E.
  assert (slice_fits c2) as (G1 & G2 & G3 & G4) by (unfold c2; destruct (_ && _); [destruct H1 as (? & ? & ? & ?); unfold slice_fits; cbn; by split_and!|done]).
  clearbody c2. destruct ((slice_type c2 =? UPDATE_CODE_SLICE) && (seq c2 <? 0)); [injection E as <- <-; by split_and!|]. unfold read_slice in E.
  destruct (_ <=? _); [injection E as <- <-; by split_and!|].
  apply bind_Some in E as ([o n] & En & E). apply bind_Some in E as (opt & _ & E). apply bind_Some in E as (d & Ed & E). apply bind_Some in E as (buf' & _ & E).
  injection E as <- <-. unfold slice_fits. cbn. fold (round4 n). split; [done|]. split; [|done].
  assert (n <= 48) as Hn. { destruct (slice_type c2 =? UPDATE_CODE_SLICE); [eapply Forall_lookup_1 in En; [|exact G4]|eapply Forall_lookup_1 in En; [|exact G3]]; done. }
  unfold memread in Ed. case_bool_decide as Hb; [|done]. destruct (Z.eq_dec n 0) as [->|]; [done|]. destruct (round4_bounds n 48) as (? & _); [lia|done|lia|]. lia.
Qed.

Lemma send_next_fits g k c u u' : fits u -> slice_fits c -> (forall c u, fits u -> fits (k c u)) -> send_next_slice g k c u = Some u' -> fits u'.
Proof.
  intros H Hc Hk E. unfold send_next_slice in E. apply bind_Some in E as ([ok c'] & Ef & E). apply fill_fits in Ef; [|done].
  destruct (_ || _); [eapply quit_fits; [|exact E]; by apply slice_set_fits|]. eapply upload_fits; [|exact E]. apply Hk. by apply slice_set_fits.
Qed.

Lemma progress_fits u : fits u -> fits (updateProgress u).
Proof. intros H. unfold updateProgress. by destruct (_ && _). Qed.

Lemma timeout_fits u u' : fits u -> on_send_timeout u = Some u' -> fits u'.
Proof. intros H E. unfold on_send_timeout in E. destruct (workChannel _); [eapply set_writing_fits; [|exact E]; exact H|injection E as <-; exact H]. Qed.

Lemma slice_step_fits t q c : slice_fits c -> slice_fits (set_seq t q c).
Proof. by intros (? & ? & ? & ?). Qed.

(** *** Every handler keeps it *)

Lemma enter_fits g mem n a u u' : fits u -> handleReplyEnterUpgradeWorkMode g mem n a u = Some u' -> fits u'.
Proof.
  intros H E. unfold handleReplyEnterUpgradeWorkMode in E. destruct (negb _); [by injection E as <-|]. destruct (_ <? _); [by eapply quit_fits|].
  apply bind_Some in E as (st & _ & E). apply bind_Some in E as (pg & _ & E). apply bind_Some in E as (c & Ec & E).
  assert (fits (set_slice (Some (set_page_size (pg * 1024) c)) u)) as H' by (apply slice_set_fits; [done|]; by apply H in Ec as (? & ? & ? & ?)).
  destruct (_ || _); [eapply sendUpdateData_fits; [| |exact E]; [done|exact H']|by eapply quit_fits].
Qed.

Lemma software_fits g junk mem n a u u' : fits u -> handleReplyQuerySoftwareVersion g junk mem n a u = Some u' -> fits u'.
Proof.
  intros H E. unfold handleReplyQuerySoftwareVersion in E. destruct (negb _); [by injection E as <-|]. destruct (_ <? _); [by eapply quit_fits|].
  apply bind_Some in E as (info & _ & E). destruct info as [[[v p] d]|]; [|by eapply quit_fits].
  apply bind_Some in E as (va & _ & E). apply bind_Some in E as (da & _ & E). apply bind_Some in E as (r & _ & E).
  destruct (_ =? _); [by eapply quit_fits|]. destruct (_ <? _); [eapply quit_fits; [|exact E]; exact H|]. eapply sendUpdateData_fits; [| |exact E]; [done|exact H].
Qed.

Lemma segments_fits g mem n a u u' : fits u -> handleReplyQuerySegmentInfomation g mem n a u = Some u' -> fits u'.
Proof.
  intros H E. unfold handleReplyQuerySegmentInfomation in E. destruct (negb _); [by injection E as <-|]. destruct (_ <? _); [by eapply quit_fits|].
  apply bind_Some in E as (vs & _ & E). apply bind_Some in E as (cs & _ & E). apply bind_Some in E as (ve & _ & E). apply bind_Some in E as (ce & _ & E).
  apply bind_Some in E as ([ok x] & _ & E). destruct (negb ok); [eapply quit_fits; [|exact E]; exact H|].
  apply bind_Some in E as (c & Ec & E). eapply send_next_fits; [| | |exact E]; [exact H|by apply H|]. intros c' v Hv. exact Hv.
Qed.

Lemma vector_fits g mem n a u u' : fits u -> handleReplyUploadVectorTable g mem n a u = Some u' -> fits u'.
Proof.
  intros H E. unfold handleReplyUploadVectorTable in E. destruct (negb _); [by injection E as <-|]. apply bind_Some in E as (sh & _ & E).
  destruct sh; [eapply quit_fits; [|exact E]; exact H|]. apply bind_Some in E as (no & _ & E). apply bind_Some in E as (c & Ec & E).
  destruct (negb _); [by injection E as <-|]. apply bind_Some in E as (st & _ & E).
  destruct (st =? 0); [eapply send_next_fits; [| | |exact E]; [by apply progress_fits|apply slice_step_fits; by apply H|done]|].
  destruct (_ =? _); [exact (timeout_fits _ _ H E)|by injection E as <-].
Qed.

Lemma code_fits g mem n a u u' : fits u -> handleReplyUploadCodeSegment g mem n a u = Some u' -> fits u'.
Proof.
  intros H E. unfold handleReplyUploadCodeSegment in E. destruct (negb _); [by injection E as <-|]. apply bind_Some in E as (sh & _ & E).
  destruct sh; [eapply quit_fits; [|exact E]; exact H|]. apply bind_Some in E as (no & _ & E). apply bind_Some in E as (c & Ec & E).
  destruct (negb _); [by injection E as <-|]. apply bind_Some in E as (st & _ & E). pose proof (progress_fits _ H) as Hp.
  destruct (st =? 0).
  - destruct (_ <? _); [eapply send_next_fits; [| | |exact E]; [exact Hp|apply slice_step_fits; by apply H|done]|]. eapply quit_fits; [|exact E]. exact Hp.
  - destruct (st =? MISSING); [exact (timeout_fits _ _ H E)|by injection E as <-].
Qed.

Lemma quit_reply_fits mem n a u u' : fits u -> handleReplyQuitUpgradeWorkMode mem n a u = Some u' -> fits u'.
Proof.
  intros H E. unfold handleReplyQuitUpgradeWorkMode in E. destruct (negb _); [by injection E as <-|]. apply bind_Some in E as (u1 & E1 & E). injection E as <-.
  destruct (_ <? _); [injection E1 as <-; exact H|]. apply bind_Some in E1 as (st & _ & E1). destruct (_ && _); injection E1 as <-; exact H.
Qed.

Lemma frame_fits g junk mem n a code u u' : fits u -> handleFrame g junk mem n a code u = Some u' -> fits u'.
Proof.
  intros H E. unfold handleFrame in E. destruct (code =? 0); [by injection E as <-|]. apply bind_Some in E as (cmd & _ & E).
  set (m := drop 1 mem) in E. set (n' := u32 (n - 1)) in E. cbv zeta in E.
  assert (forall h t msg, (forall v, h = Some v -> fits v) -> (v ← h; Some (notify (NotifyQuery t msg) v)) = Some u' -> fits u') as Hq.
  { intros h t msg Hh Ev. apply bind_Some in Ev as (v & Ev & Ev'). injection Ev' as <-. exact (Hh v Ev). }
  assert (forall h t, (forall v, h = Some v -> fits v) -> (v ← h; Some (notify (NotifyUpdate t) v)) = Some u' -> fits u') as Hup.
  { intros h t Hh Ev. apply bind_Some in Ev as (v & Ev & Ev'). injection Ev' as <-. exact (Hh v Ev). }
  destruct (cmd =? QUERY_DEVICE). { eapply Hq; [|exact E]. intros v Ev. unfold handleReplyQueryDevice in Ev. destruct (1 <? n'); [apply bind_Some in Ev as (? & _ & Ev)|]; by injection Ev as <-. }
  destruct (cmd =? QUERY_UPID). { eapply Hq; [|exact E]. intros v Ev. unfold handleReplyQueryUPID in Ev. destruct (1 <? n'); [apply bind_Some in Ev as (? & _ & Ev)|]; by injection Ev as <-. }
  destruct (cmd =? TRANSFER_ERROR). { eapply Hq; [|exact E]. intros v Ev. apply bind_Some in Ev as (? & _ & Ev). by injection Ev as <-. }
  destruct (cmd =? QUERY_WORK_MODE). { eapply Hq; [|exact E]. intros v Ev. unfold handleReplyQueryWorkMode in Ev. destruct (1 <? n'); [apply bind_Some in Ev as (? & _ & Ev)|]; by injection Ev as <-. }
  destruct (cmd =? UPGRADE_ENTER). { eapply Hup; [|exact E]. intros v Ev. by eapply enter_fits. }
  destruct (cmd =? UPGRADE_QUERY_SOFTWARE). { eapply Hup; [|exact E]. intros v Ev. by eapply software_fits. }
  destruct (cmd =? UPGRADE_QUERY_SEGMENT). { eapply Hup; [|exact E]. intros v Ev. by eapply segments_fits. }
  destruct (cmd =? UPGRADE_INT_VECTOR_TABLE). { eapply Hup; [|exact E]. intros v Ev. by eapply vector_fits. }
  destruct (cmd =? UPGRADE_CODE_SEGMENT). { eapply Hup; [|exact E]. intros v Ev. by eapply code_fits. }
  destruct (cmd =? UPGRADE_QUIT); [by eapply quit_reply_fits|by injection E as <-].
Qed.

Lemma cache_fits fuel g junk : forall a i u u', fits u -> cache_loop fuel g junk a i u = Some u' -> fits u'.
Proof.
  induction fuel as [|fuel IH]; intros a i u u' H E; [done|]. cbn [cache_loop] in E. destruct (_ <? _); [|injection E as <-; exact H].
  apply bind_Some in E as ([[err a'] fr] & _ & E). destruct fr as [[n code]|].
  - apply bind_Some in E as (u1 & E1 & E). injection E as <-. by eapply frame_fits in E1.
  - destruct (_ =? _); [by injection E as <-|by eapply IH].
Qed.

Lemma release_fits u : fits u -> fits (release u).
Proof. intros H. unfold release. destruct (workChannel u); [|done]. split; [by constructor|]. split; [done|apply H]. Qed.

Lemma init_fits env url u ok u' : fits u -> init env url u = (ok, u') -> fits u'.
Proof.
  intros H E. unfold init in E. destruct url as [|c url]; [by injection E as _ <-|]. pose proof (release_fits u H) as Hr.
  destruct (strstr _ _).
  - destruct (scan_url _) as [[vid pid]|]; [|injection E as _ <-; exact Hr]. destruct (hidFind _ _ _); [injection E as _ <-; exact Hr|].
    destruct (_ <? _); injection E as _ <-; exact Hr.
  - destruct (_ =? _); injection E as _ <-; exact Hr.
Qed.

Lemma start_fits g u u' : fits u -> startUpdate g u = Some u' -> fits u'.
Proof.
  intros H E. eapply sendUpdateData_fits; [| |exact E]; [done|]. apply slice_set_fits; [done|].
  split; [done|]. split; [done|]. split; constructor.
Qed.

Lemma reload_fits envs g u u' : fits u -> reload_upgrade_task envs g u = Some u' -> fits u'.
Proof.
  intros H E. unfold reload_upgrade_task in E. destruct (negb _); [|injection E as <-; by apply release_fits].
  revert u H E. generalize 10%nat as n. induction n as [|n IH]; intros u H E; cbn [reopen] in E.
  - injection E as <-. apply (release_fits (set_quit (quitStatus u) "connection disconnected" u)). exact H.
  - destruct (init (envs (S n)) (messageUrl u) u) as [ok u1] eqn:E1. apply init_fits in E1; [|done].
    destruct ok; [by eapply start_fits|by eapply IH].
Qed.

Lemma idle_fits u u' : fits u -> write_idle u = Some u' -> fits u'.
Proof. intros H E. unfold write_idle in E. destruct (_ && _); [by eapply set_writing_fits|by injection E as <-]. Qed.

Lemma reset_fits u : fits u -> fits (reset_by_peer u).
Proof. intros H. apply (release_fits (set_quit (quitStatus u) "connection reset by remote peer" u)). exact H. Qed.

Lemma write_list_fits envs g rs : forall u fs u', fits u -> write_list rs envs g u = Some (fs, u') -> Forall small fs /\ fits u'.
Proof.
  induction rs as [|r rs IH]; intros u fs u' H E; cbn [write_list] in E; destruct (sendDataList u) as [|f rest] eqn:Es; try done.
  1, 2: apply bind_Some in E as (u1 & E1 & E); injection E as <- <-; split; [constructor|by eapply idle_fits].
  apply bind_Some in E as (w & _ & E). destruct r.
  - by eapply IH.
  - apply bind_Some in E as (u1 & E1 & E). injection E as <- <-. split; [constructor|by eapply reload_fits].
  - injection E as <- <-. split; [constructor|by apply reset_fits].
  - apply bind_Some in E as ([fs1 u1] & E1 & E). injection E as <- <-. pose proof H as (H1 & H2 & H3). rewrite Es in H1. apply Forall_cons in H1 as [Hf Hr].
    apply IH in E1 as [G1 G2]; [|by split]. split; [by constructor|done].
Qed.

Lemma write_fits rs envs g u fs u' : fits u -> on_write rs envs g u = Some (fs, u') -> Forall small fs /\ fits u'.
Proof.
  intros H E. unfold on_write in E. destruct (sendDataList u) as [|f l] eqn:Es; [|by eapply write_list_fits].
  destruct (lastUpdateFrame u) as [f|] eqn:El.
  2: { apply bind_Some in E as (u1 & E1 & E); injection E as <- <-; split; [constructor|by eapply idle_fits]. }
  destruct (resendTimer u). { apply bind_Some in E as (u1 & E1 & E); injection E as <- <-; split; [constructor|by eapply idle_fits]. }
  apply bind_Some in E as (w & _ & E). destruct rs as [|[] rs]; [done| | | |].
  - apply bind_Some in E as (u1 & E1 & E); injection E as <- <-; split; [constructor|by eapply idle_fits].
  - apply bind_Some in E as (u1 & E1 & E). injection E as <- <-. split; [constructor|by eapply reload_fits].
  - injection E as <- <-. split; [constructor|by apply reset_fits].
  - apply bind_Some in E as (u1 & E1 & E). injection E as <- <-. split; [|eapply idle_fits; [|exact E1]; exact H].
    constructor; [|constructor]. by apply H.
Qed.

Lemma read_fits r envs g junk a u u' : fits u -> on_read r envs g junk a u = Some u' -> fits u'.
Proof.
  intros H E. unfold on_read in E. apply bind_Some in E as (w & _ & E). destruct r as [| |b]; [by injection E as <-|by eapply reload_fits|].
  apply bind_Some in E as (cache & _ & E). eapply cache_fits; [|exact E]. exact H.
Qed.

(** *** Everything that can happen to an updater *)

Inductive updater_event :=
| EvInit (env : device_env) (url : list Z)
| EvLoad (fopen : list Z -> option (list Z)) (file_path : list Z) (device_adress : Z)
| EvStart (g : Z) | EvStop (g : Z) | EvQueryDevice (g : Z) | EvQueryUPID (g : Z) | EvQueryWorkMode (g : Z)
| EvRead (r : read_result) (envs : nat -> device_env) (g : Z) (junk : list Z) (address : Z)
| EvWrite (results : list write_result) (envs : nat -> device_env) (g : Z)
| EvClose (envs : nat -> device_env) (g : Z) | EvError (envs : nat -> device_env) (g : Z) | EvTimeout.

Definition no_frame (r : option AimyUpdater) : option (list (list Z) * AimyUpdater) := u ← r; Some ([], u).

Definition updater_step (e : updater_event) (u : AimyUpdater) : option (list (list Z) * AimyUpdater) :=
  match e with
  | EvInit env url => Some ([], snd (init env url u))
  | EvLoad fopen file a => Some ([], snd (loadUpdateTask fopen file a u))
  | EvStart g => no_frame (startUpdate g u)
  | EvStop g => no_frame (stopUpdate g u)
  | EvQueryDevice g => no_frame (requestQueryDevice g u)
  | EvQueryUPID g => no_frame (requestQueryUPID g u)
  | EvQueryWorkMode g => no_frame (requestQueryWorkMode g u)
  | EvRead r envs g junk a => no_frame (on_read r envs g junk a u)
  | EvWrite rs envs g => on_write rs envs g u
  | EvClose envs g => no_frame (on_close envs g u)
  | EvError envs g => no_frame (on_error envs g u)
  | EvTimeout => no_frame (on_send_timeout u)
  end.

Fixpoint updater_run (es : list updater_event) (u : AimyUpdater) : option (list (list Z) * AimyUpdater) :=
  match es with
  | [] => Some ([], u)
  | e :: es' => '(fs, u) ← updater_step e u; '(rest, u) ← updater_run es' u; Some (fs ++ rest, u)
  end.

Lemma step_fits e u fs u' : fits u -> updater_step e u = Some (fs, u') -> Forall small fs /\ fits u'.
Proof.
  intros H E. assert (forall r, (forall v, r = Some v -> fits v) -> no_frame r = Some (fs, u') -> Forall small fs /\ fits u') as Hno.
  { intros r Hr Er. apply bind_Some in Er as (v & Ev & Er). injection Er as <- <-. split; [constructor|by apply Hr]. }
  destruct e; cbn [updater_step] in E; try (eapply Hno; [|exact E]; intros v Ev).
  - injection E as <- <-. split; [constructor|]. destruct (init env url u) as [ok u1] eqn:E1. by eapply init_fits.
  - injection E as <- <-. split; [constructor|]. unfold loadUpdateTask. destruct (UpdateFile.init _ _ _ _) as [ok x]. exact H.
  - by eapply start_fits.
  - by eapply quit_fits.
  - eapply sendNormalData_fits; [| |exact Ev]; done.
  - eapply sendNormalData_fits; [| |exact Ev]; done.
  - eapply sendNormalData_fits; [| |exact Ev]; done.
  - by eapply read_fits.
  - by eapply write_fits.
  - by eapply reload_fits.
  - by eapply reload_fits.
  - by eapply timeout_fits.
Qed.

(** Frames fit.  Whatever happens to an updater (calls of its user, any bytes from the
    device in pieces of any size, errors of reading and writing, timeouts, reopened
    devices), every frame it writes has at most 62 bytes, below the 64 of a HID report. *)
Theorem frames_fit force es fs u : updater_run es (new_AimyUpdater force) = Some (fs, u) -> Forall (fun f => zlen f <= 62) fs.
Proof.
  assert (fits (new_AimyUpdater force)) as H by (split; [constructor|done]). revert H. generalize (new_AimyUpdater force) as v. revert fs.
  induction es as [|e es IH]; intros fs v H E; cbn [updater_run] in E; [injection E as <- _; constructor|].
  apply bind_Some in E as ([fs1 v1] & E1 & E). apply bind_Some in E as ([fs2 v2] & E2 & E). injection E as <- <-.
  apply step_fits in E1 as [Hf1 H1]; [|done]. apply Forall_app. split; [done|]. exact (IH _ _ H1 E2).
Qed.

Definition test_env : device_env := mkEnv (fun _ _ => []) (fun _ => -1) (fun _ => 3).
Definition test_events : list updater_event :=
  [EvInit test_env [97]; EvLoad (fun _ => Some bin_file) [97; 46; 109; 118; 97] 5; EvStart 0] ++
  concat (map (fun pl => [EvWrite [WDone; WDone] (fun _ => no_device) 0;
    EvRead (RBytes (reply_frame 5 (test_answer pl))) (fun _ => no_device) 0 (repeat 0 128) 0])
    [[UPGRADE_ENTER]; [UPGRADE_QUERY_SOFTWARE]; [UPGRADE_QUERY_SEGMENT]]) ++ [EvWrite [WDone] (fun _ => no_device) 0].

Lemma frames_fit_witness : exists fs u, updater_run test_events (new_AimyUpdater false) = Some (fs, u) /\ map zlen fs = [10; 10; 10; 62] /\
  Forall (fun f => zlen f <= 62) fs.
Proof.
  destruct (updater_run test_events (new_AimyUpdater false)) as [[fs u]|] eqn:E; [|vm_compute in E; discriminate].
  exists fs, u. split; [reflexivity|]. split; [|exact (frames_fit false test_events fs u E)]. vm_compute in E. injection E as <- _. reflexivity.
Defined.
