(* ===== verification/Dns.v ===== *)
(** The DNS client: src/imp/dns-solver.cpp. *)
From S2P Require Import Prelude HexFile.

(** ** The query *)

Definition sizeof_Domain : Z := 30.
Definition sizeof_sendbuf : Z := 256.
Definition sizeof_recvbuf : Z := 512.

(** [buffer[at] = v]; [None] outside the buffer. *)
Definition put (buffer : list Z) (at_ v : Z) : option (list Z) := memcpy_at buffer at_ [u8 v].

(** The loop over the characters of the domain: [buffer[Position]] is the length of
    the label that is being copied. *)
Fixpoint query_loop (Domain : list Z) (i j Position : Z) (buffer : list Z) : option (Z * Z * list Z) :=
  match Domain with
  | [] => Some (j, Position, buffer)
  | c :: Domain' =>
      if c =? 46 then
        buffer ← put buffer Position j;
        query_loop Domain' (i + 1) 0 (u32 (Position + (j + 1))) buffer
      else
        buffer ← put buffer (12 + i + 1) c;
        query_loop Domain' (i + 1) (j + 1) Position buffer
  end.

(** The flags and the counts, from [Position] on. *)
Definition header_fields : list Z := [1; 0; 0; 1; 0; 0; 0; 0; 0; 0].

(** [randid] is what [rand] gave, stored as the machine does; the length of the query and the
    buffer. *)
Definition Package_Sendbuf (randid : Z) (Domain buffer : list Z) : option (Z * list Z) :=
  if sizeof_Domain <=? strlen Domain then None else
  buffer ← memcpy_at buffer 0 (rev (be_bytes 2 randid));
  buffer ← memcpy_at buffer 2 header_fields;
  '(j, Position, buffer) ← query_loop (c_str Domain) 0 0 12 buffer;
  buffer ← put buffer Position j;
  let Position := u32 (Position + (j + 1)) in
  buffer ← memcpy_at buffer Position [0; 0; 1; 0; 1];
  Some (u32 (Position + 5), buffer).

(** ** The answer *)

(** [parse]: two bytes, most significant first. *)
Definition parse (buffer : list Z) (pos : Z) : option Z := b ← memread buffer pos 2; Some (be_value b).

(** One label of [j] bytes behind [pos], into [Domain] at [a]. *)
Definition copy_label (buffer : list Z) (pos j a : Z) (Domain : list Z) : option (list Z) :=
  bytes ← memread buffer (pos + 1) j;
  Domain ← memcpy_at Domain a bytes;
  memcpy_at Domain (a + j) [46].

Fixpoint parseNAME (fuel : nat) (buffer : list Z) (pos num a : Z) (Domain : list Z) : option Z :=
  match fuel with
  | O => None
  | S fuel' =>
      j ← buffer !! Z.to_nat pos;
      Domain ← copy_label buffer pos j a Domain;
      let pos := pos + j + 1 in
      let num := num + j + 1 in
      next ← buffer !! Z.to_nat pos;
      if negb (next =? 0) then parseNAME fuel' buffer pos num (a + j + 1) Domain
      else Some (num + 5)
  end.

(** The loop over the answers; the address of the first whose data are four bytes. *)
Fixpoint answer_loop (fuel : nat) (buffer : list Z) (pos : Z) : option (option (list Z)) :=
  match fuel with
  | O => None
  | S fuel' =>
      c ← buffer !! Z.to_nat pos;
      if negb (c =? 0xc0) then Some None else
      let pos := pos + 11 in
      n ← buffer !! Z.to_nat pos;
      if negb (n =? 4) then answer_loop fuel' buffer (pos + (n + 1))
      else netip ← memread buffer (pos + 1) 4; Some (Some netip)
  end.

(** Decimal digits, and [inet_ntoa]. *)
Definition decimal (n : Z) : list Z :=
  if n <? 10 then [48 + n]
  else if n <? 100 then [48 + n / 10; 48 + n mod 10]
  else [48 + n / 100; 48 + n / 10 mod 10; 48 + n mod 10].

Definition inet_ntoa (netip : list Z) : list Z :=
  match netip with
  | [a; b; c; d] => decimal a ++ [46] ++ decimal b ++ [46] ++ decimal c ++ [46] ++ decimal d
  | _ => []
  end.

(** The result and what is stored at [domain_ip], if anything. *)
Definition Parse_Rcvbuf (randid : Z) (buffer : list Z) : option (Z * option (list Z)) :=
  transID ← parse buffer 0;
  if negb (transID =? be_value (rev (be_bytes 2 randid))) then Some (0, None) else
  num ← parseNAME (length buffer) buffer 12 0 0 (replicate 256 0);
  ip ← answer_loop (length buffer) buffer (12 + num);
  Some (1, option_map inet_ntoa ip).

(** What [UdpRecv] finds: nothing in time, an error, or a datagram. *)
Inductive recv_result := RecvNothing | RecvError | RecvBytes (d : list Z).

(** The length is unsigned: the -1 of an error is not below 1. *)
Definition DNSRecv (randid : Z) (r : recv_result) : option (Z * option (list Z)) :=
  let recvbuf := replicate (Z.to_nat sizeof_recvbuf) 0 in
  match r with
  | RecvNothing => Some (0, None)
  | RecvError => Parse_Rcvbuf randid recvbuf
  | RecvBytes d =>
      if zlen d =? 0 then Some (0, None) else
      recvbuf ← memcpy_at recvbuf 0 (slice 0 sizeof_recvbuf d);
      Parse_Rcvbuf randid recvbuf
  end.

(** ** Resolving *)

(** The socket: -1 or a descriptor, and what [sendto] returns for the query. *)
Record dns_net := mkNet { net_open : Z; net_send : list Z -> Z; net_recv : list Z -> recv_result }.

(** [junk] is the buffer on the stack; what was sent and the length that counts. *)
Definition DNSSend (net : dns_net) (randid : Z) (Domain junk : list Z) : option (Z * list Z) :=
  if net_open net <? 0 then Some (0, []) else
  '(buflen, buffer) ← Package_Sendbuf randid Domain junk;
  let query := slice 0 buflen buffer in
  let sendlen := u32 (net_send net query) in
  if negb (sendlen =? buflen) then Some (0, query) else Some (sendlen, query).

(** The return value and the text stored at [return_ip]. *)
Definition DNS_Resolve (net : dns_net) (randid : Z) (domain dns_server_ip junk : list Z) : option (Z * option (list Z)) :=
  if 20 <=? strlen dns_server_ip then None else
  '(sent, query) ← DNSSend net randid domain junk;
  if sent <=? 0 then Some (-1, None) else
  '(r, ip) ← DNSRecv randid (net_recv net query);
  if r =? 0 then Some (-2, None) else Some (0, ip).


(** ** Names and records on the wire *)

Definition label_ok (l : list Z) : Prop := l <> [] /\ Forall (fun c => is_byte c /\ c <> 0 /\ c <> 46) l.

(** The text of a name, and its labels with their lengths. *)
Fixpoint dotted (labels : list (list Z)) : list Z :=
  match labels with
  | [] => []
  | [l] => l
  | l :: labels' => l ++ 46 :: dotted labels'
  end.

Definition wire (labels : list (list Z)) : list Z := concat (map (fun l => zlen l :: l) labels).

(** The name with its end, and the type and the class that are asked for. *)
Definition question (labels : list (list Z)) : list Z := wire labels ++ [0; 0; 1; 0; 1].

Definition query (randid : Z) (labels : list (list Z)) : list Z := rev (be_bytes 2 randid) ++ header_fields ++ question labels.

Record resource := mkRR { rr_pointer : Z; rr_type : Z; rr_class : Z; rr_ttl : Z; rr_data : list Z }.

Definition rr_bytes (r : resource) : list Z :=
  [0xc0; rr_pointer r] ++ be_bytes 2 (rr_type r) ++ be_bytes 2 (rr_class r) ++ be_bytes 4 (rr_ttl r) ++
  be_bytes 2 (zlen (rr_data r)) ++ rr_data r.

Definition rr_ok (r : resource) : Prop := zlen (rr_data r) < 256.

(** A record that carries an address. *)
Definition is_address (r : resource) : bool := zlen (rr_data r) =? 4.

(** What a server sends back: the identifier of the query, flags and counts, the question, the
    records of the answer section, and the sections behind. *)
Definition reply (counts q : list Z) (records : list resource) (behind : list Z) : list Z :=
  take 2 q ++ counts ++ drop 12 q ++ concat (map rr_bytes records) ++ behind.

(** ** The query that is sent *)

Lemma put_at pre x rest v : put (pre ++ x :: rest) (zlen pre) v = Some (pre ++ u8 v :: rest).
Proof. apply (memcpy_at_mid pre [x] rest [u8 v]). done. Qed.

Lemma zlen_wire labels : labels <> [] -> zlen (wire labels) = zlen (dotted labels) + 1.
Proof.
  unfold wire. induction labels as [|l [|l' ls] IH]; intros Hne; [done|cbn [map concat dotted]; rewrite app_nil_r, zlen_cons; lia|].
  specialize (IH ltac:(done)). cbn [map concat dotted] in *. repeat rewrite ?zlen_app, ?zlen_cons in *. lia.
Qed.

Lemma query_loop_label l tail : Forall (fun c => is_byte c /\ c <> 0 /\ c <> 46) l -> forall i j Position pre mid rest,
  zlen pre = 12 + i + 1 -> zlen mid = zlen l ->
  query_loop (l ++ tail) i j Position (pre ++ mid ++ rest) = query_loop tail (i + zlen l) (j + zlen l) Position (pre ++ l ++ rest).
Proof.
  induction 1 as [|c l (Hc & _ & Hdot) _ IH]; intros i j Position pre mid rest Hpre Hmid.
  - rewrite (zlen_0_nil mid) by done. rewrite zlen_nil, !Z.add_0_r. done.
  - destruct mid as [|x mid]; [rewrite zlen_nil, zlen_cons in Hmid; pose proof (zlen_nonneg l); lia|]. rewrite !zlen_cons in Hmid.
    cbn [app query_loop]. replace (c =? 46) with false by (symmetry; by apply Z.eqb_neq).
    rewrite <- Hpre, put_at. cbn [mbind option_bind]. rewrite wrap_small by done.
    replace (pre ++ c :: mid ++ rest) with ((pre ++ [c]) ++ mid ++ rest) by by rewrite <- app_assoc.
    rewrite IH by (rewrite ?zlen_app, ?zlen_cons, ?zlen_nil; lia). rewrite zlen_cons, <- app_assoc. f_equal; lia.
Qed.

Lemma query_loop_name labels : labels <> [] -> Forall label_ok labels -> forall i pre mid rest,
  zlen pre = 12 + i -> 0 <= i -> zlen mid = zlen (wire labels) -> i + zlen (wire labels) < 256 ->
  exists j Position buffer, query_loop (dotted labels) i 0 (12 + i) (pre ++ mid ++ rest) = Some (j, Position, buffer) /\
    put buffer Position j = Some (pre ++ wire labels ++ rest) /\ Position + (j + 1) = 12 + i + zlen (wire labels).
Proof.
  unfold wire. induction labels as [|l ls IH]; intros Hne Hok i pre mid rest Hpre Hi Hmid Hmax; [done|].
  inversion_clear Hok as [|? ? (_ & Hl) Hls]. cbn [map concat app] in Hmid, Hmax. rewrite zlen_cons, zlen_app in Hmid, Hmax.
  pose proof (zlen_nonneg l). pose proof (zlen_nonneg (concat (map (fun l => zlen l :: l) ls))).
  destruct mid as [|x mid]; [rewrite zlen_nil in Hmid; lia|]. rewrite zlen_cons in Hmid.
  assert (exists m1 m2, mid = m1 ++ m2 /\ zlen m1 = zlen l) as (m1 & m2 & -> & Hm1).
  { exists (take (length l) mid), (drop (length l) mid). rewrite take_drop. split; [done|].
    unfold zlen in *. rewrite length_take. lia. }
  rewrite zlen_app in Hmid.
  assert (forall tail, query_loop (l ++ tail) i 0 (12 + i) (pre ++ (x :: m1 ++ m2) ++ rest) =
    query_loop tail (i + zlen l) (zlen l) (12 + i) (pre ++ x :: l ++ m2 ++ rest)) as Hlabel.
  { intros tail. replace (pre ++ (x :: m1 ++ m2) ++ rest) with ((pre ++ [x]) ++ m1 ++ m2 ++ rest)
      by by rewrite <- !app_assoc; cbn [app]; rewrite <- app_assoc.
    rewrite query_loop_label by (rewrite ?zlen_app, ?zlen_cons, ?zlen_nil; first [done|lia]). by rewrite <- app_assoc. }
  destruct ls as [|l' ls].
  - cbn [map concat dotted] in *. rewrite zlen_nil in *. specialize (Hlabel []). rewrite (app_nil_r l) in Hlabel. rewrite Hlabel. cbn [query_loop].
    rewrite (zlen_0_nil m2) by lia. eexists _, _, _. split; [done|]. rewrite <- Hpre, put_at. rewrite wrap_small by lia.
    cbn [app]. rewrite app_nil_r, zlen_cons. split; [done|lia].
  - change (dotted (l :: l' :: ls)) with (l ++ 46 :: dotted (l' :: ls)). rewrite Hlabel. cbn [query_loop]. rewrite Z.eqb_refl.
    rewrite <- Hpre, put_at. cbn [mbind option_bind]. rewrite Hpre, !wrap_small by lia.
    replace (12 + i + (zlen l + 1)) with (12 + (i + zlen l + 1)) by lia.
    replace (pre ++ zlen l :: l ++ m2 ++ rest) with ((pre ++ zlen l :: l) ++ m2 ++ rest) by by rewrite <- app_assoc.
    destruct (IH ltac:(done) Hls (i + zlen l + 1) (pre ++ zlen l :: l) m2 rest) as (j & P & b & Hq & Hput & HP);
      try (rewrite ?zlen_app, ?zlen_cons; lia).
    exists j, P, b. split; [exact Hq|]. split; [rewrite Hput; f_equal; cbn [map concat app]; rewrite <- !app_assoc; cbn [app]; by rewrite <- ?app_assoc|].
    rewrite HP. remember (concat (map (fun l0 => zlen l0 :: l0) (l' :: ls))) as w. cbn [map concat]. rewrite zlen_app, zlen_cons.
    cbn [map concat] in Heqw. rewrite <- Heqw. lia.
Qed.

Lemma dotted_no_end labels : Forall label_ok labels -> Forall (fun c => c <> 0) (dotted labels).
Proof.
  induction labels as [|l [|l' ls] IH]; intros Hok; cbn [dotted]; [constructor| |]; inversion_clear Hok as [|? ? (_ & Hl) Hls].
  - eapply Forall_impl; [exact Hl|naive_solver].
  - apply Forall_app; split; [eapply Forall_impl; [exact Hl|naive_solver]|]. constructor; [done|]. by apply IH.
Qed.

Lemma c_str_dotted labels : Forall label_ok labels -> c_str (dotted labels ++ [0]) = dotted labels.
Proof. intros Hok. rewrite c_str_app by by apply dotted_no_end. by rewrite app_nil_r. Qed.

Lemma zlen_query randid labels : zlen (query randid labels) = 17 + zlen (wire labels).
Proof. unfold query, question. rewrite !zlen_app. change (zlen header_fields) with 10. unfold zlen at 1. rewrite length_rev, length_be_bytes.
  change (zlen [0; 0; 1; 0; 1]) with 5. lia. Qed.

Lemma Package_Sendbuf_exact randid labels junk : labels <> [] -> Forall label_ok labels -> zlen (dotted labels) < sizeof_Domain ->
  zlen junk = sizeof_sendbuf ->
  exists rest, Package_Sendbuf randid (dotted labels ++ [0]) junk = Some (zlen (query randid labels), query randid labels ++ rest).
Proof.
  intros Hne Hok Hlen Hj. unfold Package_Sendbuf, strlen. rewrite c_str_dotted by done. pose proof (zlen_wire _ Hne) as Hw.
  unfold sizeof_Domain, sizeof_sendbuf in *. replace (30 <=? zlen (dotted labels)) with false by (symmetry; apply Z.leb_gt; lia).
  pose proof (zlen_nonneg (dotted labels)).
  assert (exists a b c d e, junk = a ++ b ++ c ++ d ++ e /\ zlen a = 2 /\ zlen b = 10 /\ zlen c = zlen (wire labels) /\ zlen d = 5)
    as (a & b & c & d & e & -> & Ha & Hb & Hc & Hd).
  { exists (take 2 junk), (take 10 (drop 2 junk)), (take (length (wire labels)) (drop 12 junk)),
      (take 5 (drop (12 + length (wire labels)) junk)), (drop (17 + length (wire labels)) junk).
    unfold zlen in *. rewrite !length_take, !length_drop. split_and!; try lia.
    replace (drop 12 junk) with (drop 10 (drop 2 junk)) by by rewrite drop_drop.
    replace (drop (17 + length (wire labels)) junk) with (drop 5 (drop (length (wire labels)) (drop 10 (drop 2 junk))))
      by (rewrite !drop_drop; f_equal; lia).
    replace (drop (12 + length (wire labels)) junk) with (drop (length (wire labels)) (drop 10 (drop 2 junk)))
      by (rewrite !drop_drop; f_equal; lia).
    by rewrite !take_drop. }
  assert (zlen (rev (be_bytes 2 randid)) = 2) as Hr by (unfold zlen; by rewrite length_rev, length_be_bytes).
  pose proof (memcpy_at_mid [] a (b ++ c ++ d ++ e) (rev (be_bytes 2 randid)) ltac:(lia)) as H1. change (zlen []) with 0 in H1.
  cbn [app] in H1. rewrite H1. cbn [mbind option_bind].
  pose proof (memcpy_at_mid (rev (be_bytes 2 randid)) b (c ++ d ++ e) header_fields ltac:(done)) as H2. rewrite Hr in H2.
  rewrite H2. cbn [mbind option_bind].
  destruct (query_loop_name labels Hne Hok 0 (rev (be_bytes 2 randid) ++ header_fields) c (d ++ e)) as (j & P & buf & Hq & Hput & HP);
    [rewrite zlen_app, Hr; done|lia|lia|lia|].
  rewrite <- app_assoc in Hq. change (12 + 0) with 12 in Hq. rewrite Hq. cbn [mbind option_bind]. rewrite Hput. cbn [mbind option_bind].
  rewrite HP, (wrap_small 32 (12 + 0 + zlen (wire labels))) by lia.
  rewrite <- !app_assoc. rewrite !app_assoc. rewrite <- (app_assoc _ d e).
  assert (zlen ((rev (be_bytes 2 randid) ++ header_fields) ++ wire labels) = 12 + 0 + zlen (wire labels)) as <-.
  { rewrite !zlen_app, Hr. done. }
  rewrite memcpy_at_mid by done. cbn [mbind option_bind]. exists e. unfold query, question. rewrite <- !app_assoc. f_equal. f_equal.
  rewrite !zlen_app, Hr. change (zlen header_fields) with 10. change (zlen [0; 0; 1; 0; 1]) with 5. rewrite wrap_small by lia. lia.
Qed.

(** ** The reply that is read *)

Lemma lookup_at {A} (pre : list A) x post : (pre ++ x :: post) !! Z.to_nat (zlen pre) = Some x.
Proof. apply list_lookup_middle. unfold zlen. lia. Qed.

Lemma copy_label_some pre l post x a Domain : 0 <= a -> a + zlen l < zlen Domain ->
  exists Domain', copy_label (pre ++ x :: l ++ post) (zlen pre) (zlen l) a Domain = Some Domain' /\ zlen Domain' = zlen Domain.
Proof.
  intros Ha Hlen. unfold copy_label. pose proof (zlen_nonneg l).
  replace (pre ++ x :: l ++ post) with ((pre ++ [x]) ++ l ++ post) by by rewrite <- app_assoc.
  replace (zlen pre + 1) with (zlen (pre ++ [x])) by (rewrite zlen_app; done). rewrite memread_mid. cbn [mbind option_bind].
  destruct (memcpy_at Domain a l) as [D1|] eqn:E1; [|rewrite memcpy_at_Some in E1 by lia; done].
  apply memcpy_at_len in E1 as HD1. cbn [mbind option_bind].
  destruct (memcpy_at D1 (a + zlen l) [46]) as [D2|] eqn:E2; [|rewrite memcpy_at_Some in E2 by (change (zlen [46]) with 1; lia); done].
  apply memcpy_at_len in E2. eexists; split; [done|lia].
Qed.

Lemma parseNAME_name labels : labels <> [] -> Forall label_ok labels -> forall fuel pre post num a Domain,
  (length labels <= fuel)%nat -> 0 <= a -> a + zlen (wire labels) <= zlen Domain ->
  parseNAME fuel (pre ++ wire labels ++ 0 :: post) (zlen pre) num a Domain = Some (num + zlen (wire labels) + 5).
Proof.
  unfold wire. induction labels as [|l ls IH]; intros Hne Hok fuel pre post num a Domain Hf Ha HD; [done|].
  destruct fuel as [|fuel]; [cbn [length] in Hf; lia|]. inversion_clear Hok as [|? ? (Hl & _) Hls].
  cbn [map concat app] in *. rewrite <- app_assoc. rewrite zlen_cons, zlen_app in HD. cbn [parseNAME].
  pose proof (zlen_nonneg l). pose proof (zlen_nonneg (concat (map (fun l => zlen l :: l) ls))).
  rewrite lookup_at. cbn [mbind option_bind].
  destruct (copy_label_some pre l (concat (map (fun l => zlen l :: l) ls) ++ 0 :: post) (zlen l) a Domain) as (D' & -> & HD'); [lia|lia|].
  cbn [mbind option_bind].
  assert (forall tail, (pre ++ zlen l :: l ++ tail) = (pre ++ zlen l :: l) ++ tail) as Hsplit by (intros; by rewrite <- app_assoc).
  assert (zlen pre + zlen l + 1 = zlen (pre ++ zlen l :: l)) as Hp by (rewrite zlen_app, zlen_cons; lia).
  rewrite Hsplit, Hp. destruct ls as [|l' ls].
  - cbn [map concat app]. rewrite lookup_at. cbn [mbind option_bind]. rewrite Z.eqb_refl, zlen_cons, app_nil_r. cbn [negb]. f_equal. lia.
  - assert (l' <> []) as Hl' by by inversion_clear Hls as [|? ? (? & _) _].
    assert (zlen l' =? 0 = false) as Hz by (apply Z.eqb_neq; intros E; apply Hl', zlen_0_nil, E).
    assert (concat (map (fun l => zlen l :: l) (l' :: ls)) ++ 0 :: post =
      zlen l' :: l' ++ concat (map (fun l => zlen l :: l) ls) ++ 0 :: post) as Hw by (cbn [map concat app]; by rewrite <- app_assoc).
    rewrite Hw, lookup_at. cbn [mbind option_bind]. rewrite Hz, <- Hw. cbn [negb].
    rewrite (IH ltac:(done) Hls) by (cbn [length] in *; lia). rewrite zlen_cons, zlen_app. f_equal. lia.
Qed.

Lemma rr_shape r : rr_ok r -> exists h, rr_bytes r = 0xc0 :: h ++ zlen (rr_data r) :: rr_data r /\ zlen h = 10.
Proof.
  intros Hr. unfold rr_ok in Hr. pose proof (zlen_nonneg (rr_data r)).
  exists (rr_pointer r :: be_bytes 2 (rr_type r) ++ be_bytes 2 (rr_class r) ++ be_bytes 4 (rr_ttl r) ++ [0]).
  split; [|by rewrite zlen_cons, !zlen_app, !zlen_be_bytes].
  unfold rr_bytes. assert (be_bytes 2 (zlen (rr_data r)) = [0; zlen (rr_data r)]) as ->.
  { cbn [be_bytes]. change (2 ^ (8 * Z.of_nat 1)) with 256. change (2 ^ (8 * Z.of_nat 0)) with 1.
    rewrite Z.div_1_r, (Z.div_small _ 256), !Z.mod_small by lia. done. }
  cbn [app]. by rewrite <- !app_assoc.
Qed.

Lemma answer_loop_records records : Forall rr_ok records -> forall fuel pre x tail, (length records < fuel)%nat -> x <> 0xc0 ->
  answer_loop fuel (pre ++ concat (map rr_bytes records) ++ x :: tail) (zlen pre) =
  Some (option_map rr_data (List.find is_address records)).
Proof.
  induction 1 as [|r rs Hr _ IH]; intros fuel pre x tail Hf Hx; (destruct fuel as [|fuel]; [cbn [length] in Hf; lia|]).
  - cbn [map concat app answer_loop]. rewrite lookup_at. cbn [mbind option_bind]. by rewrite (proj2 (Z.eqb_neq x 0xc0) Hx).
  - destruct (rr_shape r Hr) as (h & Hb & Hh). cbn [map concat List.find]. rewrite Hb, <- app_assoc. cbn [app answer_loop].
    rewrite lookup_at. cbn [mbind option_bind negb Z.eqb Pos.eqb]. rewrite <- !app_assoc. cbn [app].
    set (rest := concat (map rr_bytes rs) ++ x :: tail).
    replace (pre ++ 192 :: h ++ zlen (rr_data r) :: rr_data r ++ rest) with ((pre ++ 192 :: h) ++ zlen (rr_data r) :: rr_data r ++ rest)
      by by rewrite <- app_assoc.
    replace (zlen pre + 11) with (zlen (pre ++ 192 :: h)) by (rewrite zlen_app, zlen_cons; lia).
    rewrite lookup_at. cbn [mbind option_bind]. unfold is_address at 1. destruct (zlen (rr_data r) =? 4) eqn:E4; cbn [negb].
    + apply Z.eqb_eq in E4. cbn [option_map].
      pose proof (memread_mid ((pre ++ 192 :: h) ++ [zlen (rr_data r)]) (rr_data r) rest) as Hm.
      rewrite <- app_assoc in Hm. cbn [app] in Hm. rewrite zlen_app in Hm. change (zlen [zlen (rr_data r)]) with 1 in Hm.
      rewrite E4 in Hm |- *. by rewrite Hm.
    + pose proof (IH fuel ((pre ++ 192 :: h) ++ zlen (rr_data r) :: rr_data r) x tail ltac:(cbn [length] in Hf; lia) Hx) as Hrec.
      rewrite <- app_assoc, zlen_app, zlen_cons in Hrec. cbn [app] in Hrec.
      rewrite (Z.add_comm 1) in Hrec. exact Hrec.
Qed.

(** ** Resolving a name *)

Lemma length_concat_records records : Forall rr_ok records -> Z.of_nat (length records) <= zlen (concat (map rr_bytes records)).
Proof.
  induction 1 as [|r rs Hr _ IH]; [done|]. cbn [map concat length]. destruct (rr_shape r Hr) as (h & -> & _).
  rewrite zlen_app, zlen_cons. pose proof (zlen_nonneg (h ++ zlen (rr_data r) :: rr_data r)). lia.
Qed.

Lemma length_labels labels : (length labels <= length (wire labels))%nat.
Proof. unfold wire. induction labels as [|l ls IH]; [done|]. cbn [map concat length]. rewrite length_app. cbn [length]. lia. Qed.

Lemma reply_query counts randid labels records behind : reply counts (query randid labels) records behind =
  rev (be_bytes 2 randid) ++ counts ++ question labels ++ concat (map rr_bytes records) ++ behind.
Proof. done. Qed.

Lemma Parse_Rcvbuf_reply randid labels counts records behind : labels <> [] -> Forall label_ok labels -> zlen (dotted labels) < sizeof_Domain ->
  zlen counts = 10 -> Forall rr_ok records -> hd 0 behind <> 0xc0 ->
  zlen (reply counts (query randid labels) records behind) < sizeof_recvbuf ->
  DNSRecv randid (RecvBytes (reply counts (query randid labels) records behind)) =
  Some (1, option_map (fun r => inet_ntoa (rr_data r)) (List.find is_address records)).
Proof.
  intros Hne Hok Hlen Hc Hr Hb Hfit. unfold DNSRecv. rewrite reply_query in *. unfold sizeof_recvbuf, sizeof_Domain in *.
  set (d := rev (be_bytes 2 randid) ++ _) in *. pose proof (zlen_wire labels Hne) as Hw. pose proof (zlen_nonneg d) as Hd0.
  assert (zlen (rev (be_bytes 2 randid)) = 2) as Hid by (unfold zlen; by rewrite length_rev, length_be_bytes).
  assert (zlen d =? 0 = false) as ->.
  { apply Z.eqb_neq. unfold d. rewrite zlen_app, Hid. pose proof (zlen_nonneg (counts ++ question labels ++ concat (map rr_bytes records) ++ behind)). lia. }
  assert (slice 0 512 d = d) as -> by (unfold slice; rewrite drop_0; apply take_ge; unfold zlen in Hfit; lia).
  rewrite memcpy_at_Some by (rewrite ?zlen_replicate; lia). change (Z.to_nat 0) with 0%nat. rewrite take_0, Z.add_0_l, drop_replicate.
  cbn [mbind option_bind app]. set (z := (Z.to_nat 512 - Z.to_nat (zlen d))%nat). assert (exists z', z = Datatypes.S z') as [z' Hz].
  { exists (z - 1)%nat. unfold z. unfold zlen in Hfit |- *. lia. }
  assert (exists x tail, behind ++ replicate z 0 = x :: tail /\ x <> 0xc0) as (x & tail & Htail & Hx).
  { rewrite Hz. destruct behind as [|x b]; [by exists 0, (replicate z' 0)|]. cbn [hd] in Hb. by exists x, (b ++ replicate (Datatypes.S z') 0). }
  assert (d ++ replicate z 0 = (rev (be_bytes 2 randid) ++ counts) ++ wire labels ++ 0 :: [0; 1; 0; 1] ++ concat (map rr_bytes records) ++ x :: tail)
    as Hbuf.
  { unfold d, question. rewrite <- !app_assoc, Htail. cbn [app]. done. }
  unfold Parse_Rcvbuf, parse. rewrite Hbuf.
  assert (memread ((rev (be_bytes 2 randid) ++ counts) ++ wire labels ++ 0 :: [0; 1; 0; 1] ++ concat (map rr_bytes records) ++ x :: tail) 0 2
    = Some (rev (be_bytes 2 randid))) as ->.
  { rewrite <- app_assoc. rewrite <- Hid. apply (memread_mid []). }
  cbn [mbind option_bind]. rewrite Z.eqb_refl. cbn [negb].
  assert (zlen (rev (be_bytes 2 randid) ++ counts) = 12) as H12 by (rewrite zlen_app, Hid; lia).
  rewrite <- H12. rewrite <- Hbuf at 1. rewrite parseNAME_name; [|done|done| |lia|rewrite zlen_replicate; lia].
  2:{ pose proof (length_labels labels). unfold d, question. rewrite !length_app. lia. }
  cbn [mbind option_bind]. rewrite H12, <- Hbuf.
  replace ((rev (be_bytes 2 randid) ++ counts) ++ wire labels ++ 0 :: [0; 1; 0; 1] ++ concat (map rr_bytes records) ++ x :: tail) with
    (((rev (be_bytes 2 randid) ++ counts) ++ question labels) ++ concat (map rr_bytes records) ++ x :: tail) in Hbuf
    by (unfold question; by rewrite <- !app_assoc).
  rewrite Hbuf. replace (12 + (0 + zlen (wire labels) + 5)) with (zlen ((rev (be_bytes 2 randid) ++ counts) ++ question labels))
    by (unfold question; rewrite zlen_app, H12, zlen_app; change (zlen [0; 0; 1; 0; 1]) with 5; lia).
  rewrite <- Hbuf at 1. rewrite answer_loop_records; [|done| |done].
  - cbn [mbind option_bind]. by destruct (List.find is_address records).
  - pose proof (length_concat_records records Hr) as Hl. unfold d, question. rewrite !length_app. unfold zlen in Hl. cbn [length].
    assert (length (rev (be_bytes 2 randid)) = 2%nat) by (unfold zlen in Hid; lia). lia.
Qed.


(** A server that answers www.aimy.cc with a canonical name and an address. *)
Definition records_w : list resource := [mkRR 12 5 1 300 [3; 99; 100; 110; 0xc0; 16]; mkRR 12 1 1 300 [192; 168; 0; 41]].
Definition server_w (q : list Z) : recv_result := RecvBytes (reply [0x81; 0x80; 0; 1; 0; 2; 0; 0; 0; 1] q records_w [0; 0; 41]).

Definition labels_w : list (list Z) := [[119; 119; 119]; [97; 105; 109; 121]; [99; 99]].

Lemma labels_w_ok : Forall label_ok labels_w.
Proof. unfold label_ok, is_byte. repeat constructor; done. Qed.


(** The receive error counts as data: with the identifier 0 the untouched buffer is taken for a reply. *)
Example error_is_a_reply junk : zlen junk = sizeof_sendbuf ->
  DNS_Resolve (mkNet 3 zlen (fun _ => RecvError)) 0 ([97; 46; 98] ++ [0]) ([56; 46; 56; 46; 56; 46; 56]) junk = Some (0, None).
Proof.
  intros Hj. unfold DNS_Resolve, DNSSend.
  assert (Forall label_ok [[97]; [98]]) as Hok by (unfold label_ok, is_byte; repeat constructor; done).
  destruct (Package_Sendbuf_exact 0 [[97]; [98]] junk ltac:(discriminate) Hok ltac:(reflexivity) Hj) as [rest E].
  change ([97; 46; 98] ++ [0]) with (dotted [[97]; [98]] ++ [0]). cbn [net_open net_send net_recv].
  rewrite E. cbn [mbind option_bind]. rewrite slice_app_l by (vm_compute; congruence). rewrite slice_all. reflexivity.
Qed.

(** A reply whose label length runs past the copy on the stack. *)
Example label_overflow :
  DNSRecv 0x1234 (RecvBytes ([0x34; 0x12] ++ replicate 10 0 ++ [200] ++ replicate 200 1 ++ [200] ++ replicate 200 1)) = None.
Proof. reflexivity. Qed.

(** The failures of the resolution: no socket, or a query that was not sent whole, gives -1; no reply, an empty one
    or one with another identifier gives -2; and no address is stored. *)
Theorem resolve_rejects net randid labels server junk :
  labels <> [] -> Forall label_ok labels -> zlen (dotted labels) < sizeof_Domain -> zlen junk = sizeof_sendbuf -> strlen server < 20 ->
  let q := query randid labels in
  let result := DNS_Resolve net randid (dotted labels ++ [0]) server junk in
  (net_open net < 0 -> result = Some (-1, None)) /\
  (u32 (net_send net q) <> zlen q -> result = Some (-1, None)) /\
  (0 <= net_open net -> net_send net q = zlen q ->
     (net_recv net q = RecvNothing \/ net_recv net q = RecvBytes [] \/
      (exists a b d, net_recv net q = RecvBytes (a :: b :: d) /\ be_value [a; b] <> be_value (take 2 q))) ->
     result = Some (-2, None)).
Proof.
  intros Hne Hok Hlen Hj Hs q result. subst result. unfold DNS_Resolve, DNSSend. rewrite (proj2 (Z.leb_gt 20 (strlen server)) Hs).
  destruct (Package_Sendbuf_exact randid labels junk Hne Hok Hlen Hj) as [rest ->]. cbn [mbind option_bind].
  pose proof (zlen_nonneg q). unfold q in *. rewrite slice_app_l by lia. rewrite slice_all.
  pose proof (zlen_query randid labels) as Hq. pose proof (zlen_wire labels Hne). pose proof (zlen_nonneg (dotted labels)). unfold sizeof_Domain in Hlen. split_and!.
  - intros Ho. by rewrite (proj2 (Z.ltb_lt (net_open net) 0) Ho).
  - intros Hn. destruct (net_open net <? 0); [done|]. by rewrite (proj2 (Z.eqb_neq _ _) Hn).
  - intros Ho Hsend Hrecv. rewrite (proj2 (Z.ltb_ge (net_open net) 0) Ho), Hsend, wrap_small by lia. rewrite Z.eqb_refl. cbn [negb mbind option_bind].
    rewrite (proj2 (Z.leb_gt (zlen (query randid labels)) 0)) by lia.
    destruct Hrecv as [->|[->|(a & b & d & -> & Hid)]]; [done|done|].
    unfold DNSRecv. rewrite !zlen_cons. pose proof (zlen_nonneg d). rewrite (proj2 (Z.eqb_neq (1 + (1 + zlen d)) 0)) by lia.
    unfold slice, sizeof_recvbuf. change (Z.to_nat 512) with (Datatypes.S (Datatypes.S 510)). rewrite drop_0, !firstn_cons.
    rewrite memcpy_at_Some by (rewrite ?zlen_cons, ?zlen_replicate; unfold zlen; rewrite ?length_take; lia). cbn [mbind option_bind].
    change (Z.to_nat 0) with 0%nat. rewrite take_0. cbn [app]. unfold Parse_Rcvbuf, parse.
    match goal with |- context [memread (a :: b :: ?t) 0 2] => change (a :: b :: t) with ([] ++ [a; b] ++ t) end.
    change 0 with (zlen (@nil Z)) at 1. change 2 with (zlen [a; b]) at 1. rewrite memread_mid. cbn [mbind option_bind].
    change (take 2 (query randid labels)) with (rev (be_bytes 2 randid)) in Hid. by rewrite (proj2 (Z.eqb_neq _ _) Hid).
Qed.
