(* ===== verification/Digest.v ===== *)
(** What the hash functions of the program share: words of 32 bits, messages taken in blocks of
    64 bytes through a buffer, and the padding of the last block.

    SHA-1 ([Sha1]: src/imp/network/websocket/websocket_connection_helper.cpp), SHA-256 ([Sha256]:
    src/imp/common/iutils.cpp) and MD5 ([Md5]: src/third_party/md5/md5.cpp) differ in their compression
    functions; a message is absorbed by each of them block by block. *)
From S2P Require Import Prelude.

(** ** Words *)

(** [((x) << (n)) | ((x) >> (32 - (n)))] of an unsigned 32-bit [x]. *)
Definition rotl (x n : Z) : Z := Z.lor (u32 (Z.shiftl x n)) (Z.shiftr x (32 - n)).

Definition word_ok (x : Z) : Prop := 0 <= x < 2 ^ 32.

Lemma bits_above w x i : 0 <= x < 2 ^ w -> 0 <= w <= i -> Z.testbit x i = false.
Proof. intros Hx Hi. rewrite <- (Z.mod_small x (2 ^ w)) by done. apply Z.mod_pow2_bits_high. lia. Qed.

Lemma wrap_testbit w x i : 0 <= w -> 0 <= i -> Z.testbit (wrap w x) i = (i <? w) && Z.testbit x i.
Proof.
  intros Hw Hi. unfold wrap. destruct (Z.ltb_spec i w).
  - by rewrite Z.mod_pow2_bits_low by lia.
  - by rewrite Z.mod_pow2_bits_high by lia.
Qed.

Lemma wrap_add_l w a b : wrap w (wrap w a + b) = wrap w (a + b).
Proof. unfold wrap. by rewrite Zplus_mod_idemp_l. Qed.

Lemma wrap_add_r w a b : wrap w (a + wrap w b) = wrap w (a + b).
Proof. unfold wrap. by rewrite Zplus_mod_idemp_r. Qed.

(** [~x] of an unsigned 32-bit word. *)
Definition not32 (x : Z) : Z := Z.lxor x 0xFFFFFFFF.

Lemma not32_land x y : word_ok y -> Z.land (not32 x) y = Z.land (Z.lnot x) y.
Proof.
  intros Hy. apply Z.bits_inj'. intros i Hi. unfold not32. rewrite !Z.land_spec, Z.lxor_spec, Z.lnot_spec by done.
  destruct (Z.lt_ge_cases i 32).
  - change 0xFFFFFFFF with (Z.ones 32). by rewrite Z.ones_spec_low, xorb_true_r by lia.
  - rewrite (bits_above 32 y) by (done || lia). by rewrite !andb_false_r.
Qed.

Definition words_ok (l : list Z) : Prop := Forall word_ok l.

Lemma not32_land_r x y : word_ok x -> Z.land x (not32 y) = Z.land x (Z.lnot y).
Proof. intros Hx. rewrite !(Z.land_comm x). by apply not32_land. Qed.

Lemma word_ok_u32 x : word_ok (u32 x).
Proof. apply wrap_range. lia. Qed.

Lemma lor_shift a b n : 0 <= n -> 0 <= b < 2 ^ n -> Z.lor (Z.shiftl a n) b = a * 2 ^ n + b.
Proof.
  intros Hn Hb. rewrite <- Z.shiftl_mul_pow2 by done. rewrite <- Z.add_lor_land.
  assert (Z.land (Z.shiftl a n) b = 0) as ->; [|lia]. apply Z.bits_inj'. intros i Hi. rewrite Z.land_spec, Z.bits_0, Z.shiftl_spec by done.
  destruct (Z.lt_ge_cases i n); [by rewrite Z.testbit_neg_r by lia|]. rewrite (bits_above n b) by lia. apply andb_false_r.
Qed.

(** ** Messages in blocks *)

Lemma zlen_mod {A} (l : list A) : zlen l mod 64 = Z.of_nat (length l mod 64).
Proof. unfold zlen. by rewrite Nat2Z.inj_mod. Qed.

Section Blocks.
Context {st : Type} (compress : st -> list Z -> st).

Fixpoint absorb (n : nat) (s : st) (msg : list Z) : st :=
  match n with
  | O => s
  | S n' => absorb n' (compress s (take 64 msg)) (drop 64 msg)
  end.

(** All the whole blocks of a message. *)
Definition absorb_all (s : st) (msg : list Z) : st := absorb (length msg / 64) s msg.

(** [for (; i + 63 < len; i += 64) transform(&data[i])]. *)
Fixpoint transform_loop (fuel : nat) (s : st) (data : list Z) (i : Z) : option (st * Z) :=
  match fuel with
  | O => None
  | S fuel' =>
      if i + 63 <? zlen data then
        block ← memread data i 64;
        transform_loop fuel' (compress s block) data (i + 64)
      else Some (s, i)
  end.

(** A state and its buffer, of the message [msg]: its blocks are absorbed, the buffer begins with
    what is left. *)
Definition holds (s0 : st) (msg : list Z) (s : st) (buffer : list Z) : Prop :=
  length buffer = 64%nat /\ s = absorb_all s0 msg /\
  take (length msg mod 64) buffer = drop (64 * (length msg / 64)) msg.

Lemma absorb_app n s a b : length a = (64 * n)%nat -> forall m, absorb (n + m) s (a ++ b) = absorb m (absorb n s a) b.
Proof.
  revert s a. induction n as [|n IH]; intros s a Ha m.
  - destruct a; [done|cbn [length] in Ha; lia].
  - cbn [absorb Nat.add]. rewrite take_app_le, drop_app_le by lia. apply IH. rewrite length_drop. lia.
Qed.

Lemma absorb_tail n s a b : length a = (64 * n)%nat -> absorb n s (a ++ b) = absorb n s a.
Proof. intros Ha. rewrite <- (Nat.add_0_r n) at 1. by rewrite absorb_app. Qed.

Lemma absorb_all_app s a b : (length a mod 64 = 0)%nat -> absorb_all s (a ++ b) = absorb_all (absorb_all s a) b.
Proof.
  intros Ha. unfold absorb_all. assert (length a = 64 * (length a / 64))%nat as Hq by (pose proof (Nat.div_mod_eq (length a) 64); lia).
  rewrite <- (absorb_app _ s a b Hq). f_equal. rewrite length_app, Hq at 1. rewrite (Nat.mul_comm 64), Nat.div_add_l by lia. done.
Qed.

Lemma absorb_all_short s a : (length a < 64)%nat -> absorb_all s a = s.
Proof. intros Ha. unfold absorb_all. by rewrite Nat.div_small. Qed.

Lemma absorb_all_block s a : length a = 64%nat -> absorb_all s a = compress s a.
Proof. intros Ha. unfold absorb_all. rewrite Ha. change (64 / 64)%nat with 1%nat. cbn [absorb]. by rewrite take_ge by lia. Qed.

(** The whole blocks of a message, and the rest. *)
Lemma blocks_split (msg : list Z) : exists a t, msg = a ++ t /\ length a = (64 * (length msg / 64))%nat /\ length t = (length msg mod 64)%nat /\
  (length a mod 64 = 0)%nat.
Proof.
  pose proof (Nat.div_mod_eq (length msg) 64). pose proof (Nat.mod_upper_bound (length msg) 64 ltac:(lia)).
  exists (take (64 * (length msg / 64)) msg), (drop (64 * (length msg / 64)) msg). rewrite take_drop, length_take, length_drop.
  split_and!; [done|lia|lia|]. rewrite Nat.min_l by lia. rewrite Nat.mul_comm. apply Nat.Div0.mod_mul.
Qed.

Lemma transform_loop_exact fuel s data i : 0 <= i -> (Z.to_nat (zlen data - i) / 64 < fuel)%nat -> i <= zlen data ->
  transform_loop fuel s data i =
    Some (absorb_all s (drop (Z.to_nat i) data), i + 64 * Z.of_nat (length (drop (Z.to_nat i) data) / 64)).
Proof.
  revert s i. induction fuel as [|fuel IH]; intros s i Hi Hf Hle; [lia|]. cbn [transform_loop].
  assert (length (drop (Z.to_nat i) data) = Z.to_nat (zlen data - i)) as Hlen by (rewrite length_drop; unfold zlen; lia).
  destruct (Z.ltb_spec (i + 63) (zlen data)).
  - rewrite memread_Some by lia. cbn [mbind option_bind].
    assert (Z.to_nat (zlen data - i) = Z.to_nat (zlen data - (i + 64)) + 1 * 64)%nat as Hstep by lia.
    rewrite Hstep in Hf. rewrite Nat.div_add in Hf by lia. rewrite IH by lia.
    assert (drop (Z.to_nat i) data = slice i 64 data ++ drop (Z.to_nat (i + 64)) data) as ->.
    { unfold slice. rewrite <- (take_drop (Z.to_nat 64) (drop (Z.to_nat i) data)) at 1. rewrite drop_drop. do 3 f_equal. lia. }
    assert (length (slice i 64 data) = 64%nat) as Hsl by (unfold slice; rewrite length_take, Hlen; lia).
    rewrite absorb_all_app by by rewrite Hsl. rewrite (absorb_all_block s (slice i 64 data)) by done.
    f_equal. f_equal. rewrite length_app, Hsl. change 64%nat with (1 * 64)%nat at 2. rewrite Nat.div_add_l by lia. lia.
  - rewrite absorb_all_short by lia. rewrite Hlen, Nat.div_small by lia. f_equal. f_equal. lia.
Qed.

Lemma holds_start s0 buffer : length buffer = 64%nat -> holds s0 [] s0 buffer.
Proof. intros Hb. unfold holds. split_and!; [done|done|]. by rewrite take_0. Qed.

(** Data that does not fill the buffer. *)
Lemma holds_small s0 msg s buffer data : holds s0 msg s buffer -> (length msg mod 64 + length data < 64)%nat ->
  exists buffer', memcpy_at buffer (Z.of_nat (length msg mod 64)) data = Some buffer' /\ holds s0 (msg ++ data) s buffer'.
Proof.
  intros (Hb & -> & Ht) Hlen. rewrite memcpy_at_Some by (unfold zlen; lia). eexists; split; [done|].
  destruct (blocks_split msg) as (a & t & Hmsg & Ha & Hlt & Hm). set (q := (length msg / 64)%nat) in *.
  assert (drop (64 * q) msg = t) as Hd by (rewrite Hmsg, <- Ha; apply drop_app_length). rewrite Hd in Ht.
  assert (length (msg ++ data) mod 64 = length t + length data /\ length (msg ++ data) / 64 = q)%nat as [Hmod Hdiv].
  { rewrite length_app, Hmsg, length_app, Ha, <- Nat.add_assoc. rewrite (Nat.mul_comm 64).
    split; [rewrite (Nat.add_comm (q * 64)), Nat.Div0.mod_add; apply Nat.mod_small; lia|].
    rewrite Nat.div_add_l by lia. rewrite Nat.div_small by lia. lia. }
  unfold holds. rewrite Hmod, Hdiv. split_and!.
  - rewrite !length_app, length_take, length_drop. unfold zlen. lia.
  - unfold absorb_all. rewrite Hdiv, Hmsg, <- app_assoc. fold q.
    replace (length (a ++ t) / 64)%nat with q by by rewrite <- Hmsg. by rewrite !absorb_tail.
  - rewrite Nat2Z.id, <- Hlt, Hd || rewrite Nat2Z.id. rewrite Ht. rewrite drop_app_le by (rewrite Hmsg, length_app; lia). rewrite Hd.
    rewrite app_assoc. apply take_app_length'. rewrite length_app. done.
Qed.

(** Data that fills it: the buffer is completed and absorbed, then the blocks of the data, and the
    rest is kept. *)
Lemma holds_big s0 msg s buffer data : holds s0 msg s buffer -> (64 <= length msg mod 64 + length data)%nat ->
  let i := 64 - Z.of_nat (length msg mod 64) in
  exists buffer1 s' i' buffer', memread data 0 i = Some (slice 0 i data) /\
    memcpy_at buffer (Z.of_nat (length msg mod 64)) (slice 0 i data) = Some buffer1 /\
    (forall fuel, (length data < fuel)%nat -> transform_loop fuel (compress s buffer1) data i = Some (s', i')) /\
    i <= i' <= zlen data /\
    memread data i' (zlen data - i') = Some (slice i' (zlen data - i') data) /\
    memcpy_at buffer1 0 (slice i' (zlen data - i') data) = Some buffer' /\ holds s0 (msg ++ data) s' buffer'.
Proof.
  intros (Hb & -> & Ht) Hlen i. pose proof (Nat.mod_upper_bound (length msg) 64 ltac:(lia)) as Hj.
  destruct (blocks_split msg) as (a & t & Hmsg & Ha & Hlt & Hm). set (q := (length msg / 64)%nat) in *.
  assert (drop (64 * q) msg = t) as Hd by (rewrite Hmsg, <- Ha; apply drop_app_length). rewrite Hd in Ht.
  assert (length (slice 0 i data) = Z.to_nat i) as Hsl by (unfold slice; rewrite drop_0, length_take; lia).
  rewrite memread_Some by (unfold zlen; lia).
  rewrite (memcpy_at_Some buffer) by (unfold zlen; lia).
  rewrite (drop_ge buffer) by (unfold zlen; lia). rewrite app_nil_r, Nat2Z.id, Ht.
  set (rest := drop (Z.to_nat i) data). assert (length rest = length data - Z.to_nat i)%nat as Hr by (unfold rest; by rewrite length_drop).
  set (i' := i + 64 * Z.of_nat (length rest / 64)).
  pose proof (Nat.div_mod_eq (length rest) 64) as Hdm. pose proof (Nat.mod_upper_bound (length rest) 64 ltac:(lia)) as Hmu.
  assert (i <= i' <= zlen data) as Hi' by (unfold i', zlen; lia).
  assert (slice i' (zlen data - i') data = drop (64 * (length rest / 64)) rest) as Hslice.
  { unfold slice, rest. rewrite drop_drop. rewrite take_ge by (rewrite length_drop; unfold zlen; lia). f_equal. fold rest. lia. }
  assert (length (slice i' (zlen data - i') data) = length rest mod 64)%nat as Hl' by (rewrite Hslice, length_drop; lia).
  eexists _, _, i', _. split; [done|]. split; [done|]. split.
  { intros fuel Hf. rewrite transform_loop_exact; [done|lia| |unfold zlen; lia].
    apply Nat.le_lt_trans with (length data); [|done]. apply Nat.Div0.div_le_upper_bound. unfold zlen. lia. }
  split; [done|]. split; [apply memread_Some; lia|]. split; [apply memcpy_at_Some; [lia|rewrite zlen_app; unfold zlen at 1 3 4; lia]|].
  assert (msg ++ data = (a ++ (t ++ slice 0 i data)) ++ rest) as Hall.
  { rewrite Hmsg, <- !app_assoc. do 2 f_equal. unfold slice, rest. rewrite drop_0. by rewrite take_drop. }
  assert (length (t ++ slice 0 i data) = 64%nat) as H64 by (rewrite length_app; lia).
  assert (length (a ++ (t ++ slice 0 i data)) mod 64 = 0)%nat as Hm1.
  { rewrite length_app, H64, Ha. replace (64 * q + 64)%nat with ((q + 1) * 64)%nat by lia. apply Nat.Div0.mod_mul. }
  assert (length (msg ++ data) mod 64 = length rest mod 64 /\ length (msg ++ data) / 64 = q + 1 + length rest / 64)%nat as [Hmod Hdiv].
  { rewrite Hall, length_app, length_app, H64, Ha. replace (64 * q + 64 + length rest)%nat with (length rest + (q + 1) * 64)%nat by lia.
    split; [apply Nat.Div0.mod_add|rewrite Nat.div_add by lia; lia]. }
  unfold holds. rewrite Hmod, Hdiv. split_and!.
  - rewrite take_0, app_nil_l, length_app, length_drop. rewrite (length_app t), Z.add_0_l. unfold zlen at 2. rewrite Nat2Z.id.
    rewrite Hl'. rewrite length_app in H64. lia.
  - rewrite Hall, absorb_all_app by done. fold rest. f_equal. rewrite absorb_all_app by done.
    rewrite (absorb_all_block _ (t ++ slice 0 i data)) by done. f_equal. rewrite Hmsg, absorb_all_app by done. apply absorb_all_short. lia.
  - rewrite take_0, app_nil_l. rewrite take_app_length' by done. rewrite Hslice, Hall.
    rewrite drop_app_ge by (rewrite length_app; lia). f_equal. rewrite length_app. lia.
Qed.
End Blocks.

Lemma absorb_all_ext {st} (f g : st -> list Z -> st) (P : st -> Prop) s msg :
  (forall s b, P s -> bytes_ok b -> length b = 64%nat -> f s b = g s b /\ P (g s b)) -> P s -> bytes_ok msg ->
  absorb_all f s msg = absorb_all g s msg /\ P (absorb_all g s msg).
Proof.
  intros Hfg. unfold absorb_all.
  assert (forall n s msg, (64 * n <= length msg)%nat -> P s -> bytes_ok msg -> absorb f n s msg = absorb g n s msg /\ P (absorb g n s msg)) as H.
  { clear s msg. induction n as [|n IH]; intros s msg Hn Hs Hok; [done|]. cbn [absorb].
    destruct (Hfg s (take 64 msg) Hs) as [-> HP]; [by apply Forall_take|rewrite length_take; lia|].
    apply IH; [rewrite length_drop; lia|done|by apply Forall_drop]. }
  intros Hs Hok. apply H; [|done|done]. pose proof (Nat.div_mod_eq (length msg) 64). lia.
Qed.

(** ** Padding *)

(** A one bit, zeros up to the last eight bytes of a block, and there the length. *)
Definition padding (len_bytes : list Z) (n : Z) : list Z := 0x80 :: replicate (Z.to_nat ((55 - n) mod 64)) 0 ++ len_bytes.

Lemma padding_fills len_bytes n : length len_bytes = 8%nat -> (n + zlen (padding len_bytes n)) mod 64 = 0.
Proof.
  intros H8. unfold padding. rewrite zlen_cons, zlen_app, zlen_replicate. unfold zlen. rewrite H8.
  pose proof (Z.mod_pos_bound (55 - n) 64 ltac:(lia)). rewrite Z2Nat.id by lia.
  replace (n + (1 + ((55 - n) mod 64 + Z.of_nat 8))) with ((55 - n) mod 64 + (n + 9)) by lia. rewrite Zplus_mod_idemp_l.
  replace (55 - n + (n + 9)) with 64 by lia. done.
Qed.
