(* ===== verification/Sha1.v ===== *)
(** SHA-1 and HMAC-SHA-1 as the websocket handshake computes them:
    src/imp/network/websocket/websocket_connection_helper.cpp (ws_sha1_*, ws_hmac_sha1), and the
    definitions of FIPS 180-4 and RFC 2104 they implement. *)
From S2P Require Import Prelude Digest.
From Stdlib Require Import Bool.

(** ** The code *)

Record ws_sha1_ctx := mkSha1 { sha_state : list Z; count0 : Z; count1 : Z; sha_buffer : list Z }.

(** The buffer keeps what was on the stack. *)
Definition ws_sha1_init (junk : list Z) : ws_sha1_ctx :=
  mkSha1 [0x67452301; 0xEFCDAB89; 0x98BADCFE; 0x10325476; 0xC3D2E1F0] 0 0 junk.

(** The sixteen words of the union that the block is copied to, on a little-endian machine. *)
Fixpoint le_words (n : nat) (bytes : list Z) : list Z :=
  match n, bytes with
  | S n', b0 :: b1 :: b2 :: b3 :: bytes' =>
      Z.lor b0 (Z.lor (Z.shiftl b1 8) (Z.lor (Z.shiftl b2 16) (Z.shiftl b3 24))) :: le_words n' bytes'
  | _, _ => []
  end.

Definition swap_bytes (x : Z) : Z := Z.lor (Z.land (rotl x 24) 0xFF00FF00) (Z.land (rotl x 8) 0x00FF00FF).

(** [blk0] and [blk]: the word they give and the block they leave. *)
Definition blk0 (block : list Z) (i : nat) : Z * list Z :=
  let v := swap_bytes (block !!! i) in (v, <[i := v]> block).

Definition blk (block : list Z) (i : nat) : Z * list Z :=
  let v := rotl (Z.lxor (Z.lxor (Z.lxor (block !!! ((i + 13) mod 16)) (block !!! ((i + 8) mod 16)))
                         (block !!! ((i + 2) mod 16))) (block !!! (i mod 16)))%nat 1 in
  (v, <[(i mod 16)%nat := v]> block).

(** What the macros have in common: [z += f(w, x, y) + word + K + rol(v, 5); w = rol(w, 30)] on the variables
    with the numbers [v] to [z]. *)
Definition round_macro (f : Z -> Z -> Z -> Z) (K : Z) (word : list Z -> nat -> Z * list Z) (v w x y z i : nat)
    (m : list Z * list Z) : list Z * list Z :=
  let '(r, block) := m in
  let '(b, block) := word block i in
  let r := <[z := u32 (r !!! z + (f (r !!! w) (r !!! x) (r !!! y) + b + K + rotl (r !!! v) 5))]> r in
  (<[w := rotl (r !!! w) 30]> r, block).

Definition R0 := round_macro (fun w x y => Z.lxor (Z.land w (Z.lxor x y)) y) 0x5A827999 blk0.
Definition R1 := round_macro (fun w x y => Z.lxor (Z.land w (Z.lxor x y)) y) 0x5A827999 blk.
Definition R2 := round_macro (fun w x y => Z.lxor (Z.lxor w x) y) 0x6ED9EBA1 blk.
Definition R3 := round_macro (fun w x y => Z.lor (Z.land (Z.lor w x) y) (Z.land w x)) 0x8F1BBCDC blk.
Definition R4 := round_macro (fun w x y => Z.lxor (Z.lxor w x) y) 0xCA62C1D6 blk.

(** Line [i] of the eighty: the macro of its range, on the five variables turned by one place from line to
    line: (a, b, c, d, e), (e, a, b, c, d), and so on. *)
Definition transform_line (m : list Z * list Z) (i : nat) : list Z * list Z :=
  let v := ((80 - i) mod 5)%nat in
  (if (i <? 16)%nat then R0 else if (i <? 20)%nat then R1 else if (i <? 40)%nat then R2
   else if (i <? 60)%nat then R3 else R4)
    v ((v + 1) mod 5)%nat ((v + 2) mod 5)%nat ((v + 3) mod 5)%nat ((v + 4) mod 5)%nat i m.

Definition ws_sha1_transform (state buffer : list Z) : list Z :=
  let '(r, _) := foldl transform_line (state, le_words 16 buffer) (seq 0 80) in
  zip_with (fun s x => u32 (s + x)) state r.

Definition ws_sha1_update (context : ws_sha1_ctx) (data : list Z) : option ws_sha1_ctx :=
  let len := zlen data in
  let j := count0 context in
  let c0 := u32 (count0 context + u32 (Z.shiftl (u32 len) 3)) in
  let c1 := if c0 <? j then u32 (count1 context + 1) else count1 context in
  let c1 := u32 (c1 + u32 (Z.shiftr len 29)) in
  let j := Z.land (Z.shiftr j 3) 63 in
  if 63 <? j + len then
    let i := 64 - j in
    piece ← memread data 0 i;
    buffer ← memcpy_at (sha_buffer context) j piece;
    '(state, i) ← transform_loop ws_sha1_transform (S (length data)) (ws_sha1_transform (sha_state context) buffer) data i;
    piece ← memread data i (len - i);
    buffer ← memcpy_at buffer 0 piece;
    Some (mkSha1 state c0 c1 buffer)
  else
    buffer ← memcpy_at (sha_buffer context) j data;
    Some (mkSha1 (sha_state context) c0 c1 buffer).

(** [while ((context->count[0] & 504) != 448)]. *)
Fixpoint pad_loop (fuel : nat) (context : ws_sha1_ctx) : option ws_sha1_ctx :=
  match fuel with
  | O => None
  | S fuel' =>
      if negb (Z.land (count0 context) 504 =? 448) then
        context ← ws_sha1_update context [0];
        pad_loop fuel' context
      else Some context
  end.

(** The digest; the context is erased. *)
Definition ws_sha1_final (context : ws_sha1_ctx) : option (list Z) :=
  let finalcount := map (fun i => Z.land (Z.shiftr (if 4 <=? i then count0 context else count1 context) ((3 - Z.land i 3) * 8)) 255)
                        [0; 1; 2; 3; 4; 5; 6; 7] in
  context ← ws_sha1_update context [0x80];
  context ← pad_loop 64 context;
  context ← ws_sha1_update context finalcount;
  Some (map (fun i => Z.land (Z.shiftr (sha_state context !!! (i / 4)%nat) ((3 - Z.of_nat (i mod 4)) * 8)) 255) (seq 0 20)).

(** A whole message, given in pieces. *)
Fixpoint update_all (context : ws_sha1_ctx) (pieces : list (list Z)) : option ws_sha1_ctx :=
  match pieces with
  | [] => Some context
  | p :: pieces' => context ← ws_sha1_update context p; update_all context pieces'
  end.

(** [init], the updates and [final]; [junk] is the memory of the context. *)
Definition sha1_of (junk : list Z) (pieces : list (list Z)) : option (list Z) :=
  context ← update_all (ws_sha1_init junk) pieces;
  ws_sha1_final context.

(** One context serves all the digests; [ws_sha1_final] leaves it erased. *)
Definition ws_hmac_sha1 (junk key data : list Z) : option (list Z) :=
  '(key, junk) ← (if 64 <? zlen key then tmp_key ← sha1_of junk [key]; Some (tmp_key, replicate 64 0) else Some (key, junk));
  buf ← memcpy_at (replicate 64 0) 0 key;
  let buf1 := map (fun b => Z.lxor b 0x36) buf in
  let buf2 := map (fun b => Z.lxor b 0x5c) buf in
  out ← sha1_of junk [buf1; data];
  sha1_of (replicate 64 0) [buf2; out].

(** ** The standard *)

Definition sha1_H0 : list Z := [0x67452301; 0xEFCDAB89; 0x98BADCFE; 0x10325476; 0xC3D2E1F0].

(** The sixteen words of a block, most significant byte first. *)
Fixpoint be_words (n : nat) (bytes : list Z) : list Z :=
  match n, bytes with
  | S n', b0 :: b1 :: b2 :: b3 :: bytes' =>
      Z.lor (Z.shiftl b0 24) (Z.lor (Z.shiftl b1 16) (Z.lor (Z.shiftl b2 8) b3)) :: be_words n' bytes'
  | _, _ => []
  end.

(** The first [16 + n] words of the message schedule. *)
Fixpoint schedule (block : list Z) (n : nat) : list Z :=
  match n with
  | O => be_words 16 block
  | S n' =>
      let W := schedule block n' in
      W ++ [rotl (Z.lxor (Z.lxor (Z.lxor (W !!! (n' + 13)) (W !!! (n' + 8))) (W !!! (n' + 2))) (W !!! n'))%nat 1]
  end.

Definition Ch (x y z : Z) : Z := Z.lxor (Z.land x y) (Z.land (Z.lnot x) z).
Definition Parity (x y z : Z) : Z := Z.lxor (Z.lxor x y) z.
Definition Maj (x y z : Z) : Z := Z.lxor (Z.lxor (Z.land x y) (Z.land x z)) (Z.land y z).

Definition sha1_f (t : nat) : Z -> Z -> Z -> Z :=
  if (t <? 20)%nat then Ch else if (t <? 40)%nat then Parity else if (t <? 60)%nat then Maj else Parity.
Definition sha1_K (t : nat) : Z :=
  if (t <? 20)%nat then 0x5A827999 else if (t <? 40)%nat then 0x6ED9EBA1 else if (t <? 60)%nat then 0x8F1BBCDC else 0xCA62C1D6.

Definition sha1_round (W : list Z) (h : list Z) (t : nat) : list Z :=
  match h with
  | [a; b; c; d; e] => [u32 (rotl a 5 + sha1_f t b c d + e + sha1_K t + W !!! t); a; rotl b 30; c; d]
  | _ => h
  end.

Definition sha1_compress (H block : list Z) : list Z :=
  zip_with (fun s x => u32 (s + x)) H (foldl (sha1_round (schedule block 64)) H (seq 0 80)).

Definition SHA1 (msg : list Z) : list Z :=
  concat (map (be_bytes 4) (absorb_all sha1_compress sha1_H0 (msg ++ padding (be_bytes 8 (8 * zlen msg)) (zlen msg)))).

(** RFC 2104 with SHA-1 and its blocks of 64 bytes. *)
Definition HMAC (key text : list Z) : list Z :=
  let K := if 64 <? zlen key then SHA1 key else key in
  let K := K ++ replicate (64 - length K) 0 in
  SHA1 (map (Z.lxor 0x5c) K ++ SHA1 (map (Z.lxor 0x36) K ++ text)).

Example sha1_abc : option_map be_value (sha1_of (replicate 64 99) [[97]; [98; 99]]) = Some 0xA9993E364706816ABA3E25717850C26C9CD0D89D /\
  be_value (SHA1 [97; 98; 99]) = 0xA9993E364706816ABA3E25717850C26C9CD0D89D.
Proof. split; vm_compute; reflexivity. Qed.

(** ** The compression function *)

Lemma rotl_testbit x n i : 0 <= n <= 32 -> 0 <= i ->
  Z.testbit (rotl x n) i = ((i <? 32) && (n <=? i) && Z.testbit x (i - n)) || Z.testbit x (i + (32 - n)).
Proof.
  intros Hn Hi. unfold rotl. rewrite Z.lor_spec, wrap_testbit, Z.shiftr_spec, Z.shiftl_spec by lia.
  destruct (Z.leb_spec n i); [by rewrite andb_true_r|]. rewrite (Z.testbit_neg_r x (i - n)) by lia. by rewrite !andb_false_r.
Qed.

Ltac bits_tauto := repeat match goal with |- context [Z.testbit ?a ?b] => destruct (Z.testbit a b) end; reflexivity.

Lemma byte_high b n : is_byte b -> 8 <= n -> Z.testbit b n = false.
Proof. intros Hb Hn. apply (bits_above 8); [exact Hb|lia]. Qed.

Lemma byte_word_bits b0 b1 b2 b3 i : is_byte b0 -> is_byte b1 -> is_byte b2 -> is_byte b3 ->
  Z.testbit (Z.lor b0 (Z.lor (Z.shiftl b1 8) (Z.lor (Z.shiftl b2 16) (Z.shiftl b3 24)))) i =
  if i <? 8 then Z.testbit b0 i else if i <? 16 then Z.testbit b1 (i - 8) else if i <? 24 then Z.testbit b2 (i - 16)
  else Z.testbit b3 (i - 24).
Proof.
  intros H0 H1 H2 H3. destruct (Z.lt_ge_cases i 0) as [Hi|Hi].
  { rewrite (Z.testbit_neg_r _ i) by done. destruct (Z.ltb_spec i 8); [|lia]. by rewrite Z.testbit_neg_r. }
  rewrite !Z.lor_spec, !Z.shiftl_spec by lia.
  destruct (Z.ltb_spec i 8); [|destruct (Z.ltb_spec i 16); [|destruct (Z.ltb_spec i 24)]];
    rewrite ?(Z.testbit_neg_r b1 (i - 8)), ?(Z.testbit_neg_r b2 (i - 16)), ?(Z.testbit_neg_r b3 (i - 24)) by lia;
    rewrite ?(byte_high b0 i), ?(byte_high b1 (i - 8)), ?(byte_high b2 (i - 16)) by (done || lia); rewrite ?orb_false_r, ?orb_false_l; done.
Qed.

Ltac range_cases := repeat match goal with
  | |- context [?x <? ?y] => destruct (Z.ltb_spec x y); try lia
  | |- context [?x <=? ?y] => destruct (Z.leb_spec x y); try lia
  end; cbn [andb orb negb].

Lemma swap_masks i : 0 <= i < 32 -> Z.testbit 0xFF00FF00 i = (8 <=? i) && ((i <? 16) || (24 <=? i)) /\
  Z.testbit 0x00FF00FF i = negb (Z.testbit 0xFF00FF00 i).
Proof.
  intros Hi.
  assert (forallb (fun n => let i := Z.of_nat n in eqb (Z.testbit 0xFF00FF00 i) ((8 <=? i) && ((i <? 16) || (24 <=? i))) &&
    eqb (Z.testbit 0x00FF00FF i) (negb (Z.testbit 0xFF00FF00 i))) (seq 0 32) = true) as H by (vm_compute; reflexivity).
  rewrite forallb_forall in H. specialize (H (Z.to_nat i)). cbv zeta in H. rewrite Z2Nat.id in H by lia.
  destruct (andb_prop _ _ (H ltac:(apply in_seq; lia))) as [H1 H2]. split; by apply eqb_prop.
Qed.

Lemma swap_bytes_word b0 b1 b2 b3 : is_byte b0 -> is_byte b1 -> is_byte b2 -> is_byte b3 ->
  swap_bytes (Z.lor b0 (Z.lor (Z.shiftl b1 8) (Z.lor (Z.shiftl b2 16) (Z.shiftl b3 24)))) =
  Z.lor (Z.shiftl b0 24) (Z.lor (Z.shiftl b1 16) (Z.lor (Z.shiftl b2 8) b3)).
Proof.
  intros H0 H1 H2 H3. apply Z.bits_inj'. intros i Hi.
  replace (Z.lor (Z.shiftl b0 24) (Z.lor (Z.shiftl b1 16) (Z.lor (Z.shiftl b2 8) b3))) with
    (Z.lor b3 (Z.lor (Z.shiftl b2 8) (Z.lor (Z.shiftl b1 16) (Z.shiftl b0 24))))
    by (apply Z.bits_inj'; intros; rewrite !Z.lor_spec; bits_tauto).
  rewrite byte_word_bits by done. unfold swap_bytes. rewrite Z.lor_spec, !Z.land_spec, !rotl_testbit by lia.
  rewrite !byte_word_bits by done.
  destruct (Z.lt_ge_cases i 32); [destruct (swap_masks i) as [Hm1 Hm2]; [lia|]; rewrite Hm2, Hm1|]; range_cases;
    rewrite ?andb_false_r, ?orb_false_r, ?andb_true_r;
    repeat match goal with |- context [Z.testbit ?b ?n] => rewrite (byte_high b n) by (done || lia) end;
    rewrite ?orb_false_r, ?orb_false_l; first [done|f_equal; lia].
Qed.

Lemma Ch_code x y z : Z.lxor (Z.land x (Z.lxor y z)) z = Ch x y z.
Proof. apply Z.bits_inj'. intros i Hi. unfold Ch. rewrite !Z.lxor_spec, !Z.land_spec, Z.lnot_spec, Z.lxor_spec by done. bits_tauto. Qed.

Lemma Maj_code x y z : Z.lor (Z.land (Z.lor x y) z) (Z.land x y) = Maj x y z.
Proof. apply Z.bits_inj'. intros i Hi. unfold Maj. rewrite !Z.lxor_spec, !Z.lor_spec, !Z.land_spec, Z.lor_spec. bits_tauto. Qed.

Lemma length_be_words n : forall bytes, length bytes = (4 * n)%nat -> length (be_words n bytes) = n.
Proof.
  induction n as [|n IH]; intros bytes Hl; [done|].
  destruct bytes as [|b0 [|b1 [|b2 [|b3 bytes]]]]; cbn [length] in Hl; try lia. cbn [be_words length]. rewrite IH by lia. done.
Qed.

Lemma words_swapped n : forall bytes, length bytes = (4 * n)%nat -> bytes_ok bytes ->
  length (le_words n bytes) = n /\ forall j, (j < n)%nat -> swap_bytes (le_words n bytes !!! j) = be_words n bytes !!! j.
Proof.
  induction n as [|n IH]; intros bytes Hl Hok; [split; [done|lia]|].
  destruct bytes as [|b0 [|b1 [|b2 [|b3 bytes]]]]; cbn [length] in Hl; try lia.
  do 4 (apply Forall_cons in Hok as [? Hok]). destruct (IH bytes ltac:(lia) Hok) as [Hlen Hj].
  split; [cbn [le_words length]; by rewrite Hlen|]. intros [|j] Hlt; [by apply swap_bytes_word|apply (Hj j); lia].
Qed.

Lemma length_schedule block n : length block = 64%nat -> length (schedule block n) = (16 + n)%nat.
Proof. intros Hb. induction n as [|n IH]; [by apply length_be_words|]. cbn [schedule]. rewrite length_app, IH. cbn [length]. lia. Qed.

Lemma schedule_prefix block n t : length block = 64%nat -> (t < 16 + n)%nat -> forall m, (n <= m)%nat ->
  schedule block m !!! t = schedule block n !!! t.
Proof.
  intros Hb Ht m Hm. induction Hm as [|m Hm IH]; [done|]. rewrite <- IH. cbn [schedule].
  apply lookup_total_app_l. rewrite length_schedule by done. lia.
Qed.

(** The words of the block at line [t], for the schedule [W]: those used last, in a ring. *)
Definition ring (W words block : list Z) (t : nat) : Prop :=
  length block = 16%nat /\
  (forall k, (k < t <= k + 16)%nat -> block !!! (k mod 16)%nat = W !!! k) /\
  (forall j, (t <= j < 16)%nat -> block !!! j = words !!! j).

Lemma list_lookup_total_insert_case (l : list Z) i j v : (j < length l)%nat ->
  <[j := v]> l !!! i = if decide (i = j) then v else l !!! i.
Proof.
  intros Hj. destruct (decide (i = j)) as [->|Hne]; [by apply list_lookup_total_insert_eq|by apply list_lookup_total_insert_ne].
Qed.

Lemma mod16_inj k t : (k < t < k + 16)%nat -> (k mod 16 <> t mod 16)%nat.
Proof. intros Hk He. pose proof (Nat.div_mod_eq k 16). pose proof (Nat.div_mod_eq t 16). lia. Qed.

Lemma ring_step W words block t v : ring W words block t -> v = W !!! t -> ring W words (<[(t mod 16)%nat := v]> block) (S t).
Proof.
  intros (Hl & Hk & Hj) ->. pose proof (Nat.mod_upper_bound t 16 ltac:(lia)). unfold ring. rewrite length_insert. split_and!; [done| |].
  - intros k Hkt. rewrite list_lookup_total_insert_case by lia. destruct (decide (k mod 16 = t mod 16)%nat) as [He|Hne].
    + destruct (decide (k = t)) as [->|]; [done|]. exfalso. revert He. apply mod16_inj. lia.
    + apply Hk. assert (k <> t) by (intros ->; done). lia.
  - intros j Hjt. rewrite list_lookup_total_insert_ne; [apply Hj; lia|]. rewrite Nat.mod_small by lia. lia.
Qed.

Section Transform.
Context (state buffer : list Z) (Hstate : length state = 5%nat) (Hbuffer : length buffer = 64%nat) (Hbytes : bytes_ok buffer).

Let W := schedule buffer 64.

Lemma W_first t : (t < 16)%nat -> W !!! t = be_words 16 buffer !!! t.
Proof. intros Ht. apply (schedule_prefix buffer 0); [done|lia|lia]. Qed.

Lemma W_next t : (16 <= t < 80)%nat ->
  W !!! t = rotl (Z.lxor (Z.lxor (Z.lxor (W !!! (t - 3)) (W !!! (t - 8))) (W !!! (t - 14))) (W !!! (t - 16)))%nat 1.
Proof.
  intros Ht. unfold W at 1. rewrite (schedule_prefix buffer (S (t - 16))) by (done || lia). cbn [schedule].
  rewrite lookup_total_app_r by (rewrite length_schedule by done; lia). rewrite length_schedule by done.
  replace (t - (16 + (t - 16)))%nat with 0%nat by lia. cbn [lookup_total list_lookup_total].
  assert (forall k, (k < t)%nat -> W !!! k = schedule buffer (t - 16) !!! k) as Hp by (intros; apply schedule_prefix; [done|lia|lia]).
  rewrite !Hp by lia.
  replace (t - 16 + 13)%nat with (t - 3)%nat by lia. replace (t - 16 + 8)%nat with (t - 8)%nat by lia.
  by replace (t - 16 + 2)%nat with (t - 14)%nat by lia.
Qed.

Lemma word_of_line block t : (t < 80)%nat -> ring W (le_words 16 buffer) block t ->
  (if (t <? 16)%nat then blk0 else blk) block t = (W !!! t, <[(t mod 16)%nat := W !!! t]> block).
Proof.
  intros Ht (Hl & Hk & Hj). destruct (Nat.ltb_spec t 16).
  - unfold blk0. rewrite Hj by lia. rewrite (Nat.mod_small t 16) by lia.
    rewrite (proj2 (words_swapped 16 buffer Hbuffer Hbytes)), W_first by lia. done.
  - unfold blk. rewrite W_next by lia.
    assert (forall d, (d < 16)%nat -> (t + d) mod 16 = (t - (16 - d)) mod 16)%nat as Hd.
    { intros d Hd. replace (t + d)%nat with (t - (16 - d) + 1 * 16)%nat by lia. apply Nat.Div0.mod_add. }
    rewrite (Hd 13%nat), (Hd 8%nat), (Hd 2%nat) by lia. rewrite !Hk by lia.
    assert (block !!! (t mod 16)%nat = W !!! (t - 16)%nat) as Ht16.
    { rewrite <- (Hk (t - 16)%nat) by lia. f_equal. replace t with (t - 16 + 1 * 16)%nat at 1 by lia. apply Nat.Div0.mod_add. }
    by rewrite Ht16.
Qed.

(** The variables from number [v] on, as the standard lists them. *)
Definition view (v : nat) (r : list Z) : list Z :=
  [r !!! v; r !!! ((v + 1) mod 5); r !!! ((v + 2) mod 5); r !!! ((v + 3) mod 5); r !!! ((v + 4) mod 5)]%nat.

Lemma view_step v r f K b : (v < 5)%nat -> length r = 5%nat ->
  let z := ((v + 4) mod 5)%nat in let w := ((v + 1) mod 5)%nat in
  let r1 := <[z := u32 (r !!! z + (f (r !!! w) (r !!! ((v + 2) mod 5)%nat) (r !!! ((v + 3) mod 5)%nat) + b + K + rotl (r !!! v) 5))]> r in
  match view v r with
  | [a; b0; c; d; e] => view z (<[w := rotl (r1 !!! w) 30]> r1) = [u32 (e + (f b0 c d + b + K + rotl a 5)); a; rotl b0 30; c; d]
  | _ => False
  end.
Proof.
  intros Hv Hr. destruct r as [|r0 [|r1 [|r2 [|r3 [|r4 [|]]]]]]; try done.
  do 5 (destruct v as [|v]; [reflexivity|]). lia.
Qed.

Lemma line_step r block t : (t < 80)%nat -> length r = 5%nat -> ring W (le_words 16 buffer) block t ->
  let v := ((80 - t) mod 5)%nat in let m := transform_line (r, block) t in
  length m.1 = 5%nat /\ ring W (le_words 16 buffer) m.2 (S t) /\
  view ((80 - S t) mod 5)%nat m.1 = sha1_round W (view v r) t.
Proof.
  intros Ht Hr Hring v m. pose proof (word_of_line block t Ht Hring) as Hword.
  pose proof (ring_step _ _ _ _ _ Hring eq_refl) as Hring'.
  assert (v < 5)%nat as Hv by (apply Nat.mod_upper_bound; lia).
  assert ((80 - S t) mod 5 = (v + 4) mod 5)%nat as Hv'.
  { unfold v. rewrite Nat.Div0.add_mod_idemp_l. replace (80 - t + 4)%nat with (80 - S t + 1 * 5)%nat by lia. by rewrite Nat.Div0.mod_add. }
  assert (exists f, m = round_macro f (sha1_K t) (if (t <? 16)%nat then blk0 else blk) v ((v + 1) mod 5)%nat ((v + 2) mod 5)%nat
    ((v + 3) mod 5)%nat ((v + 4) mod 5)%nat t (r, block) /\ forall x y z, f x y z = sha1_f t x y z) as (f & Hm & Hf).
  { unfold m, transform_line, sha1_K, sha1_f. fold v.
    destruct (Nat.ltb_spec t 16), (Nat.ltb_spec t 20), (Nat.ltb_spec t 40), (Nat.ltb_spec t 60); try lia;
      (eexists; split; [reflexivity|intros; first [apply Ch_code|apply Maj_code|done]]). }
  rewrite Hm, Hv'. cbn [round_macro]. rewrite Hword. cbn [fst snd]. split; [by rewrite !length_insert|]. split; [done|].
  pose proof (view_step v r f (sha1_K t) (W !!! t) Hv Hr) as Hview. unfold view at 1 in Hview. cbv zeta in Hview |- *. rewrite Hview.
  unfold view, sha1_round. rewrite Hf. f_equal. f_equal. lia.
Qed.

Lemma ws_sha1_transform_exact : ws_sha1_transform state buffer = sha1_compress state buffer.
Proof.
  unfold ws_sha1_transform, sha1_compress. fold W.
  assert (forall t, (t <= 80)%nat -> let m := foldl transform_line (state, le_words 16 buffer) (seq 0 t) in
    length m.1 = 5%nat /\ ring W (le_words 16 buffer) m.2 t /\ view ((80 - t) mod 5)%nat m.1 = foldl (sha1_round W) state (seq 0 t)) as H.
  { induction t as [|t IH]; intros Ht m.
    - split; [done|]. split; [|by destruct state as [|? [|? [|? [|? [|? [|]]]]]]].
      destruct (words_swapped 16 buffer Hbuffer Hbytes) as [Hl _]. split_and!; [done|intros; lia|done].
    - unfold m. rewrite seq_S, !foldl_app. cbn [foldl Nat.add]. destruct (IH ltac:(lia)) as (H1 & H2 & H3).
      destruct (foldl transform_line (state, le_words 16 buffer) (seq 0 t)) as [r block]. cbn [fst snd] in *.
      rewrite <- H3. by apply line_step. }
  destruct (H 80%nat ltac:(lia)) as (H1 & _ & H3). destruct (foldl transform_line _ _) as [r block]. cbn [fst] in *.
  rewrite <- H3. by destruct r as [|? [|? [|? [|? [|? [|]]]]]].
Qed.
End Transform.

Lemma length_sha1_round W h t : length h = 5%nat -> length (sha1_round W h t) = 5%nat.
Proof. destruct h as [|? [|? [|? [|? [|? [|]]]]]]; done. Qed.

Lemma length_sha1_compress h block : length h = 5%nat -> length (sha1_compress h block) = 5%nat.
Proof.
  intros Hh. unfold sha1_compress. rewrite length_zip_with. set (W := schedule block 64). clearbody W.
  assert (forall l h, length h = 5%nat -> length (foldl (sha1_round W) h l) = 5%nat) as H.
  { induction l as [|t l IH]; intros h' Hh'; [done|]. cbn [foldl]. apply IH. by apply length_sha1_round. }
  rewrite H by done. lia.
Qed.

Lemma absorb_sha1 msg : bytes_ok msg ->
  absorb_all ws_sha1_transform sha1_H0 msg = absorb_all sha1_compress sha1_H0 msg /\ length (absorb_all sha1_compress sha1_H0 msg) = 5%nat.
Proof.
  intros Hok. apply (absorb_all_ext _ _ (fun s => length s = 5%nat)); [|done|done]. intros s b Hs Hb Hl.
  split; [by apply ws_sha1_transform_exact|by apply length_sha1_compress].
Qed.

(** ** The context *)

(** A context that has taken [msg]. *)
Definition taken (msg : list Z) (c : ws_sha1_ctx) : Prop :=
  holds ws_sha1_transform sha1_H0 msg (sha_state c) (sha_buffer c) /\
  0 <= count0 c < 2 ^ 32 /\ 0 <= count1 c < 2 ^ 32 /\
  count1 c * 2 ^ 32 + count0 c = (8 * zlen msg) mod 2 ^ 64.

Lemma taken_init junk : length junk = 64%nat -> taken [] (ws_sha1_init junk).
Proof. intros Hj. unfold taken. split; [by apply holds_start|]. cbn [count0 count1 ws_sha1_init]. change (zlen (@nil Z)) with 0. split_and!; done. Qed.

Lemma two_words B x s : 0 < B -> 0 <= s < B -> (x * B + s) mod (B * B) = x mod B * B + s.
Proof.
  intros HB Hs. rewrite Z.rem_mul_r by lia. rewrite (Z.add_comm (x * B)), Z.mod_add, Z.div_add by lia.
  rewrite Z.mod_small, Z.div_small by lia. rewrite ?Z.add_0_l. ring.
Qed.

(** The 64-bit count in two words. *)
Lemma count_exact c0 c1 n len : 0 <= c0 < 2 ^ 32 -> 0 <= c1 < 2 ^ 32 -> 0 <= n -> 0 <= len -> c1 * 2 ^ 32 + c0 = (8 * n) mod 2 ^ 64 ->
  let c0' := u32 (c0 + u32 (Z.shiftl (u32 len) 3)) in
  let c1' := u32 ((if c0' <? c0 then u32 (c1 + 1) else c1) + u32 (Z.shiftr len 29)) in
  0 <= c0' < 2 ^ 32 /\ 0 <= c1' < 2 ^ 32 /\ c1' * 2 ^ 32 + c0' = (8 * (n + len)) mod 2 ^ 64.
Proof.
  intros H0 H1 Hn Hlen Hc c0' c1'. split; [by apply wrap_range|]. split; [by apply wrap_range|].
  unfold c1', c0', wrap. rewrite Z.shiftl_mul_pow2, Z.shiftr_div_pow2 by lia.
  set (lo := (len mod 2 ^ 32 * 2 ^ 3) mod 2 ^ 32). set (hi := len / 2 ^ 29).
  assert (8 * len = hi * 2 ^ 32 + lo /\ 0 <= lo < 2 ^ 32 /\ 0 <= hi) as (Hl & Hlo & Hhi).
  { unfold lo, hi. change (2 ^ 3) with 8. change (2 ^ 29) with 536870912. change (2 ^ 32) with 4294967296. Z.div_mod_to_equations. lia. }
  clearbody lo hi. replace (8 * (n + len)) with (8 * n + 8 * len) by lia. rewrite <- (Zplus_mod_idemp_l (8 * n)), <- Hc, Hl.
  change (2 ^ 64) with (2 ^ 32 * 2 ^ 32). set (B := 2 ^ 32) in *. assert (0 < B) as HB by done. clearbody B.
  rewrite Zplus_mod_idemp_r. destruct (Z.lt_ge_cases (c0 + lo) B).
  - rewrite (Z.mod_small (c0 + lo)) by lia. destruct (Z.ltb_spec (c0 + lo) c0); [lia|].
    rewrite <- (two_words B) by lia. f_equal. lia.
  - assert ((c0 + lo) mod B = c0 + lo - B) as -> by (symmetry; apply (Z.mod_unique _ _ 1); lia).
    destruct (Z.ltb_spec (c0 + lo - B) c0); [|lia]. rewrite Zplus_mod_idemp_l. rewrite <- (two_words B) by lia. f_equal. lia.
Qed.

Lemma used_exact c0 c1 n : 0 <= c0 < 2 ^ 32 -> 0 <= n -> c1 * 2 ^ 32 + c0 = (8 * n) mod 2 ^ 64 -> Z.land (Z.shiftr c0 3) 63 = n mod 64.
Proof.
  intros H0 Hn Hc. change 63 with (Z.ones 6). rewrite Z.land_ones, Z.shiftr_div_pow2 by lia.
  change (2 ^ 32) with 4294967296 in *. change (2 ^ 64) with 18446744073709551616 in *. change (2 ^ 3) with 8. change (2 ^ 6) with 64.
  Z.div_mod_to_equations. lia.
Qed.

Lemma ws_sha1_update_exact msg c data : taken msg c -> exists c', ws_sha1_update c data = Some c' /\ taken (msg ++ data) c'.
Proof.
  intros (Hh & H0 & H1 & Hc). unfold ws_sha1_update.
  destruct (count_exact _ _ _ (zlen data) H0 H1 (zlen_nonneg msg) (zlen_nonneg data) Hc) as (Hr0 & Hr1 & Hcount).
  rewrite <- zlen_app in Hcount. cbv zeta in Hr0, Hr1, Hcount |- *.
  rewrite (used_exact _ _ _ H0 (zlen_nonneg msg) Hc), zlen_mod.
  destruct (Z.ltb_spec 63 (Z.of_nat (length msg mod 64) + zlen data)) as [Hbig|Hsmall].
  - destruct (holds_big _ _ _ _ _ data Hh ltac:(unfold zlen in Hbig; lia)) as (b1 & s' & i' & b' & -> & Hb1 & Hloop & _ & Hrd & Hb' & Hh').
    cbn [mbind option_bind]. rewrite Hb1. cbn [mbind option_bind]. rewrite Hloop by lia. cbn [mbind option_bind].
    rewrite Hrd. cbn [mbind option_bind]. rewrite Hb'. cbn [mbind option_bind]. eexists; split; [done|]. done.
  - destruct (holds_small _ _ _ _ _ data Hh ltac:(unfold zlen in Hsmall; lia)) as (b' & -> & Hh'). cbn [mbind option_bind].
    eexists; split; [done|]. done.
Qed.

Lemma count_flag c0 c1 n : 0 <= c0 < 2 ^ 32 -> 0 <= n -> c1 * 2 ^ 32 + c0 = (8 * n) mod 2 ^ 64 -> (Z.land c0 504 =? 448) = (n mod 64 =? 56).
Proof.
  intros H0 Hn Hc. rewrite <- (used_exact c0 c1 n H0 Hn Hc).
  assert (c0 = Z.shiftl (Z.shiftr c0 3) 3) as E.
  { rewrite Z.shiftl_mul_pow2, Z.shiftr_div_pow2 by lia. change (2 ^ 32) with 4294967296 in *.
    change (2 ^ 64) with 18446744073709551616 in *. change (2 ^ 3) with 8. Z.div_mod_to_equations. lia. }
  rewrite E at 1. change 504 with (Z.shiftl 63 3). rewrite <- Z.shiftl_land. rewrite Z.shiftl_mul_pow2 by lia. change (2 ^ 3) with 8.
  destruct (Z.eqb_spec (Z.land (Z.shiftr c0 3) 63) 56), (Z.eqb_spec (Z.land (Z.shiftr c0 3) 63 * 8) 448); lia.
Qed.

Lemma pad_loop_exact k : forall fuel msg c, taken msg c -> (56 - zlen msg) mod 64 = Z.of_nat k -> (k < fuel)%nat ->
  exists c', pad_loop fuel c = Some c' /\ taken (msg ++ replicate k 0) c'.
Proof.
  induction k as [|k IH]; intros fuel msg c Ht Hk Hf; (destruct fuel as [|fuel]; [lia|]); cbn [pad_loop];
    pose proof Ht as (_ & H0 & _ & Hc); rewrite (count_flag _ _ _ H0 (zlen_nonneg msg) Hc).
  - assert (zlen msg mod 64 = 56) as -> by (Z.div_mod_to_equations; lia). cbn [negb Z.eqb Pos.eqb]. eexists; split; [done|].
    cbn [replicate]. by rewrite app_nil_r.
  - replace (zlen msg mod 64 =? 56) with false by (symmetry; apply Z.eqb_neq; Z.div_mod_to_equations; lia). cbn [negb].
    destruct (ws_sha1_update_exact msg c [0] Ht) as (c1 & -> & Ht1). cbn [mbind option_bind].
    destruct (IH fuel (msg ++ [0]) c1 Ht1) as (c2 & Hc2 & Ht2); [|lia|].
    + rewrite zlen_app. change (zlen [0]) with 1. pose proof (Z.mod_pos_bound (56 - zlen msg) 64 ltac:(lia)).
      replace (56 - (zlen msg + 1)) with (56 - zlen msg + -1) by lia. rewrite <- Zplus_mod_idemp_l, Hk. rewrite Z.mod_small by lia. lia.
    + exists c2. split; [done|]. rewrite <- app_assoc in Ht2. exact Ht2.
Qed.

Lemma byte_of x k : 0 <= k -> Z.land (Z.shiftr x k) 255 = (x / 2 ^ k) mod 256.
Proof. intros Hk. change 255 with (Z.ones 8). by rewrite Z.land_ones, Z.shiftr_div_pow2 by lia. Qed.

Lemma finalcount_exact c0 c1 n : 0 <= c0 < 2 ^ 32 -> 0 <= c1 < 2 ^ 32 -> c1 * 2 ^ 32 + c0 = n ->
  map (fun i => Z.land (Z.shiftr (if 4 <=? i then c0 else c1) ((3 - Z.land i 3) * 8)) 255) [0; 1; 2; 3; 4; 5; 6; 7] = be_bytes 8 n.
Proof.
  intros H0 H1 <-. transitivity (map (fun p => (fst p / 2 ^ snd p) mod 256) [(c1, 24); (c1, 16); (c1, 8); (c1, 0); (c0, 24); (c0, 16); (c0, 8); (c0, 0)]).
  { cbn [map fst snd]. rewrite !byte_of by (vm_compute; congruence). reflexivity. }
  cbn [map fst snd be_bytes].
  repeat match goal with |- context [2 ^ (8 * Z.of_nat ?k)] => let v := eval compute in (2 ^ (8 * Z.of_nat k)) in change (2 ^ (8 * Z.of_nat k)) with v end.
  change (2 ^ 32) with 4294967296 in *. change (2 ^ 24) with 16777216. change (2 ^ 16) with 65536. change (2 ^ 8) with 256. change (2 ^ 0) with 1.
  do 7 (f_equal; [Z.div_mod_to_equations; lia|]). f_equal. Z.div_mod_to_equations. lia.
Qed.

(** The digest of the words. *)
Lemma digest_bytes s : length s = 5%nat ->
  map (fun i => Z.land (Z.shiftr (s !!! (i / 4)%nat) ((3 - Z.of_nat (i mod 4)) * 8)) 255) (seq 0 20) = concat (map (be_bytes 4) s).
Proof.
  intros Hs. destruct s as [|a [|b [|c [|d [|e [|]]]]]]; try done.
  cbn [map seq]. rewrite !byte_of by (vm_compute; congruence). reflexivity.
Qed.

Lemma be_bytes_mod n : 0 <= n < 2 ^ 61 -> (8 * n) mod 2 ^ 64 = 8 * n.
Proof. intros Hn. apply Z.mod_small. lia. Qed.

Lemma ws_sha1_final_exact msg c : taken msg c -> bytes_ok msg -> zlen msg < 2 ^ 61 -> ws_sha1_final c = Some (SHA1 msg).
Proof.
  intros Ht Hok Hlen. pose proof (zlen_nonneg msg) as Hn. unfold ws_sha1_final. pose proof Ht as (_ & H0 & H1 & Hc).
  rewrite be_bytes_mod in Hc by lia. rewrite (finalcount_exact _ _ _ H0 H1 Hc).
  destruct (ws_sha1_update_exact msg c [0x80] Ht) as (d1 & -> & Ht1). cbn [mbind option_bind].
  destruct (pad_loop_exact (Z.to_nat ((55 - zlen msg) mod 64)) 64 _ d1 Ht1) as (d2 & -> & Ht2).
  { rewrite zlen_app. change (zlen [0x80]) with 1. pose proof (Z.mod_pos_bound (55 - zlen msg) 64 ltac:(lia)). rewrite Z2Nat.id by lia. f_equal. lia. }
  { pose proof (Z.mod_pos_bound (55 - zlen msg) 64 ltac:(lia)). lia. }
  cbn [mbind option_bind].
  destruct (ws_sha1_update_exact _ d2 (be_bytes 8 (8 * zlen msg)) Ht2) as (d3 & -> & (Hh & _)). cbn [mbind option_bind].
  assert (((msg ++ [128]) ++ replicate (Z.to_nat ((55 - zlen msg) mod 64)) 0) ++ be_bytes 8 (8 * zlen msg) =
    msg ++ padding (be_bytes 8 (8 * zlen msg)) (zlen msg)) as Hpad by (unfold padding; by rewrite <- !app_assoc).
  rewrite Hpad in Hh. destruct Hh as (_ & Hs & _).
  assert (bytes_ok (msg ++ padding (be_bytes 8 (8 * zlen msg)) (zlen msg))) as Hok'.
  { apply Forall_app; split; [done|]. constructor; [done|]. apply Forall_app; split; [|apply be_bytes_ok]. by apply Forall_replicate. }
  destruct (absorb_sha1 _ Hok') as [He Hl]. rewrite He in Hs. rewrite Hs, digest_bytes by done. done.
Qed.

Lemma update_all_exact pieces : forall msg c, taken msg c -> exists c', update_all c pieces = Some c' /\ taken (msg ++ concat pieces) c'.
Proof.
  induction pieces as [|p pieces IH]; intros msg c Ht; cbn [update_all concat].
  - rewrite app_nil_r. by exists c.
  - destruct (ws_sha1_update_exact msg c p Ht) as (c1 & -> & Ht1). cbn [mbind option_bind].
    destruct (IH _ _ Ht1) as (c2 & -> & Ht2). rewrite <- app_assoc in Ht2. by exists c2.
Qed.

Lemma sha1_of_exact junk pieces : length junk = 64%nat -> bytes_ok (concat pieces) -> zlen (concat pieces) < 2 ^ 61 ->
  sha1_of junk pieces = Some (SHA1 (concat pieces)).
Proof.
  intros Hj Hok Hlen. unfold sha1_of. destruct (update_all_exact pieces [] _ (taken_init junk Hj)) as (c & -> & Ht). cbn [mbind option_bind].
  by apply ws_sha1_final_exact.
Qed.

Lemma length_SHA1 msg : bytes_ok msg -> bytes_ok (SHA1 msg) /\ zlen (SHA1 msg) = 20.
Proof.
  intros Hok. unfold SHA1. assert (bytes_ok (msg ++ padding (be_bytes 8 (8 * zlen msg)) (zlen msg))) as Hok'.
  { apply Forall_app; split; [done|]. constructor; [done|]. apply Forall_app; split; [|apply be_bytes_ok]. by apply Forall_replicate. }
  destruct (absorb_sha1 _ Hok') as [_ Hl]. destruct (absorb_all _ _ _) as [|a [|b [|c [|d [|e [|]]]]]]; try done.
  split; [|done]. cbn [map concat]. repeat (apply Forall_app; split; [apply be_bytes_ok|]). constructor.
Qed.

(** C35. The incremental SHA-1 is, for messages of less than 2^61 bytes, the SHA-1 of FIPS 180-4, however the message
    is cut into pieces and whatever the context contained before; the HMAC built on it is that of RFC 2104. *)
Theorem sha1_exact junk pieces key text :
  length junk = 64%nat -> bytes_ok (concat pieces) -> zlen (concat pieces) < 2 ^ 61 ->
  bytes_ok key -> bytes_ok text -> zlen key < 2 ^ 61 -> zlen text < 2 ^ 60 ->
  sha1_of junk pieces = Some (SHA1 (concat pieces)) /\ ws_hmac_sha1 junk key text = Some (HMAC key text).
Proof.
  intros Hj Hok Hlen Hk Ht Hlk Hlt. split; [by apply sha1_of_exact|]. unfold ws_hmac_sha1, HMAC.
  set (K := if 64 <? zlen key then SHA1 key else key).
  assert (bytes_ok K /\ (length K <= 64)%nat /\ exists junk', length junk' = 64%nat /\
    (if 64 <? zlen key then tmp_key ← sha1_of junk [key]; Some (tmp_key, replicate 64 0) else Some (key, junk)) = Some (K, junk'))
    as (HK & HKl & junk' & Hj' & ->).
  { unfold K. destruct (Z.ltb_spec 64 (zlen key)); [|split_and!; [done|unfold zlen in *; lia|by exists junk]].
    destruct (length_SHA1 key Hk) as [H1 H2]. split_and!; [done|unfold zlen in *; lia|]. exists (replicate 64 0). split; [done|].
    rewrite sha1_of_exact by (cbn [concat]; rewrite ?app_nil_r; done). cbn [concat]. by rewrite app_nil_r. }
  cbn [mbind option_bind]. clearbody K. rewrite memcpy_at_Some by (rewrite ?zlen_replicate; unfold zlen; lia). cbn [mbind option_bind].
  change (Z.to_nat 0) with 0%nat. rewrite take_0, app_nil_l, drop_replicate. replace (Z.to_nat (0 + zlen K)) with (length K) by (unfold zlen; lia).
  set (P := K ++ replicate (64 - length K) 0).
  assert (bytes_ok P) as HP by (apply Forall_app; split; [done|by apply Forall_replicate]).
  assert (length P = 64%nat) as HPl by (unfold P; rewrite length_app, length_replicate; lia).
  assert (forall x, is_byte x -> bytes_ok (map (fun b => Z.lxor b x) P)) as Hx.
  { intros x Hx. apply List.Forall_map. eapply Forall_impl; [exact HP|]. intros b Hb. by apply lxor_byte. }
  assert (forall x, map (fun b => Z.lxor b x) P = map (Z.lxor x) P) as Hcomm by (intros x; apply List.map_ext; intros; apply Z.lxor_comm).
  assert (forall f : Z -> Z, zlen (map f P) = 64) as Hl by (intros f; unfold zlen; rewrite List.length_map, HPl; done).
  assert (bytes_ok (map (fun b => Z.lxor b 0x36) P ++ text)) as H1 by (apply Forall_app; split; [by apply Hx|done]).
  rewrite sha1_of_exact; [|done|cbn [concat]; by rewrite app_nil_r|cbn [concat]; rewrite app_nil_r, zlen_app, Hl; lia].
  cbn [concat mbind option_bind]. rewrite app_nil_r. destruct (length_SHA1 _ H1) as [H2 H3].
  rewrite sha1_of_exact; [|done|cbn [concat]; rewrite app_nil_r; apply Forall_app; split; [by apply Hx|done]
    |cbn [concat]; rewrite app_nil_r, zlen_app, Hl; lia].
  cbn [concat]. rewrite app_nil_r. by rewrite !Hcomm.
Qed.

(** RFC 2202, test case 2: the key "Jefe", and "what do ya want for nothing?". *)
Definition jefe : list Z := [74; 101; 102; 101].
Definition what_do : list Z := [119; 104; 97; 116; 32; 100; 111; 32; 121; 97; 32; 119; 97; 110; 116; 32; 102; 111; 114; 32;
  110; 111; 116; 104; 105; 110; 103; 63].

Lemma what_do_ok : bytes_ok jefe /\ bytes_ok what_do.
Proof. unfold bytes_ok, is_byte. split; repeat constructor; done. Qed.

Lemma sha1_exact_witness :
  sha1_of (replicate 64 7) [take 5 what_do; drop 5 what_do] = Some (SHA1 what_do) /\
  ws_hmac_sha1 (replicate 64 7) jefe what_do = Some (HMAC jefe what_do) /\
  be_value (HMAC jefe what_do) = 0xeffcdf6ae5eb2fa2d27416d5f184df9c259a7c79.
Proof.
  destruct (sha1_exact (replicate 64 7) [take 5 what_do; drop 5 what_do] jefe what_do) as [H1 H2];
    [vm_compute; reflexivity|exact (proj2 what_do_ok)|vm_compute; reflexivity|exact (proj1 what_do_ok)|exact (proj2 what_do_ok)
    |vm_compute; reflexivity|vm_compute; reflexivity|].
  split; [exact H1|]. split; [exact H2|]. vm_compute. reflexivity.
Defined.
