(* ===== verification/Sha256.v ===== *)
(** SHA-256: [Iutils::sha256] of src/imp/common/iutils.cpp, and the definition of FIPS 180-4 it
    implements.

    The bytes of a word are shifted by [8 * (3 - i)] with [i] up to 63: from the fourth on the amount is
    negative, which C++ leaves undefined.  [machine_shl] stands for what the processor does there. *)
From S2P Require Import Prelude Digest.

(** ** The code *)

(** [((w >> n) | (w) << (32-(n)))]. *)
Definition rightrotate (w n : Z) : Z := Z.lor (Z.shiftr w n) (u32 (Z.shiftl w (32 - n))).

Definition k : list Z :=
  0x428a2f98 :: 0x71374491 :: 0xb5c0fbcf :: 0xe9b5dba5 :: 0x3956c25b :: 0x59f111f1 :: 0x923f82a4 :: 0xab1c5ed5 ::
  0xd807aa98 :: 0x12835b01 :: 0x243185be :: 0x550c7dc3 :: 0x72be5d74 :: 0x80deb1fe :: 0x9bdc06a7 :: 0xc19bf174 ::
  0xe49b69c1 :: 0xefbe4786 :: 0x0fc19dc6 :: 0x240ca1cc :: 0x2de92c6f :: 0x4a7484aa :: 0x5cb0a9dc :: 0x76f988da ::
  0x983e5152 :: 0xa831c66d :: 0xb00327c8 :: 0xbf597fc7 :: 0xc6e00bf3 :: 0xd5a79147 :: 0x06ca6351 :: 0x14292967 ::
  0x27b70a85 :: 0x2e1b2138 :: 0x4d2c6dfc :: 0x53380d13 :: 0x650a7354 :: 0x766a0abb :: 0x81c2c92e :: 0x92722c85 ::
  0xa2bfe8a1 :: 0xa81a664b :: 0xc24b8b70 :: 0xc76c51a3 :: 0xd192e819 :: 0xd6990624 :: 0xf40e3585 :: 0x106aa070 ::
  0x19a4c116 :: 0x1e376c08 :: 0x2748774c :: 0x34b0bcb5 :: 0x391c0cb3 :: 0x4ed8aa4a :: 0x5b9cca4f :: 0x682e6ff3 ::
  0x748f82ee :: 0x78a5636f :: 0x84c87814 :: 0x8cc70208 :: 0x90befffa :: 0xa4506ceb :: 0xbef9a3f7 :: 0xc67178f2 ::
  nil.

Definition h_init : list Z := [0x6a09e667; 0xbb67ae85; 0x3c6ef372; 0xa54ff53a; 0x510e527f; 0x9b05688c; 0x1f83d9ab; 0x5be0cd19].

Section Machine.
(** [x << n] of 32-bit values. *)
Context (machine_shl : Z -> Z -> Z).

(** The loop that collects the words of chunk [idx]: [val] and the words. *)
Definition collect (buf : list Z) (idx : Z) (vw : option (Z * list Z)) (i : nat) : option (Z * list Z) :=
  '(val, w) ← vw;
  b ← buf !! Z.to_nat (idx * 64 + Z.of_nat i);
  let val := Z.lor val (machine_shl b (8 * (3 - Z.of_nat i))) in
  Some (if Nat.eqb (i mod 4) 3 then (0, <[(i / 4)%nat := val]> w) else (val, w)).

Definition extend (w : list Z) (i : nat) : list Z :=
  let s0 := Z.lxor (Z.lxor (rightrotate (w !!! (i - 15)%nat) 7) (rightrotate (w !!! (i - 15)%nat) 18)) (Z.shiftr (w !!! (i - 15)%nat) 3) in
  let s1 := Z.lxor (Z.lxor (rightrotate (w !!! (i - 2)%nat) 17) (rightrotate (w !!! (i - 2)%nat) 19)) (Z.shiftr (w !!! (i - 2)%nat) 10) in
  <[i := u32 (w !!! (i - 16)%nat + s0 + w !!! (i - 7)%nat + s1)]> w.

(** One turn of the main loop, on (a, b, c, d, e, f, g, h). *)
Definition round (w : list Z) (v : list Z) (i : nat) : list Z :=
  match v with
  | [a; b; c; d; e; f; g; h] =>
      let s_1 := Z.lxor (Z.lxor (rightrotate e 6) (rightrotate e 11)) (rightrotate e 25) in
      let ch := Z.lxor (Z.land e f) (Z.land (not32 e) g) in
      let temp1 := u32 (h + s_1 + ch + k !!! i + w !!! i) in
      let s_0 := Z.lxor (Z.lxor (rightrotate a 2) (rightrotate a 13)) (rightrotate a 22) in
      let maj := Z.lxor (Z.lxor (Z.land a b) (Z.land a c)) (Z.land b c) in
      let temp2 := u32 (s_0 + maj) in
      [u32 (temp1 + temp2); a; b; c; u32 (d + temp1); e; f; g]
  | _ => v
  end.

(** One chunk; [w] is not cleared between the chunks. *)
Definition chunk (buf : list Z) (hw : list Z * list Z) (idx : nat) : option (list Z * list Z) :=
  let '(hs, w) := hw in
  '(_, w) ← foldl (collect buf (Z.of_nat idx)) (Some (0, w)) (seq 0 64);
  let w := foldl extend w (seq 16 48) in
  let v := foldl (round w) hs (seq 0 64) in
  Some (zip_with (fun x y => u32 (x + y)) hs v, w).

Fixpoint chunks (buf : list Z) (hw : list Z * list Z) (idxs : list nat) : option (list Z * list Z) :=
  match idxs with
  | [] => Some hw
  | idx :: idxs' => hw ← chunk buf hw idx; chunks buf hw idxs'
  end.

(** [junk] is what [malloc] gave; [data] is what the pointer points to. *)
Definition sha256 (junk : Z -> list Z) (data : list Z) : option (list Z) :=
  let data_len := zlen data in
  let r := u32 (data_len * 8) mod 512 in
  let append := (if r <? 448 then 448 - r else 448 + 512 - r) / 8 in
  let new_len := u32 (data_len + append + 8) in
  let buf := junk new_len in
  buf ← memcpy_at buf data_len (replicate (Z.to_nat append) 0);
  buf ← memcpy_at buf 0 data;
  buf ← memcpy_at buf data_len [0x80];
  let bits_len := u32 (data_len * 8) in
  buf ← memcpy_at buf (data_len + append)
    (map (fun i => Z.land (Z.shiftr bits_len ((7 - i) * 8)) 0xff) [0; 1; 2; 3; 4; 5; 6; 7]);
  let chunk_len := Z.to_nat (new_len / 64) in
  '(hs, _) ← chunks buf (h_init, replicate 64 0) (seq 0 chunk_len);
  Some (concat (map (be_bytes 4) hs)).
End Machine.

(** What the shift instructions of x86 do: the amount counts modulo 32. *)
Definition shl_masked (x n : Z) : Z := u32 (Z.shiftl x (n mod 32)).

(** ** The standard *)

(** The first 32 bits of the fractional parts of the square and cube roots of a number. *)
Definition frac_sqrt (p : Z) : Z := Z.sqrt (p * 2 ^ 64) mod 2 ^ 32.
Fixpoint cbrt_bits (n : nat) (x acc : Z) : Z :=
  match n with
  | O => acc
  | S n' => let acc' := acc + 2 ^ Z.of_nat n' in cbrt_bits n' x (if acc' * acc' * acc' <=? x then acc' else acc)
  end.
Definition frac_cbrt (p : Z) : Z := cbrt_bits 36 (p * 2 ^ 96) 0 mod 2 ^ 32.

(** The first [n] primes. *)
Definition is_prime (p : Z) : bool := forallb (fun d => negb (p mod Z.of_nat d =? 0)) (seq 2 (Z.to_nat p - 2)).
Definition primes (n : nat) : list Z := take n (List.filter is_prime (map Z.of_nat (seq 2 400))).

Definition ROTR (n x : Z) : Z := Z.lor (Z.shiftr x n) (u32 (Z.shiftl x (32 - n))).
Definition Ch (x y z : Z) : Z := Z.lxor (Z.land x y) (Z.land (Z.lnot x) z).
Definition Maj (x y z : Z) : Z := Z.lxor (Z.lxor (Z.land x y) (Z.land x z)) (Z.land y z).
Definition Sigma0 (x : Z) : Z := Z.lxor (Z.lxor (ROTR 2 x) (ROTR 13 x)) (ROTR 22 x).
Definition Sigma1 (x : Z) : Z := Z.lxor (Z.lxor (ROTR 6 x) (ROTR 11 x)) (ROTR 25 x).
Definition sigma0 (x : Z) : Z := Z.lxor (Z.lxor (ROTR 7 x) (ROTR 18 x)) (Z.shiftr x 3).
Definition sigma1 (x : Z) : Z := Z.lxor (Z.lxor (ROTR 17 x) (ROTR 19 x)) (Z.shiftr x 10).

(** The words of a block, and the first [16 + n] of its schedule. *)
Fixpoint block_words (n : nat) (bytes : list Z) : list Z :=
  match n with O => [] | S n' => be_value (take 4 bytes) :: block_words n' (drop 4 bytes) end.
Fixpoint schedule (block : list Z) (n : nat) : list Z :=
  match n with
  | O => block_words 16 block
  | S n' =>
      let W := schedule block n' in
      W ++ [u32 (sigma1 (W !!! (n' + 14)%nat) + W !!! (n' + 9)%nat + sigma0 (W !!! (n' + 1)%nat) + W !!! n')]
  end.

Definition sha256_round (K W : list Z) (v : list Z) (t : nat) : list Z :=
  match v with
  | [a; b; c; d; e; f; g; h] =>
      let T1 := h + Sigma1 e + Ch e f g + K !!! t + W !!! t in
      let T2 := Sigma0 a + Maj a b c in
      [u32 (T1 + T2); a; b; c; u32 (d + T1); e; f; g]
  | _ => v
  end.

Definition sha256_compress (H block : list Z) : list Z :=
  zip_with (fun x y => u32 (x + y)) H
    (foldl (sha256_round (map frac_cbrt (primes 64)) (schedule block 48)) H (seq 0 64)).

Definition SHA256 (msg : list Z) : list Z :=
  concat (map (be_bytes 4)
    (absorb_all sha256_compress (map frac_sqrt (primes 8)) (msg ++ padding (be_bytes 8 (8 * zlen msg)) (zlen msg)))).

Example sha256_abc : option_map be_value (sha256 shl_masked (fun n => replicate (Z.to_nat n) 99) [97; 98; 99]) =
    Some 0xba7816bf8f01cfea414140de5dae2223b00361a396177a9cb410ff61f20015ad /\
  be_value (SHA256 [97; 98; 99]) = 0xba7816bf8f01cfea414140de5dae2223b00361a396177a9cb410ff61f20015ad.
Proof. split; vm_compute; reflexivity. Qed.

Lemma constants_standard : map frac_cbrt (primes 64) = k /\ map frac_sqrt (primes 8) = h_init.
Proof. split; vm_compute; reflexivity. Qed.

(** ** One chunk *)

Lemma length_block_words n bytes : length (block_words n bytes) = n.
Proof. revert bytes. induction n as [|n IH]; intros; cbn [block_words length]; [done|]. by rewrite IH. Qed.

Lemma block_words_snoc n : forall bytes, block_words (S n) bytes = block_words n bytes ++ [be_value (take 4 (drop (4 * n) bytes))].
Proof.
  induction n as [|n IH]; intros bytes; [done|]. change (block_words (S (S n)) bytes) with (be_value (take 4 bytes) :: block_words (S n) (drop 4 bytes)).
  rewrite IH, drop_drop. by replace (4 + 4 * n)%nat with (4 * S n)%nat by lia.
Qed.

Lemma length_schedule256 block n : length (schedule block n) = (16 + n)%nat.
Proof. induction n as [|n IH]; [apply length_block_words|]. cbn [schedule]. rewrite length_app, IH. cbn [length]. lia. Qed.

Lemma four_bytes b0 b1 b2 b3 : is_byte b0 -> is_byte b1 -> is_byte b2 -> is_byte b3 ->
  Z.lor (Z.lor (Z.lor (Z.lor 0 (Z.shiftl b0 24)) (Z.shiftl b1 16)) (Z.shiftl b2 8)) b3 = be_value [b0; b1; b2; b3].
Proof.
  unfold is_byte. intros H0 H1 H2 H3. rewrite Z.lor_0_l.
  replace (Z.shiftl b0 24) with (Z.shiftl (Z.shiftl b0 8) 16) by by rewrite Z.shiftl_shiftl.
  rewrite <- Z.shiftl_lor, (lor_shift b0 b1 8) by (change (2 ^ 8) with 256; lia).
  replace (Z.shiftl (b0 * 2 ^ 8 + b1) 16) with (Z.shiftl (Z.shiftl (b0 * 2 ^ 8 + b1) 8) 8) by by rewrite Z.shiftl_shiftl.
  rewrite <- Z.shiftl_lor, (lor_shift _ b2 8), (lor_shift _ b3 8) by (change (2 ^ 8) with 256; lia). unfold be_value. cbn [be_value_from]. change (2 ^ 8) with 256. lia.
Qed.

Section Machine.
Context (machine_shl : Z -> Z -> Z).
Hypothesis Hshl : forall x n, is_byte x -> -480 <= n <= 24 -> machine_shl x n = u32 (Z.shiftl x (n mod 32)).

Lemma byte_shifted b i j : is_byte b -> (i < 64)%nat -> (i mod 4 = j)%nat -> machine_shl b (8 * (3 - Z.of_nat i)) = Z.shiftl b (8 * (3 - Z.of_nat j)).
Proof.
  intros Hb Hi Hj. rewrite Hshl by (done || lia). pose proof (Nat.div_mod_eq i 4). assert (0 <= Z.of_nat j < 4) by (pose proof (Nat.mod_upper_bound i 4); lia).
  replace (8 * (3 - Z.of_nat i)) with (8 * (3 - Z.of_nat j) + - Z.of_nat (i / 4) * 32) by lia.
  rewrite Z.mod_add, Z.mod_small by lia. apply wrap_small. unfold is_byte in Hb. rewrite Z.shiftl_mul_pow2 by lia.
  assert (2 ^ (8 * (3 - Z.of_nat j)) <= 2 ^ 24) by (apply Z.pow_le_mono_r; lia).
  assert (0 < 2 ^ (8 * (3 - Z.of_nat j))) by (apply Z.pow_pos_nonneg; lia). change (2 ^ 24) with 16777216 in *. change (2 ^ 32) with (256 * 16777216). nia.
Qed.

Lemma collect_word buf idx w g b0 b1 b2 b3 : (g < 16)%nat -> is_byte b0 -> is_byte b1 -> is_byte b2 -> is_byte b3 ->
  take 4 (drop (64 * idx + 4 * g) buf) = [b0; b1; b2; b3] ->
  foldl (collect machine_shl buf (Z.of_nat idx)) (Some (0, w)) (seq (4 * g) 4) = Some (0, <[g := be_value [b0; b1; b2; b3]]> w).
Proof.
  intros Hg H0 H1 H2 H3 Hbytes.
  assert (forall j b, [b0; b1; b2; b3] !! j = Some b -> (j < 4)%nat ->
    buf !! Z.to_nat (Z.of_nat idx * 64 + Z.of_nat (4 * g + j)) = Some b) as Hbuf.
  { intros j b Hj Hlt. rewrite <- Hbytes, lookup_take_lt, lookup_drop in Hj by done. rewrite <- Hj. f_equal. lia. }
  assert (forall j, (j < 4)%nat -> ((4 * g + j) mod 4 = j)%nat /\ ((4 * g + j) / 4 = g)%nat) as Hmod.
  { intros j Hj. rewrite (Nat.add_comm (4 * g)), (Nat.mul_comm 4), Nat.Div0.mod_add, Nat.div_add by lia. rewrite Nat.mod_small, Nat.div_small by done. lia. }
  cbn [seq foldl]. unfold collect at 4. replace (4 * g)%nat with (4 * g + 0)%nat by lia.
  cbn [mbind option_bind]. rewrite (Hbuf 0%nat b0 eq_refl) by lia. cbn [mbind option_bind].
  rewrite (byte_shifted b0 _ 0) by (done || lia || apply Hmod; lia). rewrite (proj1 (Hmod 0%nat ltac:(lia))). cbn [Nat.eqb].
  unfold collect at 3. cbn [mbind option_bind]. replace (S (4 * g + 0)) with (4 * g + 1)%nat by lia. rewrite (Hbuf 1%nat b1 eq_refl) by lia. cbn [mbind option_bind].
  rewrite (byte_shifted b1 _ 1) by (done || lia || apply Hmod; lia). rewrite (proj1 (Hmod 1%nat ltac:(lia))). cbn [Nat.eqb].
  unfold collect at 2. cbn [mbind option_bind]. replace (S (4 * g + 1)) with (4 * g + 2)%nat by lia. rewrite (Hbuf 2%nat b2 eq_refl) by lia. cbn [mbind option_bind].
  rewrite (byte_shifted b2 _ 2) by (done || lia || apply Hmod; lia). rewrite (proj1 (Hmod 2%nat ltac:(lia))). cbn [Nat.eqb].
  unfold collect at 1. cbn [mbind option_bind]. replace (S (4 * g + 2)) with (4 * g + 3)%nat by lia. rewrite (Hbuf 3%nat b3 eq_refl) by lia. cbn [mbind option_bind].
  rewrite (byte_shifted b3 _ 3) by (done || lia || apply Hmod; lia). destruct (Hmod 3%nat ltac:(lia)) as [-> ->]. cbn [Nat.eqb].
  rewrite <- (four_bytes b0 b1 b2 b3) by done. reflexivity.
Qed.

Lemma collect_all buf idx w : length w = 64%nat -> bytes_ok buf -> (64 * idx + 64 <= length buf)%nat ->
  foldl (collect machine_shl buf (Z.of_nat idx)) (Some (0, w)) (seq 0 64) =
  Some (0, block_words 16 (take 64 (drop (64 * idx) buf)) ++ drop 16 w).
Proof.
  intros Hw Hok Hlen. set (block := take 64 (drop (64 * idx) buf)).
  assert (forall g, (g <= 16)%nat -> foldl (collect machine_shl buf (Z.of_nat idx)) (Some (0, w)) (seq 0 (4 * g)) =
    Some (0, block_words g block ++ drop g w)) as H; [|exact (H 16%nat ltac:(lia))].
  induction g as [|g IH]; intros Hg; [by rewrite drop_0|].
  replace (4 * S g)%nat with (4 * g + 4)%nat by lia. rewrite seq_app, foldl_app, IH by lia. rewrite Nat.add_0_l.
  assert (take 4 (drop (4 * g) block) = take 4 (drop (64 * idx + 4 * g) buf)) as Hsame.
  { unfold block. rewrite skipn_firstn_comm, take_take, drop_drop. f_equal. lia. }
  remember (take 4 (drop (64 * idx + 4 * g) buf)) as bs eqn:Hbs. pose proof (f_equal length Hbs) as Hl. rewrite length_take, length_drop in Hl.
  assert (bytes_ok bs) as Hbsok by (rewrite Hbs; by apply Forall_take, Forall_drop).
  destruct bs as [|b0 [|b1 [|b2 [|b3 [|]]]]]; cbn [length] in Hl; try lia.
  inversion_clear Hbsok as [|? ? H0 Hr0]. inversion_clear Hr0 as [|? ? H1 Hr1]. inversion_clear Hr1 as [|? ? H2 Hr2]. inversion_clear Hr2 as [|? ? H3 _].
  rewrite (collect_word buf idx _ g b0 b1 b2 b3) by (done || lia). rewrite block_words_snoc, Hsame. f_equal. f_equal.
  rewrite <- (Nat.add_0_r g) at 1. rewrite <- (length_block_words g block) at 1. rewrite insert_app_r.
  rewrite <- app_assoc. f_equal. destruct (drop g w) as [|x w'] eqn:E.
  { apply (f_equal length) in E. rewrite length_drop in E. cbn [length] in E. lia. }
  cbn [insert list_insert app]. f_equal. change w' with (drop 1 (x :: w')). rewrite <- E, drop_drop. f_equal. lia.
Qed.

Lemma extend_all block w : length w = 64%nat -> take 16 w = block_words 16 block -> foldl extend w (seq 16 48) = schedule block 48.
Proof.
  intros Hw H16.
  assert (forall n, (n <= 48)%nat -> length (foldl extend w (seq 16 n)) = 64%nat /\ take (16 + n) (foldl extend w (seq 16 n)) = schedule block n) as H.
  { induction n as [|n IH]; intros Hn; [done|]. rewrite seq_S, foldl_app. cbn [foldl]. destruct (IH ltac:(lia)) as [Hl Ht].
    set (v := foldl extend w (seq 16 n)) in *. clearbody v. unfold extend. rewrite length_insert. split; [done|].
    assert (forall j, (j < 16 + n)%nat -> v !!! j = schedule block n !!! j) as Hj.
    { intros j Hj. rewrite <- Ht, lookup_total_take. by rewrite decide_True. }
    rewrite !Hj by lia. cbn [schedule]. set (W := schedule block n) in *.
    replace (16 + n - 15)%nat with (n + 1)%nat by lia. replace (16 + n - 2)%nat with (n + 14)%nat by lia.
    replace (16 + n - 16)%nat with n by lia. replace (16 + n - 7)%nat with (n + 9)%nat by lia.
    replace (16 + S n)%nat with (S (16 + n)) by lia. rewrite (take_S_r _ _ (u32 (W !!! n + sigma0 (W !!! (n + 1)%nat) + W !!! (n + 9)%nat + sigma1 (W !!! (n + 14)%nat)))).
    - rewrite take_insert_ge, Ht by lia. do 3 f_equal. lia.
    - apply list_lookup_insert_eq. lia. }
  destruct (H 48%nat ltac:(lia)) as [Hl <-]. rewrite take_ge; [done|]. rewrite Hl. lia.
Qed.

Lemma round_exact w v t : words_ok v -> length v = 8%nat ->
  round w v t = sha256_round k w v t /\ words_ok (round w v t) /\ length (round w v t) = 8%nat.
Proof.
  intros Hok Hl. destruct v as [|a [|b [|c [|d [|e [|f [|g [|h [|]]]]]]]]]; try done.
  do 6 (apply Forall_cons in Hok as [? Hok]). apply Forall_cons in Hok as [Hg Hok]. unfold round, sha256_round.
  split_and!; [|by repeat (constructor; [first [done|apply word_ok_u32]|])|done].
  rewrite not32_land by done. unfold Sigma0, Sigma1, Ch, Maj, ROTR, rightrotate.
  f_equal; [by rewrite wrap_add_l, wrap_add_r|]. do 3 f_equal. f_equal. by rewrite wrap_add_r.
Qed.

Lemma rounds_exact w hs : words_ok hs -> length hs = 8%nat ->
  foldl (round w) hs (seq 0 64) = foldl (sha256_round k w) hs (seq 0 64) /\ length (foldl (round w) hs (seq 0 64)) = 8%nat.
Proof.
  generalize (seq 0 64). intros l. revert hs. induction l as [|t l IH]; intros hs Hok Hl; [done|]. cbn [foldl].
  destruct (round_exact w hs t Hok Hl) as (<- & Hok' & Hl'). by apply IH.
Qed.

Lemma chunk_exact buf hs w idx : words_ok hs -> length hs = 8%nat -> length w = 64%nat -> bytes_ok buf -> (64 * idx + 64 <= length buf)%nat ->
  let hs' := sha256_compress hs (take 64 (drop (64 * idx) buf)) in
  exists w', chunk machine_shl buf (hs, w) idx = Some (hs', w') /\ length w' = 64%nat /\ words_ok hs' /\ length hs' = 8%nat.
Proof.
  intros Hok Hl Hw Hb Hlen hs'. set (block := take 64 (drop (64 * idx) buf)) in *. unfold chunk. rewrite collect_all by done.
  cbn [mbind option_bind]. fold block. rewrite (extend_all block).
  2:{ rewrite length_app, length_block_words, length_drop. lia. }
  2:{ apply take_app_length'. symmetry; apply length_block_words. }
  destruct (rounds_exact (schedule block 48) hs Hok Hl) as [Hr Hrl]. exists (schedule block 48).
  unfold hs', sha256_compress. rewrite (proj1 constants_standard), <- Hr. split; [reflexivity|].
  split; [by rewrite length_schedule256|].
  clear Hr. set (v := foldl (round (schedule block 48)) hs (seq 0 64)) in *. clearbody v. clear - Hl Hrl. destruct v as [|r0 [|r1 [|r2 [|r3 [|r4 [|r5 [|r6 [|r7 [|]]]]]]]]]; try done.
  destruct hs as [|x0 [|x1 [|x2 [|x3 [|x4 [|x5 [|x6 [|x7 [|]]]]]]]]]; try done. cbn [zip_with].
  split; [|done]. repeat (constructor; [apply word_ok_u32|]). constructor.
Qed.

Lemma chunks_exact buf n : forall i hs w, words_ok hs -> length hs = 8%nat -> length w = 64%nat -> bytes_ok buf -> (64 * (i + n) <= length buf)%nat ->
  exists w', chunks machine_shl buf (hs, w) (seq i n) = Some (absorb sha256_compress n hs (drop (64 * i) buf), w').
Proof.
  induction n as [|n IH]; intros i hs w Hok Hl Hw Hb Hlen; [by exists w|]. cbn [seq chunks absorb].
  destruct (chunk_exact buf hs w i Hok Hl Hw Hb ltac:(lia)) as (w' & -> & Hw' & Hok' & Hl'). cbn [mbind option_bind].
  destruct (IH (S i) _ w' Hok' Hl' Hw' Hb ltac:(lia)) as (w'' & ->). exists w''. rewrite drop_drop. do 4 f_equal. lia.
Qed.

Lemma append_exact n : 0 <= n < 2 ^ 29 ->
  let r := u32 (n * 8) mod 512 in (if r <? 448 then 448 - r else 448 + 512 - r) / 8 = 1 + (55 - n) mod 64.
Proof.
  intros Hn r. assert (r = 8 * (n mod 64)) as ->.
  { unfold r. rewrite wrap_small by lia. rewrite (Z.mul_comm n). change 512 with (8 * 64). by rewrite Z.mul_mod_distr_l by lia. }
  destruct (Z.ltb_spec (8 * (n mod 64)) 448); Z.div_mod_to_equations; lia.
Qed.

(** C36. The SHA-256 of the program is that of FIPS 180-4 for every message of less than 512 MB on a processor whose
    shifts count modulo 32; its tables are the roots of the primes that the standard names, and the memory it gets
    does not matter. *)
Theorem sha256_exact junk data : (forall n, zlen (junk n) = Z.max 0 n) -> bytes_ok data -> zlen data < 2 ^ 29 ->
  sha256 machine_shl junk data = Some (SHA256 data).
Proof.
  intros Hj Hok Hlen. pose proof (zlen_nonneg data) as H0. unfold sha256. rewrite (append_exact (zlen data)) by lia.
  set (z := (55 - zlen data) mod 64). assert (0 <= z < 64) as Hz by (apply Z.mod_pos_bound; lia).
  rewrite (wrap_small 32 (_ + _)) by lia. set (n := zlen data + (1 + z) + 8).
  assert (exists a b c, junk n = a ++ b ++ c /\ zlen a = zlen data /\ zlen b = 1 + z /\ zlen c = 8) as (a & b & c & -> & Ha & Hb & Hc).
  { exists (take (length data) (junk n)), (take (Z.to_nat (1 + z)) (drop (length data) (junk n))), (drop (length data + Z.to_nat (1 + z)) (junk n)).
    specialize (Hj n). rewrite Z.max_r in Hj by lia. unfold n in Hj at 2. clearbody n. generalize dependent (junk n). intros m Hm.
    unfold zlen in *. rewrite <- drop_drop, !take_drop, !length_take, !length_drop. split_and!; [done|lia|lia|lia]. }
  rewrite <- Ha. rewrite (memcpy_at_mid a b c) by (rewrite zlen_replicate; lia). cbn [mbind option_bind].
  pose proof (memcpy_at_mid [] a (replicate (Z.to_nat (1 + z)) 0 ++ c) data ltac:(lia)) as Hcp. change (zlen []) with 0 in Hcp. cbn [app] in Hcp.
  rewrite Hcp. cbn [mbind option_bind]. rewrite Ha. replace (Z.to_nat (1 + z)) with (S (Z.to_nat z)) by lia.
  change (replicate (S (Z.to_nat z)) 0) with (0 :: replicate (Z.to_nat z) 0). cbn [app].
  pose proof (memcpy_at_mid data [0] (replicate (Z.to_nat z) 0 ++ c) [0x80] ltac:(done)) as Hcp2. cbn [app] in Hcp2. rewrite Hcp2. cbn [mbind option_bind].
  set (bits := map _ _). assert (bits = be_bytes 8 (8 * zlen data)) as Hbits.
  { unfold bits. rewrite (wrap_small 32) by lia. rewrite (Z.mul_comm _ 8). cbn [map be_bytes]. change 0xff with (Z.ones 8).
    repeat f_equal; rewrite Z.land_ones, Z.shiftr_div_pow2 by lia; reflexivity. }
  rewrite Hbits. clearbody bits.
  replace (data ++ 128 :: replicate (Z.to_nat z) 0 ++ c) with ((data ++ 128 :: replicate (Z.to_nat z) 0) ++ c ++ []) by (rewrite app_nil_r, <- app_assoc; done).
  replace (zlen data + (1 + z)) with (zlen (data ++ 128 :: replicate (Z.to_nat z) 0)) by (rewrite zlen_app, zlen_cons, zlen_replicate; lia).
  rewrite memcpy_at_mid by (rewrite zlen_be_bytes; lia). cbn [mbind option_bind]. rewrite app_nil_r.
  assert ((data ++ 128 :: replicate (Z.to_nat z) 0) ++ be_bytes 8 (8 * zlen data) = data ++ padding (be_bytes 8 (8 * zlen data)) (zlen data))
    as -> by (unfold padding; by rewrite <- !app_assoc).
  set (buf := data ++ padding _ _).
  assert (bytes_ok buf) as Hbok.
  { apply Forall_app; split; [done|]. constructor; [done|]. apply Forall_app; split; [by apply Forall_replicate|apply be_bytes_ok]. }
  assert (zlen buf = n) as Hbl.
  { unfold buf, padding, n. rewrite zlen_app, zlen_cons, zlen_app, zlen_replicate, zlen_be_bytes. fold z. lia. }
  assert (Z.to_nat (n / 64) = (length buf / 64)%nat) as ->.
  { rewrite <- Hbl. unfold zlen. change 64 with (Z.of_nat 64). by rewrite <- Nat2Z.inj_div, Nat2Z.id. }
  destruct (chunks_exact buf (length buf / 64) 0 h_init (replicate 64 0)) as (w' & ->); [|done|done|done| |].
  - repeat (constructor; [done|]). constructor.
  - pose proof (Nat.div_mod_eq (length buf) 64). lia.
  - cbn [mbind option_bind]. unfold SHA256, absorb_all. by rewrite (proj2 constants_standard).
Qed.
End Machine.

Lemma sha256_exact_witness :
  sha256 shl_masked (fun n => replicate (Z.to_nat n) 7) [97; 98; 99] = Some (SHA256 [97; 98; 99]).
Proof.
  apply sha256_exact; [done|intros n; rewrite zlen_replicate; lia|by repeat constructor|done].
Defined.

(** A processor whose shifts by 32 and more give 0 (and by less than 0: the amount is unsigned) computes something else. *)
Definition shl_saturating (x n : Z) : Z := if (0 <=? n) && (n <? 32) then u32 (Z.shiftl x n) else 0.
Example shift_matters : sha256 shl_saturating (fun n => replicate (Z.to_nat n) 7) [97; 98; 99] <> Some (SHA256 [97; 98; 99]).
Proof. intros E. apply (f_equal (option_map be_value)) in E. vm_compute in E. discriminate E. Qed.
