(* ===== verification/Md5.v ===== *)
(** MD5: src/third_party/md5/md5.cpp, and the definition of RFC 1321 it implements. *)
From S2P Require Import Prelude Digest.

(** ** The code *)

Definition F (x y z : Z) : Z := Z.lor (Z.land x y) (Z.land (not32 x) z).
Definition G (x y z : Z) : Z := Z.lor (Z.land x z) (Z.land y (not32 z)).
Definition H (x y z : Z) : Z := Z.lxor (Z.lxor x y) z.
Definition I (x y z : Z) : Z := Z.lxor y (Z.lor x (not32 z)).

(** [a += f(b, c, d) + x + ac; a = ROTATE_LEFT(a, s); a += b] on the variables with the numbers [a] to [d]. *)
Definition step_macro (f : Z -> Z -> Z -> Z) (a b c d : nat) (x s ac : Z) (r : list Z) : list Z :=
  let r := <[a := u32 (r !!! a + (f (r !!! b) (r !!! c) (r !!! d) + x + ac))]> r in
  let r := <[a := rotl (r !!! a) s]> r in
  <[a := u32 (r !!! a + r !!! b)]> r.

Definition FF := step_macro F.
Definition GG := step_macro G.
Definition HH := step_macro H.
Definition II := step_macro I.

(** The macros of the 64 lines with their word, shift and constant; the variables are turned by
    one place from line to line: (a, b, c, d), (d, a, b, c), and so on. *)
Definition transform_table : list ((nat -> nat -> nat -> nat -> Z -> Z -> Z -> list Z -> list Z) * nat * Z * Z) :=
  [
   (FF, 0%nat, 7, 0xd76aa478); (FF, 1%nat, 12, 0xe8c7b756); (FF, 2%nat, 17, 0x242070db); (FF, 3%nat, 22, 0xc1bdceee);
   (FF, 4%nat, 7, 0xf57c0faf); (FF, 5%nat, 12, 0x4787c62a); (FF, 6%nat, 17, 0xa8304613); (FF, 7%nat, 22, 0xfd469501);
   (FF, 8%nat, 7, 0x698098d8); (FF, 9%nat, 12, 0x8b44f7af); (FF, 10%nat, 17, 0xffff5bb1); (FF, 11%nat, 22, 0x895cd7be);
   (FF, 12%nat, 7, 0x6b901122); (FF, 13%nat, 12, 0xfd987193); (FF, 14%nat, 17, 0xa679438e); (FF, 15%nat, 22, 0x49b40821);
   (GG, 1%nat, 5, 0xf61e2562); (GG, 6%nat, 9, 0xc040b340); (GG, 11%nat, 14, 0x265e5a51); (GG, 0%nat, 20, 0xe9b6c7aa);
   (GG, 5%nat, 5, 0xd62f105d); (GG, 10%nat, 9, 0x2441453); (GG, 15%nat, 14, 0xd8a1e681); (GG, 4%nat, 20, 0xe7d3fbc8);
   (GG, 9%nat, 5, 0x21e1cde6); (GG, 14%nat, 9, 0xc33707d6); (GG, 3%nat, 14, 0xf4d50d87); (GG, 8%nat, 20, 0x455a14ed);
   (GG, 13%nat, 5, 0xa9e3e905); (GG, 2%nat, 9, 0xfcefa3f8); (GG, 7%nat, 14, 0x676f02d9); (GG, 12%nat, 20, 0x8d2a4c8a);
   (HH, 5%nat, 4, 0xfffa3942); (HH, 8%nat, 11, 0x8771f681); (HH, 11%nat, 16, 0x6d9d6122); (HH, 14%nat, 23, 0xfde5380c);
   (HH, 1%nat, 4, 0xa4beea44); (HH, 4%nat, 11, 0x4bdecfa9); (HH, 7%nat, 16, 0xf6bb4b60); (HH, 10%nat, 23, 0xbebfbc70);
   (HH, 13%nat, 4, 0x289b7ec6); (HH, 0%nat, 11, 0xeaa127fa); (HH, 3%nat, 16, 0xd4ef3085); (HH, 6%nat, 23, 0x4881d05);
   (HH, 9%nat, 4, 0xd9d4d039); (HH, 12%nat, 11, 0xe6db99e5); (HH, 15%nat, 16, 0x1fa27cf8); (HH, 2%nat, 23, 0xc4ac5665);
   (II, 0%nat, 6, 0xf4292244); (II, 7%nat, 10, 0x432aff97); (II, 14%nat, 15, 0xab9423a7); (II, 5%nat, 21, 0xfc93a039);
   (II, 12%nat, 6, 0x655b59c3); (II, 3%nat, 10, 0x8f0ccc92); (II, 10%nat, 15, 0xffeff47d); (II, 1%nat, 21, 0x85845dd1);
   (II, 8%nat, 6, 0x6fa87e4f); (II, 15%nat, 10, 0xfe2ce6e0); (II, 6%nat, 15, 0xa3014314); (II, 13%nat, 21, 0x4e0811a1);
   (II, 4%nat, 6, 0xf7537e82); (II, 11%nat, 10, 0xbd3af235); (II, 2%nat, 15, 0x2ad7d2bb); (II, 9%nat, 21, 0xeb86d391)].

(** The sixteen words of a block. *)
Fixpoint pack (n : nat) (block : list Z) : list Z :=
  match n, block with
  | S n', b0 :: b1 :: b2 :: b3 :: block' =>
      Z.lor (Z.lor (Z.lor b0 (Z.shiftl b1 8)) (Z.shiftl b2 16)) (Z.shiftl b3 24) :: pack n' block'
  | _, _ => []
  end.

(** Line [i] of the transform; [None] does not happen, there are 64. *)
Definition table_line (x : list Z) (r : list Z) (i : nat) : list Z :=
  let a := ((64 - i) mod 4)%nat in
  match transform_table !! i with
  | Some (macro, k, s, ac) => macro a ((a + 1) mod 4)%nat ((a + 2) mod 4)%nat ((a + 3) mod 4)%nat (x !!! k) s ac r
  | None => r
  end.

Definition transform64Bytes (fState block : list Z) : list Z :=
  zip_with (fun s v => u32 (s + v)) fState (foldl (table_line (pack 16 block)) fState (seq 0 64)).

Record MY_MD5Context := mkMD5 { fState : list Z; fBitCount : Z; fWorkingBuffer : list Z }.

(** The working buffer is not initialised. *)
Definition new_MD5Context (junk : list Z) : MY_MD5Context := mkMD5 [0x67452301; 0xefcdab89; 0x98badcfe; 0x10325476] 0 junk.

(** The size is an [unsigned]: the count grows by what is left of [inputDataSize<<3] in 32 bits. *)
Definition addData (c : MY_MD5Context) (inputData : list Z) : option MY_MD5Context :=
  let inputDataSize := zlen inputData in
  let byteCount := Z.shiftr (fBitCount c) 3 in
  let bufferBytesInUse := Z.land byteCount 0x3F in
  let bufferBytesRemaining := 64 - bufferBytesInUse in
  let bits := u64 (fBitCount c + u32 (Z.shiftl inputDataSize 3)) in
  '(state, buffer, inUse, i) ←
    (if bufferBytesRemaining <=? inputDataSize then
       piece ← memread inputData 0 bufferBytesRemaining;
       buffer ← memcpy_at (fWorkingBuffer c) bufferBytesInUse piece;
       '(state, i) ← transform_loop transform64Bytes (S (length inputData)) (transform64Bytes (fState c) buffer) inputData bufferBytesRemaining;
       Some (state, buffer, 0, i)
     else Some (fState c, fWorkingBuffer c, bufferBytesInUse, 0));
  if i <? inputDataSize then
    piece ← memread inputData i (inputDataSize - i);
    buffer ← memcpy_at buffer inUse piece;
    Some (mkMD5 state bits buffer)
  else Some (mkMD5 state bits buffer).

Definition unpack32 (x : Z) : list Z := map (fun i => Z.land (Z.shiftr x (8 * i)) 0xFF) [0; 1; 2; 3].
Definition unpack64 (x : Z) : list Z := map (fun i => Z.land (Z.shiftr x (8 * i)) 0xFF) [0; 1; 2; 3; 4; 5; 6; 7].

Definition PADDING : list Z := 0x80 :: replicate 63 0.

Definition finalize (c : MY_MD5Context) : option (list Z) :=
  let bitCountInBytes := unpack64 (fBitCount c) in
  let bufferBytesInUse := Z.land (Z.shiftr (fBitCount c) 3) 0x3F in
  let numPaddingBytes := if bufferBytesInUse <? 56 then 56 - bufferBytesInUse else 64 + 56 - bufferBytesInUse in
  pad ← memread PADDING 0 numPaddingBytes;
  c ← addData c pad;
  c ← addData c bitCountInBytes;
  Some (unpack32 (fState c !!! 0%nat) ++ unpack32 (fState c !!! 1%nat) ++ unpack32 (fState c !!! 2%nat) ++ unpack32 (fState c !!! 3%nat)).

(** The hexadecimal text of the digest, with the character of the end. *)
Definition hex_digit (n : Z) : Z := if n <? 10 then 48 + n else 87 + n.
Definition end_ (c : MY_MD5Context) : option (list Z) :=
  digestInBytes ← finalize c;
  Some (concat (map (fun b => [hex_digit (Z.shiftr b 4); hex_digit (Z.land b 0x0F)]) digestInBytes) ++ [0]).

Definition MY_our_MD5DataRaw (junk data : list Z) : option (list Z) := c ← addData (new_MD5Context junk) data; finalize c.
Definition MY_our_MD5Data (junk data : list Z) : option (list Z) := c ← addData (new_MD5Context junk) data; end_ c.

(** ** The standard *)

(** The sine of the integer [i], times [2 ^ p]: its power series, every term rounded down. *)
Fixpoint sine_terms (n : nat) (i k term acc : Z) : Z :=
  match n with
  | O => acc
  | S n' => sine_terms n' i (k + 2) (- (term * i * i) / ((k + 1) * (k + 2))) (acc + term)
  end.
Definition sine (p i : Z) : Z := sine_terms 110 i 1 (i * 2 ^ p) 0.

(** Element [i] of the table: the integer part of 4294967296 times the absolute value of the sine of [i]. *)
Definition md5_T (i : Z) : Z := Z.abs (sine 160 i) / 2 ^ (160 - 32).

(** The four functions, the word, the shift of step [t] from 0 on. *)
Definition md5_f (t : nat) (x y z : Z) : Z :=
  if (t <? 16)%nat then Z.lor (Z.land x y) (Z.land (Z.lnot x) z)
  else if (t <? 32)%nat then Z.lor (Z.land x z) (Z.land y (Z.lnot z))
  else if (t <? 48)%nat then Z.lxor x (Z.lxor y z)
  else Z.lxor y (Z.lor x (not32 z)).
Definition md5_k (t : nat) : nat :=
  if (t <? 16)%nat then t else if (t <? 32)%nat then ((1 + 5 * t) mod 16)%nat else if (t <? 48)%nat then ((5 + 3 * t) mod 16)%nat else ((7 * t) mod 16)%nat.
Definition md5_s (t : nat) : Z :=
  (if (t <? 16)%nat then [7; 12; 17; 22] else if (t <? 32)%nat then [5; 9; 14; 20] else if (t <? 48)%nat then [4; 11; 16; 23]
   else [6; 10; 15; 21]) !!! (t mod 4)%nat.

(** [a = b + ((a + f(b, c, d) + X[k] + T[i]) <<< s)], and the four words move on by one place. *)
Definition md5_step (X : list Z) (h : list Z) (t : nat) : list Z :=
  match h with
  | [a; b; c; d] => [d; u32 (b + rotl (u32 (a + md5_f t b c d + X !!! md5_k t + md5_T (Z.of_nat t + 1))) (md5_s t)); b; c]
  | _ => h
  end.

Definition md5_compress (h block : list Z) : list Z :=
  zip_with (fun s v => u32 (s + v)) h (foldl (md5_step (pack 16 block)) h (seq 0 64)).

(** Least significant byte first. *)
Definition le_bytes (n : nat) (x : Z) : list Z := rev (be_bytes n x).

Definition md5_H0 : list Z := [0x67452301; 0xefcdab89; 0x98badcfe; 0x10325476].

Definition MD5 (msg : list Z) : list Z :=
  concat (map (le_bytes 4) (absorb_all md5_compress md5_H0 (msg ++ padding (le_bytes 8 (8 * zlen msg)) (zlen msg)))).

Example md5_abc : option_map be_value (MY_our_MD5DataRaw (replicate 64 99) [97; 98; 99]) = Some 0x900150983cd24fb0d6963f7d28e17f72.
Proof. vm_compute. reflexivity. Qed.

(** ** The compression function *)

Definition view (v : nat) (r : list Z) : list Z :=
  [r !!! v; r !!! ((v + 1) mod 4); r !!! ((v + 2) mod 4); r !!! ((v + 3) mod 4)]%nat.

Lemma md5_view_step v r f x s ac : (v < 4)%nat -> length r = 4%nat ->
  length (step_macro f v ((v + 1) mod 4) ((v + 2) mod 4) ((v + 3) mod 4) x s ac r) = 4%nat /\
  match view v r with
  | [a; b; c; d] => view ((v + 3) mod 4) (step_macro f v ((v + 1) mod 4) ((v + 2) mod 4) ((v + 3) mod 4) x s ac r) =
      [d; u32 (rotl (u32 (a + (f b c d + x + ac))) s + b); b; c]
  | _ => False
  end%nat.
Proof.
  intros Hv Hr. destruct r as [|r0 [|r1 [|r2 [|r3 [|]]]]]; try done.
  do 4 (destruct v as [|v]; [split; reflexivity|]). lia.
Qed.

(** The rows of the table: the functions, words and shifts of the standard, and its constants. *)
Lemma table_standard t : (t < 64)%nat ->
  exists f, transform_table !! t = Some (step_macro f, md5_k t, md5_s t, md5_T (Z.of_nat t + 1)) /\
    forall x y z, word_ok x -> word_ok y -> word_ok z -> f x y z = md5_f t x y z.
Proof.
  intros Ht.
  assert (forall k, (k < 64)%nat -> option_map (fun row => let '(_, w, s, ac) := row in (w, s, ac)) (transform_table !! k) = Some (md5_k k, md5_s k, md5_T (Z.of_nat k + 1))) as Hrow.
  { assert (forallb (fun k => bool_decide (option_map (fun row => let '(_, w, s, ac) := row in (w, s, ac)) (transform_table !! k) =
      Some (md5_k k, md5_s k, md5_T (Z.of_nat k + 1)))) (seq 0 64) = true) as Hall by (vm_compute; reflexivity).
    rewrite forallb_forall in Hall. intros k Hk. eapply bool_decide_eq_true, Hall. apply in_seq. lia. }
  specialize (Hrow t Ht).
  assert (option_map (fun row => let '(m, _, _, _) := row in m) (transform_table !! t) =
    Some (if (t <? 16)%nat then FF else if (t <? 32)%nat then GG else if (t <? 48)%nat then HH else II)) as Hmacro.
  { revert Ht. clear Hrow. do 64 (destruct t as [|t]; [reflexivity|]). lia. }
  destruct (transform_table !! t) as [[[[m w] s] ac]|]; [|done]. cbn [option_map] in *. injection Hrow as -> -> ->. injection Hmacro as ->. unfold md5_f.
  destruct (Nat.ltb_spec t 16); [|destruct (Nat.ltb_spec t 32); [|destruct (Nat.ltb_spec t 48)]]; (eexists; split; [reflexivity|]); intros x y z Hx Hy Hz.
  - unfold F. by rewrite not32_land.
  - unfold G. by rewrite not32_land_r.
  - unfold H. by rewrite Z.lxor_assoc.
  - done.
Qed.

Section Transform.
Context (state block : list Z) (Hstate : length state = 4%nat) (Hok : words_ok state).

Lemma md5_line_step r t : (t < 64)%nat -> length r = 4%nat -> words_ok (view ((64 - t) mod 4) r) ->
  let r' := table_line (pack 16 block) r t in
  length r' = 4%nat /\ view ((64 - S t) mod 4) r' = md5_step (pack 16 block) (view ((64 - t) mod 4) r) t /\
  words_ok (view ((64 - S t) mod 4) r').
Proof.
  intros Ht Hr Hw r'. unfold r', table_line. destruct (table_standard t Ht) as (f & -> & Hf).
  set (v := ((64 - t) mod 4)%nat) in *. assert (v < 4)%nat as Hv by (apply Nat.mod_upper_bound; lia).
  assert ((64 - S t) mod 4 = (v + 3) mod 4)%nat as ->.
  { unfold v. rewrite Nat.Div0.add_mod_idemp_l. replace (64 - t + 3)%nat with (64 - S t + 1 * 4)%nat by lia. by rewrite Nat.Div0.mod_add. }
  destruct (md5_view_step v r f (pack 16 block !!! md5_k t) (md5_s t) (md5_T (Z.of_nat t + 1)) Hv Hr) as [Hl Hview].
  split; [exact Hl|]. unfold view at 1 in Hview. cbv beta iota zeta in Hview. rewrite Hview. unfold view, md5_step in *.
  inversion_clear Hw as [|? ? Ha Hw1]. inversion_clear Hw1 as [|? ? Hb Hw2]. inversion_clear Hw2 as [|? ? Hc Hw3].
  inversion_clear Hw3 as [|? ? Hd Hw4]. rewrite Hf by done. split.
  - f_equal. f_equal. rewrite Z.add_comm. do 4 f_equal. lia.
  - repeat (constructor; [first [done|apply word_ok_u32]|]). constructor.
Qed.

Lemma transform64Bytes_exact : transform64Bytes state block = md5_compress state block.
Proof.
  unfold transform64Bytes, md5_compress. set (X := pack 16 block).
  assert (forall t, (t <= 64)%nat -> let r := foldl (table_line X) state (seq 0 t) in
    length r = 4%nat /\ view ((64 - t) mod 4)%nat r = foldl (md5_step X) state (seq 0 t) /\ words_ok (view ((64 - t) mod 4)%nat r)) as Hsim.
  { induction t as [|t IH]; intros Ht r.
    - split; [done|]. assert (view ((64 - 0) mod 4) r = state) as -> by by destruct state as [|? [|? [|? [|? [|]]]]]. done.
    - unfold r. rewrite seq_S, !foldl_app. cbn [foldl Nat.add]. destruct (IH ltac:(lia)) as (H1 & H2 & H3). rewrite <- H2. by apply md5_line_step. }
  destruct (Hsim 64%nat ltac:(lia)) as (H1 & H2 & _). rewrite <- H2. clear H2. by destruct (foldl _ _ _) as [|? [|? [|? [|? [|]]]]].
Qed.
End Transform.

Lemma md5_compress_ok h block : length h = 4%nat -> length (md5_compress h block) = 4%nat /\ words_ok (md5_compress h block).
Proof.
  intros Hh. unfold md5_compress. set (X := pack 16 block). clearbody X.
  assert (forall l h, length h = 4%nat -> length (foldl (md5_step X) h l) = 4%nat) as Hl.
  { induction l as [|t l IH]; intros h' Hh'; [done|]. cbn [foldl]. apply IH. by destruct h' as [|? [|? [|? [|? [|]]]]]. }
  split; [rewrite length_zip_with, Hl by done; lia|].
  specialize (Hl (seq 0 64) h Hh). destruct (foldl _ _ _) as [|? [|? [|? [|? [|]]]]]; try done. destruct h as [|? [|? [|? [|? [|]]]]]; try done.
  cbn [zip_with]. repeat (constructor; [apply word_ok_u32|]). constructor.
Qed.

Lemma absorb_md5 msg : bytes_ok msg ->
  absorb_all transform64Bytes md5_H0 msg = absorb_all md5_compress md5_H0 msg /\ length (absorb_all md5_compress md5_H0 msg) = 4%nat.
Proof.
  intros Hok. destruct (absorb_all_ext transform64Bytes md5_compress (fun s => length s = 4%nat /\ words_ok s) md5_H0 msg) as [H1 [H2 _]]; [| |done|done].
  - intros s b [Hs Hw] _ _. split; [by apply transform64Bytes_exact|by apply md5_compress_ok].
  - split; [done|]. repeat (constructor; [done|]). constructor.
Qed.

(** ** The context *)

Definition taken (msg : list Z) (c : MY_MD5Context) : Prop :=
  holds transform64Bytes md5_H0 msg (fState c) (fWorkingBuffer c) /\ fBitCount c = (8 * zlen msg) mod 2 ^ 64.

Lemma taken_new junk : length junk = 64%nat -> taken [] (new_MD5Context junk).
Proof. intros Hj. split; [by apply holds_start|done]. Qed.

Lemma bytes_used msg c : taken msg c -> Z.land (Z.shiftr (fBitCount c) 3) 0x3F = Z.of_nat (length msg mod 64).
Proof.
  intros (_ & ->). rewrite <- zlen_mod. change 0x3F with (Z.ones 6). rewrite Z.land_ones, Z.shiftr_div_pow2 by lia.
  pose proof (zlen_nonneg msg). change (2 ^ 64) with 18446744073709551616. change (2 ^ 3) with 8. change (2 ^ 6) with 64.
  Z.div_mod_to_equations. lia.
Qed.

Lemma addData_exact msg c data : taken msg c -> zlen data < 2 ^ 29 -> exists c', addData c data = Some c' /\ taken (msg ++ data) c'.
Proof.
  intros Ht Hlen. pose proof Ht as (Hh & Hc). unfold addData. rewrite (bytes_used msg c Ht). pose proof (zlen_nonneg data).
  assert (u64 (fBitCount c + u32 (Z.shiftl (zlen data) 3)) = (8 * zlen (msg ++ data)) mod 2 ^ 64) as ->.
  { rewrite Z.shiftl_mul_pow2, (wrap_small 32) by lia. rewrite Hc. unfold wrap. rewrite Zplus_mod_idemp_l, zlen_app. f_equal. lia. }
  destruct (Z.leb_spec (64 - Z.of_nat (length msg mod 64)) (zlen data)) as [Hbig|Hsmall].
  - destruct (holds_big _ _ _ _ _ data Hh ltac:(unfold zlen in Hbig; lia)) as (b1 & s' & i' & b' & -> & Hb1 & Hloop & Hi' & Hrd & Hb' & Hh').
    cbn [mbind option_bind]. rewrite Hb1. cbn [mbind option_bind]. rewrite Hloop by lia. cbn [mbind option_bind].
    destruct (Z.ltb_spec i' (zlen data)).
    + rewrite Hrd. cbn [mbind option_bind]. rewrite Hb'. cbn [mbind option_bind]. eexists; split; [done|]. by split.
    + eexists; split; [done|]. split; [|done]. cbn [fState fWorkingBuffer].
      replace (zlen data - i') with 0 in Hb' by lia. rewrite slice_0 in Hb'. destruct Hh as (Hbl & _).
      apply memcpy_at_len in Hb1 as Hl1. rewrite memcpy_at_Some in Hb' by (unfold zlen in *; cbn [length]; lia).
      change (Z.to_nat 0) with 0%nat in Hb'. cbn in Hb'. rewrite drop_0 in Hb'. injection Hb' as <-. exact Hh'.
  - cbn [mbind option_bind]. destruct (holds_small _ _ _ _ _ data Hh ltac:(unfold zlen in Hsmall; lia)) as (b' & Hb' & Hh').
    destruct (Z.ltb_spec 0 (zlen data)).
    + rewrite memread_Some by lia. rewrite Z.sub_0_r, slice_all. cbn [mbind option_bind]. rewrite Hb'. cbn [mbind option_bind].
      eexists; split; [done|]. by split.
    + assert (data = []) as -> by (apply zlen_0_nil; lia). rewrite app_nil_r. rewrite app_nil_r in Hh'. eexists; split; [done|]. by split.
Qed.

Lemma unpack_bytes x : unpack32 x = le_bytes 4 x /\ unpack64 x = le_bytes 8 x.
Proof.
  unfold unpack32, unpack64, le_bytes. cbn [map be_bytes rev app]. split; repeat f_equal; change 0xFF with (Z.ones 8);
    rewrite Z.land_ones, Z.shiftr_div_pow2 by lia; reflexivity.
Qed.

Lemma le_bytes_ok n x : bytes_ok (le_bytes n x) /\ length (le_bytes n x) = n.
Proof. unfold le_bytes. rewrite length_rev, length_be_bytes. split; [|done]. apply Forall_rev, be_bytes_ok. Qed.

Lemma finalize_exact msg c : taken msg c -> bytes_ok msg -> zlen msg < 2 ^ 61 -> finalize c = Some (MD5 msg).
Proof.
  intros Ht Hok Hlen. pose proof Ht as (Hh & Hc). pose proof (zlen_nonneg msg). unfold finalize. rewrite (bytes_used msg c Ht).
  rewrite (proj2 (unpack_bytes _)), Hc, (Z.mod_small (8 * zlen msg)) by lia.
  set (n := Z.of_nat (length msg mod 64)). assert (n = zlen msg mod 64) as Hn by (unfold n; by rewrite zlen_mod).
  assert (0 <= n < 64) as Hnr by (rewrite Hn; apply Z.mod_pos_bound; lia).
  assert ((if n <? 56 then 56 - n else 64 + 56 - n) = 1 + (55 - zlen msg) mod 64) as ->.
  { destruct (Z.ltb_spec n 56); rewrite Hn in *; Z.div_mod_to_equations; lia. }
  set (k := (55 - zlen msg) mod 64). assert (0 <= k < 64) as Hk by (apply Z.mod_pos_bound; lia).
  assert (memread PADDING 0 (1 + k) = Some (0x80 :: replicate (Z.to_nat k) 0)) as ->.
  { rewrite memread_Some by (rewrite ?zlen_cons, ?zlen_replicate; unfold PADDING; rewrite ?zlen_cons, ?zlen_replicate; lia).
    unfold slice, PADDING. rewrite drop_0. replace (Z.to_nat (1 + k)) with (S (Z.to_nat k)) by lia. rewrite firstn_cons, take_replicate.
    do 3 f_equal. lia. }
  cbn [mbind option_bind].
  destruct (addData_exact msg c (0x80 :: replicate (Z.to_nat k) 0) Ht) as (c1 & -> & Ht1); [rewrite zlen_cons, zlen_replicate; lia|].
  cbn [mbind option_bind]. destruct (le_bytes_ok 8 (8 * zlen msg)) as [Hb8 Hl8].
  destruct (addData_exact _ c1 (le_bytes 8 (8 * zlen msg)) Ht1) as (c2 & -> & ((_ & Hs & _) & _)); [unfold zlen at 1; rewrite Hl8; done|].
  cbn [mbind option_bind].
  assert ((msg ++ 128 :: replicate (Z.to_nat k) 0) ++ le_bytes 8 (8 * zlen msg) = msg ++ padding (le_bytes 8 (8 * zlen msg)) (zlen msg))
    as Hpad by (unfold padding; by rewrite <- !app_assoc). rewrite Hpad in Hs.
  assert (bytes_ok (msg ++ padding (le_bytes 8 (8 * zlen msg)) (zlen msg))) as Hok'.
  { apply Forall_app; split; [done|]. constructor; [done|]. apply Forall_app; split; [by apply Forall_replicate|done]. }
  destruct (absorb_md5 _ Hok') as [He Hl]. rewrite He in Hs. rewrite Hs, !(proj1 (unpack_bytes _)). unfold MD5.
  destruct (absorb_all md5_compress _ _) as [|s0 [|s1 [|s2 [|s3 [|]]]]]; try done.
Qed.

(** The MD5 of the program is that of RFC 1321 (whose table is computed from the sine) for every message of less
    than 512 MB, whatever the uninitialised buffer contains, and the text is its hexadecimal form. *)
Theorem md5_exact junk data : length junk = 64%nat -> bytes_ok data -> zlen data < 2 ^ 29 ->
  MY_our_MD5DataRaw junk data = Some (MD5 data) /\
  MY_our_MD5Data junk data = Some (concat (map (fun b => [hex_digit (Z.shiftr b 4); hex_digit (Z.land b 0x0F)]) (MD5 data)) ++ [0]).
Proof.
  intros Hj Hok Hlen. unfold MY_our_MD5DataRaw, MY_our_MD5Data, end_.
  destruct (addData_exact [] _ data (taken_new junk Hj) Hlen) as (c & -> & Ht). cbn [mbind option_bind].
  cbn [app] in Ht. rewrite (finalize_exact _ c Ht) by (done || lia). done.
Qed.

Lemma md5_exact_witness : MY_our_MD5DataRaw (replicate 64 7) [97] = Some (MD5 [97]).
Proof. destruct (md5_exact (replicate 64 7) [97]) as [H1 _]; [done|by repeat constructor|done|]. exact H1. Defined.

(** 512 MB at once are not counted. *)
Lemma count_lost c data c' : zlen data = 2 ^ 29 -> fBitCount c < 2 ^ 64 -> 0 <= fBitCount c -> addData c data = Some c' -> fBitCount c' = fBitCount c.
Proof.
  intros Hlen Hc H0. unfold addData. rewrite Hlen. change (u32 (Z.shiftl (2 ^ 29) 3)) with 0. rewrite Z.add_0_r, wrap_small by done.
  intros Hadd. repeat (case_match || simplify_option_eq); done.
Qed.
