(* ===== verification/Base64.v ===== *)
(** Base64: src/third_party/base64/base64.cpp. *)
From S2P Require Import Prelude Digest.

(** "ABCDEFGHIJKLMNOPQRSTUVWXYZabcdefghijklmnopqrstuvwxyz0123456789+/", by its index. *)
Definition base64Char (i : Z) : Z :=
  if i <? 26 then 65 + i else if i <? 52 then 97 + (i - 26) else if i <? 62 then 48 + (i - 52) else if i =? 62 then 43 else 47.

(** The loop over the groups of three bytes; [ret] is the result, zeroed. *)
Fixpoint encode_groups (n : nat) (i : Z) (buf ret : list Z) : option (list Z) :=
  match n with
  | O => Some ret
  | S n' =>
      b0 ← buf !! Z.to_nat (3 * i);
      b1 ← buf !! Z.to_nat (3 * i + 1);
      b2 ← buf !! Z.to_nat (3 * i + 2);
      ret ← memcpy_at ret (4 * i)
        [base64Char (Z.land (Z.shiftr b0 2) 0x3F);
         base64Char (Z.land (Z.lor (Z.shiftl (Z.land b0 3) 4) (Z.shiftr b1 4)) 0x3F);
         base64Char (Z.land (Z.lor (Z.shiftl b1 2) (Z.shiftr b2 6)) 0x3F);
         base64Char (Z.land b2 0x3F)];
      encode_groups n' (i + 1) buf ret
  end.

(** The encoded text; the empty result for no input. *)
Definition base64Encode (buf : list Z) : option (list Z) :=
  let buf_size := zlen buf in
  if buf_size =? 0 then Some [] else
  let numOrig24BitValues := buf_size / 3 in
  let havePadding := numOrig24BitValues * 3 <? buf_size in
  let havePadding2 := buf_size =? numOrig24BitValues * 3 + 2 in
  let numResultBytes := u32 (4 * (numOrig24BitValues + (if havePadding then 1 else 0))) in
  let ret := replicate (Z.to_nat numResultBytes) 0 in
  ret ← encode_groups (Z.to_nat numOrig24BitValues) 0 buf ret;
  let i := numOrig24BitValues in
  if havePadding then
    b0 ← buf !! Z.to_nat (3 * i);
    ret ← memcpy_at ret (4 * i) [base64Char (Z.land (Z.shiftr b0 2) 0x3F)];
    ret ← (if havePadding2 then
             b1 ← buf !! Z.to_nat (3 * i + 1);
             memcpy_at ret (4 * i + 1)
               [base64Char (Z.land (Z.lor (Z.shiftl (Z.land b0 3) 4) (Z.shiftr b1 4)) 0x3F);
                base64Char (Z.land (Z.shiftl b1 2) 0x3F)]
           else memcpy_at ret (4 * i + 1) [base64Char (Z.land (Z.shiftl (Z.land b0 3) 4) 0x3F); 61]);
    memcpy_at ret (4 * i + 3) [61]
  else Some ret.

(** The table; 0x80 for what is no character of the alphabet. *)
Definition base64DecodeTable (c : Z) : Z :=
  if (65 <=? c) && (c <=? 90) then c - 65
  else if (97 <=? c) && (c <=? 122) then 26 + (c - 97)
  else if (48 <=? c) && (c <=? 57) then 52 + (c - 48)
  else if c =? 43 then 62 else if c =? 47 then 63 else if c =? 61 then 0 else 0x80.

(** An invalid character is taken for 'A'. *)
Definition outTmp (c : Z) : Z := let v := base64DecodeTable c in if negb (Z.land v 0x80 =? 0) then 0 else v.

Definition count_padding (l : list Z) : Z := zlen (List.filter (fun c => c =? 61) l).

Fixpoint decode_groups (fuel : nat) (j jMax k paddingCount : Z) (buf ret : list Z) : option (list Z * Z) :=
  match fuel with
  | O => None
  | S fuel' =>
      if j <? jMax then
        inTmp ← memread buf j 4;
        match map outTmp inTmp with
        | [o0; o1; o2; o3] =>
            ret ← memcpy_at ret k
              [u8 (Z.lor (Z.shiftl o0 2) (Z.shiftr o1 4)); u8 (Z.lor (Z.shiftl o1 4) (Z.shiftr o2 2));
               u8 (Z.lor (Z.shiftl o2 6) o3)];
            decode_groups fuel' (j + 4) jMax (k + 3) (paddingCount + count_padding inTmp) buf ret
        | _ => None
        end
      else Some (ret, paddingCount)
  end.

(** The buffer ([junk] before it is written) and the length that is returned with it. *)
Definition base64Decode (junk : Z -> list Z) (buf : list Z) : option (list Z * Z) :=
  let buf_size := zlen buf in
  if buf_size =? 0 then Some ([], 0) else
  let jMax := buf_size - 3 in
  let ret_size := u32 (3 * buf_size) / 4 in
  '(ret, paddingCount) ← decode_groups (S (length buf)) 0 jMax 0 0 buf (junk ret_size);
  Some (ret, u32 (ret_size - paddingCount)).

Example base64_vectors :
  base64Encode [102] = Some [90; 103; 61; 61] /\ base64Encode [102; 111] = Some [90; 109; 56; 61] /\
  base64Encode [102; 111; 111] = Some [90; 109; 57; 118] /\
  base64Encode [102; 111; 111; 98; 97; 114] = Some [90; 109; 57; 118; 89; 109; 70; 121].
Proof. repeat split; reflexivity. Qed.

(** ** The encoding as a function of groups *)

Definition group3 (b0 b1 b2 : Z) : list Z :=
  [base64Char (b0 / 4); base64Char (b0 mod 4 * 16 + b1 / 16); base64Char (b1 mod 16 * 4 + b2 / 64); base64Char (b2 mod 64)].

Fixpoint base64 (l : list Z) : list Z :=
  match l with
  | b0 :: b1 :: b2 :: l' => group3 b0 b1 b2 ++ base64 l'
  | [b0; b1] => [base64Char (b0 / 4); base64Char (b0 mod 4 * 16 + b1 / 16); base64Char (b1 mod 16 * 4); 61]
  | [b0] => [base64Char (b0 / 4); base64Char (b0 mod 4 * 16); 61; 61]
  | [] => []
  end.

Lemma byte_sextets (P : Z -> Prop) (check : Z -> bool) : (forall b, check b = true -> P b) ->
  forallb check (map Z.of_nat (seq 0 256)) = true -> forall b, is_byte b -> P b.
Proof.
  intros Hc Hall b Hb. apply Hc. rewrite forallb_forall in Hall. apply Hall. apply in_map_iff. exists (Z.to_nat b).
  unfold is_byte in Hb. split; [lia|]. apply in_seq. lia.
Qed.

Lemma sextets b0 b1 b2 : is_byte b0 -> is_byte b1 -> is_byte b2 ->
  Z.land (Z.shiftr b0 2) 0x3F = b0 / 4 /\
  Z.land (Z.lor (Z.shiftl (Z.land b0 3) 4) (Z.shiftr b1 4)) 0x3F = b0 mod 4 * 16 + b1 / 16 /\
  Z.land (Z.lor (Z.shiftl b1 2) (Z.shiftr b2 6)) 0x3F = b1 mod 16 * 4 + b2 / 64 /\ Z.land b2 0x3F = b2 mod 64 /\
  Z.land (Z.shiftl b1 2) 0x3F = b1 mod 16 * 4 /\ Z.land (Z.shiftl (Z.land b0 3) 4) 0x3F = b0 mod 4 * 16.
Proof.
  unfold is_byte. intros H0 H1 H2. change 0x3F with (Z.ones 6). change 3 with (Z.ones 2).
  rewrite !Z.land_ones, !Z.shiftr_div_pow2 by lia.
  rewrite !lor_shift by (change (2 ^ 4) with 16; change (2 ^ 2) with 4; change (2 ^ 6) with 64; try lia; Z.div_mod_to_equations; lia).
  rewrite !Z.shiftl_mul_pow2 by lia. change (2 ^ 4) with 16. change (2 ^ 2) with 4. change (2 ^ 6) with 64.
  split_and!; Z.div_mod_to_equations; lia.
Qed.

Lemma encode_groups_exact n : forall a l rest z, bytes_ok l -> zlen a mod 3 = 0 -> (3 * n <= length l)%nat ->
  zlen rest = 4 * (zlen a / 3) ->
  encode_groups n (zlen a / 3) (a ++ l) (rest ++ replicate (4 * n + z) 0) = Some (rest ++ base64 (take (3 * n) l) ++ replicate z 0).
Proof.
  induction n as [|n IH]; intros a l rest z Hok Ha Hl Hr; [done|].
  destruct l as [|b0 [|b1 [|b2 l]]]; cbn [length] in Hl; try lia.
  apply Forall_cons in Hok as [H0 Hok]. apply Forall_cons in Hok as [H1 Hok]. apply Forall_cons in Hok as [H2 Hok].
  assert (3 * (zlen a / 3) = zlen a) as H3 by (Z.div_mod_to_equations; lia). cbn [encode_groups]. rewrite H3.
  assert (forall k x, [b0; b1; b2] !! k = Some x -> (a ++ b0 :: b1 :: b2 :: l) !! Z.to_nat (zlen a + Z.of_nat k) = Some x) as Hlk.
  { intros k x Hk. rewrite lookup_app_r by (unfold zlen; lia). replace (Z.to_nat (zlen a + Z.of_nat k) - length a)%nat with k by (unfold zlen; lia).
    change (b0 :: b1 :: b2 :: l) with ([b0; b1; b2] ++ l). rewrite lookup_app_l; [done|]. by apply lookup_lt_Some in Hk. }
  pose proof (Hlk 0%nat b0 eq_refl) as Hb0. rewrite Z.add_0_r in Hb0. rewrite Hb0. cbn [mbind option_bind].
  pose proof (Hlk 1%nat b1 eq_refl) as Hb1. pose proof (Hlk 2%nat b2 eq_refl) as Hb2. change (Z.of_nat 1) with 1 in Hb1. change (Z.of_nat 2) with 2 in Hb2.
  rewrite Hb1. cbn [mbind option_bind]. rewrite Hb2. cbn [mbind option_bind].
  destruct (sextets b0 b1 b2 H0 H1 H2) as (-> & -> & -> & -> & _). fold (group3 b0 b1 b2).
  replace (4 * S n + z)%nat with (4 + (4 * n + z))%nat by lia. rewrite replicate_add, <- Hr.
  rewrite memcpy_at_mid by done. cbn [mbind option_bind].
  pose proof (IH (a ++ [b0; b1; b2]) l (rest ++ group3 b0 b1 b2) z Hok) as Hrec.
  rewrite !zlen_app in Hrec. change (zlen [b0; b1; b2]) with 3 in Hrec. change (zlen (group3 b0 b1 b2)) with 4 in Hrec.
  replace ((zlen a + 3) / 3) with (zlen a / 3 + 1) in Hrec by (Z.div_mod_to_equations; lia).
  rewrite <- !app_assoc in Hrec. cbn [app] in Hrec. rewrite Hrec; [|Z.div_mod_to_equations; lia|lia|lia].
  replace (3 * S n)%nat with (S (S (S (3 * n)))) by lia. cbn [take base64]. by rewrite <- !app_assoc.
Qed.

Lemma list_ind3 {A} (P : list A -> Prop) : P [] -> (forall b0, P [b0]) -> (forall b0 b1, P [b0; b1]) ->
  (forall b0 b1 b2 l, P l -> P (b0 :: b1 :: b2 :: l)) -> forall l, P l.
Proof.
  intros H0 H1 H2 H3 l. assert (forall n l, (length l <= n)%nat -> P l) as H; [|by apply (H (length l))].
  clear l. induction n as [|n IH]; intros [|b0 [|b1 [|b2 l]]] Hl; cbn [length] in Hl; try done; try lia. apply H3, IH. lia.
Qed.

(** The number of padding characters. *)
Definition pads (l : list Z) : nat := Z.to_nat ((- zlen l) mod 3).

Lemma pads_cons3 b0 b1 b2 l : pads (b0 :: b1 :: b2 :: l) = pads l.
Proof.
  unfold pads. f_equal. rewrite !zlen_cons. replace (- (1 + (1 + (1 + zlen l)))) with (- zlen l + -1 * 3) by lia. apply Z.mod_add. lia.
Qed.

Lemma length_base64 l : 3 * zlen (base64 l) = 4 * (zlen l + Z.of_nat (pads l)).
Proof.
  induction l as [|b0|b0 b1|b0 b1 b2 l IH] using list_ind3; [done|done|done|].
  rewrite pads_cons3. cbn [base64]. rewrite zlen_app, !zlen_cons. change (zlen (group3 b0 b1 b2)) with 4. lia.
Qed.

Lemma base64_app a : forall t, zlen a mod 3 = 0 -> base64 (a ++ t) = base64 a ++ base64 t.
Proof.
  induction a as [|b0|b0 b1|b0 b1 b2 a IH] using list_ind3; intros t Ha; [done|done|done|].
  cbn [app base64]. rewrite IH; [by rewrite <- app_assoc|]. rewrite !zlen_cons in Ha.
  replace (1 + (1 + (1 + zlen a))) with (zlen a + 1 * 3) in Ha by lia. by rewrite Z.mod_add in Ha.
Qed.

Lemma base64Encode_exact l : bytes_ok l -> zlen l < 2 ^ 30 -> base64Encode l = Some (base64 l).
Proof.
  intros Hok Hlen. unfold base64Encode. pose proof (zlen_nonneg l) as H0. destruct (Z.eqb_spec (zlen l) 0) as [E|Hne]; [by rewrite (zlen_0_nil l E)|].
  set (q := Z.to_nat (zlen l / 3)). assert (zlen l / 3 = Z.of_nat q) as Hq by (unfold q; rewrite Z2Nat.id; [done|]; Z.div_mod_to_equations; lia).
  assert (exists a t, l = a ++ t /\ length a = (3 * q)%nat /\ (length t < 3)%nat) as (a & t & -> & Ha & Ht).
  { exists (take (3 * q) l), (drop (3 * q) l). rewrite take_drop, length_take, length_drop. unfold zlen in *.
    clear Hne; clearbody q; split_and!; [done|Z.div_mod_to_equations; lia|Z.div_mod_to_equations; lia]. }
  apply Forall_app in Hok as [Hoka Hokt]. assert (zlen a = 3 * Z.of_nat q) as Hza by (unfold zlen; lia).
  assert (zlen a mod 3 = 0) as Ham by (rewrite Hza, Z.mul_comm; apply Z.mod_mul; lia).
  assert (zlen (base64 a) = 4 * Z.of_nat q) as Hba.
  { pose proof (length_base64 a) as Hb. unfold pads in Hb.
    assert ((- zlen a) mod 3 = 0) as Hz by (apply Z.mod_opp_l_z; lia). rewrite Hz in Hb. lia. }
  rewrite Hq. rewrite ?Nat2Z.id, base64_app by done.
  assert (forall z, encode_groups q 0 (a ++ t) (replicate (4 * q + z) 0) = Some (base64 a ++ replicate z 0)) as Henc.
  { intros z. pose proof (encode_groups_exact q [] (a ++ t) [] z) as H. cbn [app] in H. change (zlen [] / 3) with 0 in H.
    rewrite H; [|by apply Forall_app|done|rewrite length_app; lia|done]. do 2 f_equal. f_equal. rewrite take_app_le, take_ge by lia. done. }
  assert (forall k x, t !! k = Some x -> (a ++ t) !! Z.to_nat (3 * Z.of_nat q + Z.of_nat k) = Some x) as Hlk.
  { intros k x Hk. rewrite lookup_app_r by lia. rewrite <- Hk. f_equal. lia. }
  rewrite zlen_app, Hza in *. destruct t as [|b0 [|b1 [|]]]; cbn [length] in Ht; try lia.
  - change (zlen (@nil Z)) with 0 in *. match goal with |- context [?x <? ?y] => destruct (Z.ltb_spec x y); [lia|] end. rewrite wrap_small by lia.
    replace (Z.to_nat (4 * (Z.of_nat q + 0))) with (4 * q + 0)%nat by lia. rewrite Henc. done.
  - change (zlen [b0]) with 1 in *. match goal with |- context [?x <? ?y] => destruct (Z.ltb_spec x y); [|lia] end. rewrite wrap_small by lia.
    replace (Z.to_nat (4 * (Z.of_nat q + 1))) with (4 * q + 4)%nat by lia. rewrite Henc. cbn [mbind option_bind].
    pose proof (Hlk 0%nat b0 eq_refl) as Hb0. rewrite Z.add_0_r in Hb0. rewrite Hb0. cbn [mbind option_bind].
    match goal with |- context [?x =? ?y] => destruct (Z.eqb_spec x y); [lia|] end. apply Forall_cons in Hokt as [H1 _].
    destruct (sextets b0 0 0 H1 ltac:(done) ltac:(done)) as (-> & _ & _ & _ & _ & ->).
    rewrite <- Hba. pose proof (memcpy_at_mid (base64 a) [0] [0; 0; 0] [base64Char (b0 / 4)] eq_refl) as E1. cbn [app] in E1.
    change (replicate 4 0) with [0; 0; 0; 0]. rewrite E1. cbn [mbind option_bind].
    pose proof (memcpy_at_mid (base64 a ++ [base64Char (b0 / 4)]) [0; 0] [0] [base64Char (b0 mod 4 * 16); 61] eq_refl) as E2.
    rewrite zlen_app, <- app_assoc in E2. cbn [app] in E2. change (zlen [base64Char (b0 / 4)]) with 1 in E2. rewrite E2. cbn [mbind option_bind].
    pose proof (memcpy_at_mid (base64 a ++ [base64Char (b0 / 4); base64Char (b0 mod 4 * 16); 61]) [0] [] [61] eq_refl) as E3.
    rewrite zlen_app in E3. rewrite <- !app_assoc in E3. cbn [app] in E3.
    change (zlen [base64Char (b0 / 4); base64Char (b0 mod 4 * 16); 61]) with 3 in E3. rewrite <- app_assoc. cbn [app]. exact E3.
  - change (zlen [b0; b1]) with 2 in *. match goal with |- context [?x <? ?y] => destruct (Z.ltb_spec x y); [|lia] end. rewrite wrap_small by lia.
    replace (Z.to_nat (4 * (Z.of_nat q + 1))) with (4 * q + 4)%nat by lia. rewrite Henc. cbn [mbind option_bind].
    pose proof (Hlk 0%nat b0 eq_refl) as Hb0. rewrite Z.add_0_r in Hb0. rewrite Hb0. cbn [mbind option_bind].
    match goal with |- context [?x =? ?y] => destruct (Z.eqb_spec x y); [|lia] end. pose proof (Hlk 1%nat b1 eq_refl) as Hb1. change (Z.of_nat 1) with 1 in Hb1. rewrite Hb1. cbn [mbind option_bind].
    apply Forall_cons in Hokt as [H1 Hokt]. apply Forall_cons in Hokt as [H2 _].
    destruct (sextets b0 b1 0 H1 H2 ltac:(done)) as (-> & -> & _ & _ & -> & _).
    rewrite <- Hba. pose proof (memcpy_at_mid (base64 a) [0] [0; 0; 0] [base64Char (b0 / 4)] eq_refl) as E1. cbn [app] in E1.
    change (replicate 4 0) with [0; 0; 0; 0]. rewrite E1. cbn [mbind option_bind].
    pose proof (memcpy_at_mid (base64 a ++ [base64Char (b0 / 4)]) [0; 0] [0] [base64Char (b0 mod 4 * 16 + b1 / 16); base64Char (b1 mod 16 * 4)] eq_refl) as E2.
    rewrite zlen_app, <- app_assoc in E2. cbn [app] in E2. change (zlen [base64Char (b0 / 4)]) with 1 in E2. rewrite E2. cbn [mbind option_bind].
    pose proof (memcpy_at_mid (base64 a ++ [base64Char (b0 / 4); base64Char (b0 mod 4 * 16 + b1 / 16); base64Char (b1 mod 16 * 4)]) [0] [] [61] eq_refl) as E3.
    rewrite zlen_app in E3. rewrite <- !app_assoc in E3. cbn [app] in E3.
    change (zlen [base64Char (b0 / 4); base64Char (b0 mod 4 * 16 + b1 / 16); base64Char (b1 mod 16 * 4)]) with 3 in E3.
    rewrite <- app_assoc. cbn [app]. exact E3.
Qed.

(** ** Decoding what was encoded *)

Lemma outTmp_char v : 0 <= v < 64 -> outTmp (base64Char v) = v /\ base64Char v <> 61.
Proof.
  intros Hv. assert (forallb (fun v => (outTmp (base64Char v) =? v) && negb (base64Char v =? 61)) (map Z.of_nat (seq 0 64)) = true) as Hall
    by (vm_compute; reflexivity).
  rewrite forallb_forall in Hall. destruct (andb_prop _ _ (Hall v ltac:(apply in_map_iff; exists (Z.to_nat v); split; [lia|apply in_seq; lia]))) as [H1 H2].
  apply Z.eqb_eq in H1. split; [done|]. intros E. rewrite E in H2. done.
Qed.

Lemma quad_bytes b0 b1 b2 : is_byte b0 -> is_byte b1 -> is_byte b2 ->
  let o0 := b0 / 4 in let o1 := b0 mod 4 * 16 + b1 / 16 in let o2 := b1 mod 16 * 4 + b2 / 64 in let o3 := b2 mod 64 in
  0 <= o0 < 64 /\ 0 <= o1 < 64 /\ 0 <= o2 < 64 /\ 0 <= o3 < 64 /\
  [u8 (Z.lor (Z.shiftl o0 2) (Z.shiftr o1 4)); u8 (Z.lor (Z.shiftl o1 4) (Z.shiftr o2 2)); u8 (Z.lor (Z.shiftl o2 6) o3)] = [b0; b1; b2].
Proof.
  intros H0 H1 H2 o0 o1 o2 o3. unfold is_byte in H0, H1, H2.
  assert (0 <= o0 < 64 /\ 0 <= o1 < 64 /\ 0 <= o2 < 64 /\ 0 <= o3 < 64) as (Ho0 & Ho1 & Ho2 & Ho3)
    by (unfold o0, o1, o2, o3; Z.div_mod_to_equations; lia).
  split_and!; try lia. rewrite !Z.shiftr_div_pow2 by lia.
  rewrite !lor_shift by (change (2 ^ 4) with 16; change (2 ^ 2) with 4; change (2 ^ 6) with 64; try lia; Z.div_mod_to_equations; lia).
  change (2 ^ 4) with 16. change (2 ^ 2) with 4. change (2 ^ 6) with 64. unfold wrap. change (2 ^ 8) with 256.
  unfold o0, o1, o2, o3. f_equal; [|f_equal; [|f_equal]]; Z.div_mod_to_equations; lia.
Qed.

(** One group: the four characters, the bytes they stand for and the padding among them. *)
Lemma decode_one fuel p c0 c1 c2 c3 rest o x0 x1 x2 t n pc : 3 < n -> map outTmp [c0; c1; c2; c3] = map outTmp [c0; c1; c2; c3] ->
  decode_groups (S fuel) (zlen p) (zlen p + n - 3) (zlen o) pc (p ++ [c0; c1; c2; c3] ++ rest) (o ++ [x0; x1; x2] ++ t) =
  decode_groups fuel (zlen p + 4) (zlen p + n - 3) (zlen o + 3) (pc + count_padding [c0; c1; c2; c3]) (p ++ [c0; c1; c2; c3] ++ rest)
    (o ++ [u8 (Z.lor (Z.shiftl (outTmp c0) 2) (Z.shiftr (outTmp c1) 4)); u8 (Z.lor (Z.shiftl (outTmp c1) 4) (Z.shiftr (outTmp c2) 2));
           u8 (Z.lor (Z.shiftl (outTmp c2) 6) (outTmp c3))] ++ t).
Proof.
  intros Hn _. cbn [decode_groups]. destruct (Z.ltb_spec (zlen p) (zlen p + n - 3)); [|lia].
  change 4 with (zlen [c0; c1; c2; c3]) at 1. rewrite memread_mid. cbn [mbind option_bind map].
  rewrite memcpy_at_mid by done. done.
Qed.

Lemma decode_groups_exact l : bytes_ok l -> forall fuel p o t pc, (length l < fuel)%nat -> zlen t = zlen l + Z.of_nat (pads l) ->
  decode_groups fuel (zlen p) (zlen p + zlen (base64 l) - 3) (zlen o) pc (p ++ base64 l) (o ++ t) =
  Some (o ++ l ++ replicate (pads l) 0, pc + Z.of_nat (pads l)).
Proof.
  induction l as [|b0|b0 b1|b0 b1 b2 l IH] using list_ind3; intros Hok fuel p o t pc Hf Ht; (destruct fuel as [|fuel]; [cbn [length] in Hf; lia|]).
  - cbn [base64 decode_groups]. rewrite zlen_nil. destruct (Z.ltb_spec (zlen p) (zlen p + 0 - 3)); [lia|]. change (pads []) with 0%nat in *.
    rewrite (zlen_0_nil t) by (rewrite Ht; reflexivity). cbn [replicate app]. f_equal. f_equal. lia.
  - apply Forall_cons in Hok as [H0 _]. change (zlen [b0] + Z.of_nat (pads [b0])) with 3 in Ht.
    unfold zlen in Ht. destruct t as [|x0 [|x1 [|x2 [|]]]]; cbn [length] in Ht; try lia.
    cbn [base64]. destruct fuel as [|fuel]; [cbn [length] in Hf; lia|].
    destruct (quad_bytes b0 0 0 H0 (conj (Z.le_refl 0) eq_refl) (conj (Z.le_refl 0) eq_refl)) as (Ho0 & Ho1 & _ & _ & Hq). cbv zeta in Ho0, Ho1, Hq.
    change (0 mod 16 * 4 + 0 / 64) with 0 in Hq. change (0 mod 64) with 0 in Hq. change (0 / 16) with 0 in *. rewrite !Z.add_0_r in *.
    destruct (outTmp_char _ Ho0) as [E0 N0]. destruct (outTmp_char _ Ho1) as [E1 N1].
    pose proof (decode_one (S fuel) p (base64Char (b0 / 4)) (base64Char (b0 mod 4 * 16)) 61 61 [] o x0 x1 x2 [] 4 pc) as E.
    cbn [app] in E. change (zlen [base64Char (b0 / 4); base64Char (b0 mod 4 * 16); 61; 61]) with 4. rewrite E by (done || lia).
    rewrite E0, E1. change (outTmp 61) with 0. rewrite Hq. cbn [decode_groups]. destruct (Z.ltb_spec (zlen p + 4) (zlen p + 4 - 3)); [lia|].
    unfold count_padding. cbn [List.filter]. rewrite (proj2 (Z.eqb_neq _ _) N0), (proj2 (Z.eqb_neq _ _) N1). done.
  - apply Forall_cons in Hok as [H0 Hok]. apply Forall_cons in Hok as [H1 _]. change (zlen [b0; b1] + Z.of_nat (pads [b0; b1])) with 3 in Ht.
    unfold zlen in Ht. destruct t as [|x0 [|x1 [|x2 [|]]]]; cbn [length] in Ht; try lia.
    cbn [base64]. destruct fuel as [|fuel]; [cbn [length] in Hf; lia|].
    destruct (quad_bytes b0 b1 0 H0 H1 (conj (Z.le_refl 0) eq_refl)) as (Ho0 & Ho1 & Ho2 & _ & Hq). cbv zeta in Ho0, Ho1, Ho2, Hq.
    change (0 / 64) with 0 in *. change (0 mod 64) with 0 in Hq. rewrite !(Z.add_0_r (b1 mod 16 * 4)) in *.
    destruct (outTmp_char _ Ho0) as [E0 N0]. destruct (outTmp_char _ Ho1) as [E1 N1]. destruct (outTmp_char _ Ho2) as [E2 N2].
    pose proof (decode_one (S fuel) p (base64Char (b0 / 4)) (base64Char (b0 mod 4 * 16 + b1 / 16)) (base64Char (b1 mod 16 * 4)) 61 [] o x0 x1 x2 [] 4 pc) as E.
    cbn [app] in E. change (zlen [base64Char (b0 / 4); base64Char (b0 mod 4 * 16 + b1 / 16); base64Char (b1 mod 16 * 4); 61]) with 4. rewrite E by (done || lia).
    rewrite E0, E1, E2. change (outTmp 61) with 0. rewrite Hq. cbn [decode_groups]. destruct (Z.ltb_spec (zlen p + 4) (zlen p + 4 - 3)); [lia|].
    unfold count_padding. cbn [List.filter]. rewrite (proj2 (Z.eqb_neq _ _) N0), (proj2 (Z.eqb_neq _ _) N1), (proj2 (Z.eqb_neq _ _) N2). done.
  - apply Forall_cons in Hok as [H0 Hok]. apply Forall_cons in Hok as [H1 Hok]. apply Forall_cons in Hok as [H2 Hok].
    rewrite pads_cons3 in *. rewrite !zlen_cons in Ht. pose proof (zlen_nonneg l).
    destruct t as [|x0 [|x1 [|x2 t]]]; rewrite ?zlen_cons in Ht; try (change (zlen (@nil Z)) with 0 in Ht; lia).
    cbn [base64]. unfold group3.
    destruct (quad_bytes b0 b1 b2 H0 H1 H2) as (Ho0 & Ho1 & Ho2 & Ho3 & Hq). cbv zeta in Ho0, Ho1, Ho2, Ho3, Hq.
    destruct (outTmp_char _ Ho0) as [E0 N0]. destruct (outTmp_char _ Ho1) as [E1 N1]. destruct (outTmp_char _ Ho2) as [E2 N2].
    destruct (outTmp_char _ Ho3) as [E3 N3].
    set (c0 := base64Char (b0 / 4)) in *. set (c1 := base64Char (b0 mod 4 * 16 + b1 / 16)) in *.
    set (c2 := base64Char (b1 mod 16 * 4 + b2 / 64)) in *. set (c3 := base64Char (b2 mod 64)) in *.
    rewrite zlen_app. change (zlen [c0; c1; c2; c3]) with 4. change (x0 :: x1 :: x2 :: t) with ([x0; x1; x2] ++ t).
    pose proof (zlen_nonneg (base64 l)). rewrite decode_one by (done || lia). rewrite E0, E1, E2, E3, Hq.
    assert (count_padding [c0; c1; c2; c3] = 0) as ->.
    { unfold count_padding. cbn [List.filter]. rewrite (proj2 (Z.eqb_neq _ _) N0), (proj2 (Z.eqb_neq _ _) N1), (proj2 (Z.eqb_neq _ _) N2),
        (proj2 (Z.eqb_neq _ _) N3). done. }
    pose proof (IH Hok fuel (p ++ [c0; c1; c2; c3]) (o ++ [b0; b1; b2]) t pc) as Hrec.
    rewrite !zlen_app in Hrec. change (zlen [c0; c1; c2; c3]) with 4 in Hrec. change (zlen [b0; b1; b2]) with 3 in Hrec.
    rewrite <- !app_assoc in Hrec. rewrite Z.add_0_r. replace (zlen p + (4 + zlen (base64 l)) - 3) with (zlen p + 4 + zlen (base64 l) - 3) by lia.
    rewrite Hrec by (cbn [length] in Hf; lia). done.
Qed.

(** Encoding gives the characters of RFC 4648, and decoding what was encoded gives the bytes and their number back;
    every access stays in its buffer. *)
Theorem base64_round_trip junk l : (forall n, zlen (junk n) = Z.max 0 n) -> bytes_ok l -> zlen l < 2 ^ 28 ->
  base64Encode l = Some (base64 l) /\
  exists buf, base64Decode junk (base64 l) = Some (buf, zlen l) /\ take (length l) buf = l.
Proof.
  intros Hj Hok Hlen. split; [apply base64Encode_exact; [done|lia]|]. unfold base64Decode. pose proof (length_base64 l) as Hl. pose proof (zlen_nonneg l).
  destruct (Z.eqb_spec (zlen (base64 l)) 0) as [E|Hne].
  - assert (zlen l = 0) as E0 by lia. rewrite (zlen_0_nil l E0). by exists [].
  - assert (0 <= Z.of_nat (pads l) < 3) as Hp by (unfold pads; pose proof (Z.mod_pos_bound (- zlen l) 3); lia).
    rewrite (wrap_small 32) by lia. assert (3 * zlen (base64 l) / 4 = zlen l + Z.of_nat (pads l)) as -> by (rewrite Hl; Z.div_mod_to_equations; lia).
    pose proof (decode_groups_exact l Hok (S (length (base64 l))) [] [] (junk (zlen l + Z.of_nat (pads l))) 0) as H1.
    cbn [app] in H1. change (zlen (@nil Z)) with 0 in H1. rewrite !Z.add_0_l in H1. rewrite H1; [|unfold zlen in *; lia|rewrite Hj; lia].
    cbn [mbind option_bind]. eexists. split; [do 2 f_equal; rewrite wrap_small by lia; lia|]. by rewrite take_app_length.
Qed.

Lemma base64_round_trip_witness : base64Encode [102; 111; 111; 98] = Some (base64 [102; 111; 111; 98]) /\
  exists buf, base64Decode (fun n => replicate (Z.to_nat n) 7) (base64 [102; 111; 111; 98]) = Some (buf, 4) /\ take 4 buf = [102; 111; 111; 98].
Proof.
  apply (base64_round_trip (fun n => replicate (Z.to_nat n) 7) [102; 111; 111; 98]).
  - intros n. rewrite zlen_replicate. lia.
  - by repeat constructor.
  - done.
Defined.

(** Padding is subtracted wherever it stands: four padding characters give a length of 4294967295. *)
Example padding_only : exists buf, base64Decode (fun n => replicate (Z.to_nat n) 7) [61; 61; 61; 61] = Some (buf, 4294967295).
Proof. eexists. reflexivity. Qed.
