(* ===== verification/Http.v ===== *)
(** HTTP framing: src/imp/network/websocket/protocal-http.h, protocal-http.cpp.

    A string is the list of its characters; [std::map] is its list of entries in the order of the
    keys.  The parser reads C strings: [mem] is the memory from the data on, of which the first [len]
    bytes are data; [None] is an access outside of it, an overflow of an array on the stack, an overflow of a signed
    integer or an exception that nobody catches. *)
From S2P Require Import Prelude HexFile Codec.
From S2P Require Import UpdateFile.

Definition CR : Z := 13.
Definition LF : Z := 10.
Definition HEAD_END : list Z := [13; 10; 13; 10].
Definition HEAD_END_SIZE : Z := 4.
Definition LINE_END : list Z := [13; 10].
(** "Content-Length" *)
Definition CONTENT_LENGTH_KEY : list Z := [67; 111; 110; 116; 101; 110; 116; 45; 76; 101; 110; 103; 116; 104].

(** ** std::map *)

Fixpoint str_lt (a b : list Z) : bool :=
  match a, b with
  | _, [] => false
  | [], _ :: _ => true
  | x :: a', y :: b' => if x =? y then str_lt a' b' else x <? y
  end.

Definition str_eq (a b : list Z) : bool := bool_decide (a = b).

Abbreviation string_map := (list (list Z * list Z)).

Definition map_find (k : list Z) (m : string_map) : option (list Z) := option_map snd (List.find (fun e => str_eq (fst e) k) m).

(** [emplace]: nothing when there is such a key; [operator[]] with an assignment; [erase]. *)
Fixpoint map_insert (over : bool) (k v : list Z) (m : string_map) : string_map :=
  match m with
  | [] => [(k, v)]
  | (k', v') :: m' =>
      if str_eq k k' then (if over then (k, v) :: m' else m)
      else if str_lt k k' then (k, v) :: m
      else (k', v') :: map_insert over k v m'
  end.
Definition map_emplace := map_insert false.
Definition map_assign := map_insert true.
Definition map_erase (k : list Z) (m : string_map) : string_map := List.filter (fun e => negb (str_eq (fst e) k)) m.

(** ** Numbers *)

(** [std::to_string]. *)
Fixpoint digits (fuel : nat) (n : Z) (acc : list Z) : list Z :=
  match fuel with
  | O => acc
  | S fuel' => if n <? 10 then (48 + n) :: acc else digits fuel' (n / 10) ((48 + n mod 10) :: acc)
  end.
Definition to_string (n : Z) : list Z := digits 20 n [].

Definition isspace (c : Z) : bool := (c =? 32) || ((9 <=? c) && (c <=? 13)).
Definition isdigit (c : Z) : bool := (48 <=? c) && (c <=? 57).

Fixpoint skip_space (t : list Z) : list Z :=
  match t with c :: t' => if isspace c then skip_space t' else t | [] => [] end.

Fixpoint read_digits (t : list Z) (acc : Z) : Z :=
  match t with c :: t' => if isdigit c then read_digits t' (acc * 10 + (c - 48)) else acc | [] => acc end.

(** [std::stoul]; [None] is one of its exceptions. *)
Definition stoul (s : list Z) : option Z :=
  let t := skip_space s in
  let '(neg, t) := match t with c :: t' => if c =? 45 then (true, t') else if c =? 43 then (false, t') else (false, t) | [] => (false, []) end in
  match t with
  | c :: _ => if isdigit c then
                let v := read_digits t 0 in
                if v <? 2 ^ 64 then Some (if neg then u64 (- v) else v) else None
              else None
  | [] => None
  end.

(** Assigned to an [int64_t]. *)
Definition to_int64 (v : Z) : Z := if v <? 2 ^ 63 then v else v - 2 ^ 64.

(** ** The protocol *)

Record StreamHttpHeader := mkHttpHeader {
  header : list (list Z);
  keys : string_map;
  content_length : Z;
  header_offset : Z;
  parse_error : bool;
  process_finished : bool
}.

Definition new_StreamHttpHeader : StreamHttpHeader := mkHttpHeader [] [] (-1) 24 false false.

Record ProtocalHttp := mkHttp { http_config : ProtocalBase; header_cache : StreamHttpHeader }.

Definition new_ProtocalHttp (mcs mfs ss : Z) : ProtocalHttp :=
  mkHttp (new_ProtocalBase mcs true mfs (if ss =? 0 then 1200 else ss)) new_StreamHttpHeader.

Definition minProtocalSize : Z := 24.

(** [encodeFrame]: the bytes (with the zero behind them) and their number; the first two items are copied. *)
Definition http_encodeFrame (p : ProtocalHttp) (input_list : list (list Z)) : option (list Z * Z) :=
  let total_len := foldl (fun acc i => u32 (acc + zlen i)) 0 input_list in
  if max_frame_size (http_config p) <? total_len then Some ([], 0)
  else match input_list with
       | [] => Some ([], 0)
       | h :: input_list' =>
           let ret_buf := replicate (Z.to_nat (u32 (total_len + 1))) 0 in
           ret_buf ← memcpy_at ret_buf 0 h;
           ret_buf ← (match input_list' with c :: _ => memcpy_at ret_buf (zlen h) c | [] => Some ret_buf end);
           Some (ret_buf, total_len)
       end.

(** The start line, and the entries of the map. *)
Definition join_header (hdr : list (list Z)) : list Z :=
  foldl (fun data i => match data with [] => i | _ => data ++ 32 :: i end) [] hdr.
Definition key_lines (m : string_map) : list Z := concat (map (fun e => fst e ++ [58; 32] ++ snd e ++ LINE_END) m).

(** The frame, and the map, which is passed by reference. *)
Definition http_packetFrame (p : ProtocalHttp) (hdr : list (list Z)) (keys_map : string_map) (content : list Z)
  : option ((list Z * Z) * string_map) :=
  let keys_map := if zlen content =? 0 then map_erase CONTENT_LENGTH_KEY keys_map
                  else map_assign CONTENT_LENGTH_KEY (to_string (zlen content)) keys_map in
  let header_data := join_header hdr ++ LINE_END ++ key_lines keys_map ++ LINE_END in
  r ← http_encodeFrame p (header_data :: (if 0 <? zlen content then [content] else []));
  Some (r, keys_map).

(** [std::search] for the end of the header: its offset. *)
Fixpoint search_end (data : list Z) : option nat :=
  if bool_decide (take 4 data = HEAD_END) then Some O
  else match data with [] => None | _ :: data' => option_map S (search_end data') end.

(** [getNextLine] on the string from [input] on: how far the next line is. *)
Fixpoint getNextLine (input : list Z) : option nat :=
  match input with
  | [] => None
  | c :: input' =>
      if (c =? CR) || (c =? LF) then Some (match input' with d :: _ => if d =? LF then 2%nat else 1%nat | [] => 1%nat end)
      else option_map S (getNextLine input')
  end.

(** The conversions of sscanf: what was read and the rest; [None] does not match. *)
Fixpoint span (f : Z -> bool) (t : list Z) : list Z * list Z :=
  match t with
  | c :: t' => if f c then let '(w, r) := span f t' in (c :: w, r) else ([], t)
  | [] => ([], [])
  end.
Definition scan_word (t : list Z) : option (list Z * list Z) :=
  let '(w, r) := span (fun c => negb (isspace c)) (skip_space t) in match w with [] => None | _ => Some (w, r) end.
Definition scan_until (stop : list Z) (t : list Z) : option (list Z * list Z) :=
  let '(w, r) := span (fun c => negb (existsb (Z.eqb c) stop)) t in match w with [] => None | _ => Some (w, r) end.

(** An array of 4096 characters takes the word and its end. *)
Definition fits (w : list Z) : bool := zlen w <? 4096.

(** [sscanf(data, "%s %s %[^\r\n]", a, b, c)]; [Some None] is a result other than 3. *)
Definition scan_start (t : list Z) : option (option (list Z * list Z * list Z)) :=
  match scan_word t with
  | None => Some None
  | Some (a, t) =>
      if negb (fits a) then None else
      match scan_word (skip_space t) with
      | None => Some None
      | Some (b, t) =>
          if negb (fits b) then None else
          match scan_until [CR; LF] (skip_space t) with
          | None => Some None
          | Some (c, _) => if negb (fits c) then None else Some (Some (a, b, c))
          end
      end
  end.

(** [sscanf(temp, "%[^:]: %[^\r\n]", key, value)]. *)
Definition scan_key (t : list Z) : option (option (list Z * list Z)) :=
  match scan_until [58] t with
  | None => Some None
  | Some (key, t) =>
      if negb (fits key) then None else
      match t with
      | [] => Some None
      | _ :: t =>
          match scan_until [CR; LF] (skip_space t) with
          | None => Some None
          | Some (value, _) => if negb (fits value) then None else Some (Some (key, value))
          end
      end
  end.

(** The loop over the lines: [temp] is the string from offset [pos] on. *)
Fixpoint key_loop (fuel : nat) (temp : list Z) (pos tmp_pos : Z) (m : string_map) : option (string_map * bool) :=
  match fuel with
  | O => None
  | S fuel' =>
      match getNextLine temp with
      | None => Some (m, false)
      | Some n =>
          let pos := pos + Z.of_nat n in
          let temp := drop n temp in
          if pos <? tmp_pos then
            r ← scan_key temp;
            match r with
            | None => Some ([], true)
            | Some (key, value) => key_loop fuel' temp pos tmp_pos (map_emplace key value m)
            end
          else Some (m, false)
      end
  end.

Definition decodeFrameHeader (h : StreamHttpHeader) (mem : list Z) (data_len : Z) : option StreamHttpHeader :=
  if 0 <=? content_length h then Some h else
  match search_end (slice 0 data_len mem) with
  | None => Some h
  | Some tmp_pos =>
      data ← cstring mem;
      start ← scan_start data;
      match start with
      | None => Some (mkHttpHeader (header h) (keys h) (content_length h) (header_offset h) true (process_finished h))
      | Some (a, b, c) =>
          '(m, error) ← key_loop (S (length data)) data 0 (Z.of_nat tmp_pos) (keys h);
          let error := (error : bool) || parse_error h in
          match m with
          | [] => Some (mkHttpHeader (header h) m (content_length h) (header_offset h) error (process_finished h))
          | _ =>
              if error then Some (mkHttpHeader (header h) m (content_length h) (header_offset h) error (process_finished h))
              else
                len ← (match map_find CONTENT_LENGTH_KEY m with Some v => option_map to_int64 (stoul v) | None => Some 0 end);
                Some (mkHttpHeader (header h ++ [a; b; c]) m len (Z.of_nat tmp_pos + HEAD_END_SIZE) error (process_finished h))
          end
      end
  end.

(** The sum of two [int64_t]. *)
Definition add_int64 (x y : Z) : option Z := if (x + y <? 2 ^ 63) && (- 2 ^ 63 <=? x + y) then Some (x + y) else None.

Definition set_header_cache (h : StreamHttpHeader) (p : ProtocalHttp) : ProtocalHttp := mkHttp (http_config p) h.

Definition set_finished (h : StreamHttpHeader) : StreamHttpHeader :=
  mkHttpHeader (header h) (keys h) (content_length h) (header_offset h) (parse_error h) true.

(** The frame start and length, and the protocol with its header. *)
Definition http_decodeFrame (p : ProtocalHttp) (mem : list Z) (len : Z) : option ((Z * Z) * ProtocalHttp) :=
  if process_finished (header_cache p) then Some ((0, len), p) else
  if len <? minProtocalSize then Some ((0, 0), p) else
  h ← decodeFrameHeader (header_cache p) mem len;
  let p := set_header_cache h p in
  if parse_error h then Some ((0, u32 (max_frame_size (http_config p) + len)), p) else
  if content_length h <? 0 then Some ((0, 0), p) else
  need_size ← add_int64 (header_offset h) (content_length h);
  if len <? need_size then Some ((0, 0), p) else
  Some ((0, u32 need_size), set_header_cache (set_finished h) p).

(** The header, the offset of the content, and the result. *)
Definition http_bufferToFrame (h : StreamHttpHeader) (mem : list Z) (buf_len : Z) : option (StreamHttpHeader * option Z * bool) :=
  if buf_len <? minProtocalSize then Some (h, None, false) else
  h ← decodeFrameHeader h mem buf_len;
  if parse_error h then Some (h, None, false) else
  if content_length h <? 0 then Some (h, None, false) else
  need_size ← add_int64 (header_offset h) (content_length h);
  if buf_len <? need_size then Some (h, None, false) else
  Some (h, Some (header_offset h), true).

(** ** Examples *)

(** "GET /chat HTTP/1.1", one key. *)
Definition get_chat : list Z := [71; 69; 84; 32; 47; 99; 104; 97; 116; 32; 72; 84; 84; 80; 47; 49; 46; 49; 13; 10;
  72; 111; 115; 116; 58; 32; 97; 13; 10; 13; 10].

Example get_chat_decoded :
  option_map fst (http_decodeFrame (new_ProtocalHttp 1000 1000 0) (get_chat ++ [0]) 31) = Some (0, 31) /\
  http_bufferToFrame new_StreamHttpHeader (get_chat ++ [0]) 31 =
    Some (mkHttpHeader [[71; 69; 84]; [47; 99; 104; 97; 116]; [72; 84; 84; 80; 47; 49; 46; 49]] [([72; 111; 115; 116], [97])] 0 31 false false, Some 31, true).
Proof. split; vm_compute; reflexivity. Qed.

(** ** Maps in the order of their keys *)

Lemma str_lt_irrefl a : str_lt a a = false.
Proof. induction a as [|x a IH]; [done|]. cbn [str_lt]. by rewrite Z.eqb_refl. Qed.

Lemma str_lt_trans a : forall b c, str_lt a b = true -> str_lt b c = true -> str_lt a c = true.
Proof.
  induction a as [|x a IH]; intros [|y b] [|z c]; cbn [str_lt]; try done.
  destruct (Z.eqb_spec x y), (Z.eqb_spec y z), (Z.eqb_spec x z); try (intros; lia); intros; try (by eapply IH).
Qed.

Lemma str_lt_total a : forall b, a = b \/ str_lt a b = true \/ str_lt b a = true.
Proof.
  induction a as [|x a IH]; intros [|y b]; cbn [str_lt]; auto.
  destruct (Z.eqb_spec x y) as [->|]; [|destruct (Z.eqb_spec y x); lia].
  rewrite Z.eqb_refl. destruct (IH b) as [->|[|]]; auto.
Qed.

Lemma str_eq_spec a b : str_eq a b = true <-> a = b.
Proof. unfold str_eq. apply bool_decide_eq_true. Qed.

Lemma str_lt_neq a b : str_lt a b = true -> str_eq b a = false /\ str_eq a b = false /\ str_lt b a = false.
Proof.
  intros H. assert (a <> b) as Hne by (intros ->; by rewrite str_lt_irrefl in H).
  split_and!; [by apply bool_decide_eq_false|by apply bool_decide_eq_false|].
  destruct (str_lt b a) eqn:E; [|done]. pose proof (str_lt_trans _ _ _ H E) as Hc. by rewrite str_lt_irrefl in Hc.
Qed.

Definition entry_lt (e1 e2 : list Z * list Z) : Prop := str_lt e1.1 e2.1 = true.
Definition map_ok (m : string_map) : Prop := StronglySorted entry_lt m.

Lemma map_insert_in over k v m e : e ∈ map_insert over k v m -> e = (k, v) \/ e ∈ m.
Proof.
  induction m as [|[k' v'] m IH]; cbn [map_insert]; [rewrite list_elem_of_singleton; auto|].
  destruct (str_eq k k'); [destruct over; [|auto]; rewrite elem_of_cons; intros [->|]; [auto|right; by right]|].
  destruct (str_lt k k'); [rewrite elem_of_cons; intros [->|]; auto|].
  rewrite elem_of_cons. intros [->|Hin]; [right; by left|]. destruct (IH Hin); [auto|right; by right].
Qed.

Lemma map_assign_ok k v m : map_ok m -> map_ok (map_assign k v m) /\ map_find k (map_assign k v m) = Some v.
Proof.
  unfold map_ok, map_assign, map_find. induction 1 as [|[k' v'] m Hs IH Hall]; cbn [map_insert].
  - split; [repeat constructor|]. cbn [List.find fst]. by rewrite (proj2 (str_eq_spec k k) eq_refl).
  - destruct (str_eq k k') eqn:E.
    + apply str_eq_spec in E as ->. split; [by constructor|]. cbn [List.find fst]. by rewrite (proj2 (str_eq_spec k' k') eq_refl).
    + destruct (str_lt k k') eqn:L.
      * split.
        -- constructor; [by constructor|]. constructor; [done|]. eapply Forall_impl; [exact Hall|]. intros e He. by eapply str_lt_trans.
        -- cbn [List.find fst]. by rewrite (proj2 (str_eq_spec k k) eq_refl).
      * assert (str_lt k' k = true) as L'.
        { destruct (str_lt_total k k') as [->|[|]]; [|congruence|done]. by rewrite (proj2 (str_eq_spec k' k') eq_refl) in E. }
        destruct IH as [IH1 IH2]. split.
        -- constructor; [done|]. apply Forall_forall. intros e He. apply map_insert_in in He as [->|He]; [done|].
           rewrite Forall_forall in Hall. by apply Hall.
        -- cbn [List.find fst]. destruct (str_lt_neq _ _ L') as (_ & E2 & _). rewrite E2. exact IH2.
Qed.

Lemma map_erase_ok k m : map_ok m -> map_ok (map_erase k m) /\ map_find k (map_erase k m) = None.
Proof.
  unfold map_ok, map_erase, map_find. induction 1 as [|[k' v'] m Hs [IH1 IH2] Hall]; [split; [constructor|done]|]. cbn [List.filter fst].
  destruct (str_eq k' k) eqn:E; cbn [negb]; [done|]. split.
  - constructor; [done|]. apply Forall_forall. intros e He. rewrite Forall_forall in Hall. apply Hall.
    apply list_elem_of_In, filter_In in He as [He _]. by apply list_elem_of_In.
  - cbn [List.find fst]. by rewrite E.
Qed.

(** Emplacing the entries of an ordered map one after the other rebuilds it. *)
Lemma emplace_last k v m : Forall (fun e => str_lt e.1 k = true) m -> map_emplace k v m = m ++ [(k, v)].
Proof.
  unfold map_emplace. induction 1 as [|[k' v'] m H _ IH]; [done|]. cbn [map_insert fst] in *.
  destruct (str_lt_neq _ _ H) as (-> & _ & ->). by rewrite IH.
Qed.

Lemma emplace_all m : forall acc, map_ok (acc ++ m) -> foldl (fun acc e => map_emplace e.1 e.2 acc) acc m = acc ++ m.
Proof.
  induction m as [|[k v] m IH]; intros acc Hok; [by rewrite app_nil_r|]. cbn [foldl fst snd].
  assert (Forall (fun e => str_lt e.1 k = true) acc) as Hlt.
  { clear IH. induction acc as [|e acc IH]; [constructor|]. cbn [app] in Hok. inversion_clear Hok as [|? ? Hs Hall]. constructor; [|by apply IH].
    rewrite Forall_app in Hall. destruct Hall as [_ Hall]. by inversion_clear Hall. }
  rewrite emplace_last by done. rewrite IH; [by rewrite <- app_assoc|]. by rewrite <- app_assoc.
Qed.

(** ** Numbers *)

Lemma digits_spec fuel : forall n acc, 0 <= n < 10 ^ Z.of_nat fuel -> (0 < fuel)%nat ->
  exists c ds, digits fuel n acc = (c :: ds) ++ acc /\ Forall (fun d => isdigit d = true) (c :: ds) /\
    (forall rest, read_digits ((c :: ds) ++ rest) 0 = read_digits rest n) /\ (length ds < fuel)%nat.
Proof.
  induction fuel as [|fuel IH]; intros n acc Hn Hf; [lia|]. cbn [digits].
  destruct (Z.ltb_spec n 10) as [Hlt|Hge].
  - exists (48 + n), []. assert (isdigit (48 + n) = true) as Hd by (unfold isdigit; apply andb_true_intro; split; apply Z.leb_le; lia).
    split; [done|]. split; [by constructor|]. split; [|cbn [length]; lia]. intros rest. cbn [app read_digits]. rewrite Hd. f_equal. lia.
  - rewrite Nat2Z.inj_succ, Z.pow_succ_r in Hn by lia. assert (0 <= n / 10 < 10 ^ Z.of_nat fuel) as Hn' by (Z.div_mod_to_equations; lia).
    assert (0 < fuel)%nat as Hf'. { destruct fuel; [|lia]. change (10 ^ Z.of_nat 0) with 1 in Hn'. Z.div_mod_to_equations; lia. }
    destruct (IH (n / 10) ((48 + n mod 10) :: acc) Hn' Hf') as (c & ds & -> & Hall & Hread & Hlen).
    assert (isdigit (48 + n mod 10) = true) as Hd.
    { pose proof (Z.mod_pos_bound n 10 ltac:(lia)). unfold isdigit; apply andb_true_intro; split; apply Z.leb_le; lia. }
    exists c, (ds ++ [48 + n mod 10]). split; [cbn [app]; by rewrite <- app_assoc|].
    split; [change (c :: ds ++ [48 + n mod 10]) with ((c :: ds) ++ [48 + n mod 10]); apply Forall_app; split; [done|by constructor]|].
    split; [|rewrite length_app; cbn [length]; lia]. intros rest.
    change ((c :: ds ++ [48 + n mod 10]) ++ rest) with (((c :: ds) ++ [48 + n mod 10]) ++ rest).
    rewrite <- app_assoc, Hread. cbn [app read_digits]. rewrite Hd. f_equal. Z.div_mod_to_equations. lia.
Qed.

Lemma to_string_spec n : 0 <= n < 2 ^ 63 -> stoul (to_string n) = Some n /\ to_int64 n = n /\
  (exists c ds, to_string n = c :: ds) /\ Forall (fun d => isdigit d = true) (to_string n) /\ zlen (to_string n) <= 20.
Proof.
  intros Hn. unfold to_string. destruct (digits_spec 20 n []) as (c & ds & -> & Hall & Hread & Hlen); [|lia|].
  { change (10 ^ Z.of_nat 20) with 100000000000000000000. change (2 ^ 63) with 9223372036854775808 in Hn. lia. }
  rewrite app_nil_r. split_and!.
  - unfold stoul. inversion_clear Hall as [|? ? Hc _]. cbn [skip_space].
    assert (48 <= c <= 57) as Hcr. { unfold isdigit in Hc. apply andb_true_iff in Hc as [H1 H2]. apply Z.leb_le in H1, H2. lia. }
    assert (isspace c = false) as ->.
    { unfold isspace. rewrite (proj2 (Z.eqb_neq c 32)) by lia. apply andb_false_intro2, Z.leb_gt. lia. }
    rewrite (proj2 (Z.eqb_neq c 45)), (proj2 (Z.eqb_neq c 43)) by lia. rewrite Hc.
    specialize (Hread []). rewrite app_nil_r in Hread. rewrite Hread. cbn [read_digits].
    rewrite (proj2 (Z.ltb_lt n (2 ^ 64))) by (change (2 ^ 64) with 18446744073709551616; change (2 ^ 63) with 9223372036854775808 in Hn; lia). done.
  - unfold to_int64. by rewrite (proj2 (Z.ltb_lt n (2 ^ 63))) by lia.
  - by exists c, ds.
  - done.
  - rewrite zlen_cons. unfold zlen. lia.
Qed.

(** ** The text of a header *)

Definition word_text (w : list Z) : Prop := w <> [] /\ Forall (fun c => c <> 0 /\ isspace c = false) w /\ zlen w < 4096.

Definition plain (c : Z) : Prop := c <> 0 /\ c <> CR /\ c <> LF.

(** A text that goes up to the end of its line. *)
Definition line_text (t : list Z) : Prop :=
  Forall plain t /\ zlen t < 4096 /\ match t with [] => False | c :: _ => isspace c = false end.

Definition key_text (k : list Z) : Prop := k <> [] /\ Forall (fun c => plain c /\ c <> 58) k /\ zlen k < 4096.

Definition entry_ok (e : list Z * list Z) : Prop := key_text e.1 /\ line_text e.2.

Definition start_line (a b c : list Z) : list Z := a ++ 32 :: b ++ 32 :: c.

Definition head_text (a b c : list Z) (m : string_map) : list Z := start_line a b c ++ LINE_END ++ key_lines m ++ LINE_END.

Lemma plain_space c : isspace c = false -> c <> 0 -> plain c.
Proof.
  intros Hs H0. unfold isspace in Hs. apply orb_false_iff in Hs as [_ Hs]. apply andb_false_iff in Hs.
  unfold plain, CR, LF. split_and!; [done|intros ->; by destruct Hs|intros ->; by destruct Hs].
Qed.

Lemma word_plain w : word_text w -> Forall plain w.
Proof. intros (_ & Hw & _). eapply Forall_impl; [exact Hw|]. intros c [H0 Hs]. by apply plain_space. Qed.

Lemma start_line_plain a b c : word_text a -> word_text b -> line_text c -> Forall plain (start_line a b c).
Proof.
  intros Ha Hb (Hc & _). apply Forall_app; split; [by apply word_plain|]. constructor; [done|].
  apply Forall_app; split; [by apply word_plain|]. by constructor.
Qed.

Lemma entry_plain e : entry_ok e -> Forall plain (e.1 ++ [58; 32] ++ e.2).
Proof.
  intros [(_ & Hk & _) (Hv & _)]. apply Forall_app; split; [eapply Forall_impl; [exact Hk|naive_solver]|]. by repeat constructor.
Qed.

Lemma span_stop f w x r : Forall (fun c => f c = true) w -> f x = false -> span f (w ++ x :: r) = (w, x :: r).
Proof. intros Hw Hx. induction Hw as [|c w Hc _ IH]; cbn [span app]; [by rewrite Hx|]. by rewrite Hc, IH. Qed.

Lemma skip_space_word w r : match w with [] => False | c :: _ => isspace c = false end -> skip_space (w ++ r) = w ++ r.
Proof. destruct w as [|c w]; [done|]. intros Hc. cbn [skip_space app]. by rewrite Hc. Qed.

Lemma word_head w : word_text w -> match w with [] => False | c :: _ => isspace c = false end.
Proof. intros (Hne & Hw & _). destruct w; [done|]. apply Forall_cons in Hw. tauto. Qed.

Lemma scan_word_text w r : word_text w -> scan_word (w ++ 32 :: r) = Some (w, 32 :: r).
Proof.
  intros Hw. unfold scan_word. rewrite skip_space_word by by apply word_head. destruct Hw as (Hne & Hw & _).
  rewrite span_stop; [by destruct w| |done]. eapply Forall_impl; [exact Hw|]. intros c [_ Hc]. cbn beta. by rewrite Hc.
Qed.

Lemma scan_until_text stop w x r : w <> [] -> Forall (fun c => ~ In c stop) w -> In x stop -> scan_until stop (w ++ x :: r) = Some (w, x :: r).
Proof.
  intros Hne Hw Hx. unfold scan_until. rewrite span_stop; [by destruct w| |].
  - eapply Forall_impl; [exact Hw|]. intros c Hc. apply negb_true_iff. destruct (existsb (Z.eqb c) stop) eqn:E; [|done].
    apply existsb_exists in E as (y & Hy & He). apply Z.eqb_eq in He as <-. done.
  - apply negb_false_iff, existsb_exists. exists x. split; [done|apply Z.eqb_refl].
Qed.

Lemma line_not_stop t : Forall plain t -> Forall (fun c => ~ In c [CR; LF]) t.
Proof. intros Ht. eapply Forall_impl; [exact Ht|]. intros c (_ & H1 & H2) [<-|[<-|[]]]; done. Qed.

Lemma fits_text w : zlen w < 4096 -> fits w = true.
Proof. intros Hw. by apply Z.ltb_lt. Qed.

Lemma scan_start_line a b c r : word_text a -> word_text b -> line_text c ->
  scan_start (start_line a b c ++ CR :: r) = Some (Some (a, b, c)).
Proof.
  intros Ha Hb Hc. unfold scan_start, start_line. rewrite <- !app_assoc. cbn [app]. rewrite scan_word_text by done.
  rewrite (fits_text a) by apply Ha. cbn [negb skip_space isspace Z.eqb Pos.eqb orb]. rewrite <- app_assoc. cbn [app].
  rewrite (skip_space_word b) by by apply word_head. rewrite scan_word_text by done. rewrite (fits_text b) by apply Hb.
  cbn [negb skip_space isspace Z.eqb Pos.eqb orb]. destruct Hc as (Hp & Hl & Hh). rewrite (skip_space_word c) by done.
  rewrite scan_until_text; [by rewrite (fits_text c)|by destruct c|by apply line_not_stop|by left].
Qed.

Lemma scan_key_line e r : entry_ok e -> scan_key (e.1 ++ [58; 32] ++ e.2 ++ CR :: r) = Some (Some e).
Proof.
  destruct e as [k v]. intros [(Hne & Hk & Hl) (Hp & Hlv & Hh)]. cbn [fst snd] in *. unfold scan_key. cbn [app].
  rewrite scan_until_text; [|done| |by left].
  - rewrite (fits_text k) by done. cbn [negb skip_space isspace Z.eqb Pos.eqb orb]. rewrite (skip_space_word v) by done.
    rewrite scan_until_text; [by rewrite (fits_text v)|by destruct v|by apply line_not_stop|by left].
  - eapply Forall_impl; [exact Hk|]. intros c [_ Hc] [<-|[]]. done.
Qed.

Lemma getNextLine_text l r : Forall plain l -> getNextLine (l ++ LINE_END ++ r) = Some (length l + 2)%nat.
Proof.
  induction 1 as [|c l (_ & H1 & H2) _ IH]; [done|]. cbn [getNextLine app length].
  rewrite (proj2 (Z.eqb_neq _ _) H1), (proj2 (Z.eqb_neq _ _) H2). cbn [orb]. by rewrite IH.
Qed.

Lemma key_lines_cons e m r : key_lines (e :: m) ++ r = (e.1 ++ [58; 32] ++ e.2) ++ LINE_END ++ key_lines m ++ r.
Proof. unfold key_lines. cbn [map concat]. by rewrite <- !app_assoc. Qed.

Lemma key_lines_head e m r : entry_ok e -> exists x t, key_lines (e :: m) ++ r = x :: t /\ x <> CR.
Proof.
  intros [(Hne & Hk & _) _]. destruct e as [[|x k] v]; [done|]. cbn [fst] in *. apply Forall_cons in Hk as [((_ & Hx & _) & _) _].
  by eexists x, _.
Qed.

(** The line of [temp], the lines behind it and the end of the header. *)
Lemma key_loop_text m : forall l0 fuel pos acc r, Forall plain l0 -> Forall entry_ok m -> (length m < fuel)%nat ->
  key_loop fuel (l0 ++ LINE_END ++ key_lines m ++ LINE_END ++ r) pos (pos + zlen l0 + zlen (key_lines m)) acc =
  Some (foldl (fun acc e => map_emplace e.1 e.2 acc) acc m, false).
Proof.
  induction m as [|e m IH]; intros l0 fuel pos acc r Hl0 Hm Hf; (destruct fuel as [|fuel]; [lia|]); cbn [key_loop];
    rewrite getNextLine_text by done.
  - change (zlen (key_lines [])) with 0. replace (pos + Z.of_nat (length l0 + 2) <? pos + zlen l0 + 0) with false; [done|].
    symmetry. apply Z.ltb_ge. unfold zlen. lia.
  - apply Forall_cons in Hm as [He Hm]. pose proof (entry_plain e He) as Hp.
    assert (zlen (key_lines (e :: m)) = zlen (e.1 ++ [58; 32] ++ e.2) + 2 + zlen (key_lines m)) as Hlen.
    { unfold key_lines. cbn [map concat]. rewrite !zlen_app. change (zlen LINE_END) with 2. lia. }
    pose proof (zlen_nonneg (key_lines m)). pose proof (zlen_nonneg (e.1 ++ [58; 32] ++ e.2)).
    assert (0 < zlen (e.1 ++ [58; 32] ++ e.2)) by (rewrite !zlen_app; change (zlen [58; 32]) with 2; pose proof (zlen_nonneg e.1); pose proof (zlen_nonneg e.2); lia).
    replace (pos + Z.of_nat (length l0 + 2) <? pos + zlen l0 + zlen (key_lines (e :: m))) with true
      by (symmetry; apply Z.ltb_lt; unfold zlen in *; lia).
    assert (drop (length l0 + 2) (l0 ++ LINE_END ++ key_lines (e :: m) ++ LINE_END ++ r) =
      (e.1 ++ [58; 32] ++ e.2) ++ LINE_END ++ key_lines m ++ LINE_END ++ r) as ->.
    { rewrite app_assoc. rewrite drop_app_length' by (rewrite length_app; done). apply key_lines_cons. }
    pose proof (scan_key_line e (LF :: key_lines m ++ LINE_END ++ r) He) as Hscan.
    rewrite <- !app_assoc. unfold LINE_END, CR, LF in Hscan |- *. cbn [app] in Hscan |- *. rewrite Hscan. cbn [mbind option_bind]. destruct e as [k v]. cbn [foldl fst snd] in *.
    pose proof (IH (k ++ [58; 32] ++ v) fuel (pos + Z.of_nat (length l0 + 2)) (map_emplace k v acc) r Hp Hm ltac:(cbn [length] in Hf; lia)) as Hrec.
    unfold LINE_END in Hrec. rewrite <- !app_assoc in Hrec. cbn [app] in Hrec. rewrite <- Hrec. f_equal. rewrite Hlen. unfold zlen. cbn [app]. lia.
Qed.

(** ** Finding the end of the header *)

Lemma search_end_app p q n : search_end p = Some n -> search_end (p ++ q) = Some n /\ (n + 4 <= length p)%nat.
Proof.
  revert n. induction p as [|x p IH]; intros n; [done|]. cbn [search_end].
  destruct (bool_decide (take 4 (x :: p) = HEAD_END)) eqn:E.
  - intros [= <-]. apply bool_decide_eq_true in E. pose proof (f_equal length E) as Hl. rewrite length_take in Hl. cbn [length HEAD_END] in Hl.
    split; [|cbn [length]; lia]. change ((x :: p) ++ q) with (x :: (p ++ q)). cbn [search_end].
    rewrite bool_decide_true; [done|]. change (x :: p ++ q) with ((x :: p) ++ q). rewrite take_app_le by (cbn [length]; lia). done.
  - destruct (search_end p) as [n'|]; [|done]. intros [= <-]. destruct (IH n' eq_refl) as [IH1 IH2]. split; [|cbn [length]; lia].
    cbn [app search_end]. rewrite bool_decide_false; [by rewrite IH1|]. apply bool_decide_eq_false in E. intros E'. apply E.
    change (x :: p ++ q) with ((x :: p) ++ q) in E'. rewrite <- E'. symmetry. apply take_app_le. cbn [length]. lia.
Qed.

(** Behind a line that is not the last one. *)
Lemma search_end_line l x d : Forall plain l -> x <> CR ->
  search_end (l ++ LINE_END ++ x :: d) = option_map (fun n => length l + 2 + n)%nat (search_end (x :: d)).
Proof.
  intros Hl Hx. induction Hl as [|c l (_ & Hc & _) _ IH].
  - unfold LINE_END. cbn [app length]. change (search_end (13 :: 10 :: x :: d)) with
      (if bool_decide (take 4 (13 :: 10 :: x :: d) = HEAD_END) then Some O else option_map S (search_end (10 :: x :: d))).
    rewrite bool_decide_false by (intros E; apply (f_equal (fun l => nth 2 l 0)) in E; done).
    change (search_end (10 :: x :: d)) with (if bool_decide (take 4 (10 :: x :: d) = HEAD_END) then Some O else option_map S (search_end (x :: d))).
    rewrite bool_decide_false by done. by destruct (search_end (x :: d)).
  - set (R := search_end (x :: d)) in *. cbn [app search_end]. rewrite bool_decide_false by (intros E; by apply (f_equal (hd 0)) in E).
    rewrite IH. cbn [length]. by destruct R.
Qed.

Lemma search_end_last l d : Forall plain l -> search_end (l ++ LINE_END ++ LINE_END ++ d) = Some (length l).
Proof.
  intros Hl. induction Hl as [|c l (_ & Hc & _) _ IH]; [done|]. cbn [app search_end].
  rewrite bool_decide_false by (intros E; by apply (f_equal (hd 0)) in E). by rewrite IH.
Qed.

Lemma search_end_head m : forall l0 d, Forall plain l0 -> Forall entry_ok m ->
  search_end (l0 ++ LINE_END ++ key_lines m ++ LINE_END ++ d) = Some (length l0 + length (key_lines m))%nat.
Proof.
  induction m as [|e m IH]; intros l0 d Hl Hm; [cbn; rewrite Nat.add_0_r; by apply search_end_last|].
  apply Forall_cons in Hm as [He Hm]. destruct (key_lines_head e m (LINE_END ++ d) He) as (x & t & Hx & Hne).
  rewrite Hx, search_end_line by done. rewrite <- Hx, key_lines_cons, (IH _ d (entry_plain e He) Hm). cbn [option_map].
  f_equal. unfold key_lines. cbn [map concat]. rewrite !length_app. cbn [length LINE_END]. lia.
Qed.

Section Frame.
Context (a b c : list Z) (m : string_map) (Ha : word_text a) (Hb : word_text b) (Hc : line_text c)
  (Hm : Forall entry_ok m) (Hok : map_ok m) (Hne : m <> []).

Let head := head_text a b c m.

Lemma zlen_head : zlen head = zlen (start_line a b c) + zlen (key_lines m) + 4.
Proof. unfold head, head_text. rewrite !zlen_app. change (zlen LINE_END) with 2. lia. Qed.

(** Before the end of the header nothing is found. *)
Lemma search_prefix k : 0 <= k < zlen head -> search_end (take (Z.to_nat k) head) = None.
Proof.
  intros Hk. destruct (search_end (take (Z.to_nat k) head)) as [n|] eqn:E; [|done]. exfalso.
  destruct (search_end_app _ (drop (Z.to_nat k) head) n E) as [Hn Hl]. rewrite take_drop in Hn. rewrite length_take in Hl.
  pose proof (search_end_head m (start_line a b c) [] (start_line_plain a b c Ha Hb Hc) Hm) as Hs. rewrite app_nil_r in Hs.
  fold (head_text a b c m) in Hs. fold head in Hs. rewrite Hs in Hn. injection Hn as Hn. pose proof zlen_head as Hz.
  unfold zlen in *. lia.
Qed.

Lemma key_lines_length : (length m <= length (key_lines m))%nat.
Proof.
  unfold key_lines. clear. induction m as [|e m' IH]; [done|]. cbn [map concat length]. rewrite !length_app. cbn [length]. lia.
Qed.

Lemma cstring_text_ends t r : Forall (fun c => c <> 0) t -> In 0 r -> exists s, cstring (t ++ r) = Some (t ++ s) /\ cstring r = Some s.
Proof.
  intros Ht Hr. assert (exists s, cstring r = Some s) as [s Hs].
  { clear Ht. induction r as [|x r IH]; [done|]. cbn [cstring]. destruct (Z.eqb_spec x 0); [by eexists|].
    destruct Hr as [->|Hr]; [done|]. destruct (IH Hr) as [s ->]. by eexists. }
  exists s. split; [|done]. induction Ht as [|x t Hx _ IH]; [done|]. cbn [cstring app]. rewrite IH.
  by rewrite (proj2 (Z.eqb_neq _ _) Hx).
Qed.

Lemma head_no_end : Forall (fun c => c <> 0) head.
Proof.
  assert (Forall (fun c => c <> 0) LINE_END) as Hle by by repeat constructor.
  assert (forall l, Forall plain l -> Forall (fun c => c <> 0) l) as Hp by (intros l Hl; eapply Forall_impl; [exact Hl|]; intros x Hx; apply Hx).
  apply Forall_app; split; [by apply Hp, start_line_plain|]. apply Forall_app; split; [done|]. apply Forall_app; split; [|done].
  clear Hok Hne. induction Hm as [|e m' He _ IH]; [constructor|]. rewrite <- (app_nil_r (key_lines (e :: m'))), key_lines_cons, app_nil_r.
  apply Forall_app; split; [by apply Hp, entry_plain|]. apply Forall_app; split; [exact Hle|inversion_clear Hm; by apply IH].
Qed.

(** The header that is decoded, with the length its entry says. *)
Definition decoded (len : Z) (fin : bool) : StreamHttpHeader := mkHttpHeader [a; b; c] m len (zlen head) false fin.

Lemma decodeFrameHeader_whole r len data_len fin off :
  zlen head <= data_len <= zlen head + zlen r -> In 0 r ->
  (match map_find CONTENT_LENGTH_KEY m with Some v => option_map to_int64 (stoul v) | None => Some 0 end) = Some len ->
  decodeFrameHeader (mkHttpHeader [] [] (-1) off false fin) (head ++ r) data_len = Some (decoded len fin).
Proof.
  intros Hlen H0 Hcl. unfold decodeFrameHeader. cbn [content_length header keys header_offset parse_error process_finished].
  change (0 <=? -1) with false. cbv iota.
  assert (exists r', slice 0 data_len (head ++ r) = head ++ r') as [r' ->].
  { exists (take (Z.to_nat (data_len - zlen head)) r). unfold slice. rewrite drop_0. rewrite take_app. f_equal; [apply take_ge; unfold zlen in Hlen; lia|].
    f_equal. unfold zlen. lia. }
  unfold head at 1, head_text. rewrite <- !app_assoc.
  rewrite (search_end_head m (start_line a b c) r' (start_line_plain a b c Ha Hb Hc) Hm).
  destruct (cstring_text_ends head r head_no_end H0) as (s & -> & _). cbn [mbind option_bind].
  assert (scan_start (head ++ s) = Some (Some (a, b, c))) as ->.
  { unfold head, head_text. rewrite <- !app_assoc. exact (scan_start_line a b c (10 :: key_lines m ++ LINE_END ++ s) Ha Hb Hc). }
  cbn [mbind option_bind].
  assert (key_loop (S (length (head ++ s))) (head ++ s) 0 (Z.of_nat (length (start_line a b c) + length (key_lines m))) [] = Some (m, false)) as ->.
  { unfold head at 2, head_text. rewrite <- !app_assoc.
    replace (Z.of_nat (length (start_line a b c) + length (key_lines m))) with (0 + zlen (start_line a b c) + zlen (key_lines m)) by (unfold zlen; lia).
    rewrite key_loop_text; [|by apply start_line_plain|done|].
    - f_equal. f_equal. by apply (emplace_all m []).
    - pose proof key_lines_length. unfold head, head_text. rewrite !length_app. lia. }
  cbn [mbind option_bind orb]. rewrite Hcl. pose proof zlen_head as Hz.
  assert (forall A (x y : A), match m with [] => x | _ => y end = y) as Hmm by (clear - Hne; intros; by destruct m).
  rewrite Hmm. cbn [mbind option_bind app].
  unfold decoded. do 2 f_equal. unfold HEAD_END_SIZE. rewrite Hz. unfold zlen. lia.
Qed.
End Frame.

(** ** Frames *)

(** What is fed to the decoder: prefixes of a frame, each with the memory behind it. *)
Fixpoint http_feed (p : ProtocalHttp) (frame : list Z) (steps : list (Z * list Z)) : option (list (Z * Z) * ProtocalHttp) :=
  match steps with
  | [] => Some ([], p)
  | (k, behind) :: steps' =>
      '(r, p) ← http_decodeFrame p (take (Z.to_nat k) frame ++ behind) k;
      '(rs, p) ← http_feed p frame steps';
      Some (r :: rs, p)
  end.

(** The map a frame carries. *)
Definition framed_keys (keys_map : string_map) (content : list Z) : string_map :=
  if zlen content =? 0 then map_erase CONTENT_LENGTH_KEY keys_map
  else map_assign CONTENT_LENGTH_KEY (to_string (zlen content)) keys_map.

Lemma digits_line t : Forall (fun d => isdigit d = true) t -> (exists c ds, t = c :: ds) -> zlen t < 4096 -> line_text t.
Proof.
  intros Hd (c & ds & ->) Hl.
  assert (forall d, isdigit d = true -> 48 <= d <= 57) as Hr.
  { intros d H. unfold isdigit in H. apply andb_true_iff in H as [H1 H2]. apply Z.leb_le in H1, H2. lia. }
  split; [|split; [done|]].
  - eapply Forall_impl; [exact Hd|]. intros d H. apply Hr in H. unfold plain, CR, LF. lia.
  - apply Forall_cons in Hd as [Hc _]. apply Hr in Hc. unfold isspace. rewrite (proj2 (Z.eqb_neq c 32)) by lia. apply andb_false_intro2, Z.leb_gt. lia.
Qed.

Lemma content_length_key_text : key_text CONTENT_LENGTH_KEY.
Proof. split; [done|]. split; [|done]. unfold plain. repeat constructor; done. Qed.

Lemma framed_keys_ok keys_map content : map_ok keys_map -> Forall entry_ok keys_map -> zlen content < 2 ^ 31 ->
  map_ok (framed_keys keys_map content) /\ Forall entry_ok (framed_keys keys_map content) /\
  (match map_find CONTENT_LENGTH_KEY (framed_keys keys_map content) with Some v => option_map to_int64 (stoul v) | None => Some 0 end) = Some (zlen content).
Proof.
  intros Hok He Hl. unfold framed_keys. pose proof (zlen_nonneg content). destruct (Z.eqb_spec (zlen content) 0) as [Hz|Hnz].
  - destruct (map_erase_ok CONTENT_LENGTH_KEY keys_map Hok) as [H1 ->]. split_and!; [done| |by rewrite Hz].
    apply Forall_forall. intros e Hin. rewrite Forall_forall in He. apply He. apply list_elem_of_In, filter_In in Hin as [Hin _]. by apply list_elem_of_In.
  - destruct (map_assign_ok CONTENT_LENGTH_KEY (to_string (zlen content)) keys_map Hok) as [H1 ->].
    destruct (to_string_spec (zlen content)) as (Hs & Hi & Hex & Hdig & Hlen); [change (2 ^ 31) with 2147483648 in *; change (2 ^ 63) with 9223372036854775808; lia|].
    split_and!; [done| |rewrite Hs; cbn [option_map]; by rewrite Hi].
    apply Forall_forall. intros e Hin. apply map_insert_in in Hin as [->|Hin]; [|rewrite Forall_forall in He; by apply He].
    unfold entry_ok. cbn [fst snd]. split; [exact content_length_key_text|]. apply digits_line; [done|done|lia].
Qed.

Section Frames.
Context (a b c : list Z) (m : string_map) (content : list Z) (Ha : word_text a) (Hb : word_text b) (Hc : line_text c)
  (Hm : Forall entry_ok m) (Hok : map_ok m) (Hne : m <> [])
  (Hcl : (match map_find CONTENT_LENGTH_KEY m with Some v => option_map to_int64 (stoul v) | None => Some 0 end) = Some (zlen content)).

Let head := head_text a b c m.
Let frame := head ++ content.
Context (Hsize : zlen frame < 2 ^ 31).

(** A decoder that has seen a part of the frame. *)
Definition waiting (p : ProtocalHttp) : Prop :=
  header_cache p = new_StreamHttpHeader \/ header_cache p = decoded a b c m (zlen content) false.

Lemma need_size_frame : add_int64 (zlen head) (zlen content) = Some (zlen frame).
Proof.
  unfold add_int64. unfold frame in *. rewrite zlen_app in *. pose proof (zlen_nonneg head). pose proof (zlen_nonneg content).
  change (2 ^ 31) with 2147483648 in Hsize. change (2 ^ 63) with 9223372036854775808.
  rewrite (proj2 (Z.ltb_lt _ _)), (proj2 (Z.leb_le _ _)) by lia. done.
Qed.

(** The header, when it is complete and still to be decoded, or already decoded. *)
Lemma waiting_header p mem len : waiting p -> zlen head <= len <= zlen mem -> (exists r, mem = head ++ r /\ In 0 r) ->
  decodeFrameHeader (header_cache p) mem len = Some (decoded a b c m (zlen content) false).
Proof.
  intros [->| ->] Hlen (r & -> & H0).
  - apply decodeFrameHeader_whole; try done. rewrite zlen_app in Hlen. done.
  - unfold decodeFrameHeader. cbn [content_length decoded]. by rewrite (proj2 (Z.leb_le 0 (zlen content)) (zlen_nonneg _)).
Qed.

Lemma decode_prefix p k behind : waiting p -> 0 <= k < zlen frame -> In 0 behind ->
  exists p', http_decodeFrame p (take (Z.to_nat k) frame ++ behind) k = Some ((0, 0), p') /\ waiting p' /\ http_config p' = http_config p.
Proof.
  intros Hw Hk H0. unfold http_decodeFrame.
  assert (process_finished (header_cache p) = false) as -> by by destruct Hw as [->| ->].
  destruct (Z.ltb_spec k minProtocalSize); [by exists p|].
  destruct (Z.lt_ge_cases k (zlen head)) as [Hlt|Hge].
  - assert (waiting p /\ exists h, decodeFrameHeader (header_cache p) (take (Z.to_nat k) frame ++ behind) k = Some h /\ h = header_cache p) as (_ & h & -> & ->).
    { split; [done|]. exists (header_cache p). split; [|done]. unfold decodeFrameHeader.
      destruct (0 <=? content_length (header_cache p)); [done|].
      assert (slice 0 k (take (Z.to_nat k) frame ++ behind) = take (Z.to_nat k) head) as ->.
      { unfold slice, frame. rewrite drop_0. unfold zlen in *. rewrite (take_app_le head) by lia. apply take_app_length'. rewrite length_take. lia. }
      unfold head. by rewrite search_prefix by first [assumption|fold head; lia]. }
    cbn [mbind option_bind]. destruct p as [cfg h]. cbn [header_cache http_config set_header_cache] in *.
    destruct Hw as [Hw|Hw]; cbn [header_cache] in Hw; subst h.
    + eexists; split; [reflexivity|]. split; [by left|done].
    + cbn [parse_error content_length header_offset decoded]. pose proof (zlen_nonneg content).
      destruct (Z.ltb_spec (zlen content) 0); [lia|]. fold head. rewrite need_size_frame. cbn [mbind option_bind].
      rewrite (proj2 (Z.ltb_lt k (zlen frame))) by lia. eexists; split; [reflexivity|]. split; [by right|done].
  - rewrite (waiting_header p).
    + cbn [mbind option_bind]. cbn [parse_error content_length header_offset decoded]. pose proof (zlen_nonneg content).
      destruct (Z.ltb_spec (zlen content) 0); [lia|]. fold head. rewrite need_size_frame. cbn [mbind option_bind].
      rewrite (proj2 (Z.ltb_lt k (zlen frame))) by lia. eexists; split; [reflexivity|]. split; [by right|done].
    + done.
    + rewrite zlen_app. pose proof (zlen_nonneg behind). unfold zlen in *. rewrite length_take. lia.
    + exists (take (Z.to_nat k - length head) content ++ behind). split; [|apply in_or_app; by right]. unfold frame.
      rewrite take_app, app_assoc. do 2 f_equal. apply take_ge. unfold zlen in Hge. lia.
Qed.

Lemma decode_whole p len behind : waiting p -> 24 <= zlen frame <= len -> len <= zlen frame + zlen behind -> In 0 behind ->
  http_decodeFrame p (frame ++ behind) len =
    Some ((0, zlen frame), mkHttp (http_config p) (decoded a b c m (zlen content) true)).
Proof.
  intros Hw Hlen Hle H0. unfold http_decodeFrame.
  assert (process_finished (header_cache p) = false) as -> by by destruct Hw as [->| ->].
  unfold minProtocalSize. destruct (Z.ltb_spec len 24); [lia|].
  assert (zlen frame = zlen head + zlen content) as Hfr by (unfold frame; apply zlen_app). pose proof (zlen_nonneg content).
  rewrite (waiting_header p); [|done|rewrite zlen_app; lia|].
  - cbn [mbind option_bind]. cbn [parse_error content_length header_offset decoded set_header_cache http_config].
    destruct (Z.ltb_spec (zlen content) 0); [lia|]. fold head. rewrite need_size_frame. cbn [mbind option_bind].
    destruct (Z.ltb_spec len (zlen frame)); [lia|]. pose proof (zlen_nonneg head). rewrite wrap_small; [done|]. change (2 ^ 31) with 2147483648 in Hsize. change (2 ^ 32) with 4294967296. lia.
  - exists (content ++ behind). split; [unfold frame; by rewrite <- app_assoc|apply in_or_app; by right].
Qed.

Lemma feed_waits steps : forall p, waiting p -> Forall (fun s => 0 <= s.1 < zlen frame /\ In 0 s.2) steps ->
  exists p', http_feed p frame steps = Some (replicate (length steps) (0, 0), p') /\ waiting p' /\ http_config p' = http_config p.
Proof.
  induction steps as [|[k behind] steps IH]; intros p Hw Hs; [by exists p|]. apply Forall_cons in Hs as [[Hk H0] Hs]. cbn [http_feed].
  destruct (decode_prefix p k behind Hw Hk H0) as (p1 & -> & Hw1 & Hc1). cbn [mbind option_bind].
  destruct (IH p1 Hw1 Hs) as (p2 & -> & Hw2 & Hc2). exists p2. split; [done|]. split; [done|congruence].
Qed.

Lemma bufferToFrame_whole behind : 24 <= zlen frame -> In 0 behind ->
  http_bufferToFrame new_StreamHttpHeader (frame ++ behind) (zlen frame) = Some (decoded a b c m (zlen content) false, Some (zlen head), true) /\
  slice (zlen head) (zlen content) frame = content.
Proof.
  intros Hlen H0. split.
  - unfold http_bufferToFrame, minProtocalSize. destruct (Z.ltb_spec (zlen frame) 24); [lia|].
    rewrite (waiting_header (mkHttp (mkProtocalBase 0 true 0 0) new_StreamHttpHeader)).
    + cbn [mbind option_bind parse_error content_length header_offset decoded]. pose proof (zlen_nonneg content).
      destruct (Z.ltb_spec (zlen content) 0); [lia|]. fold head. rewrite need_size_frame. cbn [mbind option_bind].
      by rewrite Z.ltb_irrefl.
    + by left.
    + rewrite zlen_app. pose proof (zlen_nonneg behind). unfold frame. rewrite zlen_app. pose proof (zlen_nonneg content). lia.
    + exists (content ++ behind). split; [unfold frame; by rewrite <- app_assoc|apply in_or_app; by right].
  - unfold frame, slice. unfold zlen. rewrite !Nat2Z.id, drop_app_length. by apply take_ge.
Qed.
End Frames.

(** The bytes of a message. *)
Lemma packetFrame_exact p a b c keys_map content :
  let m := framed_keys keys_map content in let frame := head_text a b c m ++ content in
  a <> [] -> zlen frame <= max_frame_size (http_config p) -> zlen frame < 2 ^ 31 ->
  http_packetFrame p [a; b; c] keys_map content = Some ((frame ++ [0], zlen frame), m).
Proof.
  intros m frame Ha Hmax Hsize.
  unfold http_packetFrame. fold (framed_keys keys_map content). fold m.
  assert (join_header [a; b; c] ++ LINE_END ++ key_lines m ++ LINE_END = head_text a b c m) as ->.
  { unfold head_text, start_line, join_header. cbn [foldl]. destruct a as [|x a']; [done|]. cbn [app].
    rewrite <- !app_assoc. cbn [app]. by rewrite <- ?app_assoc. }
  pose proof (zlen_nonneg content). pose proof (zlen_nonneg (head_text a b c m)). unfold frame in *. rewrite zlen_app in *.
  change (2 ^ 31) with 2147483648 in *. unfold http_encodeFrame.
  destruct (Z.ltb_spec 0 (zlen content)) as [Hpos|Hz].
  + cbn [foldl]. rewrite Z.add_0_l, (wrap_small 32 (zlen (head_text a b c m))) by (change (2 ^ 32) with 4294967296; lia).
    rewrite (wrap_small 32 (zlen (head_text a b c m) + zlen content)) by (change (2 ^ 32) with 4294967296; lia).
    rewrite wrap_small by (change (2 ^ 32) with 4294967296; lia).
    destruct (Z.ltb_spec (max_frame_size (http_config p)) (zlen (head_text a b c m) + zlen content)); [lia|].
    rewrite memcpy_at_Some by (rewrite ?zlen_replicate; lia). cbn [mbind option_bind]. change (Z.to_nat 0) with 0%nat. rewrite take_0, app_nil_l, drop_replicate.
    replace (Z.to_nat (zlen (head_text a b c m) + zlen content + 1) - Z.to_nat (0 + zlen (head_text a b c m)))%nat with (length content + 1)%nat by (unfold zlen; lia).
    rewrite replicate_add. rewrite memcpy_at_mid by (rewrite zlen_replicate; done). cbn [mbind option_bind replicate]. by rewrite <- app_assoc.
  + assert (content = []) as Hnil by (apply zlen_0_nil; lia). rewrite Hnil in *. change (zlen (@nil Z)) with 0 in *. cbn [foldl].
    rewrite Z.add_0_l. rewrite Z.add_0_r in *. rewrite (wrap_small 32 (zlen (head_text a b c m))) by (change (2 ^ 32) with 4294967296; lia).
    rewrite wrap_small by (change (2 ^ 32) with 4294967296; lia).
    destruct (Z.ltb_spec (max_frame_size (http_config p)) (zlen (head_text a b c m))); [lia|].
    rewrite memcpy_at_Some by (rewrite ?zlen_replicate; lia). cbn [mbind option_bind]. change (Z.to_nat 0) with 0%nat. rewrite take_0, app_nil_l, drop_replicate, app_nil_r.
    replace (Z.to_nat (zlen (head_text a b c m) + 1) - Z.to_nat (0 + zlen (head_text a b c m)))%nat with 1%nat by lia. done.
Qed.

(** C37. A frame that is built is read back: for a start line of three words and any map of keys, [packetFrame] gives the
    header, the keys in order with the length of the content, and the content; whatever parts of it arrive first, and whatever is in
    the memory behind them, the decoder waits, and when the frame is there, followed by anything, it finds exactly it; and
    [bufferToFrame] gives the words, the keys and the content. *)
Theorem http_round_trip p a b c keys_map content steps len behind :
  let m := framed_keys keys_map content in let frame := head_text a b c m ++ content in
  word_text a -> word_text b -> line_text c -> map_ok keys_map -> Forall entry_ok keys_map -> m <> [] ->
  header_cache p = new_StreamHttpHeader -> 24 <= zlen frame -> zlen frame <= max_frame_size (http_config p) -> zlen frame < 2 ^ 31 ->
  Forall (fun s => 0 <= s.1 < zlen frame /\ In 0 s.2) steps -> In 0 behind -> zlen frame <= len <= zlen frame + zlen behind ->
  http_packetFrame p [a; b; c] keys_map content = Some ((frame ++ [0], zlen frame), m) /\
  (exists p1 p2, http_feed p frame steps = Some (replicate (length steps) (0, 0), p1) /\
     http_decodeFrame p1 (frame ++ behind) len = Some ((0, zlen frame), p2)) /\
  (exists h off, http_bufferToFrame new_StreamHttpHeader (frame ++ behind) (zlen frame) = Some (h, Some off, true) /\
     header h = [a; b; c] /\ keys h = m /\ content_length h = zlen content /\ slice off (content_length h) frame = content).
Proof.
  intros m frame Ha Hb Hc Hok He Hne Hp H24 Hmax Hsize Hs H0 Hlen.
  assert (zlen content < 2 ^ 31) as Hcs.
  { unfold frame in Hsize. rewrite zlen_app in Hsize. pose proof (zlen_nonneg (head_text a b c m)). lia. }
  destruct (framed_keys_ok keys_map content Hok He Hcs) as (Hmok & Hme & Hcl). fold m in Hmok, Hme, Hcl.
  split_and!.
  - apply packetFrame_exact; [by destruct Ha|done|done].
  - destruct (feed_waits a b c m content Ha Hb Hc Hme Hmok Hne Hcl Hsize steps p (or_introl Hp) Hs) as (p1 & H1 & Hw & _).
    exists p1. eexists. split; [exact H1|]. apply decode_whole; first [done|exact (conj H24 (proj1 Hlen))|exact (proj2 Hlen)].
  - destruct (bufferToFrame_whole a b c m content Ha Hb Hc Hme Hmok Hne Hcl Hsize behind H24 H0) as [H1 H2].
    eexists _, _. split; [exact H1|]. cbn [header keys content_length decoded]. split_and!; done.
Qed.

(** "PUT /x HTTP/1.1" with one key and three bytes. *)
Definition put_a : list Z := [80; 85; 84].
Definition put_b : list Z := [47; 120].
Definition put_c : list Z := [72; 84; 84; 80; 47; 49; 46; 49].
Definition put_keys : string_map := [([65], [98])].
Definition put_frame : list Z := head_text put_a put_b put_c (framed_keys put_keys [1; 0; 2]) ++ [1; 0; 2].

Lemma put_texts : word_text put_a /\ word_text put_b /\ line_text put_c /\ map_ok put_keys /\ Forall entry_ok put_keys.
Proof.
  unfold word_text, line_text, map_ok, put_keys. split_and!; try done; try (repeat constructor; done).
Qed.

Lemma http_round_trip_witness :
  let frame := put_frame in
  http_packetFrame (new_ProtocalHttp 1000 1000 0) [put_a; put_b; put_c] put_keys [1; 0; 2] =
    Some ((frame ++ [0], zlen frame), framed_keys put_keys [1; 0; 2]) /\
  (exists p1 p2, http_feed (new_ProtocalHttp 1000 1000 0) frame [(7, [0]); (30, [5; 0]); (44, [0])] = Some (replicate 3 (0, 0), p1) /\
     http_decodeFrame p1 (frame ++ [9; 0]) (zlen frame + 1) = Some ((0, zlen frame), p2)) /\
  (exists h off, http_bufferToFrame new_StreamHttpHeader (frame ++ [9; 0]) (zlen frame) = Some (h, Some off, true) /\
     header h = [put_a; put_b; put_c] /\ keys h = framed_keys put_keys [1; 0; 2] /\ content_length h = 3 /\ slice off (content_length h) frame = [1; 0; 2]).
Proof.
  destruct put_texts as (Ha & Hb & Hc & Hok & He).
  apply (http_round_trip (new_ProtocalHttp 1000 1000 0) put_a put_b put_c put_keys [1; 0; 2] [(7, [0]); (30, [5; 0]); (44, [0])]
    (zlen put_frame + 1) [9; 0] Ha Hb Hc Hok He).
  - vm_compute. discriminate.
  - reflexivity.
  - vm_compute. discriminate.
  - vm_compute. discriminate.
  - vm_compute. reflexivity.
  - repeat (constructor; [split; [split; [vm_compute; discriminate|vm_compute; reflexivity]|cbn; tauto]|]). constructor.
  - cbn. tauto.
  - split; vm_compute; discriminate.
Defined.

(** ** What goes wrong *)

(** A header without keys is never complete, and its start line is kept for the next one. *)
Example no_keys_waits : option_map fst (http_decodeFrame (new_ProtocalHttp 1000 1000 0)
  (put_a ++ 32 :: put_b ++ 32 :: put_c ++ HEAD_END ++ replicate 10 65 ++ [0]) 29) = Some (0, 0).
Proof. vm_compute. reflexivity. Qed.

(** A length that is no number throws; a word of 4096 characters leaves its array. *)
Example bad_length_throws : http_decodeFrame (new_ProtocalHttp 1000 1000 0)
  (head_text put_a put_b put_c [(CONTENT_LENGTH_KEY, [120])] ++ [0]) 38 = None.
Proof. vm_compute. reflexivity. Qed.

Example long_word_overflows : http_decodeFrame (new_ProtocalHttp 10000 10000 0)
  (replicate 4096 65 ++ head_text put_a put_b put_c put_keys ++ [0]) 4121 = None.
Proof. vm_compute. reflexivity. Qed.

(** An empty value takes what stands behind it: here the next line. *)
Example empty_value : option_map (fun r => keys (fst (fst r))) (http_bufferToFrame new_StreamHttpHeader
  (start_line put_a put_b put_c ++ LINE_END ++ [65; 58] ++ LINE_END ++ [66; 58; 32; 99] ++ LINE_END ++ LINE_END ++ [0]) 29) =
  Some [([65], [66; 58; 32; 99]); ([66], [99])].
Proof. vm_compute. reflexivity. Qed.

(** Once a frame was found everything that follows is one. *)
Lemma finished_is_raw p mem len : process_finished (header_cache p) = true -> http_decodeFrame p mem len = Some ((0, len), p).
Proof. intros Hf. unfold http_decodeFrame. by rewrite Hf. Qed.
