(* ===== verification/Handshake.v ===== *)
(** The websocket handshake: class WebsocketConnectionHelper of
    src/imp/network/websocket/websocket_connection_helper.h, websocket_connection_helper.cpp.

    A helper is a connection whose caches cut the stream with the protocol of [Http]; it ends by giving
    its descriptor away.  [None] is a failure of one of its parts: a copy outside of a buffer, a
    channel that was released, a parser that leaves its arrays.  [junk] is the memory in which the contexts of the hash
    functions are allocated. *)
From S2P Require Import Prelude Codec IcacheBuffer StreamProtocol Scheduler TcpConnection.
From S2P Require Import Md5 Sha1 Base64 Http.
From Stdlib Require Ascii String.
Import String.StringSyntax.

(** The characters of a literal. *)
Definition text (s : String.string) : list Z := map (fun c => Z.of_N (Ascii.N_of_ascii c)) (String.list_ascii_of_string s).
Arguments text s%_string_scope.

(** ** The protocol in a cache

    Behind the data stands the zero with which every buffer ends ([IcacheBufferBase::resize]); a failure of the parser
    is kept in [fault]. *)
Record HttpCodec := mkHttpCodec { http_state : ProtocalHttp; fault : bool }.

#[export] Instance http_codec : Codec HttpCodec := {
  codec_config := fun p => http_config (http_state p);
  decodeFrame := fun data p =>
    match http_decodeFrame (http_state p) (data ++ [0]) (zlen data) with
    | Some (r, st) => (r, mkHttpCodec st (fault p))
    | None => ((0, 0), mkHttpCodec (http_state p) true)
    end
}.

Definition new_HttpCodec : HttpCodec := mkHttpCodec (new_ProtocalHttp (10 * 1024 * 1024) (10 * 1024 * 1024) 1200) false.

(** ** State *)

Inductive WebsocketStatus :=
  | WebsocketPassive
  | WebsocketPassiveConnecting
  | WebsocketActiveConnecting
  | WebsocketConnected
  | WebsocketClosed.

(** The timer of the connection: its interval, and whether it is started. *)
Record helper_timer := mkTimer { timer_interval : Z; timer_single : bool; timer_working : bool }.

Record WebsocketConnectionHelper := mkHelper {
  h_this : Z;
  h_peerHostName : list Z;
  h_peerPort : Z;
  h_channel : option IoChannel;
  h_read : cache;
  h_write : cache;
  h_protocal : HttpCodec;
  connectionStatus : WebsocketStatus;
  timeoutTimer : option helper_timer;
  websocketApiName : list Z
}.

Inductive helper_signal :=
  | HDisconnected
  | NotifyNewWSConnection (api_name : list Z) (fd : Z) (is_passive : bool).

Definition h_set_channel (ch : option IoChannel) (h : WebsocketConnectionHelper) : WebsocketConnectionHelper :=
  mkHelper (h_this h) (h_peerHostName h) (h_peerPort h) ch (h_read h) (h_write h) (h_protocal h) (connectionStatus h) (timeoutTimer h) (websocketApiName h).
Definition h_set_read (c : cache) (p : HttpCodec) (h : WebsocketConnectionHelper) : WebsocketConnectionHelper :=
  mkHelper (h_this h) (h_peerHostName h) (h_peerPort h) (h_channel h) c (h_write h) p (connectionStatus h) (timeoutTimer h) (websocketApiName h).
Definition h_set_write (c : cache) (h : WebsocketConnectionHelper) : WebsocketConnectionHelper :=
  mkHelper (h_this h) (h_peerHostName h) (h_peerPort h) (h_channel h) (h_read h) c (h_protocal h) (connectionStatus h) (timeoutTimer h) (websocketApiName h).
Definition h_set_status (st : WebsocketStatus) (h : WebsocketConnectionHelper) : WebsocketConnectionHelper :=
  mkHelper (h_this h) (h_peerHostName h) (h_peerPort h) (h_channel h) (h_read h) (h_write h) (h_protocal h) st (timeoutTimer h) (websocketApiName h).
Definition h_set_timer (t : option helper_timer) (h : WebsocketConnectionHelper) : WebsocketConnectionHelper :=
  mkHelper (h_this h) (h_peerHostName h) (h_peerPort h) (h_channel h) (h_read h) (h_write h) (h_protocal h) (connectionStatus h) t (websocketApiName h).
Definition h_set_api (api : list Z) (h : WebsocketConnectionHelper) : WebsocketConnectionHelper :=
  mkHelper (h_this h) (h_peerHostName h) (h_peerPort h) (h_channel h) (h_read h) (h_write h) (h_protocal h) (connectionStatus h) (timeoutTimer h) api.

Definition WEBSOCKET_HTTP_VERSION : list Z := text "HTTP/1.1".
Definition WEBSOCKET_OPTION : list Z := text "GET".
Definition sha1_get_guid : list Z := text "258EAFA5-E914-47DA-95CA-C5AB0DC85B11".

(** ** Operations *)

Section Helper.
Context {T : Type} `{Poller T} (junk : list Z).
Implicit Types (h : WebsocketConnectionHelper) (s : T).

Definition generateSessionKey (ptr : Z) : option (list Z) :=
  data ← MY_our_MD5DataRaw junk (to_string ptr);
  base64Encode data.

Definition generateServerAcceptKey (sesion_key : list Z) : option (list Z) :=
  sha ← sha1_of junk [sesion_key; sha1_get_guid];
  base64Encode sha.

(** The constructor, with [TcpConnection::setProtocal]. *)
Definition new_WebsocketConnectionHelper (this : Z) (host : list Z) (port : Z) (ch : IoChannel) s : option (WebsocketConnectionHelper * T) :=
  '(t, s1) ← setProtocal new_HttpCodec ch s;
  Some (mkHelper this host port (Some (channel t)) (readCache t) (writeCache t) (protocal t) WebsocketPassive None [], s1).

(** A frame is appended; the first one of the queue asks for writable events. *)
Definition append_and_enable (frame : list Z) h s : option (WebsocketConnectionHelper * T) :=
  '(_, c) ← appendFrame (h_protocal h) frame (h_write h);
  let h := h_set_write c h in
  if frame_count c =? 1 then
    ch ← h_channel h;
    let ch := enablWriting ch in
    s ← sync ch s;
    Some (h_set_channel (Some ch) h, s)
  else Some (h, s).

(** The bytes of a message without content. *)
Definition packed (header : list (list Z)) (keys : string_map) h : option (list Z) :=
  '((buf, len), _) ← http_packetFrame (http_state (h_protocal h)) header keys [];
  Some (take (Z.to_nat len) buf).

Definition activeSetup (api : list Z) h s : option (WebsocketConnectionHelper * T) :=
  match connectionStatus h with
  | WebsocketPassive =>
      let h := h_set_status WebsocketActiveConnecting h in
      let h := h_set_api (match api with [] => text "/" | _ => api end) h in
      key ← generateSessionKey (h_this h);
      let keys := map_assign (text "Host") (h_peerHostName h ++ 58 :: to_string (h_peerPort h)) [] in
      let keys := map_assign (text "Upgrade") (text "websocket") keys in
      let keys := map_assign (text "Connection") (text "Upgrade") keys in
      let keys := map_assign (text "Sec-WebSocket-Key") key keys in
      let keys := map_assign (text "Sec-WebSocket-Version") (text "13") keys in
      buffer ← packed [WEBSOCKET_OPTION; websocketApiName h; WEBSOCKET_HTTP_VERSION] keys h;
      append_and_enable buffer h s
  | _ => Some (h, s)
  end.

Definition abort h s : list helper_signal * WebsocketConnectionHelper * T := ([HDisconnected], h_set_status WebsocketClosed h, s).

(** The timer is created; its timeout is connected to [abort]. *)
Definition setTimeout (time_msec : Z) h : WebsocketConnectionHelper :=
  match connectionStatus h with
  | WebsocketClosed => h
  | _ => match timeoutTimer h with
         | None => h_set_timer (Some (mkTimer time_msec true false)) h
         | Some _ => h
         end
  end.

Definition passiveResponse (client_key : list Z) h s : option (WebsocketConnectionHelper * T) :=
  match connectionStatus h with
  | WebsocketPassive =>
      let h := h_set_status WebsocketPassiveConnecting h in
      accept ← generateServerAcceptKey client_key;
      let keys := map_assign (text "Upgrade") (text "websocket") [] in
      let keys := map_assign (text "Connection") (text "Upgrade") keys in
      let keys := map_assign (text "Sec-WebSocket-Accept") accept keys in
      buffer ← packed [WEBSOCKET_HTTP_VERSION; text "101"; text "Switching Protocols"] keys h;
      append_and_enable buffer h s
  | _ => Some (h, s)
  end.

(** [on_close]; [on_error] does the same. *)
Definition helper_on_close h s : option (list helper_signal * WebsocketConnectionHelper * T) :=
  let h := h_set_status WebsocketClosed h in
  ch ← h_channel h;
  Some ([HDisconnected], h, stop ch s).
Definition helper_on_error := helper_on_close.

Definition handleConnectSuccess (is_passive : bool) h s : option (list helper_signal * WebsocketConnectionHelper * T) :=
  let h := h_set_status WebsocketConnected h in
  ch ← h_channel h;
  let fd := ch_fd ch in
  let s := stop ch s in
  let h := h_set_channel None h in
  let h := h_set_timer (option_map (fun t => mkTimer (timer_interval t) (timer_single t) false) (timeoutTimer h)) h in
  Some ([HDisconnected; NotifyNewWSConnection (websocketApiName h) fd is_passive], h, s).

(** A frame that [popFrame] copied ends with a zero. *)
Definition handleWebsocketPassiveConnection (frame : list Z) h s : option (list helper_signal * WebsocketConnectionHelper * T) :=
  '((hdr, _), _) ← http_bufferToFrame new_StreamHttpHeader (frame ++ [0]) (zlen frame);
  if content_length hdr <? 0 then helper_on_error h s else
  match header hdr with
  | [option; api; http_version] =>
      let h := h_set_api api h in
      if negb (str_eq option WEBSOCKET_OPTION) || negb (str_eq http_version WEBSOCKET_HTTP_VERSION) then helper_on_error h s else
      match map_find (text "Sec-WebSocket-Key") (keys hdr) with
      | None => helper_on_error h s
      | Some key => '(h, s) ← passiveResponse key h s; Some ([], h, s)
      end
  | _ => helper_on_error h s
  end.

Definition handleActiveConnection (frame : list Z) h s : option (list helper_signal * WebsocketConnectionHelper * T) :=
  '((hdr, _), _) ← http_bufferToFrame new_StreamHttpHeader (frame ++ [0]) (zlen frame);
  if content_length hdr <? 0 then helper_on_error h s else
  match header hdr with
  | [http_version; code; code_info] =>
      if negb (str_eq code (text "101")) || negb (str_eq http_version WEBSOCKET_HTTP_VERSION) then helper_on_error h s else
      match map_find (text "Sec-WebSocket-Accept") (keys hdr) with
      | None => helper_on_error h s
      | Some accept =>
          key ← generateSessionKey (h_this h);
          accept_key ← generateServerAcceptKey key;
          if negb (str_eq accept_key accept) then helper_on_error h s
          else handleConnectSuccess false h s
      end
  | _ => helper_on_error h s
  end.

(** [on_recv] *)
Fixpoint helper_on_recv (net : list recv_result) h s : option (list helper_signal * WebsocketConnectionHelper * T) :=
  match net with
  | [] => Some ([], h, s)
  | r :: net' =>
      '(ret, c, p) ← stream_readFromFd (h_protocal h) r (h_read h);
      if fault p then None else
      let h := h_set_read c p h in
      if ret <? 0 then Some ([], h, s)
      else if ret =? 0 then helper_on_close h s
      else
        '(frame, c) ← popFrame c;
        let h := h_set_read c p h in
        if 0 <? zlen frame then
          ch ← h_channel h;
          let ch := disableReading ch in
          let h := h_set_channel (Some ch) h in
          s ← sync ch s;
          match connectionStatus h with
          | WebsocketPassive => handleWebsocketPassiveConnection frame h s
          | WebsocketActiveConnecting => handleActiveConnection frame h s
          | _ => '(sg, h, s) ← helper_on_error h s; Some (sg ++ [HDisconnected], h, s)
          end
        else helper_on_recv net' h s
  end.

(** [on_write] *)
Definition helper_on_write (net : list send_result) h s : option (list Z * list helper_signal * WebsocketConnectionHelper * T) :=
  '(sent, c, closed) ← write_loop (S (length net)) net (h_write h);
  let h := h_set_write c h in
  if (closed : bool) then '(sg, h, s) ← helper_on_close h s; Some (sent, sg, h, s)
  else if frame_count c =? 0 then
    ch ← h_channel h;
    let ch := disableWriting ch in
    let h := h_set_channel (Some ch) h in
    s ← sync ch s;
    match connectionStatus h with
    | WebsocketPassiveConnecting => '(sg, h, s) ← handleConnectSuccess true h s; Some (sent, sg, h, s)
    | _ => Some (sent, [], h, s)
    end
  else Some (sent, [], h, s).

(** Events until the helper emits a signal. *)
Fixpoint helper_run (evs : list (list recv_result + list send_result)) h s : option (list Z * list helper_signal * WebsocketConnectionHelper * T) :=
  match evs with
  | [] => Some ([], [], h, s)
  | ev :: evs' =>
      '(sent, sg, h, s) ← (match ev with
                           | inl net => '(sg, h, s) ← helper_on_recv net h s; Some ([], sg, h, s)
                           | inr net => helper_on_write net h s
                           end);
      match sg with
      | [] => '(sent', sg', h, s) ← helper_run evs' h s; Some (sent ++ sent', sg', h, s)
      | _ => Some (sent, sg, h, s)
      end
  end.
End Helper.

(** ** The protocol keeps its contract *)

Definition header_ok (h : StreamHttpHeader) : Prop := 0 <= content_length h -> 0 <= header_offset h.
Definition http_ok (p : HttpCodec) : Prop :=
  0 <= getMaxFrameSize p /\ getMaxCacheSize p + getMaxFrameSize p < 2 ^ 32 /\ header_ok (header_cache (http_state p)).

Lemma decodeFrameHeader_ok h mem len h' : header_ok h -> decodeFrameHeader h mem len = Some h' -> header_ok h'.
Proof.
  unfold decodeFrameHeader, header_ok. intros Hok. destruct (Z.leb_spec 0 (content_length h)) as [|Hneg]; [by intros [= <-]|].
  destruct (search_end _) as [n|]; [|by intros [= <-]]. destruct (UpdateFile.cstring mem) as [data|]; cbn [mbind option_bind]; [|done].
  destruct (scan_start data) as [[[[a b] c]|]|]; cbn [mbind option_bind]; [|intros [= <-]; cbn; lia|done].
  destruct (key_loop _ _ _ _ _) as [[m error]|]; cbn [mbind option_bind]; [|done].
  destruct m as [|e m]; [intros [= <-]; cbn; lia|]. destruct (error || parse_error h); [intros [= <-]; cbn; lia|].
  destruct (match map_find _ _ with Some v => _ | None => _ end); cbn [mbind option_bind]; [|done].
  intros [= <-]. cbn. unfold HEAD_END_SIZE. lia.
Qed.

(** What a decoding gives: nothing, a failure, invalid data or a frame. *)
Lemma http_decode_cases st mem len r st' :
  0 <= max_frame_size (http_config st) -> 0 <= len -> len + max_frame_size (http_config st) < 2 ^ 32 -> header_ok (header_cache st) ->
  http_decodeFrame st mem len = Some (r, st') ->
  http_config st' = http_config st /\ header_ok (header_cache st') /\ exists n, r = (0, n) /\
    (n = 0 \/ n = max_frame_size (http_config st) + len /\ 24 <= len \/ 0 <= n <= len).
Proof.
  intros Hm Hl Hlm Hok. unfold http_decodeFrame, minProtocalSize.
  destruct (process_finished (header_cache st)); [intros [= <- <-]; split_and!; try done; eexists; split; [done|]; lia|].
  destruct (Z.ltb_spec len 24); [intros [= <- <-]; split_and!; try done; eexists; split; [done|]; lia|].
  destruct (decodeFrameHeader (header_cache st) mem len) as [h|] eqn:Hh; cbn [mbind option_bind]; [|done].
  pose proof (decodeFrameHeader_ok _ _ _ _ Hok Hh) as Hok'.
  destruct (parse_error h).
  { intros [= <- <-]. split_and!; try done. eexists; split; [done|]. cbn [http_config set_header_cache]. rewrite wrap_small by lia. lia. }
  destruct (Z.ltb_spec (content_length h) 0) as [|Hcl]; [intros [= <- <-]; split_and!; try done; eexists; split; [done|]; lia|].
  unfold add_int64. destruct (_ && _); cbn [mbind option_bind]; [|done]. pose proof (Hok' Hcl).
  destruct (Z.ltb_spec len (header_offset h + content_length h)); intros [= <- <-]; (split; [done|]); (split; [done|]); eexists; (split; [done|]); [lia|].
  rewrite wrap_small by lia. lia.
Qed.

#[export] Instance http_codec_laws : CodecLaws HttpCodec http_ok.
Proof.
  assert (forall data p, http_ok p -> zlen data <= getMaxCacheSize p ->
    http_ok (decodeFrame data p).2 /\ exists n, (decodeFrame data p).1 = (0, n) /\ (n = 0 \/ n = getMaxFrameSize p + zlen data /\ 24 <= zlen data \/ 0 <= n <= zlen data)) as Hcases.
  { intros data p (Hm & Hc & Hok) Hd. pose proof (zlen_nonneg data). cbn [decodeFrame http_codec].
    destruct (http_decodeFrame (http_state p) (data ++ [0]) (zlen data)) as [[r st]|] eqn:Hdec.
    - destruct (http_decode_cases (http_state p) _ _ _ _ Hm ltac:(done) ltac:(unfold getMaxCacheSize, getMaxFrameSize in *; cbn in *; lia) Hok Hdec) as (Hcfg & Hok' & n & -> & Hn).
      split; [|by exists n]. unfold http_ok, getMaxFrameSize, getMaxCacheSize in *. cbn [codec_config http_codec http_state snd] in *. by rewrite Hcfg.
    - split; [done|]. exists 0. split; [done|by left]. }
  assert (forall st mem len r st', http_decodeFrame st mem len = Some (r, st') -> http_config st' = http_config st /\ r.1 = 0) as Hcfg.
  { intros st mem len r st'. unfold http_decodeFrame. destruct (process_finished _); [by intros [= <- <-]|]. destruct (_ <? _); [by intros [= <- <-]|].
    destruct (decodeFrameHeader _ _ _) as [h|]; cbn [mbind option_bind]; [|done]. destruct (parse_error h); [by intros [= <- <-]|].
    destruct (_ <? _); [by intros [= <- <-]|]. destruct (add_int64 _ _); cbn [mbind option_bind]; [|done]. destruct (_ <? _); by intros [= <- <-]. }
  assert (forall data p, http_ok p -> http_ok (decodeFrame data p).2) as Hkeep.
  { intros data p (Hm & Hc & Hok). cbn [decodeFrame http_codec].
    destruct (http_decodeFrame (http_state p) (data ++ [0]) (zlen data)) as [[r st]|] eqn:Hdec; [|done].
    destruct (Hcfg _ _ _ _ _ Hdec) as [Hc1 _]. unfold http_ok, getMaxFrameSize, getMaxCacheSize in *. cbn [codec_config http_codec http_state snd] in *.
    rewrite Hc1. split_and!; try done. unfold http_decodeFrame in Hdec.
    destruct (process_finished _); [by injection Hdec as _ <-|]. destruct (_ <? _); [by injection Hdec as _ <-|].
    destruct (decodeFrameHeader _ _ _) as [h|] eqn:Hh; cbn [mbind option_bind] in Hdec; [|done]. pose proof (decodeFrameHeader_ok _ _ _ _ Hok Hh).
    destruct (parse_error h); [by injection Hdec as _ <-|]. destruct (_ <? _); [by injection Hdec as _ <-|].
    destruct (add_int64 _ _); cbn [mbind option_bind] in Hdec; [|done]. destruct (_ <? _); by injection Hdec as _ <-. }
  split; try done.
  - intros data p. cbn [decodeFrame http_codec codec_config]. destruct (http_decodeFrame _ _ _) as [[r st]|] eqn:Hdec; [|done]. by apply Hcfg in Hdec as [? _].
  - intros data p. cbn [decodeFrame http_codec]. destruct (http_decodeFrame _ _ _) as [[r st]|] eqn:Hdec; [|done]. by apply Hcfg in Hdec as [_ ?].
  - intros data p Hok Hd. pose proof (zlen_nonneg data). destruct (Hcases data p Hok Hd) as (_ & n & -> & Hn). cbn. destruct Hok. lia.
  - intros data p Hok Hd. pose proof (zlen_nonneg data). destruct (Hcases data p Hok Hd) as (_ & n & -> & Hn). cbn. destruct Hok. lia.
  - intros data p Hok Hd. pose proof (zlen_nonneg data). destruct (Hcases data p Hok Hd) as (_ & n & -> & Hn). cbn. destruct Hok. lia.
Qed.

(** ** A single frame in chunks

    [waits] are the states of a codec before the frame is complete, [done_with] those after it. *)
Section Chunks.
Context {P : Type} `{Codec P} (codec_ok : P -> Prop) `{!CodecLaws P codec_ok} (frame : list Z) (waits done_with : P -> Prop).

Record one_frame : Prop := {
  of_prefix : forall k p, waits p -> 0 <= k < zlen frame -> (decodeFrame (take (Z.to_nat k) frame) p).1 = (0, 0) /\ waits (decodeFrame (take (Z.to_nat k) frame) p).2;
  of_whole : forall p, waits p -> (decodeFrame frame p).1 = (0, zlen frame) /\ done_with (decodeFrame frame p).2;
  of_rest : forall p, done_with p -> (decodeFrame [] p).1 = (0, 0) /\ done_with (decodeFrame [] p).2
}.
Context (Hframe : one_frame).

(** A cache that holds the beginning [x] of the frame, of which [y] is missing. *)
Definition expecting (p : P) (c : cache) (y : list Z) : Prop :=
  codec_ok p /\ waits p /\ cache_wf c /\ sizes_ok p c /\ c_max c = getMaxCacheSize p /\ frames_of c = [] /\ pending_of c ++ y = frame /\
  zlen frame <= getMaxFrameSize p <= getMaxCacheSize p /\ 0 < getSliceSize p <= getMaxFrameSize p.

Lemma chunk_waits p c d y : expecting p c (d ++ y) -> 0 < zlen d <= getSliceSize p -> y <> [] ->
  exists c' p', stream_readFromFd p (RecvOk d) c = Some (zlen d, c', p') /\ expecting p' c' y /\ codec_config p' = codec_config p.
Proof.
  intros (Hok & Hw & Hwf & Hsz & Hcm & Hfr & Hpend & Hfl & Hsl) Hd Hy. unfold stream_readFromFd.
  rewrite take_ge by (unfold zlen in *; lia). rewrite (proj2 (Z.eqb_neq (zlen d) 0)) by lia.
  assert (0 < zlen y) by (destruct y; [done|rewrite zlen_cons; pose proof (zlen_nonneg y); lia]).
  assert (zlen (pending_of c) + zlen d + zlen y = zlen frame) as Hl by (rewrite <- Hpend, !zlen_app; lia).
  destruct (stream_readFromBuf_spec codec_ok p d c Hwf Hsz Hok) as (r & c1 & p1 & Hread & W1 & S1 & O1 & Hres); [lia|].
  pose proof (stream_readFromBuf_max _ _ _ _ _ _ Hread) as M1. rewrite Hread.
  rewrite unread_pending in Hres by done. rewrite bool_decide_true in Hres by lia. destruct Hres as (fs & ok & Hall & F1 & Hr).
  rewrite (parse_all_unfold codec_ok) in Hall by (first [done|rewrite zlen_app; lia]).
  assert (pending_of c ++ d = take (Z.to_nat (zlen (pending_of c) + zlen d)) frame) as Hpre.
  { rewrite <- Hpend, app_assoc. rewrite take_app_length'; [done|]. rewrite length_app. unfold zlen. lia. }
  pose proof (zlen_nonneg (pending_of c)).
  destruct (of_prefix Hframe (zlen (pending_of c) + zlen d) p Hw ltac:(lia)) as [Hdec Hw1]. rewrite <- Hpre in Hdec, Hw1.
  pose proof (decode_keeps_config (pending_of c ++ d) p) as Hcfg.
  destruct (decodeFrame (pending_of c ++ d) p) as [[st n] p2]. cbn [fst snd] in *. injection Hdec as -> ->. rewrite Z.eqb_refl in Hall.
  injection Hall as <- Hp1 <- <-. cbn [mbind option_bind]. subst r. rewrite (proj2 (Z.ltb_ge _ _)) by lia.
  exists c1, p2. split; [done|]. split; [|done]. unfold expecting, getMaxFrameSize, getMaxCacheSize, getSliceSize in *. rewrite Hcfg.
  do 4 (split; [done|]). split; [congruence|]. split; [by rewrite F1, Hfr|]. split; [by rewrite <- Hp1, <- app_assoc|done].
Qed.

Lemma chunk_completes p c d : expecting p c d -> 0 < zlen d <= getSliceSize p ->
  exists c' p', stream_readFromFd p (RecvOk d) c = Some (zlen d, c', p') /\ frames_of c' = [frame] /\ cache_wf c' /\ done_with p' /\ codec_config p' = codec_config p.
Proof.
  intros (Hok & Hw & Hwf & Hsz & Hcm & Hfr & Hpend & Hfl & Hsl) Hd. unfold stream_readFromFd.
  rewrite take_ge by (unfold zlen in *; lia). rewrite (proj2 (Z.eqb_neq (zlen d) 0)) by lia.
  assert (zlen (pending_of c) + zlen d = zlen frame) as Hl by (rewrite <- Hpend, !zlen_app; lia).
  destruct (stream_readFromBuf_spec codec_ok p d c Hwf Hsz Hok) as (r & c1 & p1 & Hread & W1 & S1 & O1 & Hres); [lia|]. rewrite Hread.
  rewrite unread_pending in Hres by done. rewrite bool_decide_true in Hres by lia. destruct Hres as (fs & ok & Hall & F1 & Hr).
  rewrite Hpend in Hall. rewrite (parse_all_unfold codec_ok) in Hall by (first [done|lia]). pose proof (zlen_nonneg (pending_of c)).
  destruct (of_whole Hframe p Hw) as [Hdec Hd1]. pose proof (decode_keeps_ok frame p Hok) as Hok2. pose proof (decode_keeps_config frame p) as Hcfg.
  destruct (decodeFrame frame p) as [[st n] p2]. cbn [fst snd] in *. injection Hdec as -> ->.
  rewrite (proj2 (Z.eqb_neq (zlen frame) 0)), (proj2 (Z.ltb_ge _ _)) in Hall by lia.
  unfold zlen at 1 2 in Hall. rewrite Nat2Z.id, drop_all, take_ge in Hall by lia.
  rewrite (parse_all_unfold codec_ok [] p2) in Hall; [|done|].
  2: { change (zlen []) with 0. unfold getMaxCacheSize in *. rewrite Hcfg. lia. }
  destruct (of_rest Hframe p2 Hd1) as [Hdec0 Hd2]. pose proof (decode_keeps_config [] p2) as Hcfg2. destruct (decodeFrame [] p2) as [[st n] p3]. cbn [fst snd] in *. injection Hdec0 as -> ->.
  rewrite Z.eqb_refl in Hall. injection Hall as <- _ <- <-. cbn [mbind option_bind]. subst r. rewrite (proj2 (Z.ltb_ge _ _)) by lia.
  exists c1, p3. split; [done|]. split; [by rewrite F1, Hfr|]. do 2 (split; [done|]). congruence.
Qed.
End Chunks.

(** ** The two messages *)

Definition request_keys (host key : list Z) : string_map :=
  [(text "Connection", text "Upgrade"); (text "Host", host); (text "Sec-WebSocket-Key", key); (text "Sec-WebSocket-Version", text "13"); (text "Upgrade", text "websocket")].
Definition response_keys (accept : list Z) : string_map :=
  [(text "Connection", text "Upgrade"); (text "Sec-WebSocket-Accept", accept); (text "Upgrade", text "websocket")].

Definition request (api host key : list Z) : list Z := head_text WEBSOCKET_OPTION api WEBSOCKET_HTTP_VERSION (request_keys host key).
Definition response (accept : list Z) : list Z := head_text WEBSOCKET_HTTP_VERSION (text "101") (text "Switching Protocols") (response_keys accept).

(** RFC 6455: the key of the client and what the server makes of it. *)
Definition session_key (this : Z) : list Z := base64 (MD5 (to_string this)).
Definition accept_key (key : list Z) : list Z := base64 (SHA1 (key ++ sha1_get_guid)).

(** A message without content that the parser reads back. *)
Record message_ok (a b c : list Z) (m : string_map) : Prop := {
  mo_a : word_text a; mo_b : word_text b; mo_c : line_text c;
  mo_keys : Forall entry_ok m; mo_sorted : map_ok m; mo_some : m <> [];
  mo_length : map_find CONTENT_LENGTH_KEY m = None;
  mo_size : 24 <= zlen (head_text a b c m) < 2 ^ 20
}.

Section Message.
Context (a b c : list Z) (m : string_map) (Hm : message_ok a b c m).
Let frame := head_text a b c m.

Definition message_waits (p : HttpCodec) : Prop := waiting a b c m [] (http_state p) /\ fault p = false.
Definition message_done (p : HttpCodec) : Prop := process_finished (header_cache (http_state p)) = true /\ fault p = false.

Lemma frame_app : head_text a b c m ++ [] = frame. Proof. by rewrite app_nil_r. Qed.

Lemma no_length : (match map_find CONTENT_LENGTH_KEY m with Some v => option_map to_int64 (stoul v) | None => Some 0 end) = Some (zlen (@nil Z)).
Proof. by rewrite (mo_length _ _ _ _ Hm). Qed.

Lemma message_one_frame : one_frame frame message_waits message_done.
Proof.
  destruct Hm as [Ha Hb Hc Hk Hs Hne Hcl Hsz]. pose proof no_length as Hl.
  assert (zlen (head_text a b c m ++ []) < 2 ^ 31) as Hsize by (rewrite frame_app; unfold frame; lia).
  assert (In 0 [0]) as H0 by by left. split.
  - intros k p [Hw Hf] Hk'. assert (0 <= k < zlen (head_text a b c m ++ [])) as Hk2 by by rewrite frame_app.
    destruct (decode_prefix a b c m [] Ha Hb Hc Hk Hs Hne Hl Hsize (http_state p) k [0] Hw Hk2 H0) as (p' & Hd & Hw' & _).
    rewrite frame_app in Hd. cbn [decodeFrame http_codec]. replace (zlen (take (Z.to_nat k) frame)) with k by (unfold zlen in *; rewrite length_take; lia).
    by rewrite Hd.
  - intros p [Hw Hf].
    pose proof (decode_whole a b c m [] Ha Hb Hc Hk Hs Hne Hl Hsize (http_state p) (zlen frame) [0] Hw) as Hd. rewrite frame_app in Hd.
    cbn [decodeFrame http_codec]. rewrite Hd; [done|unfold frame in *; lia|change (zlen [0]) with 1; lia|done].
  - intros p [Hf Hg]. cbn [decodeFrame http_codec]. unfold http_decodeFrame. by rewrite Hf.
Qed.

Lemma message_parsed : exists off, http_bufferToFrame new_StreamHttpHeader (frame ++ [0]) (zlen frame) = Some (decoded a b c m 0 false, off, true).
Proof.
  destruct Hm as [Ha Hb Hc Hk Hs Hne Hcl Hsz]. pose proof no_length as Hl.
  assert (zlen (head_text a b c m ++ []) < 2 ^ 31) as Hsize by (rewrite frame_app; unfold frame; lia).
  pose proof (bufferToFrame_whole a b c m [] Ha Hb Hc Hk Hs Hne Hl Hsize [0]) as Hd. rewrite frame_app in Hd.
  destruct Hd as [Hd _]; [unfold frame; lia|by left|]. eexists. exact Hd.
Qed.

Lemma message_packed h : getMaxFrameSize (h_protocal h) >= 2 ^ 20 -> map_erase CONTENT_LENGTH_KEY m = m -> packed [a; b; c] m h = Some frame.
Proof.
  intros Hmax He. unfold packed. destruct Hm as [[Hne _] _ _ _ _ _ _ Hsz].
  pose proof (packetFrame_exact (http_state (h_protocal h)) a b c m [] Hne) as Hp. unfold framed_keys in Hp.
  change (zlen (@nil Z) =? 0) with true in Hp. cbv iota zeta in Hp. rewrite He, frame_app in Hp.
  rewrite Hp; [|unfold getMaxFrameSize in *; cbn in *; unfold frame; lia|unfold frame; lia].
  cbn [mbind option_bind]. unfold zlen. by rewrite Nat2Z.id, take_app_length.
Qed.
End Message.

(** ** Texts *)

Definition printable (c : Z) : Prop := 33 <= c <= 126.

Lemma base64Char_printable i : 0 <= i < 64 -> printable (base64Char i).
Proof.
  intros Hi. assert (forallb (fun i => (33 <=? base64Char i) && (base64Char i <=? 126)) (seqZ 0 64) = true) as Hall by (vm_compute; reflexivity).
  rewrite forallb_forall in Hall. specialize (Hall i). rewrite <- list_elem_of_In, elem_of_seqZ in Hall.
  specialize (Hall ltac:(lia)). apply andb_true_iff in Hall as [H1 H2]. unfold printable. lia.
Qed.

Lemma base64_printable l : bytes_ok l -> Forall printable (base64 l).
Proof.
  assert (printable 61) as H61 by (unfold printable; lia).
  induction l as [|b0|b0 b1|b0 b1 b2 l IH] using list_ind3; intros Hl; [constructor| | |];
    repeat (apply Forall_cons in Hl as [? Hl]); cbn [base64 group3 app]; unfold is_byte in *;
    repeat (constructor; [first [done|apply base64Char_printable; Z.div_mod_to_equations; lia]|]); [constructor|constructor|by apply IH].
Qed.

Lemma printable_line l : l <> [] -> Forall printable l -> zlen l < 4096 -> line_text l.
Proof.
  intros Hne Hp Hl. split; [|split; [done|]].
  - eapply Forall_impl; [exact Hp|]. unfold printable, plain, CR, LF. intros x Hx. lia.
  - destruct l as [|x l]; [done|]. apply Forall_inv in Hp. unfold printable, isspace in *.
    rewrite (proj2 (Z.eqb_neq x 32)), (proj2 (Z.leb_gt x 13)) by lia. by rewrite andb_false_r.
Qed.

Lemma base64_line l n : bytes_ok l -> zlen l = n -> 0 < n < 1000 -> line_text (base64 l) /\ zlen (base64 l) < 2000.
Proof.
  intros Hl <- Hn. pose proof (length_base64 l) as H3.
  assert (0 <= Z.of_nat (pads l) < 3) by (unfold pads; pose proof (Z.mod_pos_bound (- zlen l) 3 ltac:(lia)); lia).
  split; [|lia]. apply printable_line; [|by apply base64_printable|lia]. intros He. rewrite He in H3. change (zlen []) with 0 in H3. lia.
Qed.

Lemma MD5_ok msg : bytes_ok msg -> bytes_ok (MD5 msg) /\ zlen (MD5 msg) = 16.
Proof.
  intros Hok. assert (bytes_ok (msg ++ Digest.padding (le_bytes 8 (8 * zlen msg)) (zlen msg))) as Hok'.
  { apply Forall_app; split; [done|]. constructor; [done|]. apply Forall_app; split; [by apply Forall_replicate|apply le_bytes_ok]. }
  destruct (absorb_md5 _ Hok') as [_ Hl]. unfold MD5. revert Hl. generalize (Digest.absorb_all md5_compress md5_H0 (msg ++ Digest.padding (le_bytes 8 (8 * zlen msg)) (zlen msg))). intros s Hl.
  split.
  - apply Forall_concat, Forall_map, Forall_forall. intros w _. apply le_bytes_ok.
  - assert (length (concat (map (le_bytes 4) s)) = (4 * length s)%nat) as Hc.
    { clear. induction s as [|w s IH]; [done|]. cbn [map concat length]. rewrite length_app, IH. destruct (le_bytes_ok 4 w) as [_ ->]. lia. }
    unfold zlen. rewrite Hc, Hl. done.
Qed.

Lemma to_string_bytes n : 0 <= n < 2 ^ 63 -> bytes_ok (to_string n) /\ zlen (to_string n) <= 20.
Proof.
  intros Hn. destruct (to_string_spec n Hn) as (_ & _ & _ & Hd & Hl). split; [|done]. eapply Forall_impl; [exact Hd|].
  intros d Hx. unfold isdigit in Hx. apply andb_true_iff in Hx as [H1 H2]. apply Z.leb_le in H1, H2. unfold is_byte. lia.
Qed.

Lemma session_key_ok junk this : length junk = 64%nat -> 0 <= this < 2 ^ 63 ->
  generateSessionKey junk this = Some (session_key this) /\ bytes_ok (session_key this) /\ line_text (session_key this) /\ zlen (session_key this) < 2000.
Proof.
  intros Hj Ht. destruct (to_string_bytes this Ht) as [Hb Hl]. destruct (MD5_ok _ Hb) as [Hmb Hml]. unfold generateSessionKey, session_key.
  destruct (md5_exact junk (to_string this) Hj Hb) as [-> _]; [lia|]. cbn [mbind option_bind].
  rewrite base64Encode_exact by (first [done|rewrite Hml; done]). split; [done|].
  split; [eapply Forall_impl; [by apply base64_printable|]; unfold printable, is_byte; intros; lia|]. apply (base64_line _ 16); [done|done|lia].
Qed.

Lemma guid_ok : bytes_ok sha1_get_guid /\ zlen sha1_get_guid = 36.
Proof.
  split; [|reflexivity]. assert (forallb (fun b => (0 <=? b) && (b <? 256)) sha1_get_guid = true) as Hg by reflexivity.
  apply Forall_forall. intros x Hx. rewrite forallb_forall in Hg. specialize (Hg x (proj1 (list_elem_of_In _ _) Hx)). unfold is_byte. lia.
Qed.

Lemma accept_key_ok junk key : length junk = 64%nat -> bytes_ok key -> zlen key < 2 ^ 30 ->
  generateServerAcceptKey junk key = Some (accept_key key) /\ line_text (accept_key key) /\ zlen (accept_key key) < 2000.
Proof.
  intros Hj Hk Hl. destruct guid_ok as [Hg Hgl]. unfold generateServerAcceptKey, accept_key.
  assert (bytes_ok (key ++ sha1_get_guid)) as Hb by by apply Forall_app.
  rewrite sha1_of_exact; cbn [concat]; rewrite ?app_nil_r; [|done|done|rewrite zlen_app, Hgl; lia]. cbn [mbind option_bind].
  destruct (length_SHA1 _ Hb) as [Hsb Hsl]. rewrite base64Encode_exact by (first [done|rewrite Hsl; done]). split; [done|].
  apply (base64_line _ 20); [done|done|lia].
Qed.

Lemma text_word s : negb (zlen (text s) =? 0) && (zlen (text s) <? 4096) && forallb (fun c => negb (c =? 0) && negb (isspace c)) (text s) = true -> word_text (text s).
Proof.
  intros [[H1 H2]%andb_true_iff H3]%andb_true_iff. split_and!; [intros He; by rewrite He in H1| |by apply Z.ltb_lt].
  rewrite forallb_forall in H3. apply Forall_forall. intros c Hc. specialize (H3 c (proj1 (list_elem_of_In _ _) Hc)).
  apply andb_true_iff in H3 as [H3 H4]. split; [by apply negb_true_iff, Z.eqb_neq in H3|by apply negb_true_iff in H4].
Qed.

Definition line_check (l : list Z) : bool :=
  forallb (fun c => negb (c =? 0) && negb (c =? CR) && negb (c =? LF)) l && (zlen l <? 4096) && match l with [] => false | c :: _ => negb (isspace c) end.

Lemma check_plain l : forallb (fun c => negb (c =? 0) && negb (c =? CR) && negb (c =? LF)) l = true -> Forall plain l.
Proof.
  rewrite forallb_forall. intros Hall. apply Forall_forall. intros c Hc. specialize (Hall c (proj1 (list_elem_of_In _ _) Hc)).
  unfold plain. lia.
Qed.

Lemma check_line l : line_check l = true -> line_text l.
Proof.
  unfold line_check. intros [[H1 H2]%andb_true_iff H3]%andb_true_iff. split_and!; [by apply check_plain|by apply Z.ltb_lt|].
  destruct l as [|c l]; [done|]. by apply negb_true_iff in H3.
Qed.

Lemma text_key s : line_check (text s) && negb (zlen (text s) =? 0) && forallb (fun c => negb (c =? 58)) (text s) = true -> key_text (text s).
Proof.
  unfold line_check. intros [[[[H1 H2]%andb_true_iff _]%andb_true_iff H4]%andb_true_iff H5]%andb_true_iff.
  split_and!; [intros He; by rewrite He in H4| |by apply Z.ltb_lt]. apply check_plain in H1. rewrite forallb_forall in H5.
  apply Forall_forall. intros c Hc. split; [by apply (proj1 (Forall_forall _ _) H1)|].
  specialize (H5 c (proj1 (list_elem_of_In _ _) Hc)). by apply negb_true_iff, Z.eqb_neq in H5.
Qed.

Ltac text_ok := first [apply text_word; reflexivity|apply check_line; reflexivity|apply text_key; reflexivity].

Ltac zlen_texts := repeat match goal with
  | |- context [zlen (text ?s)] => let n := eval vm_compute in (zlen (text s)) in change (zlen (text s)) with n
  | |- context [zlen LINE_END] => change (zlen LINE_END) with 2
  end.

Lemma zlen_head_text a b c m : zlen (head_text a b c m) = zlen a + zlen b + zlen c + 6 + fold_right (fun e n => zlen e.1 + zlen e.2 + 4 + n) 0 m.
Proof.
  unfold head_text, start_line. rewrite !zlen_app. rewrite zlen_cons, zlen_app, zlen_cons. change (zlen LINE_END) with 2.
  assert (zlen (key_lines m) = fold_right (fun e n => zlen e.1 + zlen e.2 + 4 + n) 0 m); [|lia]. unfold key_lines.
  induction m as [|e m IH]; [done|]. cbn [map concat fold_right]. rewrite zlen_app, IH, !zlen_app. change (zlen LINE_END) with 2. change (zlen [58; 32]) with 2. lia.
Qed.

Lemma request_ok api host key : word_text api -> line_text host -> line_text key -> message_ok WEBSOCKET_OPTION api WEBSOCKET_HTTP_VERSION (request_keys host key).
Proof.
  intros Ha Hh Hk. split; try done; try text_ok.
  - unfold request_keys. repeat (apply Forall_cons; split; [split; cbn [fst snd]; first [done|text_ok]|]). by apply Forall_nil.
  - unfold map_ok, request_keys. by repeat constructor.
  - rewrite zlen_head_text. unfold WEBSOCKET_OPTION, WEBSOCKET_HTTP_VERSION, request_keys. cbn [fold_right fst snd]. zlen_texts.
    destruct Ha as (_ & _ & Ha). destruct Hh as (_ & Hh & _). destruct Hk as (_ & Hk & _).
    pose proof (zlen_nonneg api). pose proof (zlen_nonneg host). pose proof (zlen_nonneg key). lia.
Qed.

Lemma response_ok accept : line_text accept ->
  message_ok WEBSOCKET_HTTP_VERSION (text "101") (text "Switching Protocols") (response_keys accept).
Proof.
  intros Hk. split; try done; try text_ok.
  - unfold response_keys. repeat (apply Forall_cons; split; [split; cbn [fst snd]; first [done|text_ok]|]). by apply Forall_nil.
  - unfold map_ok, response_keys. by repeat constructor.
  - rewrite zlen_head_text. unfold WEBSOCKET_HTTP_VERSION, response_keys. cbn [fold_right fst snd]. zlen_texts.
    destruct Hk as (_ & Hk & _). pose proof (zlen_nonneg accept). lia.
Qed.

(** ** The channel of a helper *)

Lemma disableReading_bits c : channel_ok c ->
  channel_ok (disableReading c) /\ isReading (disableReading c) = false /\ isWriting (disableReading c) = isWriting c /\
  isNoneEvent (disableReading c) = negb (isWriting c).
Proof. channel_bits c. Qed.

Section Spec.
Context {T : Type} `{PollerLaws T} (junk : list Z) (Hjunk : length junk = 64%nat).
Implicit Types (h : WebsocketConnectionHelper) (s : T) (ch : IoChannel).

Definition wired ch s : Prop := poller_ok s /\ channel_ok ch /\ fd_ok (ch_fd ch) /\ no_other ch s.

Lemma sync_wired ch0 ch s : wired ch0 s -> channel_ok ch -> ch_fd ch = ch_fd ch0 -> ch_id ch = ch_id ch0 ->
  exists s', sync ch s = Some s' /\ wired ch s' /\
    interest s' !! ch_fd ch = if isNoneEvent ch then None else Some (ch_id ch, events ch).
Proof.
  intros (Hp & _ & Hfd & Hno) Hc Hf Hi. unfold sync. rewrite Hf. rewrite (proj2 (Z.eqb_neq _ _)) by (by apply fd_ok_valid).
  destruct (update_spec ch s) as (s' & -> & Hp' & _ & Hint); [done|done|by rewrite Hf| |].
  { intros id e Hl. rewrite Hf in Hl. rewrite Hi. by eapply Hno. }
  exists s'. split; [done|]. assert (interest s' !! ch_fd ch = if isNoneEvent ch then None else Some (ch_id ch, events ch)) as Hl.
  { rewrite Hint. destruct (isNoneEvent ch); [apply lookup_delete_eq|apply lookup_insert_eq]. }
  split; [|by rewrite <- Hf]. split; [done|]. split; [done|]. split; [by rewrite Hf|].
  intros id e Hx. rewrite Hl in Hx. destruct (isNoneEvent ch); [done|congruence].
Qed.

Lemma stop_wired ch s : wired ch s -> interest (stop ch s) !! ch_fd ch = None.
Proof.
  intros (Hp & _ & Hfd & _). unfold stop. rewrite (proj2 (Z.eqb_neq _ _)) by (by apply fd_ok_valid).
  destruct (remove_spec (ch_fd ch) s Hp) as (_ & _ & ->). apply lookup_delete_eq.
Qed.

(** A helper with channel [ch], the frames [q] to send and the status [st]. *)
Definition helper_at h ch s (q : list (list Z)) (st : WebsocketStatus) : Prop :=
  h_channel h = Some ch /\ wired ch s /\ cache_wf (h_write h) /\ c_max (h_write h) < 2 ^ 32 - 1 /\ frames_of (h_write h) = q /\ connectionStatus h = st.

(** What sending does not change. *)
Definition same_reader h h' : Prop :=
  h_this h' = h_this h /\ h_read h' = h_read h /\ h_protocal h' = h_protocal h /\ websocketApiName h' = websocketApiName h.

Lemma new_helper_at this host port ch s : poller_ok s -> channel_ok ch -> fd_ok (ch_fd ch) ->
  exists h s', new_WebsocketConnectionHelper this host port ch s = Some (h, s') /\
    helper_at h (enableReading ch) s' [] WebsocketPassive /\ h_this h = this /\ h_peerHostName h = host /\ h_peerPort h = port /\
    h_protocal h = new_HttpCodec /\ h_read h = new_cache new_HttpCodec (getMaxCacheSize new_HttpCodec) /\
    h_write h = new_cache new_HttpCodec (getMaxCacheSize new_HttpCodec) /\ websocketApiName h = [] /\
    interest s' !! ch_fd ch = Some (ch_id ch, events (enableReading ch)).
Proof.
  intros Hp Hc Hfd. unfold new_WebsocketConnectionHelper, setProtocal.
  destruct (enableReading_bits ch Hc) as (B1 & B2 & B3 & B4).
  assert (wired ch (stop ch s)) as Hw.
  { unfold stop. rewrite (proj2 (Z.eqb_neq _ _)) by (by apply fd_ok_valid). destruct (remove_spec (ch_fd ch) s Hp) as (R1 & _ & R3).
    split; [done|]. split; [done|]. split; [done|]. intros id e. by rewrite R3, lookup_delete_eq. }
  destruct (sync_wired ch (enableReading ch) (stop ch s) Hw B1 eq_refl eq_refl) as (s' & -> & Hw' & Hi). rewrite B4 in Hi.
  cbn [mbind option_bind channel readCache writeCache TcpConnection.protocal]. eexists _, s'. split; [reflexivity|]. split; [|done].
  split; [done|]. split; [done|]. split; [apply new_cache_wf; vm_compute; discriminate|]. split; [vm_compute; reflexivity|done].
Qed.

Definition default_config h : Prop := codec_config (h_protocal h) = codec_config new_HttpCodec.

(** The message is queued and writable events are asked for. *)
Lemma appended h ch s st frame : helper_at h ch s [] st -> default_config h ->
  h_write h = new_cache new_HttpCodec (getMaxCacheSize new_HttpCodec) -> 0 < zlen frame < 2 ^ 20 ->
  exists h' s', append_and_enable frame h s = Some (h', s') /\ helper_at h' (enablWriting ch) s' [frame] st /\ same_reader h h' /\
    interest s' !! ch_fd ch = Some (ch_id ch, events (enablWriting ch)).
Proof.
  intros (Hch & Hw & _ & _ & _ & Hst) Hp Hwr Hl. unfold append_and_enable. rewrite Hwr.
  assert (appendFrame (h_protocal h) frame (new_cache new_HttpCodec (getMaxCacheSize new_HttpCodec)) =
    appendFrame new_HttpCodec frame (new_cache new_HttpCodec (getMaxCacheSize new_HttpCodec))) as ->.
  { unfold default_config in Hp. unfold appendFrame, appendCache, getMaxFrameSize. by rewrite Hp. }
  destruct (appendFrame_spec new_HttpCodec frame (new_cache new_HttpCodec (getMaxCacheSize new_HttpCodec))) as (c & Ha & W & S' & _ & F).
  - apply new_cache_wf. vm_compute. discriminate.
  - split_and!; vm_compute; congruence.
  - reflexivity.
  - change (getMaxFrameSize new_HttpCodec) with 10485760. lia.
  - rewrite Ha. change (unread (new_cache new_HttpCodec (getMaxCacheSize new_HttpCodec))) with 0 in *.
    change (c_max (new_cache new_HttpCodec (getMaxCacheSize new_HttpCodec))) with 10485760 in *.
    rewrite bool_decide_true in F by lia. rewrite bool_decide_true by lia.
    change (frames_of (new_cache new_HttpCodec (getMaxCacheSize new_HttpCodec))) with (@nil (list Z)) in F. cbn [app] in F.
    assert (frame_count c = 1) as Hc by (rewrite frame_count_frames, F; done). cbn [mbind option_bind]. rewrite Hc. cbn [Z.eqb Pos.eqb].
    change (h_channel (h_set_write c h)) with (h_channel h). rewrite Hch. cbn [mbind option_bind].
    pose proof Hw as (_ & Hcok & _ & _). destruct (enablWriting_bits ch Hcok) as (B1 & B2 & B3 & B4).
    destruct (sync_wired ch (enablWriting ch) s Hw B1 eq_refl eq_refl) as (s' & -> & Hw' & Hi). rewrite B4 in Hi. cbn [mbind option_bind].
    eexists _, s'. split; [reflexivity|]. split; [|done]. split; [done|]. split; [done|]. split; [done|]. split; [|done].
    cbn [h_write h_set_channel h_set_write]. destruct S' as (S1 & S2 & S3). lia.
Qed.

Definition path_of (api : list Z) : list Z := match api with [] => text "/" | _ => api end.
Definition host_of h : list Z := h_peerHostName h ++ 58 :: to_string (h_peerPort h).

(** The request of a client. *)
Lemma activeSetup_sends api h ch s : helper_at h ch s [] WebsocketPassive -> default_config h ->
  h_write h = new_cache new_HttpCodec (getMaxCacheSize new_HttpCodec) ->
  word_text (path_of api) -> line_text (host_of h) -> 0 <= h_this h < 2 ^ 63 ->
  let req := request (path_of api) (host_of h) (session_key (h_this h)) in
  exists h' s', activeSetup junk api h s = Some (h', s') /\ helper_at h' (enablWriting ch) s' [req] WebsocketActiveConnecting /\
    h_this h' = h_this h /\ h_read h' = h_read h /\ h_protocal h' = h_protocal h /\ websocketApiName h' = path_of api /\
    interest s' !! ch_fd ch = Some (ch_id ch, events (enablWriting ch)).
Proof.
  intros Hat Hp Hw Hapi Hhost Hthis req. pose proof Hat as (Hch & Hwr & Hwf & Hmax & Hq & Hst). unfold activeSetup. rewrite Hst.
  cbn [h_this h_set_api h_set_status]. destruct (session_key_ok junk (h_this h) Hjunk Hthis) as (-> & _ & Hkey & _). cbn [mbind option_bind].
  set (h1 := h_set_api _ _). fold (path_of api) in h1.
  change (map_assign (text "Sec-WebSocket-Version") (text "13") _) with (request_keys (host_of h) (session_key (h_this h))).
  change (websocketApiName h1) with (path_of api).
  pose proof (request_ok (path_of api) (host_of h) (session_key (h_this h)) Hapi Hhost Hkey) as Hmo.
  rewrite (message_packed _ _ _ _ Hmo); [|unfold default_config in Hp; change (h_protocal h1) with (h_protocal h); unfold getMaxFrameSize; rewrite Hp; vm_compute; discriminate|reflexivity].
  cbn [mbind option_bind]. fold (request (path_of api) (host_of h) (session_key (h_this h))). fold req.
  destruct (appended h1 ch s WebsocketActiveConnecting req) as (h2 & s2 & -> & Hat2 & (R1 & R2 & R3 & R4) & Hi); [done|done|done| |].
  { pose proof (mo_size _ _ _ _ Hmo). unfold req, request. lia. }
  exists h2, s2. split; [done|]. split; [done|]. rewrite R1, R2, R3, R4. done.
Qed.

(** The answer of a server to the request of a client. *)
Lemma passive_answers api host key h ch s : helper_at h ch s [] WebsocketPassive -> default_config h ->
  h_write h = new_cache new_HttpCodec (getMaxCacheSize new_HttpCodec) ->
  word_text api -> line_text host -> line_text key -> bytes_ok key -> zlen key < 2 ^ 30 ->
  exists h' s', handleWebsocketPassiveConnection junk (request api host key) h s = Some ([], h', s') /\
    helper_at h' (enablWriting ch) s' [response (accept_key key)] WebsocketPassiveConnecting /\ websocketApiName h' = api /\
    interest s' !! ch_fd ch = Some (ch_id ch, events (enablWriting ch)).
Proof.
  intros Hat Hp Hw Hapi Hhost Hkey Hkb Hkl. pose proof Hat as (Hch & Hwr & Hwf & Hmax & Hq & Hst).
  unfold handleWebsocketPassiveConnection, request. pose proof (request_ok api host key Hapi Hhost Hkey) as Hmo.
  destruct (message_parsed _ _ _ _ Hmo) as (off & ->). cbn [mbind option_bind decoded content_length header keys].
  change (0 <? 0) with false. cbv iota. rewrite !(proj2 (str_eq_spec _ _) eq_refl). cbn [negb orb].
  change (map_find (text "Sec-WebSocket-Key") (request_keys host key)) with (Some key). cbv iota beta.
  unfold passiveResponse. change (connectionStatus (h_set_api api h)) with (connectionStatus h). rewrite Hst.
  destruct (accept_key_ok junk key Hjunk Hkb Hkl) as (-> & Hacc & _). cbn [mbind option_bind].
  set (h1 := h_set_status _ _).
  change (map_assign (text "Sec-WebSocket-Accept") (accept_key key) _) with (response_keys (accept_key key)).
  pose proof (response_ok (accept_key key) Hacc) as Hro.
  rewrite (message_packed _ _ _ _ Hro); [|unfold default_config in Hp; change (h_protocal h1) with (h_protocal h); unfold getMaxFrameSize; rewrite Hp; vm_compute; discriminate|reflexivity].
  cbn [mbind option_bind]. fold (response (accept_key key)).
  destruct (appended h1 ch s WebsocketPassiveConnecting (response (accept_key key))) as (h2 & s2 & -> & Hat2 & (R1 & R2 & R3 & R4) & Hi); [done|done|done| |].
  { pose proof (mo_size _ _ _ _ Hro). unfold response. lia. }
  cbn [mbind option_bind]. exists h2, s2. split; [done|]. split; [done|]. by rewrite R4.
Qed.

(** Handing over. *)
Lemma success_hands_over passive h ch s q st : helper_at h ch s q st ->
  exists h' s', handleConnectSuccess passive h s = Some ([HDisconnected; NotifyNewWSConnection (websocketApiName h) (ch_fd ch) passive], h', s') /\
    connectionStatus h' = WebsocketConnected /\ h_channel h' = None /\ interest s' !! ch_fd ch = None.
Proof.
  intros (Hch & Hw & _). unfold handleConnectSuccess. change (h_channel (h_set_status WebsocketConnected h)) with (h_channel h). rewrite Hch.
  cbn [mbind option_bind]. eexists _, _. split; [reflexivity|]. split; [done|]. split; [done|]. by apply stop_wired.
Qed.

(** The client accepts the answer. *)
Lemma active_accepts h ch s q : helper_at h ch s q WebsocketActiveConnecting -> 0 <= h_this h < 2 ^ 63 ->
  exists h' s', handleActiveConnection junk (response (accept_key (session_key (h_this h)))) h s =
      Some ([HDisconnected; NotifyNewWSConnection (websocketApiName h) (ch_fd ch) false], h', s') /\
    connectionStatus h' = WebsocketConnected /\ h_channel h' = None /\ interest s' !! ch_fd ch = None.
Proof.
  intros Hat Hthis. destruct (session_key_ok junk (h_this h) Hjunk Hthis) as (Hgen & Hkb & _ & Hkl).
  destruct (accept_key_ok junk (session_key (h_this h)) Hjunk Hkb ltac:(lia)) as (Hacc & Hline & _).
  unfold handleActiveConnection, response. pose proof (response_ok _ Hline) as Hro.
  destruct (message_parsed _ _ _ _ Hro) as (off & ->). cbn [mbind option_bind decoded content_length header keys].
  change (0 <? 0) with false. cbv iota. rewrite !(proj2 (str_eq_spec _ _) eq_refl). cbn [negb orb].
  change (map_find (text "Sec-WebSocket-Accept") (response_keys ?k)) with (Some k). cbv iota beta.
  rewrite Hgen. cbn [mbind option_bind]. rewrite Hacc. cbn [mbind option_bind]. rewrite (proj2 (str_eq_spec _ _) eq_refl). cbn [negb].
  exact (success_hands_over false h ch s q _ Hat).
Qed.

(** ** Refusing *)

Lemma closed_on_error h ch s q st : helper_at h ch s q st ->
  exists h', helper_on_error h s = Some ([HDisconnected], h', stop ch s) /\ connectionStatus h' = WebsocketClosed /\ interest (stop ch s) !! ch_fd ch = None.
Proof.
  intros (Hch & Hw & _). unfold helper_on_error, helper_on_close. change (h_channel (h_set_status WebsocketClosed h)) with (h_channel h). rewrite Hch.
  eexists. split; [reflexivity|]. split; [done|]. by apply stop_wired.
Qed.

Lemma str_neq a b : a <> b -> str_eq a b = false.
Proof. intros Hne. unfold str_eq. by apply bool_decide_eq_false. Qed.

(** A request with another option or version, or without a key, closes the connection. *)
Lemma request_refused a b c m h ch s q st : message_ok a b c m -> helper_at h ch s q st ->
  a <> WEBSOCKET_OPTION \/ c <> WEBSOCKET_HTTP_VERSION \/ map_find (text "Sec-WebSocket-Key") m = None ->
  exists h', handleWebsocketPassiveConnection junk (head_text a b c m) h s = Some ([HDisconnected], h', stop ch s) /\
    connectionStatus h' = WebsocketClosed /\ interest (stop ch s) !! ch_fd ch = None.
Proof.
  intros Hmo Hat Hbad. unfold handleWebsocketPassiveConnection. destruct (message_parsed _ _ _ _ Hmo) as (off & ->).
  cbn [mbind option_bind decoded content_length header keys]. change (0 <? 0) with false. cbv iota.
  assert (helper_at (h_set_api b h) ch s q st) as Hat' by exact Hat. destruct (closed_on_error _ _ _ _ _ Hat') as (h' & He & Hrest). exists h'.
  destruct Hbad as [Ho|[Hv|Hk]].
  - rewrite (str_neq a) by done. by rewrite He.
  - rewrite (str_neq c) by done. by rewrite orb_true_r, He.
  - destruct (_ || _); [by rewrite He|]. by rewrite Hk, He.
Qed.

(** So does an answer with another code or version, or with another key than the one expected. *)
Lemma response_refused a b c m h ch s q st : message_ok a b c m -> helper_at h ch s q st -> 0 <= h_this h < 2 ^ 63 ->
  b <> text "101" \/ a <> WEBSOCKET_HTTP_VERSION \/ map_find (text "Sec-WebSocket-Accept") m <> Some (accept_key (session_key (h_this h))) ->
  exists h', handleActiveConnection junk (head_text a b c m) h s = Some ([HDisconnected], h', stop ch s) /\
    connectionStatus h' = WebsocketClosed /\ interest (stop ch s) !! ch_fd ch = None.
Proof.
  intros Hmo Hat Hthis Hbad. unfold handleActiveConnection. destruct (message_parsed _ _ _ _ Hmo) as (off & ->).
  cbn [mbind option_bind decoded content_length header keys]. change (0 <? 0) with false. cbv iota.
  destruct (closed_on_error _ _ _ _ _ Hat) as (h' & He & Hrest). exists h'.
  destruct Hbad as [Ho|[Hv|Hk]].
  - rewrite (str_neq b) by done. by rewrite He.
  - rewrite (str_neq a) by done. by rewrite orb_true_r, He.
  - destruct (_ || _); [by rewrite He|]. destruct (map_find (text "Sec-WebSocket-Accept") m) as [v|]; [|by rewrite He].
    destruct (session_key_ok junk (h_this h) Hjunk Hthis) as (-> & Hkb & _ & Hkl). cbn [mbind option_bind].
    destruct (accept_key_ok junk (session_key (h_this h)) Hjunk Hkb ltac:(lia)) as (-> & _). cbn [mbind option_bind].
    rewrite (str_neq (accept_key _)) by congruence. cbn [negb]. by rewrite He.
Qed.

(** ** Sending *)

Lemma helper_on_write_spec net h ch s q st : helper_at h ch s q st -> Forall (fun r => ~ refuses r) net ->
  exists sent c, concat q = sent ++ concat (frames_of c) /\ zlen (frames_of c) <= zlen q /\ write_loop (S (length net)) net (h_write h) = Some (sent, c, false) /\
    ((frames_of c <> [] /\ helper_on_write net h s = Some (sent, [], h_set_write c h, s) /\ helper_at (h_set_write c h) ch s (frames_of c) st) \/
     (frames_of c = [] /\ exists h' s', helper_at h' (disableWriting ch) s' [] st /\ same_reader h h' /\
        interest s' !! ch_fd ch = (if isReading ch then Some (ch_id ch, events (disableWriting ch)) else None) /\
        helper_on_write net h s = match st with
          | WebsocketPassiveConnecting => '(sg, h, s) ← handleConnectSuccess true h' s'; Some (sent, sg, h, s)
          | _ => Some (sent, [], h', s')
          end)).
Proof.
  intros (Hch & Hw & Hwf & Hmax & Hq & Hst) Href. unfold helper_on_write.
  destruct (write_loop_spec (S (length net)) net (h_write h) Hwf Hmax) as (sent & c & cl & Hl & W & _ & M & F); [lia|].
  destruct cl; [apply write_loop_refused, Exists_exists in Hl as (r & Hin & Hr); by apply (proj1 (Forall_forall _ _) Href) in Hin|].
  destruct (write_loop_unread _ _ _ _ _ _ Hwf Hmax Hl) as (_ & _ & Hn). rewrite Hq in *.
  exists sent, c. split; [done|]. split; [done|]. split; [done|]. rewrite Hl. cbn [mbind option_bind].
  destruct (frame_count c =? 0) eqn:Hc.
  - right. apply Z.eqb_eq, frame_count_zero in Hc. split; [done|]. change (h_channel (h_set_write c h)) with (h_channel h). rewrite Hch. cbn [mbind option_bind].
    pose proof Hw as (_ & Hcok & _ & _). destruct (disableWriting_bits ch Hcok) as (B1 & B2 & B3 & B4).
    destruct (sync_wired ch (disableWriting ch) s Hw B1 eq_refl eq_refl) as (s' & -> & Hw' & Hi). rewrite B4 in Hi. cbn [mbind option_bind].
    eexists (h_set_channel (Some (disableWriting ch)) (h_set_write c h)), s'. split; [split; [done|]; split; [done|]; split; [done|]; split; [cbn; lia|done]|].
    split; [done|]. split; [destruct (isReading ch); exact Hi|]. cbn [connectionStatus h_set_channel h_set_write]. by rewrite Hst.
  - left. split; [intros He; by apply frame_count_zero, Z.eqb_eq in He; rewrite He in Hc|]. split; [done|].
    split; [done|]. split; [done|]. split; [done|]. split; [cbn; lia|done].
Qed.

(** A kernel that takes what is queued. *)
Lemma final_write room h ch s q st sent c : helper_at h ch s q st -> zlen q <= 1 -> zlen (concat q) <= Z.of_N room ->
  write_loop 2 [SendOk room] (h_write h) = Some (sent, c, false) -> zlen (frames_of c) <= zlen q -> frames_of c = [].
Proof.
  intros (_ & _ & Hwf & Hmax & Hq & _) Hq1 Hroom Hl Hn. destruct q as [|f [|g q]].
  - apply zlen_0_nil. change (zlen []) with 0 in Hn. pose proof (zlen_nonneg (frames_of c)). lia.
  - cbn [concat] in Hroom. rewrite app_nil_r in Hroom. destruct (write_loop_all (h_write h) f room Hwf Hmax Hq Hroom) as (c' & Hl' & Hf).
    rewrite Hl' in Hl. by injection Hl as _ <-.
  - rewrite !zlen_cons in Hq1. pose proof (zlen_nonneg q). lia.
Qed.

Lemma same_reader_trans h1 h2 h3 : same_reader h1 h2 -> same_reader h2 h3 -> same_reader h1 h3.
Proof. unfold same_reader. intros (? & ? & ? & ?) (? & ? & ? & ?). split_and!; congruence. Qed.

Definition read_only ch s : Prop := isReading ch = true /\ isWriting ch = false /\ interest s !! ch_fd ch = Some (ch_id ch, EVENT_IN).

Lemma read_only_intro ch s : channel_ok ch -> isReading ch = true -> interest s !! ch_fd ch = Some (ch_id ch, events (disableWriting ch)) ->
  read_only (disableWriting ch) s.
Proof.
  intros Hc Hr Hi. destruct (disableWriting_bits ch Hc) as (B1 & B2 & B3 & _). split; [by rewrite B3|]. split; [done|].
  change (ch_fd (disableWriting ch)) with (ch_fd ch). rewrite Hi. do 2 f_equal. rewrite B1, B2, B3, Hr. done.
Qed.

Lemma client_sends room nets : forall h ch s q, helper_at h ch s q WebsocketActiveConnecting -> zlen q <= 1 -> zlen (concat q) <= Z.of_N room -> (0 < room)%N ->
  Forall (Forall (fun r => ~ refuses r)) nets -> isReading ch = true ->
  exists h' ch' s', helper_run junk (map inr nets ++ [inr [SendOk room]]) h s = Some (concat q, [], h', s') /\
    helper_at h' ch' s' [] WebsocketActiveConnecting /\ same_reader h h' /\ read_only ch' s' /\ ch_fd ch' = ch_fd ch /\ ch_id ch' = ch_id ch.
Proof.
  induction nets as [|net nets IH]; intros h ch s q Hat Hq Hroom Hpos Hnets Hread; cbn [map app helper_run].
  - destruct (helper_on_write_spec [SendOk room] h ch s q _ Hat) as (sent & c & Hcat & Hn & Hl & Hres).
    { constructor; [|constructor]. intros [Hr|Hr]; [done|]. injection Hr as ->. done. }
    pose proof (final_write room h ch s q _ sent c Hat Hq Hroom Hl Hn) as Hnil.
    destruct Hres as [[Hne _]|(_ & h' & s' & Hat' & Hsame & Hi & ->)]; [done|]. cbn [mbind option_bind].
    rewrite Hnil in Hcat. cbn [concat] in Hcat. rewrite app_nil_r in Hcat. rewrite app_nil_r, <- Hcat. rewrite Hread in Hi.
    exists h', (disableWriting ch), s'. split; [done|]. split; [done|]. split; [done|]. split; [|done].
    destruct Hat as (_ & (_ & Hcok & _) & _). by apply read_only_intro.
  - apply Forall_cons in Hnets as [Hnet Hnets]. destruct (helper_on_write_spec net h ch s q _ Hat Hnet) as (sent & c & Hcat & Hn & Hl & Hres).
    pose proof (zlen_nonneg sent). assert (zlen (concat (frames_of c)) <= Z.of_N room) by (rewrite Hcat, zlen_app in Hroom; lia).
    destruct Hres as [(_ & -> & Hat')|(Hnil & h' & s' & Hat' & Hsame & Hi & ->)]; cbn [mbind option_bind].
    + destruct (IH _ _ _ _ Hat') as (h2 & ch2 & s2 & -> & Hat2 & Hsame2 & Hro & Hf2 & Hi2); [lia|done|done|done|done|]. cbn [mbind option_bind].
      rewrite Hcat. exists h2, ch2, s2. done.
    + destruct (IH _ _ _ _ Hat') as (h2 & ch2 & s2 & -> & Hat2 & Hsame2 & Hro & Hf2 & Hi2); [done|change (zlen (concat [])) with 0; lia|done|done| |].
      { destruct Hat as (_ & (_ & Hcok & _) & _). destruct (disableWriting_bits ch Hcok) as (_ & _ & -> & _). done. }
      cbn [mbind option_bind]. rewrite Hcat, Hnil. cbn [concat]. exists h2, ch2, s2. split; [done|]. split; [done|].
      split; [by eapply same_reader_trans|done].
Qed.

Lemma server_sends room nets : forall h ch s q, helper_at h ch s q WebsocketPassiveConnecting -> zlen q <= 1 -> zlen (concat q) <= Z.of_N room -> (0 < room)%N ->
  Forall (Forall (fun r => ~ refuses r)) nets ->
  exists h' s', helper_run junk (map inr nets ++ [inr [SendOk room]]) h s =
      Some (concat q, [HDisconnected; NotifyNewWSConnection (websocketApiName h) (ch_fd ch) true], h', s') /\
    connectionStatus h' = WebsocketConnected /\ h_channel h' = None /\ interest s' !! ch_fd ch = None.
Proof.
  assert (forall net h ch s q sent c, concat q = sent ++ concat (frames_of c) -> frames_of c = [] ->
    (exists h' s', helper_at h' (disableWriting ch) s' [] WebsocketPassiveConnecting /\ same_reader h h' /\
        interest s' !! ch_fd ch = (if isReading ch then Some (ch_id ch, events (disableWriting ch)) else None) /\
        helper_on_write net h s = ('(sg, h, s) ← handleConnectSuccess true h' s'; Some (sent, sg, h, s))) ->
    exists h' s', helper_on_write net h s = Some (concat q, [HDisconnected; NotifyNewWSConnection (websocketApiName h) (ch_fd ch) true], h', s') /\
      connectionStatus h' = WebsocketConnected /\ h_channel h' = None /\ interest s' !! ch_fd ch = None) as Hend.
  { intros net h ch s q sent c Hcat Hnil (h' & s' & Hat & (_ & _ & _ & Hapi) & _ & ->). rewrite Hnil in Hcat. cbn [concat] in Hcat. rewrite app_nil_r in Hcat.
    destruct (success_hands_over true h' _ s' _ _ Hat) as (h2 & s2 & -> & Hrest). cbn [mbind option_bind]. rewrite Hcat, <- Hapi.
    exists h2, s2. done. }
  induction nets as [|net nets IH]; intros h ch s q Hat Hq Hroom Hpos Hnets; cbn [map app helper_run].
  - destruct (helper_on_write_spec [SendOk room] h ch s q _ Hat) as (sent & c & Hcat & Hn & Hl & Hres).
    { constructor; [|constructor]. intros [Hr|Hr]; [done|]. injection Hr as ->. done. }
    pose proof (final_write room h ch s q _ sent c Hat Hq Hroom Hl Hn) as Hnil.
    destruct Hres as [[Hne _]|(_ & Hres)]; [done|]. destruct (Hend _ _ _ _ _ _ _ Hcat Hnil Hres) as (h2 & s2 & -> & Hrest).
    cbn [mbind option_bind]. exists h2, s2. done.
  - apply Forall_cons in Hnets as [Hnet Hnets]. destruct (helper_on_write_spec net h ch s q _ Hat Hnet) as (sent & c & Hcat & Hn & Hl & Hres).
    pose proof (zlen_nonneg sent). assert (zlen (concat (frames_of c)) <= Z.of_N room) by (rewrite Hcat, zlen_app in Hroom; lia).
    destruct Hres as [(_ & -> & Hat')|(Hnil & Hres)]; cbn [mbind option_bind].
    + destruct (IH _ _ _ _ Hat') as (h2 & s2 & -> & Hrest); [lia|done|done|done|]. cbn [mbind option_bind].
      rewrite Hcat. exists h2, s2. done.
    + destruct (Hend _ _ _ _ _ _ _ Hcat Hnil Hres) as (h2 & s2 & -> & Hrest). cbn [mbind option_bind]. exists h2, s2. done.
Qed.

(** ** Receiving *)

Section Receive.
Context (a b c : list Z) (m : string_map) (Hmo : message_ok a b c m).
Let frame := head_text a b c m.
Abbreviation expects h y := (expecting http_ok frame (message_waits a b c m) (h_protocal h) (h_read h) y).

Definition chunk_ok (d : list Z) : Prop := 0 < zlen d <= 1200.
Definition batch (ds : list (list Z)) : list recv_result + list send_result := inl (map RecvOk ds ++ [RecvAgain]).

Lemma chunk_slice h d : default_config h -> chunk_ok d -> 0 < zlen d <= getSliceSize (h_protocal h).
Proof. intros Hd Hc. unfold getSliceSize. rewrite Hd. exact Hc. Qed.

(** A part of the message. *)
Lemma recv_waits ds : forall h s y, expects h (concat ds ++ y) -> default_config h -> y <> [] -> Forall chunk_ok ds ->
  exists c' p', helper_on_recv junk (map RecvOk ds ++ [RecvAgain]) h s = Some ([], h_set_read c' p' h, s) /\
    expecting http_ok frame (message_waits a b c m) p' c' y /\ codec_config p' = codec_config new_HttpCodec.
Proof.
  induction ds as [|d ds IH]; intros h s y Hex Hcfg Hy Hds; cbn [map app helper_on_recv].
  - exists (h_read h), (h_protocal h). cbn [stream_readFromFd mbind option_bind].
    assert (fault (h_protocal h) = false) as -> by by destruct Hex as (_ & [_ ?] & _). done.
  - apply Forall_cons in Hds as [Hd Hds]. cbn [concat] in Hex. rewrite <- app_assoc in Hex.
    destruct (chunk_waits http_ok frame (message_waits a b c m) message_done (message_one_frame a b c m Hmo) (h_protocal h) (h_read h) d (concat ds ++ y) Hex)
      as (c1 & p1 & -> & Hex1 & Hc1); [by apply chunk_slice|intros He; by apply app_eq_nil in He as [_ ?]|].
    cbn [mbind option_bind]. assert (fault p1 = false) as -> by by destruct Hex1 as (_ & [_ ?] & _).
    unfold chunk_ok in Hd. rewrite (proj2 (Z.ltb_ge _ _)), (proj2 (Z.eqb_neq (zlen d) 0)) by lia.
    pose proof Hex1 as (_ & _ & Hwf & _ & _ & Hfr & _). pose proof (popFrame_spec c1 Hwf) as Hpop. rewrite Hfr in Hpop. rewrite Hpop.
    cbn [mbind option_bind]. change (0 <? zlen []) with false. cbv iota. unfold default_config in Hcfg.
    destruct (IH (h_set_read c1 p1 (h_set_read c1 p1 h)) s y) as (c' & p' & -> & Hex' & Hc'); [done|by unfold default_config; cbn [h_protocal h_set_read]; rewrite Hc1|done|done|].
    by exists c', p'.
Qed.

(** The rest of the message. *)
Lemma recv_completes ds : forall h ch s st q, expects h (concat ds) -> default_config h -> ds <> [] -> Forall chunk_ok ds -> helper_at h ch s q st ->
  st = WebsocketPassive \/ st = WebsocketActiveConnecting ->
  exists h' s', helper_on_recv junk (map RecvOk ds ++ [RecvAgain]) h s =
      (match st with WebsocketPassive => handleWebsocketPassiveConnection junk frame h' s' | _ => handleActiveConnection junk frame h' s' end) /\
    helper_at h' (disableReading ch) s' q st /\ default_config h' /\ h_write h' = h_write h /\ h_this h' = h_this h /\ websocketApiName h' = websocketApiName h.
Proof.
  induction ds as [|d ds IH]; intros h ch s st q Hex Hcfg Hne Hds Hat Hst; [done|]. cbn [map app helper_on_recv].
  apply Forall_cons in Hds as [Hd Hds]. cbn [concat] in Hex. pose proof (chunk_slice h d Hcfg Hd) as Hsl. unfold chunk_ok in Hd.
  unfold default_config in Hcfg. destruct ds as [|d2 ds].
  - cbn [concat] in Hex. rewrite app_nil_r in Hex. cbn [map app].
    destruct (chunk_completes http_ok frame (message_waits a b c m) message_done (message_one_frame a b c m Hmo) (h_protocal h) (h_read h) d Hex Hsl)
      as (c1 & p1 & -> & Hfr & Hwf & [_ Hfault] & Hc1).
    cbn [mbind option_bind]. rewrite Hfault. rewrite (proj2 (Z.ltb_ge _ _)), (proj2 (Z.eqb_neq (zlen d) 0)) by lia.
    pose proof (popFrame_spec c1 Hwf) as Hpop. rewrite Hfr in Hpop. destruct Hpop as (c2 & -> & _). cbn [mbind option_bind].
    pose proof (mo_size _ _ _ _ Hmo) as Hsize. fold frame in Hsize. rewrite (proj2 (Z.ltb_lt 0 (zlen frame))) by lia.
    set (h1 := h_set_read c2 p1 _). change (h_channel h1) with (h_channel h). destruct Hat as (Hch & Hw & Hwc & Hmax & Hq & Hs). rewrite Hch. cbn [mbind option_bind].
    pose proof Hw as (_ & Hcok & _). destruct (disableReading_bits ch Hcok) as (B1 & _).
    destruct (sync_wired ch (disableReading ch) s Hw B1 eq_refl eq_refl) as (s' & -> & Hw' & _). cbn [mbind option_bind].
    exists (h_set_channel (Some (disableReading ch)) h1), s'. change (connectionStatus (h_set_channel _ h1)) with (connectionStatus h). rewrite Hs.
    split; [by destruct Hst as [-> | ->]|]. split; [done|]. split; [by unfold default_config; cbn [h_protocal h1 h_set_channel h_set_read]; rewrite Hc1|done].
  - assert (concat (d2 :: ds) <> []) as Hrest.
    { cbn [concat]. intros He. apply app_eq_nil in He as [-> _]. apply Forall_inv in Hds. unfold chunk_ok in Hds. change (zlen []) with 0 in Hds. lia. }
    destruct (chunk_waits http_ok frame (message_waits a b c m) message_done (message_one_frame a b c m Hmo) (h_protocal h) (h_read h) d (concat (d2 :: ds)) Hex Hsl Hrest)
      as (c1 & p1 & -> & Hex1 & Hc1).
    cbn [mbind option_bind]. assert (fault p1 = false) as -> by by destruct Hex1 as (_ & [_ ?] & _).
    rewrite (proj2 (Z.ltb_ge _ _)), (proj2 (Z.eqb_neq (zlen d) 0)) by lia.
    pose proof Hex1 as (_ & _ & Hwf & _ & _ & Hfr & _). pose proof (popFrame_spec c1 Hwf) as Hpop. rewrite Hfr in Hpop. rewrite Hpop.
    cbn [mbind option_bind]. change (0 <? zlen []) with false. cbv iota.
    destruct (IH (h_set_read c1 p1 (h_set_read c1 p1 h)) ch s st q) as (h' & s' & Hrun & Hat' & Hcfg' & Hrest'); [done|by unfold default_config; cbn [h_protocal h_set_read]; rewrite Hc1|done|done|done|done|].
    exists h', s'. cbn [map app] in Hrun |- *. rewrite Hrun. done.
Qed.

(** Events with parts of the message, then the event that completes it. *)
Lemma run_receives batches : forall last h ch s st q, expects h (concat (concat batches) ++ concat last) -> default_config h -> last <> [] ->
  Forall (Forall chunk_ok) batches -> Forall chunk_ok last -> helper_at h ch s q st -> st = WebsocketPassive \/ st = WebsocketActiveConnecting ->
  exists h' s', helper_at h' (disableReading ch) s' q st /\ default_config h' /\ h_write h' = h_write h /\ h_this h' = h_this h /\ websocketApiName h' = websocketApiName h /\
    helper_run junk (map batch (batches ++ [last])) h s =
    '(sg, h2, s2) ← (match st with WebsocketPassive => handleWebsocketPassiveConnection junk frame h' s' | _ => handleActiveConnection junk frame h' s' end);
    Some ([], sg, h2, s2).
Proof.
  induction batches as [|ds batches IH]; intros last h ch s st q Hex Hcfg Hne Hbs Hlast Hat Hst; cbn [app map helper_run batch].
  - destruct (recv_completes last h ch s st q Hex Hcfg Hne Hlast Hat Hst) as (h' & s' & -> & Hat' & Hrest). exists h', s'. split; [done|].
    destruct Hrest as (R1 & R2 & R3 & R4). do 4 (split; [done|]).
    destruct (match st with WebsocketPassive => _ | _ => _ end) as [[[sg h2] s2]|]; cbn [mbind option_bind]; [|done]. by destruct sg.
  - apply Forall_cons in Hbs as [Hds Hbs]. cbn [concat] in Hex. rewrite concat_app, <- app_assoc in Hex.
    assert (concat (concat batches) ++ concat last <> []) as Hrest.
    { intros He. apply app_eq_nil in He as [_ He]. destruct last as [|d last]; [done|]. apply Forall_inv in Hlast. cbn [concat] in He. apply app_eq_nil in He as [-> _].
      unfold chunk_ok in Hlast. change (zlen []) with 0 in Hlast. lia. }
    destruct (recv_waits ds h s _ Hex Hcfg Hrest Hds) as (c' & p' & -> & Hex' & Hc'). cbn [mbind option_bind].
    destruct (IH last (h_set_read c' p' h) ch s st q) as (h2 & s2 & Hat2 & Hcfg2 & Hw2 & Ht2 & Ha2 & ->); try done.
    exists h2, s2. do 5 (split; [done|]).
    destruct (match st with WebsocketPassive => _ | _ => _ end) as [[[sg h3] s3]|]; cbn [mbind option_bind]; done.
Qed.
End Receive.

End Spec.

Lemma new_expects a b c m p rc : message_ok a b c m -> p = new_HttpCodec -> rc = new_cache new_HttpCodec (getMaxCacheSize new_HttpCodec) ->
  expecting http_ok (head_text a b c m) (message_waits a b c m) p rc (head_text a b c m).
Proof.
  intros Hmo -> ->. pose proof (mo_size _ _ _ _ Hmo) as Hsize.
  split; [split_and!; vm_compute; congruence|]. split; [split; [by left|done]|]. split; [apply new_cache_wf; vm_compute; discriminate|].
  split; [split_and!; vm_compute; congruence|]. split; [reflexivity|]. split; [reflexivity|]. split; [reflexivity|].
  change (getMaxFrameSize new_HttpCodec) with 10485760. change (getMaxCacheSize new_HttpCodec) with 10485760. change (getSliceSize new_HttpCodec) with 1200. lia.
Qed.


(** C39. Two helpers complete a handshake.  A client asks for a path; the kernel takes its request in any number of parts, it
    reaches the server in any number of events and chunks, and the same holds for the answer.  Then no step fails.  The request on the wire
    is the GET with the key of the client, the base64 of the MD5 of its address as a number; the client then waits for input only.  The server, once the
    request is complete, waits to send; its answer is status 101 with the accept key of RFC 6455, and when the kernel has taken the
    whole of it the server hands its descriptor over for the path that was asked for.  When the answer is complete the client hands
    its own over for the same path.  Both are connected, and no poller knows the descriptors any more. *)
Theorem handshake_completes {Tc Tv : Type} `{PollerLaws Tc} `{PollerLaws Tv} junk this_c this_v host port host_v port_v api
    chc (sc : Tc) chv (sv : Tv) nets_c nets_v room batches_v last_v batches_c last_c :
  let key := session_key this_c in let path := path_of api in
  let req := request path (host ++ 58 :: to_string port) key in let resp := response (accept_key key) in
  length junk = 64%nat -> 0 <= this_c < 2 ^ 63 ->
  poller_ok sc -> channel_ok chc -> isWriting chc = false -> fd_ok (T := Tc) (ch_fd chc) ->
  poller_ok sv -> channel_ok chv -> isWriting chv = false -> fd_ok (T := Tv) (ch_fd chv) ->
  word_text path -> line_text (host ++ 58 :: to_string port) ->
  Forall (Forall (fun r => ~ refuses r)) nets_c -> Forall (Forall (fun r => ~ refuses r)) nets_v -> (2 ^ 20 <= room)%N ->
  Forall (Forall chunk_ok) batches_v -> Forall chunk_ok last_v -> last_v <> [] -> concat (concat batches_v) ++ concat last_v = req ->
  Forall (Forall chunk_ok) batches_c -> Forall chunk_ok last_c -> last_c <> [] -> concat (concat batches_c) ++ concat last_c = resp ->
  exists c0 sc0 c1 sc1 c2 sc2 c3 sc3 v0 sv0 v1 sv1 v2 sv2,
    new_WebsocketConnectionHelper this_c host port chc sc = Some (c0, sc0) /\ activeSetup junk api c0 sc0 = Some (c1, sc1) /\
    helper_run junk (map inr nets_c ++ [inr [SendOk room]]) c1 sc1 = Some (req, [], c2, sc2) /\
    interest sc2 !! ch_fd chc = Some (ch_id chc, EVENT_IN) /\
    new_WebsocketConnectionHelper this_v host_v port_v chv sv = Some (v0, sv0) /\
    helper_run junk (map batch (batches_v ++ [last_v])) v0 sv0 = Some ([], [], v1, sv1) /\
    interest sv1 !! ch_fd chv = Some (ch_id chv, EVENT_OUT) /\
    helper_run junk (map inr nets_v ++ [inr [SendOk room]]) v1 sv1 =
      Some (resp, [HDisconnected; NotifyNewWSConnection path (ch_fd chv) true], v2, sv2) /\
    helper_run junk (map batch (batches_c ++ [last_c])) c2 sc2 =
      Some ([], [HDisconnected; NotifyNewWSConnection path (ch_fd chc) false], c3, sc3) /\
    connectionStatus v2 = WebsocketConnected /\ interest sv2 !! ch_fd chv = None /\
    connectionStatus c3 = WebsocketConnected /\ interest sc3 !! ch_fd chc = None.
Proof.
  intros key path req resp Hj Hthis Hpc Hcc Hwc Hfc Hpv Hcv Hwv Hfv Hpath Hhost Hnc Hnv Hroom Hbv Hlv Hnev Hcatv Hbc Hlc Hnec Hcatc.
  destruct (session_key_ok junk this_c Hj Hthis) as (_ & Hkb & Hkey & Hkl). fold key in Hkb, Hkey, Hkl.
  destruct (accept_key_ok junk key Hj Hkb ltac:(lia)) as (_ & Hacc & _).
  pose proof (request_ok path _ key Hpath Hhost Hkey) as Hreq. pose proof (response_ok _ Hacc) as Hresp.
  pose proof (mo_size _ _ _ _ Hreq) as Hreqs. pose proof (mo_size _ _ _ _ Hresp) as Hresps.
  destruct (new_helper_at this_c host port chc sc Hpc Hcc Hfc) as (c0 & sc0 & Hc0 & Hat0 & Ht0 & Hh0 & Hpo0 & Hp0 & Hr0 & Hw0 & _).
  assert (default_config c0) as Hd0 by (unfold default_config; by rewrite Hp0).
  destruct (activeSetup_sends junk Hj api c0 (enableReading chc) sc0 Hat0 Hd0 Hw0 Hpath) as (c1 & sc1 & Hc1 & Hat1 & Ht1 & Hr1 & Hp1 & Ha1 & _).
  { unfold host_of. by rewrite Hh0, Hpo0. } { by rewrite Ht0. }
  unfold host_of in Hat1. rewrite Ht0, Hh0, Hpo0 in Hat1. fold key in Hat1. fold path in Hat1, Ha1.
  destruct (enableReading_bits chc Hcc) as (E1 & E2 & E3 & _). destruct (enablWriting_bits (enableReading chc) E1) as (F1 & F2 & F3 & _).
  assert (forall f : list Z, zlen (concat [f]) = zlen f) as Hone by (intros f; cbn [concat]; by rewrite app_nil_r).
  destruct (client_sends junk Hj room nets_c c1 _ sc1 _ Hat1) as (c2 & ch2 & sc2 & Hc2 & Hat2 & (R1 & R2 & R3 & R4) & (_ & _ & Hro) & Hfd2 & Hid2).
  { done. } { rewrite Hone. fold req. unfold req, request. lia. } { lia. } { done. } { by rewrite F3. }
  destruct (new_helper_at this_v host_v port_v chv sv Hpv Hcv Hfv) as (v0 & sv0 & Hv0 & Hatv0 & _ & _ & _ & Hpv0 & Hrv0 & Hwv0 & _).
  destruct (run_receives junk Hj _ _ _ _ Hreq batches_v last_v v0 (enableReading chv) sv0 WebsocketPassive []) as (v1' & sv1' & Hatv1 & Hdv1 & Hwv1 & _ & _ & Hrunv); [| |done|done|done|exact Hatv0|by left|].
  { rewrite Hcatv. by apply new_expects. } { unfold default_config. by rewrite Hpv0. }
  rewrite Hwv0 in Hwv1.
  destruct (passive_answers junk Hj path _ key v1' _ sv1' Hatv1 Hdv1 Hwv1 Hpath Hhost Hkey Hkb ltac:(lia)) as (v1 & sv1 & Hv1 & Hatv & Hapiv & Hintv).
  cbv iota in Hrunv. unfold request in Hv1. rewrite Hv1 in Hrunv. cbn [mbind option_bind] in Hrunv.
  destruct (server_sends junk Hj room nets_v v1 _ sv1 _ Hatv) as (v2 & sv2 & Hv2 & Hstv & _ & Hiv).
  { done. } { rewrite Hone. unfold response. lia. } { lia. } { done. }
  destruct (run_receives junk Hj _ _ _ _ Hresp batches_c last_c c2 ch2 sc2 WebsocketActiveConnecting []) as (c3' & sc3' & Hatc3 & _ & _ & Htc3 & Hac3 & Hrunc); [| |done|done|done|exact Hat2|by right|].
  { rewrite Hcatc. apply new_expects; [done|congruence|congruence]. } { unfold default_config. by rewrite R3, Hp1, Hp0. }
  assert (h_this c3' = this_c) as Hth by congruence.
  destruct (active_accepts junk Hj c3' _ sc3' _ Hatc3 ltac:(by rewrite Hth)) as (c3 & sc3 & Hc3 & Hstc & _ & Hic).
  rewrite Hth in Hc3. fold key in Hc3. cbv iota in Hrunc. unfold response in Hc3. rewrite Hc3 in Hrunc. cbn [mbind option_bind] in Hrunc.
  exists c0, sc0, c1, sc1, c2, sc2, c3, sc3, v0, sv0, v1, sv1, v2, sv2.
  split; [done|]. split; [done|]. split; [rewrite Hc2; cbn [concat]; by rewrite app_nil_r|]. split; [by rewrite Hfd2, Hid2 in Hro|].
  split; [done|]. split; [done|]. split.
  { change (ch_fd (disableReading (enableReading chv))) with (ch_fd chv) in Hintv. rewrite Hintv. do 2 f_equal.
    destruct (enableReading_bits chv Hcv) as (G1 & G2 & G3 & _). destruct (disableReading_bits _ G1) as (I1 & I2 & I3 & _).
    destruct (enablWriting_bits _ I1) as (J1 & J2 & J3 & _). by rewrite J1, J2, J3, I2. }
  split; [rewrite Hv2, Hapiv; cbn [concat]; by rewrite app_nil_r|].
  split; [rewrite Hrunc, Hac3, R4, Ha1; change (ch_fd (disableReading ch2)) with (ch_fd ch2); by rewrite Hfd2|].
  split; [done|]. split; [done|]. split; [done|]. change (ch_fd (disableReading ch2)) with (ch_fd ch2) in Hic. by rewrite Hfd2 in Hic.
Qed.

(** Byte by byte, in two events. *)
Definition single_bytes (l : list Z) : list (list Z) := map (fun b => [b]) l.

Lemma single_bytes_ok l : Forall chunk_ok (single_bytes l) /\ concat (single_bytes l) = l.
Proof.
  induction l as [|b l [IH1 IH2]]; [split; [by apply Forall_nil|done]|]. split; [|cbn [single_bytes map concat app]; by f_equal].
  constructor; [|exact IH1]. unfold chunk_ok. change (zlen [b]) with 1. lia.
Qed.

Lemma two_events l : 24 <= zlen l -> Forall (Forall chunk_ok) [single_bytes (take 10 l)] /\ Forall chunk_ok (single_bytes (drop 10 l)) /\
  single_bytes (drop 10 l) <> [] /\ concat (concat [single_bytes (take 10 l)]) ++ concat (single_bytes (drop 10 l)) = l.
Proof.
  intros Hl. destruct (single_bytes_ok (take 10 l)) as [H1 H2], (single_bytes_ok (drop 10 l)) as [H3 H4]. split; [by constructor|]. split; [done|]. split.
  - intros He. rewrite He in H4. apply (f_equal length) in H4. rewrite length_drop in H4. unfold zlen in Hl. cbn in H4. lia.
  - cbn [concat]. rewrite app_nil_r, H2, H4. apply take_drop.
Qed.

Lemma handshake_completes_witness :
  let key := session_key 140000 in let req := request (text "/chat") (text "10.0.0.1:80") key in let resp := response (accept_key key) in
  exists c0 sc0 c1 sc1 c2 sc2 c3 sc3 v0 sv0 v1 sv1 v2 sv2,
    new_WebsocketConnectionHelper 140000 (text "10.0.0.1") 80 (new_IoChannel 1 5) (epoll_empty {[1%positive]}) = Some (c0, sc0) /\
    activeSetup (replicate 64 9) (text "/chat") c0 sc0 = Some (c1, sc1) /\
    helper_run (replicate 64 9) (map inr [[SendOk 7; SendAgain]] ++ [inr [SendOk (2 ^ 20)]]) c1 sc1 = Some (req, [], c2, sc2) /\
    new_WebsocketConnectionHelper 150000 (text "10.0.0.2") 90 (new_IoChannel 1 6) (epoll_empty {[1%positive]}) = Some (v0, sv0) /\
    helper_run (replicate 64 9) (map batch ([single_bytes (take 10 req)] ++ [single_bytes (drop 10 req)])) v0 sv0 = Some ([], [], v1, sv1) /\
    helper_run (replicate 64 9) (map inr [] ++ [inr [SendOk (2 ^ 20)]]) v1 sv1 =
      Some (resp, [HDisconnected; NotifyNewWSConnection (text "/chat") 6 true], v2, sv2) /\
    helper_run (replicate 64 9) (map batch ([single_bytes (take 10 resp)] ++ [single_bytes (drop 10 resp)])) c2 sc2 =
      Some ([], [HDisconnected; NotifyNewWSConnection (text "/chat") 5 false], c3, sc3).
Proof.
  intros key req resp.
  destruct (session_key_ok (replicate 64 9) 140000) as (_ & Hkb & Hkey & Hkl); [done|done|]. fold key in Hkb, Hkey, Hkl.
  destruct (accept_key_ok (replicate 64 9) key) as (_ & Hacc & _); [done|done|lia|].
  assert (word_text (text "/chat")) as Hpath by (apply text_word; reflexivity).
  assert (line_text (text "10.0.0.1" ++ 58 :: to_string 80)) as Hhost by (apply check_line; reflexivity).
  destruct (two_events req) as (R1 & R2 & R3 & R4); [apply (mo_size _ _ _ _ (request_ok _ _ _ Hpath Hhost Hkey))|].
  destruct (two_events resp) as (A1 & A2 & A3 & A4); [apply (mo_size _ _ _ _ (response_ok _ Hacc))|].
  destruct (handshake_completes (replicate 64 9) 140000 150000 (text "10.0.0.1") 80 (text "10.0.0.2") 90 (text "/chat")
      (new_IoChannel 1 5) (epoll_empty {[1%positive]}) (new_IoChannel 1 6) (epoll_empty {[1%positive]}) [[SendOk 7; SendAgain]] [] (2 ^ 20)
      [single_bytes (take 10 req)] (single_bytes (drop 10 req)) [single_bytes (take 10 resp)] (single_bytes (drop 10 resp)))
    as (c0 & sc0 & c1 & sc1 & c2 & sc2 & c3 & sc3 & v0 & sv0 & v1 & sv1 & v2 & sv2 & G1 & G2 & G3 & _ & G4 & G5 & _ & G6 & G7 & _).
  - reflexivity.
  - split; vm_compute; congruence.
  - apply empty_ok.
  - reflexivity.
  - reflexivity.
  - vm_compute; congruence.
  - apply empty_ok.
  - reflexivity.
  - reflexivity.
  - vm_compute; congruence.
  - exact Hpath.
  - exact Hhost.
  - repeat constructor; intros [Hr|Hr]; discriminate Hr.
  - constructor.
  - vm_compute; congruence.
  - exact R1.
  - exact R2.
  - exact R3.
  - exact R4.
  - exact A1.
  - exact A2.
  - exact A3.
  - exact A4.
  - exists c0, sc0, c1, sc1, c2, sc2, c3, sc3, v0, sv0, v1, sv1, v2, sv2.
    split; [exact G1|]. split; [exact G2|]. split; [exact G3|]. split; [exact G4|]. split; [exact G5|]. split; [exact G6|exact G7].
Defined.
