(* ===== verification/TcpServer.v ===== *)
(** The TCP server: src/imp/network/itcp-server.h, itcp-server.cpp.

    The results of getaddrinfo, socket, bind, listen and accept are arguments of the operations, and so are the
    clock and the random numbers.  An operation gives the effects it has outside in their order; the slots of the signals
    do not call the server back.  The lambda connected to the timer and to the channel of a task captures the task, so the
    running timers and the slots of the channels are tables of tasks. *)
From S2P Require Import Prelude Scheduler.

Record ConnectionTask := mkTask {
  token : Z;
  fd : Z;
  task_channel : IoChannel;
  timer : positive;
  interval : Z;
  timestamp : Z
}.

Inductive server_effect :=
  | NotifyPassive (fd : Z)
  | NotifyActive (fd : Z) (token : Z) (cost_time : Z)
  | CloseSocket (fd : Z).

Record ITcpServer {T : Type} := mkServer {
  service_name : list Z;
  scheduler : T;
  server_channel_list : list IoChannel;
  next_token : Z;
  connections_map : gmap Z ConnectionTask;
  token_directory : gmap Z Z;
  timers : gmap positive ConnectionTask;
  slots : gmap positive ConnectionTask;
  next_id : positive
}.
Arguments ITcpServer : clear implicits.

(** ** Tokens *)

(** How far the next try is, [k] tries before the last. *)
Definition token_step (rd : nat -> Z) (k : nat) : Z :=
  if 900 <? Z.of_nat k then 1 else if 500 <? Z.of_nat k then 100 else if 100 <? Z.of_nat k then 200 else rd k mod 100 + 1.

(** The search with [m] tries left: the token, and max_try_times at its end. *)
Fixpoint token_loop (rd : nat -> Z) (dir : gmap Z Z) (m : nat) (tok : Z) : Z * Z :=
  match m with
  | O => (tok, 2 ^ 32 - 1)
  | S k =>
      let tok := if tok =? 0 then 1 else tok in
      match dir !! tok with
      | None => (tok, Z.of_nat k)
      | Some _ => token_loop rd dir k (u32 (tok + token_step rd k))
      end
  end.

Definition find_token (rd : nat -> Z) (dir : gmap Z Z) (tok : Z) : Z :=
  let '(tok, max_try_times) := token_loop rd dir 1000 tok in
  if max_try_times =? 0 then 0 else tok.

(** ** Operations *)

Section Server.
Context {T : Type} `{Poller T}.
Implicit Types (v : ITcpServer T).

Definition new_ITcpServer (s : T) (service : list Z) : ITcpServer T := mkServer T service s [] 0 ∅ ∅ ∅ ∅ 1.

Definition set_scheduler (s : T) v : ITcpServer T :=
  mkServer T (service_name v) s (server_channel_list v) (next_token v) (connections_map v) (token_directory v) (timers v) (slots v) (next_id v).
Definition set_channels (l : list IoChannel) v : ITcpServer T :=
  mkServer T (service_name v) (scheduler v) l (next_token v) (connections_map v) (token_directory v) (timers v) (slots v) (next_id v).
Definition set_maps (cm : gmap Z ConnectionTask) (dir : gmap Z Z) v : ITcpServer T :=
  mkServer T (service_name v) (scheduler v) (server_channel_list v) (next_token v) cm dir (timers v) (slots v) (next_id v).
Definition set_timers (tm : gmap positive ConnectionTask) v : ITcpServer T :=
  mkServer T (service_name v) (scheduler v) (server_channel_list v) (next_token v) (connections_map v) (token_directory v) tm (slots v) (next_id v).
Definition set_slots (sl : gmap positive ConnectionTask) v : ITcpServer T :=
  mkServer T (service_name v) (scheduler v) (server_channel_list v) (next_token v) (connections_map v) (token_directory v) (timers v) sl (next_id v).
Definition set_next (tok : Z) (id : positive) v : ITcpServer T :=
  mkServer T (service_name v) (scheduler v) (server_channel_list v) tok (connections_map v) (token_directory v) (timers v) (slots v) id.

(** The loop of [startListen] over the addresses: the socket, and whether bind and listen succeed. *)
Fixpoint listen_loop (addrs : list (option Z * bool)) v : option (list server_effect * ITcpServer T) :=
  match addrs with
  | [] => Some ([], v)
  | (None, _) :: addrs' => listen_loop addrs' v
  | (Some fd, true) :: addrs' =>
      let channel := enableReading (new_IoChannel (next_id v) fd) in
      s ← sync channel (scheduler v);
      listen_loop addrs' (set_channels (server_channel_list v ++ [channel]) (set_next (next_token v) (Pos.succ (next_id v)) (set_scheduler s v)))
  | (Some fd, false) :: addrs' =>
      '(eff, v) ← listen_loop addrs' v;
      Some (CloseSocket fd :: eff, v)
  end.

(** [None] of [resolved] is a failure of getaddrinfo. *)
Definition startListen (resolved : option (list (option Z * bool))) v : option (bool * list server_effect * ITcpServer T) :=
  match service_name v with
  | [] => Some (false, [], v)
  | _ => match server_channel_list v with
         | _ :: _ => Some (true, [], v)
         | [] => match resolved with
                 | None => Some (false, [], v)
                 | Some addrs =>
                     '(eff, v) ← listen_loop addrs v;
                     Some (match server_channel_list v with [] => false | _ => true end, eff, v)
                 end
         end
  end.

Definition stop_channels (l : list IoChannel) (s : T) : T := foldl (fun s ch => stop ch s) s l.

Definition stopListen v : list server_effect * ITcpServer T :=
  (map (fun ch => CloseSocket (ch_fd ch)) (server_channel_list v), set_channels [] (set_scheduler (stop_channels (server_channel_list v) (scheduler v)) v)).

(** The loop of [stopAll]; the order of the table is not specified. *)
Fixpoint stop_tasks (tasks : list (Z * ConnectionTask)) v : list server_effect * ITcpServer T :=
  match tasks with
  | [] => ([], v)
  | (_, t) :: tasks' =>
      let v := set_scheduler (stop (task_channel t) (scheduler v)) v in
      let v := set_timers (delete (timer t) (timers v)) v in
      let v := set_maps (connections_map v) (delete (token t) (token_directory v)) v in
      let '(eff, v) := stop_tasks tasks' v in
      (CloseSocket (fd t) :: NotifyActive (-1) (token t) (-1) :: eff, v)
  end.

Definition stopAll v : list server_effect * ITcpServer T :=
  let '(eff1, v) := stopListen v in
  let '(eff2, v) := stop_tasks (map_to_list (connections_map v)) v in
  (eff1 ++ eff2, set_maps ∅ (token_directory v) v).

Definition serverFd v : list Z := map ch_fd (server_channel_list v).
Definition serviceName v : list Z := service_name v.

Definition release_task (t : ConnectionTask) v : ITcpServer T :=
  let v := set_timers (delete (timer t) (timers v)) v in
  let v := set_scheduler (stop (task_channel t) (scheduler v)) v in
  let v := set_slots (delete (ch_id (task_channel t)) (slots v)) v in
  set_maps (delete (fd t) (connections_map v)) (delete (token t) (token_directory v)) v.

(** The first socket that can be made. *)
Fixpoint first_socket (sockets : list (option Z)) : option Z :=
  match sockets with [] => None | Some fd :: _ => Some fd | None :: sockets' => first_socket sockets' end.

Definition activeConnect (rd : nat -> Z) (resolved : option (list (option Z))) (timeout_msec now : Z) v : option (Z * ITcpServer T) :=
  match resolved with
  | None => Some (0, v)
  | Some sockets =>
      let tok := find_token rd (token_directory v) (next_token v) in
      if 0 <? tok then
        match first_socket sockets with
        | None => Some (0, v)
        | Some new_fd =>
            let cid := next_id v in let tid := Pos.succ cid in
            let channel := enablWriting (new_IoChannel cid new_fd) in
            let task := mkTask tok new_fd channel tid timeout_msec now in
            let v := set_slots (<[cid := task]> (slots v)) v in
            s ← sync channel (scheduler v);
            let v := set_timers (<[tid := task]> (timers v)) (set_scheduler s v) in
            let v := set_next (u32 (tok + 1)) (Pos.succ tid) v in
            Some (tok, set_maps (match connections_map v !! new_fd with Some _ => connections_map v | None => <[new_fd := task]> (connections_map v) end)
                                (match token_directory v !! tok with Some _ => token_directory v | None => <[tok := new_fd]> (token_directory v) end) v)
        end
      else Some (0, v)
  end.

Definition cancelActiveConnecttion (tok : Z) v : list server_effect * ITcpServer T :=
  match token_directory v !! tok with
  | None => ([], v)
  | Some dfd =>
      let '(eff, v) := match connections_map v !! dfd with
                       | None => ([], v)
                       | Some t =>
                           let v := set_timers (delete (timer t) (timers v)) v in
                           let v := set_scheduler (stop (task_channel t) (scheduler v)) v in
                           ([CloseSocket (fd t); NotifyActive (-1) (token t) (-1)], set_maps (delete dfd (connections_map v)) (token_directory v) v)
                       end in
      (eff, set_maps (connections_map v) (delete tok (token_directory v)) v)
  end.

(** The lambdas of a task. *)
Definition cost (now : Z) (t : ConnectionTask) : Z := if now - timestamp t <? 0 then -1 else now - timestamp t.
Definition on_timeout (t : ConnectionTask) v : list server_effect * ITcpServer T :=
  ([NotifyActive (-1) (token t) (interval t); CloseSocket (fd t)], release_task t v).
Definition on_writeReady (now : Z) (t : ConnectionTask) v : list server_effect * ITcpServer T :=
  ([NotifyActive (fd t) (token t) (cost now t)], release_task t v).
Definition on_errorEvent (now : Z) (t : ConnectionTask) v : list server_effect * ITcpServer T :=
  ([CloseSocket (fd t); NotifyActive (-1) (token t) (cost now t)], release_task t v).
Definition on_closeEvent := on_errorEvent.

(** [accepted] is what accept gives. *)
Definition on_accept (accepted : Z) v : list server_effect * ITcpServer T := ([NotifyPassive accepted], v).

(** A signal of the channel [id]. *)
Definition on_signal (now accepted : Z) (id : positive) (sg : io_signal) v : list server_effect * ITcpServer T :=
  match slots v !! id with
  | Some t => match sg with
              | bytesReady => ([], v)
              | writeReady => on_writeReady now t v
              | errorEvent => on_errorEvent now t v
              | closeEvent => on_closeEvent now t v
              end
  | None => match sg with
            | bytesReady => if existsb (fun ch => bool_decide (ch_id ch = id)) (server_channel_list v) then on_accept accepted v else ([], v)
            | _ => ([], v)
            end
  end.

Fixpoint on_signals (now accepted : Z) (id : positive) (sgs : list io_signal) v : list server_effect * ITcpServer T :=
  match sgs with
  | [] => ([], v)
  | sg :: sgs' => let '(eff, v) := on_signal now accepted id sg v in let '(eff', v) := on_signals now accepted id sgs' v in (eff ++ eff', v)
  end.

(** ** Events *)

Inductive server_event :=
  | EvListen (resolved : option (list (option Z * bool)))
  | EvStopListen
  | EvStopAll
  | EvConnect (rd : nat -> Z) (resolved : option (list (option Z))) (timeout_msec now : Z)
  | EvCancel (tok : Z)
  | EvTimer (id : positive)
  | EvIo (fd events now accepted : Z).

(** An event: the token of an accepted connection, the effects, the server. *)
Definition server_step (ev : server_event) v : option (list Z * list server_effect * ITcpServer T) :=
  match ev with
  | EvListen resolved => '(_, eff, v) ← startListen resolved v; Some ([], eff, v)
  | EvStopListen => let '(eff, v) := stopListen v in Some ([], eff, v)
  | EvStopAll => let '(eff, v) := stopAll v in Some ([], eff, v)
  | EvConnect rd resolved timeout_msec now =>
      '(tok, v) ← activeConnect rd resolved timeout_msec now v;
      Some (if tok =? 0 then [] else [tok], [], v)
  | EvCancel tok => let '(eff, v) := cancelActiveConnecttion tok v in Some ([], eff, v)
  | EvTimer id => match timers v !! id with
                  | Some t => let '(eff, v) := on_timeout t v in Some ([], eff, v)
                  | None => Some ([], [], v)
                  end
  | EvIo fd events now accepted =>
      match interest (scheduler v) !! fd with
      | Some (id, _) => let '(eff, v) := on_signals now accepted id (handleIoEvent events) v in Some ([], eff, v)
      | None => Some ([], [], v)
      end
  end.

Fixpoint server_run (evs : list server_event) v : option (list Z * list server_effect * ITcpServer T) :=
  match evs with
  | [] => Some ([], [], v)
  | ev :: evs' =>
      '(tok, eff, v) ← server_step ev v;
      '(tok', eff', v) ← server_run evs' v;
      Some (tok ++ tok', eff ++ eff', v)
  end.
End Server.

(** ** A token is found *)

(** The tokens go round from 1 to [last_token]. *)
Definition last_token : Z := 2 ^ 32 - 1.
Definition token_at (t : Z) (i : nat) : Z := (t - 1 + Z.of_nat i) mod last_token + 1.

Lemma token_at_range t i : 1 <= token_at t i <= last_token.
Proof. unfold token_at, last_token. pose proof (Z.mod_pos_bound (t - 1 + Z.of_nat i) (2 ^ 32 - 1) ltac:(lia)). lia. Qed.

Lemma token_at_0 t : 1 <= t <= last_token -> token_at t 0 = t.
Proof. intros Ht. unfold token_at, last_token in *. rewrite Z.add_0_r, Z.mod_small by lia. lia. Qed.

Lemma token_at_next t i : token_at (token_at t 1) i = token_at t (S i).
Proof.
  unfold token_at, last_token. replace ((t - 1 + Z.of_nat 1) mod (2 ^ 32 - 1) + 1 - 1 + Z.of_nat i) with ((t - 1 + 1) mod (2 ^ 32 - 1) + Z.of_nat i) by lia.
  rewrite Z.add_mod_idemp_l by lia. do 2 f_equal. lia.
Qed.

Lemma token_at_inj t i j : Z.of_nat i < last_token -> Z.of_nat j < last_token -> token_at t i = token_at t j -> i = j.
Proof.
  unfold token_at, last_token. intros Hi Hj He. assert ((t - 1 + Z.of_nat i) mod (2 ^ 32 - 1) = (t - 1 + Z.of_nat j) mod (2 ^ 32 - 1)) as Hm by lia.
  pose proof (Z.div_mod (t - 1 + Z.of_nat i) (2 ^ 32 - 1) ltac:(lia)). pose proof (Z.div_mod (t - 1 + Z.of_nat j) (2 ^ 32 - 1) ltac:(lia)). change (2 ^ 32 - 1) with 4294967295 in *. lia.
Qed.

Lemma token_loop_finds rd dir b n : 900 < Z.of_nat b -> forall tok t, t = (if tok =? 0 then 1 else tok) -> 1 <= t <= last_token -> (exists i, (i < n)%nat /\ dir !! token_at t i = None) ->
  exists k r, token_loop rd dir (n + b) tok = (r, k) /\ dir !! r = None /\ 1 <= r <= last_token /\ 0 < k.
Proof.
  intros Hb. induction n as [|n IH]; intros tok t Ht Hr (i & Hi & Hfree); [lia|]. cbn [Nat.add token_loop]. rewrite <- Ht.
  destruct (dir !! t) as [f|] eqn:E; [|exists (Z.of_nat (n + b)), t; split; [done|]; split; [done|lia]].
  destruct i as [|i]; [rewrite token_at_0 in Hfree by done; congruence|].
  assert (token_step rd (n + b) = 1) as -> by (unfold token_step; by rewrite (proj2 (Z.ltb_lt 900 _)) by lia).
  apply (IH _ (token_at t 1)).
  - unfold token_at, last_token in *. destruct (Z.eq_dec t (2 ^ 32 - 1)) as [->|Hne]; [done|].
    rewrite wrap_small by lia. rewrite (proj2 (Z.eqb_neq (t + 1) 0)) by lia. rewrite Z.mod_small by lia. lia.
  - apply token_at_range.
  - exists i. split; [lia|]. by rewrite token_at_next.
Qed.

(** With less than 99 tokens in use one is found. *)
Lemma find_token_free rd dir tok : 0 <= tok < 2 ^ 32 -> (size dir < 99)%nat ->
  1 <= find_token rd dir tok <= last_token /\ dir !! find_token rd dir tok = None.
Proof.
  intros Htok Hsize. set (t := if tok =? 0 then 1 else tok).
  assert (1 <= t <= last_token) as Ht by (unfold t, last_token; destruct (Z.eqb_spec tok 0); lia).
  assert (exists i, (i < 99)%nat /\ dir !! token_at t i = None) as Hfree.
  { destruct (decide (Exists (fun i => dir !! token_at t i = None) (seq 0 99))) as [He|Hn].
    { apply Exists_exists in He as (i & Hi & Hf). apply elem_of_seq in Hi. exists i. split; [lia|done]. }
    exfalso. assert (list_to_set (map (token_at t) (seq 0 99)) ⊆ dom dir) as Hsub.
    { intros x Hx. apply elem_of_list_to_set, list_elem_of_fmap in Hx as (i & -> & Hi). apply elem_of_dom.
      destruct (dir !! token_at t i) eqn:E; [by eexists|]. destruct Hn. apply Exists_exists. by exists i. }
    apply subseteq_size in Hsub. rewrite size_dom, size_list_to_set in Hsub.
    - rewrite length_map, length_seq in Hsub. lia.
    - apply NoDup_fmap_2_strong; [|apply NoDup_seq]. intros i j Hi Hj. apply elem_of_seq in Hi, Hj. apply token_at_inj; unfold last_token; lia. }
  destruct (token_loop_finds rd dir 901 99 ltac:(lia) tok t eq_refl Ht Hfree) as (k & r & Hl & Hf & Hr & Hk). unfold find_token.
  change 1000%nat with (99 + 901)%nat. rewrite Hl. by rewrite (proj2 (Z.eqb_neq k 0)) by lia.
Qed.

(** ** The tables agree *)

Definition notified (eff : list server_effect) : list Z := omap (fun e => match e with NotifyActive _ tok _ => Some tok | _ => None end) eff.
Definition closed (eff : list server_effect) : list Z := omap (fun e => match e with CloseSocket f => Some f | _ => None end) eff.
Definition handed (eff : list server_effect) : list Z :=
  omap (fun e => match e with NotifyActive f _ _ => if 0 <=? f then Some f else None | _ => None end) eff.

Section Spec.
Context {T : Type} `{PollerLaws T}.
Implicit Types (v : ITcpServer T) (t : ConnectionTask).

Definition task_id t : positive := ch_id (task_channel t).

(** The tasks are what the directory, the timers, the slots and the poller know; the listening channels are registered. *)
Record server_ok v : Prop := {
  so_poller : poller_ok (scheduler v);
  so_task : forall f t, connections_map v !! f = Some t ->
    fd t = f /\ token_directory v !! token t = Some f /\ 1 <= token t <= last_token /\ timers v !! timer t = Some t /\
    slots v !! task_id t = Some t /\ ch_fd (task_channel t) = f /\ interest (scheduler v) !! f = Some (task_id t, EVENT_OUT) /\ fd_ok f /\ 0 <= f;
  so_dir : forall tok f, token_directory v !! tok = Some f -> exists t, connections_map v !! f = Some t /\ token t = tok;
  so_timer : forall id t, timers v !! id = Some t -> timer t = id /\ connections_map v !! fd t = Some t;
  so_interest : forall f id e, interest (scheduler v) !! f = Some (id, e) ->
    (exists t, connections_map v !! f = Some t /\ task_id t = id) \/ (exists ch, ch ∈ server_channel_list v /\ ch_fd ch = f /\ ch_id ch = id);
  so_listen : forall ch, ch ∈ server_channel_list v -> fd_ok (ch_fd ch) /\ 0 <= ch_fd ch /\ connections_map v !! ch_fd ch = None /\
    slots v !! ch_id ch = None /\ interest (scheduler v) !! ch_fd ch = Some (ch_id ch, EVENT_IN);
  so_nodup : NoDup (map ch_fd (server_channel_list v));
  so_slot_ids : forall id t, slots v !! id = Some t -> (id < next_id v)%positive;
  so_timer_ids : forall id t, timers v !! id = Some t -> (id < next_id v)%positive;
  so_listen_ids : forall ch, ch ∈ server_channel_list v -> (ch_id ch < next_id v)%positive;
  so_next : 0 <= next_token v < 2 ^ 32
}.

Definition tokens v : list Z := map (fun p => token (snd p)) (map_to_list (connections_map v)).
Definition fds v : list Z := map fst (map_to_list (connections_map v)).
Definition listening v : list Z := map ch_fd (server_channel_list v).

Lemma task_inj v f1 f2 t1 t2 : server_ok v -> connections_map v !! f1 = Some t1 -> connections_map v !! f2 = Some t2 ->
  task_id t1 = task_id t2 \/ timer t1 = timer t2 \/ token t1 = token t2 -> f1 = f2 /\ t1 = t2.
Proof.
  intros Hok H1 H2 He. destruct (so_task _ Hok _ _ H1) as (F1 & D1 & _ & T1 & S1 & _), (so_task _ Hok _ _ H2) as (F2 & D2 & _ & T2 & S2 & _).
  destruct He as [He|[He|He]]; rewrite He in *; [rewrite S1 in S2; injection S2 as ->; split; congruence|rewrite T1 in T2; injection T2 as ->; split; congruence|].
  rewrite D1 in D2. injection D2 as ->. split; congruence.
Qed.

(** One task less; its slots may stay. *)
Definition without (sl : gmap positive ConnectionTask) t v : ITcpServer T :=
  set_maps (delete (fd t) (connections_map v)) (delete (token t) (token_directory v))
    (set_slots sl (set_scheduler (stop (task_channel t) (scheduler v)) (set_timers (delete (timer t) (timers v)) v))).

Lemma without_ok sl t v : server_ok v -> connections_map v !! fd t = Some t -> sl = slots v \/ sl = delete (task_id t) (slots v) -> server_ok (without sl t v).
Proof.
  intros Hok Ht Hsl. destruct (so_task _ Hok _ _ Ht) as (_ & Hd & Hr & Htm & Hs & Hcf & Hi & Hfd & Hpos).
  assert (interest (stop (task_channel t) (scheduler v)) = delete (fd t) (interest (scheduler v)) /\ poller_ok (stop (task_channel t) (scheduler v))) as [Hint Hpo].
  { unfold stop. rewrite Hcf. rewrite (proj2 (Z.eqb_neq _ _)) by (by apply fd_ok_valid). by destruct (remove_spec (fd t) (scheduler v) (so_poller _ Hok)) as (? & _ & ?). }
  assert (forall id u, sl !! id = Some u -> slots v !! id = Some u) as Hsub.
  { intros id u. destruct Hsl as [-> | ->]; [done|]. by rewrite lookup_delete_Some; intros [_ ?]. }
  split; cbn [without set_maps set_slots set_scheduler set_timers scheduler connections_map token_directory timers slots server_channel_list next_id next_token].
  - done.
  - intros f u [Hne Hu]%lookup_delete_Some. destruct (so_task _ Hok _ _ Hu) as (F & D & R & M & S & C & I & ?).
    assert (task_id t <> task_id u /\ timer t <> timer u /\ token t <> token u) as (N1 & N2 & N3).
    { split_and!; intros He; apply Hne; [destruct (task_inj v _ _ _ _ Hok Ht Hu (or_introl He))|destruct (task_inj v _ _ _ _ Hok Ht Hu (or_intror (or_introl He)))|
        destruct (task_inj v _ _ _ _ Hok Ht Hu (or_intror (or_intror He)))]; done. }
    rewrite !lookup_delete_ne by done. rewrite Hint, lookup_delete_ne by done.
    do 4 (split; [done|]). split; [|done]. destruct Hsl as [-> | ->]; [done|]. by rewrite lookup_delete_ne.
  - intros tok f [Hne Hx]%lookup_delete_Some. destruct (so_dir _ Hok _ _ Hx) as (u & Hu & <-). exists u. split; [|done].
    rewrite lookup_delete_ne; [done|]. intros <-. rewrite Ht in Hu. by injection Hu as ->.
  - intros id u [Hne Hu]%lookup_delete_Some. destruct (so_timer _ Hok _ _ Hu) as [<- Hc]. split; [done|].
    rewrite lookup_delete_ne; [done|]. intros He. rewrite <- He, Ht in Hc. by injection Hc as ->.
  - intros f id e. rewrite Hint. intros [Hne Hx]%lookup_delete_Some. destruct (so_interest _ Hok _ _ _ Hx) as [(u & Hu & Hid)|?]; [left|by right].
    exists u. by rewrite lookup_delete_ne.
  - intros ch Hch. destruct (so_listen _ Hok _ Hch) as (L1 & L2 & L3 & L4 & L5). assert (fd t <> ch_fd ch) by congruence.
    rewrite lookup_delete_ne, Hint, lookup_delete_ne by done. split_and!; try done. destruct (sl !! ch_id ch) eqn:E; [|done]. apply Hsub in E. congruence.
  - apply (so_nodup _ Hok).
  - intros id u Hu. by eapply (so_slot_ids _ Hok), Hsub.
  - intros id u [_ Hu]%lookup_delete_Some. by eapply (so_timer_ids _ Hok).
  - apply (so_listen_ids _ Hok).
  - apply (so_next _ Hok).
Qed.

Lemma without_lists sl t v : connections_map v !! fd t = Some t ->
  tokens v ≡ₚ token t :: tokens (without sl t v) /\ fds v ≡ₚ fd t :: fds (without sl t v) /\ listening (without sl t v) = listening v.
Proof.
  intros Ht. pose proof (map_to_list_delete (connections_map v) (fd t) t Ht) as Hp. unfold tokens, fds.
  change (connections_map (without sl t v)) with (delete (fd t) (connections_map v)). rewrite <- Hp. done.
Qed.

(** A step: the tables agree again, every token is pending or notified, and every descriptor is pending, listening,
    closed or handed over. *)
Definition moved v (opened accepted : list Z) (eff : list server_effect) v' : Prop :=
  server_ok v' /\ tokens v ++ accepted ≡ₚ notified eff ++ tokens v' /\
  opened ++ fds v ++ listening v ≡ₚ closed eff ++ handed eff ++ fds v' ++ listening v'.

Lemma moved_refl v : server_ok v -> moved v [] [] [] v.
Proof. intros Hok. split; [done|]. by rewrite app_nil_r. Qed.

Lemma notified_app e1 e2 : notified (e1 ++ e2) = notified e1 ++ notified e2. Proof. apply omap_app. Qed.
Lemma closed_app e1 e2 : closed (e1 ++ e2) = closed e1 ++ closed e2. Proof. apply omap_app. Qed.
Lemma handed_app e1 e2 : handed (e1 ++ e2) = handed e1 ++ handed e2. Proof. apply omap_app. Qed.

Lemma moved_trans v1 o1 a1 e1 v2 o2 a2 e2 v3 : moved v1 o1 a1 e1 v2 -> moved v2 o2 a2 e2 v3 -> moved v1 (o1 ++ o2) (a1 ++ a2) (e1 ++ e2) v3.
Proof.
  intros (_ & T1 & F1) (Hok & T2 & F2). split; [done|]. rewrite notified_app, closed_app, handed_app. split.
  - rewrite app_assoc, T1, <- !app_assoc. by rewrite T2.
  - transitivity (o2 ++ (o1 ++ fds v1 ++ listening v1)); [solve_Permutation|]. rewrite F1.
    transitivity (closed e1 ++ handed e1 ++ (o2 ++ fds v2 ++ listening v2)); [solve_Permutation|]. rewrite F2. solve_Permutation.
Qed.

Lemma drop_moved sl t v eff : server_ok v -> connections_map v !! fd t = Some t -> sl = slots v \/ sl = delete (task_id t) (slots v) ->
  notified eff = [token t] -> closed eff ++ handed eff = [fd t] -> moved v [] [] eff (without sl t v).
Proof.
  intros Hok Ht Hsl Hn Hc. destruct (without_lists sl t v Ht) as (Ht' & Hf & Hl). split; [by apply without_ok|].
  rewrite app_nil_r, Hn, (app_assoc (closed eff) (handed eff)), Hc, Hl. cbn [app]. split; [done|]. by rewrite Hf.
Qed.

Lemma handed_failure tok c eff : handed (NotifyActive (-1) tok c :: eff) = handed eff. Proof. done. Qed.

Lemma timeout_moved t v : server_ok v -> connections_map v !! fd t = Some t -> moved v [] [] (on_timeout t v).1 (on_timeout t v).2.
Proof. intros Hok Ht. apply (drop_moved (delete (task_id t) (slots v)) t v); [done|done|by right|done|done]. Qed.

Lemma write_moved now t v : server_ok v -> connections_map v !! fd t = Some t -> moved v [] [] (on_writeReady now t v).1 (on_writeReady now t v).2.
Proof.
  intros Hok Ht. apply (drop_moved (delete (task_id t) (slots v)) t v); [done|done|by right|done|].
  destruct (so_task _ Hok _ _ Ht) as (_ & _ & _ & _ & _ & _ & _ & _ & Hpos). cbn. by rewrite (proj2 (Z.leb_le 0 (fd t)) Hpos).
Qed.

Lemma error_moved now t v : server_ok v -> connections_map v !! fd t = Some t -> moved v [] [] (on_errorEvent now t v).1 (on_errorEvent now t v).2.
Proof. intros Hok Ht. apply (drop_moved (delete (task_id t) (slots v)) t v); [done|done|by right|done|done]. Qed.

Lemma cancel_moved tok v : server_ok v -> moved v [] [] (cancelActiveConnecttion tok v).1 (cancelActiveConnecttion tok v).2.
Proof.
  intros Hok. unfold cancelActiveConnecttion. destruct (token_directory v !! tok) as [f|] eqn:Hd; [|by apply moved_refl].
  destruct (so_dir _ Hok _ _ Hd) as (t & Ht & <-). rewrite Ht. destruct (so_task _ Hok _ _ Ht) as (<- & _).
  exact (drop_moved (slots v) t v [CloseSocket (fd t); NotifyActive (-1) (token t) (-1)] Hok Ht (or_introl eq_refl) eq_refl eq_refl).
Qed.

(** ** The channels of tasks *)

Lemma signals_moved now accepted id sgs : forall v, server_ok v ->
  (exists t, id = task_id t /\ connections_map v !! fd t = Some t) \/ slots v !! id = None ->
  moved v [] [] (on_signals now accepted id sgs v).1 (on_signals now accepted id sgs v).2.
Proof.
  induction sgs as [|sg sgs IH]; intros v Hok Hid; cbn [on_signals]; [by apply moved_refl|].
  assert (exists e1 v1, on_signal now accepted id sg v = (e1, v1) /\ moved v [] [] e1 v1 /\
    ((exists t, id = task_id t /\ connections_map v1 !! fd t = Some t) \/ slots v1 !! id = None)) as (e1 & v1 & -> & Hm & Hid1).
  { unfold on_signal. destruct Hid as [(t & -> & Ht)|Hs].
    - destruct (so_task _ Hok _ _ Ht) as (_ & _ & _ & _ & -> & _).
      assert (slots (release_task t v) !! task_id t = None) as Hrel by apply lookup_delete_eq.
      destruct sg; eexists _, _; (split; [reflexivity|]).
      + split; [by apply moved_refl|]. left. by exists t.
      + split; [by apply (error_moved now)|by right].
      + split; [by apply (error_moved now)|by right].
      + split; [by apply (write_moved now)|by right].
    - rewrite Hs. assert (forall e, notified e = [] -> closed e = [] -> handed e = [] -> moved v [] [] e v) as Hidle.
      { intros e N1 N2 N3. split; [done|]. by rewrite N1, N2, N3, app_nil_r. }
      destruct sg; try (eexists _, _; split; [reflexivity|split; [by apply moved_refl|by right]]).
      destruct (existsb _ _); eexists _, _; (split; [reflexivity|split; [by apply Hidle|by right]]). }
  specialize (IH v1 (proj1 Hm) Hid1). destruct (on_signals now accepted id sgs v1) as [e2 v2]. exact (moved_trans _ _ _ _ _ _ _ _ _ Hm IH).
Qed.

(** ** Closing *)

Lemma stop_tasks_moved l : forall v cm0, server_ok v -> map_to_list (connections_map v) ≡ₚ l ->
  exists eff v', stop_tasks l (set_maps cm0 (token_directory v) v) = (eff, set_maps cm0 (token_directory v') v') /\
    moved v [] [] eff v' /\ connections_map v' = ∅ /\ server_channel_list v' = server_channel_list v.
Proof.
  induction l as [|[f t] l IH]; intros v cm0 Hok Hl; cbn [stop_tasks].
  - exists [], v. split; [done|]. split; [by apply moved_refl|]. split; [|done]. apply map_to_list_empty_iff. by apply Permutation_nil_r.
  - assert (connections_map v !! f = Some t) as Ht by (apply elem_of_map_to_list; rewrite Hl; by left).
    destruct (so_task _ Hok _ _ Ht) as (<- & _).
    pose proof (drop_moved (slots v) t v [CloseSocket (fd t); NotifyActive (-1) (token t) (-1)] Hok Ht (or_introl eq_refl) eq_refl eq_refl) as Hm.
    destruct (IH (without (slots v) t v) cm0 (proj1 Hm)) as (eff & v' & Hrun & Hm' & Hcm & Hch).
    { change (connections_map (without (slots v) t v)) with (delete (fd t) (connections_map v)).
      apply (Permutation_cons_inv (a := (fd t, t))). by rewrite (map_to_list_delete _ _ _ Ht). }
    exists (CloseSocket (fd t) :: NotifyActive (-1) (token t) (-1) :: eff), v'.
    match goal with |- context [stop_tasks l ?w] => change w with (set_maps cm0 (token_directory (without (slots v) t v)) (without (slots v) t v)) end.
    rewrite Hrun. split; [done|]. split; [exact (moved_trans _ _ _ _ _ _ _ _ _ Hm Hm')|done].
Qed.

Lemma stop_channels_spec l : forall (s : T), poller_ok s -> (forall ch, ch ∈ l -> fd_ok (ch_fd ch)) ->
  poller_ok (stop_channels l s) /\ forall f, interest (stop_channels l s) !! f = if bool_decide (f ∈ map ch_fd l) then None else interest s !! f.
Proof.
  induction l as [|ch l IH]; intros s Hp Hl; [by cbn|]. unfold stop_channels. cbn [foldl]. fold (stop_channels l (stop ch s)).
  assert (fd_ok (ch_fd ch)) as Hfd by (apply Hl; by left). unfold stop. rewrite (proj2 (Z.eqb_neq _ _)) by (by apply fd_ok_valid).
  destruct (remove_spec (ch_fd ch) s Hp) as (R1 & _ & R3). destruct (IH _ R1) as [I1 I2]; [intros c Hc; apply Hl; by right|]. split; [done|].
  intros f. rewrite I2, R3. cbn [map]. destruct (decide (f = ch_fd ch)) as [->|Hne].
  - rewrite lookup_delete_eq. rewrite (bool_decide_true (ch_fd ch ∈ ch_fd ch :: _)) by (by left). by case_match.
  - rewrite lookup_delete_ne by done. erewrite bool_decide_ext; [reflexivity|]. rewrite elem_of_cons. naive_solver.
Qed.

Lemma stopListen_moved v : server_ok v -> moved v [] [] (stopListen v).1 (stopListen v).2 /\ server_channel_list (stopListen v).2 = [] /\
  connections_map (stopListen v).2 = connections_map v.
Proof.
  intros Hok. split; [|done]. unfold stopListen. cbn [fst snd].
  destruct (stop_channels_spec (server_channel_list v) (scheduler v) (so_poller _ Hok)) as [Hp Hi]; [intros ch Hch; by apply (so_listen _ Hok)|].
  assert (forall l, notified (map (fun ch => CloseSocket (ch_fd ch)) l) = [] /\ closed (map (fun ch => CloseSocket (ch_fd ch)) l) = map ch_fd l /\
    handed (map (fun ch => CloseSocket (ch_fd ch)) l) = []) as Heff.
  { induction l as [|ch l (E1 & E2 & E3)]; [done|]. unfold notified, closed, handed in *. cbn. by rewrite E1, E2, E3. }
  destruct (Heff (server_channel_list v)) as (E1 & E2 & E3). split; [|split; [by rewrite app_nil_r, E1|]].
  - split; cbn [set_channels set_scheduler scheduler connections_map token_directory timers slots server_channel_list next_id next_token]; try apply Hok; try done.
    + intros f t Ht. destruct (so_task _ Hok _ _ Ht) as (F & D & R & M & S' & C & I & ?). do 6 (split; [done|]). split; [|done].
      rewrite Hi, bool_decide_false; [done|]. intros (ch & -> & Hch)%list_elem_of_fmap. destruct (so_listen _ Hok _ Hch) as (_ & _ & Hn & _). congruence.
    + intros f id e. rewrite Hi. case_bool_decide as Hin; [done|]. intros Hx. destruct (so_interest _ Hok _ _ _ Hx) as [?|(ch & Hch & <- & _)]; [by left|].
      destruct Hin. by apply list_elem_of_fmap_2.
    + intros ch Hch. by apply elem_of_nil in Hch.
    + constructor.
    + intros ch Hch. by apply elem_of_nil in Hch.
  - rewrite E2, E3. unfold listening. cbn [server_channel_list set_channels map app]. rewrite app_nil_r.
    change (fds (set_channels [] (set_scheduler (stop_channels (server_channel_list v) (scheduler v)) v))) with (fds v). apply Permutation_app_comm.
Qed.

Lemma stopAll_moved v : server_ok v -> moved v [] [] (stopAll v).1 (stopAll v).2 /\ connections_map (stopAll v).2 = ∅ /\ server_channel_list (stopAll v).2 = [].
Proof.
  intros Hok. destruct (stopListen_moved v Hok) as (Hm & Hl & Hcm). unfold stopAll. destruct (stopListen v) as [e1 v1] eqn:E1. cbn [fst snd] in *.
  destruct (stop_tasks_moved (map_to_list (connections_map v1)) v1 (connections_map v1) (proj1 Hm) (reflexivity _)) as (e2 & v2 & Hrun & Hm2 & Hc2 & Hl2).
  change (set_maps (connections_map v1) (token_directory v1) v1) with (mkServer T (service_name v1) (scheduler v1) (server_channel_list v1) (next_token v1)
    (connections_map v1) (token_directory v1) (timers v1) (slots v1) (next_id v1)) in Hrun.
  replace (mkServer T (service_name v1) (scheduler v1) (server_channel_list v1) (next_token v1)
    (connections_map v1) (token_directory v1) (timers v1) (slots v1) (next_id v1)) with v1 in Hrun by by destruct v1.
  rewrite Hrun. cbn [fst snd]. assert (set_maps ∅ (token_directory (set_maps (connections_map v1) (token_directory v2) v2)) (set_maps (connections_map v1) (token_directory v2) v2) = v2) as ->.
  { destruct v2. cbn in *. by rewrite Hc2. }
  split; [exact (moved_trans _ _ _ _ _ _ _ _ _ Hm Hm2)|]. split; [done|congruence].
Qed.

(** ** Connecting and listening *)

(** A descriptor of the kernel that is not in use. *)
Definition fresh v (f : Z) : Prop := fd_ok f /\ 0 <= f /\ connections_map v !! f = None /\ ~ f ∈ listening v.

Lemma fresh_free v f : server_ok v -> fresh v f -> interest (scheduler v) !! f = None.
Proof.
  intros Hok (_ & _ & Hc & Hl). destruct (interest (scheduler v) !! f) as [[id e]|] eqn:E; [|done]. exfalso.
  destruct (so_interest _ Hok _ _ _ E) as [(t & Ht & _)|(ch & Hch & <- & _)]; [congruence|]. destruct Hl. by apply list_elem_of_fmap_2.
Qed.

Lemma sync_fresh v ch : server_ok v -> fresh v (ch_fd ch) -> channel_ok ch -> isNoneEvent ch = false ->
  exists s, sync ch (scheduler v) = Some s /\ poller_ok s /\ interest s = <[ch_fd ch := (ch_id ch, events ch)]> (interest (scheduler v)).
Proof.
  intros Hok Hf Hc Hn. pose proof (fresh_free v _ Hok Hf) as Hi. destruct Hf as (Hfd & _). unfold sync.
  rewrite (proj2 (Z.eqb_neq _ _)) by (by apply fd_ok_valid).
  destruct (update_spec ch (scheduler v)) as (s & -> & Hp & _ & Hint); [apply (so_poller _ Hok)|done|done| |].
  { intros id e Hx. congruence. }
  rewrite Hn in Hint. by exists s.
Qed.

Lemma connect_moved rd resolved timeout_msec now v : server_ok v -> (size (token_directory v) < 99)%nat ->
  (forall sockets f, resolved = Some sockets -> first_socket sockets = Some f -> fresh v f) ->
  exists tok v', activeConnect rd resolved timeout_msec now v = Some (tok, v') /\
    moved v (match resolved with Some sockets => match first_socket sockets with Some f => [f] | None => [] end | None => [] end)
      (if tok =? 0 then [] else [tok]) [] v'.
Proof.
  intros Hok Hsize Hfresh. unfold activeConnect. destruct resolved as [sockets|]; [|exists 0, v; split; [done|by apply moved_refl]].
  destruct (find_token_free rd (token_directory v) (next_token v) (so_next _ Hok) Hsize) as [Hr Hfree].
  set (tok := find_token rd (token_directory v) (next_token v)) in *. rewrite (proj2 (Z.ltb_lt 0 tok)) by lia.
  destruct (first_socket sockets) as [f|] eqn:Hs; [|exists 0, v; split; [done|by apply moved_refl]].
  specialize (Hfresh sockets f eq_refl Hs). set (ch := enablWriting (new_IoChannel (next_id v) f)).
  destruct (sync_fresh v ch Hok Hfresh) as (s & Hsync & Hp & Hint); [done|done|].
  cbn [scheduler set_slots]. rewrite Hsync. cbn [mbind option_bind]. pose proof Hfresh as (Hfd & Hpos & Hc & Hl).
  cbn [connections_map token_directory set_next set_timers set_scheduler set_slots]. rewrite Hc, Hfree. set (t := mkTask tok f ch (Pos.succ (next_id v)) timeout_msec now). eexists tok, _. split; [reflexivity|].
  assert (interest (scheduler v) !! f = None) as Hfi by by apply fresh_free.
  change (ch_fd ch) with f in Hint. change (ch_id ch) with (next_id v) in Hint. change (events ch) with EVENT_OUT in Hint.
  rewrite (proj2 (Z.eqb_neq tok 0)) by lia. split; [|split].
  - split; cbn [set_maps set_timers set_slots set_scheduler set_next scheduler connections_map token_directory timers slots server_channel_list next_id next_token].
    + done.
    + intros f' u Hu. apply lookup_insert_Some in Hu as [[<- <-]|[Hne Hu]].
      * rewrite Hint, !lookup_insert_eq. done.
      * destruct (so_task _ Hok _ _ Hu) as (F & D & R & M & S' & C & I & ?). split; [done|].
        pose proof (so_slot_ids _ Hok _ _ S'). pose proof (so_timer_ids _ Hok _ _ M).
        rewrite Hint, !lookup_insert_ne by (try done; try lia; intros He; rewrite He in Hfree; congruence). done.
    + intros tk f' Hx. apply lookup_insert_Some in Hx as [[<- <-]|[Hne Hx]].
      * exists t. by rewrite lookup_insert_eq.
      * destruct (so_dir _ Hok _ _ Hx) as (u & Hu & <-). exists u. rewrite lookup_insert_ne; [done|]. intros <-. congruence.
    + intros id u Hu. apply lookup_insert_Some in Hu as [[<- <-]|[Hne Hu]].
      * by rewrite lookup_insert_eq.
      * destruct (so_timer _ Hok _ _ Hu) as [? Hcu]. split; [done|]. rewrite lookup_insert_ne; [done|]. intros He. rewrite <- He in Hcu. congruence.
    + intros f' id e. rewrite Hint. intros Hx. apply lookup_insert_Some in Hx as [[<- [= <- <-]]|[Hne Hx]].
      * left. exists t. by rewrite lookup_insert_eq.
      * destruct (so_interest _ Hok _ _ _ Hx) as [(u & Hu & ?)|?]; [left|by right]. exists u. by rewrite lookup_insert_ne.
    + intros c Hch. destruct (so_listen _ Hok _ Hch) as (L1 & L2 & L3 & L4 & L5). pose proof (so_listen_ids _ Hok _ Hch).
      assert (f <> ch_fd c) by (intros ->; apply Hl; by apply list_elem_of_fmap_2).
      rewrite Hint, !lookup_insert_ne by (done || lia). done.
    + apply (so_nodup _ Hok).
    + intros id u Hu. apply lookup_insert_Some in Hu as [[<- _]|[_ Hu]]; [lia|]. pose proof (so_slot_ids _ Hok _ _ Hu). lia.
    + intros id u Hu. apply lookup_insert_Some in Hu as [[<- _]|[_ Hu]]; [lia|]. pose proof (so_timer_ids _ Hok _ _ Hu). lia.
    + intros c Hch. pose proof (so_listen_ids _ Hok _ Hch). lia.
    + apply (wrap_range 32). lia.
  - unfold tokens. cbn [connections_map set_maps]. rewrite (map_to_list_insert _ _ _ Hc). cbn [map snd token app]. apply Permutation_sym, Permutation_cons_append.
  - unfold fds. cbn [connections_map set_maps]. rewrite (map_to_list_insert _ _ _ Hc). done.
Qed.

(** The sockets that are made for listening. *)
Definition made (addrs : list (option Z * bool)) : list Z := omap fst addrs.

Lemma listen_moved addrs : forall v, server_ok v -> NoDup (made addrs) -> Forall (fresh v) (made addrs) ->
  exists eff v', listen_loop addrs v = Some (eff, v') /\ moved v (made addrs) [] eff v'.
Proof.
  induction addrs as [|[[f|] ok] addrs IH]; intros v Hok Hnd Hfr; cbn [listen_loop].
  - exists [], v. split; [done|by apply moved_refl].
  - change (made ((Some f, ok) :: addrs)) with (f :: made addrs) in *. apply NoDup_cons in Hnd as [Hni Hnd]. apply Forall_cons in Hfr as [Hf Hfr].
    destruct ok.
    + set (ch := enableReading (new_IoChannel (next_id v) f)). destruct (sync_fresh v ch Hok Hf) as (s & -> & Hp & Hint); [done|done|]. cbn [mbind option_bind].
      change (ch_fd ch) with f in Hint. change (ch_id ch) with (next_id v) in Hint. change (events ch) with EVENT_IN in Hint.
      set (v1 := set_channels _ _). pose proof Hf as (Hfd & Hpos & Hc & Hl).
      assert (server_ok v1) as Hok1.
      { split; cbn [v1 set_channels set_next set_scheduler scheduler connections_map token_directory timers slots server_channel_list next_id next_token].
        - done.
        - intros f' u Hu. destruct (so_task _ Hok _ _ Hu) as (F & D & R & M & S' & C & I & ?). do 6 (split; [done|]). split; [|done].
          rewrite Hint, lookup_insert_ne; [done|]. intros <-. congruence.
        - apply (so_dir _ Hok).
        - apply (so_timer _ Hok).
        - intros f' id e. rewrite Hint. intros Hx. apply lookup_insert_Some in Hx as [[<- [= <- <-]]|[Hne Hx]].
          + right. exists ch. split; [|done]. apply elem_of_app. right. by left.
          + destruct (so_interest _ Hok _ _ _ Hx) as [?|(c & Hch & ?)]; [by left|right]. exists c. split; [|done]. apply elem_of_app. by left.
        - intros c [Hch|Hch%list_elem_of_singleton]%elem_of_app.
          + destruct (so_listen _ Hok _ Hch) as (L1 & L2 & L3 & L4 & L5). assert (f <> ch_fd c) by (intros ->; apply Hl; by apply list_elem_of_fmap_2).
            rewrite Hint, lookup_insert_ne by done. done.
          + subst c. change (ch_fd ch) with f. change (ch_id ch) with (next_id v). rewrite Hint, lookup_insert_eq. do 3 (split; [done|]). split; [|done].
            destruct (slots v !! next_id v) eqn:E; [|done]. pose proof (so_slot_ids _ Hok _ _ E). lia.
        - rewrite map_app. apply NoDup_app. split; [apply (so_nodup _ Hok)|]. split; [|apply NoDup_singleton]. intros x Hx Hx2%list_elem_of_singleton. by subst x.
        - intros id u Hu. pose proof (so_slot_ids _ Hok _ _ Hu). lia.
        - intros id u Hu. pose proof (so_timer_ids _ Hok _ _ Hu). lia.
        - intros c [Hch|Hch%list_elem_of_singleton]%elem_of_app; [pose proof (so_listen_ids _ Hok _ Hch); lia|]. subst c. cbn. lia.
        - apply (so_next _ Hok). }
      assert (moved v [f] [] [] v1) as Hm.
      { split; [done|]. split; [by rewrite app_nil_r|]. unfold listening. cbn [v1 set_channels set_next set_scheduler server_channel_list]. rewrite map_app.
        change (fds v1) with (fds v). change (map ch_fd [ch]) with [f]. change (closed []) with (@nil Z). change (handed []) with (@nil Z).
        cbn [app]. rewrite app_assoc. apply Permutation_cons_append. }
      destruct (IH v1 Hok1 Hnd) as (eff & v' & -> & Hm').
      { apply Forall_forall. intros x Hx. destruct (proj1 (Forall_forall _ _) Hfr x Hx) as (X1 & X2 & X3 & X4). do 3 (split; [done|]).
        unfold listening. cbn [v1 set_channels server_channel_list set_next set_scheduler]. rewrite map_app. intros [Hy|Hy%list_elem_of_singleton]%elem_of_app; [done|].
        subst x. done. }
      exists eff, v'. split; [done|]. exact (moved_trans _ _ _ _ _ _ _ _ _ Hm Hm').
    + destruct (IH v Hok Hnd Hfr) as (eff & v' & -> & Hok' & Ht' & Hf'). cbn [mbind option_bind]. exists (CloseSocket f :: eff), v'. split; [done|].
      split; [done|]. split; [done|]. change (closed (CloseSocket f :: eff)) with (f :: closed eff). change (handed (CloseSocket f :: eff)) with (handed eff).
      cbn [app]. by rewrite Hf'.
  - apply (IH v Hok); done.
Qed.

(** ** Runs *)

(** What the kernel and the callers do: descriptors that are made are not in use; less than 99 connections are pending when another one
    is asked for. *)
Definition event_ok (ev : server_event) v : Prop :=
  match ev with
  | EvListen (Some addrs) => NoDup (made addrs) /\ Forall (fresh v) (made addrs)
  | EvConnect _ resolved _ _ => (size (token_directory v) < 99)%nat /\
      forall sockets f, resolved = Some sockets -> first_socket sockets = Some f -> fresh v f
  | _ => True
  end.

(** The descriptors an event makes. *)
Definition opened (ev : server_event) v : list Z :=
  match ev with
  | EvListen (Some addrs) => match service_name v, server_channel_list v with _ :: _, [] => made addrs | _, _ => [] end
  | EvConnect _ (Some sockets) _ _ => match first_socket sockets with Some f => [f] | None => [] end
  | _ => []
  end.

Fixpoint run_ok (evs : list server_event) v : Prop :=
  match evs with
  | [] => True
  | ev :: evs' => event_ok ev v /\ forall toks eff v', server_step ev v = Some (toks, eff, v') -> run_ok evs' v'
  end.

Fixpoint run_opened (evs : list server_event) v : list Z :=
  match evs with
  | [] => []
  | ev :: evs' => opened ev v ++ match server_step ev v with Some (_, _, v') => run_opened evs' v' | None => [] end
  end.

Lemma step_moved ev v : server_ok v -> event_ok ev v ->
  exists toks eff v', server_step ev v = Some (toks, eff, v') /\ moved v (opened ev v) toks eff v'.
Proof.
  intros Hok Hev. destruct ev as [resolved| | |rd resolved timeout_msec now|tok|id|f e now accepted]; cbn [server_step opened event_ok] in *.
  - unfold startListen. destruct resolved as [addrs|].
    + destruct (service_name v); [eexists [], _, v; split; [reflexivity|by apply moved_refl]|].
      destruct (server_channel_list v); [|eexists [], _, v; split; [reflexivity|by apply moved_refl]].
      destruct (listen_moved addrs v Hok) as (eff & v' & -> & Hm); [apply Hev..|]. cbn [mbind option_bind]. by exists [], eff, v'.
    + destruct (service_name v); [eexists [], _, v; split; [reflexivity|by apply moved_refl]|].
      destruct (server_channel_list v); eexists [], _, v; (split; [reflexivity|by apply moved_refl]).
  - destruct (stopListen_moved v Hok) as [Hm _]. destruct (stopListen v) as [eff v']. by exists [], eff, v'.
  - destruct (stopAll_moved v Hok) as [Hm _]. destruct (stopAll v) as [eff v']. by exists [], eff, v'.
  - destruct Hev as [Hsize Hfresh]. destruct (connect_moved rd resolved timeout_msec now v Hok Hsize Hfresh) as (tok & v' & -> & Hm). cbn [mbind option_bind].
    eexists _, [], v'. split; [reflexivity|]. by destruct resolved.
  - pose proof (cancel_moved tok v Hok) as Hm. destruct (cancelActiveConnecttion tok v) as [eff v']. by exists [], eff, v'.
  - destruct (timers v !! id) as [t|] eqn:Ht; [|exists [], [], v; split; [done|by apply moved_refl]].
    destruct (so_timer _ Hok _ _ Ht) as [_ Hc]. pose proof (timeout_moved t v Hok Hc) as Hm. destruct (on_timeout t v) as [eff v']. by exists [], eff, v'.
  - destruct (interest (scheduler v) !! f) as [[id ev]|] eqn:Hi; [|exists [], [], v; split; [done|by apply moved_refl]].
    pose proof (signals_moved now accepted id (handleIoEvent e) v Hok) as Hm. destruct (on_signals now accepted id (handleIoEvent e) v) as [eff v'].
    exists [], eff, v'. split; [done|]. apply Hm. destruct (so_interest _ Hok _ _ _ Hi) as [(t & Ht & <-)|(ch & Hch & _ & <-)].
    + left. exists t. split; [done|]. destruct (so_task _ Hok _ _ Ht) as (-> & _). done.
    + right. by destruct (so_listen _ Hok _ Hch) as (_ & _ & _ & ? & _).
Qed.

Lemma run_moved evs : forall v, server_ok v -> run_ok evs v ->
  exists toks eff v', server_run evs v = Some (toks, eff, v') /\ moved v (run_opened evs v) toks eff v'.
Proof.
  induction evs as [|ev evs IH]; intros v Hok Hrun; cbn [server_run run_opened].
  - exists [], [], v. split; [done|by apply moved_refl].
  - destruct Hrun as [Hev Hrest]. destruct (step_moved ev v Hok Hev) as (toks & eff & v1 & Hs & Hm). rewrite Hs. cbn [mbind option_bind].
    destruct (IH v1 (proj1 Hm) (Hrest _ _ _ Hs)) as (toks2 & eff2 & v2 & -> & Hm2). cbn [mbind option_bind].
    eexists _, _, v2. split; [reflexivity|]. exact (moved_trans _ _ _ _ _ _ _ _ _ Hm Hm2).
Qed.

Lemma new_server_ok (s : T) service : poller_ok s -> interest s = ∅ -> server_ok (new_ITcpServer s service).
Proof.
  intros Hp Hi. split; cbn [new_ITcpServer scheduler connections_map token_directory timers slots server_channel_list next_id next_token].
  - done.
  - intros f t. by rewrite lookup_empty.
  - intros tok f. by rewrite lookup_empty.
  - intros id t. by rewrite lookup_empty.
  - intros f id e. by rewrite Hi, lookup_empty.
  - intros ch Hch. by apply elem_of_nil in Hch.
  - constructor.
  - intros id t. by rewrite lookup_empty.
  - intros id t. by rewrite lookup_empty.
  - intros ch Hch. by apply elem_of_nil in Hch.
  - lia.
Qed.

Lemma tokens_nodup v : server_ok v -> NoDup (tokens v).
Proof.
  intros Hok. apply NoDup_fmap_2_strong; [|apply NoDup_map_to_list]. intros [f1 t1] [f2 t2] H1%elem_of_map_to_list H2%elem_of_map_to_list He.
  destruct (task_inj v f1 f2 t1 t2 Hok H1 H2) as [-> ->]; [by right; right|done].
Qed.
End Spec.

(** C40. Connections settle.  For every sequence of operations, timeouts and events of the poller, where descriptors made by the kernel are not in use
    and less than 99 connections are pending when another is asked for: no step fails; the tokens that were given out are, each once,
    those notified and those pending, and the pending ones differ; the descriptors that were made are, each once, those closed, those
    handed over with a notification, the pending and the listening ones, so none leaks and none is closed twice; each pending connection is
    watched for writability and has a timer that runs, whose timeout notifies its failure and closes its descriptor; and stopAll settles everything. *)
Theorem connections_settle {T} `{PollerLaws T} (s : T) service evs :
  poller_ok s -> interest s = ∅ -> run_ok evs (new_ITcpServer s service) ->
  exists accepted eff v, server_run evs (new_ITcpServer s service) = Some (accepted, eff, v) /\
    accepted ≡ₚ notified eff ++ tokens v /\ NoDup (tokens v) /\
    run_opened evs (new_ITcpServer s service) ≡ₚ closed eff ++ handed eff ++ fds v ++ listening v /\
    (forall f t, connections_map v !! f = Some t -> interest (scheduler v) !! f = Some (ch_id (task_channel t), EVENT_OUT) /\
       exists v', server_step (EvTimer (timer t)) v = Some ([], [NotifyActive (-1) (token t) (interval t); CloseSocket f], v') /\
         connections_map v' = delete f (connections_map v)) /\
    exists eff' v', stopAll v = (eff', v') /\ tokens v' = [] /\ fds v' = [] /\ listening v' = [] /\
      accepted ≡ₚ notified (eff ++ eff') /\ run_opened evs (new_ITcpServer s service) ≡ₚ closed (eff ++ eff') ++ handed (eff ++ eff').
Proof.
  intros Hp Hi Hrun. pose proof (new_server_ok s service Hp Hi) as Hok.
  destruct (run_moved evs _ Hok Hrun) as (accepted & eff & v & Hr & Hm). pose proof Hm as (Hokv & Htok & Hfds).
  exists accepted, eff, v. split; [done|]. split; [exact Htok|]. split; [by apply tokens_nodup|].
  assert (run_opened evs (new_ITcpServer s service) ++ fds (new_ITcpServer s service) ++ listening (new_ITcpServer s service) = run_opened evs (new_ITcpServer s service)) as Hnil by apply app_nil_r.
  rewrite Hnil in Hfds. split; [exact Hfds|]. split.
  - intros f t Ht. destruct (so_task _ Hokv _ _ Ht) as (<- & _ & _ & Htm & _ & _ & Hint & _). split; [done|]. cbn [server_step]. rewrite Htm.
    eexists. split; [reflexivity|done].
  - destruct (stopAll_moved v Hokv) as (Hm' & Hc & Hl). destruct (stopAll v) as [eff' v']. cbn [fst snd] in *. exists eff', v'. split; [done|].
    assert (tokens v' = [] /\ fds v' = [] /\ listening v' = []) as (E1 & E2 & E3).
    { unfold tokens, fds, listening. rewrite Hc, Hl, map_to_list_empty. done. }
    do 3 (split; [done|]). destruct (moved_trans _ _ _ _ _ _ _ _ _ Hm Hm') as (_ & Ht2 & Hf2). rewrite !app_nil_r in Ht2. rewrite E1, app_nil_r in Ht2.
    rewrite (app_nil_r (run_opened _ _)), Hnil, E2, E3, !app_nil_r in Hf2. split; [exact Ht2|exact Hf2].
Qed.

(** A server listens on one of two addresses, accepts, and makes three connections: one succeeds, one times out, one is pending. *)
Definition sample_run : list server_event :=
  [EvListen (Some [(Some 4, true); (Some 5, false)]);
   EvConnect (fun _ => 0) (Some [None; Some 5]) 3000 100;
   EvConnect (fun _ => 0) (Some [Some 6]) 2000 110;
   EvIo 4 EVENT_IN 120 7;
   EvIo 5 EVENT_OUT 150 (-1);
   EvTimer 5;
   EvConnect (fun _ => 0) (Some [Some 6]) 2000 2200].

#[local] Ltac fresh_fd := split; [done|split; [lia|split; [by vm_compute|by apply (bool_decide_unpack _); vm_compute]]].
#[local] Ltac fresh_socket := split; [by apply Nat.ltb_lt; vm_compute|intros sockets f E1 E2; injection E1 as <-; injection E2 as <-; fresh_fd].
#[local] Ltac next_event := let E := fresh "E" in intros ? ? ? E; vm_compute in E; injection E as <- <- <-.

Lemma connections_settle_witness :
  poller_ok (epoll_empty {[1%positive]}) /\ run_ok sample_run (new_ITcpServer (epoll_empty {[1%positive]}) [56; 48]) /\
  exists v, server_run sample_run (new_ITcpServer (epoll_empty {[1%positive]}) [56; 48]) =
      Some ([1; 2; 3], [CloseSocket 5; NotifyPassive 7; NotifyActive 5 1 50; NotifyActive (-1) 2 2000; CloseSocket 6], v) /\
    exists accepted eff v', server_run sample_run (new_ITcpServer (epoll_empty {[1%positive]}) [56; 48]) = Some (accepted, eff, v') /\
      run_opened sample_run (new_ITcpServer (epoll_empty {[1%positive]}) [56; 48]) ≡ₚ closed eff ++ handed eff ++ fds v' ++ listening v'.
Proof.
  assert (poller_ok (epoll_empty {[1%positive]})) as Hp by apply empty_ok.
  assert (run_ok sample_run (new_ITcpServer (epoll_empty {[1%positive]}) [56; 48])) as Hr.
  { unfold sample_run. cbn [run_ok event_ok]. split.
    { split; [by apply (bool_decide_unpack _); vm_compute|]. apply Forall_cons. split; [fresh_fd|]. apply Forall_cons. split; [fresh_fd|by apply Forall_nil]. }
    next_event. split; [fresh_socket|]. next_event. split; [fresh_socket|]. do 3 (next_event; split; [exact I|]).
    next_event. split; [fresh_socket|]. intros. exact I. }
  split; [exact Hp|]. split; [exact Hr|].
  eexists. split; [vm_compute; reflexivity|].
  destruct (connections_settle (epoll_empty {[1%positive]}) [56; 48] sample_run Hp eq_refl Hr) as (a & eff & v & Hrun & _ & _ & Ho & _).
  exists a, eff, v. split; [exact Hrun|exact Ho].
Defined.

(** ** What the search for a token misses *)

(** The 1001 tokens that are tried from 1 on. *)
Definition busy_tokens : list Z :=
  map Z.of_nat (seq 1 100) ++ map (fun i => 100 + 100 * Z.of_nat i) (seq 1 400) ++ map (fun i => 40100 + 200 * Z.of_nat i) (seq 1 400) ++
  map (fun i => 120100 + Z.of_nat i) (seq 1 101).
Definition busy (l : list Z) : gmap Z Z := list_to_map (map (fun tok => (tok, 5)) l).

(** When every try fails the counter is not 0 but 2^32 - 1, and the token of another connection is given out. *)
Lemma exhausted_token_taken : find_token (fun _ => 0) (busy busy_tokens) 1 = 120201 /\ busy busy_tokens !! 120201 = Some 5.
Proof. by vm_compute. Qed.

(** A free token that is found on the last try counts as a failure. *)
Lemma last_try_refused : token_loop (fun _ => 0) (delete 120200 (busy busy_tokens)) 1000 1 = (120200, 0) /\
  find_token (fun _ => 0) (delete 120200 (busy busy_tokens)) 1 = 0.
Proof. by vm_compute. Qed.

(** A failure of accept is notified as a connection. *)
Lemma failed_accept_notified {T} `{Poller T} (v : ITcpServer T) : on_accept (-1) v = ([NotifyPassive (-1)], v).
Proof. done. Qed.
